(* ===== verification/_CoqProject ===== *)
-Q . S2P
Prelude.v
LinuxList.v
Mm.v
Evict.v
Idr.v
IdrList.v
Gem.v
Rect.v
Lock.v
Context.v
Modes.v
EdidTables.v
Edid.v
Cea.v
EdidModes.v
Formats.v
Vblank.v
FrameBuf.v
FrameBufInv.v
CrtcHelper.v
CrtcHelperInv.v
Timers.v
Fences.v
FenceRegs.v
FenceInv.v
FenceBind.v
FenceRoom.v
FenceSafe.v
Swizzle.v
Pll.v
PllRegs.v
SharedPll.v
Link.v
