(* ===== verification/Prelude.v ===== *)
(** * Verified model of the DRM core of the Solaris X.Org kernel tree

    The repository packages the X Window System for Solaris; its own core logic
    is the port of the Linux Direct Rendering Manager under
    src/open-src/kernel: the module drm (drm/src, headers in sys/drm) with the
    driver i915 on top of it.  This development models the parts of that module
    that keep state and compute something, from the C source, and proves what
    makes them correct.

    ** The parts and how they interact

    - Kernel data structures every other part uses: the intrusive lists of
      drm_linux_list.h ([LinuxList]), the ids of drm_sun_idr.c ([Idr]) and its
      hashed tables of handles ([IdrList]).
    - Address space: drm_mm.c ([Mm]) hands out ranges of the graphics aperture;
      its free holes are threaded through the lists of [LinuxList].  The eviction of
      i915, i915_gem_evict.c ([Evict]), scans its blocks for those whose release makes
      room for an object.
    - The legacy interface for clients that share the hardware: the lock word of
      drm_lock.c ([Lock]), whose owners are the contexts of drm_context.c
      ([Context]), whose handles are ids of [Idr].
    - Buffer objects, drm_gem.c ([Gem]): handles and names over the interface of a
      table that [IdrList] implements, and the counts behind them.
    - Framebuffers, crtcs and planes, drm_crtc.c: the operations ([FrameBuf]) on
      the ids of [Idr] and the invariant of their counts ([FrameBufInv]); the
      pixel formats and the checks of a request are in [Formats].
    - The crtc helpers, drm_crtc_helper.c: the wiring of connectors, encoders and
      crtcs ([CrtcHelper]) and what keeps it sound ([CrtcHelperInv]); it fulfils
      what [FrameBuf] asks of a driver.  Its polling for hot plug runs on the
      timers of drm_sun_timer.c, modelled as threads ([Timers]).
    - Modesetting: rectangles of planes ([Rect], drm_rect.c), display modes
      ([Modes], drm_modes.c), and the way from the bytes a monitor sends to the
      modes of its connector: the blocks ([Edid]), the standard tables
      ([EdidTables]), the CEA-861 extension ([Cea]) and their composition in
      drm_add_edid_modes ([EdidModes]), all of drm_edid.c.
    - Vertical blanking, drm_irq.c with the event queues of drm_fops.c
      ([Vblank]): counters, references, waiting clients and events.
    - Tiled objects of i915, i915_gem_tiling.c with the fence registers of
      i915_gem.c: the constraints and the encoding of the registers ([Fences]),
      the bookkeeping of registers, places and tilings ([FenceRegs]), its
      invariant ([FenceInv], [FenceBind]), what that gives the processor
      ([FenceSafe]), and that [Mm] gives out the places it needs ([FenceRoom]).
      The rest of the file, bit 6 swizzling, is in [Swizzle].
    - The pixel clocks of i915, intel_display.c: the limits of the chips and the
      searches for the divisors of a clock ([Pll]), the registers they are
      written to and read back from ([PllRegs]), and the PLLs that the pipes of a
      PCH share ([SharedPll]).
    - The links of i915: the ratios of clocks, the lanes of the FDI
      (intel_display.c) and the link of a DisplayPort (intel_dp.c), in [Link].

    ** How the model reads

    C integers are values of [Z] with the wrap-around of each operation written
    out ([wrap], [swrap]).  A function on shared state is a step of the monad
    [M S], whose [None] is a panic: a [BUG_ON] that fires, a read outside a
    buffer, a NULL or dangling pointer, a division by zero.  A function that
    runs under a lock from its entry to its exit is one step; where the code
    waits, or shares memory without a lock (the lock word, the vblank count), the
    model has one step per stretch or per access and the theorems quantify over
    the interleavings.  Names of kernel headers that are not part of the
    repository (drm.h, drm_mode.h), the hardware and the callbacks of drivers are
    type classes or arguments, so the theorems hold for all of them; witnesses
    instantiate them with concrete ones.  Error returns are negative integers, as
    in the code.

    [Prelude] holds the machine integers, the monad with its weakest
    preconditions, reflexive-transitive closures and the shared tactics.

    ** What the theorems show

    - Safety over all runs: [Mm.mm_reachable_safe] (allocation never faults,
      blocks stay inside the managed range and never overlap),
      [Vblank.vblank_reachable_safe] (references are exactly accounted for, so
      the [BUG_ON] of drm_vblank_put never fires; no event outlives its file),
      [Gem.gem_reachable_safe] and [FrameBufInv.kms_reachable_safe] (the counts of
      buffer objects and framebuffers are exact, so nothing in use is freed),
      [FenceSafe.fences_sound] (a fence register covers exactly the object that
      owns it), [SharedPll.shared_plls_sound] (the shared PLLs are counted
      exactly, and a running pipe has the values it was set up with),
      [SharedPll.driving_pll_kept], [CrtcHelperInv.crtcs_on_iff_used], [Timers.mod_timer_exclusive],
      [Lock.lock_mutual_exclusion], [Vblank.seqlock_read_consistent].
    - Memory safety on hostile input: whatever bytes a monitor sends,
      [Edid.get_edid_valid], [Edid.for_each_detailed_in_bounds],
      [Cea.cea_walk_in_bounds], [Cea.edid_to_eld_bounded] and
      [EdidModes.add_edid_modes_safe]; where it fails, the failure is a theorem
      ([Edid.get_edid_overflows], [EdidModes.gtf2_divides_by_zero]).
    - Refinement of an abstract specification: lists implement sequences
      ([LinuxList.list_ops_refine]), idr implements a finite map with fresh keys
      ([Idr.idr_refines_map]), and so do the tables of handles
      ([IdrList.idr_list_refines_map]).
    - Searches return what they should, or what they really do: the divisors of
      a clock ([Pll.pll_search_below_first], [Pll.pll_search_first_n],
      [Pll.vlv_search_always_succeeds]), the lanes and depth of a link
      ([Link.fdi_config_settles], [Link.dp_config_best]).
    - Functional correctness of single operations on every branch, termination
      of the loops whose end is not obvious ([Evict.bind_search_terminates]: once an
      eviction has succeeded so does the allocation), and round trips of encodings
      ([FenceSafe.fence_update_exact], [PllRegs.mode_set_clock_roundtrip],
      [Mm.scan_roundtrip], [EdidModes.detailed_roundtrip]).
    - Defects: several theorems state what the code does where that is not what
      its comments or its callers expect, for instance
      [Mm.debug_table_diverges], [Vblank.update_count_loses_wrap],
      [EdidModes.detailed_roundtrip], [Gem.gem_flink_race_leaks],
      [FrameBufInv.setplane_race], [Timers.hotplug_stops_polling],
      [FenceSafe.gtt_size_exact], [Swizzle.bit_17_reads_data] and
      [Pll.vlv_search_always_succeeds].

    ** Bounds and fuel

    Loops over a list or a buffer recurse on it.  A loop that ends for another
    reason takes fuel, and a lemma shows that what its caller passes is enough:
    the walks over linked lists take the size of the heap, the walk over CEA
    blocks the length of the extension, drm_read the length of the queue.  The
    loop of drm_update_vblank_count ends only if the hardware counter settles;
    that is a hypothesis on the driver ([Vblank], [settles]).  The size of a tiled
    object doubles at most 12 times ([FenceRegs.gtt_rounds]).  The loops over
    divisors run through their limits.  In [Link] the logarithm takes 32 rounds for
    a 32-bit number, the ratio is halved at most 23 times, the lanes double at most
    5 times up to 31, and the depth goes down from at most 64.  The search for a place in
    [Evict] ends within two rounds.  Reference counts
    are unbounded integers: their wrap-around takes 2^32 references at once.

    ** What is not modelled

    Output to logs and /proc; memory allocation beyond its success or failure;
    the bindings to the Solaris DDI (drm_sunmod.c, drm_pci.c, drm_kstat.c,
    drm_sun_*.c but the idr and the timers), which call the kernel and decide nothing; DMA
    buffers and the scatter-gather and AGP code of old hardware; register
    programming in i915 beyond the fences, the PLLs and the links, whose meaning is
    the hardware's; of the display code that is planes, watermarks, panels, link
    training and the clocks of Haswell.  The properties and query ioctls of
    drm_crtc.c, drm_fb_helper.c, the AUX channel of DisplayPort, the requests
    that a wait retires and the execution of commands in i915 are not modelled.  The user programs,
    client libraries and build tree of the repository are outside this
    development. *)

From stdpp Require Import base option list gmap numbers sorting.
From Stdlib Require Import ZArith Lia.

#[global] Open Scope Z_scope.

(** ** Scope and databases of the development *)

Declare Scope drm_scope.
Delimit Scope drm_scope with drm.

Create HintDb drm discriminated.

(** ** Machine integers

    A [w]-bit integer of the C program is a [Z]; the wrap-around of each
    operation is written with [wrap] (unsigned) or [swrap] (two's complement). *)

Definition wrap (w z : Z) : Z := z mod 2 ^ w.

Definition swrap (w z : Z) : Z := (z + 2 ^ (w - 1)) mod 2 ^ w - 2 ^ (w - 1).

Abbreviation u8 := (wrap 8).
Abbreviation u32 := (wrap 32).
Abbreviation u64 := (wrap 64).
Abbreviation i32 := (swrap 32).

Definition INT_MAX : Z := 2147483647.
Definition INT_MIN : Z := -2147483648.

Lemma wrap_range w z : 0 <= w → 0 <= wrap w z < 2 ^ w.
Proof. intros Hw. apply Z.mod_pos_bound. apply Z.pow_pos_nonneg; lia. Qed.

Lemma wrap_id w z : 0 <= z < 2 ^ w → wrap w z = z.
Proof. apply Z.mod_small. Qed.

Lemma wrap_wrap w z : wrap w (wrap w z) = wrap w z.
Proof. unfold wrap. apply Z.mod_mod_divide, Z.divide_refl. Qed.

Lemma swrap_id w z : 0 < w → - 2 ^ (w - 1) <= z < 2 ^ (w - 1) → swrap w z = z.
Proof.
  intros Hw Hz. unfold swrap.
  assert (2 ^ w = 2 * 2 ^ (w - 1)) as Hp.
  { rewrite <- Z.pow_succ_r by lia. f_equal. lia. }
  rewrite Z.mod_small by lia. lia.
Qed.

Lemma swrap_range w z : 0 < w → - 2 ^ (w - 1) <= swrap w z < 2 ^ (w - 1).
Proof.
  intros Hw. unfold swrap.
  assert (2 ^ w = 2 * 2 ^ (w - 1)) as Hp.
  { rewrite <- Z.pow_succ_r by lia. f_equal. lia. }
  assert (0 < 2 ^ (w - 1)) by (apply Z.pow_pos_nonneg; lia).
  pose proof (Z.mod_pos_bound (z + 2 ^ (w - 1)) (2 ^ w)). lia.
Qed.

Lemma i32_id z : INT_MIN <= z <= INT_MAX → i32 z = z.
Proof. unfold INT_MIN, INT_MAX. intros. apply swrap_id; cbn; lia. Qed.

Lemma i32_range z : INT_MIN <= i32 z <= INT_MAX.
Proof. pose proof (swrap_range 32 z). cbn in *. unfold INT_MIN, INT_MAX. lia. Qed.

Lemma u64_id z : 0 <= z < 2 ^ 64 → u64 z = z.
Proof. apply wrap_id. Qed.

Lemma u32_id z : 0 <= z < 2 ^ 32 → u32 z = z.
Proof. apply wrap_id. Qed.

(** Disjoint bits add up. *)
Lemma lor_add a k l : 0 <= k → 0 <= l < 2 ^ k → Z.lor (a * 2 ^ k) l = a * 2 ^ k + l.
Proof.
  intros Hk Hl. pose proof (Z.add_lor_land (a * 2 ^ k) l) as Ha.
  enough (Z.land (a * 2 ^ k) l = 0) by lia. clear Ha.
  apply Z.bits_inj'. intros i Hi. rewrite Z.land_spec, Z.bits_0.
  destruct (decide (i < k)); [by rewrite Z.mul_pow2_bits_low|].
  rewrite (proj1 (Z.bounded_iff_bits_nonneg k l Hk ltac:(lia))) by lia. apply andb_false_r.
Qed.

(** A field of bits is what was put there. *)
Lemma bits_at low len f a b z : 0 <= low → 0 <= len → z = a * 2 ^ (low + len) + f * 2 ^ low + b → 0 <= b < 2 ^ low → 0 <= f < 2 ^ len →
  (z / 2 ^ low) mod 2 ^ len = f.
Proof.
  intros Hl Hn -> Hb Hf. rewrite Z.pow_add_r by done.
  replace (a * (2 ^ low * 2 ^ len) + f * 2 ^ low + b) with (b + (a * 2 ^ len + f) * 2 ^ low) by ring.
  rewrite Z.div_add, (Z.div_small b) by lia. rewrite Z.add_0_l, Z.add_comm, Z.mod_add by lia. by apply Z.mod_small.
Qed.

(** [min] and [max] as the macros of drm_linux.h evaluate them. *)

Definition cmin (a b : Z) : Z := if a <? b then a else b.
Definition cmax (a b : Z) : Z := if b <? a then a else b.

Lemma cmin_min a b : cmin a b = Z.min a b.
Proof. unfold cmin. destruct (Z.ltb_spec a b); lia. Qed.

Lemma cmax_max a b : cmax a b = Z.max a b.
Proof. unfold cmax. destruct (Z.ltb_spec b a); lia. Qed.

(** Truth value of a C comparison, and a C integer used as a condition. *)

Definition b2z (b : bool) : Z := if b then 1 else 0.
Definition z2b (z : Z) : bool := negb (z =? 0).

(** ** errno values (sys/errno.h) *)

Definition ENOENT : Z := 2.
Definition EINTR : Z := 4.
Definition ENXIO : Z := 6.
Definition E2BIG : Z := 7.
Definition EAGAIN : Z := 11.
Definition ENOMEM : Z := 12.
Definition EFAULT : Z := 14.
Definition EBUSY : Z := 16.
Definition ENODEV : Z := 19.
Definition EINVAL : Z := 22.
Definition ENOSPC : Z := 28.
Definition ERANGE : Z := 34.
Definition EDEADLK : Z := 45.
Definition ENOTSUP : Z := 48.
Definition EPROTO : Z := 71.

(** ** Stateful code that may fault

    A step of the kernel code on a state [S]: [None] is a panic ([BUG_ON],
    [ASSERT]) or the dereference of a NULL or unallocated pointer. *)

Definition M (S A : Type) : Type := S → option (A * S).

#[export] Instance M_ret {S} : MRet (M S) := λ A a s, Some (a, s).
#[export] Instance M_bind {S} : MBind (M S) := λ A B f m s,
  match m s with
  | Some (a, s') => f a s'
  | None => None
  end.

Definition get {S} : M S S := λ s, Some (s, s).
Definition put {S} (s : S) : M S unit := λ _, Some (tt, s).
Definition modify {S} (f : S → S) : M S unit := λ s, Some (tt, f s).
Definition gets {S A} (f : S → A) : M S A := λ s, Some (f s, s).
Definition fault {S A} : M S A := λ _, None.

(** Lift a partial read or a partial update of the state. *)
Definition reads {S A} (f : S → option A) : M S A := λ s,
  match f s with Some a => Some (a, s) | None => None end.
Definition updates {S} (f : S → option S) : M S unit := λ s,
  match f s with Some s' => Some (tt, s') | None => None end.

(** [BUG_ON(c)]: panic when the condition holds. *)
Definition BUG_ON {S} (c : bool) : M S unit :=
  if c then fault else mret tt.

(** [if (c) body]. *)
Definition when {S} (c : bool) (m : M S unit) : M S unit :=
  if c then m else mret tt.

(** Result of a loop run with fuel. *)
Inductive run (A : Type) : Type :=
  | Done (a : A)
  | Faulted
  | OutOfFuel.
Arguments Done {_} _.
Arguments Faulted {_}.
Arguments OutOfFuel {_}.

(** Composition lemmas for [M]. *)

Lemma M_bind_Some {S A B} (m : M S A) (f : A → M S B) s a s' :
  m s = Some (a, s') → (m ≫= f) s = f a s'.
Proof. intros H. unfold mbind, M_bind. by rewrite H. Qed.

Lemma M_bind_inv {S A B} (m : M S A) (f : A → M S B) s b s'' :
  (m ≫= f) s = Some (b, s'') → ∃ a s', m s = Some (a, s') ∧ f a s' = Some (b, s'').
Proof.
  unfold mbind, M_bind. destruct (m s) as [[a s']|]; [|done]. eauto.
Qed.

Lemma M_bind_assoc {S A B C} (m : M S A) (f : A → M S B) (g : B → M S C) s :
  ((m ≫= f) ≫= g) s = (m ≫= (λ a, f a ≫= g)) s.
Proof. unfold mbind, M_bind. by destruct (m s) as [[? ?]|]. Qed.

Lemma M_bind_ext {S A B} (m : M S A) (f g : A → M S B) s :
  (∀ a s', f a s' = g a s') → (m ≫= f) s = (m ≫= g) s.
Proof. intros H. unfold mbind, M_bind. destruct (m s) as [[? ?]|]; [apply H|done]. Qed.

Lemma BUG_ON_false {S} (s : S) : BUG_ON false s = Some (tt, s).
Proof. done. Qed.

Lemma get_bind {S A} (f : S → M S A) s : (get ≫= f) s = f s s.
Proof. done. Qed.

Lemma modify_bind {S A} (g : S → S) (f : unit → M S A) s :
  (modify g ≫= f) s = f tt (g s).
Proof. done. Qed.

Lemma ret_bind {S A B} (a : A) (f : A → M S B) s : ((mret a : M S A) ≫= f) s = f a s.
Proof. done. Qed.

Lemma BUG_ON_bind {S A} (c : bool) (f : unit → M S A) s :
  c = false → (BUG_ON c ≫= f) s = f tt s.
Proof. by intros ->. Qed.

(** Weakest preconditions: [m] does not fault from [d], and its result satisfies [Q]. *)
Definition wp {S B} (m : M S B) (d : S) (Q : B → S → Prop) : Prop :=
  match m d with Some (b, d') => Q b d' | None => False end.

Lemma wp_bind {S B C} (m : M S B) (f : B → M S C) d Q :
  wp (m ≫= f) d Q ↔ wp m d (λ b d', wp (f b) d' Q).
Proof. unfold wp, mbind, M_bind. by destruct (m d) as [[? ?]|]. Qed.

Lemma wp_mono {S B} (m : M S B) d (Q Q' : B → S → Prop) : wp m d Q → (∀ b d', Q b d' → Q' b d') → wp m d Q'.
Proof. unfold wp. destruct (m d) as [[? ?]|]; eauto. Qed.

Lemma wp_run {S B} (m : M S B) d Q : wp m d Q → ∃ b d', m d = Some (b, d') ∧ Q b d'.
Proof. unfold wp. destruct (m d) as [[? ?]|]; [eauto|done]. Qed.

Lemma wp_of {S B} (m : M S B) d b d' (Q : B → S → Prop) : m d = Some (b, d') → Q b d' → wp m d Q.
Proof. unfold wp. by intros ->. Qed.

Lemma wp_and {S B} (m : M S B) d (Q R : B → S → Prop) : wp m d Q → wp m d R → wp m d (λ b d', Q b d' ∧ R b d').
Proof. unfold wp. by destruct (m d) as [[? ?]|]. Qed.

Lemma wp_all {S B X} (m : M S B) d (Q : B → S → Prop) (R : X → B → S → Prop) :
  wp m d Q → (∀ x, wp m d (R x)) → wp m d (λ b d', Q b d' ∧ ∀ x, R x b d').
Proof. unfold wp. by destruct (m d) as [[? ?]|]. Qed.

(** [list_for_each_entry] over a list that the body leaves alone. *)
Fixpoint for_each {S X} (l : list X) (body : X → M S unit) : M S unit :=
  match l with
  | [] => mret tt
  | x :: l => body x;; for_each l body
  end.

(** A loop whose body keeps [I], makes [P] true of its element and keeps it true
    of the others. *)
Lemma for_each_inv {S X} (I : S → Prop) (P : X → S → Prop) (l : list X) (body : X → M S unit) : ∀ s,
  (∀ p s, p ∈ l → I s → wp (body p) s (λ _ s', I s' ∧ P p s' ∧ ∀ q, P q s → P q s')) → I s →
  wp (for_each l body) s (λ _ s', I s' ∧ (∀ p, p ∈ l → P p s') ∧ ∀ q, P q s → P q s').
Proof.
  induction l as [|p l IH]; intros s Hb Hs; cbn [for_each].
  { split; [done|]. split; [by intros ? ?%not_elem_of_nil|done]. }
  apply wp_bind. eapply wp_mono; [apply (Hb p s); [by left|done]|]. intros _ s1 (Hi1 & Hp1 & Hk1). cbv beta.
  eapply wp_mono; [apply (IH s1); [|done]|].
  { intros q s2 Hq. apply Hb. by right. }
  intros _ s2 (Hi2 & Hp2 & Hk2). split; [done|]. split; [|auto]. intros q [->|Hq]%elem_of_cons; auto.
Qed.

(** Reflexive-transitive closure used by the step relations. *)

Inductive star {S} (R : S → S → Prop) : S → S → Prop :=
  | star_refl s : star R s s
  | star_step s1 s2 s3 : R s1 s2 → star R s2 s3 → star R s1 s3.

Lemma star_invariant {S} (R : S → S → Prop) (P : S → Prop) s s' :
  (∀ a b, P a → R a b → P b) → P s → star R s s' → P s'.
Proof. intros Hstep Hs Hstar. induction Hstar; eauto. Qed.

(** ** Lists *)

Lemma last_cons {A} (x : A) xs d : List.last (x :: xs) d = List.last xs x.
Proof.
  revert x d. induction xs as [|y xs IH]; intros x d; [done|].
  change (List.last (y :: xs) d = List.last (y :: xs) x). by rewrite !IH.
Qed.

Lemma last_elem_of {A} (xs : list A) d : List.last xs d ∈ d :: xs.
Proof.
  revert d. induction xs as [|x xs IH]; intros d; [by apply list_elem_of_singleton|].
  rewrite last_cons. apply elem_of_cons. right. apply IH.
Qed.

Lemma last_elem_of_ne {A} (x : A) xs d : List.last (x :: xs) d ∈ x :: xs.
Proof. rewrite last_cons. apply last_elem_of. Qed.

(** Distinct keys of a map are no more than its size. *)
Lemma length_le_size {K A} `{Countable K} (m : gmap K A) (xs : list K) :
  NoDup xs → (∀ k, k ∈ xs → is_Some (m !! k)) → (length xs <= size m)%nat.
Proof.
  intros Hnd Hin. rewrite <- (size_dom m), <- (size_list_to_set (C := gset K) xs) by done.
  apply subseteq_size. intros k Hk%elem_of_list_to_set. by apply elem_of_dom, Hin.
Qed.

(** ** Counting

    A count per key, changed at one key. *)

Definition bump {K} `{EqDecision K} (i : K) (k : Z) (g : K → Z) : K → Z := λ j, g j + if decide (j = i) then k else 0.

Lemma bump_ne {K} `{EqDecision K} (i : K) k g j : j ≠ i → bump i k g j = g j.
Proof. intros Hj. unfold bump. rewrite decide_False by done. lia. Qed.
Lemma bump_eq {K} `{EqDecision K} (i : K) k g : bump i k g i = g i + k.
Proof. unfold bump. by rewrite decide_True. Qed.
Lemma bump_bump {K} `{EqDecision K} (i : K) k k' g j : bump i k (bump i k' g) j = bump i (k' + k) g j.
Proof. unfold bump. case_decide; lia. Qed.
Lemma bump_0 {K} `{EqDecision K} (i : K) g j : bump i 0 g j = g j.
Proof. unfold bump. case_decide; lia. Qed.
Lemma bump_back {K} `{EqDecision K} (i : K) k g j : bump i (- k) (bump i k g) j = g j.
Proof. rewrite bump_bump. replace (k + - k) with 0 by lia. apply bump_0. Qed.
Lemma bump_forth {K} `{EqDecision K} (i : K) k g j : bump i k (bump i (- k) g) j = g j.
Proof. rewrite bump_bump. replace (- k + k) with 0 by lia. apply bump_0. Qed.

(** The sum of [f] over the values of a map. *)
Definition msum {K V} `{Countable K} (f : V → Z) (m : gmap K V) : Z := map_fold (λ _ v n, n + f v) 0 m.

Section Sums.
Context {K V : Type} `{Countable K} (f : V → Z).
Implicit Types (m : gmap K V).

Lemma msum_empty : msum f (∅ : gmap K V) = 0.
Proof. apply map_fold_empty. Qed.

Lemma msum_insert m k v : m !! k = None → msum f (<[k := v]> m) = msum f m + f v.
Proof. intros Hk. unfold msum. rewrite map_fold_insert_L; [lia| |done]. intros. lia. Qed.

Lemma msum_delete m k v : m !! k = Some v → msum f (delete k m) = msum f m - f v.
Proof.
  intros Hk. rewrite <- (insert_delete_id m k v) at 2 by done. rewrite msum_insert by apply lookup_delete_eq. lia.
Qed.

Lemma msum_update m k v v' : m !! k = Some v → msum f (<[k := v']> m) = msum f m - f v + f v'.
Proof.
  intros Hk. rewrite <- (insert_delete_eq m k v'), msum_insert by apply lookup_delete_eq. by rewrite (msum_delete m k v).
Qed.

Lemma msum_nonneg m : (∀ v, 0 <= f v) → 0 <= msum f m.
Proof.
  intros Hf. unfold msum. apply (map_fold_weak_ind (λ r (_ : gmap K V), 0 <= r)); [lia|].
  intros k v ? r _ Hr. specialize (Hf v). lia.
Qed.

Lemma msum_le m k v : (∀ v, 0 <= f v) → m !! k = Some v → f v <= msum f m.
Proof. intros Hf Hk. pose proof (msum_delete m k v Hk). pose proof (msum_nonneg (delete k m) Hf). lia. Qed.

Lemma msum_pos m : msum f m ≠ 0 → ∃ k v, m !! k = Some v ∧ f v ≠ 0.
Proof.
  unfold msum. apply (map_fold_weak_ind (λ r (m : gmap K V), r ≠ 0 → ∃ k v, m !! k = Some v ∧ f v ≠ 0)); [done|].
  intros k v m' r Hk IH Hr. destruct (decide (f v = 0)) as [Hv|Hv]; [|exists k, v; by rewrite lookup_insert_eq].
  destruct IH as (k' & v' & Hk' & ?); [lia|]. exists k', v'. rewrite lookup_insert_ne; [done|]. intros ->. congruence.
Qed.
End Sums.

(** ** Shared tactics *)

(** Case analysis on the tests of the model. *)
Ltac case_bool :=
  match goal with
  | |- context [Z.ltb ?a ?b] => destruct (Z.ltb_spec a b)
  | |- context [Z.leb ?a ?b] => destruct (Z.leb_spec a b)
  | |- context [Z.eqb ?a ?b] => destruct (Z.eqb_spec a b)
  end.

(** Turn boolean hypotheses on [Z] into arithmetic. *)
Ltac bool_to_Z :=
  repeat match goal with
  | H : (_ && _)%bool = true |- _ => apply andb_true_iff in H as [? ?]
  | H : (_ || _)%bool = false |- _ => apply orb_false_iff in H as [? ?]
  | H : negb _ = true |- _ => apply negb_true_iff in H
  | H : negb _ = false |- _ => apply negb_false_iff in H
  | H : (_ <? _) = true |- _ => apply Z.ltb_lt in H
  | H : (_ <? _) = false |- _ => apply Z.ltb_ge in H
  | H : (_ <=? _) = true |- _ => apply Z.leb_le in H
  | H : (_ <=? _) = false |- _ => apply Z.leb_gt in H
  | H : (_ =? _) = true |- _ => apply Z.eqb_eq in H
  | H : (_ =? _) = false |- _ => apply Z.eqb_neq in H
  end.

(** Run the first action of a goal [(m ≫= f) s = _] whose result is known. *)
Ltac mrun H := rewrite (M_bind_Some _ _ _ _ _ H).
