(* ===== verification/LinuxList.v ===== *)
(** * drm_linux_list.h: the intrusive circular lists of the driver

    The list heads live in a heap: a finite map from addresses to
    [next]/[prev]/[contain_ptr] triples.  Every macro of drm_linux_list.h is
    the sequence of loads and stores its body makes, and faults ([None]) when a
    NULL or unallocated pointer is dereferenced.  [dll h hd xs] relates the heap
    to the sequence of addresses linked at the head [hd], and the theorems show
    that the macros implement the sequence operations. *)

From stdpp Require Import base option list gmap.
From Stdlib Require Import ZArith Lia.
From S2P Require Import Prelude.

(** [struct list_head]; a pointer is an [option], [None] is NULL. *)
Record list_head (A C : Type) : Type := mk_list_head {
  lh_next : option A;
  lh_prev : option A;
  lh_contain_ptr : option C;
}.
Arguments mk_list_head {_ _} _ _ _.
Arguments lh_next {_ _} _.
Arguments lh_prev {_ _} _.
Arguments lh_contain_ptr {_ _} _.

Section LinuxList.
Context {A : Type} `{Countable A} {C : Type}.

Implicit Types (h : gmap A (list_head A C)) (p q a : A) (xs ys : list A).

(** ** Loads and stores *)

Definition rd_next (p : option A) h : option (option A) :=
  a ← p; lh_next <$> h !! a.
Definition rd_prev (p : option A) h : option (option A) :=
  a ← p; lh_prev <$> h !! a.
Definition rd_contain_ptr (p : option A) h : option (option C) :=
  a ← p; lh_contain_ptr <$> h !! a.

Definition wr_next (p v : option A) h : option (gmap A (list_head A C)) :=
  a ← p; l ← h !! a; Some (<[a := mk_list_head v (lh_prev l) (lh_contain_ptr l)]> h).
Definition wr_prev (p v : option A) h : option (gmap A (list_head A C)) :=
  a ← p; l ← h !! a; Some (<[a := mk_list_head (lh_next l) v (lh_contain_ptr l)]> h).
Definition wr_contain_ptr (p : option A) (v : option C) h : option (gmap A (list_head A C)) :=
  a ← p; l ← h !! a; Some (<[a := mk_list_head (lh_next l) (lh_prev l) v]> h).

#[local] Arguments rd_next : simpl never.
#[local] Arguments rd_prev : simpl never.
#[local] Arguments rd_contain_ptr : simpl never.

(** ** The macros *)

Definition INIT_LIST_HEAD (head : A) h : option (gmap A (list_head A C)) :=
  h ← wr_next (Some head) (Some head) h;
  h ← wr_prev (Some head) (Some head) h;
  wr_contain_ptr (Some head) None h.

Definition list_empty (head : A) h : option bool :=
  n ← rd_next (Some head) h;
  Some (bool_decide (n = Some head)).

Definition list_add (ptr head : A) (entry : C) h : option (gmap A (list_head A C)) :=
  n_node ← rd_next (Some head) h;
  h ← wr_prev (Some ptr) (Some head) h;
  n ← rd_next (Some head) h;
  h ← wr_next (Some ptr) n h;
  h ← wr_prev n_node (Some ptr) h;
  h ← wr_next (Some head) (Some ptr) h;
  wr_contain_ptr (Some ptr) (Some entry) h.

Definition list_add_tail (ptr head : A) (entry : C) h : option (gmap A (list_head A C)) :=
  p_node ← rd_prev (Some head) h;
  p ← rd_prev (Some head) h;
  h ← wr_prev (Some ptr) p h;
  h ← wr_next (Some ptr) (Some head) h;
  h ← wr_next p_node (Some ptr) h;
  h ← wr_prev (Some head) (Some ptr) h;
  wr_contain_ptr (Some ptr) (Some entry) h.

Definition list_del (ptr : A) h : option (gmap A (list_head A C)) :=
  n_node ← rd_next (Some ptr) h;
  p_node ← rd_prev (Some ptr) h;
  p ← rd_prev (Some ptr) h;
  h ← wr_prev n_node p h;
  n ← rd_next (Some ptr) h;
  h ← wr_next p_node n h;
  h ← wr_prev (Some ptr) None h;
  wr_next (Some ptr) None h.

Definition list_del_init (ptr : A) h : option (gmap A (list_head A C)) :=
  h ← list_del ptr h; INIT_LIST_HEAD ptr h.

Definition list_move (ptr head : A) (entry : C) h : option (gmap A (list_head A C)) :=
  h ← list_del ptr h; list_add ptr head entry h.

Definition list_move_tail (ptr head : A) (entry : C) h : option (gmap A (list_head A C)) :=
  h ← list_del ptr h; list_add_tail ptr head entry h.

Definition list_replace (old new : A) h : option (gmap A (list_head A C)) :=
  n ← rd_next (Some old) h;
  h ← wr_next (Some new) n h;
  nn ← rd_next (Some new) h;
  h ← wr_prev nn (Some new) h;
  p ← rd_prev (Some old) h;
  h ← wr_prev (Some new) p h;
  np ← rd_prev (Some new) h;
  wr_next np (Some new) h.

Definition list_splice (list be ne : A) h : option (gmap A (list_head A C)) :=
  e ← list_empty list h;
  if e : bool then Some h else
  first ← rd_next (Some list) h;
  last ← rd_prev (Some list) h;
  h ← wr_prev first (Some be) h;
  h ← wr_next (Some be) first h;
  h ← wr_next last (Some ne) h;
  wr_prev (Some ne) last h.

(** [list_entry(ptr, type, member)]: NULL for NULL, else the back pointer. *)
Definition list_entry (ptr : option A) h : option (option C) :=
  match ptr with
  | None => Some None
  | Some _ => rd_contain_ptr ptr h
  end.

(** [list_for_each(pos, head)]: the addresses visited. *)
Fixpoint list_for_each_from (fuel : nat) (pos : option A) (head : A) h : run (list A) :=
  match fuel with
  | O => OutOfFuel
  | S fuel =>
    if bool_decide (pos = Some head) then Done [] else
    match pos, rd_next pos h with
    | Some a, Some n =>
      match list_for_each_from fuel n head h with
      | Done l => Done (a :: l)
      | r => r
      end
    | _, _ => Faulted
    end
  end.

Definition list_for_each (fuel : nat) (head : A) h : run (list A) :=
  match rd_next (Some head) h with
  | Some n => list_for_each_from fuel n head h
  | None => Faulted
  end.

(** [list_for_each_entry(pos, type, head, member)]: the objects visited;
    [member] gives the address of the list head embedded in an object.  The
    loop ends when [list_entry] yields NULL, not when the head is reached. *)
Fixpoint list_for_each_entry_from (fuel : nat) (pos : option C) (member : C → A) h
    : run (list C) :=
  match fuel with
  | O => OutOfFuel
  | S fuel =>
    match pos with
    | None => Done []
    | Some c =>
      match n ← rd_next (Some (member c)) h; list_entry n h with
      | Some pos' =>
        match list_for_each_entry_from fuel pos' member h with
        | Done l => Done (c :: l)
        | r => r
        end
      | None => Faulted
      end
    end
  end.

Definition list_for_each_entry (fuel : nat) (head : A) (member : C → A) h : run (list C) :=
  match n ← rd_next (Some head) h; list_entry n h with
  | Some pos => list_for_each_entry_from fuel pos member h
  | None => Faulted
  end.

(** ** The sequence a head represents *)

(** [p->next == q] and [q->prev == p]. *)
Definition linked h p q : Prop :=
  (h !! p) ≫= lh_next = Some q ∧ (h !! q) ≫= lh_prev = Some p.

Fixpoint seg h p xs q : Prop :=
  match xs with
  | [] => linked h p q
  | x :: xs => linked h p x ∧ seg h x xs q
  end.

Definition dll h (hd : A) xs : Prop := NoDup (hd :: xs) ∧ seg h hd xs hd.

(** [contain_ptr] of every element is the object [f] says. *)
Definition contains h (f : A → C) xs : Prop :=
  Forall (λ a, (h !! a) ≫= lh_contain_ptr = Some (f a)) xs.

(** ** Views of the heap *)

Definition nxt h a : option A := (h !! a) ≫= lh_next.
Definition prv h a : option A := (h !! a) ≫= lh_prev.
Definition con h a : option C := (h !! a) ≫= lh_contain_ptr.

Definition set_next (v : option A) (l : list_head A C) : list_head A C := mk_list_head v (lh_prev l) (lh_contain_ptr l).
Definition set_prev (v : option A) (l : list_head A C) : list_head A C := mk_list_head (lh_next l) v (lh_contain_ptr l).
Definition set_contain (v : option C) (l : list_head A C) : list_head A C := mk_list_head (lh_next l) (lh_prev l) v.

Lemma wr_next_alter a v h :
  is_Some (h !! a) → wr_next (Some a) v h = Some (alter (set_next v) a h).
Proof.
  intros [l Hl]. unfold wr_next. cbn. rewrite Hl. cbn.
  by rewrite (alter_alt_Some (set_next v) h a l Hl).
Qed.

Lemma wr_prev_alter a v h :
  is_Some (h !! a) → wr_prev (Some a) v h = Some (alter (set_prev v) a h).
Proof.
  intros [l Hl]. unfold wr_prev. cbn. rewrite Hl. cbn.
  by rewrite (alter_alt_Some (set_prev v) h a l Hl).
Qed.

Lemma wr_contain_alter a v h :
  is_Some (h !! a) → wr_contain_ptr (Some a) v h = Some (alter (set_contain v) a h).
Proof.
  intros [l Hl]. unfold wr_contain_ptr. cbn. rewrite Hl. cbn.
  by rewrite (alter_alt_Some (set_contain v) h a l Hl).
Qed.

Lemma rd_next_nxt a h : is_Some (h !! a) → rd_next (Some a) h = Some (nxt h a).
Proof. intros [l Hl]. unfold rd_next, nxt. cbn. by rewrite Hl. Qed.

Lemma rd_prev_prv a h : is_Some (h !! a) → rd_prev (Some a) h = Some (prv h a).
Proof. intros [l Hl]. unfold rd_prev, prv. cbn. by rewrite Hl. Qed.

Lemma rd_contain_con a h : is_Some (h !! a) → rd_contain_ptr (Some a) h = Some (con h a).
Proof. intros [l Hl]. unfold rd_contain_ptr, con. cbn. by rewrite Hl. Qed.

Lemma nxt_Some a b h : nxt h a = Some b → is_Some (h !! a).
Proof. unfold nxt. destruct (h !! a); [eauto|done]. Qed.
Lemma prv_Some a b h : prv h a = Some b → is_Some (h !! a).
Proof. unfold prv. destruct (h !! a); [eauto|done]. Qed.

(** What a store changes, through each of the three views. *)

Ltac solve_view :=
  intros; unfold nxt, prv, con in *; rewrite lookup_alter; case_decide; subst;
  first [ by match goal with H : is_Some (?m !! ?k) |- _ => destruct H as [? ->] end
        | by match goal with |- context [?m !! ?k] => destruct (m !! k) end ].

Lemma nxt_set_next a b v h : is_Some (h !! a) →
  nxt (alter (set_next v) a h) b = if decide (a = b) then v else nxt h b.
Proof. solve_view. Qed.
Lemma nxt_set_prev a b v h : nxt (alter (set_prev v) a h) b = nxt h b.
Proof. solve_view. Qed.
Lemma nxt_set_contain a b v h : nxt (alter (set_contain v) a h) b = nxt h b.
Proof. solve_view. Qed.
Lemma prv_set_prev a b v h : is_Some (h !! a) →
  prv (alter (set_prev v) a h) b = if decide (a = b) then v else prv h b.
Proof. solve_view. Qed.
Lemma prv_set_next a b v h : prv (alter (set_next v) a h) b = prv h b.
Proof. solve_view. Qed.
Lemma prv_set_contain a b v h : prv (alter (set_contain v) a h) b = prv h b.
Proof. solve_view. Qed.
Lemma con_set_contain a b v h : is_Some (h !! a) →
  con (alter (set_contain v) a h) b = if decide (a = b) then v else con h b.
Proof. solve_view. Qed.
Lemma con_set_next a b v h : con (alter (set_next v) a h) b = con h b.
Proof. solve_view. Qed.
Lemma con_set_prev a b v h : con (alter (set_prev v) a h) b = con h b.
Proof. solve_view. Qed.

(** [h'] differs from [h] only in the links and back pointers given, and has
    the same addresses. *)
Record heap_upd h h' (fn fp : A → option A) (fc : A → option C) : Prop := {
  upd_nxt a : nxt h' a = fn a;
  upd_prv a : prv h' a = fp a;
  upd_con a : con h' a = fc a;
  upd_dom a : is_Some (h' !! a) ↔ is_Some (h !! a);
}.

Ltac heap_alloc := rewrite ?lookup_alter_is_Some; assumption.

(** Symbolic execution of a macro whose addresses are all allocated. *)
Ltac heap_exec :=
  repeat first
    [ rewrite wr_next_alter by heap_alloc | rewrite wr_prev_alter by heap_alloc
    | rewrite wr_contain_alter by heap_alloc
    | rewrite rd_next_nxt by heap_alloc | rewrite rd_prev_prv by heap_alloc
    | rewrite rd_contain_con by heap_alloc
    | progress cbn [mbind option_bind] ].

Ltac heap_view :=
  repeat first
    [ rewrite nxt_set_prev | rewrite nxt_set_contain | rewrite prv_set_next
    | rewrite prv_set_contain | rewrite con_set_next | rewrite con_set_prev
    | rewrite nxt_set_next by heap_alloc | rewrite prv_set_prev by heap_alloc
    | rewrite con_set_contain by heap_alloc ].

Ltac heap_done :=
  split; intros; heap_view; repeat case_decide; simplify_eq; try congruence;
  rewrite ?lookup_alter_is_Some; done.

Lemma INIT_LIST_HEAD_run p h :
  is_Some (h !! p) →
  ∃ h', INIT_LIST_HEAD p h = Some h' ∧
    heap_upd h h'
      (λ a, if decide (a = p) then Some p else nxt h a)
      (λ a, if decide (a = p) then Some p else prv h a)
      (λ a, if decide (a = p) then None else con h a).
Proof.
  intros Hp. unfold INIT_LIST_HEAD. heap_exec. eexists. split; [done|]. heap_done.
Qed.

Lemma list_add_run ptr head n e h :
  ptr ≠ head → ptr ≠ n → is_Some (h !! ptr) → is_Some (h !! n) → nxt h head = Some n →
  ∃ h', list_add ptr head e h = Some h' ∧
    heap_upd h h'
      (λ a, if decide (a = head) then Some ptr else if decide (a = ptr) then Some n else nxt h a)
      (λ a, if decide (a = n) then Some ptr else if decide (a = ptr) then Some head else prv h a)
      (λ a, if decide (a = ptr) then Some e else con h a).
Proof.
  intros Hph Hpn Hptr Hn Hnext. pose proof (nxt_Some _ _ _ Hnext).
  unfold list_add. heap_exec. heap_view. rewrite Hnext. heap_exec.
  eexists. split; [done|]. heap_done.
Qed.

Lemma list_add_tail_run ptr head p e h :
  ptr ≠ head → ptr ≠ p → is_Some (h !! ptr) → is_Some (h !! p) → prv h head = Some p →
  ∃ h', list_add_tail ptr head e h = Some h' ∧
    heap_upd h h'
      (λ a, if decide (a = p) then Some ptr else if decide (a = ptr) then Some head else nxt h a)
      (λ a, if decide (a = head) then Some ptr else if decide (a = ptr) then Some p else prv h a)
      (λ a, if decide (a = ptr) then Some e else con h a).
Proof.
  intros Hph Hpn Hptr Hp Hprev. pose proof (prv_Some _ _ _ Hprev).
  unfold list_add_tail. heap_exec. rewrite Hprev. heap_exec.
  eexists. split; [done|]. heap_done.
Qed.

Lemma list_del_run ptr n p h :
  ptr ≠ n → ptr ≠ p → is_Some (h !! n) → is_Some (h !! p) →
  nxt h ptr = Some n → prv h ptr = Some p →
  ∃ h', list_del ptr h = Some h' ∧
    heap_upd h h'
      (λ a, if decide (a = ptr) then None else if decide (a = p) then Some n else nxt h a)
      (λ a, if decide (a = ptr) then None else if decide (a = n) then Some p else prv h a)
      (con h).
Proof.
  intros Hpn Hpp Hn Hp Hnext Hprev. pose proof (nxt_Some _ _ _ Hnext).
  unfold list_del. heap_exec. rewrite Hprev, Hnext. heap_exec. heap_view. rewrite Hnext.
  heap_exec. eexists. split; [done|]. heap_done.
Qed.

(** [list_del], after which the links of the removed element are set again. *)
Lemma list_del_relink_run ptr n p v h :
  ptr ≠ n → ptr ≠ p → is_Some (h !! n) → is_Some (h !! p) →
  nxt h ptr = Some n → prv h ptr = Some p →
  ∃ h1 h2 h3, list_del ptr h = Some h1 ∧ wr_prev (Some ptr) (Some p) h1 = Some h2 ∧
    wr_next (Some ptr) v h2 = Some h3 ∧ (∀ a, a ≠ ptr → h3 !! a = h1 !! a) ∧
    heap_upd h h3
      (λ a, if decide (a = ptr) then v else if decide (a = p) then Some n else nxt h a)
      (λ a, if decide (a = ptr) then Some p else if decide (a = n) then Some p else prv h a)
      (con h).
Proof.
  intros Hpn Hpp Hn Hp Hnext Hprev. pose proof (nxt_Some _ _ _ Hnext).
  unfold list_del. heap_exec. rewrite Hprev, Hnext. heap_exec. heap_view. rewrite Hnext.
  heap_exec. eexists _, _, _. split; [done|]. split; [apply wr_prev_alter; heap_alloc|].
  split; [apply wr_next_alter; heap_alloc|]. split; [|heap_done].
  intros a Ha. by rewrite !(lookup_alter_ne _ _ ptr a) by done.
Qed.

Lemma list_replace_run old new n p h :
  old ≠ new → old ≠ n → old ≠ p → new ≠ n → new ≠ p → is_Some (h !! new) →
  is_Some (h !! n) → is_Some (h !! p) → nxt h old = Some n → prv h old = Some p →
  ∃ h', list_replace old new h = Some h' ∧
    heap_upd h h'
      (λ a, if decide (a = new) then Some n else if decide (a = p) then Some new else nxt h a)
      (λ a, if decide (a = new) then Some p else if decide (a = n) then Some new else prv h a)
      (con h).
Proof.
  intros Hon Hn Hp Hnn Hnp Hnew Han Hap Hnext Hprev.
  pose proof (nxt_Some _ _ _ Hnext).
  unfold list_replace. heap_exec. heap_view. rewrite decide_True by done. rewrite Hnext.
  heap_exec. heap_view. rewrite (decide_True (P := new = new)) by done.
  rewrite decide_False by congruence. rewrite Hprev. heap_exec.
  eexists. split; [done|]. heap_done.
Qed.

(** ** Segments *)

Lemma linked_iff h p q : linked h p q ↔ nxt h p = Some q ∧ prv h q = Some p.
Proof. done. Qed.

Lemma seg_app h p xs y ys q : seg h p (xs ++ y :: ys) q ↔ seg h p xs y ∧ seg h y ys q.
Proof.
  revert p. induction xs as [|x xs IH]; intros p; cbn; [done|].
  rewrite IH. tauto.
Qed.

(** A segment only depends on the links it goes through. *)
Lemma seg_frame h h' p xs q :
  (∀ a, a ∈ p :: xs → nxt h' a = nxt h a) →
  (∀ a, a ∈ xs ++ [q] → prv h' a = prv h a) →
  seg h p xs q → seg h' p xs q.
Proof.
  revert p. induction xs as [|x xs IH]; intros p Hn Hp; cbn.
  - rewrite !linked_iff. rewrite Hn, Hp by set_solver. done.
  - intros [Hl Hs]. split.
    + revert Hl. rewrite !linked_iff. rewrite Hn, Hp by set_solver. done.
    + apply IH; [|..|done]; intros a Ha; [apply Hn|apply Hp]; set_solver.
Qed.

Lemma seg_alloc h p xs q a : seg h p xs q → a ∈ p :: xs ++ [q] → is_Some (h !! a).
Proof.
  revert p. induction xs as [|x xs IH]; intros p; cbn.
  - intros [Hn%nxt_Some Hp%prv_Some] Ha. set_unfold in Ha. destruct_or!; by subst.
  - intros [[Hn%nxt_Some Hp] Hs] Ha. apply elem_of_cons in Ha as [->|Ha]; [done|].
    by apply (IH x).
Qed.

(** ** Lists *)

Lemma dll_alloc h hd xs a : dll h hd xs → a ∈ hd :: xs → is_Some (h !! a).
Proof. intros [_ Hs] Ha. eapply seg_alloc; [done|]. set_solver. Qed.

(** The same circle, seen from one of its elements. *)
Lemma dll_rotate h hd xs p ys : dll h hd (xs ++ p :: ys) → dll h p (ys ++ hd :: xs).
Proof.
  intros [Hnd Hs]. split.
  - by rewrite (Permutation_app_comm (p :: ys) (hd :: xs)).
  - apply seg_app in Hs as [H1 H2]. by apply seg_app.
Qed.

Lemma dll_unrotate h hd xs p ys : dll h p (ys ++ hd :: xs) → dll h hd (xs ++ p :: ys).
Proof. apply dll_rotate. Qed.

Lemma heap_upd_frame h h' fn fp fc a :
  heap_upd h h' fn fp fc → fn a = nxt h a → fp a = prv h a → fc a = con h a →
  h' !! a = h !! a.
Proof.
  intros Hu Hn Hp Hc.
  pose proof (upd_nxt _ _ _ _ _ Hu a) as Hn'. pose proof (upd_prv _ _ _ _ _ Hu a) as Hp'.
  pose proof (upd_con _ _ _ _ _ Hu a) as Hc'. pose proof (upd_dom _ _ _ _ _ Hu a) as Hd.
  rewrite Hn in Hn'. rewrite Hp in Hp'. rewrite Hc in Hc'.
  unfold nxt, prv, con in *.
  destruct (h' !! a) as [[]|], (h !! a) as [[]|]; cbn in *; [congruence| | |done].
  - by destruct (proj1 Hd (mk_is_Some _ _ eq_refl)).
  - by destruct (proj2 Hd (mk_is_Some _ _ eq_refl)).
Qed.

(** Read the three views of the updated heap, then decide the addresses. *)
Ltac upd Hu :=
  rewrite ?linked_iff, ?(upd_nxt _ _ _ _ _ Hu), ?(upd_prv _ _ _ _ _ Hu);
  repeat first [rewrite decide_True by done | rewrite decide_False by set_solver].

(** What an operation on the circle through the addresses [S] leaves alone:
    the addresses outside the circle, and every back pointer but [fc]'s. *)
Definition frame h h' (xs : list A) : Prop := ∀ a, a ∉ xs → h' !! a = h !! a.

Lemma frame_trans h1 h2 h3 xs : frame h1 h2 xs → frame h2 h3 xs → frame h1 h3 xs.
Proof. intros H1 H2 a Ha. by rewrite H2, H1. Qed.

(** The element after [p] in the circle [p :: ys]. *)
Definition succ_of (p : A) (ys : list A) : A := match ys with [] => p | y :: _ => y end.

Lemma dll_next h p ys : dll h p ys → nxt h p = Some (succ_of p ys).
Proof.
  intros [_ Hs]. destruct ys; [exact (proj1 Hs)|exact (proj1 (proj1 Hs))].
Qed.

Lemma dll_prev_of_next h p ys : dll h p ys → prv h (succ_of p ys) = Some p.
Proof.
  intros [_ Hs]. destruct ys; [exact (proj2 Hs)|exact (proj2 (proj1 Hs))].
Qed.

Lemma dll_prev h p ys : dll h p ys → prv h p = Some (List.last ys p).
Proof.
  intros [_ Hs]. destruct ys as [|z ys _] using rev_ind; [exact (proj2 Hs)|].
  rewrite List.last_last. apply seg_app in Hs as [_ Hs]. exact (proj2 Hs).
Qed.

Lemma succ_of_elem p ys : succ_of p ys ∈ p :: ys.
Proof. destruct ys; set_solver. Qed.

(** Linking [ptr] between [p] and its successor, whichever macro does it. *)
Lemma dll_insert h h' p ys ptr e :
  dll h p ys → ptr ∉ p :: ys →
  heap_upd h h'
    (λ a, if decide (a = p) then Some ptr
          else if decide (a = ptr) then Some (succ_of p ys) else nxt h a)
    (λ a, if decide (a = succ_of p ys) then Some ptr
          else if decide (a = ptr) then Some p else prv h a)
    (λ a, if decide (a = ptr) then Some e else con h a) →
  dll h' p (ptr :: ys) ∧ frame h h' (ptr :: p :: ys).
Proof.
  intros [Hnd Hs] Hptr Hu. pose proof (succ_of_elem p ys) as Hsucc.
  split; [split|].
  - apply NoDup_cons in Hnd as [? ?]. repeat apply NoDup_cons_2; set_solver.
  - cbn. upd Hu. split; [done|]. destruct ys as [|y ys]; cbn in *; [by upd Hu|].
    destruct Hs as [Hl Hs]. split; [by upd Hu|]. revert Hs.
    apply NoDup_cons in Hnd as [Hp Hnd]. apply NoDup_cons in Hnd as [Hy Hnd].
    apply seg_frame; intros a Ha; upd Hu; done.
  - intros a Ha. eapply heap_upd_frame; [done|..]; cbn beta; upd Hu; done.
Qed.

(** What a macro that links [ptr] guarantees about the rest of the heap. *)
Definition linked_in h h' ptr (e : C) : Prop :=
  (∀ a, con h' a = if decide (a = ptr) then Some e else con h a) ∧
  (∀ a, is_Some (h' !! a) ↔ is_Some (h !! a)).

(** [list_add] links the new element right after [p]. *)
Lemma dll_list_add h p ys ptr e :
  dll h p ys → ptr ∉ p :: ys → is_Some (h !! ptr) →
  ∃ h', list_add ptr p e h = Some h' ∧ dll h' p (ptr :: ys) ∧
        frame h h' (ptr :: p :: ys) ∧ linked_in h h' ptr e.
Proof.
  intros Hd Hptr Hsome. pose proof (succ_of_elem p ys) as Hsucc.
  destruct (list_add_run ptr p (succ_of p ys) e h) as (h' & Hrun & Hu);
    [set_solver|set_solver|done|by eapply dll_alloc|by apply dll_next|].
  exists h'. split; [done|].
  destruct (dll_insert h h' p ys ptr e) as [? ?]; [done..|].
  do 2 (split; [done|]). split; apply Hu.
Qed.

(** [list_add_tail] links it at the other end, just before [hd]. *)
Lemma dll_list_add_tail h hd xs ptr e :
  dll h hd xs → ptr ∉ hd :: xs → is_Some (h !! ptr) →
  ∃ h', list_add_tail ptr hd e h = Some h' ∧ dll h' hd (xs ++ [ptr]) ∧
        frame h h' (ptr :: hd :: xs) ∧ linked_in h h' ptr e.
Proof.
  intros Hd Hptr Hsome. pose proof (dll_prev _ _ _ Hd) as Hprev.
  assert (List.last xs hd ∈ hd :: xs) as Hlast.
  { destruct xs as [|z zs _] using rev_ind; [set_solver|]. rewrite List.last_last. set_solver. }
  destruct (list_add_tail_run ptr hd (List.last xs hd) e h) as (h' & Hrun & Hu);
    [set_solver|set_solver|done|by eapply dll_alloc|done|].
  exists h'. split; [done|].
  destruct xs as [|z zs _] using rev_ind; cbn [List.last] in *.
  - destruct (dll_insert h h' hd [] ptr e) as [? ?]; [done..|].
    do 2 (split; [done|]). split; apply Hu.
  - rewrite List.last_last in *. apply dll_rotate in Hd. cbn in Hd.
    destruct (dll_insert h h' z (hd :: zs) ptr e) as [Hd' Hf]; [done|set_solver|done|].
    apply (dll_rotate h' z [ptr] hd zs) in Hd'.
    split; [by rewrite <- app_assoc|].
    split; [|split; apply Hu]. intros a Ha. apply Hf. set_solver.
Qed.

(** [list_del] unlinks the element; its own links become NULL. *)
Lemma dll_list_del h hd l1 ptr l2 :
  dll h hd (l1 ++ ptr :: l2) →
  ∃ h', list_del ptr h = Some h' ∧ dll h' hd (l1 ++ l2) ∧
        frame h h' (hd :: l1 ++ ptr :: l2) ∧
        nxt h' ptr = None ∧ prv h' ptr = None ∧ (∀ a, con h' a = con h a) ∧
        (∀ a, is_Some (h' !! a) ↔ is_Some (h !! a)).
Proof.
  intros Hd0. pose proof (dll_rotate _ _ _ _ _ Hd0) as Hd.
  assert (∃ y ys, l2 ++ hd :: l1 = y :: ys) as (y & ys & Heq).
  { destruct l2; cbn; eauto. }
  rewrite Heq in Hd. pose proof Hd as [Hnd Hs].
  pose proof (dll_next _ _ _ Hd) as Hn. pose proof (dll_prev _ _ _ Hd) as Hp. cbn in Hn.
  assert (List.last (y :: ys) ptr ∈ y :: ys) as Hlast.
  { rewrite <- Heq. clear. destruct l1 as [|z zs _] using rev_ind.
    - rewrite List.last_last. set_solver.
    - rewrite app_comm_cons, app_assoc, List.last_last. set_solver. }
  remember (List.last (y :: ys) ptr) as z eqn:Hz. apply NoDup_cons in Hnd as [Hni Hnd].
  assert (ptr ≠ z) as Hpz by (intros <-; done).
  destruct (list_del_run ptr y z h) as (h' & Hrun & Hu);
    [set_solver|done|eapply dll_alloc; [done|set_solver]..|done|done|].
  exists h'. split; [done|].
  assert (dll h' y ys) as Hd'.
  { split; [done|]. destruct Hs as [_ Hs].
    destruct ys as [|w ws _] using rev_ind; [cbn in *; subst z; by upd Hu|].
    rewrite app_comm_cons, List.last_last in Hz. subst w.
    apply NoDup_cons in Hnd as [Hy Hnd]. apply NoDup_app in Hnd as (_ & Hnd & _).
    apply seg_app in Hs as [Hs1 Hs2]. apply seg_app. cbn. split; [|by upd Hu].
    revert Hs1. apply seg_frame; intros a Ha; upd Hu; done. }
  split.
  { destruct l2 as [|y' l2]; cbn in Heq; simplify_eq; [by rewrite app_nil_r|].
    by apply dll_unrotate in Hd'. }
  split; [|split; [by upd Hu|split; [by upd Hu|split; apply Hu]]].
  intros a Ha. assert (a ∉ ptr :: y :: ys) by (rewrite <- Heq; set_solver).
  eapply heap_upd_frame; [done|..]; cbn beta; upd Hu; done.
Qed.

(** Unlinking and linking again elsewhere on the same circle. *)
Lemma dll_list_move h hd l1 ptr l2 e :
  dll h hd (l1 ++ ptr :: l2) →
  ∃ h', list_move ptr hd e h = Some h' ∧ dll h' hd (ptr :: l1 ++ l2) ∧
        frame h h' (hd :: l1 ++ ptr :: l2) ∧ linked_in h h' ptr e.
Proof.
  intros Hd. pose proof Hd as [Hnd _].
  destruct (dll_list_del _ _ _ _ _ Hd) as (h1 & Hrun1 & Hd1 & Hf1 & _ & _ & Hc1 & Ha1).
  assert (ptr ∉ hd :: l1 ++ l2) as Hni.
  { rewrite app_comm_cons, <- Permutation_middle in Hnd. by apply NoDup_cons in Hnd as [? ?]. }
  destruct (dll_list_add h1 hd (l1 ++ l2) ptr e) as (h2 & Hrun2 & Hd2 & Hf2 & Hc2 & Ha2);
    [done|done|apply Ha1; eapply dll_alloc; [done|set_solver]|].
  exists h2. unfold list_move. rewrite Hrun1. cbn. split; [done|]. split; [done|].
  split.
  - intros a Ha. rewrite Hf2, Hf1; set_solver.
  - split; intros a; [rewrite Hc2; case_decide; [done|apply Hc1]|rewrite Ha2; apply Ha1].
Qed.

(** [list_replace] puts [new] in the place of [old] and leaves every back
    pointer, [new]'s included, as it was. *)
Lemma dll_list_replace h hd l1 old l2 new :
  dll h hd (l1 ++ old :: l2) → new ∉ hd :: l1 ++ old :: l2 → is_Some (h !! new) →
  ∃ h', list_replace old new h = Some h' ∧ dll h' hd (l1 ++ new :: l2) ∧
        (∀ a, con h' a = con h a) ∧ (∀ a, is_Some (h' !! a) ↔ is_Some (h !! a)).
Proof.
  intros Hd0 Hnew Hsome. pose proof (dll_rotate _ _ _ _ _ Hd0) as Hd.
  assert (∃ y ys, l2 ++ hd :: l1 = y :: ys) as (y & ys & Heq).
  { destruct l2; cbn; eauto. }
  rewrite Heq in Hd. pose proof Hd as [Hnd Hs].
  assert (new ∉ old :: y :: ys) as Hnew' by (rewrite <- Heq; set_solver).
  pose proof (dll_next _ _ _ Hd) as Hn. pose proof (dll_prev _ _ _ Hd) as Hp. cbn in Hn.
  remember (List.last (y :: ys) old) as z eqn:Hz.
  assert (z ∈ y :: ys) as Hlast.
  { subst z. destruct ys as [|w ws _] using rev_ind; [set_solver|].
    rewrite app_comm_cons, List.last_last. set_solver. }
  apply NoDup_cons in Hnd as [Hni Hnd].
  assert (old ≠ z ∧ new ≠ z) as [??] by (split; intros ->; set_solver).
  destruct (list_replace_run old new y z h) as (h' & Hrun & Hu);
    [set_solver|set_solver|done|set_solver|done|done|eapply dll_alloc; [done|set_solver]..
    |done|done|].
  exists h'. split; [done|]. split; [|split; apply Hu].
  apply dll_unrotate. rewrite Heq. split; [by apply NoDup_cons_2; [set_solver|]|].
  destruct Hs as [_ Hs]. cbn. split; [by upd Hu|].
  destruct ys as [|w ws _] using rev_ind; [cbn in *; subst z; by upd Hu|].
  rewrite app_comm_cons, List.last_last in Hz. subst w.
  apply NoDup_cons in Hnd as [Hy Hnd]. apply NoDup_app in Hnd as (_ & Hnd & _).
  apply seg_app in Hs as [Hs1 Hs2]. apply seg_app. cbn. split; [|by upd Hu].
  revert Hs1. apply seg_frame; intros a Ha; upd Hu; done.
Qed.

(** ** Traversals *)

Lemma list_for_each_from_seg h a xs hd fuel :
  seg h a xs hd → hd ∉ xs → (length xs < fuel)%nat →
  list_for_each_from fuel (Some (List.hd hd xs)) hd h = Done xs.
Proof.
  revert a fuel. induction xs as [|x xs IH]; intros a [|fuel] Hs Hni Hf; cbn in *; try lia.
  - by rewrite bool_decide_true.
  - destruct Hs as [_ Hs]. rewrite bool_decide_false by set_solver.
    assert (nxt h x = Some (List.hd hd xs)) as Hn by (destruct xs; apply Hs).
    pose proof (nxt_Some _ _ _ Hn).
    rewrite rd_next_nxt by done. rewrite Hn.
    rewrite (IH x); [done|done|set_solver|lia].
Qed.

(** One step of [list_for_each_entry]: from [a] to the object of its successor. *)
Lemma entry_step h a b : nxt h a = Some b → is_Some (h !! b) →
  (n ← rd_next (Some a) h; list_entry n h) = Some (con h b).
Proof.
  intros Hn Hb. pose proof (nxt_Some _ _ _ Hn). rewrite rd_next_nxt by done.
  rewrite Hn. cbn -[rd_contain_ptr]. by apply rd_contain_con.
Qed.

Lemma for_each_entry_seg h a xs hd (f : A → C) (member : C → A) fuel :
  seg h a xs hd → contains h f xs → con h hd = None →
  (∀ x, x ∈ xs → member (f x) = x) → (length xs < fuel)%nat →
  list_for_each_entry_from fuel (con h (List.hd hd xs)) member h = Done (f <$> xs).
Proof.
  revert a fuel. induction xs as [|x xs IH]; intros a [|fuel] Hs Hc Hhd Hm Hf; cbn in *; try lia.
  - by rewrite Hhd.
  - destruct Hs as [_ Hs]. apply Forall_cons in Hc as [Hx Hc]. unfold con at 1. rewrite Hx.
    rewrite Hm by set_solver.
    assert (nxt h x = Some (List.hd hd xs)) as Hn by (destruct xs; apply Hs).
    rewrite (entry_step h x (List.hd hd xs)); [|done|].
    + rewrite (IH x); [done|done|done|done|set_solver|lia].
    + eapply seg_alloc; [apply Hs|]. destruct xs; set_solver.
Qed.

(** ** Sequences of list operations against their specification *)

Inductive list_op :=
  | OpAdd (x : A)
  | OpAddTail (x : A)
  | OpDel (x : A)
  | OpMove (x : A)
  | OpMoveTail (x : A).

Definition op_addr (o : list_op) : A :=
  match o with OpAdd x | OpAddTail x | OpDel x | OpMove x | OpMoveTail x => x end.

(** What the operations mean on the sequence; [None] when they are misused:
    adding an element that is linked, removing one that is not. *)
Definition remove_elem (x : A) (xs : list A) : list A := filter (λ y, y ≠ x) xs.

Definition spec_op (o : list_op) xs : option (list A) :=
  match o with
  | OpAdd x => if bool_decide (x ∈ xs) then None else Some (x :: xs)
  | OpAddTail x => if bool_decide (x ∈ xs) then None else Some (xs ++ [x])
  | OpDel x => if bool_decide (x ∈ xs) then Some (remove_elem x xs) else None
  | OpMove x => if bool_decide (x ∈ xs) then Some (x :: remove_elem x xs) else None
  | OpMoveTail x => if bool_decide (x ∈ xs) then Some (remove_elem x xs ++ [x]) else None
  end.

Definition run_op (f : A → C) (hd : A) (o : list_op) h : option (gmap A (list_head A C)) :=
  match o with
  | OpAdd x => list_add x hd (f x) h
  | OpAddTail x => list_add_tail x hd (f x) h
  | OpDel x => list_del x h
  | OpMove x => list_move x hd (f x) h
  | OpMoveTail x => list_move_tail x hd (f x) h
  end.

Fixpoint spec_ops (os : list list_op) xs : option (list A) :=
  match os with [] => Some xs | o :: os => xs ← spec_op o xs; spec_ops os xs end.
Fixpoint run_ops f hd (os : list list_op) h : option (gmap A (list_head A C)) :=
  match os with [] => Some h | o :: os => h ← run_op f hd o h; run_ops f hd os h end.

Lemma filter_all (P : A → Prop) `{∀ x, Decision (P x)} xs : Forall P xs → filter P xs = xs.
Proof.
  induction 1 as [|x xs Hx _ IH]; [done|]. by rewrite filter_cons_True, IH.
Qed.

Lemma remove_elem_app x l1 l2 :
  NoDup (l1 ++ x :: l2) → remove_elem x (l1 ++ x :: l2) = l1 ++ l2.
Proof.
  intros (_ & Hd & [Hx _]%NoDup_cons)%NoDup_app. unfold remove_elem.
  rewrite filter_app, filter_cons_False by tauto.
  f_equal; apply filter_all; apply Forall_forall; set_solver.
Qed.

(** A linked element splits the sequence, and removing it closes the gap. *)
Lemma dll_split h hd xs x : dll h hd xs → x ∈ xs →
  ∃ l1 l2, xs = l1 ++ x :: l2 ∧ remove_elem x xs = l1 ++ l2 ∧ x ∉ l1 ++ l2 ∧ x ≠ hd.
Proof.
  intros [Hnd _] (l1 & l2 & ->)%list_elem_of_split. exists l1, l2.
  apply NoDup_cons in Hnd as [Hhd Hnd].
  rewrite remove_elem_app by done. rewrite <- Permutation_middle in Hnd.
  apply NoDup_cons in Hnd as [? ?]. do 2 (split; [done|]). split; [done|set_solver].
Qed.

(** What every operation keeps: the sequence is represented, its back pointers
    name the objects, the head has the back pointer it had. *)
Definition represents h (f : A → C) (hd : A) (c : option C) xs : Prop :=
  dll h hd xs ∧ contains h f xs ∧ con h hd = c.

Lemma contains_remove h f x l1 l2 : contains h f (l1 ++ x :: l2) → contains h f (l1 ++ l2).
Proof. unfold contains. rewrite !Forall_app, Forall_cons. tauto. Qed.

Lemma contains_con h h' f xs : (∀ a, con h' a = con h a) → contains h f xs → contains h' f xs.
Proof.
  intros Hc. unfold contains. rewrite !Forall_forall. intros Hf a Ha.
  change (con h' a = Some (f a)). rewrite Hc. by apply Hf.
Qed.

(** Linking an element at either end. *)
Lemma represents_link h h' f hd c ptr xs ys :
  represents h f hd c xs → ptr ≠ hd → linked_in h h' ptr (f ptr) → dll h' hd ys →
  (∀ y, y ∈ ys → y = ptr ∨ y ∈ xs) → represents h' f hd c ys.
Proof.
  intros (_ & Hc & Hh) Hne Hl Hd Hys. split; [done|]. split.
  - unfold contains in *. rewrite Forall_forall in *. intros y Hy.
    change (con h' y = Some (f y)). rewrite (proj1 Hl). case_decide; [by subst|].
    destruct (Hys y Hy) as [->|]; [done|by apply Hc].
  - rewrite (proj1 Hl). by rewrite decide_False by done.
Qed.

(** [p] is followed by [x] in the list that follows [p0]. *)
Fixpoint ins_after (p0 p x : A) xs : list A :=
  if decide (p0 = p) then x :: xs else
  match xs with [] => [] | y :: ys => y :: ins_after y p x ys end.

Lemma ins_after_here p x xs : ins_after p p x xs = x :: xs.
Proof. destruct xs; cbn; by rewrite decide_True. Qed.

Lemma ins_after_app p0 p x l1 l2 : p0 ≠ p → p ∉ l1 →
  ins_after p0 p x (l1 ++ p :: l2) = l1 ++ p :: x :: l2.
Proof.
  revert p0. induction l1 as [|y l1 IH]; intros p0 Hne Hni; cbn.
  - by rewrite decide_False, ins_after_here.
  - rewrite decide_False by done. f_equal. apply IH; set_solver.
Qed.

Lemma elem_of_ins_after p0 p x xs y : y ∈ ins_after p0 p x xs → y = x ∨ y ∈ xs.
Proof.
  revert p0. induction xs as [|z xs IH]; intros p0; cbn; case_decide; [set_solver..|].
  rewrite !elem_of_cons. intros [->|Hy%IH]; tauto.
Qed.

Definition same_dom h h' : Prop := ∀ a, is_Some (h' !! a) ↔ is_Some (h !! a).

Lemma represents_frame h h' f hd c xs :
  (∀ a, a ∈ hd :: xs → h' !! a = h !! a) → represents h f hd c xs → represents h' f hd c xs.
Proof.
  intros Hf ([Hnd Hs] & Hc & Hh). split; [split; [done|]|split].
  - revert Hs. apply seg_frame; intros a Ha; unfold nxt, prv; rewrite Hf; set_solver.
  - unfold contains in *. rewrite Forall_forall in *. intros a Ha.
    rewrite Hf by set_solver. by apply Hc.
  - unfold con. rewrite Hf by set_solver. done.
Qed.

(** [list_add] in the middle of a list. *)
Lemma represents_add_after h f hd c xs p ptr :
  represents h f hd c xs → p ∈ hd :: xs → ptr ∉ hd :: xs → is_Some (h !! ptr) →
  ∃ h', list_add ptr p (f ptr) h = Some h' ∧
        represents h' f hd c (ins_after hd p ptr xs) ∧
        frame h h' (ptr :: hd :: xs) ∧ same_dom h h'.
Proof.
  intros Hr Hp Hptr Hsome. pose proof Hr as (Hd & Hc & Hh).
  apply not_elem_of_cons in Hptr as [Hne Hni].
  apply elem_of_cons in Hp as [->|Hp].
  - destruct (dll_list_add h hd xs ptr (f ptr)) as (h' & Hrun & Hd' & Hf & Hl);
      [done|set_solver|done|].
    exists h'. split; [done|]. split; [|split; [done|exact (proj2 Hl)]].
    rewrite ins_after_here.
    eapply (represents_link h _ _ _ _ ptr xs); [done..|set_solver].
  - destruct (dll_split h hd xs p) as (l1 & l2 & -> & _ & Hpl & Hphd); [done..|].
    destruct (dll_list_add h p (l2 ++ hd :: l1) ptr (f ptr)) as (h' & Hrun & Hd' & Hf & Hl);
      [by apply dll_rotate|set_solver|done|].
    exists h'. split; [done|]. rewrite ins_after_app by set_solver.
    change (ptr :: l2 ++ hd :: l1) with ((ptr :: l2) ++ hd :: l1) in Hd'.
    apply dll_unrotate in Hd'.
    split; [|split; [intros a Ha; apply Hf; set_solver|exact (proj2 Hl)]].
    eapply (represents_link h _ _ _ _ ptr (l1 ++ p :: l2)); [done..|set_solver].
Qed.

(** [list_del] anywhere in a list. *)
Lemma represents_del h f hd c l1 x l2 :
  represents h f hd c (l1 ++ x :: l2) →
  ∃ h', list_del x h = Some h' ∧ represents h' f hd c (l1 ++ l2) ∧
        frame h h' (hd :: l1 ++ x :: l2) ∧ same_dom h h'.
Proof.
  intros (Hd & Hc & Hh).
  destruct (dll_list_del h hd l1 x l2) as (h' & Hrun & Hd' & Hf & _ & _ & Hcc & Ha); [done|].
  exists h'. split; [done|]. split; [|done]. split; [done|]. rewrite Hcc. split; [|done].
  eapply contains_con; [done|]. by eapply contains_remove.
Qed.

Lemma run_op_refines h f hd c o xs ys :
  represents h f hd c xs → op_addr o ≠ hd → is_Some (h !! op_addr o) →
  spec_op o xs = Some ys →
  ∃ h', run_op f hd o h = Some h' ∧ represents h' f hd c ys ∧
        frame h h' (op_addr o :: hd :: xs) ∧ same_dom h h'.
Proof.
  intros Hr Hne Hsome Hspec. pose proof Hr as (Hd & Hc & Hh).
  destruct o as [x|x|x|x|x]; cbn in *; case_bool_decide; simplify_eq.
  - destruct (dll_list_add h hd xs x (f x)) as (h' & Hrun & Hd' & Hf & Hl); [done|set_solver|done|].
    exists h'. split; [done|]. split; [|split; [done|exact (proj2 Hl)]].
    eapply (represents_link h _ _ _ _ x xs); [done..|set_solver].
  - destruct (dll_list_add_tail h hd xs x (f x)) as (h' & Hrun & Hd' & Hf & Hl);
      [done|set_solver|done|].
    exists h'. split; [done|]. split; [|split; [done|exact (proj2 Hl)]].
    eapply (represents_link h _ _ _ _ x xs); [done..|set_solver].
  - destruct (dll_split h hd xs x) as (l1 & l2 & -> & -> & _); [done..|].
    destruct (represents_del h f hd _ l1 x l2 Hr) as (h' & Hrun & Hr' & Hf & Hdom).
    exists h'. do 2 (split; [done|]). split; [|done]. intros a Ha. apply Hf. set_solver.
  - destruct (dll_split h hd xs x) as (l1 & l2 & -> & -> & _); [done..|].
    destruct (dll_list_move h hd l1 x l2 (f x)) as (h' & Hrun & Hd' & Hf & Hl); [done|].
    exists h'. split; [done|].
    split; [|split; [intros a Ha; apply Hf; set_solver|exact (proj2 Hl)]].
    eapply (represents_link h _ _ _ _ x (l1 ++ x :: l2)); [done..|set_solver].
  - destruct (dll_split h hd xs x) as (l1 & l2 & -> & -> & Hni & _); [done..|].
    destruct (represents_del h f hd _ l1 x l2 Hr) as (h1 & Hrun1 & Hr1 & Hf1 & Hdom1).
    destruct (dll_list_add_tail h1 hd (l1 ++ l2) x (f x)) as (h2 & Hrun2 & Hd2 & Hf2 & Hl & Ha2);
      [apply Hr1|set_solver|by apply Hdom1|].
    exists h2. unfold list_move_tail. rewrite Hrun1. split; [done|]. split; [|split].
    + eapply (represents_link h1 _ _ _ _ x (l1 ++ l2)); [done..|set_solver].
    + intros a Ha. rewrite Hf2, Hf1; set_solver.
    + intros a. rewrite Ha2. apply Hdom1.
Qed.

(** The open-coded insertion of [c] between [p] and [x]. *)
Definition link_between (c p x : A) h : option (gmap A (list_head A C)) :=
  h ← wr_next (Some p) (Some c) h;
  h ← wr_prev (Some x) (Some c) h;
  h ← wr_next (Some c) (Some x) h;
  wr_prev (Some c) (Some p) h.

Lemma link_between_run c p ys e h : dll h p ys → c ∉ p :: ys → is_Some (h !! c) → con h c = Some e →
  ∃ h', link_between c p (succ_of p ys) h = Some h' ∧ dll h' p (c :: ys) ∧
        (∀ a, con h' a = con h a) ∧ same_dom h h'.
Proof.
  intros Hd Hc Hsome Hcon. pose proof (succ_of_elem p ys) as Hsucc.
  assert (is_Some (h !! p)) by (eapply dll_alloc; [done|apply elem_of_cons; by left]).
  assert (is_Some (h !! succ_of p ys)) by (by eapply dll_alloc).
  assert (c ≠ p ∧ c ≠ succ_of p ys) as [Hcp Hcs] by set_solver.
  assert (∃ h', link_between c p (succ_of p ys) h = Some h' ∧ heap_upd h h'
    (λ a, if decide (a = p) then Some c
          else if decide (a = c) then Some (succ_of p ys) else nxt h a)
    (λ a, if decide (a = succ_of p ys) then Some c
          else if decide (a = c) then Some p else prv h a)
    (λ a, if decide (a = c) then Some e else con h a)) as (h' & Hrun & Hu).
  { unfold link_between. heap_exec. eexists. split; [done|]. heap_done. }
  exists h'. split; [done|]. split; [by eapply dll_insert|]. split.
  - intros a. rewrite (upd_con _ _ _ _ _ Hu). case_decide; by subst.
  - intros a. apply (upd_dom _ _ _ _ _ Hu).
Qed.

(** Taking [c] out and putting it back before an earlier element [x]. *)
Lemma move_before_run h hd l1 x l2 c l3 e :
  dll h hd (l1 ++ x :: l2 ++ c :: l3) → con h c = Some e →
  let p := List.last l1 hd in
  ∃ h1 h', prv h x = Some p ∧ list_del c h = Some h1 ∧ link_between c p x h1 = Some h' ∧
    dll h' hd (l1 ++ c :: x :: l2 ++ l3) ∧ (∀ a, con h' a = con h a) ∧ same_dom h h'.
Proof.
  intros Hd Hcon p. pose proof (dll_rotate _ _ _ _ _ Hd) as Hx. apply dll_prev in Hx.
  assert (∀ (a b : list A) (y z : A), List.last (a ++ y :: b) z = List.last b y) as Hlast.
  { intros a b y z. induction a as [|w a IH] in z |- *; [apply last_cons|].
    rewrite <- app_comm_cons, last_cons. apply IH. }
  rewrite Hlast in Hx. rewrite app_comm_cons, app_assoc in Hd.
  destruct (dll_list_del h hd (l1 ++ x :: l2) c l3 Hd) as (h1 & Hrun1 & Hd1 & _ & _ & _ & Hc1 & Ha1).
  assert (c ∉ hd :: (l1 ++ x :: l2) ++ l3) as Hni.
  { destruct Hd as [Hnd _]. rewrite app_comm_cons, <- Permutation_middle in Hnd.
    by apply NoDup_cons in Hnd as [? _]. }
  assert (is_Some (h1 !! c)) as Hsome.
  { apply Ha1. eapply dll_alloc; [exact Hd|]. set_solver. }
  exists h1. rewrite <- app_assoc in Hd1, Hni. cbn in Hd1, Hni.
  assert (∃ ys, dll h1 p (x :: ys) ∧ c ∉ p :: x :: ys ∧
    ∀ h', dll h' p (c :: x :: ys) → dll h' hd (l1 ++ c :: x :: l2 ++ l3)) as (ys & Hp & Hcy & Hback).
  { subst p. destruct l1 as [|w l1 _] using rev_ind; [by exists (l2 ++ l3)|].
    rewrite List.last_last. rewrite <- app_assoc in Hd1. cbn in Hd1. apply dll_rotate in Hd1.
    exists ((l2 ++ l3) ++ hd :: l1). split; [done|]. split; [set_solver|].
    intros h' Hh. rewrite <- app_assoc. cbn. by apply dll_unrotate. }
  rewrite <- Hc1 in Hcon.
  destruct (link_between_run c p (x :: ys) e h1 Hp Hcy Hsome Hcon) as (h' & Hrun2 & Hd2 & Hc2 & Ha2).
  exists h'. do 3 (split; [done|]). split; [by apply Hback|]. split.
  - intros a. by rewrite Hc2, Hc1.
  - intros a. by rewrite (Ha2 a), Ha1.
Qed.

(** From any element of a circle whose head also names an object, the loop of
    [list_for_each_entry] goes on for ever. *)
Lemma for_each_entry_loops h f hd xs (member : C → A) a fuel :
  represents h f hd (Some (f hd)) xs → (∀ x, x ∈ hd :: xs → member (f x) = x) →
  a ∈ hd :: xs → list_for_each_entry_from fuel (Some (f a)) member h = OutOfFuel.
Proof.
  intros (Hd & Hc & Hh) Hm. revert a.
  induction fuel as [|fuel IH]; intros a Ha; cbn; [done|]. rewrite Hm by done.
  assert (∃ b, b ∈ hd :: xs ∧ nxt h a = Some b) as (b & Hb & Hn).
  { apply elem_of_cons in Ha as [->|Ha].
    - exists (succ_of hd xs). split; [apply succ_of_elem|by apply dll_next].
    - destruct (dll_split h hd xs a Hd Ha) as (l1 & l2 & -> & _).
      apply dll_rotate in Hd. exists (succ_of a (l2 ++ hd :: l1)).
      split; [|by apply dll_next]. destruct l2; set_solver. }
  rewrite (entry_step h a b); [|done|by eapply dll_alloc].
  assert (con h b = Some (f b)) as ->.
  { apply elem_of_cons in Hb as [->|Hb]; [done|].
    unfold contains in Hc. rewrite Forall_forall in Hc. by apply Hc. }
  by rewrite IH.
Qed.

(** ** Theorems *)

(** C6 (list_ops_refine): any sequence of [list_add], [list_add_tail],
    [list_del], [list_move] and [list_move_tail] on allocated elements, correct
    for the sequence a head represents, runs without a fault on the heap, and
    the heap then represents the sequence the specification computes, with
    the same back pointer in the head. *)
Theorem list_ops_refine h f hd c os xs ys :
  represents h f hd c xs →
  Forall (λ o, op_addr o ≠ hd ∧ is_Some (h !! op_addr o)) os →
  spec_ops os xs = Some ys →
  ∃ h', run_ops f hd os h = Some h' ∧ represents h' f hd c ys.
Proof.
  revert h xs. induction os as [|o os IH]; intros h xs Hr Hos Hspec; cbn in *.
  - simplify_eq. eauto.
  - apply Forall_cons in Hos as [[Hne Hsome] Hos].
    destruct (spec_op o xs) as [xs1|] eqn:Ho; cbn in Hspec; [|done].
    destruct (run_op_refines h f hd c o xs xs1) as (h1 & Hrun & Hr1 & _ & Ha); [done..|].
    rewrite Hrun. cbn. apply (IH h1 xs1); [done| |done].
    eapply Forall_impl; [exact Hos|]. intros o' [? ?]. split; [done|by apply Ha].
Qed.

(** On a list whose head has a NULL back
    pointer, as INIT_LIST_HEAD leaves it, [list_for_each_entry] ends, without a
    fault, after visiting exactly the objects of the list in order: one more unit
    of fuel than there are elements is enough. *)
Theorem list_for_each_entry_visits h f hd xs (member : C → A) fuel :
  represents h f hd None xs → (∀ x, x ∈ xs → member (f x) = x) →
  (length xs < fuel)%nat →
  list_for_each_entry fuel hd member h = Done (f <$> xs) ∧
  list_for_each fuel hd h = Done xs.
Proof.
  intros (Hd & Hc & Hh) Hm Hf. pose proof Hd as [[Hni _]%NoDup_cons Hs].
  pose proof (dll_next _ _ _ Hd) as Hn.
  assert (succ_of hd xs = List.hd hd xs) as Hsucc by (by destruct xs).
  split.
  - unfold list_for_each_entry.
    rewrite (entry_step h hd (succ_of hd xs));
      [|done|eapply dll_alloc; [done|apply succ_of_elem]].
    rewrite Hsucc. by eapply for_each_entry_seg.
  - unfold list_for_each. rewrite rd_next_nxt by (by eapply nxt_Some).
    rewrite Hn, Hsucc. by eapply list_for_each_from_seg.
Qed.

End LinuxList.

(** ** Witnesses *)

Section Witness.

(** Five list heads at addresses 0 to 4; 0 is initialised as a list. *)
Definition demo_heap : gmap nat (list_head nat nat) :=
  let l := mk_list_head None None None in
  default ∅ (INIT_LIST_HEAD 0%nat (<[0%nat:=l]> (<[1%nat:=l]> (<[2%nat:=l]>
    (<[3%nat:=l]> {[4%nat:=l]}))))).

Definition demo_ops : list list_op :=
  [OpAdd 1%nat; OpAddTail 2%nat; OpAddTail 3%nat; OpMove 3%nat; OpDel 1%nat;
   OpMoveTail 3%nat].

Lemma demo_represents : represents demo_heap (λ a, a) 0%nat None [].
Proof.
  split; [|split; [constructor|reflexivity]].
  split; [apply NoDup_singleton|]. split; reflexivity.
Qed.

Lemma list_ops_refine_witness :
  ∃ h', run_ops (λ a, a) 0%nat demo_ops demo_heap = Some h' ∧
        represents h' (λ a, a) 0%nat None [2%nat; 3%nat].
Proof.
  apply (list_ops_refine demo_heap (λ a, a) 0%nat None demo_ops [] [2%nat; 3%nat]).
  - apply demo_represents.
  - unfold demo_ops. repeat (apply Forall_cons; split;
      [split; [discriminate|vm_compute; eexists; reflexivity]|]). apply Forall_nil. exact I.
  - reflexivity.
Defined.

Lemma list_for_each_entry_visits_witness :
  list_for_each_entry 1 0%nat (λ a, a) demo_heap = Done [] ∧
  list_for_each 1 0%nat demo_heap = Done [].
Proof.
  apply (list_for_each_entry_visits demo_heap (λ a, a) 0%nat [] (λ a, a) 1).
  - apply demo_represents.
  - intros x Hx. reflexivity.
  - apply le_n.
Defined.

End Witness.
