(* ===== verification/Mm.v ===== *)
(** * drm_mm.c: the range manager

    The allocator state is the heap of its list heads (the node list, threaded
    through [head_node], the hole stack and the list of unused nodes), the
    fields of every [struct drm_mm_node], and the scalar fields of
    [struct drm_mm].  Every function of drm_mm.c is a step of [M drm_mm], with
    its [BUG_ON]s.  [mm_rep] relates a state to the blocks it manages; the
    theorems show that allocation, release and eviction scans do on the blocks
    what they promise and never hit a [BUG_ON]. *)

From stdpp Require Import base option list gmap.
From Stdlib Require Import ZArith Lia.
From S2P Require Import Prelude LinuxList.

(** ** Data *)

(** A node is identified by a positive; [head_node] of the manager is 1. *)
Abbreviation node_id := positive (only parsing).
Definition head_node : node_id := 1%positive.

(** The list heads of the manager: [node_list] and [hole_stack] of each node,
    and the two heads that are fields of [struct drm_mm]. *)
Inductive lh_addr :=
  | NodeList (n : node_id)
  | HoleLink (n : node_id)
  | HoleStack
  | UnusedNodes.

#[export] Instance lh_addr_eq_dec : EqDecision lh_addr.
Proof. solve_decision. Defined.

#[export] Instance lh_addr_countable : Countable lh_addr.
Proof.
  refine (inj_countable'
    (λ a, match a with
          | NodeList n => inl (inl n) | HoleLink n => inl (inr n)
          | HoleStack => inr true | UnusedNodes => inr false end)
    (λ x, match x with
          | inl (inl n) => NodeList n | inl (inr n) => HoleLink n
          | inr true => HoleStack | inr false => UnusedNodes end) _).
  by intros [].
Defined.

Abbreviation lh_heap := (gmap lh_addr (list_head lh_addr positive)).

(** [struct drm_mm_node], without its two list heads. *)
Record drm_mm_node := mk_node {
  hole_follows : bool;
  scanned_block : bool;
  scanned_prev_free : bool;
  scanned_next_free : bool;
  scanned_preceeds_hole : bool;
  allocated : bool;
  node_color : Z;
  node_start : Z;
  node_size : Z;
}.

(** A node as [kzalloc] returns it. *)
Definition zero_node : drm_mm_node := mk_node false false false false false false 0 0 0.

(** [struct drm_mm]; [has_color_adjust] says whether [color_adjust] is set. *)
Record drm_mm := mk_mm {
  mm_lists : lh_heap;
  mm_nodes : gmap positive drm_mm_node;
  num_unused : Z;
  scan_check_range : bool;
  scan_alignment : Z;
  scan_color : Z;
  scan_size : Z;
  scan_hit_start : Z;
  scan_hit_end : Z;
  scanned_blocks : Z;
  scan_start : Z;
  scan_end : Z;
  prev_scanned_node : option node_id;
  has_color_adjust : bool;
}.

(** The driver's [color_adjust] callback, as drm_mm.c relies on it: it only
    narrows the range it is given, when the range ends past [ca_margin]. *)
Class ColorAdjust := {
  color_adjust : node_id → Z → Z * Z → drm_mm → option (Z * Z);
  ca_margin : Z;
  color_adjust_narrows n color s e st s' e' :
    0 <= s <= 2 ^ 62 → ca_margin <= e <= 2 ^ 62 →
    color_adjust n color (s, e) st = Some (s', e') →
    s <= s' <= 2 ^ 62 + 2 ^ 60 ∧ 0 <= e' <= e;
}.

Section Mm.
Context `{CA : ColorAdjust}.

Abbreviation mm := (M drm_mm).

(** ** Access to the state *)

Definition node_of (n : node_id) : mm drm_mm_node := reads (λ s, mm_nodes s !! n).

Definition set_lists (l : lh_heap) (s : drm_mm) : drm_mm :=
  mk_mm l (mm_nodes s) (num_unused s) (scan_check_range s) (scan_alignment s)
    (scan_color s) (scan_size s) (scan_hit_start s) (scan_hit_end s) (scanned_blocks s)
    (scan_start s) (scan_end s) (prev_scanned_node s) (has_color_adjust s).
Definition set_nodes (ns : gmap positive drm_mm_node) (s : drm_mm) : drm_mm :=
  mk_mm (mm_lists s) ns (num_unused s) (scan_check_range s) (scan_alignment s)
    (scan_color s) (scan_size s) (scan_hit_start s) (scan_hit_end s) (scanned_blocks s)
    (scan_start s) (scan_end s) (prev_scanned_node s) (has_color_adjust s).
Definition set_num_unused (z : Z) (s : drm_mm) : drm_mm :=
  mk_mm (mm_lists s) (mm_nodes s) z (scan_check_range s) (scan_alignment s)
    (scan_color s) (scan_size s) (scan_hit_start s) (scan_hit_end s) (scanned_blocks s)
    (scan_start s) (scan_end s) (prev_scanned_node s) (has_color_adjust s).
Definition set_scanned_blocks (z : Z) (s : drm_mm) : drm_mm :=
  mk_mm (mm_lists s) (mm_nodes s) (num_unused s) (scan_check_range s) (scan_alignment s)
    (scan_color s) (scan_size s) (scan_hit_start s) (scan_hit_end s) z
    (scan_start s) (scan_end s) (prev_scanned_node s) (has_color_adjust s).
Definition set_prev_scanned (p : option node_id) (s : drm_mm) : drm_mm :=
  mk_mm (mm_lists s) (mm_nodes s) (num_unused s) (scan_check_range s) (scan_alignment s)
    (scan_color s) (scan_size s) (scan_hit_start s) (scan_hit_end s) (scanned_blocks s)
    (scan_start s) (scan_end s) p (has_color_adjust s).
Definition set_scan_hit (hs he : Z) (s : drm_mm) : drm_mm :=
  mk_mm (mm_lists s) (mm_nodes s) (num_unused s) (scan_check_range s) (scan_alignment s)
    (scan_color s) (scan_size s) hs he (scanned_blocks s)
    (scan_start s) (scan_end s) (prev_scanned_node s) (has_color_adjust s).

Definition upd_node (n : node_id) (f : drm_mm_node → drm_mm_node) : mm unit :=
  updates (λ s, nd ← mm_nodes s !! n; Some (set_nodes (<[n := f nd]> (mm_nodes s)) s)).

(** A list macro applied to the heap of list heads. *)
Definition on_lists (f : lh_heap → option lh_heap) : mm unit :=
  updates (λ s, l ← f (mm_lists s); Some (set_lists l s)).
Definition of_lists {X} (f : lh_heap → option X) : mm X := reads (λ s, f (mm_lists s)).

Definition set_hole_follows (b : bool) (nd : drm_mm_node) : drm_mm_node :=
  mk_node b (scanned_block nd) (scanned_prev_free nd) (scanned_next_free nd)
    (scanned_preceeds_hole nd) (allocated nd) (node_color nd) (node_start nd) (node_size nd).
Definition set_allocated (b : bool) (nd : drm_mm_node) : drm_mm_node :=
  mk_node (hole_follows nd) (scanned_block nd) (scanned_prev_free nd) (scanned_next_free nd)
    (scanned_preceeds_hole nd) b (node_color nd) (node_start nd) (node_size nd).
Definition set_scanned_block (b : bool) (nd : drm_mm_node) : drm_mm_node :=
  mk_node (hole_follows nd) b (scanned_prev_free nd) (scanned_next_free nd)
    (scanned_preceeds_hole nd) (allocated nd) (node_color nd) (node_start nd) (node_size nd).
Definition set_scanned_preceeds_hole (b : bool) (nd : drm_mm_node) : drm_mm_node :=
  mk_node (hole_follows nd) (scanned_block nd) (scanned_prev_free nd) (scanned_next_free nd)
    b (allocated nd) (node_color nd) (node_start nd) (node_size nd).
(** [node->start = start; node->size = size; node->color = color;
    node->allocated = 1]. *)
Definition set_range (start size color : Z) (nd : drm_mm_node) : drm_mm_node :=
  mk_node (hole_follows nd) (scanned_block nd) (scanned_prev_free nd) (scanned_next_free nd)
    (scanned_preceeds_hole nd) true color start size.

(** Fuel for the loops over a list: more than the list heads there are. *)
Definition list_fuel (s : drm_mm) : nat := S (size (mm_lists s)).

(** ** Holes *)

(** [list_entry(ptr, struct drm_mm_node, ..)], dereferenced by the caller. *)
Definition entry_of (p : option lh_addr) : mm node_id :=
  e ← of_lists (list_entry p);
  match e with Some n => mret n | None => fault end.

Definition __drm_mm_hole_node_start (n : node_id) : mm Z :=
  nd ← node_of n; mret (u64 (node_start nd + node_size nd)).

Definition drm_mm_hole_node_start (n : node_id) : mm Z :=
  nd ← node_of n;
  BUG_ON (negb (hole_follows nd));;
  __drm_mm_hole_node_start n.

Definition __drm_mm_hole_node_end (n : node_id) : mm Z :=
  p ← of_lists (rd_next (Some (NodeList n)));
  next ← entry_of p;
  nd ← node_of next;
  mret (node_start nd).

Definition drm_mm_hole_node_end (n : node_id) : mm Z := __drm_mm_hole_node_end n.

(** [if (mm->color_adjust) mm->color_adjust(node, color, &start, &end)]. *)
Definition call_color_adjust (n : node_id) (color : Z) (r : Z * Z) : mm (Z * Z) :=
  s ← get;
  if has_color_adjust s then reads (color_adjust n color r) else mret r.

(** [if (alignment) { tmp = start % alignment; if (tmp) start += alignment - tmp; }]. *)
Definition align_start (start alignment : Z) : Z :=
  if z2b alignment then
    let tmp := u32 (start mod alignment) in
    if z2b tmp then u64 (start + u32 (alignment - tmp)) else start
  else start.

Definition check_free_hole (start end_ size alignment : Z) : bool :=
  if u64 (end_ - start) <? size then false
  else let start := align_start start alignment in
       u64 (start + size) <=? end_.

(** ** Node memory *)

(** [kzalloc(sizeof( *child))]: [r] is the outcome, a new node or NULL. *)
Definition kzalloc_node (r : option node_id) : mm unit :=
  match r with
  | None => mret tt
  | Some n =>
    modify (λ s, set_nodes (<[n := zero_node]> (mm_nodes s)) s);;
    modify (λ s, set_lists (<[NodeList n := mk_list_head None None None]>
                  (<[HoleLink n := mk_list_head None None None]> (mm_lists s))) s)
  end.

Definition kfree_node (n : node_id) : mm unit :=
  modify (λ s, set_nodes (delete n (mm_nodes s)) s);;
  modify (λ s, set_lists (delete (NodeList n) (delete (HoleLink n) (mm_lists s))) s).

Definition drm_mm_kmalloc (r : option node_id) : mm (option node_id) :=
  kzalloc_node r;;
  match r with
  | Some child => mret (Some child)
  | None =>
    e ← of_lists (list_empty UnusedNodes);
    if e : bool then mret None else
    p ← of_lists (rd_next (Some UnusedNodes));
    child ← entry_of p;
    on_lists (list_del (NodeList child));;
    modify (λ s, set_num_unused (num_unused s - 1) s);;
    mret (Some child)
  end.

Definition MM_UNUSED_TARGET : Z := 4.

(** [rs] are the outcomes of the successive allocations. *)
Fixpoint drm_mm_pre_get (rs : list (option node_id)) : mm Z :=
  s ← get;
  if num_unused s <? MM_UNUSED_TARGET then
    match rs with
    | [] => fault
    | None :: _ => mret (if num_unused s <? 2 then - ENOMEM else 0)
    | Some node :: rs =>
      kzalloc_node (Some node);;
      modify (λ s, set_num_unused (num_unused s + 1) s);;
      on_lists (list_add_tail (NodeList node) UnusedNodes node);;
      drm_mm_pre_get rs
    end
  else mret 0.

(** ** Allocation *)

Definition drm_mm_insert_helper (hole_node node : node_id)
    (size alignment color : Z) : mm unit :=
  hole_start ← drm_mm_hole_node_start hole_node;
  hole_end ← drm_mm_hole_node_end hole_node;
  nd ← node_of node;
  BUG_ON (allocated nd);;
  adj ← call_color_adjust hole_node color (hole_start, hole_end);
  let adj_start := align_start adj.1 alignment in
  let adj_end := adj.2 in
  when (adj_start =? hole_start) (
    upd_node hole_node (set_hole_follows false);;
    on_lists (list_del (HoleLink hole_node)));;
  upd_node node (set_range adj_start size color);;
  on_lists (INIT_LIST_HEAD (HoleLink node));;
  on_lists (list_add (NodeList node) (NodeList hole_node) node);;
  BUG_ON (adj_end <? u64 (adj_start + size));;
  upd_node node (set_hole_follows false);;
  after ← __drm_mm_hole_node_start node;
  when (after <? hole_end) (
    on_lists (list_add (HoleLink node) HoleStack node);;
    upd_node node (set_hole_follows true)).

Definition drm_mm_insert_helper_range (hole_node node : node_id)
    (size alignment color start end_ : Z) : mm unit :=
  hole_start ← drm_mm_hole_node_start hole_node;
  hole_end ← drm_mm_hole_node_end hole_node;
  hd ← node_of hole_node;
  nd ← node_of node;
  BUG_ON (negb (hole_follows hd) || allocated nd);;
  let adj_start := if hole_start <? start then start else hole_start in
  let adj_end := if end_ <? hole_end then end_ else hole_end in
  adj ← call_color_adjust hole_node color (adj_start, adj_end);
  let adj_start := align_start adj.1 alignment in
  let adj_end := adj.2 in
  when (adj_start =? hole_start) (
    upd_node hole_node (set_hole_follows false);;
    on_lists (list_del (HoleLink hole_node)));;
  upd_node node (set_range adj_start size color);;
  on_lists (INIT_LIST_HEAD (HoleLink node));;
  on_lists (list_add (NodeList node) (NodeList hole_node) node);;
  BUG_ON (adj_end <? u64 (adj_start + size));;
  BUG_ON (end_ <? u64 (adj_start + size));;
  upd_node node (set_hole_follows false);;
  after ← __drm_mm_hole_node_start node;
  when (after <? hole_end) (
    on_lists (list_add (HoleLink node) HoleStack node);;
    upd_node node (set_hole_follows true)).

(** [drm_mm_for_each_hole(entry, mm, hole_start, hole_end)]: the body goes on
    with an accumulator ([inl]) or returns ([inr]). *)
Fixpoint for_each_hole_from {B R} (fuel : nat) (body : node_id → Z → Z → B → mm (B + R))
    (entry : option node_id) (acc : B) : mm (B + R) :=
  match fuel with
  | O => fault
  | S fuel =>
    match entry with
    | None => mret (inl acc)
    | Some e =>
      hole_start ← drm_mm_hole_node_start e;
      hole_end ← drm_mm_hole_node_end e;
      r ← body e hole_start hole_end acc;
      match r with
      | inr x => mret (inr x)
      | inl acc =>
        p ← of_lists (rd_next (Some (HoleLink e)));
        next ← of_lists (list_entry p);
        for_each_hole_from fuel body next acc
      end
    end
  end.

Definition drm_mm_for_each_hole {B R} (body : node_id → Z → Z → B → mm (B + R)) (acc : B)
    : mm (B + R) :=
  s ← get;
  p ← of_lists (rd_next (Some HoleStack));
  entry ← of_lists (list_entry p);
  for_each_hole_from (list_fuel s) body entry acc.

(** The loop body the two searches share once the range is clipped. *)
Definition search_body (size alignment color : Z) (best_match : bool)
    (entry : node_id) (adj : Z * Z) (acc : option node_id * Z)
    : mm (option node_id * Z + node_id) :=
  s ← get;
  adj' ← call_color_adjust entry color adj;
  if has_color_adjust s && (adj'.2 <=? adj'.1) then mret (inl acc) else
  if negb (check_free_hole adj'.1 adj'.2 size alignment) then mret (inl acc) else
  if negb best_match then mret (inr entry) else
  nd ← node_of entry;
  mret (inl (if node_size nd <? acc.2 then (Some entry, node_size nd) else acc)).

Definition ULONG_MAX : Z := 2 ^ 64 - 1.

Definition search_result (r : option node_id * Z + node_id) : option node_id :=
  match r with inl acc => acc.1 | inr entry => Some entry end.

Definition drm_mm_search_free_generic (size alignment color : Z) (best_match : bool)
    : mm (option node_id) :=
  s ← get;
  BUG_ON (z2b (scanned_blocks s));;
  r ← drm_mm_for_each_hole
        (λ entry adj_start adj_end acc,
           search_body size alignment color best_match entry (adj_start, adj_end) acc)
        (None, ULONG_MAX);
  mret (search_result r).

Definition drm_mm_search_free_in_range_generic (size alignment color start end_ : Z)
    (best_match : bool) : mm (option node_id) :=
  s ← get;
  BUG_ON (z2b (scanned_blocks s));;
  r ← drm_mm_for_each_hole
        (λ entry adj_start adj_end acc,
           let adj_start := if adj_start <? start then start else adj_start in
           let adj_end := if end_ <? adj_end then end_ else adj_end in
           search_body size alignment color best_match entry (adj_start, adj_end) acc)
        (None, ULONG_MAX);
  mret (search_result r).

Definition drm_mm_search_free (size alignment : Z) (best_match : bool) : mm (option node_id) :=
  drm_mm_search_free_generic size alignment 0 best_match.

Definition drm_mm_search_free_in_range (size alignment start end_ : Z) (best_match : bool)
    : mm (option node_id) :=
  drm_mm_search_free_in_range_generic size alignment 0 start end_ best_match.

Definition drm_mm_insert_node_generic (node : node_id) (size alignment color : Z) : mm Z :=
  hole_node ← drm_mm_search_free_generic size alignment color false;
  match hole_node with
  | None => mret (- ENOSPC)
  | Some hole_node => drm_mm_insert_helper hole_node node size alignment color;; mret 0
  end.

Definition drm_mm_insert_node (node : node_id) (size alignment : Z) : mm Z :=
  drm_mm_insert_node_generic node size alignment 0.

Definition drm_mm_insert_node_in_range_generic (node : node_id)
    (size alignment color start end_ : Z) : mm Z :=
  hole_node ← drm_mm_search_free_in_range_generic size alignment color start end_ false;
  match hole_node with
  | None => mret (- ENOSPC)
  | Some hole_node =>
    drm_mm_insert_helper_range hole_node node size alignment color start end_;; mret 0
  end.

Definition drm_mm_insert_node_in_range (node : node_id) (size alignment start end_ : Z) : mm Z :=
  drm_mm_insert_node_in_range_generic node size alignment 0 start end_.

(** [r]: the outcome of the allocation of the node. *)
Definition drm_mm_get_block_generic (r : option node_id) (hole_node : node_id)
    (size alignment color : Z) : mm (option node_id) :=
  node ← drm_mm_kmalloc r;
  match node with
  | None => mret None
  | Some node => drm_mm_insert_helper hole_node node size alignment color;; mret (Some node)
  end.

Definition drm_mm_get_block_range_generic (r : option node_id) (hole_node : node_id)
    (size alignment color start end_ : Z) : mm (option node_id) :=
  node ← drm_mm_kmalloc r;
  match node with
  | None => mret None
  | Some node =>
    drm_mm_insert_helper_range hole_node node size alignment color start end_;;
    mret (Some node)
  end.

Definition drm_mm_get_block (r : option node_id) (parent : node_id) (size alignment : Z)
    : mm (option node_id) := drm_mm_get_block_generic r parent size alignment 0.
Definition drm_mm_get_block_atomic (r : option node_id) (parent : node_id) (size alignment : Z)
    : mm (option node_id) := drm_mm_get_block_generic r parent size alignment 0.
Definition drm_mm_get_block_range (r : option node_id) (parent : node_id)
    (size alignment start end_ : Z) : mm (option node_id) :=
  drm_mm_get_block_range_generic r parent size alignment 0 start end_.
Definition drm_mm_get_block_atomic_range (r : option node_id) (parent : node_id)
    (size alignment start end_ : Z) : mm (option node_id) :=
  drm_mm_get_block_range_generic r parent size alignment 0 start end_.

(** [node->start = start; node->size = size; node->mm = mm; node->allocated = 1]:
    the colour is left as it was. *)
Definition set_block (start size : Z) (nd : drm_mm_node) : drm_mm_node :=
  set_range start size (node_color nd) nd.

Definition drm_mm_create_block (r : option node_id) (start size : Z) : mm (option node_id) :=
  let end_ := u64 (start + size) in
  res ← drm_mm_for_each_hole
    (λ hole hole_start hole_end (_ : unit),
       if (start <? hole_start) || (hole_end <? end_) then mret (inl tt) else
       node ← drm_mm_kmalloc r;
       match node with
       | None => mret (inr None)
       | Some node =>
         upd_node node (set_block start size);;
         on_lists (INIT_LIST_HEAD (HoleLink node));;
         on_lists (list_add (NodeList node) (NodeList hole) node);;
         when (start =? hole_start) (
           upd_node hole (set_hole_follows false);;
           on_lists (list_del_init (HoleLink hole)));;
         upd_node node (set_hole_follows false);;
         when (negb (end_ =? hole_end)) (
           on_lists (list_add (HoleLink node) HoleStack node);;
           upd_node node (set_hole_follows true));;
         mret (inr (Some node))
       end) tt;
  match res with
  | inr r => mret r
  | inl _ => mret None
  end.

(** ** Release *)

Definition drm_mm_remove_node (node : node_id) : mm unit :=
  nd ← node_of node;
  BUG_ON (scanned_block nd || scanned_prev_free nd || scanned_next_free nd);;
  p ← of_lists (rd_prev (Some (NodeList node)));
  prev_node ← entry_of p;
  hole_start ← __drm_mm_hole_node_start node;
  hole_end ← __drm_mm_hole_node_end node;
  (if hole_follows nd then
     BUG_ON (hole_start =? hole_end);;
     on_lists (list_del (HoleLink node))
   else BUG_ON (negb (hole_start =? hole_end)));;
  pd ← node_of prev_node;
  (if negb (hole_follows pd) then
     upd_node prev_node (set_hole_follows true);;
     on_lists (list_add (HoleLink prev_node) HoleStack prev_node)
   else on_lists (list_move (HoleLink prev_node) HoleStack prev_node));;
  on_lists (list_del (NodeList node));;
  upd_node node (set_allocated false).

Definition drm_mm_put_block (node : node_id) : mm unit :=
  drm_mm_remove_node node;;
  s ← get;
  if num_unused s <? MM_UNUSED_TARGET then
    on_lists (list_add (NodeList node) UnusedNodes node);;
    modify (λ s, set_num_unused (num_unused s + 1) s)
  else kfree_node node.

Definition drm_mm_replace_node (old new : node_id) : mm unit :=
  on_lists (list_replace (NodeList old) (NodeList new));;
  on_lists (list_replace (HoleLink old) (HoleLink new));;
  od ← node_of old;
  upd_node new (λ nd, mk_node (hole_follows od) (scanned_block nd) (scanned_prev_free nd)
    (scanned_next_free nd) (scanned_preceeds_hole nd) (allocated nd)
    (node_color od) (node_start od) (node_size od));;
  upd_node old (set_allocated false);;
  upd_node new (set_allocated true).

(** ** Eviction scans *)

Definition drm_mm_init_scan (size alignment color : Z) : mm unit :=
  modify (λ s, mk_mm (mm_lists s) (mm_nodes s) (num_unused s) false alignment
    color size 0 0 0 (scan_start s) (scan_end s) None (has_color_adjust s)).

Definition drm_mm_init_scan_with_range (size alignment color start end_ : Z) : mm unit :=
  modify (λ s, mk_mm (mm_lists s) (mm_nodes s) (num_unused s) true alignment
    color size 0 0 0 start end_ None (has_color_adjust s)).

Definition drm_mm_scan_add_block (node : node_id) : mm Z :=
  modify (λ s, set_scanned_blocks (u32 (scanned_blocks s + 1)) s);;
  nd ← node_of node;
  BUG_ON (scanned_block nd);;
  upd_node node (set_scanned_block true);;
  p ← of_lists (rd_prev (Some (NodeList node)));
  prev_node ← entry_of p;
  pd ← node_of prev_node;
  upd_node node (set_scanned_preceeds_hole (hole_follows pd));;
  upd_node prev_node (set_hole_follows true);;
  on_lists (list_del (NodeList node));;
  on_lists (wr_prev (Some (NodeList node)) (Some (NodeList prev_node)));;
  s ← get;
  on_lists (wr_next (Some (NodeList node)) (NodeList <$> prev_scanned_node s));;
  modify (set_prev_scanned (Some node));;
  hole_start ← drm_mm_hole_node_start prev_node;
  hole_end ← drm_mm_hole_node_end prev_node;
  let adj_start := if scan_check_range s && (hole_start <? scan_start s)
                   then scan_start s else hole_start in
  let adj_end := if scan_check_range s && (scan_end s <? hole_end)
                 then scan_end s else hole_end in
  adj ← call_color_adjust prev_node (scan_color s) (adj_start, adj_end);
  if check_free_hole adj.1 adj.2 (scan_size s) (scan_alignment s) then
    modify (set_scan_hit hole_start hole_end);; mret 1
  else mret 0.

Definition drm_mm_scan_remove_block (node : node_id) : mm Z :=
  modify (λ s, set_scanned_blocks (u32 (scanned_blocks s - 1)) s);;
  nd ← node_of node;
  BUG_ON (negb (scanned_block nd));;
  upd_node node (set_scanned_block false);;
  p ← of_lists (rd_prev (Some (NodeList node)));
  prev_node ← entry_of p;
  upd_node prev_node (set_hole_follows (scanned_preceeds_hole nd));;
  on_lists (list_add (NodeList node) (NodeList prev_node) node);;
  hole_end ← drm_mm_hole_node_end node;
  s ← get;
  nd ← node_of node;
  mret (b2z ((scan_hit_start s <? hole_end) && (node_start nd <? scan_hit_end s))).

(** ** Set-up and tear-down *)

(** [head->next->next == head]. *)
Definition drm_mm_clean : mm bool :=
  n ← of_lists (rd_next (Some (NodeList head_node)));
  nn ← of_lists (rd_next n);
  mret (bool_decide (nn = Some (NodeList head_node))).

Definition drm_mm_init (start size : Z) : mm unit :=
  on_lists (INIT_LIST_HEAD HoleStack);;
  on_lists (INIT_LIST_HEAD UnusedNodes);;
  modify (set_num_unused 0);;
  modify (set_scanned_blocks 0);;
  on_lists (INIT_LIST_HEAD (NodeList head_node));;
  on_lists (INIT_LIST_HEAD (HoleLink head_node));;
  let hstart := u64 (start + size) in
  upd_node head_node (λ nd, mk_node true false false false (scanned_preceeds_hole nd)
    (allocated nd) (node_color nd) hstart (u64 (start - hstart)));;
  on_lists (wr_contain_ptr (Some (NodeList head_node)) (Some head_node));;
  on_lists (list_add_tail (HoleLink head_node) HoleStack head_node);;
  modify (λ s, mk_mm (mm_lists s) (mm_nodes s) (num_unused s) (scan_check_range s)
    (scan_alignment s) (scan_color s) (scan_size s) (scan_hit_start s) (scan_hit_end s)
    (scanned_blocks s) (scan_start s) (scan_end s) (prev_scanned_node s) false).

(** [list_for_each_entry_safe] over the unused nodes, freeing each. *)
Fixpoint free_unused (fuel : nat) (entry next : option node_id) : mm unit :=
  match fuel with
  | O => fault
  | S fuel =>
    match entry with
    | None => mret tt
    | Some e =>
      on_lists (list_del (NodeList e));;
      kfree_node e;;
      modify (λ s, set_num_unused (num_unused s - 1) s);;
      p ← of_lists (rd_next (Some (match next with
                                   | Some n => NodeList n | None => UnusedNodes end)));
      next' ← of_lists (list_entry p);
      free_unused fuel next next'
    end
  end.

Definition drm_mm_takedown : mm unit :=
  e ← of_lists (list_empty (NodeList head_node));
  if negb e then mret tt else
  p ← of_lists (rd_next (Some UnusedNodes));
  entry ← of_lists (list_entry p);
  next ← match entry with
         | Some n => p ← of_lists (rd_next (Some (NodeList n))); of_lists (list_entry p)
         | None => mret None
         end;
  s ← get;
  free_unused (list_fuel s) entry next;;
  s ← get;
  BUG_ON (z2b (num_unused s)).

(** ** Debug output *)

Definition drm_mm_debug_hole (entry : node_id) : mm Z :=
  nd ← node_of entry;
  if hole_follows nd then
    hole_start ← drm_mm_hole_node_start entry;
    hole_end ← drm_mm_hole_node_end entry;
    mret (u64 (hole_end - hole_start))
  else mret 0.

(** The totals [drm_mm_debug_table] prints: (total, used, free); [fuel] bounds
    the iterations of [drm_mm_for_each_node]. *)
Definition drm_mm_debug_table (fuel : nat) (s : drm_mm) : run (Z * Z * Z) :=
  match drm_mm_debug_hole head_node s with
  | None => Faulted
  | Some (free0, _) =>
    match list_for_each_entry fuel (NodeList head_node) NodeList (mm_lists s) with
    | OutOfFuel => OutOfFuel
    | Faulted => Faulted
    | Done entries =>
      match foldr (λ e acc, '(used, free) ← acc;
                     nd ← mm_nodes s !! e;
                     '(h, _) ← drm_mm_debug_hole e s;
                     Some (u64 (used + node_size nd), u64 (free + h)))
                  (Some (0, free0)) (rev entries) with
      | Some (used, free) => Done (u64 (free + used), used, free)
      | None => Faulted
      end
    end
  end.

Definition drm_mm_initialized : mm bool :=
  p ← of_lists (rd_next (Some HoleStack));
  mret (bool_decide (p ≠ None)).

End Mm.

(** ** The blocks a state manages *)

Record block := mk_block { b_id : node_id; b_start : Z; b_size : Z }.
Definition b_end (b : block) : Z := b_start b + b_size b.
Definition ids (bl : list block) : list node_id := b_id <$> bl.

Lemma ids_app l1 l2 : ids (l1 ++ l2) = ids l1 ++ ids l2.
Proof. apply fmap_app. Qed.

(** Start of the first block, or the end of the managed range. *)
Definition next_start (bl : list block) (hi : Z) : Z :=
  match bl with [] => hi | b :: _ => b_start b end.

(** The gap after node [q], when [bl] follows node [p] whose range ends at [e]. *)
Fixpoint gap_of (p : node_id) (e : Z) (bl : list block) (hi : Z) (q : node_id)
    : option (Z * Z) :=
  if decide (p = q) then Some (e, next_start bl hi) else
  match bl with
  | [] => None
  | b :: bl => gap_of (b_id b) (b_end b) bl hi q
  end.

(** Put block [b] right after node [q]. *)
Fixpoint insert_after (p q : node_id) (b : block) (bl : list block) : list block :=
  if decide (p = q) then b :: bl else
  match bl with
  | [] => []
  | x :: bl => x :: insert_after (b_id x) q b bl
  end.

Section Layout.
Implicit Types (nodes : gmap positive drm_mm_node) (bl : list block) (p q : node_id).

(** Node [p] ends at [e], and [hole_follows] has value [v]. *)
Definition gap_node nodes p (e : Z) (v : bool) : Prop :=
  ∃ nd, nodes !! p = Some nd ∧ u64 (node_start nd + node_size nd) = e ∧ hole_follows nd = v.

Definition unscanned (nd : drm_mm_node) : Prop :=
  scanned_block nd = false ∧ scanned_prev_free nd = false ∧ scanned_next_free nd = false.

(** The node of block [b] holds its range and is allocated. *)
Definition node_is nodes (b : block) : Prop :=
  ∃ nd, nodes !! b_id b = Some nd ∧ node_start nd = b_start b ∧ node_size nd = b_size b ∧
        allocated nd = true ∧ unscanned nd.

(** The blocks are laid out in increasing order from [e] to [hi], and a node has
    [hole_follows] exactly when the gap after it is not empty. *)
Fixpoint layout nodes p (e : Z) bl (hi : Z) : Prop :=
  e <= next_start bl hi ∧ gap_node nodes p e (e <? next_start bl hi) ∧
  match bl with
  | [] => True
  | b :: bl => node_is nodes b ∧ 0 < b_size b ∧ layout nodes (b_id b) (b_end b) bl hi
  end.

Lemma layout_unfold nodes p e bl hi : layout nodes p e bl hi ↔
  e <= next_start bl hi ∧ gap_node nodes p e (e <? next_start bl hi) ∧
  match bl with
  | [] => True
  | b :: bl => node_is nodes b ∧ 0 < b_size b ∧ layout nodes (b_id b) (b_end b) bl hi
  end.
Proof. by destruct bl. Qed.

Lemma layout_frame nodes nodes' p e bl hi :
  (∀ n, n ∈ p :: ids bl → nodes' !! n = nodes !! n) →
  layout nodes p e bl hi → layout nodes' p e bl hi.
Proof.
  revert p e. induction bl as [|b bl IH]; intros p e Hf; rewrite !(layout_unfold _ p).
  - intros (He & (nd & Hp & ?) & _). split; [done|]. split; [|done].
    exists nd. rewrite Hf by set_solver. done.
  - intros (He & (nd & Hp & Hg) & (ndb & Hb & Hbs) & Hsz & Hl). split; [done|].
    split; [exists nd; rewrite Hf by set_solver; done|].
    split; [exists ndb; rewrite Hf by set_solver; done|]. split; [done|].
    apply IH; [|done]. intros n Hn. apply Hf. set_solver.
Qed.

Lemma layout_le nodes p e bl hi : layout nodes p e bl hi → e <= hi.
Proof.
  revert p e. induction bl as [|b bl IH]; intros p e; cbn; [lia|].
  intros (He & _ & _ & Hsz & Hl%IH). unfold b_end in *. lia.
Qed.

(** Every gap lies between [e] and [hi], and its node is as the layout says. *)
Lemma layout_gap nodes p e bl hi q gs ge :
  layout nodes p e bl hi → gap_of p e bl hi q = Some (gs, ge) →
  e <= gs ∧ gs <= ge ∧ ge <= hi ∧ gap_node nodes q gs (gs <? ge) ∧ q ∈ p :: ids bl.
Proof.
  revert p e. induction bl as [|b bl IH]; intros p e.
  - cbn. intros (He & Hg & _) Hgap. case_decide; simplify_eq. split_and!; [lia..|done|set_solver].
  - rewrite layout_unfold. intros (He & Hg & _ & Hsz & Hl) Hgap. cbn in Hgap.
    pose proof (layout_le _ _ _ _ _ Hl). unfold b_end in *. case_decide; simplify_eq.
    + cbn in *. split_and!; [lia..|done|set_solver].
    + destruct (IH _ _ Hl Hgap) as (? & ? & ? & ? & ?).
      cbn in *. split_and!; [lia..|done|set_solver].
Qed.

Lemma gap_of_elem p e bl hi q : q ∈ p :: ids bl → ∃ gs ge, gap_of p e bl hi q = Some (gs, ge).
Proof.
  revert p e. induction bl as [|b bl IH]; intros p e Hq; cbn.
  - rewrite decide_True by set_solver. eauto.
  - case_decide; [eauto|]. apply IH. set_solver.
Qed.

Lemma ids_insert_after p q b bl : q ∈ p :: ids bl →
  ids (insert_after p q b bl) ≡ₚ b_id b :: ids bl.
Proof.
  revert p. induction bl as [|x bl IH]; intros p Hq; cbn.
  - rewrite decide_True by set_solver. done.
  - case_decide; [done|]. cbn. rewrite IH by set_solver. apply perm_swap.
Qed.

(** Inserting a block in a gap of the layout. *)
Lemma layout_insert nodes nodes' p e bl hi q b gs ge :
  layout nodes p e bl hi → NoDup (p :: ids bl) → b_id b ∉ p :: ids bl →
  gap_of p e bl hi q = Some (gs, ge) →
  gs <= b_start b → b_end b <= ge → 0 < b_size b →
  (∀ n, n ≠ q → n ≠ b_id b → nodes' !! n = nodes !! n) →
  (∀ b', b_id b' = q → node_is nodes b' → node_is nodes' b') →
  node_is nodes' b → gap_node nodes' (b_id b) (b_end b) (b_end b <? ge) →
  gap_node nodes' q gs (gs <? b_start b) →
  layout nodes' p e (insert_after p q b bl) hi.
Proof.
  intros Hl Hnd Hb Hgap Hs He Hsz Hf Hq Hnb Hgb Hgq.
  revert p e Hl Hnd Hb Hgap. induction bl as [|x bl IH]; intros p e Hl Hnd Hb Hgap.
  - cbn in *. case_decide; simplify_eq. cbn. unfold b_end in *. tauto.
  - rewrite layout_unfold in Hl. destruct Hl as (Hle & Hg & Hx & Hxs & Hl).
    apply NoDup_cons in Hnd as [Hp Hnd]. cbn in Hgap |- *. case_decide; simplify_eq.
    + cbn in *. split_and!; [lia|done|done|lia|lia|done| |lia|].
      * destruct Hx as (nd & Hnx & ?). exists nd. split; [|done].
        rewrite Hf; [done| |]; set_solver.
      * eapply layout_frame; [|exact Hl]. intros n Hn. apply Hf; set_solver.
    + rewrite layout_unfold. cbn [next_start]. split_and!; [done| | |done|].
      * destruct Hg as (nd & Hnp & ?). exists nd. split; [|done].
        rewrite Hf; [done|done|]. set_solver.
      * destruct (decide (b_id x = q)); [by apply Hq|].
        destruct Hx as (nd & Hnx & ?). exists nd. split; [|done].
        rewrite Hf; [done|done|]. set_solver.
      * apply IH; [done|done|set_solver|done].
Qed.

(** Removing a block: its range and the gaps around it become one gap. *)
Lemma layout_remove nodes nodes' p e l1 b l2 hi :
  layout nodes p e (l1 ++ b :: l2) hi → NoDup (p :: ids (l1 ++ b :: l2)) →
  let q := List.last (ids l1) p in
  (∀ n, n ≠ q → n ≠ b_id b → nodes' !! n = nodes !! n) →
  (∀ b', b_id b' = q → node_is nodes b' → node_is nodes' b') →
  (∀ gs, gap_node nodes q gs true ∨ gap_node nodes q gs false → gap_node nodes' q gs true) →
  layout nodes' p e (l1 ++ l2) hi.
Proof.
  intros Hl Hnd q. revert p e q Hl Hnd.
  induction l1 as [|x l1 IH]; intros p e q Hl Hnd Hf Hq Hgq.
  - cbn in q. subst q. cbn -[layout] in *.
    rewrite layout_unfold in Hl. destruct Hl as (Hle & Hg & Hx & Hxs & Hl). cbn in Hle, Hg.
    assert (gap_node nodes' p e true) as Hgp.
    { apply Hgq. destruct (e <? b_start b); tauto. }
    apply NoDup_cons in Hnd as [Hp Hnd]. apply NoDup_cons in Hnd as [Hb Hnd].
    pose proof (layout_le _ _ _ _ _ Hl). unfold b_end in *.
    rewrite layout_unfold in Hl. destruct Hl as (Hle2 & Hg2 & Hrest).
    rewrite layout_unfold. split; [lia|]. split.
    { assert (e <? next_start l2 hi = true) as -> by (apply Z.ltb_lt; lia). done. }
    destruct l2 as [|y l2]; [done|]. destruct Hrest as ((nd & Hny & ?) & ? & Hl2).
    split; [exists nd; split; [rewrite Hf; [done| |]; set_solver|done]|]. split; [done|].
    eapply layout_frame; [|exact Hl2]. intros n Hn. apply Hf; set_solver.
  - rewrite <- app_comm_cons in Hl, Hnd |- *. rewrite layout_unfold in Hl |- *.
    destruct Hl as (Hle & Hg & Hx & Hxs & Hl). cbn [next_start] in *.
    assert (q = List.last (ids l1) (b_id x)) as Hqe.
    { apply last_cons. }
    apply NoDup_cons in Hnd as [Hp Hnd].
    assert (q ∈ ids (x :: l1)) as Hqx by apply last_elem_of_ne. clearbody q.
    assert (p ≠ q ∧ p ≠ b_id b ∧ b_id x ≠ b_id b) as (? & ? & ?).
    { rewrite app_comm_cons, ids_app in Hp. rewrite app_comm_cons, ids_app in Hnd.
      apply NoDup_app in Hnd as (_ & Hnd & _). specialize (Hnd (b_id x)).
      rewrite elem_of_app in Hp. split_and!; intros Heq.
      - apply Hp. left. by rewrite Heq.
      - apply Hp. right. rewrite Heq. clear. set_solver.
      - apply Hnd; [|rewrite Heq]; clear; set_solver. }
    split; [done|]. split; [|split; [|split; [done|]]].
    + destruct Hg as (nd & Hnp & ?). exists nd. split; [|done].
      by rewrite Hf.
    + destruct (decide (b_id x = q)); [by apply Hq|].
      destruct Hx as (nd & Hnx & ?). exists nd. split; [|done].
      by rewrite Hf.
    + apply IH; [done|done|rewrite <- Hqe..]; done.
Qed.

End Layout.

(** ** States that represent blocks *)

(** The node a list head is embedded in. *)
Definition lh_obj (a : lh_addr) : node_id :=
  match a with NodeList n | HoleLink n => n | _ => head_node end.

(** [mm_rep s lo hi bl hs us]: [s] manages [lo, hi), the blocks [bl] are
    allocated in it, the hole stack is [hs] and the unused nodes are [us]. *)
Record mm_rep (s : drm_mm) (lo hi : Z) (bl : list block) (hs us : list node_id) : Prop := {
  rep_alloc n : is_Some (mm_nodes s !! n) →
    is_Some (mm_lists s !! NodeList n) ∧ is_Some (mm_lists s !! HoleLink n);
  rep_nodes : represents (mm_lists s) lh_obj (NodeList head_node) (Some head_node)
                (NodeList <$> ids bl);
  rep_holes : represents (mm_lists s) lh_obj HoleStack None (HoleLink <$> hs);
  rep_unused : represents (mm_lists s) lh_obj UnusedNodes None (NodeList <$> us);
  rep_head : ∃ hd, mm_nodes s !! head_node = Some hd ∧ node_start hd = hi;
  rep_layout : layout (mm_nodes s) head_node lo bl hi;
  rep_hs q : q ∈ hs ↔ ∃ gs ge, gap_of head_node lo bl hi q = Some (gs, ge) ∧ gs < ge;
  rep_us u : u ∈ us → u ∉ head_node :: ids bl ∧
    ∃ nd, mm_nodes s !! u = Some nd ∧ allocated nd = false ∧ unscanned nd;
  rep_num_unused : num_unused s = Z.of_nat (length us);
  rep_range : 0 <= lo < hi ∧ hi <= 2 ^ 62;
  rep_scan : scanned_blocks s = 0;
}.

Section Runs.
Context `{CA : ColorAdjust}.
Implicit Types (s : drm_mm) (n q : node_id) (bl : list block).

Lemma node_of_run s n nd : mm_nodes s !! n = Some nd → node_of n s = Some (nd, s).
Proof. intros H. unfold node_of, reads. by rewrite H. Qed.

Lemma upd_node_run s n nd f : mm_nodes s !! n = Some nd →
  upd_node n f s = Some (tt, set_nodes (<[n := f nd]> (mm_nodes s)) s).
Proof. intros H. unfold upd_node, updates. by rewrite H. Qed.

Lemma on_lists_run s f l : f (mm_lists s) = Some l →
  on_lists f s = Some (tt, set_lists l s).
Proof. intros H. unfold on_lists, updates. by rewrite H. Qed.

Lemma of_lists_run {X} s (f : lh_heap → option X) x : f (mm_lists s) = Some x →
  of_lists f s = Some (x, s).
Proof. intros H. unfold of_lists, reads. by rewrite H. Qed.

Lemma entry_of_run s a n : is_Some (mm_lists s !! a) → con (mm_lists s) a = Some n →
  entry_of (Some a) s = Some (n, s).
Proof.
  intros Ha Hc. unfold entry_of.
  assert (list_entry (Some a) (mm_lists s) = Some (Some n)) as He.
  { unfold list_entry. rewrite rd_contain_con by done. by rewrite Hc. }
  by mrun (of_lists_run s _ _ He).
Qed.

Lemma gap_start_run s q gs v : gap_node (mm_nodes s) q gs v →
  __drm_mm_hole_node_start q s = Some (gs, s).
Proof.
  intros (nd & Hq & He & _). unfold __drm_mm_hole_node_start.
  mrun (node_of_run s q nd Hq). by rewrite He.
Qed.

Lemma hole_start_run s q gs : gap_node (mm_nodes s) q gs true →
  drm_mm_hole_node_start q s = Some (gs, s).
Proof.
  intros Hg. unfold drm_mm_hole_node_start. pose proof Hg as (nd & Hq & He & Hh).
  mrun (node_of_run s q nd Hq). rewrite Hh. cbn [negb].
  mrun (BUG_ON_false s). by eapply gap_start_run.
Qed.

(** The successor of a node in the node list starts where its gap ends. *)
Lemma next_node (l : lh_heap) nodes p e bl hi q gs ge hd :
  seg l (NodeList p) (NodeList <$> ids bl) (NodeList head_node) →
  layout nodes p e bl hi → nodes !! head_node = Some hd → node_start hd = hi →
  gap_of p e bl hi q = Some (gs, ge) →
  ∃ q' nd', nxt l (NodeList q) = Some (NodeList q') ∧ nodes !! q' = Some nd' ∧
            node_start nd' = ge ∧ q' ∈ head_node :: ids bl.
Proof.
  intros Hs Hl Hh Hhi. revert p e Hs Hl.
  induction bl as [|b bl IH]; intros p e Hs Hl Hgap; cbn in Hgap.
  - case_decide; [|done]. simplify_eq. exists head_node, hd.
    split; [apply Hs|]. split; [done|]. split; [done|set_solver].
  - destruct Hs as [Hlk Hs]. rewrite layout_unfold in Hl.
    destruct Hl as (_ & _ & (nd & Hb & Hst & _) & _ & Hl). case_decide; simplify_eq.
    + exists (b_id b), nd. split; [apply Hlk|]. split; [done|]. split; [done|set_solver].
    + destruct (IH _ _ Hs Hl Hgap) as (q' & nd' & ? & ? & ? & ?).
      exists q', nd'. do 3 (split; [done|]). set_solver.
Qed.

Lemma rep_con s lo hi bl hs us n : mm_rep s lo hi bl hs us → n ∈ head_node :: ids bl →
  is_Some (mm_lists s !! NodeList n) ∧ con (mm_lists s) (NodeList n) = Some n.
Proof.
  intros Hr Hn. destruct (rep_nodes _ _ _ _ _ _ Hr) as (Hd & Hc & Hh).
  split.
  - eapply dll_alloc; [done|]. set_solver.
  - apply elem_of_cons in Hn as [->|Hn]; [done|]. unfold contains in Hc.
    rewrite Forall_forall in Hc. apply (Hc (NodeList n)). set_solver.
Qed.

Lemma hole_end_run s lo hi bl hs us q gs ge : mm_rep s lo hi bl hs us →
  gap_of head_node lo bl hi q = Some (gs, ge) →
  __drm_mm_hole_node_end q s = Some (ge, s).
Proof.
  intros Hr Hgap. destruct (rep_nodes _ _ _ _ _ _ Hr) as ((_ & Hs) & _ & _).
  destruct (rep_head _ _ _ _ _ _ Hr) as (hd & Hh & Hhi).
  destruct (next_node _ _ _ _ _ _ _ _ _ _ Hs (rep_layout _ _ _ _ _ _ Hr) Hh Hhi Hgap)
    as (q' & nd' & Hn & Hq' & Hst & Hin).
  destruct (rep_con _ _ _ _ _ _ _ Hr Hin) as [Hsome Hcon].
  unfold __drm_mm_hole_node_end.
  rewrite (M_bind_Some _ _ _ (Some (NodeList q')) s).
  2:{ apply of_lists_run. rewrite rd_next_nxt by (by eapply nxt_Some). by rewrite Hn. }
  mrun (entry_of_run s (NodeList q') q' Hsome Hcon).
  mrun (node_of_run s q' nd' Hq'). by rewrite Hst.
Qed.

Lemma rep_gap s lo hi bl hs us q gs ge : mm_rep s lo hi bl hs us →
  gap_of head_node lo bl hi q = Some (gs, ge) →
  0 <= lo <= gs ∧ gs <= ge ∧ ge <= hi ∧ hi <= 2 ^ 62 ∧
  gap_node (mm_nodes s) q gs (gs <? ge) ∧ q ∈ head_node :: ids bl.
Proof.
  intros Hr Hgap.
  pose proof (layout_gap _ _ _ _ _ _ _ _ (rep_layout _ _ _ _ _ _ Hr) Hgap).
  pose proof (rep_range _ _ _ _ _ _ Hr). tauto || (split_and!; try tauto; lia).
Qed.

(** ** The loop over the holes *)

(** The loop as a fold over the hole stack, for a body that leaves the state
    alone when it goes on. *)
Fixpoint holes_fold {B R} (body : node_id → Z → Z → B → M drm_mm (B + R))
    s lo bl hi (hs : list node_id) (acc : B) : option ((B + R) * drm_mm) :=
  match hs with
  | [] => Some (inl acc, s)
  | q :: hs =>
    '(gs, ge) ← gap_of head_node lo bl hi q;
    '(r, s') ← body q gs ge acc s;
    match r with
    | inr x => Some (inr x, s')
    | inl acc => holes_fold body s lo bl hi hs acc
    end
  end.

Lemma for_each_hole_from_run {B R} (body : node_id → Z → Z → B → M drm_mm (B + R))
    s lo hi bl hs us a hs' acc fuel :
  mm_rep s lo hi bl hs us →
  (∀ q gs ge acc acc' s', body q gs ge acc s = Some (inl acc', s') → s' = s) →
  seg (mm_lists s) a (HoleLink <$> hs') HoleStack →
  contains (mm_lists s) lh_obj (HoleLink <$> hs') →
  (∀ q, q ∈ hs' → q ∈ hs) → (length hs' < fuel)%nat →
  for_each_hole_from fuel body (con (mm_lists s) (List.hd HoleStack (HoleLink <$> hs'))) acc s
    = holes_fold body s lo bl hi hs' acc.
Proof.
  intros Hr Hbody. revert a acc fuel.
  induction hs' as [|q hs' IH]; intros a acc [|fuel] Hs Hc Hin Hf; cbn [length] in *; try lia.
  - destruct (rep_holes _ _ _ _ _ _ Hr) as (_ & _ & Hh). cbn. by rewrite Hh.
  - cbn in Hs. destruct Hs as [_ Hs]. apply Forall_cons in Hc as [Hq Hc].
    assert (q ∈ hs) as Hqs by (apply Hin; set_solver).
    apply (rep_hs _ _ _ _ _ _ Hr) in Hqs as (gs & ge & Hgap & Hlt).
    destruct (rep_gap _ _ _ _ _ _ _ _ _ Hr Hgap) as (_ & _ & _ & _ & Hg & _).
    rewrite (proj2 (Z.ltb_lt _ _) Hlt) in Hg.
    unfold con. cbn [fmap list_fmap List.hd]. rewrite Hq. cbn [lh_obj for_each_hole_from].
    mrun (hole_start_run s q gs Hg). mrun (hole_end_run s lo hi bl hs us q gs ge Hr Hgap).
    cbn [holes_fold]. rewrite Hgap. cbn [mbind option_bind]. unfold mbind at 1, M_bind at 1.
    destruct (body q gs ge acc s) as [[[acc'|x] s']|] eqn:Hb; [|done|done].
    apply Hbody in Hb as ->. cbn [mbind option_bind].
    assert (nxt (mm_lists s) (HoleLink q) =
      Some (List.hd HoleStack (HoleLink <$> hs'))) as Hn by (destruct hs'; apply Hs).
    assert (is_Some (mm_lists s !! List.hd HoleStack (HoleLink <$> hs'))) as Hsome.
    { eapply seg_alloc; [apply Hs|]. destruct hs'; set_solver. }
    assert (rd_next (Some (HoleLink q)) (mm_lists s) =
      Some (Some (List.hd HoleStack (HoleLink <$> hs')))) as Hrd.
    { rewrite rd_next_nxt by (by eapply nxt_Some). by rewrite Hn. }
    mrun (of_lists_run s _ _ Hrd).
    mrun (of_lists_run s _ _ (rd_contain_con _ _ Hsome)).
    apply (IH (HoleLink q)); [done|done|set_solver|lia].
Qed.

Lemma for_each_hole_run {B R} (body : node_id → Z → Z → B → M drm_mm (B + R))
    s lo hi bl hs us acc :
  mm_rep s lo hi bl hs us →
  (∀ q gs ge acc acc' s', body q gs ge acc s = Some (inl acc', s') → s' = s) →
  drm_mm_for_each_hole body acc s = holes_fold body s lo bl hi hs acc.
Proof.
  intros Hr Hbody. destruct (rep_holes _ _ _ _ _ _ Hr) as (Hd & Hc & Hh).
  pose proof (dll_next _ _ _ Hd) as Hn. pose proof Hd as [Hnd Hs].
  assert (succ_of HoleStack (HoleLink <$> hs) = List.hd HoleStack (HoleLink <$> hs)) as Hsucc
    by (by destruct hs).
  rewrite Hsucc in Hn.
  assert (is_Some (mm_lists s !! List.hd HoleStack (HoleLink <$> hs))) as Hsome.
  { eapply dll_alloc; [done|]. rewrite <- Hsucc. apply succ_of_elem. }
  assert (rd_next (Some HoleStack) (mm_lists s) =
    Some (Some (List.hd HoleStack (HoleLink <$> hs)))) as Hrd.
  { rewrite rd_next_nxt by (by eapply nxt_Some). by rewrite Hn. }
  unfold drm_mm_for_each_hole. rewrite get_bind.
  mrun (of_lists_run s _ _ Hrd). mrun (of_lists_run s _ _ (rd_contain_con _ _ Hsome)).
  eapply for_each_hole_from_run; [done|done|done|done|done|].
  unfold list_fuel. apply Nat.lt_succ_r.
  rewrite <- (length_fmap HoleLink hs). apply length_le_size.
  - by apply NoDup_cons in Hnd as [_ ?].
  - intros k Hk. eapply dll_alloc; [done|]. set_solver.
Qed.

End Runs.

(** ** The three lists of the manager together *)

Definition lists_rep (l : lh_heap) (ns hs us : list node_id) : Prop :=
  represents l lh_obj (NodeList head_node) (Some head_node) (NodeList <$> ns) ∧
  represents l lh_obj HoleStack None (HoleLink <$> hs) ∧
  represents l lh_obj UnusedNodes None (NodeList <$> us).

Section ListsRep.
Implicit Types (l : lh_heap) (n q : node_id) (ns hs us : list node_id).

(** No node is on two lists of the manager. *)
Definition disjoint_lists ns us : Prop := ∀ n, n ∈ us → n ∉ head_node :: ns.

Lemma remove_elem_fmap {X} `{EqDecision X} (g : node_id → X) q hs :
  Inj (=) (=) g → remove_elem (g q) (g <$> hs) = g <$> remove_elem q hs.
Proof.
  intros Hg. unfold remove_elem. induction hs as [|x hs IH]; [done|].
  rewrite fmap_cons, !filter_cons. rewrite IH.
  repeat case_decide; by try (exfalso; naive_solver).
Qed.

Lemma ins_after_fmap {X} `{EqDecision X} (g : node_id → X) p q n ns :
  Inj (=) (=) g → ins_after (g p) (g q) (g n) (g <$> ns) = g <$> ins_after p q n ns.
Proof.
  intros Hg. revert p. induction ns as [|x ns IH]; intros p; cbn;
    (destruct (decide (p = q)) as [->|];
     [by rewrite !decide_True | rewrite !(decide_False (P := g p = g q)) by naive_solver]).
  - done.
  - cbn. by rewrite IH.
Qed.

#[export] Instance NodeList_inj : Inj (=) (=) NodeList.
Proof. by intros ?? [=]. Qed.
#[export] Instance HoleLink_inj : Inj (=) (=) HoleLink.
Proof. by intros ?? [=]. Qed.

Ltac other_list Hf := eapply represents_frame; [|eassumption]; intros a Ha; apply Hf; set_solver.

Lemma lists_add_hole l ns hs us q :
  lists_rep l ns hs us → q ∉ hs → is_Some (l !! HoleLink q) →
  ∃ l', list_add (HoleLink q) HoleStack q l = Some l' ∧ lists_rep l' ns (q :: hs) us ∧
        same_dom l l'.
Proof.
  intros (Hn & Hh & Hu) Hq Hsome.
  destruct (run_op_refines l lh_obj HoleStack None (OpAdd (HoleLink q)) (HoleLink <$> hs)
              (HoleLink <$> q :: hs)) as (l' & Hrun & Hh' & Hf & Hdom); [done|done|done| |].
  { cbn. rewrite bool_decide_false; [done|]. set_solver. }
  exists l'. split; [done|]. split; [|done]. cbn in Hf.
  split_and!; [other_list Hf|done|other_list Hf].
Qed.

Lemma lists_del_hole l ns hs us q :
  lists_rep l ns hs us → q ∈ hs → is_Some (l !! HoleLink q) →
  ∃ l', list_del (HoleLink q) l = Some l' ∧ lists_rep l' ns (remove_elem q hs) us ∧
        same_dom l l'.
Proof.
  intros (Hn & Hh & Hu) Hq Hsome.
  destruct (run_op_refines l lh_obj HoleStack None (OpDel (HoleLink q)) (HoleLink <$> hs)
              (HoleLink <$> remove_elem q hs)) as (l' & Hrun & Hh' & Hf & Hdom);
    [done|done|done| |].
  { cbn. rewrite bool_decide_true by set_solver. by rewrite (remove_elem_fmap HoleLink _ _ _). }
  exists l'. split; [done|]. split; [|done]. cbn in Hf.
  split_and!; [other_list Hf|done|other_list Hf].
Qed.

Lemma lists_move_hole l ns hs us q :
  lists_rep l ns hs us → q ∈ hs → is_Some (l !! HoleLink q) →
  ∃ l', list_move (HoleLink q) HoleStack q l = Some l' ∧
        lists_rep l' ns (q :: remove_elem q hs) us ∧ same_dom l l'.
Proof.
  intros (Hn & Hh & Hu) Hq Hsome.
  destruct (run_op_refines l lh_obj HoleStack None (OpMove (HoleLink q)) (HoleLink <$> hs)
              (HoleLink <$> q :: remove_elem q hs)) as (l' & Hrun & Hh' & Hf & Hdom);
    [done|done|done| |].
  { cbn. rewrite bool_decide_true by set_solver. by rewrite (remove_elem_fmap HoleLink _ _ _). }
  exists l'. split; [done|]. split; [|done]. cbn in Hf.
  split_and!; [other_list Hf|done|other_list Hf].
Qed.

Lemma lists_init_hole l ns hs us q :
  lists_rep l ns hs us → q ∉ hs → is_Some (l !! HoleLink q) →
  ∃ l', INIT_LIST_HEAD (HoleLink q) l = Some l' ∧ lists_rep l' ns hs us ∧ same_dom l l'.
Proof.
  intros (Hn & Hh & Hu) Hq Hsome.
  destruct (INIT_LIST_HEAD_run (HoleLink q) l Hsome) as (l' & Hrun & Hup).
  exists l'. split; [done|]. split; [|intros a; apply (upd_dom _ _ _ _ _ Hup)].
  assert (∀ a, a ≠ HoleLink q → l' !! a = l !! a) as Hf.
  { intros a Ha. eapply heap_upd_frame; [done|..]; cbn beta; by rewrite decide_False. }
  split_and!; (eapply represents_frame; [|eassumption]); intros a Ha; apply Hf; set_solver.
Qed.

Lemma lists_add_node l ns hs us q n :
  lists_rep l ns hs us → disjoint_lists ns us → q ∈ head_node :: ns →
  n ∉ head_node :: ns → n ∉ us → is_Some (l !! NodeList n) →
  ∃ l', list_add (NodeList n) (NodeList q) n l = Some l' ∧
        lists_rep l' (ins_after head_node q n ns) hs us ∧ same_dom l l'.
Proof.
  intros (Hn & Hh & Hu) Hdis Hq Hni Hnu Hsome.
  destruct (represents_add_after l lh_obj (NodeList head_node) (Some head_node)
    (NodeList <$> ns) (NodeList q) (NodeList n)) as (l' & Hrun & Hn' & Hf & Hdom);
    [done|set_solver|set_solver|done|].
  exists l'. split; [done|]. split; [|done]. rewrite (ins_after_fmap NodeList _ _ _ _ _) in Hn'.
  split; [done|]. split; [other_list Hf|].
  eapply represents_frame; [|eassumption]. intros a Ha. apply Hf. intros Ha'.
  apply elem_of_cons in Ha as [->|(u & -> & Hu')%list_elem_of_fmap]; [set_solver|].
  specialize (Hdis u Hu'). set_solver.
Qed.

Lemma lists_del_node l (l1 : list node_id) n (l2 hs us : list node_id) :
  lists_rep l (l1 ++ n :: l2) hs us → disjoint_lists (l1 ++ n :: l2) us →
  ∃ l', list_del (NodeList n) l = Some l' ∧ lists_rep l' (l1 ++ l2) hs us ∧ same_dom l l'.
Proof.
  intros (Hn & Hh & Hu) Hdis. rewrite fmap_app in Hn. cbn in Hn.
  destruct (represents_del _ _ _ _ _ _ _ Hn) as (l' & Hrun & Hn' & Hf & Hdom).
  exists l'. split; [done|]. split; [|done]. rewrite <- fmap_app in Hn'.
  split; [done|]. split; [other_list Hf|].
  eapply represents_frame; [|eassumption]. intros a Ha. apply Hf. intros Ha'.
  apply elem_of_cons in Ha as [->|(u & -> & Hu')%list_elem_of_fmap]; [set_solver|].
  specialize (Hdis u Hu'). set_solver.
Qed.

End ListsRep.

(** ** Inserting and removing blocks, on the blocks *)

Section Blocks.
Implicit Types (bl : list block) (p q r : node_id).

Lemma insert_after_here p b bl : insert_after p p b bl = b :: bl.
Proof. destruct bl; cbn; by rewrite decide_True. Qed.

Lemma ids_insert p q b bl :
  ids (insert_after p q b bl) = ins_after p q (b_id b) (ids bl).
Proof.
  revert p. induction bl as [|x bl IH]; intros p; cbn; case_decide; [done..|].
  cbn. by rewrite IH.
Qed.

Lemma gap_of_here p e bl hi : gap_of p e bl hi p = Some (e, next_start bl hi).
Proof. destruct bl; cbn; by rewrite decide_True. Qed.

(** The gaps after an insertion: the gap is split in two. *)
Lemma gap_of_insert p e bl hi q b gs ge r :
  NoDup (p :: ids bl) → b_id b ∉ p :: ids bl → gap_of p e bl hi q = Some (gs, ge) →
  gap_of p e (insert_after p q b bl) hi r =
    if decide (r = b_id b) then Some (b_end b, ge) else
    if decide (r = q) then Some (gs, b_start b) else gap_of p e bl hi r.
Proof.
  revert p e. induction bl as [|x bl IH]; intros p e Hnd Hb Hgap; cbn in Hgap.
  - case_decide as Hpq; simplify_eq. cbn. rewrite decide_True by done. cbn.
    apply not_elem_of_cons in Hb as [Hb _].
    repeat case_decide; subst; congruence.
  - apply NoDup_cons in Hnd as [Hp Hnd]. apply not_elem_of_cons in Hb as [Hbp Hb].
    case_decide as Hpq; simplify_eq.
    + rewrite insert_after_here. cbn.
      destruct (decide (r = b_id b)) as [->|Hrb].
      * rewrite !decide_False by done. by rewrite decide_True.
      * destruct (decide (r = q)) as [->|Hrq]; [by rewrite !decide_True|].
        by rewrite !(decide_False (P := q = r)), (decide_False (P := b_id b = r)) by done.
    + cbn [insert_after]. rewrite (decide_False (P := p = q)) by done. cbn [gap_of].
      destruct (decide (p = r)) as [<-|Hpr].
      * rewrite !decide_False by congruence. cbn.
        destruct bl; cbn; case_decide; reflexivity.
      * rewrite IH by done. done.
Qed.

(** The gaps after a removal: the two gaps around the block become one. *)
Lemma gap_of_remove p e l1 b l2 hi r :
  NoDup (p :: ids (l1 ++ b :: l2)) → r ≠ b_id b →
  gap_of p e (l1 ++ l2) hi r =
    if decide (r = List.last (ids l1) p)
    then (λ g : Z * Z, (g.1, next_start l2 hi)) <$> gap_of p e (l1 ++ b :: l2) hi r
    else gap_of p e (l1 ++ b :: l2) hi r.
Proof.
  revert p e. induction l1 as [|x l1 IH]; intros p e Hnd Hr.
  - cbn -[gap_of]. destruct (decide (r = p)) as [->|Hrp]; [by rewrite !gap_of_here|].
    cbn [app gap_of]. destruct l2; cbn; by rewrite !decide_False by done.
  - rewrite <- !app_comm_cons in *. change (ids (x :: l1)) with (b_id x :: ids l1).
    rewrite last_cons. cbn [gap_of next_start].
    apply NoDup_cons in Hnd as [Hp Hnd].
    destruct (decide (p = r)) as [<-|Hpr].
    + rewrite decide_False; [done|]. intros ->. apply Hp.
      pose proof (last_elem_of (ids l1) (b_id x)). rewrite app_comm_cons, ids_app.
      apply elem_of_app. by left.
    + by apply IH.
Qed.

End Blocks.

(** ** Allocation *)

(** Only the list heads and the nodes differ. *)
Definition same_scalars (s s' : drm_mm) : Prop :=
  s' = set_lists (mm_lists s') (set_nodes (mm_nodes s') s).

Section Alloc.
Context `{CA : ColorAdjust}.
Implicit Types (s : drm_mm) (n q : node_id) (bl : list block).

(** The range the search offers for the gap [gs, ge) of node [q]. *)
Definition adjusted s q (color : Z) (r : Z * Z) : option (Z * Z) :=
  if has_color_adjust s then color_adjust q color r s else Some r.

Definition clip (start end_ gs ge : Z) : Z * Z :=
  (if gs <? start then start else gs, if end_ <? ge then end_ else ge).

Lemma adjusted_run s q color r ab : adjusted s q color r = Some ab →
  call_color_adjust q color r s = Some (ab, s).
Proof.
  unfold adjusted, call_color_adjust. rewrite get_bind. intros H.
  destruct (has_color_adjust s); [|by simplify_eq].
  unfold reads. by rewrite H.
Qed.

Lemma rep_lists s lo hi bl hs us : mm_rep s lo hi bl hs us →
  lists_rep (mm_lists s) (ids bl) hs us ∧ disjoint_lists (ids bl) us ∧
  NoDup (head_node :: ids bl).
Proof.
  intros Hr. split; [|split].
  - split; [apply Hr|split; apply Hr].
  - intros u Hu. by apply (rep_us _ _ _ _ _ _ Hr).
  - destruct (rep_nodes _ _ _ _ _ _ Hr) as ((Hnd & _) & _).
    change (NoDup (NodeList <$> head_node :: ids bl)) in Hnd. by apply NoDup_fmap_1 in Hnd.
Qed.

(** Closing the hole of [q] when the new block starts where the hole does. *)
Lemma close_hole_run s ns hs us q hd (c : bool) :
  lists_rep (mm_lists s) ns hs us → mm_nodes s !! q = Some hd → q ∈ hs →
  is_Some (mm_lists s !! HoleLink q) →
  ∃ s', when c (upd_node q (set_hole_follows false);; on_lists (list_del (HoleLink q))) s
          = Some (tt, s') ∧
    lists_rep (mm_lists s') ns (if c then remove_elem q hs else hs) us ∧
    same_dom (mm_lists s) (mm_lists s') ∧ same_scalars s s' ∧
    mm_nodes s' = (if c then <[q := set_hole_follows false hd]> (mm_nodes s) else mm_nodes s).
Proof.
  intros Hl Hq Hin Hsome. destruct c; cbn [when].
  - mrun (upd_node_run s q hd (set_hole_follows false) Hq).
    destruct (lists_del_hole _ _ _ _ q Hl Hin Hsome) as (l' & Hrun & Hl' & Hdom).
    rewrite (on_lists_run (set_nodes _ s) _ l') by done.
    eexists. split; [done|]. done.
  - exists s. do 2 (split; [done|]). split; [by intros a|]. split; [|done]. by destruct s.
Qed.

(** Opening a hole after [q] when some of the gap is left. *)
Lemma open_hole_run s ns hs us q nd (c : bool) :
  lists_rep (mm_lists s) ns hs us → mm_nodes s !! q = Some nd → q ∉ hs →
  is_Some (mm_lists s !! HoleLink q) →
  ∃ s', when c (on_lists (list_add (HoleLink q) HoleStack q);;
                upd_node q (set_hole_follows true)) s = Some (tt, s') ∧
    lists_rep (mm_lists s') ns (if c then q :: hs else hs) us ∧
    same_dom (mm_lists s) (mm_lists s') ∧ same_scalars s s' ∧
    mm_nodes s' = (if c then <[q := set_hole_follows true nd]> (mm_nodes s) else mm_nodes s).
Proof.
  intros Hl Hq Hin Hsome. destruct c; cbn [when].
  - destruct (lists_add_hole _ _ _ _ q Hl Hin Hsome) as (l' & Hrun & Hl' & Hdom).
    mrun (on_lists_run s _ l' Hrun).
    rewrite (upd_node_run (set_lists l' s) q nd) by done.
    eexists. split; [done|]. done.
  - exists s. do 2 (split; [done|]). split; [by intros a|]. split; [|done]. by destruct s.
Qed.


Lemma elem_of_remove_elem (r q : node_id) (hs : list node_id) : r ∈ remove_elem q hs ↔ r ≠ q ∧ r ∈ hs.
Proof. unfold remove_elem. by rewrite list_elem_of_filter. Qed.

(** The hole stack after block [b] is put in the gap [gs, ge) of [q]. *)
Definition holes_after (q : node_id) (b : block) (gs ge : Z) (hs : list node_id) : list node_id :=
  (if b_end b <? ge then [b_id b] else []) ++
  (if b_start b =? gs then remove_elem q hs else hs).

(** Facts that make a new state represent the blocks with [b] inserted. *)
Lemma mm_rep_insert s s' lo hi bl hs us q b gs ge hd nd hd' nd' :
  mm_rep s lo hi bl hs us → same_scalars s s' → same_dom (mm_lists s) (mm_lists s') →
  gap_of head_node lo bl hi q = Some (gs, ge) → b_id b ∉ head_node :: ids bl → b_id b ∉ us →
  gs <= b_start b → b_end b <= ge → 0 < b_size b →
  mm_nodes s !! q = Some hd → mm_nodes s !! b_id b = Some nd →
  lists_rep (mm_lists s') (ins_after head_node q (b_id b) (ids bl)) (holes_after q b gs ge hs) us →
  (∀ n, n ≠ q → n ≠ b_id b → mm_nodes s' !! n = mm_nodes s !! n) →
  mm_nodes s' !! q = Some hd' →
  hd' = (if b_start b =? gs then set_hole_follows false hd else hd) →
  mm_nodes s' !! b_id b = Some nd' → node_start nd' = b_start b → node_size nd' = b_size b →
  allocated nd' = true → unscanned nd' → hole_follows nd' = (b_end b <? ge) →
  mm_rep s' lo hi (insert_after head_node q b bl) (holes_after q b gs ge hs) us.
Proof.
  intros Hr Hsc Hdom Hgap Hni Hnu Hs He Hsz Hq Hb Hlists Hf Hq' -> Hb' Hst Hsize Ha Hun Hh.
  destruct (rep_lists _ _ _ _ _ _ Hr) as (_ & _ & Hnd).
  destruct (rep_gap _ _ _ _ _ _ _ _ _ Hr Hgap) as (Hlo & Hge & Hhi & Hmax & Hg & Hqin).
  assert (q ≠ b_id b) as Hqb by congruence.
  assert (∀ r, r ∈ head_node :: ids (insert_after head_node q b bl) ↔
               r = b_id b ∨ r ∈ head_node :: ids bl) as Hids.
  { intros r. rewrite !elem_of_cons, ids_insert_after by done. rewrite elem_of_cons. tauto. }
  assert (∃ hdn, mm_nodes s' !! head_node = Some hdn ∧ node_start hdn = hi) as Hhead.
  { destruct (rep_head _ _ _ _ _ _ Hr) as (hdn & Hhn & Hhs).
    destruct (decide (head_node = q)) as [<-|Hne].
    - rewrite Hq'. simplify_eq. case_bool; eauto.
    - rewrite Hf by set_solver. eauto. }
  destruct Hlists as (Hl1 & Hl2 & Hl3).
  split; [|by rewrite ids_insert|done|done|done| | | | |apply Hr|].
  - intros m Hm. assert (is_Some (mm_nodes s !! m)) as Hms.
    { destruct (decide (m = q)) as [->|]; [by rewrite Hq|].
      destruct (decide (m = b_id b)) as [->|]; [by rewrite Hb|]. by rewrite <- Hf. }
    split; apply Hdom; by apply (rep_alloc _ _ _ _ _ _ Hr m).
  - eapply layout_insert; [apply Hr|done|done|done|done|done|done|done| | | |].
    + intros b' <- (nd0 & Hnd0 & ?). rewrite Hq in Hnd0. simplify_eq.
      eexists. split; [done|]. case_bool; done.
    + exists nd'. done.
    + exists nd'. split; [done|]. rewrite Hst, Hsize.
      split; [|done]. unfold b_end in *. apply u64_id. lia.
    + destruct Hg as (hd0 & Hhd0 & Hend & Hhf). assert (hd0 = hd) as -> by congruence.
      eexists. split; [done|]. destruct (Z.eqb_spec (b_start b) gs); cbn; split; try done.
      * symmetry. apply Z.ltb_ge. lia.
      * rewrite Hhf. unfold b_end in *. etransitivity; [apply Z.ltb_lt; lia|].
        symmetry. apply Z.ltb_lt. lia.
  - intros r. rewrite (gap_of_insert _ _ _ _ _ _ _ _ _ Hnd Hni Hgap).
    assert (b_id b ∉ hs) as Hbh.
    { intros (g1 & g2 & Hg2 & _)%(rep_hs _ _ _ _ _ _ Hr).
      by apply (rep_gap _ _ _ _ _ _ _ _ _ Hr) in Hg2 as (_ & _ & _ & _ & _ & ?). }
    pose proof (rep_hs _ _ _ _ _ _ Hr r) as Hhs. unfold holes_after. rewrite elem_of_app.
    destruct (decide (r = b_id b)) as [->|Hrb]; [|destruct (decide (r = q)) as [->|Hrq]].
    + destruct (Z.ltb_spec (b_end b) ge); [|destruct (Z.eqb_spec (b_start b) gs)].
      * split; [|set_solver]. eauto.
      * rewrite elem_of_remove_elem. split; [set_solver|]. intros (? & ? & ? & ?). simplify_eq. lia.
      * split; [set_solver|]. intros (? & ? & ? & ?). simplify_eq. lia.
    + assert (q ∉ (if b_end b <? ge then [b_id b] else [])) as Hq2 by (case_bool; set_solver).
      destruct (Z.eqb_spec (b_start b) gs).
      * rewrite elem_of_remove_elem. split; [by intros [?|[? _]]|].
        intros (? & ? & ? & ?). simplify_eq. lia.
      * rewrite Hhs. split; [|intros _; right; exists gs, ge; split; [done|unfold b_end in *; lia]].
        intros _. exists gs, (b_start b). split; [done|lia].
    + assert (r ∉ (if b_end b <? ge then [b_id b] else [])) as Hq2 by (case_bool; set_solver).
      destruct (b_start b =? gs); rewrite ?elem_of_remove_elem; tauto.
  - intros u Hu. destruct (rep_us _ _ _ _ _ _ Hr u Hu) as (Huni & nu & Hnu' & ? & ?).
    rewrite Hids. assert (u ≠ b_id b) by congruence.
    split; [tauto|]. exists nu. rewrite Hf; [done| |done]. congruence.
  - rewrite Hsc. apply Hr.
  - rewrite Hsc. apply Hr.
Qed.


Lemma same_scalars_trans s1 s2 s3 : same_scalars s1 s2 → same_scalars s2 s3 → same_scalars s1 s3.
Proof. unfold same_scalars. intros H1 H2. rewrite H2, H1. done. Qed.

Lemma same_scalars_set s1 s2 ns l : same_scalars s1 s2 →
  same_scalars s1 (set_nodes ns (set_lists l s2)).
Proof. unfold same_scalars. destruct s2. cbn. intros H. injection H. intros. by subst. Qed.

(** A free node: cleared, on no list of the manager. *)
Definition free_node s bl (us : list node_id) n : Prop :=
  n ∉ head_node :: ids bl ∧ n ∉ us ∧
  ∃ nd, mm_nodes s !! n = Some nd ∧ allocated nd = false ∧ unscanned nd.

Lemma hole_in_gap s lo hi bl hs us n :
  mm_rep s lo hi bl hs us → n ∉ head_node :: ids bl → n ∉ hs.
Proof.
  intros Hr Hn (g1 & g2 & Hg2 & _)%(rep_hs _ _ _ _ _ _ Hr).
  by apply (rep_gap _ _ _ _ _ _ _ _ _ Hr) in Hg2 as (_ & _ & _ & _ & _ & ?).
Qed.

(** The block goes into the gap of [q] where the adjusted, aligned range says. *)
Lemma insert_helper_range_run s lo hi bl hs us q n gs ge size al color start end_ a b :
  mm_rep s lo hi bl hs us → gap_of head_node lo bl hi q = Some (gs, ge) → gs < ge →
  free_node s bl us n → adjusted s q color (clip start end_ gs ge) = Some (a, b) →
  0 < size → gs <= align_start a al → align_start a al + size <= b → b <= ge → b <= end_ →
  ∃ s', drm_mm_insert_helper_range q n size al color start end_ s = Some (tt, s') ∧
    mm_rep s' lo hi (insert_after head_node q (mk_block n (align_start a al) size) bl)
      (holes_after q (mk_block n (align_start a al) size) gs ge hs) us ∧
    same_scalars s s' ∧
    (∃ nd', mm_nodes s' !! n = Some nd' ∧ node_color nd' = color) ∧
    (∀ m, m ≠ n → m ≠ q → mm_nodes s' !! m = mm_nodes s !! m).
Proof.
  intros Hr Hgap Hlt (Hni & Hnu & nd & Hnd & Hna & Hun) Hadj Hsz Hsa Hfit Hb Hbe.
  destruct (rep_lists _ _ _ _ _ _ Hr) as (Hl & Hdis & Hndup).
  destruct (rep_gap _ _ _ _ _ _ _ _ _ Hr Hgap) as (Hlo & Hge & Hhi & Hmax & Hg & Hqin).
  rewrite (proj2 (Z.ltb_lt _ _) Hlt) in Hg. pose proof Hg as (hd & Hhd & Hhe & Hhf).
  pose proof (hole_in_gap _ _ _ _ _ _ _ Hr Hni) as Hnh.
  assert (q ∈ hs) as Hqh by (apply (rep_hs _ _ _ _ _ _ Hr); eauto).
  assert (n ≠ q) as Hnq by congruence.
  destruct (rep_alloc _ _ _ _ _ _ Hr n (mk_is_Some _ _ Hnd)) as [Han Hahn].
  destruct (rep_alloc _ _ _ _ _ _ Hr q (mk_is_Some _ _ Hhd)) as [_ Haq].
  remember (align_start a al) as sa eqn:Hsa_eq. set (blk := mk_block n sa size).
  unfold drm_mm_insert_helper_range.
  mrun (hole_start_run s q gs Hg).
  mrun (hole_end_run s lo hi bl hs us q gs ge Hr Hgap).
  mrun (node_of_run s q hd Hhd). mrun (node_of_run s n nd Hnd).
  rewrite BUG_ON_bind by (by rewrite Hhf, Hna).
  mrun (adjusted_run s q color _ _ Hadj). cbn [fst snd]. rewrite <- Hsa_eq.
  destruct (close_hole_run s (ids bl) hs us q hd (sa =? gs)) as
    (s1 & Hrun1 & Hl1 & Hdom1 & Hsc1 & Hn1); [done..|].
  mrun Hrun1.
  assert (mm_nodes s1 !! n = Some nd) as Hnd1.
  { rewrite Hn1. case_bool; [|done]. by rewrite lookup_insert_ne. }
  mrun (upd_node_run s1 n nd (set_range sa size color) Hnd1).
  set (N2 := <[n := set_range sa size color nd]> (mm_nodes s1)).
  destruct (lists_init_hole (mm_lists s1) _ _ _ n Hl1) as (l3 & Hrun3 & Hl3 & Hdom3).
  { case_bool; rewrite ?elem_of_remove_elem; tauto. }
  { by apply Hdom1. }
  mrun (on_lists_run (set_nodes N2 s1) _ l3 Hrun3).
  destruct (lists_add_node l3 _ _ _ q n Hl3 Hdis Hqin Hni Hnu) as (l4 & Hrun4 & Hl4 & Hdom4).
  { by apply Hdom3, Hdom1. }
  mrun (on_lists_run (set_lists l3 (set_nodes N2 s1)) _ l4 Hrun4).
  rewrite u64_id by lia.
  rewrite !BUG_ON_bind by (apply Z.ltb_ge; lia).
  set (s4 := set_lists l4 (set_lists l3 (set_nodes N2 s1))).
  assert (mm_nodes s4 !! n = Some (set_range sa size color nd)) as Hnd4
    by apply lookup_insert_eq.
  mrun (upd_node_run s4 n _ (set_hole_follows false) Hnd4).
  set (N5 := <[n := set_hole_follows false (set_range sa size color nd)]> (mm_nodes s4)).
  assert (__drm_mm_hole_node_start n (set_nodes N5 s4) = Some (sa + size, set_nodes N5 s4)) as Hst.
  { eapply (gap_start_run _ _ _ false). eexists. split; [apply lookup_insert_eq|].
    split; [|done]. cbn. apply u64_id. lia. }
  mrun Hst.
  destruct (open_hole_run (set_nodes N5 s4) _ _ us n
    (set_hole_follows false (set_range sa size color nd)) (sa + size <? ge) Hl4)
    as (s6 & Hrun6 & Hl6 & Hdom6 & Hsc6 & Hn6).
  { apply lookup_insert_eq. }
  { case_bool; rewrite ?elem_of_remove_elem; tauto. }
  { by apply Hdom4, Hdom3, Hdom1. }
  exists s6. split; [done|].
  assert (∀ m, m ≠ n → mm_nodes s6 !! m = mm_nodes s1 !! m) as Hother.
  { intros m Hm. rewrite Hn6. unfold N5, s4, N2.
    destruct (sa + size <? ge); cbn; rewrite !lookup_insert_ne by done; done. }
  assert (same_scalars s s6) as Hsc.
  { eapply same_scalars_trans; [exact Hsc1|]. unfold same_scalars in *. rewrite Hsc6. done. }
  assert (mm_nodes s6 !! n =
    Some (set_hole_follows (sa + size <? ge) (set_range sa size color nd))) as Hn6n.
  { rewrite Hn6. destruct (sa + size <? ge); apply lookup_insert_eq. }
  split; [|split; [done|split; [by eexists|]]].
  - eapply (mm_rep_insert s s6 lo hi bl hs us q blk gs ge hd nd); try done; cbn.
    + intros x. rewrite (Hdom6 x), <- (Hdom1 x), <- (Hdom3 x), <- (Hdom4 x). done.
    + unfold b_end. cbn. lia.
    + unfold holes_after, b_end. cbn. by destruct (sa + size <? ge).
    + intros m Hmq Hmn. rewrite Hother, Hn1 by done.
      case_bool; [by rewrite lookup_insert_ne|done].
    + rewrite Hother, Hn1 by done. case_bool; [by rewrite lookup_insert_eq|done].
  - intros m Hmn Hmq. rewrite Hother, Hn1 by done.
    case_bool; [by rewrite lookup_insert_ne|done].
Qed.

Lemma insert_helper_eq s q n size al color gs ge hd nd :
  drm_mm_hole_node_start q s = Some (gs, s) → drm_mm_hole_node_end q s = Some (ge, s) →
  mm_nodes s !! q = Some hd → hole_follows hd = true → mm_nodes s !! n = Some nd →
  0 <= gs → ge <= ULONG_MAX →
  drm_mm_insert_helper q n size al color s =
  drm_mm_insert_helper_range q n size al color 0 ULONG_MAX s.
Proof.
  intros Hgs Hge Hhd Hh Hnd H0 HM. unfold drm_mm_insert_helper, drm_mm_insert_helper_range.
  mrun Hgs. mrun Hge. mrun (node_of_run s n nd Hnd). mrun Hgs. mrun Hge.
  mrun (node_of_run s q hd Hhd). mrun (node_of_run s n nd Hnd). rewrite Hh. cbn [negb orb].
  rewrite (proj2 (Z.ltb_ge gs 0)), (proj2 (Z.ltb_ge ULONG_MAX ge)) by lia.
  do 7 (apply M_bind_ext; intros). rewrite BUG_ON_bind; [done|].
  apply Z.ltb_ge. unfold ULONG_MAX. pose proof (wrap_range 64 (align_start a0.1 al + size)). lia.
Qed.

(** ** The searches *)

(** The test the search makes on the hole after [q]. *)
Definition fits s lo bl hi (size al color start end_ : Z) (q : node_id) : bool :=
  match gap_of head_node lo bl hi q with
  | Some (gs, ge) =>
    match adjusted s q color (clip start end_ gs ge) with
    | Some (a, b) =>
      negb (has_color_adjust s && (b <=? a)) && check_free_hole a b size al
    | None => false
    end
  | None => false
  end.

(** The callback answers on every hole, and the clipped range ends past its margin. *)
Definition ca_ready s lo bl hi (color start end_ : Z) : Prop :=
  ∀ q gs ge, gap_of head_node lo bl hi q = Some (gs, ge) → gs < ge →
    is_Some (adjusted s q color (clip start end_ gs ge)) ∧
    (has_color_adjust s = true → ca_margin <= (clip start end_ gs ge).2).

Lemma search_body_state size al color best q adj acc s acc' s' :
  search_body size al color best q adj acc s = Some (inl acc', s') → s' = s.
Proof.
  unfold search_body. rewrite get_bind. unfold call_color_adjust.
  intros (ab & s1 & H1 & H2)%M_bind_inv. rewrite get_bind in H1.
  assert (s1 = s) as ->.
  { unfold mret, M_ret, reads in H1. repeat case_match; by simplify_eq. }
  unfold mbind, M_bind, mret, M_ret, node_of, reads in H2. repeat case_match; by simplify_eq.
Qed.

(** First fit: the search returns the first hole of the stack that fits. *)
Lemma search_first s lo hi bl hs us size al color start end_ :
  mm_rep s lo hi bl hs us → ca_ready s lo bl hi color start end_ →
  drm_mm_search_free_in_range_generic size al color start end_ false s =
    Some (List.find (fits s lo bl hi size al color start end_) hs, s).
Proof.
  intros Hr Hca. unfold drm_mm_search_free_in_range_generic. rewrite get_bind.
  rewrite BUG_ON_bind by (by rewrite (rep_scan _ _ _ _ _ _ Hr)).
  match goal with |- (drm_mm_for_each_hole ?f _ ≫= _) _ = _ => set (body := f) end.
  assert (drm_mm_for_each_hole body (None, ULONG_MAX) s =
    Some (match List.find (fits s lo bl hi size al color start end_) hs with
          | Some q => inr q | None => inl (None, ULONG_MAX) end, s)) as Hrun.
  2:{ mrun Hrun. by destruct (List.find _ hs). }
  rewrite (for_each_hole_run body s lo hi bl hs us);
    [|done|intros q gs ge acc acc' s'; apply search_body_state].
  assert (∀ q, q ∈ hs → ∃ gs ge, gap_of head_node lo bl hi q = Some (gs, ge) ∧ gs < ge) as Hin
    by (intros q; apply (rep_hs _ _ _ _ _ _ Hr)).
  clear Hr. induction hs as [|q hs IH]; [done|]. cbn [holes_fold List.find].
  destruct (Hin q) as (gs & ge & Hgap & Hlt); [set_solver|].
  destruct (Hca _ _ _ Hgap Hlt) as [[[a b] Hadj] _].
  set (bad := has_color_adjust s && (b <=? a)).
  assert (body q gs ge (None, ULONG_MAX) s =
    Some (if negb bad && check_free_hole a b size al then inr q else inl (None, ULONG_MAX), s))
    as Hb.
  { unfold body, search_body. rewrite get_bind. mrun (adjusted_run s q color _ _ Hadj).
    cbn [fst snd negb]. fold bad. destruct bad, (check_free_hole a b size al); done. }
  unfold fits at 1. rewrite Hgap, Hadj. cbn [mbind option_bind]. rewrite Hb.
  cbn [mbind option_bind]. fold bad.
  destruct (negb bad && check_free_hole a b size al); [done|]. apply IH. set_solver.
Qed.

(** The search without a range is the search in the range of all addresses. *)
Lemma search_generic_eq s lo hi bl hs us size al color best :
  mm_rep s lo hi bl hs us →
  drm_mm_search_free_generic size al color best s =
  drm_mm_search_free_in_range_generic size al color 0 ULONG_MAX best s.
Proof.
  intros Hr. unfold drm_mm_search_free_generic, drm_mm_search_free_in_range_generic.
  rewrite !get_bind, !BUG_ON_bind by (by rewrite (rep_scan _ _ _ _ _ _ Hr)).
  match goal with |- (drm_mm_for_each_hole ?f _ ≫= _) _ = (drm_mm_for_each_hole ?g _ ≫= _) _
    => set (body := f); set (body' := g) end.
  assert (drm_mm_for_each_hole body (None, ULONG_MAX) s =
          drm_mm_for_each_hole body' (None, ULONG_MAX) s) as Heq.
  2:{ unfold mbind, M_bind. by rewrite Heq. }
  rewrite !(for_each_hole_run _ s lo hi bl hs us) by
    (done || (intros q gs ge acc acc' s'; apply search_body_state)).
  assert (∀ hs' acc, holes_fold body s lo bl hi hs' acc = holes_fold body' s lo bl hi hs' acc)
    as Hall; [|apply Hall].
  induction hs' as [|q hs' IH]; intros acc; [done|]. cbn [holes_fold].
  destruct (gap_of head_node lo bl hi q) as [[gs ge]|] eqn:Hgap; [|done].
  destruct (rep_gap _ _ _ _ _ _ _ _ _ Hr Hgap) as (? & ? & ? & ? & _).
  cbn [mbind option_bind].
  assert (body' q gs ge acc s = body q gs ge acc s) as Heq.
  { unfold body, body', ULONG_MAX.
    by rewrite (proj2 (Z.ltb_ge gs 0)), (proj2 (Z.ltb_ge (2 ^ 64 - 1) ge)) by lia. }
  rewrite Heq. destruct (body q gs ge acc s) as [[[acc'|x] s']|]; [apply IH|done..].
Qed.

(** ** Alignment *)

(** [align_start] rounds up to the next multiple, without wrapping. *)
Lemma align_start_spec a al : 0 <= a <= 2 ^ 62 + 2 ^ 60 → 0 <= al < 2 ^ 32 →
  a <= align_start a al < a + 2 ^ 32 ∧
  (al | align_start a al) ∨ al = 0 ∧ align_start a al = a.
Proof.
  intros Ha Hal. unfold align_start, z2b. destruct (Z.eqb_spec al 0) as [->|Hne]; cbn [negb].
  { by right. }
  left. pose proof (Z.mod_pos_bound a al ltac:(lia)).
  rewrite (u32_id (a mod al)) by lia.
  destruct (Z.eqb_spec (a mod al) 0) as [Hz|Hz]; cbn [negb].
  { split; [lia|]. by apply Z.mod_divide. }
  rewrite (u32_id (al - a mod al)), u64_id by lia. split; [lia|].
  exists (a / al + 1). pose proof (Z.div_mod a al Hne). lia.
Qed.

(** Every aligned address at or above [a] is at or above [align_start a al]. *)
Lemma align_start_least a al st : 0 <= a <= 2 ^ 62 + 2 ^ 60 → 0 <= al < 2 ^ 32 →
  a <= st → (al = 0 ∨ (al | st)) → align_start a al <= st.
Proof.
  intros Ha Hal Hle Hst. unfold align_start, z2b.
  destruct (Z.eqb_spec al 0) as [->|Hne]; cbn [negb]; [done|].
  destruct Hst as [?|[k ->]]; [done|].
  pose proof (Z.mod_pos_bound a al ltac:(lia)). pose proof (Z.div_mod a al Hne).
  rewrite (u32_id (a mod al)) by lia.
  destruct (Z.eqb_spec (a mod al) 0) as [Hz|Hz]; cbn [negb]; [done|].
  rewrite (u32_id (al - a mod al)), u64_id by lia.
  assert (a / al < k) by nia. nia.
Qed.

Lemma align_start_bounds a al : 0 <= a <= 2 ^ 62 + 2 ^ 60 → 0 <= al < 2 ^ 32 →
  a <= align_start a al < a + 2 ^ 32.
Proof.
  intros Ha Hal. destruct (align_start_spec a al Ha Hal) as [[? _]|[_ ->]]; lia.
Qed.

(** [check_free_hole] is the comparison it means, wrap-around included. *)
Lemma check_free_hole_spec a b size al :
  0 <= a <= 2 ^ 62 + 2 ^ 60 → 0 <= b <= 2 ^ 62 → 0 < size <= 2 ^ 62 → 0 <= al < 2 ^ 32 →
  check_free_hole a b size al = (align_start a al + size <=? b).
Proof.
  intros Ha Hb Hs Hal. pose proof (align_start_bounds a al Ha Hal) as Hbd.
  unfold check_free_hole. rewrite (u64_id (align_start a al + size)) by lia.
  destruct (Z.ltb_spec (u64 (b - a)) size) as [Hlt|Hge]; [|done].
  destruct (Z.le_gt_cases a b).
  - rewrite u64_id in Hlt by lia. symmetry. apply Z.leb_gt. lia.
  - unfold wrap in Hlt. rewrite <- (Z.mod_add _ 1) in Hlt by lia.
    rewrite Z.mod_small in Hlt; lia.
Qed.

(** What the searches need of the arguments of a request. *)
Definition request_ok (size al start end_ : Z) : Prop :=
  0 < size <= 2 ^ 62 ∧ 0 <= al < 2 ^ 32 ∧ 0 <= start <= 2 ^ 62 ∧ 0 <= end_.

Lemma adjusted_bounds s lo hi bl hs us q gs ge color start end_ a b :
  mm_rep s lo hi bl hs us → ca_ready s lo bl hi color start end_ →
  gap_of head_node lo bl hi q = Some (gs, ge) → gs < ge →
  0 <= start <= 2 ^ 62 → 0 <= end_ →
  adjusted s q color (clip start end_ gs ge) = Some (a, b) →
  Z.max gs start <= a <= 2 ^ 62 + 2 ^ 60 ∧ 0 <= b <= Z.min ge end_.
Proof.
  intros Hr Hca Hgap Hlt Hst Hen Hadj.
  destruct (Hca _ _ _ Hgap Hlt) as [_ Hm].
  destruct (rep_gap _ _ _ _ _ _ _ _ _ Hr Hgap) as (? & ? & ? & ? & _).
  assert ((clip start end_ gs ge).1 = Z.max gs start) as Hc1.
  { unfold clip. cbn. case_bool; lia. }
  assert ((clip start end_ gs ge).2 = Z.min ge end_) as Hc2.
  { unfold clip. cbn. case_bool; lia. }
  destruct (clip start end_ gs ge) as [cs ce]. cbn [fst snd] in *. subst cs ce.
  unfold adjusted in Hadj. destruct (has_color_adjust s).
  - apply color_adjust_narrows in Hadj; [|lia|]. lia. specialize (Hm eq_refl). lia.
  - simplify_eq. lia.
Qed.

(** A hole that fits takes the block at an aligned address of the request. *)
Lemma fits_true s lo hi bl hs us size al color start end_ q :
  mm_rep s lo hi bl hs us → ca_ready s lo bl hi color start end_ → q ∈ hs →
  request_ok size al start end_ → fits s lo bl hi size al color start end_ q = true →
  ∃ gs ge a b, gap_of head_node lo bl hi q = Some (gs, ge) ∧ gs < ge ∧
    adjusted s q color (clip start end_ gs ge) = Some (a, b) ∧
    gs <= align_start a al ∧ start <= align_start a al ∧
    (al = 0 ∨ (al | align_start a al)) ∧
    align_start a al + size <= b ∧ b <= ge ∧ b <= end_.
Proof.
  intros Hr Hca Hq (Hsz & Hal & Hst & Hen).
  apply (rep_hs _ _ _ _ _ _ Hr) in Hq as (gs & ge & Hgap & Hlt). unfold fits. rewrite Hgap.
  destruct (adjusted s q color _) as [[a b]|] eqn:Hadj; [|done].
  destruct (rep_gap _ _ _ _ _ _ _ _ _ Hr Hgap) as (? & ? & ? & ? & _).
  pose proof (adjusted_bounds _ _ _ _ _ _ _ _ _ _ _ _ _ _ Hr Hca Hgap Hlt Hst Hen Hadj).
  rewrite check_free_hole_spec by lia. intros Hfit. bool_to_Z.
  pose proof (align_start_bounds a al ltac:(lia) Hal).
  exists gs, ge, a, b. split_and!; try done; try lia.
  destruct (align_start_spec a al ltac:(lia) Hal) as [[_ ?]|[? _]]; tauto.
Qed.

(** Without a callback, a hole that does not fit has no place for the block. *)
Lemma fits_false s lo hi bl hs us size al color start end_ q gs ge st :
  mm_rep s lo hi bl hs us → has_color_adjust s = false → request_ok size al start end_ →
  gap_of head_node lo bl hi q = Some (gs, ge) →
  fits s lo bl hi size al color start end_ q = false →
  gs <= st → start <= st → (al = 0 ∨ (al | st)) → st + size <= ge → st + size <= end_ → False.
Proof.
  intros Hr Hn (Hsz & Hal & Hst & Hen) Hgap. unfold fits, adjusted, clip. rewrite Hgap, Hn.
  destruct (rep_gap _ _ _ _ _ _ _ _ _ Hr Hgap) as (? & ? & ? & ? & _). cbn [andb negb].
  rewrite check_free_hole_spec; [|repeat case_bool; lia..]. intros Hfit ?? Hdiv ??. bool_to_Z.
  assert (align_start (if gs <? start then start else gs) al <= st) as Hl.
  { apply align_start_least; [repeat case_bool; lia|done|repeat case_bool; lia|done]. }
  revert Hfit. case_bool; lia.
Qed.

Lemma find_Some_elem {X} (f : X → bool) xs x : List.find f xs = Some x → x ∈ xs ∧ f x = true.
Proof. intros H%List.find_some. by rewrite <- list_elem_of_In in H. Qed.

(** The gap of a block that was inserted starts at or before it. *)
Lemma search_in_range_cases s lo hi bl hs us size al color start end_ :
  mm_rep s lo hi bl hs us → ca_ready s lo bl hi color start end_ →
  request_ok size al start end_ →
  let r := List.find (fits s lo bl hi size al color start end_) hs in
  drm_mm_search_free_in_range_generic size al color start end_ false s = Some (r, s) ∧
  match r with
  | Some q => q ∈ hs ∧ fits s lo bl hi size al color start end_ q = true
  | None => ∀ q, q ∈ hs → fits s lo bl hi size al color start end_ q = false
  end.
Proof.
  intros Hr Hca Hrq. cbn zeta. split; [by eapply search_first|].
  destruct (List.find _ hs) as [q|] eqn:Hf; [by apply find_Some_elem|].
  intros q Hq%list_elem_of_In. by eapply List.find_none in Hf.
Qed.

(** ** Allocation *)

(** [free_space ..]: some gap has an aligned place for the request. *)
Definition free_space (lo : Z) bl (hi size al start end_ : Z) : Prop :=
  ∃ q gs ge st, gap_of head_node lo bl hi q = Some (gs, ge) ∧
    gs <= st ∧ st + size <= ge ∧ start <= st ∧ st + size <= end_ ∧ (al = 0 ∨ (al | st)).

(** [placed ..]: block [b] satisfies the request and lies in a gap. *)
Definition placed (lo : Z) bl (hi : Z) n (size al start end_ : Z) q b : Prop :=
  ∃ gs ge, gap_of head_node lo bl hi q = Some (gs, ge) ∧ b_id b = n ∧ b_size b = size ∧
    gs <= b_start b ∧ b_end b <= ge ∧ start <= b_start b ∧ b_end b <= end_ ∧
    (al = 0 ∨ (al | b_start b)).

Lemma insert_in_range_run s lo hi bl hs us n size al color start end_ :
  mm_rep s lo hi bl hs us → free_node s bl us n → request_ok size al start end_ →
  ca_ready s lo bl hi color start end_ →
  (∃ s' q b hs', drm_mm_insert_node_in_range_generic n size al color start end_ s = Some (0, s') ∧
    placed lo bl hi n size al start end_ q b ∧
    mm_rep s' lo hi (insert_after head_node q b bl) hs' us ∧ same_scalars s s' ∧
    (∀ m, m ≠ n → m ≠ q → mm_nodes s' !! m = mm_nodes s !! m)) ∨
  (drm_mm_insert_node_in_range_generic n size al color start end_ s = Some (- ENOSPC, s) ∧
   (has_color_adjust s = false → ¬ free_space lo bl hi size al start end_)).
Proof.
  intros Hr Hn Hrq Hca. unfold drm_mm_insert_node_in_range_generic.
  destruct (search_in_range_cases _ _ _ _ _ _ size al color start end_ Hr Hca Hrq) as [Hrun Hc].
  rewrite (M_bind_Some _ _ _ _ _ Hrun). destruct (List.find _ hs) as [q|].
  - left. destruct Hc as [Hq Hfit].
    destruct (fits_true _ _ _ _ _ _ _ _ _ _ _ _ Hr Hca Hq Hrq Hfit)
      as (gs & ge & a & b & Hgap & Hlt & Hadj & ? & ? & ? & ? & ? & ?).
    destruct (insert_helper_range_run s lo hi bl hs us q n gs ge size al color start end_ a b)
      as (s' & Hrun' & Hr' & Hsc & _ & Hother); [done..|apply Hrq|done|done|done|done|].
    exists s', q, (mk_block n (align_start a al) size). eexists.
    split; [by mrun Hrun'|]. split; [|done].
    exists gs, ge. unfold b_end. cbn. split_and!; (done || lia).
  - right. split; [done|]. intros Hna (q & gs & ge & st & Hgap & ? & ? & ? & ? & ?).
    destruct Hrq as (Hsz & Hrq). assert (q ∈ hs) as Hq.
    { apply (rep_hs _ _ _ _ _ _ Hr). exists gs, ge. split; [done|lia]. }
    by eapply (fits_false s lo hi bl hs us size al color start end_ q gs ge st); eauto.
Qed.

End Alloc.

(** ** Release *)

Section Release.
Context `{CA : ColorAdjust}.
Implicit Types (s : drm_mm) (n q : node_id) (bl : list block).

Lemma last_app_cons {X} (l1 l2 : list X) x d : List.last (l1 ++ x :: l2) d = List.last l2 x.
Proof.
  revert d. induction l1 as [|y l1 IH]; intros d; [apply last_cons|].
  rewrite <- app_comm_cons, last_cons. apply IH.
Qed.

Lemma last_fmap {X Y} (f : X → Y) xs d : List.last (f <$> xs) (f d) = f (List.last xs d).
Proof.
  revert d. induction xs as [|x xs IH]; intros d; [done|].
  rewrite fmap_cons, !last_cons. apply IH.
Qed.

(** The node before [n] in the node list. *)
Lemma prev_node_run s l1 n l2 :
  represents (mm_lists s) lh_obj (NodeList head_node) (Some head_node)
    (NodeList <$> l1 ++ n :: l2) →
  let q := List.last l1 head_node in
  of_lists (rd_prev (Some (NodeList n))) s = Some (Some (NodeList q), s) ∧
  entry_of (Some (NodeList q)) s = Some (q, s).
Proof.
  intros (Hd & Hc & Hh) q. rewrite fmap_app, fmap_cons in Hd.
  pose proof (dll_rotate _ _ _ _ _ Hd) as Hrot. apply dll_prev in Hrot as Hp.
  rewrite last_app_cons, last_fmap in Hp. split.
  - apply of_lists_run. rewrite rd_prev_prv by (by eapply prv_Some). by rewrite Hp.
  - pose proof (last_elem_of l1 head_node) as Hq. fold q in Hq. apply entry_of_run.
    + eapply dll_alloc; [exact Hd|]. apply elem_of_cons in Hq as [->|Hq]; set_solver.
    + apply elem_of_cons in Hq as [->|Hq]; [done|]. unfold contains in Hc.
      rewrite Forall_forall in Hc. apply (Hc (NodeList q)). set_solver.
Qed.

Lemma gap_of_app p e l1 b l2 hi :
  NoDup (p :: ids (l1 ++ b :: l2)) →
  gap_of p e (l1 ++ b :: l2) hi (b_id b) = Some (b_end b, next_start l2 hi).
Proof.
  revert p e. induction l1 as [|x l1 IH]; intros p e Hnd; cbn.
  - apply NoDup_cons in Hnd as [Hp _]. rewrite decide_False by (cbn in Hp; set_solver).
    apply gap_of_here.
  - rewrite <- app_comm_cons in Hnd. apply NoDup_cons in Hnd as [Hp Hnd].
    rewrite decide_False; [by apply IH|]. intros ->. apply Hp. cbn. rewrite ids_app. cbn.
    clear. set_solver.
Qed.

Lemma gap_of_none p e bl hi q : q ∉ p :: ids bl → gap_of p e bl hi q = None.
Proof.
  revert p e. induction bl as [|x bl IH]; intros p e Hni; cbn;
    (rewrite decide_False; [|intros ->; apply Hni; clear; set_solver]); [done|].
  apply IH. set_solver.
Qed.

Lemma gap_of_last p e l1 b l2 hi :
  NoDup (p :: ids (l1 ++ b :: l2)) →
  ∃ gs, gap_of p e (l1 ++ b :: l2) hi (List.last (ids l1) p) = Some (gs, b_start b).
Proof.
  revert p e. induction l1 as [|x l1 IH]; intros p e Hnd.
  - exists e. by rewrite gap_of_here.
  - rewrite <- app_comm_cons in Hnd. apply NoDup_cons in Hnd as [Hp Hnd].
    change (ids (x :: l1)) with (b_id x :: ids l1). rewrite last_cons.
    cbn [app gap_of]. rewrite decide_False; [by apply IH|]. intros ->. apply Hp.
    pose proof (last_elem_of (ids l1) (b_id x)) as Hl.
    rewrite app_comm_cons, ids_app. apply elem_of_app. by left.
Qed.

Lemma layout_node nodes p e l1 b l2 hi : layout nodes p e (l1 ++ b :: l2) hi →
  node_is nodes b ∧ 0 < b_size b ∧ e <= b_start b.
Proof.
  revert p e. induction l1 as [|x l1 IH]; intros p e Hl.
  - cbn [app] in Hl. rewrite layout_unfold in Hl. cbn in Hl. tauto.
  - rewrite <- app_comm_cons, layout_unfold in Hl. destruct Hl as (He & _ & _ & Hs & Hl).
    apply IH in Hl as (? & ? & ?). cbn in He. unfold b_end in *. split_and!; [done..|lia].
Qed.

(** The hole stack after the block of [n] is released: the node before it now
    has a hole, and that hole is on top. *)
Definition holes_released (q n : node_id) (hs : list node_id) : list node_id :=
  q :: remove_elem q (remove_elem n hs).

(** Put the hole of the node before the released one on top of the stack. *)
Lemma raise_hole_run s ns hs us q pd :
  lists_rep (mm_lists s) ns hs us → mm_nodes s !! q = Some pd →
  is_Some (mm_lists s !! HoleLink q) → (hole_follows pd = true ↔ q ∈ hs) →
  ∃ s', (if negb (hole_follows pd) then
           upd_node q (set_hole_follows true);;
           on_lists (list_add (HoleLink q) HoleStack q)
         else on_lists (list_move (HoleLink q) HoleStack q)) s = Some (tt, s') ∧
    lists_rep (mm_lists s') ns (q :: remove_elem q hs) us ∧
    same_dom (mm_lists s) (mm_lists s') ∧ same_scalars s s' ∧
    mm_nodes s' = <[q := set_hole_follows true pd]> (mm_nodes s).
Proof.
  intros Hl Hq Hsome Hin. destruct (hole_follows pd) eqn:Hh; cbn [negb].
  - destruct (lists_move_hole _ _ _ _ q Hl) as (l' & Hrun & Hl' & Hdom); [tauto|done|].
    rewrite (on_lists_run s _ l' Hrun). eexists. split; [done|].
    split; [done|]. split; [done|]. split; [by destruct s|].
    cbn. rewrite insert_id; [done|]. rewrite Hq. f_equal. destruct pd. cbn in *. by subst.
  - assert (q ∉ hs) as Hni by (intros ?%Hin; done).
    mrun (upd_node_run s q pd (set_hole_follows true) Hq).
    destruct (lists_add_hole (mm_lists s) _ _ _ q Hl Hni Hsome) as (l' & Hrun & Hl' & Hdom).
    rewrite (on_lists_run (set_nodes _ s) _ l') by done. eexists. split; [done|].
    assert (remove_elem q hs = hs) as ->.
    { apply filter_all, Forall_forall. intros x Hx ->. done. }
    done.
Qed.

(** Facts that make a new state represent the blocks with [b] removed. *)
Lemma mm_rep_remove s s' lo hi l1 b l2 hs us pd nd' :
  let q := List.last (ids l1) head_node in
  mm_rep s lo hi (l1 ++ b :: l2) hs us → same_scalars s s' →
  same_dom (mm_lists s) (mm_lists s') →
  lists_rep (mm_lists s') (ids (l1 ++ l2)) (holes_released q (b_id b) hs) us →
  (∀ n, n ≠ q → n ≠ b_id b → mm_nodes s' !! n = mm_nodes s !! n) →
  mm_nodes s !! q = Some pd → mm_nodes s' !! q = Some (set_hole_follows true pd) →
  mm_nodes s' !! b_id b = Some nd' → is_Some (mm_nodes s !! b_id b) →
  mm_rep s' lo hi (l1 ++ l2) (holes_released q (b_id b) hs) us.
Proof.
  intros q Hr Hsc Hdom (Hl1 & Hl2 & Hl3) Hf Hq Hq' Hb Hb0.
  destruct (rep_lists _ _ _ _ _ _ Hr) as (_ & Hdis & Hnd).
  pose proof (rep_layout _ _ _ _ _ _ Hr) as Hlay.
  pose proof (gap_of_app _ lo _ _ _ hi Hnd) as Hgb.
  destruct (gap_of_last _ lo _ _ _ hi Hnd) as [gs Hgq]. fold q in Hgq.
  destruct (layout_node _ _ _ _ _ _ _ Hlay) as (_ & Hsz & _).
  destruct (rep_gap _ _ _ _ _ _ _ _ _ Hr Hgb) as (_ & Hbe & _).
  destruct (rep_gap _ _ _ _ _ _ _ _ _ Hr Hgq) as (_ & Hqs & _ & _ & _ & Hqin).
  assert (q ≠ b_id b) as Hqb.
  { intros Heq. rewrite Heq, Hgb in Hgq. unfold b_end in *. simplify_eq.
    lia. }
  assert (∀ r, r ∈ head_node :: ids (l1 ++ l2) → r ∈ head_node :: ids (l1 ++ b :: l2)) as Hsub.
  { intros r. rewrite !elem_of_cons, !ids_app, !elem_of_app. cbn. rewrite elem_of_cons. tauto. }
  assert (b_id b ∉ head_node :: ids (l1 ++ l2)) as Hbni.
  { revert Hnd. rewrite !ids_app. cbn [ids fmap list_fmap]. rewrite app_comm_cons.
    rewrite <- Permutation_middle. intros [Hni _]%NoDup_cons. done. }
  split; [|done|done|done| | | | | |apply Hr|].
  - intros m Hm. assert (is_Some (mm_nodes s !! m)) as Hms.
    { destruct (decide (m = q)) as [->|]; [by rewrite Hq|].
      destruct (decide (m = b_id b)) as [->|]; [done|]. by rewrite <- Hf. }
    split; apply Hdom; by apply (rep_alloc _ _ _ _ _ _ Hr m).
  - destruct (rep_head _ _ _ _ _ _ Hr) as (hdn & Hhn & Hhs).
    destruct (decide (head_node = q)) as [Heq|Hne].
    + rewrite <- Heq in Hq, Hq'. rewrite Hhn in Hq. simplify_eq. eauto.
    + exists hdn. rewrite Hf; [done|done|].
      intros Heq. apply Hbni. rewrite <- Heq. clear. set_solver.
  - eapply layout_remove; [done|done|done| |].
    + fold q. intros b' Heq (nd0 & Hnd0 & ?). rewrite Heq, Hq in Hnd0. simplify_eq.
      rewrite <- Heq in Hq'. eexists. split; [exact Hq'|]. done.
    + fold q. intros g [(nd0 & Hnd0 & ? & ?)|(nd0 & Hnd0 & ? & ?)]; rewrite Hq in Hnd0; simplify_eq;
        (eexists; split; [exact Hq'|]; done).
  - intros r. unfold holes_released.
    rewrite elem_of_cons, !elem_of_remove_elem, (rep_hs _ _ _ _ _ _ Hr r).
    destruct (decide (r = b_id b)) as [->|Hrb].
    { split; [intros [?|(_ & ? & _)]; congruence|]. intros (g1 & g2 & Hg & _). exfalso.
      by rewrite gap_of_none in Hg. }
    rewrite (gap_of_remove head_node lo l1 b l2 hi r Hnd Hrb). fold q.
    destruct (decide (r = q)) as [->|Hrq]; [|naive_solver].
    rewrite Hgq. cbn. split; [|by left]. intros _.
    exists gs, (next_start l2 hi). split; [done|]. unfold b_end in *. lia.
  - intros u Hu. destruct (rep_us _ _ _ _ _ _ Hr u Hu) as (Huni & nu & Hnu & ? & ?).
    split; [intros Hc; by apply Huni, Hsub|]. exists nu. rewrite Hf; [done| |].
    + intros ->. done.
    + intros ->. apply Huni. rewrite ids_app. cbn. clear. set_solver.
  - rewrite Hsc. apply Hr.
  - rewrite Hsc. apply Hr.
Qed.

(** The hole after a released block goes off the stack; the [BUG_ON]s agree with the flag. *)
Lemma drop_hole_run s ns hs us b nd ge :
  lists_rep (mm_lists s) ns hs us → is_Some (mm_lists s !! HoleLink (b_id b)) → b_end b <= ge → hole_follows nd = (b_end b <? ge) → (b_id b ∈ hs ↔ b_end b < ge) →
  ∃ s1, (if hole_follows nd then BUG_ON (b_end b =? ge);; on_lists (list_del (HoleLink (b_id b)))
     else BUG_ON (negb (b_end b =? ge))) s = Some (tt, s1) ∧
     lists_rep (mm_lists s1) ns (remove_elem (b_id b) hs) us ∧
     same_dom (mm_lists s) (mm_lists s1) ∧ same_scalars s s1 ∧ mm_nodes s1 = mm_nodes s.
Proof.
  intros Hl Hab Hbe Hnf Hbh. rewrite Hnf. destruct (Z.ltb_spec (b_end b) ge).
  - rewrite BUG_ON_bind by (apply Z.eqb_neq; lia).
    destruct (lists_del_hole _ _ _ _ (b_id b) Hl) as (l' & Hrun & Hl' & Hdom); [tauto|done|].
    rewrite (on_lists_run s _ l' Hrun). eexists. split; [done|]. split; [done|].
    split; [done|]. split; [by destruct s|done].
  - rewrite (proj2 (Z.eqb_eq _ _)) by lia. exists s. split; [done|].
    split; [|split; [by intros a|split; [by destruct s|done]]].
    assert (remove_elem (b_id b) hs = hs) as ->; [|done].
    apply filter_all, Forall_forall. intros x Hx ->. apply Hbh in Hx. lia.
Qed.

(** Releasing a block: no [BUG_ON] fires, and the gaps around it are merged. *)
Lemma remove_node_run s lo hi l1 b l2 hs us :
  let q := List.last (ids l1) head_node in
  mm_rep s lo hi (l1 ++ b :: l2) hs us →
  ∃ s', drm_mm_remove_node (b_id b) s = Some (tt, s') ∧
    mm_rep s' lo hi (l1 ++ l2) (holes_released q (b_id b) hs) us ∧
    free_node s' (l1 ++ l2) us (b_id b) ∧ same_scalars s s' ∧
    (∀ m, m ≠ b_id b → m ≠ q → mm_nodes s' !! m = mm_nodes s !! m).
Proof.
  intros q Hr. pose proof (rep_lists _ _ _ _ _ _ Hr) as (Hl & Hdis & Hnd).
  pose proof (rep_layout _ _ _ _ _ _ Hr) as Hlay.
  pose proof (gap_of_app _ lo _ _ _ hi Hnd) as Hgb.
  destruct (gap_of_last _ lo _ _ _ hi Hnd) as [gs Hgq]. fold q in Hgq.
  destruct (layout_node _ _ _ _ _ _ _ Hlay) as ((nd & Hn & Hst & Hsize & Hal & Hun) & Hsz & _).
  destruct (rep_gap _ _ _ _ _ _ _ _ _ Hr Hgb) as (_ & Hbe & _ & _ & Hgn & _).
  destruct (rep_gap _ _ _ _ _ _ _ _ _ Hr Hgq) as (_ & Hqs & _ & _ & Hgp & Hqin).
  pose proof Hgp as (pd & Hpd & _ & Hpf). pose proof Hgn as (nd0 & Hnd0 & _ & Hnf).
  simplify_eq.
  assert (q ≠ b_id b) as Hqb.
  { intros Heq. rewrite Heq, Hgb in Hgq. unfold b_end in *. simplify_eq. lia. }
  set (ge := next_start l2 hi) in *.
  assert (ids (l1 ++ b :: l2) = ids l1 ++ b_id b :: ids l2) as Hids by apply ids_app.
  pose proof Hl as (Hnl & _ & _). rewrite Hids in Hnl.
  destruct (prev_node_run _ _ _ _ Hnl) as [Hprev Hent]. fold q in Hprev, Hent.
  unfold drm_mm_remove_node. mrun (node_of_run s _ nd Hn).
  destruct Hun as (Hu1 & Hu2 & Hu3). rewrite BUG_ON_bind by (by rewrite Hu1, Hu2, Hu3).
  mrun Hprev. mrun Hent.
  mrun (gap_start_run s _ _ _ Hgn). mrun (hole_end_run s lo hi _ hs us _ _ ge Hr Hgb).
  assert (b_id b ∈ hs ↔ b_end b < ge) as Hbh.
  { rewrite (rep_hs _ _ _ _ _ _ Hr), Hgb. split; [intros (? & ? & ? & ?); by simplify_eq|eauto]. }
  assert (q ∈ hs ↔ gs < b_start b) as Hqh.
  { rewrite (rep_hs _ _ _ _ _ _ Hr), Hgq. split; [intros (? & ? & ? & ?); by simplify_eq|eauto]. }
  destruct (rep_alloc _ _ _ _ _ _ Hr (b_id b) (mk_is_Some _ _ Hn)) as [_ Hab].
  destruct (rep_alloc _ _ _ _ _ _ Hr q (mk_is_Some _ _ Hpd)) as [_ Haq].
  destruct (drop_hole_run s _ hs us b nd ge Hl ltac:(tauto) Hbe Hnf Hbh) as (s1 & Hrun1 & Hl1 & Hdom1 & Hsc1 & Hn1).
  mrun Hrun1. rewrite <- Hn1 in Hpd. mrun (node_of_run s1 q pd Hpd).
  destruct (raise_hole_run s1 _ _ us q pd Hl1 Hpd) as (s2 & Hrun2 & Hl2 & Hdom2 & Hsc2 & Hn2).
  { by apply Hdom1. }
  { rewrite Hpf, elem_of_remove_elem, Hqh, Z.ltb_lt. tauto. }
  mrun Hrun2. rewrite Hids in Hl2. rewrite Hids in Hdis.
  destruct (lists_del_node _ _ _ _ _ _ Hl2 Hdis) as (l3 & Hrun3 & Hl3 & Hdom3).
  mrun (on_lists_run s2 _ l3 Hrun3).
  assert (mm_nodes (set_lists l3 s2) !! b_id b = Some nd) as Hb3.
  { cbn. rewrite Hn2, Hn1. by rewrite lookup_insert_ne. }
  rewrite (upd_node_run _ _ nd (set_allocated false) Hb3). cbn [mm_nodes set_lists].
  eexists. split; [done|]. rewrite <- ids_app in Hl3.
  assert (∀ m, m ≠ b_id b → m ≠ q →
    (<[b_id b := set_allocated false nd]> (mm_nodes s2)) !! m = mm_nodes s !! m) as Hother.
  { intros m Hm Hmq. rewrite lookup_insert_ne, Hn2, lookup_insert_ne, Hn1 by done. done. }
  assert (same_scalars s (set_nodes (<[b_id b := set_allocated false nd]> (mm_nodes s2))
    (set_lists l3 s2))) as Hsc.
  { apply same_scalars_set, (same_scalars_trans _ s1 _); done. }
  split; [|split; [|split; [done|done]]].
  - eapply (mm_rep_remove s _ lo hi l1 b l2 hs us pd); [done|done| |done| |by rewrite <- Hn1| | |done].
    + intros a. cbn. by rewrite (Hdom3 a), (Hdom2 a), (Hdom1 a).
    + intros m Hmq Hm. by apply Hother.
    + cbn. rewrite lookup_insert_ne, Hn2 by done. apply lookup_insert_eq.
    + apply lookup_insert_eq.
  - split; [|split].
    + revert Hnd. rewrite Hids, ids_app. rewrite app_comm_cons, <- Permutation_middle.
      by intros [? _]%NoDup_cons.
    + intros Hu. apply (Hdis _ Hu). clear. set_solver.
    + eexists. split; [apply lookup_insert_eq|]. done.
Qed.

End Release.

(** ** Initialisation and reachable states *)

Section Init.
Context `{CA : ColorAdjust}.
Implicit Types (s : drm_mm) (n q : node_id) (bl : list block).

(** Memory [drm_mm_init] can be called on: the manager and the nodes have list heads. *)
Record mm_ready s : Prop := {
  ready_alloc n : is_Some (mm_nodes s !! n) →
    is_Some (mm_lists s !! NodeList n) ∧ is_Some (mm_lists s !! HoleLink n);
  ready_head : is_Some (mm_nodes s !! head_node);
  ready_holes : is_Some (mm_lists s !! HoleStack);
  ready_unused : is_Some (mm_lists s !! UnusedNodes);
}.

Lemma init_list_run (l : lh_heap) p : is_Some (l !! p) →
  ∃ l', INIT_LIST_HEAD p l = Some l' ∧ represents l' lh_obj p None [] ∧
        frame l l' [p] ∧ same_dom l l'.
Proof.
  intros Hp. destruct (INIT_LIST_HEAD_run p l Hp) as (l' & Hrun & Hu). exists l'.
  split; [done|]. split; [|split; [|intros a; apply (upd_dom _ _ _ _ _ Hu)]].
  - split; [split; [apply NoDup_singleton|]|split; [constructor|]].
    + cbn. rewrite linked_iff, (upd_nxt _ _ _ _ _ Hu), (upd_prv _ _ _ _ _ Hu).
      by rewrite !decide_True.
    + rewrite (upd_con _ _ _ _ _ Hu). by rewrite decide_True.
  - intros a Ha. eapply heap_upd_frame; [done|..]; cbn beta; rewrite decide_False by set_solver; done.
Qed.

Lemma set_contain_run (l : lh_heap) p c : represents l lh_obj p None [] → is_Some (l !! p) →
  ∃ l', wr_contain_ptr (Some p) (Some c) l = Some l' ∧ represents l' lh_obj p (Some c) [] ∧
        frame l l' [p] ∧ same_dom l l'.
Proof.
  intros ((Hnd & Hs) & _ & Hc) Hp. rewrite wr_contain_alter by done.
  eexists. split; [done|]. split; [|split].
  - split; [split; [done|]|split; [constructor|]].
    + revert Hs. cbn. rewrite !linked_iff, nxt_set_contain, prv_set_contain. done.
    + rewrite con_set_contain by done. by rewrite decide_True.
  - intros a Ha. rewrite lookup_alter_ne; [done|set_solver].
  - intros a. by rewrite lookup_alter_is_Some.
Qed.

Lemma init_run s start size :
  mm_ready s → 0 <= start → 0 < size → start + size <= 2 ^ 62 →
  ∃ s', drm_mm_init start size s = Some (tt, s') ∧
    mm_rep s' start (start + size) [] [head_node] [] ∧ has_color_adjust s' = false ∧
    (∀ m, m ≠ head_node → mm_nodes s' !! m = mm_nodes s !! m).
Proof.
  intros [Hal [hd Hhd] Hhs Hus] Hst Hsz Hmax. unfold drm_mm_init.
  destruct (Hal head_node (mk_is_Some _ _ Hhd)) as [Hnl Hhl].
  destruct (init_list_run (mm_lists s) HoleStack Hhs) as (l1 & Hrun1 & Hr1 & Hf1 & Hd1).
  destruct (init_list_run l1 UnusedNodes) as (l2 & Hrun2 & Hr2 & Hf2 & Hd2); [by apply Hd1|].
  destruct (init_list_run l2 (NodeList head_node)) as (l3 & Hrun3 & Hr3 & Hf3 & Hd3);
    [by apply Hd2, Hd1|].
  destruct (init_list_run l3 (HoleLink head_node)) as (l4 & Hrun4 & Hr4 & Hf4 & Hd4);
    [by apply Hd3, Hd2, Hd1|].
  destruct (set_contain_run l4 (NodeList head_node) head_node) as (l5 & Hrun5 & Hr5 & Hf5 & Hd5);
    [eapply represents_frame; [|exact Hr3]; intros; apply Hf4; set_solver
    |by apply Hd4, Hd3, Hd2, Hd1|].
  destruct (run_op_refines l5 lh_obj HoleStack None (OpAddTail (HoleLink head_node)) []
    [HoleLink head_node]) as (l6 & Hrun6 & Hr6 & Hf6 & Hd6);
    [eapply represents_frame; [|exact Hr1]; intros a Ha;
     rewrite Hf5, Hf4, Hf3, Hf2 by set_solver; done
    |done|by apply Hd5, Hd4, Hd3, Hd2, Hd1
    |cbn; by rewrite bool_decide_false by (apply not_elem_of_nil)|].
  cbn [run_op op_addr] in Hrun6, Hf6.
  mrun (on_lists_run s _ l1 Hrun1).
  mrun (on_lists_run (set_lists l1 s) _ l2 Hrun2). rewrite !modify_bind.
  match goal with |- context [(on_lists (INIT_LIST_HEAD (NodeList head_node)) ≫= _) ?x] =>
    mrun (on_lists_run x _ l3 Hrun3); mrun (on_lists_run (set_lists l3 x) _ l4 Hrun4);
    set (s4 := set_lists l4 (set_lists l3 x)) end.
  match goal with |- context [(upd_node head_node ?f ≫= _) _] =>
    mrun (upd_node_run s4 head_node hd f Hhd); set (nodes := <[head_node := f hd]> (mm_nodes s4))
  end.
  mrun (on_lists_run (set_nodes nodes s4) _ l5 Hrun5).
  mrun (on_lists_run (set_lists l5 (set_nodes nodes s4)) _ l6 Hrun6).
  eexists. split; [done|]. split; [|split; [done|]].
  2:{ intros m Hm. cbn. unfold nodes. by rewrite lookup_insert_ne. }
  assert (same_dom (mm_lists s) l6) as Hdom.
  { intros a. by rewrite (Hd6 a), (Hd5 a), (Hd4 a), (Hd3 a), (Hd2 a), (Hd1 a). }
  split; cbn; try done.
  - intros n Hn. assert (is_Some (mm_nodes s !! n)) as Hms.
    { unfold nodes in Hn. destruct (decide (n = head_node)) as [->|]; [by rewrite Hhd|].
      by rewrite lookup_insert_ne in Hn. }
    split; apply Hdom; by apply Hal.
  - eapply represents_frame; [|exact Hr5]. intros a Ha. apply Hf6. set_solver.
  - eapply represents_frame; [|exact Hr2]. intros a Ha.
    rewrite Hf6, Hf5, Hf4, Hf3 by set_solver. done.
  - eexists. split; [apply lookup_insert_eq|]. apply u64_id. lia.
  - split; [lia|]. split; [|done]. eexists. split; [apply lookup_insert_eq|]. cbn. split.
    + rewrite (u64_id (start + size)) by lia. unfold wrap. rewrite Zplus_mod_idemp_r. rewrite Z.mod_small; lia.
    + symmetry. apply Z.ltb_lt. lia.
  - intros q. rewrite list_elem_of_singleton. case_decide as Hq.
    + split; [|done]. intros _. eexists _, _. split; [done|lia].
    + split; [congruence|]. by intros (? & ? & ? & ?).
  - intros u Hu. by apply not_elem_of_nil in Hu.
  - lia.
Qed.

(** ** Reachable states *)

(** Allocation and release of nodes the driver owns; the node passed to an
    insertion is not allocated, the one passed to a removal is. *)
Inductive mm_request :=
  | Insert (n : node_id) (size al color start end_ : Z)
  | Remove (n : node_id).

Definition exec_request (r : mm_request) : M drm_mm Z :=
  match r with
  | Insert n size al color start end_ =>
      drm_mm_insert_node_in_range_generic n size al color start end_
  | Remove n => drm_mm_remove_node n;; mret 0
  end.

Definition allowed s (r : mm_request) : Prop :=
  match r with
  | Insert n size al _ start end_ => n ≠ head_node ∧ request_ok size al start end_ ∧
      ∃ nd, mm_nodes s !! n = Some nd ∧ allocated nd = false
  | Remove n => n ≠ head_node ∧ ∃ nd, mm_nodes s !! n = Some nd ∧ allocated nd = true
  end.

Inductive mm_step : drm_mm → drm_mm → Prop :=
  | mm_step_intro s r z s' : allowed s r → exec_request r s = Some (z, s') → mm_step s s'.

(** The blocks are exactly the allocated nodes. *)
Record mm_inv (lo hi : Z) s : Prop := {
  inv_rep : ∃ bl hs, mm_rep s lo hi bl hs [] ∧
    ∀ n nd, n ≠ head_node → mm_nodes s !! n = Some nd → unscanned nd ∧
      (allocated nd = true → n ∈ ids bl);
  inv_color : has_color_adjust s = false;
}.

Lemma ca_ready_none s lo bl hi color start end_ :
  has_color_adjust s = false → ca_ready s lo bl hi color start end_.
Proof. intros Hn q gs ge _ _. unfold adjusted. rewrite Hn. split; [eauto|done]. Qed.

Lemma ids_elem n bl : n ∈ ids bl → ∃ l1 b l2, bl = l1 ++ b :: l2 ∧ b_id b = n.
Proof.
  intros (b & -> & (l1 & l2 & ->)%list_elem_of_split)%list_elem_of_fmap. eauto.
Qed.

Lemma same_scalars_color s s' : same_scalars s s' → has_color_adjust s' = has_color_adjust s.
Proof. by intros ->. Qed.

Lemma inv_allocated lo hi s bl hs n nd : mm_rep s lo hi bl hs [] → n ≠ head_node →
  mm_nodes s !! n = Some nd → n ∈ ids bl → allocated nd = true.
Proof.
  intros Hr Hn Hnd (l1 & b & l2 & -> & <-)%ids_elem.
  destruct (layout_node _ _ _ _ _ _ _ (rep_layout _ _ _ _ _ _ Hr)) as ((nd' & Hnd' & ? & ? & ? & _) & _).
  by simplify_eq.
Qed.

(** An allowed request never faults, and keeps the invariant. *)
Lemma exec_request_inv lo hi s r : mm_inv lo hi s → allowed s r →
  ∃ z s', exec_request r s = Some (z, s') ∧ mm_inv lo hi s'.
Proof.
  intros [(bl & hs & Hr & Hal) Hcol] Hok. destruct r as [n size al color st en|n]; cbn in Hok.
  - destruct Hok as (Hn & Hrq & nd & Hnd & Hna). destruct (Hal n nd Hn Hnd) as [Hun _].
    assert (n ∉ ids bl) as Hni.
    { intros Hin. by rewrite (inv_allocated lo hi s bl hs n nd) in Hna. }
    assert (free_node s bl [] n) as Hfree.
    { split; [by apply not_elem_of_cons|]. split; [apply not_elem_of_nil|]. eauto. }
    destruct (insert_in_range_run s lo hi bl hs [] n size al color st en)
      as [(s' & q & b & hs' & Hrun & (gs & ge & Hgap & Hbi & Hbs & ?) & Hr' & Hsc & Ho)|[Hrun _]];
      [done..|by apply ca_ready_none| |].
    + exists 0, s'. split; [done|]. split; [|by rewrite (same_scalars_color _ _ Hsc)].
      exists (insert_after head_node q b bl), hs'. split; [done|].
      destruct (rep_gap _ _ _ _ _ _ _ _ _ Hr Hgap) as (_ & _ & _ & _ & _ & Hq).
      intros m nm Hm Hnm.
      assert (m ∈ b_id b :: ids bl ↔ m ∈ ids (insert_after head_node q b bl)) as <-
        by (by rewrite ids_insert_after).
      destruct (decide (m ∈ b_id b :: ids bl)) as [Hin|Hnin].
      * split; [|done]. rewrite <- (ids_insert_after head_node q b bl Hq) in Hin.
        apply ids_elem in Hin as (l1 & b' & l2 & Heq & <-). apply rep_layout in Hr'.
        rewrite Heq in Hr'.
        destruct (layout_node _ _ _ _ _ _ _ Hr') as ((nd' & Hnd' & _ & _ & _ & ?) & _).
        by simplify_eq.
      * apply not_elem_of_cons in Hnin as [Hmb Hnin]. rewrite Ho in Hnm; [|congruence|].
        { destruct (Hal m nm Hm Hnm) as [? Ha]. split; [done|]. intros ?%Ha. set_solver. }
        intros ->. apply Hnin. apply elem_of_cons in Hq as [?|?]; done.
    + exists (- ENOSPC), s. split; [done|]. split; [eauto|done].
  - destruct Hok as (Hn & nd & Hnd & Ha). destruct (Hal n nd Hn Hnd) as [_ Hin].
    destruct (ids_elem n bl (Hin Ha)) as (l1 & b & l2 & -> & <-).
    destruct (remove_node_run _ _ _ _ _ _ _ _ Hr) as (s' & Hrun & Hr' & Hfree & Hsc & Ho).
    exists 0, s'. split; [cbn; by mrun Hrun|]. split; [|by rewrite (same_scalars_color _ _ Hsc)].
    eexists _, _. split; [exact Hr'|]. intros m nm Hm Hnm.
    destruct (decide (m = b_id b)) as [->|Hmb].
    + destruct Hfree as (_ & _ & nd' & Hnd' & ? & ?). simplify_eq. split; [done|congruence].
    + destruct (decide (m = List.last (ids l1) head_node)) as [Heq|Hmq].
      * assert (m ∈ ids (l1 ++ l2)) as Hml.
        { rewrite ids_app, elem_of_app. left. pose proof (last_elem_of (ids l1) head_node) as Hq.
          rewrite <- Heq in Hq. by apply elem_of_cons in Hq as [?|?]. }
        split; [|done]. apply ids_elem in Hml as (k1 & b' & k2 & Hk & <-).
        apply rep_layout in Hr'. rewrite Hk in Hr'.
        destruct (layout_node _ _ _ _ _ _ _ Hr') as ((nd' & Hnd' & _ & _ & _ & ?) & _).
        by simplify_eq.
      * rewrite Ho in Hnm by done. destruct (Hal m nm Hm Hnm) as [? Hx]. split; [done|].
        intros Hxx%Hx. revert Hxx. rewrite !ids_app, !elem_of_app. cbn.
        rewrite elem_of_cons. naive_solver.
Qed.

Lemma layout_ge nodes p e bl hi b : layout nodes p e bl hi → b ∈ bl → e <= b_start b ∧ b_end b <= hi.
Proof.
  revert p e. induction bl as [|x bl IH]; intros p e Hl Hb; [by apply not_elem_of_nil in Hb|].
  rewrite layout_unfold in Hl. destruct Hl as (He & _ & _ & Hs & Hl). cbn in He.
  pose proof (layout_le _ _ _ _ _ Hl). apply elem_of_cons in Hb as [->|Hb]; [lia|].
  apply (IH _ _ Hl) in Hb. unfold b_end in *. lia.
Qed.

(** Two blocks of a layout do not overlap. *)
Lemma layout_disjoint nodes p e bl hi b b' : layout nodes p e bl hi → b ∈ bl → b' ∈ bl →
  b_id b ≠ b_id b' → b_end b <= b_start b' ∨ b_end b' <= b_start b.
Proof.
  revert p e. induction bl as [|x bl IH]; intros p e Hl Hb Hb' Hne; [by apply not_elem_of_nil in Hb|].
  rewrite layout_unfold in Hl. destruct Hl as (_ & _ & _ & _ & Hl).
  apply elem_of_cons in Hb as [->|Hb]; apply elem_of_cons in Hb' as [->|Hb']; [done|..].
  - left. by apply (layout_ge _ _ _ _ _ _ Hl).
  - right. by apply (layout_ge _ _ _ _ _ _ Hl).
  - by eapply IH.
Qed.

End Init.

(** ** Eviction scans *)

Section Scan.
Context `{CA : ColorAdjust}.
Implicit Types (s : drm_mm) (n q : node_id) (bl : list block) (ns vs : list node_id).

(** The part of the state the scan works on: the node list is [ns]. *)
Definition scan_rep s ns : Prop :=
  represents (mm_lists s) lh_obj (NodeList head_node) (Some head_node) (NodeList <$> ns) ∧
  ∀ n, n ∈ head_node :: ns → is_Some (mm_nodes s !! n).

Definition ca_total s : Prop :=
  has_color_adjust s = true → ∀ n c r st, is_Some (color_adjust n c r st).

Lemma heap_ext (l l' : lh_heap) : heap_upd l l' (nxt l) (prv l) (con l) → l' = l.
Proof. intros Hu. apply map_eq. intros a. by eapply heap_upd_frame. Qed.

(** A circle through [p] and [n] in the node list. *)
Lemma node_circle s l1 n l2 : scan_rep s (l1 ++ n :: l2) →
  let p := List.last l1 head_node in
  ∃ ys, dll (mm_lists s) (NodeList p) (NodeList n :: ys) ∧
        (∀ a, a ∈ NodeList p :: ys → ∃ m, a = NodeList m ∧ m ∈ head_node :: l1 ++ l2).
Proof.
  intros [(Hd & _) _] p. rewrite fmap_app, fmap_cons in Hd.
  destruct l1 as [|x l1 _] using rev_ind.
  - exists (NodeList <$> l2). split; [done|]. intros a Ha.
    apply elem_of_cons in Ha as [->|(m & -> & ?)%list_elem_of_fmap]; eexists; (split; [done|]);
      apply elem_of_cons; [by left|by right].
  - subst p. rewrite List.last_last. rewrite fmap_app, <- app_assoc in Hd. cbn in Hd.
    apply dll_rotate in Hd. eexists. split; [exact Hd|]. intros a Ha.
    assert (a ∈ NodeList <$> x :: l2 ++ head_node :: l1) as (m & -> & Hm)%list_elem_of_fmap.
    { rewrite fmap_cons, fmap_app, fmap_cons. set_solver. }
    exists m. split; [done|]. set_solver.
Qed.

(** The node after the last one of [l1] is the first of [l2], or the head. *)
Lemma scan_rep_next s (l1 l2 : list node_id) : scan_rep s (l1 ++ l2) →
  nxt (mm_lists s) (NodeList (List.last l1 head_node)) = Some (NodeList (List.hd head_node l2)).
Proof.
  intros [(Hd & _) _]. rewrite fmap_app in Hd. destruct l1 as [|x l1 _] using rev_ind.
  - cbn [List.last]. rewrite (dll_next _ _ _ Hd). by destruct l2.
  - rewrite List.last_last. rewrite fmap_app, <- app_assoc in Hd. cbn in Hd. apply dll_rotate, dll_next in Hd.
    rewrite Hd. by destruct l2.
Qed.

Lemma scan_rep_end_run s (l1 l2 : list node_id) : scan_rep s (l1 ++ l2) →
  ∃ nm, mm_nodes s !! List.hd head_node l2 = Some nm ∧
    drm_mm_hole_node_end (List.last l1 head_node) s = Some (node_start nm, s).
Proof.
  intros Hs. pose proof (scan_rep_next s l1 l2 Hs) as Hm. destruct Hs as [(Hd & Hc & Hh) Hn].
  set (m := List.hd head_node l2) in *. assert (m ∈ head_node :: l1 ++ l2) as Hin.
  { unfold m. destruct l2; cbn; set_solver. }
  destruct (Hn m Hin) as [nm Hnm]. exists nm. split; [done|]. unfold drm_mm_hole_node_end, __drm_mm_hole_node_end.
  rewrite (M_bind_Some _ _ _ (Some (NodeList m)) s).
  2:{ apply of_lists_run. rewrite rd_next_nxt by (by eapply nxt_Some). by rewrite Hm. }
  assert (entry_of (Some (NodeList m)) s = Some (m, s)) as He.
  { apply entry_of_run; [eapply dll_alloc; [exact Hd|]|].
    - apply elem_of_cons in Hin as [->|?]; set_solver.
    - apply elem_of_cons in Hin as [->|Hin]; [done|]. unfold contains in Hc.
      rewrite Forall_forall in Hc. apply (Hc (NodeList m)). set_solver. }
  mrun He. by mrun (node_of_run s m nm Hnm).
Qed.

(** The heap after node [n], between [p] and [sc], is unlinked by a scan. *)
Definition scanned_lists (l l' : lh_heap) (n p : node_id) (sc : lh_addr) (v : option lh_addr) : Prop :=
  heap_upd l l'
    (λ a, if decide (a = NodeList n) then v else if decide (a = NodeList p) then Some sc else nxt l a)
    (λ a, if decide (a = NodeList n) then Some (NodeList p)
          else if decide (a = sc) then Some (NodeList p) else prv l a)
    (con l).

Lemma scan_unlink_run s l1 n l2 v : scan_rep s (l1 ++ n :: l2) →
  let p := List.last l1 head_node in
  ∃ sc l' l'', list_del (NodeList n) (mm_lists s) = Some l' ∧
    wr_prev (Some (NodeList n)) (Some (NodeList p)) l' = Some l'' ∧
    ∃ l3, wr_next (Some (NodeList n)) v l'' = Some l3 ∧
    scanned_lists (mm_lists s) l3 n p sc v ∧
    nxt (mm_lists s) (NodeList p) = Some (NodeList n) ∧ nxt (mm_lists s) (NodeList n) = Some sc ∧
    prv (mm_lists s) (NodeList n) = Some (NodeList p) ∧ prv (mm_lists s) sc = Some (NodeList n) ∧
    p ≠ n ∧ sc ≠ NodeList n ∧
    represents l3 lh_obj (NodeList head_node) (Some head_node) (NodeList <$> l1 ++ l2).
Proof.
  intros Hs p. destruct (node_circle s l1 n l2 Hs) as (ys & Hd & Hys). fold p in Hd, Hys.
  destruct Hs as [Hr _]. rewrite fmap_app, fmap_cons in Hr.
  pose proof (dll_next _ _ _ Hd) as Hpn. cbn in Hpn.
  pose proof (dll_prev_of_next _ _ _ Hd) as Hnp. cbn in Hnp.
  pose proof Hd as [Hnd _]. apply (dll_rotate _ (NodeList p) []) in Hd as Hd'.
  pose proof (dll_next _ _ _ Hd') as Hns. pose proof (dll_prev_of_next _ _ _ Hd') as Hsn.
  set (sc := succ_of (NodeList n) (ys ++ [NodeList p])) in *.
  assert (sc ∈ NodeList p :: ys) as Hsc.
  { unfold sc. destruct ys; cbn; set_solver. }
  apply NoDup_cons in Hnd as [Hp [Hny _]%NoDup_cons].
  assert (NodeList n ∉ NodeList p :: ys) as Hnn by set_solver.
  destruct (represents_del _ _ _ _ _ _ _ Hr) as (l' & Hrun & Hr' & _ & Hdom).
  destruct (list_del_relink_run (NodeList n) sc (NodeList p) v (mm_lists s))
    as (l0 & l'' & l3 & Hrun0 & Hrun1 & Hrun2 & Hf & Hu);
    [by intros Heq; rewrite Heq in Hnn|intros Heq; apply Hnn; rewrite Heq; apply elem_of_cons; by left
    |by eapply prv_Some|by eapply nxt_Some|done|done|].
  assert (l0 = l') as -> by congruence.
  exists sc, l', l''. do 2 (split; [done|]). exists l3.
  split; [done|]. split; [exact Hu|]. split_and!; try done.
  - intros ->. apply Hnn. apply elem_of_cons. by left.
  - intros Heq. by rewrite Heq in Hsc.
  - rewrite <- fmap_app in Hr'. eapply represents_frame; [|exact Hr'].
    assert (NodeList n ∉ NodeList head_node :: (NodeList <$> l1 ++ l2)) as Hni.
    { destruct Hr as ((Hnd & _) & _). rewrite app_comm_cons, <- Permutation_middle in Hnd.
      rewrite fmap_app, app_comm_cons. by apply NoDup_cons in Hnd as [? _]. }
    intros a Ha. apply Hf. by intros ->.
Qed.

(** What a scan does not change in the manager: the request it was started for, too. *)
Definition scan_request s : bool * Z * Z * Z * Z * Z :=
  (scan_check_range s, scan_size s, scan_alignment s, scan_color s, scan_start s, scan_end s).
Definition scan_same s s' : Prop :=
  num_unused s' = num_unused s ∧ has_color_adjust s' = has_color_adjust s ∧ scan_request s' = scan_request s.

(** The hole that the scan has hit, and its test of a hole without a callback. *)
Definition scan_hit s : Z * Z := (scan_hit_start s, scan_hit_end s).
Definition scan_test s (gs ge : Z) : bool :=
  check_free_hole (if scan_check_range s && (gs <? scan_start s) then scan_start s else gs)
    (if scan_check_range s && (scan_end s <? ge) then scan_end s else ge) (scan_size s) (scan_alignment s).

Lemma call_total_run s q c r : ca_total s → ∃ ab, call_color_adjust q c r s = Some (ab, s).
Proof.
  intros Ht. unfold call_color_adjust. rewrite get_bind.
  destruct (has_color_adjust s) eqn:Hc; [|by eexists].
  destruct (Ht Hc q c r s) as [ab Hab]. exists ab. unfold reads. by rewrite Hab.
Qed.

Lemma scan_add_run s l1 n l2 nd : scan_rep s (l1 ++ n :: l2) →
  mm_nodes s !! n = Some nd → scanned_block nd = false → ca_total s →
  let p := List.last l1 head_node in
  ∃ pd z s' sc, mm_nodes s !! p = Some pd ∧ p ≠ n ∧
    drm_mm_scan_add_block n s = Some (z, s') ∧ scan_rep s' (l1 ++ l2) ∧
    mm_nodes s' = <[p := set_hole_follows true pd]>
      (<[n := set_scanned_preceeds_hole (hole_follows pd) (set_scanned_block true nd)]> (mm_nodes s)) ∧
    scanned_lists (mm_lists s) (mm_lists s') n p sc (NodeList <$> prev_scanned_node s) ∧
    nxt (mm_lists s) (NodeList p) = Some (NodeList n) ∧ nxt (mm_lists s) (NodeList n) = Some sc ∧
    prv (mm_lists s) (NodeList n) = Some (NodeList p) ∧ prv (mm_lists s) sc = Some (NodeList n) ∧
    sc ≠ NodeList n ∧
    scanned_blocks s' = u32 (scanned_blocks s + 1) ∧ scan_same s s' ∧
    ∃ nm, mm_nodes s' !! List.hd head_node l2 = Some nm ∧
      (has_color_adjust s = false → let t := scan_test s (u64 (node_start pd + node_size pd)) (node_start nm) in
        z = b2z t ∧ scan_hit s' = if t then (u64 (node_start pd + node_size pd), node_start nm) else scan_hit s).
Proof.
  intros Hs Hn Hsb Ht p.
  destruct (scan_unlink_run s l1 n l2 (NodeList <$> prev_scanned_node s) Hs)
    as (sc & h1 & h2 & Hrun1 & Hrun2 & h3 & Hrun3 & Hsl & Hpn & Hns & Hnp & Hsn & Hpne & Hscn & Hr3).
  fold p in Hrun2, Hsl, Hpn, Hnp, Hpne. pose proof Hs as [Hr Hnodes].
  destruct (prev_node_run _ _ _ _ Hr) as [Hprev Hent]. fold p in Hprev, Hent.
  assert (p ∈ head_node :: l1 ++ l2) as Hp.
  { pose proof (last_elem_of l1 head_node) as Hl. fold p in Hl. set_solver. }
  destruct (Hnodes p) as [pd Hpd]; [set_solver|].
  unfold drm_mm_scan_add_block. rewrite modify_bind. set (s0 := set_scanned_blocks _ s).
  mrun (node_of_run s0 n nd Hn). rewrite BUG_ON_bind by done.
  mrun (upd_node_run s0 n nd (set_scanned_block true) Hn).
  set (s1 := set_nodes _ s0).
  assert (of_lists (rd_prev (Some (NodeList n))) s1 = Some (Some (NodeList p), s1)) as Hprev1.
  { apply of_lists_run. change (mm_lists s1) with (mm_lists s).
    rewrite rd_prev_prv by (by eapply prv_Some). by rewrite Hnp. }
  mrun Hprev1.
  assert (entry_of (Some (NodeList p)) s1 = Some (p, s1)) as Hent1.
  { revert Hent. unfold entry_of, of_lists, reads, mbind, M_bind, mret, M_ret, fault.
    change (mm_lists s1) with (mm_lists s).
    destruct (list_entry _ _) as [[]|]; intros; by simplify_eq. }
  mrun Hent1.
  assert (mm_nodes s1 !! p = Some pd) as Hpd1 by (cbn; rewrite lookup_insert_ne by congruence; done).
  mrun (node_of_run s1 p pd Hpd1).
  assert (mm_nodes s1 !! n = Some (set_scanned_block true nd)) as Hn1 by apply lookup_insert_eq.
  mrun (upd_node_run s1 n _ (set_scanned_preceeds_hole (hole_follows pd)) Hn1).
  set (s2 := set_nodes _ s1).
  assert (mm_nodes s2 !! p = Some pd) as Hpd2 by (cbn; rewrite !lookup_insert_ne by congruence; done).
  mrun (upd_node_run s2 p pd (set_hole_follows true) Hpd2).
  set (s3 := set_nodes _ s2).
  mrun (on_lists_run s3 _ h1 Hrun1). mrun (on_lists_run (set_lists h1 s3) _ h2 Hrun2).
  rewrite get_bind. mrun (on_lists_run (set_lists h2 (set_lists h1 s3)) _ h3 Hrun3).
  rewrite modify_bind. set (s4 := set_prev_scanned _ _).
  assert (mm_nodes s4 = <[p := set_hole_follows true pd]>
      (<[n := set_scanned_preceeds_hole (hole_follows pd) (set_scanned_block true nd)]> (mm_nodes s)))
    as Hn4 by (cbn; by rewrite insert_insert_eq).
  assert (scan_rep s4 (l1 ++ l2)) as Hs4.
  { split; [done|]. intros m Hm. rewrite Hn4. rewrite !lookup_insert_is_Some'.
    destruct (Hnodes m); [set_solver|]. eauto. }
  assert (drm_mm_hole_node_start p s4 =
    Some (u64 (node_start pd + node_size pd), s4)) as Hst.
  { apply hole_start_run. eexists. split; [rewrite Hn4; apply lookup_insert_eq|]. done. }
  mrun Hst. destruct (scan_rep_end_run s4 l1 l2 Hs4) as (nm & Hnm & He). fold p in He. mrun He.
  match goal with |- context [call_color_adjust p ?c ?r] =>
    destruct (call_total_run s4 p c r Ht) as [ab Hab]; mrun Hab; set (adj := r) in Hab end.
  assert (has_color_adjust s = false → ab = adj) as Hca.
  { intros Hf. revert Hab. unfold call_color_adjust. rewrite get_bind. change (has_color_adjust s4) with (has_color_adjust s).
    rewrite Hf. unfold mret, M_ret. by intros [= <-]. }
  set (b := check_free_hole ab.1 ab.2 _ _). set (s' := if b then set_scan_hit (u64 (node_start pd + node_size pd)) (node_start nm) s4 else s4).
  exists pd, (b2z b), s', sc. do 2 (split; [done|]). split; [by unfold s'; destruct b; rewrite ?modify_bind|].
  split_and!; try by (unfold s'; destruct b; split_and?; try done; apply Hs4).
  exists nm. split; [by unfold s'; destruct b|]. intros Hf.
  assert (b = scan_test s (u64 (node_start pd + node_size pd)) (node_start nm)) as Hb by (unfold b; by rewrite (Hca Hf)).
  cbv zeta. unfold s'. rewrite Hb. split; [done|]. by destruct (scan_test _ _ _).
Qed.

(** Linking a scanned node back restores the list heads as they were. *)
Lemma scan_relink (l l' : lh_heap) n p sc v :
  scanned_lists l l' n p sc v → p ≠ n → sc ≠ NodeList n →
  nxt l (NodeList p) = Some (NodeList n) → nxt l (NodeList n) = Some sc →
  prv l (NodeList n) = Some (NodeList p) → prv l sc = Some (NodeList n) →
  con l (NodeList n) = Some n →
  list_add (NodeList n) (NodeList p) n l' = Some l.
Proof.
  intros Hu Hpn Hsc Hnp Hnn Hpp Hps Hc.
  destruct (list_add_run (NodeList n) (NodeList p) sc n l') as (l'' & Hrun & Hu'').
  { congruence. } { done. }
  { apply (upd_dom _ _ _ _ _ Hu). by eapply nxt_Some. }
  { apply (upd_dom _ _ _ _ _ Hu). by eapply prv_Some. }
  { rewrite (upd_nxt _ _ _ _ _ Hu). rewrite decide_False, decide_True by congruence. done. }
  rewrite Hrun. f_equal. apply heap_ext. split; intros a.
  - rewrite (upd_nxt _ _ _ _ _ Hu''), (upd_nxt _ _ _ _ _ Hu). repeat case_decide; congruence.
  - rewrite (upd_prv _ _ _ _ _ Hu''), (upd_prv _ _ _ _ _ Hu). repeat case_decide; congruence.
  - rewrite (upd_con _ _ _ _ _ Hu''), (upd_con _ _ _ _ _ Hu). repeat case_decide; congruence.
  - rewrite (upd_dom _ _ _ _ _ Hu''). apply (upd_dom _ _ _ _ _ Hu).
Qed.

Lemma scan_remove_run s (l : lh_heap) l1 n l2 nd pd sc v :
  let p := List.last l1 head_node in
  represents l lh_obj (NodeList head_node) (Some head_node) (NodeList <$> l1 ++ n :: l2) →
  (∀ m, m ∈ head_node :: l1 ++ n :: l2 → is_Some (mm_nodes s !! m)) →
  scanned_lists l (mm_lists s) n p sc v → p ≠ n → sc ≠ NodeList n →
  nxt l (NodeList p) = Some (NodeList n) → nxt l (NodeList n) = Some sc →
  prv l (NodeList n) = Some (NodeList p) → prv l sc = Some (NodeList n) →
  mm_nodes s !! n = Some nd → scanned_block nd = true → mm_nodes s !! p = Some pd →
  ∃ z s', drm_mm_scan_remove_block n s = Some (z, s') ∧ mm_lists s' = l ∧
    mm_nodes s' = <[p := set_hole_follows (scanned_preceeds_hole nd) pd]>
                    (<[n := set_scanned_block false nd]> (mm_nodes s)) ∧
    scanned_blocks s' = u32 (scanned_blocks s - 1) ∧ scan_same s s' ∧ scan_hit s' = scan_hit s ∧
    ∃ nm, mm_nodes s' !! List.hd head_node l2 = Some nm ∧
      z = b2z ((scan_hit_start s <? node_start nm) && (node_start nd <? scan_hit_end s)).
Proof.
  intros p Hr Hnodes Hsl Hpn Hsc Hnp Hnn Hpp Hps Hn Hsb Hpd.
  pose proof Hr as (Hd & Hc & Hh).
  assert (con l (NodeList n) = Some n) as Hcn.
  { unfold contains in Hc. rewrite Forall_forall in Hc. apply (Hc (NodeList n)). set_solver. }
  pose proof (scan_relink _ _ _ _ _ _ Hsl Hpn Hsc Hnp Hnn Hpp Hps Hcn) as Hadd.
  assert (p ∈ head_node :: l1) as Hp by apply last_elem_of.
  unfold drm_mm_scan_remove_block. rewrite modify_bind. set (s0 := set_scanned_blocks _ s).
  mrun (node_of_run s0 n nd Hn). rewrite BUG_ON_bind by (by rewrite Hsb).
  mrun (upd_node_run s0 n nd (set_scanned_block false) Hn). set (s1 := set_nodes _ s0).
  assert (of_lists (rd_prev (Some (NodeList n))) s1 = Some (Some (NodeList p), s1)) as Hprev1.
  { apply of_lists_run. change (mm_lists s1) with (mm_lists s).
    rewrite rd_prev_prv by (apply (upd_dom _ _ _ _ _ Hsl); by eapply nxt_Some).
    rewrite (upd_prv _ _ _ _ _ Hsl). by rewrite decide_True. }
  mrun Hprev1.
  assert (entry_of (Some (NodeList p)) s1 = Some (p, s1)) as Hent1.
  { apply entry_of_run; change (mm_lists s1) with (mm_lists s).
    - apply (upd_dom _ _ _ _ _ Hsl). by eapply nxt_Some.
    - rewrite (upd_con _ _ _ _ _ Hsl). apply elem_of_cons in Hp as [->|Hp]; [done|].
      unfold contains in Hc. rewrite Forall_forall in Hc. apply (Hc (NodeList p)).
      rewrite fmap_app. apply elem_of_app. left. by apply list_elem_of_fmap_2. }
  mrun Hent1.
  assert (mm_nodes s1 !! p = Some pd) as Hpd1 by (cbn; rewrite lookup_insert_ne by congruence; done).
  mrun (upd_node_run s1 p pd (set_hole_follows (scanned_preceeds_hole nd)) Hpd1).
  set (s2 := set_nodes _ s1). mrun (on_lists_run s2 _ l Hadd). set (s3 := set_lists l s2).
  assert (scan_rep s3 (l1 ++ n :: l2)) as Hs3.
  { split; [done|]. intros m Hm. cbn. rewrite !lookup_insert_is_Some'. auto. }
  rewrite cons_middle, app_assoc in Hs3. destruct (scan_rep_end_run s3 (l1 ++ [n]) l2 Hs3) as (nm & Hnm & He).
  rewrite List.last_last in He. mrun He. rewrite get_bind.
  assert (mm_nodes s3 !! n = Some (set_scanned_block false nd)) as Hnd3.
  { cbn. rewrite lookup_insert_ne by done. apply lookup_insert_eq. }
  mrun (node_of_run s3 n _ Hnd3).
  eexists _, s3. split; [done|]. split_and!; try done. by exists nm.
Qed.

(** Adding nodes to a scan, and taking them off it. *)
Fixpoint scan_add_all (vs : list node_id) : M drm_mm (list Z) :=
  match vs with
  | [] => mret []
  | v :: vs => r ← drm_mm_scan_add_block v; rs ← scan_add_all vs; mret (r :: rs)
  end.
Fixpoint scan_remove_all (vs : list node_id) : M drm_mm (list Z) :=
  match vs with
  | [] => mret []
  | v :: vs => r ← drm_mm_scan_remove_block v; rs ← scan_remove_all vs; mret (r :: rs)
  end.

Lemma scan_remove_all_snoc vs v s rs s' r s'' :
  scan_remove_all vs s = Some (rs, s') → drm_mm_scan_remove_block v s' = Some (r, s'') →
  scan_remove_all (vs ++ [v]) s = Some (rs ++ [r], s'').
Proof.
  revert s rs. induction vs as [|x vs IH]; intros s rs H1 H2; cbn in *.
  - unfold mret, M_ret in H1. simplify_eq. by mrun H2.
  - apply M_bind_inv in H1 as (r1 & s1 & Hr1 & H1). apply M_bind_inv in H1 as (rs1 & s2 & Hrs1 & H1).
    unfold mret, M_ret in H1. simplify_eq. mrun Hr1. by mrun (IH _ _ Hrs1 H2).
Qed.

(** Equality of nodes up to the field only a scan in progress uses. *)
Abbreviation forget := (set_scanned_preceeds_hole false).

Lemma forget_restore pd pd3 : forget pd3 = forget (set_hole_follows true pd) →
  forget (set_hole_follows (hole_follows pd) pd3) = forget pd.
Proof. destruct pd, pd3. intros H. injection H. intros. by subst. Qed.

(** What the removal of [v] returns: some list with [v] on it holds at least the nodes
    outside the scan, and the hole that was hit is compared with the start of [v] and
    that of the node after it. *)
Definition start_of s n : option Z := node_start <$> mm_nodes s !! n.
Definition removed_as s ns vs (hit : Z * Z) (v : node_id) (r : Z) : Prop :=
  ∃ l1 l2 a e, l1 ++ v :: l2 `sublist_of` ns ∧ (∀ m, m ∈ ns → m ∉ vs → m ∈ l1 ++ l2) ∧
    start_of s v = Some a ∧ start_of s (List.hd head_node l2) = Some e ∧
    r = b2z ((hit.1 <? e) && (a <? hit.2)).

Lemma forget_start (nodes nodes' : gmap positive drm_mm_node) m : forget <$> nodes' !! m = forget <$> nodes !! m → node_start <$> nodes' !! m = node_start <$> nodes !! m.
Proof. destruct (nodes' !! m) as [x|], (nodes !! m) as [y|]; intros [=]; [|done]. destruct x, y. cbn in *. by simplify_eq. Qed.

Lemma removed_as_more s s1 (l1 : list node_id) v (l2 : list node_id) vs hit w r : (∀ m, start_of s1 m = start_of s m) →
  removed_as s1 (l1 ++ l2) vs hit w r → removed_as s (l1 ++ v :: l2) (v :: vs) hit w r.
Proof.
  intros Hst (k1 & k2 & a & e & Hsub & Hin & Ha & He & ->). rewrite !Hst in *. exists k1, k2, a, e.
  split; [|split; [|done]].
  - etrans; [done|]. apply sublist_app; [done|]. by apply sublist_cons.
  - intros m Hm [Hmv Hmvs]%not_elem_of_cons. apply Hin; [|done]. revert Hm. rewrite !elem_of_app, elem_of_cons. naive_solver.
Qed.

Lemma scan_nested vs s ns : scan_rep s ns → NoDup vs → ca_total s →
  (∀ v, v ∈ vs → v ∈ ns ∧ ∃ nd, mm_nodes s !! v = Some nd ∧ scanned_block nd = false) →
  0 <= scanned_blocks s < 2 ^ 32 →
  ∃ rs s1 rs' s2, scan_add_all vs s = Some (rs, s1) ∧
    scan_remove_all (rev vs) s1 = Some (rs', s2) ∧
    mm_lists s2 = mm_lists s ∧ (∀ m, m ∉ vs → mm_nodes s2 !! m = mm_nodes s !! m) ∧
    (∀ m, forget <$> mm_nodes s2 !! m = forget <$> mm_nodes s !! m) ∧
    scanned_blocks s2 = scanned_blocks s ∧ scan_same s s2 ∧
    scan_hit s2 = scan_hit s1 ∧ Forall2 (removed_as s ns vs (scan_hit s1)) (rev vs) rs'.
Proof.
  revert s ns. induction vs as [|v vs IH]; intros s ns Hs Hnd Ht Hvs Hsb.
  { eexists [], s, [], s. split_and!; done. }
  apply NoDup_cons in Hnd as [Hv Hnd].
  destruct (Hvs v) as [Hvn (nd & Hn & Hnsb)]; [set_solver|].
  apply list_elem_of_split in Hvn as (l1 & l2 & ->).
  destruct (scan_add_run s l1 v l2 nd Hs Hn Hnsb Ht) as
    (pd & z & s1 & sc & Hpd & Hpv & Hrun & Hs1 & Hn1 & Hsl & Hnp & Hnn & Hpp & Hps & Hscn & Hsb1 & Hsame1 & _).
  set (p := List.last l1 head_node) in *.
  destruct (IH s1 (l1 ++ l2)) as (rs & s2 & rs' & s3 & Hadd & Hrem & Hl3 & Hn3 & Hf3 & Hsb3 & Hsame3 & Hhit3 & Hflags);
    [done|done| | |by rewrite Hsb1; apply wrap_range|].
  { unfold ca_total. by rewrite (proj1 (proj2 Hsame1)). }
  { intros w Hw. assert (w ≠ v) as Hwv by (by intros ->).
    destruct (Hvs w) as [Hwn (wd & Hwd & Hwsb)]; [set_solver|]. split; [set_solver|].
    rewrite Hn1. destruct (decide (w = p)) as [->|Hwp].
    - simplify_eq. eexists. rewrite lookup_insert_eq. done.
    - rewrite !lookup_insert_ne by congruence. eauto. }
  pose proof (Hn3 v Hv) as Hv3. rewrite Hn1, lookup_insert_ne, lookup_insert_eq in Hv3 by done.
  assert (∃ pd3, mm_nodes s3 !! p = Some pd3 ∧ forget pd3 = forget (set_hole_follows true pd))
    as (pd3 & Hp3 & Hfp).
  { pose proof (Hf3 p) as Hf. rewrite Hn1, lookup_insert_eq in Hf.
    apply fmap_Some in Hf as (x & ? & ?). eauto. }
  destruct (scan_remove_run s3 (mm_lists s) l1 v l2
    (set_scanned_preceeds_hole (hole_follows pd) (set_scanned_block true nd)) pd3 sc (NodeList <$> prev_scanned_node s))
    as (r & s4 & Hrun4 & Hl4 & Hn4 & Hsb4 & Hsame4 & Hhit4 & nm & Hnm & Hr);
    [apply Hs| |by rewrite Hl3|done|done|done|done|done|done|exact Hv3|done|done|].
  { intros m Hm. pose proof (Hf3 m) as Hf. destruct (proj2 Hs m Hm) as [x Hx].
    assert (is_Some (mm_nodes s1 !! m)) as [y Hy].
    { rewrite Hn1, !lookup_insert_is_Some'. eauto. }
    rewrite Hy in Hf. symmetry in Hf. cbn in Hf. symmetry in Hf.
    apply fmap_Some in Hf as (x' & -> & _). eauto. }
  fold p in Hn4. cbn in Hn4.
  assert (∀ m, forget <$> mm_nodes s4 !! m = forget <$> mm_nodes s !! m) as Hf4.
  { intros m. rewrite Hn4. destruct (decide (m = p)) as [->|Hmp].
    - rewrite lookup_insert_eq, Hpd. cbn [fmap option_fmap option_map]. f_equal.
      by apply forget_restore.
    - rewrite lookup_insert_ne by congruence. destruct (decide (m = v)) as [->|Hmv].
      + rewrite lookup_insert_eq, Hn. cbn. f_equal. destruct nd. cbn in *. by rewrite Hnsb.
      + rewrite lookup_insert_ne, Hf3, Hn1, !lookup_insert_ne by congruence. done. }
  exists (z :: rs), s2, (rs' ++ [r]), s4. split; [cbn; mrun Hrun; by mrun Hadd|].
  split; [cbn; by eapply scan_remove_all_snoc|]. split; [done|]. split_and!.
  - intros m [Hmv Hm]%not_elem_of_cons. rewrite Hn4. destruct (decide (m = p)) as [->|Hmp].
    + rewrite lookup_insert_eq, Hpd. f_equal. rewrite (Hn3 _ Hm), Hn1, lookup_insert_eq in Hp3.
      simplify_eq. by destruct pd.
    + rewrite !lookup_insert_ne by congruence. rewrite (Hn3 _ Hm), Hn1.
      by rewrite !lookup_insert_ne by congruence.
  - exact Hf4.
  - rewrite Hsb4, Hsb3, Hsb1. unfold wrap. rewrite Zminus_mod_idemp_l.
    rewrite Z.mod_small; lia.
  - destruct Hsame1 as (?&?&?), Hsame3 as (?&?&?), Hsame4 as (?&?&?). split_and!; congruence.
  - congruence.
  - cbn [rev]. apply Forall2_app.
    + eapply Forall2_impl; [exact Hflags|]. intros w x. apply removed_as_more.
      intros m. unfold start_of. rewrite Hn1. destruct (decide (m = p)) as [->|Hmp]; [by rewrite lookup_insert_eq, Hpd|].
      rewrite lookup_insert_ne by done. destruct (decide (m = v)) as [->|Hmv]; [by rewrite lookup_insert_eq, Hn|]. by rewrite lookup_insert_ne.
    + constructor; [|done]. exists l1, l2, (node_start nd), (node_start nm). split; [done|]. split_and!.
      * intros m Hm Hmv. set_solver.
      * unfold start_of. by rewrite Hn.
      * unfold start_of. rewrite <- (forget_start _ _ _ (Hf4 _)). by rewrite Hnm.
      * rewrite <- Hhit3. done.
Qed.

End Scan.

(** ** i915_gem_gtt.c: the callback that keeps a page between cache domains *)

(** [i915_gtt_color_adjust]; [None] is the dereference of a bad pointer. *)
Definition i915_gtt_color_adjust (n : node_id) (color : Z) (r : Z * Z) (s : drm_mm)
    : option (Z * Z) :=
  nd ← mm_nodes s !! n;
  let start := if node_color nd =? color then r.1 else u64 (r.1 + 4096) in
  e ← list_empty (NodeList n) (mm_lists s);
  if e : bool then Some (start, r.2) else
  p ← rd_next (Some (NodeList n)) (mm_lists s);
  q ← list_entry p (mm_lists s);
  next ← q;
  nd' ← mm_nodes s !! next;
  Some (start, if allocated nd' && negb (node_color nd' =? color) then u64 (r.2 - 4096) else r.2).

#[export] Instance i915_ColorAdjust : ColorAdjust.
Proof.
  refine {| color_adjust := i915_gtt_color_adjust; ca_margin := 4096 |}.
  intros n color s e st s' e' Hs He Hrun. unfold i915_gtt_color_adjust in Hrun. cbn [fst snd] in Hrun.
  destruct (mm_nodes st !! n) as [nd|]; [|done]. cbn in Hrun.
  assert (s <= (if node_color nd =? color then s else u64 (s + 4096)) <= 2 ^ 62 + 2 ^ 60) as Hb.
  { case_bool; [lia|]. rewrite u64_id; lia. }
  repeat match type of Hrun with
  | (match ?x with _ => _ end) = _ => destruct x; cbn in Hrun; try done
  | (?x ≫= _) = _ => destruct x; cbn in Hrun; try done
  end; simplify_eq; (split; [exact Hb|]).
  - lia.
  - destruct (_ && _); [|lia]. rewrite u64_id; lia.
Defined.

(** ** Equivalences and preservation used by the theorems *)

Section Final.
Context `{CA : ColorAdjust}.
Implicit Types (s : drm_mm) (n q : node_id) (bl : list block).

Abbreviation forget := (set_scanned_preceeds_hole false).

(** Two node maps that agree up to the scratch field of the scans. *)
Definition same_nodes (nodes nodes' : gmap positive drm_mm_node) : Prop :=
  ∀ m, forget <$> nodes' !! m = forget <$> nodes !! m.

Lemma same_nodes_lookup nodes nodes' m nd : same_nodes nodes nodes' → nodes !! m = Some nd →
  ∃ nd', nodes' !! m = Some nd' ∧ hole_follows nd' = hole_follows nd ∧
    node_start nd' = node_start nd ∧ node_size nd' = node_size nd ∧
    allocated nd' = allocated nd ∧ (unscanned nd → unscanned nd').
Proof.
  intros Hs Hm. specialize (Hs m). rewrite Hm in Hs.
  destruct (nodes' !! m) as [nd'|]; [|done]. exists nd'. split; [done|].
  destruct nd, nd'. unfold unscanned. cbn in *. injection Hs. intros. subst. done.
Qed.

Lemma same_nodes_layout nodes nodes' p e bl hi :
  same_nodes nodes nodes' → layout nodes p e bl hi → layout nodes' p e bl hi.
Proof.
  intros Hs. revert p e. induction bl as [|b bl IH]; intros p e; rewrite !(layout_unfold _ p).
  all: intros (He & (nd & Hp & Hend & Hh) & Hrest).
  all: destruct (same_nodes_lookup _ _ _ _ Hs Hp) as (nd' & Hp' & Hhf & Hst & Hsz & _).
  all: split; [done|]; split; [exists nd'; split; [done|]; split; congruence|].
  { done. }
  destruct Hrest as ((ndb & Hb & H1 & H2 & H3 & H4) & Hsize & Hl).
  destruct (same_nodes_lookup _ _ _ _ Hs Hb) as (nd2 & ? & _ & ? & ? & ? & ?).
  split; [exists nd2; split_and!; try congruence; tauto|]. split; [done|by apply IH].
Qed.

Lemma mm_rep_same s s' lo hi bl hs us :
  mm_rep s lo hi bl hs us → mm_lists s' = mm_lists s → same_nodes (mm_nodes s) (mm_nodes s') →
  scanned_blocks s' = scanned_blocks s → num_unused s' = num_unused s →
  mm_rep s' lo hi bl hs us.
Proof.
  intros Hr Hl Hs Hsb Hnu. split; rewrite ?Hl; try apply Hr.
  - intros n [nd Hn]. apply (rep_alloc _ _ _ _ _ _ Hr). specialize (Hs n). rewrite Hn in Hs.
    destruct (mm_nodes s !! n); [eauto|done].
  - destruct (rep_head _ _ _ _ _ _ Hr) as (hd & Hh & <-).
    destruct (same_nodes_lookup _ _ _ _ Hs Hh) as (hd' & ? & _ & ? & _). eauto.
  - eapply same_nodes_layout; [done|apply Hr].
  - intros u Hu. destruct (rep_us _ _ _ _ _ _ Hr u Hu) as (Hni & nd & Hnd & ? & ?).
    split; [done|]. destruct (same_nodes_lookup _ _ _ _ Hs Hnd) as (nd' & ? & _ & _ & _ & ? & ?).
    exists nd'. split; [done|]. split; [congruence|tauto].
  - rewrite Hnu. apply Hr.
  - rewrite Hsb. apply Hr.
Qed.

Lemma layout_nodes nodes p e bl hi m : layout nodes p e bl hi → m ∈ p :: ids bl →
  is_Some (nodes !! m).
Proof.
  intros Hl Hm. destruct (gap_of_elem p e bl hi m Hm) as (gs & ge & Hgap).
  apply (layout_gap _ _ _ _ _ _ _ _ Hl) in Hgap as (_ & _ & _ & (nd & ? & _) & _). eauto.
Qed.

(** [drm_mm_init_scan], the additions of a scan, then the removals in reverse order. *)
Definition scan_and_restore (size al color : Z) (vs : list node_id) : M drm_mm (list Z * list Z) :=
  drm_mm_init_scan size al color;;
  rs ← scan_add_all vs;
  rs' ← scan_remove_all (rev vs);
  mret (rs, rs').

End Final.

(** ** Theorems *)

Section Theorems.
Context `{CA : ColorAdjust}.
Implicit Types (s : drm_mm) (n q : node_id) (bl : list block).

(** C1 (mm_reachable_safe): from any memory [drm_mm_init] can be run on, with all
    nodes unallocated, after the initialisation and any sequence of allocations
    and releases a driver may request: no request panics or dereferences a bad
    pointer, every allocated node lies in the managed range, and two allocated
    nodes never overlap. *)
Theorem mm_reachable_safe s0 start size :
  mm_ready s0 → 0 <= start → 0 < size → start + size <= 2 ^ 62 →
  (∀ n nd, mm_nodes s0 !! n = Some nd → allocated nd = false ∧ unscanned nd) →
  ∃ s1, drm_mm_init start size s0 = Some (tt, s1) ∧
  ∀ s, star mm_step s1 s →
    (∀ r, allowed s r → ∃ z s', exec_request r s = Some (z, s')) ∧
    (∀ n nd, n ≠ head_node → mm_nodes s !! n = Some nd → allocated nd = true →
      start <= node_start nd ∧ 0 < node_size nd ∧ node_start nd + node_size nd <= start + size) ∧
    (∀ n m nd md, n ≠ m → n ≠ head_node → m ≠ head_node →
      mm_nodes s !! n = Some nd → mm_nodes s !! m = Some md →
      allocated nd = true → allocated md = true →
      node_start nd + node_size nd <= node_start md ∨ node_start md + node_size md <= node_start nd).
Proof.
  intros Hready Hst Hsz Hmax Hfree.
  destruct (init_run s0 start size Hready Hst Hsz Hmax) as (s1 & Hrun & Hr & Hcol & Hother).
  exists s1. split; [done|]. intros s Hstar.
  assert (mm_inv start (start + size) s) as Hinv.
  { apply (star_invariant mm_step (mm_inv start (start + size)) s1); [| |done].
    - intros a b Ha Hs. destruct Hs as [a r z b Hok Hex].
      destruct (exec_request_inv _ _ _ r Ha Hok) as (z' & s' & Hex' & Hi). congruence.
    - split; [|done]. exists [], [head_node]. split; [done|]. intros n nd Hn Hnd.
      rewrite Hother in Hnd by done. destruct (Hfree _ _ Hnd) as [Ha Hu]. split; [done|]. congruence. }
  destruct Hinv as [(bl & hs & Hrep & Hall) Hc].
  assert (∀ n nd, n ≠ head_node → mm_nodes s !! n = Some nd → allocated nd = true →
    ∃ b, b ∈ bl ∧ b_id b = n ∧ node_start nd = b_start b ∧ node_size nd = b_size b ∧ 0 < b_size b)
    as Hblock.
  { intros n nd Hn Hnd Ha. destruct (Hall n nd Hn Hnd) as [_ Hin].
    destruct (ids_elem n bl (Hin Ha)) as (l1 & b & l2 & -> & <-).
    destruct (layout_node _ _ _ _ _ _ _ (rep_layout _ _ _ _ _ _ Hrep))
      as ((nd' & Hnd' & ? & ? & _) & ? & _).
    simplify_eq. exists b. split_and!; try done. set_solver. }
  split; [|split].
  - intros r Hok. destruct (exec_request_inv start (start + size) s r) as (z & s' & ? & _);
      [by split; eauto|done|eauto].
  - intros n nd Hn Hnd Ha. destruct (Hblock n nd Hn Hnd Ha) as (b & Hb & _ & -> & -> & ?).
    destruct (layout_ge _ _ _ _ _ _ (rep_layout _ _ _ _ _ _ Hrep) Hb). unfold b_end in *. lia.
  - intros n m nd md Hnm Hn Hm Hnd Hmd Han Ham.
    destruct (Hblock n nd Hn Hnd Han) as (b & Hb & <- & -> & -> & _).
    destruct (Hblock m md Hm Hmd Ham) as (b' & Hb' & <- & -> & -> & _).
    by apply (layout_disjoint _ _ _ _ _ _ _ (rep_layout _ _ _ _ _ _ Hrep)).
Qed.

(** C2 (insert_node_in_range_correct): on a state that represents the blocks [bl],
    drm_mm_insert_node_in_range_generic either returns 0 and puts a block of the
    requested size and alignment, inside the requested range, in a gap of [bl];
    or it returns -ENOSPC, changes nothing, and (when no callback narrows the
    holes) no gap has an aligned place of that size in the range. *)
Theorem insert_node_in_range_correct s lo hi bl hs us n size al color start end_ :
  mm_rep s lo hi bl hs us → free_node s bl us n → request_ok size al start end_ →
  ca_ready s lo bl hi color start end_ →
  ∃ z s', drm_mm_insert_node_in_range_generic n size al color start end_ s = Some (z, s') ∧
  ((z = 0 ∧ ∃ q b hs', placed lo bl hi n size al start end_ q b ∧
      mm_rep s' lo hi (insert_after head_node q b bl) hs' us) ∨
   (z = - ENOSPC ∧ s' = s ∧
      (has_color_adjust s = false → ¬ free_space lo bl hi size al start end_))).
Proof.
  intros Hr Hn Hrq Hca.
  destruct (insert_in_range_run _ _ _ _ _ _ n size al color start end_ Hr Hn Hrq Hca)
    as [(s' & q & b & hs' & Hrun & Hp & Hr' & _)|[Hrun Hno]].
  - exists 0, s'. split; [done|]. left. eauto 10.
  - exists (- ENOSPC), s. split; [done|]. right. done.
Qed.

(** Drm_mm_insert_node_generic, with its own
    search and its own insertion helper, does what the range version does for the
    range of all addresses. *)
Theorem insert_node_is_range_insert s lo hi bl hs us n size al color :
  mm_rep s lo hi bl hs us → is_Some (mm_nodes s !! n) →
  ca_ready s lo bl hi color 0 ULONG_MAX →
  drm_mm_insert_node_generic n size al color s =
  drm_mm_insert_node_in_range_generic n size al color 0 ULONG_MAX s.
Proof.
  intros Hr [nd Hn] Hca. unfold drm_mm_insert_node_generic, drm_mm_insert_node_in_range_generic.
  pose proof (search_first _ _ _ _ _ _ size al color 0 ULONG_MAX Hr Hca) as Hs.
  pose proof (search_generic_eq _ _ _ _ _ _ size al color false Hr) as Heq. rewrite Hs in Heq.
  mrun Heq. mrun Hs. destruct (List.find _ hs) as [q|] eqn:Hf; [|done].
  apply find_Some_elem in Hf as [Hq _].
  apply (rep_hs _ _ _ _ _ _ Hr) in Hq as (gs & ge & Hgap & Hlt).
  destruct (rep_gap _ _ _ _ _ _ _ _ _ Hr Hgap) as (? & ? & ? & ? & Hg & _).
  rewrite (proj2 (Z.ltb_lt _ _) Hlt) in Hg. pose proof Hg as (hd & Hhd & _ & Hh).
  unfold mbind, M_bind.
  rewrite (insert_helper_eq s q n size al color gs ge hd nd); [done| |..|lia|unfold ULONG_MAX; lia];
    [by apply hole_start_run|by eapply hole_end_run|done..].
Qed.

(** Drm_mm_remove_node takes the block out, never hits a
    BUG_ON, leaves the node free, and merges the gaps around it into one hole that
    is on top of the hole stack. *)
Theorem remove_node_correct s lo hi l1 b l2 hs us :
  mm_rep s lo hi (l1 ++ b :: l2) hs us →
  ∃ s' gs, drm_mm_remove_node (b_id b) s = Some (tt, s') ∧
    mm_rep s' lo hi (l1 ++ l2)
      (holes_released (List.last (ids l1) head_node) (b_id b) hs) us ∧
    free_node s' (l1 ++ l2) us (b_id b) ∧
    gap_of head_node lo (l1 ++ l2) hi (List.last (ids l1) head_node) = Some (gs, next_start l2 hi) ∧
    gs <= b_start b ∧ b_end b <= next_start l2 hi.
Proof.
  intros Hr. destruct (remove_node_run _ _ _ _ _ _ _ _ Hr) as (s' & Hrun & Hr' & Hfree & _).
  destruct (rep_lists _ _ _ _ _ _ Hr) as (_ & _ & Hnd).
  destruct (gap_of_last _ lo _ _ _ hi Hnd) as [gs Hgq].
  pose proof (gap_of_app _ lo _ _ _ hi Hnd) as Hgb.
  exists s', gs. do 3 (split; [done|]).
  destruct (rep_gap _ _ _ _ _ _ _ _ _ Hr Hgb) as (_ & Hbe & _).
  destruct (rep_gap _ _ _ _ _ _ _ _ _ Hr Hgq) as (_ & Hqs & _).
  split; [|done]. rewrite (gap_of_remove _ _ _ b) by
    (done || (intros Heq; rewrite Heq, Hgb in Hgq; simplify_eq;
      destruct (layout_node _ _ _ _ _ _ _ (rep_layout _ _ _ _ _ _ Hr)) as (_ & ? & _);
      unfold b_end in *; lia)).
  rewrite decide_True by done. by rewrite Hgq.
Qed.

(** C3 (scan_roundtrip): an eviction scan over any blocks, taken back in reverse
    order, never hits a BUG_ON and restores every list of the manager exactly; the
    state represents the same blocks. *)
Theorem scan_roundtrip s lo hi bl hs us size al color vs :
  mm_rep s lo hi bl hs us → ca_total s → NoDup vs → (∀ v, v ∈ vs → v ∈ ids bl) →
  ∃ r s', scan_and_restore size al color vs s = Some (r, s') ∧
    mm_lists s' = mm_lists s ∧ mm_rep s' lo hi bl hs us.
Proof.
  intros Hr Ht Hnd Hvs. unfold scan_and_restore, drm_mm_init_scan. rewrite modify_bind.
  set (s0 := mk_mm _ _ _ _ _ _ _ _ _ _ _ _ _ _).
  destruct (scan_nested vs s0 (ids bl)) as (rs & s1 & rs' & s2 & H1 & H2 & Hl & _ & Hf & Hsb & Hsame & _).
  - split; [apply Hr|]. intros m Hm. eapply layout_nodes; [apply Hr|done].
  - done.
  - exact Ht.
  - intros v Hv. split; [by apply Hvs|].
    destruct (ids_elem v bl (Hvs v Hv)) as (l1 & b & l2 & Heq & <-).
    pose proof (rep_layout _ _ _ _ _ _ Hr) as Hlay. rewrite Heq in Hlay.
    destruct (layout_node _ _ _ _ _ _ _ Hlay) as ((nd & Hn & _ & _ & _ & Hu) & _).
    exists nd. split; [done|apply Hu].
  - done.
  - mrun H1. mrun H2. eexists _, s2. split; [done|]. split; [done|].
    eapply (mm_rep_same s); [done|done|done| |apply Hsame].
    rewrite Hsb. symmetry. apply Hr.
Qed.

(** On every state that represents some blocks,
    drm_mm_debug_table does not terminate, whatever the fuel: head_node carries a
    back pointer, which list_for_each_entry takes for a further node. *)
Theorem debug_table_diverges s lo hi bl hs us fuel :
  mm_rep s lo hi bl hs us → drm_mm_debug_table fuel s = OutOfFuel.
Proof.
  intros Hr. unfold drm_mm_debug_table.
  destruct (gap_of_elem head_node lo bl hi head_node) as (gs & ge & Hgap); [set_solver|].
  destruct (rep_gap _ _ _ _ _ _ _ _ _ Hr Hgap) as (_ & _ & _ & _ & Hg & _).
  pose proof Hg as (hd & Hhd & _ & Hh).
  assert (∃ z, drm_mm_debug_hole head_node s = Some (z, s)) as [z ->].
  { unfold drm_mm_debug_hole. mrun (node_of_run s _ hd Hhd). rewrite Hh.
    destruct (gs <? ge) eqn:Hlt; [|by eexists]. mrun (hole_start_run s _ gs Hg).
    mrun (hole_end_run s _ _ _ _ _ _ _ _ Hr Hgap). by eexists. }
  destruct (rep_nodes _ _ _ _ _ _ Hr) as (Hd & Hc & Hcon).
  assert (∃ m, nxt (mm_lists s) (NodeList head_node) = Some (NodeList m) ∧ m ∈ head_node :: ids bl)
    as (m & Hm & Hin).
  { pose proof (dll_next _ _ _ Hd) as Hn. destruct bl as [|b bl]; cbn in Hn; eexists;
      (split; [exact Hn|]); set_solver. }
  destruct (rep_con _ _ _ _ _ _ _ Hr Hin) as [Hsome Hmc].
  unfold list_for_each_entry. rewrite (entry_step _ _ _ Hm Hsome), Hmc.
  change m with (lh_obj (NodeList m)).
  rewrite (for_each_entry_loops (mm_lists s) lh_obj (NodeList head_node) (NodeList <$> ids bl) NodeList);
    [done|by split| |].
  - intros x Hx. apply elem_of_cons in Hx as [->|(y & -> & _)%list_elem_of_fmap]; done.
  - apply elem_of_cons in Hin as [->|Hin]; [by apply elem_of_cons; left|].
    apply elem_of_cons. right. by apply list_elem_of_fmap_2.
Qed.

End Theorems.

(** ** Witnesses *)

Section Witness.

(** Memory for the manager and three nodes. *)
Definition demo_memory : drm_mm :=
  let lh := mk_list_head None None None in
  mk_mm (<[HoleStack := lh]> (<[UnusedNodes := lh]>
          (<[NodeList 1%positive := lh]> (<[HoleLink 1%positive := lh]>
          (<[NodeList 2%positive := lh]> (<[HoleLink 2%positive := lh]>
          (<[NodeList 3%positive := lh]> (<[HoleLink 3%positive := lh]> ∅))))))))
        (<[1%positive := zero_node]> (<[2%positive := zero_node]> {[3%positive := zero_node]}))
        0 false 0 0 0 0 0 0 0 0 None true.

Definition demo_state (m : M drm_mm unit) (s : drm_mm) : drm_mm :=
  match m s with Some (_, s') => s' | None => s end.

(** A page range of 4096 addresses, and the same with node 2 allocated in it. *)
Definition demo_mm : drm_mm := demo_state (drm_mm_init 0 4096) demo_memory.
Definition demo_mm2 : drm_mm :=
  demo_state (drm_mm_insert_helper_range head_node 2%positive 100 16 0 0 8192) demo_mm.

Lemma demo_ready : mm_ready demo_memory.
Proof.
  split; [|vm_compute; eauto..].
  intros n [nd Hn]. revert n nd Hn.
  assert (map_Forall (λ n _, is_Some (mm_lists demo_memory !! NodeList n) ∧
    is_Some (mm_lists demo_memory !! HoleLink n)) (mm_nodes demo_memory)) as H; [|exact H].
  apply (bool_decide_unpack _). vm_compute. exact I.
Qed.

Lemma demo_free n nd : mm_nodes demo_memory !! n = Some nd → allocated nd = false ∧ unscanned nd.
Proof.
  revert n nd. assert (map_Forall (λ _ nd, allocated nd = false ∧ unscanned nd)
    (mm_nodes demo_memory)) as H; [|exact H].
  unfold unscanned. apply (bool_decide_unpack _). vm_compute. exact I.
Qed.

Lemma demo_rep : mm_rep demo_mm 0 4096 [] [head_node] [] ∧ has_color_adjust demo_mm = false.
Proof.
  destruct (init_run demo_memory 0 4096 demo_ready) as (s & Hrun & Hr & Hc & _); [lia..|].
  unfold demo_mm, demo_state. rewrite Hrun. done.
Qed.

Lemma demo_free_node n : n = 2%positive → free_node demo_mm [] [] n.
Proof.
  intros ->. split; [|split; [apply not_elem_of_nil|]].
  - cbn. intros H. apply list_elem_of_singleton in H. discriminate.
  - eexists. split; [vm_compute; reflexivity|]. vm_compute. auto.
Qed.

Lemma demo_rep2 : mm_rep demo_mm2 0 4096 ([] ++ [mk_block 2%positive 0 100]) [2%positive] [].
Proof.
  destruct demo_rep as [Hr Hc].
  destruct (insert_helper_range_run demo_mm 0 4096 [] [head_node] [] head_node 2%positive
    0 4096 100 16 0 0 8192 0 4096) as (s & Hrun & Hr' & _);
    [done|reflexivity|lia|by apply demo_free_node| |vm_compute; congruence..|].
  { unfold adjusted. rewrite Hc. reflexivity. }
  unfold demo_mm2, demo_state. rewrite Hrun. exact Hr'.
Qed.

Lemma mm_reachable_safe_witness :
  ∃ s1, drm_mm_init 0 4096 demo_memory = Some (tt, s1) ∧
  ∀ s, star mm_step s1 s →
    (∀ r, allowed s r → ∃ z s', exec_request r s = Some (z, s')) ∧
    (∀ n nd, n ≠ head_node → mm_nodes s !! n = Some nd → allocated nd = true →
      0 <= node_start nd ∧ 0 < node_size nd ∧ node_start nd + node_size nd <= 0 + 4096) ∧
    (∀ n m nd md, n ≠ m → n ≠ head_node → m ≠ head_node →
      mm_nodes s !! n = Some nd → mm_nodes s !! m = Some md →
      allocated nd = true → allocated md = true →
      node_start nd + node_size nd <= node_start md ∨ node_start md + node_size md <= node_start nd).
Proof.
  apply (mm_reachable_safe demo_memory 0 4096); [apply demo_ready|lia|lia|lia|apply demo_free].
Defined.

Lemma insert_node_in_range_correct_witness :
  ∃ z s', drm_mm_insert_node_in_range_generic 2%positive 100 16 0 0 8192 demo_mm = Some (z, s') ∧
  ((z = 0 ∧ ∃ q b hs', placed 0 [] 4096 2%positive 100 16 0 8192 q b ∧
      mm_rep s' 0 4096 (insert_after head_node q b []) hs' []) ∨
   (z = - ENOSPC ∧ s' = demo_mm ∧
      (has_color_adjust demo_mm = false → ¬ free_space 0 [] 4096 100 16 0 8192))).
Proof.
  apply (insert_node_in_range_correct demo_mm 0 4096 [] [head_node] []).
  - apply demo_rep.
  - by apply demo_free_node.
  - unfold request_ok. lia.
  - apply ca_ready_none, demo_rep.
Defined.

Lemma insert_node_is_range_insert_witness :
  drm_mm_insert_node_generic 2%positive 100 16 0 demo_mm =
  drm_mm_insert_node_in_range_generic 2%positive 100 16 0 0 ULONG_MAX demo_mm.
Proof.
  apply (insert_node_is_range_insert demo_mm 0 4096 [] [head_node] []).
  - apply demo_rep.
  - vm_compute. eauto.
  - apply ca_ready_none, demo_rep.
Defined.

Lemma remove_node_correct_witness :
  ∃ s' gs, drm_mm_remove_node 2%positive demo_mm2 = Some (tt, s') ∧
    mm_rep s' 0 4096 [] (holes_released head_node 2%positive [2%positive]) [] ∧
    free_node s' [] [] 2%positive ∧
    gap_of head_node 0 [] 4096 head_node = Some (gs, 4096) ∧ gs <= 0 ∧ 0 + 100 <= 4096.
Proof.
  apply (remove_node_correct demo_mm2 0 4096 [] (mk_block 2%positive 0 100) [] [2%positive] []).
  apply demo_rep2.
Defined.

Lemma scan_roundtrip_witness :
  ∃ r s', scan_and_restore 4096 0 0 [2%positive] demo_mm2 = Some (r, s') ∧
    mm_lists s' = mm_lists demo_mm2 ∧
    mm_rep s' 0 4096 [mk_block 2%positive 0 100] [2%positive] [].
Proof.
  apply (scan_roundtrip demo_mm2 0 4096 _ [2%positive] [] 4096 0 0 [2%positive]).
  - apply demo_rep2.
  - intros H. vm_compute in H. discriminate.
  - apply NoDup_singleton.
  - intros v Hv. exact Hv.
Defined.

Lemma debug_table_diverges_witness : drm_mm_debug_table 1000 demo_mm = OutOfFuel.
Proof.
  apply (debug_table_diverges demo_mm 0 4096 [] [head_node] [] 1000). apply demo_rep.
Defined.

End Witness.
