(* ===== verification/Evict.v ===== *)
(** * i915: eviction

    i915_gem_evict.c on top of the range manager ([Mm]): to make room for an object the
    driver scans the least recently used ones until the blocks that they would leave make
    a hole that is large enough, takes the scan back, and unbinds those that lie in this hole;
    i915_gem_object_bind_to_gtt does so until its own allocation succeeds.  [Geometry], [Scanning]
    and [Unwind] show what a scan and its way back do to the manager, [ev_inv] says that
    every object of the two lists owns a block, and [evict_run] puts them together. *)

From stdpp Require Import base option list sets gmap fin_maps.
From Stdlib Require Import ZArith Lia.
From S2P Require Import Prelude LinuxList Mm.
#[local] Open Scope Z_scope.

(** ** Giving a block back *)

Section Put.
Context `{CA : ColorAdjust}.
Implicit Types (s : drm_mm) (bl : list block).

Lemma lists_add_unused l ns hs us n : lists_rep l ns hs us → disjoint_lists ns us → n ∉ us → n ∉ head_node :: ns → is_Some (l !! NodeList n) →
  ∃ l', list_add (NodeList n) UnusedNodes n l = Some l' ∧ lists_rep l' ns hs (n :: us) ∧ same_dom l l'.
Proof.
  intros (Hn & Hh & Hu) Hdis Hnu Hni Hsome.
  destruct (run_op_refines l lh_obj UnusedNodes None (OpAdd (NodeList n)) (NodeList <$> us) (NodeList <$> n :: us))
    as (l' & Hrun & Hu' & Hf & Hdom); [done|done|done| |].
  { cbn. rewrite bool_decide_false; [done|]. set_solver. }
  exists l'. split; [done|]. split; [|done]. cbn in Hf.
  split; [|split; [|done]].
  - eapply represents_frame; [|exact Hn]. intros a Ha. apply Hf. intros [->|[->|(u & -> & Hu2)%list_elem_of_fmap]%elem_of_cons]%elem_of_cons; [set_solver|set_solver|].
    specialize (Hdis u Hu2). set_solver.
  - eapply represents_frame; [|exact Hh]. intros a Ha. apply Hf. set_solver.
Qed.

(** The node after its release goes to the unused ones or is freed. *)
Lemma mm_rep_keep s lo hi bl hs us n : mm_rep s lo hi bl hs us → free_node s bl us n →
  ∃ l', list_add (NodeList n) UnusedNodes n (mm_lists s) = Some l' ∧
    mm_rep (set_num_unused (num_unused s + 1) (set_lists l' s)) lo hi bl hs (n :: us).
Proof.
  intros Hr (Hni & Hnu & nd & Hn & Hal & Hun). destruct (rep_lists _ _ _ _ _ _ Hr) as (Hl & Hdis & _).
  destruct (rep_alloc _ _ _ _ _ _ Hr n (mk_is_Some _ _ Hn)) as [Hsome _].
  destruct (lists_add_unused _ _ _ _ n Hl Hdis Hnu Hni Hsome) as (l' & Hrun & (H1 & H2 & H3) & Hdom). exists l'. split; [done|].
  destruct Hr as [Hall _ _ _ Hhead Hlay Hhs Hus Hnum Hrg Hsc]. split; cbn; try done.
  - intros m Hm. destruct (Hall m Hm). split; by apply Hdom.
  - intros u [->|Hu]%elem_of_cons; [|by apply Hus]. eauto.
  - rewrite Hnum. lia.
Qed.

Lemma mm_rep_free s lo hi bl hs us n : mm_rep s lo hi bl hs us → free_node s bl us n →
  mm_rep (set_lists (delete (NodeList n) (delete (HoleLink n) (mm_lists s))) (set_nodes (delete n (mm_nodes s)) s)) lo hi bl hs us.
Proof.
  intros Hr (Hni & Hnu & _). pose proof (hole_in_gap _ _ _ _ _ _ _ Hr Hni) as Hnh. destruct Hr as [Hall Hno Hho Hu Hhead Hlay Hhs Hus Hnum Hrg Hsc].
  assert (∀ a, a ≠ NodeList n → a ≠ HoleLink n → delete (NodeList n) (delete (HoleLink n) (mm_lists s)) !! a = mm_lists s !! a) as Hf.
  { intros a H1 H2. by rewrite !lookup_delete_ne. }
  split; cbn; try done.
  - intros m [x [Hm Hmm]%lookup_delete_Some]. rewrite !Hf by congruence. apply Hall. eauto.
  - eapply represents_frame; [|exact Hno]. intros a Ha. apply Hf; set_solver.
  - eapply represents_frame; [|exact Hho]. intros a Ha. apply Hf; set_solver.
  - eapply represents_frame; [|exact Hu]. intros a Ha. apply Hf; set_solver.
  - rewrite lookup_delete_ne by set_solver. done.
  - eapply layout_frame; [|exact Hlay]. intros m Hm. rewrite lookup_delete_ne; [done|]. by intros ->.
  - intros u Hu'. destruct (Hus u Hu') as (H1 & nd & H2 & H3). split; [done|]. exists nd. rewrite lookup_delete_ne by set_solver. done.
Qed.

Lemma put_block_run s lo hi l1 b l2 hs us : mm_rep s lo hi (l1 ++ b :: l2) hs us →
  ∃ s' hs' us', drm_mm_put_block (b_id b) s = Some (tt, s') ∧ mm_rep s' lo hi (l1 ++ l2) hs' us' ∧ has_color_adjust s' = has_color_adjust s ∧
    (∀ n, free_node s (l1 ++ b :: l2) us n → free_node s' (l1 ++ l2) us' n).
Proof.
  intros Hr. destruct (remove_node_run _ _ _ _ _ _ _ _ Hr) as (s1 & Hrun & Hr1 & Hfree & Hsc & Hother).
  pose proof (same_scalars_color _ _ Hsc) as Hca. unfold drm_mm_put_block. mrun Hrun. rewrite get_bind.
  assert (∀ n, free_node s (l1 ++ b :: l2) us n → n ≠ b_id b ∧ free_node s1 (l1 ++ l2) us n) as Hkeep.
  { intros n (Hni & Hnu & Hnd). rewrite ids_app in Hni. cbn in Hni. assert (n ≠ b_id b) as Hne by set_solver. split; [done|].
    split; [rewrite ids_app; set_solver|]. split; [done|]. rewrite Hother; [done..|]. pose proof (last_elem_of (ids l1) head_node). set_solver. }
  destruct (num_unused s1 <? MM_UNUSED_TARGET).
  - destruct (mm_rep_keep _ _ _ _ _ _ _ Hr1 Hfree) as (l' & Hadd & Hr2). mrun (on_lists_run s1 _ l' Hadd).
    eexists _, _, _. split; [done|]. split; [exact Hr2|]. split; [done|]. intros n Hn. destruct (Hkeep n Hn) as (Hne & H1 & H2 & H3). split; [done|]. split; [set_solver|done].
  - eexists _, _, _. split; [done|]. split; [apply (mm_rep_free _ _ _ _ _ _ _ Hr1 Hfree)|]. split; [done|]. intros n Hn. destruct (Hkeep n Hn) as (Hne & H1 & H2 & nd & H3 & H4).
    split; [done|]. split; [done|]. exists nd. cbn. by rewrite lookup_delete_ne.
Qed.
End Put.

(** ** Objects *)

(** What of an object eviction reads or changes: its block of the aperture, its pins and its
    references. *)
Record ebo := mk_ebo { gtt_space : option node_id; pin_count : Z; refcount : Z }.

(** [mm.gtt_space], the objects, [mm.inactive_list] and [mm.active_list]. *)
Record ev := mk_ev { e_mm : drm_mm; bos : gmap positive ebo; inactive_list : list positive; active_list : list positive }.

Definition set_mm (m : drm_mm) (s : ev) : ev := mk_ev m (bos s) (inactive_list s) (active_list s).
Definition set_bos (b : gmap positive ebo) (s : ev) : ev := mk_ev (e_mm s) b (inactive_list s) (active_list s).
Definition set_mm_lists (i a : list positive) (s : ev) : ev := mk_ev (e_mm s) (bos s) i a.

Definition on_mm {X} (m : M drm_mm X) : M ev X := λ s, '(x, m') ← m (e_mm s); Some (x, set_mm m' s).
Definition get_bo (o : positive) : M ev ebo := reads (λ s, bos s !! o).
Definition put_bo (o : positive) (e : ebo) : M ev unit := modify (λ s, set_bos (<[o := e]> (bos s)) s).
Definition block_of (o : positive) : M ev node_id := e ← get_bo o; reads (λ _, gtt_space e).

(** The release of the last reference, i915_gem_free_object, is a fault here: the theorems
    show that it is not reached. *)
Definition drm_gem_object_reference (o : positive) : M ev unit := e ← get_bo o; put_bo o (mk_ebo (gtt_space e) (pin_count e) (refcount e + 1)).
Definition drm_gem_object_unreference (o : positive) : M ev unit :=
  e ← get_bo o;
  if refcount e - 1 =? 0 then fault else put_bo o (mk_ebo (gtt_space e) (pin_count e) (refcount e - 1)).

(** ** Eviction *)

Section Evict.
Context `{CA : ColorAdjust}.

(** [wait]: what i915_gem_object_finish_gpu and i915_gem_object_put_fence return for an object;
    that a wait retires requests, which moves objects from the active to the inactive list, is left
    out, and so are the page tables and the list of unbound objects. *)
Context (wait : positive → Z).

Definition i915_gem_object_unbind (o : positive) : M ev Z :=
  e ← get_bo o;
  match gtt_space e with
  | None => mret 0
  | Some n =>
      if z2b (pin_count e) then mret (- EBUSY)
      else if z2b (wait o) then mret (wait o)
      else
        modify (λ s, set_mm_lists (remove_elem o (inactive_list s)) (remove_elem o (active_list s)) s);;
        on_mm (drm_mm_put_block n);;
        put_bo o (mk_ebo None (pin_count e) (refcount e));;
        mret 0
  end.

(** The lists that are linked through exec_list are lists of objects, first element first. *)
Definition mark_free (o : positive) (unwind : list positive) : M ev (bool * list positive) :=
  e ← get_bo o;
  if z2b (pin_count e) then mret (false, unwind)
  else n ← block_of o; r ← on_mm (drm_mm_scan_add_block n); mret (z2b r, o :: unwind).

Fixpoint scan_list (objs unwind : list positive) : M ev (bool * list positive) :=
  match objs with
  | [] => mret (false, unwind)
  | o :: objs => r ← mark_free o unwind; if r.1 : bool then mret r else scan_list objs r.2
  end.

Fixpoint clean_up (unwind : list positive) : M ev unit :=
  match unwind with
  | [] => mret tt
  | o :: unwind => n ← block_of o; ret ← on_mm (drm_mm_scan_remove_block n); BUG_ON (z2b ret);; clean_up unwind
  end.

Fixpoint take_evicted (unwind eviction : list positive) : M ev (list positive) :=
  match unwind with
  | [] => mret eviction
  | o :: unwind =>
      n ← block_of o;
      r ← on_mm (drm_mm_scan_remove_block n);
      if z2b r then drm_gem_object_reference o;; take_evicted unwind (o :: eviction) else take_evicted unwind eviction
  end.

Fixpoint unbind_all (eviction : list positive) (ret : Z) : M ev Z :=
  match eviction with
  | [] => mret ret
  | o :: eviction =>
      ret ← (if ret =? 0 then i915_gem_object_unbind o else mret ret);
      drm_gem_object_unreference o;;
      unbind_all eviction ret
  end.

(** [mappable_end]: dev_priv->gtt.mappable_end. *)
Definition i915_gem_evict_something (mappable_end min_size alignment cache_level : Z) (mappable nonblocking : bool) : M ev Z :=
  on_mm (if mappable then drm_mm_init_scan_with_range (u64 min_size) alignment cache_level 0 mappable_end
         else drm_mm_init_scan (u64 min_size) alignment cache_level);;
  s ← get;
  r ← scan_list (inactive_list s) [];
  r ← (if r.1 || nonblocking then mret r else scan_list (active_list s) r.2);
  if r.1 : bool then eviction ← take_evicted r.2 []; unbind_all eviction 0
  else clean_up r.2;; mret (- ENOSPC).

(** The loop of i915_gem_object_bind_to_gtt; the last argument of the C function is [nonblocking];
    [None] also: not done after [fuel] rounds. *)
Fixpoint search_free (fuel : nat) (gtt_total mappable_end : Z) (node : node_id) (size alignment cache_level : Z) (map_and_fenceable nonblocking : bool) : M ev Z :=
  match fuel with
  | O => fault
  | S fuel =>
      ret ← on_mm (drm_mm_insert_node_in_range_generic node size alignment cache_level 0 (if map_and_fenceable then mappable_end else gtt_total));
      if z2b ret then
        ret ← i915_gem_evict_something mappable_end (i32 size) alignment cache_level map_and_fenceable nonblocking;
        if ret =? 0 then search_free fuel gtt_total mappable_end node size alignment cache_level map_and_fenceable nonblocking
        else on_mm (kfree_node node);; mret ret
      else mret 0
  end.
End Evict.

(** ** Holes between blocks *)

Section Geometry.
Implicit Types (bl l : list block) (e lo hi : Z).

(** The blocks are in order. *)
Fixpoint spaced e bl hi : Prop :=
  match bl with [] => e <= hi | b :: bl => e <= b_start b ∧ 0 < b_size b ∧ spaced (b_end b) bl hi end.

(** The end of the last block. *)
Fixpoint last_end e bl : Z := match bl with [] => e | b :: bl => last_end (b_end b) bl end.

Lemma last_end_snoc e bl b : last_end e (bl ++ [b]) = b_end b.
Proof. revert e. induction bl as [|x bl IH]; intros e; [done|apply IH]. Qed.

Lemma spaced_app e l1 l2 hi : spaced e (l1 ++ l2) hi ↔ spaced e l1 (next_start l2 hi) ∧ spaced (last_end e l1) l2 hi.
Proof.
  revert e. induction l1 as [|b l1 IH]; intros e; cbn.
  - split; [|tauto]. intros H. split; [|done]. destruct l2; cbn in *; lia.
  - rewrite IH. tauto.
Qed.

Lemma spaced_le e bl hi : spaced e bl hi → e <= last_end e bl <= hi ∧ e <= next_start bl hi <= hi.
Proof.
  revert e. induction bl as [|b bl IH]; intros e; cbn; [lia|]. intros (H1 & H2 & H3). unfold b_end in *. apply IH in H3. lia.
Qed.

(** Taking a block out leaves the others in order. *)
Lemma spaced_remove e l1 b l2 hi : spaced e (l1 ++ b :: l2) hi → spaced e (l1 ++ l2) hi ∧ last_end e l1 <= b_start b ∧ 0 < b_size b ∧ b_end b <= next_start l2 hi.
Proof.
  rewrite !spaced_app. cbn. intros (H1 & H2 & H3 & H4). pose proof (spaced_le _ _ _ H4) as [H5 H6].
  split; [|unfold b_end in *; lia]. split.
  - revert e H1 H2. induction l1 as [|x l1 IH]; intros e; cbn; [unfold b_end in *; lia|]. intros (? & ? & ?) ?. split_and!; [done..|]. by apply IH.
  - destruct l2 as [|y l2]; cbn in *; [unfold b_end in *; lia|]. split; [unfold b_end in *; lia|tauto].
Qed.

Lemma layout_spaced nodes p e bl hi : layout nodes p e bl hi → spaced e bl hi.
Proof.
  revert p e. induction bl as [|b bl IH]; intros p e; rewrite layout_unfold; cbn; [lia|]. intros (? & _ & _ & ? & ?). eauto.
Qed.

(** Blocks before and after a place in the list lie before and after its hole. *)
Lemma spaced_before e l1 l2 hi b : spaced e (l1 ++ l2) hi → b ∈ l1 → b_end b <= last_end e l1.
Proof.
  intros Hs Hb. apply list_elem_of_split in Hb as (k1 & k2 & ->). rewrite <- app_assoc, spaced_app in Hs. destruct Hs as [_ Hs].
  cbn in Hs. destruct Hs as (_ & _ & Hs). apply spaced_app in Hs as [Hs _]. apply spaced_le in Hs as [[? _] _].
  assert (∀ e', last_end e' (k1 ++ b :: k2) = last_end (b_end b) k2) as ->; [|done]. induction k1 as [|x k1 IH]; intros e'; [done|apply IH].
Qed.

Lemma spaced_after e l1 l2 hi b : spaced e (l1 ++ l2) hi → b ∈ l2 → next_start l2 hi <= b_start b.
Proof.
  rewrite spaced_app. intros [_ Hs] Hb. destruct l2 as [|y l2]; [by apply not_elem_of_nil in Hb|]. cbn in *. apply elem_of_cons in Hb as [->|Hb]; [lia|].
  destruct Hs as (_ & ? & Hs). apply list_elem_of_split in Hb as (k1 & k2 & ->). apply spaced_app in Hs as [H1 H2]. cbn in H1, H2.
  apply spaced_le in H1. unfold b_end in *. lia.
Qed.

(** The hole between two parts of the list. *)
Lemma gap_of_middle p e l1 l2 hi : NoDup (p :: ids (l1 ++ l2)) → gap_of p e (l1 ++ l2) hi (List.last (ids l1) p) = Some (last_end e l1, next_start l2 hi).
Proof.
  revert p e. induction l1 as [|x l1 IH]; intros p e Hnd; [apply gap_of_here|].
  rewrite <- app_comm_cons in *. change (ids (x :: l1)) with (b_id x :: ids l1). rewrite last_cons.
  apply NoDup_cons in Hnd as [Hp Hnd]. cbn [app gap_of last_end]. rewrite decide_False; [by apply IH|].
  intros ->. apply Hp. pose proof (last_elem_of (ids l1) (b_id x)). cbn. rewrite ids_app. set_solver.
Qed.

(** The converse: every gap is between two parts. *)
Lemma gap_of_split p e bl hi q gs ge : gap_of p e bl hi q = Some (gs, ge) →
  ∃ l1 l2, bl = l1 ++ l2 ∧ gs = last_end e l1 ∧ ge = next_start l2 hi ∧ q = List.last (ids l1) p.
Proof.
  revert p e. induction bl as [|b bl IH]; intros p e; cbn; case_decide as Hd.
  - intros [= <- <-]. by exists [], [].
  - done.
  - intros [= <- <-]. by exists [], (b :: bl).
  - intros (l1 & l2 & -> & -> & -> & ->)%IH. exists (b :: l1), l2. split_and!; try done.
    change (ids (b :: l1)) with (b_id b :: ids l1). by rewrite last_cons.
Qed.
End Geometry.

(** ** Room for a request *)

(** An aligned place of the size below [end_] in the hole. *)
Definition room (size al end_ gs ge : Z) : Prop := ∃ st, gs <= st ∧ st + size <= ge ∧ 0 <= st ∧ st + size <= end_ ∧ (al = 0 ∨ (al | st)).

Lemma free_space_room lo bl hi size al end_ : NoDup (head_node :: ids bl) →
  free_space lo bl hi size al 0 end_ ↔ ∃ l1 l2, bl = l1 ++ l2 ∧ room size al end_ (last_end lo l1) (next_start l2 hi).
Proof.
  intros Hnd. split.
  - intros (q & gs & ge & st & (l1 & l2 & -> & -> & -> & _)%gap_of_split & H). exists l1, l2. split; [done|]. exists st. tauto.
  - intros (l1 & l2 & -> & st & H). exists (List.last (ids l1) head_node), (last_end lo l1), (next_start l2 hi), st. split; [by apply gap_of_middle|]. tauto.
Qed.

(** Without room before, a block taken out makes room exactly in the hole it leaves. *)
Lemma room_remove lo l1 b l2 hi size al end_ : NoDup (head_node :: ids (l1 ++ b :: l2)) → spaced lo (l1 ++ b :: l2) hi →
  ¬ free_space lo (l1 ++ b :: l2) hi size al 0 end_ → free_space lo (l1 ++ l2) hi size al 0 end_ → room size al end_ (last_end lo l1) (next_start l2 hi).
Proof.
  intros Hnd Hs Hno Hsp. assert (NoDup (head_node :: ids (l1 ++ l2))) as Hnd'.
  { eapply sublist_NoDup; [exact Hnd|]. apply sublist_skip. rewrite !ids_app. apply sublist_app; [done|]. cbn. by apply sublist_cons. }
  rewrite free_space_room in Hno by done. apply free_space_room in Hsp as (k1 & k2 & Heq & Hr); [|done].
  apply app_eq_inv in Heq as [(k & -> & ->)|(k & -> & ->)].
  - destruct k as [|y k]; [by rewrite app_nil_r in *|]. destruct Hno. exists k1, ((y :: k) ++ b :: l2). by rewrite <- app_assoc.
  - destruct k as [|y k _] using rev_ind; [by rewrite app_nil_r in *|].
    destruct Hno. exists (l1 ++ b :: k ++ [y]), k2. split; [by simplify_list_eq|].
    revert Hr. rewrite app_assoc, last_end_snoc. rewrite app_comm_cons, app_assoc, last_end_snoc. done.
Qed.

(** ** The state during a scan *)

Section Scanning.
Context `{CA : ColorAdjust}.
Context (lo hi size al end_ : Z).
Implicit Types (s : drm_mm) (l bl : list block).

Abbreviation roomy := (room size al end_).

(** The test of a scan that was started for the request. *)
Definition request_is s : Prop :=
  scan_size s = size ∧ scan_alignment s = al ∧
  (scan_check_range s = true ∧ scan_start s = 0 ∧ scan_end s = end_ ∨ scan_check_range s = false ∧ hi <= end_).

Definition sizes_ok : Prop := 0 < size <= 2 ^ 62 ∧ 0 <= al < 2 ^ 32 ∧ 0 <= end_ ∧ 0 <= lo ∧ hi <= 2 ^ 62.

Lemma scan_test_room s gs ge : sizes_ok → request_is s → 0 <= gs <= ge → ge <= hi → scan_test s gs ge = true ↔ roomy gs ge.
Proof.
  intros (Hsz & Hal & He & Hlo & Hhi) (Hs & Ha & Hc) Hg Hge. unfold scan_test. rewrite Hs, Ha.
  assert ((if scan_check_range s && (gs <? scan_start s) then scan_start s else gs) = gs) as ->.
  { destruct Hc as [(-> & -> & _)|(-> & _)]; cbn; [|done]. by rewrite (proj2 (Z.ltb_ge _ _)) by lia. }
  assert ((if scan_check_range s && (scan_end s <? ge) then scan_end s else ge) = Z.min ge end_) as ->.
  { destruct Hc as [(-> & _ & ->)|(-> & Hle)]; cbn; [case_bool|]; lia. }
  rewrite check_free_hole_spec by lia. rewrite Z.leb_le. split.
  - intros Hfit. pose proof (align_start_bounds gs al ltac:(lia) Hal). exists (align_start gs al). split_and!; try lia.
    destruct (align_start_spec gs al ltac:(lia) Hal) as [[_ ?]|[? _]]; tauto.
  - intros (st & H1 & H2 & H3 & H4 & H5). pose proof (align_start_least gs al st ltac:(lia) Hal H1 H5). lia.
Qed.

Definition pos_of s n : option (Z * Z) := (λ nd, (node_start nd, node_size nd)) <$> mm_nodes s !! n.

Record scanning s l : Prop := {
  sc_rep : scan_rep s (ids l);
  sc_nodup : NoDup (head_node :: ids l);
  sc_spaced : spaced lo l hi;
  sc_head : ∃ sz, pos_of s head_node = Some (hi, sz) ∧ u64 (hi + sz) = lo;
  sc_blocks b : b ∈ l → pos_of s (b_id b) = Some (b_start b, b_size b);
  sc_unscanned b : b ∈ l → ∃ nd, mm_nodes s !! b_id b = Some nd ∧ scanned_block nd = false;
  sc_nocb : has_color_adjust s = false;
  sc_request : request_is s;
}.

Lemma pos_of_last s l1 l2 : sizes_ok → scanning s (l1 ++ l2) → ∃ st sz, pos_of s (List.last (ids l1) head_node) = Some (st, sz) ∧ u64 (st + sz) = last_end lo l1.
Proof.
  intros (_ & _ & _ & Hlo & Hhi) Hs. destruct l1 as [|b l1 _] using rev_ind.
  - destruct (sc_head _ _ Hs) as (sz & ? & ?). by exists hi, sz.
  - rewrite ids_app, last_end_snoc. cbn [ids fmap list_fmap]. rewrite List.last_last. exists (b_start b), (b_size b). split; [apply (sc_blocks _ _ Hs); set_solver|].
    pose proof (sc_spaced _ _ Hs) as Hsp. rewrite <- app_assoc, spaced_app in Hsp. cbn in Hsp. destruct Hsp as (H1 & H2 & H3 & H4).
    apply spaced_le in H1, H4. unfold b_end in *. apply u64_id. lia.
Qed.

Lemma pos_of_next s l1 l2 : scanning s (l1 ++ l2) → ∃ sz, pos_of s (List.hd head_node (ids l2)) = Some (next_start l2 hi, sz).
Proof.
  intros Hs. destruct l2 as [|b l2]; cbn.
  - destruct (sc_head _ _ Hs) as (sz & ? & _). eauto.
  - exists (b_size b). apply (sc_blocks _ _ Hs). set_solver.
Qed.

(** The removal of one block from the list of nodes. *)
Lemma scanning_remove s s' l1 b l2 : scanning s (l1 ++ b :: l2) → scan_rep s' (ids (l1 ++ l2)) → (∀ m, pos_of s' m = pos_of s m) →
  (∀ m nd, m ≠ b_id b → mm_nodes s !! m = Some nd → ∃ nd', mm_nodes s' !! m = Some nd' ∧ scanned_block nd' = scanned_block nd) → scan_same s s' → scanning s' (l1 ++ l2).
Proof.
  intros Hs Hrep Hpos Hflag (_ & Hca & Hrq). pose proof (sc_nodup _ _ Hs) as Hnd.
  assert (∀ x, x ∈ l1 ++ l2 → x ∈ l1 ++ b :: l2) as Hin by set_solver.
  assert (∀ x, x ∈ l1 ++ l2 → b_id x ≠ b_id b) as Hne.
  { intros x Hx Heq. rewrite ids_app in Hnd. cbn in Hnd. rewrite app_comm_cons, <- Permutation_middle in Hnd. apply NoDup_cons in Hnd as [Hni _]. apply Hni.
    rewrite <- Heq. apply elem_of_app in Hx as [Hx|Hx]; apply elem_of_cons; right; apply elem_of_app; [left|right]; by apply list_elem_of_fmap_2. }
  split; try done.
  - eapply sublist_NoDup; [exact Hnd|]. apply sublist_skip. rewrite !ids_app. apply sublist_app; [done|]. cbn. by apply sublist_cons.
  - by apply (spaced_remove _ _ b), Hs.
  - rewrite Hpos. apply Hs.
  - intros x Hx. rewrite Hpos. by apply Hs, Hin.
  - intros x Hx. destruct (sc_unscanned _ _ Hs x (Hin x Hx)) as (nd & H1 & H2). destruct (Hflag _ _ (Hne x Hx) H1) as (nd' & ? & Heq).
    exists nd'. by rewrite Heq.
  - rewrite Hca. apply Hs.
  - destruct (sc_request _ _ Hs) as (H1 & H2 & H3). unfold scan_request in Hrq. injection Hrq as E1 E2 E3 E4 E5 E6. unfold request_is. by rewrite E1, E2, E3, E5, E6.
Qed.

(** Adding a block hits exactly if the hole that it leaves has room. *)
Lemma scan_step s l1 b l2 : sizes_ok → scanning s (l1 ++ b :: l2) →
  ∃ z s', drm_mm_scan_add_block (b_id b) s = Some (z, s') ∧ scanning s' (l1 ++ l2) ∧
    (z = 0 ∧ scan_hit s' = scan_hit s ∧ ¬ roomy (last_end lo l1) (next_start l2 hi) ∨
     z = 1 ∧ scan_hit s' = (last_end lo l1, next_start l2 hi) ∧ roomy (last_end lo l1) (next_start l2 hi)).
Proof.
  intros Hok Hs. destruct (sc_unscanned _ _ Hs b ltac:(set_solver)) as (nd & Hn & Hu). pose proof (sc_rep _ _ Hs) as Hrep. rewrite ids_app in Hrep.
  assert (ca_total s) as Hca by (intros Hc; by rewrite (sc_nocb _ _ Hs) in Hc).
  destruct (scan_add_run s (ids l1) (b_id b) (ids l2) nd Hrep Hn Hu Hca) as
    (pd & z & s' & sc & Hpd & Hpn & Hrun & Hrep' & Hnodes & _ & _ & _ & _ & _ & _ & _ & Hsame & nm & Hnm & Hhit).
  set (p := List.last (ids l1) head_node) in *. rewrite <- ids_app in Hrep'.
  assert (∀ m, pos_of s' m = pos_of s m) as Hpos.
  { intros m. unfold pos_of. rewrite Hnodes. destruct (decide (m = p)) as [->|]; [by rewrite lookup_insert_eq, Hpd|].
    rewrite lookup_insert_ne by done. destruct (decide (m = b_id b)) as [->|]; [by rewrite lookup_insert_eq, Hn|]. by rewrite lookup_insert_ne. }
  assert (scanning s' (l1 ++ l2)) as Hs'.
  { eapply scanning_remove; [done..| |done]. intros m x Hm Hx. rewrite Hnodes. destruct (decide (m = p)) as [->|].
    - rewrite lookup_insert_eq. simplify_eq. by eexists.
    - rewrite !lookup_insert_ne by done. by exists x. }
  exists z, s'. split; [done|]. split; [done|]. destruct (Hhit (sc_nocb _ _ Hs)) as [Hz Hh].
  assert (u64 (node_start pd + node_size pd) = last_end lo l1) as Hgs.
  { destruct (pos_of_last s l1 (b :: l2) Hok Hs) as (st & sz & Hp & <-). fold p in Hp. unfold pos_of in Hp. rewrite Hpd in Hp. by injection Hp as <- <-. }
  assert (node_start nm = next_start l2 hi) as Hge.
  { destruct (pos_of_next s' l1 l2 Hs') as (sz & Hp). unfold pos_of in Hp. rewrite Hnm in Hp. by injection Hp. }
  rewrite Hgs, Hge in *. pose proof (sc_spaced _ _ Hs') as Hsp. apply spaced_app in Hsp as [H1 H2]. apply spaced_le in H1, H2.
  pose proof Hok as (_ & _ & _ & Hlo & _). pose proof (scan_test_room s (last_end lo l1) (next_start l2 hi) Hok (sc_request _ _ Hs) ltac:(lia) ltac:(lia)) as Ht.
  destruct (scan_test s (last_end lo l1) (next_start l2 hi)).
  - right. split; [done|]. split; [done|]. by apply Ht.
  - left. split; [done|]. split; [done|]. by rewrite <- Ht.
Qed.
End Scanning.

(** ** The loops over the objects *)

Definition space (s : ev) (o : positive) : node_id := match bos s !! o with Some e => default head_node (gtt_space e) | None => head_node end.
Definition spaces (s : ev) (l : list positive) : list node_id := space s <$> l.
Definition pinned (s : ev) (o : positive) : bool := match bos s !! o with Some e => z2b (pin_count e) | None => true end.

(** The blocks that are not among [ns]. *)
Definition without (ns : list node_id) (bl : list block) : list block := filter (λ b, b_id b ∉ ns) bl.

Lemma without_ext ns ns' bl : (∀ b, b ∈ bl → b_id b ∉ ns ↔ b_id b ∉ ns') → without ns bl = without ns' bl.
Proof.
  intros H. unfold without. induction bl as [|b bl IH]; [done|]. rewrite !filter_cons, IH by set_solver. pose proof (H b ltac:(set_solver)).
  repeat case_decide; tauto.
Qed.

Lemma without_cons n ns l1 b l2 : NoDup (head_node :: ids (l1 ++ b :: l2)) → n = b_id b → without (n :: ns) (l1 ++ b :: l2) = without ns (l1 ++ l2).
Proof.
  intros Hnd ->. assert (∀ x, x ∈ l1 ++ l2 → b_id x ≠ b_id b) as Hne.
  { intros x Hx Heq. rewrite ids_app in Hnd. cbn in Hnd. rewrite app_comm_cons, <- Permutation_middle in Hnd. apply NoDup_cons in Hnd as [Hni _]. apply Hni.
    rewrite <- Heq. apply elem_of_app in Hx as [Hx|Hx]; apply elem_of_cons; right; apply elem_of_app; [left|right]; by apply list_elem_of_fmap_2. }
  trans (without (b_id b :: ns) (l1 ++ l2)).
  - unfold without. by rewrite !filter_app, filter_cons_False by set_solver.
  - apply without_ext. intros x Hx. rewrite not_elem_of_cons. naive_solver.
Qed.

Lemma without_nil bl : without [] bl = bl.
Proof. unfold without. apply filter_all, Forall_forall. intros. apply not_elem_of_nil. Qed.

Lemma without_app n1 n2 bl : without (n1 ++ n2) bl = without n2 (without n1 bl).
Proof. unfold without. rewrite list_filter_filter. apply list_filter_iff. intros b. rewrite elem_of_app. tauto. Qed.

Lemma elem_of_without b ns bl : b ∈ without ns bl ↔ b_id b ∉ ns ∧ b ∈ bl.
Proof. unfold without. by rewrite list_elem_of_filter. Qed.

Section Loops.
Context `{CA : ColorAdjust} (wait : positive → Z).
Context (lo hi size al end_ : Z).

(** Every object of the list has a block of its own. *)
Record placed_objs (s : ev) (objs : list positive) (bl : list block) : Prop := {
  po_nodup : NoDup objs;
  po_has o : o ∈ objs → ∃ e, bos s !! o = Some e ∧ gtt_space e = Some (space s o);
  po_in o : o ∈ objs → pinned s o = false → space s o ∈ ids bl;
  po_own o o' : o ∈ objs → o' ∈ objs → space s o = space s o' → o = o';
}.

Definition misses (s : ev) (m : drm_mm) (bl : list block) (ns : list node_id) : Prop :=
  scan_hit m = scan_hit (e_mm s) ∧ (¬ free_space lo bl hi size al 0 end_ → ¬ free_space lo (without ns bl) hi size al 0 end_).
Definition hits (m : drm_mm) (bl : list block) : Prop :=
  ∃ l1 l2, bl = l1 ++ l2 ∧ scan_hit m = (last_end lo l1, next_start l2 hi) ∧ room size al end_ (last_end lo l1) (next_start l2 hi).

Lemma on_mm_run {X} (f : M drm_mm X) s x m : f (e_mm s) = Some (x, m) → on_mm f s = Some (x, set_mm m s).
Proof. unfold on_mm. by intros ->. Qed.

Lemma get_bo_run s o e : bos s !! o = Some e → get_bo o s = Some (e, s).
Proof. unfold get_bo, reads. by intros ->. Qed.

Lemma block_of_run s o e n : bos s !! o = Some e → gtt_space e = Some n → block_of o s = Some (n, s).
Proof. intros He Hn. unfold block_of. mrun (get_bo_run s o e He). unfold reads. by rewrite Hn. Qed.

(** The objects [taken] are on the scan, the last one first. *)
Lemma scan_list_run objs : sizes_ok lo hi size al end_ → ∀ s bl unwind, scanning lo hi size al end_ (e_mm s) bl → placed_objs s objs bl →
  ∃ hit taken rs m, scan_list objs unwind s = Some ((hit, rev taken ++ unwind), set_mm m s) ∧
    scan_add_all (spaces s taken) (e_mm s) = Some (rs, m) ∧ taken `sublist_of` objs ∧ Forall (λ o, pinned s o = false) taken ∧
    scanning lo hi size al end_ m (without (spaces s taken) bl) ∧
    if hit : bool then hits m (without (spaces s taken) bl)
    else (∀ o, o ∈ objs → pinned s o = false → o ∈ taken) ∧ misses s m bl (spaces s taken).
Proof.
  intros Hok. induction objs as [|o objs IH]; intros s bl unwind Hs Hpo.
  { exists false, [], [], (e_mm s). cbn. unfold misses. rewrite without_nil. split_and!; try done. by destruct s. }
  destruct Hpo as [Hnd Hhas Hin Hown]. apply NoDup_cons in Hnd as [Hno Hnd]. destruct (Hhas o ltac:(set_solver)) as (e & He & Hn).
  cbn [scan_list]. unfold mark_free. rewrite M_bind_assoc. mrun (get_bo_run s o e He). assert (pinned s o = z2b (pin_count e)) as Hpin by (unfold pinned; by rewrite He).
  destruct (z2b (pin_count e)) eqn:Hz.
  - rewrite ret_bind. cbn [fst snd]. destruct (IH s bl unwind Hs) as (hit & taken & rs & m & H1 & H2 & H3 & H4 & H5 & H6).
    { split; [done|..]; intros; [apply Hhas|apply Hin|apply Hown]; set_solver. }
    exists hit, taken, rs, m. split; [done|]. split; [done|]. split; [by constructor|]. split; [done|]. split; [done|]. destruct hit; [done|].
    destruct H6 as (H6 & ?). split; [|done]. intros o' [->|Ho]%elem_of_cons Hp; [congruence|by apply H6].
  - destruct (ids_elem _ _ (Hin o ltac:(set_solver) Hpin)) as (l1 & b & l2 & -> & Hb). rewrite M_bind_assoc. mrun (block_of_run s o e _ He Hn). rewrite M_bind_assoc.
    destruct (scan_step lo hi size al end_ (e_mm s) l1 b l2 Hok Hs) as (z & m1 & Hrun & Hs1 & Hcase). rewrite Hb in Hrun. mrun (on_mm_run _ s z m1 Hrun). rewrite ret_bind.
    pose proof (sc_nodup _ _ _ _ _ _ _ Hs) as Hndb. cbn [fst snd]. destruct Hcase as [(-> & Hh & Hnr)|(-> & Hh & Hr)].
    + cbn [z2b Z.eqb negb]. destruct (IH (set_mm m1 s) (l1 ++ l2) (o :: unwind) Hs1) as (hit & taken & rs & m & H1 & H2 & H3 & H4 & H5 & H6).
      { split; [done|..]; intros; [apply Hhas; set_solver| |apply Hown; [set_solver..|done]].
        assert (space s o0 ∈ ids (l1 ++ b :: l2)) as Hi by (apply Hin; [set_solver|done]).
        assert (space s o0 ≠ b_id b) as Hne by (intros Heq; rewrite Hb in Heq; apply Hown in Heq; [by subst|set_solver..]).
        revert Hi. rewrite !ids_app. cbn. change (space (set_mm m1 s) o0) with (space s o0). rewrite !elem_of_app, elem_of_cons. naive_solver. }
      change (spaces (set_mm m1 s) taken) with (spaces s taken) in *. exists hit, (o :: taken), (0 :: rs), m.
      split; [rewrite H1; cbn [rev]; by rewrite <- app_assoc|]. split; [cbn; mrun Hrun; by mrun H2|]. split; [by apply sublist_skip|]. split; [by constructor|].
      cbn [spaces fmap list_fmap]. rewrite (without_cons (space s o)) by done. split; [done|]. destruct hit; [done|]. destruct H6 as (H6 & H7 & H8).
      split; [intros o' [->|Ho]%elem_of_cons Hp; [set_solver|apply elem_of_cons; right; by apply H6]|]. unfold misses. rewrite (without_cons (space s o)) by done.
      split; [by rewrite H7|]. intros Hnf. apply H8. intros Hf. apply Hnr. eapply room_remove; [exact Hndb|apply (sc_spaced _ _ _ _ _ _ _ Hs)|done..].
    + cbn [z2b Z.eqb negb]. exists true, [o], [1], m1. split; [done|]. split; [cbn; by mrun Hrun|]. split; [by apply sublist_skip, sublist_nil_l|]. split; [by constructor|].
      cbn [spaces fmap list_fmap]. rewrite (without_cons (space s o)), without_nil by done. split; [done|]. by exists l1, l2.
Qed.
End Loops.

(** ** What the scan marks *)

Section Marks.
Context (lo hi : Z).
Implicit Types (bl : list block).

Lemma sublist_ids ns bl : ns `sublist_of` ids bl → ∃ l, ns = ids l ∧ l `sublist_of` bl.
Proof.
  revert ns. induction bl as [|b bl IH]; intros ns; cbn.
  - intros ->%sublist_nil_r. by exists [].
  - rewrite sublist_cons_r. intros [(l & -> & Hl)%IH|(ns' & -> & (l & -> & Hl)%IH)].
    + exists l. split; [done|]. by apply sublist_cons.
    + exists (b :: l). split; [done|]. by apply sublist_skip.
Qed.

Lemma spaced_sublist l bl : l `sublist_of` bl → ∀ e, spaced e bl hi → spaced e l hi.
Proof.
  induction 1 as [|b l bl Hl IH|b l bl Hl IH]; intros e; cbn; [done| |].
  - intros (? & ? & ?). eauto.
  - intros H. apply IH. by apply (spaced_remove e [] b bl hi).
Qed.

Lemma spaced_size e bl b : spaced e bl hi → b ∈ bl → 0 < b_size b.
Proof. intros Hs (l1 & l2 & ->)%list_elem_of_split. by apply spaced_remove in Hs as (_ & _ & ? & _). Qed.

(** The comparison with the hole between [l1] and [l2] marks exactly the blocks inside it. *)
Lemma mark_spec bl l b k l1 l2 : spaced lo bl hi → l ++ b :: k `sublist_of` bl → (∀ x, x ∈ l1 ++ l2 → x ∈ l ++ k) →
  let gs := last_end lo l1 in let ge := next_start l2 hi in
  if (gs <? next_start k hi) && (b_start b <? ge) then gs <= b_start b ∧ b_end b <= ge else b_end b <= gs ∨ ge <= b_start b.
Proof.
  intros Hbl Hsub Hin gs ge. pose proof (spaced_sublist _ _ Hsub lo Hbl) as Hs. pose proof (spaced_remove _ _ _ _ _ Hs) as (_ & H1 & H2 & H3).
  pose proof Hs as Hs2. apply spaced_app in Hs2 as [Hl Hk]. cbn in Hk. destruct Hk as (_ & _ & Hk). apply spaced_le in Hl, Hk. cbn in Hl.
  assert (∀ x, x ∈ l → b_end x <= b_start b) as Hbefore by (intros x Hx; pose proof (spaced_before _ _ _ _ _ Hs Hx); lia).
  assert (∀ x, x ∈ k → next_start k hi <= b_start x) as Hafter.
  { intros x Hx. rewrite cons_middle, app_assoc in Hs. by apply (spaced_after _ _ _ _ _ Hs). }
  assert (∀ x, x ∈ l ++ k → 0 < b_size x) as Hsize by (intros x Hx; apply (spaced_size _ _ _ Hs); set_solver).
  destruct (Z.ltb_spec gs (next_start k hi)) as [Ha|Ha]; [|cbn; lia]. destruct (Z.ltb_spec (b_start b) ge) as [Hb|Hb]; cbn; [|lia]. split.
  - subst gs. destruct l1 as [|x l1 _] using rev_ind; [cbn in *; lia|]. rewrite last_end_snoc in *.
    assert (x ∈ l ++ k) as Hx by (apply Hin; set_solver). specialize (Hsize x Hx). unfold b_end in *. apply elem_of_app in Hx as [Hx|Hx]; [specialize (Hbefore x Hx)|specialize (Hafter x Hx)]; lia.
  - subst ge. destruct l2 as [|x l2]; cbn in *; [lia|].
    assert (x ∈ l ++ k) as Hx by (apply Hin; set_solver). specialize (Hsize x Hx). unfold b_end in *. apply elem_of_app in Hx as [Hx|Hx]; [specialize (Hbefore x Hx)|specialize (Hafter x Hx)]; lia.
Qed.

(** Once no block is left inside a hole, it is part of a hole of the list. *)
Lemma hole_cleared bl : ∀ e gs ge, spaced e bl hi → e <= gs → ge <= hi → (∀ b, b ∈ bl → b_end b <= gs ∨ ge <= b_start b) →
  ∃ l1 l2, bl = l1 ++ l2 ∧ last_end e l1 <= gs ∧ ge <= next_start l2 hi.
Proof.
  induction bl as [|b bl IH]; intros e gs ge Hs He Hg Hb; [by exists [], []|]. cbn in Hs. destruct Hs as (H1 & H2 & H3).
  destruct (decide (b_end b <= gs)) as [Hle|Hgt].
  - destruct (IH (b_end b) gs ge H3 Hle Hg) as (l1 & l2 & -> & ? & ?); [intros; apply Hb; set_solver|]. by exists (b :: l1), l2.
  - exists [], (b :: bl). cbn. destruct (Hb b ltac:(set_solver)); [lia|]. split_and!; [done|lia|lia].
Qed.

Lemma free_space_cleared bl size al end_ gs ge : NoDup (head_node :: ids bl) → spaced lo bl hi → lo <= gs → ge <= hi → room size al end_ gs ge →
  (∀ b, b ∈ bl → b_end b <= gs ∨ ge <= b_start b) → free_space lo bl hi size al 0 end_.
Proof.
  intros Hnd Hs H1 H2 (st & Hst) Hb. destruct (hole_cleared bl lo gs ge Hs H1 H2 Hb) as (l1 & l2 & -> & ? & ?).
  apply free_space_room; [done|]. exists l1, l2. split; [done|]. exists st. lia || (split_and!; try tauto; lia).
Qed.
End Marks.

(** ** Taking the scan back *)

Section Unwind.
Context `{CA : ColorAdjust}.

(** The objects that are marked. *)
Fixpoint marked (objs : list positive) (rs : list Z) : list positive :=
  match objs, rs with
  | o :: objs, r :: rs => if z2b r then o :: marked objs rs else marked objs rs
  | _, _ => []
  end.

Definition add_refs (k : Z) (e : ebo) : ebo := mk_ebo (gtt_space e) (pin_count e) (refcount e + k).
Definition ref_all (objs : list positive) (b : gmap positive ebo) : gmap positive ebo := foldr (λ o, alter (add_refs 1) o) b objs.

Lemma alter_swap (f : ebo → ebo) x o (b : gmap positive ebo) : alter f x (alter f o b) = alter f o (alter f x b).
Proof.
  destruct (decide (x = o)) as [->|Hne]; [done|]. apply map_eq. intros i. destruct (decide (i = x)) as [->|H1].
  - by rewrite lookup_alter_eq, !lookup_alter_ne, lookup_alter_eq by done.
  - rewrite lookup_alter_ne by done. destruct (decide (i = o)) as [->|H2]; [by rewrite !lookup_alter_eq, lookup_alter_ne|by rewrite !lookup_alter_ne].
Qed.

Lemma ref_all_alter l o b : alter (add_refs 1) o (ref_all l b) = ref_all l (alter (add_refs 1) o b).
Proof.
  induction l as [|x l IH]; [done|]. cbn. rewrite alter_swap. f_equal. exact IH.
Qed.

Lemma reference_run s o e : bos s !! o = Some e → drm_gem_object_reference o s = Some (tt, set_bos (alter (add_refs 1) o (bos s)) s).
Proof.
  intros He. unfold drm_gem_object_reference. mrun (get_bo_run s o e He). unfold put_bo, modify. do 3 f_equal.
  apply map_eq. intros x. destruct (decide (x = o)) as [->|Hne]; [by rewrite lookup_insert_eq, lookup_alter_eq, He|by rewrite lookup_insert_ne, lookup_alter_ne].
Qed.

Definition has_space (b : gmap positive ebo) (f : positive → node_id) (o : positive) : Prop := ∃ e, b !! o = Some e ∧ gtt_space e = Some (f o).

Lemma has_space_alter b f o x : has_space b f o → has_space (alter (add_refs 1) x b) f o.
Proof.
  intros (e & He & Hs). destruct (decide (o = x)) as [->|Hne]; [exists (add_refs 1 e); by rewrite lookup_alter_eq, He|exists e; by rewrite lookup_alter_ne].
Qed.

Lemma take_evicted_run f unwind : ∀ s eviction rs m, (∀ o, o ∈ unwind → has_space (bos s) f o) → scan_remove_all (f <$> unwind) (e_mm s) = Some (rs, m) →
  take_evicted unwind eviction s = Some (rev (marked unwind rs) ++ eviction, set_mm m (set_bos (ref_all (marked unwind rs) (bos s)) s)).
Proof.
  induction unwind as [|o unwind IH]; intros s eviction rs m Hsp Hrun; cbn in Hrun.
  - unfold mret, M_ret in Hrun. simplify_eq. by destruct s.
  - apply M_bind_inv in Hrun as (r & m1 & Hr & Hrun). apply M_bind_inv in Hrun as (rs1 & m2 & Hrs & Hrun). unfold mret, M_ret in Hrun. simplify_eq.
    destruct (Hsp o ltac:(set_solver)) as (e & He & Hn). cbn [take_evicted marked]. mrun (block_of_run s o e _ He Hn). mrun (on_mm_run _ s r m1 Hr).
    destruct (z2b r).
    + mrun (reference_run (set_mm m1 s) o e He). rewrite (IH (set_bos (alter (add_refs 1) o (bos s)) (set_mm m1 s)) _ rs1 m); [|intros x Hx; apply has_space_alter, Hsp; set_solver|done].
      cbn [rev ref_all foldr]. rewrite <- app_assoc. cbn. fold (ref_all (marked unwind rs1) (bos s)). by rewrite ref_all_alter.
    + rewrite (IH (set_mm m1 s) _ rs1 m); [done|intros x Hx; apply Hsp; set_solver|done].
Qed.

Lemma clean_up_run f unwind : ∀ s rs m, (∀ o, o ∈ unwind → has_space (bos s) f o) → scan_remove_all (f <$> unwind) (e_mm s) = Some (rs, m) → Forall (λ r, r = 0) rs →
  clean_up unwind s = Some (tt, set_mm m s).
Proof.
  induction unwind as [|o unwind IH]; intros s rs m Hsp Hrun Hz; cbn in Hrun.
  - unfold mret, M_ret in Hrun. simplify_eq. by destruct s.
  - apply M_bind_inv in Hrun as (r & m1 & Hr & Hrun). apply M_bind_inv in Hrun as (rs1 & m2 & Hrs & Hrun). unfold mret, M_ret in Hrun. simplify_eq.
    apply Forall_cons in Hz as [-> Hz]. destruct (Hsp o ltac:(set_solver)) as (e & He & Hn). cbn [clean_up]. mrun (block_of_run s o e _ He Hn). mrun (on_mm_run _ s 0 m1 Hr).
    mrun (BUG_ON_false (set_mm m1 s)). rewrite (IH (set_mm m1 s) rs1 m); [done|intros x Hx; apply Hsp; set_solver|done|done].
Qed.
End Unwind.

(** ** Unbinding *)

Definition listed (s : ev) : list positive := inactive_list s ++ active_list s.
Definition counts (s : ev) (o : positive) : option (Z * Z) := (λ e, (pin_count e, refcount e)) <$> bos s !! o.
Definition drop_objs (gone l : list positive) : list positive := filter (λ o, o ∉ gone) l.

Lemma drop_nil l : drop_objs [] l = l.
Proof. unfold drop_objs. apply filter_all, Forall_forall. intros. apply not_elem_of_nil. Qed.

Lemma drop_cons o gone l : drop_objs gone (remove_elem o l) = drop_objs (o :: gone) l.
Proof. unfold drop_objs, remove_elem. rewrite list_filter_filter. apply list_filter_iff. intros x. rewrite not_elem_of_cons. tauto. Qed.

Section Unbind.
Context `{CA : ColorAdjust} (wait : positive → Z).
Context (lo hi : Z).

(** The manager holds the blocks [bl]; every object on the two lists has one of its own
    and is alive. *)
Record ev_inv (s : ev) (bl : list block) (hs us : list node_id) : Prop := {
  ei_rep : mm_rep (e_mm s) lo hi bl hs us;
  ei_nocb : has_color_adjust (e_mm s) = false;
  ei_nodup : NoDup (listed s);
  ei_has o : o ∈ listed s → ∃ e, bos s !! o = Some e ∧ gtt_space e = Some (space s o) ∧ 0 < refcount e;
  ei_in o : o ∈ listed s → space s o ∈ ids bl;
  ei_own o o' : o ∈ listed s → o' ∈ listed s → space s o = space s o' → o = o';
}.

Lemma ev_inv_space s s' bl hs us : ev_inv s bl hs us → mm_rep (e_mm s') lo hi bl hs us → has_color_adjust (e_mm s') = false → listed s' = listed s →
  (∀ o, o ∈ listed s → gtt_space <$> bos s' !! o = gtt_space <$> bos s !! o) → (∀ o e, o ∈ listed s → bos s' !! o = Some e → 0 < refcount e) → ev_inv s' bl hs us.
Proof.
  intros [Hr Hn Hnd Hhas Hin Hown] Hr' Hn' Hl Hsp Hrefs.
  assert (∀ o, o ∈ listed s → space s' o = space s o) as Hs.
  { intros o Ho. specialize (Hsp o Ho). unfold space. destruct (bos s' !! o), (bos s !! o); cbn in Hsp; congruence. }
  split; rewrite ?Hl; try done.
  - intros o Ho. destruct (Hhas o Ho) as (e & He & Hg & _). pose proof (Hsp o Ho) as Hsp'. rewrite He in Hsp'. destruct (bos s' !! o) as [e'|] eqn:He'; cbn in Hsp'; [|done].
    exists e'. split; [done|]. split; [rewrite Hs by done; congruence|by eapply Hrefs].
  - intros o Ho. rewrite Hs by done. by apply Hin.
  - intros o o' Ho Ho'. rewrite !Hs by done. by apply Hown.
Qed.

(** Unbinding an object that is not pinned waits, and gives its block back unless the wait failed. *)
Lemma unbind_run s bl hs us o : ev_inv s bl hs us → o ∈ listed s → pinned s o = false →
  ∃ s' gone hs' us', i915_gem_object_unbind wait o s = Some (wait o, s') ∧ gone = (if z2b (wait o) then [] else [o]) ∧
    ev_inv s' (without (spaces s gone) bl) hs' us' ∧ (∀ x, counts s' x = counts s x) ∧ (∀ x, x ≠ o → bos s' !! x = bos s !! x) ∧
    inactive_list s' = drop_objs gone (inactive_list s) ∧ active_list s' = drop_objs gone (active_list s) ∧
    (∀ n, free_node (e_mm s) bl us n → free_node (e_mm s') (without (spaces s gone) bl) us' n).
Proof.
  intros Hinv Ho Hpin. destruct (ei_has _ _ _ _ Hinv o Ho) as (e & He & Hg & Href). unfold pinned in Hpin. rewrite He in Hpin.
  unfold i915_gem_object_unbind. mrun (get_bo_run s o e He). rewrite Hg, Hpin. destruct (z2b (wait o)) eqn:Hw.
  { exists s, [], hs, us. cbn. rewrite without_nil, !drop_nil. done. }
  assert (wait o = 0) as -> by (unfold z2b in Hw; apply negb_false_iff, Z.eqb_eq in Hw; done).
  rewrite modify_bind. destruct (ids_elem _ _ (ei_in _ _ _ _ Hinv o Ho)) as (l1 & b & l2 & -> & Hb). pose proof (ei_rep _ _ _ _ Hinv) as Hr.
  destruct (put_block_run _ _ _ _ _ _ _ _ Hr) as (m & hs' & us' & Hrun & Hr' & Hca & Hfree). rewrite Hb in Hrun.
  set (s1 := set_mm_lists _ _ s). mrun (on_mm_run _ s1 tt m Hrun). unfold put_bo. rewrite modify_bind.
  destruct (rep_lists _ _ _ _ _ _ Hr) as (_ & _ & Hnd). set (s2 := set_bos _ _).
  assert (∀ x, x ≠ o → bos s2 !! x = bos s !! x) as Hbos by (intros x Hx; cbn; by rewrite lookup_insert_ne).
  assert (∀ x, x ≠ o → space s2 x = space s x) as Hsp by (intros x Hx; unfold space; by rewrite Hbos).
  assert (∀ x, x ∈ listed s2 ↔ x ≠ o ∧ x ∈ listed s) as Hl.
  { intros x. unfold listed. cbn. unfold remove_elem. rewrite !elem_of_app, !list_elem_of_filter. tauto. }
  exists s2, [o], hs', us'. split; [done|]. split; [done|]. cbn [spaces fmap list_fmap]. rewrite (without_cons (space s o)), without_nil by done. split_and!.
  - destruct Hinv as [_ Hn Hndl Hhas Hin Hown]. split; [done|by rewrite <- Hn|..].
    + unfold listed. cbn. unfold remove_elem. rewrite <- filter_app. by apply NoDup_filter.
    + intros x [Hx Hx']%Hl. rewrite Hbos, Hsp by done. by apply Hhas.
    + intros x [Hx Hx']%Hl. rewrite Hsp by done. specialize (Hin x Hx'). assert (space s x ≠ b_id b) as Hne by (rewrite Hb; intros Heq; by apply Hx, Hown).
      revert Hin. rewrite !ids_app. cbn. rewrite !elem_of_app, elem_of_cons. naive_solver.
    + intros x y [Hx Hx']%Hl [Hy Hy']%Hl. rewrite !Hsp by done. by apply Hown.
  - intros x. unfold counts. destruct (decide (x = o)) as [->|Hne]; [cbn; by rewrite lookup_insert_eq, He|by rewrite Hbos].
  - done.
  - cbn. by rewrite <- drop_cons, drop_nil.
  - cbn. by rewrite <- drop_cons, drop_nil.
  - done.
Qed.
End Unbind.

Lemma elem_of_sublist {X} (x : X) l k : x ∈ l → l `sublist_of` k → x ∈ k.
Proof. intros Hx Hs. apply (elem_of_submseteq _ k) in Hx; [done|]. by apply sublist_submseteq. Qed.

Section UnbindAll.
Context `{CA : ColorAdjust} (wait : positive → Z).
Context (lo hi : Z).
Abbreviation inv := (ev_inv lo hi).

Lemma drop_app g1 g2 l : drop_objs (g1 ++ g2) l = drop_objs g2 (drop_objs g1 l).
Proof. unfold drop_objs. rewrite list_filter_filter. apply list_filter_iff. intros x. rewrite elem_of_app. tauto. Qed.

Lemma unreference_run s o e : bos s !! o = Some e → 2 <= refcount e → drm_gem_object_unreference o s = Some (tt, set_bos (alter (add_refs (-1)) o (bos s)) s).
Proof.
  intros He Hr. unfold drm_gem_object_unreference. mrun (get_bo_run s o e He). rewrite (proj2 (Z.eqb_neq _ _)) by lia. unfold put_bo, modify. do 3 f_equal.
  apply map_eq. intros x. destruct (decide (x = o)) as [->|Hne]; [by rewrite lookup_insert_eq, lookup_alter_eq, He|by rewrite lookup_insert_ne, lookup_alter_ne].
Qed.

(** One round of the last loop. *)
Lemma unbind_round s bl hs us o ret e : inv s bl hs us → o ∈ listed s → pinned s o = false → bos s !! o = Some e → 2 <= refcount e →
  let ret1 := if ret =? 0 then wait o else ret in
  let gone := if (ret =? 0) && negb (z2b (wait o)) then [o] else [] in
  ∃ s' hs' us', (r ← (if ret =? 0 then i915_gem_object_unbind wait o else mret ret); drm_gem_object_unreference o;; mret r) s = Some (ret1, s') ∧
    inv s' (without (spaces s gone) bl) hs' us' ∧ (∀ x, x ≠ o → bos s' !! x = bos s !! x) ∧ counts s' o = Some (pin_count e, refcount e - 1) ∧
    inactive_list s' = drop_objs gone (inactive_list s) ∧ active_list s' = drop_objs gone (active_list s) ∧
    (∀ n, free_node (e_mm s) bl us n → free_node (e_mm s') (without (spaces s gone) bl) us' n).
Proof.
  intros Hinv Ho Hpin He Hrefs ret1 gone.
  assert (∃ s1 hs' us', (if ret =? 0 then i915_gem_object_unbind wait o else mret ret) s = Some (ret1, s1) ∧ inv s1 (without (spaces s gone) bl) hs' us' ∧
    counts s1 o = counts s o ∧ (∀ x, x ≠ o → bos s1 !! x = bos s !! x) ∧ inactive_list s1 = drop_objs gone (inactive_list s) ∧ active_list s1 = drop_objs gone (active_list s) ∧
    (∀ n, free_node (e_mm s) bl us n → free_node (e_mm s1) (without (spaces s gone) bl) us' n)) as (s1 & hs' & us' & Hrun & Hinv1 & Hcnt & Hbos & Hi & Ha & Hfree).
  { unfold ret1, gone. destruct (ret =? 0); cbn [andb].
    - destruct (unbind_run wait lo hi s bl hs us o Hinv Ho Hpin) as (s1 & g & hs' & us' & Hrun & -> & H1 & H2 & H3 & H4 & H5 & H6).
      exists s1, hs', us'. split; [done|]. destruct (z2b (wait o)); done.
    - exists s, hs, us. cbn. rewrite without_nil, !drop_nil. done. }
  unfold counts in Hcnt. rewrite He in Hcnt. destruct (bos s1 !! o) as [e1|] eqn:He1; [|done]. injection Hcnt as Hp1 Hr1.
  mrun Hrun. mrun (unreference_run s1 o e1 He1 ltac:(lia)). eexists _, hs', us'. split; [done|]. split_and!; [|..|done|done|done].
  - eapply ev_inv_space; [exact Hinv1|apply Hinv1|apply Hinv1|done|..]; cbn.
    + intros x _. destruct (decide (x = o)) as [->|Hx]; [by rewrite lookup_alter_eq, He1|by rewrite lookup_alter_ne].
    + intros x e' Hx He'. destruct (decide (x = o)) as [->|Hne].
      * rewrite lookup_alter_eq, He1 in He'. cbn in He'. simplify_eq. cbn. lia.
      * rewrite lookup_alter_ne in He' by done. destruct (ei_has _ _ _ _ _ _ Hinv1 x Hx) as (e2 & ? & _ & ?). congruence.
  - intros x Hx. cbn. rewrite lookup_alter_ne by done. by apply Hbos.
  - unfold counts. cbn. rewrite lookup_alter_eq, He1. cbn. by rewrite Hp1, Hr1.
Qed.

Lemma unbind_all_run fl : NoDup fl → ∀ s bl hs us ret, inv s bl hs us →
  (∀ o, o ∈ fl → o ∈ listed s ∧ pinned s o = false ∧ ∃ e, bos s !! o = Some e ∧ 2 <= refcount e) →
  ∃ ret' s' gone hs' us', unbind_all wait fl ret s = Some (ret', s') ∧ gone `sublist_of` fl ∧ inv s' (without (spaces s gone) bl) hs' us' ∧
    (ret' = 0 → ret = 0 ∧ gone = fl) ∧ (ret' = ret ∨ ∃ o, o ∈ fl ∧ ret' = wait o) ∧
    (∀ x, counts s' x = (λ c, (c.1, c.2 - if decide (x ∈ fl) then 1 else 0)) <$> counts s x) ∧
    inactive_list s' = drop_objs gone (inactive_list s) ∧ active_list s' = drop_objs gone (active_list s) ∧
    (∀ n, free_node (e_mm s) bl us n → free_node (e_mm s') (without (spaces s gone) bl) us' n).
Proof.
  induction fl as [|o fl IH]; intros Hnd s bl hs us ret Hinv Hfl.
  { exists ret, s, [], hs, us. cbn. rewrite without_nil, !drop_nil. split_and!; try done; [by left|]. intros x. rewrite (decide_False (P := x ∈ [])) by apply not_elem_of_nil. destruct (counts s x) as [[]|]; [|done]. cbn. by rewrite Z.sub_0_r. }
  apply NoDup_cons in Hnd as [Hno Hnd]. destruct (Hfl o ltac:(set_solver)) as (Ho & Hpin & e & He & Hrefs).
  destruct (unbind_round s bl hs us o ret e Hinv Ho Hpin He Hrefs) as (s1 & hs1 & us1 & Hrun & Hinv1 & Hbos & Hcnt & Hi1 & Ha1 & Hf1).
  set (ret1 := if ret =? 0 then wait o else ret) in *. set (g := if (ret =? 0) && negb (z2b (wait o)) then [o] else []) in *.
  assert (∀ x, x ∈ g → x = o) as Hg by (intros x; unfold g; destruct (_ && _); set_solver).
  assert (∀ x, x ∈ fl → x ≠ o) as Hne by (intros x Hx ->; done).
  destruct (IH Hnd s1 _ hs1 us1 ret1 Hinv1) as (ret' & s' & gone & hs' & us' & Hrun' & Hsub & Hinv' & Hret & Hwhy & Hcnt' & Hi' & Ha' & Hf').
  { intros x Hx. destruct (Hfl x ltac:(set_solver)) as (H1 & H2 & H3). unfold pinned. rewrite Hbos by auto. split_and!; [|done|done].
    revert H1. unfold listed. rewrite Hi1, Ha1. unfold drop_objs. rewrite !elem_of_app, !list_elem_of_filter. specialize (Hne x Hx). naive_solver. }
  assert (spaces s1 gone = spaces s gone) as Hsp.
  { unfold spaces. apply list_fmap_ext. intros i x Hx%list_elem_of_lookup_2. unfold space. rewrite Hbos; [done|]. apply Hne. by eapply elem_of_sublist. }
  rewrite Hsp in *. exists ret', s', (g ++ gone), hs', us'.
  assert (without (spaces s (g ++ gone)) bl = without (spaces s gone) (without (spaces s g) bl)) as Hw by (unfold spaces; by rewrite fmap_app, without_app).
  rewrite Hw, !drop_app, <- Hi1, <- Ha1. split_and!; try done.
  - cbn [unbind_all]. rewrite <- Hrun'. apply M_bind_inv in Hrun as (r & sa & H1 & H2). apply M_bind_inv in H2 as ([] & sb & H2 & H3). unfold mret, M_ret in H3. simplify_eq.
    mrun H1. by mrun H2.
  - unfold g. destruct (_ && _); cbn; [by apply sublist_skip|by apply sublist_cons].
  - intros H0. destruct (Hret H0) as [Hr1 ->]. unfold ret1, g in *. destruct (Z.eqb_spec ret 0) as [->|]; [|done]. rewrite Hr1. done.
  - destruct Hwhy as [->|(x & Hx & ->)]; [|right; exists x; set_solver]. unfold ret1. destruct (ret =? 0); [right; exists o; set_solver|by left].
  - intros x. rewrite Hcnt'. destruct (decide (x = o)) as [->|Hx].
    + rewrite Hcnt, (decide_False (P := o ∈ fl)), decide_True by set_solver. unfold counts. rewrite He. cbn. do 2 f_equal. lia.
    + unfold counts. rewrite Hbos by done. assert (x ∈ o :: fl ↔ x ∈ fl) as Hiff by set_solver. f_equal. repeat case_decide; tauto.
  - intros n Hn. by apply Hf', Hf1.
Qed.
End UnbindAll.

(** ** The whole *)

Section Whole.
Context `{CA : ColorAdjust} (wait : positive → Z).
Context (lo hi : Z).
Abbreviation inv := (ev_inv lo hi).

(** The objects that a scan looks at. *)
Definition candidates (nonblocking : bool) (s : ev) : list positive := inactive_list s ++ if nonblocking then [] else active_list s.
Definition evictable (nonblocking : bool) (s : ev) : list positive := filter (λ o, pinned s o = false) (candidates nonblocking s).

Lemma scan_list_app a b unwind s : scan_list (a ++ b) unwind s = (r ← scan_list a unwind; if r.1 : bool then mret r else scan_list b r.2) s.
Proof.
  revert unwind s. induction a as [|o a IH]; intros unwind s; [done|]. cbn [app scan_list]. rewrite M_bind_assoc. apply M_bind_ext. intros [[] u] s'; cbn; [done|apply IH].
Qed.

Lemma scan_loops nonblocking i a s : (r ← scan_list i []; if r.1 || nonblocking then mret r else scan_list a r.2) s = scan_list (i ++ if nonblocking then [] else a) [] s.
Proof.
  rewrite scan_list_app. apply M_bind_ext. intros [[] u] s'; cbn; [by destruct nonblocking|]. by destruct nonblocking.
Qed.

Lemma ref_all_lookup fl b o : NoDup fl → ref_all fl b !! o = (if decide (o ∈ fl) then add_refs 1 else id) <$> b !! o.
Proof.
  induction fl as [|x fl IH]; intros Hnd; cbn.
  - rewrite decide_False by apply not_elem_of_nil. by rewrite option_fmap_id.
  - apply NoDup_cons in Hnd as [Hx Hnd]. fold (ref_all fl b). destruct (decide (o = x)) as [->|Hne].
    + rewrite lookup_alter_eq, IH, decide_False, decide_True by (done || set_solver). by rewrite option_fmap_id.
    + rewrite lookup_alter_ne, IH by done. assert (o ∈ x :: fl ↔ o ∈ fl) as Hiff by set_solver. repeat case_decide; tauto.
Qed.

Lemma marked_spec (P : node_id → Z → Prop) (f : positive → node_id) objs : ∀ rs, NoDup objs → Forall2 P (f <$> objs) rs →
  marked objs rs `sublist_of` objs ∧ ∀ o, o ∈ objs → ∃ r, P (f o) r ∧ (o ∈ marked objs rs ↔ z2b r = true).
Proof.
  induction objs as [|x objs IH]; intros rs Hnd Hall; [split; [done|intros ? ?%not_elem_of_nil; done]|]. cbn in Hall. apply Forall2_cons_inv_l in Hall as (r & rs' & HP & Hall & ->).
  apply NoDup_cons in Hnd as [Hx Hnd]. destruct (IH rs' Hnd Hall) as [Hsub Hspec]. cbn [marked]. split; [destruct (z2b r); [by apply sublist_skip|by apply sublist_cons]|].
  assert (x ∉ marked objs rs') as Hni by (intros Hi; apply Hx; by eapply elem_of_sublist).
  intros o [->|Ho]%elem_of_cons; [exists r; split; [done|]; destruct (z2b r); set_solver|]. destruct (Hspec o Ho) as (r' & ? & ?). exists r'. split; [done|].
  assert (o ≠ x) by (by intros ->). destruct (z2b r); [rewrite elem_of_cons|]; tauto.
Qed.

(** The start of a scan. *)
Definition init_scan (mappable : bool) (mappable_end size al color : Z) : M drm_mm unit :=
  if mappable then drm_mm_init_scan_with_range size al color 0 mappable_end else drm_mm_init_scan size al color.

Lemma init_scan_run s bl hs us (mappable : bool) (mappable_end size al color end_ : Z) : inv s bl hs us → (if mappable then mappable_end = end_ else hi <= end_) →
  ∃ m, init_scan mappable mappable_end size al color (e_mm s) = Some (tt, m) ∧ mm_lists m = mm_lists (e_mm s) ∧ mm_nodes m = mm_nodes (e_mm s) ∧ num_unused m = num_unused (e_mm s) ∧
    scanned_blocks m = 0 ∧ scan_hit m = (0, 0) ∧ has_color_adjust m = false ∧ scanning lo hi size al end_ m bl.
Proof.
  intros Hinv Hend. pose proof (ei_rep _ _ _ _ _ _ Hinv) as Hr. pose proof (rep_layout _ _ _ _ _ _ Hr) as Hlay. destruct (rep_lists _ _ _ _ _ _ Hr) as (_ & _ & Hnd).
  assert (∃ m, init_scan mappable mappable_end size al color (e_mm s) = Some (tt, m) ∧ mm_lists m = mm_lists (e_mm s) ∧ mm_nodes m = mm_nodes (e_mm s) ∧ num_unused m = num_unused (e_mm s) ∧
    scanned_blocks m = 0 ∧ scan_hit m = (0, 0) ∧ has_color_adjust m = false ∧ request_is hi size al end_ m) as (m & H1 & H2 & H3 & H4 & H5 & H6 & H7 & H8).
  { unfold init_scan. destruct mappable; eexists; (split; [reflexivity|]); cbn; split_and!; try done; try apply Hinv; unfold request_is; cbn; [rewrite Hend|]; tauto. }
  exists m. split_and!; try done. split; try done.
  - split; [rewrite H2; apply Hr|]. intros x Hx. rewrite H3. by eapply layout_nodes.
  - by eapply layout_spaced.
  - destruct (rep_head _ _ _ _ _ _ Hr) as (hd & Hh & Hhi). exists (node_size hd). unfold pos_of. rewrite H3, Hh. cbn. rewrite Hhi. split; [done|].
    pose proof (gap_of_here head_node lo bl hi) as Hgap. destruct (rep_gap _ _ _ _ _ _ _ _ _ Hr Hgap) as (_ & _ & _ & _ & (nd & Hn & He & _) & _). simplify_eq. done.
  - intros b (l1 & l2 & ->)%list_elem_of_split. destruct (layout_node _ _ _ _ _ _ _ Hlay) as ((nd & Hn & Hst & Hsz & _) & _). unfold pos_of. rewrite H3, Hn. cbn. by rewrite Hst, Hsz.
  - intros b (l1 & l2 & ->)%list_elem_of_split. destruct (layout_node _ _ _ _ _ _ _ Hlay) as ((nd & Hn & _ & _ & _ & Hu) & _). exists nd. rewrite H3. split; [done|apply Hu].
Qed.
End Whole.

Section Outcome.
Context `{CA : ColorAdjust} (wait : positive → Z).
Context (lo hi size al end_ : Z).
Abbreviation inv := (ev_inv lo hi).

Lemma ids_inj bl b b' : NoDup (head_node :: ids bl) → b ∈ bl → b' ∈ bl → b_id b = b_id b' → b = b'.
Proof.
  intros [_ Hnd]%NoDup_cons Hb Hb' Heq. apply list_elem_of_lookup_1 in Hb as [i Hi], Hb' as [j Hj].
  assert (i = j) as ->; [|congruence]. eapply (NoDup_lookup (ids bl)); [done|..]; unfold ids; rewrite list_lookup_fmap; [by rewrite Hi|by rewrite Hj, Heq].
Qed.

Lemma pos_start m n x y : pos_of m n = Some (x, y) → start_of m n = Some x.
Proof. unfold pos_of, start_of. destruct (mm_nodes m !! n); cbn; congruence. Qed.

(** A block of the scan is marked exactly if it lies in the hole that was hit. *)
Lemma removed_marks m bl ns l1 l2 b r : scanning lo hi size al end_ m bl → b ∈ bl → without ns bl = l1 ++ l2 →
  removed_as m (ids bl) ns (last_end lo l1, next_start l2 hi) (b_id b) r →
  if z2b r then last_end lo l1 <= b_start b ∧ b_end b <= next_start l2 hi else b_end b <= last_end lo l1 ∨ next_start l2 hi <= b_start b.
Proof.
  intros Hs Hb Hw (k1 & k2 & a & e & Hsub & Hin & Ha & He & ->). pose proof (sc_nodup _ _ _ _ _ _ _ Hs) as Hnd.
  destruct (sublist_ids _ _ Hsub) as (l & Hids & Hl). symmetry in Hids. apply fmap_app_inv in Hids as (A & B' & -> & HB' & ->). destruct B' as [|b' B]; [done|].
  cbn in HB'. injection HB' as Hbb ->. assert (b' = b) as -> by (symmetry; eapply ids_inj; [done|done| |done]; eapply elem_of_sublist; [|exact Hl]; set_solver).
  assert (a = b_start b) as ->.
  { pose proof (pos_start _ _ _ _ (sc_blocks _ _ _ _ _ _ _ Hs b Hb)). congruence. }
  assert (e = next_start B hi) as ->.
  { destruct B as [|c B]; cbn in He.
    - destruct (sc_head _ _ _ _ _ _ _ Hs) as (sz & Hh & _). apply pos_start in Hh. cbn. congruence.
    - assert (c ∈ bl) as Hc by (eapply elem_of_sublist; [|exact Hl]; set_solver). pose proof (pos_start _ _ _ _ (sc_blocks _ _ _ _ _ _ _ Hs c Hc)). cbn. congruence. }
  assert (∀ x, x ∈ l1 ++ l2 → x ∈ A ++ B) as Hall.
  { intros x Hx. rewrite <- Hw, elem_of_without in Hx. destruct Hx as [Hxn Hx].
    assert (b_id x ∈ ids A ++ ids B) as Hi by (apply Hin; [by apply list_elem_of_fmap_2|done]). rewrite <- ids_app in Hi.
    apply list_elem_of_fmap in Hi as (y & Hy & Hy'). assert (x = y) as ->; [|done]. eapply ids_inj; [done|done| |done]. eapply elem_of_sublist; [|exact Hl]. set_solver. }
  pose proof (mark_spec lo hi bl A b B l1 l2 (sc_spaced _ _ _ _ _ _ _ Hs) Hl Hall) as Hmark. cbn [fst snd]. cbv zeta in Hmark.
  destruct ((last_end lo l1 <? next_start B hi) && (b_start b <? next_start l2 hi)); exact Hmark.
Qed.

(** A scan and its way back: what is on it, the marks, and the manager afterwards. *)
Lemma scan_pass_run s bl hs us nonblocking m0 : sizes_ok lo hi size al end_ → inv s bl hs us →
  mm_lists m0 = mm_lists (e_mm s) → mm_nodes m0 = mm_nodes (e_mm s) → num_unused m0 = num_unused (e_mm s) → scanned_blocks m0 = 0 → scan_hit m0 = (0, 0) → has_color_adjust m0 = false →
  scanning lo hi size al end_ m0 bl →
  ∃ hit taken m rs' m2, scan_list (candidates nonblocking s) [] (set_mm m0 s) = Some ((hit, rev taken), set_mm m s) ∧
    NoDup taken ∧ (∀ o, o ∈ taken → o ∈ candidates nonblocking s ∧ pinned s o = false) ∧
    scan_remove_all (spaces s (rev taken)) m = Some (rs', m2) ∧ mm_rep m2 lo hi bl hs us ∧ has_color_adjust m2 = false ∧ (∀ n, n ∉ ids bl → mm_nodes m2 !! n = mm_nodes (e_mm s) !! n) ∧
    Forall2 (removed_as m0 (ids bl) (spaces s taken) (scan_hit m)) (spaces s (rev taken)) rs' ∧
    if hit : bool then hits lo hi size al end_ m (without (spaces s taken) bl)
    else (∀ o, o ∈ candidates nonblocking s → pinned s o = false → o ∈ taken) ∧ scan_hit m = (0, 0) ∧ (¬ free_space lo bl hi size al 0 end_ → ¬ free_space lo (without (spaces s taken) bl) hi size al 0 end_).
Proof.
  intros Hok Hinv Hl Hn Hu Hsb Hh0 Hca Hs.
  assert (candidates nonblocking s `sublist_of` listed s) as Hsub.
  { unfold candidates, listed. apply sublist_app; [done|]. destruct nonblocking; [apply sublist_nil_l|done]. }
  assert (∀ o, o ∈ candidates nonblocking s → o ∈ listed s) as Hcl by (intros o Ho; by eapply elem_of_sublist).
  destruct (scan_list_run wait lo hi size al end_ (candidates nonblocking s) Hok (set_mm m0 s) bl [] Hs) as (hit & taken & rs & m & Hrun & Hadd & Htk & Hpin & Hs' & Hcase).
  { split; [by eapply sublist_NoDup; [apply Hinv|]|..].
    - intros o Ho. destruct (ei_has _ _ _ _ _ _ Hinv o (Hcl o Ho)) as (e & ? & ? & _). by exists e.
    - intros o Ho _. by apply (ei_in _ _ _ _ _ _ Hinv), Hcl.
    - intros o o' Ho Ho'. by apply (ei_own _ _ _ _ _ _ Hinv); apply Hcl. }
  change (spaces (set_mm m0 s) taken) with (spaces s taken) in *. rewrite app_nil_r in Hrun.
  assert (NoDup taken) as Hndt by (eapply sublist_NoDup; [|exact Htk]; eapply sublist_NoDup; [apply Hinv|done]).
  assert (∀ o, o ∈ taken → o ∈ candidates nonblocking s) as Htc by (intros o Ho; by eapply elem_of_sublist).
  destruct (scan_nested (spaces s taken) m0 (ids bl)) as (rs1 & m1 & rs' & m2 & Hadd' & Hrem & Hl2 & Hn2 & Hf2 & Hsb2 & Hsame & _ & Hflags).
  - apply Hs.
  - unfold spaces. apply NoDup_fmap_2_strong; [|done]. intros o o' Ho Ho'. by apply (ei_own _ _ _ _ _ _ Hinv); apply Hcl, Htc.
  - intros Hc. by rewrite Hca in Hc.
  - intros v (o & -> & Ho)%list_elem_of_fmap. assert (space s o ∈ ids bl) as Hi by (by apply (ei_in _ _ _ _ _ _ Hinv), Hcl, Htc). split; [done|].
    apply list_elem_of_fmap in Hi as (b & -> & Hb). by apply (sc_unscanned _ _ _ _ _ _ _ Hs).
  - by rewrite Hsb.
  - cbn [e_mm set_mm] in Hadd. rewrite Hadd' in Hadd. injection Hadd as -> ->. assert (rev (spaces s taken) = spaces s (rev taken)) as Hrev by (unfold spaces; symmetry; apply map_rev).
    rewrite Hrev in *. exists hit, taken, m, rs', m2. split_and!; try done.
    + intros o Ho. split; [by apply Htc|]. rewrite Forall_forall in Hpin. by apply Hpin.
    + destruct Hsame as (Hs1 & Hs2 & _). eapply (mm_rep_same (e_mm s)); [apply Hinv|congruence| |rewrite Hsb2, Hsb; symmetry; apply Hinv|congruence].
      intros x. by rewrite Hf2, Hn.
    + destruct Hsame as (_ & Hs2 & _). congruence.
    + intros x Hx. rewrite Hn2, Hn; [done|]. intros (o & -> & Ho)%list_elem_of_fmap. apply Hx. by apply (ei_in _ _ _ _ _ _ Hinv), Hcl, Htc.
    + destruct hit; [done|]. destruct Hcase as (Hc1 & Hc2 & Hc3). split_and!; [done|by rewrite Hc2|done].
Qed.
End Outcome.

Lemma elem_of_rev {A} (x : A) l : x ∈ rev l ↔ x ∈ l.
Proof. induction l as [|y l IH]; [done|]. cbn. rewrite elem_of_app, IH, list_elem_of_singleton, elem_of_cons. tauto. Qed.

Lemma NoDup_of_rev {A} (l : list A) : NoDup l → NoDup (rev l).
Proof.
  induction l as [|y l IH]; [done|]. intros [Hy Hl]%NoDup_cons. cbn. apply NoDup_app. split_and!; [by apply IH| |apply NoDup_singleton].
  intros x Hx Hxy. apply list_elem_of_singleton in Hxy as ->. by rewrite elem_of_rev in Hx.
Qed.

Section Final.
Context `{CA : ColorAdjust} (wait : positive → Z).
Context (lo hi size al end_ : Z).
Abbreviation inv := (ev_inv lo hi).

(** What an eviction may return: that everything evictable would not make room; or a hole with room in
    which all evicted blocks lie; with 0 the room is there, else a wait has failed. *)
Definition outcome (s : ev) (bl : list block) (nonblocking : bool) (ret : Z) (gone : list positive) : Prop :=
  (ret = - ENOSPC ∧ gone = [] ∧
     (¬ free_space lo bl hi size al 0 end_ → ¬ free_space lo (without (spaces s (evictable nonblocking s)) bl) hi size al 0 end_)) ∨
  ∃ gs ge, lo <= gs ∧ ge <= hi ∧ room size al end_ gs ge ∧
    (∀ b, b ∈ bl → b_id b ∈ spaces s gone → gs <= b_start b ∧ b_end b <= ge) ∧
    (ret = 0 → free_space lo (without (spaces s gone) bl) hi size al 0 end_) ∧
    (ret ≠ 0 → ∃ o, o ∈ evictable nonblocking s ∧ ret = wait o).

(** The states after an eviction. *)
Definition after (s : ev) (bl : list block) (us : list node_id) (s' : ev) (gone : list positive) (hs' us' : list node_id) : Prop :=
  inv s' (without (spaces s gone) bl) hs' us' ∧ (∀ o, counts s' o = counts s o) ∧
  inactive_list s' = drop_objs gone (inactive_list s) ∧ active_list s' = drop_objs gone (active_list s) ∧
  (∀ n, free_node (e_mm s) bl us n → free_node (e_mm s') (without (spaces s gone) bl) us' n).

Lemma free_node_nodes m m' bl us n : (∀ x, x ∉ ids bl → mm_nodes m' !! x = mm_nodes m !! x) → free_node m bl us n → free_node m' bl us n.
Proof. intros Hn (H1 & H2 & nd & H3 & H4). split; [done|]. split; [done|]. exists nd. rewrite Hn; [done|]. set_solver. Qed.

Lemma evictable_listed nonblocking s o : o ∈ evictable nonblocking s → o ∈ listed s ∧ pinned s o = false.
Proof.
  unfold evictable. intros [Hp Hc]%list_elem_of_filter. split; [|done]. unfold listed, candidates in *. destruct nonblocking; set_solver.
Qed.

(** The way back with marks, and the unbinding of the marked ones. *)
Lemma unwind_run s bl hs us nonblocking taken m m2 rs' fl : inv s bl hs us → NoDup taken → (∀ o, o ∈ taken → o ∈ evictable nonblocking s) →
  scan_remove_all (spaces s (rev taken)) m = Some (rs', m2) → mm_rep m2 lo hi bl hs us → has_color_adjust m2 = false → (∀ n, n ∉ ids bl → mm_nodes m2 !! n = mm_nodes (e_mm s) !! n) →
  fl = marked (rev taken) rs' → fl `sublist_of` rev taken →
  ∃ ret s' gone hs' us', (eviction ← take_evicted (rev taken) []; unbind_all wait eviction 0) (set_mm m s) = Some (ret, s') ∧ after s bl us s' gone hs' us' ∧
    gone `sublist_of` rev fl ∧ (ret = 0 → gone = rev fl) ∧ (ret ≠ 0 → ∃ o, o ∈ evictable nonblocking s ∧ ret = wait o).
Proof.
  intros Hinv Hnd Htk Hrem Hr2 Hca2 Hn2 Hfl Hsub.
  assert (∀ o, o ∈ taken → o ∈ listed s ∧ pinned s o = false) as Hl.
  { intros o Ho. by eapply evictable_listed, Htk. }
  assert (∀ o, o ∈ fl → o ∈ taken) as Hft by (intros o Ho; apply elem_of_rev; by eapply elem_of_sublist).
  assert (NoDup fl) as Hndf by (eapply sublist_NoDup; [|exact Hsub]; by apply NoDup_of_rev).
  pose proof (take_evicted_run (space s) (rev taken) (set_mm m s) [] rs' m2) as Htake. rewrite <- Hfl, app_nil_r in Htake.
  rewrite (M_bind_Some _ _ _ _ _ (Htake ltac:(intros o Ho; rewrite elem_of_rev in Ho; destruct (ei_has _ _ _ _ _ _ Hinv o (proj1 (Hl o Ho))) as (e & ? & ? & _); by exists e) Hrem)).
  clear Htake. set (s2 := set_mm m2 _).
  assert (∀ o, bos s2 !! o = (if decide (o ∈ fl) then add_refs 1 else id) <$> bos s !! o) as Hb2 by (intros o; by apply ref_all_lookup).
  assert (inv s2 bl hs us) as Hinv2.
  { eapply ev_inv_space; [exact Hinv|done|done|done|..].
    - intros o _. rewrite Hb2. destruct (bos s !! o); [|done]. cbn. by destruct (decide _).
    - intros o e Ho He. rewrite Hb2 in He. destruct (ei_has _ _ _ _ _ _ Hinv o Ho) as (e' & He' & _ & ?). rewrite He' in He. cbn in He. injection He as <-. destruct (decide _); cbn; lia. }
  assert (∀ o, space s2 o = space s o) as Hsp by (intros o; unfold space; rewrite Hb2; destruct (bos s !! o); [|done]; cbn; by destruct (decide _)).
  assert (NoDup (rev fl)) as Hndr by (by apply NoDup_of_rev).
  destruct (unbind_all_run wait lo hi (rev fl) Hndr s2 bl hs us 0 Hinv2) as (ret & s' & gone & hs' & us' & Hrun & Hg & Hinv' & Hret & Hwhy & Hcnt & Hi & Ha & Hfree).
  { intros o Ho. rewrite elem_of_rev in Ho. destruct (Hl o (Hft o Ho)) as [H1 H2]. split; [done|]. destruct (ei_has _ _ _ _ _ _ Hinv o H1) as (e & He & _ & Hr).
    unfold pinned in *. rewrite Hb2, He, decide_True in * by done. split; [done|]. eexists. split; [done|]. cbn. lia. }
  assert (spaces s2 gone = spaces s gone) as Hsps by (unfold spaces; apply list_fmap_ext; intros; apply Hsp). rewrite Hsps in *.
  exists ret, s', gone, hs', us'. split; [done|]. split; [|split_and!; [done|apply Hret|]].
  - split_and!; [done| |done|done|].
    + intros o. rewrite Hcnt. unfold counts. rewrite Hb2. destruct (bos s !! o) as [e|]; [|done]. cbn. assert (o ∈ rev fl ↔ o ∈ fl) as Hiff by (apply elem_of_rev).
      repeat case_decide; try tauto; cbn; do 2 f_equal; lia.
    + intros n Hn. apply Hfree. by eapply free_node_nodes.
  - intros Hne. destruct Hwhy as [->|(o & Ho & ->)]; [done|]. exists o. split; [|done]. apply Htk, Hft. by apply elem_of_rev.
Qed.

(** What the marks say of the objects on the scan, once a hole has been hit. *)
Lemma marks_split s m0 bl taken l1 l2 rs' o b : scanning lo hi size al end_ m0 bl → NoDup taken → without (spaces s taken) bl = l1 ++ l2 →
  Forall2 (removed_as m0 (ids bl) (spaces s taken) (last_end lo l1, next_start l2 hi)) (spaces s (rev taken)) rs' →
  o ∈ taken → b ∈ bl → space s o = b_id b →
  if decide (o ∈ marked (rev taken) rs') then last_end lo l1 <= b_start b ∧ b_end b <= next_start l2 hi else b_end b <= last_end lo l1 ∨ next_start l2 hi <= b_start b.
Proof.
  intros Hs Hnd Hw Hflags Ho Hb Hob.
  destruct (marked_spec wait (removed_as m0 (ids bl) (spaces s taken) (last_end lo l1, next_start l2 hi)) (space s) (rev taken) rs' (NoDup_of_rev _ Hnd) Hflags) as [_ Hmarks].
  destruct (Hmarks o) as (r & HP & Hr); [by apply elem_of_rev|]. rewrite Hob in HP. pose proof (removed_marks lo hi size al end_ m0 bl (spaces s taken) l1 l2 b r Hs Hb Hw HP) as Hm.
  destruct (decide (o ∈ marked (rev taken) rs')) as [Hi|Hi]; [by rewrite (proj1 Hr Hi) in Hm|]. destruct (z2b r); [by destruct Hi; apply Hr|done].
Qed.

(** A scan that has found nothing marks nothing. *)
Lemma marks_zero m0 bl ns vs rs' : 0 <= lo → scanning lo hi size al end_ m0 bl → (∀ v, v ∈ vs → v ∈ ids bl) →
  Forall2 (removed_as m0 (ids bl) ns (0, 0)) vs rs' → Forall (λ r, r = 0) rs'.
Proof.
  intros Hlo Hs Hvs Hflags. apply Forall_forall. intros r Hr. apply list_elem_of_lookup_1 in Hr as [i Hi].
  destruct (Forall2_lookup_r _ _ _ _ _ Hflags Hi) as (v & Hv & k1 & k2 & a & e & _ & _ & Ha & _ & ->).
  apply list_elem_of_lookup_2, Hvs, list_elem_of_fmap in Hv as (b & -> & Hb).
  pose proof (pos_start _ _ _ _ (sc_blocks _ _ _ _ _ _ _ Hs b Hb)) as Hst. simplify_eq. apply list_elem_of_split in Hb as (x1 & x2 & ->).
  pose proof (spaced_remove _ _ _ _ _ (sc_spaced _ _ _ _ _ _ _ Hs)) as (Hsp & Hle & _).
  apply spaced_app in Hsp as [Hsp _]. apply spaced_le in Hsp. cbn [snd]. rewrite (proj2 (Z.ltb_ge (b_start b) 0)) by lia. by rewrite andb_false_r.
Qed.

(** The room is there when all that was marked has been evicted. *)
Lemma room_cleared s bl taken fl l1 l2 : NoDup (head_node :: ids (without (spaces s fl) bl)) → spaced lo (without (spaces s fl) bl) hi → spaced lo (l1 ++ l2) hi →
  without (spaces s taken) bl = l1 ++ l2 → room size al end_ (last_end lo l1) (next_start l2 hi) →
  (∀ o b, o ∈ taken → b ∈ bl → space s o = b_id b → if decide (o ∈ fl) then last_end lo l1 <= b_start b ∧ b_end b <= next_start l2 hi else b_end b <= last_end lo l1 ∨ next_start l2 hi <= b_start b) →
  free_space lo (without (spaces s fl) bl) hi size al 0 end_.
Proof.
  intros Hnd Hsp Hsp12 Hw Hroom Hin. pose proof Hsp12 as Hsp'. apply spaced_app in Hsp' as [Hs1 Hs2]. apply spaced_le in Hs1, Hs2.
  apply (free_space_cleared lo hi _ size al end_ (last_end lo l1) (next_start l2 hi)); [done|done|lia|lia|done|].
  intros b [Hbg Hb]%elem_of_without. destruct (decide (b_id b ∈ spaces s taken)) as [Ht|Hnt].
  - apply list_elem_of_fmap in Ht as (o & Ho & Hot). specialize (Hin o b Hot Hb (eq_sym Ho)). rewrite decide_False in Hin; [done|].
    intros Hi. apply Hbg. rewrite Ho. by apply list_elem_of_fmap_2.
  - assert (b ∈ l1 ++ l2) as Hbl by (rewrite <- Hw; by apply elem_of_without). apply elem_of_app in Hbl as [Hbl|Hbl]; [left; by eapply spaced_before|right; by eapply spaced_after].
Qed.

(** After a scan that has hit a hole. *)
Lemma found_run s bl hs us nonblocking m0 taken m m2 rs' l1 l2 : inv s bl hs us → scanning lo hi size al end_ m0 bl → NoDup taken → (∀ o, o ∈ taken → o ∈ evictable nonblocking s) →
  scan_remove_all (spaces s (rev taken)) m = Some (rs', m2) → mm_rep m2 lo hi bl hs us → has_color_adjust m2 = false → (∀ n, n ∉ ids bl → mm_nodes m2 !! n = mm_nodes (e_mm s) !! n) →
  Forall2 (removed_as m0 (ids bl) (spaces s taken) (last_end lo l1, next_start l2 hi)) (spaces s (rev taken)) rs' →
  without (spaces s taken) bl = l1 ++ l2 → room size al end_ (last_end lo l1) (next_start l2 hi) →
  ∃ ret s' gone hs' us', (eviction ← take_evicted (rev taken) []; unbind_all wait eviction 0) (set_mm m s) = Some (ret, s') ∧ after s bl us s' gone hs' us' ∧
    (∀ o, o ∈ gone → o ∈ evictable nonblocking s) ∧ outcome s bl nonblocking ret gone.
Proof.
  intros Hinv Hs Hnd Htk Hrem Hr2 Hca2 Hn2 Hflags Hw Hroom.
  destruct (marked_spec wait (removed_as m0 (ids bl) (spaces s taken) (last_end lo l1, next_start l2 hi)) (space s) (rev taken) rs' (NoDup_of_rev _ Hnd) Hflags) as [Hsub _].
  pose proof (λ o b, marks_split s m0 bl taken l1 l2 rs' o b Hs Hnd Hw Hflags) as Hin. set (fl := marked (rev taken) rs') in *.
  destruct (unwind_run s bl hs us nonblocking taken m m2 rs' fl Hinv Hnd Htk Hrem Hr2 Hca2 Hn2 eq_refl Hsub) as (ret & s' & gone & hs' & us' & Hex & Haft & Hg & Hret & Hwhy).
  exists ret, s', gone, hs', us'. split; [done|]. split; [done|].
  assert (∀ o, o ∈ gone → o ∈ fl) as Hgf by (intros o Ho; apply elem_of_rev; by eapply elem_of_sublist).
  assert (∀ o, o ∈ fl → o ∈ taken) as Hft by (intros o Ho; apply elem_of_rev; by eapply elem_of_sublist).
  split; [intros o Ho; by apply Htk, Hft, Hgf|]. right. exists (last_end lo l1), (next_start l2 hi).
  assert (spaced lo (l1 ++ l2) hi) as Hsp12 by (rewrite <- Hw; eapply spaced_sublist; [apply sublist_filter|apply Hs]).
  pose proof Hsp12 as Hsp'. apply spaced_app in Hsp' as [Hs1 Hs2]. apply spaced_le in Hs1, Hs2. split_and!; [lia|lia|done| | |done].
  - intros b Hb (o & Ho & Hg')%list_elem_of_fmap. specialize (Hin o b (Hft o (Hgf o Hg')) Hb (eq_sym Ho)). rewrite decide_True in Hin by auto. done.
  - intros H0. specialize (Hret H0). destruct Haft as (Hinv' & _).
    assert (∀ o, o ∈ gone ↔ o ∈ fl) as Heq by (intros o; rewrite Hret; apply elem_of_rev).
    apply (room_cleared s bl taken gone l1 l2); [|by eapply layout_spaced, rep_layout, ei_rep|done..|].
    { by destruct (rep_lists _ _ _ _ _ _ (ei_rep _ _ _ _ _ _ Hinv')) as (_ & _ & ?). }
    intros o b Ho Hb Hob. specialize (Hin o b Ho Hb Hob). specialize (Heq o). repeat case_decide; tauto.
Qed.

(** After one that has not. *)
Lemma lost_run s bl hs us nonblocking m0 taken m m2 rs' : 0 <= lo → inv s bl hs us → scanning lo hi size al end_ m0 bl → (∀ o, o ∈ taken → o ∈ evictable nonblocking s) →
  scan_remove_all (spaces s (rev taken)) m = Some (rs', m2) → mm_rep m2 lo hi bl hs us → has_color_adjust m2 = false → (∀ n, n ∉ ids bl → mm_nodes m2 !! n = mm_nodes (e_mm s) !! n) →
  Forall2 (removed_as m0 (ids bl) (spaces s taken) (0, 0)) (spaces s (rev taken)) rs' → (∀ o, o ∈ evictable nonblocking s → o ∈ taken) →
  (¬ free_space lo bl hi size al 0 end_ → ¬ free_space lo (without (spaces s taken) bl) hi size al 0 end_) →
  ∃ s', (clean_up (rev taken);; mret (- ENOSPC)) (set_mm m s) = Some (- ENOSPC, s') ∧ after s bl us s' [] hs us ∧ outcome s bl nonblocking (- ENOSPC) [].
Proof.
  intros Hlo Hinv Hs Htk Hrem Hr2 Hca2 Hn2 Hflags Hall Hno.
  assert (∀ o, o ∈ rev taken → o ∈ listed s) as Hl by (intros o Ho; rewrite elem_of_rev in Ho; by eapply evictable_listed, Htk).
  assert (Forall (λ r, r = 0) rs') as Hzero.
  { eapply marks_zero; [done|done| |done]. unfold spaces. intros v (o & -> & Ho)%list_elem_of_fmap. by apply (ei_in _ _ _ _ _ _ Hinv), Hl. }
  assert (∀ o, o ∈ rev taken → has_space (bos (set_mm m s)) (space s) o) as Hsp by (intros o Ho; destruct (ei_has _ _ _ _ _ _ Hinv o (Hl o Ho)) as (e & ? & ? & _); by exists e).
  mrun (clean_up_run (space s) (rev taken) (set_mm m s) rs' m2 Hsp Hrem Hzero).
  eexists. split; [done|]. unfold after, outcome. change (spaces s []) with ([] : list node_id). rewrite without_nil, !drop_nil. split.
  - split_and!; try done.
    + eapply ev_inv_space; [exact Hinv|done..|]. intros o e Ho He. destruct (ei_has _ _ _ _ _ _ Hinv o Ho) as (e' & ? & _ & ?). cbn in He. congruence.
    + intros n Hn'. by eapply free_node_nodes.
  - left. split_and!; try done. intros Hf Hfs. apply (Hno Hf). erewrite without_ext; [exact Hfs|]. intros b Hb. unfold spaces.
    apply not_iff_compat. rewrite !list_elem_of_fmap. split; intros (o & Ho & Hi); exists o; (split; [done|]); auto.
Qed.

Lemma evict_run s bl hs us (mappable nonblocking : bool) (mappable_end color : Z) : sizes_ok lo hi size al end_ → inv s bl hs us →
  (if mappable then mappable_end = end_ else hi <= end_) →
  ∃ ret s' gone hs' us', i915_gem_evict_something wait mappable_end size al color mappable nonblocking s = Some (ret, s') ∧
    after s bl us s' gone hs' us' ∧ (∀ o, o ∈ gone → o ∈ evictable nonblocking s) ∧ outcome s bl nonblocking ret gone.
Proof.
  intros Hok Hinv Hend. destruct (init_scan_run lo hi s bl hs us mappable mappable_end size al color end_ Hinv Hend) as (m0 & Hinit & Hl & Hn & Hu & Hsb & Hh & Hca & Hs).
  destruct (scan_pass_run wait lo hi size al end_ s bl hs us nonblocking m0 Hok Hinv Hl Hn Hu Hsb Hh Hca Hs) as (hit & taken & m & rs' & m2 & Hrun & Hnd & Htk & Hrem & Hr2 & Hca2 & Hn2 & Hflags & Hcase).
  unfold i915_gem_evict_something. rewrite (u64_id size) by (destruct Hok; lia). fold (init_scan mappable mappable_end size al color). mrun (on_mm_run _ s tt m0 Hinit). rewrite get_bind.
  rewrite <- M_bind_assoc. change (inactive_list (set_mm m0 s)) with (inactive_list s). change (active_list (set_mm m0 s)) with (active_list s).
  rewrite (M_bind_Some _ _ _ (hit, rev taken) (set_mm m s)) by (rewrite scan_loops; exact Hrun). cbn [fst snd].
  assert (∀ o, o ∈ taken → o ∈ evictable nonblocking s) as Htk' by (intros o Ho; unfold evictable; apply list_elem_of_filter; destruct (Htk o Ho); done).
  destruct hit.
  - destruct Hcase as (l1 & l2 & Hw & Hhit & Hroom). rewrite Hhit in Hflags. by eapply found_run.
  - destruct Hcase as (Hall & Hh2 & Hno). rewrite Hh2 in Hflags. destruct Hok as (_ & _ & _ & Hlo & _).
    assert (∀ o, o ∈ evictable nonblocking s → o ∈ taken) as Hall' by (unfold evictable; intros o [??]%list_elem_of_filter; by apply Hall).
    destruct (lost_run s bl hs us nonblocking m0 taken m m2 rs' Hlo Hinv Hs Htk' Hrem Hr2 Hca2 Hn2 Hflags Hall' Hno) as (s' & H1 & H2 & H3).
    exists (- ENOSPC), s', [], hs, us. split_and!; try done. intros o Ho. by apply not_elem_of_nil in Ho.
Qed.
End Final.

(** ** The search for a place *)

Section Search.
Context `{CA : ColorAdjust} (wait : positive → Z).
Context (lo hi size al end_ : Z).
Implicit Types (s : ev) (bl : list block).

(** The object has its place, or the search has failed and the node is given back. *)
Definition searched s bl (node : node_id) (nonblocking : bool) (ret : Z) s' : Prop :=
  ∃ gone hs us, (∀ o, o ∈ gone → o ∈ evictable nonblocking s) ∧
  ((ret = 0 ∧ ∃ q b, placed lo (without (spaces s gone) bl) hi node size al 0 end_ q b ∧
      mm_rep (e_mm s') lo hi (insert_after head_node q b (without (spaces s gone) bl)) hs us) ∨
   (ret ≠ 0 ∧ mm_nodes (e_mm s') !! node = None ∧ mm_rep (e_mm s') lo hi (without (spaces s gone) bl) hs us ∧
      (ret = - ENOSPC ∧ gone = [] ∧ ¬ free_space lo (without (spaces s (evictable nonblocking s)) bl) hi size al 0 end_ ∨
       ∃ o, o ∈ evictable nonblocking s ∧ ret = wait o))).

Lemma kfree_node_run (m : drm_mm) bl hs us n : mm_rep m lo hi bl hs us → free_node m bl us n →
  ∃ m', kfree_node n m = Some (tt, m') ∧ mm_rep m' lo hi bl hs us ∧ mm_nodes m' !! n = None.
Proof.
  intros Hr Hn. eexists. split; [reflexivity|]. split; [exact (mm_rep_free _ _ _ _ _ _ _ Hr Hn)|apply lookup_delete_eq].
Qed.

(** What the eviction may still return is not 0: the search ends. *)
Lemma search_failed s bl us node nonblocking ret s1 gone hs1 us1 : free_node (e_mm s) bl us node → ret ≠ 0 → ¬ free_space lo bl hi size al 0 end_ →
  after lo hi s bl us s1 gone hs1 us1 → (∀ o, o ∈ gone → o ∈ evictable nonblocking s) → outcome wait lo hi size al end_ s bl nonblocking ret gone →
  ∃ s', (on_mm (kfree_node node);; mret ret) s1 = Some (ret, s') ∧ searched s bl node nonblocking ret s'.
Proof.
  intros Hn Hret Hno (Hinv & _ & _ & _ & Hfree) Hg Hout.
  destruct (kfree_node_run _ _ _ _ node (ei_rep _ _ _ _ _ _ Hinv) (Hfree node Hn)) as (m' & Hrun & Hr & Hnone).
  mrun (on_mm_run _ s1 tt m' Hrun). eexists. split; [done|]. exists gone, hs1, us1. split; [done|]. right. split_and!; try done.
  destruct Hout as [(-> & -> & H)|(gs & ge & _ & _ & _ & _ & _ & H)]; [left; auto|right; auto].
Qed.

(** An insertion finds the room there is. *)
Lemma insert_room s bl hs us node color : sizes_ok lo hi size al end_ → ev_inv lo hi s bl hs us → free_node (e_mm s) bl us node →
  (∃ m' q b hs', on_mm (drm_mm_insert_node_in_range_generic node size al color 0 end_) s = Some (0, set_mm m' s) ∧
     placed lo bl hi node size al 0 end_ q b ∧ mm_rep m' lo hi (insert_after head_node q b bl) hs' us) ∨
  (on_mm (drm_mm_insert_node_in_range_generic node size al color 0 end_) s = Some (- ENOSPC, set_mm (e_mm s) s) ∧ ¬ free_space lo bl hi size al 0 end_).
Proof.
  intros Hok Hinv Hn. pose proof (ei_nocb _ _ _ _ _ _ Hinv) as Hca.
  destruct (insert_in_range_run (e_mm s) lo hi bl hs us node size al color 0 end_) as [(m' & q & b & hs' & Hrun & Hp & Hr & _)|[Hrun Hno]].
  - apply Hinv.
  - done.
  - destruct Hok as (? & ? & ? & _). unfold request_ok. lia.
  - by apply ca_ready_none.
  - left. exists m', q, b, hs'. split; [by apply on_mm_run|done].
  - right. split; [by apply on_mm_run|by apply Hno].
Qed.
End Search.

(** ** The theorems *)



(** ** Witnesses: an object with the first 100 of 4096 addresses. *)

Definition demo_ev (pins : Z) : ev := mk_ev demo_mm2 {[1%positive := mk_ebo (Some 2%positive) pins 1]} [1%positive] [].
Definition demo_wait : positive → Z := λ _, 0.
Definition demo_block : list block := [mk_block 2%positive 0 100].

Lemma demo_ev_inv pins : ev_inv 0 4096 (demo_ev pins) demo_block [2%positive] [].
Proof.
  assert (∀ o, o ∈ listed (demo_ev pins) → o = 1%positive) as H1 by (intros o Ho; by apply list_elem_of_singleton in Ho).
  split.
  - apply demo_rep2.
  - by vm_compute.
  - apply NoDup_singleton.
  - intros o ->%H1. eexists. split; [reflexivity|]. split; [done|]. cbn. lia.
  - intros o ->%H1. apply list_elem_of_singleton. reflexivity.
  - intros o o' ->%H1 ->%H1. done.
Qed.

Lemma demo_ev_sizes : sizes_ok 0 4096 4000 0 4096.
Proof. unfold sizes_ok. lia. Qed.

Lemma demo_ev_free pins : free_node (e_mm (demo_ev pins)) demo_block [] 3%positive.
Proof.
  split; [|split; [apply not_elem_of_nil|]].
  - cbn. intros Hin. apply elem_of_cons in Hin as [|Hin]; [done|]. by apply list_elem_of_singleton in Hin.
  - eexists. split; [vm_compute; reflexivity|]. vm_compute. auto.
Qed.


