(* ===== verification/Idr.v ===== *)
(** * drm_sun_idr.c: small integer handles

    An [idr] maps ids to pointers.  Its used ids are an AVL tree (the illumos
    avl library), modelled as a finite map; its unused ids are a list of ranges,
    each with a list of ids given back and the first id never handed out.
    [idr_inv] relates the two; the theorems show that the operations implement a
    finite map with fresh ids, never dereference NULL and balance the lock. *)

From stdpp Require Import base option list gmap sorting.
From Stdlib Require Import ZArith Lia.
From S2P Require Import Prelude.

(** ** Data *)

(** [struct idr_free_id_range], with its list of [struct idr_free_id]. *)
Record idr_free_id_range := mk_range {
  fr_start : Z;
  fr_end : Z;
  min_unused_id : Z;
  free_ids : list Z;
}.

(** [struct idr]: pointers are integers, NULL is 0. *)
Record idr := mk_idr {
  used_ids : gmap Z Z;
  free_id_ranges : list idr_free_id_range;
  idr_lock : bool;
}.

Definition IDR_MAX : Z := 0x7fffffff.

Definition set_min (z : Z) (r : idr_free_id_range) : idr_free_id_range :=
  mk_range (fr_start r) (fr_end r) z (free_ids r).
Definition set_free (l : list Z) (r : idr_free_id_range) : idr_free_id_range :=
  mk_range (fr_start r) (fr_end r) (min_unused_id r) l.
Definition set_end (z : Z) (r : idr_free_id_range) : idr_free_id_range :=
  mk_range (fr_start r) z (min_unused_id r) (free_ids r).

Definition set_ranges (l : list idr_free_id_range) (s : idr) : idr :=
  mk_idr (used_ids s) l (idr_lock s).
Definition set_used (m : gmap Z Z) (s : idr) : idr :=
  mk_idr m (free_id_ranges s) (idr_lock s).
Definition set_lock (b : bool) (s : idr) : idr :=
  mk_idr (used_ids s) (free_id_ranges s) b.

(** [mutex_enter] on a mutex the thread holds never returns. *)
Definition mutex_enter : M idr unit :=
  s ← get; BUG_ON (idr_lock s);; modify (set_lock true).
Definition mutex_exit : M idr unit :=
  s ← get; BUG_ON (negb (idr_lock s));; modify (set_lock false).

(** ** Ranges of free ids *)

Definition fr_isfull (range : idr_free_id_range) : bool :=
  fr_end range <=? min_unused_id range.

Definition fr_new (start : Z) : idr_free_id_range := mk_range start IDR_MAX start [].

(** Free one range; the rest of the list is returned. *)
Definition fr_destroy (l : list idr_free_id_range) : list idr_free_id_range := List.tl l.

(** Position in the list of the range that starts at [start]. *)
Fixpoint fr_get (l : list idr_free_id_range) (start : Z) : option nat :=
  match l with
  | [] => None
  | entry :: l => if fr_start entry =? start then Some O else S <$> fr_get l start
  end.

(** The ids of [ids] below [start], and the others, each pushed on [moved]. *)
Fixpoint split_free_ids (start : Z) (ids moved : list Z) : list Z * list Z :=
  match ids with
  | [] => ([], moved)
  | id :: ids =>
    if id <? start then
      let '(keep, moved) := split_free_ids start ids moved in (id :: keep, moved)
    else split_free_ids start ids (id :: moved)
  end.

(** The range [prev] cut at [start]: what is left of it, and the new range. *)
Definition fr_split (prev : idr_free_id_range) (next_start : option Z) (start : Z)
    : idr_free_id_range * idr_free_id_range :=
  let n := fr_new start in
  let prev := set_end start prev in
  let n := match next_start with Some e => set_end e n | None => n end in
  if fr_isfull prev then
    let n := set_min (min_unused_id prev) n in
    let prev := set_min start prev in
    let '(keep, moved) := split_free_ids start (free_ids prev) (free_ids n) in
    (set_free keep prev, set_free moved n)
  else (prev, n).

(** The list after the insertion, and the position of the new range; [None] is
    the dereference of a NULL list. *)
Fixpoint fr_insert (l : list idr_free_id_range) (start : Z)
    : option (list idr_free_id_range * nat) :=
  match l with
  | [] => None
  | prev :: rest =>
    match rest with
    | next :: _ =>
      if fr_start next <? start then
        '(rest', k) ← fr_insert rest start; Some (prev :: rest', S k)
      else
        let '(prev', n) := fr_split prev (Some (fr_start next)) start in
        Some (prev' :: n :: rest, 1%nat)
    | [] =>
      let '(prev', n) := fr_split prev None start in Some ([prev'; n], 1%nat)
    end
  end.

(** The range after the call, and the id or -1. *)
Definition idr_get_free_id_in_range (range : idr_free_id_range) : idr_free_id_range * Z :=
  match free_ids range with
  | id :: ids => (set_free ids range, i32 id)
  | [] =>
    if negb (fr_isfull range)
    then (set_min (u32 (min_unused_id range + 1)) range, i32 (min_unused_id range))
    else (range, -1)
  end.

(** [while (range) { id = ..; if (id >= 0) goto got_id; range = range->next; }]
    from position [pos] of the list. *)
Fixpoint get_free_id_from (pos : nat) (l : list idr_free_id_range)
    : option (list idr_free_id_range * Z) :=
  match l with
  | [] => None
  | r :: rest =>
    match pos with
    | S pos => '(rest', id) ← get_free_id_from pos rest; Some (r :: rest', id)
    | O =>
      let '(r', id) := idr_get_free_id_in_range r in
      if 0 <=? id then Some (r' :: rest, id)
      else '(rest', id) ← get_free_id_from O rest; Some (r' :: rest', id)
    end
  end.

(** ** Operations *)

Definition idr_init : M idr unit :=
  modify (λ _, mk_idr ∅ [fr_new 0] false).

(** [avl_add]: the tree asserts that the key is new. *)
Definition avl_add (id obj : Z) : M idr unit :=
  s ← get;
  BUG_ON (bool_decide (is_Some (used_ids s !! id)));;
  modify (set_used (<[id := obj]> (used_ids s))).

(** [alloc]: whether [kmem_alloc] of the tree node succeeds.  The result and, on
    success, [*newid]. *)
Definition idr_get_new_above (obj start : Z) (alloc : bool) : M idr (Z * option Z) :=
  if start <? 0 then mret (- EINVAL, None) else
  mutex_enter;;
  s ← get;
  '(l, pos) ← (match fr_get (free_id_ranges s) start with
               | Some pos => mret (free_id_ranges s, pos)
               | None => reads (λ s, fr_insert (free_id_ranges s) start)
               end : M idr _);
  modify (set_ranges l);;
  match get_free_id_from pos l with
  | None => mutex_exit;; mret (-1, None)
  | Some (l, id) =>
    modify (set_ranges l);;
    if negb alloc then mutex_exit;; mret (- ENOMEM, None) else
    avl_add id obj;;
    mutex_exit;;
    mret (0, Some id)
  end.

Definition idr_find_used_id (id : Z) : M idr (option Z) := gets (λ s, used_ids s !! id).

Definition idr_find (id : Z) : M idr Z :=
  mutex_enter;;
  ret ← idr_find_used_id id;
  match ret with
  | Some obj => mutex_exit;; mret obj
  | None => mutex_exit;; mret 0
  end.

(** [while (range->end <= id) range = range->next;], then the id is pushed. *)
Fixpoint push_free_id (l : list idr_free_id_range) (id : Z) : option (list idr_free_id_range) :=
  match l with
  | [] => None
  | r :: rest =>
    if fr_end r <=? id then (r ::.) <$> push_free_id rest id
    else Some (set_free (id :: free_ids r) r :: rest)
  end.

Definition idr_remove (id : Z) (alloc : bool) : M idr Z :=
  mutex_enter;;
  ide ← idr_find_used_id id;
  match ide with
  | None => mutex_exit;; mret (- EINVAL)
  | Some _ =>
    if negb alloc then mutex_exit;; mret (- ENOMEM) else
    s ← get;
    l ← reads (λ s, push_free_id (free_id_ranges s) id);
    modify (set_ranges l);;
    modify (λ s, set_used (delete id (used_ids s)) s);;
    mutex_exit;;
    mret 0
  end.

(** The pointer returned is [(void * )(-EINVAL)] when there is no such id. *)
Definition idr_replace (obj id : Z) : M idr Z :=
  mutex_enter;;
  ide ← idr_find_used_id id;
  match ide with
  | None => mutex_exit;; mret (u64 (- EINVAL))
  | Some ret =>
    modify (λ s, set_used (<[id := obj]> (used_ids s)) s);;
    mutex_exit;;
    mret ret
  end.

(** The tree is walked in increasing order of ids; [fn] leaves the idr alone and
    threads the state [data] points to. *)
Fixpoint for_each_used {T} (fn : Z → Z → T → Z * T) (l : list (Z * Z)) (data : T) : Z * T :=
  match l with
  | [] => (0, data)
  | (id, obj) :: l =>
    let '(ret, data) := fn id obj data in
    if z2b ret then (ret, data) else for_each_used fn l data
  end.

Definition id_le (p q : Z * Z) : Prop := p.1 <= q.1.
#[export] Instance id_le_dec : RelDecision id_le.
Proof. intros p q. unfold Decision, id_le. apply Z_le_dec. Defined.

Definition idr_for_each {T} (fn : Z → Z → T → Z * T) (data : T) (s : idr) : Z * T :=
  for_each_used fn (merge_sort id_le (map_to_list (used_ids s))) data.

Definition idr_destroy : M idr unit :=
  modify (λ s, mk_idr ∅ (Nat.iter (length (free_id_ranges s)) fr_destroy (free_id_ranges s)) false).

Definition idr_remove_all : M idr unit := idr_destroy;; idr_init.

Definition idr_pre_get : Z := -1.

(** ** Invariant *)

(** In a range, an id is used, on the free list, leaked (in [L]: handed out by a
    call that then failed to allocate), or it was never handed out. *)
Record range_ok (used : gmap Z Z) (L : gset Z) (r : idr_free_id_range) : Prop := {
  ro_bounds : fr_start r <= min_unused_id r <= fr_end r;
  ro_nodup : NoDup (free_ids r);
  ro_free id : id ∈ free_ids r → fr_start r <= id < min_unused_id r ∧ used !! id = None ∧ id ∉ L;
  ro_new id : min_unused_id r <= id < fr_end r → used !! id = None ∧ id ∉ L;
  ro_old id : fr_start r <= id < min_unused_id r → is_Some (used !! id) ∨ id ∈ free_ids r ∨ id ∈ L;
}.

(** The ranges cover [lo, IDR_MAX) in order. *)
Fixpoint ranges_ok (used : gmap Z Z) (L : gset Z) (lo : Z) (l : list idr_free_id_range) : Prop :=
  match l with
  | [] => lo = IDR_MAX
  | r :: l => fr_start r = lo ∧ range_ok used L r ∧ ranges_ok used L (fr_end r) l
  end.

Record idr_inv (L : gset Z) (s : idr) : Prop := {
  inv_ranges : ranges_ok (used_ids s) L 0 (free_id_ranges s);
  inv_used id : is_Some (used_ids s !! id) → 0 <= id < IDR_MAX ∧ id ∉ L;
  inv_unlocked : idr_lock s = false;
}.

Section Ranges.
Implicit Types (used : gmap Z Z) (L : gset Z) (l : list idr_free_id_range) (r : idr_free_id_range).

Lemma range_ok_ext used used' L L' r :
  (∀ id, fr_start r <= id < fr_end r → used' !! id = used !! id ∧ (id ∈ L' ↔ id ∈ L)) →
  range_ok used L r → range_ok used' L' r.
Proof.
  intros He [Hb Hnd Hf Hn Ho]. split; [done|done|..].
  - intros id Hid. destruct (Hf id Hid) as (? & ? & ?). destruct (He id) as [-> ->]; [lia|]. done.
  - intros id Hid. destruct (He id) as [-> ->]; [lia|]. auto.
  - intros id Hid. destruct (He id) as [-> ->]; [lia|]. auto.
Qed.

Lemma ranges_ok_le used L lo l : ranges_ok used L lo l → lo <= IDR_MAX.
Proof.
  revert lo. induction l as [|r l IH]; intros lo; cbn; [lia|].
  intros (<- & [? _ _ _ _] & ?%IH). lia.
Qed.

Lemma ranges_ok_ext used used' L L' lo l :
  (∀ id, lo <= id → used' !! id = used !! id ∧ (id ∈ L' ↔ id ∈ L)) →
  ranges_ok used L lo l → ranges_ok used' L' lo l.
Proof.
  revert lo. induction l as [|r l IH]; intros lo He; cbn; [done|].
  intros (<- & Hr & Hl). pose proof (ro_bounds _ _ _ Hr). split; [done|]. split.
  - eapply range_ok_ext; [|done]. intros id ?. apply He. lia.
  - apply IH; [|done]. intros id ?. apply He. lia.
Qed.

Lemma split_free_ids_spec start ids moved keep moved' :
  split_free_ids start ids moved = (keep, moved') →
  keep = filter (λ id, id < start) ids ∧
  moved' = rev (filter (λ id, ¬ id < start) ids) ++ moved.
Proof.
  revert moved keep moved'. induction ids as [|id ids IH]; intros moved keep moved' H; cbn in H.
  - by simplify_eq.
  - rewrite !filter_cons. destruct (Z.ltb_spec id start).
    + destruct (split_free_ids start ids moved) as [k m] eqn:E. simplify_eq.
      destruct (IH _ _ _ E) as [-> ->]. by rewrite decide_True, decide_False by lia.
    + destruct (IH _ _ _ H) as [-> ->]. rewrite decide_False, decide_True by lia. cbn.
      by rewrite <- app_assoc.
Qed.

(** Cutting a range keeps the classification of every id. *)
Lemma fr_split_ok used L prev nx start prev' n :
  range_ok used L prev → fr_start prev <= start <= fr_end prev →
  fr_split prev nx start = (prev', n) → default IDR_MAX nx = fr_end prev →
  fr_start prev' = fr_start prev ∧ fr_end prev' = start ∧ fr_start n = start ∧
  fr_end n = fr_end prev ∧ range_ok used L prev' ∧ range_ok used L n.
Proof.
  intros [Hb Hnd Hf Hn Ho] Hs Hsplit Hnx. unfold fr_split, fr_isfull in Hsplit. cbn in Hsplit.
  assert (fr_end (match nx with Some e => set_end e (fr_new start) | None => fr_new start end)
    = fr_end prev) as He by (by destruct nx).
  assert (∀ o : option Z, fr_start (match o with Some e => set_end e (fr_new start) | None => fr_new start end) = start
    ∧ min_unused_id (match o with Some e => set_end e (fr_new start) | None => fr_new start end) = start
    ∧ free_ids (match o with Some e => set_end e (fr_new start) | None => fr_new start end) = []) as Hn0
    by (by intros []).
  destruct (Hn0 nx) as (Hst & Hmn & Hfr). clear Hn0.
  destruct (Z.leb_spec start (min_unused_id prev)) as [Hfull|Hfull].
  - destruct (split_free_ids start (free_ids prev) _) as [keep moved] eqn:E. simplify_eq.
    apply split_free_ids_spec in E as [-> ->]. cbn. rewrite Hst, Hfr, He, app_nil_r.
    do 4 (split; [done|]). split.
    + split; cbn; [lia| |..].
      * by apply NoDup_filter.
      * intros id [? Hid]%list_elem_of_filter. destruct (Hf id Hid) as (? & ? & ?).
        split; [lia|done].
      * intros id ?. lia.
      * intros id ?. destruct (Ho id) as [?|[?|?]]; [lia|by left| |by right; right].
        right; left. apply list_elem_of_filter. split; [lia|done].
    + split; cbn; rewrite ?Hst, ?He; [lia| |..].
      * rewrite <- Permutation_rev. by apply NoDup_filter.
      * intros id Hid. rewrite <- Permutation_rev in Hid.
        apply list_elem_of_filter in Hid as [? Hid]. destruct (Hf id Hid) as (? & ? & ?).
        split; [lia|done].
      * intros id ?. apply Hn. lia.
      * intros id ?. destruct (Ho id) as [?|[?|?]]; [lia|by left| |by right; right].
        right; left. rewrite <- Permutation_rev. apply list_elem_of_filter. split; [lia|done].
  - simplify_eq. cbn. rewrite Hst, He. do 4 (split; [done|]). split.
    + split; cbn; [lia|done|done| |done]. intros id ?. apply Hn. lia.
    + split; rewrite ?Hst, ?Hmn, ?He, ?Hfr; [lia|apply NoDup_nil_2| |..].
      * intros id ?%not_elem_of_nil. done.
      * intros id ?. apply Hn. lia.
      * intros id ?. lia.
Qed.

Lemma fr_get_lookup l start pos : fr_get l start = Some pos →
  ∃ r, l !! pos = Some r ∧ fr_start r = start.
Proof.
  revert pos. induction l as [|r l IH]; intros pos; cbn; [done|].
  destruct (Z.eqb_spec (fr_start r) start); intros H; simplify_eq; [eauto|].
  apply fmap_Some in H as (k & Hk & ->). apply IH in Hk. done.
Qed.

(** [fr_insert] adds a range that starts at [start]. *)
Lemma fr_insert_ok used L lo l start : ranges_ok used L lo l → l ≠ [] →
  lo <= start <= IDR_MAX →
  ∃ l' pos r, fr_insert l start = Some (l', pos) ∧ ranges_ok used L lo l' ∧
    l' !! pos = Some r ∧ fr_start r = start.
Proof.
  revert lo. induction l as [|prev rest IH]; intros lo Hl Hne Hs; [done|]. clear Hne.
  cbn [ranges_ok] in Hl. destruct Hl as (<- & Hp & Hrest). cbn [fr_insert].
  destruct rest as [|next rest].
  - cbn in Hrest. destruct (fr_split prev None start) as [prev' n] eqn:E.
    apply fr_split_ok with (used := used) (L := L) in E as (E1 & E2 & E3 & E4 & Hp' & Hn);
      [|done|lia|done].
    exists [prev'; n], 1%nat, n. split; [done|]. cbn. rewrite E1, E2, E3, E4. done.
  - pose proof Hrest as (Hns & Hn & _). destruct (Z.ltb_spec (fr_start next) start).
    + destruct (IH (fr_end prev)) as (l' & pos & r & Hrun & Hl' & Hpos & Hr); [done|done|lia|].
      rewrite Hrun. cbn. exists (prev :: l'), (S pos), r. done.
    + destruct (fr_split prev (Some (fr_start next)) start) as [prev' n] eqn:E.
      apply fr_split_ok with (used := used) (L := L) in E as (E1 & E2 & E3 & E4 & Hp' & Hn');
        [|done|lia|done].
      exists (prev' :: n :: next :: rest), 1%nat, n. split; [done|]. cbn.
      rewrite E1, E2, E3, E4. done.
Qed.

(** Taking an id out of a range: it was available. *)
Lemma get_free_id_in_range_ok used L r r' id : range_ok used L r →
  0 <= fr_start r → fr_end r <= IDR_MAX → idr_get_free_id_in_range r = (r', id) →
  fr_start r' = fr_start r ∧ fr_end r' = fr_end r ∧
  ((id = -1 ∧ r' = r ∧ ∀ i, fr_start r <= i < fr_end r → is_Some (used !! i) ∨ i ∈ L) ∨
   (fr_start r <= id < fr_end r ∧ used !! id = None ∧ id ∉ L ∧
    (∀ obj, range_ok (<[id := obj]> used) L r') ∧ range_ok used ({[id]} ∪ L) r')).
Proof.
  intros Hr H0 Hmax Hrun. pose proof Hr as [Hb Hnd Hf Hn Ho]. unfold idr_get_free_id_in_range in Hrun.
  unfold IDR_MAX in Hmax.
  destruct (free_ids r) as [|i ids] eqn:Hfree.
  - unfold fr_isfull in Hrun. destruct (Z.leb_spec (fr_end r) (min_unused_id r)); cbn in Hrun; simplify_eq.
    + split; [done|]. split; [done|]. left. split; [done|]. split; [done|].
      intros i Hi. destruct (Ho i) as [?|[?%not_elem_of_nil|?]]; [lia|by left|done|by right].
    + cbn. split; [done|]. split; [done|]. right.
      rewrite i32_id by (unfold INT_MIN, INT_MAX; lia). rewrite u32_id by lia.
      destruct (Hn (min_unused_id r)) as [Hu HL]; [lia|]. do 3 (split; [done || lia|]).
      split; [intros obj|]; (split; cbn; [lia|by rewrite Hfree; apply NoDup_nil_2|rewrite Hfree| |rewrite Hfree]).
      * intros i ?%not_elem_of_nil. done.
      * intros i ?. rewrite lookup_insert_ne by lia. apply Hn. lia.
      * intros i ?. destruct (decide (i = min_unused_id r)) as [->|];
          [left; rewrite lookup_insert_eq; eauto|]. rewrite lookup_insert_ne by done. apply Ho. lia.
      * intros i ?%not_elem_of_nil. done.
      * intros i ?. destruct (Hn i) as [? ?]; [lia|]. split; [done|]. intros [->%elem_of_singleton|?]%elem_of_union; [lia|done].
      * intros i ?. destruct (decide (i = min_unused_id r)) as [->|]; [set_solver|].
        destruct (Ho i) as [?|[?|?]]; [lia|by left|by right; left|set_solver].
  - simplify_eq. destruct (Hf i) as (Hi & Hu & HL); [set_solver|].
    apply NoDup_cons in Hnd as [Hni Hnd]. cbn. split; [done|]. split; [done|]. right.
    rewrite i32_id by (unfold INT_MIN, INT_MAX; lia). do 3 (split; [done || lia|]).
    split; [intros obj|]; (split; cbn; [lia|done|..]).
    + intros j Hj. destruct (Hf j) as (? & ? & ?); [set_solver|].
      rewrite lookup_insert_ne by (intros ->; done). done.
    + intros j ?. rewrite lookup_insert_ne by lia. by apply Hn.
    + intros j ?. destruct (decide (j = i)) as [->|]; [left; rewrite lookup_insert_eq; eauto|].
      rewrite lookup_insert_ne by done. destruct (Ho j) as [?|[[?|?]%elem_of_cons|?]]; tauto.
    + intros j Hj. destruct (Hf j) as (? & ? & ?); [set_solver|].
      split; [done|]. split; [done|]. intros [->%elem_of_singleton|?]%elem_of_union; done.
    + intros j ?. destruct (Hn j) as [? ?]; [done|]. split; [done|].
      intros [->%elem_of_singleton|?]%elem_of_union; [lia|done].
    + intros j ?. destruct (Ho j) as [?|[[->|?]%elem_of_cons|?]]; [lia|by left|set_solver|by right; left|set_solver].
Qed.

End Ranges.

Section Lists.
Implicit Types (used : gmap Z Z) (L : gset Z) (l : list idr_free_id_range) (r : idr_free_id_range).

(** The search from a range on: an available id at or above its start, or none. *)
Lemma get_free_id_from_ok used L lo l pos r0 :
  ranges_ok used L lo l → 0 <= lo → l !! pos = Some r0 →
  match get_free_id_from pos l with
  | Some (l', id) => fr_start r0 <= id < IDR_MAX ∧ used !! id = None ∧ id ∉ L ∧
      (∀ obj, ranges_ok (<[id := obj]> used) L lo l') ∧ ranges_ok used ({[id]} ∪ L) lo l'
  | None => ∀ i, fr_start r0 <= i < IDR_MAX → is_Some (used !! i) ∨ i ∈ L
  end.
Proof.
  revert lo pos r0. induction l as [|r rest IH]; intros lo pos r0 Hl H0 Hpos; [done|].
  cbn [ranges_ok] in Hl. destruct Hl as (<- & Hr & Hrest).
  pose proof (ro_bounds _ _ _ Hr) as Hb. pose proof (ranges_ok_le _ _ _ _ Hrest) as Hmax.
  assert (∀ id, fr_end r <= id → (∀ obj, range_ok (<[id := obj]> used) L r) ∧
                 range_ok used ({[id]} ∪ L) r) as Hkeep.
  { intros id Hid. split; [intros obj|]; (eapply range_ok_ext; [|done]); intros i Hi; split; try done.
    - by rewrite lookup_insert_ne by lia.
    - rewrite elem_of_union, elem_of_singleton. split; [|by right]. intros [->|?]; [lia|done]. }
  cbn [get_free_id_from]. destruct pos as [|pos].
  - cbn in Hpos. simplify_eq.
    destruct (idr_get_free_id_in_range r0) as [r' id] eqn:E.
    apply get_free_id_in_range_ok with (used := used) (L := L) in E as (E1 & E2 & Hc); [|done..].
    destruct Hc as [(-> & -> & Hfull)|(Hid & Hu & HL & Hr1 & Hr2)].
    + change (0 <=? -1) with false. cbn iota.
      destruct rest as [|r1 rest'] eqn:Er.
      * cbn. cbn in Hrest. intros i Hi. apply Hfull. lia.
      * rewrite <- Er in *. assert (rest !! 0%nat = Some r1) as Hr1 by (by rewrite Er).
        assert (fr_start r1 = fr_end r0) as Hs1 by (rewrite Er in Hrest; apply Hrest).
        specialize (IH (fr_end r0) O r1 Hrest ltac:(lia) Hr1).
        destruct (get_free_id_from 0 rest) as [[l' id]|]; cbn.
        -- destruct IH as (Hid & Hu & HL & Hl1 & Hl2). destruct (Hkeep id) as [K1 K2]; [lia|].
           split; [lia|]. do 2 (split; [done|]). split; [intros obj|]; done.
        -- intros i Hi. destruct (decide (i < fr_end r0)); [apply Hfull|apply IH]; lia.
    + rewrite (proj2 (Z.leb_le 0 id)) by lia.
      split; [lia|]. do 2 (split; [done|]). split; [intros obj|]; cbn; rewrite E1, E2;
        (split; [done|]; split; [done|]); (eapply ranges_ok_ext; [|done]); intros i Hi; split; try done.
      * by rewrite lookup_insert_ne by lia.
      * rewrite elem_of_union, elem_of_singleton. split; [|by right]. intros [->|?]; [lia|done].
  - cbn in Hpos. specialize (IH (fr_end r) pos r0 Hrest ltac:(lia) Hpos).
    destruct (get_free_id_from pos rest) as [[l' id]|]; cbn; [|done].
    destruct IH as (Hid & Hu & HL & Hl1 & Hl2).
    assert (fr_end r <= fr_start r0) as Hle.
    { clear -Hrest Hpos. revert pos Hpos Hrest. generalize (fr_end r) as lo.
      induction rest as [|x rest IH]; intros lo [|pos] Hpos Hrest; cbn in *; try done;
        destruct Hrest as (<- & [? _ _ _ _] & Hl); simplify_eq; [lia|].
      specialize (IH _ _ Hpos Hl). lia. }
    destruct (Hkeep id) as [K1 K2]; [lia|]. do 3 (split; [done|]). split; [intros obj|]; done.
Qed.

(** Giving an id back to the range it belongs to. *)
Lemma push_free_id_ok used L lo l id : ranges_ok used L lo l → lo <= id < IDR_MAX →
  is_Some (used !! id) → id ∉ L →
  ∃ l', push_free_id l id = Some l' ∧ ranges_ok (delete id used) L lo l'.
Proof.
  revert lo. induction l as [|r rest IH]; intros lo Hl Hid Hu HL; cbn in Hl; [lia|].
  destruct Hl as (<- & Hr & Hrest). pose proof Hr as [Hb Hnd Hf Hn Ho]. cbn [push_free_id].
  destruct (Z.leb_spec (fr_end r) id) as [Hle|Hlt].
  - destruct (IH (fr_end r)) as (l' & Hrun & Hl'); [done|lia|done|done|].
    rewrite Hrun. exists (r :: l'). split; [done|]. cbn. split; [done|]. split; [|done].
    eapply range_ok_ext; [|done]. intros i Hi. by rewrite lookup_delete_ne by lia.
  - assert (id < min_unused_id r) as Hmin.
    { destruct (decide (min_unused_id r <= id)); [|lia]. destruct (Hn id) as [Hno _]; [lia|].
      rewrite Hno in Hu. by destruct Hu. }
    assert (id ∉ free_ids r) as Hni.
    { intros Hin. destruct (Hf id Hin) as (_ & Hno & _). rewrite Hno in Hu. by destruct Hu. }
    eexists. split; [done|]. cbn. split; [done|]. split.
    + split; cbn; [done|by apply NoDup_cons| | |].
      * intros i [->|Hi]%elem_of_cons; [rewrite lookup_delete_eq; split_and!; [lia|lia|done|done]|].
        destruct (Hf i Hi) as (? & ? & ?). rewrite lookup_delete_ne by (intros ->; done). done.
      * intros i Hi. rewrite lookup_delete_ne by lia. by apply Hn.
      * intros i Hi. destruct (decide (i = id)) as [->|Hne]; [right; left; set_solver|].
        rewrite lookup_delete_ne by done. destruct (Ho i Hi) as [?|[?|?]]; [by left| |by right; right].
        right; left. set_solver.
    + eapply ranges_ok_ext; [|done]. intros i Hi. by rewrite lookup_delete_ne by lia.
Qed.

End Lists.

(** ** The operations against a finite map *)

Inductive idr_op :=
  | GetNewAbove (obj start : Z) (alloc : bool)
  | Find (id : Z)
  | Remove (id : Z) (alloc : bool)
  | Replace (obj id : Z).

Inductive idr_result :=
  | NewId (ret : Z) (newid : option Z)
  | Ptr (p : Z)
  | Ret (ret : Z).

Definition exec_op (o : idr_op) : M idr idr_result :=
  match o with
  | GetNewAbove obj start alloc =>
      '(r, n) ← idr_get_new_above obj start alloc; mret (NewId r n)
  | Find id => p ← idr_find id; mret (Ptr p)
  | Remove id alloc => r ← idr_remove id alloc; mret (Ret r)
  | Replace obj id => p ← idr_replace obj id; mret (Ptr p)
  end.

(** The arguments of [o] are a C [int] and a [uint32_t]. *)
Definition op_args (o : idr_op) : Prop :=
  match o with
  | GetNewAbove _ start _ => INT_MIN <= start <= INT_MAX
  | Find id | Remove id _ | Replace _ id => 0 <= id < 2 ^ 32
  end.

(** What the operation means on the map [m] of used ids, when the ids of [L] are lost. *)
Inductive spec_op (L : gset Z) (m : gmap Z Z) : idr_op → idr_result → gmap Z Z → gset Z → Prop :=
  | spec_negative obj start alloc : start < 0 →
      spec_op L m (GetNewAbove obj start alloc) (NewId (- EINVAL) None) m L
  | spec_new obj start id : 0 <= start → start <= id < IDR_MAX → m !! id = None → id ∉ L →
      spec_op L m (GetNewAbove obj start true) (NewId 0 (Some id)) (<[id := obj]> m) L
  | spec_full obj start alloc : 0 <= start →
      (∀ i, start <= i < IDR_MAX → is_Some (m !! i) ∨ i ∈ L) →
      spec_op L m (GetNewAbove obj start alloc) (NewId (-1) None) m L
  | spec_lost obj start id : 0 <= start → start <= id < IDR_MAX → m !! id = None → id ∉ L →
      spec_op L m (GetNewAbove obj start false) (NewId (- ENOMEM) None) m ({[id]} ∪ L)
  | spec_find id : spec_op L m (Find id) (Ptr (default 0 (m !! id))) m L
  | spec_remove id : is_Some (m !! id) → spec_op L m (Remove id true) (Ret 0) (delete id m) L
  | spec_remove_nomem id : is_Some (m !! id) →
      spec_op L m (Remove id false) (Ret (- ENOMEM)) m L
  | spec_remove_absent id alloc : m !! id = None →
      spec_op L m (Remove id alloc) (Ret (- EINVAL)) m L
  | spec_replace obj id old : m !! id = Some old →
      spec_op L m (Replace obj id) (Ptr old) (<[id := obj]> m) L
  | spec_replace_absent obj id : m !! id = None →
      spec_op L m (Replace obj id) (Ptr (u64 (- EINVAL))) m L.

Lemma mutex_enter_run s : idr_lock s = false → mutex_enter s = Some (tt, set_lock true s).
Proof. intros H. unfold mutex_enter. rewrite get_bind, H. done. Qed.

Lemma mutex_exit_run s : idr_lock s = true → mutex_exit s = Some (tt, set_lock false s).
Proof. intros H. unfold mutex_exit. rewrite get_bind, H. done. Qed.

(** The range [idr_get_new_above] starts from. *)
Lemma start_range_run (s : idr) L start : idr_inv L s → 0 <= start <= IDR_MAX →
  ∃ l pos r, (match fr_get (free_id_ranges s) start with
              | Some pos => mret (free_id_ranges s, pos)
              | None => reads (λ s, fr_insert (free_id_ranges s) start)
              end : M idr _) (set_lock true s) = Some ((l, pos), set_lock true s) ∧
    ranges_ok (used_ids s) L 0 l ∧ l !! pos = Some r ∧ fr_start r = start.
Proof.
  intros [Hr _ _] Hs. destruct (fr_get _ start) as [pos|] eqn:E.
  - apply fr_get_lookup in E as (r & ? & ?). eauto 10.
  - destruct (fr_insert_ok _ _ _ _ start Hr) as (l & pos & r & Hrun & Hl & Hp & Hst); [|done|].
    { intros Hn. rewrite Hn in Hr. by cbn in Hr. }
    exists l, pos, r. unfold reads. cbn. by rewrite Hrun.
Qed.

Lemma get_new_above_run s L obj start alloc : idr_inv L s → INT_MIN <= start <= INT_MAX →
  ∃ r n s' L', idr_get_new_above obj start alloc s = Some ((r, n), s') ∧ idr_inv L' s' ∧
    spec_op L (used_ids s) (GetNewAbove obj start alloc) (NewId r n) (used_ids s') L'.
Proof.
  intros Hinv Harg. pose proof Hinv as [Hr Hu Hl]. unfold idr_get_new_above.
  destruct (Z.ltb_spec start 0).
  { eexists _, _, s, L. split; [done|]. split; [done|]. by apply spec_negative. }
  unfold INT_MAX in Harg. mrun (mutex_enter_run s Hl). rewrite get_bind.
  destruct (start_range_run s L start Hinv) as (l & pos & r0 & Hrun & Hlok & Hpos & <-);
    [unfold IDR_MAX; lia|].
  mrun Hrun. rewrite modify_bind.
  pose proof (get_free_id_from_ok _ _ _ _ _ _ Hlok ltac:(lia) Hpos) as Hget.
  destruct (get_free_id_from pos l) as [[l' id]|].
  - destruct Hget as (Hid & Hnone & HL & Hl1 & Hl2). rewrite modify_bind. destruct alloc; cbn [negb].
    + unfold avl_add. rewrite M_bind_assoc, get_bind. cbn [used_ids set_ranges set_lock].
      rewrite M_bind_assoc, BUG_ON_bind by (apply bool_decide_false; rewrite Hnone; by intros []).
      rewrite modify_bind. mrun (mutex_exit_run
        (set_used (<[id:=obj]> (used_ids s)) (set_ranges l' (set_ranges l (set_lock true s)))) eq_refl).
      eexists _, _, _, L. split; [done|]. split; [|by apply spec_new].
      split; cbn; [apply Hl1| |done]. intros i Hi. destruct (decide (i = id)) as [->|].
      { split; [lia|done]. }
      rewrite lookup_insert_ne in Hi by done. by apply Hu.
    + mrun (mutex_exit_run (set_ranges l' (set_ranges l (set_lock true s))) eq_refl).
      eexists _, _, _, _. split; [done|]. split; [|by apply spec_lost].
      split; cbn; [done| |done]. intros i Hi. destruct (Hu i Hi) as [? HiL]. split; [done|].
      intros [->%elem_of_singleton|?]%elem_of_union; [|done]. rewrite Hnone in Hi. by destruct Hi.
  - mrun (mutex_exit_run (set_ranges l (set_lock true s)) eq_refl).
    eexists _, _, _, L. split; [done|]. split; [|by apply spec_full]. by split.
Qed.

Lemma exec_op_refines s L o : idr_inv L s → op_args o →
  ∃ r s' L', exec_op o s = Some (r, s') ∧ idr_inv L' s' ∧
    spec_op L (used_ids s) o r (used_ids s') L'.
Proof.
  intros Hinv Harg. pose proof Hinv as [Hr Hu Hl]. destruct o as [obj start alloc|id|id alloc|obj id].
  - destruct (get_new_above_run s L obj start alloc Hinv Harg) as (r & n & s' & L' & Hrun & ? & ?).
    exists (NewId r n), s', L'. split; [|done]. cbn. by mrun Hrun.
  - cbn. unfold idr_find. rewrite M_bind_assoc. mrun (mutex_enter_run s Hl).
    unfold idr_find_used_id, gets. unfold mbind at 1, M_bind at 1. unfold mbind at 1, M_bind at 1.
    cbn [used_ids set_lock].
    assert (∃ s', (match used_ids s !! id with
                   | Some obj => mutex_exit;; mret obj
                   | None => mutex_exit;; mret 0 end) (set_lock true s)
            = Some (default 0 (used_ids s !! id), s') ∧ s' = set_lock false s) as (s' & Hrun & ->).
    { destruct (used_ids s !! id); mrun (mutex_exit_run (set_lock true s) eq_refl); eauto. }
    rewrite Hrun. eexists _, _, L. split; [done|]. split; [by split|]. apply spec_find.
  - cbn. unfold idr_remove. rewrite M_bind_assoc. mrun (mutex_enter_run s Hl).
    unfold idr_find_used_id, gets. unfold mbind at 1, M_bind at 1. unfold mbind at 1, M_bind at 1.
    cbn [used_ids set_lock]. destruct (used_ids s !! id) as [obj|] eqn:Hid.
    + destruct alloc; cbn [negb].
      * destruct (Hu id) as [Hb HL]; [by rewrite Hid|].
        destruct (push_free_id_ok _ _ _ _ id Hr) as (l' & Hrun & Hl'); [done|by rewrite Hid|done|].
        rewrite get_bind. unfold reads. unfold mbind at 1, M_bind at 1. cbn [free_id_ranges set_lock].
        rewrite Hrun. rewrite !modify_bind.
        mrun (mutex_exit_run (set_used (delete id (used_ids s)) (set_ranges l' (set_lock true s))) eq_refl).
        eexists _, _, L. split; [done|]. split; [|apply spec_remove; eauto].
        split; cbn; [done| |done]. intros i Hi. apply Hu.
        rewrite lookup_delete_is_Some in Hi. tauto.
      * mrun (mutex_exit_run (set_lock true s) eq_refl). eexists _, _, L. split; [done|].
        split; [by split|]. apply spec_remove_nomem. eauto.
    + mrun (mutex_exit_run (set_lock true s) eq_refl). eexists _, _, L. split; [done|].
      split; [by split|]. by apply spec_remove_absent.
  - cbn. unfold idr_replace. rewrite M_bind_assoc. mrun (mutex_enter_run s Hl).
    unfold idr_find_used_id, gets. unfold mbind at 1, M_bind at 1. unfold mbind at 1, M_bind at 1.
    cbn [used_ids set_lock]. destruct (used_ids s !! id) as [old|] eqn:Hid.
    + rewrite modify_bind.
      mrun (mutex_exit_run (set_used (<[id:=obj]> (used_ids s)) (set_lock true s)) eq_refl).
      eexists _, _, L. split; [done|]. destruct (Hu id) as [Hb HL]; [by rewrite Hid|].
      split; [|by apply spec_replace]. split; cbn; [| |done].
      * clear -Hr Hid. revert Hr. generalize 0 as lo. induction (free_id_ranges s) as [|r l IH];
          intros lo; cbn; [done|]. intros (<- & [? ? Hf Hn Ho] & Hl). split; [done|]. split; [|by apply IH].
        assert (∀ i, used_ids s !! i = None → <[id:=obj]> (used_ids s) !! i = None) as Hni.
        { intros i Hi. rewrite lookup_insert_ne; [done|]. congruence. }
        split; [done|done|..].
        -- intros i Hi. destruct (Hf i Hi) as (? & ?%Hni & ?). done.
        -- intros i Hi. destruct (Hn i Hi) as (?%Hni & ?). done.
        -- intros i Hi. rewrite lookup_insert_is_Some'. destruct (Ho i Hi) as [?|?]; tauto.
      * intros i Hi. apply Hu. rewrite lookup_insert_is_Some' in Hi. destruct Hi as [<-|?]; [by rewrite Hid|done].
    + mrun (mutex_exit_run (set_lock true s) eq_refl). eexists _, _, L. split; [done|].
      split; [by split|]. by apply spec_replace_absent.
Qed.

(** Runs of operations, and what they mean. *)
Fixpoint exec_ops (os : list idr_op) : M idr (list idr_result) :=
  match os with
  | [] => mret []
  | o :: os => r ← exec_op o; rs ← exec_ops os; mret (r :: rs)
  end.

Inductive spec_ops : gset Z → gmap Z Z → list idr_op → list idr_result → gmap Z Z → gset Z → Prop :=
  | spec_ops_nil L m : spec_ops L m [] [] m L
  | spec_ops_cons L m o r m1 L1 os rs m' L' :
      spec_op L m o r m1 L1 → spec_ops L1 m1 os rs m' L' →
      spec_ops L m (o :: os) (r :: rs) m' L'.

Lemma exec_ops_refine os s L : Forall op_args os → idr_inv L s →
  ∃ rs s' L', exec_ops os s = Some (rs, s') ∧ idr_lock s' = false ∧
    spec_ops L (used_ids s) os rs (used_ids s') L'.
Proof.
  intros Hos. revert s L. induction Hos as [|o os Ho _ IH]; intros s L Hinv.
  - exists [], s, L. split; [done|]. split; [apply Hinv|constructor].
  - destruct (exec_op_refines s L o Hinv Ho) as (r & s2 & L2 & Hrun & Hinv2 & Hspec).
    destruct (IH s2 L2 Hinv2) as (rs & s3 & L3 & Hrun3 & Hl & Hspec3).
    exists (r :: rs), s3, L3. split; [cbn; mrun Hrun; by mrun Hrun3|]. split; [done|].
    by econstructor.
Qed.

(** The state [idr_init] leaves. *)
Lemma new_idr_inv : idr_inv ∅ (mk_idr ∅ [fr_new 0] false).
Proof.
  split; cbn; [|by intros id []|done]. split; [done|]. split; [|done].
  split; cbn; [unfold IDR_MAX; lia|apply NoDup_nil_2|intros ? ?%not_elem_of_nil; done
    |intros id ?; split; [done|set_solver]|intros id ?; lia].
Qed.

(** ** One operation at a time, for the callers *)

Lemma idr_get_ok L s obj start alloc : idr_inv L s → INT_MIN <= start <= INT_MAX →
  ∃ ret n s' L', idr_get_new_above obj start alloc s = Some ((ret, n), s') ∧ idr_inv L' s' ∧
    (ret = 0 ∧ (∃ id, n = Some id ∧ start <= id < IDR_MAX ∧ used_ids s !! id = None ∧ used_ids s' = <[id := obj]> (used_ids s)) ∨
     ret < 0 ∧ n = None ∧ used_ids s' = used_ids s) ∧ ret ≠ - EAGAIN.
Proof.
  intros Hinv Hst. destruct (get_new_above_run s L obj start alloc Hinv Hst) as (r & n & s' & L' & Hrun & Hinv' & Hspec).
  exists r, n, s', L'. split; [done|]. split; [done|].
  inversion Hspec; subst; (split; [|done]); try (right; split_and!; [unfold EINVAL, ENOMEM; lia|done|congruence]).
  left. split; [done|]. eexists. split; [done|]. split; [lia|]. done.
Qed.

(** Whether an id is left does not depend on the pointer. *)
Lemma idr_get_again L s obj obj' start n s' : idr_inv L s → INT_MIN <= start <= INT_MAX →
  idr_get_new_above obj start true s = Some ((0, n), s') →
  ∃ id s'' L', idr_get_new_above obj' start true s = Some ((0, Some id), s'') ∧ idr_inv L' s'' ∧
    start <= id < IDR_MAX ∧ used_ids s !! id = None ∧ used_ids s'' = <[id := obj']> (used_ids s).
Proof.
  intros Hinv Hst Hr. destruct (get_new_above_run s L obj start true Hinv Hst) as (r1 & n1 & s1 & L1 & Hrun1 & _ & Hspec1).
  rewrite Hr in Hrun1. simplify_eq.
  destruct (get_new_above_run s L obj' start true Hinv Hst) as (r2 & n2 & s2 & L2 & Hrun2 & Hinv2 & Hspec2).
  inversion Hspec1 as [|? ? id ? Hid Hno HL| | | | | | | |]; subst.
  inversion Hspec2 as [|? ? id' ? Hid' Hno' HL'|? ? ? ? Hfull| | | | | | |]; subst; [lia| |].
  - eexists _, s2, _. split; [done|]. split; [done|]. split; [lia|]. done.
  - destruct (Hfull id Hid) as [Hs|?]; [rewrite Hno in Hs; by destruct Hs|done].
Qed.

Lemma idr_find_ok L s id : idr_inv L s → idr_find id s = Some (default 0 (used_ids s !! id), s).
Proof.
  intros Hinv. pose proof (inv_unlocked _ _ Hinv) as Hl. unfold idr_find. mrun (mutex_enter_run s Hl).
  unfold idr_find_used_id, gets. unfold mbind at 1, M_bind at 1. cbn [used_ids set_lock].
  destruct (used_ids s !! id); mrun (mutex_exit_run (set_lock true s) eq_refl); destruct s; cbn in *; by subst.
Qed.

(** Without memory nothing changes. *)
Lemma idr_remove_nomem L s id p : idr_inv L s → used_ids s !! id = Some p → idr_remove id false s = Some (- ENOMEM, s).
Proof.
  intros Hinv Hp. pose proof (inv_unlocked _ _ Hinv) as Hl. unfold idr_remove. mrun (mutex_enter_run s Hl).
  unfold idr_find_used_id, gets. unfold mbind at 1, M_bind at 1. cbn [used_ids set_lock]. rewrite Hp. cbn [negb].
  mrun (mutex_exit_run (set_lock true s) eq_refl). destruct s; cbn in *; by subst.
Qed.

Lemma idr_remove_ok L s id p : idr_inv L s → used_ids s !! id = Some p →
  ∃ s', idr_remove id true s = Some (0, s') ∧ idr_inv L s' ∧ used_ids s' = delete id (used_ids s).
Proof.
  intros Hinv Hp. destruct (inv_used _ _ Hinv id) as [Hid _]; [by eexists|]. unfold IDR_MAX in Hid.
  destruct (exec_op_refines s L (Remove id true) Hinv) as (r & s' & L' & Hrun & Hinv' & Hspec); [cbn; lia|].
  inversion Hspec as [| | | | |? Hin| |? ? Hno| |]; subst; [|congruence].
  cbn in Hrun. apply M_bind_inv in Hrun as (r & s1 & Hr & Hret). unfold mret, M_ret in Hret. simplify_eq. by exists s'.
Qed.

(** ** Theorems *)

(** C7 (idr_refines_map): after idr_init, any sequence of idr_get_new_above,
    idr_find, idr_remove and idr_replace never dereferences NULL, never adds an id
    twice, releases the lock, and returns what the specification on finite maps
    allows: a new id is at least [start] and was not in use, -1 means that no id
    from [start] on is left, and idr_find sees the last pointer stored. *)
Theorem idr_refines_map os s0 : Forall op_args os →
  ∃ rs s L, (idr_init;; exec_ops os) s0 = Some (rs, s) ∧ idr_lock s = false ∧
    spec_ops ∅ ∅ os rs (used_ids s) L.
Proof.
  intros Hos. unfold idr_init. rewrite modify_bind.
  by apply (exec_ops_refine os (mk_idr ∅ [fr_new 0] false) ∅ Hos), new_idr_inv.
Qed.

(** When kmem_alloc fails in idr_get_new_above and an
    id had been found, that id is lost: no later operation ever returns it again. *)
Theorem idr_failed_alloc_loses_id L s obj start os :
  idr_inv L s → 0 <= start <= INT_MAX →
  (∃ i, start <= i < IDR_MAX ∧ used_ids s !! i = None ∧ i ∉ L) → Forall op_args os →
  ∃ id s', idr_get_new_above obj start false s = Some ((- ENOMEM, None), s') ∧
    start <= id < IDR_MAX ∧ used_ids s !! id = None ∧
    ∃ rs s'', exec_ops os s' = Some (rs, s'') ∧ ∀ r, NewId r (Some id) ∉ rs.
Proof.
  intros Hinv Hst (i & Hi & Hnone & HiL) Hos.
  destruct (get_new_above_run s L obj start false Hinv) as (r & n & s' & L' & Hrun & Hinv' & Hspec);
    [unfold INT_MIN; lia|].
  inversion Hspec as [| |? ? ? ? Hfull|? ? id ? Hid Hno HL| | | | | |]; subst; [lia| |].
  { destruct (Hfull i Hi) as [Hs|?]; [rewrite Hnone in Hs; by destruct Hs|done]. }
  exists id, s'. split; [done|]. split; [done|]. split; [congruence|].
  assert (id ∈ {[id]} ∪ L) as Hin by set_solver.
  revert Hinv' Hin. generalize ({[id]} ∪ L) as L'. clear -Hos. intros L' Hinv Hin. revert s' L' Hinv Hin.
  induction Hos as [|o os Ho _ IH]; intros s' L' Hinv Hin.
  { exists [], s'. split; [done|]. intros r. apply not_elem_of_nil. }
  destruct (exec_op_refines s' L' o Hinv Ho) as (r & s2 & L2 & Hrun & Hinv2 & Hspec).
  assert (id ∈ L2 ∧ ∀ z, r ≠ NewId z (Some id)) as [Hin2 Hr].
  { inversion Hspec; subst; (split; [set_solver|]); try done. intros z Heq; by simplify_eq. }
  destruct (IH s2 L2 Hinv2 Hin2) as (rs & s3 & Hrun3 & Hrs).
  exists (r :: rs), s3. split; [cbn; mrun Hrun; by mrun Hrun3|].
  intros z [Heq|Hz]%elem_of_cons; [by apply (Hr z)|by apply (Hrs z)].
Qed.

(** ** Witnesses *)

Definition demo_idr : idr := mk_idr ∅ [fr_new 0] false.

Definition demo_idr_ops : list idr_op :=
  [GetNewAbove 100 0 true; GetNewAbove 101 5 true; Remove 0 true; GetNewAbove 102 0 true; Find 5].

Example demo_idr_run :
  fst <$> (idr_init;; exec_ops demo_idr_ops) demo_idr =
  Some [NewId 0 (Some 0); NewId 0 (Some 5); Ret 0; NewId 0 (Some 0); Ptr 101].
Proof. vm_compute. reflexivity. Qed.

Lemma idr_refines_map_witness :
  ∃ rs s L, (idr_init;; exec_ops demo_idr_ops) demo_idr = Some (rs, s) ∧ idr_lock s = false ∧
    spec_ops ∅ ∅ demo_idr_ops rs (used_ids s) L.
Proof.
  apply (idr_refines_map demo_idr_ops demo_idr).
  repeat (apply Forall_cons; split; [unfold op_args, INT_MIN, INT_MAX; lia|]). by apply Forall_nil.
Defined.

Lemma idr_failed_alloc_loses_id_witness :
  ∃ id s', idr_get_new_above 7 3 false demo_idr = Some ((- ENOMEM, None), s') ∧
    3 <= id < IDR_MAX ∧ used_ids demo_idr !! id = None ∧
    ∃ rs s'', exec_ops demo_idr_ops s' = Some (rs, s'') ∧ ∀ r, NewId r (Some id) ∉ rs.
Proof.
  apply (idr_failed_alloc_loses_id ∅ demo_idr 7 3 demo_idr_ops).
  - apply new_idr_inv.
  - unfold INT_MAX. lia.
  - exists 3. unfold IDR_MAX. split; [lia|]. split; [reflexivity|set_solver].
  - repeat (apply Forall_cons; split; [unfold op_args, INT_MIN, INT_MAX; lia|]). by apply Forall_nil.
Defined.
