(* ===== verification/IdrList.v ===== *)
(** * drm_sun_idr.c: the hash tables of handles

    GEM handles and names live in an [idr_list]: 1024 circular lists, with new
    ids from a counter shared by all tables.  The list heads are a heap, as in
    the file LinuxList, whose lemmas carry the pointer work.  [tbl_map] relates a
    table to the finite map it stands for; the theorems show that the operations
    implement that map with fresh ids, also once the counter has wrapped, and
    never dereference a bad pointer. *)

From stdpp Require Import base option list gmap fin_maps.
From Stdlib Require Import ZArith Lia.
From S2P Require Import Prelude LinuxList.

(** ** Data *)

Definition DRM_GEM_OBJIDR_HASHNODE : Z := 1024.

(** The list heads: those of the buckets and those of the entries. *)
Inductive iaddr := Bucket (k : nat) | Entry (p : positive).

#[export] Instance iaddr_eq_dec : EqDecision iaddr.
Proof. solve_decision. Defined.
#[export] Instance iaddr_countable : Countable iaddr.
Proof.
  refine (inj_countable' (λ a, match a with Bucket k => inl k | Entry p => inr p end)
    (λ s, match s with inl k => Bucket k | inr p => Entry p end) _).
  by intros [].
Defined.

Abbreviation heads := (gmap iaddr (list_head iaddr unit)).

(** [struct idr_list]: the links of all its nodes, and [handle] and [obj] of the
    entries. *)
Record idr_list (O : Type) := mk_idr_list { links : heads; entries : gmap positive (Z * O) }.
Arguments mk_idr_list {_} _ _.
Arguments links {_} _.
Arguments entries {_} _.

(** The counters fr_id and fr_time, shared by all tables. *)
Record id_gen := mk_gen { fr_id : Z; fr_time : Z }.

Definition FR_MAX : Z := 2147483647.

Definition zero_head : list_head iaddr unit := mk_list_head None None None.

(** ** Operations *)

(** The loop of idr_list_init over the first [n] buckets. *)
Fixpoint init_buckets (n : nat) : option heads :=
  match n with
  | O => Some ∅
  | S n => h ← init_buckets n; INIT_LIST_HEAD (Bucket n) (<[Bucket n := zero_head]> h)
  end.

Definition hash_key (name : Z) : nat := Z.to_nat (name mod DRM_GEM_OBJIDR_HASHNODE).

Section IdrList.
Context {O : Type}.
Implicit Types (t : idr_list O) (g : id_gen).

Definition idr_list_init : option (idr_list O) :=
  h ← init_buckets (Z.to_nat DRM_GEM_OBJIDR_HASHNODE); Some (mk_idr_list h ∅).

Definition idr_list_pre_get : Z := -1.

(** The search of a bucket from [pos] on for the entry with the handle [name]. *)
Fixpoint scan (fuel : nat) (pos : option iaddr) (hd : iaddr) (name : Z) t : option (option (positive * O)) :=
  match fuel, pos with
  | S fuel, Some pos =>
    if decide (pos = hd) then Some None else
    match pos with
    | Bucket _ => None
    | Entry p =>
      '(handle, obj) ← entries t !! p;
      if handle =? name then Some (Some (p, obj)) else
      n ← rd_next (Some pos) (links t); scan fuel n hd name t
    end
  | _, _ => None
  end.

Definition bucket_scan (name : Z) t : option (option (positive * O)) :=
  let hd := Bucket (hash_key name) in
  first ← rd_next (Some hd) (links t); scan (S (size (entries t))) first hd name t.

Definition idr_list_find (name : Z) t : option (option O) :=
  r ← bucket_scan name t;
  Some (match r with Some (_, obj) => Some obj | None => None end).

(** The search for an unused id from [id] on, after the counter has wrapped. *)
Fixpoint find_unused (fuel : nat) (id : Z) t : option Z :=
  match fuel with
  | 0%nat => None
  | S fuel =>
    obj ← idr_list_find id t;
    match obj with
    | None => Some id
    | Some _ => if id + 1 <? FR_MAX then find_unused fuel (id + 1) t else Some (id + 1)
    end
  end.

(** The list part of an insertion: [entry] after the head [node]. *)
Definition link_entry (entry node : iaddr) (h : heads) : option heads :=
  temp ← rd_next (Some node) h;
  h ← wr_prev (Some entry) (Some node) h;
  n ← rd_next (Some node) h;
  h ← wr_next (Some entry) n h;
  h ← wr_prev temp (Some entry) h;
  wr_next (Some node) (Some entry) h.

Definition add_entry (id : Z) (obj : O) t : option (idr_list O) :=
  let p := fresh (dom (entries t)) in
  h ← link_entry (Entry p) (Bucket (hash_key id)) (<[Entry p := zero_head]> (links t));
  Some (mk_idr_list h (<[p := (id, obj)]> (entries t))).

(** The result, [*handlep] (0 when it is not assigned), the counters and the
    table; [alloc]: whether the entry could be allocated. *)
Definition idr_list_get_new_above (alloc : bool) (obj : O) g t : option (Z * Z * id_gen * idr_list O) :=
  if FR_MAX <? fr_id g then None else
  let id := u32 (fr_id g + 1) in
  let '(id, g) := if id =? FR_MAX then (1, mk_gen 1 (fr_time g + 1)) else (id, mk_gen id (fr_time g)) in
  id ← (if negb (fr_time g =? 0) then find_unused (S (size (entries t))) id t else Some id);
  if negb (fr_time g =? 0) && negb (id <? FR_MAX) then Some (- EAGAIN, 0, mk_gen 0 (fr_time g), t) else
  let g := if negb (fr_time g =? 0) then mk_gen id (fr_time g) else g in
  if negb alloc then Some (-1, 0, g, t) else
  t ← add_entry id obj t;
  Some (0, id, g, t).

Definition idr_list_remove (name : Z) t : option (Z * idr_list O) :=
  r ← bucket_scan name t;
  match r with
  | Some (p, _) =>
    h ← list_del (Entry p) (links t);
    Some (0, mk_idr_list (delete (Entry p) h) (delete p (entries t)))
  | None => Some (-1, t)
  end.

(** The loop of idr_list_free over one bucket: [n] is read before [pos] is
    freed. *)
Fixpoint free_from (fuel : nat) (pos n : option iaddr) (hd : iaddr) t : option (idr_list O) :=
  match fuel, pos with
  | S fuel, Some pos =>
    if decide (pos = hd) then Some t else
    match pos with
    | Bucket _ => None
    | Entry p =>
      h ← list_del pos (links t);
      let t := mk_idr_list (delete pos h) (delete p (entries t)) in
      nn ← rd_next n (links t);
      free_from fuel n nn hd t
    end
  | _, _ => None
  end.

Definition free_bucket (k : nat) t : option (idr_list O) :=
  pos ← rd_next (Some (Bucket k)) (links t); n ← rd_next pos (links t);
  free_from (S (size (entries t))) pos n (Bucket k) t.

(** The heads are freed with the table. *)
Fixpoint idr_list_free_from (n : nat) (k : nat) t : option (idr_list O) :=
  match n with
  | 0%nat => Some t
  | S n => t ← free_bucket k t; idr_list_free_from n (S k) t
  end.

Definition idr_list_free t : option (idr_list O) :=
  idr_list_free_from (Z.to_nat DRM_GEM_OBJIDR_HASHNODE) 0 t.

Fixpoint empty_from (n k : nat) t : option bool :=
  match n with
  | 0%nat => Some true
  | S n => e ← list_empty (Bucket k) (links t); if negb e then Some e else empty_from n (S k) t
  end.

Definition idr_list_empty t : option bool := empty_from (Z.to_nat DRM_GEM_OBJIDR_HASHNODE) 0 t.

(** idr_list_for_each: the entries bucket by bucket. *)
Definition objs_of (l : list iaddr) t : option (list (Z * O)) :=
  mapM (λ a, match a with Entry p => entries t !! p | Bucket _ => None end) l.

Fixpoint for_each_from (n k : nat) t : option (list (Z * O)) :=
  match n with
  | 0%nat => Some []
  | S n =>
    match list_for_each (S (size (entries t))) (Bucket k) (links t) with
    | Done l => es ← objs_of l t; rest ← for_each_from n (S k) t; Some (es ++ rest)
    | _ => None
    end
  end.

Definition idr_list_for_each t : option (list (Z * O)) :=
  for_each_from (Z.to_nat DRM_GEM_OBJIDR_HASHNODE) 0 t.
End IdrList.

(** ** Representation *)

Definition HASHNODE : nat := Z.to_nat DRM_GEM_OBJIDR_HASHNODE.

Lemma hash_key_lt name : (hash_key name < HASHNODE)%nat.
Proof.
  unfold hash_key, HASHNODE, DRM_GEM_OBJIDR_HASHNODE. pose proof (Z.mod_pos_bound name 1024). lia.
Qed.

(** [bs k] lists the entries of bucket [k]; [m] is the map the table stands for. *)
Record tbl_ok {O} (t : idr_list O) (bs : nat → list positive) (m : gmap Z O) : Prop := {
  ok_links k : (k < HASHNODE)%nat → dll (links t) (Bucket k) (Entry <$> bs k);
  ok_bucket k p : (k < HASHNODE)%nat → p ∈ bs k → ∃ h o, entries t !! p = Some (h, o) ∧ hash_key h = k;
  ok_entry p h o : entries t !! p = Some (h, o) → p ∈ bs (hash_key h);
  ok_unique p q h o o' : entries t !! p = Some (h, o) → entries t !! q = Some (h, o') → p = q;
  ok_map h o : m !! h = Some o ↔ ∃ p, entries t !! p = Some (h, o);
}.

Definition tbl_map {O} (t : idr_list O) (m : gmap Z O) : Prop := ∃ bs, tbl_ok t bs m.

#[export] Instance Entry_inj : Inj (=) (=) Entry.
Proof. by intros ? ? [= ->]. Qed.

(** Lists that are not touched stay as they are. *)
Lemma dll_same (h h' : heads) hd xs : dll h hd xs → (∀ a, a ∈ hd :: xs → h' !! a = h !! a) → dll h' hd xs.
Proof.
  intros [Hnd Hs] Ha. split; [done|]. eapply seg_frame; [..|exact Hs]; intros a Hin; unfold nxt, prv; rewrite Ha; try done.
  apply elem_of_app in Hin as [?| ->%list_elem_of_singleton]; [by right|by left].
Qed.

(** The links of an insertion are those of [list_add]. *)
Lemma link_entry_add ptr hd (e : unit) (h : heads) :
  list_add ptr hd e h = h' ← link_entry ptr hd h; wr_contain_ptr (Some ptr) (Some e) h'.
Proof.
  unfold list_add, link_entry.
  repeat match goal with |- (?m ≫= _) = _ => destruct m; cbn [mbind option_bind]; [|done] end. done.
Qed.

Lemma link_entry_ok ptr hd xs (h : heads) : dll h hd xs → ptr ∉ hd :: xs → is_Some (h !! ptr) →
  ∃ h', link_entry ptr hd h = Some h' ∧ dll h' hd (ptr :: xs) ∧ frame h h' (ptr :: hd :: xs).
Proof.
  intros Hd Hni Hp. destruct (dll_list_add h hd xs ptr tt Hd Hni Hp) as (h2 & Hr & Hd2 & Hf & _).
  rewrite link_entry_add in Hr. destruct (link_entry ptr hd h) as [h1|]; [|done]. cbn [mbind option_bind] in Hr.
  assert (is_Some (h1 !! ptr)) as Hp1.
  { unfold wr_contain_ptr in Hr. cbn in Hr. destruct (h1 !! ptr); [by eexists|done]. }
  rewrite wr_contain_alter in Hr by done. simplify_eq. exists h1. split; [done|]. split.
  - destruct Hd2 as [Hnd Hs]. split; [done|]. eapply seg_frame; [..|exact Hs]; intros a _.
    + by rewrite nxt_set_contain.
    + by rewrite prv_set_contain.
  - intros a Ha. rewrite <- Hf by done. rewrite lookup_alter_ne; [done|]. set_solver.
Qed.

Section Tables.
Context {O : Type}.
Implicit Types (t : idr_list O) (m : gmap Z O) (g : id_gen).

Lemma bucket_length t bs m k : tbl_ok t bs m → (k < HASHNODE)%nat → (length (bs k) < S (size (entries t)))%nat.
Proof.
  intros Hok Hk. destruct (ok_links _ _ _ Hok k Hk) as [[_ Hnd]%NoDup_cons _]. apply NoDup_fmap in Hnd; [|apply _].
  assert (length (bs k) <= size (entries t))%nat; [|lia].
  apply length_le_size; [done|]. intros p Hp. destruct (ok_bucket _ _ _ Hok k p Hk Hp) as (h & o & He & _). by eexists.
Qed.

(** The search of a bucket. *)
Lemma scan_ok t name hd ps : ∀ a fuel, seg (links t) a (Entry <$> ps) hd → hd ∉ (Entry <$> ps) →
  (∀ p, p ∈ ps → is_Some (entries t !! p)) → (length ps < fuel)%nat →
  ∃ r, scan fuel (Some (List.hd hd (Entry <$> ps))) hd name t = Some r ∧
    match r with
    | Some (p, o) => p ∈ ps ∧ entries t !! p = Some (name, o)
    | None => ∀ p o, p ∈ ps → entries t !! p ≠ Some (name, o)
    end.
Proof.
  induction ps as [|p ps IH]; intros a [|fuel] Hs Hni Hes Hf; cbn in Hf; try lia; cbn [fmap list_fmap List.hd scan].
  - rewrite decide_True by done. exists None. split; [done|]. intros p o Hp. by apply not_elem_of_nil in Hp.
  - rewrite decide_False by (cbn in Hni; set_solver). destruct (Hes p) as [[h o] He]; [by left|]. rewrite He. cbn [mbind option_bind].
    destruct (Z.eqb_spec h name) as [->|Hne].
    + exists (Some (p, o)). split; [done|]. split; [by left|done].
    + destruct Hs as [_ Hs]. assert (nxt (links t) (Entry p) = Some (List.hd hd (Entry <$> ps))) as Hn.
      { destruct ps; apply Hs. }
      rewrite (rd_next_nxt (Entry p)) by (by eapply nxt_Some). rewrite Hn. cbn [mbind option_bind].
      destruct (IH (Entry p) fuel) as (r & -> & Hr); [done|cbn in Hni; set_solver| |lia|].
      { intros q Hq. apply Hes. by right. }
      exists r. split; [done|]. destruct r as [[q o']|].
      * destruct Hr. split; [by right|done].
      * intros q o' [->|Hq]%elem_of_cons; [|by apply Hr]. rewrite He. congruence.
Qed.

Lemma bucket_scan_ok t bs m name : tbl_ok t bs m → ∃ r, bucket_scan name t = Some r ∧
  match r with
  | Some (p, o) => p ∈ bs (hash_key name) ∧ entries t !! p = Some (name, o) ∧ m !! name = Some o
  | None => m !! name = None
  end.
Proof.
  intros Hok. pose proof (hash_key_lt name) as Hk. pose proof (ok_links _ _ _ Hok _ Hk) as Hd. unfold bucket_scan.
  rewrite rd_next_nxt by (eapply dll_alloc; [exact Hd|by left]). rewrite (dll_next _ _ _ Hd). cbn [mbind option_bind].
  destruct (scan_ok t name (Bucket (hash_key name)) (bs (hash_key name)) (Bucket (hash_key name)) (S (size (entries t))))
    as (r & Hr & Hres); [apply Hd|apply NoDup_cons_1_1; apply Hd| |by eapply bucket_length|].
  { intros p Hp. destruct (ok_bucket _ _ _ Hok _ p Hk Hp) as (h & o & He & _). by eexists. }
  exists r. split.
  { by rewrite <- Hr. }
  destruct r as [[p o]|].
  - destruct Hres as [Hp He]. split; [done|]. split; [done|]. apply (ok_map _ _ _ Hok). by exists p.
  - destruct (m !! name) as [o|] eqn:Hm; [|done]. apply (ok_map _ _ _ Hok) in Hm as [p Hp].
    exfalso. eapply Hres; [|exact Hp]. by eapply ok_entry.
Qed.

Lemma find_ok t m name : tbl_map t m → idr_list_find name t = Some (m !! name).
Proof.
  intros [bs Hok]. destruct (bucket_scan_ok t bs m name Hok) as (r & Hr & Hres). unfold idr_list_find. rewrite Hr.
  cbn. destruct r as [[p o]|]; [destruct Hres as (_ & _ & ->)|rewrite Hres]; done.
Qed.

(** The search for an unused id ends. *)
Lemma find_unused_ok t m fuel : ∀ id, tbl_map t m → (size (filter (λ e, (id <= e.2.1)%Z) (entries t)) < fuel)%nat → id < FR_MAX →
  ∃ id', find_unused fuel id t = Some id' ∧ id <= id' <= FR_MAX ∧ (id' < FR_MAX → m !! id' = None).
Proof.
  induction fuel as [|fuel IH]; intros id Hm Hf Hid; [lia|]. cbn [find_unused]. rewrite (find_ok t m id Hm). cbn [mbind option_bind].
  destruct (m !! id) as [o|] eqn:Ho; [|exists id; split; [done|]; split; [lia|done]].
  destruct (Z.ltb_spec (id + 1) FR_MAX) as [Hlt|]; [|exists (id + 1); split; [done|]; split; [lia|lia]].
  destruct (IH (id + 1) Hm) as (id' & Hr & Hb & Hn); [|done|exists id'; split; [done|]; split; [lia|done]].
  destruct Hm as [bs Hok]. apply (ok_map _ _ _ Hok) in Ho as [p Hp].
  assert (size (filter (λ e, (id + 1 <= e.2.1)%Z) (entries t)) < size (filter (λ e, (id <= e.2.1)%Z) (entries t)))%nat; [|lia].
  apply map_subset_size. split.
  - apply map_subseteq_spec. intros q e. rewrite !map_lookup_filter_Some. cbn. intros [? ?]. split; [done|lia].
  - intros Hsub. rewrite map_subseteq_spec in Hsub. specialize (Hsub p (id, o)). rewrite !map_lookup_filter_Some in Hsub. cbn in Hsub.
    destruct Hsub as [_ ?]; [split; [done|lia]|lia].
Qed.

(** The table of one bucket changes; the addresses of the others do not. *)
Lemma other_bucket t bs m k k' a : tbl_ok t bs m → (k < HASHNODE)%nat → (k' < HASHNODE)%nat → k ≠ k' →
  a ∈ Bucket k' :: (Entry <$> bs k') → a ∉ Bucket k :: (Entry <$> bs k).
Proof.
  intros Hok Hk Hk' Hne Ha Ha'. apply elem_of_cons in Ha as [->|Ha]; apply elem_of_cons in Ha' as [Ha'|Ha'];
    repeat match goal with H : _ ∈ Entry <$> _ |- _ => apply list_elem_of_fmap in H as (? & ? & ?) end; simplify_eq.
  destruct (ok_bucket _ _ _ Hok k x Hk) as (h & o & He & Hh); [done|].
  destruct (ok_bucket _ _ _ Hok k' x Hk') as (h' & o' & He' & Hh'); [done|]. congruence.
Qed.

Lemma add_entry_ok t bs m id o : tbl_ok t bs m → m !! id = None →
  ∃ t' bs', add_entry id o t = Some t' ∧ tbl_ok t' bs' (<[id := o]> m).
Proof.
  intros Hok Hid. unfold add_entry. set (p := fresh (dom (entries t))).
  assert (entries t !! p = None) as Hp by (apply not_elem_of_dom, is_fresh).
  assert (∀ k, (k < HASHNODE)%nat → p ∉ bs k) as Hpk.
  { intros k Hk Hin. destruct (ok_bucket _ _ _ Hok k p Hk Hin) as (? & ? & ? & _). congruence. }
  assert (∀ k, (k < HASHNODE)%nat → Entry p ∉ Bucket k :: (Entry <$> bs k)) as Hep.
  { intros k Hk [|(q & [= <-] & Hq)%list_elem_of_fmap]%elem_of_cons; [done|]. by eapply Hpk. }
  set (h0 := <[Entry p := zero_head]> (links t)).
  assert (∀ k, (k < HASHNODE)%nat → dll h0 (Bucket k) (Entry <$> bs k)) as Hd0.
  { intros k Hk. eapply dll_same; [by apply (ok_links _ _ _ Hok)|]. intros a Ha. unfold h0.
    rewrite lookup_insert_ne; [done|]. intros <-. by eapply Hep. }
  pose proof (hash_key_lt id) as Hk. set (k := hash_key id) in *.
  destruct (link_entry_ok (Entry p) (Bucket k) (Entry <$> bs k) h0 (Hd0 k Hk) (Hep k Hk)) as (h1 & -> & Hd1 & Hf).
  { unfold h0. rewrite lookup_insert_eq. by eexists. }
  cbn [mbind option_bind]. eexists _, (λ j, if decide (j = k) then p :: bs k else bs j). split; [done|]. split; cbn [links entries].
  - intros j Hj. case_decide as Hjk; [subst j; done|]. eapply dll_same; [by apply Hd0|]. intros a Ha. apply Hf.
    intros [->|Ha']%elem_of_cons; [by eapply Hep|]. by eapply (other_bucket t bs m k j a).
  - intros j q Hj Hq. case_decide as Hjk.
    + subst j. apply elem_of_cons in Hq as [->|Hq]; [exists id, o; by rewrite lookup_insert_eq|].
      destruct (ok_bucket _ _ _ Hok k q Hk Hq) as (h & o' & He & Hh). exists h, o'. rewrite lookup_insert_ne; [done|congruence].
    + destruct (ok_bucket _ _ _ Hok j q Hj Hq) as (h & o' & He & Hh). exists h, o'. rewrite lookup_insert_ne; [done|congruence].
  - intros q h o' Hq. apply lookup_insert_Some in Hq as [[<- [= <- <-]]|[Hne Hq]].
    + rewrite decide_True by done. by left.
    + apply (ok_entry _ _ _ Hok) in Hq. case_decide as Hjk; [right; by rewrite <- Hjk|done].
  - intros q r h o1 o2 Hq Hr. assert (∀ x y, entries t !! x = Some (id, y) → False) as Hno.
    { intros x y Hx. assert (m !! id = Some y) by (apply (ok_map _ _ _ Hok); by exists x). congruence. }
    apply lookup_insert_Some in Hq as [[? Hq]|[? Hq]]; apply lookup_insert_Some in Hr as [[? Hr]|[? Hr]]; simplify_eq; try done.
    + by apply Hno in Hr.
    + by apply Hno in Hq.
    + by eapply (ok_unique _ _ _ Hok).
  - intros h o'. rewrite lookup_insert_Some, (ok_map _ _ _ Hok). split.
    + intros [[<- <-]|[Hne (q & Hq)]]; [exists p; by rewrite lookup_insert_eq|]. exists q. rewrite lookup_insert_ne; [done|congruence].
    + intros (q & [[<- [= <- <-]]|[Hne Hq]]%lookup_insert_Some); [by left|]. right. split; [|by exists q].
      intros <-. assert (m !! id = Some o') by (apply (ok_map _ _ _ Hok); by exists q). congruence.
Qed.

(** An entry leaves its list, is freed, and the rest of the table stays. *)
Lemma unlink_ok t bs m k l1 p l2 h o : tbl_ok t bs m → (k < HASHNODE)%nat → bs k = l1 ++ p :: l2 → entries t !! p = Some (h, o) →
  ∃ h', list_del (Entry p) (links t) = Some h' ∧
    tbl_ok (mk_idr_list (delete (Entry p) h') (delete p (entries t))) (λ j, if decide (j = k) then l1 ++ l2 else bs j) (delete h m).
Proof.
  intros Hok Hk Hbs He. pose proof (ok_links _ _ _ Hok k Hk) as Hd. rewrite Hbs, fmap_app, fmap_cons in Hd.
  destruct (dll_list_del _ _ _ _ _ Hd) as (h' & Hr & Hd' & Hf & _). exists h'. split; [done|].
  assert (h ∈ dom m ∧ hash_key h = k) as [Hh Hhk].
  { split; [apply elem_of_dom; exists o; apply (ok_map _ _ _ Hok); by exists p|].
    destruct (ok_bucket _ _ _ Hok k p Hk) as (h0 & o0 & He0 & Hh0); [rewrite Hbs; set_solver|]. congruence. }
  assert (NoDup (bs k)) as Hnd.
  { pose proof (ok_links _ _ _ Hok k Hk) as [[_ Hn]%NoDup_cons _]. by apply NoDup_fmap_1 in Hn. }
  assert (p ∉ l1 ++ l2) as Hp.
  { rewrite Hbs in Hnd. apply NoDup_app in Hnd as (_ & Hx & Hy). apply NoDup_cons in Hy as [Hy _]. set_solver. }
  assert (∀ q, q ∈ l1 ++ l2 → q ∈ bs k ∧ q ≠ p) as Hq by (rewrite Hbs; set_solver).
  split; cbn [links entries].
  - intros j Hj. case_decide as Hjk.
    + subst j. rewrite fmap_app. eapply dll_same; [exact Hd'|]. intros a Ha. rewrite lookup_delete_ne; [done|]. intros <-.
      rewrite <- fmap_app in Ha. apply elem_of_cons in Ha as [|(q & [= <-] & Hq')%list_elem_of_fmap]; done.
    + eapply dll_same; [by apply (ok_links _ _ _ Hok)|]. intros a Ha.
      assert (a ∉ Bucket k :: (Entry <$> bs k)) as Hna by (by eapply (other_bucket t bs m k j)).
      rewrite Hbs, fmap_app, fmap_cons in Hna. rewrite lookup_delete_ne, Hf; [done|done|]. intros <-. set_solver.
  - intros j q Hj Hjq. assert (q ∈ bs j ∧ q ≠ p) as [Hqj Hne].
    { case_decide as Hjk; [subst j; by apply Hq|]. split; [done|]. intros ->.
      destruct (ok_bucket _ _ _ Hok j p Hj Hjq) as (h0 & o0 & He0 & Hh0). congruence. }
    destruct (ok_bucket _ _ _ Hok j q Hj Hqj) as (h0 & o0 & He0 & Hh0). exists h0, o0. by rewrite lookup_delete_ne.
  - intros q h0 o0 [Hne He0]%lookup_delete_Some. pose proof (ok_entry _ _ _ Hok _ _ _ He0) as Hin.
    case_decide as Hjk; [|done]. rewrite Hjk, Hbs in Hin. set_solver.
  - intros q r h0 o1 o2 [_ H1]%lookup_delete_Some [_ H2]%lookup_delete_Some. by eapply (ok_unique _ _ _ Hok).
  - intros h0 o0. rewrite lookup_delete_Some, (ok_map _ _ _ Hok). split.
    + intros [Hne (q & H0)]. exists q. rewrite lookup_delete_ne; [done|congruence].
    + intros (q & [Hne H0]%lookup_delete_Some). split; [|by exists q]. intros ->.
      apply Hne. symmetry. by eapply (ok_unique _ _ _ Hok).
Qed.

(** [find_unused] gives up only when every id from [id] on is taken. *)
Lemma find_unused_full t m fuel : ∀ id, tbl_map t m → id < FR_MAX → find_unused fuel id t = Some FR_MAX →
  ∀ h, id <= h < FR_MAX → is_Some (m !! h).
Proof.
  induction fuel as [|fuel IH]; intros id Hm Hid Hr h Hh; [done|]. cbn [find_unused] in Hr. rewrite (find_ok t m id Hm) in Hr.
  cbn [mbind option_bind] in Hr. destruct (m !! id) as [o|] eqn:Ho; [|apply (inj Some) in Hr; lia].
  destruct (decide (h = id)) as [->|]; [by rewrite Ho|].
  destruct (Z.ltb_spec (id + 1) FR_MAX); [|lia]. apply (IH (id + 1)); [done..|lia].
Qed.

Lemma remove_ok t m name : tbl_map t m →
  ∃ t', idr_list_remove name t = Some (if decide (is_Some (m !! name)) then 0 else -1, t') ∧ tbl_map t' (delete name m).
Proof.
  intros [bs Hok]. destruct (bucket_scan_ok t bs m name Hok) as (r & Hr & Hres). unfold idr_list_remove. rewrite Hr.
  cbn [mbind option_bind]. destruct r as [[p o]|].
  - destruct Hres as (Hp & He & Hm). apply list_elem_of_split in Hp as (l1 & l2 & Hl).
    destruct (unlink_ok t bs m _ l1 p l2 name o Hok (hash_key_lt name) Hl He) as (h' & -> & Hok'). eexists. split.
    + rewrite decide_True by (rewrite Hm; by eexists). done.
    + by eexists.
  - exists t. split; [by rewrite decide_False by (rewrite Hres; by intros [? ?])|]. exists bs. by rewrite delete_id.
Qed.

(** The counters agree with the ids of a table. *)
Definition gen_ok g m : Prop :=
  0 <= fr_id g < FR_MAX ∧ 0 <= fr_time g ∧ ∀ h, is_Some (m !! h) → 0 < h < FR_MAX ∧ (fr_time g = 0 → h <= fr_id g).

(** From [g] to [g'] every id that could have been given out still counts. *)
Definition gen_le g g' : Prop :=
  0 <= fr_id g' < FR_MAX ∧ 0 <= fr_time g' ∧ (fr_time g' = 0 → fr_time g = 0 ∧ fr_id g <= fr_id g').

Lemma gen_ok_le g g' m : gen_ok g m → gen_le g g' → gen_ok g' m.
Proof.
  intros (H1 & H2 & H3) (H4 & H5 & H6). split_and!; [lia..|]. intros h Hh. destruct (H3 h Hh) as [Hb Hle]. split; [done|].
  intros Ht. destruct (H6 Ht) as [Ht' Hid]. specialize (Hle Ht'). lia.
Qed.

Lemma new_ok alloc o g t m : tbl_map t m → gen_ok g m →
  ∃ ret id g' t', idr_list_get_new_above alloc o g t = Some (ret, id, g', t') ∧ gen_le g g' ∧
    if decide (ret = 0) then 0 < id < FR_MAX ∧ alloc = true ∧ m !! id = None ∧ tbl_map t' (<[id := o]> m) ∧ gen_ok g' (<[id := o]> m)
    else t' = t.
Proof.
  intros Hm (Hid & Htime & Hin). unfold idr_list_get_new_above. rewrite (proj2 (Z.ltb_ge _ _)) by lia.
  rewrite u32_id by (unfold FR_MAX in Hid; lia).
  set (p := if fr_id g + 1 =? FR_MAX then (1, mk_gen 1 (fr_time g + 1)) else (fr_id g + 1, mk_gen (fr_id g + 1) (fr_time g))).
  assert (∃ id0 g0, p = (id0, g0) ∧ fr_id g0 = id0 ∧ 0 < id0 < FR_MAX ∧ gen_le g g0 ∧ (fr_time g0 = 0 → m !! id0 = None))
    as (id0 & g0 & -> & Hg0 & Hid0 & Hle0 & Hfresh).
  { unfold p. destruct (Z.eqb_spec (fr_id g + 1) FR_MAX).
    - exists 1, (mk_gen 1 (fr_time g + 1)). unfold gen_le, FR_MAX in *. cbn. split_and!; first [done|lia].
    - exists (fr_id g + 1), (mk_gen (fr_id g + 1) (fr_time g)). unfold gen_le. cbn. split_and!; try first [done|lia].
      intros Ht. destruct (m !! (fr_id g + 1)) eqn:Hx; [|done]. destruct (Hin (fr_id g + 1)) as [_ Hle]; [by rewrite Hx|].
      specialize (Hle Ht). lia. }
  assert (∀ g1 id1, gen_le g g1 → fr_id g1 = id1 → 0 < id1 < FR_MAX → m !! id1 = None → ∃ ret id g' t',
    (if negb alloc then Some (-1, 0, g1, t) else t ← add_entry id1 o t; Some (0, id1, g1, t)) = Some (ret, id, g', t') ∧ gen_le g g' ∧
    if decide (ret = 0) then 0 < id < FR_MAX ∧ alloc = true ∧ m !! id = None ∧ tbl_map t' (<[id := o]> m) ∧ gen_ok g' (<[id := o]> m)
    else t' = t) as Hfin.
  { intros g1 id1 Hle Hid1 Hb Hno. destruct alloc; cbn [negb]; [|by exists (-1), 0, g1, t].
    destruct Hm as [bs Hok]. destruct (add_entry_ok t bs m id1 o Hok Hno) as (t' & bs' & -> & Hok').
    exists 0, id1, g1, t'. split; [done|]. split; [done|]. rewrite decide_True by done. split_and!; try done; [lia|lia|by exists bs'|].
    assert (gen_ok g1 m) as (H1 & H2 & H3) by (eapply gen_ok_le; [|exact Hle]; done).
    split_and!; [lia|lia|lia|]. intros h Hh. destruct (decide (h = id1)) as [->|Hne]; [lia|].
    rewrite lookup_insert_ne in Hh by done. by apply H3. }
  cbv iota beta. destruct (Z.eqb_spec (fr_time g0) 0) as [Ht|Ht]; cbn [negb mbind option_bind andb].
  - apply Hfin; auto.
  - destruct (find_unused_ok t m (S (size (entries t))) id0 Hm) as (id1 & Hr & Hb & Hno); [|lia|].
    { apply Nat.lt_succ_r, map_subseteq_size, map_filter_subseteq. }
    rewrite Hr. cbn [mbind option_bind]. destruct (Z.ltb_spec id1 FR_MAX) as [Hlt|]; cbn [negb].
    + apply Hfin; [|done|lia|auto]. destruct Hle0 as (? & ? & ?). unfold gen_le. cbn. split_and!; lia.
    + exists (- EAGAIN), 0, (mk_gen 0 (fr_time g0)), t. split; [done|]. destruct Hle0 as (? & ? & ?).
      unfold FR_MAX in *. split; [|done]. unfold gen_le. cbn. unfold FR_MAX. split_and!; lia.
Qed.

Lemma init_buckets_ok n : ∃ h, init_buckets n = Some h ∧
  (∀ k, (k < n)%nat → dll h (Bucket k) []) ∧ ∀ a, is_Some (h !! a) → ∃ k, a = Bucket k ∧ (k < n)%nat.
Proof.
  induction n as [|n (h & Hr & Hd & Hdom)]; cbn [init_buckets].
  { exists ∅. split; [done|]. split; [lia|]. intros a. rewrite lookup_empty. by intros [? ?]. }
  rewrite Hr. cbn [mbind option_bind]. set (h0 := <[Bucket n := zero_head]> h).
  destruct (INIT_LIST_HEAD_run (Bucket n) h0) as (h1 & -> & Hu); [unfold h0; rewrite lookup_insert_eq; by eexists|].
  exists h1. split; [done|]. split.
  - intros k Hk. destruct (decide (k = n)) as [->|Hne].
    + split; [apply NoDup_singleton|]. cbn. split.
      * change (nxt h1 (Bucket n) = Some (Bucket n)). rewrite (upd_nxt _ _ _ _ _ Hu). by rewrite decide_True.
      * change (prv h1 (Bucket n) = Some (Bucket n)). rewrite (upd_prv _ _ _ _ _ Hu). by rewrite decide_True.
    + eapply dll_same; [apply Hd; lia|]. intros a ->%list_elem_of_singleton.
      rewrite (heap_upd_frame h0 h1 _ _ _ (Bucket k) Hu); cbn beta; [|by rewrite decide_False by congruence..].
      unfold h0. rewrite lookup_insert_ne; [done|congruence].
  - intros a Ha. apply (upd_dom _ _ _ _ _ Hu) in Ha. unfold h0 in Ha. destruct (decide (a = Bucket n)) as [->|Hne].
    + exists n. split; [done|lia].
    + rewrite lookup_insert_ne in Ha by done. destruct (Hdom a Ha) as (k & -> & Hk). exists k. split; [done|lia].
Qed.

Lemma init_ok : ∃ t, idr_list_init (O := O) = Some t ∧ tbl_map t ∅.
Proof.
  unfold idr_list_init. destruct (init_buckets_ok HASHNODE) as (h & Hr & Hd & _). unfold HASHNODE in Hr. rewrite Hr. clear Hr.
  cbn [mbind option_bind]. eexists. split; [done|]. exists (λ _, []). split; cbn [links entries].
  - done.
  - intros k p _ Hp. by apply not_elem_of_nil in Hp.
  - intros p h' o. by rewrite lookup_empty.
  - intros p q h' o o'. by rewrite lookup_empty.
  - intros h' o. rewrite lookup_empty. split; [done|]. intros (p & Hp). by rewrite lookup_empty in Hp.
Qed.

(** After -EAGAIN the counter starts again, and then an id is found unless the
    table has all of them. *)
Lemma new_again alloc o g t m ret id g' t' : tbl_map t m → gen_ok g m →
  idr_list_get_new_above alloc o g t = Some (ret, id, g', t') → ret = - EAGAIN →
  fr_id g' = 0 ∧ (fr_id g = 0 → FR_MAX - 1 <= Z.of_nat (size m)).
Proof.
  intros Hm (Hid & Htime & Hin) Hr Hret. unfold idr_list_get_new_above in Hr. rewrite (proj2 (Z.ltb_ge _ _)) in Hr by lia.
  rewrite u32_id in Hr by (unfold FR_MAX in Hid; lia).
  set (p := if fr_id g + 1 =? FR_MAX then _ else _) in Hr.
  assert (∃ id0 g0, p = (id0, g0) ∧ id0 < FR_MAX ∧ (fr_id g = 0 → id0 = 1)) as (id0 & g0 & Hp & Hlt & Hone).
  { unfold p. destruct (Z.eqb_spec (fr_id g + 1) FR_MAX); eexists _, _; (split; [done|]); unfold FR_MAX in *; split; lia. }
  rewrite Hp in Hr. destruct (negb (fr_time g0 =? 0)); cbn [andb] in Hr.
  - destruct (find_unused _ id0 t) as [id1|] eqn:Hf; [|done]. cbn [mbind option_bind] in Hr.
    destruct (Z.ltb_spec id1 FR_MAX); cbn [negb] in Hr.
    + destruct alloc; cbn [negb] in Hr; [destruct (add_entry id1 o t); [|done]; cbn in Hr|]; simplify_eq.
    + simplify_eq. split; [done|]. intros H0. rewrite (Hone H0) in *.
      destruct (find_unused_ok t' m (S (size (entries t'))) 1 Hm) as (id2 & Hf2 & Hb & _); [|done|].
      { apply Nat.lt_succ_r, map_subseteq_size, map_filter_subseteq. }
      assert (id1 = FR_MAX) as -> by (rewrite Hf in Hf2; simplify_eq; lia).
      pose proof (find_unused_full t' m _ 1 Hm Hlt Hf) as Hall.
      assert (length (seqZ 1 (FR_MAX - 1)) <= size m)%nat as Hsz.
      { apply length_le_size; [apply NoDup_seqZ|]. intros h Hh. apply Hall. apply elem_of_seqZ in Hh. lia. }
      rewrite length_seqZ in Hsz. unfold FR_MAX in *. lia.
  - cbn [mbind option_bind] in Hr. destruct alloc; cbn [negb] in Hr; [destruct (add_entry id0 o t); [|done]; cbn in Hr|]; simplify_eq.
Qed.

Lemma size_ok t m : tbl_map t m → (size m <= size (entries t))%nat.
Proof.
  intros [bs Hok]. rewrite <- (length_map_to_list m), <- (length_map_to_list (entries t)).
  rewrite <- (length_fmap fst (map_to_list m)), <- (length_fmap (λ e, e.2.1) (map_to_list (entries t))).
  apply submseteq_length, NoDup_submseteq; [apply NoDup_fst_map_to_list|].
  intros h ([h' o] & -> & Hin)%list_elem_of_fmap. apply elem_of_map_to_list in Hin. cbn.
  apply (ok_map _ _ _ Hok) in Hin as (p & Hp). apply list_elem_of_fmap. exists (p, (h', o)). split; [done|by apply elem_of_map_to_list].
Qed.

(** ** Walking over the whole table *)

Lemma for_each_from_ok t bs m : tbl_ok t bs m → ∀ n k, (k + n <= HASHNODE)%nat →
  ∃ l, for_each_from n k t = Some l ∧ NoDup l.*1 ∧
    ∀ h o, (h, o) ∈ l ↔ m !! h = Some o ∧ (k <= hash_key h < k + n)%nat.
Proof.
  intros Hok. induction n as [|n IH]; intros k Hk; cbn [for_each_from].
  { exists []. split; [done|]. split; [apply NoDup_nil_2|]. intros h o. rewrite elem_of_nil. lia. }
  assert (k < HASHNODE)%nat as Hk' by lia. pose proof (ok_links _ _ _ Hok k Hk') as Hd.
  assert (list_for_each (S (size (entries t))) (Bucket k) (links t) = Done (Entry <$> bs k)) as ->.
  { unfold list_for_each. rewrite rd_next_nxt by (eapply dll_alloc; [exact Hd|by left]). rewrite (dll_next _ _ _ Hd).
    apply (list_for_each_from_seg _ (Bucket k)); [apply Hd|apply NoDup_cons_1_1; apply Hd|].
    rewrite length_fmap. by eapply bucket_length. }
  assert (∀ ps, (∀ p, p ∈ ps → p ∈ bs k) → NoDup ps → ∃ es, objs_of (Entry <$> ps) t = Some es ∧ NoDup es.*1 ∧
    ∀ h o, (h, o) ∈ es ↔ ∃ p, p ∈ ps ∧ entries t !! p = Some (h, o)) as Hes.
  { induction ps as [|p ps IHp]; intros Hin Hnd.
    { exists []. split; [done|]. split; [apply NoDup_nil_2|]. intros h o. rewrite elem_of_nil. split; [done|].
      intros (p & Hp & _). by apply not_elem_of_nil in Hp. }
    apply NoDup_cons in Hnd as [Hp Hnd]. destruct IHp as (es & Hr & Hnde & Hes); [intros q Hq; apply Hin; by right|done|].
    destruct (ok_bucket _ _ _ Hok k p Hk') as (h & o & He & _); [apply Hin; by left|]. exists ((h, o) :: es). split.
    { unfold objs_of in *. cbn [fmap list_fmap mapM]. rewrite He. cbn [mbind option_bind]. by rewrite Hr. }
    split.
    - cbn. apply NoDup_cons. split; [|done]. intros ([h' o'] & Heq & Hel)%list_elem_of_fmap. cbn in Heq. subst h'.
      apply Hes in Hel as (q & Hq & Heq). apply Hp. by rewrite (ok_unique _ _ _ Hok p q h o o').
    - intros h' o'. rewrite elem_of_cons, Hes. split.
      + intros [[= -> ->]|(q & Hq & Hqe)]; [exists p; split; [by left|done]|exists q; split; [by right|done]].
      + intros (q & [->|Hq]%elem_of_cons & Hqe); [left; congruence|right; by exists q]. }
  destruct (Hes (bs k)) as (es & -> & Hnd1 & Hel1); [done|destruct Hd as [[_ Hnd]%NoDup_cons _]; by apply NoDup_fmap_1 in Hnd|].
  destruct (IH (S k)) as (rest & -> & Hnd2 & Hel2); [lia|]. cbn [mbind option_bind]. exists (es ++ rest). split; [done|].
  assert (∀ h o, (h, o) ∈ es ↔ m !! h = Some o ∧ hash_key h = k) as Hel1'.
  { intros h o. rewrite Hel1, (ok_map _ _ _ Hok). split.
    - intros (p & Hp & He). split; [by exists p|]. destruct (ok_bucket _ _ _ Hok k p Hk' Hp) as (h' & o' & He' & Hh'). congruence.
    - intros [(p & He) Hh]. exists p. split; [|done]. rewrite <- Hh. by eapply ok_entry. }
  split.
  - rewrite fmap_app. apply NoDup_app. split; [done|]. split; [|done].
    intros h ([h1 o1] & -> & H1)%list_elem_of_fmap ([h2 o2] & Heq & H2)%list_elem_of_fmap. cbn in Heq. subst h2.
    apply Hel1' in H1 as [_ H1]. apply Hel2 in H2 as [_ H2]. cbn in H1. lia.
  - intros h o. rewrite elem_of_app, Hel1', Hel2. destruct (decide (hash_key h = k)); split; intros; [lia || (destruct_or!; split; tauto || lia)| | |];
      destruct_and?; destruct_or?; destruct_and?; try lia; try (split; [done|lia]).
    + by left.
    + right. split; [done|lia].
Qed.

Lemma each_ok t m : tbl_map t m → ∃ l, idr_list_for_each t = Some l ∧ l ≡ₚ map_to_list m.
Proof.
  intros [bs Hok]. destruct (for_each_from_ok t bs m Hok HASHNODE 0) as (l & Hr & Hnd & Hl); [done|].
  exists l. split; [exact Hr|]. apply NoDup_Permutation; [by eapply NoDup_fmap_1|apply NoDup_map_to_list|].
  intros [h o]. rewrite Hl, elem_of_map_to_list. pose proof (hash_key_lt h). split; [by intros [? _]|]. split; [done|lia].
Qed.

(** ** Freeing a table *)

Lemma dll_nxt_hd (h : heads) k (p : positive) ps : dll h (Bucket k) (Entry <$> (p :: ps)) →
  nxt h (Entry p) = Some (List.hd (Bucket k) (Entry <$> ps)).
Proof. intros [_ [_ Hs]]. destruct ps; apply Hs. Qed.

Lemma free_from_ok k ps : (k < HASHNODE)%nat → ∀ fuel t bs m n, tbl_ok t bs m → bs k = ps → (length ps < fuel)%nat →
  (match ps with [] => True | _ :: rest => n = Some (List.hd (Bucket k) (Entry <$> rest)) end) →
  ∃ t' bs' m', free_from fuel (Some (List.hd (Bucket k) (Entry <$> ps))) n (Bucket k) t = Some t' ∧ tbl_ok t' bs' m' ∧
    bs' k = [] ∧ ∀ j, j ≠ k → bs' j = bs j.
Proof.
  intros Hk. induction ps as [|p ps IH]; intros [|fuel] t bs m n Hok Hbs Hf Hn; cbn in Hf; try lia; cbn [free_from fmap list_fmap List.hd].
  { rewrite decide_True by done. by exists t, bs, m. }
  rewrite decide_False by done. subst n.
  destruct (ok_bucket _ _ _ Hok k p Hk) as (h & o & He & _); [rewrite Hbs; by left|].
  destruct (unlink_ok t bs m k [] p ps h o Hok Hk Hbs He) as (h' & -> & Hok1). cbn [mbind option_bind].
  set (t1 := mk_idr_list _ _) in *. set (bs1 := λ j, if decide (j = k) then [] ++ ps else bs j) in *.
  assert (bs1 k = ps) as Hbs1 by (unfold bs1; by rewrite decide_True).
  pose proof (ok_links _ _ _ Hok1 k Hk) as Hd1. rewrite Hbs1 in Hd1.
  rewrite rd_next_nxt by (eapply dll_alloc; [exact Hd1|]; destruct ps; cbn; [by left|right; by left]). cbn [mbind option_bind].
  destruct (IH fuel t1 bs1 (delete h m) (nxt (links t1) (List.hd (Bucket k) (Entry <$> ps))) Hok1 Hbs1) as (t' & bs' & m' & Hr & Hok' & Hk' & Hj); [lia| |].
  { destruct ps as [|q ps]; [done|]. exact (dll_nxt_hd _ _ _ _ Hd1). }
  exists t', bs', m'. split; [exact Hr|]. split_and!; try done. intros j Hjk. rewrite Hj by done. unfold bs1. by rewrite decide_False.
Qed.

Lemma free_bucket_ok k t bs m : (k < HASHNODE)%nat → tbl_ok t bs m →
  ∃ t' bs' m', free_bucket k t = Some t' ∧ tbl_ok t' bs' m' ∧ bs' k = [] ∧ ∀ j, j ≠ k → bs' j = bs j.
Proof.
  intros Hk Hok. pose proof (ok_links _ _ _ Hok k Hk) as Hd. unfold free_bucket.
  rewrite rd_next_nxt by (eapply dll_alloc; [exact Hd|by left]). rewrite (dll_next _ _ _ Hd). cbn [mbind option_bind].
  rewrite rd_next_nxt by (eapply dll_alloc; [exact Hd|apply succ_of_elem]). cbn [mbind option_bind].
  destruct (free_from_ok k (bs k) Hk (S (size (entries t))) t bs m (nxt (links t) (succ_of (Bucket k) (Entry <$> bs k))) Hok eq_refl)
    as (t' & bs' & m' & Hr & Hok' & Hk' & Hj); [by eapply bucket_length| |].
  { destruct (bs k) as [|q ps] eqn:Hb; [done|]. exact (dll_nxt_hd _ _ _ _ Hd). }
  by exists t', bs', m'.
Qed.

Lemma free_buckets_ok n : ∀ k t bs m, (k + n <= HASHNODE)%nat → tbl_ok t bs m →
  ∃ t' bs' m', idr_list_free_from n k t = Some t' ∧ tbl_ok t' bs' m' ∧
    (∀ j, (k <= j < k + n)%nat → bs' j = []) ∧ ∀ j, (j < k)%nat → bs' j = bs j.
Proof.
  induction n as [|n IH]; intros k t bs m Hk Hok; cbn [idr_list_free_from].
  { exists t, bs, m. split; [done|]. split; [done|]. split; [lia|done]. }
  destruct (free_bucket_ok k t bs m) as (t1 & bs1 & m1 & -> & Hok1 & Hk1 & Hj1); [lia|done|]. cbn [mbind option_bind].
  destruct (IH (S k) t1 bs1 m1) as (t2 & bs2 & m2 & Hr & Hok2 & Hin & Hout); [lia|done|].
  exists t2, bs2, m2. split; [exact Hr|]. split; [done|]. split.
  - intros j Hj. destruct (decide (j = k)) as [->|]; [by rewrite Hout by lia|apply Hin; lia].
  - intros j Hj. rewrite Hout, Hj1 by lia. done.
Qed.

Lemma free_ok t m : tbl_map t m → ∃ t', idr_list_free t = Some t' ∧ entries t' = ∅.
Proof.
  intros [bs Hok]. destruct (free_buckets_ok HASHNODE 0 t bs m) as (t' & bs' & m' & Hr & Hok' & Hin & _); [lia|done|].
  exists t'. split; [exact Hr|]. apply map_empty. intros p. destruct (entries t' !! p) as [[h o]|] eqn:He; [|done].
  apply (ok_entry _ _ _ Hok') in He. rewrite Hin in He by (pose proof (hash_key_lt h); lia). by apply not_elem_of_nil in He.
Qed.

(** ** The test for emptiness *)

Lemma bucket_empty t bs m k : tbl_ok t bs m → (k < HASHNODE)%nat → list_empty (Bucket k) (links t) = Some (bool_decide (bs k = [])).
Proof.
  intros Hok Hk. pose proof (ok_links _ _ _ Hok k Hk) as Hd. unfold list_empty.
  rewrite rd_next_nxt by (eapply dll_alloc; [exact Hd|by left]). rewrite (dll_next _ _ _ Hd). cbn [mbind option_bind]. f_equal.
  destruct (bs k); cbn [fmap list_fmap succ_of]; [by rewrite !bool_decide_true|by rewrite !bool_decide_false].
Qed.

Lemma empty_from_ok t bs m n : tbl_ok t bs m → ∀ k, (k + n <= HASHNODE)%nat →
  ∃ b, empty_from n k t = Some b ∧ (b = true ↔ ∀ j, (k <= j < k + n)%nat → bs j = []).
Proof.
  intros Hok. induction n as [|n IH]; intros k Hk; cbn [empty_from].
  { exists true. split; [done|]. split; [lia|done]. }
  rewrite (bucket_empty t bs m) by (done || lia). cbn [mbind option_bind]. case_bool_decide as Hb; cbn [negb].
  - destruct (IH (S k)) as (b & Hr & Hbe); [lia|]. exists b. split; [exact Hr|]. rewrite Hbe. split.
    + intros Hall j Hj. destruct (decide (j = k)) as [->|]; [done|apply Hall; lia].
    + intros Hall j Hj. apply Hall. lia.
  - exists false. split; [done|]. split; [done|]. intros Hall. exfalso. apply Hb, Hall. lia.
Qed.

Lemma empty_ok t m : tbl_map t m → ∃ b, idr_list_empty t = Some b ∧ (b = true ↔ m = ∅).
Proof.
  intros [bs Hok]. destruct (empty_from_ok t bs m HASHNODE Hok 0) as (b & Hr & Hb); [lia|]. exists b. split; [exact Hr|].
  rewrite Hb. split.
  - intros Hall. apply map_empty. intros h. destruct (m !! h) as [o|] eqn:Hm; [|done].
    apply (ok_map _ _ _ Hok) in Hm as (p & Hp%(ok_entry _ _ _ Hok)). rewrite Hall in Hp by (pose proof (hash_key_lt h); lia).
    by apply not_elem_of_nil in Hp.
  - intros -> j Hj. destruct (bs j) as [|p ps] eqn:Hbs; [done|].
    destruct (ok_bucket _ _ _ Hok j p) as (h & o & He & _); [lia|rewrite Hbs; by left|].
    assert ((∅ : gmap Z O) !! h = Some o) as Hx by (apply (ok_map _ _ _ Hok); by exists p). by rewrite lookup_empty in Hx.
Qed.
End Tables.

(** ** The interface to clients *)

(** A table of handles for objects of type [O]: its operations and their laws on
    the finite map it stands for. *)
Class HandleTable (T O : Type) := {
  ht_init : option T;
  ht_find : Z → T → option (option O);
  ht_new : bool → O → id_gen → T → option (Z * Z * id_gen * T);
  ht_remove : Z → T → option (Z * T);
  ht_each : T → option (list (Z * O));
  ht_free : T → option T;
  ht_size : T → nat;
  ht_rep : T → gmap Z O → Prop;
  ht_init_ok : ∃ t, ht_init = Some t ∧ ht_rep t ∅;
  ht_find_ok t m name : ht_rep t m → ht_find name t = Some (m !! name);
  ht_new_ok alloc o g t m : ht_rep t m → gen_ok g m →
    ∃ ret id g' t', ht_new alloc o g t = Some (ret, id, g', t') ∧ gen_le g g' ∧
      if decide (ret = 0)
      then 0 < id < FR_MAX ∧ alloc = true ∧ m !! id = None ∧ ht_rep t' (<[id := o]> m) ∧ gen_ok g' (<[id := o]> m)
      else t' = t;
  ht_new_again alloc o g t m ret id g' t' : ht_rep t m → gen_ok g m → ht_new alloc o g t = Some (ret, id, g', t') →
    ret = - EAGAIN → fr_id g' = 0 ∧ (fr_id g = 0 → FR_MAX - 1 <= Z.of_nat (size m));
  ht_remove_ok t m name : ht_rep t m →
    ∃ t', ht_remove name t = Some (if decide (is_Some (m !! name)) then 0 else -1, t') ∧ ht_rep t' (delete name m);
  ht_each_ok t m : ht_rep t m → ∃ l, ht_each t = Some l ∧ l ≡ₚ map_to_list m;
  ht_size_ok t m : ht_rep t m → (size m <= ht_size t)%nat;
  ht_free_ok t m : ht_rep t m → is_Some (ht_free t);
}.

#[export] Program Instance idr_list_table (O : Type) : HandleTable (idr_list O) O := {|
  ht_init := idr_list_init;
  ht_find := idr_list_find;
  ht_new := idr_list_get_new_above;
  ht_remove := idr_list_remove;
  ht_each := idr_list_for_each;
  ht_free := idr_list_free;
  ht_size t := size (entries t);
  ht_rep := tbl_map;
|}.
Next Obligation. intros O. apply init_ok. Qed.
Next Obligation. intros. by apply find_ok. Qed.
Next Obligation. intros. by apply new_ok. Qed.
Next Obligation. intros. by eapply new_again. Qed.
Next Obligation. intros. by apply remove_ok. Qed.
Next Obligation. intros. by apply each_ok. Qed.
Next Obligation. intros. by apply size_ok. Qed.
Next Obligation. intros O t m Hm. destruct (free_ok t m Hm) as (t' & -> & _). by eexists. Qed.

(** ** Refinement *)

(** A request on a table and its answer. *)
Inductive request (O : Type) := Find (name : Z) | New (alloc : bool) (obj : O) | Remove (name : Z) | Each | Empty.
Arguments Find {_} _.
Arguments New {_} _ _.
Arguments Remove {_} _.
Arguments Each {_}.
Arguments Empty {_}.

Inductive answer (O : Type) := Found (obj : option O) | Result (ret : Z) | Handle (id : Z) | All (l : list (Z * O)) | Is (b : bool).
Arguments Found {_} _.
Arguments Result {_} _.
Arguments Handle {_} _.
Arguments All {_} _.
Arguments Is {_} _.

Definition run_request {O} (r : request O) (s : id_gen * idr_list O) : option (answer O * (id_gen * idr_list O)) :=
  let '(g, t) := s in
  match r with
  | Find name => o ← idr_list_find name t; Some (Found o, s)
  | New alloc obj =>
    '(ret, id, g, t) ← idr_list_get_new_above alloc obj g t;
    Some (if ret =? 0 then Handle id else Result ret, (g, t))
  | Remove name => '(ret, t) ← idr_list_remove name t; Some (Result ret, (g, t))
  | Each => l ← idr_list_for_each t; Some (All l, s)
  | Empty => b ← idr_list_empty t; Some (Is b, s)
  end.

(** What the requests mean on a finite map of handles. *)
Inductive spec {O} (m : gmap Z O) : request O → answer O → gmap Z O → Prop :=
  | spec_find name : spec m (Find name) (Found (m !! name)) m
  | spec_new obj id : m !! id = None → 0 < id < FR_MAX → spec m (New true obj) (Handle id) (<[id := obj]> m)
  | spec_new_fails alloc obj ret : ret ≠ 0 → spec m (New alloc obj) (Result ret) m
  | spec_remove name obj : m !! name = Some obj → spec m (Remove name) (Result 0) (delete name m)
  | spec_remove_none name : m !! name = None → spec m (Remove name) (Result (-1)) m
  | spec_each l : l ≡ₚ map_to_list m → spec m Each (All l) m
  | spec_empty b : (b = true ↔ m = ∅) → spec m Empty (Is b) m.

(** A run on one table, between whose requests the other tables may take ids. *)
Inductive table_run {O} : id_gen * idr_list O → list (request O * answer O) → id_gen * idr_list O → Prop :=
  | run_nil s : table_run s [] s
  | run_req s r a s1 l s2 : run_request r s = Some (a, s1) → table_run s1 l s2 → table_run s ((r, a) :: l) s2
  | run_others g g1 t l s2 : gen_le g g1 → table_run (g1, t) l s2 → table_run (g, t) l s2.

Inductive spec_run {O} : gmap Z O → list (request O * answer O) → gmap Z O → Prop :=
  | spec_nil m : spec_run m [] m
  | spec_cons m r a m1 l m2 : spec m r a m1 → spec_run m1 l m2 → spec_run m ((r, a) :: l) m2.

Lemma run_request_ok {O} (r : request O) g t m : tbl_map t m → gen_ok g m →
  ∃ a g' t' m', run_request r (g, t) = Some (a, (g', t')) ∧ spec m r a m' ∧ tbl_map t' m' ∧ gen_ok g' m'.
Proof.
  intros Hm Hg. destruct r as [name|alloc obj|name| |]; unfold run_request.
  - rewrite (find_ok t m) by done. exists (Found (m !! name)), g, t, m. split; [done|]. by split; [constructor|].
  - destruct (new_ok alloc obj g t m Hm Hg) as (ret & id & g' & t' & -> & Hle & Hres). cbn.
    case_decide as Hret.
    + destruct Hres as (Hid & -> & Hno & Hm' & Hg'). rewrite (proj2 (Z.eqb_eq _ _)) by done.
      exists (Handle id), g', t', (<[id := obj]> m). split; [done|]. split; [by constructor|done].
    + rewrite (proj2 (Z.eqb_neq _ _)) by done. subst t'. exists (Result ret), g', t, m. split; [done|].
      split; [by constructor|]. split; [done|]. by eapply gen_ok_le.
  - destruct (remove_ok t m name Hm) as (t' & -> & Hm'). cbn. eexists _, g, t', (delete name m). split; [done|].
    assert (gen_ok g (delete name m)) as Hg'.
    { destruct Hg as (? & ? & H3). split; [done|]. split; [done|]. intros h [o [_ Ho]%lookup_delete_Some]. apply H3. by eexists. }
    split; [|done]. case_decide as Hs.
    + destruct Hs as [o Ho]. by econstructor.
    + apply eq_None_not_Some in Hs. rewrite delete_id by done. by constructor.
  - destruct (each_ok t m Hm) as (l & -> & Hl). cbn. exists (All l), g, t, m. split; [done|]. by split; [constructor|].
  - destruct (empty_ok t m Hm) as (b & -> & Hb). cbn. exists (Is b), g, t, m. split; [done|]. by split; [constructor|].
Qed.

Lemma table_run_ok {O} (s s' : id_gen * idr_list O) l m : table_run s l s' → tbl_map s.2 m → gen_ok s.1 m →
  ∃ m', spec_run m l m' ∧ tbl_map s'.2 m' ∧ gen_ok s'.1 m'.
Proof.
  intros Hrun. revert m. induction Hrun as [s|[g t] r a s1 l s2 Hr Hrun IH|g g1 t l s2 Hle Hrun IH]; intros m Hm Hg; cbn [fst snd] in Hm, Hg |- *.
  - exists m. split; [constructor|done].
  - destruct (run_request_ok r g t m Hm Hg) as (a' & g' & t' & m' & Hr' & Hs & Hm' & Hg'). rewrite Hr in Hr'. simplify_eq.
    destruct (IH m' Hm' Hg') as (m2 & Hs2 & Hm2). exists m2. split; [by econstructor|done].
  - apply IH; [done|by eapply gen_ok_le].
Qed.

(** C8 (idr_list_refines_map): from idr_list_init on, whatever ids the other
    tables take in between, the requests on a table are answered as on a finite
    map: handles are fresh, whether the counter has wrapped or not, and the next
    request, whichever it is, returns without dereferencing a bad pointer. *)
Theorem idr_list_refines_map {O} g (t : idr_list O) l s' :
  idr_list_init = Some t → 0 <= fr_id g < FR_MAX → 0 <= fr_time g → table_run (g, t) l s' →
  (∃ m, spec_run ∅ l m ∧ tbl_map s'.2 m) ∧ ∀ r, is_Some (run_request r s').
Proof.
  intros Hi Hid Htime Hrun. destruct (init_ok (O := O)) as (t0 & Hi0 & Ht0). rewrite Hi in Hi0. apply (inj Some) in Hi0 as <-.
  clear Hi.
  destruct (table_run_ok _ _ _ ∅ Hrun Ht0) as (m & Hs & Hm & Hg).
  { split; [done|]. split; [done|]. intros h [o Ho]. by rewrite lookup_empty in Ho. }
  split; [by exists m|]. intros r. destruct s' as [g' t'].
  destruct (run_request_ok r g' t' m Hm Hg) as (? & ? & ? & ? & Hr & _). rewrite Hr. by eexists.
Qed.

(** The counter wraps at the first handle. *)
Lemma idr_list_refines_map_witness : ∃ t a s', idr_list_init (O := nat) = Some t ∧
  run_request (New true 7%nat) (mk_gen 2147483646 0, t) = Some (a, s') ∧
  (∃ m, spec_run ∅ [(New true 7%nat, a)] m ∧ tbl_map s'.2 m) ∧ ∀ r, is_Some (run_request r s').
Proof.
  destruct (init_ok (O := nat)) as (t & Hi & Ht).
  assert (gen_ok (mk_gen 2147483646 0) (∅ : gmap Z nat)) as Hg.
  { unfold gen_ok, FR_MAX. cbn. split; [lia|]. split; [lia|]. intros h [x Hx]. by rewrite lookup_empty in Hx. }
  destruct (run_request_ok (New true 7%nat) (mk_gen 2147483646 0) t ∅ Ht Hg) as (a & g' & t' & m' & Hr & _).
  exists t, a, (g', t'). split; [exact Hi|]. split; [exact Hr|].
  apply (idr_list_refines_map (mk_gen 2147483646 0) t [(New true 7%nat, a)] (g', t') Hi); [cbn; unfold FR_MAX; lia|cbn; lia|].
  eapply run_req; [exact Hr|apply run_nil].
Defined.
