(* ===== verification/Gem.v ===== *)
(** * drm_gem.c: buffer objects, their handles and names

    An object is kept alive by a count of references: one for every handle a file
    has, one for its global name, and those the kernel holds.  The handle tables
    are reached through the interface [HandleTable] of the file IdrList, which
    idr_list implements.  A function is one step of [M gem], except
    drm_gem_flink_ioctl, which looks the object up under one lock and names it
    under another: its two halves are steps of their own.  The theorems: the
    counts are exact, so no live handle or name ever leads to a freed object and
    the [BUG_ON] of the name's reference never fires; when every file is closed
    no object is left; and the race between the halves of drm_gem_flink_ioctl
    and a close leaves an object that has a name and no handle. *)

From stdpp Require Import base option list gmap fin_maps.
From Stdlib Require Import ZArith Lia.
From S2P Require Import Prelude LinuxList IdrList.

Definition PAGE_SIZE : Z := 4096.

(** [struct drm_gem_object], without its backing store. *)
Record drm_gem_object := mk_obj { refcount : Z; handle_count : Z; name : Z; obj_size : Z }.

(** The optional callbacks of the driver on its state [A]. *)
Class GemDriver (A : Type) := {
  gem_open_object : option (A → positive → positive → Z * A);
  gem_close_object : option (A → positive → positive → A);
  gem_free_object : option (A → positive → A);
}.

(** The objects that are allocated, the table of handles of each open file, the
    table of names of the device, and the counters the tables share. *)
Record gem (T A : Type) := mk_gem {
  objs : gmap positive drm_gem_object;
  object_idr : gmap positive T;
  object_name_idr : T;
  ids : id_gen;
  drv : A;
}.
Arguments mk_gem {_ _} _ _ _ _ _.
Arguments objs {_ _} _.
Arguments object_idr {_ _} _.
Arguments object_name_idr {_ _} _.
Arguments ids {_ _} _.
Arguments drv {_ _} _.

(** A file's table or the table of names. *)
Inductive table_of := OfFile (f : positive) | Names.

Section Gem.
Context {T A : Type} `{HandleTable T positive} `{GemDriver A}.
Abbreviation st := (gem T A).

Definition set_objs (m : gmap positive drm_gem_object) (s : st) : st :=
  mk_gem m (object_idr s) (object_name_idr s) (ids s) (drv s).
Definition set_drv (a : A) (s : st) : st := mk_gem (objs s) (object_idr s) (object_name_idr s) (ids s) a.
Definition set_ids (g : id_gen) (s : st) : st := mk_gem (objs s) (object_idr s) (object_name_idr s) g (drv s).
Definition set_files (m : gmap positive T) (s : st) : st := mk_gem (objs s) m (object_name_idr s) (ids s) (drv s).
Definition set_names (t : T) (s : st) : st := mk_gem (objs s) (object_idr s) t (ids s) (drv s).

Definition get_table (w : table_of) : M st T :=
  reads (λ s, match w with OfFile f => object_idr s !! f | Names => Some (object_name_idr s) end).
Definition set_table (w : table_of) (t : T) : M st unit :=
  modify (λ s, match w with OfFile f => set_files (<[f := t]> (object_idr s)) s | Names => set_names t s end).

(** An access to an object that is freed is a fault. *)
Definition obj_at (o : positive) : M st drm_gem_object := reads (λ s, objs s !! o).
Definition upd_obj (o : positive) (f : drm_gem_object → drm_gem_object) : M st unit :=
  obj_at o;; modify (λ s, set_objs (alter f o (objs s)) s).

Definition add_ref (k : Z) (g : drm_gem_object) : drm_gem_object := mk_obj (refcount g + k) (handle_count g) (name g) (obj_size g).
Definition add_handle (k : Z) (g : drm_gem_object) : drm_gem_object := mk_obj (refcount g) (handle_count g + k) (name g) (obj_size g).
Definition set_name (n : Z) (g : drm_gem_object) : drm_gem_object := mk_obj (refcount g) (handle_count g) n (obj_size g).

(** ** References *)

Definition kref_get (o : positive) : M st unit := upd_obj o (add_ref 1).

Definition kref_put (o : positive) (release : M st unit) : M st unit :=
  upd_obj o (add_ref (-1));;
  g ← obj_at o;
  when (refcount g =? 0) release.

(** The driver's callback frees the object. *)
Definition drm_gem_object_free (o : positive) : M st unit :=
  match gem_free_object with
  | Some free => modify (λ s, set_objs (delete o (objs s)) (set_drv (free (drv s) o) s))
  | None => mret tt
  end.

Definition drm_gem_object_ref_bug : M st unit := BUG_ON true.

Definition drm_gem_object_reference (o : positive) : M st unit := kref_get o.

(** drm_gem_object_unreference_unlocked does the same under struct_mutex. *)
Definition drm_gem_object_unreference (o : option positive) : M st unit :=
  match o with Some o => kref_put o (drm_gem_object_free o) | None => mret tt end.

Definition drm_gem_object_handle_reference (o : positive) : M st unit :=
  drm_gem_object_reference o;; upd_obj o (add_handle 1).

Definition drm_gem_object_handle_free (o : positive) : M st unit :=
  g ← obj_at o;
  if negb (name g =? 0) then
    t ← get_table Names;
    '(_, t) ← reads (λ _, ht_remove (name g) t);
    set_table Names t;;
    upd_obj o (set_name 0);;
    kref_put o drm_gem_object_ref_bug
  else mret tt.

(** drm_gem_object_handle_unreference and its _unlocked variant. *)
Definition drm_gem_object_handle_unreference (o : option positive) : M st unit :=
  match o with
  | None => mret tt
  | Some o =>
    g ← obj_at o;
    if handle_count g =? 0 then mret tt else
    upd_obj o (add_handle (-1));;
    when (handle_count g - 1 =? 0) (drm_gem_object_handle_free o);;
    drm_gem_object_unreference (Some o)
  end.

(** ** Handles *)

Definition close_object (o file : positive) : M st unit :=
  match gem_close_object with
  | Some close => modify (λ s, set_drv (close (drv s) o file) s)
  | None => mret tt
  end.

Definition drm_gem_handle_delete (file : positive) (handle : Z) : M st Z :=
  t ← get_table (OfFile file);
  obj ← reads (λ _, ht_find handle t);
  match obj with
  | None => mret (- EINVAL)
  | Some o =>
    '(_, t) ← reads (λ _, ht_remove handle t);
    set_table (OfFile file) t;;
    close_object o file;;
    drm_gem_object_handle_unreference (Some o);;
    mret 0
  end.

Definition drm_gem_dumb_destroy (file : positive) (handle : Z) : M st Z := drm_gem_handle_delete file handle.

(** A new id of a table for an object; the callers try again on -EAGAIN. *)
Definition new_id (w : table_of) (alloc : bool) (o : positive) : M st (Z * Z) :=
  t ← get_table w;
  '(ret, id, g, t) ← reads (λ s, ht_new alloc o (ids s) t);
  modify (set_ids g);;
  set_table w t;;
  mret (ret, id).

(** The loop [again: .. goto again]; [tries] bounds it. *)
Fixpoint new_id_again (tries : nat) (w : table_of) (alloc : bool) (o : positive) : M st (Z * Z) :=
  match tries with
  | O => fault
  | S tries =>
    if idr_list_pre_get =? 0 then mret (- ENOMEM, 0) else
    '(ret, id) ← new_id w alloc o;
    if ret =? - EAGAIN then new_id_again tries w alloc o else mret (ret, id)
  end.

(** The result and [*handlep]. *)
Definition drm_gem_handle_create (file : positive) (alloc : bool) (o : positive) : M st (Z * Z) :=
  '(ret, handle) ← new_id_again 2 (OfFile file) alloc o;
  if negb (ret =? 0) then mret (ret, handle) else
  drm_gem_object_handle_reference o;;
  match gem_open_object with
  | Some open =>
    ret ← (λ s, let '(ret, a) := open (drv s) o file in Some (ret, set_drv a s));
    if negb (ret =? 0) then drm_gem_handle_delete file handle;; mret (ret, handle) else mret (0, handle)
  | None => mret (0, handle)
  end.

Definition drm_gem_object_lookup (file : positive) (handle : Z) : M st (option positive) :=
  t ← get_table (OfFile file);
  obj ← reads (λ _, ht_find handle t);
  match obj with
  | None => mret None
  | Some o => drm_gem_object_reference o;; mret (Some o)
  end.

(** [has_gem]: DRIVER_GEM. *)
Definition drm_gem_close_ioctl (has_gem : bool) (file : positive) (handle : Z) : M st Z :=
  if negb has_gem then mret (- ENODEV) else drm_gem_handle_delete file handle.

(** The second half of drm_gem_flink_ioctl, with the object looked up: the
    result and [args->name] ([None] when it is not assigned). *)
Definition flink_name (alloc : bool) (o : positive) : M st (Z * option Z) :=
  g ← obj_at o;
  r ← (if name g =? 0 then
         '(ret, id) ← new_id_again 2 Names alloc o;
         if negb (ret =? 0) then mret (ret, Some 0) else
         upd_obj o (set_name id);;
         drm_gem_object_reference o;;
         mret (0, Some id)
       else mret (0, Some (name g)));
  drm_gem_object_unreference (Some o);;
  mret r.

Definition drm_gem_flink_ioctl (has_gem : bool) (file : positive) (handle : Z) (alloc : bool) : M st (Z * option Z) :=
  if negb has_gem then mret (- ENODEV, None) else
  obj ← drm_gem_object_lookup file handle;
  match obj with
  | None => mret (- ENOENT, None)
  | Some o => flink_name alloc o
  end.

(** The result, the handle and the size. *)
Definition drm_gem_open_ioctl (has_gem : bool) (file : positive) (nm : Z) (alloc : bool) : M st (Z * option (Z * Z)) :=
  if negb has_gem then mret (- ENODEV, None) else
  t ← get_table Names;
  obj ← reads (λ _, ht_find nm t);
  match obj with
  | None => mret (- ENOENT, None)
  | Some o =>
    drm_gem_object_reference o;;
    '(ret, handle) ← drm_gem_handle_create file alloc o;
    drm_gem_object_unreference (Some o);;
    if negb (ret =? 0) then mret (ret, None) else
    g ← obj_at o;
    mret (0, Some (handle, obj_size g))
  end.

(** ** Files and objects *)

Definition drm_gem_open (file : positive) : M st unit :=
  t ← reads (λ _, ht_init); set_table (OfFile file) t.

Definition drm_gem_object_release_handle (o file : positive) : M st Z :=
  close_object o file;; drm_gem_object_handle_unreference (Some o);; mret 0.

Fixpoint release_handles (l : list (Z * positive)) (file : positive) : M st unit :=
  match l with
  | [] => mret tt
  | (_, o) :: l => drm_gem_object_release_handle o file;; release_handles l file
  end.

(** The file is freed with its table. *)
Definition drm_gem_release (file : positive) : M st unit :=
  t ← get_table (OfFile file);
  l ← reads (λ _, ht_each t);
  release_handles l file;;
  t ← get_table (OfFile file);
  reads (λ _, ht_free t);;
  modify (λ s, set_files (delete file (object_idr s)) s).

(** An object the driver has allocated, at the address [o]. *)
Definition drm_gem_private_object_init (o : positive) (size : Z) : M st Z :=
  BUG_ON (negb (Z.land size (PAGE_SIZE - 1) =? 0));;
  modify (λ s, set_objs (<[o := mk_obj 1 0 0 size]> (objs s)) s);;
  mret 0.
End Gem.

(** ** The device and its clients

    The references the kernel holds on behalf of its callers are a list. *)

Record gem_world (T A : Type) := mk_world { gs : gem T A; held : list positive }.
Arguments mk_world {_ _} _ _.
Arguments gs {_ _} _.
Arguments held {_ _} _.

(** An allocated object (at a new address), a dropped reference, a handle for an
    object the kernel holds, a lookup; the ioctls; the opening and closing of a
    file; and the second half of drm_gem_flink_ioctl alone, for an object that
    was looked up before. *)
Inductive gem_op :=
  | GInit (o : positive) (size : Z)
  | GPut (k : nat)
  | GCreate (f : positive) (alloc : bool) (k : nat)
  | GLookup (f : positive) (h : Z)
  | GClose (has : bool) (f : positive) (h : Z)
  | GFlink (has : bool) (f : positive) (h : Z) (alloc : bool)
  | GOpenName (has : bool) (f : positive) (n : Z) (alloc : bool)
  | GOpen (f : positive)
  | GRelease (f : positive)
  | GName (alloc : bool) (k : nat).

Section Clients.
Context {T A : Type} `{HandleTable T positive} `{GemDriver A}.

(** A table has room for one more id. *)
Definition has_room (w : table_of) (s : gem T A) : bool :=
  match match w with OfFile f => object_idr s !! f | Names => Some (object_name_idr s) end with
  | Some t => Z.of_nat (ht_size t) <? FR_MAX - 1
  | None => false
  end.

Definition is_open (f : positive) (s : gem T A) : bool :=
  match object_idr s !! f with Some _ => true | None => false end.

(** What the callers guarantee: an object is initialised once, in whole pages;
    only references that are held are dropped or passed; files are open; and a
    table has fewer than 2^31 - 2 entries. *)
Definition gop_ok (op : gem_op) (w : gem_world T A) : bool :=
  let s := gs w in
  let holds k := match held w !! k with Some _ => true | None => false end in
  match op with
  | GInit o size => match objs s !! o with Some _ => false | None => Z.land size (PAGE_SIZE - 1) =? 0 end
  | GPut k => holds k
  | GCreate f _ k => is_open f s && holds k && has_room (OfFile f) s
  | GLookup f _ | GClose _ f _ | GRelease f => is_open f s
  | GFlink _ f _ _ => is_open f s && has_room Names s
  | GOpenName _ f _ _ => is_open f s && has_room (OfFile f) s
  | GOpen f => negb (is_open f s)
  | GName _ k => holds k && has_room Names s
  end.

Definition on_gem {B} (m : M (gem T A) B) (w : gem_world T A) : option (gem_world T A) :=
  '(_, s) ← m (gs w); Some (mk_world s (held w)).

Definition run_gop (op : gem_op) (w : gem_world T A) : option (gem_world T A) :=
  match op with
  | GInit o size => '(_, s) ← drm_gem_private_object_init o size (gs w); Some (mk_world s (o :: held w))
  | GPut k =>
    o ← held w !! k; '(_, s) ← drm_gem_object_unreference (Some o) (gs w); Some (mk_world s (delete k (held w)))
  | GCreate f alloc k => o ← held w !! k; on_gem (drm_gem_handle_create f alloc o) w
  | GLookup f h =>
    '(r, s) ← drm_gem_object_lookup f h (gs w);
    Some (mk_world s (match r with Some o => o :: held w | None => held w end))
  | GClose has f h => on_gem (drm_gem_close_ioctl has f h) w
  | GFlink has f h alloc => on_gem (drm_gem_flink_ioctl has f h alloc) w
  | GOpenName has f n alloc => on_gem (drm_gem_open_ioctl has f n alloc) w
  | GOpen f => on_gem (drm_gem_open f) w
  | GRelease f => on_gem (drm_gem_release f) w
  | GName alloc k =>
    o ← held w !! k; '(_, s) ← flink_name alloc o (gs w); Some (mk_world s (delete k (held w)))
  end.

(** Whole ioctls only, or their halves too. *)
Definition gstep (halves : bool) (w w' : gem_world T A) : Prop :=
  ∃ op, (halves = true ∨ match op with GName _ _ => False | _ => True end) ∧ gop_ok op w = true ∧ run_gop op w = Some w'.

(** Without objects and files, with the table of names [names]. *)
Definition gem_start (names : T) (g : id_gen) (a : A) : gem_world T A := mk_world (mk_gem ∅ ∅ names g a) [].

Fixpoint run_gops (l : list gem_op) (w : gem_world T A) : option (gem_world T A) :=
  match l with
  | [] => Some w
  | op :: l => if gop_ok op w then w ← run_gop op w; run_gops l w else None
  end.
End Clients.

(** ** Counting handles *)

(** The handles of a table that lead to [o], and those of all files. *)
Definition count (m : gmap Z positive) (o : positive) : Z := Z.of_nat (size (filter (λ e, e.2 = o) m)).
Definition handles (hms : gmap positive (gmap Z positive)) (o : positive) : Z :=
  msum (λ m, count m o) hms.

Lemma count_empty o : count ∅ o = 0.
Proof. unfold count. by rewrite map_filter_empty, map_size_empty. Qed.

Lemma count_nonneg m o : 0 <= count m o.
Proof. unfold count. lia. Qed.

Lemma count_insert m h o o' : m !! h = None → count (<[h := o]> m) o' = count m o' + if decide (o = o') then 1 else 0.
Proof.
  intros Hh. unfold count. destruct (decide (o = o')) as [->|Hne].
  - rewrite map_filter_insert_True by done. rewrite map_size_insert_None; [lia|].
    apply map_lookup_filter_None. by left.
  - rewrite map_filter_insert_False by done. by rewrite delete_id, Z.add_0_r.
Qed.

Lemma count_delete m h o o' : m !! h = Some o → count (delete h m) o' = count m o' - if decide (o = o') then 1 else 0.
Proof.
  intros Hh. rewrite <- (insert_delete_id m h o) at 2 by done. rewrite count_insert by apply lookup_delete_eq. lia.
Qed.

Lemma handles_insert hms f m o : hms !! f = None → handles (<[f := m]> hms) o = handles hms o + count m o.
Proof. apply (msum_insert (λ m, count m o)). Qed.

Lemma handles_delete hms f m o : hms !! f = Some m → handles (delete f hms) o = handles hms o - count m o.
Proof. apply (msum_delete (λ m, count m o)). Qed.

Lemma handles_update hms f m m' o : hms !! f = Some m →
  handles (<[f := m']> hms) o = handles hms o - count m o + count m' o.
Proof. apply (msum_update (λ m, count m o)). Qed.

Lemma handles_nonneg hms o : 0 <= handles hms o.
Proof. apply msum_nonneg. intros. apply count_nonneg. Qed.

Lemma count_le_handles hms f m o : hms !! f = Some m → count m o <= handles hms o.
Proof. apply (msum_le (λ m, count m o)). intros. apply count_nonneg. Qed.

Lemma count_pos m h o : m !! h = Some o → 0 < count m o.
Proof.
  intros Hh. pose proof (count_delete m h o o Hh). rewrite decide_True in H by done. pose proof (count_nonneg (delete h m) o). lia.
Qed.

(** ** The invariant *)

Section Invariant.
Context {T A : Type} `{HandleTable T positive} `{GemDriver A}.
Abbreviation st := (gem T A).
Implicit Types (s : st) (hms : gmap positive (gmap Z positive)) (nm : gmap Z positive) (ex hx : positive → Z).

Definition table_ok s (f : positive) hms : Prop :=
  match object_idr s !! f, hms !! f with
  | Some t, Some m => ht_rep t m ∧ gen_ok (ids s) m
  | None, None => True
  | _, _ => False
  end.

(** [ex]: the references the kernel holds; [hx]: by how much the count of
    handles of an object differs from the handles there are, in the middle of
    an operation. *)
Definition obj_ok hms nm ex hx (o : positive) (g : drm_gem_object) : Prop :=
  handle_count g = handles hms o + hx o ∧ 0 <= handle_count g ∧
  refcount g = handle_count g + (if decide (name g = 0) then 0 else 1) + ex o ∧ 0 < refcount g ∧
  (name g ≠ 0 → nm !! name g = Some o).

Record gem_ok s hms nm ex hx : Prop := {
  g_files f : table_ok s f hms;
  g_names : ht_rep (object_name_idr s) nm ∧ gen_ok (ids s) nm;
  g_ex o : 0 <= ex o;
  g_objs o g : objs s !! o = Some g → obj_ok hms nm ex hx o g;
  g_none o : objs s !! o = None → handles hms o + hx o = 0 ∧ ex o = 0;
  g_named h o : nm !! h = Some o → ∃ g, objs s !! o = Some g ∧ name g = h;
}.

(** Objects with a name have a handle. *)
Definition named_live s : Prop := ∀ o g, objs s !! o = Some g → name g ≠ 0 → 0 < handle_count g.

Lemma gem_live s hms nm ex hx o : gem_ok s hms nm ex hx → 0 < ex o ∨ 0 < handles hms o + hx o → is_Some (objs s !! o).
Proof.
  intros Hok Hpos. destruct (objs s !! o) eqn:Ho; [by eexists|]. destruct (g_none _ _ _ _ _ Hok o Ho). lia.
Qed.

Lemma upd_obj_run s o f g : objs s !! o = Some g → upd_obj o f s = Some (tt, set_objs (<[o := f g]> (objs s)) s).
Proof.
  intros Ho. unfold upd_obj, obj_at, mbind, M_bind, reads, modify. rewrite Ho. do 3 f_equal.
  apply map_eq. intros i. destruct (decide (i = o)) as [->|]; [by rewrite lookup_alter_eq, lookup_insert_eq, Ho|].
  by rewrite lookup_alter_ne, lookup_insert_ne.
Qed.

Lemma obj_at_run s o g : objs s !! o = Some g → obj_at o s = Some (g, s).
Proof. intros Ho. unfold obj_at, reads. by rewrite Ho. Qed.

(** One object changes, and with it the counts for it. *)
Lemma gem_ok_obj s hms nm ex hx o g g' ex' hx' : gem_ok s hms nm ex hx → objs s !! o = Some g →
  name g' = name g → (∀ i, i ≠ o → ex' i = ex i ∧ hx' i = hx i) → 0 <= ex' o → obj_ok hms nm ex' hx' o g' →
  gem_ok (set_objs (<[o := g']> (objs s)) s) hms nm ex' hx'.
Proof.
  intros Hok Ho Hn Hne Hex Hg. split; cbn [objs set_objs].
  - apply (g_files _ _ _ _ _ Hok).
  - apply (g_names _ _ _ _ _ Hok).
  - intros i. destruct (decide (i = o)) as [->|Hi]; [done|]. destruct (Hne i Hi) as [-> _]. apply (g_ex _ _ _ _ _ Hok).
  - intros i gi Hi. destruct (decide (i = o)) as [->|Hio]; [rewrite lookup_insert_eq in Hi; by simplify_eq|].
    rewrite lookup_insert_ne in Hi by done. destruct (Hne i Hio) as [He Hh]. unfold obj_ok. rewrite He, Hh.
    exact (g_objs _ _ _ _ _ Hok i gi Hi).
  - intros i Hi. destruct (decide (i = o)) as [->|Hio]; [by rewrite lookup_insert_eq in Hi|].
    rewrite lookup_insert_ne in Hi by done. destruct (Hne i Hio) as [-> ->]. by apply (g_none _ _ _ _ _ Hok).
  - intros h i Hi. destruct (g_named _ _ _ _ _ Hok h i Hi) as (gi & Hgi & Hni). destruct (decide (i = o)) as [->|Hio].
    + exists g'. rewrite lookup_insert_eq. split; [done|congruence].
    + exists gi. by rewrite lookup_insert_ne.
Qed.

Lemma gem_ok_ext s hms nm ex ex' hx hx' : (∀ o, ex o = ex' o) → (∀ o, hx o = hx' o) →
  gem_ok s hms nm ex hx → gem_ok s hms nm ex' hx'.
Proof.
  intros He Hh [H1 H2 H3 H4 H5 H6]. split; try done.
  - intros o. by rewrite <- He.
  - intros o g Ho. unfold obj_ok. rewrite <- He, <- Hh. by apply H4.
  - intros o Ho. rewrite <- He, <- Hh. by apply H5.
Qed.

(** Only this object changes. *)
Definition only (o : positive) s s' : Prop :=
  (∀ i, i ≠ o → objs s' !! i = objs s !! i) ∧ object_idr s' = object_idr s.

Lemma kref_get_ok s hms nm ex hx o : gem_ok s hms nm ex hx → is_Some (objs s !! o) →
  wp (kref_get o) s (λ _ s', gem_ok s' hms nm (bump o 1 ex) hx ∧ only o s s' ∧
    ∀ g, objs s !! o = Some g → objs s' !! o = Some (add_ref 1 g)).
Proof.
  intros Hok [g Ho]. eapply wp_of; [by apply upd_obj_run|]. split; [|split].
  - destruct (g_objs _ _ _ _ _ Hok o g Ho) as (H1 & H2 & H3 & H4 & H5).
    eapply gem_ok_obj; [done..| | |].
    + intros i Hi. by rewrite bump_ne.
    + rewrite bump_eq. pose proof (g_ex _ _ _ _ _ Hok o). lia.
    + unfold obj_ok. rewrite bump_eq. cbn. split_and!; try done; lia.
  - split; [|done]. intros i Hi. cbn. by rewrite lookup_insert_ne.
  - intros g' Hg'. cbn. rewrite lookup_insert_eq. by simplify_eq.
Qed.

(** A reference of the kernel is dropped; with the last one the object goes. *)
Lemma unreference_ok s hms nm ex hx o : is_Some gem_free_object → gem_ok s hms nm ex hx → 0 < ex o →
  wp (drm_gem_object_unreference (Some o)) s (λ _ s', gem_ok s' hms nm (bump o (-1) ex) hx ∧ only o s s' ∧
    ∀ g, objs s !! o = Some g → objs s' !! o = if refcount g =? 1 then None else Some (add_ref (-1) g)).
Proof.
  intros [free Hfree] Hok Hex. destruct (gem_live _ _ _ _ _ o Hok) as [g Ho]; [by left|].
  destruct (g_objs _ _ _ _ _ Hok o g Ho) as (H1 & H2 & H3 & H4 & H5).
  unfold drm_gem_object_unreference, kref_put. apply wp_bind. eapply wp_of; [by apply upd_obj_run|]. cbv beta.
  apply wp_bind. eapply wp_of; [apply obj_at_run; cbn; apply lookup_insert_eq|]. cbv beta. cbn [refcount add_ref].
  set (s1 := set_objs _ s). destruct (Z.eqb_spec (refcount g + -1) 0) as [Hz|Hz]; cbn [when].
  - unfold drm_gem_object_free. rewrite Hfree. unfold wp, modify.
    split; [|split].
    + assert (name g = 0) as Hname by (destruct (decide (name g = 0)); [done|lia]). rewrite decide_True in H3 by done.
      split; cbn [objs set_objs set_drv].
      * apply (g_files _ _ _ _ _ Hok).
      * apply (g_names _ _ _ _ _ Hok).
      * intros i. destruct (decide (i = o)) as [->|]; [rewrite bump_eq; lia|]. rewrite bump_ne by done. apply (g_ex _ _ _ _ _ Hok).
      * intros i gi [Hi Hgi]%lookup_delete_Some. cbn in Hgi. rewrite lookup_insert_ne in Hgi by done. unfold obj_ok. rewrite bump_ne by done.
        by apply (g_objs _ _ _ _ _ Hok).
      * intros i Hi. destruct (decide (i = o)) as [->|Hio]; [rewrite bump_eq; lia|]. rewrite bump_ne by done.
        rewrite lookup_delete_ne in Hi by done. cbn in Hi. rewrite lookup_insert_ne in Hi by done. by apply (g_none _ _ _ _ _ Hok).
      * intros h i Hi. destruct (g_named _ _ _ _ _ Hok h i Hi) as (gi & Hgi & Hni). destruct (decide (i = o)) as [->|Hio].
        -- simplify_eq. rewrite Hname in Hi. destruct (g_names _ _ _ _ _ Hok) as [_ (_ & _ & Hpos)].
           destruct (Hpos 0); [by rewrite Hi|lia].
        -- exists gi. rewrite lookup_delete_ne by done. cbn. by rewrite lookup_insert_ne.
    + split; [|done]. intros i Hi. cbn. by rewrite lookup_delete_ne, lookup_insert_ne.
    + intros g' Hg'. cbn. simplify_eq. rewrite (proj2 (Z.eqb_eq (refcount g) 1)) by lia. by rewrite lookup_delete_eq.
  - unfold wp, mret, M_ret. split; [|split].
    + eapply gem_ok_obj; [done..| | |].
      * intros i Hi. by rewrite bump_ne.
      * rewrite bump_eq. lia.
      * unfold obj_ok. rewrite bump_eq. cbn. split_and!; try done; lia.
    + split; [|done]. intros i Hi. cbn. by rewrite lookup_insert_ne.
    + intros g' Hg'. simplify_eq. rewrite (proj2 (Z.eqb_neq (refcount g) 1)) by lia. cbn. by rewrite lookup_insert_eq.
Qed.

Hypothesis frees : is_Some gem_free_object.

(** A handle's reference, for a handle that is in its table already. *)
Lemma handle_reference_ok s hms nm ex hx o : gem_ok s hms nm ex hx → is_Some (objs s !! o) →
  wp (drm_gem_object_handle_reference o) s (λ _ s', gem_ok s' hms nm ex (bump o 1 hx) ∧ only o s s' ∧
    ∀ g, objs s !! o = Some g → objs s' !! o = Some (add_handle 1 (add_ref 1 g))).
Proof.
  intros Hok [g Ho]. unfold drm_gem_object_handle_reference, drm_gem_object_reference. apply wp_bind.
  eapply wp_of; [by apply upd_obj_run|]. cbv beta. eapply wp_of; [apply upd_obj_run; cbn; apply lookup_insert_eq|].
  destruct (g_objs _ _ _ _ _ Hok o g Ho) as (H1 & H2 & H3 & H4 & H5).
  assert (set_objs (<[o := add_handle 1 (add_ref 1 g)]> (<[o := add_ref 1 g]> (objs s))) (set_objs (<[o := add_ref 1 g]> (objs s)) s) =
    set_objs (<[o := add_handle 1 (add_ref 1 g)]> (objs s)) s) as Heq by (cbn; unfold set_objs; cbn; by rewrite insert_insert_eq).
  cbn [objs set_objs]. rewrite Heq. split; [|split].
  - eapply gem_ok_obj; [done..| | |].
    + intros i Hi. by rewrite bump_ne.
    + apply (g_ex _ _ _ _ _ Hok).
    + unfold obj_ok. rewrite bump_eq. cbn. split_and!; try done; lia.
  - split; [|done]. intros i Hi. cbn. by rewrite lookup_insert_ne.
  - intros g' Hg'. cbn. rewrite lookup_insert_eq. by simplify_eq.
Qed.

(** The name goes with the last handle; the kernel still holds a reference, so
    the name's is not the last. *)
Lemma handle_free_ok s hms nm ex hx o : gem_ok s hms nm ex hx → 0 < ex o →
  wp (drm_gem_object_handle_free o) s (λ _ s', ∃ nm', gem_ok s' hms nm' ex hx ∧ only o s s' ∧
    ∀ g, objs s !! o = Some g → ∃ g', objs s' !! o = Some g' ∧ name g' = 0 ∧ handle_count g' = handle_count g).
Proof.
  intros Hok Hex. destruct (gem_live _ _ _ _ _ o Hok) as [g Ho]; [by left|].
  destruct (g_objs _ _ _ _ _ Hok o g Ho) as (H1 & H2 & H3 & H4 & H5).
  unfold drm_gem_object_handle_free. apply wp_bind. eapply wp_of; [by apply obj_at_run|]. cbv beta.
  destruct (Z.eqb_spec (name g) 0) as [Hn|Hn]; cbn [negb].
  { exists nm. split; [done|]. split; [done|]. intros g' Hg'. assert (g' = g) as -> by congruence. by exists g. }
  destruct (g_names _ _ _ _ _ Hok) as [Hrep Hgen]. destruct (ht_remove_ok _ _ (name g) Hrep) as (t' & Hrm & Hrep').
  apply wp_bind. eapply wp_of; [done|]. cbv beta. apply wp_bind. eapply wp_of; [unfold reads; by rewrite Hrm|]. cbv beta iota.
  apply wp_bind. eapply wp_of; [done|]. cbv beta. apply wp_bind. eapply wp_of; [by apply upd_obj_run|]. cbv beta.
  unfold kref_put. apply wp_bind. eapply wp_of; [apply upd_obj_run; cbn; apply lookup_insert_eq|]. cbv beta.
  apply wp_bind. eapply wp_of; [apply obj_at_run; cbn; apply lookup_insert_eq|]. cbv beta. cbn [refcount add_ref set_name].
  rewrite decide_False in H3 by done. rewrite (proj2 (Z.eqb_neq (refcount g + -1) 0)) by lia. cbn [when]. unfold wp, mret, M_ret.
  exists (delete (name g) nm). cbn [objs set_objs set_names].
  assert (∀ i gi, i ≠ o → objs s !! i = Some gi → name gi ≠ 0 → name gi ≠ name g) as Hother.
  { intros i gi Hi Hgi Hni Heq. destruct (g_objs _ _ _ _ _ Hok i gi Hgi) as (_ & _ & _ & _ & Hnm). specialize (Hnm Hni).
    rewrite Heq, (H5 Hn) in Hnm. congruence. }
  split; [|split].
  - rewrite insert_insert_eq. split; cbn [objs set_objs set_names object_idr object_name_idr ids].
    + apply (g_files _ _ _ _ _ Hok).
    + split; [done|]. destruct Hgen as (? & ? & Hids). split; [done|]. split; [done|].
      intros h [x [_ Hx]%lookup_delete_Some]. apply Hids. by eexists.
    + apply (g_ex _ _ _ _ _ Hok).
    + intros i gi Hi. destruct (decide (i = o)) as [->|Hio].
      * rewrite lookup_insert_eq in Hi. simplify_eq. unfold obj_ok. cbn. rewrite decide_True by done. split_and!; try done; lia.
      * rewrite lookup_insert_ne in Hi by done. destruct (g_objs _ _ _ _ _ Hok i gi Hi) as (? & ? & ? & ? & Hnm).
        unfold obj_ok. split_and!; try done. intros Hni. rewrite lookup_delete_ne; [by apply Hnm|]. intros Heq. by eapply Hother.
    + intros i Hi. destruct (decide (i = o)) as [->|Hio]; [by rewrite lookup_insert_eq in Hi|].
      rewrite lookup_insert_ne in Hi by done. by apply (g_none _ _ _ _ _ Hok).
    + intros h i [Hne Hi]%lookup_delete_Some. destruct (g_named _ _ _ _ _ Hok h i Hi) as (gi & Hgi & Hni). exists gi.
      rewrite lookup_insert_ne; [done|]. intros <-. congruence.
  - split; [|done]. intros i Hi. cbn. by rewrite !lookup_insert_ne.
  - intros g' Hg'. simplify_eq. eexists. rewrite lookup_insert_eq. by split; [done|].
Qed.

(** A handle that is out of its table gives back its reference. *)
Lemma handle_unreference_ok s hms nm ex hx o : gem_ok s hms nm ex hx → 0 < handles hms o + hx o →
  wp (drm_gem_object_handle_unreference (Some o)) s (λ _ s', ∃ nm', gem_ok s' hms nm' ex (bump o (-1) hx) ∧ only o s s' ∧
    (named_live s → named_live s')).
Proof.
  intros Hok Hpos. destruct (gem_live _ _ _ _ _ o Hok) as [g Ho]; [by right|].
  destruct (g_objs _ _ _ _ _ Hok o g Ho) as (H1 & H2 & H3 & H4 & H5).
  unfold drm_gem_object_handle_unreference. apply wp_bind. eapply wp_of; [by apply obj_at_run|]. cbv beta.
  rewrite (proj2 (Z.eqb_neq (handle_count g) 0)) by lia. apply wp_bind. eapply wp_of; [by apply upd_obj_run|]. cbv beta.
  set (s1 := set_objs (<[o := add_handle (-1) g]> (objs s)) s).
  pose proof (g_ex _ _ _ _ _ Hok o) as Hex0.
  assert (gem_ok s1 hms nm (bump o 1 ex) (bump o (-1) hx)) as Hok1.
  { eapply gem_ok_obj; [done..| | |].
    - intros i Hi. by rewrite !bump_ne.
    - rewrite bump_eq. lia.
    - unfold obj_ok. rewrite !bump_eq. cbn. split_and!; try done; lia. }
  assert (0 < bump o 1 ex o) as Hex1 by (rewrite bump_eq; lia).
  assert (wp (when (handle_count g - 1 =? 0) (drm_gem_object_handle_free o)) s1 (λ _ s', ∃ nm',
    gem_ok s' hms nm' (bump o 1 ex) (bump o (-1) hx) ∧ only o s1 s' ∧
    ∃ g', objs s' !! o = Some g' ∧ (name g' ≠ 0 → 0 < handle_count g'))) as Hfree.
  { destruct (Z.eqb_spec (handle_count g - 1) 0); cbn [when].
    - eapply wp_mono; [exact (handle_free_ok s1 hms nm _ _ o Hok1 Hex1)|]. intros _ s' (nm' & Hok' & Honly & Hobj). exists nm'. split; [done|]. split; [done|].
      destruct (Hobj (add_handle (-1) g)) as (g' & Hg' & Hn & _); [cbn; by rewrite lookup_insert_eq|]. exists g'. by split.
    - exists nm. split; [done|]. split; [done|]. exists (add_handle (-1) g). cbn. rewrite lookup_insert_eq. split; [done|]. intros _. lia. }
  apply wp_bind. eapply wp_mono; [exact Hfree|]. intros _ s2 (nm' & Hok2 & [Hne2 Hfi2] & g2 & Ho2 & Hlive). cbv beta.
  eapply wp_mono; [by apply (unreference_ok s2 hms nm' _ _ o frees Hok2)|]. intros _ s3 (Hok3 & [Hne3 Hfi3] & Hobj3).
  exists nm'. split; [|split].
  - eapply gem_ok_ext; [| |exact Hok3]; [|done]. intros i. apply (bump_back o 1).
  - split; [|rewrite Hfi3, Hfi2; done]. intros i Hi. rewrite Hne3, Hne2 by done. cbn. by rewrite lookup_insert_ne.
  - intros Hnl i gi Hi Hni. destruct (decide (i = o)) as [->|Hio].
    + rewrite (Hobj3 g2 Ho2) in Hi. destruct (refcount g2 =? 1); simplify_eq. by apply Hlive.
    + rewrite Hne3, Hne2 in Hi by done. cbn in Hi. rewrite lookup_insert_ne in Hi by done. by eapply Hnl.
Qed.

(** ** Tables *)

Definition table_at (w : table_of) s : option T :=
  match w with OfFile f => object_idr s !! f | Names => Some (object_name_idr s) end.
Definition put_table (w : table_of) (t : T) s : st :=
  match w with OfFile f => set_files (<[f := t]> (object_idr s)) s | Names => set_names t s end.

Lemma new_id_run w alloc o s t m : table_at w s = Some t → ht_rep t m → gen_ok (ids s) m →
  ∃ ret id g' t', new_id w alloc o s = Some ((ret, id), put_table w t' (set_ids g' s)) ∧
    ht_new alloc o (ids s) t = Some (ret, id, g', t') ∧ gen_le (ids s) g' ∧
    if decide (ret = 0) then 0 < id < FR_MAX ∧ m !! id = None ∧ ht_rep t' (<[id := o]> m) ∧ gen_ok g' (<[id := o]> m) else t' = t.
Proof.
  intros Ht Hrep Hgen. destruct (ht_new_ok alloc o (ids s) t m Hrep Hgen) as (ret & id & g' & t' & Hr & Hle & Hres).
  exists ret, id, g', t'. split; [|split; [done|split; [done|]]].
  - unfold new_id, get_table, mbind, M_bind, reads. fold (table_at w s). rewrite Ht, Hr. by destruct w.
  - case_decide; [|done]. destruct Hres as (? & _ & ? & ? & ?). done.
Qed.

Lemma put_table_twice w t t' g g' s : put_table w t' (set_ids g' (put_table w t (set_ids g s))) = put_table w t' (set_ids g' s).
Proof. destruct w as [f|]; unfold put_table, set_files, set_ids; cbn; [by rewrite insert_insert_eq|done]. Qed.

Lemma table_at_put w t g s : is_Some (table_at w s) → table_at w (put_table w t (set_ids g s)) = Some t.
Proof. destruct w; cbn; [by rewrite lookup_insert_eq|done]. Qed.

(** Two tries are enough. *)
Lemma new_again_ok w alloc o s t m : table_at w s = Some t → ht_rep t m → gen_ok (ids s) m → Z.of_nat (size m) < FR_MAX - 1 →
  wp (new_id_again 2 w alloc o) s (λ r s', ∃ g' t', s' = put_table w t' (set_ids g' s) ∧ gen_le (ids s) g' ∧
    if decide (r.1 = 0) then 0 < r.2 < FR_MAX ∧ m !! r.2 = None ∧ ht_rep t' (<[r.2 := o]> m) ∧ gen_ok g' (<[r.2 := o]> m)
    else t' = t).
Proof.
  intros Ht Hrep Hgen Hsz. destruct (new_id_run w alloc o s t m Ht Hrep Hgen) as (ret & id & g1 & t1 & Hr & Hn & Hle & Hres).
  unfold new_id_again. change (idr_list_pre_get =? 0) with false. cbv iota. apply wp_bind. eapply wp_of; [exact Hr|]. cbv beta iota.
  destruct (Z.eqb_spec ret (- EAGAIN)) as [Hag|Hag].
  2:{ unfold wp, mret, M_ret. exists g1, t1. by split; [|split]. }
  rewrite decide_False in Hres by (rewrite Hag; done). subst t1.
  destruct (ht_new_again alloc o (ids s) t m ret id g1 t Hrep Hgen Hn Hag) as [Hz _].
  set (s1 := put_table w t (set_ids g1 s)).
  assert (table_at w s1 = Some t) as Ht1 by (apply table_at_put; by eexists).
  assert (ids s1 = g1) as Hids by (unfold s1; by destruct w). assert (gen_ok (ids s1) m) as Hgen1 by (rewrite Hids; by eapply gen_ok_le).
  destruct (new_id_run w alloc o s1 t m Ht1 Hrep Hgen1) as (ret2 & id2 & g2 & t2 & Hr2 & Hn2 & Hle2 & Hres2).
  apply wp_bind. eapply wp_of; [exact Hr2|]. cbv beta iota.
  destruct (Z.eqb_spec ret2 (- EAGAIN)) as [Hag2|Hag2].
  { destruct (ht_new_again alloc o (ids s1) t m ret2 id2 g2 t2 Hrep Hgen1 Hn2 Hag2) as [_ Hfull]. rewrite Hids in Hfull. specialize (Hfull Hz). lia. }
  unfold wp, mret, M_ret. exists g2, t2. unfold s1. rewrite put_table_twice. split; [done|]. split; [|done].
  rewrite Hids in Hle2. destruct Hle as (Ha1 & Hb1 & Hc1), Hle2 as (Ha2 & Hb2 & Hc2). split; [lia|]. split; [lia|].
  intros Hz2. destruct (Hc2 Hz2) as [Hz1 ?]. destruct (Hc1 Hz1). lia.
Qed.

(** A table of a file and the counters change. *)
Lemma gem_ok_table s hms nm ex hx f t m t' m' g' hx' : gem_ok s hms nm ex hx → object_idr s !! f = Some t → hms !! f = Some m →
  ht_rep t' m' → gen_ok g' m' → gen_le (ids s) g' →
  (∀ o, hx' o + count m' o = hx o + count m o) → gem_ok (set_files (<[f := t']> (object_idr s)) (set_ids g' s)) (<[f := m']> hms) nm ex hx'.
Proof.
  intros Hok Ht Hm Hrep Hgen Hle Hx.
  assert (∀ o, handles (<[f := m']> hms) o + hx' o = handles hms o + hx o) as Hh.
  { intros o. rewrite (handles_update hms f m m' o Hm). specialize (Hx o). lia. }
  split; cbn [objs object_idr object_name_idr ids set_files set_ids].
  - intros i. unfold table_ok. cbn. destruct (decide (i = f)) as [->|Hi]; [by rewrite !lookup_insert_eq|]. rewrite !lookup_insert_ne by done.
    pose proof (g_files _ _ _ _ _ Hok i) as Hi'. unfold table_ok in Hi'. destruct (object_idr s !! i), (hms !! i); try done.
    destruct Hi'. split; [done|by eapply gen_ok_le].
  - destruct (g_names _ _ _ _ _ Hok). split; [done|by eapply gen_ok_le].
  - apply (g_ex _ _ _ _ _ Hok).
  - intros o g Ho. unfold obj_ok. rewrite Hh. by apply (g_objs _ _ _ _ _ Hok).
  - intros o Ho. rewrite Hh. by apply (g_none _ _ _ _ _ Hok).
  - apply (g_named _ _ _ _ _ Hok).
Qed.

Lemma set_ids_same s : set_ids (ids s) s = s.
Proof. by destruct s. Qed.

Lemma gen_le_refl g (m : gmap Z positive) : gen_ok g m → gen_le g g.
Proof. intros (? & ? & _). unfold gen_le. split_and!; try lia; done. Qed.

Lemma file_table s hms nm ex hx f : gem_ok s hms nm ex hx → is_Some (object_idr s !! f) →
  ∃ t m, object_idr s !! f = Some t ∧ hms !! f = Some m ∧ ht_rep t m ∧ gen_ok (ids s) m.
Proof.
  intros Hok [t Ht]. pose proof (g_files _ _ _ _ _ Hok f) as Hf. unfold table_ok in Hf. rewrite Ht in Hf.
  destruct (hms !! f) as [m|]; [|done]. destruct Hf. by exists t, m.
Qed.

(** The driver's own state is not in the invariant. *)
Lemma gem_ok_drv s hms nm ex hx a : gem_ok s hms nm ex hx → gem_ok (set_drv a s) hms nm ex hx.
Proof. intros [H1 H2 H3 H4 H5 H6]. by split. Qed.

Lemma close_object_ok s hms nm ex hx o f : gem_ok s hms nm ex hx →
  wp (close_object o f) s (λ _ s', gem_ok s' hms nm ex hx ∧ objs s' = objs s ∧ object_idr s' = object_idr s).
Proof. intros Hok. unfold close_object. destruct gem_close_object; (split; [|done]); [by apply gem_ok_drv|done]. Qed.

(** ** The operations *)

Definition gem_inv s ex : Prop := ∃ hms nm, gem_ok s hms nm ex (λ _, 0).

(** What an operation that keeps the files keeps. *)
Definition keeps s ex s' : Prop := gem_inv s' ex ∧ (named_live s → named_live s') ∧ dom (object_idr s') = dom (object_idr s).

Lemma named_live_same s s' : objs s' = objs s → named_live s → named_live s'.
Proof. intros Ho Hn o g. rewrite Ho. apply Hn. Qed.

Lemma handle_delete_ok s ex f h : gem_inv s ex → is_Some (object_idr s !! f) →
  wp (drm_gem_handle_delete f h) s (λ _ s', keeps s ex s').
Proof.
  intros (hms & nm & Hok) Hf. destruct (file_table _ _ _ _ _ f Hok Hf) as (t & m & Ht & Hm & Hrep & Hgen).
  unfold drm_gem_handle_delete. apply wp_bind. eapply wp_of; [unfold get_table, reads; by rewrite Ht|]. cbv beta.
  apply wp_bind. eapply wp_of; [unfold reads; by rewrite (ht_find_ok t m h Hrep)|]. cbv beta.
  destruct (m !! h) as [o|] eqn:Ho; [|split; [by exists hms, nm|done]].
  destruct (ht_remove_ok t m h Hrep) as (t' & Hrm & Hrep'). apply wp_bind. eapply wp_of; [unfold reads; by rewrite Hrm|]. cbv beta iota.
  apply wp_bind. eapply wp_of; [done|]. cbv beta. set (s1 := set_files (<[f := t']> (object_idr s)) s).
  assert (gem_ok s1 (<[f := delete h m]> hms) nm ex (bump o 1 (λ _, 0))) as Hok1.
  { unfold s1. rewrite <- (set_ids_same s) at 2.
    apply (gem_ok_table s hms nm ex (λ _, 0) f t m t' (delete h m) (ids s)); try done.
    - destruct Hgen as (? & ? & H3). split; [done|]. split; [done|]. intros x [y [_ Hy]%lookup_delete_Some]. apply H3. by eexists.
    - by eapply gen_le_refl.
    - intros i. rewrite (count_delete m h o i Ho). unfold bump. repeat case_decide; subst; lia || congruence. }
  apply wp_bind. eapply wp_mono; [by apply (close_object_ok s1)|]. intros _ s2 (Hok2 & Ho2 & Hf2). cbv beta.
  apply wp_bind. eapply wp_mono; [apply (handle_unreference_ok s2 _ _ _ _ o Hok2)|].
  { rewrite bump_eq. pose proof (handles_nonneg (<[f:=delete h m]> hms) o). lia. }
  intros _ s3 (nm' & Hok3 & [_ Hf3] & Hnl). cbv beta. unfold wp, mret, M_ret. split; [|split].
  - exists (<[f := delete h m]> hms), nm'. eapply gem_ok_ext; [| |exact Hok3]; [done|]. intros i. apply (bump_back o 1).
  - intros Hn. apply Hnl. eapply named_live_same; [|exact Hn]. by rewrite Ho2.
  - rewrite Hf3, Hf2. cbn. rewrite dom_insert_L. apply elem_of_dom in Hf. set_solver.
Qed.

(** The looked up object carries a reference, and has a handle. *)
Lemma lookup_ok s ex f h : gem_inv s ex → is_Some (object_idr s !! f) →
  wp (drm_gem_object_lookup f h) s (λ r s', match r with
    | None => s' = s
    | Some o => keeps s (bump o 1 ex) s' ∧ ∃ g, objs s' !! o = Some g ∧ 0 < handle_count g
    end).
Proof.
  intros (hms & nm & Hok) Hf. destruct (file_table _ _ _ _ _ f Hok Hf) as (t & m & Ht & Hm & Hrep & Hgen).
  unfold drm_gem_object_lookup. apply wp_bind. eapply wp_of; [unfold get_table, reads; by rewrite Ht|]. cbv beta.
  apply wp_bind. eapply wp_of; [unfold reads; by rewrite (ht_find_ok t m h Hrep)|]. cbv beta.
  destruct (m !! h) as [o|] eqn:Ho; [|done]. unfold drm_gem_object_reference.
  assert (0 < handles hms o + 0) as Hpos by (pose proof (count_pos m h o Ho); pose proof (count_le_handles hms f m o Hm); lia).
  destruct (gem_live _ _ _ _ _ o Hok) as [g Hg]; [by right|].
  apply wp_bind. eapply wp_mono; [apply (kref_get_ok s hms nm ex (λ _, 0) o Hok); by eexists|].
  intros _ s' (Hok' & [Hne Hfi] & Hobj). cbv beta. unfold wp, mret, M_ret. specialize (Hobj g Hg).
  destruct (g_objs _ _ _ _ _ Hok o g Hg) as (Hc & _). split; [split; [|split]|].
  - by exists hms, nm.
  - intros Hn i gi Hi. destruct (decide (i = o)) as [->|Hio]; [rewrite Hobj in Hi; simplify_eq; cbn; intros _; lia|].
    rewrite Hne in Hi by done. by apply Hn with i.
  - by rewrite Hfi.
  - exists (add_ref 1 g). split; [done|]. cbn. lia.
Qed.

(** The ids of a table are not used up. *)
Definition small (w : table_of) s : Prop := ∀ t m, table_at w s = Some t → ht_rep t m → Z.of_nat (size m) < FR_MAX - 1.

Lemma handle_create_ok s ex f alloc o : gem_inv s ex → is_Some (object_idr s !! f) → 0 < ex o → small (OfFile f) s →
  wp (drm_gem_handle_create f alloc o) s (λ r s', keeps s ex s' ∧
    (r.1 = 0 → ∃ g, objs s' !! o = Some g ∧ 0 < handle_count g)).
Proof.
  intros (hms & nm & Hok) Hf Hex Hsm. destruct (file_table _ _ _ _ _ f Hok Hf) as (t & m & Ht & Hm & Hrep & Hgen).
  destruct (gem_live _ _ _ _ _ o Hok) as [g Hg]; [by left|]. unfold drm_gem_handle_create. apply wp_bind.
  eapply wp_mono; [apply (new_again_ok (OfFile f) alloc o s t m Ht Hrep Hgen); by apply (Hsm t m)|].
  intros [ret id] s1 (g1 & t1 & -> & Hle & Hres). cbv beta iota. cbn [fst snd] in Hres. set (s1 := put_table _ _ _).
  assert (dom (object_idr s1) = dom (object_idr s)) as Hdom1.
  { cbn. rewrite dom_insert_L. apply elem_of_dom in Hf. set_solver. }
  case_decide as Hret; [rewrite (proj2 (Z.eqb_eq _ _)) by done|rewrite (proj2 (Z.eqb_neq _ _)) by done]; cbn [negb].
  2:{ subst t1. split; [|done]. split; [|split; [done|done]]. exists hms, nm.
      assert (<[f := m]> hms = hms) as Hid by (by apply insert_id). rewrite <- Hid.
      apply (gem_ok_table s hms nm ex (λ _, 0) f t m t m g1 (λ _, 0)); try done. by eapply gen_ok_le. }
  destruct Hres as (Hidb & Hno & Hrep1 & Hgen1). set (hms1 := <[f := <[id := o]> m]> hms).
  assert (gem_ok s1 hms1 nm ex (bump o (-1) (λ _, 0))) as Hok1.
  { apply (gem_ok_table s hms nm ex (λ _, 0) f t m t1 (<[id := o]> m) g1); try done.
    intros i. rewrite count_insert by done. unfold bump. repeat case_decide; subst; lia || congruence. }
  apply wp_bind. eapply wp_mono; [apply (handle_reference_ok s1 hms1 nm ex _ o Hok1); by exists g|].
  intros _ s2 (Hok2 & [Hne2 Hfi2] & Hobj2). cbv beta. specialize (Hobj2 g Hg).
  assert (keeps s ex s2) as Hk2.
  { split; [|split; [|by rewrite Hfi2]].
    - exists hms1, nm. eapply gem_ok_ext; [| |exact Hok2]; [done|]. intros i. apply (bump_forth o 1).
    - intros Hn i gi Hi Hni. destruct (g_objs _ _ _ _ _ Hok o g Hg) as (_ & Hc & _). destruct (decide (i = o)) as [->|Hio].
      + rewrite Hobj2 in Hi. simplify_eq. cbn. lia.
      + rewrite Hne2 in Hi by done. by apply Hn with i. }
  assert (∃ g', objs s2 !! o = Some g' ∧ 0 < handle_count g') as Hlive2.
  { destruct (g_objs _ _ _ _ _ Hok o g Hg) as (_ & Hc & _). eexists. split; [exact Hobj2|]. cbn. lia. }
  destruct gem_open_object as [open|]; [|by split]. apply wp_bind.
  unfold wp at 1. destruct (open (drv s2) o f) as [ret2 a].
  assert (keeps s ex (set_drv a s2)) as Hk3.
  { destruct Hk2 as ((hms2 & nm2 & Hok3) & Hn & Hd). split; [|done]. exists hms2, nm2. by apply gem_ok_drv. }
  destruct (Z.eqb_spec ret2 0) as [|Hret2]; cbn [negb]; [by split|]. destruct Hk3 as (Hinv3 & Hn3 & Hd3). apply wp_bind.
  eapply wp_mono; [apply (handle_delete_ok (set_drv a s2) ex f id Hinv3)|].
  { apply elem_of_dom. rewrite Hd3. by apply elem_of_dom. }
  intros ? s4 (Hinv4 & Hn4 & Hd4). unfold wp, mret, M_ret. split; [|done]. split; [done|]. split; [by eauto|congruence].
Qed.

(** The table of names and the counters change, but not what it stands for. *)
Lemma gem_ok_names s hms nm ex hx t g' : gem_ok s hms nm ex hx → ht_rep t nm → gen_le (ids s) g' →
  gem_ok (set_names t (set_ids g' s)) hms nm ex hx.
Proof.
  intros [Hx1 [_ Hx2] Hx3 Hx4 Hx5 Hx6] Hrep Hle. split; try done.
  - intros i. specialize (Hx1 i). unfold table_ok in *. cbn. destruct (object_idr s !! i), (hms !! i); try done.
    destruct Hx1. split; [done|by eapply gen_ok_le].
  - split; [done|by eapply gen_ok_le].
Qed.

(** An object gets its name, and the name its reference. *)
Lemma gem_ok_name s hms nm ex hx o g id t g' : gem_ok s hms nm ex hx → objs s !! o = Some g → name g = 0 →
  0 < id → nm !! id = None → ht_rep t (<[id := o]> nm) → gen_ok g' (<[id := o]> nm) → gen_le (ids s) g' →
  gem_ok (set_objs (<[o := add_ref 1 (set_name id g)]> (objs s)) (set_names t (set_ids g' s))) hms (<[id := o]> nm) ex hx.
Proof.
  intros Hok Hg Hn Hid Hno Hrep Hgen Hle. destruct (g_objs _ _ _ _ _ Hok o g Hg) as (Hc1 & Hc2 & Hc3 & Hc4 & Hc5).
  rewrite decide_True in Hc3 by done. split; cbn [objs object_idr object_name_idr ids set_objs set_names set_ids].
  - intros i. pose proof (g_files _ _ _ _ _ Hok i) as Hi. unfold table_ok in *. cbn. destruct (object_idr s !! i), (hms !! i); try done.
    destruct Hi. split; [done|by eapply gen_ok_le].
  - done.
  - apply (g_ex _ _ _ _ _ Hok).
  - intros i gi Hi. destruct (decide (i = o)) as [->|Hio].
    + rewrite lookup_insert_eq in Hi. simplify_eq. unfold obj_ok. cbn. rewrite decide_False by lia.
      split_and!; try done; [lia|lia|]. intros _. apply lookup_insert_eq.
    + rewrite lookup_insert_ne in Hi by done. destruct (g_objs _ _ _ _ _ Hok i gi Hi) as (? & ? & ? & ? & Hnm). unfold obj_ok.
      split_and!; try done. intros Hni. rewrite lookup_insert_ne; [by apply Hnm|]. intros Heq. rewrite Heq in Hno. rewrite (Hnm Hni) in Hno. done.
  - intros i Hi. destruct (decide (i = o)) as [->|Hio]; [by rewrite lookup_insert_eq in Hi|].
    rewrite lookup_insert_ne in Hi by done. by apply (g_none _ _ _ _ _ Hok).
  - intros h i [[<- <-]|[Hne Hi]]%lookup_insert_Some; [eexists; split; [apply lookup_insert_eq|done]|].
    destruct (g_named _ _ _ _ _ Hok h i Hi) as (gi & Hgi & Hni). exists gi. rewrite lookup_insert_ne; [done|].
    intros <-. rewrite Hg in Hgi. simplify_eq. rewrite Hn in Hi. destruct (g_names _ _ _ _ _ Hok) as (_ & _ & _ & Hb).
    destruct (Hb 0); [by eexists|lia].
Qed.

(** The naming half of drm_gem_flink_ioctl gives back the reference of its
    lookup. *)
Lemma flink_name_ok s ex alloc o : gem_inv s ex → 0 < ex o → small Names s →
  wp (flink_name alloc o) s (λ _ s', gem_inv s' (bump o (-1) ex) ∧ dom (object_idr s') = dom (object_idr s) ∧
    ((∃ g, objs s !! o = Some g ∧ 0 < handle_count g) → named_live s → named_live s')).
Proof.
  intros (hms & nm & Hok) Hex Hsm. destruct (gem_live _ _ _ _ _ o Hok) as [g Hg]; [by left|]. unfold flink_name.
  apply wp_bind. eapply wp_of; [by apply obj_at_run|]. cbv beta. apply wp_bind.
  assert (wp (if name g =? 0 then '(ret, id) ← new_id_again 2 Names alloc o;
      if negb (ret =? 0) then mret (ret, Some 0) else upd_obj o (set_name id);; drm_gem_object_reference o;; mret (0, Some id)
    else mret (0, Some (name g))) s (λ _ s', ∃ nm', gem_ok s' hms nm' ex (λ _, 0) ∧ object_idr s' = object_idr s ∧
      (∀ i, i ≠ o → objs s' !! i = objs s !! i) ∧ ∃ g', objs s' !! o = Some g' ∧ handle_count g' = handle_count g)) as Hbody.
  { destruct (Z.eqb_spec (name g) 0) as [Hn|Hn]; [|exists nm; split; [done|]; split; [done|]; split; [done|]; by exists g].
    destruct (g_names _ _ _ _ _ Hok) as [Hrep Hgen]. apply wp_bind.
    eapply wp_mono; [apply (new_again_ok Names alloc o s (object_name_idr s) nm eq_refl Hrep Hgen); by apply (Hsm (object_name_idr s) nm)|].
    intros [ret id] s1 (g1 & t1 & -> & Hle & Hres). cbv beta iota. cbn [fst snd] in Hres.
    case_decide as Hret; [rewrite (proj2 (Z.eqb_eq _ _)) by done|rewrite (proj2 (Z.eqb_neq _ _)) by done]; cbn [negb].
    2:{ subst t1. exists nm. split; [by apply gem_ok_names|]. split; [done|]. split; [done|]. by exists g. }
    destruct Hres as ([Hid _] & Hno & Hrep1 & Hgen1). apply wp_bind. eapply wp_of; [by apply upd_obj_run|]. cbv beta.
    unfold drm_gem_object_reference, kref_get. apply wp_bind. eapply wp_of; [apply upd_obj_run; cbn; apply lookup_insert_eq|]. cbv beta.
    unfold wp, mret, M_ret. exists (<[id := o]> nm). cbn [objs set_objs put_table set_names set_ids object_idr].
    split; [|split; [done|]; split; [intros i Hi; by rewrite !lookup_insert_ne|]; eexists; split; [apply lookup_insert_eq|done]].
    rewrite insert_insert_eq. by apply gem_ok_name. }
  eapply wp_mono; [exact Hbody|]. intros r s1 (nm1 & Hok1 & Hf1 & Hne1 & g1 & Hg1 & Hh1). cbv beta. apply wp_bind.
  eapply wp_mono; [by apply (unreference_ok s1 hms nm1 ex _ o frees Hok1)|]. intros _ s2 (Hok2 & [Hne2 Hf2] & Hobj2). cbv beta.
  unfold wp, mret, M_ret. split; [by exists hms, nm1|]. split; [by rewrite Hf2, Hf1|].
  intros (g0 & Hg0 & Hpos) Hnl i gi Hi Hni. assert (g0 = g) as -> by congruence. destruct (decide (i = o)) as [->|Hio].
  - rewrite (Hobj2 g1 Hg1) in Hi. destruct (refcount g1 =? 1); simplify_eq. cbn. lia.
  - rewrite Hne2, Hne1 in Hi by done. by apply Hnl with i.
Qed.

Lemma keeps_refl s ex : gem_inv s ex → keeps s ex s.
Proof. intros Hi. by split. Qed.

Lemma flink_ioctl_ok s ex has f h alloc : gem_inv s ex → is_Some (object_idr s !! f) → small Names s →
  wp (drm_gem_flink_ioctl has f h alloc) s (λ _ s', keeps s ex s').
Proof.
  intros Hi Hf Hsm. unfold drm_gem_flink_ioctl. destruct has; [|by apply keeps_refl]. cbn [negb].
  assert (∀ r s', drm_gem_object_lookup f h s = Some (r, s') → object_name_idr s' = object_name_idr s) as Hnames.
  { intros r s' Hr. unfold drm_gem_object_lookup in Hr. apply M_bind_inv in Hr as (t & s1 & Ht & Hr).
    unfold get_table, reads in Ht. destruct (object_idr s !! f); simplify_eq.
    apply M_bind_inv in Hr as (obj & s1' & Hob & Hr). unfold reads in Hob. destruct (ht_find h t); simplify_eq.
    destruct obj as [o|]; [|unfold mret, M_ret in Hr; by simplify_eq].
    apply M_bind_inv in Hr as ([] & s2 & Hk & Hr). unfold mret, M_ret in Hr. simplify_eq.
    unfold drm_gem_object_reference, kref_get, upd_obj in Hk. apply M_bind_inv in Hk as (g & s3 & Hg & Hk).
    unfold obj_at, reads in Hg. destruct (objs s1' !! o); simplify_eq. unfold modify in Hk. by simplify_eq. }
  apply wp_bind. destruct (wp_run _ _ _ (lookup_ok s ex f h Hi Hf)) as (r & s1 & Hr & Hpost). eapply wp_of; [exact Hr|].
  cbv beta. destruct r as [o|]; [|subst s1; by apply keeps_refl]. destruct Hpost as ((Hi1 & Hn1 & Hd1) & Hlive).
  assert (0 < bump o 1 ex o) as Hpos.
  { rewrite bump_eq. destruct Hi as (? & ? & Hok). pose proof (g_ex _ _ _ _ _ Hok o). lia. }
  eapply wp_mono; [apply (flink_name_ok s1 _ alloc o Hi1 Hpos)|].
  { intros t m Ht Hm. apply (Hsm t m); [|done]. cbn in *. by rewrite <- (Hnames _ _ Hr). }
  intros _ s2 ((hms & nm & Hok2) & Hd2 & Hn2). split; [|split; [|congruence]].
  - exists hms, nm. eapply gem_ok_ext; [| |exact Hok2]; [|done]. intros i. apply (bump_back o 1).
  - intros Hn. apply Hn2; [done|]. by apply Hn1.
Qed.

Lemma open_ioctl_ok s ex has f n alloc : gem_inv s ex → is_Some (object_idr s !! f) → small (OfFile f) s →
  wp (drm_gem_open_ioctl has f n alloc) s (λ _ s', keeps s ex s').
Proof.
  intros Hi Hf Hsm. unfold drm_gem_open_ioctl. destruct has; [|by apply keeps_refl]. cbn [negb].
  pose proof Hi as (hms & nm & Hok). destruct (g_names _ _ _ _ _ Hok) as [Hrep Hgen].
  apply wp_bind. eapply wp_of; [done|]. cbv beta. apply wp_bind.
  eapply wp_of; [unfold reads; by rewrite (ht_find_ok _ nm n Hrep)|]. cbv beta.
  destruct (nm !! n) as [o|] eqn:Ho; [|by apply keeps_refl].
  destruct (g_named _ _ _ _ _ Hok n o Ho) as (g & Hg & _). unfold drm_gem_object_reference.
  apply wp_bind. eapply wp_mono; [apply (kref_get_ok s hms nm ex (λ _, 0) o Hok); by eexists|].
  intros _ s1 (Hok1 & [Hne1 Hf1] & Hobj1). cbv beta. specialize (Hobj1 g Hg).
  assert (0 < bump o 1 ex o) as Hpos by (rewrite bump_eq; pose proof (g_ex _ _ _ _ _ Hok o); lia).
  assert (named_live s → named_live s1) as Hn1.
  { intros Hn i gi Hgi Hni. destruct (decide (i = o)) as [->|Hio]; [rewrite Hobj1 in Hgi; simplify_eq; by apply (Hn o g)|].
    rewrite Hne1 in Hgi by done. by apply Hn with i. }
  apply wp_bind. eapply wp_mono; [apply (handle_create_ok s1 (bump o 1 ex) f alloc o)|].
  { by exists hms, nm. } { by rewrite Hf1. } { done. }
  { intros t m Ht Hm. apply (Hsm t m); [|done]. cbn in *. by rewrite <- Hf1. }
  intros [ret handle] s2 (((hms2 & nm2 & Hok2) & Hn2 & Hd2) & Hlive). cbv beta iota. cbn [fst] in Hlive.
  apply wp_bind. eapply wp_mono; [by apply (unreference_ok s2 hms2 nm2 _ _ o frees Hok2)|].
  intros _ s3 (Hok3 & [Hne3 Hf3] & Hobj3). cbv beta.
  assert (keeps s ex s3) as Hk.
  { split; [|split].
    - exists hms2, nm2. eapply gem_ok_ext; [| |exact Hok3]; [|done]. intros i. apply (bump_back o 1).
    - intros Hn i gi Hgi Hni. specialize (Hn2 (Hn1 Hn)). destruct (decide (i = o)) as [->|Hio].
      + destruct (objs s2 !! o) as [g2|] eqn:Hg2.
        * rewrite (Hobj3 g2 eq_refl) in Hgi. destruct (refcount g2 =? 1); simplify_eq. by apply (Hn2 o g2).
        * destruct (g_none _ _ _ _ _ Hok2 o Hg2). lia.
      + rewrite Hne3 in Hgi by done. by apply Hn2 with i.
    - by rewrite Hf3, Hd2, Hf1. }
  destruct (Z.eqb_spec ret 0) as [Hret|Hret]; cbn [negb]; [|exact Hk].
  destruct (Hlive Hret) as (g2 & Hg2 & Hc2). destruct (g_objs _ _ _ _ _ Hok2 o g2 Hg2) as (_ & _ & Hrc & _ & _).
  specialize (Hobj3 g2 Hg2). rewrite (proj2 (Z.eqb_neq (refcount g2) 1)) in Hobj3 by (case_decide; lia).
  apply wp_bind. eapply wp_of; [by apply obj_at_run|]. exact Hk.
Qed.

(** A new file. *)
Lemma gem_open_ok s ex f : gem_inv s ex → object_idr s !! f = None →
  wp (drm_gem_open f) s (λ _ s', gem_inv s' ex ∧ objs s' = objs s ∧ dom (object_idr s') = {[f]} ∪ dom (object_idr s)).
Proof.
  intros (hms & nm & Hok) Hf. unfold drm_gem_open. destruct ht_init_ok as (t & Ht & Hrep). apply wp_bind.
  eapply wp_of; [unfold reads; by rewrite Ht|]. cbv beta. unfold wp, set_table, modify. split; [|split; [done|cbn; apply dom_insert_L]].
  assert (hms !! f = None) as Hh.
  { pose proof (g_files _ _ _ _ _ Hok f) as Hx. unfold table_ok in Hx. rewrite Hf in Hx. by destruct (hms !! f). }
  assert (∀ o, handles (<[f := ∅]> hms) o = handles hms o) as Hhs by (intros o; rewrite handles_insert, count_empty by done; lia).
  exists (<[f := ∅]> hms), nm. split; cbn [objs object_idr object_name_idr ids set_files].
  - intros i. unfold table_ok. cbn. destruct (decide (i = f)) as [->|Hi]; [|rewrite !lookup_insert_ne by done; apply (g_files _ _ _ _ _ Hok)].
    rewrite !lookup_insert_eq. split; [done|]. destruct (g_names _ _ _ _ _ Hok) as [_ (? & ? & _)]. split; [done|]. split; [done|].
    intros h [x Hx]. by rewrite lookup_empty in Hx.
  - apply (g_names _ _ _ _ _ Hok).
  - apply (g_ex _ _ _ _ _ Hok).
  - intros o g Ho. unfold obj_ok. rewrite Hhs. by apply (g_objs _ _ _ _ _ Hok).
  - intros o Ho. rewrite Hhs. by apply (g_none _ _ _ _ _ Hok).
  - apply (g_named _ _ _ _ _ Hok).
Qed.

(** The entries of a list that lead to [o]. *)
Definition in_list (l : list (Z * positive)) (o : positive) : Z := Z.of_nat (length (filter (λ e, e.2 = o) l)).

Lemma in_list_count l m o : l ≡ₚ map_to_list m → in_list l o = count m o.
Proof.
  intros Hl. unfold in_list, count. rewrite Hl, <- length_map_to_list. f_equal. apply Permutation_length.
  apply NoDup_Permutation; [apply NoDup_filter, NoDup_map_to_list|apply NoDup_map_to_list|].
  intros [h i]. rewrite list_elem_of_filter, !elem_of_map_to_list, map_lookup_filter_Some. cbn. tauto.
Qed.

Lemma release_handles_ok f m hms ex l : hms !! f = Some m → ∀ s nm hx, gem_ok s hms nm ex hx →
  (∀ o, hx o = in_list l o - count m o) →
  wp (release_handles l f) s (λ _ s', ∃ nm' hx', gem_ok s' hms nm' ex hx' ∧ (∀ o, hx' o = - count m o) ∧
    (named_live s → named_live s') ∧ object_idr s' = object_idr s).
Proof.
  intros Hm. induction l as [|[h o] l IH]; intros s nm hx Hok Hx; cbn [release_handles].
  { exists nm, hx. split; [done|]. split; [intros o; rewrite Hx; unfold in_list; cbn; lia|done]. }
  unfold drm_gem_object_release_handle. apply wp_bind. apply wp_bind.
  eapply wp_mono; [by apply (close_object_ok s)|]. intros _ s1 (Hok1 & Ho1 & Hf1). cbv beta. apply wp_bind.
  assert (0 < handles hms o + hx o) as Hpos.
  { rewrite Hx. unfold in_list. rewrite filter_cons. cbn. rewrite decide_True by done. cbn [length].
    pose proof (count_le_handles hms f m o Hm). lia. }
  eapply wp_mono; [by apply (handle_unreference_ok s1 hms nm ex hx o Hok1)|].
  intros _ s2 (nm2 & Hok2 & [_ Hf2] & Hn2). cbv beta. unfold wp at 1, mret, M_ret.
  eapply wp_mono; [apply (IH s2 nm2 _ Hok2)|].
  { intros i. unfold bump. rewrite Hx. unfold in_list. rewrite filter_cons. cbn. repeat case_decide; simplify_eq; cbn [length]; lia. }
  intros _ s3 (nm3 & hx3 & Hok3 & Hx3 & Hn3 & Hf3). exists nm3, hx3. split; [done|]. split; [done|]. split; [|congruence].
  intros Hn. apply Hn3, Hn2. by eapply named_live_same.
Qed.

Lemma gem_release_ok s ex f : gem_inv s ex → is_Some (object_idr s !! f) →
  wp (drm_gem_release f) s (λ _ s', gem_inv s' ex ∧ (named_live s → named_live s') ∧ object_idr s' = delete f (object_idr s)).
Proof.
  intros (hms & nm & Hok) Hf. destruct (file_table _ _ _ _ _ f Hok Hf) as (t & m & Ht & Hm & Hrep & Hgen).
  unfold drm_gem_release. apply wp_bind. eapply wp_of; [unfold get_table, reads; by rewrite Ht|]. cbv beta.
  destruct (ht_each_ok t m Hrep) as (l & Hl & Hperm). apply wp_bind. eapply wp_of; [unfold reads; by rewrite Hl|]. cbv beta.
  apply wp_bind. eapply wp_mono; [apply (release_handles_ok f m hms ex l Hm s nm (λ _, 0) Hok)|].
  { intros o. rewrite (in_list_count l m o Hperm). lia. }
  intros _ s1 (nm1 & hx1 & Hok1 & Hx1 & Hn1 & Hf1). cbv beta.
  apply wp_bind. eapply wp_of; [unfold get_table, reads; by rewrite Hf1, Ht|]. cbv beta.
  destruct (ht_free_ok t m Hrep) as [t' Ht']. apply wp_bind. eapply wp_of; [unfold reads; by rewrite Ht'|]. cbv beta.
  unfold wp, modify. split; [|split; [|cbn; by rewrite Hf1]].
  - assert (∀ o, handles (delete f hms) o + 0 = handles hms o + hx1 o) as Hh by (intros o; rewrite (handles_delete hms f m o Hm), Hx1; lia).
    exists (delete f hms), nm1. split; cbn [objs object_idr object_name_idr ids set_files].
    + intros i. unfold table_ok. cbn. destruct (decide (i = f)) as [->|Hi]; [by rewrite !lookup_delete_eq|].
      rewrite !lookup_delete_ne by done. apply (g_files _ _ _ _ _ Hok1).
    + apply (g_names _ _ _ _ _ Hok1).
    + apply (g_ex _ _ _ _ _ Hok1).
    + intros o g Ho. unfold obj_ok. rewrite Hh. by apply (g_objs _ _ _ _ _ Hok1).
    + intros o Ho. rewrite Hh. by apply (g_none _ _ _ _ _ Hok1).
    + apply (g_named _ _ _ _ _ Hok1).
  - intros Hn. apply Hn1 in Hn. exact Hn.
Qed.

Lemma private_init_ok s ex o size : gem_inv s ex → objs s !! o = None → Z.land size (PAGE_SIZE - 1) = 0 →
  wp (drm_gem_private_object_init o size) s (λ _ s', keeps s (bump o 1 ex) s').
Proof.
  intros (hms & nm & Hok) Ho Hsz. unfold drm_gem_private_object_init. rewrite (proj2 (Z.eqb_eq _ _)) by done. cbn [negb].
  unfold wp, mbind, M_bind, BUG_ON, modify, mret, M_ret. destruct (g_none _ _ _ _ _ Hok o Ho) as [Hh Hx]. split; [|split; [|done]].
  - exists hms, nm. split; cbn [objs object_idr object_name_idr ids set_objs].
    + apply (g_files _ _ _ _ _ Hok).
    + apply (g_names _ _ _ _ _ Hok).
    + intros i. pose proof (g_ex _ _ _ _ _ Hok i). unfold bump. case_decide; lia.
    + intros i g Hi. destruct (decide (i = o)) as [->|Hio].
      * rewrite lookup_insert_eq in Hi. simplify_eq. unfold obj_ok. rewrite bump_eq. cbn. rewrite decide_True by done. split_and!; [lia..|congruence].
      * rewrite lookup_insert_ne in Hi by done. unfold obj_ok. rewrite bump_ne by done. by apply (g_objs _ _ _ _ _ Hok).
    + intros i Hi. destruct (decide (i = o)) as [->|Hio]; [by rewrite lookup_insert_eq in Hi|].
      rewrite lookup_insert_ne in Hi by done. rewrite bump_ne by done. by apply (g_none _ _ _ _ _ Hok).
    + intros h i Hi. destruct (g_named _ _ _ _ _ Hok h i Hi) as (g & Hg & Hn). exists g. rewrite lookup_insert_ne; [done|congruence].
  - intros Hn i g Hi. cbn in Hi. destruct (decide (i = o)) as [->|Hio]; [rewrite lookup_insert_eq in Hi; by simplify_eq|].
    rewrite lookup_insert_ne in Hi by done. by apply Hn with i.
Qed.

(** ** Runs of clients *)

Definition held_refs (l : list positive) (o : positive) : Z := Z.of_nat (length (filter (λ i, i = o) l)).

Definition world_ok (w : gem_world T A) : Prop := gem_inv (gs w) (held_refs (held w)).

Lemma gem_inv_ext s ex ex' : (∀ o, ex o = ex' o) → gem_inv s ex → gem_inv s ex'.
Proof. intros He (hms & nm & Hok). exists hms, nm. by eapply gem_ok_ext. Qed.

Lemma held_cons o l i : bump o 1 (held_refs l) i = held_refs (o :: l) i.
Proof. unfold bump, held_refs. rewrite filter_cons. repeat case_decide; simplify_eq; cbn [length]; lia. Qed.

Lemma held_delete k l o i : l !! k = Some o → bump o (-1) (held_refs l) i = held_refs (delete k l) i.
Proof.
  intros Hk. unfold bump, held_refs. rewrite delete_take_drop. rewrite <- (take_drop_middle l k o Hk) at 1.
  rewrite !filter_app, !length_app, filter_cons. repeat case_decide; simplify_eq; cbn [length]; lia.
Qed.

Lemma held_pos k l o : l !! k = Some o → 0 < held_refs l o.
Proof.
  intros Hk. pose proof (held_delete k l o o Hk) as Hd. rewrite bump_eq in Hd. unfold held_refs in *. lia.
Qed.

Lemma is_open_spec f s : is_open f s = true → is_Some (object_idr s !! f).
Proof. unfold is_open. destruct (object_idr s !! f); [by eexists|done]. Qed.

Lemma has_room_small w s : has_room w s = true → small w s.
Proof.
  unfold has_room, small. fold (table_at w s). intros Hr t m Ht Hrep. rewrite Ht in Hr. pose proof (ht_size_ok t m Hrep).
  apply Z.ltb_lt in Hr. lia.
Qed.

Definition stays (w w' : gem_world T A) : Prop := world_ok w' ∧ (named_live (gs w) → named_live (gs w')).

Lemma on_gem_ok {B} (m : M (gem T A) B) w :
  wp m (gs w) (λ _ s', gem_inv s' (held_refs (held w)) ∧ (named_live (gs w) → named_live s')) → ∃ w', on_gem m w = Some w' ∧ stays w w'.
Proof. intros Hm. apply wp_run in Hm as (b & s' & Hr & Hi). unfold on_gem. rewrite Hr. by eexists. Qed.

(** Every operation runs to its end and keeps the counts; only the second half
    of flink alone may name an object without handles. *)
Lemma run_gop_ok op w : world_ok w → gop_ok op w = true → ∃ w', run_gop op w = Some w' ∧ world_ok w' ∧
  (match op with GName _ _ => False | _ => True end → named_live (gs w) → named_live (gs w')).
Proof.
  intros Hw Ho. unfold gop_ok in Ho.
  destruct op as [o size|k|f alloc k|f h|has f h|has f h alloc|has f n alloc|f|f|alloc k]; cbn [run_gop];
    repeat match goal with
    | H : (_ && _)%bool = true |- _ => apply andb_true_iff in H as [? ?]
    | H : is_open _ _ = true |- _ => apply is_open_spec in H
    | H : has_room _ _ = true |- _ => apply has_room_small in H
    end.
  - destruct (objs (gs w) !! o) eqn:Hob; [done|]. apply Z.eqb_eq in Ho.
    destruct (wp_run _ _ _ (private_init_ok (gs w) _ o size Hw Hob Ho)) as (r & s' & -> & Hi & Hn & _). eexists. split; [done|].
    split; [|done]. eapply gem_inv_ext; [|exact Hi]. intros i. apply held_cons.
  - destruct (held w !! k) as [o|] eqn:Hk; [|done]. cbn [mbind option_bind]. destruct Hw as (hms & nm & Hok).
    destruct (wp_run _ _ _ (unreference_ok (gs w) hms nm _ _ o frees Hok (held_pos _ _ _ Hk))) as (r & s' & -> & Hok' & [Hne _] & Hobj).
    eexists. split; [done|]. split.
    + exists hms, nm. eapply gem_ok_ext; [| |exact Hok']; [|done]. intros i. by apply held_delete.
    + intros _ Hn i g Hi. cbn in Hi. destruct (decide (i = o)) as [->|Hio]; [|rewrite Hne in Hi by done; by apply Hn with i].
      destruct (gem_live _ _ _ _ _ o Hok) as [g0 Hg0]; [left; by eapply held_pos|]. rewrite (Hobj g0 Hg0) in Hi.
      destruct (refcount g0 =? 1); simplify_eq. by apply (Hn o g0).
  - destruct (held w !! k) as [o|] eqn:Hk; [|done]. cbn [mbind option_bind].
    destruct (on_gem_ok (drm_gem_handle_create f alloc o) w) as (w' & -> & Hw' & Hn).
    { eapply wp_mono; [apply handle_create_ok; [done..|by eapply held_pos|done]|]. by intros ? ? [(? & ? & _) _]. }
    by exists w'.
  - destruct (wp_run _ _ _ (lookup_ok (gs w) _ f h Hw Ho)) as (r & s' & -> & Hr). eexists. split; [done|]. destruct r as [o|].
    + destruct Hr as ((Hi & Hn & _) & _). split; [|done]. eapply gem_inv_ext; [|exact Hi]. intros i. apply held_cons.
    + subst s'. by split.
  - destruct (on_gem_ok (drm_gem_close_ioctl has f h) w) as (w' & -> & Hw' & Hn); [|by exists w'].
    unfold drm_gem_close_ioctl. destruct has; [|by split]. eapply wp_mono; [by apply handle_delete_ok|]. by intros ? ? (? & ? & _).
  - destruct (on_gem_ok (drm_gem_flink_ioctl has f h alloc) w) as (w' & -> & Hw' & Hn); [|by exists w'].
    eapply wp_mono; [by apply flink_ioctl_ok|]. by intros ? ? (? & ? & _).
  - destruct (on_gem_ok (drm_gem_open_ioctl has f n alloc) w) as (w' & -> & Hw' & Hn); [|by exists w'].
    eapply wp_mono; [by apply open_ioctl_ok|]. by intros ? ? (? & ? & _).
  - apply negb_true_iff in Ho. destruct (on_gem_ok (drm_gem_open f) w) as (w' & -> & Hw' & Hn); [|by exists w'].
    eapply wp_mono; [apply gem_open_ok; [done|]|].
    { unfold is_open in Ho. by destruct (object_idr (gs w) !! f). }
    intros ? ? (? & Hob & _). split; [done|]. by apply named_live_same.
  - destruct (on_gem_ok (drm_gem_release f) w) as (w' & -> & Hw' & Hn); [|by exists w'].
    eapply wp_mono; [by apply gem_release_ok|]. by intros ? ? (? & ? & _).
  - destruct (held w !! k) as [o|] eqn:Hk; [|done]. cbn [mbind option_bind].
    destruct (wp_run _ _ _ (flink_name_ok (gs w) _ alloc o Hw (held_pos _ _ _ Hk) ltac:(done))) as (r & s' & -> & Hi & _).
    eexists. split; [done|]. split; [|done]. eapply gem_inv_ext; [|exact Hi]. intros i. by apply held_delete.
Qed.

Lemma start_ok names g a : ht_rep names ∅ → 0 <= fr_id g < FR_MAX → 0 <= fr_time g → world_ok (gem_start names g a) ∧ named_live (gs (gem_start names g a)).
Proof.
  intros Hrep Hid Ht. split; [|intros o g0 Ho; cbn in Ho; by rewrite lookup_empty in Ho]. exists ∅, ∅. split; cbn.
  - intros f. unfold table_ok. cbn. by rewrite !lookup_empty.
  - split; [done|]. split; [done|]. split; [done|]. intros h [x Hx]. by rewrite lookup_empty in Hx.
  - done.
  - intros o g0 Ho. by rewrite lookup_empty in Ho.
  - intros o _. unfold handles. by rewrite msum_empty.
  - intros h o Ho. by rewrite lookup_empty in Ho.
Qed.


(** C10 (gem_no_leak): when the ioctls run one at a time, then once every file is
    closed and the kernel has dropped its references, no object is left. *)
Theorem gem_no_leak names g a w :
  ht_rep names ∅ → 0 <= fr_id g < FR_MAX → 0 <= fr_time g → star (gstep false) (gem_start names g a) w →
  object_idr (gs w) = ∅ → held w = [] → objs (gs w) = ∅.
Proof.
  intros Hrep Hid Ht Hstar Hfiles Hheld. assert (world_ok w ∧ named_live (gs w)) as [(hms & nm & Hok) Hlive].
  { eapply (star_invariant _ (λ w, world_ok w ∧ named_live (gs w))); [|exact (start_ok names g a Hrep Hid Ht)|exact Hstar].
    intros w1 w2 [Hw1 Hn1] (op & Hat & Hop & Hr). destruct (run_gop_ok op w1 Hw1 Hop) as (w3 & Hr3 & Hw3 & Hn3).
    simplify_eq. split; [done|]. destruct Hat as [|Hat]; [done|]. by apply Hn3. }
  apply map_empty. intros o. destruct (objs (gs w) !! o) as [ob|] eqn:Hob; [|done]. exfalso.
  destruct (g_objs _ _ _ _ _ Hok o ob Hob) as (Hh & _ & Hr & Hp & _).
  assert (hms = ∅) as ->.
  { apply map_empty. intros f. pose proof (g_files _ _ _ _ _ Hok f) as Hx. unfold table_ok in Hx. rewrite Hfiles, lookup_empty in Hx.
    by destruct (hms !! f). }
  rewrite Hheld in Hr. unfold handles in Hh. rewrite msum_empty in Hh. unfold held_refs in Hr. cbn in Hr.
  destruct (decide (name ob = 0)) as [|Hn]; [lia|]. pose proof (Hlive o ob Hob Hn). lia.
Qed.

Lemma run_gops_star halves l w w' : (halves = true ∨ Forall (λ op, match op with GName _ _ => False | _ => True end) l) →
  run_gops l w = Some w' → star (gstep halves) w w'.
Proof.
  revert w. induction l as [|op l IH]; intros w Hh Hr; cbn [run_gops] in Hr; [simplify_eq; apply star_refl|].
  destruct (gop_ok op w) eqn:Hop; [|done]. destruct (run_gop op w) as [w1|] eqn:Hr1; [|done]. cbn [mbind option_bind] in Hr.
  eapply star_step; [|apply (IH w1); [|exact Hr]].
  - exists op. split; [|done]. destruct Hh as [|Hh]; [by left|right]. by apply Forall_cons in Hh as [? _].
  - destruct Hh as [|Hh]; [by left|right]. by apply Forall_cons in Hh as [_ ?].
Qed.
End Invariant.

(** ** Two clients on idr_list tables *)

#[local] Instance demo_driver : GemDriver nat := {|
  gem_open_object := Some (λ a _ _, (0, S a)); gem_close_object := Some (λ a _ _, pred a); gem_free_object := Some (λ a _, a);
|}.
Abbreviation demo := (gem_world (idr_list positive) nat).

(** An object gets a handle in each of two files, a name, and loses the first. *)
Definition demo_run : list gem_op :=
  [GInit 1 4096; GOpen 1; GOpen 2; GCreate 1 true 0; GFlink true 1 2 true; GOpenName true 2 3 true; GClose true 1 2].

(** The file that shares the object dies between the halves of flink. *)
Definition race_run : list gem_op :=
  [GInit 1 4096; GOpen 1; GCreate 1 true 0; GPut 0; GLookup 1 2; GClose true 1 2; GName true 0; GRelease 1].

Definition demo_start : option demo := t ← idr_list_init; Some (gem_start t (mk_gen 1 0) 0%nat).
Definition demo_view (w : demo) := (size (object_idr (gs w)), held w, map_to_list (objs (gs w))).

Lemma demo_runs l v : demo_view <$> (demo_start ≫= run_gops l) = Some v →
  ∃ names w, idr_list_init = Some names ∧ ht_rep names (∅ : gmap Z positive) ∧
    run_gops l (gem_start names (mk_gen 1 0) 0%nat : demo) = Some w ∧ demo_view w = v.
Proof.
  intros Hv. destruct (init_ok (O := positive)) as (t & Ht & Hr). exists t.
  assert (demo_start = Some (gem_start t (mk_gen 1 0) 0%nat)) as Hs by (unfold demo_start; rewrite Ht; reflexivity).
  rewrite Hs in Hv. cbn [mbind option_bind] in Hv. destruct (run_gops l _) as [w|] eqn:Hw; [|discriminate Hv].
  exists w. cbn [fmap option_fmap option_map] in Hv. apply (inj Some) in Hv. split; [exact Ht|]. split; [exact Hr|].
  split; [reflexivity|exact Hv].
Qed.

(** Drm_gem_flink_ioctl looks the object up under one
    lock and names it under another.  When the last handle is closed in between,
    the name keeps an object alive that no file has a handle for and no holder of
    a reference knows: it is left when every file is closed. *)
Theorem gem_flink_race_leaks : ∃ names w, idr_list_init = Some names ∧
  star (gstep true) (gem_start names (mk_gen 1 0) 0%nat : demo) w ∧
  object_idr (gs w) = ∅ ∧ held w = [] ∧
  ∃ o obj, objs (gs w) !! o = Some obj ∧ name obj ≠ 0 ∧ handle_count obj = 0 ∧ refcount obj = 1.
Proof.
  destruct (demo_runs race_run (0%nat, [], [(1%positive, mk_obj 1 0 3 4096)])) as (names & w & Hn & _ & Hw & Hv);
    [vm_compute; reflexivity|].
  unfold demo_view in Hv. injection Hv as Hf Hh Ho. exists names, w. split; [exact Hn|].
  split; [apply (run_gops_star true race_run); [left; reflexivity|exact Hw]|].
  split; [exact (map_size_empty_inv _ Hf)|]. split; [exact Hh|]. exists 1%positive, (mk_obj 1 0 3 4096).
  split; [|repeat split; discriminate]. apply elem_of_map_to_list. rewrite Ho. apply list_elem_of_singleton. reflexivity.
Qed.


(** Every file is closed and the reference of the kernel is dropped. *)
Lemma gem_no_leak_witness : ∃ names w, idr_list_init = Some names ∧
  run_gops (demo_run ++ [GRelease 1; GPut 0; GRelease 2]) (gem_start names (mk_gen 1 0) 0%nat : demo) = Some w ∧ objs (gs w) = ∅.
Proof.
  destruct (demo_runs (demo_run ++ [GRelease 1; GPut 0; GRelease 2]) (0%nat, [], [])) as (names & w & Hn & He & Hw & Hv);
    [vm_compute; reflexivity|].
  exists names, w. split; [exact Hn|]. split; [exact Hw|]. unfold demo_view in Hv. injection Hv as Hf Hh _.
  apply (gem_no_leak ltac:(by eexists) names (mk_gen 1 0) 0%nat w He); [split; [discriminate|reflexivity]|discriminate| |exact (map_size_empty_inv _ Hf)|exact Hh].
  apply (run_gops_star false (demo_run ++ [GRelease 1; GPut 0; GRelease 2])); [right; repeat constructor|exact Hw].
Defined.
