(* ===== verification/Rect.v ===== *)
(** * drm_rect.c and drm_rect.h: rectangles of planes

    Coordinates are C [int]s: each operation wraps at 32 bits.  The theorems
    show that intersection is the intersection of point sets, that clipping
    keeps the scale of the source window, and what the scale computations
    return on every branch. *)

From stdpp Require Import base option list.
From Stdlib Require Import ZArith Lia.
From S2P Require Import Prelude.

(** [struct drm_rect]. *)
Record drm_rect := mk_rect { x1 : Z; y1 : Z; x2 : Z; y2 : Z }.

(** ** Operations of drm_rect.h *)

Definition drm_rect_adjust_size (r : drm_rect) (dw dh : Z) : drm_rect :=
  mk_rect (i32 (x1 r - Z.shiftr dw 1)) (i32 (y1 r - Z.shiftr dh 1))
          (i32 (x2 r + Z.shiftr (i32 (dw + 1)) 1)) (i32 (y2 r + Z.shiftr (i32 (dh + 1)) 1)).

Definition drm_rect_translate (r : drm_rect) (dx dy : Z) : drm_rect :=
  mk_rect (i32 (x1 r + dx)) (i32 (y1 r + dy)) (i32 (x2 r + dx)) (i32 (y2 r + dy)).

(** [int] division: truncation; a trap on 0 and on INT_MIN / -1. *)
Definition idiv (a b : Z) : option Z :=
  if (b =? 0) || ((a =? INT_MIN) && (b =? -1)) then None else Some (Z.quot a b).

Definition drm_rect_downscale (r : drm_rect) (horz vert : Z) : option drm_rect :=
  a ← idiv (x1 r) horz;
  b ← idiv (y1 r) vert;
  c ← idiv (x2 r) horz;
  d ← idiv (y2 r) vert;
  Some (mk_rect a b c d).

Definition drm_rect_width (r : drm_rect) : Z := i32 (x2 r - x1 r).
Definition drm_rect_height (r : drm_rect) : Z := i32 (y2 r - y1 r).
Definition drm_rect_visible (r : drm_rect) : bool :=
  (0 <? drm_rect_width r) && (0 <? drm_rect_height r).
Definition drm_rect_equals (r1 r2 : drm_rect) : bool :=
  (x1 r1 =? x1 r2) && (x2 r1 =? x2 r2) && (y1 r1 =? y1 r2) && (y2 r1 =? y2 r2).

(** ** drm_rect.c *)

(** [*r1] after the call, and the result. *)
Definition drm_rect_intersect (r1 r2 : drm_rect) : drm_rect * bool :=
  let r := mk_rect (cmax (x1 r1) (x1 r2)) (cmax (y1 r1) (y1 r2))
                   (cmin (x2 r1) (x2 r2)) (cmin (y2 r1) (y2 r2)) in
  (r, drm_rect_visible r).

(** [x = clamp_int64_t(tmp);]: the macro is two statements, and [x] is assigned
    the first, [tmp = min(INT_MAX, tmp)], converted to [int]; the second,
    [tmp = max(INT_MIN, tmp)], comes after. *)
Definition assign_clamp_int64_t (tmp : Z) : Z := i32 (cmin INT_MAX tmp).

(** ([*src], [*dst]) after the call, and the result. *)
Definition drm_rect_clip_scaled (src dst clip : drm_rect) (hscale vscale : Z)
    : drm_rect * drm_rect * bool :=
  let diff := i32 (x1 clip - x1 dst) in
  let sx1 := if 0 <? diff then assign_clamp_int64_t (x1 src + diff * hscale) else x1 src in
  let diff := i32 (y1 clip - y1 dst) in
  let sy1 := if 0 <? diff then assign_clamp_int64_t (y1 src + diff * vscale) else y1 src in
  let diff := i32 (x2 dst - x2 clip) in
  let sx2 := if 0 <? diff then assign_clamp_int64_t (x2 src - diff * hscale) else x2 src in
  let diff := i32 (y2 dst - y2 clip) in
  let sy2 := if 0 <? diff then assign_clamp_int64_t (y2 src - diff * vscale) else y2 src in
  let '(dst, v) := drm_rect_intersect dst clip in
  (mk_rect sx1 sy1 sx2 sy2, dst, v).

Definition drm_calc_scale (src dst : Z) : Z :=
  if (src <? 0) || (dst <? 0) then - EINVAL
  else if dst =? 0 then 0
  else Z.quot src dst.

Definition drm_rect_calc_hscale (src dst : drm_rect) (min_hscale max_hscale : Z) : Z :=
  let src_w := drm_rect_width src in
  let dst_w := drm_rect_width dst in
  let hscale := drm_calc_scale src_w dst_w in
  if (hscale <? 0) || (dst_w =? 0) then hscale
  else if (hscale <? min_hscale) || (max_hscale <? hscale) then - ERANGE
  else hscale.

Definition drm_rect_calc_vscale (src dst : drm_rect) (min_vscale max_vscale : Z) : Z :=
  let src_h := drm_rect_height src in
  let dst_h := drm_rect_height dst in
  let vscale := drm_calc_scale src_h dst_h in
  if (vscale <? 0) || (dst_h =? 0) then vscale
  else if (vscale <? min_vscale) || (max_vscale <? vscale) then - ERANGE
  else vscale.

(** ([*src], [*dst]) after the call, and the result. *)
Definition drm_rect_calc_hscale_relaxed (src dst : drm_rect) (min_hscale max_hscale : Z)
    : drm_rect * drm_rect * Z :=
  let src_w := drm_rect_width src in
  let dst_w := drm_rect_width dst in
  let hscale := drm_calc_scale src_w dst_w in
  if (hscale <? 0) || (dst_w =? 0) then (src, dst, hscale)
  else if hscale <? min_hscale then
    let max_dst_w := Z.quot src_w min_hscale in
    (src, drm_rect_adjust_size dst (i32 (max_dst_w - dst_w)) 0, min_hscale)
  else if max_hscale <? hscale then
    let max_src_w := i32 (dst_w * max_hscale) in
    (drm_rect_adjust_size src (i32 (max_src_w - src_w)) 0, dst, max_hscale)
  else (src, dst, hscale).

Definition drm_rect_calc_vscale_relaxed (src dst : drm_rect) (min_vscale max_vscale : Z)
    : drm_rect * drm_rect * Z :=
  let src_h := drm_rect_height src in
  let dst_h := drm_rect_height dst in
  let vscale := drm_calc_scale src_h dst_h in
  if (vscale <? 0) || (dst_h =? 0) then (src, dst, vscale)
  else if vscale <? min_vscale then
    let max_dst_h := Z.quot src_h min_vscale in
    (src, drm_rect_adjust_size dst 0 (i32 (max_dst_h - dst_h)), min_vscale)
  else if max_vscale <? vscale then
    let max_src_h := i32 (dst_h * max_vscale) in
    (drm_rect_adjust_size src 0 (i32 (max_src_h - src_h)), dst, max_vscale)
  else (src, dst, vscale).

(** ** Rectangles as sets of points *)

Definition inside (r : drm_rect) (x y : Z) : Prop := x1 r <= x < x2 r ∧ y1 r <= y < y2 r.

(** Coordinates for which widths, heights and sums stay in range. *)
Definition coord (z : Z) : Prop := - 2 ^ 29 <= z <= 2 ^ 29.
Definition small (r : drm_rect) : Prop := coord (x1 r) ∧ coord (y1 r) ∧ coord (x2 r) ∧ coord (y2 r).

Definition within (B : Z) (r : drm_rect) : Prop :=
  - B <= x1 r <= B ∧ - B <= y1 r <= B ∧ - B <= x2 r <= B ∧ - B <= y2 r <= B.

Ltac i32_small := rewrite ?i32_id by (unfold INT_MIN, INT_MAX, coord, small in *; lia).

Lemma width_small r : small r → drm_rect_width r = x2 r - x1 r.
Proof. unfold small, coord, drm_rect_width. intros. by i32_small. Qed.

Lemma height_small r : small r → drm_rect_height r = y2 r - y1 r.
Proof. unfold small, coord, drm_rect_height. intros. by i32_small. Qed.

Lemma visible_small r : small r → drm_rect_visible r = true ↔ ∃ x y, inside r x y.
Proof.
  intros Hr. unfold drm_rect_visible. rewrite width_small, height_small by done.
  unfold inside. rewrite andb_true_iff, !Z.ltb_lt. split.
  - intros [? ?]. exists (x1 r), (y1 r). lia.
  - intros (x & y & ? & ?). lia.
Qed.

Lemma intersect_small r1 r2 : small r1 → small r2 → small (drm_rect_intersect r1 r2).1.
Proof. unfold small, coord. cbn. rewrite !cmin_min, !cmax_max. lia. Qed.

(** Half of the adjustment goes to each side: the size changes by [dw], [dh]. *)
Lemma adjust_size_small r dw dh : small r → - 2 ^ 30 <= dw <= 2 ^ 30 → - 2 ^ 30 <= dh <= 2 ^ 30 →
  let r' := drm_rect_adjust_size r dw dh in
  x2 r' - x1 r' = x2 r - x1 r + dw ∧ y2 r' - y1 r' = y2 r - y1 r + dh ∧
  - 1 <= (x1 r' + x2 r') - (x1 r + x2 r) <= 1 ∧ - 1 <= (y1 r' + y2 r') - (y1 r + y2 r) <= 1.
Proof.
  unfold small, coord. intros (? & ? & ? & ?) Hw Hh. cbn.
  rewrite !(i32_id (_ + 1)) by (unfold INT_MIN, INT_MAX; lia).
  rewrite !Z.shiftr_div_pow2 by lia. change (2 ^ 1) with 2.
  pose proof (Z.div_mod dw 2). pose proof (Z.mod_pos_bound dw 2).
  pose proof (Z.div_mod dh 2). pose proof (Z.mod_pos_bound dh 2).
  pose proof (Z.div_mod (dw + 1) 2). pose proof (Z.mod_pos_bound (dw + 1) 2).
  pose proof (Z.div_mod (dh + 1) 2). pose proof (Z.mod_pos_bound (dh + 1) 2).
  rewrite !i32_id by (unfold INT_MIN, INT_MAX; lia). lia.
Qed.

Lemma adjust_rows r dw : small r →
  y1 (drm_rect_adjust_size r dw 0) = y1 r ∧ y2 (drm_rect_adjust_size r dw 0) = y2 r.
Proof.
  unfold small, coord. intros (? & ? & ? & ?). unfold drm_rect_adjust_size. cbn [y1 y2].
  change (Z.shiftr 0 1) with 0. change (Z.shiftr (i32 (0 + 1)) 1) with 0.
  rewrite !i32_id by (unfold INT_MIN, INT_MAX; lia). lia.
Qed.

(** ** Theorems *)

(** Drm_rect_intersect computes the intersection of
    the two sets of points, and returns whether it is not empty. *)
Theorem rect_intersect_points r1 r2 : small r1 → small r2 →
  let '(r, v) := drm_rect_intersect r1 r2 in
  (∀ x y, inside r x y ↔ inside r1 x y ∧ inside r2 x y) ∧
  (v = true ↔ ∃ x y, inside r1 x y ∧ inside r2 x y).
Proof.
  intros H1 H2. pose proof (intersect_small r1 r2 H1 H2) as Hs.
  destruct (drm_rect_intersect r1 r2) as [r v] eqn:Hr.
  assert (∀ x y, inside r x y ↔ inside r1 x y ∧ inside r2 x y) as Hin.
  { intros x y. unfold drm_rect_intersect in Hr. injection Hr as <- _.
    unfold inside. cbn. rewrite !cmin_min, !cmax_max. lia. }
  split; [done|]. assert (v = drm_rect_visible r) as ->.
  { unfold drm_rect_intersect in Hr. by injection Hr as <- <-. }
  rewrite visible_small by done. by setoid_rewrite Hin.
Qed.

(** Drm_rect_clip_scaled cuts [hscale] source
    columns for each destination column it clips, and likewise for rows: a source
    window that was [hscale] times as wide and [vscale] times as high as the
    destination still is, and each edge is cut by its own amount. *)
Theorem clip_scaled_keeps_scale src dst clip hscale vscale B :
  within B dst → within B clip → B <= 2 ^ 29 → 0 <= hscale → 0 <= vscale →
  (∀ z s, z = x1 src ∨ z = y1 src ∨ z = x2 src ∨ z = y2 src → s = hscale ∨ s = vscale →
    INT_MIN <= z - 2 * B * s ∧ z + 2 * B * s <= INT_MAX) →
  let '(src', dst', v) := drm_rect_clip_scaled src dst clip hscale vscale in
  x1 src' - x1 src = (x1 dst' - x1 dst) * hscale ∧
  x2 src - x2 src' = (x2 dst - x2 dst') * hscale ∧
  y1 src' - y1 src = (y1 dst' - y1 dst) * vscale ∧
  y2 src - y2 src' = (y2 dst - y2 dst') * vscale ∧
  (x2 src - x1 src = (x2 dst - x1 dst) * hscale → x2 src' - x1 src' = (x2 dst' - x1 dst') * hscale) ∧
  (y2 src - y1 src = (y2 dst - y1 dst) * vscale → y2 src' - y1 src' = (y2 dst' - y1 dst') * vscale) ∧
  (v = true ↔ ∃ x y, inside dst' x y).
Proof.
  intros Hd Hc HB Hh Hv Hsrc.
  assert (small dst ∧ small clip) as [Hsd Hsc] by (unfold within, small, coord in *; lia).
  pose proof (intersect_small dst clip Hsd Hsc) as Hs.
  unfold drm_rect_clip_scaled. unfold drm_rect_intersect in *. cbn [fst] in Hs.
  rewrite visible_small by done. cbn [x1 y1 x2 y2 fst snd]. rewrite !cmin_min, !cmax_max.
  clear Hsd Hsc Hs. unfold within in Hd, Hc.
  assert (∀ d z s, z = x1 src ∨ z = y1 src ∨ z = x2 src ∨ z = y2 src → s = hscale ∨ s = vscale →
    d <= 2 * B →
    (if 0 <? d then assign_clamp_int64_t (z + d * s) else z) = z + Z.max 0 d * s ∧
    (if 0 <? d then assign_clamp_int64_t (z - d * s) else z) = z - Z.max 0 d * s) as Ha.
  { intros d z s Hz Hs Hd'. destruct (Hsrc z s Hz Hs). case_bool; [|lia].
    rewrite Z.max_r by lia. assert (0 <= s) by lia. assert (0 <= d * s <= 2 * B * s) by nia.
    unfold assign_clamp_int64_t. rewrite !cmin_min. rewrite !Z.min_r by lia.
    rewrite !i32_id by lia. done. }
  rewrite !i32_id by (unfold INT_MIN, INT_MAX; lia).
  rewrite !(λ d z s H1 H2 H3, proj1 (Ha d z s H1 H2 H3)) by (tauto || lia).
  rewrite !(λ d z s H1 H2 H3, proj2 (Ha d z s H1 H2 H3)) by (tauto || lia).
  replace (Z.max 0 (x1 clip - x1 dst)) with (Z.max (x1 dst) (x1 clip) - x1 dst) by lia.
  replace (Z.max 0 (y1 clip - y1 dst)) with (Z.max (y1 dst) (y1 clip) - y1 dst) by lia.
  replace (Z.max 0 (x2 dst - x2 clip)) with (x2 dst - Z.min (x2 dst) (x2 clip)) by lia.
  replace (Z.max 0 (y2 dst - y2 clip)) with (y2 dst - Z.min (y2 dst) (y2 clip)) by lia.
  split_and!; try lia; done.
Qed.

(** The lower bound of clamp_int64_t is not
    applied: a source edge that falls below INT_MIN is stored modulo 2^32, here as
    a large positive coordinate. *)
Theorem clip_scaled_lower_clamp_lost :
  let src := mk_rect (-1) 0 0 10 in
  let dst := mk_rect 0 0 100 10 in
  let clip := mk_rect 0 0 50 10 in
  (drm_rect_clip_scaled src dst clip 60000000 1).1.1 = mk_rect (-1) 0 1294967296 10.
Proof. reflexivity. Qed.

(** For visible rectangles and bounds
    [0 < min <= max], drm_rect_calc_hscale_relaxed returns the scale clamped to the
    bounds, changes at most one of the two widths, only to shrink it, about its
    centre (to within half a pixel), and leaves the heights alone; a clamped width
    is the one the returned scale calls for. *)
Theorem hscale_relaxed_fits src dst lo hi :
  small src → small dst → 0 <= drm_rect_width src → 0 < drm_rect_width dst →
  0 < lo <= hi → hi <= INT_MAX →
  let s := drm_rect_width src / drm_rect_width dst in
  let '(src', dst', r) := drm_rect_calc_hscale_relaxed src dst lo hi in
  r = Z.max lo (Z.min hi s) ∧
  x2 dst' - x1 dst' = (if s <? lo then (x2 src - x1 src) / lo else x2 dst - x1 dst) ∧
  x2 src' - x1 src' = (if hi <? s then (x2 dst - x1 dst) * hi else x2 src - x1 src) ∧
  x2 dst' - x1 dst' <= x2 dst - x1 dst ∧ x2 src' - x1 src' <= x2 src - x1 src ∧
  - 1 <= (x1 dst' + x2 dst') - (x1 dst + x2 dst) <= 1 ∧
  - 1 <= (x1 src' + x2 src') - (x1 src + x2 src) <= 1 ∧
  y1 dst' = y1 dst ∧ y2 dst' = y2 dst ∧ y1 src' = y1 src ∧ y2 src' = y2 src.
Proof.
  intros Hsrc Hdst. rewrite !width_small by done. intros Hsw Hdw Hlo Hhi.
  unfold drm_rect_calc_hscale_relaxed. rewrite !width_small by done.
  remember (x2 src - x1 src) as sw eqn:Esw. remember (x2 dst - x1 dst) as dw eqn:Edw. cbv zeta.
  assert (drm_calc_scale sw dw = sw / dw) as ->.
  { unfold drm_calc_scale. rewrite !(proj2 (Z.ltb_ge _ 0)), (proj2 (Z.eqb_neq _ _)) by lia. cbn.
    apply Z.quot_div_nonneg; lia. }
  pose proof (Z.div_pos sw dw Hsw Hdw). pose proof (Z.mul_div_le sw dw Hdw).
  pose proof (Z.mul_succ_div_gt sw dw Hdw).
  rewrite (proj2 (Z.ltb_ge (sw / dw) 0)), (proj2 (Z.eqb_neq dw 0)) by lia. cbn [orb].
  unfold small, coord in Hsrc, Hdst. pose proof Hsrc as (? & ? & ? & ?). pose proof Hdst as (? & ? & ? & ?).
  destruct (Z.ltb_spec (sw / dw) lo) as [Hl|Hl]; [|destruct (Z.ltb_spec hi (sw / dw)) as [Hh|Hh]].
  - rewrite (Z.quot_div_nonneg sw lo) by lia.
    pose proof (Z.mul_div_le sw lo ltac:(lia)). pose proof (Z.div_pos sw lo Hsw ltac:(lia)).
    assert (sw / lo <= dw) by nia.
    rewrite i32_id by (unfold INT_MIN, INT_MAX; lia).
    destruct (adjust_size_small dst (sw / lo - dw) 0) as (Hw & _ & Hc & _);
      [done|lia|lia|].
    rewrite (proj2 (Z.ltb_ge hi (sw / dw))) by lia.
    assert (y1 (drm_rect_adjust_size dst (sw / lo - dw) 0) = y1 dst ∧
            y2 (drm_rect_adjust_size dst (sw / lo - dw) 0) = y2 dst) as [-> ->].
    { by apply adjust_rows. }
    split_and!; lia.
  - assert (dw * hi <= sw) by nia. assert (0 <= dw * hi) by nia.
    rewrite (i32_id (dw * hi)), i32_id by (unfold INT_MIN, INT_MAX; lia).
    destruct (adjust_size_small src (dw * hi - sw) 0) as (Hw & _ & Hc & _);
      [done|lia|lia|].
    assert (y1 (drm_rect_adjust_size src (dw * hi - sw) 0) = y1 src ∧
            y2 (drm_rect_adjust_size src (dw * hi - sw) 0) = y2 src) as [-> ->].
    { by apply adjust_rows. }
    split_and!; lia.
  - split_and!; lia.
Qed.

(** ** Witnesses *)

Lemma rect_intersect_points_witness :
  let '(r, v) := drm_rect_intersect (mk_rect 0 0 10 10) (mk_rect 5 5 20 20) in
  (∀ x y, inside r x y ↔ inside (mk_rect 0 0 10 10) x y ∧ inside (mk_rect 5 5 20 20) x y) ∧
  (v = true ↔ ∃ x y, inside (mk_rect 0 0 10 10) x y ∧ inside (mk_rect 5 5 20 20) x y).
Proof. apply (rect_intersect_points (mk_rect 0 0 10 10)); unfold small, coord; cbn; lia. Defined.

Lemma clip_scaled_keeps_scale_witness :
  let src := mk_rect 0 0 100 100 in
  let '(src', dst', v) := drm_rect_clip_scaled src src (mk_rect 20 0 70 100) 1 1 in
  x1 src' - x1 src = (x1 dst' - x1 src) * 1 ∧
  x2 src - x2 src' = (x2 src - x2 dst') * 1 ∧
  y1 src' - y1 src = (y1 dst' - y1 src) * 1 ∧
  y2 src - y2 src' = (y2 src - y2 dst') * 1 ∧
  (x2 src - x1 src = (x2 src - x1 src) * 1 → x2 src' - x1 src' = (x2 dst' - x1 dst') * 1) ∧
  (y2 src - y1 src = (y2 src - y1 src) * 1 → y2 src' - y1 src' = (y2 dst' - y1 dst') * 1) ∧
  (v = true ↔ ∃ x y, inside dst' x y).
Proof.
  apply (clip_scaled_keeps_scale (mk_rect 0 0 100 100) (mk_rect 0 0 100 100)
           (mk_rect 20 0 70 100) 1 1 100); unfold within, INT_MIN, INT_MAX; cbn; lia.
Defined.

Lemma hscale_relaxed_fits_witness :
  let src := mk_rect 0 0 100 50 in
  let dst := mk_rect 0 0 10 50 in
  let s := drm_rect_width src / drm_rect_width dst in
  let '(src', dst', r) := drm_rect_calc_hscale_relaxed src dst 1 4 in
  r = Z.max 1 (Z.min 4 s) ∧
  x2 dst' - x1 dst' = (if s <? 1 then (x2 src - x1 src) / 1 else x2 dst - x1 dst) ∧
  x2 src' - x1 src' = (if 4 <? s then (x2 dst - x1 dst) * 4 else x2 src - x1 src) ∧
  x2 dst' - x1 dst' <= x2 dst - x1 dst ∧ x2 src' - x1 src' <= x2 src - x1 src ∧
  - 1 <= (x1 dst' + x2 dst') - (x1 dst + x2 dst) <= 1 ∧
  - 1 <= (x1 src' + x2 src') - (x1 src + x2 src) <= 1 ∧
  y1 dst' = y1 dst ∧ y2 dst' = y2 dst ∧ y1 src' = y1 src ∧ y2 src' = y2 src.
Proof.
  apply (hscale_relaxed_fits (mk_rect 0 0 100 50) (mk_rect 0 0 10 50) 1 4);
    vm_compute; repeat split; congruence.
Defined.
