(* ===== verification/Lock.v ===== *)
(** * drm_lock.c: the heavyweight hardware lock

    The lock word is shared with user space and changed by compare-and-swap
    loops; the rest of [struct drm_lock_data] is protected by [lock_mutex], so
    each iteration of the loop of drm_lock is one atomic step, between two waits
    on the condition variable.  The theorems show that the loops are atomic
    updates of the word, what taking the lock does on every branch, and that
    under the step relation of the ioctls the lock has at most one holder, which
    is the one the word names. *)

From stdpp Require Import base option list gmap.
From Stdlib Require Import ZArith Lia.
From S2P Require Import Prelude.

(** The layout of the lock word, from drm.h (which is not part of the repository):
    two flag bits, the rest is the number of the context. *)
Class DrmLockWord := {
  lock_held_bit : Z;
  lock_cont_bit : Z;
  _DRM_LOCK_QUIESCENT : Z;
  lock_bits_ok : 0 <= lock_held_bit < 32 ∧ 0 <= lock_cont_bit < 32 ∧
                 lock_held_bit ≠ lock_cont_bit;
}.

Section Lock.
Context `{DrmLockWord}.

Definition _DRM_LOCK_HELD : Z := Z.shiftl 1 lock_held_bit.
Definition _DRM_LOCK_CONT : Z := Z.shiftl 1 lock_cont_bit.
Definition _DRM_LOCK_IS_HELD (w : Z) : bool := z2b (Z.land w _DRM_LOCK_HELD).
Definition _DRM_LOCKING_CONTEXT (w : Z) : Z :=
  Z.ldiff w (Z.lor _DRM_LOCK_HELD _DRM_LOCK_CONT).

Definition DRM_KERNEL_CONTEXT : Z := 0.

(** ** Data *)

Abbreviation file_id := nat (only parsing).

(** [struct drm_lock_data]; [hw_lock] is the word it points to, [None] for NULL. *)
Record drm_lock_data := mk_lock {
  hw_lock : option Z;
  file_priv : option nat;
  lock_time : Z;
  kernel_waiters : Z;
  user_waiters : Z;
  idle_has_lock : bool;
}.

(** The master's lock, and what the ioctls count. *)
Record lock_dev := mk_dev {
  lk : drm_lock_data;
  lock_count : gmap nat Z;
  stat_locks : Z;
  stat_unlocks : Z;
}.

(** The request of an ioctl, [struct drm_lock]. *)
Record drm_lock_arg := mk_arg { lock_context : Z; lock_flags : Z }.

Definition set_word (w : Z) (l : drm_lock_data) : drm_lock_data :=
  mk_lock (Some w) (file_priv l) (lock_time l) (kernel_waiters l) (user_waiters l) (idle_has_lock l).
Definition set_owner (f : option nat) (l : drm_lock_data) : drm_lock_data :=
  mk_lock (hw_lock l) f (lock_time l) (kernel_waiters l) (user_waiters l) (idle_has_lock l).
Definition set_lock_time (t : Z) (l : drm_lock_data) : drm_lock_data :=
  mk_lock (hw_lock l) (file_priv l) t (kernel_waiters l) (user_waiters l) (idle_has_lock l).
Definition set_kernel_waiters (n : Z) (l : drm_lock_data) : drm_lock_data :=
  mk_lock (hw_lock l) (file_priv l) (lock_time l) n (user_waiters l) (idle_has_lock l).
Definition set_user_waiters (n : Z) (l : drm_lock_data) : drm_lock_data :=
  mk_lock (hw_lock l) (file_priv l) (lock_time l) (kernel_waiters l) n (idle_has_lock l).
Definition set_idle_has_lock (b : bool) (l : drm_lock_data) : drm_lock_data :=
  mk_lock (hw_lock l) (file_priv l) (lock_time l) (kernel_waiters l) (user_waiters l) b.

Definition set_lk (l : drm_lock_data) (s : lock_dev) : lock_dev :=
  mk_dev l (lock_count s) (stat_locks s) (stat_unlocks s).

(** ** The compare-and-swap loops *)

(** [do { old = *lock; new = f(old); } while (!atomic_cmpset_int(lock, old, new));]
    on the word [w], when user space writes the words of [env] (where it writes)
    between the load and the swap of the successive rounds.  The last [old], and
    the word at the end. *)
Fixpoint cas_loop (f : Z → Z) (env : list (option Z)) (w : Z) : Z * Z :=
  match env with
  | Some v :: env => if v =? w then (w, f w) else cas_loop f env v
  | _ => (w, f w)
  end.

(** ** Taking and freeing *)

Definition new_lock_word (l : drm_lock_data) (context old : Z) : Z :=
  if _DRM_LOCK_IS_HELD old then Z.lor old _DRM_LOCK_CONT
  else Z.lor (Z.lor context _DRM_LOCK_HELD)
         (if 1 <? u32 (user_waiters l + kernel_waiters l) then _DRM_LOCK_CONT else 0).

Definition drm_lock_take (context : Z) (env : list (option Z)) : M drm_lock_data bool :=
  l ← get;
  w ← reads hw_lock;
  let '(old, new) := cas_loop (new_lock_word l context) env w in
  modify (set_word new);;
  if (_DRM_LOCKING_CONTEXT old =? context) && _DRM_LOCK_IS_HELD old then mret false else
  if (_DRM_LOCKING_CONTEXT new =? context) && _DRM_LOCK_IS_HELD new then mret true else
  mret false.

Definition drm_lock_transfer (context : Z) (env : list (option Z)) : M drm_lock_data Z :=
  modify (set_owner None);;
  w ← reads hw_lock;
  let '(_, new) := cas_loop (λ _, Z.lor context _DRM_LOCK_HELD) env w in
  modify (set_word new);;
  mret 1.

(** The result, and whether [lock_cv] is broadcast. *)
Definition drm_lock_free (context : Z) (env : list (option Z)) : M drm_lock_data (Z * bool) :=
  l ← get;
  if negb (kernel_waiters l =? 0) then
    drm_lock_transfer 0 env;;
    modify (set_idle_has_lock true);;
    mret (1, false)
  else
    w ← reads hw_lock;
    let '(old, new) := cas_loop _DRM_LOCKING_CONTEXT env w in
    modify (set_word new);;
    if _DRM_LOCK_IS_HELD old && negb (_DRM_LOCKING_CONTEXT old =? context)
    then mret (1, false) else mret (0, true).

Definition drm_idlelock_take (env : list (option Z)) : M drm_lock_data unit :=
  modify (λ l, set_kernel_waiters (u32 (kernel_waiters l + 1)) l);;
  l ← get;
  when (negb (idle_has_lock l)) (
    ret ← drm_lock_take DRM_KERNEL_CONTEXT env;
    when ret (modify (set_idle_has_lock true))).

Definition drm_idlelock_release (env : list (option Z)) : M drm_lock_data unit :=
  modify (λ l, set_kernel_waiters (u32 (kernel_waiters l - 1)) l);;
  l ← get;
  when (kernel_waiters l =? 0) (
    when (idle_has_lock l) (
      w ← reads hw_lock;
      let '(_, new) := cas_loop (λ _, DRM_KERNEL_CONTEXT) env w in
      modify (set_word new);;
      modify (set_idle_has_lock false))).

Definition drm_i_have_hw_lock (f : file_id) (s : lock_dev) : bool :=
  z2b (default 0 (lock_count s !! f)) &&
  match hw_lock (lk s) with
  | Some w => _DRM_LOCK_IS_HELD w && bool_decide (file_priv (lk s) = Some f)
  | None => false
  end.

(** ** The ioctls *)

(** What a call of drm_lock comes to: it returns, or it sleeps in [cv_wait_sig]. *)
Inductive lock_outcome := Returned (ret : Z) | Sleeping.

Definition on_lk {A} (m : M drm_lock_data A) : M lock_dev A := λ s,
  match m (lk s) with Some (a, l) => Some (a, set_lk l s) | None => None end.

(** [dma_quiescent] of the driver: [None] when the driver has none. *)
Abbreviation quiescent := (option (lock_dev → Z)).

(** From the end of the loop to the end of drm_lock, with [ret] as the loop left it. *)
Definition drm_lock_finish (dma_quiescent : quiescent) (lock : drm_lock_arg) (ret : Z)
    : M lock_dev lock_outcome :=
  on_lk (modify (λ l, set_user_waiters (u32 (user_waiters l - 1)) l));;
  if z2b ret then mret (Returned ret) else
  s ← get;
  match dma_quiescent with
  | Some q =>
    if z2b (Z.land (lock_flags lock) _DRM_LOCK_QUIESCENT) && z2b (q s)
    then mret (Returned (- EBUSY)) else mret (Returned 0)
  | None => mret (Returned 0)
  end.

(** One round of the loop, up to the wait; [ret] is its value at the top. *)
Definition drm_lock_round (dma_quiescent : quiescent) (f : file_id) (lock : drm_lock_arg)
    (now ret : Z) (env : list (option Z)) : M lock_dev lock_outcome :=
  got ← on_lk (drm_lock_take (u32 (lock_context lock)) env);
  if got : bool then
    on_lk (modify (set_owner (Some f)));;
    on_lk (modify (set_lock_time now));;
    modify (λ s, mk_dev (lk s) (lock_count s) (stat_locks s + 1) (stat_unlocks s));;
    drm_lock_finish dma_quiescent lock ret
  else mret Sleeping.

(** drm_lock, until it returns or sleeps for the first time. *)
Definition drm_lock (dma_quiescent : quiescent) (dma_queue : bool) (f : file_id)
    (lock : drm_lock_arg) (now : Z) (env : list (option Z)) : M lock_dev lock_outcome :=
  modify (λ s, mk_dev (lk s) (<[f := default 0 (lock_count s !! f) + 1]> (lock_count s))
                 (stat_locks s) (stat_unlocks s));;
  if lock_context lock =? DRM_KERNEL_CONTEXT then mret (Returned (- EINVAL)) else
  s ← get;
  match hw_lock (lk s) with
  | None => mret (Returned (- EINVAL))
  | Some _ =>
    if dma_queue && (lock_context lock <? 0) then mret (Returned (- EINVAL)) else
    on_lk (modify (λ l, set_user_waiters (u32 (user_waiters l + 1)) l));;
    drm_lock_round dma_quiescent f lock now 0 env
  end.

(** drm_lock when [cv_wait_sig] returns [ret]: 0 for a signal, else positive. *)
Definition drm_lock_resume (dma_quiescent : quiescent) (f : file_id) (lock : drm_lock_arg)
    (now ret : Z) (env : list (option Z)) : M lock_dev lock_outcome :=
  if ret =? 0 then drm_lock_finish dma_quiescent lock (- EINTR)
  else drm_lock_round dma_quiescent f lock now ret env.

Definition drm_unlock (lock : drm_lock_arg) (env : list (option Z)) : M lock_dev Z :=
  if lock_context lock =? DRM_KERNEL_CONTEXT then mret (- EINVAL) else
  modify (λ s, mk_dev (lk s) (lock_count s) (stat_locks s) (stat_unlocks s + 1));;
  on_lk (drm_lock_free (u32 (lock_context lock)) env);;
  mret 0.

(** ** The lock word *)

(** A context number: no flag bit is set. *)
Definition context_ok (c : Z) : Prop :=
  0 <= c < 2 ^ 32 ∧ Z.testbit c lock_held_bit = false ∧ Z.testbit c lock_cont_bit = false.

Lemma testbit_shiftl1 b n : 0 <= b → 0 <= n → Z.testbit (Z.shiftl 1 b) n = (n =? b).
Proof.
  intros Hb Hn. rewrite Z.shiftl_1_l. rewrite Z.pow2_bits_eqb by done. apply Z.eqb_sym.
Qed.

Lemma held_testbit n : 0 <= n → Z.testbit _DRM_LOCK_HELD n = (n =? lock_held_bit).
Proof. apply testbit_shiftl1, lock_bits_ok. Qed.
Lemma cont_testbit n : 0 <= n → Z.testbit _DRM_LOCK_CONT n = (n =? lock_cont_bit).
Proof. apply testbit_shiftl1, lock_bits_ok. Qed.

Lemma is_held_testbit w : _DRM_LOCK_IS_HELD w = Z.testbit w lock_held_bit.
Proof.
  destruct lock_bits_ok as (Hb & _ & _).
  unfold _DRM_LOCK_IS_HELD, z2b. destruct (Z.testbit w lock_held_bit) eqn:E.
  - apply negb_true_iff, Z.eqb_neq. intros H0.
    assert (Z.testbit (Z.land w _DRM_LOCK_HELD) lock_held_bit = false) as H1
      by (by rewrite H0, Z.bits_0).
    rewrite Z.land_spec, held_testbit, Z.eqb_refl, E in H1 by lia. done.
  - apply negb_false_iff, Z.eqb_eq. apply Z.bits_inj'. intros n Hn.
    rewrite Z.land_spec, held_testbit, Z.bits_0 by done.
    destruct (Z.eqb_spec n lock_held_bit) as [->|]; [by rewrite E|apply andb_false_r].
Qed.

Lemma context_testbit w n : 0 <= n →
  Z.testbit (_DRM_LOCKING_CONTEXT w) n =
  Z.testbit w n && negb (n =? lock_held_bit) && negb (n =? lock_cont_bit).
Proof.
  intros Hn. unfold _DRM_LOCKING_CONTEXT.
  rewrite Z.ldiff_spec, Z.lor_spec, held_testbit, cont_testbit by done.
  by rewrite negb_orb, andb_assoc.
Qed.

Lemma context_of_context c : context_ok c → _DRM_LOCKING_CONTEXT c = c.
Proof.
  intros (_ & H1 & H2). apply Z.bits_inj'. intros n Hn. rewrite context_testbit by done.
  destruct (Z.eqb_spec n lock_held_bit) as [->|]; [by rewrite H1|].
  destruct (Z.eqb_spec n lock_cont_bit) as [->|]; [by rewrite H2|]. by rewrite !andb_true_r.
Qed.

(** The word of a lock held by [c], with or without the contention bit. *)
Lemma context_of_held c x : context_ok c → x = _DRM_LOCK_CONT ∨ x = 0 →
  _DRM_LOCKING_CONTEXT (Z.lor (Z.lor c _DRM_LOCK_HELD) x) = c ∧
  _DRM_LOCK_IS_HELD (Z.lor (Z.lor c _DRM_LOCK_HELD) x) = true.
Proof.
  intros (_ & H1 & H2) Hx. destruct lock_bits_ok as (Hb & _ & _). split.
  - apply Z.bits_inj'. intros n Hn. rewrite context_testbit, !Z.lor_spec, held_testbit by done.
    assert (Z.testbit x n = true → n = lock_cont_bit) as Hxn.
    { destruct Hx as [-> | ->]; [rewrite cont_testbit by done; lia|by rewrite Z.bits_0]. }
    destruct (Z.eqb_spec n lock_held_bit) as [->|]; [by rewrite H1, andb_false_r|].
    destruct (Z.eqb_spec n lock_cont_bit) as [->|]; [by rewrite H2, andb_false_r|].
    destruct (Z.testbit x n); [by destruct Hxn|]. by rewrite !orb_false_r, !andb_true_r.
  - rewrite is_held_testbit, !Z.lor_spec, held_testbit, Z.eqb_refl, orb_true_r by lia. done.
Qed.

(** Setting the contention bit changes neither flag nor holder. *)
Lemma set_cont_word w : _DRM_LOCKING_CONTEXT (Z.lor w _DRM_LOCK_CONT) = _DRM_LOCKING_CONTEXT w ∧
  _DRM_LOCK_IS_HELD (Z.lor w _DRM_LOCK_CONT) = _DRM_LOCK_IS_HELD w.
Proof.
  destruct lock_bits_ok as (Hb & _ & Hne). split.
  - apply Z.bits_inj'. intros n Hn. rewrite !context_testbit, Z.lor_spec, cont_testbit by done.
    destruct (Z.eqb_spec n lock_cont_bit); [by rewrite !andb_false_r|by rewrite orb_false_r].
  - rewrite !is_held_testbit, Z.lor_spec, cont_testbit by lia.
    rewrite (proj2 (Z.eqb_neq _ _)) by done. apply orb_false_r.
Qed.

Lemma free_word w : _DRM_LOCK_IS_HELD (_DRM_LOCKING_CONTEXT w) = false.
Proof.
  destruct lock_bits_ok as (Hb & _). rewrite is_held_testbit, context_testbit by lia.
  rewrite Z.eqb_refl. by rewrite andb_false_r.
Qed.

Lemma cas_loop_spec f env w : ∃ w', (w' = w ∨ Some w' ∈ env) ∧ cas_loop f env w = (w', f w').
Proof.
  revert w. induction env as [|[v|] env IH]; intros w; cbn; [by eauto| |by eauto].
  destruct (v =? w); [by eauto|]. destruct (IH v) as (w' & Hw & ->). exists w'. split; [|done].
  right. destruct Hw as [->|?]; set_solver.
Qed.

(** ** Taking the lock, in terms of the word it finds *)

(** [Some c]: the word says that context [c] holds the lock. *)
Definition holder (w : Z) : option Z :=
  if _DRM_LOCK_IS_HELD w then Some (_DRM_LOCKING_CONTEXT w) else None.

Lemma take_run l context w env : hw_lock l = Some w → context_ok context →
  ∃ w0, (w0 = w ∨ Some w0 ∈ env) ∧
    drm_lock_take context env l =
      Some (bool_decide (holder w0 = None), set_word (new_lock_word l context w0) l) ∧
    holder (new_lock_word l context w0) =
      match holder w0 with Some c => Some c | None => Some context end.
Proof.
  intros Hw Hc. destruct (cas_loop_spec (new_lock_word l context) env w) as (w0 & Hw0 & Hrun).
  exists w0. split; [done|]. unfold drm_lock_take. rewrite get_bind. unfold reads.
  unfold mbind at 1, M_bind at 1. rewrite Hw, Hrun. rewrite modify_bind.
  unfold holder, new_lock_word.
  destruct (_DRM_LOCK_IS_HELD w0) eqn:Hh.
  - destruct (set_cont_word w0) as [-> ->]. rewrite Hh, andb_true_r.
    rewrite bool_decide_false by done. split; [|done].
    destruct (_DRM_LOCKING_CONTEXT w0 =? context); done.
  - rewrite andb_false_r.
    destruct (context_of_held context (if 1 <? u32 (user_waiters l + kernel_waiters l)
      then _DRM_LOCK_CONT else 0) Hc) as [-> ->]; [case_bool; tauto|].
    rewrite Z.eqb_refl. rewrite bool_decide_true by done. done.
Qed.


Lemma free_run l context w env : hw_lock l = Some w → kernel_waiters l = 0 →
  ∃ w0, (w0 = w ∨ Some w0 ∈ env) ∧
    drm_lock_free context env l =
      Some ((if bool_decide (holder w0 = None ∨ holder w0 = Some context) then (0, true) else (1, false)),
            set_word (_DRM_LOCKING_CONTEXT w0) l).
Proof.
  intros Hw Hk. destruct (cas_loop_spec _DRM_LOCKING_CONTEXT env w) as (w0 & Hw0 & Hrun).
  exists w0. split; [done|]. unfold drm_lock_free. rewrite get_bind, Hk. cbn [negb Z.eqb].
  unfold reads. unfold mbind at 1, M_bind at 1. rewrite Hw, Hrun. rewrite modify_bind.
  unfold holder. destruct (_DRM_LOCK_IS_HELD w0); cbn [andb].
  - destruct (Z.eqb_spec (_DRM_LOCKING_CONTEXT w0) context) as [->|Hne]; cbn [negb].
    + by rewrite bool_decide_true by tauto.
    + rewrite bool_decide_false; [done|]. intros [?|?]; simplify_eq.
  - by rewrite bool_decide_true by tauto.
Qed.

Lemma transfer_run l context w env : hw_lock l = Some w → kernel_waiters l ≠ 0 →
  drm_lock_free context env l =
    Some ((1, false), set_idle_has_lock true (set_word (Z.lor 0 _DRM_LOCK_HELD) (set_owner None l))).
Proof.
  intros Hw Hk. unfold drm_lock_free. rewrite get_bind, (proj2 (Z.eqb_neq _ _)) by done. cbn [negb].
  unfold drm_lock_transfer. rewrite M_bind_assoc, modify_bind. unfold reads.
  rewrite M_bind_assoc. unfold mbind at 1, M_bind at 1. cbn [hw_lock set_owner]. rewrite Hw.
  destruct (cas_loop_spec (λ _, Z.lor 0 _DRM_LOCK_HELD) env w) as (w0 & _ & Hrun).
  rewrite Hrun. rewrite M_bind_assoc, modify_bind. done.
Qed.

Lemma kernel_context_ok : context_ok DRM_KERNEL_CONTEXT.
Proof. unfold context_ok, DRM_KERNEL_CONTEXT. rewrite !Z.bits_0. split_and!; [lia|lia|done|done]. Qed.

Lemma kernel_word : holder (Z.lor 0 _DRM_LOCK_HELD) = Some 0.
Proof.
  destruct (context_of_held 0 0 kernel_context_ok) as [H1 H2]; [tauto|].
  rewrite Z.lor_0_r in H1, H2. unfold holder. by rewrite H1, H2.
Qed.

Lemma holder_free w : holder (_DRM_LOCKING_CONTEXT w) = None.
Proof. unfold holder. by rewrite free_word. Qed.

Lemma on_lk_run {A} (m : M drm_lock_data A) s a l : m (lk s) = Some (a, l) →
  on_lk m s = Some (a, set_lk l s).
Proof. intros Hm. unfold on_lk. by rewrite Hm. Qed.

(** The end of drm_lock keeps the word and the waiters of the kernel. *)
Lemma finish_run q lock ret s : ∃ o, drm_lock_finish q lock ret s =
    Some (o, set_lk (set_user_waiters (u32 (user_waiters (lk s) - 1)) (lk s)) s) ∧
  (ret ≠ 0 → o = Returned ret) ∧ (ret = 0 → o = Returned 0 ∨ o = Returned (- EBUSY)).
Proof.
  unfold drm_lock_finish, on_lk. unfold mbind at 1, M_bind at 1. cbn [modify].
  unfold z2b at 1. destruct (Z.eqb_spec ret 0) as [->|Hr]; cbn [negb].
  - rewrite get_bind. destruct q as [q|]; [destruct (_ && _)|];
      (eexists; split; [reflexivity|]; split; [done|tauto]).
  - eexists. split; [done|]. done.
Qed.

(** One round: it takes the lock exactly when the word says it is free. *)
Lemma round_run q f lock now ret s w :
  hw_lock (lk s) = Some w → context_ok (u32 (lock_context lock)) →
  ∃ o s' w', drm_lock_round q f lock now ret [] s = Some (o, s') ∧ hw_lock (lk s') = Some w' ∧
    kernel_waiters (lk s') = kernel_waiters (lk s) ∧ idle_has_lock (lk s') = idle_has_lock (lk s) ∧
    lock_count s' = lock_count s ∧ stat_unlocks s' = stat_unlocks s ∧
    match holder w with
    | None => holder w' = Some (u32 (lock_context lock)) ∧ stat_locks s' = stat_locks s + 1 ∧
              file_priv (lk s') = Some f ∧ (ret ≠ 0 → o = Returned ret) ∧
              (ret = 0 → o = Returned 0 ∨ o = Returned (- EBUSY))
    | Some c => holder w' = Some c ∧ stat_locks s' = stat_locks s ∧ o = Sleeping
    end.
Proof.
  intros Hw Hc. destruct (take_run (lk s) _ w [] Hw Hc) as (w0 & Hw0 & Hrun & Hh).
  assert (w0 = w) as -> by (destruct Hw0 as [?|?%not_elem_of_nil]; done).
  unfold drm_lock_round. mrun (on_lk_run _ s _ _ Hrun).
  destruct (holder w) as [c|].
  - rewrite bool_decide_false by done. eexists _, _, _. split; [done|]. cbn. done.
  - rewrite bool_decide_true by done. unfold on_lk. unfold mbind at 1, M_bind at 1.
    unfold mbind at 1, M_bind at 1. cbn [modify]. rewrite modify_bind.
    match goal with |- context [drm_lock_finish q lock ret ?x] =>
      destruct (finish_run q lock ret x) as (o & Hf & Ho1 & Ho2) end.
    eexists o, _, _. split; [exact Hf|]. cbn. done.
Qed.

(** ** The ioctls as a step relation

    [us] are the contexts that were counted as having taken the lock and have not
    been passed to drm_unlock since. *)

Record lock_sys := mk_sys { sys_dev : lock_dev; sys_users : list Z }.

(** A call that may take the lock adds its context when the count of locks grew. *)
Definition after_lock (c : Z) (s s' : lock_dev) (us : list Z) : list Z :=
  if stat_locks s <? stat_locks s' then c :: us else us.

Inductive lock_step (q : quiescent) (dma_queue : bool) : lock_sys → lock_sys → Prop :=
  | step_lock s us f lock now o s' :
      context_ok (u32 (lock_context lock)) →
      drm_lock q dma_queue f lock now [] s = Some (o, s') →
      lock_step q dma_queue (mk_sys s us)
        (mk_sys s' (after_lock (u32 (lock_context lock)) s s' us))
  | step_resume s us f lock now ret o s' :
      context_ok (u32 (lock_context lock)) →
      drm_lock_resume q f lock now ret [] s = Some (o, s') →
      lock_step q dma_queue (mk_sys s us)
        (mk_sys s' (after_lock (u32 (lock_context lock)) s s' us))
  | step_unlock s us1 us2 lock r s' :
      lock_context lock ≠ DRM_KERNEL_CONTEXT →
      drm_unlock lock [] s = Some (r, s') →
      lock_step q dma_queue (mk_sys s (us1 ++ u32 (lock_context lock) :: us2)) (mk_sys s' (us1 ++ us2))
  | step_idle_take s us l :
      kernel_waiters (lk s) < 2 ^ 32 - 1 →
      drm_idlelock_take [] (lk s) = Some (tt, l) →
      lock_step q dma_queue (mk_sys s us) (mk_sys (set_lk l s) us)
  | step_idle_release s us l :
      0 < kernel_waiters (lk s) →
      drm_idlelock_release [] (lk s) = Some (tt, l) →
      lock_step q dma_queue (mk_sys s us) (mk_sys (set_lk l s) us).

(** The word names the one holder: a user, the kernel, or nobody. *)
Record lock_inv (st : lock_sys) : Prop := {
  li_word : ∃ w, hw_lock (lk (sys_dev st)) = Some w ∧
    holder w = (if idle_has_lock (lk (sys_dev st)) then Some DRM_KERNEL_CONTEXT
                else head (sys_users st));
  li_users : (length (sys_users st) <= if idle_has_lock (lk (sys_dev st)) then 0 else 1)%nat;
  li_kernel : 0 <= kernel_waiters (lk (sys_dev st)) < 2 ^ 32 ∧
    (idle_has_lock (lk (sys_dev st)) = true → 0 < kernel_waiters (lk (sys_dev st)));
}.

Lemma after_lock_same c s s' us : stat_locks s' = stat_locks s → after_lock c s s' us = us.
Proof. intros Heq. unfold after_lock. by rewrite Heq, Z.ltb_irrefl. Qed.
Lemma after_lock_took c s s' us : stat_locks s' = stat_locks s + 1 → after_lock c s s' us = c :: us.
Proof. intros Heq. unfold after_lock. rewrite Heq, (proj2 (Z.ltb_lt _ _)); [done|lia]. Qed.

(** What a call of drm_lock does to the invariant, given what its round did. *)
Lemma round_inv q f lock now ret s us o s' :
  lock_inv (mk_sys s us) → context_ok (u32 (lock_context lock)) →
  drm_lock_round q f lock now ret [] s = Some (o, s') →
  lock_inv (mk_sys s' (after_lock (u32 (lock_context lock)) s s' us)).
Proof.
  intros [(w & Hw & Hh) Hus Hk] Hc Hrun. cbn in *.
  destruct (round_run q f lock now ret s w Hw Hc)
    as (o' & s2 & w' & Hrun' & Hw' & Hkw & Hid & _ & _ & Hcase).
  rewrite Hrun in Hrun'. simplify_eq. destruct (holder w) as [c|].
  - destruct Hcase as (Hh' & Hst & _). rewrite after_lock_same by done.
    split; cbn; rewrite ?Hid, ?Hkw; [|done|done]. exists w'. split; [done|]. congruence.
  - destruct Hcase as (Hh' & Hst & _). rewrite after_lock_took by done.
    destruct (idle_has_lock (lk s)) eqn:Hi; [done|].
    destruct us; [|done]. split; cbn; rewrite Hid; [|lia|rewrite Hkw; done]. by exists w'.
Qed.

Lemma finish_inv q lock ret s us o s' c : lock_inv (mk_sys s us) →
  drm_lock_finish q lock ret s = Some (o, s') → lock_inv (mk_sys s' (after_lock c s s' us)).
Proof.
  intros [Hw Hus Hk] Hrun. destruct (finish_run q lock ret s) as (o' & Hrun' & _).
  rewrite Hrun in Hrun'. simplify_eq. rewrite after_lock_same by done. by split.
Qed.

Lemma lock_call_inv q dma_queue f lock now s us o s' :
  lock_inv (mk_sys s us) → context_ok (u32 (lock_context lock)) →
  drm_lock q dma_queue f lock now [] s = Some (o, s') →
  lock_inv (mk_sys s' (after_lock (u32 (lock_context lock)) s s' us)).
Proof.
  intros Hinv Hc Hrun.
  unfold drm_lock in Hrun. rewrite modify_bind in Hrun.
  destruct (lock_context lock =? DRM_KERNEL_CONTEXT).
  { unfold mret, M_ret in Hrun. simplify_eq. rewrite after_lock_same by done.
    destruct Hinv. by split. }
  rewrite get_bind in Hrun. cbn [lk] in Hrun. destruct (hw_lock (lk s)) as [w|] eqn:Hw.
  2:{ unfold mret, M_ret in Hrun. simplify_eq. rewrite after_lock_same by done.
      destruct Hinv. by split. }
  destruct (dma_queue && (lock_context lock <? 0)).
  { unfold mret, M_ret in Hrun. simplify_eq. rewrite after_lock_same by done.
    destruct Hinv. by split. }
  unfold on_lk at 1 in Hrun. unfold mbind at 1, M_bind at 1 in Hrun. cbn [modify] in Hrun.
  match type of Hrun with drm_lock_round _ _ _ _ _ _ ?x = _ => set (s1 := x) in Hrun end.
  change (after_lock (u32 (lock_context lock)) s s' us) with
    (after_lock (u32 (lock_context lock)) s1 s' us).
  eapply round_inv; [|done|exact Hrun]. destruct Hinv. by split.
Qed.

Lemma unlock_inv lock s us1 us2 r s' :
  lock_inv (mk_sys s (us1 ++ u32 (lock_context lock) :: us2)) → lock_context lock ≠ DRM_KERNEL_CONTEXT →
  drm_unlock lock [] s = Some (r, s') → lock_inv (mk_sys s' (us1 ++ us2)).
Proof.
  intros Hinv Hc Hrun.
  unfold drm_unlock in Hrun. rewrite (proj2 (Z.eqb_neq _ _)) in Hrun by done.
  rewrite modify_bind in Hrun. destruct Hinv as [(w & Hw & Hh) Hus Hk]. cbn in Hw, Hh, Hus, Hk.
  rewrite length_app in Hus. cbn in Hus.
  destruct (idle_has_lock (lk s)) eqn:Hi; [lia|].
  destruct us1; [|cbn in Hus; lia]. destruct us2; [|cbn in Hus; lia].
  destruct (decide (kernel_waiters (lk s) = 0)) as [Hk0|Hk0].
  - destruct (free_run (lk s) (u32 (lock_context lock)) w [] Hw Hk0) as (w0 & Hw0 & Hf).
    unfold on_lk in Hrun. unfold mbind, M_bind in Hrun. cbn [lk] in Hrun. rewrite Hf in Hrun.
    unfold mret, M_ret in Hrun. simplify_eq. split; cbn; rewrite ?Hi; [|lia|done].
    eexists. split; [done|]. apply holder_free.
  - pose proof (transfer_run (lk s) (u32 (lock_context lock)) w [] Hw Hk0) as Hf.
    unfold on_lk in Hrun. unfold mbind, M_bind in Hrun. cbn [lk] in Hrun. rewrite Hf in Hrun.
    unfold mret, M_ret in Hrun. simplify_eq. split; cbn; [|lia|lia].
    eexists. split; [done|]. apply kernel_word.
Qed.

Lemma idle_take_inv s us l : lock_inv (mk_sys s us) → kernel_waiters (lk s) < 2 ^ 32 - 1 →
  drm_idlelock_take [] (lk s) = Some (tt, l) → lock_inv (mk_sys (set_lk l s) us).
Proof.
  intros Hinv Hmax Hrun.
  unfold drm_idlelock_take in Hrun. rewrite modify_bind, get_bind in Hrun.
  destruct Hinv as [(w & Hw & Hh) Hus Hk]. cbn in Hw, Hh, Hus, Hk. cbn [idle_has_lock set_kernel_waiters] in Hrun.
  rewrite u32_id in Hrun by lia.
  destruct (idle_has_lock (lk s)) eqn:Hi; cbn [negb when] in Hrun.
  - unfold mret, M_ret in Hrun. simplify_eq. split; cbn; rewrite Hi; [by exists w|done|]. lia.
  - destruct (take_run (set_kernel_waiters (kernel_waiters (lk s) + 1) (lk s)) DRM_KERNEL_CONTEXT w []
      Hw kernel_context_ok) as (w0 & Hw0 & Ht & Hh').
    assert (w0 = w) as -> by (destruct Hw0 as [?|?%not_elem_of_nil]; done).
    unfold mbind, M_bind in Hrun. rewrite Ht in Hrun. rewrite Hh in Hh', Hrun.
    destruct us as [|c us]; cbn [head] in *.
    + rewrite bool_decide_true in Hrun by done. cbn in Hrun. unfold modify in Hrun. simplify_eq.
      split; [eexists; split; [reflexivity|exact Hh']|done|cbn; lia].
    + rewrite bool_decide_false in Hrun by done. cbn in Hrun. unfold mret, M_ret in Hrun. simplify_eq.
      split; [eexists; split; [reflexivity|]; cbn; rewrite Hi; exact Hh'|cbn; by rewrite Hi|cbn; rewrite Hi].
      split; [lia|done].
Qed.

Lemma idle_release_inv s us l : lock_inv (mk_sys s us) → 0 < kernel_waiters (lk s) →
  drm_idlelock_release [] (lk s) = Some (tt, l) → lock_inv (mk_sys (set_lk l s) us).
Proof.
  intros Hinv Hpos Hrun.
  unfold drm_idlelock_release in Hrun. rewrite modify_bind, get_bind in Hrun.
  destruct Hinv as [(w & Hw & Hh) Hus Hk]. cbn in Hw, Hh, Hus, Hk.
  cbn [idle_has_lock set_kernel_waiters kernel_waiters] in Hrun. rewrite u32_id in Hrun by lia.
  destruct (Z.eqb_spec (kernel_waiters (lk s) - 1) 0) as [Hz|Hz]; cbn [when] in Hrun.
  - destruct (idle_has_lock (lk s)) eqn:Hi; cbn [when] in Hrun.
    + unfold reads, mbind, M_bind in Hrun. cbn [hw_lock set_kernel_waiters] in Hrun.
      rewrite Hw in Hrun. cbn in Hrun. unfold modify in Hrun. simplify_eq. destruct us; [|cbn in Hus; lia].
      split; cbn; [|lia|split; [lia|done]]. eexists. split; [done|].
      pose proof (holder_free DRM_KERNEL_CONTEXT) as Hf.
      by rewrite (context_of_context _ kernel_context_ok) in Hf.
    + unfold mret, M_ret in Hrun. simplify_eq. split; cbn; rewrite Hi; [by exists w|done|].
      split; [lia|done].
  - unfold mret, M_ret in Hrun. simplify_eq. split; cbn; [by exists w|done|]. lia.
Qed.

Lemma lock_step_inv q dma_queue st st' :
  lock_inv st → lock_step q dma_queue st st' → lock_inv st'.
Proof.
  intros Hinv Hstep. destruct Hstep as [s us f lock now o s' Hc Hrun|s us f lock now ret o s' Hc Hrun
    |s us1 us2 lock r s' Hc Hrun|s us l Hmax Hrun|s us l Hpos Hrun].
  - by eapply lock_call_inv.
  - unfold drm_lock_resume in Hrun. destruct (ret =? 0); [by eapply finish_inv|by eapply round_inv].
  - by eapply unlock_inv.
  - by eapply idle_take_inv.
  - by eapply idle_release_inv.
Qed.

(** ** Theorems *)


(** Whatever user space writes while the compare-and-swap
    loop runs, drm_lock_take is one atomic update of some word [w0] it finds: it
    succeeds exactly when [w0] is free, and then the caller is the holder; else the
    holder stays and the word is marked contended. *)
Theorem lock_take_correct l context w env : hw_lock l = Some w → context_ok context →
  ∃ w0 w1, (w0 = w ∨ Some w0 ∈ env) ∧
    drm_lock_take context env l = Some (bool_decide (holder w0 = None), set_word w1 l) ∧
    match holder w0 with
    | None => holder w1 = Some context ∧
        (Z.testbit w1 lock_cont_bit = true ↔ 1 < u32 (user_waiters l + kernel_waiters l))
    | Some c => holder w1 = Some c ∧ Z.testbit w1 lock_cont_bit = true
    end.
Proof.
  intros Hw Hc. destruct (take_run l context w env Hw Hc) as (w0 & Hw0 & Hrun & Hh).
  exists w0, (new_lock_word l context w0). do 2 (split; [done|]).
  destruct lock_bits_ok as (? & Hb & Hne). revert Hh. unfold new_lock_word, holder at 2 3.
  destruct (_DRM_LOCK_IS_HELD w0).
  - intros Hh. split; [exact Hh|]. rewrite Z.lor_spec, cont_testbit, Z.eqb_refl by lia. apply orb_true_r.
  - intros Hh. split; [exact Hh|]. destruct Hc as (_ & _ & Hcb).
    rewrite !Z.lor_spec, Hcb, held_testbit, (proj2 (Z.eqb_neq lock_cont_bit _)) by (lia || congruence).
    case_bool; [rewrite cont_testbit, Z.eqb_refl by lia|rewrite Z.bits_0]; split; cbn; (done || lia).
Qed.

(** When drm_lock had to wait and then takes the lock,
    it returns the positive result of cv_wait_sig instead of 0, without waiting for
    the DMA to be quiescent, although the caller now holds the lock. *)
Theorem lock_after_wait_fails q f lock now ret s w :
  hw_lock (lk s) = Some w → holder w = None → context_ok (u32 (lock_context lock)) → 0 < ret →
  z2b (default 0 (lock_count s !! f)) = true →
  ∃ s', drm_lock_resume q f lock now ret [] s = Some (Returned ret, s') ∧
    drm_i_have_hw_lock f s' = true.
Proof.
  intros Hw Hh Hc Hret Hcount. unfold drm_lock_resume. rewrite (proj2 (Z.eqb_neq ret 0)) by lia.
  destruct (round_run q f lock now ret s w Hw Hc)
    as (o & s' & w' & Hrun & Hw' & _ & _ & Hlc & _ & Hcase).
  rewrite Hh in Hcase. destruct Hcase as (Hh' & _ & Hf & Ho & _).
  rewrite Ho in Hrun by lia. exists s'. split; [done|].
  unfold drm_i_have_hw_lock. rewrite Hlc, Hcount, Hw', Hf. cbn [andb].
  rewrite bool_decide_true by done. revert Hh'. unfold holder. by destruct (_DRM_LOCK_IS_HELD w').
Qed.

End Lock.

(** ** Witnesses: the bits of the lock word as drm.h documents them *)

#[export] Instance drm_h_lock_word : DrmLockWord.
Proof.
  refine {| lock_held_bit := 31; lock_cont_bit := 30; _DRM_LOCK_QUIESCENT := 2 |}. lia.
Defined.

Definition demo_lock : lock_dev := mk_dev (mk_lock (Some 0) None 0 0 0 false) {[1%nat := 1]} 0 0.


Lemma lock_take_correct_witness :
  ∃ w0 w1, (w0 = 0 ∨ Some w0 ∈ [Some 5; None]) ∧
    drm_lock_take 7 [Some 5; None] (lk demo_lock) =
      Some (bool_decide (holder w0 = None), set_word w1 (lk demo_lock)) ∧
    match holder w0 with
    | None => holder w1 = Some 7 ∧ (Z.testbit w1 lock_cont_bit = true ↔
        1 < u32 (user_waiters (lk demo_lock) + kernel_waiters (lk demo_lock)))
    | Some c => holder w1 = Some c ∧ Z.testbit w1 lock_cont_bit = true
    end.
Proof.
  apply (lock_take_correct (lk demo_lock) 7 0 [Some 5; None]); [reflexivity|].
  split; [lia|]. split; reflexivity.
Defined.

Lemma lock_after_wait_fails_witness :
  ∃ s', drm_lock_resume None 1%nat (mk_arg 7 0) 100 1 [] demo_lock = Some (Returned 1, s') ∧
    drm_i_have_hw_lock 1%nat s' = true.
Proof.
  apply (lock_after_wait_fails None 1%nat (mk_arg 7 0) 100 1 demo_lock 0);
    [reflexivity|reflexivity| |lia|reflexivity].
  split; [vm_compute; split; congruence|]. split; reflexivity.
Defined.
