(* ===== verification/Context.v ===== *)
(** * drm_context.c: contexts of the DRM device

    Context handles are ids of an idr; the contexts of the open files are a
    linked list of entries.  The theorems show what drm_addctx does when the
    allocations succeed, through the contract of the idr, and what it does when
    the idr runs out of memory. *)

From stdpp Require Import base option list gmap.
From Stdlib Require Import ZArith Lia.
From S2P Require Import Prelude LinuxList Idr.

(** ** Data *)

(** The heads of [dev->ctxlist] and of each [struct drm_ctx_list]. *)
Inductive ctx_addr := CtxList | CtxEntry (p : positive).

#[export] Instance ctx_addr_eq_dec : EqDecision ctx_addr.
Proof. solve_decision. Defined.
#[export] Instance ctx_addr_countable : Countable ctx_addr.
Proof.
  refine (inj_countable' (λ a, match a with CtxList => None | CtxEntry p => Some p end)
    (λ o, match o with None => CtxList | Some p => CtxEntry p end) _).
  by intros [].
Defined.

(** [struct drm_ctx_list]: the handle, and the file that owns it. *)
Record drm_ctx_list := mk_ctx_list { ctx_handle : Z; ctx_tag : nat }.

(** [struct drm_map_list], as far as contexts use it. *)
Record drm_map_list := mk_map_list { map_ptr : Z; user_token : Z }.

(** The part of [struct drm_device] that drm_context.c works on. *)
Record ctx_dev := mk_ctx_dev {
  ctx_idr : idr;
  ctx_lists : gmap ctx_addr (list_head ctx_addr positive);
  ctx_entries : gmap positive drm_ctx_list;
  ctx_count : Z;
  context_flag : bool;
  last_context : Z;
  maplist : list drm_map_list;
  struct_mutex : bool;
}.

Definition DRM_RESERVED_CONTEXTS : Z := 1.
Definition DRM_KERNEL_CONTEXT : Z := 0.

Definition set_idr (i : idr) (s : ctx_dev) : ctx_dev :=
  mk_ctx_dev i (ctx_lists s) (ctx_entries s) (ctx_count s) (context_flag s) (last_context s)
    (maplist s) (struct_mutex s).
Definition set_ctxs l (e : gmap positive drm_ctx_list) (n : Z) (s : ctx_dev) : ctx_dev :=
  mk_ctx_dev (ctx_idr s) l e n (context_flag s) (last_context s) (maplist s) (struct_mutex s).
Definition set_flag (b : bool) (s : ctx_dev) : ctx_dev :=
  mk_ctx_dev (ctx_idr s) (ctx_lists s) (ctx_entries s) (ctx_count s) b (last_context s)
    (maplist s) (struct_mutex s).
Definition set_last (c : Z) (s : ctx_dev) : ctx_dev :=
  mk_ctx_dev (ctx_idr s) (ctx_lists s) (ctx_entries s) (ctx_count s) (context_flag s) c
    (maplist s) (struct_mutex s).
Definition set_mutex (b : bool) (s : ctx_dev) : ctx_dev :=
  mk_ctx_dev (ctx_idr s) (ctx_lists s) (ctx_entries s) (ctx_count s) (context_flag s)
    (last_context s) (maplist s) b.

Abbreviation ctx := (M ctx_dev).

Definition mutex_lock : ctx unit := s ← get; BUG_ON (struct_mutex s);; modify (set_mutex true).
Definition mutex_unlock : ctx unit := s ← get; BUG_ON (negb (struct_mutex s));; modify (set_mutex false).

Definition on_idr {A} (m : M idr A) : ctx A := λ s,
  match m (ctx_idr s) with Some (a, i) => Some (a, set_idr i s) | None => None end.
Definition on_ctxlist (f : gmap ctx_addr (list_head ctx_addr positive) →
    option (gmap ctx_addr (list_head ctx_addr positive))) : ctx unit :=
  updates (λ s, l ← f (ctx_lists s); Some (set_ctxs l (ctx_entries s) (ctx_count s) s)).
Definition of_ctxlist {X} (f : gmap ctx_addr (list_head ctx_addr positive) → option X) : ctx X :=
  reads (λ s, f (ctx_lists s)).

(** ** Handles *)

(** [alloc]: whether [kmem_alloc] succeeds in the idr. *)
Definition drm_ctxbitmap_free (ctx_handle : Z) (alloc : bool) : ctx unit :=
  mutex_lock;;
  on_idr (idr_remove (u32 ctx_handle) alloc);;
  mutex_unlock.

(** [allocs]: the outcomes of the allocations of the successive attempts. *)
Fixpoint drm_ctxbitmap_next (allocs : list bool) : ctx Z :=
  if idr_pre_get =? 0 then mret (- ENOMEM) else
  match allocs with
  | [] => fault
  | alloc :: allocs =>
    mutex_lock;;
    '(ret, new_id) ← on_idr (idr_get_new_above 0 DRM_RESERVED_CONTEXTS alloc);
    mutex_unlock;;
    if ret =? - EAGAIN then drm_ctxbitmap_next allocs
    else if z2b ret then mret ret
    else match new_id with Some id => mret id | None => fault end
  end.

Definition drm_ctxbitmap_init : ctx Z := on_idr idr_init;; mret 0.

Definition drm_ctxbitmap_cleanup : ctx unit :=
  mutex_lock;; on_idr idr_remove_all;; mutex_unlock.

(** ** SAREA maps of contexts *)

(** The result, and [request->handle] on success. *)
Definition drm_getsareactx (ctx_id : Z) : ctx (Z * option Z) :=
  mutex_lock;;
  map ← on_idr (idr_find ctx_id);
  if map =? 0 then mutex_unlock;; mret (- EINVAL, None) else
  s ← get;
  let handle := match List.find (λ e, map_ptr e =? map) (maplist s) with
                | Some e => user_token e
                | None => 0
                end in
  mutex_unlock;;
  if handle =? 0 then mret (- EINVAL, None) else mret (0, Some handle).

(** [IS_ERR]: the last 4095 addresses are error codes. *)
Definition IS_ERR (p : Z) : bool := 2 ^ 64 - 4095 <=? p.

Definition drm_setsareactx (ctx_id handle : Z) : ctx Z :=
  mutex_lock;;
  s ← get;
  match List.find (λ e, z2b (map_ptr e) && (user_token e =? handle)) (maplist s) with
  | None => mutex_unlock;; mret (- EINVAL)
  | Some r_list =>
    if map_ptr r_list =? 0 then mutex_unlock;; mret (- EINVAL) else
    old ← on_idr (idr_replace (map_ptr r_list) ctx_id);
    if IS_ERR old then mutex_unlock;; mret (- EINVAL) else
    mutex_unlock;; mret 0
  end.

(** ** Switching *)

Definition drm_context_switch (old new : Z) : ctx Z :=
  s ← get;
  modify (set_flag true);;
  if context_flag s then mret (- EBUSY) else
  if new =? last_context s then modify (set_flag false);; mret 0 else mret 0.

Definition drm_context_switch_complete (new : Z) : ctx Z :=
  modify (set_last new);;
  modify (set_flag false);;
  mret 0.

Definition drm_switchctx (handle : Z) : ctx Z :=
  s ← get; drm_context_switch (last_context s) handle.
Definition drm_newctx (handle : Z) : ctx Z := drm_context_switch_complete handle;; mret 0.

(** ** The ioctls that add and remove contexts *)

(** [count] in; the result, [count] out and the handles copied out.  [copy]: the
    outcomes of the copies to user space. *)
Fixpoint copy_contexts (copy : list bool) (i : Z) (n : nat) : option (list Z) :=
  match n with
  | O => Some []
  | S n => match copy with
           | true :: copy => (i ::.) <$> copy_contexts copy (i + 1) n
           | _ => None
           end
  end.
Definition drm_resctx (copy : list bool) (count : Z) : Z * Z * list Z :=
  if DRM_RESERVED_CONTEXTS <=? count then
    match copy_contexts copy 0 (Z.to_nat DRM_RESERVED_CONTEXTS) with
    | Some l => (0, DRM_RESERVED_CONTEXTS, l)
    | None => (- EFAULT, count, [])
    end
  else (0, DRM_RESERVED_CONTEXTS, []).

(** [r]: the outcome of [kmalloc] of the entry.  The result and [ctx->handle]. *)
Definition drm_addctx (allocs1 allocs2 : list bool) (r : option positive) (file : nat) : ctx (Z * Z) :=
  handle ← drm_ctxbitmap_next allocs1;
  handle ← (if handle =? DRM_KERNEL_CONTEXT then drm_ctxbitmap_next allocs2 else mret handle);
  if handle =? -1 then mret (- ENOMEM, handle) else
  match r with
  | None => mret (- ENOMEM, handle)
  | Some ctx_entry =>
    modify (λ s, set_ctxs (<[CtxEntry ctx_entry := mk_list_head None None None]> (ctx_lists s))
                   (ctx_entries s) (ctx_count s) s);;
    on_ctxlist (INIT_LIST_HEAD (CtxEntry ctx_entry));;
    modify (λ s, set_ctxs (ctx_lists s) (<[ctx_entry := mk_ctx_list handle file]> (ctx_entries s))
                   (ctx_count s) s);;
    on_ctxlist (list_add (CtxEntry ctx_entry) CtxList ctx_entry);;
    modify (λ s, set_ctxs (ctx_lists s) (ctx_entries s) (ctx_count s + 1) s);;
    mret (0, handle)
  end.

(** [list_for_each_entry_safe(pos, n, .., &dev->ctxlist, head)] of drm_rmctx. *)
Fixpoint rmctx_loop (fuel : nat) (handle : Z) (pos n : option positive) : ctx unit :=
  match fuel with
  | O => fault
  | S fuel =>
    match pos with
    | None => mret tt
    | Some p =>
      e ← reads (λ s, ctx_entries s !! p);
      when (ctx_handle e =? handle) (
        on_ctxlist (list_del (CtxEntry p));;
        modify (λ s, set_ctxs (delete (CtxEntry p) (ctx_lists s)) (delete p (ctx_entries s))
                       (ctx_count s - 1) s));;
      a ← of_ctxlist (rd_next (Some (match n with Some n => CtxEntry n | None => CtxList end)));
      n' ← of_ctxlist (list_entry a);
      rmctx_loop fuel handle n n'
    end
  end.

(** [dtor]: the driver's [context_dtor], on the part of the device modelled here. *)
Definition drm_rmctx (dtor : option (Z → ctx unit)) (handle : Z) (alloc : bool) : ctx Z :=
  when (negb (handle =? DRM_KERNEL_CONTEXT)) (
    match dtor with Some d => d handle | None => mret tt end;;
    drm_ctxbitmap_free handle alloc);;
  e ← of_ctxlist (list_empty CtxList);
  when (negb e) (
    a ← of_ctxlist (rd_next (Some CtxList));
    pos ← of_ctxlist (list_entry a);
    n ← match pos with
        | Some p => a ← of_ctxlist (rd_next (Some (CtxEntry p))); of_ctxlist (list_entry a)
        | None => mret None
        end;
    s ← get;
    rmctx_loop (S (size (ctx_lists s))) handle pos n);;
  mret 0.

(** ** Lemmas *)

Definition ctx_obj (a : ctx_addr) : positive := match a with CtxEntry p => p | CtxList => 1%positive end.

(** The context list of the device is [ps]. *)
Definition ctxlist_is (s : ctx_dev) (ps : list positive) : Prop :=
  represents (ctx_lists s) ctx_obj CtxList None (CtxEntry <$> ps).

Record ctx_ok (L : gset Z) (s : ctx_dev) (ps : list positive) : Prop := {
  ok_idr : idr_inv L (ctx_idr s);
  ok_list : ctxlist_is s ps;
  ok_mutex : struct_mutex s = false;
}.

(** What drm_ctxbitmap_next returns, and what it does to the idr. *)
Lemma ctxbitmap_next_run L s ps alloc allocs : ctx_ok L s ps →
  ∃ z s' L', drm_ctxbitmap_next (alloc :: allocs) s = Some (z, s') ∧ ctx_ok L' s' ps ∧
    ctx_lists s' = ctx_lists s ∧ ctx_entries s' = ctx_entries s ∧ ctx_count s' = ctx_count s ∧
    ((z = -1 ∧ (∀ i, 1 <= i < IDR_MAX → is_Some (used_ids (ctx_idr s) !! i) ∨ i ∈ L) ∧
      used_ids (ctx_idr s') = used_ids (ctx_idr s)) ∨
     (alloc = true ∧ 1 <= z < IDR_MAX ∧ used_ids (ctx_idr s) !! z = None ∧
      used_ids (ctx_idr s') = <[z := 0]> (used_ids (ctx_idr s))) ∨
     (alloc = false ∧ z = - ENOMEM ∧ used_ids (ctx_idr s') = used_ids (ctx_idr s) ∧
      ∃ i, 1 <= i < IDR_MAX ∧ used_ids (ctx_idr s) !! i = None ∧ i ∉ L)).
Proof.
  intros [Hi Hl Hm]. cbn [drm_ctxbitmap_next]. change (idr_pre_get =? 0) with false. cbn iota.
  unfold mutex_lock. rewrite M_bind_assoc, get_bind, Hm. rewrite M_bind_assoc, BUG_ON_bind by done.
  rewrite modify_bind.
  destruct (get_new_above_run (ctx_idr s) L 0 DRM_RESERVED_CONTEXTS alloc Hi)
    as (r & n & i' & L' & Hrun & Hi' & Hspec); [unfold INT_MIN, INT_MAX, DRM_RESERVED_CONTEXTS; lia|].
  unfold on_idr. unfold mbind at 1, M_bind at 1. cbn [ctx_idr set_mutex]. rewrite Hrun.
  unfold mutex_unlock. rewrite M_bind_assoc, get_bind. cbn [struct_mutex set_idr set_mutex negb].
  rewrite M_bind_assoc, BUG_ON_bind by done. rewrite modify_bind.
  set (s' := set_mutex false (set_idr i' (set_mutex true s))).
  assert (ctx_ok L' s' ps) as Hok by (by split).
  inversion Hspec; subst; unfold DRM_RESERVED_CONTEXTS in *.
  - exfalso. lia.
  - eexists _, s', _. split; [reflexivity|]. do 4 (split; [done|]). right; left. done.
  - eexists _, s', _. split; [reflexivity|]. do 4 (split; [done|]). left. done.
  - eexists _, s', _. split; [reflexivity|]. do 4 (split; [done|]). right; right.
    split; [done|]. split; [done|]. split; [done|]. eauto.
Qed.

(** The rest of drm_addctx, once it has a handle: the entry goes on the list. *)
Lemma add_entry_run L s ps p handle file : ctx_ok L s ps → p ∉ ps →
  handle ≠ 0 → handle ≠ -1 →
  ∃ s', (handle ← (if handle =? DRM_KERNEL_CONTEXT then drm_ctxbitmap_next [] else mret handle);
         if handle =? -1 then mret (- ENOMEM, handle) else
         modify (λ s, set_ctxs (<[CtxEntry p := mk_list_head None None None]> (ctx_lists s))
                        (ctx_entries s) (ctx_count s) s);;
         on_ctxlist (INIT_LIST_HEAD (CtxEntry p));;
         modify (λ s, set_ctxs (ctx_lists s) (<[p := mk_ctx_list handle file]> (ctx_entries s))
                        (ctx_count s) s);;
         on_ctxlist (list_add (CtxEntry p) CtxList p);;
         modify (λ s, set_ctxs (ctx_lists s) (ctx_entries s) (ctx_count s + 1) s);;
         mret (0, handle)) s = Some ((0, handle), s') ∧
    ctx_ok L s' (p :: ps) ∧ ctx_idr s' = ctx_idr s ∧ ctx_count s' = ctx_count s + 1 ∧
    ctx_entries s' = <[p := mk_ctx_list handle file]> (ctx_entries s).
Proof.
  intros [Hi Hl Hm] Hp H0 H1. unfold DRM_KERNEL_CONTEXT.
  rewrite (proj2 (Z.eqb_neq handle 0)), ret_bind, (proj2 (Z.eqb_neq handle (-1))), modify_bind by done.
  set (l0 := <[CtxEntry p := _]> (ctx_lists s)).
  assert (is_Some (l0 !! CtxEntry p)) as Hsome by (unfold l0; rewrite lookup_insert_eq; eauto).
  destruct (INIT_LIST_HEAD_run (CtxEntry p) l0 Hsome) as (l1 & Hrun1 & Hu1).
  assert (∀ a, a ≠ CtxEntry p → l1 !! a = ctx_lists s !! a) as Hf1.
  { intros a Ha. rewrite (heap_upd_frame _ _ _ _ _ a Hu1); [|by rewrite decide_False..].
    unfold l0. by rewrite lookup_insert_ne. }
  assert (represents l1 ctx_obj CtxList None (CtxEntry <$> ps)) as Hr1.
  { eapply represents_frame; [|exact Hl]. intros a Ha. apply Hf1. intros ->.
    apply elem_of_cons in Ha as [?|(x & Hx & ?)%list_elem_of_fmap]; [done|]. by simplify_eq. }
  destruct (run_op_refines l1 ctx_obj CtxList None (OpAdd (CtxEntry p)) (CtxEntry <$> ps)
    (CtxEntry <$> p :: ps)) as (l2 & Hrun2 & Hr2 & _); [done|done| | |].
  { apply (upd_dom _ _ _ _ _ Hu1). exact Hsome. }
  { cbn. rewrite bool_decide_false; [done|]. intros (x & Hx & ?)%list_elem_of_fmap. by simplify_eq. }
  cbn [run_op] in Hrun2.
  unfold on_ctxlist, updates. unfold mbind at 1, M_bind at 1.
  cbn [ctx_lists set_ctxs]. rewrite Hrun1. cbn [mbind option_bind]. rewrite modify_bind.
  unfold mbind at 1, M_bind at 1. cbn [ctx_lists set_ctxs].
  change (ctx_obj (CtxEntry p)) with p in Hrun2. rewrite Hrun2. cbn [mbind option_bind].
  rewrite modify_bind. eexists. split; [reflexivity|]. split; [by split|]. done.
Qed.

(** ** Theorems *)

(** When the allocations succeed, drm_addctx either finds all
    handles taken, and returns -ENOMEM without touching the list, or returns 0
    with a handle that is not the kernel's and was not in use; the handle is then
    in use and a new entry at the front of the context list holds it. *)
Theorem addctx_correct L s ps p file : ctx_ok L s ps → p ∉ ps →
  ∃ r h s' L', drm_addctx [true] [] (Some p) file s = Some ((r, h), s') ∧
  ((r = - ENOMEM ∧ ctx_ok L' s' ps ∧ ctx_entries s' = ctx_entries s ∧
    ∀ i, 1 <= i < IDR_MAX → is_Some (used_ids (ctx_idr s) !! i) ∨ i ∈ L) ∨
   (r = 0 ∧ DRM_KERNEL_CONTEXT < h < IDR_MAX ∧ used_ids (ctx_idr s) !! h = None ∧
    used_ids (ctx_idr s') = <[h := 0]> (used_ids (ctx_idr s)) ∧
    ctx_ok L' s' (p :: ps) ∧ ctx_count s' = ctx_count s + 1 ∧
    ctx_entries s' = <[p := mk_ctx_list h file]> (ctx_entries s))).
Proof.
  intros Hok Hp. unfold drm_addctx.
  destruct (ctxbitmap_next_run L s ps true [] Hok)
    as (z & s1 & L1 & Hrun & Hok1 & Hl & He & Hc & [(-> & Hfull & Hu)|[(_ & Hz & Hnew & Hu)|(? & _)]]); [| |done].
  - mrun Hrun. change (-1 =? DRM_KERNEL_CONTEXT) with false. cbn iota. rewrite ret_bind.
    eexists _, _, _, L1. split; [reflexivity|]. by left.
  - mrun Hrun. destruct (add_entry_run L1 s1 ps p z file Hok1 Hp) as (s' & Hrun' & Hok' & Hi & Hc' & He');
      [lia|lia|].
    exists 0, z, s', L1. split; [exact Hrun'|]. right.
    rewrite Hi, Hu, Hc', Hc, He', He. unfold DRM_KERNEL_CONTEXT. split_and!; (done || lia).
Qed.

(** When the idr cannot allocate, drm_addctx does not
    return an error, since it only tests for -1: it returns 0, hands out
    [-ENOMEM] as the handle, and records a context of that number. *)
Theorem addctx_nomem_succeeds L s ps p file : ctx_ok L s ps → p ∉ ps →
  (∃ i, 1 <= i < IDR_MAX ∧ used_ids (ctx_idr s) !! i = None ∧ i ∉ L) →
  ∃ s' L', drm_addctx [false] [] (Some p) file s = Some ((0, - ENOMEM), s') ∧
    ctx_ok L' s' (p :: ps) ∧ ctx_entries s' !! p = Some (mk_ctx_list (- ENOMEM) file) ∧
    used_ids (ctx_idr s') = used_ids (ctx_idr s).
Proof.
  intros Hok Hp (i & Hi & Hnone & HiL). unfold drm_addctx.
  destruct (ctxbitmap_next_run L s ps false [] Hok)
    as (z & s1 & L1 & Hrun & Hok1 & Hl & He & Hc & [(-> & Hfull & Hu)|[(? & _)|(_ & -> & Hu & _)]]); [|done|].
  { destruct (Hfull i Hi) as [Hs|?]; [|done]. rewrite Hnone in Hs. by destruct Hs. }
  mrun Hrun. destruct (add_entry_run L1 s1 ps p (- ENOMEM) file Hok1 Hp)
    as (s' & Hrun' & Hok' & Hidr & _ & He'); [done|done|].
  exists s', L1. split; [exact Hrun'|]. split; [done|]. rewrite He', Hidr, Hu, lookup_insert_eq. done.
Qed.

(** ** Witnesses *)

Definition demo_ctx : ctx_dev :=
  mk_ctx_dev (mk_idr ∅ [fr_new 0] false)
    {[CtxList := mk_list_head (Some CtxList) (Some CtxList) None]} ∅ 0 false 0 [] false.

Lemma demo_ctx_ok : ctx_ok ∅ demo_ctx [].
Proof.
  split; [apply new_idr_inv| |reflexivity].
  split; [|split; [constructor|reflexivity]]. split; [apply NoDup_singleton|]. split; reflexivity.
Qed.

(** Two contexts are added, and the first is removed again. *)
Example demo_ctx_run :
  (λ r, (r.1, ctx_count r.2)) <$>
    (a ← drm_addctx [true] [] (Some 1%positive) 0;
     b ← drm_addctx [true] [] (Some 2%positive) 0;
     r ← drm_rmctx None 1 true;
     mret (a, b, r)) demo_ctx = Some ((0, 1), (0, 2), 0, 1).
Proof. vm_compute. reflexivity. Qed.

Lemma addctx_correct_witness :
  ∃ r h s' L', drm_addctx [true] [] (Some 1%positive) 0 demo_ctx = Some ((r, h), s') ∧
  ((r = - ENOMEM ∧ ctx_ok L' s' [] ∧ ctx_entries s' = ctx_entries demo_ctx ∧
    ∀ i, 1 <= i < IDR_MAX → is_Some (used_ids (ctx_idr demo_ctx) !! i) ∨ i ∈ (∅ : gset Z)) ∨
   (r = 0 ∧ DRM_KERNEL_CONTEXT < h < IDR_MAX ∧ used_ids (ctx_idr demo_ctx) !! h = None ∧
    used_ids (ctx_idr s') = <[h := 0]> (used_ids (ctx_idr demo_ctx)) ∧
    ctx_ok L' s' [1%positive] ∧ ctx_count s' = ctx_count demo_ctx + 1 ∧
    ctx_entries s' = <[1%positive := mk_ctx_list h 0]> (ctx_entries demo_ctx))).
Proof.
  apply (addctx_correct ∅ demo_ctx [] 1%positive 0); [apply demo_ctx_ok|apply not_elem_of_nil].
Defined.

Lemma addctx_nomem_succeeds_witness :
  ∃ s' L', drm_addctx [false] [] (Some 1%positive) 0 demo_ctx = Some ((0, - ENOMEM), s') ∧
    ctx_ok L' s' [1%positive] ∧ ctx_entries s' !! 1%positive = Some (mk_ctx_list (- ENOMEM) 0) ∧
    used_ids (ctx_idr s') = used_ids (ctx_idr demo_ctx).
Proof.
  apply (addctx_nomem_succeeds ∅ demo_ctx [] 1%positive 0);
    [apply demo_ctx_ok|apply not_elem_of_nil|].
  exists 1. unfold IDR_MAX. split; [lia|]. split; [reflexivity|set_solver].
Defined.
