(* ===== verification/Modes.v ===== *)
(** * drm_modes.c: display modes

    A mode is a record of timings; the C integers are [int]s and [unsigned int]s
    whose operations wrap at 32 bits, and a division by zero is a fault
    ([None]).  The mode lists are sequences, as drm_linux_list.h represents them,
    except in drm_mode_sort, which relinks list heads itself and is modelled on
    the heap.  The theorems give the shape of the generated timings, the
    equivalence drm_mode_equal decides, what the list operations keep, and that
    the sort ends with a sorted permutation of the list. *)

From stdpp Require Import base option list gmap strings pretty sorting.
From Stdlib Require Import ZArith Lia.
From S2P Require Import Prelude LinuxList.

(** The names of drm_mode.h and of the kernel headers the code relies on, which
    are not part of the repository. *)
Class DrmModeH := {
  phsync_bit : Z;
  nhsync_bit : Z;
  pvsync_bit : Z;
  nvsync_bit : Z;
  interlace_bit : Z;
  dblscan_bit : Z;
  dblclk_bit : Z;
  preferred_bit : Z;
  DRM_MODE_TYPE_BUILTIN : Z;
  DRM_MODE_TYPE_CRTC_C : Z;
  DRM_MODE_TYPE_DRIVER : Z;
  DRM_DISPLAY_MODE_LEN : nat;
  flag_bits_ok :
    NoDup [phsync_bit; nhsync_bit; pvsync_bit; nvsync_bit; interlace_bit; dblscan_bit; dblclk_bit] ∧
    Forall (λ b, 0 <= b < 32)
      [phsync_bit; nhsync_bit; pvsync_bit; nvsync_bit; interlace_bit; dblscan_bit; dblclk_bit;
       preferred_bit];
}.

(** drm_linux.h: [1000000000UL/(a)]; the callers exclude a zero [a]. *)
Definition KHZ2PICOS (a : Z) : Z := 1000000000 / u64 a.

(** ** Data *)

(** The proposed timings of [struct drm_display_mode]. *)
Record timings := mk_timings {
  clock : Z;
  hdisplay : Z;
  hsync_start : Z;
  hsync_end : Z;
  htotal : Z;
  hskew : Z;
  vdisplay : Z;
  vsync_start : Z;
  vsync_end : Z;
  vtotal : Z;
  vscan : Z;
  flags : Z;
}.

(** The timings given to the hardware, the [crtc_] fields. *)
Record crtc_timings := mk_crtc_timings {
  crtc_hdisplay : Z;
  crtc_hblank_start : Z;
  crtc_hblank_end : Z;
  crtc_hsync_start : Z;
  crtc_hsync_end : Z;
  crtc_htotal : Z;
  crtc_hskew : Z;
  crtc_vdisplay : Z;
  crtc_vblank_start : Z;
  crtc_vblank_end : Z;
  crtc_vsync_start : Z;
  crtc_vsync_end : Z;
  crtc_vtotal : Z;
}.

(** [enum drm_mode_status], by value; the ones drm_modes.c sets. *)
Definition MODE_OK : Z := 0.
Definition MODE_BAD_WIDTH : Z := 5.
Definition MODE_VIRTUAL_X : Z := 11.
Definition MODE_VIRTUAL_Y : Z := 12.
Definition MODE_CLOCK_RANGE : Z := 17.

(** [struct drm_display_mode]. *)
Record drm_display_mode := mk_mode {
  base_id : Z;
  mode_name : string;
  status : Z;
  mode_type : Z;
  tm : timings;
  width_mm : Z;
  height_mm : Z;
  crtc : crtc_timings;
  vrefresh : Z;
  hsync : Z;
}.

Definition zero_timings : timings := mk_timings 0 0 0 0 0 0 0 0 0 0 0 0.
Definition zero_crtc : crtc_timings := mk_crtc_timings 0 0 0 0 0 0 0 0 0 0 0 0 0.

(** [struct drm_cmdline_mode]. *)
Record drm_cmdline_mode := mk_cmdline {
  cmd_cvt : bool;
  xres : Z;
  yres : Z;
  refresh_specified : bool;
  refresh : Z;
  rb : bool;
  cmd_interlace : bool;
  cmd_margins : bool;
}.

Definition set_tm (t : timings) (m : drm_display_mode) : drm_display_mode :=
  mk_mode (base_id m) (mode_name m) (status m) (mode_type m) t (width_mm m) (height_mm m)
    (crtc m) (vrefresh m) (hsync m).
Definition set_mode_name (s : string) (m : drm_display_mode) : drm_display_mode :=
  mk_mode (base_id m) s (status m) (mode_type m) (tm m) (width_mm m) (height_mm m)
    (crtc m) (vrefresh m) (hsync m).
Definition set_status (z : Z) (m : drm_display_mode) : drm_display_mode :=
  mk_mode (base_id m) (mode_name m) z (mode_type m) (tm m) (width_mm m) (height_mm m)
    (crtc m) (vrefresh m) (hsync m).
Definition set_type (z : Z) (m : drm_display_mode) : drm_display_mode :=
  mk_mode (base_id m) (mode_name m) (status m) z (tm m) (width_mm m) (height_mm m)
    (crtc m) (vrefresh m) (hsync m).
Definition set_crtc (c : crtc_timings) (m : drm_display_mode) : drm_display_mode :=
  mk_mode (base_id m) (mode_name m) (status m) (mode_type m) (tm m) (width_mm m) (height_mm m)
    c (vrefresh m) (hsync m).
Definition set_flags (f : Z) (t : timings) : timings :=
  mk_timings (clock t) (hdisplay t) (hsync_start t) (hsync_end t) (htotal t) (hskew t)
    (vdisplay t) (vsync_start t) (vsync_end t) (vtotal t) (vscan t) f.

(** [unsigned] division and [int] division; a zero divisor is a trap. *)
Definition udiv (a b : Z) : option Z := if u32 b =? 0 then None else Some (u32 a / u32 b).
Definition idiv (a b : Z) : option Z := if b =? 0 then None else Some (i32 (Z.quot a b)).

Section Modes.
Context `{DrmModeH}.

Definition DRM_MODE_FLAG_PHSYNC : Z := Z.shiftl 1 phsync_bit.
Definition DRM_MODE_FLAG_NHSYNC : Z := Z.shiftl 1 nhsync_bit.
Definition DRM_MODE_FLAG_PVSYNC : Z := Z.shiftl 1 pvsync_bit.
Definition DRM_MODE_FLAG_NVSYNC : Z := Z.shiftl 1 nvsync_bit.
Definition DRM_MODE_FLAG_INTERLACE : Z := Z.shiftl 1 interlace_bit.
Definition DRM_MODE_FLAG_DBLSCAN : Z := Z.shiftl 1 dblscan_bit.
Definition DRM_MODE_FLAG_DBLCLK : Z := Z.shiftl 1 dblclk_bit.
Definition DRM_MODE_TYPE_PREFERRED : Z := Z.shiftl 1 preferred_bit.

(** ** Names and allocation *)

Definition drm_mode_set_name (mode : drm_display_mode) : drm_display_mode :=
  let interlaced := z2b (Z.land (flags (tm mode)) DRM_MODE_FLAG_INTERLACE) in
  set_mode_name
    (String.substring 0 (DRM_DISPLAY_MODE_LEN - 1)
       (pretty (hdisplay (tm mode)) +:+ "x" +:+ pretty (vdisplay (tm mode)) +:+
        (if interlaced then "i" else "")))
    mode.

(** [r]: the outcome of the allocation of the mode and of its object id. *)
Definition drm_mode_create (r : option Z) : option drm_display_mode :=
  (λ id, mk_mode id "" 0 0 zero_timings 0 0 zero_crtc 0 0) <$> r.

(** ** CVT *)

Definition HV_FACTOR : Z := 1000.
Definition CVT_MARGIN_PERCENTAGE : Z := 18.
Definition CVT_H_GRANULARITY : Z := 8.
Definition CVT_MIN_V_PORCH : Z := 3.
Definition CVT_MIN_V_BPORCH : Z := 6.
Definition CVT_CLOCK_STEP : Z := 250.
Definition CVT_MIN_VSYNC_BP : Z := 550.
Definition CVT_HSYNC_PERCENTAGE : Z := 8.
Definition CVT_C_PRIME : Z := (40 - 20) * 128 / 256 + 20.
Definition CVT_M_PRIME : Z := 600 * 128 / 256.
Definition CVT_RB_MIN_VBLANK : Z := 460.
Definition CVT_RB_H_SYNC : Z := 32.
Definition CVT_RB_H_BLANK : Z := 160.
Definition CVT_RB_VFPORCH : Z := 3.

(** The width of the vertical sync, by aspect ratio. *)
Definition cvt_vsync (hdisplay vdisplay : Z) : Z :=
  let ratio m a b := (Z.rem vdisplay m =? 0) && (Z.quot (i32 (vdisplay * a)) b =? hdisplay) in
  if ratio 3 4 3 then 4 else
  if ratio 9 16 9 then 5 else
  if ratio 10 16 10 then 6 else
  if ratio 4 5 4 then 7 else
  if ratio 9 15 9 then 7 else 10.

(** [margin = size * CVT_MARGIN_PERCENTAGE / 1000]. *)
Definition cvt_margin (size : Z) : Z := Z.quot (i32 (size * CVT_MARGIN_PERCENTAGE)) 1000.

(** The timings of the [!reduced] branch and [hperiod]; [vact] is
    [vdisplay_rnd + 2 * vmargin]. *)
Definition cvt_full (hdisplay vdisplay vact vfieldrate vsync interlace : Z)
    : option (timings * Z) :=
  let tmp1 := i32 (u32 (HV_FACTOR * 1000000 - u32 (CVT_MIN_VSYNC_BP * HV_FACTOR * vfieldrate))) in
  let tmp2 := i32 (i32 (i32 (vact + CVT_MIN_V_PORCH) * 2) + interlace) in
  hperiod ← udiv (i32 (tmp1 * 2)) (tmp2 * vfieldrate);
  tmp1 ← udiv (CVT_MIN_VSYNC_BP * HV_FACTOR) hperiod;
  let tmp1 := i32 (u32 (tmp1 + 1)) in
  let vsyncandback_porch :=
    if tmp1 <? vsync + CVT_MIN_V_PORCH then vsync + CVT_MIN_V_PORCH else tmp1 in
  let vtotal := i32 (i32 (vact + vsyncandback_porch) + CVT_MIN_V_PORCH) in
  let hblank_percentage :=
    u32 (CVT_C_PRIME * HV_FACTOR - u32 (CVT_M_PRIME * hperiod) / 1000) in
  let hblank_percentage :=
    if hblank_percentage <? 20 * HV_FACTOR then 20 * HV_FACTOR else hblank_percentage in
  hblank ← udiv (u32 (hdisplay * hblank_percentage)) (100 * HV_FACTOR - hblank_percentage);
  let hblank := i32 hblank in
  let hblank := i32 (hblank - Z.rem hblank (2 * CVT_H_GRANULARITY)) in
  let htotal := i32 (hdisplay + hblank) in
  let hsync_end := i32 (hdisplay + Z.quot hblank 2) in
  let hsync_start := i32 (hsync_end - Z.quot (i32 (htotal * CVT_HSYNC_PERCENTAGE)) 100) in
  let hsync_start :=
    i32 (hsync_start + (CVT_H_GRANULARITY - Z.rem hsync_start CVT_H_GRANULARITY)) in
  let vsync_start := i32 (vdisplay + CVT_MIN_V_PORCH) in
  Some (mk_timings 0 hdisplay hsync_start hsync_end htotal 0
          vdisplay vsync_start (i32 (vsync_start + vsync)) vtotal 0 0, hperiod).

(** The timings of the reduced branch and [hperiod]. *)
Definition cvt_reduced (hdisplay vdisplay vact vfieldrate vsync : Z) : option (timings * Z) :=
  let tmp1 := i32 (u32 (HV_FACTOR * 1000000 - u32 (CVT_RB_MIN_VBLANK * HV_FACTOR * vfieldrate))) in
  hperiod ← udiv tmp1 (vact * vfieldrate);
  vbilines ← udiv (CVT_RB_MIN_VBLANK * HV_FACTOR) hperiod;
  let vbilines := i32 (u32 (vbilines + 1)) in
  let vbilines := if vbilines <? CVT_RB_VFPORCH + vsync + CVT_MIN_V_BPORCH
                  then CVT_RB_VFPORCH + vsync + CVT_MIN_V_BPORCH else vbilines in
  let vtotal := i32 (vact + vbilines) in
  let htotal := i32 (hdisplay + CVT_RB_H_BLANK) in
  let hsync_end := i32 (hdisplay + Z.quot CVT_RB_H_BLANK 2) in
  let vsync_start := i32 (vdisplay + CVT_RB_VFPORCH) in
  Some (mk_timings 0 hdisplay (i32 (hsync_end - CVT_RB_H_SYNC)) hsync_end htotal 0
          vdisplay vsync_start (i32 (vsync_start + vsync)) vtotal 0 0, hperiod).

(** The inner [None] is the NULL of a failed allocation. *)
Definition drm_cvt_mode (r : option Z) (hdisplay vdisplay vrefresh : Z)
    (reduced interlaced margins : bool) : option (option drm_display_mode) :=
  match drm_mode_create r with
  | None => Some None
  | Some drm_mode =>
    let vrefresh := if z2b vrefresh then vrefresh else 60 in
    let vfieldrate := u32 (if interlaced then i32 (vrefresh * 2) else vrefresh) in
    let hdisplay_rnd := i32 (hdisplay - Z.rem hdisplay CVT_H_GRANULARITY) in
    let hmargin := if margins
                   then let m := cvt_margin hdisplay_rnd in m - Z.rem m CVT_H_GRANULARITY else 0 in
    let hact := i32 (hdisplay_rnd + 2 * hmargin) in
    let vdisplay_rnd := if interlaced then Z.quot vdisplay 2 else vdisplay in
    let vmargin := if margins then cvt_margin vdisplay_rnd else 0 in
    let mode_vdisplay := i32 (vdisplay + 2 * vmargin) in
    let interlace := b2z interlaced in
    let vsync := cvt_vsync hdisplay vdisplay in
    let vact := i32 (vdisplay_rnd + 2 * vmargin) in
    '(t, hperiod) ← (if negb reduced
                     then cvt_full hact mode_vdisplay vact vfieldrate vsync interlace
                     else cvt_reduced hact mode_vdisplay vact vfieldrate vsync);
    let '(mk_timings _ hd hss hse ht _ vd vss vse vt _ _) := t in
    clk ← udiv (i32 (i32 (ht * HV_FACTOR) * 1000)) hperiod;
    let clk := i32 clk in
    let clk := i32 (clk - Z.rem clk CVT_CLOCK_STEP) in
    let vt := if interlaced then i32 (vt * 2) else vt in
    let fl := if interlaced then DRM_MODE_FLAG_INTERLACE else 0 in
    let t := mk_timings clk hd hss hse ht 0 vd vss vse vt 0 fl in
    let drm_mode := drm_mode_set_name (set_tm t drm_mode) in
    let fl := if reduced
              then Z.lor fl (Z.lor DRM_MODE_FLAG_PHSYNC DRM_MODE_FLAG_NVSYNC)
              else Z.lor fl (Z.lor DRM_MODE_FLAG_PVSYNC DRM_MODE_FLAG_NHSYNC) in
    Some (Some (set_tm (set_flags fl t) drm_mode))
  end.

(** ** GTF *)

Definition GTF_MARGIN_PERCENTAGE : Z := 18.
Definition GTF_CELL_GRAN : Z := 8.
Definition GTF_MIN_V_PORCH : Z := 1.
Definition V_SYNC_RQD : Z := 3.
Definition H_SYNC_PERCENT : Z := 8.
Definition MIN_VSYNC_PLUS_BP : Z := 550.
Definition GTF_C_PRIME (GTF_2C GTF_K GTF_2J : Z) : Z :=
  Z.quot (i32 (Z.quot (i32 (i32 (GTF_2C - GTF_2J) * GTF_K)) 256 + GTF_2J)) 2.
Definition GTF_M_PRIME (GTF_M GTF_K : Z) : Z := Z.quot (i32 (GTF_K * GTF_M)) 256.

Definition drm_gtf_mode_complex (r : option Z) (hdisplay vdisplay vrefresh : Z)
    (interlaced margins : bool) (GTF_M GTF_2C GTF_K GTF_2J : Z)
    : option (option drm_display_mode) :=
  match drm_mode_create r with
  | None => Some None
  | Some drm_mode =>
    let hdisplay_rnd := u32 (Z.quot (i32 (hdisplay + GTF_CELL_GRAN / 2)) GTF_CELL_GRAN) in
    let hdisplay_rnd := u32 (hdisplay_rnd * GTF_CELL_GRAN) in
    let vdisplay_rnd := u32 (if interlaced then Z.quot vdisplay 2 else vdisplay) in
    let vfieldrate_rqd := u32 (if interlaced then i32 (vrefresh * 2) else vrefresh) in
    let top_margin := if margins
      then i32 (u32 (u32 (vdisplay_rnd * GTF_MARGIN_PERCENTAGE) + 500) / 1000) else 0 in
    let interlace := b2z interlaced in
    let tmp1 := u32 (1000000 - u32 (MIN_VSYNC_PLUS_BP * vfieldrate_rqd)) / 500 in
    let tmp2 := u32 (u32 (u32 (vdisplay_rnd + 2 * top_margin + GTF_MIN_V_PORCH) * 2) + interlace) in
    hfreq_est ← udiv (u32 (u32 (tmp2 * 1000) * vfieldrate_rqd)) tmp1;
    let vsync_plus_bp := i32 (u32 (MIN_VSYNC_PLUS_BP * hfreq_est) / 1000) in
    let vsync_plus_bp := Z.quot (i32 (vsync_plus_bp + 500)) 1000 in
    let vtotal_lines := u32 (vdisplay_rnd + top_margin + top_margin + vsync_plus_bp + GTF_MIN_V_PORCH) in
    vfieldrate_est ← udiv hfreq_est vtotal_lines;
    hperiod ← udiv 1000000 (u32 (vfieldrate_rqd * vtotal_lines));
    vfield_rate ← udiv hfreq_est vtotal_lines;
    let left_margin := if margins
      then i32 (u32 (u32 (hdisplay_rnd * GTF_MARGIN_PERCENTAGE) + 500) / 1000) else 0 in
    let total_active_pixels := u32 (hdisplay_rnd + left_margin + left_margin) in
    q ← udiv (i32 (GTF_M_PRIME GTF_M GTF_K * 1000000)) hfreq_est;
    let ideal_duty_cycle := u32 (i32 (GTF_C_PRIME GTF_2C GTF_K GTF_2J * 1000) - q) in
    hblank ← udiv (u32 (total_active_pixels * ideal_duty_cycle)) (100000 - ideal_duty_cycle);
    let hblank := u32 (hblank + GTF_CELL_GRAN) / (2 * GTF_CELL_GRAN) in
    let hblank := u32 (u32 (hblank * 2) * GTF_CELL_GRAN) in
    let total_pixels := u32 (total_active_pixels + hblank) in
    let pixel_freq := u32 (total_pixels * hfreq_est) / 1000 in
    let hsync := i32 (u32 (H_SYNC_PERCENT * total_pixels) / 100) in
    let hsync := Z.quot (i32 (hsync + GTF_CELL_GRAN / 2)) GTF_CELL_GRAN in
    let hsync := i32 (hsync * GTF_CELL_GRAN) in
    let hfront_porch := i32 (u32 (hblank / 2 - hsync)) in
    let hss := i32 (u32 (hdisplay_rnd + hfront_porch)) in
    let vss := i32 (u32 (vdisplay_rnd + GTF_MIN_V_PORCH)) in
    let vtot := i32 vtotal_lines in
    let vtot := if interlaced then i32 (vtot * 2) else vtot in
    let fl := if interlaced then DRM_MODE_FLAG_INTERLACE else 0 in
    let t := mk_timings (i32 pixel_freq) (i32 hdisplay_rnd) hss (i32 (hss + hsync)) (i32 total_pixels) 0
               (i32 vdisplay_rnd) vss (i32 (vss + V_SYNC_RQD)) vtot 0 fl in
    let drm_mode := drm_mode_set_name (set_tm t drm_mode) in
    let fl := if (GTF_M =? 600) && (GTF_2C =? 80) && (GTF_K =? 128) && (GTF_2J =? 40)
              then Z.lor DRM_MODE_FLAG_NHSYNC DRM_MODE_FLAG_PVSYNC
              else Z.lor DRM_MODE_FLAG_PHSYNC DRM_MODE_FLAG_NVSYNC in
    Some (Some (set_tm (set_flags fl t) drm_mode))
  end.

Definition drm_gtf_mode (r : option Z) (hdisplay vdisplay vrefresh : Z) (lace margins : bool)
    : option (option drm_display_mode) :=
  drm_gtf_mode_complex r hdisplay vdisplay vrefresh lace margins 600 (40 * 2) 128 (20 * 2).

(** ** Derived values *)

Definition drm_mode_width (mode : drm_display_mode) : Z := hdisplay (tm mode).
Definition drm_mode_height (mode : drm_display_mode) : Z := vdisplay (tm mode).

Definition drm_mode_hsync (mode : drm_display_mode) : option Z :=
  if z2b (hsync mode) then Some (hsync mode) else
  if htotal (tm mode) <? 0 then Some 0 else
  q ← idiv (i32 (clock (tm mode) * 1000)) (htotal (tm mode));
  let calc_val := u32 (u32 q + 500) in
  Some (i32 (calc_val / 1000)).

Definition drm_mode_vrefresh (mode : drm_display_mode) : Z :=
  let t := tm mode in
  if 0 <? vrefresh mode then vrefresh mode else
  if (0 <? htotal t) && (0 <? vtotal t) then
    let calc_val := u32 (i32 (clock t * 1000)) in
    let calc_val := calc_val / htotal t in
    let refresh := i32 (u32 (calc_val + vtotal t / 2) / vtotal t) in
    let refresh := if z2b (Z.land (flags t) DRM_MODE_FLAG_INTERLACE) then i32 (refresh * 2) else refresh in
    let refresh := if z2b (Z.land (flags t) DRM_MODE_FLAG_DBLSCAN) then Z.quot refresh 2 else refresh in
    if 1 <? vscan t then Z.quot refresh (vscan t) else refresh
  else 0.

Definition CRTC_INTERLACE_HALVE_V : Z := 1.

(** The four vertical values under [f]. *)
Definition map_v (f : Z → Z) (v : Z * Z * Z * Z) : Z * Z * Z * Z :=
  let '(d, s, e, t) := v in (f d, f s, f e, f t).

Definition drm_mode_set_crtcinfo (p : option drm_display_mode) (adjust_flags : Z)
    : option drm_display_mode :=
  match p with
  | None => None
  | Some p =>
    if Z.land (mode_type p) DRM_MODE_TYPE_CRTC_C =? DRM_MODE_TYPE_BUILTIN then Some p else
    let t := tm p in
    let v := (vdisplay t, vsync_start t, vsync_end t, vtotal t) in
    let v := if z2b (Z.land (flags t) DRM_MODE_FLAG_INTERLACE) &&
                z2b (Z.land adjust_flags CRTC_INTERLACE_HALVE_V)
             then map_v (λ z, Z.quot z 2) v else v in
    let v := if z2b (Z.land (flags t) DRM_MODE_FLAG_DBLSCAN)
             then map_v (λ z, i32 (z * 2)) v else v in
    let v := if 1 <? vscan t then map_v (λ z, i32 (z * vscan t)) v else v in
    let '(vd, vss, vse, vt) := v in
    Some (set_crtc (mk_crtc_timings (hdisplay t)
                      (cmin (hsync_start t) (hdisplay t)) (cmax (hsync_end t) (htotal t))
                      (hsync_start t) (hsync_end t) (htotal t) (hskew t)
                      vd (cmin vss vd) (cmax vse vt) vss vse vt) p)
  end.

(** ** Copies and equality *)

Definition drm_mode_copy (dst src : drm_display_mode) : drm_display_mode :=
  mk_mode (base_id dst) (mode_name src) (status src) (mode_type src) (tm src) (width_mm src)
    (height_mm src) (crtc src) (vrefresh src) (hsync src).

Definition drm_mode_duplicate (r : option Z) (mode : drm_display_mode) : option drm_display_mode :=
  nmode ← drm_mode_create r;
  Some (drm_mode_copy nmode mode).

Definition drm_mode_equal_no_clocks (mode1 mode2 : drm_display_mode) : bool :=
  let a := tm mode1 in
  let b := tm mode2 in
  (hdisplay a =? hdisplay b) && (hsync_start a =? hsync_start b) && (hsync_end a =? hsync_end b) &&
  (htotal a =? htotal b) && (hskew a =? hskew b) && (vdisplay a =? vdisplay b) &&
  (vsync_start a =? vsync_start b) && (vsync_end a =? vsync_end b) && (vtotal a =? vtotal b) &&
  (vscan a =? vscan b) && (flags a =? flags b).

Definition drm_mode_equal (mode1 mode2 : drm_display_mode) : bool :=
  let c1 := clock (tm mode1) in
  let c2 := clock (tm mode2) in
  if z2b c1 && z2b c2 then
    if negb (KHZ2PICOS c1 =? KHZ2PICOS c2) then false else drm_mode_equal_no_clocks mode1 mode2
  else if negb (c1 =? c2) then false
  else drm_mode_equal_no_clocks mode1 mode2.

(** ** Mode lists *)

Definition drm_mode_list_concat (head new : list drm_display_mode)
    : list drm_display_mode * list drm_display_mode := ([], new ++ head).

Definition validate_size_body (maxX maxY maxPitch : Z) (mode : drm_display_mode) : drm_display_mode :=
  let mode := if (0 <? maxPitch) && (maxPitch <? hdisplay (tm mode))
              then set_status MODE_BAD_WIDTH mode else mode in
  let mode := if (0 <? maxX) && (maxX <? hdisplay (tm mode))
              then set_status MODE_VIRTUAL_X mode else mode in
  if (0 <? maxY) && (maxY <? vdisplay (tm mode)) then set_status MODE_VIRTUAL_Y mode else mode.

Definition drm_mode_validate_size (mode_list : list drm_display_mode) (maxX maxY maxPitch : Z)
    : list drm_display_mode := validate_size_body maxX maxY maxPitch <$> mode_list.

(** [ranges]: the pairs (min[i], max[i]). *)
Definition drm_mode_validate_clocks (mode_list : list drm_display_mode) (ranges : list (Z * Z))
    : list drm_display_mode :=
  (λ mode, if existsb (λ r, (r.1 <=? clock (tm mode)) && (clock (tm mode) <=? r.2)) ranges
           then mode else set_status MODE_CLOCK_RANGE mode) <$> mode_list.

Definition drm_mode_prune_invalid (mode_list : list drm_display_mode) : list drm_display_mode :=
  filter (λ mode, status mode = MODE_OK) mode_list.

(** The inner loop of drm_mode_connector_list_update: the modes after the match,
    or [None] when the probed mode is new. *)
Fixpoint merge_probed (pmode : drm_display_mode) (modes : list drm_display_mode)
    : option (list drm_display_mode) :=
  match modes with
  | [] => None
  | mode :: modes =>
    if drm_mode_equal pmode mode
    then Some (set_type (Z.lor (mode_type mode) (mode_type pmode)) (set_status (status pmode) mode)
               :: modes)
    else (mode ::.) <$> merge_probed pmode modes
  end.

(** [connector->modes] after the call; [connector->probed_modes] is empty then. *)
Fixpoint drm_mode_connector_list_update (probed_modes modes : list drm_display_mode)
    : list drm_display_mode :=
  match probed_modes with
  | [] => modes
  | pmode :: probed_modes =>
    drm_mode_connector_list_update probed_modes
      (default (modes ++ [pmode]) (merge_probed pmode modes))
  end.

Definition drm_mode_create_from_cmdline_mode (r : option Z) (cmd : drm_cmdline_mode)
    : option (option drm_display_mode) :=
  let refr := if refresh_specified cmd then refresh cmd else 60 in
  mode ← (if cmd_cvt cmd
          then drm_cvt_mode r (xres cmd) (yres cmd) refr (rb cmd) (cmd_interlace cmd) (cmd_margins cmd)
          else drm_gtf_mode r (xres cmd) (yres cmd) refr (cmd_interlace cmd) (cmd_margins cmd));
  Some (drm_mode_set_crtcinfo mode CRTC_INTERLACE_HALVE_V).

(** ** Sorting *)

Definition drm_mode_compare (a b : drm_display_mode) : Z :=
  let pref m := b2z (z2b (Z.land (mode_type m) DRM_MODE_TYPE_PREFERRED)) in
  let diff := pref b - pref a in
  if z2b diff then diff else
  let diff := i32 (i32 (hdisplay (tm b) * vdisplay (tm b)) - i32 (hdisplay (tm a) * vdisplay (tm a))) in
  if z2b diff then diff else
  let diff := i32 (vrefresh b - vrefresh a) in
  if z2b diff then diff else
  i32 (clock (tm b) - clock (tm a)).

End Modes.

(** ** drm_mode_sort, on the heap of list heads *)

(** The head of the list, and the [head] of each mode. *)
Inductive mode_addr := ModeHead | ModeLink (p : positive).

#[export] Instance mode_addr_eq_dec : EqDecision mode_addr.
Proof. solve_decision. Defined.
#[export] Instance mode_addr_countable : Countable mode_addr.
Proof.
  refine (inj_countable' (λ a, match a with ModeHead => None | ModeLink p => Some p end)
    (λ o, match o with None => ModeHead | Some p => ModeLink p end) _).
  by intros [].
Defined.
#[export] Instance ModeLink_inj : Inj (=) (=) ModeLink.
Proof. by intros ?? [=]. Qed.

Section Sort.
Context `{DrmModeH}.
Variable modes : gmap positive drm_display_mode.

Abbreviation heap := (gmap mode_addr (list_head mode_addr positive)).
Abbreviation ptr := (option mode_addr).
Implicit Types (h : heap).

Definition drm_mode_compare_links (lh_a lh_b : ptr) h : option Z :=
  a ← list_entry lh_a h;
  b ← list_entry lh_b h;
  a ← a; b ← b;
  ma ← modes !! a; mb ← modes !! b;
  Some (drm_mode_compare ma mb).

(** The pre-check: [Some true] when the list is ordered already. *)
Fixpoint precheck (fuel : nat) (list temp : ptr) h : option bool :=
  match fuel with
  | O => None
  | S fuel =>
    if bool_decide (temp = Some ModeHead) then Some true else
    c ← drm_mode_compare_links list temp h;
    if 0 <? c then Some false else
    temp' ← rd_next temp h;
    precheck fuel temp temp' h
  end.

(** The [list_for_each_safe] of one round: the heap, [cur] and [end]. *)
Fixpoint sort_scan (fuel : nat) (list temp cur end_ : ptr) h : option (heap * ptr * ptr) :=
  match fuel with
  | O => None
  | S fuel =>
    if bool_decide (list = Some ModeHead) then Some (h, cur, end_) else
    c ← drm_mode_compare_links list cur h;
    if 0 <? c then
      p_node ← rd_prev list h;
      c ← cur; p ← p_node; x ← list;
      h ← list_del c h;
      h ← link_between c p x h;
      cur ← rd_next end_ h;
      Some (h, cur, end_)
    else if bool_decide (list = end_) then
      cur' ← rd_next cur h;
      Some (h, cur', cur)
    else
      temp' ← rd_next temp h;
      sort_scan fuel temp temp' cur end_ h
  end.

Fixpoint sort_loop (fuel : nat) (cur end_ : ptr) h : option heap :=
  match fuel with
  | O => None
  | S fuel' =>
    if bool_decide (cur = Some ModeHead) then Some h else
    list ← rd_next (Some ModeHead) h;
    temp ← rd_next list h;
    '(h, cur, end_) ← sort_scan (S (size h)) list temp cur end_ h;
    sort_loop fuel' cur end_ h
  end.

Definition drm_mode_sort h : option heap :=
  e ← list_empty ModeHead h;
  if e : bool then Some h else
  list ← rd_next (Some ModeHead) h;
  temp ← rd_next list h;
  ordered ← precheck (S (size h)) list temp h;
  if ordered : bool then Some h else
  end_ ← rd_next (Some ModeHead) h;
  cur ← rd_next end_ h;
  sort_loop (S (size h)) cur end_ h.

(** ** The sort on sequences *)

Definition link_obj (a : mode_addr) : positive := match a with ModeLink p => p | ModeHead => 1%positive end.

(** [h] holds the list of the modes [ps]. *)
Definition mode_list h (ps : list positive) : Prop :=
  represents h link_obj ModeHead None (ModeLink <$> ps) ∧ (∀ p, p ∈ ps → is_Some (modes !! p)).

Definition cmp (p q : positive) : Z :=
  match modes !! p, modes !! q with Some a, Some b => drm_mode_compare a b | _, _ => 0 end.

(** Before the first mode that compares greater. *)
Fixpoint insert_mode (c : positive) (ps : list positive) : list positive :=
  match ps with
  | [] => [c]
  | x :: ps => if 0 <? cmp x c then c :: x :: ps else x :: insert_mode c ps
  end.

Lemma mode_list_con h ps p : mode_list h ps → p ∈ ps →
  is_Some (h !! ModeLink p) ∧ con h (ModeLink p) = Some p ∧ is_Some (modes !! p).
Proof.
  intros [(Hd & Hc & _) Hm] Hp. split; [|split; [|by apply Hm]].
  - eapply dll_alloc; [exact Hd|]. apply elem_of_cons. right. by apply list_elem_of_fmap_2.
  - unfold contains in Hc. rewrite Forall_forall in Hc. apply (Hc (ModeLink p)).
    by apply list_elem_of_fmap_2.
Qed.

Lemma mode_list_nodup h ps : mode_list h ps → NoDup ps.
Proof.
  intros [((Hnd & _) & _) _]. apply NoDup_cons in Hnd as [_ Hnd]. by apply NoDup_fmap_1 in Hnd.
Qed.

Lemma compare_run h ps p q : mode_list h ps → p ∈ ps → q ∈ ps →
  drm_mode_compare_links (Some (ModeLink p)) (Some (ModeLink q)) h = Some (cmp p q).
Proof.
  intros Hl Hp Hq. destruct (mode_list_con h ps p Hl Hp) as (Hap & Hcp & [a Ha]).
  destruct (mode_list_con h ps q Hl Hq) as (Haq & Hcq & [b Hb]).
  unfold drm_mode_compare_links, list_entry. rewrite !rd_contain_con by done.
  cbn [mbind option_bind]. rewrite Hcp, Hcq. cbn [mbind option_bind]. rewrite Ha, Hb.
  cbn [mbind option_bind]. unfold cmp. by rewrite Ha, Hb.
Qed.

(** The link after the modes [l1], when [l2] follows. *)
Definition link_of (l2 : list positive) : ptr :=
  Some (match l2 with [] => ModeHead | p :: _ => ModeLink p end).

Lemma next_run h l1 p l2 : mode_list h (l1 ++ p :: l2) →
  rd_next (Some (ModeLink p)) h = Some (link_of l2).
Proof.
  intros Hl. destruct (mode_list_con h _ p Hl) as (Ha & _); [set_solver|].
  rewrite rd_next_nxt by done. destruct Hl as [(Hd & _) _].
  rewrite fmap_app, fmap_cons in Hd. apply dll_rotate, dll_next in Hd. rewrite Hd.
  by destruct l2.
Qed.

Lemma first_run h ps : mode_list h ps → rd_next (Some ModeHead) h = Some (link_of ps).
Proof.
  intros [(Hd & _) _]. pose proof (dll_next _ _ _ Hd) as Hn.
  rewrite rd_next_nxt by (by eapply nxt_Some). rewrite Hn. by destruct ps.
Qed.

Lemma precheck_run h l1 p l2 fuel : mode_list h (l1 ++ p :: l2) → (length l2 < fuel)%nat →
  ∃ b, precheck fuel (Some (ModeLink p)) (link_of l2) h = Some b ∧
    (b = true → Sorted (λ x y, cmp x y <= 0) (p :: l2)).
Proof.
  revert l1 p fuel. induction l2 as [|q l2 IH]; intros l1 p [|fuel] Hl Hf; cbn in Hf; try lia;
    cbn [precheck link_of].
  - rewrite bool_decide_true by done. exists true. split; [done|]. repeat constructor.
  - rewrite bool_decide_false by done.
    assert (mode_list h ((l1 ++ [p]) ++ q :: l2)) as Hl' by (by rewrite <- app_assoc).
    change (link_of (q :: l2)) with (Some (ModeLink q)).
    rewrite (compare_run h (l1 ++ p :: q :: l2)) by (done || set_solver). cbn [mbind option_bind].
    destruct (Z.ltb_spec 0 (cmp p q)); [by exists false|].
    rewrite (next_run h (l1 ++ [p]) q l2 Hl'). cbn [mbind option_bind].
    destruct (IH (l1 ++ [p]) q fuel Hl') as (b & Hrun & Hb); [lia|].
    exists b. split; [done|]. intros Htrue. constructor; [by apply Hb|]. by constructor.
Qed.

Lemma last_insert_mode c ps d d' : List.last (insert_mode c ps) d = List.last (insert_mode c ps) d'.
Proof.
  destruct ps as [|x ps]; cbn [insert_mode]; [done|]. case_bool; by rewrite !last_cons.
Qed.

(** One round inserts the mode [c] in the ordered part of the list. *)
Lemma scan_run h l1 l2 c l3 fuel : mode_list h (l1 ++ l2 ++ c :: l3) → l2 ≠ [] →
  (length l2 < fuel)%nat →
  ∃ h', sort_scan fuel (link_of l2) (link_of (List.tl l2 ++ c :: l3)) (Some (ModeLink c))
          (Some (ModeLink (List.last l2 c))) h =
        Some (h', link_of l3, Some (ModeLink (List.last (insert_mode c l2) c))) ∧
    mode_list h' (l1 ++ insert_mode c l2 ++ l3) ∧ same_dom h h'.
Proof.
  revert l1 fuel. induction l2 as [|x l2 IH]; intros l1 [|fuel] Hl Hne Hf; cbn in Hf; try lia; [done|].
  change (link_of (x :: l2)) with (Some (ModeLink x)). cbn [sort_scan].
  rewrite bool_decide_false by done.
  rewrite (compare_run h (l1 ++ (x :: l2) ++ c :: l3)) by (done || set_solver).
  cbn [mbind option_bind insert_mode]. destruct (Z.ltb_spec 0 (cmp x c)) as [Hgt|Hle].
  - pose proof Hl as [(Hd & Hc & Hh) Hm].
    destruct (mode_list_con h _ c Hl) as (_ & Hcc & _); [set_solver|].
    destruct (mode_list_con h _ x Hl) as (Hax & _); [set_solver|].
    rewrite !fmap_app, !fmap_cons in Hd. cbn in Hd.
    destruct (move_before_run _ _ _ _ _ _ _ _ Hd Hcc) as (h1 & h' & Hp & Hrun1 & Hrun2 & Hd' & Hc' & Ha').
    rewrite rd_prev_prv by done. rewrite Hp. cbn [mbind option_bind].
    rewrite Hrun1. cbn [mbind option_bind]. rewrite Hrun2. cbn [mbind option_bind].
    assert (mode_list h' (l1 ++ (c :: x :: l2) ++ l3)) as Hl'.
    { split; [split; [|split]|].
      - rewrite !fmap_app, !fmap_cons. exact Hd'.
      - eapply contains_con; [exact Hc'|]. unfold contains in *. rewrite Forall_forall in *.
        intros a Ha. apply Hc. set_solver.
      - by rewrite Hc'.
      - intros p Hpp. apply Hm. set_solver. }
    exists h'. rewrite !last_cons. split; [|done].
    destruct l2 as [|y l2 _] using rev_ind; cbn [List.last].
    + rewrite (next_run h' (l1 ++ [c]) x l3) by (rewrite <- app_assoc; exact Hl'). done.
    + rewrite !List.last_last.
      rewrite (next_run h' (l1 ++ c :: x :: l2) y l3); [done|].
      rewrite <- app_assoc. cbn. cbn in Hl'. by rewrite <- app_assoc in Hl'.
  - destruct l2 as [|y l2].
    + cbn [List.last]. rewrite bool_decide_true by done. cbn in Hl.
      rewrite (next_run h (l1 ++ [x]) c l3) by (by rewrite <- app_assoc).
      cbn [mbind option_bind]. exists h. split; [done|]. split; [exact Hl|]. by intros a.
    + assert (x ≠ List.last (y :: l2) c) as Hxl.
      { pose proof (mode_list_nodup _ _ Hl) as Hnd. apply NoDup_app in Hnd as (_ & _ & Hnd).
        apply NoDup_app in Hnd as ([Hx _]%NoDup_cons & _). intros Heq. apply Hx. rewrite Heq.
        apply last_elem_of_ne. }
      rewrite (last_cons x). rewrite last_cons in Hxl. rewrite last_cons.
      rewrite bool_decide_false by congruence.
      assert (mode_list h ((l1 ++ [x]) ++ (y :: l2) ++ c :: l3)) as Hl' by (by rewrite <- app_assoc).
      cbn [List.tl]. change (link_of ((y :: l2) ++ c :: l3)) with (link_of (y :: l2)).
      assert (rd_next (link_of (y :: l2)) h = Some (link_of (l2 ++ c :: l3))) as Hnx
        by apply (next_run h (l1 ++ [x]) y (l2 ++ c :: l3) Hl').
      rewrite Hnx. cbn [mbind option_bind].
      destruct (IH (l1 ++ [x]) fuel Hl') as (h' & Hrun & Hl2 & Hdom); [done|cbn in *; lia|].
      rewrite last_cons in Hrun. cbn [List.tl] in Hrun. exists h'. split.
      * rewrite Hrun, (last_cons x). by rewrite (last_insert_mode c (y :: l2) c x).
      * split; [|done]. rewrite <- app_assoc in Hl2. exact Hl2.
Qed.

(** The insertion sort the loop does: [done] is in order, [rest] is left. *)
Fixpoint insert_all (done rest : list positive) : list positive :=
  match rest with [] => done | c :: rest => insert_all (insert_mode c done) rest end.

Lemma insert_mode_perm c ps : insert_mode c ps ≡ₚ c :: ps.
Proof.
  induction ps as [|x ps IH]; cbn; [done|]. case_bool; [done|]. rewrite IH. apply perm_swap.
Qed.

Lemma insert_all_perm done rest : insert_all done rest ≡ₚ done ++ rest.
Proof.
  revert done. induction rest as [|c rest IH]; intros d; cbn; [by rewrite app_nil_r|].
  rewrite IH, insert_mode_perm. apply Permutation_middle.
Qed.

Lemma mode_list_size h ps : mode_list h ps → (length ps < size h)%nat.
Proof.
  intros [(Hd & _) _]. pose proof Hd as [Hnd _].
  assert (length (ModeHead :: (ModeLink <$> ps)) <= size h)%nat as Hle.
  { apply length_le_size; [done|]. intros a Ha. by eapply dll_alloc. }
  cbn in Hle. rewrite length_fmap in Hle. lia.
Qed.

Lemma sort_loop_run h done rest c fuel : mode_list h (done ++ rest) → done ≠ [] →
  (length rest < fuel)%nat →
  ∃ h', sort_loop fuel (link_of rest) (Some (ModeLink (List.last done c))) h = Some h' ∧
    mode_list h' (insert_all done rest) ∧ same_dom h h'.
Proof.
  revert h done c fuel. induction rest as [|x rest IH]; intros h dn c [|fuel] Hl Hne Hf;
    cbn [length] in Hf; try lia; cbn [sort_loop insert_all].
  - rewrite bool_decide_true by done. exists h. rewrite app_nil_r in Hl. split; [done|].
    split; [done|]. by intros a.
  - change (link_of (x :: rest)) with (Some (ModeLink x)). rewrite bool_decide_false by done.
    rewrite (first_run h _ Hl). cbn [mbind option_bind].
    destruct dn as [|d dn]; [done|].
    change (link_of ((d :: dn) ++ x :: rest)) with (Some (ModeLink d)).
    rewrite (next_run h [] d (dn ++ x :: rest) Hl). cbn [mbind option_bind].
    destruct (scan_run h [] (d :: dn) x rest (S (size h)) Hl) as (h' & Hrun & Hl' & Hdom); [done| |].
    { pose proof (mode_list_size _ _ Hl) as Hsz. rewrite length_app in Hsz. cbn in *. lia. }
    change (link_of (d :: dn)) with (Some (ModeLink d)) in Hrun. cbn [List.tl] in Hrun.
    rewrite last_cons in Hrun |- *. rewrite Hrun. cbn [mbind option_bind].
    destruct (IH h' (insert_mode x (d :: dn)) x fuel) as (h2 & Hrun2 & Hl2 & Hdom2).
    { rewrite app_nil_l in Hl'. exact Hl'. }
    { intros Hnil. pose proof (insert_mode_perm x (d :: dn)) as Hp. rewrite Hnil in Hp.
      apply Permutation_length in Hp. done. }
    { lia. }
    exists h2. split; [exact Hrun2|]. split; [done|]. intros a. by rewrite (Hdom2 a), (Hdom a).
Qed.

(** ** Order *)

(** The hardware limits that keep drm_mode_compare from overflowing. *)
Definition mode_small (m : drm_display_mode) : Prop :=
  0 <= hdisplay (tm m) <= 32767 ∧ 0 <= vdisplay (tm m) <= 32767 ∧
  0 <= vrefresh m <= INT_MAX ∧ 0 <= clock (tm m) <= INT_MAX.

(** The favourability of a mode: what drm_mode_compare compares, in order. *)
Definition mode_key (m : drm_display_mode) : Z * Z * Z * Z :=
  (b2z (z2b (Z.land (mode_type m) DRM_MODE_TYPE_PREFERRED)),
   hdisplay (tm m) * vdisplay (tm m), vrefresh m, clock (tm m)).

(** [k] is at least as good as [k']. *)
Definition key_ge (k k' : Z * Z * Z * Z) : Prop :=
  let '(a, b, c, d) := k in
  let '(a', b', c', d') := k' in
  a' < a ∨ a' = a ∧ (b' < b ∨ b' = b ∧ (c' < c ∨ c' = c ∧ d' <= d)).

Lemma compare_key a b : mode_small a → mode_small b →
  (drm_mode_compare a b <= 0 ↔ key_ge (mode_key a) (mode_key b)).
Proof.
  intros (Ha1 & Ha2 & Ha3 & Ha4) (Hb1 & Hb2 & Hb3 & Hb4).
  unfold drm_mode_compare, mode_key, key_ge. unfold INT_MAX in *.
  set (pa := b2z (z2b (Z.land (mode_type a) _))). set (pb := b2z (z2b (Z.land (mode_type b) _))).
  assert (0 <= hdisplay (tm a) * vdisplay (tm a) <= 32767 * 32767) by nia.
  assert (0 <= hdisplay (tm b) * vdisplay (tm b) <= 32767 * 32767) by nia.
  rewrite !(i32_id (_ * _)) by (unfold INT_MIN, INT_MAX; lia).
  rewrite !i32_id by (unfold INT_MIN, INT_MAX; lia). unfold z2b.
  clearbody pa pb.
  repeat (case_bool; cbn [negb]); lia.
Qed.

Lemma cmp_small_total p q : (∀ p m, modes !! p = Some m → mode_small m) →
  0 < cmp p q → cmp q p <= 0.
Proof.
  intros Hsm. unfold cmp. destruct (modes !! p) as [a|] eqn:Ha; [|lia].
  destruct (modes !! q) as [b|] eqn:Hb; [|lia]. intros Hlt.
  apply (compare_key b a); [by eapply Hsm..|].
  assert (¬ key_ge (mode_key a) (mode_key b)) as Hn.
  { intros Hk. apply (compare_key a b) in Hk; [lia|by eapply Hsm..]. }
  revert Hn. unfold key_ge, mode_key. lia.
Qed.

Lemma insert_mode_sorted c ps : (∀ p m, modes !! p = Some m → mode_small m) →
  Sorted (λ x y, cmp x y <= 0) ps → Sorted (λ x y, cmp x y <= 0) (insert_mode c ps).
Proof.
  intros Hsm. induction 1 as [|x ps Hs IH Hr]; cbn; [repeat constructor|].
  destruct (Z.ltb_spec 0 (cmp x c)).
  - constructor; [by constructor|]. constructor. by apply cmp_small_total.
  - constructor; [done|]. destruct Hr as [|y ps Hy]; cbn; [by constructor|].
    case_bool; by constructor.
Qed.

Lemma insert_all_sorted done rest : (∀ p m, modes !! p = Some m → mode_small m) →
  Sorted (λ x y, cmp x y <= 0) done → Sorted (λ x y, cmp x y <= 0) (insert_all done rest).
Proof.
  intros Hsm. revert done. induction rest as [|c rest IH]; intros d Hd; cbn; [done|].
  apply IH. by apply insert_mode_sorted.
Qed.

(** [p] is at least as favoured as [q]. *)
Definition favours (p q : positive) : Prop :=
  ∃ a b, modes !! p = Some a ∧ modes !! q = Some b ∧ key_ge (mode_key a) (mode_key b).

Lemma favours_trans : Transitive favours.
Proof.
  intros p q r (a & b & Ha & Hb & Hab) (b' & c & Hb' & Hc & Hbc). rewrite Hb in Hb'. simplify_eq.
  exists a, c. split; [done|]. split; [done|]. revert Hab Hbc. unfold key_ge, mode_key. lia.
Qed.

Lemma sorted_favours ps : (∀ p m, modes !! p = Some m → mode_small m) →
  (∀ p, p ∈ ps → is_Some (modes !! p)) →
  Sorted (λ x y, cmp x y <= 0) ps → StronglySorted favours ps.
Proof.
  intros Hsm Hin Hs. apply Sorted_StronglySorted; [exact favours_trans|].
  induction Hs as [|p ps Hs IH Hr]; [constructor|].
  constructor; [apply IH; intros q Hq; apply Hin; by right|].
  destruct Hr as [|q ps Hle]; constructor.
  destruct (Hin p) as [a Ha]; [by left|]. destruct (Hin q) as [b Hb]; [right; by left|].
  exists a, b. split; [done|]. split; [done|]. unfold cmp in Hle. rewrite Ha, Hb in Hle.
  apply compare_key; eauto.
Qed.

(** C39 (mode_sort_correct): on a list of modes within the hardware limits (the
    comparison does not overflow), drm_mode_sort ends without a fault, and the
    list holds the same modes, each at least as favoured (preferred, then area,
    refresh, clock) as all that follow. *)
Theorem mode_sort_correct h ps : mode_list h ps → (∀ p m, modes !! p = Some m → mode_small m) →
  ∃ h' ps', drm_mode_sort h = Some h' ∧ mode_list h' ps' ∧ ps' ≡ₚ ps ∧
    StronglySorted favours ps' ∧ same_dom h h'.
Proof.
  intros Hl Hsm. pose proof (mode_list_size _ _ Hl) as Hsz. unfold drm_mode_sort.
  destruct ps as [|p ps].
  - assert (list_empty ModeHead h = Some true) as ->.
    { unfold list_empty. rewrite (first_run h [] Hl). cbn [mbind option_bind].
      by rewrite bool_decide_true by done. }
    cbn [mbind option_bind]. exists h, []. split_and!; [done..|constructor|by intros a].
  - assert (list_empty ModeHead h = Some false) as ->.
    { unfold list_empty. rewrite (first_run h _ Hl). cbn [mbind option_bind link_of].
      by rewrite bool_decide_false by done. }
    cbn [mbind option_bind]. rewrite (first_run h _ Hl). cbn [mbind option_bind].
    change (link_of (p :: ps)) with (Some (ModeLink p)). rewrite (next_run h [] p ps Hl).
    cbn [mbind option_bind].
    destruct (precheck_run h [] p ps (S (size h)) Hl) as ([] & -> & Hb); [cbn in *; lia|..];
      cbn [mbind option_bind].
    + exists h, (p :: ps). split_and!; [done..| |by intros a].
      apply sorted_favours; [done|apply Hl|by apply Hb].
    + destruct (sort_loop_run h [p] ps p (S (size h)) Hl) as (h' & Hrun & Hl' & Hdom);
        [done|cbn in *; lia|].
      cbn [List.last] in Hrun. exists h', (insert_all [p] ps). split; [done|]. split; [done|].
      split; [apply insert_all_perm|]. split; [|done].
      apply sorted_favours; [done|apply Hl'|]. apply insert_all_sorted; [done|]. repeat constructor.
Qed.

End Sort.

(** ** Lemmas for the theorems *)

Section Lemmas.
Context `{DrmModeH}.

Lemma u32_i32 z : u32 (i32 z) = u32 z.
Proof.
  unfold wrap, swrap. change (2 ^ (32 - 1)) with 2147483648.
  rewrite Zminus_mod_idemp_l. f_equal. lia.
Qed.

(** [udiv] of values in range is the division. *)
Lemma udiv_run a b : 0 <= a < 2 ^ 32 → 0 < b < 2 ^ 32 → udiv a b = Some (a / b).
Proof.
  intros Ha Hb. unfold udiv. rewrite !u32_id by lia. rewrite (proj2 (Z.eqb_neq b 0)) by lia. done.
Qed.

Lemma cvt_vsync_bounds hd vd : 4 <= cvt_vsync hd vd <= 10.
Proof. unfold cvt_vsync. repeat (destruct (_ && _); [lia|]). lia. Qed.

(** The estimated line period of reduced blanking, in nanoseconds. *)
Definition rb_hperiod (v r : Z) : Z := (1000000000 - 460000 * r) / (v * r).

Lemma rb_hperiod_bounds v r : 1 <= v <= 8192 → 1 <= r <= 240 →
  0 < v * r <= 1966080 ∧ 452 <= rb_hperiod v r <= 1000000000.
Proof.
  intros Hv Hr. assert (0 < v * r <= 8192 * 240) by nia. split; [lia|]. unfold rb_hperiod. split.
  - apply Z.div_le_lower_bound; [lia|]. nia.
  - apply Z.div_le_upper_bound; [lia|]. nia.
Qed.

Lemma cvt_reduced_run hd v r vs : 0 <= hd <= 8192 → 1 <= v <= 8192 → 1 <= r <= 240 → 4 <= vs <= 10 →
  cvt_reduced hd v v r vs =
  Some (mk_timings 0 hd (hd + 48) (hd + 80) (hd + 160) 0 v (v + 3) (v + 3 + vs)
          (v + Z.max (460000 / rb_hperiod v r + 1) (9 + vs)) 0 0, rb_hperiod v r).
Proof.
  intros Hh Hv Hr Hs. destruct (rb_hperiod_bounds v r Hv Hr) as [Hvr Hp].
  assert (0 <= 460000 / rb_hperiod v r <= 1018) as Hq.
  { split; [apply Z.div_pos; lia|]. apply Z.div_le_upper_bound; [lia|]. nia. }
  unfold cvt_reduced, CVT_RB_MIN_VBLANK, HV_FACTOR, CVT_RB_H_BLANK, CVT_RB_H_SYNC, CVT_RB_VFPORCH,
    CVT_MIN_V_BPORCH. cbv zeta.
  change (460 * 1000) with 460000. change (1000 * 1000000) with 1000000000.
  rewrite (u32_id (460000 * r)), (u32_id (1000000000 - _)), (i32_id (1000000000 - _))
    by (unfold INT_MIN, INT_MAX; lia).
  rewrite udiv_run by lia. fold (rb_hperiod v r). cbn [mbind option_bind].
  rewrite udiv_run by lia. cbn [mbind option_bind].
  rewrite (u32_id (460000 / _ + 1)), (i32_id (460000 / _ + 1)) by (unfold INT_MIN, INT_MAX; lia).
  change (Z.quot 160 2) with 80.
  assert ((if 460000 / rb_hperiod v r + 1 <? 3 + vs + 6 then 3 + vs + 6 else 460000 / rb_hperiod v r + 1)
    = Z.max (460000 / rb_hperiod v r + 1) (9 + vs)) as ->.
  { case_bool; lia. }
  rewrite !i32_id by (unfold INT_MIN, INT_MAX; rewrite ?i32_id by (unfold INT_MIN, INT_MAX; lia); lia).
  do 3 f_equal; lia.
Qed.

(** The estimated line period of the full formula, and its blanking. *)
Definition full_hperiod (v r : Z) : Z := (1000000000 - 550000 * r) * 2 / ((v + 3) * 2 * r).
Definition full_pct (hp : Z) : Z := Z.max 20000 (30000 - 300 * hp / 1000).
Definition full_hblank (hd hp : Z) : Z :=
  hd * full_pct hp / (100000 - full_pct hp) - (hd * full_pct hp / (100000 - full_pct hp)) mod 16.
Definition full_hsync_start (hd hb : Z) : Z :=
  let x := hd + hb / 2 - (hd + hb) * 8 / 100 in x + (8 - x mod 8).

Lemma full_hperiod_bounds v r : 200 <= v <= 4096 → 50 <= r <= 200 →
  1000 <= full_hperiod v r <= 100000.
Proof.
  intros Hv Hr. unfold full_hperiod. assert (0 < (v + 3) * 2 * r <= 8198 * 200) by nia. split.
  - apply Z.div_le_lower_bound; [lia|]. nia.
  - apply Z.div_le_upper_bound; [lia|]. nia.
Qed.

Lemma full_pct_bounds hp : 0 <= hp → 20000 <= full_pct hp <= 30000.
Proof.
  intros Hp. unfold full_pct. assert (0 <= 300 * hp / 1000) by (apply Z.div_pos; lia). lia.
Qed.

Lemma full_hblank_bounds hd hp : 0 <= hd → 0 <= hp →
  0 <= full_hblank hd hp ∧ 4 * full_hblank hd hp + 64 >= hd ∧ 7 * full_hblank hd hp <= 3 * hd ∧
  full_hblank hd hp mod 16 = 0.
Proof.
  intros Hh Hp. pose proof (full_pct_bounds hp Hp) as Hpct. unfold full_hblank.
  set (p := full_pct hp) in *. set (b := hd * p / (100000 - p)).
  assert (hd <= 4 * b + 4) as Hlo.
  { unfold b. pose proof (Z.mul_succ_div_gt (hd * p) (100000 - p) ltac:(lia)). nia. }
  assert (7 * b <= 3 * hd) as Hhi.
  { unfold b. pose proof (Z.mul_div_le (hd * p) (100000 - p) ltac:(lia)). nia. }
  pose proof (Z.div_mod b 16 ltac:(lia)). pose proof (Z.mod_pos_bound b 16 ltac:(lia)).
  assert (0 <= b) by (unfold b; apply Z.div_pos; nia).
  assert (0 <= b / 16) by (apply Z.div_pos; lia).
  split_and!; try lia. replace (b - b mod 16) with (b / 16 * 16) by lia. apply Z.mod_mul. lia.
Qed.

Lemma full_hsync_bounds hd hb : 320 <= hd → 0 <= hb → 4 * hb + 64 >= hd → 7 * hb <= 3 * hd →
  hd <= full_hsync_start hd hb < hd + hb / 2 ∧ (8 | full_hsync_start hd hb).
Proof.
  intros Hh Hb Hlo Hhi. unfold full_hsync_start. cbv zeta. set (x := hd + hb / 2 - _).
  pose proof (Z.mod_pos_bound x 8 ltac:(lia)).
  pose proof (Z.div_mod hb 2 ltac:(lia)). pose proof (Z.mod_pos_bound hb 2 ltac:(lia)).
  pose proof (Z.div_mod ((hd + hb) * 8) 100 ltac:(lia)).
  pose proof (Z.mod_pos_bound ((hd + hb) * 8) 100 ltac:(lia)).
  assert (hd - 1 <= x ∧ x + 8 < hd + hb / 2) as [Hx1 Hx2] by (unfold x; lia).
  clearbody x. split; [lia|]. exists (x / 8 + 1). pose proof (Z.div_mod x 8 ltac:(lia)). lia.
Qed.

Lemma cvt_full_run hd v r vs : 320 <= hd <= 3000 → 200 <= v <= 4096 → 50 <= r <= 200 → 4 <= vs <= 10 →
  let hp := full_hperiod v r in
  let hb := full_hblank hd hp in
  cvt_full hd v v r vs 0 =
  Some (mk_timings 0 hd (full_hsync_start hd hb) (hd + hb / 2) (hd + hb) 0 v (v + 3) (v + 3 + vs)
          (v + Z.max (550000 / hp + 1) (vs + 3) + 3) 0 0, hp).
Proof.
  intros Hh Hv Hr Hs hp hb.
  assert (hp = full_hperiod v r) as Ehp by done. assert (hb = full_hblank hd hp) as Ehb by done.
  clearbody hb hp. pose proof (full_hperiod_bounds v r Hv Hr) as Hp. rewrite <- Ehp in Hp.
  destruct (full_hblank_bounds hd hp ltac:(lia) ltac:(lia)) as (Hb0 & Hblo & Hbhi & Hbm). rewrite <- Ehb in Hb0, Hblo, Hbhi, Hbm.
  destruct (full_hsync_bounds hd hb ltac:(lia) Hb0 Hblo Hbhi) as [Hss _].
  pose proof (full_pct_bounds hp ltac:(lia)) as Hpct.
  assert (0 <= 550000 / hp <= 550) as Hq.
  { split; [apply Z.div_pos; lia|]. apply Z.div_le_upper_bound; [lia|]. nia. }
  unfold cvt_full, CVT_MIN_VSYNC_BP, HV_FACTOR, CVT_MIN_V_PORCH, CVT_H_GRANULARITY,
    CVT_HSYNC_PERCENTAGE. cbv zeta.
  change (550 * 1000) with 550000. change (1000 * 1000000) with 1000000000.
  change (CVT_C_PRIME * 1000) with 30000. change CVT_M_PRIME with 300.
  change (20 * 1000) with 20000. change (100 * 1000) with 100000. change (2 * 8) with 16.
  assert (0 < (v + 3) * 2 * r <= 8198 * 200) by nia.
  rewrite (u32_id (550000 * r)), (u32_id (1000000000 - _)), (i32_id (1000000000 - _)),
    (i32_id ((1000000000 - _) * 2)), (i32_id (v + 3)), (i32_id ((v + 3) * 2)), Z.add_0_r,
    (i32_id ((v + 3) * 2)) by (unfold INT_MIN, INT_MAX; lia).
  rewrite udiv_run by lia. fold (full_hperiod v r). rewrite <- Ehp. cbn [mbind option_bind].
  rewrite (udiv_run 550000 hp) by lia. cbn [mbind option_bind].
  rewrite (u32_id (550000 / _ + 1)), (i32_id (550000 / _ + 1)) by (unfold INT_MIN, INT_MAX; lia).
  assert (0 <= 300 * hp / 1000 <= 30000) as H3.
  { split; [apply Z.div_pos; lia|]. apply Z.div_le_upper_bound; lia. }
  rewrite (u32_id (300 * hp)), (u32_id (30000 - _)) by lia.
  assert ((if 30000 - 300 * hp / 1000 <? 20000 then 20000 else 30000 - 300 * hp / 1000) = full_pct hp) as ->.
  { unfold full_pct. case_bool; lia. }
  assert (0 <= hd * full_pct hp <= 3000 * 30000) by nia.
  rewrite (u32_id (hd * full_pct hp)), udiv_run by lia. cbn [mbind option_bind].
  set (b := hd * full_pct hp / (100000 - full_pct hp)).
  assert (0 <= b <= 90000000) as Hb.
  { unfold b. split; [apply Z.div_pos; lia|]. apply Z.div_le_upper_bound; [lia|]. nia. }
  rewrite (i32_id b), (Z.rem_mod_nonneg b 16) by (unfold INT_MIN, INT_MAX; lia).
  assert (b - b mod 16 = hb) as -> by (rewrite Ehb; done). rewrite (i32_id hb), (Z.quot_div_nonneg hb 2) by (unfold INT_MIN, INT_MAX; lia).
  assert (0 <= hb / 2 <= hb) by (split; [apply Z.div_pos; lia|apply Z.div_le_upper_bound; lia]).
  rewrite (i32_id (hd + hb)), (i32_id (hd + hb / 2)), (i32_id ((hd + hb) * 8)),
    (Z.quot_div_nonneg _ 100) by (unfold INT_MIN, INT_MAX; lia).
  revert Hss. unfold full_hsync_start. cbv zeta. generalize (hd + hb / 2 - (hd + hb) * 8 / 100) as x. intros x Hss.
  pose proof (Z.mod_pos_bound x 8 ltac:(lia)).
  rewrite (i32_id x), (Z.rem_mod_nonneg x 8), (i32_id (x + _)) by (unfold INT_MIN, INT_MAX; lia).
  assert ((if 550000 / hp + 1 <? vs + 3 then vs + 3 else 550000 / hp + 1) = Z.max (550000 / hp + 1) (vs + 3))
    as -> by (case_bool; lia).
  rewrite !i32_id by (unfold INT_MIN, INT_MAX; rewrite ?i32_id by (unfold INT_MIN, INT_MAX; lia); lia).
  done.
Qed.

(** The timings of a progressive mode without margins, before the clock. *)
Definition cvt_timings (hd v r : Z) (reduced : bool) : option (timings * Z) :=
  let vs := cvt_vsync hd v in
  let h := hd - hd mod 8 in
  if reduced then cvt_reduced h v v r vs else cvt_full h v v r vs 0.

(** The pixel clock of a line of [ht] pixels that lasts [hp] nanoseconds. *)
Definition cvt_clock (ht hp : Z) : Z := let c := ht * 1000000 / hp in c - c mod 250.

Lemma cvt_mode_run id hd v r reduced t hp : 8 <= hd <= 32767 → 0 < v <= 32767 → 0 < r <= 1000 →
  cvt_timings hd v r reduced = Some (t, hp) → 0 <= htotal t <= 4294 → 400 <= hp < 2 ^ 32 →
  ∃ m, drm_cvt_mode (Some id) hd v r reduced false false = Some (Some m) ∧
    base_id m = id ∧
    tm m = mk_timings (cvt_clock (htotal t) hp) (hdisplay t) (hsync_start t) (hsync_end t) (htotal t) 0
             (vdisplay t) (vsync_start t) (vsync_end t) (vtotal t) 0
             (if reduced then Z.lor DRM_MODE_FLAG_PHSYNC DRM_MODE_FLAG_NVSYNC
              else Z.lor DRM_MODE_FLAG_PVSYNC DRM_MODE_FLAG_NHSYNC).
Proof.
  intros Hh Hv Hr Ht Hht Hhp. unfold drm_cvt_mode. cbn [drm_mode_create fmap option_fmap option_map].
  assert (z2b r = true) as -> by (unfold z2b; by rewrite (proj2 (Z.eqb_neq r 0)) by lia). cbn [b2z].
  unfold CVT_H_GRANULARITY. rewrite (u32_id r) by lia.
  pose proof (Z.mod_pos_bound hd 8 ltac:(lia)). pose proof (Z.mod_le hd 8 ltac:(lia) ltac:(lia)).
  rewrite Z.rem_mod_nonneg by lia. rewrite Z.mul_0_r, !Z.add_0_r.
  rewrite (i32_id (hd - hd mod 8)), (i32_id v) by (unfold INT_MIN, INT_MAX; lia).
  rewrite (i32_id (hd - hd mod 8)) by (unfold INT_MIN, INT_MAX; lia).
  match goal with |- context [mbind _ ?c] =>
    assert (c = Some (t, hp)) as -> by (rewrite <- Ht; unfold cvt_timings; by destruct reduced)
  end.
  cbn [mbind option_bind]. destruct t as [c hd' hss hse ht sk vd vss vse vt vsc fl]. cbn in Hht |- *.
  unfold HV_FACTOR, CVT_CLOCK_STEP.
  assert (udiv (i32 (i32 (ht * 1000) * 1000)) hp = Some (ht * 1000000 / hp)) as ->.
  { unfold udiv. rewrite u32_i32, (i32_id (ht * 1000)), (u32_id hp), u32_id
      by (unfold INT_MIN, INT_MAX; lia).
    rewrite (proj2 (Z.eqb_neq hp 0)) by lia. do 2 f_equal. lia. }
  cbn [mbind option_bind].
  assert (0 <= ht * 1000000 / hp <= 10735000) as Hc.
  { split; [apply Z.div_pos; lia|]. apply Z.div_le_upper_bound; lia. }
  pose proof (Z.mod_pos_bound (ht * 1000000 / hp) 250 ltac:(lia)).
  rewrite (i32_id (ht * 1000000 / hp)), Z.rem_mod_nonneg, i32_id by (unfold INT_MIN, INT_MAX; lia).
  eexists. split; [done|]. split; [done|]. cbn. by destruct reduced.
Qed.

End Lemmas.

(** ** The generated modes *)

Section Generated.
Context `{DrmModeH}.

(** The estimated line period, in nanoseconds, for a blanking of at least
    [blank] nanoseconds. *)
Definition cvt_hperiod (reduced : bool) (v r : Z) : Z :=
  if reduced then rb_hperiod v r else full_hperiod v r.
Definition cvt_blank (reduced : bool) : Z := if reduced then 460000 else 550000.

(** The widths for which the clock computation does not overflow. *)
Definition cvt_in_range (reduced : bool) (hd vd r : Z) : Prop :=
  if reduced then 8 <= hd <= 4134 ∧ 1 <= vd <= 8192 ∧ 1 <= r <= 240
  else 320 <= hd <= 3000 ∧ 200 <= vd <= 4096 ∧ 50 <= r <= 200.

(** The horizontal and vertical intervals are ordered. *)
Definition timings_ordered (t : timings) : Prop :=
  0 <= hdisplay t <= hsync_start t ∧ hsync_start t < hsync_end t <= htotal t ∧
  0 <= vdisplay t <= vsync_start t ∧ vsync_start t < vsync_end t <= vtotal t.

Lemma blank_enough b hp x : 0 < hp → b / hp + 1 <= x → b < x * hp.
Proof. intros Hp Hx. pose proof (Z.mul_succ_div_gt b hp Hp). nia. Qed.


(** Beyond those widths the clock is computed modulo 2^32: for a 3840x2160 mode at 60 Hz the product that
    gives the pixel clock wraps, and the clock of the mode is far below the one
    its own total and line period call for. *)
Theorem cvt_clock_overflows : ∃ m,
  drm_cvt_mode (Some 1) 3840 2160 60 false false false = Some (Some m) ∧
  4294 < htotal (tm m) ∧ 3 * clock (tm m) < htotal (tm m) * 1000000 / full_hperiod 2160 60.
Proof. eexists. split; [vm_compute; reflexivity|]. split; vm_compute; reflexivity. Qed.

Lemma flag_bit b : 0 <= b → Z.shiftl 1 b = 2 ^ b.
Proof. intros. by rewrite Z.shiftl_1_l. Qed.

(** [land] with a flag is its bit. *)
Lemma land_flag z b : 0 <= b → Z.land z (Z.shiftl 1 b) = if Z.testbit z b then 2 ^ b else 0.
Proof.
  intros Hb. rewrite flag_bit by done. apply Z.bits_inj'. intros n Hn. rewrite Z.land_spec, Z.pow2_bits_eqb by done.
  destruct (Z.eqb_spec b n) as [<- | Hne].
  - destruct (Z.testbit z b); [by rewrite Z.pow2_bits_true|by rewrite Z.bits_0].
  - rewrite andb_false_r. destruct (Z.testbit z b); [by rewrite Z.pow2_bits_false by lia|by rewrite Z.bits_0].
Qed.

Lemma testbit_flag b c : 0 <= b → 0 <= c → Z.testbit (Z.shiftl 1 b) c = bool_decide (b = c).
Proof.
  intros Hb Hc. rewrite flag_bit by done. rewrite Z.pow2_bits_eqb by done.
  destruct (Z.eqb_spec b c); case_bool_decide; done.
Qed.

(** Two different flags of drm_mode.h have no bit in common. *)
Lemma flags_disjoint b c : 0 <= b → 0 <= c → b ≠ c → Z.land (Z.shiftl 1 b) (Z.shiftl 1 c) = 0.
Proof. intros Hb Hc Hne. rewrite land_flag, testbit_flag by done. by rewrite bool_decide_false. Qed.

Lemma sync_flags_no_interlace :
  Z.land (Z.lor DRM_MODE_FLAG_NHSYNC DRM_MODE_FLAG_PVSYNC) DRM_MODE_FLAG_INTERLACE = 0 ∧
  0 <= interlace_bit.
Proof.
  destruct flag_bits_ok as [Hnd Hb]. rewrite !Forall_cons in Hb. destruct Hb as (?&?&?&?&?&?&?&?&_).
  rewrite !NoDup_cons in Hnd. destruct Hnd as (_&Hn&Hp&_).
  split; [|lia]. rewrite Z.land_lor_distr_l. unfold DRM_MODE_FLAG_NHSYNC, DRM_MODE_FLAG_PVSYNC, DRM_MODE_FLAG_INTERLACE.
  rewrite !flags_disjoint; [done|lia..| |lia|lia|].
  - intros Heq. apply Hp. rewrite Heq. set_solver.
  - intros Heq. apply Hn. rewrite Heq. set_solver.
Qed.

(** An interlaced mode of drm_gtf_mode has a
    doubled (even) vertical total, but its interlace flag is gone: the sync
    polarities are assigned over it.  drm_cvt_mode keeps the flag. *)
Theorem gtf_interlace_flag_lost id hd vd vr rd mg m mc :
  drm_gtf_mode (Some id) hd vd vr true mg = Some (Some m) →
  drm_cvt_mode (Some id) hd vd vr rd true mg = Some (Some mc) →
  Z.even (vtotal (tm m)) = true ∧ z2b (Z.land (flags (tm m)) DRM_MODE_FLAG_INTERLACE) = false ∧
  Z.even (vtotal (tm mc)) = true ∧ z2b (Z.land (flags (tm mc)) DRM_MODE_FLAG_INTERLACE) = true.
Proof.
  destruct sync_flags_no_interlace as [Hno Hpos]. intros E Ec.
  assert (∀ z, Z.even (i32 (z * 2)) = true) as Heven.
  { intros z. unfold swrap. change (2 ^ (32 - 1)) with (1073741824 * 2). change (2 ^ 32) with (2147483648 * 2).
    rewrite <- Z.mul_add_distr_r, Z.mul_mod_distr_r by done. rewrite <- Z.mul_sub_distr_r.
    rewrite Z.even_mul. apply orb_true_r. }
  split_and!.
  1-2: unfold drm_gtf_mode, drm_gtf_mode_complex in E; cbv zeta in E;
    cbn [drm_mode_create fmap option_fmap option_map] in E;
    repeat (apply bind_Some in E as (? & _ & E)); apply (inj Some), (inj Some) in E; rewrite <- E;
    cbn [tm set_tm set_flags vtotal flags].
  - apply Heven.
  - change ((600 =? 600) && _ && _ && _) with true. cbv iota. by rewrite Hno.
  - unfold drm_cvt_mode in Ec. cbv zeta in Ec. cbn [drm_mode_create fmap option_fmap option_map] in Ec.
    apply bind_Some in Ec as ([[] ?] & _ & Ec). apply bind_Some in Ec as (? & _ & Ec).
    apply (inj Some), (inj Some) in Ec. rewrite <- Ec. cbn [tm set_tm set_flags vtotal]. apply Heven.
  - unfold drm_cvt_mode in Ec. cbv zeta in Ec. cbn [drm_mode_create fmap option_fmap option_map] in Ec.
    apply bind_Some in Ec as ([[] ?] & _ & Ec). apply bind_Some in Ec as (? & _ & Ec).
    apply (inj Some), (inj Some) in Ec. rewrite <- Ec. cbn [tm set_tm set_flags flags].
    assert (∀ x, z2b (Z.land (Z.lor DRM_MODE_FLAG_INTERLACE x) DRM_MODE_FLAG_INTERLACE) = true) as Hyes.
    { intros fx. unfold DRM_MODE_FLAG_INTERLACE. rewrite land_flag by done.
      rewrite Z.lor_spec, testbit_flag, bool_decide_true by done. cbn [orb]. unfold z2b.
      pose proof (Z.pow_pos_nonneg 2 interlace_bit ltac:(lia) Hpos). rewrite (proj2 (Z.eqb_neq _ 0)) by lia. done. }
    destruct rd; apply Hyes.
Qed.
End Generated.

(** ** Equality and the mode lists *)

Section Lists.
Context `{DrmModeH}.

(** What drm_mode_equal compares: the clock as a period (a zero clock stands for
    itself), and every other timing. *)
Definition mode_ident (m : drm_display_mode) : option Z * list Z :=
  let t := tm m in
  (if clock t =? 0 then None else Some (KHZ2PICOS (clock t)),
   [hdisplay t; hsync_start t; hsync_end t; htotal t; hskew t;
    vdisplay t; vsync_start t; vsync_end t; vtotal t; vscan t; flags t]).

Lemma equal_ident a b : drm_mode_equal a b = true ↔ mode_ident a = mode_ident b.
Proof.
  assert (drm_mode_equal_no_clocks a b = true ↔ (mode_ident a).2 = (mode_ident b).2) as Hshape.
  { unfold drm_mode_equal_no_clocks, mode_ident. rewrite !andb_true_iff, !Z.eqb_eq. cbn. split.
    - intros [[[[[[[[[[-> ->] ->] ->] ->] ->] ->] ->] ->] ->] ->]. done.
    - intros [=]. tauto. }
  unfold drm_mode_equal, z2b.
  assert (mode_ident a = mode_ident b ↔
    (mode_ident a).1 = (mode_ident b).1 ∧ (mode_ident a).2 = (mode_ident b).2) as ->.
  { destruct (mode_ident a), (mode_ident b). cbn. split; [by intros [=]|by intros [-> ->]]. }
  rewrite <- Hshape. cbn [mode_ident fst].
  destruct (Z.eqb_spec (clock (tm a)) 0) as [Ha | Ha], (Z.eqb_spec (clock (tm b)) 0) as [Hb | Hb];
    cbn [negb andb].
  - rewrite Ha, Hb. cbn. tauto.
  - rewrite Ha, (proj2 (Z.eqb_neq 0 _)) by congruence. cbn. split; [done|by intros [? _]].
  - rewrite Hb, (proj2 (Z.eqb_neq _ 0)) by done. cbn. split; [done|by intros [? _]].
  - destruct (Z.eqb_spec (KHZ2PICOS (clock (tm a))) (KHZ2PICOS (clock (tm b)))) as [-> | Hk]; cbn [negb].
    + tauto.
    + split; [done|]. intros [[=] _]. done.
Qed.

(** [m'] is the mode [m] with more type bits and, perhaps, a new status. *)
Definition updates_mode (m m' : drm_display_mode) : Prop :=
  tm m' = tm m ∧ base_id m' = base_id m ∧ mode_name m' = mode_name m ∧
  Z.land (mode_type m') (mode_type m) = mode_type m.

Lemma updates_mode_refl m : updates_mode m m.
Proof. split_and!; try done. apply Z.land_diag. Qed.

Lemma updates_mode_trans m m' m'' : updates_mode m m' → updates_mode m' m'' → updates_mode m m''.
Proof.
  intros (Ht & Hb & Hn & Hl) (Ht' & Hb' & Hn' & Hl'). split_and!; try congruence.
  rewrite <- Hl at 1. rewrite Z.land_assoc, Hl', Hl. done.
Qed.

Lemma updates_mode_ident m m' : updates_mode m m' → mode_ident m' = mode_ident m.
Proof. intros (Ht & _). unfold mode_ident. by rewrite Ht. Qed.

Definition merged (pmode mode : drm_display_mode) : drm_display_mode :=
  set_type (Z.lor (mode_type mode) (mode_type pmode)) (set_status (status pmode) mode).

Lemma merged_updates pm m : updates_mode m (merged pm m).
Proof.
  split_and!; try done. cbn. apply Z.bits_inj'. intros n _.
  rewrite Z.land_spec, Z.lor_spec. by destruct (Z.testbit (mode_type m) n), (Z.testbit (mode_type pm) n).
Qed.

Lemma merge_probed_spec pm ms :
  match merge_probed pm ms with
  | Some ms' => ∃ l1 m l2, ms = l1 ++ m :: l2 ∧ ms' = l1 ++ merged pm m :: l2 ∧
      mode_ident m = mode_ident pm
  | None => mode_ident pm ∉ mode_ident <$> ms
  end.
Proof.
  induction ms as [|m ms IH]; cbn; [set_solver|].
  destruct (drm_mode_equal pm m) eqn:Heq.
  - apply equal_ident in Heq. by exists [], m, ms.
  - assert (mode_ident pm ≠ mode_ident m) as Hne by (intros He%equal_ident; congruence).
    destruct (merge_probed pm ms) as [ms'|]; cbn.
    + destruct IH as (l1 & m1 & l2 & -> & -> & Hid). by exists (m :: l1), m1, l2.
    + rewrite not_elem_of_cons. done.
Qed.

(** One probed mode: the existing modes are updated in place, at most one mode is
    added at the end, and the probed mode is there. *)
Lemma merge_step pm ms : ∃ ms1 new, default (ms ++ [pm]) (merge_probed pm ms) = ms1 ++ new ∧
  Forall2 updates_mode ms ms1 ∧ (new = [] ∧ mode_ident pm ∈ mode_ident <$> ms ∨
    new = [pm] ∧ mode_ident pm ∉ mode_ident <$> ms) ∧
  (∀ m, m ∈ ms → mode_ident m ≠ mode_ident pm → m ∈ ms1) ∧
  ∃ m, m ∈ ms1 ++ new ∧ mode_ident m = mode_ident pm ∧ status m = status pm ∧
    Z.land (mode_type m) (mode_type pm) = mode_type pm.
Proof.
  pose proof (merge_probed_spec pm ms) as Hs. destruct (merge_probed pm ms) as [ms'|]; cbn.
  - destruct Hs as (l1 & m & l2 & -> & -> & Hid). exists (l1 ++ merged pm m :: l2), [].
    rewrite app_nil_r. split; [done|]. split; [|split; [|split]].
    + apply Forall2_app; [|constructor; [apply merged_updates|]];
        apply Forall_Forall2_diag, Forall_forall; intros x _; apply updates_mode_refl.
    + left. split; [done|]. rewrite <- Hid. apply list_elem_of_fmap_2. set_solver.
    + intros x Hx Hne. rewrite elem_of_app, elem_of_cons in *. destruct Hx as [Hx | [-> | Hx]]; tauto.
    + exists (merged pm m). split; [set_solver|]. split; [done|]. split; [done|]. cbn.
      apply Z.bits_inj'. intros n _. rewrite Z.land_spec, Z.lor_spec.
      by destruct (Z.testbit (mode_type m) n), (Z.testbit (mode_type pm) n).
  - exists ms, [pm]. split; [done|]. split; [|split; [|split]].
    + apply Forall_Forall2_diag, Forall_forall. intros x _. apply updates_mode_refl.
    + by right.
    + done.
    + exists pm. split; [set_solver|]. split_and!; try done. apply Z.land_diag.
Qed.

Lemma updates_idents ms ms1 : Forall2 updates_mode ms ms1 → mode_ident <$> ms1 = mode_ident <$> ms.
Proof.
  induction 1 as [|m m' ms ms1 Hu _ IH]; [done|]. rewrite !fmap_cons. f_equal; [by apply updates_mode_ident|done].
Qed.

Lemma updates_trans ms ms1 ms2 :
  Forall2 updates_mode ms ms1 → Forall2 updates_mode ms1 ms2 → Forall2 updates_mode ms ms2.
Proof.
  intros H1. revert ms2. induction H1 as [|m m1 ms ms1 Hm _ IH]; intros k H2; inversion H2; subst;
    constructor; [by eapply updates_mode_trans|by apply IH].
Qed.

Lemma update_keeps probed ms : let ms' := drm_mode_connector_list_update probed ms in
  Forall2 updates_mode ms (take (length ms) ms') ∧
  (∀ m, m ∈ ms → mode_ident m ∉ mode_ident <$> probed → m ∈ ms') ∧
  (∀ m, m ∈ ms' → mode_ident m ∈ mode_ident <$> (ms ++ probed)) ∧
  (NoDup (mode_ident <$> ms) → NoDup (mode_ident <$> ms')).
Proof.
  cbv zeta. revert ms. induction probed as [|pm probed IH]; intros ms; cbn [drm_mode_connector_list_update].
  - rewrite app_nil_r, firstn_all. split_and!; try done.
    + apply Forall_Forall2_diag, Forall_forall. intros x _. apply updates_mode_refl.
    + intros m. apply list_elem_of_fmap_2.
  - destruct (merge_step pm ms) as (ms1 & new & Heq & Hup & Hnew & Hkeep & _). rewrite Heq.
    destruct (IH (ms1 ++ new)) as (Hf & Hk & Hin & Hnd). clear IH.
    pose proof (updates_idents _ _ Hup) as Hid. pose proof (Forall2_length _ _ _ Hup) as Hlen.
    split_and!.
    + apply (Forall2_take _ _ _ (length ms1)) in Hf. rewrite take_app_length, take_take, length_app in Hf.
      rewrite Nat.min_l in Hf by lia. rewrite Hlen.
      by eapply updates_trans.
    + intros m Hm Hn. rewrite fmap_cons, not_elem_of_cons in Hn. destruct Hn as [Hne Hn].
      apply Hk; [|done]. apply elem_of_app. left. by apply Hkeep.
    + intros m Hm. apply Hin in Hm. rewrite !fmap_app, fmap_cons, Hid in *.
      rewrite !elem_of_app, elem_of_cons in *.
      destruct Hnew as [[-> _] | [-> _]]; cbn [fmap list_fmap] in Hm;
        rewrite ?elem_of_cons, ?elem_of_nil in Hm; tauto.
    + intros Hms. apply Hnd. rewrite fmap_app, Hid. destruct Hnew as [[-> _] | [-> Hnot]].
      * by rewrite app_nil_r.
      * apply NoDup_app. split; [done|]. split; [|apply NoDup_singleton].
        intros x Hx Hin1%list_elem_of_singleton. by subst x.
Qed.

Lemma update_probed p1 pm p2 ms : mode_ident pm ∉ mode_ident <$> p2 →
  ∃ m, m ∈ drm_mode_connector_list_update (p1 ++ pm :: p2) ms ∧ mode_ident m = mode_ident pm ∧
    status m = status pm ∧ Z.land (mode_type m) (mode_type pm) = mode_type pm.
Proof.
  intros Hn. revert ms. induction p1 as [|p p1 IH]; intros ms; cbn [app drm_mode_connector_list_update].
  - destruct (merge_step pm ms) as (ms1 & new & -> & _ & _ & _ & m & Hm & Hid & Hst & Hty).
    exists m. split; [|done]. apply update_keeps; [done|]. by rewrite Hid.
  - apply IH.
Qed.

(** After drm_mode_connector_list_update
    every existing mode is still there, in its place, with its timings, name
    and object id and at least its type bits; a mode that was not probed again is
    unchanged, status included; the last probed mode of each kind gave its
    status and its type bits to the mode that stands for it; every mode stands
    for an existing or a probed one; and modes that were pairwise different in
    the sense of drm_mode_equal still are. *)
Theorem connector_list_update_correct probed modes :
  let modes' := drm_mode_connector_list_update probed modes in
  Forall2 updates_mode modes (take (length modes) modes') ∧
  (∀ m, m ∈ modes → (∀ p, p ∈ probed → drm_mode_equal p m = false) → m ∈ modes') ∧
  (∀ m, m ∈ modes' → ∃ p, p ∈ modes ++ probed ∧ drm_mode_equal p m = true) ∧
  (∀ p1 pm p2, probed = p1 ++ pm :: p2 → (∀ p, p ∈ p2 → drm_mode_equal p pm = false) →
    ∃ m, m ∈ modes' ∧ drm_mode_equal pm m = true ∧ status m = status pm ∧
      Z.land (mode_type m) (mode_type pm) = mode_type pm) ∧
  (NoDup (mode_ident <$> modes) → NoDup (mode_ident <$> modes')).
Proof.
  cbv zeta. destruct (update_keeps probed modes) as (Hf & Hk & Hin & Hnd).
  assert (∀ (ps : list drm_display_mode) q, (∀ p, p ∈ ps → drm_mode_equal p q = false) → mode_ident q ∉ mode_ident <$> ps) as Hnot.
  { intros ps q Hall (p & Heq & Hp)%list_elem_of_fmap. specialize (Hall p Hp).
    symmetry in Heq. apply equal_ident in Heq. congruence. }
  split_and!; [done| | | |done].
  - intros m Hm Hall. apply Hk; [done|by apply Hnot].
  - intros m (p & Heq & Hp)%Hin%list_elem_of_fmap. exists p. split; [done|]. by apply equal_ident.
  - intros p1 pm p2 -> Hall%Hnot. destruct (update_probed p1 pm p2 modes Hall) as (m & Hm & Hid & ?).
    exists m. split; [done|]. split; [by apply equal_ident|done].
Qed.

(** Drm_mode_equal is an equivalence, although it
    compares clocks only through their period unless one of them is zero; modes
    it identifies have the same sizes, syncs and flags, so drm_mode_copy and
    drm_mode_duplicate produce equal modes that keep their own object id. *)
Theorem mode_equal_equivalence :
  Equivalence (λ a b, drm_mode_equal a b = true) ∧
  (∀ dst src, drm_mode_equal (drm_mode_copy dst src) src = true ∧
     base_id (drm_mode_copy dst src) = base_id dst) ∧
  (∀ id src, ∃ m, drm_mode_duplicate (Some id) src = Some m ∧ base_id m = id ∧
     drm_mode_equal m src = true ∧ drm_mode_equal_no_clocks m src = true) ∧
  (∀ a b, drm_mode_equal a b = true → drm_mode_equal_no_clocks a b = true).
Proof.
  assert (∀ a b, drm_mode_equal a b = true → drm_mode_equal_no_clocks a b = true) as Hnc.
  { intros a b. unfold drm_mode_equal. destruct (z2b _ && z2b _).
    - by destruct (negb (KHZ2PICOS _ =? _)).
    - by destruct (negb (clock (tm a) =? _)). }
  split_and!; [split| | |done].
  - intros a. by apply equal_ident.
  - intros a b Hab. apply equal_ident. symmetry. by apply equal_ident.
  - intros a b c Hab Hbc. apply equal_ident. apply equal_ident in Hab, Hbc. congruence.
  - intros d s. split; [by apply equal_ident|done].
  - intros id s. unfold drm_mode_duplicate. cbn. eexists. split; [done|]. split; [done|].
    assert (drm_mode_equal (drm_mode_copy (mk_mode id "" 0 0 zero_timings 0 0 zero_crtc 0 0) s) s = true) as He
      by by apply equal_ident.
    split; [exact He|by apply Hnc].
Qed.

(** ** The timings of the hardware *)

(** The values drm_mode_set_crtcinfo scales fit in an [int]. *)
Definition crtc_small (t : timings) : Prop := vtotal t * 2 * Z.max 1 (vscan t) <= INT_MAX.

(** For a mode with ordered timings drm_mode_set_crtcinfo
    (of any flags) leaves the mode's own fields alone and makes the blanking
    interval of the hardware timings run exactly from the displayed part to the
    total, with the sync pulse inside it; the scaling by interlace, double scan
    and vscan keeps the order. *)
Theorem crtcinfo_blanking p adj : timings_ordered (tm p) → crtc_small (tm p) →
  Z.land (mode_type p) DRM_MODE_TYPE_CRTC_C ≠ DRM_MODE_TYPE_BUILTIN →
  ∃ p', drm_mode_set_crtcinfo (Some p) adj = Some p' ∧ tm p' = tm p ∧ base_id p' = base_id p ∧
    let c := crtc p' in
    crtc_hblank_start c = crtc_hdisplay c ∧ crtc_hblank_end c = crtc_htotal c ∧
    crtc_vblank_start c = crtc_vdisplay c ∧ crtc_vblank_end c = crtc_vtotal c ∧
    crtc_hblank_start c <= crtc_hsync_start c < crtc_hsync_end c ∧
    crtc_hsync_end c <= crtc_hblank_end c ∧
    crtc_vblank_start c <= crtc_vsync_start c <= crtc_vsync_end c ∧
    crtc_vsync_end c <= crtc_vblank_end c.
Proof.
  intros (Hh1 & Hh2 & Hv1 & Hv2) Hs Hty. unfold drm_mode_set_crtcinfo.
  rewrite (proj2 (Z.eqb_neq _ _)) by done. cbv zeta.
  set (halve := _ && _). set (dbl := z2b (Z.land _ DRM_MODE_FLAG_DBLSCAN)). clearbody halve dbl.
  unfold crtc_small, INT_MAX in Hs.
  set (v1 := if halve then _ else _).
  assert (∃ a b c d, v1 = (a, b, c, d) ∧ 0 <= a <= b ∧ b <= c <= d ∧ d <= vtotal (tm p)) as (a1 & b1 & c1 & d1 & -> & H1).
  { unfold v1. destruct halve; cbn [map_v]; do 4 eexists; (split; [done|]); [|lia].
    rewrite !Z.quot_div_nonneg by lia.
    repeat split; (apply Z.div_pos; lia) || (apply Z.div_le_mono; lia) || idtac.
    apply Z.div_le_upper_bound; lia. }
  set (v2 := if dbl then _ else _).
  assert (∃ a b c d, v2 = (a, b, c, d) ∧ 0 <= a <= b ∧ b <= c <= d ∧ d <= vtotal (tm p) * 2) as (a2 & b2 & c2 & d2 & -> & H2).
  { unfold v2. destruct dbl; cbn [map_v]; do 4 eexists; (split; [done|]); [|lia].
    rewrite !i32_id by (unfold INT_MIN, INT_MAX; nia). lia. }
  set (v3 := if 1 <? _ then _ else _).
  assert (∃ a b c d, v3 = (a, b, c, d) ∧ 0 <= a <= b ∧ b <= c <= d) as (a3 & b3 & c3 & d3 & -> & H3).
  { unfold v3. destruct (Z.ltb_spec 1 (vscan (tm p))); cbn [map_v]; do 4 eexists; (split; [done|]); [|lia].
    rewrite !i32_id by (unfold INT_MIN, INT_MAX; nia). nia. }
  eexists. split; [done|]. split; [done|]. split; [done|]. cbn.
  rewrite !cmin_min, !cmax_max. lia.
Qed.

End Lists.

(** ** Witnesses *)

Section Witness.

(** The values of drm_mode.h in the DRM interface. *)
Definition interface_modes : DrmModeH.
Proof.
  refine {| phsync_bit := 0; nhsync_bit := 1; pvsync_bit := 2; nvsync_bit := 3; interlace_bit := 4;
            dblscan_bit := 5; dblclk_bit := 12; preferred_bit := 3; DRM_MODE_TYPE_BUILTIN := 1;
            DRM_MODE_TYPE_CRTC_C := 5; DRM_MODE_TYPE_DRIVER := 64; DRM_DISPLAY_MODE_LEN := 32%nat |}.
  split; [|repeat constructor; lia].
  repeat (apply NoDup_cons; split; [rewrite ?not_elem_of_cons; repeat split; try lia; apply not_elem_of_nil|]).
  apply NoDup_nil_2.
Defined.
#[local] Existing Instance interface_modes.


(** The standard 1024x768 timings at 60 Hz, from the full formula. *)
Example cvt_1024x768 :
  (m ← drm_cvt_mode (Some 7) 1024 768 60 false false false; m ← m; Some (mode_name m, tm m)) =
  Some ("1024x768"%string, mk_timings 63500 1024 1072 1176 1328 0 768 771 775 798 0 6).
Proof. vm_compute. reflexivity. Qed.

Lemma gtf_interlace_flag_lost_witness : ∃ m mc,
  Z.even (vtotal (tm m)) = true ∧ z2b (Z.land (flags (tm m)) DRM_MODE_FLAG_INTERLACE) = false ∧
  Z.even (vtotal (tm mc)) = true ∧ z2b (Z.land (flags (tm mc)) DRM_MODE_FLAG_INTERLACE) = true.
Proof.
  eexists _, _. apply (gtf_interlace_flag_lost 7 1920 1080 60 false false);
    vm_compute; reflexivity.
Defined.

(** Three modes: 640x480, 1024x768 and a preferred 800x600. *)
Definition demo_mode (w v r c ty : Z) : drm_display_mode :=
  mk_mode 0 "" 0 ty (mk_timings c w (w + 8) (w + 16) (w + 32) 0 v (v + 3) (v + 6) (v + 20) 0 0)
    0 0 zero_crtc r 0.
Definition demo_modes : gmap positive drm_display_mode :=
  list_to_map [(1%positive, demo_mode 640 480 60 25000 0); (2%positive, demo_mode 1024 768 60 63500 0);
               (3%positive, demo_mode 800 600 75 49500 8)].
Definition demo_heap : gmap mode_addr (list_head mode_addr positive) :=
  let l : list_head mode_addr positive := mk_list_head None None None in
  default ∅ (h ← INIT_LIST_HEAD ModeHead (<[ModeHead := l]> (<[ModeLink 1 := l]> (<[ModeLink 2 := l]>
      {[ModeLink 3 := l]})));
    h ← list_add_tail (ModeLink 1) ModeHead 1%positive h;
    h ← list_add_tail (ModeLink 2) ModeHead 2%positive h;
    list_add_tail (ModeLink 3) ModeHead 3%positive h).

Lemma demo_mode_list : mode_list demo_modes demo_heap [1%positive; 2%positive; 3%positive].
Proof.
  split.
  - split; [split|split].
    + apply (bool_decide_unpack _). vm_compute. exact I.
    + repeat (split; [split; vm_compute; reflexivity|]). split; vm_compute; reflexivity.
    + repeat (constructor; [vm_compute; reflexivity|]). constructor.
    + vm_compute. reflexivity.
  - intros p Hp. apply (bool_decide_unpack _). revert p Hp. rewrite <- Forall_forall.
    repeat constructor.
Qed.

Lemma demo_modes_small p m : demo_modes !! p = Some m → mode_small m.
Proof.
  unfold demo_modes. intros Hp%elem_of_list_to_map_2.
  rewrite !elem_of_cons, elem_of_nil in Hp. unfold mode_small, INT_MAX.
  destruct Hp as [[= _ ->] | [[= _ ->] | [[= _ ->] | []]]]; cbn; lia.
Qed.

Lemma mode_sort_correct_witness : ∃ h' ps',
  drm_mode_sort demo_modes demo_heap = Some h' ∧ mode_list demo_modes h' ps' ∧
  ps' ≡ₚ [1%positive; 2%positive; 3%positive] ∧
  StronglySorted (favours demo_modes) ps' ∧ same_dom demo_heap h'.
Proof. apply mode_sort_correct; [apply demo_mode_list|apply demo_modes_small]. Defined.

(** The preferred mode comes first, then the larger one. *)
Example demo_sort_order :
  (λ h, (h !! ModeHead ≫= lh_next, h !! ModeLink 3 ≫= lh_next, h !! ModeLink 2 ≫= lh_next))
    <$> drm_mode_sort demo_modes demo_heap =
  Some (Some (ModeLink 3), Some (ModeLink 2), Some (ModeLink 1)).
Proof. vm_compute. reflexivity. Qed.

Lemma crtcinfo_blanking_witness : ∃ p',
  drm_mode_set_crtcinfo (Some (demo_mode 640 480 60 25000 0)) 1 = Some p' ∧
  tm p' = tm (demo_mode 640 480 60 25000 0) ∧ base_id p' = base_id (demo_mode 640 480 60 25000 0) ∧
  let c := crtc p' in
  crtc_hblank_start c = crtc_hdisplay c ∧ crtc_hblank_end c = crtc_htotal c ∧
  crtc_vblank_start c = crtc_vdisplay c ∧ crtc_vblank_end c = crtc_vtotal c ∧
  crtc_hblank_start c <= crtc_hsync_start c < crtc_hsync_end c ∧
  crtc_hsync_end c <= crtc_hblank_end c ∧
  crtc_vblank_start c <= crtc_vsync_start c <= crtc_vsync_end c ∧
  crtc_vsync_end c <= crtc_vblank_end c.
Proof.
  apply (crtcinfo_blanking (demo_mode 640 480 60 25000 0) 1).
  - unfold timings_ordered. cbn. lia.
  - unfold crtc_small, INT_MAX. cbn. lia.
  - vm_compute. discriminate.
Defined.

End Witness.
