(* ===== verification/EdidTables.v ===== *)
(** * drm_edid.c: the tables of standard modes

    The DMT, established and CEA-861 modes, entry by entry, and the short tables
    that name modes by size and rate.  The theorems check every entry. *)

From stdpp Require Import base option list strings.
From Stdlib Require Import ZArith Lia.
From S2P Require Import Prelude LinuxList Modes.

Section Tables.
Context `{DrmModeH}.

(** The initialiser macro of drm_crtc.h. *)
Definition DRM_MODE (nm : string) (t c hd hss hse ht hsk vd vss vse vt vs f : Z) : drm_display_mode :=
  mk_mode 0 nm 0 t (mk_timings c hd hss hse ht hsk vd vss vse vt vs f) 0 0 zero_crtc 0 0.

(** [.vrefresh = r]. *)
Definition at_rate (r : Z) (m : drm_display_mode) : drm_display_mode :=
  mk_mode (base_id m) (mode_name m) (status m) (mode_type m) (tm m) (width_mm m) (height_mm m)
    (crtc m) r (hsync m).

Definition drm_dmt_modes : list drm_display_mode := [
    DRM_MODE "640x350" DRM_MODE_TYPE_DRIVER 31500 640 672 736 832 0 350 382 385 445 0
      (Z.lor DRM_MODE_FLAG_PHSYNC DRM_MODE_FLAG_NVSYNC);
    DRM_MODE "640x400" DRM_MODE_TYPE_DRIVER 31500 640 672 736 832 0 400 401 404 445 0
      (Z.lor DRM_MODE_FLAG_NHSYNC DRM_MODE_FLAG_PVSYNC);
    DRM_MODE "720x400" DRM_MODE_TYPE_DRIVER 35500 720 756 828 936 0 400 401 404 446 0
      (Z.lor DRM_MODE_FLAG_NHSYNC DRM_MODE_FLAG_PVSYNC);
    DRM_MODE "640x480" DRM_MODE_TYPE_DRIVER 25175 640 656 752 800 0 480 489 492 525 0
      (Z.lor DRM_MODE_FLAG_NHSYNC DRM_MODE_FLAG_NVSYNC);
    DRM_MODE "640x480" DRM_MODE_TYPE_DRIVER 31500 640 664 704 832 0 480 489 492 520 0
      (Z.lor DRM_MODE_FLAG_NHSYNC DRM_MODE_FLAG_NVSYNC);
    DRM_MODE "640x480" DRM_MODE_TYPE_DRIVER 31500 640 656 720 840 0 480 481 484 500 0
      (Z.lor DRM_MODE_FLAG_NHSYNC DRM_MODE_FLAG_NVSYNC);
    DRM_MODE "640x480" DRM_MODE_TYPE_DRIVER 36000 640 696 752 832 0 480 481 484 509 0
      (Z.lor DRM_MODE_FLAG_NHSYNC DRM_MODE_FLAG_NVSYNC);
    DRM_MODE "800x600" DRM_MODE_TYPE_DRIVER 36000 800 824 896 1024 0 600 601 603 625 0
      (Z.lor DRM_MODE_FLAG_PHSYNC DRM_MODE_FLAG_PVSYNC);
    DRM_MODE "800x600" DRM_MODE_TYPE_DRIVER 40000 800 840 968 1056 0 600 601 605 628 0
      (Z.lor DRM_MODE_FLAG_PHSYNC DRM_MODE_FLAG_PVSYNC);
    DRM_MODE "800x600" DRM_MODE_TYPE_DRIVER 50000 800 856 976 1040 0 600 637 643 666 0
      (Z.lor DRM_MODE_FLAG_PHSYNC DRM_MODE_FLAG_PVSYNC);
    DRM_MODE "800x600" DRM_MODE_TYPE_DRIVER 49500 800 816 896 1056 0 600 601 604 625 0
      (Z.lor DRM_MODE_FLAG_PHSYNC DRM_MODE_FLAG_PVSYNC);
    DRM_MODE "800x600" DRM_MODE_TYPE_DRIVER 56250 800 832 896 1048 0 600 601 604 631 0
      (Z.lor DRM_MODE_FLAG_PHSYNC DRM_MODE_FLAG_PVSYNC);
    DRM_MODE "800x600" DRM_MODE_TYPE_DRIVER 73250 800 848 880 960 0 600 603 607 636 0
      (Z.lor DRM_MODE_FLAG_PHSYNC DRM_MODE_FLAG_NVSYNC);
    DRM_MODE "848x480" DRM_MODE_TYPE_DRIVER 33750 848 864 976 1088 0 480 486 494 517 0
      (Z.lor DRM_MODE_FLAG_PHSYNC DRM_MODE_FLAG_PVSYNC);
    DRM_MODE "1024x768i" DRM_MODE_TYPE_DRIVER 44900 1024 1032 1208 1264 0 768 768 772 817 0
      (Z.lor (Z.lor DRM_MODE_FLAG_PHSYNC DRM_MODE_FLAG_PVSYNC) DRM_MODE_FLAG_INTERLACE);
    DRM_MODE "1024x768" DRM_MODE_TYPE_DRIVER 65000 1024 1048 1184 1344 0 768 771 777 806 0
      (Z.lor DRM_MODE_FLAG_NHSYNC DRM_MODE_FLAG_NVSYNC);
    DRM_MODE "1024x768" DRM_MODE_TYPE_DRIVER 75000 1024 1048 1184 1328 0 768 771 777 806 0
      (Z.lor DRM_MODE_FLAG_NHSYNC DRM_MODE_FLAG_NVSYNC);
    DRM_MODE "1024x768" DRM_MODE_TYPE_DRIVER 78750 1024 1040 1136 1312 0 768 769 772 800 0
      (Z.lor DRM_MODE_FLAG_PHSYNC DRM_MODE_FLAG_PVSYNC);
    DRM_MODE "1024x768" DRM_MODE_TYPE_DRIVER 94500 1024 1072 1168 1376 0 768 769 772 808 0
      (Z.lor DRM_MODE_FLAG_PHSYNC DRM_MODE_FLAG_PVSYNC);
    DRM_MODE "1024x768" DRM_MODE_TYPE_DRIVER 115500 1024 1072 1104 1184 0 768 771 775 813 0
      (Z.lor DRM_MODE_FLAG_PHSYNC DRM_MODE_FLAG_NVSYNC);
    DRM_MODE "1152x864" DRM_MODE_TYPE_DRIVER 108000 1152 1216 1344 1600 0 864 865 868 900 0
      (Z.lor DRM_MODE_FLAG_PHSYNC DRM_MODE_FLAG_PVSYNC);
    DRM_MODE "1280x768" DRM_MODE_TYPE_DRIVER 68250 1280 1328 1360 1440 0 768 771 778 790 0
      (Z.lor DRM_MODE_FLAG_PHSYNC DRM_MODE_FLAG_NVSYNC);
    DRM_MODE "1280x768" DRM_MODE_TYPE_DRIVER 79500 1280 1344 1472 1664 0 768 771 778 798 0
      (Z.lor DRM_MODE_FLAG_NHSYNC DRM_MODE_FLAG_PVSYNC);
    DRM_MODE "1280x768" DRM_MODE_TYPE_DRIVER 102250 1280 1360 1488 1696 0 768 771 778 805 0
      (Z.lor DRM_MODE_FLAG_PHSYNC DRM_MODE_FLAG_NVSYNC);
    DRM_MODE "1280x768" DRM_MODE_TYPE_DRIVER 117500 1280 1360 1496 1712 0 768 771 778 809 0
      (Z.lor DRM_MODE_FLAG_NHSYNC DRM_MODE_FLAG_PVSYNC);
    DRM_MODE "1280x768" DRM_MODE_TYPE_DRIVER 140250 1280 1328 1360 1440 0 768 771 778 813 0
      (Z.lor DRM_MODE_FLAG_PHSYNC DRM_MODE_FLAG_NVSYNC);
    DRM_MODE "1280x800" DRM_MODE_TYPE_DRIVER 71000 1280 1328 1360 1440 0 800 803 809 823 0
      (Z.lor DRM_MODE_FLAG_PHSYNC DRM_MODE_FLAG_NVSYNC);
    DRM_MODE "1280x800" DRM_MODE_TYPE_DRIVER 83500 1280 1352 1480 1680 0 800 803 809 831 0
      (Z.lor DRM_MODE_FLAG_PHSYNC DRM_MODE_FLAG_NVSYNC);
    DRM_MODE "1280x800" DRM_MODE_TYPE_DRIVER 106500 1280 1360 1488 1696 0 800 803 809 838 0
      (Z.lor DRM_MODE_FLAG_NHSYNC DRM_MODE_FLAG_PVSYNC);
    DRM_MODE "1280x800" DRM_MODE_TYPE_DRIVER 122500 1280 1360 1496 1712 0 800 803 809 843 0
      (Z.lor DRM_MODE_FLAG_NHSYNC DRM_MODE_FLAG_PVSYNC);
    DRM_MODE "1280x800" DRM_MODE_TYPE_DRIVER 146250 1280 1328 1360 1440 0 800 803 809 847 0
      (Z.lor DRM_MODE_FLAG_PHSYNC DRM_MODE_FLAG_NVSYNC);
    DRM_MODE "1280x960" DRM_MODE_TYPE_DRIVER 108000 1280 1376 1488 1800 0 960 961 964 1000 0
      (Z.lor DRM_MODE_FLAG_PHSYNC DRM_MODE_FLAG_PVSYNC);
    DRM_MODE "1280x960" DRM_MODE_TYPE_DRIVER 148500 1280 1344 1504 1728 0 960 961 964 1011 0
      (Z.lor DRM_MODE_FLAG_PHSYNC DRM_MODE_FLAG_PVSYNC);
    DRM_MODE "1280x960" DRM_MODE_TYPE_DRIVER 175500 1280 1328 1360 1440 0 960 963 967 1017 0
      (Z.lor DRM_MODE_FLAG_PHSYNC DRM_MODE_FLAG_NVSYNC);
    DRM_MODE "1280x1024" DRM_MODE_TYPE_DRIVER 108000 1280 1328 1440 1688 0 1024 1025 1028 1066 0
      (Z.lor DRM_MODE_FLAG_PHSYNC DRM_MODE_FLAG_PVSYNC);
    DRM_MODE "1280x1024" DRM_MODE_TYPE_DRIVER 135000 1280 1296 1440 1688 0 1024 1025 1028 1066 0
      (Z.lor DRM_MODE_FLAG_PHSYNC DRM_MODE_FLAG_PVSYNC);
    DRM_MODE "1280x1024" DRM_MODE_TYPE_DRIVER 157500 1280 1344 1504 1728 0 1024 1025 1028 1072 0
      (Z.lor DRM_MODE_FLAG_PHSYNC DRM_MODE_FLAG_PVSYNC);
    DRM_MODE "1280x1024" DRM_MODE_TYPE_DRIVER 187250 1280 1328 1360 1440 0 1024 1027 1034 1084 0
      (Z.lor DRM_MODE_FLAG_PHSYNC DRM_MODE_FLAG_NVSYNC);
    DRM_MODE "1360x768" DRM_MODE_TYPE_DRIVER 85500 1360 1424 1536 1792 0 768 771 777 795 0
      (Z.lor DRM_MODE_FLAG_PHSYNC DRM_MODE_FLAG_PVSYNC);
    DRM_MODE "1360x768" DRM_MODE_TYPE_DRIVER 148250 1360 1408 1440 1520 0 768 771 776 813 0
      (Z.lor DRM_MODE_FLAG_PHSYNC DRM_MODE_FLAG_NVSYNC);
    DRM_MODE "1400x1050" DRM_MODE_TYPE_DRIVER 101000 1400 1448 1480 1560 0 1050 1053 1057 1080 0
      (Z.lor DRM_MODE_FLAG_PHSYNC DRM_MODE_FLAG_NVSYNC);
    DRM_MODE "1400x1050" DRM_MODE_TYPE_DRIVER 121750 1400 1488 1632 1864 0 1050 1053 1057 1089 0
      (Z.lor DRM_MODE_FLAG_NHSYNC DRM_MODE_FLAG_PVSYNC);
    DRM_MODE "1400x1050" DRM_MODE_TYPE_DRIVER 156000 1400 1504 1648 1896 0 1050 1053 1057 1099 0
      (Z.lor DRM_MODE_FLAG_NHSYNC DRM_MODE_FLAG_PVSYNC);
    DRM_MODE "1400x1050" DRM_MODE_TYPE_DRIVER 179500 1400 1504 1656 1912 0 1050 1053 1057 1105 0
      (Z.lor DRM_MODE_FLAG_NHSYNC DRM_MODE_FLAG_PVSYNC);
    DRM_MODE "1400x1050" DRM_MODE_TYPE_DRIVER 208000 1400 1448 1480 1560 0 1050 1053 1057 1112 0
      (Z.lor DRM_MODE_FLAG_PHSYNC DRM_MODE_FLAG_NVSYNC);
    DRM_MODE "1440x900" DRM_MODE_TYPE_DRIVER 88750 1440 1488 1520 1600 0 900 903 909 926 0
      (Z.lor DRM_MODE_FLAG_PHSYNC DRM_MODE_FLAG_NVSYNC);
    DRM_MODE "1440x900" DRM_MODE_TYPE_DRIVER 106500 1440 1520 1672 1904 0 900 903 909 934 0
      (Z.lor DRM_MODE_FLAG_NHSYNC DRM_MODE_FLAG_PVSYNC);
    DRM_MODE "1440x900" DRM_MODE_TYPE_DRIVER 136750 1440 1536 1688 1936 0 900 903 909 942 0
      (Z.lor DRM_MODE_FLAG_NHSYNC DRM_MODE_FLAG_PVSYNC);
    DRM_MODE "1440x900" DRM_MODE_TYPE_DRIVER 157000 1440 1544 1696 1952 0 900 903 909 948 0
      (Z.lor DRM_MODE_FLAG_NHSYNC DRM_MODE_FLAG_PVSYNC);
    DRM_MODE "1440x900" DRM_MODE_TYPE_DRIVER 182750 1440 1488 1520 1600 0 900 903 909 953 0
      (Z.lor DRM_MODE_FLAG_PHSYNC DRM_MODE_FLAG_NVSYNC);
    DRM_MODE "1600x1200" DRM_MODE_TYPE_DRIVER 162000 1600 1664 1856 2160 0 1200 1201 1204 1250 0
      (Z.lor DRM_MODE_FLAG_PHSYNC DRM_MODE_FLAG_PVSYNC);
    DRM_MODE "1600x1200" DRM_MODE_TYPE_DRIVER 175500 1600 1664 1856 2160 0 1200 1201 1204 1250 0
      (Z.lor DRM_MODE_FLAG_PHSYNC DRM_MODE_FLAG_PVSYNC);
    DRM_MODE "1600x1200" DRM_MODE_TYPE_DRIVER 189000 1600 1664 1856 2160 0 1200 1201 1204 1250 0
      (Z.lor DRM_MODE_FLAG_PHSYNC DRM_MODE_FLAG_PVSYNC);
    DRM_MODE "1600x1200" DRM_MODE_TYPE_DRIVER 202500 1600 1664 1856 2160 0 1200 1201 1204 1250 0
      (Z.lor DRM_MODE_FLAG_PHSYNC DRM_MODE_FLAG_PVSYNC);
    DRM_MODE "1600x1200" DRM_MODE_TYPE_DRIVER 229500 1600 1664 1856 2160 0 1200 1201 1204 1250 0
      (Z.lor DRM_MODE_FLAG_PHSYNC DRM_MODE_FLAG_PVSYNC);
    DRM_MODE "1600x1200" DRM_MODE_TYPE_DRIVER 268250 1600 1648 1680 1760 0 1200 1203 1207 1271 0
      (Z.lor DRM_MODE_FLAG_PHSYNC DRM_MODE_FLAG_NVSYNC);
    DRM_MODE "1680x1050" DRM_MODE_TYPE_DRIVER 119000 1680 1728 1760 1840 0 1050 1053 1059 1080 0
      (Z.lor DRM_MODE_FLAG_PHSYNC DRM_MODE_FLAG_NVSYNC);
    DRM_MODE "1680x1050" DRM_MODE_TYPE_DRIVER 146250 1680 1784 1960 2240 0 1050 1053 1059 1089 0
      (Z.lor DRM_MODE_FLAG_NHSYNC DRM_MODE_FLAG_PVSYNC);
    DRM_MODE "1680x1050" DRM_MODE_TYPE_DRIVER 187000 1680 1800 1976 2272 0 1050 1053 1059 1099 0
      (Z.lor DRM_MODE_FLAG_NHSYNC DRM_MODE_FLAG_PVSYNC);
    DRM_MODE "1680x1050" DRM_MODE_TYPE_DRIVER 214750 1680 1808 1984 2288 0 1050 1053 1059 1105 0
      (Z.lor DRM_MODE_FLAG_NHSYNC DRM_MODE_FLAG_PVSYNC);
    DRM_MODE "1680x1050" DRM_MODE_TYPE_DRIVER 245500 1680 1728 1760 1840 0 1050 1053 1059 1112 0
      (Z.lor DRM_MODE_FLAG_PHSYNC DRM_MODE_FLAG_NVSYNC);
    DRM_MODE "1792x1344" DRM_MODE_TYPE_DRIVER 204750 1792 1920 2120 2448 0 1344 1345 1348 1394 0
      (Z.lor DRM_MODE_FLAG_NHSYNC DRM_MODE_FLAG_PVSYNC);
    DRM_MODE "1792x1344" DRM_MODE_TYPE_DRIVER 261000 1792 1888 2104 2456 0 1344 1345 1348 1417 0
      (Z.lor DRM_MODE_FLAG_NHSYNC DRM_MODE_FLAG_PVSYNC);
    DRM_MODE "1792x1344" DRM_MODE_TYPE_DRIVER 333250 1792 1840 1872 1952 0 1344 1347 1351 1423 0
      (Z.lor DRM_MODE_FLAG_PHSYNC DRM_MODE_FLAG_NVSYNC);
    DRM_MODE "1856x1392" DRM_MODE_TYPE_DRIVER 218250 1856 1952 2176 2528 0 1392 1393 1396 1439 0
      (Z.lor DRM_MODE_FLAG_NHSYNC DRM_MODE_FLAG_PVSYNC);
    DRM_MODE "1856x1392" DRM_MODE_TYPE_DRIVER 288000 1856 1984 2208 2560 0 1392 1395 1399 1500 0
      (Z.lor DRM_MODE_FLAG_NHSYNC DRM_MODE_FLAG_PVSYNC);
    DRM_MODE "1856x1392" DRM_MODE_TYPE_DRIVER 356500 1856 1904 1936 2016 0 1392 1395 1399 1474 0
      (Z.lor DRM_MODE_FLAG_PHSYNC DRM_MODE_FLAG_NVSYNC);
    DRM_MODE "1920x1200" DRM_MODE_TYPE_DRIVER 154000 1920 1968 2000 2080 0 1200 1203 1209 1235 0
      (Z.lor DRM_MODE_FLAG_PHSYNC DRM_MODE_FLAG_NVSYNC);
    DRM_MODE "1920x1200" DRM_MODE_TYPE_DRIVER 193250 1920 2056 2256 2592 0 1200 1203 1209 1245 0
      (Z.lor DRM_MODE_FLAG_NHSYNC DRM_MODE_FLAG_PVSYNC);
    DRM_MODE "1920x1200" DRM_MODE_TYPE_DRIVER 245250 1920 2056 2264 2608 0 1200 1203 1209 1255 0
      (Z.lor DRM_MODE_FLAG_NHSYNC DRM_MODE_FLAG_PVSYNC);
    DRM_MODE "1920x1200" DRM_MODE_TYPE_DRIVER 281250 1920 2064 2272 2624 0 1200 1203 1209 1262 0
      (Z.lor DRM_MODE_FLAG_NHSYNC DRM_MODE_FLAG_PVSYNC);
    DRM_MODE "1920x1200" DRM_MODE_TYPE_DRIVER 317000 1920 1968 2000 2080 0 1200 1203 1209 1271 0
      (Z.lor DRM_MODE_FLAG_PHSYNC DRM_MODE_FLAG_NVSYNC);
    DRM_MODE "1920x1440" DRM_MODE_TYPE_DRIVER 234000 1920 2048 2256 2600 0 1440 1441 1444 1500 0
      (Z.lor DRM_MODE_FLAG_NHSYNC DRM_MODE_FLAG_PVSYNC);
    DRM_MODE "1920x1440" DRM_MODE_TYPE_DRIVER 297000 1920 2064 2288 2640 0 1440 1441 1444 1500 0
      (Z.lor DRM_MODE_FLAG_NHSYNC DRM_MODE_FLAG_PVSYNC);
    DRM_MODE "1920x1440" DRM_MODE_TYPE_DRIVER 380500 1920 1968 2000 2080 0 1440 1443 1447 1525 0
      (Z.lor DRM_MODE_FLAG_PHSYNC DRM_MODE_FLAG_NVSYNC);
    DRM_MODE "2560x1600" DRM_MODE_TYPE_DRIVER 268500 2560 2608 2640 2720 0 1600 1603 1609 1646 0
      (Z.lor DRM_MODE_FLAG_PHSYNC DRM_MODE_FLAG_NVSYNC);
    DRM_MODE "2560x1600" DRM_MODE_TYPE_DRIVER 348500 2560 2752 3032 3504 0 1600 1603 1609 1658 0
      (Z.lor DRM_MODE_FLAG_NHSYNC DRM_MODE_FLAG_PVSYNC);
    DRM_MODE "2560x1600" DRM_MODE_TYPE_DRIVER 443250 2560 2768 3048 3536 0 1600 1603 1609 1672 0
      (Z.lor DRM_MODE_FLAG_NHSYNC DRM_MODE_FLAG_PVSYNC);
    DRM_MODE "2560x1600" DRM_MODE_TYPE_DRIVER 505250 2560 2768 3048 3536 0 1600 1603 1609 1682 0
      (Z.lor DRM_MODE_FLAG_NHSYNC DRM_MODE_FLAG_PVSYNC);
    DRM_MODE "2560x1600" DRM_MODE_TYPE_DRIVER 552750 2560 2608 2640 2720 0 1600 1603 1609 1694 0
      (Z.lor DRM_MODE_FLAG_PHSYNC DRM_MODE_FLAG_NVSYNC)].

Definition edid_est_modes : list drm_display_mode := [
    DRM_MODE "800x600" DRM_MODE_TYPE_DRIVER 40000 800 840 968 1056 0 600 601 605 628 0
      (Z.lor DRM_MODE_FLAG_PHSYNC DRM_MODE_FLAG_PVSYNC);
    DRM_MODE "800x600" DRM_MODE_TYPE_DRIVER 36000 800 824 896 1024 0 600 601 603 625 0
      (Z.lor DRM_MODE_FLAG_PHSYNC DRM_MODE_FLAG_PVSYNC);
    DRM_MODE "640x480" DRM_MODE_TYPE_DRIVER 31500 640 656 720 840 0 480 481 484 500 0
      (Z.lor DRM_MODE_FLAG_NHSYNC DRM_MODE_FLAG_NVSYNC);
    DRM_MODE "640x480" DRM_MODE_TYPE_DRIVER 31500 640 664 704 832 0 480 489 491 520 0
      (Z.lor DRM_MODE_FLAG_NHSYNC DRM_MODE_FLAG_NVSYNC);
    DRM_MODE "640x480" DRM_MODE_TYPE_DRIVER 30240 640 704 768 864 0 480 483 486 525 0
      (Z.lor DRM_MODE_FLAG_NHSYNC DRM_MODE_FLAG_NVSYNC);
    DRM_MODE "640x480" DRM_MODE_TYPE_DRIVER 25200 640 656 752 800 0 480 490 492 525 0
      (Z.lor DRM_MODE_FLAG_NHSYNC DRM_MODE_FLAG_NVSYNC);
    DRM_MODE "720x400" DRM_MODE_TYPE_DRIVER 35500 720 738 846 900 0 400 421 423 449 0
      (Z.lor DRM_MODE_FLAG_NHSYNC DRM_MODE_FLAG_NVSYNC);
    DRM_MODE "720x400" DRM_MODE_TYPE_DRIVER 28320 720 738 846 900 0 400 412 414 449 0
      (Z.lor DRM_MODE_FLAG_NHSYNC DRM_MODE_FLAG_PVSYNC);
    DRM_MODE "1280x1024" DRM_MODE_TYPE_DRIVER 135000 1280 1296 1440 1688 0 1024 1025 1028 1066 0
      (Z.lor DRM_MODE_FLAG_PHSYNC DRM_MODE_FLAG_PVSYNC);
    DRM_MODE "1024x768" DRM_MODE_TYPE_DRIVER 78800 1024 1040 1136 1312 0 768 769 772 800 0
      (Z.lor DRM_MODE_FLAG_PHSYNC DRM_MODE_FLAG_PVSYNC);
    DRM_MODE "1024x768" DRM_MODE_TYPE_DRIVER 75000 1024 1048 1184 1328 0 768 771 777 806 0
      (Z.lor DRM_MODE_FLAG_NHSYNC DRM_MODE_FLAG_NVSYNC);
    DRM_MODE "1024x768" DRM_MODE_TYPE_DRIVER 65000 1024 1048 1184 1344 0 768 771 777 806 0
      (Z.lor DRM_MODE_FLAG_NHSYNC DRM_MODE_FLAG_NVSYNC);
    DRM_MODE "1024x768i" DRM_MODE_TYPE_DRIVER 44900 1024 1032 1208 1264 0 768 768 776 817 0
      (Z.lor (Z.lor DRM_MODE_FLAG_PHSYNC DRM_MODE_FLAG_PVSYNC) DRM_MODE_FLAG_INTERLACE);
    DRM_MODE "832x624" DRM_MODE_TYPE_DRIVER 57284 832 864 928 1152 0 624 625 628 667 0
      (Z.lor DRM_MODE_FLAG_NHSYNC DRM_MODE_FLAG_NVSYNC);
    DRM_MODE "800x600" DRM_MODE_TYPE_DRIVER 49500 800 816 896 1056 0 600 601 604 625 0
      (Z.lor DRM_MODE_FLAG_PHSYNC DRM_MODE_FLAG_PVSYNC);
    DRM_MODE "800x600" DRM_MODE_TYPE_DRIVER 50000 800 856 976 1040 0 600 637 643 666 0
      (Z.lor DRM_MODE_FLAG_PHSYNC DRM_MODE_FLAG_PVSYNC);
    DRM_MODE "1152x864" DRM_MODE_TYPE_DRIVER 108000 1152 1216 1344 1600 0 864 865 868 900 0
      (Z.lor DRM_MODE_FLAG_PHSYNC DRM_MODE_FLAG_PVSYNC)].

Definition edid_cea_modes : list drm_display_mode := [
    at_rate 60 (DRM_MODE "640x480" DRM_MODE_TYPE_DRIVER 25175 640 656 752 800 0 480 490 492 525 0
      (Z.lor DRM_MODE_FLAG_NHSYNC DRM_MODE_FLAG_NVSYNC));
    at_rate 60 (DRM_MODE "720x480" DRM_MODE_TYPE_DRIVER 27000 720 736 798 858 0 480 489 495 525 0
      (Z.lor DRM_MODE_FLAG_NHSYNC DRM_MODE_FLAG_NVSYNC));
    at_rate 60 (DRM_MODE "720x480" DRM_MODE_TYPE_DRIVER 27000 720 736 798 858 0 480 489 495 525 0
      (Z.lor DRM_MODE_FLAG_NHSYNC DRM_MODE_FLAG_NVSYNC));
    at_rate 60 (DRM_MODE "1280x720" DRM_MODE_TYPE_DRIVER 74250 1280 1390 1430 1650 0 720 725 730 750 0
      (Z.lor DRM_MODE_FLAG_PHSYNC DRM_MODE_FLAG_PVSYNC));
    at_rate 60 (DRM_MODE "1920x1080i" DRM_MODE_TYPE_DRIVER 74250 1920 2008 2052 2200 0 1080 1084 1094 1125 0
      (Z.lor (Z.lor DRM_MODE_FLAG_PHSYNC DRM_MODE_FLAG_PVSYNC) DRM_MODE_FLAG_INTERLACE));
    at_rate 60 (DRM_MODE "1440x480i" DRM_MODE_TYPE_DRIVER 27000 1440 1478 1602 1716 0 480 488 494 525 0
      (Z.lor (Z.lor (Z.lor DRM_MODE_FLAG_NHSYNC DRM_MODE_FLAG_NVSYNC) DRM_MODE_FLAG_INTERLACE) DRM_MODE_FLAG_DBLCLK));
    at_rate 60 (DRM_MODE "1440x480i" DRM_MODE_TYPE_DRIVER 27000 1440 1478 1602 1716 0 480 488 494 525 0
      (Z.lor (Z.lor (Z.lor DRM_MODE_FLAG_NHSYNC DRM_MODE_FLAG_NVSYNC) DRM_MODE_FLAG_INTERLACE) DRM_MODE_FLAG_DBLCLK));
    at_rate 60 (DRM_MODE "1440x240" DRM_MODE_TYPE_DRIVER 27000 1440 1478 1602 1716 0 240 244 247 262 0
      (Z.lor (Z.lor DRM_MODE_FLAG_NHSYNC DRM_MODE_FLAG_NVSYNC) DRM_MODE_FLAG_DBLCLK));
    at_rate 60 (DRM_MODE "1440x240" DRM_MODE_TYPE_DRIVER 27000 1440 1478 1602 1716 0 240 244 247 262 0
      (Z.lor (Z.lor DRM_MODE_FLAG_NHSYNC DRM_MODE_FLAG_NVSYNC) DRM_MODE_FLAG_DBLCLK));
    at_rate 60 (DRM_MODE "2880x480i" DRM_MODE_TYPE_DRIVER 54000 2880 2956 3204 3432 0 480 488 494 525 0
      (Z.lor (Z.lor DRM_MODE_FLAG_NHSYNC DRM_MODE_FLAG_NVSYNC) DRM_MODE_FLAG_INTERLACE));
    at_rate 60 (DRM_MODE "2880x480i" DRM_MODE_TYPE_DRIVER 54000 2880 2956 3204 3432 0 480 488 494 525 0
      (Z.lor (Z.lor DRM_MODE_FLAG_NHSYNC DRM_MODE_FLAG_NVSYNC) DRM_MODE_FLAG_INTERLACE));
    at_rate 60 (DRM_MODE "2880x240" DRM_MODE_TYPE_DRIVER 54000 2880 2956 3204 3432 0 240 244 247 262 0
      (Z.lor DRM_MODE_FLAG_NHSYNC DRM_MODE_FLAG_NVSYNC));
    at_rate 60 (DRM_MODE "2880x240" DRM_MODE_TYPE_DRIVER 54000 2880 2956 3204 3432 0 240 244 247 262 0
      (Z.lor DRM_MODE_FLAG_NHSYNC DRM_MODE_FLAG_NVSYNC));
    at_rate 60 (DRM_MODE "1440x480" DRM_MODE_TYPE_DRIVER 54000 1440 1472 1596 1716 0 480 489 495 525 0
      (Z.lor DRM_MODE_FLAG_NHSYNC DRM_MODE_FLAG_NVSYNC));
    at_rate 60 (DRM_MODE "1440x480" DRM_MODE_TYPE_DRIVER 54000 1440 1472 1596 1716 0 480 489 495 525 0
      (Z.lor DRM_MODE_FLAG_NHSYNC DRM_MODE_FLAG_NVSYNC));
    at_rate 60 (DRM_MODE "1920x1080" DRM_MODE_TYPE_DRIVER 148500 1920 2008 2052 2200 0 1080 1084 1089 1125 0
      (Z.lor DRM_MODE_FLAG_PHSYNC DRM_MODE_FLAG_PVSYNC));
    at_rate 50 (DRM_MODE "720x576" DRM_MODE_TYPE_DRIVER 27000 720 732 796 864 0 576 581 586 625 0
      (Z.lor DRM_MODE_FLAG_NHSYNC DRM_MODE_FLAG_NVSYNC));
    at_rate 50 (DRM_MODE "720x576" DRM_MODE_TYPE_DRIVER 27000 720 732 796 864 0 576 581 586 625 0
      (Z.lor DRM_MODE_FLAG_NHSYNC DRM_MODE_FLAG_NVSYNC));
    at_rate 50 (DRM_MODE "1280x720" DRM_MODE_TYPE_DRIVER 74250 1280 1720 1760 1980 0 720 725 730 750 0
      (Z.lor DRM_MODE_FLAG_PHSYNC DRM_MODE_FLAG_PVSYNC));
    at_rate 50 (DRM_MODE "1920x1080i" DRM_MODE_TYPE_DRIVER 74250 1920 2448 2492 2640 0 1080 1084 1094 1125 0
      (Z.lor (Z.lor DRM_MODE_FLAG_PHSYNC DRM_MODE_FLAG_PVSYNC) DRM_MODE_FLAG_INTERLACE));
    at_rate 50 (DRM_MODE "1440x576i" DRM_MODE_TYPE_DRIVER 27000 1440 1464 1590 1728 0 576 580 586 625 0
      (Z.lor (Z.lor (Z.lor DRM_MODE_FLAG_NHSYNC DRM_MODE_FLAG_NVSYNC) DRM_MODE_FLAG_INTERLACE) DRM_MODE_FLAG_DBLCLK));
    at_rate 50 (DRM_MODE "1440x576i" DRM_MODE_TYPE_DRIVER 27000 1440 1464 1590 1728 0 576 580 586 625 0
      (Z.lor (Z.lor (Z.lor DRM_MODE_FLAG_NHSYNC DRM_MODE_FLAG_NVSYNC) DRM_MODE_FLAG_INTERLACE) DRM_MODE_FLAG_DBLCLK));
    at_rate 50 (DRM_MODE "1440x288" DRM_MODE_TYPE_DRIVER 27000 1440 1464 1590 1728 0 288 290 293 312 0
      (Z.lor (Z.lor DRM_MODE_FLAG_NHSYNC DRM_MODE_FLAG_NVSYNC) DRM_MODE_FLAG_DBLCLK));
    at_rate 50 (DRM_MODE "1440x288" DRM_MODE_TYPE_DRIVER 27000 1440 1464 1590 1728 0 288 290 293 312 0
      (Z.lor (Z.lor DRM_MODE_FLAG_NHSYNC DRM_MODE_FLAG_NVSYNC) DRM_MODE_FLAG_DBLCLK));
    at_rate 50 (DRM_MODE "2880x576i" DRM_MODE_TYPE_DRIVER 54000 2880 2928 3180 3456 0 576 580 586 625 0
      (Z.lor (Z.lor DRM_MODE_FLAG_NHSYNC DRM_MODE_FLAG_NVSYNC) DRM_MODE_FLAG_INTERLACE));
    at_rate 50 (DRM_MODE "2880x576i" DRM_MODE_TYPE_DRIVER 54000 2880 2928 3180 3456 0 576 580 586 625 0
      (Z.lor (Z.lor DRM_MODE_FLAG_NHSYNC DRM_MODE_FLAG_NVSYNC) DRM_MODE_FLAG_INTERLACE));
    at_rate 50 (DRM_MODE "2880x288" DRM_MODE_TYPE_DRIVER 54000 2880 2928 3180 3456 0 288 290 293 312 0
      (Z.lor DRM_MODE_FLAG_NHSYNC DRM_MODE_FLAG_NVSYNC));
    at_rate 50 (DRM_MODE "2880x288" DRM_MODE_TYPE_DRIVER 54000 2880 2928 3180 3456 0 288 290 293 312 0
      (Z.lor DRM_MODE_FLAG_NHSYNC DRM_MODE_FLAG_NVSYNC));
    at_rate 50 (DRM_MODE "1440x576" DRM_MODE_TYPE_DRIVER 54000 1440 1464 1592 1728 0 576 581 586 625 0
      (Z.lor DRM_MODE_FLAG_NHSYNC DRM_MODE_FLAG_NVSYNC));
    at_rate 50 (DRM_MODE "1440x576" DRM_MODE_TYPE_DRIVER 54000 1440 1464 1592 1728 0 576 581 586 625 0
      (Z.lor DRM_MODE_FLAG_NHSYNC DRM_MODE_FLAG_NVSYNC));
    at_rate 50 (DRM_MODE "1920x1080" DRM_MODE_TYPE_DRIVER 148500 1920 2448 2492 2640 0 1080 1084 1089 1125 0
      (Z.lor DRM_MODE_FLAG_PHSYNC DRM_MODE_FLAG_PVSYNC));
    at_rate 50 (DRM_MODE "1920x1080" DRM_MODE_TYPE_DRIVER 74250 1920 2558 2602 2750 0 1080 1084 1089 1125 0
      (Z.lor DRM_MODE_FLAG_PHSYNC DRM_MODE_FLAG_PVSYNC));
    at_rate 25 (DRM_MODE "1920x1080" DRM_MODE_TYPE_DRIVER 74250 1920 2448 2492 2640 0 1080 1084 1089 1125 0
      (Z.lor DRM_MODE_FLAG_PHSYNC DRM_MODE_FLAG_PVSYNC));
    at_rate 30 (DRM_MODE "1920x1080" DRM_MODE_TYPE_DRIVER 74250 1920 2008 2052 2200 0 1080 1084 1089 1125 0
      (Z.lor DRM_MODE_FLAG_PHSYNC DRM_MODE_FLAG_PVSYNC));
    at_rate 60 (DRM_MODE "2880x480" DRM_MODE_TYPE_DRIVER 108000 2880 2944 3192 3432 0 480 489 495 525 0
      (Z.lor DRM_MODE_FLAG_NHSYNC DRM_MODE_FLAG_NVSYNC));
    at_rate 60 (DRM_MODE "2880x480" DRM_MODE_TYPE_DRIVER 108000 2880 2944 3192 3432 0 480 489 495 525 0
      (Z.lor DRM_MODE_FLAG_NHSYNC DRM_MODE_FLAG_NVSYNC));
    at_rate 50 (DRM_MODE "2880x576" DRM_MODE_TYPE_DRIVER 108000 2880 2928 3184 3456 0 576 581 586 625 0
      (Z.lor DRM_MODE_FLAG_NHSYNC DRM_MODE_FLAG_NVSYNC));
    at_rate 50 (DRM_MODE "2880x576" DRM_MODE_TYPE_DRIVER 108000 2880 2928 3184 3456 0 576 581 586 625 0
      (Z.lor DRM_MODE_FLAG_NHSYNC DRM_MODE_FLAG_NVSYNC));
    at_rate 50 (DRM_MODE "1920x1080i" DRM_MODE_TYPE_DRIVER 72000 1920 1952 2120 2304 0 1080 1126 1136 1250 0
      (Z.lor (Z.lor DRM_MODE_FLAG_PHSYNC DRM_MODE_FLAG_NVSYNC) DRM_MODE_FLAG_INTERLACE));
    at_rate 100 (DRM_MODE "1920x1080i" DRM_MODE_TYPE_DRIVER 148500 1920 2448 2492 2640 0 1080 1084 1094 1125 0
      (Z.lor (Z.lor DRM_MODE_FLAG_PHSYNC DRM_MODE_FLAG_PVSYNC) DRM_MODE_FLAG_INTERLACE));
    at_rate 100 (DRM_MODE "1280x720" DRM_MODE_TYPE_DRIVER 148500 1280 1720 1760 1980 0 720 725 730 750 0
      (Z.lor DRM_MODE_FLAG_PHSYNC DRM_MODE_FLAG_PVSYNC));
    at_rate 100 (DRM_MODE "720x576" DRM_MODE_TYPE_DRIVER 54000 720 732 796 864 0 576 581 586 625 0
      (Z.lor DRM_MODE_FLAG_NHSYNC DRM_MODE_FLAG_NVSYNC));
    at_rate 100 (DRM_MODE "720x576" DRM_MODE_TYPE_DRIVER 54000 720 732 796 864 0 576 581 586 625 0
      (Z.lor DRM_MODE_FLAG_NHSYNC DRM_MODE_FLAG_NVSYNC));
    at_rate 100 (DRM_MODE "1440x576" DRM_MODE_TYPE_DRIVER 54000 1440 1464 1590 1728 0 576 580 586 625 0
      (Z.lor (Z.lor DRM_MODE_FLAG_NHSYNC DRM_MODE_FLAG_NVSYNC) DRM_MODE_FLAG_DBLCLK));
    at_rate 100 (DRM_MODE "1440x576" DRM_MODE_TYPE_DRIVER 54000 1440 1464 1590 1728 0 576 580 586 625 0
      (Z.lor (Z.lor DRM_MODE_FLAG_NHSYNC DRM_MODE_FLAG_NVSYNC) DRM_MODE_FLAG_DBLCLK));
    at_rate 120 (DRM_MODE "1920x1080i" DRM_MODE_TYPE_DRIVER 148500 1920 2008 2052 2200 0 1080 1084 1094 1125 0
      (Z.lor (Z.lor DRM_MODE_FLAG_PHSYNC DRM_MODE_FLAG_PVSYNC) DRM_MODE_FLAG_INTERLACE));
    at_rate 120 (DRM_MODE "1280x720" DRM_MODE_TYPE_DRIVER 148500 1280 1390 1430 1650 0 720 725 730 750 0
      (Z.lor DRM_MODE_FLAG_PHSYNC DRM_MODE_FLAG_PVSYNC));
    at_rate 120 (DRM_MODE "720x480" DRM_MODE_TYPE_DRIVER 54000 720 736 798 858 0 480 489 495 525 0
      (Z.lor DRM_MODE_FLAG_NHSYNC DRM_MODE_FLAG_NVSYNC));
    at_rate 120 (DRM_MODE "720x480" DRM_MODE_TYPE_DRIVER 54000 720 736 798 858 0 480 489 495 525 0
      (Z.lor DRM_MODE_FLAG_NHSYNC DRM_MODE_FLAG_NVSYNC));
    at_rate 120 (DRM_MODE "1440x480i" DRM_MODE_TYPE_DRIVER 54000 1440 1478 1602 1716 0 480 488 494 525 0
      (Z.lor (Z.lor (Z.lor DRM_MODE_FLAG_NHSYNC DRM_MODE_FLAG_NVSYNC) DRM_MODE_FLAG_INTERLACE) DRM_MODE_FLAG_DBLCLK));
    at_rate 120 (DRM_MODE "1440x480i" DRM_MODE_TYPE_DRIVER 54000 1440 1478 1602 1716 0 480 488 494 525 0
      (Z.lor (Z.lor (Z.lor DRM_MODE_FLAG_NHSYNC DRM_MODE_FLAG_NVSYNC) DRM_MODE_FLAG_INTERLACE) DRM_MODE_FLAG_DBLCLK));
    at_rate 200 (DRM_MODE "720x576" DRM_MODE_TYPE_DRIVER 108000 720 732 796 864 0 576 581 586 625 0
      (Z.lor DRM_MODE_FLAG_NHSYNC DRM_MODE_FLAG_NVSYNC));
    at_rate 200 (DRM_MODE "720x576" DRM_MODE_TYPE_DRIVER 108000 720 732 796 864 0 576 581 586 625 0
      (Z.lor DRM_MODE_FLAG_NHSYNC DRM_MODE_FLAG_NVSYNC));
    at_rate 200 (DRM_MODE "1440x576i" DRM_MODE_TYPE_DRIVER 108000 1440 1464 1590 1728 0 576 580 586 625 0
      (Z.lor (Z.lor (Z.lor DRM_MODE_FLAG_NHSYNC DRM_MODE_FLAG_NVSYNC) DRM_MODE_FLAG_INTERLACE) DRM_MODE_FLAG_DBLCLK));
    at_rate 200 (DRM_MODE "1440x576i" DRM_MODE_TYPE_DRIVER 108000 1440 1464 1590 1728 0 576 580 586 625 0
      (Z.lor (Z.lor (Z.lor DRM_MODE_FLAG_NHSYNC DRM_MODE_FLAG_NVSYNC) DRM_MODE_FLAG_INTERLACE) DRM_MODE_FLAG_DBLCLK));
    at_rate 240 (DRM_MODE "720x480" DRM_MODE_TYPE_DRIVER 108000 720 736 798 858 0 480 489 495 525 0
      (Z.lor DRM_MODE_FLAG_NHSYNC DRM_MODE_FLAG_NVSYNC));
    at_rate 240 (DRM_MODE "720x480" DRM_MODE_TYPE_DRIVER 108000 720 736 798 858 0 480 489 495 525 0
      (Z.lor DRM_MODE_FLAG_NHSYNC DRM_MODE_FLAG_NVSYNC));
    at_rate 240 (DRM_MODE "1440x480i" DRM_MODE_TYPE_DRIVER 108000 1440 1478 1602 1716 0 480 488 494 525 0
      (Z.lor (Z.lor (Z.lor DRM_MODE_FLAG_NHSYNC DRM_MODE_FLAG_NVSYNC) DRM_MODE_FLAG_INTERLACE) DRM_MODE_FLAG_DBLCLK));
    at_rate 240 (DRM_MODE "1440x480i" DRM_MODE_TYPE_DRIVER 108000 1440 1478 1602 1716 0 480 488 494 525 0
      (Z.lor (Z.lor (Z.lor DRM_MODE_FLAG_NHSYNC DRM_MODE_FLAG_NVSYNC) DRM_MODE_FLAG_INTERLACE) DRM_MODE_FLAG_DBLCLK));
    at_rate 24 (DRM_MODE "1280x720" DRM_MODE_TYPE_DRIVER 59400 1280 3040 3080 3300 0 720 725 730 750 0
      (Z.lor DRM_MODE_FLAG_PHSYNC DRM_MODE_FLAG_PVSYNC));
    at_rate 25 (DRM_MODE "1280x720" DRM_MODE_TYPE_DRIVER 74250 1280 3700 3740 3960 0 720 725 730 750 0
      (Z.lor DRM_MODE_FLAG_PHSYNC DRM_MODE_FLAG_PVSYNC));
    at_rate 30 (DRM_MODE "1280x720" DRM_MODE_TYPE_DRIVER 74250 1280 3040 3080 3300 0 720 725 730 750 0
      (Z.lor DRM_MODE_FLAG_PHSYNC DRM_MODE_FLAG_PVSYNC));
    at_rate 120 (DRM_MODE "1920x1080" DRM_MODE_TYPE_DRIVER 297000 1920 2008 2052 2200 0 1080 1084 1089 1125 0
      (Z.lor DRM_MODE_FLAG_PHSYNC DRM_MODE_FLAG_PVSYNC));
    at_rate 100 (DRM_MODE "1920x1080" DRM_MODE_TYPE_DRIVER 297000 1920 2448 2492 2640 0 1080 1084 1094 1125 0
      (Z.lor DRM_MODE_FLAG_PHSYNC DRM_MODE_FLAG_PVSYNC))].

End Tables.

(** [struct minimode]. *)
Record minimode := mk_mini { mini_w : Z; mini_h : Z; mini_r : Z; mini_rb : Z }.

Definition est3_modes : list minimode := [
    mk_mini 640 350 85 0;
    mk_mini 640 400 85 0;
    mk_mini 720 400 85 0;
    mk_mini 640 480 85 0;
    mk_mini 848 480 60 0;
    mk_mini 800 600 85 0;
    mk_mini 1024 768 85 0;
    mk_mini 1152 864 75 0;
    mk_mini 1280 768 60 1;
    mk_mini 1280 768 60 0;
    mk_mini 1280 768 75 0;
    mk_mini 1280 768 85 0;
    mk_mini 1280 960 60 0;
    mk_mini 1280 960 85 0;
    mk_mini 1280 1024 60 0;
    mk_mini 1280 1024 85 0;
    mk_mini 1360 768 60 0;
    mk_mini 1440 900 60 1;
    mk_mini 1440 900 60 0;
    mk_mini 1440 900 75 0;
    mk_mini 1440 900 85 0;
    mk_mini 1400 1050 60 1;
    mk_mini 1400 1050 60 0;
    mk_mini 1400 1050 75 0;
    mk_mini 1400 1050 85 0;
    mk_mini 1680 1050 60 1;
    mk_mini 1680 1050 60 0;
    mk_mini 1680 1050 75 0;
    mk_mini 1680 1050 85 0;
    mk_mini 1600 1200 60 0;
    mk_mini 1600 1200 65 0;
    mk_mini 1600 1200 70 0;
    mk_mini 1600 1200 75 0;
    mk_mini 1600 1200 85 0;
    mk_mini 1792 1344 60 0;
    mk_mini 1792 1344 85 0;
    mk_mini 1856 1392 60 0;
    mk_mini 1856 1392 75 0;
    mk_mini 1920 1200 60 1;
    mk_mini 1920 1200 60 0;
    mk_mini 1920 1200 75 0;
    mk_mini 1920 1200 85 0;
    mk_mini 1920 1440 60 0;
    mk_mini 1920 1440 75 0].

Definition extra_modes : list minimode := [
    mk_mini 1024 576 60 0;
    mk_mini 1366 768 60 0;
    mk_mini 1600 900 60 0;
    mk_mini 1680 945 60 0;
    mk_mini 1920 1080 60 0;
    mk_mini 2048 1152 60 0;
    mk_mini 2048 1536 60 0].

(** ** Looking modes up *)

Section Lookup.
Context `{DrmModeH}.

Definition mode_is_rb (mode : drm_display_mode) : bool :=
  let t := tm mode in
  (i32 (htotal t - hdisplay t) =? 160) && (i32 (hsync_end t - hdisplay t) =? 80) &&
  (i32 (hsync_end t - hsync_start t) =? 32) && (i32 (vsync_start t - vdisplay t) =? 3).

Definition dmt_matches (hsize vsize fresh : Z) (rb : bool) (ptr : drm_display_mode) : bool :=
  (hsize =? hdisplay (tm ptr)) && (vsize =? vdisplay (tm ptr)) && (fresh =? drm_mode_vrefresh ptr) &&
  Bool.eqb rb (mode_is_rb ptr).

(** [r]: the outcome of the allocation of the copy. *)
Definition drm_mode_find_dmt (r : option Z) (hsize vsize fresh : Z) (rb : bool)
    : option drm_display_mode :=
  match List.find (dmt_matches hsize vsize fresh rb) drm_dmt_modes with
  | Some ptr => drm_mode_duplicate r ptr
  | None => None
  end.

(** The clock of the CEA mode at the other of the two rates, 60 and 59.94 Hz. *)
Definition cea_mode_alternate_clock (cea_mode : drm_display_mode) : Z :=
  let clk := u32 (clock (tm cea_mode)) in
  if negb (Z.rem (vrefresh cea_mode) 6 =? 0) then clk else
  if (vdisplay (tm cea_mode) =? 240) || (vdisplay (tm cea_mode) =? 480)
  then u32 (clk * 1001) / 1000
  else u32 (u32 (clk * 1000) + 1001 - 1) / 1001.

Definition cea_matches (to_match cea_mode : drm_display_mode) : bool :=
  let clock1 := clock (tm cea_mode) in
  let clock2 := cea_mode_alternate_clock cea_mode in
  ((KHZ2PICOS (clock (tm to_match)) =? KHZ2PICOS clock1) ||
   (KHZ2PICOS (clock (tm to_match)) =? KHZ2PICOS clock2)) &&
  drm_mode_equal_no_clocks to_match cea_mode.

(** The first match, from the index [mode] on. *)
Fixpoint match_cea_from (to_match : drm_display_mode) (mode : Z) (l : list drm_display_mode) : Z :=
  match l with
  | [] => 0
  | cea_mode :: l => if cea_matches to_match cea_mode then mode + 1 else match_cea_from to_match (mode + 1) l
  end.

Definition drm_match_cea_mode (to_match : drm_display_mode) : Z :=
  if clock (tm to_match) =? 0 then 0 else match_cea_from to_match 0 edid_cea_modes.
End Lookup.

(** ** Theorems *)

Section Matching.
Context `{DrmModeH}.

Lemma match_cea_from_spec to_match mode l :
  let k := match_cea_from to_match mode l in
  (k = 0 ∧ Forall (λ c, cea_matches to_match c = false) l) ∨
  (∃ l1 c l2, l = l1 ++ c :: l2 ∧ k = mode + Z.of_nat (length l1) + 1 ∧
     cea_matches to_match c = true ∧ Forall (λ c, cea_matches to_match c = false) l1).
Proof.
  cbv zeta. revert mode. induction l as [|c l IH]; intros mode; cbn [match_cea_from]; [by left|].
  destruct (cea_matches to_match c) eqn:Hc.
  - right. exists [], c, l. split_and!; try done. cbn. lia.
  - destruct (IH (mode + 1)) as [[-> Hall] | (l1 & c' & l2 & -> & -> & Hm & Hall)].
    + left. split; [done|]. by constructor.
    + right. exists (c :: l1), c', l2. split_and!; try done; [cbn [length]; lia|]. by constructor.
Qed.

(** Drm_match_cea_mode returns the identification code
    of the first CEA mode with the timings of the given mode and one of its two
    clocks (up to the precision of a period), 0 only when there is none; codes
    lie in 1 to 64. *)
Theorem match_cea_mode_first m : clock (tm m) ≠ 0 →
  let k := drm_match_cea_mode m in
  0 <= k <= Z.of_nat (length edid_cea_modes) ∧
  (k = 0 ↔ ∀ c, c ∈ edid_cea_modes → cea_matches m c = false) ∧
  (k ≠ 0 → ∃ c, edid_cea_modes !! Z.to_nat (k - 1) = Some c ∧ cea_matches m c = true ∧
     drm_mode_equal_no_clocks m c = true ∧
     ∀ j c', (j < Z.to_nat (k - 1))%nat → edid_cea_modes !! j = Some c' → cea_matches m c' = false).
Proof.
  intros Hclk. cbv zeta. unfold drm_match_cea_mode. rewrite (proj2 (Z.eqb_neq _ _)) by done.
  destruct (match_cea_from_spec m 0 edid_cea_modes) as [[-> Hall] | (l1 & c & l2 & Hl & -> & Hm & Hall)].
  - split; [lia|]. rewrite Forall_forall in Hall. split; [done|]. done.
  - rewrite Hl. split; [rewrite length_app; cbn [length]; lia|]. split.
    + split; [lia|]. intros Hno. specialize (Hno c). rewrite Hm in Hno. exfalso.
      enough (true = false) by done. apply Hno. apply elem_of_app. right. by left.
    + intros _. replace (Z.to_nat (0 + Z.of_nat (length l1) + 1 - 1)) with (length l1) by lia.
      exists c. split; [by rewrite list_lookup_middle|]. split; [done|]. split.
      * unfold cea_matches in Hm. by apply andb_true_iff in Hm as [_ Hm].
      * intros j c' Hj. rewrite lookup_app_l by done. intros Hc.
        by apply (Forall_lookup_1 _ _ _ _ Hall Hc).
Qed.
End Matching.

(** The tables with the flag values of the DRM interface. *)
Section Values.
#[local] Existing Instance interface_modes.

Definition ordered_b (t : timings) : bool :=
  (0 <=? hdisplay t) && (hdisplay t <=? hsync_start t) && (hsync_start t <? hsync_end t) &&
  (hsync_end t <=? htotal t) && (0 <=? vdisplay t) && (vdisplay t <=? vsync_start t) &&
  (vsync_start t <? vsync_end t) && (vsync_end t <=? vtotal t).

Lemma ordered_b_spec t : ordered_b t = true → timings_ordered t.
Proof. unfold ordered_b, timings_ordered. rewrite !andb_true_iff. lia. Qed.

(** [p] of every element, by computation. *)
Lemma forallb_elem {A} (p : A → bool) l x : forallb p l = true → x ∈ l → p x = true.
Proof. rewrite forallb_forall. intros Hall Hx. apply Hall. by apply list_elem_of_In. Qed.

(** Every DMT, established and CEA mode of the
    tables has ordered timings that stay within the limits drm_mode_sort and
    drm_mode_set_crtcinfo need, a positive clock, and the name drm_mode_set_name
    would give it. *)
Theorem standard_modes_well_formed m : m ∈ drm_dmt_modes ++ edid_est_modes ++ edid_cea_modes →
  timings_ordered (tm m) ∧ crtc_small (tm m) ∧ mode_small m ∧ 0 < clock (tm m) ∧
  mode_name (drm_mode_set_name m) = mode_name m.
Proof.
  intros Hm.
  assert (forallb (λ m, ordered_b (tm m) && (vtotal (tm m) * 2 * Z.max 1 (vscan (tm m)) <=? INT_MAX) &&
    (hdisplay (tm m) <=? 32767) && (vdisplay (tm m) <=? 32767) && (0 <=? vrefresh m) && (vrefresh m <=? INT_MAX) &&
    (0 <? clock (tm m)) && (clock (tm m) <=? INT_MAX) &&
    String.eqb (mode_name (drm_mode_set_name m)) (mode_name m))
    (drm_dmt_modes ++ edid_est_modes ++ edid_cea_modes) = true) as Hall by (vm_compute; reflexivity).
  pose proof (forallb_elem _ _ _ Hall Hm) as Hp. clear Hall. cbv beta in Hp.
  rewrite !andb_true_iff, String.eqb_eq in Hp.
  destruct Hp as [[[[[[[[Ho Hs] Hh] Hv] Hr0] Hr] Hc0] Hc] Hn]. apply ordered_b_spec in Ho.
  unfold crtc_small, mode_small. destruct Ho as ([? ?] & ? & [? ?] & ?).
  split_and!; try done; lia.
Qed.

(** Looking up the size, rate and blanking of any DMT mode
    gives back a copy of that very mode, with the new object id: no entry hides
    another.  Of the modes an EDID may name by a bit of its established timings
    III, 1792x1344 at 85 Hz alone is not in the table. *)
Theorem find_dmt_complete id :
  (∀ m, m ∈ drm_dmt_modes → ∃ m',
     drm_mode_find_dmt (Some id) (hdisplay (tm m)) (vdisplay (tm m)) (drm_mode_vrefresh m) (mode_is_rb m)
       = Some m' ∧ drm_mode_equal m' m = true ∧ base_id m' = id) ∧
  (∀ e, e ∈ est3_modes →
     drm_mode_find_dmt (Some id) (mini_w e) (mini_h e) (mini_r e) (z2b (mini_rb e)) = None ↔
     e = mk_mini 1792 1344 85 0).
Proof.
  split.
  - intros m Hm.
    assert (forallb (λ m, match List.find (dmt_matches (hdisplay (tm m)) (vdisplay (tm m))
      (drm_mode_vrefresh m) (mode_is_rb m)) drm_dmt_modes with
      Some p => drm_mode_equal p m | None => false end) drm_dmt_modes = true) as Hall by (vm_compute; reflexivity).
    pose proof (forallb_elem _ _ _ Hall Hm) as Hp. clear Hall. cbv beta in Hp. unfold drm_mode_find_dmt.
    destruct (List.find _ _) as [p|]; [|done]. unfold drm_mode_duplicate. cbn. eexists. split; [done|].
    split; [|done]. apply equal_ident. apply equal_ident in Hp. exact Hp.
  - intros e He.
    assert (forallb (λ e, Bool.eqb (match List.find (dmt_matches (mini_w e) (mini_h e)
      (mini_r e) (z2b (mini_rb e))) drm_dmt_modes with Some _ => false | None => true end)
      ((mini_w e =? 1792) && (mini_h e =? 1344) && (mini_r e =? 85) && (mini_rb e =? 0))) est3_modes = true)
      as Hall by (vm_compute; reflexivity).
    pose proof (forallb_elem _ _ _ Hall He) as Hp. clear Hall. cbv beta in Hp. apply Bool.eqb_prop in Hp.
    unfold drm_mode_find_dmt. destruct (List.find _ _) as [p|].
    + split; [done|]. intros ->. done.
    + split; [|done]. intros _. destruct e as [w h r b]. cbn in Hp. symmetry in Hp. bool_to_Z. by subst.
Qed.

(** A CEA mode of the table, with either of its two clocks,
    is recognised as a CEA mode with the same timings, the first such entry. *)
Theorem cea_roundtrip i c clk : edid_cea_modes !! i = Some c →
  clk = clock (tm c) ∨ clk = cea_mode_alternate_clock c →
  let t := tm c in
  let m := set_tm (mk_timings clk (hdisplay t) (hsync_start t) (hsync_end t) (htotal t) (hskew t)
    (vdisplay t) (vsync_start t) (vsync_end t) (vtotal t) (vscan t) (flags t)) c in
  ∃ k c', drm_match_cea_mode m = Z.of_nat k + 1 ∧ (k <= i)%nat ∧ edid_cea_modes !! k = Some c' ∧
    drm_mode_equal_no_clocks c' c = true ∧ clock (tm c') = clock (tm c).
Proof.
  intros Hc Hclk t m.
  assert (forallb (λ i, match edid_cea_modes !! i with
    | Some c => forallb (λ clk, let t := tm c in
        let k := drm_match_cea_mode (set_tm (mk_timings clk (hdisplay t) (hsync_start t) (hsync_end t) (htotal t)
          (hskew t) (vdisplay t) (vsync_start t) (vsync_end t) (vtotal t) (vscan t) (flags t)) c) in
        (1 <=? k) && (k <=? Z.of_nat i + 1) && match edid_cea_modes !! Z.to_nat (k - 1) with
          | Some c' => drm_mode_equal_no_clocks c' c && (clock (tm c') =? clock (tm c)) | None => false end)
        [clock (tm c); cea_mode_alternate_clock c]
    | None => false end) (seq 0 (length edid_cea_modes)) = true) as Hall by (vm_compute; reflexivity).
  assert (i ∈ seq 0 (length edid_cea_modes)) as Hi.
  { apply elem_of_seq. apply lookup_lt_Some in Hc. lia. }
  pose proof (forallb_elem _ _ _ Hall Hi) as Hp. clear Hall. cbv beta in Hp. rewrite Hc in Hp.
  assert (clk ∈ [clock (tm c); cea_mode_alternate_clock c]) as Hin.
  { rewrite !elem_of_cons. destruct Hclk; tauto. }
  pose proof (forallb_elem _ _ _ Hp Hin) as Hq. clear Hp. cbv beta zeta in Hq. fold t in Hq. fold m in Hq.
  set (k := drm_match_cea_mode m) in *. rewrite !andb_true_iff in Hq. destruct Hq as [[Hk1 Hk2] Hk3].
  destruct (edid_cea_modes !! Z.to_nat (k - 1)) as [c'|] eqn:Hc'; [|done].
  apply andb_true_iff in Hk3 as [Heq Hck]. apply Z.eqb_eq in Hck. clearbody k m.
  exists (Z.to_nat (k - 1)), c'. split_and!; try done; lia.
Qed.

(** The entry of code 32, 1920x1080 at 24 Hz by its comment
    and its timings, says 50 Hz; 50 is not a multiple of 6, so the mode gets no
    alternate (23.98 Hz) clock, which it would at its true rate. *)
Theorem cea_mode_32_rate : ∃ c, edid_cea_modes !! 31%nat = Some c ∧
  vrefresh c = 50 ∧ drm_mode_vrefresh (at_rate 0 c) = 24 ∧
  cea_mode_alternate_clock c = clock (tm c) ∧ cea_mode_alternate_clock (at_rate 24 c) = 74176.
Proof. eexists. split; [vm_compute; reflexivity|]. split_and!; vm_compute; reflexivity. Qed.

(** ** Witnesses *)

Lemma match_cea_mode_first_witness :
  let m := demo_mode 640 480 60 25175 0 in
  let k := drm_match_cea_mode m in
  0 <= k <= Z.of_nat (length edid_cea_modes) ∧
  (k = 0 ↔ ∀ c, c ∈ edid_cea_modes → cea_matches m c = false) ∧
  (k ≠ 0 → ∃ c, edid_cea_modes !! Z.to_nat (k - 1) = Some c ∧ cea_matches m c = true ∧
     drm_mode_equal_no_clocks m c = true ∧
     ∀ j c', (j < Z.to_nat (k - 1))%nat → edid_cea_modes !! j = Some c' → cea_matches m c' = false).
Proof. apply (match_cea_mode_first (demo_mode 640 480 60 25175 0)). discriminate. Defined.

Definition first_dmt : drm_display_mode := default (demo_mode 0 0 0 0 0) (head drm_dmt_modes).

Lemma standard_modes_well_formed_witness :
  timings_ordered (tm first_dmt) ∧ crtc_small (tm first_dmt) ∧ mode_small first_dmt ∧
  0 < clock (tm first_dmt) ∧ mode_name (drm_mode_set_name first_dmt) = mode_name first_dmt.
Proof. apply (standard_modes_well_formed first_dmt). apply elem_of_app. left. apply elem_of_cons. left. reflexivity. Defined.

Lemma cea_roundtrip_witness : ∃ c k c', edid_cea_modes !! 31%nat = Some c ∧
  drm_match_cea_mode (set_tm (tm c) c) = Z.of_nat k + 1 ∧ (k <= 31)%nat ∧
  edid_cea_modes !! k = Some c' ∧ drm_mode_equal_no_clocks c' c = true ∧ clock (tm c') = clock (tm c).
Proof.
  eexists. edestruct (cea_roundtrip 31) as (k & c' & Hk); [reflexivity|left; reflexivity|].
  exists k, c'. split; [reflexivity|]. exact Hk.
Defined.
End Values.
