(* ===== verification/Edid.v ===== *)
(** * drm_edid.c: EDID blocks

    The EDID of a monitor is a buffer of bytes; a pointer into it is an offset,
    and a read or write outside it is a fault ([None]).  This file models the
    validation of blocks, their transfer over the DDC bus, the walk over the
    detailed timing descriptors, and what is read straight from the base block:
    the vendor quirks, the secondary GTF curve and the standard timing level.
    The theorems: what drm_edid_block_valid accepts, that a fetched EDID is
    valid and no byte outside its buffer is touched when the monitor announces
    at most four extensions (and that a fifth one is written past the buffer),
    and that the walk never leaves a block. *)

From stdpp Require Import base option list strings.
From Stdlib Require Import ZArith Lia.
From S2P Require Import Prelude.

(** ** Buffers of bytes *)

Abbreviation bytes := (list Z).
Abbreviation byte := (λ b, 0 <= b < 256).

Definition rd (raw : bytes) (i : Z) : option Z := if i <? 0 then None else raw !! Z.to_nat i.
Definition wr (raw : bytes) (i v : Z) : option bytes :=
  if (i <? 0) || (Z.of_nat (length raw) <=? i) then None else Some (<[Z.to_nat i := u8 v]> raw).

(** The [n] bytes at [i], and the buffer with [data] copied to [i]. *)
Definition slice (raw : bytes) (i : Z) (n : nat) : option bytes :=
  if (i <? 0) || (Z.of_nat (length raw) <? i + Z.of_nat n) then None
  else Some (take n (drop (Z.to_nat i) raw)).
Definition memcpy (raw : bytes) (i : Z) (data : bytes) : option bytes :=
  if (i <? 0) || (Z.of_nat (length raw) <? i + Z.of_nat (length data)) then None
  else Some (take (Z.to_nat i) raw ++ data ++ drop (Z.to_nat i + length data) raw).

(** ** Constants of drm_edid.h *)

Definition EDID_LENGTH : Z := 128.
Definition DDC_ADDR : Z := 80.
Definition CEA_EXT : Z := 2.
Definition VTB_EXT : Z := 16.
Definition DRM_MAX_EDID_EXT_NUM : Z := 4.
Definition EDID_DETAILED_TIMINGS : nat := 4.
Definition EDID_DETAIL_MONITOR_RANGE : Z := 253.
Definition DRM_EDID_INPUT_DIGITAL : Z := 128.
Definition DRM_EDID_FEATURE_DEFAULT_GTF : Z := 1.

(** The fields of [struct edid], by their offsets in the packed structure. *)
Definition mfg_id : Z := 8.
Definition prod_code : Z := 10.
Definition version : Z := 18.
Definition revision : Z := 19.
Definition input : Z := 20.
Definition width_cm : Z := 21.
Definition height_cm : Z := 22.
Definition features : Z := 24.
Definition detailed_timings : Z := 54.
Definition extensions : Z := 126.

(** ** Validation *)

Definition edid_header : bytes := [0; 255; 255; 255; 255; 255; 255; 0].

(** The matches of the bytes at [i] with [hdr]. *)
Fixpoint header_score (raw : bytes) (i : Z) (hdr : bytes) : option Z :=
  match hdr with
  | [] => Some 0
  | h :: hdr => b ← rd raw i; s ← header_score raw (i + 1) hdr; Some (b2z (b =? h) + s)
  end.

Definition drm_edid_header_is_valid (raw : bytes) (edid : Z) : option Z :=
  header_score raw edid edid_header.

(** [csum += raw_edid[i]] for the [n] bytes at [i]. *)
Fixpoint csum_from (raw : bytes) (i : Z) (n : nat) (csum : Z) : option Z :=
  match n with
  | O => Some csum
  | S n => b ← rd raw i; csum_from raw (i + 1) n (u8 (csum + b))
  end.

(** [edid_fixup] after its range check. *)
Definition fixup_score (edid_fixup : Z) : Z :=
  if (8 <? edid_fixup) || (edid_fixup <? 0) then 6 else edid_fixup.

(** [edid]: the block's offset, [None] for NULL.  The verdict and the buffer,
    whose header may have been repaired. *)
Definition drm_edid_block_valid (edid_fixup : Z) (raw : bytes) (edid : option Z) (block : Z)
    : option (bool * bytes) :=
  match edid with
  | None => Some (false, raw)
  | Some edid =>
    score ← (if block =? 0 then drm_edid_header_is_valid raw edid else Some 8);
    if negb (score =? 8) && negb (fixup_score edid_fixup <=? score) then Some (false, raw) else
    raw ← (if negb (score =? 8) then memcpy raw edid edid_header else Some raw);
    csum ← csum_from raw edid 128 0;
    b0 ← rd raw edid;
    if negb (csum =? 0) && negb (b0 =? CEA_EXT) then Some (false, raw) else
    if b0 =? 0 then
      v ← rd raw (edid + version);
      if negb (v =? 1) then Some (false, raw) else Some (true, raw)
    else Some (true, raw)
  end.

(** The loop over the blocks, from block [i]; the number of extensions is read
    at each round. *)
Fixpoint blocks_valid (fuel : nat) (edid_fixup : Z) (raw : bytes) (i : Z) : option (bool * bytes) :=
  match fuel with
  | O => None
  | S fuel =>
    n ← rd raw extensions;
    if n <? i then Some (true, raw) else
    '(ok, raw) ← drm_edid_block_valid edid_fixup raw (Some (i * EDID_LENGTH)) i;
    if ok : bool then blocks_valid fuel edid_fixup raw (i + 1) else Some (false, raw)
  end.

Definition drm_edid_is_valid (edid_fixup : Z) (edid : option bytes) : option (bool * bytes) :=
  match edid with
  | None => Some (false, [])
  | Some raw => blocks_valid 257 edid_fixup raw 0
  end.

(** The [n] words of 32 bits at [i]. *)
Fixpoint words_zero (raw : bytes) (i : Z) (n : nat) : option bool :=
  match n with
  | O => Some true
  | S n =>
    b0 ← rd raw i; b1 ← rd raw (i + 1); b2 ← rd raw (i + 2); b3 ← rd raw (i + 3);
    if b0 + 256 * b1 + 65536 * b2 + 16777216 * b3 =? 0 then words_zero raw (i + 4) n else Some false
  end.

Definition drm_edid_is_zero (raw : bytes) (in_edid length : Z) : option bool :=
  words_zero raw in_edid (Z.to_nat (Z.quot length 4)).

(** ** The DDC bus *)

(** [struct i2c_msg]; its length is that of [msg_buf]. *)
Record i2c_msg := mk_msg { msg_addr : Z; msg_flags : Z; msg_buf : bytes }.

Definition I2C_M_RD : Z := 1.
Definition DDC_SEGMENT_ADDR : Z := 48.

(** What drm_edid.c expects of i2c_transfer: its result, what the buffer of the
    last message holds afterwards, and the adapter; it writes bytes, and nothing
    outside that buffer. *)
Class I2cAdapter (A : Type) := {
  i2c_transfer : A → list i2c_msg → Z * bytes * A;
  transfer_length a msgs m : list.last msgs = Some m →
    length (i2c_transfer a msgs).1.2 = length (msg_buf m);
  transfer_bytes a msgs m : list.last msgs = Some m → Forall byte (msg_buf m) →
    Forall byte (i2c_transfer a msgs).1.2;
}.

Section Fetch.
Context `{I2cAdapter A}.
Variable edid_fixup : Z.

(** The retries of drm_do_probe_ddc_edid; [ret] of the last transfer, what [buf]
    holds, and the adapter. *)
Fixpoint probe_loop (retries : nat) (segment start xfers : Z) (a : A) (buf : bytes) (ret : Z)
    : Z * bytes * A :=
  match retries with
  | O => (ret, buf, a)
  | S retries =>
    let msgs := [mk_msg DDC_SEGMENT_ADDR 0 [segment]; mk_msg DDC_ADDR 0 [start];
                 mk_msg DDC_ADDR I2C_M_RD buf] in
    let '(ret, buf, a) := i2c_transfer a (drop (Z.to_nat (3 - xfers)) msgs) in
    if ret =? - ENXIO then (ret, buf, a) else
    if negb (ret =? xfers) then probe_loop retries segment start xfers a buf ret else (ret, buf, a)
  end.

(** [buf] is the buffer the block is read to, all of it. *)
Definition drm_do_probe_ddc_edid (a : A) (buf : bytes) (block : Z) : Z * bytes * A :=
  let start := u8 (block * EDID_LENGTH) in
  let segment := u8 (Z.shiftr block 1) in
  let xfers := if z2b segment then 3 else 2 in
  let '(ret, buf, a) := probe_loop 5 segment start xfers a buf 0 in
  ((if ret =? xfers then 0 else -1), buf, a).

(** One block read to the offset [off] of [raw]. *)
Definition probe_block (a : A) (raw : bytes) (off block : Z) : option (Z * bytes * A) :=
  old ← slice raw off 128;
  let '(ret, new, a) := drm_do_probe_ddc_edid a old block in
  raw ← memcpy raw off new;
  Some (ret, raw, a).

(** How a loop over the attempts to read a block ends. *)
Inductive fetch_result := Fetched | GaveUp | Failed | NullEdid.

(** The base block: [goto out] is [Failed], [goto carp] [NullEdid] (after the
    increment of null_edid_counter) or [GaveUp] (when [i == 4]). *)
Fixpoint fetch_base (tries : nat) (i : Z) (a : A) (raw : bytes) : option (fetch_result * bytes * A) :=
  match tries with
  | O => Some (GaveUp, raw, a)
  | S tries =>
    '(ret, raw, a) ← probe_block a raw 0 0;
    if z2b ret then Some (Failed, raw, a) else
    '(ok, raw) ← drm_edid_block_valid edid_fixup raw (Some 0) 0;
    if ok : bool then Some (Fetched, raw, a) else
    zero ← (if i =? 0 then drm_edid_is_zero raw 0 EDID_LENGTH else Some false);
    if zero : bool then Some (NullEdid, raw, a) else fetch_base tries (i + 1) a raw
  end.

(** One extension block [j], at the offset [off]. *)
Fixpoint fetch_ext (tries : nat) (off j : Z) (a : A) (raw : bytes) : option (fetch_result * bytes * A) :=
  match tries with
  | O => Some (GaveUp, raw, a)
  | S tries =>
    '(ret, raw, a) ← probe_block a raw off j;
    if z2b ret then Some (Failed, raw, a) else
    '(ok, raw) ← drm_edid_block_valid edid_fixup raw (Some off) j;
    if ok : bool then Some (Fetched, raw, a) else fetch_ext tries off j a raw
  end.

(** The extensions from [j] on; [Some valid] is the number of valid ones, [None]
    the [goto out]. *)
Fixpoint fetch_exts (fuel : nat) (j valid_extensions : Z) (a : A) (raw : bytes)
    : option (option Z * bytes * A) :=
  match fuel with
  | O => None
  | S fuel =>
    n ← rd raw extensions;
    if n <? j then Some (Some valid_extensions, raw, a) else
    '(r, raw, a) ← fetch_ext 4 ((valid_extensions + 1) * EDID_LENGTH) j a raw;
    match r with
    | Failed => Some (None, raw, a)
    | Fetched => fetch_exts fuel (j + 1) (u8 (valid_extensions + 1)) a raw
    | _ => fetch_exts fuel (j + 1) valid_extensions a raw
    end
  end.

(** The counters of the connector. *)
Record edid_counters := mk_counters { null_edid_counter : Z; bad_edid_counter : Z }.

(** [block]: what kmalloc returns, [None] for NULL. *)
Definition drm_do_get_edid (c : edid_counters) (a : A) (block : option bytes)
    : option (option bytes * edid_counters * A) :=
  match block with
  | None => Some (None, c, a)
  | Some raw =>
    '(r, raw, a) ← fetch_base 4 0 a raw;
    match r with
    | Failed => Some (None, c, a)
    | GaveUp => Some (None, mk_counters (null_edid_counter c) (u32 (bad_edid_counter c + 1)), a)
    | NullEdid =>
      Some (None, mk_counters (i32 (null_edid_counter c + 1)) (u32 (bad_edid_counter c + 1)), a)
    | Fetched =>
      n ← rd raw extensions;
      if n =? 0 then Some (Some raw, c, a) else
      '(v, raw, a) ← fetch_exts 256 1 0 a raw;
      match v with
      | None => Some (None, c, a)
      | Some valid_extensions =>
        n ← rd raw extensions;
        if negb (valid_extensions =? n) then
          s ← rd raw (EDID_LENGTH - 1);
          raw ← wr raw (EDID_LENGTH - 1) (s + (n - valid_extensions));
          raw ← wr raw extensions valid_extensions;
          Some (Some raw, c, a)
        else Some (Some raw, c, a)
      end
    end
  end.

Definition drm_probe_ddc (a : A) (out : Z) : bool * A :=
  let '(ret, _, a) := drm_do_probe_ddc_edid a [out] 0 in (ret =? 0, a).

(** [out]: the uninitialised byte drm_probe_ddc reads to. *)
Definition drm_get_edid (c : edid_counters) (a : A) (out : Z) (block : option bytes)
    : option (option bytes * edid_counters * A) :=
  let '(present, a) := drm_probe_ddc a out in
  if present : bool then drm_do_get_edid c a block else Some (None, c, a).

End Fetch.

(** ** Vendor quirks *)

Definition EDID_QUIRK_PREFER_LARGE_60 : Z := 1.
Definition EDID_QUIRK_135_CLOCK_TOO_HIGH : Z := 2.
Definition EDID_QUIRK_PREFER_LARGE_75 : Z := 4.
Definition EDID_QUIRK_DETAILED_IN_CM : Z := 8.
Definition EDID_QUIRK_DETAILED_USE_MAXIMUM_SIZE : Z := 16.
Definition EDID_QUIRK_FIRST_DETAILED_PREFERRED : Z := 32.
Definition EDID_QUIRK_DETAILED_SYNC_PP : Z := 64.
Definition EDID_QUIRK_FORCE_REDUCED_BLANKING : Z := 128.

Record edid_quirk := mk_quirk { vendor : string; product_id : Z; quirks : Z }.

Definition edid_quirk_list : list edid_quirk := [
  mk_quirk "ACR" 44358 EDID_QUIRK_PREFER_LARGE_60;
  mk_quirk "API" 30210 EDID_QUIRK_PREFER_LARGE_60;
  mk_quirk "ACR" 2423 EDID_QUIRK_FIRST_DETAILED_PREFERRED;
  mk_quirk "MAX" 1516 EDID_QUIRK_PREFER_LARGE_60;
  mk_quirk "MAX" 1918 EDID_QUIRK_PREFER_LARGE_60;
  mk_quirk "EPI" 59264 EDID_QUIRK_135_CLOCK_TOO_HIGH;
  mk_quirk "EPI" 8232 EDID_QUIRK_PREFER_LARGE_60;
  mk_quirk "FCM" 13600 (Z.lor EDID_QUIRK_PREFER_LARGE_75 EDID_QUIRK_DETAILED_IN_CM);
  mk_quirk "LPL" 0 EDID_QUIRK_DETAILED_USE_MAXIMUM_SIZE;
  mk_quirk "LPL" 10752 EDID_QUIRK_DETAILED_USE_MAXIMUM_SIZE;
  mk_quirk "PHL" 57364 EDID_QUIRK_FIRST_DETAILED_PREFERRED;
  mk_quirk "PTS" 765 EDID_QUIRK_FIRST_DETAILED_PREFERRED;
  mk_quirk "SAM" 541 EDID_QUIRK_DETAILED_SYNC_PP;
  mk_quirk "SAM" 596 EDID_QUIRK_PREFER_LARGE_60;
  mk_quirk "SAM" 638 EDID_QUIRK_PREFER_LARGE_60;
  mk_quirk "VSC" 5020 EDID_QUIRK_FORCE_REDUCED_BLANKING].

(** The codes of the characters of a string. *)
Definition codes (s : string) : list Z :=
  (λ c, Z.of_nat (Ascii.nat_of_ascii c)) <$> String.list_ascii_of_string s.

(** The three letters packed in the vendor field. *)
Definition vendor_codes (id0 id1 : Z) : list Z :=
  [u8 (Z.shiftr (Z.land id0 124) 2 + 64);
   u8 (Z.lor (Z.shiftl (Z.land id0 3) 3) (Z.shiftr (Z.land id1 224) 5) + 64);
   u8 (Z.land id1 31 + 64)].

(** [strncmp(edid_vendor, vendor, 3)]; no code of [vendor_codes] is 0. *)
Definition edid_vendor (raw : bytes) (vendor : string) : option bool :=
  id0 ← rd raw mfg_id; id1 ← rd raw (mfg_id + 1);
  Some (bool_decide (vendor_codes id0 id1 = take 3 (codes vendor))).

Definition EDID_PRODUCT_ID (raw : bytes) : option Z :=
  p0 ← rd raw prod_code; p1 ← rd raw (prod_code + 1); Some (Z.lor p0 (Z.shiftl p1 8)).

Fixpoint find_quirks (raw : bytes) (l : list edid_quirk) : option Z :=
  match l with
  | [] => Some 0
  | quirk :: l =>
    v ← edid_vendor raw (vendor quirk); p ← EDID_PRODUCT_ID raw;
    if v && (p =? product_id quirk) then Some (quirks quirk) else find_quirks raw l
  end.

Definition edid_get_quirks (raw : bytes) : option Z := find_quirks raw edid_quirk_list.

(** ** Detailed timings *)

(** The callback on [n] timings of 18 bytes from [base]. *)
Fixpoint each_timing {S} (cb : Z → S → option S) (n : nat) (base : Z) (closure : S) : option S :=
  match n with
  | O => Some closure
  | Datatypes.S n => closure ← cb base closure; each_timing cb n (base + 18) closure
  end.

Section Walk.
Context {S : Type}.
Variables (raw : bytes) (cb : Z → S → option S).

Definition cea_for_each_detailed_block (ext : Z) (closure : S) : option S :=
  d ← rd raw (ext + 2);
  each_timing cb (Z.to_nat (Z.quot (127 - d) 18)) (ext + d) closure.

Definition vtb_for_each_detailed_block (ext : Z) (closure : S) : option S :=
  b2 ← rd raw (ext + 2);
  b1 ← rd raw (ext + 1);
  if negb (b1 =? 1) then Some closure
  else each_timing cb (Z.to_nat (cmin b2 6)) (ext + 5) closure.

Fixpoint each_extension (fuel : nat) (i : Z) (closure : S) : option S :=
  match fuel with
  | O => None
  | Datatypes.S fuel =>
    n ← rd raw extensions;
    if n <? i then Some closure else
    let ext := i * EDID_LENGTH in
    tag ← rd raw ext;
    closure ← (if tag =? CEA_EXT then cea_for_each_detailed_block ext closure
               else if tag =? VTB_EXT then vtb_for_each_detailed_block ext closure
               else Some closure);
    each_extension fuel (i + 1) closure
  end.

Definition drm_for_each_detailed_block (closure : S) : option S :=
  closure ← each_timing cb EDID_DETAILED_TIMINGS detailed_timings closure;
  each_extension 256 1 closure.
End Walk.

Definition is_rb (raw : bytes) (t : Z) (data : bool) : option bool :=
  r3 ← rd raw (t + 3);
  if r3 =? EDID_DETAIL_MONITOR_RANGE then
    r15 ← rd raw (t + 15);
    if z2b (Z.land r15 16) then Some true else Some data
  else Some data.

Definition drm_monitor_supports_rb (raw : bytes) : option bool :=
  rev ← rd raw revision;
  if 4 <=? rev then drm_for_each_detailed_block raw (is_rb raw) false
  else inp ← rd raw input; Some (z2b (Z.land inp DRM_EDID_INPUT_DIGITAL)).

(** ** The secondary GTF curve and the timing level *)

(** [data]: the pointer to the last descriptor found, as its offset. *)
Definition find_gtf2 (raw : bytes) (t : Z) (data : option Z) : option (option Z) :=
  r3 ← rd raw (t + 3);
  if r3 =? EDID_DETAIL_MONITOR_RANGE then
    r10 ← rd raw (t + 10); if r10 =? 2 then Some (Some t) else Some data
  else Some data.

Definition gtf2_range (raw : bytes) : option (option Z) :=
  drm_for_each_detailed_block raw (find_gtf2 raw) None.

Definition drm_gtf2_hbreak (raw : bytes) : option Z :=
  r ← gtf2_range raw;
  match r with Some r => b ← rd raw (r + 12); Some (b * 2) | None => Some 0 end.
Definition drm_gtf2_2c (raw : bytes) : option Z :=
  r ← gtf2_range raw;
  match r with Some r => rd raw (r + 13) | None => Some 0 end.
Definition drm_gtf2_m (raw : bytes) : option Z :=
  r ← gtf2_range raw;
  match r with
  | Some r => hi ← rd raw (r + 15); lo ← rd raw (r + 14); Some (Z.shiftl hi 8 + lo)
  | None => Some 0
  end.
Definition drm_gtf2_k (raw : bytes) : option Z :=
  r ← gtf2_range raw;
  match r with Some r => rd raw (r + 16) | None => Some 0 end.
Definition drm_gtf2_2j (raw : bytes) : option Z :=
  r ← gtf2_range raw;
  match r with Some r => rd raw (r + 17) | None => Some 0 end.

Definition LEVEL_DMT : Z := 0.
Definition LEVEL_GTF : Z := 1.
Definition LEVEL_GTF2 : Z := 2.
Definition LEVEL_CVT : Z := 3.

Definition standard_timing_level (raw : bytes) : option Z :=
  rev ← rd raw revision;
  if 2 <=? rev then
    feat ← rd raw features;
    if (4 <=? rev) && z2b (Z.land feat DRM_EDID_FEATURE_DEFAULT_GTF) then Some LEVEL_CVT else
    hbreak ← drm_gtf2_hbreak raw;
    if z2b hbreak then Some LEVEL_GTF2 else Some LEVEL_GTF
  else Some LEVEL_DMT.

Definition bad_std_timing (a b : Z) : bool :=
  ((a =? 0) && (b =? 0)) || ((a =? 1) && (b =? 1)) || ((a =? 32) && (b =? 32)).

(** [version_greater]. *)
Definition version_greater (raw : bytes) (maj min : Z) : option bool :=
  v ← rd raw version; r ← rd raw revision; Some ((maj <? v) || ((v =? maj) && (min <? r))).

(** ** Lemmas on buffers *)

Definition zsum (l : list Z) : Z := foldr Z.add 0 l.

Lemma zsum_app l k : zsum (l ++ k) = zsum l + zsum k.
Proof. unfold zsum. induction l as [|x l IH]; cbn; [done|]. rewrite IH. lia. Qed.

Lemma rd_app pre l i : 0 <= i → rd (pre ++ l) (Z.of_nat (length pre) + i) = rd l i.
Proof.
  intros Hi. unfold rd. rewrite (proj2 (Z.ltb_ge _ _)), (proj2 (Z.ltb_ge _ _)) by lia.
  rewrite lookup_app_r by lia. f_equal. lia.
Qed.

Lemma rd_app0 pre l : rd (pre ++ l) (Z.of_nat (length pre)) = rd l 0.
Proof. rewrite <- (rd_app pre l 0) by done. f_equal. lia. Qed.

Lemma rd_head pre b l : rd (pre ++ b :: l) (Z.of_nat (length pre)) = Some b.
Proof. by rewrite rd_app0. Qed.

(** The offset after the byte [b]. *)
Lemma next_off pre (b : Z) : Z.of_nat (length pre) + 1 = Z.of_nat (length (pre ++ [b])).
Proof. rewrite length_app. cbn. lia. Qed.

Lemma rd_app_l l post i : i < Z.of_nat (length l) → rd (l ++ post) i = rd l i.
Proof. intros Hi. unfold rd. destruct (Z.ltb_spec i 0); [done|]. by rewrite lookup_app_l by lia. Qed.

Lemma rd_is_Some raw i : 0 <= i < Z.of_nat (length raw) → is_Some (rd raw i).
Proof.
  intros Hi. unfold rd. rewrite (proj2 (Z.ltb_ge _ _)) by lia. apply lookup_lt_is_Some. lia.
Qed.

Lemma rd_byte raw i b : Forall byte raw → rd raw i = Some b → 0 <= b < 256.
Proof.
  intros Hb. unfold rd. case_bool; [done|]. intros Hl. exact (Forall_lookup_1 _ _ _ _ Hb Hl).
Qed.

Lemma rd_cons_S b raw i : 0 <= i → rd (b :: raw) (i + 1) = rd raw i.
Proof.
  intros Hi. unfold rd. rewrite (proj2 (Z.ltb_ge _ _)), (proj2 (Z.ltb_ge _ _)) by lia.
  by rewrite (Z2Nat.inj_add i 1), Nat.add_comm by lia.
Qed.

Lemma memcpy_run pre old post data : length data = length old →
  memcpy (pre ++ old ++ post) (Z.of_nat (length pre)) data = Some (pre ++ data ++ post).
Proof.
  intros Hlen. unfold memcpy. rewrite !length_app.
  rewrite (proj2 (Z.ltb_ge _ _)), (proj2 (Z.ltb_ge _ _)) by lia. cbn [orb].
  rewrite Nat2Z.id, take_app_length, Hlen.
  by rewrite <- drop_drop, !drop_app_length.
Qed.

Lemma slice_run pre blk post :
  slice (pre ++ blk ++ post) (Z.of_nat (length pre)) (length blk) = Some blk.
Proof.
  unfold slice. rewrite !length_app. rewrite (proj2 (Z.ltb_ge _ _)), (proj2 (Z.ltb_ge _ _)) by lia.
  cbn [orb]. by rewrite Nat2Z.id, drop_app_length, take_app_length.
Qed.

Lemma csum_from_run pre blk post c : 0 <= c < 256 →
  csum_from (pre ++ blk ++ post) (Z.of_nat (length pre)) (length blk) c = Some ((c + zsum blk) mod 256).
Proof.
  revert pre c. induction blk as [|b blk IH]; intros pre c Hc; cbn [length csum_from zsum foldr].
  - f_equal. rewrite Z.add_0_r. symmetry. by apply Z.mod_small.
  - cbn [app]. rewrite rd_head. cbn [mbind option_bind]. rewrite (next_off pre b).
    change (pre ++ b :: blk ++ post) with (pre ++ [b] ++ blk ++ post). rewrite (app_assoc pre).
    rewrite IH by (apply (wrap_range 8); done). unfold wrap. change (2 ^ 8) with 256.
    rewrite Zplus_mod_idemp_l. do 2 f_equal. unfold zsum. lia.
Qed.

(** How many bytes of [blk] match [hdr]. *)
Fixpoint matches (blk hdr : bytes) : Z :=
  match blk, hdr with
  | b :: blk, h :: hdr => b2z (b =? h) + matches blk hdr
  | _, _ => 0
  end.

Lemma header_score_run pre blk post hdr : (length hdr <= length blk)%nat →
  header_score (pre ++ blk ++ post) (Z.of_nat (length pre)) hdr = Some (matches blk hdr).
Proof.
  revert pre blk. induction hdr as [|h hdr IH]; intros pre [|b blk] Hl; cbn in Hl; try done; try lia.
  cbn [header_score app]. rewrite rd_head. cbn [mbind option_bind]. rewrite (next_off pre b).
  change (pre ++ b :: blk ++ post) with (pre ++ [b] ++ blk ++ post). rewrite (app_assoc pre).
  rewrite IH by lia. done.
Qed.

Lemma matches_bounds blk hdr : 0 <= matches blk hdr <= Z.of_nat (length hdr).
Proof.
  revert blk. induction hdr as [|h hdr IH]; intros [|b blk]; cbn; try lia.
  specialize (IH blk). unfold b2z. destruct (b =? h); lia.
Qed.

Lemma matches_full blk hdr : matches blk hdr = Z.of_nat (length hdr) → ∃ rest, blk = hdr ++ rest.
Proof.
  revert blk. induction hdr as [|h hdr IH]; intros [|b blk]; cbn [matches length]; intros Hm; try lia;
    try (by eexists).
  pose proof (matches_bounds blk hdr) as Hb. revert Hm. unfold b2z. case_bool; intros Hm; [|lia].
  subst. destruct (IH blk) as [rest ->]; [lia|]. by exists rest.
Qed.

Lemma matches_header rest : matches (edid_header ++ rest) edid_header = 8.
Proof. by destruct rest. Qed.

(** ** The verdict on one block *)

(** The block as the check leaves it, and whether it is accepted. *)
Definition repaired (fx block : Z) (blk : bytes) : bytes :=
  if (block =? 0) && (fixup_score fx <=? matches blk edid_header) && negb (matches blk edid_header =? 8)
  then edid_header ++ drop 8 blk else blk.

Definition accepted (fx block : Z) (blk : bytes) : Prop :=
  (block = 0 → fixup_score fx <= matches blk edid_header) ∧
  let b := repaired fx block blk in
  (zsum b mod 256 = 0 ∨ rd b 0 = Some CEA_EXT) ∧ (rd b 0 = Some 0 → rd b version = Some 1).

Lemma fixup_le8 fx : fixup_score fx <= 8.
Proof. unfold fixup_score. destruct (Z.ltb_spec 8 fx); cbn [orb]; [lia|]. case_bool; lia. Qed.

Lemma repaired_length fx block blk : length blk = 128%nat → length (repaired fx block blk) = 128%nat.
Proof.
  intros Hl. unfold repaired. destruct (_ && _ && _); [|done]. rewrite length_app, length_drop, Hl. done.
Qed.

Lemma repaired_tail fx block blk i : 8 <= i → length blk = 128%nat → rd (repaired fx block blk) i = rd blk i.
Proof.
  intros Hi Hl. unfold repaired. destruct (_ && _ && _); [|done].
  replace i with (Z.of_nat (length edid_header) + (i - 8)) by (cbn; lia).
  rewrite rd_app by lia. unfold rd. cbn [length edid_header].
  rewrite (proj2 (Z.ltb_ge _ _)), (proj2 (Z.ltb_ge _ _)) by lia. rewrite lookup_drop. f_equal. lia.
Qed.

Lemma block_valid_run fx pre blk post block : length blk = 128%nat →
  ∃ v, drm_edid_block_valid fx (pre ++ blk ++ post) (Some (Z.of_nat (length pre))) block =
         Some (v, pre ++ repaired fx block blk ++ post) ∧ (v = true ↔ accepted fx block blk).
Proof.
  intros Hl. unfold drm_edid_block_valid, drm_edid_header_is_valid.
  assert ((if block =? 0 then header_score (pre ++ blk ++ post) (Z.of_nat (length pre)) edid_header
           else Some 8) = Some (if block =? 0 then matches blk edid_header else 8)) as ->.
  { case_bool; [|done]. apply header_score_run. rewrite Hl. cbn. lia. }
  cbn [mbind option_bind]. pose proof (fixup_le8 fx) as Hfx.
  set (score := if block =? 0 then matches blk edid_header else 8).
  destruct (negb (score =? 8) && negb (fixup_score fx <=? score)) eqn:Hbad.
  - exists false. apply andb_true_iff in Hbad as [Hs8 Hlow].
    apply negb_true_iff, Z.eqb_neq in Hs8. apply negb_true_iff, Z.leb_gt in Hlow.
    assert (block = 0) as ->. { destruct (Z.eqb_spec block 0); [done|]. unfold score in Hs8. done. }
    unfold score in *. cbn [Z.eqb] in *. unfold repaired, accepted.
    rewrite (proj2 (Z.leb_gt _ _)) by lia. cbn [Z.eqb andb]. split; [done|].
    split; [done|]. intros [Hsc _]. specialize (Hsc eq_refl). lia.
  - assert ((if negb (score =? 8) then memcpy (pre ++ blk ++ post) (Z.of_nat (length pre)) edid_header
             else Some (pre ++ blk ++ post)) = Some (pre ++ repaired fx block blk ++ post)) as ->.
    { unfold repaired. unfold score in Hbad |- *. destruct (Z.eqb_spec block 0) as [-> | Hb]; [|done].
      destruct (Z.eqb_spec (matches blk edid_header) 8); cbn [negb andb] in Hbad |- *; [by rewrite andb_false_r|].
      apply negb_false_iff, Z.leb_le in Hbad. rewrite (proj2 (Z.leb_le _ _)) by lia. cbn [andb].
      rewrite <- (take_drop 8 blk) at 1. rewrite <- app_assoc, memcpy_run; [by rewrite <- app_assoc|].
      rewrite length_take, Hl. done. }
    cbn [mbind option_bind]. set (b := repaired fx block blk).
    assert (length b = 128%nat) as Hbl by by apply repaired_length.
    rewrite <- Hbl, csum_from_run by lia. cbn [mbind option_bind]. rewrite Z.add_0_l, rd_app0.
    rewrite (rd_app_l b) by lia. destruct (rd_is_Some b 0) as [b0 Hb0]; [lia|]. rewrite Hb0.
    cbn [mbind option_bind]. rewrite rd_app, (rd_app_l b) by (unfold version; lia).
    destruct (rd_is_Some b version) as [v Hv]; [unfold version; lia|]. rewrite Hv.
    assert (block = 0 → fixup_score fx <= matches blk edid_header) as Hscore.
    { intros ->. unfold score in Hbad. cbn [Z.eqb] in Hbad.
      destruct (Z.eqb_spec (matches blk edid_header) 8) as [-> | ?]; [done|]. cbn [negb andb] in Hbad.
      by apply negb_false_iff, Z.leb_le in Hbad. }
    cbn [mbind option_bind]. unfold accepted. cbv zeta. fold b. rewrite Hb0, Hv.
    destruct (Z.eqb_spec (zsum b mod 256) 0) as [Hz|Hz], (Z.eqb_spec b0 CEA_EXT) as [Hc|Hc]; cbn [negb andb].
    all: try (exists false; split; [done|]; split; [done|]; intros (_ & [?|[=]] & _); done).
    all: destruct (Z.eqb_spec b0 0) as [H0|H0]; [destruct (Z.eqb_spec v 1) as [H1|H1]; cbn [negb]|].
    all: (exists false; split; [done|]; split; [done|]; intros (_ & _ & H2); rewrite H0 in H2;
          specialize (H2 eq_refl); congruence) || (exists true; split; [done|]; split; [|done]; intros _;
          split; [done|]; split; [|intros [=]; congruence]; (by left) || (right; congruence)).
Qed.

(** ** Fetching *)

(** The first block of a list of blocks is the base block. *)
Fixpoint blocks_accepted (fx i : Z) (bs : list bytes) : Prop :=
  match bs with
  | [] => True
  | b :: bs => length b = 128%nat ∧ accepted fx i b ∧ repaired fx i b = b ∧ blocks_accepted fx (i + 1) bs
  end.

Lemma repaired_ext fx block blk : block ≠ 0 → repaired fx block blk = blk.
Proof. intros Hb. unfold repaired. by rewrite (proj2 (Z.eqb_neq _ _)). Qed.

Lemma accepted_ext fx j j' blk : j ≠ 0 → j' ≠ 0 → accepted fx j blk → accepted fx j' blk.
Proof.
  intros Hj Hj'. unfold accepted. cbv zeta. rewrite !repaired_ext by done. tauto.
Qed.

Lemma repaired_idem fx blk : length blk = 128%nat → accepted fx 0 blk →
  accepted fx 0 (repaired fx 0 blk) ∧ repaired fx 0 (repaired fx 0 blk) = repaired fx 0 blk ∧
  ∃ rest, repaired fx 0 blk = edid_header ++ rest.
Proof.
  intros Hl [Hsc Hok]. specialize (Hsc eq_refl).
  assert (∃ rest, repaired fx 0 blk = edid_header ++ rest) as [rest Hr].
  { unfold repaired. rewrite (proj2 (Z.leb_le _ _)) by done. cbn [Z.eqb andb].
    destruct (Z.eqb_spec (matches blk edid_header) 8) as [H8|H8]; cbn [negb]; [|by eexists].
    by apply (matches_full blk edid_header). }
  assert (repaired fx 0 (edid_header ++ rest) = edid_header ++ rest) as Hrr.
  { unfold repaired. rewrite matches_header. by rewrite andb_false_r. }
  rewrite Hr in *. split_and!; [|done|by exists rest].
  unfold accepted. cbv zeta. rewrite Hrr, matches_header. split; [|done].
  intros _. apply fixup_le8.
Qed.

Lemma blocks_accepted_app fx i bs b : blocks_accepted fx i bs → length b = 128%nat →
  0 < i + Z.of_nat (length bs) → accepted fx (i + Z.of_nat (length bs)) b →
  blocks_accepted fx i (bs ++ [b]).
Proof.
  revert i. induction bs as [|x bs IH]; intros i Hbs Hl Hi Hb; cbn [app blocks_accepted length] in *.
  - rewrite Z.add_0_r in *. split_and!; try done. apply repaired_ext. lia.
  - destruct Hbs as (? & ? & ? & Hbs). split_and!; try done.
    replace (i + Z.of_nat (S (length bs))) with (i + 1 + Z.of_nat (length bs)) in * by lia.
    by apply IH.
Qed.

Lemma concat_length_blocks fx i bs : blocks_accepted fx i bs → length (concat bs) = (128 * length bs)%nat.
Proof.
  revert i. induction bs as [|b bs IH]; intros i; cbn; [done|]. intros (Hb & _ & _ & Hbs).
  rewrite length_app, Hb, (IH _ Hbs). lia.
Qed.

Lemma blocks_valid_run fx fuel pre bs rest i n : blocks_accepted fx i bs →
  Z.of_nat (length pre) = i * 128 → rd (pre ++ concat bs ++ rest) extensions = Some n →
  n = i + Z.of_nat (length bs) - 1 → (length bs < fuel)%nat →
  blocks_valid fuel fx (pre ++ concat bs ++ rest) i = Some (true, pre ++ concat bs ++ rest).
Proof.
  revert fuel pre i. induction bs as [|b bs IH]; intros [|fuel] pre i Hbs Hpre Hn Hcnt Hf;
    cbn [length] in Hf; try lia; cbn [blocks_valid]; rewrite Hn; cbn [mbind option_bind].
  - cbn [length] in Hcnt. by rewrite (proj2 (Z.ltb_lt _ _)) by lia.
  - cbn [length] in Hcnt. rewrite (proj2 (Z.ltb_ge _ _)) by lia.
    destruct Hbs as (Hl & Hacc & Hrep & Hbs). unfold EDID_LENGTH. rewrite <- Hpre. cbn [concat] in *.
    rewrite <- !app_assoc in *.
    destruct (block_valid_run fx pre b (concat bs ++ rest) i Hl) as (v & Hrun & Hv).
    rewrite Hrun, Hrep, (proj2 Hv Hacc). cbn [mbind option_bind].
    rewrite (app_assoc pre b) in *. apply IH; [done| |done|lia|lia].
    rewrite length_app, Hl. lia.
Qed.

Lemma words_zero_Some raw i n : 0 <= i → i + 4 * Z.of_nat n <= Z.of_nat (length raw) →
  ∃ b, words_zero raw i n = Some b.
Proof.
  revert i. induction n as [|n IH]; intros i Hi Hn; cbn [words_zero]; [by eexists|].
  destruct (rd_is_Some raw i) as [? ->]; [lia|]. destruct (rd_is_Some raw (i + 1)) as [? ->]; [lia|].
  destruct (rd_is_Some raw (i + 2)) as [? ->]; [lia|]. destruct (rd_is_Some raw (i + 3)) as [? ->]; [lia|].
  cbn [mbind option_bind]. case_bool; [apply IH; lia|by eexists].
Qed.

Section FetchLemmas.
Context `{I2cAdapter A}.
Variable fx : Z.

(** The messages of a block are answered by a transfer of the wanted number of
    messages, or the probe fails. *)
Lemma probe_loop_run n seg start xfers a buf r ret buf' a' : xfers = 3 ∨ xfers = 2 → r ≠ xfers →
  probe_loop n seg start xfers a buf r = (ret, buf', a') →
  length buf' = length buf ∧ (Forall byte buf → Forall byte buf') ∧
  (ret = xfers → ∃ a0 old, length old = length buf ∧
     (i2c_transfer a0 (drop (Z.to_nat (3 - xfers))
        [mk_msg DDC_SEGMENT_ADDR 0 [seg]; mk_msg DDC_ADDR 0 [start]; mk_msg DDC_ADDR I2C_M_RD old])).1
     = (xfers, buf')).
Proof.
  intros Hx. revert a buf r. induction n as [|n IH]; intros a buf r Hr; cbn [probe_loop].
  - intros [= <- <- <-]. done.
  - set (msgs := [_; _; _]).
    assert (list.last (drop (Z.to_nat (3 - xfers)) msgs) = Some (mk_msg DDC_ADDR I2C_M_RD buf)) as Hlast.
    { by destruct Hx as [-> | ->]. }
    pose proof (transfer_length a _ _ Hlast) as Hlen. pose proof (transfer_bytes a _ _ Hlast) as Hby.
    destruct (i2c_transfer a _) as [[ret1 buf1] a1] eqn:Hxf. cbn [fst snd msg_buf] in Hlen, Hby.
    destruct (Z.eqb_spec ret1 (- ENXIO)) as [-> | Hne].
    + intros [= <- <- <-]. split_and!; [done..|]. unfold ENXIO. lia.
    + destruct (Z.eqb_spec ret1 xfers) as [Heq|Hnx]; cbn [negb].
      * intros [= <- <- <-]. split_and!; [done..|]. intros _.
        exists a, buf. split; [done|]. subst ret1. fold msgs. by rewrite Hxf.
      * intros Hrun. destruct (IH a1 buf1 ret1 Hnx Hrun) as (Hl & Hb & Hex).
        split_and!; [congruence|by auto|]. intros Hret. destruct (Hex Hret) as (a0 & old & ? & ?).
        exists a0, old. split; [congruence|done].
Qed.

Lemma probe_run a buf block ret buf' a' : drm_do_probe_ddc_edid a buf block = (ret, buf', a') →
  length buf' = length buf ∧ (Forall byte buf → Forall byte buf') ∧
  (ret = 0 → ∃ a0 old, length old = length buf ∧
     let seg := u8 (Z.shiftr block 1) in
     let xfers := if z2b seg then 3 else 2 in
     (i2c_transfer a0 (drop (Z.to_nat (3 - xfers))
        [mk_msg DDC_SEGMENT_ADDR 0 [seg]; mk_msg DDC_ADDR 0 [u8 (block * EDID_LENGTH)];
         mk_msg DDC_ADDR I2C_M_RD old])).1 = (xfers, buf')).
Proof.
  unfold drm_do_probe_ddc_edid. cbv zeta. set (seg := u8 (Z.shiftr block 1)).
  set (xfers := if z2b seg then 3 else 2).
  assert (xfers = 3 ∨ xfers = 2) as Hx by (unfold xfers; destruct (z2b seg); auto). clearbody xfers.
  destruct (probe_loop 5 _ _ _ _ _ _) as [[r1 b1] a1] eqn:Hp. intros [= <- <- <-].
  apply probe_loop_run in Hp as (Hl & Hb & Hex); [|done|lia].
  split_and!; [done..|]. case_bool; [|done]. by intros _; apply Hex.
Qed.

(** A block is read in place. *)
Lemma probe_block_run a pre blk post block : length blk = 128%nat →
  ∃ ret blk' a', probe_block a (pre ++ blk ++ post) (Z.of_nat (length pre)) block =
      Some (ret, pre ++ blk' ++ post, a') ∧
    drm_do_probe_ddc_edid a blk block = (ret, blk', a') ∧ length blk' = 128%nat ∧
    (Forall byte blk → Forall byte blk').
Proof.
  intros Hl. unfold probe_block. 
  assert (slice (pre ++ blk ++ post) (Z.of_nat (length pre)) 128 = Some blk) as ->
    by (rewrite <- Hl; apply slice_run).
  cbn [mbind option_bind].
  destruct (drm_do_probe_ddc_edid a blk block) as [[ret blk'] a'] eqn:Hp.
  destruct (probe_run _ _ _ _ _ _ Hp) as (Hlen & Hb & _).
  rewrite memcpy_run by done. exists ret, blk', a'. split_and!; try done. congruence.
Qed.

Lemma fetch_ext_run tries pre blk post j a : length blk = 128%nat → j ≠ 0 →
  ∃ r blk' a', fetch_ext fx tries (Z.of_nat (length pre)) j a (pre ++ blk ++ post) =
      Some (r, pre ++ blk' ++ post, a') ∧ length blk' = 128%nat ∧
    (r = Fetched → accepted fx j blk').
Proof.
  intros Hl Hj. revert a blk Hl. induction tries as [|tries IH]; intros a blk Hl; cbn [fetch_ext].
  - by exists GaveUp, blk, a.
  - destruct (probe_block_run a pre blk post j Hl) as (ret & blk' & a' & -> & _ & Hl' & _).
    cbn [mbind option_bind]. destruct (z2b ret); [by exists Failed, blk', a'|].
    destruct (block_valid_run fx pre blk' post j Hl') as (v & -> & Hv). rewrite repaired_ext by done.
    cbn [mbind option_bind]. destruct v.
    + exists Fetched, blk', a'. split_and!; try done. intros _. by apply Hv.
    + by apply IH.
Qed.

(** What a base block announces when it is transferred. *)
Definition announces_at_most (k : Z) : Prop := ∀ a old n, length old = 128%nat →
  let '(ret, blk, _) := i2c_transfer a [mk_msg DDC_ADDR 0 [0]; mk_msg DDC_ADDR I2C_M_RD old] in
  ret = 2 → rd blk extensions = Some n → n <= k.

Lemma fetch_base_run k tries i blk post a : announces_at_most k → length blk = 128%nat →
  Forall byte blk →
  ∃ r blk' a', fetch_base fx tries i a (blk ++ post) = Some (r, blk' ++ post, a') ∧
    length blk' = 128%nat ∧ Forall byte blk' ∧
    (r = Fetched → blocks_accepted fx 0 [blk'] ∧
       (∃ rest, blk' = edid_header ++ rest) ∧ ∀ n, rd blk' extensions = Some n → 0 <= n <= k).
Proof.
  intros Hk. revert i a blk. induction tries as [|tries IH]; intros i a blk Hl Hb; cbn [fetch_base].
  - by exists GaveUp, blk, a.
  - destruct (probe_block_run a [] blk post 0 Hl) as (ret & blk' & a' & Hrun & Hp & Hl' & Hb').
    cbn [app length] in Hrun. change (Z.of_nat 0) with 0 in Hrun. rewrite Hrun.
    cbn [mbind option_bind]. destruct (Z.eqb_spec ret 0) as [-> | Hr].
    2:{ unfold z2b. rewrite (proj2 (Z.eqb_neq _ _)) by done. cbn [negb]. exists Failed, blk', a'.
        split_and!; try done. by apply Hb'. }
    change (z2b 0) with false. cbv iota.
    destruct (block_valid_run fx [] blk' post 0 Hl') as (v & Hv & Hacc). cbn [app length] in Hv.
    change (Z.of_nat 0) with 0 in Hv. rewrite Hv. cbn [mbind option_bind].
    specialize (Hb' Hb).
    assert (length (repaired fx 0 blk') = 128%nat) as Hlr by by apply repaired_length.
    assert (Forall byte (repaired fx 0 blk')) as Hbr.
    { unfold repaired. destruct (_ && _ && _); [|done]. apply Forall_app. split; [|by apply Forall_drop].
      unfold edid_header. repeat constructor; lia. }
    destruct v.
    + exists Fetched, (repaired fx 0 blk'), a'. split_and!; try done. intros _.
      destruct (repaired_idem fx blk' Hl') as (Hra & Hrr & Hrest); [by apply Hacc|].
      split_and!; [done..|]. intros n Hn.
      destruct (probe_run _ _ _ _ _ _ Hp) as (_ & _ & Hex).
      destruct (Hex eq_refl) as (a0 & old & Hlo & Hxf). cbv zeta in Hxf.
      change (u8 (Z.shiftr 0 1)) with 0 in Hxf. change (z2b 0) with false in Hxf. cbv iota in Hxf.
      change (Z.to_nat (3 - 2)) with 1%nat in Hxf. cbn [drop] in Hxf.
      change (u8 (0 * EDID_LENGTH)) with 0 in Hxf. rewrite Hl in Hlo. specialize (Hk a0 old n Hlo).
      destruct (i2c_transfer a0 _) as [[r1 b1] a1]. cbn [fst] in Hxf. injection Hxf as -> ->.
      split; [apply (rd_byte _ _ _ Hbr) in Hn; lia|].
      apply Hk; [done|]. rewrite <- (repaired_tail fx 0 blk'); [done|unfold extensions; lia|done].
    + assert (∃ z, (if i =? 0 then drm_edid_is_zero (repaired fx 0 blk' ++ post) 0 EDID_LENGTH
                    else Some false) = Some z) as [z ->].
      { destruct (i =? 0); [|by eexists]. apply words_zero_Some; [done|]. rewrite length_app, Hlr.
        change (Z.to_nat (Z.quot EDID_LENGTH 4)) with 32%nat. lia. }
      cbn [mbind option_bind]. destruct z; [by exists NullEdid, (repaired fx 0 blk'), a'|].
      by apply IH.
Qed.

(** The valid blocks are packed behind the base block; [k] blocks fit behind it. *)
Lemma fetch_exts_run fuel base exts rest j a n k : blocks_accepted fx 0 (base :: exts) →
  rd base extensions = Some n → n <= k → k <= 255 →
  Z.of_nat (length rest) = (k - Z.of_nat (length exts)) * 128 →
  Z.of_nat (length exts) < j → j <= n + 1 → (Z.to_nat (n + 1 - j) < fuel)%nat →
  ∃ v raw' a', fetch_exts fx fuel j (Z.of_nat (length exts)) a (base ++ concat exts ++ rest) =
      Some (v, raw', a') ∧ length raw' = length (base ++ concat exts ++ rest) ∧
    ∀ valid, v = Some valid → ∃ exts' rest', raw' = base ++ concat exts' ++ rest' ∧
      blocks_accepted fx 0 (base :: exts') ∧ valid = Z.of_nat (length exts') ∧ 0 <= valid <= n.
Proof.
  intros Hacc Hn Hnk Hk. revert exts rest j a Hacc.
  induction fuel as [|fuel IH]; intros exts rest j a Hacc Hrest Hj Hjn Hf; [lia|].
  pose proof Hacc as Hacc0. destruct Hacc0 as (Hl & _ & _ & Hex).
  pose proof (concat_length_blocks _ _ _ Hex) as Hcl. cbn [fetch_exts].
  rewrite (rd_app_l base) by (unfold extensions; lia). rewrite Hn. cbn [mbind option_bind].
  destruct (Z.ltb_spec n j) as [Hend|Hgo].
  - exists (Some (Z.of_nat (length exts))), (base ++ concat exts ++ rest), a.
    split_and!; [done..|]. intros valid [= <-]. exists exts, rest. split_and!; done || lia.
  - assert (128 <= length rest)%nat as Hroom by lia.
    rewrite <- (take_drop 128 rest). set (blk := take 128 rest). set (post := drop 128 rest).
    assert (length blk = 128%nat) as Hlb by (unfold blk; rewrite length_take; lia).
    assert (Z.of_nat (length post) = (k - Z.of_nat (length exts) - 1) * 128) as Hlp.
    { unfold post. rewrite length_drop. lia. }
    rewrite (app_assoc base). assert (Z.of_nat (length (base ++ concat exts)) =
      (Z.of_nat (length exts) + 1) * EDID_LENGTH) as Hoff.
    { rewrite length_app, Hl, Hcl. unfold EDID_LENGTH. lia. }
    rewrite <- Hoff. destruct (fetch_ext_run 4 (base ++ concat exts) blk post j a Hlb) as
      (r & blk' & a' & -> & Hlb' & Hok); [lia|]. cbn [mbind option_bind].
    assert (length ((base ++ concat exts) ++ blk' ++ post) = length ((base ++ concat exts) ++ blk ++ post))
      as Hsame by (rewrite !length_app; lia).
    assert (Hgive : r ≠ Failed → r ≠ Fetched → ∃ v raw' a2,
      fetch_exts fx fuel (j + 1) (Z.of_nat (length exts)) a' ((base ++ concat exts) ++ blk' ++ post) =
        Some (v, raw', a2) ∧ length raw' = length ((base ++ concat exts) ++ blk ++ post) ∧
      ∀ valid, v = Some valid → ∃ exts' rest', raw' = base ++ concat exts' ++ rest' ∧
        blocks_accepted fx 0 (base :: exts') ∧ valid = Z.of_nat (length exts') ∧ 0 <= valid <= n).
    { intros _ _. rewrite <- Hsame, <- app_assoc. apply IH; try done; try lia. rewrite length_app. lia. }
    destruct r; [|by apply Hgive| |by apply Hgive].
    + assert (u8 (Z.of_nat (length exts) + 1) = Z.of_nat (length (exts ++ [blk']))) as ->.
      { rewrite length_app. cbn [length]. rewrite (wrap_id 8) by (change (2 ^ 8) with 256; lia). lia. }
      rewrite <- Hsame. replace ((base ++ concat exts) ++ blk' ++ post)
        with (base ++ concat (exts ++ [blk']) ++ post)
        by (rewrite concat_app; cbn [concat]; by rewrite app_nil_r, <- !app_assoc).
      apply IH; try done; try lia.
      * apply (blocks_accepted_app fx 0 (base :: exts)); [done..|cbn; lia|].
        eapply accepted_ext; [..|by apply Hok]; cbn [length]; lia.
      * rewrite length_app. cbn [length]. lia.
      * rewrite length_app. cbn [length]. lia.
    + exists None, ((base ++ concat exts) ++ blk' ++ post), a'. split_and!; done.
Qed.

(** The base block with a smaller number of extensions: the checksum moves along. *)
Definition patched (n valid : Z) (base : bytes) : bytes :=
  <[126%nat := u8 valid]> (<[127%nat := u8 (nth 127 base 0 + (n - valid))]> base).

Lemma zsum_insert l i v x : l !! i = Some x → zsum (<[i := v]> l) = zsum l + v - x.
Proof.
  revert i. induction l as [|y l IH]; intros [|i] Hx; try done.
  - cbn in Hx |- *. simplify_eq. lia.
  - change (<[S i := v]> (y :: l)) with (y :: <[i := v]> l). cbn [zsum foldr].
    change (y + zsum (<[i := v]> l) = y + zsum l + v - x). rewrite (IH i Hx). lia.
Qed.

Lemma patched_ok n valid base : length base = 128%nat → (∃ rest, base = edid_header ++ rest) →
  rd base extensions = Some n → 0 <= valid <= n → n < 256 → accepted fx 0 base →
  let b := patched n valid base in
  length b = 128%nat ∧ accepted fx 0 b ∧ repaired fx 0 b = b ∧ rd b extensions = Some valid.
Proof.
  intros Hl [rest Hrest] Hn Hv Hn256 Hacc. cbv zeta.
  assert (length (patched n valid base) = 128%nat) as Hlp by (unfold patched; by rewrite !length_insert).
  assert (repaired fx 0 base = base) as Hrb.
  { unfold repaired. rewrite Hrest, matches_header. by rewrite andb_false_r. }
  assert (∃ rest', patched n valid base = edid_header ++ rest') as [rest' Hp].
  { unfold patched. rewrite Hrest. exists (<[118%nat := u8 valid]> (<[119%nat := u8 (nth 127 base 0 + (n - valid))]> rest)).
    rewrite <- Hrest. rewrite Hrest at 2. rewrite !insert_app_r_alt by (cbn; lia). done. }
  assert (repaired fx 0 (patched n valid base) = patched n valid base) as Hrp.
  { unfold repaired. rewrite Hp, matches_header. by rewrite andb_false_r. }
  assert (rd base 127 = Some (nth 127 base 0)) as H127.
  { unfold rd. rewrite (proj2 (Z.ltb_ge _ _)) by lia. change (Z.to_nat 127) with 127%nat.
    destruct (lookup_lt_is_Some_2 base 127) as [x Hx]; [lia|]. rewrite Hx. f_equal.
    rewrite nth_lookup. by rewrite Hx. }
  assert (zsum (patched n valid base) mod 256 = zsum base mod 256) as Hsum.
  { unfold rd, extensions in *. cbn [Z.ltb Z.compare] in *.
    change (Z.to_nat 126) with 126%nat in *. change (Z.to_nat 127) with 127%nat in *.
    unfold patched. erewrite zsum_insert by (rewrite list_lookup_insert_ne by done; exact Hn).
    erewrite zsum_insert by exact H127. unfold wrap. change (2 ^ 8) with 256.
    rewrite (Z.mod_small valid) by lia. set (x := nth 127 base 0).
    pose proof (Z.div_mod (x + (n - valid)) 256 ltac:(lia)) as Hd.
    replace (zsum base + (x + (n - valid)) mod 256 - x + valid - n)
      with (zsum base + (- ((x + (n - valid)) / 256)) * 256) by lia.
    apply Z.mod_add. lia. }
  assert (∀ i, 0 <= i < 126 → rd (patched n valid base) i = rd base i) as Hsame.
  { intros i Hi. unfold rd, patched. rewrite (proj2 (Z.ltb_ge _ _)) by lia.
    by rewrite !list_lookup_insert_ne by lia. }
  split_and!; [done| |done|].
  - destruct Hacc as (_ & Hc & Hver). cbv zeta in *. unfold accepted. cbv zeta. rewrite Hrp, Hrb in *.
    rewrite Hp at 1. rewrite matches_header, Hsum. unfold version in *. rewrite !Hsame by lia.
    split_and!; [intros _; apply fixup_le8|done|done].
  - unfold rd, extensions, patched. cbn [Z.ltb Z.compare]. change (Z.to_nat 126) with 126%nat.
    rewrite list_lookup_insert_eq by (rewrite length_insert; lia).
    f_equal. apply (wrap_id 8). change (2 ^ 8) with 256. lia.
Qed.
End FetchLemmas.

(** ** The walk over the detailed timings *)

Fixpoint timing_offs (n : nat) (base : Z) : list Z :=
  match n with O => [] | S n => base :: timing_offs n (base + 18) end.

(** The callback on each of the offsets, in order. *)
Fixpoint run_cbs {S} (cb : Z → S → option S) (offs : list Z) (s : S) : option S :=
  match offs with [] => Some s | o :: offs => s ← cb o s; run_cbs cb offs s end.

Lemma each_timing_run {S} (cb : Z → S → option S) n base s :
  each_timing cb n base s = run_cbs cb (timing_offs n base) s.
Proof.
  revert base s. induction n as [|n IH]; intros base s; cbn; [done|].
  destruct (cb base s); cbn; [apply IH|done].
Qed.

Lemma run_cbs_app {S} (cb : Z → S → option S) l k s :
  run_cbs cb (l ++ k) s = s ← run_cbs cb l s; run_cbs cb k s.
Proof.
  revert s. induction l as [|o l IH]; intros s; cbn; [done|].
  destruct (cb o s); cbn; [apply IH|done].
Qed.

(** A descriptor inside one block of an EDID of [n] extensions. *)
Definition descriptor_in (n o : Z) : Prop := 0 <= o ∧ o mod 128 + 18 <= 128 ∧ o + 18 <= 128 * (n + 1).

Lemma timing_offs_in k n base i d : base = i * 128 + d → 0 <= i <= n → 0 <= d →
  d + 18 * Z.of_nat k <= 128 → Forall (descriptor_in n) (timing_offs k base).
Proof.
  revert base d. induction k as [|k IH]; intros base d Hb Hi Hd Hk; cbn [timing_offs]; constructor.
  - unfold descriptor_in. subst base. rewrite Z.add_comm, Z.mod_add, Z.mod_small by lia. lia.
  - apply (IH _ (d + 18)); lia.
Qed.

Lemma each_extension_walk raw n fuel i : Forall byte raw → rd raw extensions = Some n →
  128 * (n + 1) <= Z.of_nat (length raw) → 1 <= i <= n + 1 → (Z.to_nat (n + 1 - i) < fuel)%nat →
  ∃ offs, (∀ S (cb : Z → S → option S) s, each_extension raw cb fuel i s = run_cbs cb offs s) ∧
    Forall (descriptor_in n) offs.
Proof.
  intros Hb Hn Hlen. revert i. induction fuel as [|fuel IH]; intros i Hi Hf; [lia|].
  destruct (decide (n < i)) as [Hend|Hgo].
  { exists []. split; [|done]. intros S cb s. cbn [each_extension]. rewrite Hn. cbn [mbind option_bind].
    by rewrite (proj2 (Z.ltb_lt _ _)) by lia. }
  destruct (IH (i + 1)) as (offs & Hrun & Hin); [lia..|].
  assert (∀ k, 0 <= k < 128 → ∃ b, rd raw (i * 128 + k) = Some b ∧ 0 <= b < 256) as Hrd.
  { intros k Hk. destruct (rd_is_Some raw (i * 128 + k)) as [b Hbk]; [lia|].
    exists b. split; [done|by eapply rd_byte]. }
  destruct (Hrd 0 ltac:(lia)) as (tag & Htag & _). rewrite Z.add_0_r in Htag.
  destruct (Hrd 1 ltac:(lia)) as (b1 & Hb1 & _). destruct (Hrd 2 ltac:(lia)) as (d & Hd & Hdb).
  set (ext_offs := if tag =? CEA_EXT then timing_offs (Z.to_nat (Z.quot (127 - d) 18)) (i * 128 + d)
                   else if tag =? VTB_EXT then
                     if negb (b1 =? 1) then [] else timing_offs (Z.to_nat (cmin d 6)) (i * 128 + 5)
                   else []).
  exists (ext_offs ++ offs). split.
  - intros S cb s. cbn [each_extension]. rewrite Hn. cbn [mbind option_bind].
    rewrite (proj2 (Z.ltb_ge _ _)) by lia. unfold EDID_LENGTH. rewrite Htag. cbn [mbind option_bind].
    rewrite run_cbs_app. unfold ext_offs, cea_for_each_detailed_block, vtb_for_each_detailed_block.
    rewrite Hd, Hb1. cbn [mbind option_bind]. rewrite !each_timing_run.
    destruct (tag =? CEA_EXT); [|destruct (tag =? VTB_EXT); [destruct (negb (b1 =? 1))|]];
      cbn [run_cbs mbind option_bind]; try (destruct (run_cbs cb _ s); cbn [mbind option_bind]; [|done]);
      apply Hrun.
  - apply Forall_app. split; [|done]. unfold ext_offs.
    destruct (tag =? CEA_EXT); [|destruct (tag =? VTB_EXT); [destruct (negb (b1 =? 1))|]]; try done.
    + destruct (decide (d <= 127)) as [Hd127|Hd127].
      * apply (timing_offs_in _ _ _ i d); [done|lia|lia|].
        rewrite Z.quot_div_nonneg by lia. pose proof (Z.mul_div_le (127 - d) 18 ltac:(lia)).
        assert (0 <= (127 - d) / 18) by (apply Z.div_pos; lia). lia.
      * assert (Z.quot (127 - d) 18 <= 0) as Hq.
        { rewrite <- (Z.opp_involutive (127 - d)), Z.quot_opp_l, Z.quot_div_nonneg by lia.
          assert (0 <= - (127 - d) / 18) by (apply Z.div_pos; lia). lia. }
        replace (Z.to_nat (Z.quot (127 - d) 18)) with O by lia. constructor.
    + apply (timing_offs_in _ _ _ i 5); [done|lia|lia|]. rewrite cmin_min. lia.
Qed.

(** ** Theorems *)

(** Drm_edid_block_valid reads and writes only the 128
    bytes of the block, wherever it lies in the buffer, and accepts it exactly
    when its header is close enough (base block only; a close header is
    repaired in place), its bytes then sum to 0 modulo 256 or it is a CEA
    block, and a base block is of version 1. *)
Theorem block_valid_correct fx pre blk post block : length blk = 128%nat →
  ∃ v, drm_edid_block_valid fx (pre ++ blk ++ post) (Some (Z.of_nat (length pre))) block =
         Some (v, pre ++ repaired fx block blk ++ post) ∧ (v = true ↔ accepted fx block blk) ∧
       (block = 0 → v = true → take 8 (repaired fx block blk) = edid_header).
Proof.
  intros Hl. destruct (block_valid_run fx pre blk post block Hl) as (v & Hrun & Hv).
  exists v. split; [done|]. split; [done|]. intros -> Hv1.
  destruct (repaired_idem fx blk Hl) as (_ & _ & [rest ->]); [by apply Hv|].
  by rewrite (take_app_length' edid_header).
Qed.

(** A base block and its extensions, all accepted, in the buffer of five. *)
Lemma accepted_is_valid fx b exts rest n : blocks_accepted fx 0 (b :: exts) → rd b extensions = Some n → n = Z.of_nat (length exts) →
  n <= DRM_MAX_EDID_EXT_NUM →
  let raw := b ++ concat exts ++ rest in
  (∃ n, rd raw extensions = Some n ∧ 0 <= n <= DRM_MAX_EDID_EXT_NUM) ∧ drm_edid_is_valid fx (Some raw) = Some (true, raw).
Proof.
  intros Hba Hbn Heq Hn raw. pose proof Hba as (Hlb & _). unfold DRM_MAX_EDID_EXT_NUM in *.
  assert (rd raw extensions = Some n) as Hr by (unfold raw; rewrite rd_app_l by (unfold extensions; lia); done).
  split; [exists n; split; [exact Hr|lia]|]. unfold drm_edid_is_valid, raw in *.
  pose proof (blocks_valid_run fx 257 [] (b :: exts) rest 0 n Hba eq_refl) as Hbv.
  cbn [concat app] in Hbv. rewrite <- app_assoc in Hbv. apply (Hbv Hr); cbn [length]; lia.
Qed.

(** The base block in front of the buffer. *)
Lemma wr_base l rest i v : length l = 128%nat → 0 <= i < 128 → wr (l ++ rest) i v = Some (<[Z.to_nat i := u8 v]> l ++ rest).
Proof.
  intros Hll Hi. unfold wr. rewrite length_app. rewrite (proj2 (Z.ltb_ge _ _)), (proj2 (Z.leb_gt _ _)) by lia. cbn [orb].
  by rewrite insert_app_l by lia.
Qed.

Lemma rd_base l rest i : length l = 128%nat → 0 <= i < 128 → rd (l ++ rest) i = Some (nth (Z.to_nat i) l 0).
Proof.
  intros Hl Hi. rewrite rd_app_l by lia. unfold rd. rewrite (proj2 (Z.ltb_ge _ _)) by lia.
  rewrite nth_lookup. destruct (lookup_lt_is_Some_2 l (Z.to_nat i)) as [x Hx]; [lia|]. by rewrite Hx.
Qed.

(** C34 (get_edid_valid): when the monitor announces at most four extensions (what
    the buffer of drm_do_get_edid has room for), the fetch never touches a byte
    outside its buffer, whatever the bus does, and an EDID it returns passes
    drm_edid_is_valid unchanged: the valid extensions are packed behind the
    base block, whose count and checksum are patched to match. *)
Theorem get_edid_valid {A} {HA : I2cAdapter A} fx c (a : A) raw0 : announces_at_most 4 →
  length raw0 = Z.to_nat (EDID_LENGTH * (DRM_MAX_EDID_EXT_NUM + 1)) → Forall byte raw0 →
  ∃ r c' a', drm_do_get_edid fx c a (Some raw0) = Some (r, c', a') ∧
    ∀ raw, r = Some raw → length raw = length raw0 ∧
      (∃ n, rd raw extensions = Some n ∧ 0 <= n <= DRM_MAX_EDID_EXT_NUM) ∧
      drm_edid_is_valid fx (Some raw) = Some (true, raw).
Proof.
  intros Hk Hlen Hb. change (Z.to_nat _) with 640%nat in Hlen. unfold drm_do_get_edid.
  rewrite <- (take_drop 128 raw0). set (blk := take 128 raw0). set (post := drop 128 raw0).
  assert (length blk = 128%nat) as Hlb by (unfold blk; rewrite length_take; lia).
  assert (length post = 512%nat) as Hlp by (unfold post; rewrite length_drop; lia).
  destruct (fetch_base_run fx 4 4 0 blk post a Hk Hlb) as (r & base & a1 & Hrun & Hlbase & _ & Hok);
    [by apply Forall_take|].
  rewrite Hrun. cbn [mbind option_bind].
  destruct r; try (eexists None, _, _; split; [reflexivity|done]).
  destruct (Hok eq_refl) as (Hacc & Hhdr & Hcnt). clear Hok.
  destruct (rd_is_Some base extensions) as [n Hn]; [unfold extensions; lia|]. specialize (Hcnt n Hn).
  rewrite (rd_app_l base) by (unfold extensions; lia). rewrite Hn. cbn [mbind option_bind].
  assert (∀ rest, rd (base ++ rest) extensions = Some n) as Hn' by (intros rest; by rewrite rd_app_l by (unfold extensions; lia)).
  destruct (Z.eqb_spec n 0) as [-> | Hn0].
  - exists (Some (base ++ post)), c, a1. split; [done|]. intros raw [= <-]. split; [rewrite !length_app; lia|].
    exact (accepted_is_valid fx base [] post 0 Hacc Hn eq_refl ltac:(done)).
  - destruct (fetch_exts_run fx 256 base [] post 1 a1 n 4 Hacc Hn) as (v & raw' & a2 & Hx & Hlen' & Hv);
      [lia|lia|cbn; lia|cbn; lia|lia|lia|].
    cbn [concat length app] in Hx, Hlen'. change (Z.of_nat 0) with 0 in Hx. rewrite Hx.
    cbn [mbind option_bind].
    destruct v as [valid|]; [|eexists None, _, _; split; [reflexivity|done]].
    destruct (Hv valid eq_refl) as (exts & rest & -> & Hacc' & Hvalid & Hvn).
    rewrite Hn'. cbn [mbind option_bind]. rewrite (length_app blk), Hlb, Hlp.
    destruct (Z.eqb_spec valid n) as [Heq|Hne]; cbn [negb].
    + eexists (Some _), _, _. split; [reflexivity|]. intros raw [= <-]. split; [rewrite !length_app in *; lia|].
      apply (accepted_is_valid fx base exts rest n); [done..|lia|unfold DRM_MAX_EDID_EXT_NUM; lia].
    + destruct Hacc' as (_ & Hacc0 & _ & Hexts).
      destruct (patched_ok fx n valid base Hlbase Hhdr Hn Hvn ltac:(lia) Hacc0) as (Hpl & Hpa & Hpr & Hpn).
      rewrite (rd_base base) by (unfold EDID_LENGTH; lia || done). cbn [mbind option_bind].
      rewrite wr_base by (unfold EDID_LENGTH; lia || done). cbn [mbind option_bind].
      rewrite wr_base by (rewrite ?length_insert; unfold extensions; lia || done). cbn [mbind option_bind].
      change (<[Z.to_nat extensions := _]> _) with (patched n valid base).
      eexists (Some _), _, _. split; [reflexivity|]. intros raw [= <-]. split; [rewrite !length_app in *; lia|].
      apply (accepted_is_valid fx _ exts rest valid); [by split_and!|done|done|unfold DRM_MAX_EDID_EXT_NUM; lia].
Qed.

(** On a buffer that holds the announced number
    of blocks, drm_for_each_detailed_block calls its callback on a fixed list
    of descriptors, whatever the callback does: first the four of the base
    block, then those of the extensions; every one lies inside a single block,
    also when an extension gives an offset beyond its end. *)
Theorem for_each_detailed_in_bounds raw n : Forall byte raw → rd raw extensions = Some n →
  128 * (n + 1) <= Z.of_nat (length raw) →
  ∃ offs, (∀ S (cb : Z → S → option S) s, drm_for_each_detailed_block raw cb s =
             run_cbs cb ([54; 72; 90; 108] ++ offs) s) ∧
    Forall (descriptor_in n) ([54; 72; 90; 108] ++ offs).
Proof.
  intros Hb Hn Hlen. pose proof (rd_byte _ _ _ Hb Hn) as Hnb.
  destruct (each_extension_walk raw n 256 1 Hb Hn Hlen) as (offs & Hrun & Hin); [lia..|].
  exists offs. split.
  - intros S cb s. unfold drm_for_each_detailed_block. rewrite each_timing_run, run_cbs_app.
    change (timing_offs EDID_DETAILED_TIMINGS detailed_timings) with [54; 72; 90; 108].
    destruct (run_cbs cb _ s); cbn [mbind option_bind]; [apply Hrun|done].
  - apply Forall_app. split; [|done]. apply (timing_offs_in 4 n 54 0 54); cbn; lia.
Qed.

(** The four bytes that name a vendor and a product. *)
Definition vendor_bytes (a b c : Z) : bytes := [a * 4 + b / 8; b mod 8 * 32 + c].
Definition quirk_bytes (q : edid_quirk) : bytes :=
  match codes (vendor q) with
  | [a; b; c] => vendor_bytes (a - 64) (b - 64) (c - 64)
  | _ => []
  end ++ [product_id q mod 256; product_id q / 256].

Lemma vendor_codes_all :
  forallb (λ a, forallb (λ b, forallb (λ c,
    match vendor_bytes a b c with
    | [id0; id1] => bool_decide (vendor_codes id0 id1 = [64 + a; 64 + b; 64 + c])
    | _ => false
    end) (seqZ 0 32)) (seqZ 0 32)) (seqZ 0 32) = true.
Proof. vm_compute. reflexivity. Qed.

Lemma rd_slice raw i n l k : slice raw i n = Some l → 0 <= k < Z.of_nat n → rd raw (i + k) = l !! Z.to_nat k.
Proof.
  unfold slice, rd. destruct (_ || _) eqn:Hb; [done|]. intros [= <-] Hk.
  apply orb_false_iff in Hb as [Hi%Z.ltb_ge Hl%Z.ltb_ge].
  rewrite (proj2 (Z.ltb_ge _ _)) by lia. rewrite lookup_take_lt, lookup_drop by lia. f_equal. lia.
Qed.

(** The first entry of that vendor and product. *)
Fixpoint match_quirks (id0 id1 p0 p1 : Z) (l : list edid_quirk) : Z :=
  match l with
  | [] => 0
  | q :: l =>
    if bool_decide (vendor_codes id0 id1 = take 3 (codes (vendor q))) &&
       (Z.lor p0 (Z.shiftl p1 8) =? product_id q)
    then quirks q else match_quirks id0 id1 p0 p1 l
  end.

Lemma find_quirks_run raw l id0 id1 p0 p1 : rd raw 8 = Some id0 → rd raw 9 = Some id1 →
  rd raw 10 = Some p0 → rd raw 11 = Some p1 → find_quirks raw l = Some (match_quirks id0 id1 p0 p1 l).
Proof.
  intros H0 H1 H2 H3. induction l as [|q l IH]; [done|]. cbn [find_quirks match_quirks].
  unfold edid_vendor, EDID_PRODUCT_ID, mfg_id, prod_code. change (8 + 1) with 9. change (10 + 1) with 11.
  rewrite H0, H1, H2, H3. cbn [mbind option_bind]. destruct (_ && _); [done|exact IH].
Qed.

(** Edid_vendor unpacks the three letters of every vendor code
    as the five-bit fields they are, and every entry of the quirk list is
    reachable: an EDID of its vendor and product gets exactly its quirks (no
    earlier entry hides it). *)
Theorem quirks_found :
  (∀ a b c raw, 0 <= a < 32 → 0 <= b < 32 → 0 <= c < 32 →
     slice raw mfg_id 2 = Some (vendor_bytes a b c) → ∀ s, codes s = [64 + a; 64 + b; 64 + c] →
     edid_vendor raw s = Some true) ∧
  (∀ raw q, q ∈ edid_quirk_list → slice raw mfg_id 4 = Some (quirk_bytes q) →
     edid_get_quirks raw = Some (quirks q)).
Proof.
  split.
  - intros a b c raw Ha Hb Hc Hs s Hcodes. unfold edid_vendor.
    rewrite <- (Z.add_0_r mfg_id) at 1. rewrite !(rd_slice _ _ _ _ _ Hs) by (unfold mfg_id; lia).
    change (vendor_bytes a b c !! Z.to_nat 0) with (Some (a * 4 + b / 8)).
    change (vendor_bytes a b c !! Z.to_nat 1) with (Some (b mod 8 * 32 + c)).
    cbn [mbind option_bind]. rewrite Hcodes. cbn [take]. f_equal. apply bool_decide_eq_true.
    pose proof vendor_codes_all as Hall.
    rewrite forallb_forall in Hall. specialize (Hall a ltac:(apply list_elem_of_In, elem_of_seqZ; lia)).
    rewrite forallb_forall in Hall. specialize (Hall b ltac:(apply list_elem_of_In, elem_of_seqZ; lia)).
    rewrite forallb_forall in Hall. specialize (Hall c ltac:(apply list_elem_of_In, elem_of_seqZ; lia)).
    by apply bool_decide_eq_true in Hall.
  - intros raw q Hq Hs.
    assert (∀ k, 0 <= k < 4 → rd raw (mfg_id + k) = quirk_bytes q !! Z.to_nat k) as Hrd.
    { intros k Hk. apply (rd_slice _ _ _ _ _ Hs). lia. }
    pose proof (Hrd 0 ltac:(lia)) as H0. pose proof (Hrd 1 ltac:(lia)) as H1.
    pose proof (Hrd 2 ltac:(lia)) as H2. pose proof (Hrd 3 ltac:(lia)) as H3. clear Hrd Hs.
    unfold edid_get_quirks. revert H0 H1 H2 H3. unfold edid_quirk_list at 1 in Hq.
    repeat (apply elem_of_cons in Hq as [-> | Hq]; [intros H0 H1 H2 H3;
      rewrite (find_quirks_run _ _ _ _ _ _ H0 H1 H2 H3); vm_compute; reflexivity|]).
    by apply elem_of_nil in Hq.
Qed.

(** ** A monitor on the bus *)

Section Monitor.

(** The blocks a monitor answers with. *)
Definition monitor_block (blocks : list bytes) (msgs : list i2c_msg) : option bytes :=
  match msg_buf <$> msgs with
  | [[segment]; [start]; _] => blocks !! Z.to_nat (2 * segment + start / 128)
  | [[start]; _] => blocks !! Z.to_nat (start / 128)
  | _ => None
  end.

Definition monitor_transfer (blocks : list bytes) (msgs : list i2c_msg) : Z * bytes * list bytes :=
  match list.last msgs with
  | None => (-1, [], blocks)
  | Some m =>
    match monitor_block blocks msgs with
    | Some b =>
      if bool_decide (length (msg_buf m) <= length b)%nat && forallb (λ x, (0 <=? x) && (x <? 256)) b
      then (Z.of_nat (length msgs), take (length (msg_buf m)) b, blocks) else (-1, msg_buf m, blocks)
    | None => (-1, msg_buf m, blocks)
    end
  end.

#[local] Instance monitor_adapter : I2cAdapter (list bytes).
Proof.
  refine {| i2c_transfer := monitor_transfer |}.
  - intros a msgs m Hm. unfold monitor_transfer. rewrite Hm. destruct (monitor_block a msgs) as [b|]; [|done].
    destruct (bool_decide _) eqn:Hb; cbn [andb]; [|done]. apply bool_decide_eq_true in Hb.
    destruct (forallb _ b); cbn; [|done]. rewrite length_take. lia.
  - intros a msgs m Hm Hby. unfold monitor_transfer. rewrite Hm. destruct (monitor_block a msgs) as [b|]; [|done].
    destruct (bool_decide _ && _) eqn:Hb; [|done]. apply andb_true_iff in Hb as [_ Hb]. cbn.
    apply Forall_take. apply Forall_forall. intros x Hx. rewrite forallb_forall in Hb.
    specialize (Hb x ltac:(by apply list_elem_of_In)). lia.
Defined.

(** A base block of version 1.3 that announces [n] extensions, with its checksum,
    and an empty CEA extension. *)
Definition demo_base (n : Z) : bytes :=
  let body := edid_header ++ replicate 10 0 ++ [1; 3] ++ replicate 106 0 ++ [n] in
  body ++ [(- zsum body) mod 256].
Definition demo_cea : bytes :=
  let body := [2; 3; 4; 0] ++ replicate 123 0 in body ++ [(- zsum body) mod 256].

(** A monitor with five valid extension blocks makes
    drm_do_get_edid write past its buffer of five blocks; a buffer of six
    blocks would do. *)
Theorem get_edid_overflows :
  let monitor := [demo_base 5; demo_cea; demo_cea; demo_cea; demo_cea; demo_cea] in
  drm_do_get_edid 6 (mk_counters 0 0) monitor
    (Some (replicate (Z.to_nat (EDID_LENGTH * (DRM_MAX_EDID_EXT_NUM + 1))) 0)) = None ∧
  drm_do_get_edid 6 (mk_counters 0 0) monitor
    (Some (replicate (Z.to_nat (EDID_LENGTH * (DRM_MAX_EDID_EXT_NUM + 2))) 0)) =
    Some (Some (concat monitor), mk_counters 0 0, monitor).
Proof. split; vm_compute; reflexivity. Qed.

Lemma block_valid_correct_witness : ∃ v,
  drm_edid_block_valid 6 ([] ++ demo_base 0 ++ []) (Some (Z.of_nat (length ([] : bytes)))) 0 =
    Some (v, [] ++ repaired 6 0 (demo_base 0) ++ []) ∧ (v = true ↔ accepted 6 0 (demo_base 0)) ∧
  (0 = 0 → v = true → take 8 (repaired 6 0 (demo_base 0)) = edid_header).
Proof. apply (block_valid_correct 6 [] (demo_base 0) [] 0). reflexivity. Defined.

(** An adapter for which no monitor answers with more than one extension: it has
    no state. *)
Definition one_ext_transfer (_ : unit) (msgs : list i2c_msg) : Z * bytes * unit :=
  let '(ret, b, _) := monitor_transfer [demo_base 1; demo_cea] msgs in (ret, b, tt).

Definition one_ext_adapter : I2cAdapter unit.
Proof.
  refine {| i2c_transfer := one_ext_transfer |}; intros a msgs m Hm; unfold one_ext_transfer.
  - pose proof (transfer_length [demo_base 1; demo_cea] msgs m Hm) as Hl. cbn [i2c_transfer monitor_adapter] in Hl.
    by destruct (monitor_transfer _ _) as [[? ?] ?].
  - intros Hb. pose proof (transfer_bytes [demo_base 1; demo_cea] msgs m Hm Hb) as Hl.
    cbn [i2c_transfer monitor_adapter] in Hl. by destruct (monitor_transfer _ _) as [[? ?] ?].
Defined.

Lemma one_ext_announces : @announces_at_most unit one_ext_adapter 4.
Proof.
  intros a old n Hl. cbn [i2c_transfer one_ext_adapter]. unfold one_ext_transfer, monitor_transfer.
  cbn [list.last msg_buf]. assert (monitor_block [demo_base 1; demo_cea]
    [mk_msg DDC_ADDR 0 [0]; mk_msg DDC_ADDR I2C_M_RD old] = Some (demo_base 1)) as ->.
  { unfold monitor_block. cbn [fmap list_fmap msg_buf]. destruct old as [|? [|? ?]]; done. }
  rewrite Hl. change (bool_decide _ && _) with true. cbv iota. intros _.
  change (rd (take 128 (demo_base 1)) extensions) with (Some 1). intros [= <-]. lia.
Qed.

Lemma get_edid_valid_witness : ∃ r c' a',
  @drm_do_get_edid unit one_ext_adapter 6 (mk_counters 0 0) tt (Some (replicate 640 0)) = Some (r, c', a') ∧
  ∀ raw, r = Some raw → length raw = length (replicate 640 0) ∧
    (∃ n, rd raw extensions = Some n ∧ 0 <= n <= DRM_MAX_EDID_EXT_NUM) ∧
    drm_edid_is_valid 6 (Some raw) = Some (true, raw).
Proof.
  apply (@get_edid_valid unit one_ext_adapter 6 (mk_counters 0 0) tt (replicate 640 0)).
  - exact one_ext_announces.
  - reflexivity.
  - apply Forall_replicate. lia.
Defined.

(** It does return the two blocks. *)
Example one_ext_fetched :
  @drm_get_edid unit one_ext_adapter 6 (mk_counters 0 0) tt 0 (Some (replicate 640 0)) =
  Some (Some (demo_base 1 ++ demo_cea ++ replicate 384 0), mk_counters 0 0, tt).
Proof. vm_compute. reflexivity. Qed.

Lemma for_each_detailed_in_bounds_witness : ∃ offs,
  (∀ S (cb : Z → S → option S) s, drm_for_each_detailed_block (demo_base 1 ++ demo_cea) cb s =
     run_cbs cb ([54; 72; 90; 108] ++ offs) s) ∧
  Forall (descriptor_in 1) ([54; 72; 90; 108] ++ offs).
Proof.
  apply (for_each_detailed_in_bounds (demo_base 1 ++ demo_cea) 1).
  - apply Forall_forall. intros x Hx. apply list_elem_of_In in Hx.
    assert (forallb (λ x, (0 <=? x) && (x <? 256)) (demo_base 1 ++ demo_cea) = true) as Hall by reflexivity.
    rewrite forallb_forall in Hall. specialize (Hall x Hx). lia.
  - reflexivity.
  - vm_compute. discriminate.
Defined.

End Monitor.
