(* ===== verification/Cea.v ===== *)
(** * drm_edid.c: the CEA-861 extension

    The data blocks of the CEA extension: the search for the extension, the walk
    over its blocks, and what the driver takes from it (video modes, the
    EDID-like data and the audio descriptors for the audio driver, the latencies
    and the colour formats).  The theorems: the walk ends and never leaves the
    extension, whatever its bytes; building the ELD never writes past its 128
    bytes and gives a consistent header; the audio descriptors and the video
    modes are those of the blocks. *)

From stdpp Require Import base option list strings.
From Stdlib Require Import ZArith Lia.
From S2P Require Import Prelude LinuxList Modes EdidTables Edid.

Definition HDMI_IDENTIFIER : Z := 3075.
Definition AUDIO_BLOCK : Z := 1.
Definition VIDEO_BLOCK : Z := 2.
Definition VENDOR_BLOCK : Z := 3.
Definition SPEAKER_BLOCK : Z := 4.
Definition VIDEO_CAPABILITY_BLOCK : Z := 7.
Definition EDID_BASIC_AUDIO : Z := 64.
Definition EDID_CEA_YCRCB444 : Z := 32.
Definition EDID_CEA_YCRCB422 : Z := 16.
Definition EDID_CEA_VCDB_QS : Z := 64.
Definition EDID_DETAIL_MONITOR_NAME : Z := 252.
Definition MAX_ELD_BYTES : nat := 128.

(** ** The extension and its data blocks *)

(** From the extension [i + 1] on; [n] is how many are left. *)
Fixpoint find_cea_from (raw : bytes) (n : nat) (i : Z) : option (option Z) :=
  match n with
  | O => Some None
  | S n =>
    let edid_ext := EDID_LENGTH * (i + 1) in
    tag ← rd raw edid_ext;
    if tag =? CEA_EXT then Some (Some edid_ext) else find_cea_from raw n (i + 1)
  end.

(** The offset of the extension, [Some None] for NULL. *)
Definition drm_find_cea_extension (edid : option bytes) : option (option Z) :=
  match edid with
  | None => Some None
  | Some raw =>
    n ← rd raw extensions;
    if n =? 0 then Some None else find_cea_from raw (Z.to_nat n) 0
  end.

Definition cea_db_payload_len (raw : bytes) (db : Z) : option Z := b ← rd raw db; Some (Z.land b 31).
Definition cea_db_tag (raw : bytes) (db : Z) : option Z := b ← rd raw db; Some (Z.shiftr b 5).
Definition cea_revision (raw : bytes) (cea : Z) : option Z := rd raw (cea + 1).

(** The result, [*start] and [*end]. *)
Definition cea_db_offsets (raw : bytes) (cea : Z) : option (Z * Z * Z) :=
  b ← rd raw (cea + 2);
  let end_ := if b =? 0 then 127 else b in
  Some ((if (end_ <? 4) || (127 <? end_) then - ERANGE else 0), 4, end_).

(** The loop of the macro: [body] gets the offset of a data block, and says
    whether the loop goes on. *)
Fixpoint for_each_cea_db {S} (raw : bytes) (cea : Z) (body : Z → S → option (S * bool))
    (fuel : nat) (i end_ : Z) (s : S) : option S :=
  match fuel with
  | O => None
  | Datatypes.S fuel =>
    if negb (i <? end_) then Some s else
    len ← cea_db_payload_len raw (cea + i);
    if negb (i + len <? end_) then Some s else
    '(s, go) ← body (cea + i) s;
    if go : bool then for_each_cea_db raw cea body fuel (i + len + 1) end_ s else Some s
  end.

(** Enough rounds for an extension: a data block has at least one byte. *)
Definition CEA_FUEL : nat := 256.

(** ** Video modes *)

(** The connector's list of probed modes, and how many modes were allocated. *)
Record probe_state := mk_probe { probed_modes : list drm_display_mode; allocs : nat }.

Section Modes.
Context `{DrmModeH}.

(** The outcome of each allocation of a mode: its object id, or a failure. *)
Variable alloc : nat → option Z.

Definition duplicate_mode (m : drm_display_mode) (s : probe_state) : option drm_display_mode * probe_state :=
  (drm_mode_duplicate (alloc (allocs s)) m, mk_probe (probed_modes s) (S (allocs s))).

Definition drm_mode_probed_add (m : drm_display_mode) (s : probe_state) : probe_state :=
  mk_probe (probed_modes s ++ [m]) (allocs s).

(** [for (mode = db; mode < db + len; mode++)], with [n] codes left. *)
Fixpoint do_cea_modes (raw : bytes) (mode : Z) (n : nat) (modes : Z) (s : probe_state)
    : option (Z * probe_state) :=
  match n with
  | O => Some (modes, s)
  | S n =>
    b ← rd raw mode;
    let cea_mode := u8 (Z.land b 127 - 1) in
    match edid_cea_modes !! Z.to_nat cea_mode with
    | Some m =>
      let '(newmode, s) := duplicate_mode m s in
      match newmode with
      | Some newmode =>
        do_cea_modes raw (mode + 1) n (modes + 1) (drm_mode_probed_add (at_rate 0 newmode) s)
      | None => do_cea_modes raw (mode + 1) n modes s
      end
    | None => do_cea_modes raw (mode + 1) n modes s
    end
  end.

Definition add_cea_modes (raw : bytes) (s : probe_state) : option (Z * probe_state) :=
  cea ← drm_find_cea_extension (Some raw);
  match cea with
  | None => Some (0, s)
  | Some cea =>
    rev ← cea_revision raw cea;
    if rev <? 3 then Some (0, s) else
    '(ret, start, end_) ← cea_db_offsets raw cea;
    if z2b ret then Some (0, s) else
    for_each_cea_db raw cea (λ db '(modes, s),
      dbl ← cea_db_payload_len raw db;
      tag ← cea_db_tag raw db;
      if tag =? VIDEO_BLOCK then
        '(n, s) ← do_cea_modes raw (db + 1) (Z.to_nat dbl) 0 s; Some ((modes + n, s), true)
      else Some ((modes, s), true)) CEA_FUEL start end_ (0, s)
  end.

(** The first loop of add_alternate_cea_modes: the new modes. *)
Fixpoint alternate_modes (modes : list drm_display_mode) (new : list drm_display_mode) (s : probe_state)
    : list drm_display_mode * probe_state :=
  match modes with
  | [] => (new, s)
  | mode :: modes =>
    let cea_mode_idx := u8 (drm_match_cea_mode mode - 1) in
    match edid_cea_modes !! Z.to_nat cea_mode_idx with
    | None => alternate_modes modes new s
    | Some cea_mode =>
      let clock1 := clock (tm cea_mode) in
      let clock2 := cea_mode_alternate_clock cea_mode in
      if clock1 =? clock2 then alternate_modes modes new s else
      let clk := u32 (clock (tm mode)) in
      if negb (clk =? u32 clock1) && negb (clk =? clock2) then alternate_modes modes new s else
      let '(newmode, s) := duplicate_mode cea_mode s in
      match newmode with
      | None => alternate_modes modes new s
      | Some newmode =>
        let t := tm newmode in
        let c := i32 (if negb (clk =? u32 clock1) then u32 clock1 else clock2) in
        let newmode := set_tm (mk_timings c (hdisplay t) (hsync_start t) (hsync_end t) (htotal t) (hskew t)
          (vdisplay t) (vsync_start t) (vsync_end t) (vtotal t) (vscan t) (flags t)) newmode in
        alternate_modes modes (new ++ [newmode]) s
      end
    end
  end.

Definition add_alternate_cea_modes (raw : bytes) (s : probe_state) : option (Z * probe_state) :=
  cea ← drm_find_cea_extension (Some raw);
  match cea with
  | None => Some (0, s)
  | Some _ =>
    let '(new, s) := alternate_modes (probed_modes s) [] s in
    Some (Z.of_nat (length new), foldl (λ s m, drm_mode_probed_add m s) s new)
  end.
End Modes.

(** ** What the connector keeps *)

(** The fields of [struct drm_connector] that the EDID parser fills. *)
Record cea_connector := mk_conn {
  eld : bytes;
  dvi_dual : bool;
  max_tmds_clock : Z;
  latency_present : bool * bool;
  video_latency : Z * Z;
  audio_latency : Z * Z;
}.

Definition set_eld (e : bytes) (c : cea_connector) : cea_connector :=
  mk_conn e (dvi_dual c) (max_tmds_clock c) (latency_present c) (video_latency c) (audio_latency c).
Definition set_dvi_dual (b : bool) (c : cea_connector) : cea_connector :=
  mk_conn (eld c) b (max_tmds_clock c) (latency_present c) (video_latency c) (audio_latency c).
Definition set_max_tmds (z : Z) (c : cea_connector) : cea_connector :=
  mk_conn (eld c) (dvi_dual c) z (latency_present c) (video_latency c) (audio_latency c).
Definition set_present (p : bool * bool) (c : cea_connector) : cea_connector :=
  mk_conn (eld c) (dvi_dual c) (max_tmds_clock c) p (video_latency c) (audio_latency c).
Definition set_video (p : Z * Z) (c : cea_connector) : cea_connector :=
  mk_conn (eld c) (dvi_dual c) (max_tmds_clock c) (latency_present c) p (audio_latency c).
Definition set_audio (p : Z * Z) (c : cea_connector) : cea_connector :=
  mk_conn (eld c) (dvi_dual c) (max_tmds_clock c) (latency_present c) (video_latency c) p.

(** [connector->eld[i] |= v]. *)
Definition eld_or (i v : Z) (c : cea_connector) : option cea_connector :=
  b ← rd (eld c) i; e ← wr (eld c) i (Z.lor b v); Some (set_eld e c).

(** [if (len >= n) ..] on the byte [db[n]]. *)
Definition vsdb_field (raw : bytes) (db len n : Z) (f : Z → cea_connector → option cea_connector)
    (c : cea_connector) : option cea_connector :=
  if n <=? len then b ← rd raw (db + n); f b c else Some c.

Definition parse_hdmi_vsdb (raw : bytes) (db : Z) (c : cea_connector) : option cea_connector :=
  len ← cea_db_payload_len raw db;
  let at_least := vsdb_field raw db len in
  c ← at_least 6 (λ b c, c ← eld_or 5 (Z.shiftl (Z.shiftr b 7) 1) c;
                         Some (set_dvi_dual (z2b (Z.land b 1)) c)) c;
  c ← at_least 7 (λ b c, Some (set_max_tmds (b * 5) c)) c;
  c ← at_least 8 (λ b c, Some (set_present (z2b (Z.shiftr b 7), z2b (Z.land (Z.shiftr b 6) 1)) c)) c;
  c ← at_least 9 (λ b c, Some (set_video (b, (video_latency c).2) c)) c;
  c ← at_least 10 (λ b c, Some (set_audio (b, (audio_latency c).2) c)) c;
  c ← at_least 11 (λ b c, Some (set_video ((video_latency c).1, b) c)) c;
  at_least 12 (λ b c, Some (set_audio ((audio_latency c).1, b) c)) c.

Definition cea_db_is_hdmi_vsdb (raw : bytes) (db : Z) : option bool :=
  tag ← cea_db_tag raw db;
  if negb (tag =? VENDOR_BLOCK) then Some false else
  len ← cea_db_payload_len raw db;
  if len <? 5 then Some false else
  b1 ← rd raw (db + 1); b2 ← rd raw (db + 2); b3 ← rd raw (db + 3);
  Some (Z.lor (Z.lor b1 (Z.shiftl b2 8)) (Z.shiftl b3 16) =? HDMI_IDENTIFIER).

(** ** The ELD *)

(** [data]: the pointer to the name, as its offset. *)
Definition monitor_name (raw : bytes) (t : Z) (data : option Z) : option (option Z) :=
  ty ← rd raw (t + 3);
  if ty =? EDID_DETAIL_MONITOR_NAME then Some (Some (t + 5)) else Some data.

(** The copy of the name from index [mnl] on, with [n] characters left: the ELD
    and the last [mnl]. *)
Fixpoint copy_name (raw : bytes) (name : Z) (n : nat) (mnl : Z) (e : bytes) : option (bytes * Z) :=
  match n with
  | O => Some (e, mnl)
  | S n =>
    ch ← rd raw (name + mnl);
    if ch =? 10 then Some (e, mnl) else
    e ← wr e (20 + mnl) ch; copy_name raw name n (mnl + 1) e
  end.

(** One data block: the connector and [sad_count]. *)
Definition eld_block (raw : bytes) (mnl db : Z) (s : cea_connector * Z) : option ((cea_connector * Z) * bool) :=
  let '(c, sad_count) := s in
  dbl ← cea_db_payload_len raw db;
  tag ← cea_db_tag raw db;
  if tag =? AUDIO_BLOCK then
    let sad_count := Z.quot dbl 3 in
    if 1 <=? dbl then
      data ← slice raw (db + 1) (Z.to_nat dbl);
      e ← memcpy (eld c) (20 + mnl) data;
      Some ((set_eld e c, sad_count), true)
    else Some ((c, sad_count), true)
  else if tag =? SPEAKER_BLOCK then
    if 1 <=? dbl then
      b ← rd raw (db + 1); e ← wr (eld c) 7 b; Some ((set_eld e c, sad_count), true)
    else Some ((c, sad_count), true)
  else if tag =? VENDOR_BLOCK then
    hdmi ← cea_db_is_hdmi_vsdb raw db;
    if hdmi : bool then c ← parse_hdmi_vsdb raw db c; Some ((c, sad_count), true)
    else Some ((c, sad_count), true)
  else Some ((c, sad_count), true).

(** The name, behind the fixed part. *)
Definition eld_name (raw : bytes) (e : bytes) : option (bytes * Z) :=
  name ← drm_for_each_detailed_block raw (monitor_name raw) None;
  match name with Some name => copy_name raw name 13 0 e | None => Some (e, 0) end.

(** The bytes of the fixed part that depend on the EDID alone. *)
Definition eld_header (raw : bytes) (cea mnl : Z) (e : bytes) : option bytes :=
  rev ← rd raw (cea + 1);
  e ← wr e 4 (Z.lor (Z.shiftl rev 5) mnl);
  e ← wr e 0 (Z.shiftl 2 3);
  m0 ← rd raw mfg_id; e ← wr e 16 m0;
  m1 ← rd raw (mfg_id + 1); e ← wr e 17 m1;
  p0 ← rd raw prod_code; e ← wr e 18 p0;
  p1 ← rd raw (prod_code + 1); wr e 19 p1.

(** What the data blocks say, and the number of audio descriptors. *)
Definition eld_blocks (raw : bytes) (cea mnl : Z) (c : cea_connector) : option (cea_connector * Z) :=
  rev ← cea_revision raw cea;
  if 3 <=? rev then
    '(ret, start, end_) ← cea_db_offsets raw cea;
    let '(start, end_) := if z2b ret then (0, 0) else (start, end_) in
    for_each_cea_db raw cea (eld_block raw mnl) CEA_FUEL start end_ (c, 0)
  else Some (c, 0).

Definition drm_edid_to_eld (raw : bytes) (c : cea_connector) : option cea_connector :=
  let c := set_eld (replicate MAX_ELD_BYTES 0) c in
  cea ← drm_find_cea_extension (Some raw);
  match cea with
  | None => Some c
  | Some cea =>
    '(e, mnl) ← eld_name raw (eld c);
    e ← eld_header raw cea mnl e;
    '(c, sad_count) ← eld_blocks raw cea mnl (set_eld e c);
    c ← eld_or 5 (Z.shiftl sad_count 4) c;
    e ← wr (eld c) 2 (Z.quot (20 + mnl + sad_count * 3 + 3) 4);
    Some (set_eld e c)
  end.

(** ** Audio descriptors *)

Record cea_sad := mk_sad { sad_format : Z; sad_channels : Z; sad_freq : Z; sad_byte2 : Z }.

(** The [n] descriptors at [sad]. *)
Fixpoint read_sads (raw : bytes) (sad : Z) (n : nat) : option (list cea_sad) :=
  match n with
  | O => Some []
  | S n =>
    s0 ← rd raw sad; s1 ← rd raw (sad + 1); s2 ← rd raw (sad + 2);
    l ← read_sads raw (sad + 3) n;
    Some (mk_sad (Z.shiftr (Z.land s0 120) 3) (Z.land s0 7) (Z.land s1 127) s2 :: l)
  end.

(** [alloc]: whether kcalloc succeeds.  The result and the array, [None] where
    [*sads] is not assigned or NULL. *)
Definition drm_edid_to_sad (raw : bytes) (alloc : bool) : option (Z * option (list cea_sad)) :=
  cea ← drm_find_cea_extension (Some raw);
  match cea with
  | None => Some (- ENOENT, None)
  | Some cea =>
    rev ← cea_revision raw cea;
    if rev <? 3 then Some (- ENOTSUP, None) else
    '(ret, start, end_) ← cea_db_offsets raw cea;
    if z2b ret then Some (- EPROTO, None) else
    for_each_cea_db raw cea (λ db s,
      tag ← cea_db_tag raw db;
      if tag =? AUDIO_BLOCK then
        dbl ← cea_db_payload_len raw db;
        let count := Z.quot dbl 3 in
        if negb alloc then Some ((- ENOMEM, None), false) else
        l ← read_sads raw (db + 1) (Z.to_nat count);
        Some ((count, Some l), false)
      else Some (s, true)) CEA_FUEL start end_ (0, None)
  end.

(** ** Audio delay and detection *)

Section Sinks.
Context `{DrmModeH}.

Definition drm_av_sync_delay (c : cea_connector) (mode : drm_display_mode) : Z :=
  let i := z2b (Z.land (flags (tm mode)) DRM_MODE_FLAG_INTERLACE) in
  if negb (latency_present c).1 then 0 else
  let i := if negb (latency_present c).2 then false else i in
  let pick (p : Z * Z) := if i : bool then p.2 else p.1 in
  let a := pick (audio_latency c) in
  let v := pick (video_latency c) in
  if (a =? 255) || (v =? 255) then 0 else
  let ms x := if z2b x then cmin (2 * (x - 1)) 500 else x in
  cmax (ms v - ms a) 0.
End Sinks.

(** The connectors of the device, each with its encoder; the first with an ELD. *)
Definition drm_select_eld (encoder : Z) (connectors : list (Z * cea_connector))
    : option (option (Z * cea_connector)) :=
  (fix go l := match l with
    | [] => Some None
    | connector :: l =>
      if connector.1 =? encoder then
        e0 ← rd (eld connector.2) 0;
        if z2b e0 then Some (Some connector) else go l
      else go l
    end) connectors.

Definition drm_detect_hdmi_monitor (raw : bytes) : option bool :=
  cea ← drm_find_cea_extension (Some raw);
  match cea with
  | None => Some false
  | Some edid_ext =>
    '(ret, start_offset, end_offset) ← cea_db_offsets raw edid_ext;
    if z2b ret then Some false else
    for_each_cea_db raw edid_ext (λ db s,
      hdmi ← cea_db_is_hdmi_vsdb raw db;
      if hdmi : bool then Some (true, false) else Some (s, true)) CEA_FUEL start_offset end_offset false
  end.

Definition drm_detect_monitor_audio (raw : bytes) : option bool :=
  cea ← drm_find_cea_extension (Some raw);
  match cea with
  | None => Some false
  | Some edid_ext =>
    b3 ← rd raw (edid_ext + 3);
    if z2b (Z.land b3 EDID_BASIC_AUDIO) then Some true else
    '(ret, start_offset, end_offset) ← cea_db_offsets raw edid_ext;
    if z2b ret then Some false else
    for_each_cea_db raw edid_ext (λ db s,
      tag ← cea_db_tag raw db;
      if tag =? AUDIO_BLOCK then Some (true, false) else Some (s, true))
      CEA_FUEL start_offset end_offset false
  end.

Definition drm_rgb_quant_range_selectable (raw : bytes) : option bool :=
  cea ← drm_find_cea_extension (Some raw);
  match cea with
  | None => Some false
  | Some edid_ext =>
    '(ret, start, end_) ← cea_db_offsets raw edid_ext;
    if z2b ret then Some false else
    for_each_cea_db raw edid_ext (λ db s,
      tag ← cea_db_tag raw db; len ← cea_db_payload_len raw db;
      if (tag =? VIDEO_CAPABILITY_BLOCK) && (len =? 2) then
        b ← rd raw (db + 2); Some (z2b (Z.land b EDID_CEA_VCDB_QS), false)
      else Some (s, true)) CEA_FUEL start end_ false
  end.

(** ** Display info *)

Record drm_display_info := mk_info {
  info_width_mm : Z;
  info_height_mm : Z;
  bpc : Z;
  color_formats : Z;
  cea_rev : Z;
}.

Definition DRM_COLOR_FORMAT_RGB444 : Z := 1.
Definition DRM_COLOR_FORMAT_YCRCB444 : Z := 2.
Definition DRM_COLOR_FORMAT_YCRCB422 : Z := 4.
Definition DRM_EDID_DIGITAL_DEPTH_MASK : Z := 112.
Definition DRM_EDID_FEATURE_RGB_YCRCB444 : Z := 8.
Definition DRM_EDID_FEATURE_RGB_YCRCB422 : Z := 16.

(** The bits per colour of an EDID 1.4 digital input. *)
Definition digital_bpc (inp : Z) : Z :=
  let d := Z.shiftr (Z.land inp DRM_EDID_DIGITAL_DEPTH_MASK) 4 in
  if d =? 1 then 6 else if d =? 2 then 8 else if d =? 3 then 10 else
  if d =? 4 then 12 else if d =? 5 then 14 else if d =? 6 then 16 else 0.

(** [c |= bit] when [flag] is set in [b]. *)
Definition or_if (b flag bit c : Z) : Z := if z2b (Z.land b flag) then Z.lor c bit else c.

Definition drm_add_display_info (raw : bytes) (info : drm_display_info) : option drm_display_info :=
  w ← rd raw width_cm; h ← rd raw height_cm;
  let info := mk_info (w * 10) (h * 10) 0 0 (cea_rev info) in
  rev ← rd raw revision;
  if rev <? 3 then Some info else
  inp ← rd raw input;
  if negb (z2b (Z.land inp DRM_EDID_INPUT_DIGITAL)) then Some info else
  cea ← drm_find_cea_extension (Some raw);
  info ← (match cea with
          | None => Some info
          | Some edid_ext =>
            b1 ← rd raw (edid_ext + 1); b3 ← rd raw (edid_ext + 3);
            let c := or_if b3 EDID_CEA_YCRCB444 DRM_COLOR_FORMAT_YCRCB444 DRM_COLOR_FORMAT_RGB444 in
            let c := or_if b3 EDID_CEA_YCRCB422 DRM_COLOR_FORMAT_YCRCB422 c in
            Some (mk_info (info_width_mm info) (info_height_mm info) 0 c b1)
          end);
  if rev <? 4 then Some info else
  feat ← rd raw features;
  let c := Z.lor (color_formats info) DRM_COLOR_FORMAT_RGB444 in
  let c := or_if feat DRM_EDID_FEATURE_RGB_YCRCB444 DRM_COLOR_FORMAT_YCRCB444 c in
  let c := or_if feat DRM_EDID_FEATURE_RGB_YCRCB422 DRM_COLOR_FORMAT_YCRCB422 c in
  Some (mk_info (info_width_mm info) (info_height_mm info) (digital_bpc inp) c (cea_rev info)).

(** ** The walk over the data blocks *)

(** The body on each data block until it stops. *)
Fixpoint walk_dbs {S} (body : Z → S → option (S * bool)) (dbs : list Z) (s : S) : option S :=
  match dbs with
  | [] => Some s
  | db :: dbs => '(s, go) ← body db s; if go : bool then walk_dbs body dbs s else Some s
  end.

(** Consecutive data blocks from the offset [i], each ending before [end_]. *)
Fixpoint db_chain (raw : bytes) (i end_ : Z) (dbs : list Z) : Prop :=
  match dbs with
  | [] => True
  | db :: dbs => db = i ∧ ∃ len, cea_db_payload_len raw db = Some len ∧ 0 <= len <= 31 ∧
      db + len < end_ ∧ db_chain raw (db + len + 1) end_ dbs
  end.

(** A data block of an extension, the descriptor byte and the payload. *)
Definition db_in (raw : bytes) (cea db : Z) : Prop :=
  cea + 4 <= db ∧ ∃ len, cea_db_payload_len raw db = Some len ∧ 0 <= len <= 31 ∧ db + len < cea + 127.

Lemma db_chain_in raw cea i end_ dbs : cea + 4 <= i → end_ <= cea + 127 → db_chain raw i end_ dbs →
  Forall (db_in raw cea) dbs.
Proof.
  revert i. induction dbs as [|db dbs IH]; intros i Hi He; cbn; [constructor|].
  intros (-> & len & Hl & Hlen & Hlt & Hc). constructor.
  - split; [done|]. exists len. split_and!; try done; lia.
  - apply (IH (i + len + 1)); [lia|done|done].
Qed.

(** [raw] holds an EDID with [n] extensions. *)
Definition edid_bytes (raw : bytes) (n : Z) : Prop :=
  Forall byte raw ∧ rd raw extensions = Some n ∧ 128 * (n + 1) <= Z.of_nat (length raw).

(** [cea] is the offset of one of its extensions. *)
Definition extension_at (raw : bytes) (n cea : Z) : Prop :=
  ∃ k, 1 <= k <= n ∧ cea = 128 * k ∧ rd raw cea = Some CEA_EXT.

Lemma extension_rd raw n cea k : edid_bytes raw n → extension_at raw n cea → 0 <= k < 128 →
  ∃ b, rd raw (cea + k) = Some b ∧ 0 <= b < 256.
Proof.
  intros (Hb & Hn & Hl) (j & Hj & -> & _) Hk. destruct (rd_is_Some raw (128 * j + k)) as [b Hr]; [lia|].
  exists b. split; [done|by eapply rd_byte].
Qed.

Lemma find_cea_spec raw n : edid_bytes raw n → ∃ r, drm_find_cea_extension (Some raw) = Some r ∧
  ∀ cea, r = Some cea → extension_at raw n cea.
Proof.
  intros (Hb & Hn & Hl). pose proof (rd_byte _ _ _ Hb Hn) as Hnb. unfold drm_find_cea_extension.
  rewrite Hn. cbn [mbind option_bind]. destruct (Z.eqb_spec n 0); [by exists None|].
  assert (∀ m i, 0 <= i → i + Z.of_nat m = n → ∃ r, find_cea_from raw m i = Some r ∧
    ∀ cea, r = Some cea → extension_at raw n cea) as Hf.
  { induction m as [|m IH]; intros i Hi Hm; cbn [find_cea_from]; [by exists None|].
    destruct (rd_is_Some raw (EDID_LENGTH * (i + 1))) as [tag Htag]; [unfold EDID_LENGTH; lia|].
    rewrite Htag. cbn [mbind option_bind]. destruct (Z.eqb_spec tag CEA_EXT) as [-> | Ht].
    - eexists. split; [done|]. intros cea [= <-]. exists (i + 1). split_and!; [lia..|done|done].
    - apply IH; lia. }
  apply Hf; lia.
Qed.

Lemma payload_run raw n cea k : edid_bytes raw n → extension_at raw n cea → 0 <= k < 128 →
  ∃ len, cea_db_payload_len raw (cea + k) = Some len ∧ 0 <= len <= 31.
Proof.
  intros He Hx Hk. destruct (extension_rd raw n cea k He Hx Hk) as (b & Hb & Hbb).
  unfold cea_db_payload_len. rewrite Hb. cbn [mbind option_bind]. eexists. split; [done|].
  change (Z.land b 31) with (Z.land b (Z.ones 5)). rewrite Z.land_ones by done. pose proof (Z.mod_pos_bound b (2 ^ 5) ltac:(lia)). lia.
Qed.

Lemma for_each_cea_db_run raw n cea end_ fuel i : edid_bytes raw n → extension_at raw n cea →
  4 <= i → end_ <= 127 → (Z.to_nat (end_ - i) < fuel)%nat →
  ∃ dbs, (∀ S (body : Z → S → option (S * bool)) s,
            for_each_cea_db raw cea body fuel i end_ s = walk_dbs body dbs s) ∧
    db_chain raw (cea + i) (cea + end_) dbs.
Proof.
  intros He Hx. revert i. induction fuel as [|fuel IH]; intros i Hi Hend Hf; [lia|].
  destruct (decide (i < end_)) as [Hlt|Hge].
  2:{ exists []. split; [|done]. intros S body s. cbn. by rewrite (proj2 (Z.ltb_ge _ _)) by lia. }
  destruct (payload_run raw n cea i He Hx) as (len & Hlen & Hl); [lia|].
  destruct (decide (i + len < end_)) as [Hin|Hout].
  2:{ exists []. split; [|done]. intros S body s. cbn [for_each_cea_db walk_dbs].
      rewrite (proj2 (Z.ltb_lt _ _)) by lia. cbn [negb]. rewrite Hlen. cbn [mbind option_bind].
      by rewrite (proj2 (Z.ltb_ge _ _)) by lia. }
  destruct (IH (i + len + 1)) as (dbs & Hrun & Hch); [lia..|].
  exists (cea + i :: dbs). split.
  - intros S body s. cbn [for_each_cea_db walk_dbs].
    rewrite (proj2 (Z.ltb_lt _ _)) by lia. cbn [negb]. rewrite Hlen. cbn [mbind option_bind].
    rewrite (proj2 (Z.ltb_lt _ _)) by lia. cbn [negb].
    destruct (body (cea + i) s) as [[s' []]|]; cbn [mbind option_bind]; [apply Hrun|done|done].
  - split; [done|]. exists len. split_and!; try done; try lia.
    by replace (cea + i + len + 1) with (cea + (i + len + 1)) by lia.
Qed.

(** An invariant of the body that keeps it from faulting holds at the end. *)
Lemma walk_dbs_inv {S} (P : S → Prop) (Q : Z → Prop) body dbs s : Forall Q dbs → P s →
  (∀ db s, Q db → P s → ∃ s' go, body db s = Some (s', go) ∧ P s') →
  ∃ s', walk_dbs body dbs s = Some s' ∧ P s'.
Proof.
  intros HQ Hs Hb. revert s Hs. induction HQ as [|db dbs Hdb _ IH]; intros s Hs; cbn; [by eexists|].
  destruct (Hb db s Hdb Hs) as (s' & [] & -> & Hs'); cbn [mbind option_bind]; [by apply IH|by eexists].
Qed.

(** The same for the callbacks on the detailed timings. *)
Lemma run_cbs_inv {S} (P : S → Prop) (Q : Z → Prop) (cb : Z → S → option S) offs s : Forall Q offs → P s →
  (∀ o s, Q o → P s → ∃ s', cb o s = Some s' ∧ P s') → ∃ s', run_cbs cb offs s = Some s' ∧ P s'.
Proof.
  intros HQ Hs Hb. revert s Hs. induction HQ as [|o offs Ho _ IH]; intros s Hs; cbn; [by eexists|].
  destruct (Hb o s Ho Hs) as (s' & -> & Hs'). cbn [mbind option_bind]. by apply IH.
Qed.

Lemma offsets_run raw n cea : edid_bytes raw n → extension_at raw n cea →
  ∃ ret end_, cea_db_offsets raw cea = Some (ret, 4, end_) ∧
    (ret = 0 ∧ 4 <= end_ <= 127 ∨ ret = - ERANGE ∧ (end_ < 4 ∨ 127 < end_)).
Proof.
  intros He Hx. destruct (extension_rd raw n cea 2 He Hx) as (b & Hb & Hbb); [lia|].
  unfold cea_db_offsets. rewrite Hb. cbn [mbind option_bind]. eexists _, _. split; [done|].
  destruct (b =? 0); cbn [Z.ltb Z.compare orb Pos.compare Pos.compare_cont]; [left; lia|].
  destruct (Z.ltb_spec b 4), (Z.ltb_spec 127 b); cbn [orb]; (left; split; [done|lia]) || (right; split; [done|lia]).
Qed.

(** ** The ELD stays in its buffer *)

(** The header bytes of [e0] are those of the connector's ELD, but for the two the
    data blocks set. *)
Definition eld_kept (e0 : bytes) (c : cea_connector) : Prop :=
  length (eld c) = MAX_ELD_BYTES ∧
  ∀ k, 0 <= k < 20 → k ≠ 5 → k ≠ 7 → rd (eld c) k = rd e0 k.

Lemma wr_run e i v : 0 <= i < Z.of_nat (length e) → wr e i v = Some (<[Z.to_nat i := u8 v]> e).
Proof.
  intros Hi. unfold wr. by rewrite (proj2 (Z.ltb_ge _ _)), (proj2 (Z.leb_gt _ _)) by lia.
Qed.

Lemma rd_insert_ne e i k v : 0 <= i → k ≠ i → rd (<[Z.to_nat i := v]> e) k = rd e k.
Proof.
  intros Hi Hk. unfold rd. destruct (Z.ltb_spec k 0); [done|]. apply list_lookup_insert_ne. lia.
Qed.

Lemma rd_insert_eq e i v : 0 <= i < Z.of_nat (length e) → rd (<[Z.to_nat i := v]> e) i = Some v.
Proof.
  intros Hi. unfold rd. rewrite (proj2 (Z.ltb_ge _ _)) by lia. apply list_lookup_insert_eq. lia.
Qed.

Lemma memcpy_frame e i data : 0 <= i → i + Z.of_nat (length data) <= Z.of_nat (length e) →
  ∃ e', memcpy e i data = Some e' ∧ length e' = length e ∧ ∀ k, k < i → rd e' k = rd e k.
Proof.
  intros Hi Hl. unfold memcpy. rewrite (proj2 (Z.ltb_ge _ _)), (proj2 (Z.ltb_ge _ _)) by lia. cbn [orb].
  eexists. split; [done|]. split; [rewrite !length_app, length_take, length_drop; lia|].
  intros k Hk. rewrite rd_app_l by (rewrite length_take; lia). unfold rd.
  destruct (Z.ltb_spec k 0); [done|]. by rewrite lookup_take_lt by lia.
Qed.

Lemma slice_length raw i n : 0 <= i → i + Z.of_nat n <= Z.of_nat (length raw) →
  ∃ l, slice raw i n = Some l ∧ length l = n.
Proof.
  intros Hi Hl. unfold slice. rewrite (proj2 (Z.ltb_ge _ _)), (proj2 (Z.ltb_ge _ _)) by lia.
  eexists. split; [done|]. rewrite length_take, length_drop. lia.
Qed.

Lemma eld_or_kept e0 v c : eld_kept e0 c → ∃ c', eld_or 5 v c = Some c' ∧ eld_kept e0 c'.
Proof.
  intros [Hl Hk]. unfold eld_or. destruct (rd_is_Some (eld c) 5) as [b Hb]; [rewrite Hl; unfold MAX_ELD_BYTES; lia|].
  rewrite Hb. cbn [mbind option_bind]. rewrite wr_run by (rewrite Hl; unfold MAX_ELD_BYTES; lia).
  cbn [mbind option_bind]. eexists. split; [done|]. split; cbn [eld set_eld]; [by rewrite length_insert|].
  intros k ?? ?. by rewrite (rd_insert_ne _ 5) by lia; apply Hk.
Qed.

Lemma vsdb_field_kept e0 raw db len k f c :
  (k <= len → is_Some (rd raw (db + k))) →
  (∀ b c, eld_kept e0 c → ∃ c', f b c = Some c' ∧ eld_kept e0 c') →
  eld_kept e0 c → ∃ c', vsdb_field raw db len k f c = Some c' ∧ eld_kept e0 c'.
Proof.
  intros Hr Hf Hc. unfold vsdb_field. destruct (Z.leb_spec k len); [|by exists c].
  destruct Hr as [b ->]; [lia|]. cbn [mbind option_bind]. by apply Hf.
Qed.

Lemma db_byte raw n cea db k : edid_bytes raw n → extension_at raw n cea → db_in raw cea db →
  ∀ len, cea_db_payload_len raw db = Some len → 0 <= k <= len → ∃ b, rd raw (db + k) = Some b ∧ 0 <= b < 256.
Proof.
  intros He Hx (Hdb & len' & Hlen' & Hl & Hend) len Hlen Hk. rewrite Hlen in Hlen'. simplify_eq.
  replace (db + k) with (cea + (db - cea + k)) by lia. apply (extension_rd raw n); [done..|lia].
Qed.

Lemma parse_hdmi_kept e0 raw n cea db c : edid_bytes raw n → extension_at raw n cea → db_in raw cea db →
  eld_kept e0 c → ∃ c', parse_hdmi_vsdb raw db c = Some c' ∧ eld_kept e0 c'.
Proof.
  intros He Hx Hdb Hc. pose proof Hdb as (_ & len & Hlen & Hl & _). unfold parse_hdmi_vsdb.
  rewrite Hlen. cbn [mbind option_bind]. cbv zeta.
  assert (∀ k, 0 <= k → k <= len → is_Some (rd raw (db + k))) as Hr.
  { intros k Hk0 Hk. destruct (db_byte raw n cea db k He Hx Hdb len Hlen) as (b & Hb & _); [lia|by exists b]. }
  destruct (vsdb_field_kept e0 raw db len 6 (λ b c, c ← eld_or 5 (Z.shiftl (Z.shiftr b 7) 1) c;
    Some (set_dvi_dual (z2b (Z.land b 1)) c)) c) as (c1 & -> & Hc1); [by apply Hr| |done|].
  { intros b c' Hc'. destruct (eld_or_kept e0 (Z.shiftl (Z.shiftr b 7) 1) c' Hc') as (c2 & -> & Hc2).
    cbn [mbind option_bind]. by eexists. }
  cbn [mbind option_bind].
  repeat match goal with
  | H : eld_kept e0 ?c |- ∃ c', (vsdb_field raw db len ?k ?f ?c ≫= _) = Some c' ∧ _ =>
    let c2 := fresh "c" in let Hc2 := fresh "Hc" in
    destruct (vsdb_field_kept e0 raw db len k f c) as (c2 & -> & Hc2);
      [by apply Hr|by intros ?? ?; eexists|exact H|cbn [mbind option_bind]]
  end.
  apply vsdb_field_kept; [by apply Hr|by intros ?? ?; eexists|done].
Qed.

Lemma is_hdmi_run raw n cea db : edid_bytes raw n → extension_at raw n cea → db_in raw cea db →
  ∃ b, cea_db_is_hdmi_vsdb raw db = Some b.
Proof.
  intros He Hx Hdb. pose proof Hdb as (Hlo & len & Hlen & Hl & Hhi).
  assert (∀ k, 0 <= k <= len → ∃ b, rd raw (db + k) = Some b ∧ 0 <= b < 256) as Hr.
  { intros k Hk. by apply (db_byte raw n cea db k He Hx Hdb len Hlen). }
  unfold cea_db_is_hdmi_vsdb, cea_db_tag. destruct (Hr 0 ltac:(lia)) as (b0 & Hb0 & _).
  rewrite Z.add_0_r in Hb0. rewrite Hb0. cbn [mbind option_bind]. destruct (negb _); [by eexists|].
  rewrite Hlen. cbn [mbind option_bind]. destruct (Z.ltb_spec len 5); [by eexists|].
  destruct (Hr 1 ltac:(lia)) as (b1 & -> & _). destruct (Hr 2 ltac:(lia)) as (b2 & -> & _).
  destruct (Hr 3 ltac:(lia)) as (b3 & -> & _). cbn [mbind option_bind]. by eexists.
Qed.

Lemma eld_block_kept e0 raw n cea mnl db s : edid_bytes raw n → extension_at raw n cea →
  0 <= mnl <= 13 → db_in raw cea db → eld_kept e0 s.1 ∧ 0 <= s.2 <= 10 →
  ∃ s' go, eld_block raw mnl db s = Some (s', go) ∧ eld_kept e0 s'.1 ∧ 0 <= s'.2 <= 10.
Proof.
  intros He Hx Hm Hdb. destruct s as [c sad]. cbn [fst snd]. intros [Hc Hs].
  pose proof Hdb as (Hlo & len & Hlen & Hl & Hhi). unfold eld_block. rewrite Hlen. cbn [mbind option_bind].
  destruct (db_byte raw n cea db 0 He Hx Hdb len Hlen) as (b0 & Hb0 & _); [lia|]. rewrite Z.add_0_r in Hb0.
  unfold cea_db_tag. rewrite Hb0. cbn [mbind option_bind].
  pose proof Hx as (j & Hj & Hcea & _). pose proof He as (_ & _ & Hraw).
  assert (0 <= Z.quot len 3 <= 10) as Hq.
  { rewrite Z.quot_div_nonneg by lia. split; [apply Z.div_pos; lia|].
    apply Z.lt_succ_r, Z.div_lt_upper_bound; lia. }
  destruct (_ =? AUDIO_BLOCK).
  { destruct (Z.leb_spec 1 len); [|by eexists (_, _), true].
    destruct (slice_length raw (db + 1) (Z.to_nat len)) as (data & -> & Hdl); [lia..|].
    cbn [mbind option_bind]. destruct Hc as [Hcl Hck].
    destruct (memcpy_frame (eld c) (20 + mnl) data) as (e & -> & Hel & Hek); [lia|rewrite Hcl; unfold MAX_ELD_BYTES; lia|].
    cbn [mbind option_bind]. eexists (_, _), true. split; [done|]. cbn [fst snd]. split; [|done].
    split; cbn [eld set_eld]; [by rewrite Hel|]. intros k ???. rewrite Hek by lia. by apply Hck. }
  destruct (_ =? SPEAKER_BLOCK).
  { destruct (Z.leb_spec 1 len); [|by eexists (_, _), true].
    destruct (db_byte raw n cea db 1 He Hx Hdb len Hlen) as (b1 & -> & _); [lia|].
    cbn [mbind option_bind]. destruct Hc as [Hcl Hck]. rewrite wr_run by (rewrite Hcl; unfold MAX_ELD_BYTES; lia).
    cbn [mbind option_bind]. eexists (_, _), true. split; [done|]. cbn [fst snd]. split; [|done].
    split; cbn [eld set_eld]; [by rewrite length_insert|]. intros k ???.
    rewrite (rd_insert_ne _ 7) by lia. by apply Hck. }
  destruct (_ =? VENDOR_BLOCK); [|by eexists (_, _), true].
  destruct (is_hdmi_run raw n cea db He Hx Hdb) as ([] & ->); cbn [mbind option_bind];
    [|by eexists (_, _), true].
  destruct (parse_hdmi_kept e0 raw n cea db c He Hx Hdb Hc) as (c' & -> & Hc'). cbn [mbind option_bind].
  by eexists (_, _), true.
Qed.

(** The name ends at a newline or after 13 characters. *)
Lemma copy_name_run raw name m mnl e : 0 <= name → name + mnl + Z.of_nat m <= Z.of_nat (length raw) →
  0 <= mnl → mnl + Z.of_nat m = 13 → length e = MAX_ELD_BYTES →
  ∃ e' mnl', copy_name raw name m mnl e = Some (e', mnl') ∧ length e' = MAX_ELD_BYTES ∧ mnl <= mnl' <= 13 ∧
    (∀ k, k < 20 → rd e' k = rd e k).
Proof.
  intros Hn. revert mnl e. induction m as [|m IH]; intros mnl e Hr Hm0 Hm He; cbn [copy_name].
  - exists e, mnl. split_and!; done || lia.
  - destruct (rd_is_Some raw (name + mnl)) as [ch ->]; [lia|]. cbn [mbind option_bind].
    destruct (ch =? 10); [exists e, mnl; split_and!; done || lia|].
    rewrite wr_run by (rewrite He; unfold MAX_ELD_BYTES; lia). cbn [mbind option_bind].
    destruct (IH (mnl + 1) (<[Z.to_nat (20 + mnl) := u8 ch]> e)) as (e' & mnl' & Hrun & Hl & Hb & Hk);
      [lia|lia|lia|by rewrite length_insert|].
    exists e', mnl'. split_and!; try done; [lia|lia|]. intros k Hk20. rewrite Hk by done.
    apply rd_insert_ne; lia.
Qed.

(** The pointer drm_for_each_detailed_block leaves to the monitor's name. *)
Lemma monitor_name_run raw n : edid_bytes raw n →
  ∃ r, drm_for_each_detailed_block raw (monitor_name raw) None = Some r ∧
    ∀ name, r = Some name → 0 <= name ∧ name + 13 <= Z.of_nat (length raw).
Proof.
  intros (Hb & Hn & Hl). pose proof (rd_byte _ _ _ Hb Hn) as Hnb.
  destruct (each_extension_walk raw n 256 1 Hb Hn Hl) as (offs & Hrun & Hin); [lia..|].
  unfold drm_for_each_detailed_block. rewrite each_timing_run.
  set (P := λ s : option Z, ∀ name, s = Some name → 0 <= name ∧ name + 13 <= Z.of_nat (length raw)).
  assert (∀ o s, descriptor_in n o → P s → ∃ s', monitor_name raw o s = Some s' ∧ P s') as Hstep.
  { intros o s (Ho & _ & Hon) Hs. unfold monitor_name. destruct (rd_is_Some raw (o + 3)) as [ty ->]; [lia|].
    cbn [mbind option_bind]. destruct (_ =? _); [|by exists s]. eexists. split; [done|].
    intros name [= <-]. lia. }
  assert (Forall (descriptor_in n) (timing_offs EDID_DETAILED_TIMINGS detailed_timings)) as Hbase.
  { apply (timing_offs_in 4 n 54 0 54); cbn; lia. }
  assert (P None) as HN by by intros name.
  destruct (run_cbs_inv P _ _ _ _ Hbase HN Hstep) as (s1 & -> & Hs1).
  cbn [mbind option_bind]. rewrite Hrun. exact (run_cbs_inv P _ _ _ _ Hin Hs1 Hstep).
Qed.

(** ** Theorems *)

(** C36 (cea_walk_in_bounds): whatever the bytes of a CEA extension, the loop over
    its data blocks ends and sees consecutive blocks, each of at least one byte
    and complete inside the extension (before its checksum); an offset outside
    4 to 127 is refused with ERANGE. *)
Theorem cea_walk_in_bounds raw n cea : edid_bytes raw n → extension_at raw n cea →
  ∃ ret end_, cea_db_offsets raw cea = Some (ret, 4, end_) ∧
    (ret = 0 ∧ 4 <= end_ <= 127 ∨ ret = - ERANGE) ∧
    (ret = 0 → ∃ dbs, (∀ S (body : Z → S → option (S * bool)) s,
        for_each_cea_db raw cea body CEA_FUEL 4 end_ s = walk_dbs body dbs s) ∧
      db_chain raw (cea + 4) (cea + end_) dbs ∧ Forall (db_in raw cea) dbs).
Proof.
  intros He Hx. destruct (offsets_run raw n cea He Hx) as (ret & end_ & Hoff & Hr).
  exists ret, end_. split; [done|]. split; [tauto|]. intros ->.
  destruct Hr as [[_ Hend] | [Hbad _]]; [|done].
  destruct (for_each_cea_db_run raw n cea end_ CEA_FUEL 4 He Hx) as (dbs & Hrun & Hch);
    [lia|lia|unfold CEA_FUEL; lia|].
  exists dbs. split; [done|]. split; [done|]. apply (db_chain_in raw cea (cea + 4) (cea + end_)); [lia|lia|exact Hch].
Qed.

Lemma eld_name_ok raw n e : edid_bytes raw n → length e = MAX_ELD_BYTES →
  ∃ e' mnl, eld_name raw e = Some (e', mnl) ∧ length e' = MAX_ELD_BYTES ∧ 0 <= mnl <= 13.
Proof.
  intros He Hl. unfold eld_name. destruct (monitor_name_run raw n He) as (name & -> & Hname). cbn [mbind option_bind].
  destruct name as [name|]; [|eexists _, 0; split_and!; done || lia]. destruct (Hname name eq_refl) as [H0 H13].
  destruct (copy_name_run raw name 13 0 e) as (e' & mnl & Hrun & ? & ? & _); [lia|lia|lia|lia|done|]. by exists e', mnl.
Qed.

Lemma eld_header_ok raw n cea mnl e : edid_bytes raw n → extension_at raw n cea → length e = MAX_ELD_BYTES →
  ∃ e' rev, eld_header raw cea mnl e = Some e' ∧ rd raw (cea + 1) = Some rev ∧ length e' = MAX_ELD_BYTES ∧
    rd e' 0 = Some 16 ∧ rd e' 4 = Some (u8 (Z.lor (Z.shiftl rev 5) mnl)) ∧ ∀ k, 0 <= k < 4 → rd e' (16 + k) = rd raw (mfg_id + k).
Proof.
  intros He Hext Hel. destruct (extension_rd raw n cea 1 He Hext) as (rev & Hrev & _); [lia|].
  pose proof He as (Hb & Hn & Hraw). pose proof (rd_byte _ _ _ Hb Hn) as Hnb. unfold eld_header. rewrite Hrev. cbn [mbind option_bind].
  assert (∀ k, 0 <= k < 4 → ∃ b, rd raw (mfg_id + k) = Some b ∧ u8 b = b) as Hid.
  { intros k Hk. destruct (rd_is_Some raw (mfg_id + k)) as [b Hbk]; [unfold mfg_id; lia|].
    exists b. split; [done|]. apply (wrap_id 8). exact (rd_byte _ _ _ Hb Hbk). }
  change prod_code with (mfg_id + 2). change (mfg_id + 2 + 1) with (mfg_id + 3).
  destruct (Hid 0 ltac:(lia)) as (m0 & Hm0 & E0), (Hid 1 ltac:(lia)) as (m1 & Hm1 & E1), (Hid 2 ltac:(lia)) as (p0 & Hp0 & E2),
    (Hid 3 ltac:(lia)) as (p1 & Hp1 & E3). rewrite Z.add_0_r in Hm0. rewrite Hm0, Hm1, Hp0, Hp1.
  assert (Z.of_nat (length e) = 128) as Hel' by (rewrite Hel; done).
  do 6 (rewrite wr_run by (rewrite ?length_insert; lia); cbn [mbind option_bind]).
  eexists _, rev. split; [reflexivity|]. split; [done|]. split; [by rewrite !length_insert|].
  split; [|split; [|intros k Hk]]; repeat rewrite rd_insert_ne by lia; try by rewrite rd_insert_eq by (rewrite ?length_insert; lia).
  assert (k = 0 ∨ k = 1 ∨ k = 2 ∨ k = 3) as [-> | [-> | [-> | ->]]] by lia;
    [rewrite !Z.add_0_r, Hm0|rewrite Hm1; change (16 + 1) with 17|rewrite Hp0; change (16 + 2) with 18|rewrite Hp1; change (16 + 3) with 19];
    repeat rewrite rd_insert_ne by lia; rewrite rd_insert_eq by (rewrite ?length_insert; lia); by f_equal.
Qed.

Lemma eld_blocks_ok raw n cea mnl c : edid_bytes raw n → extension_at raw n cea → 0 <= mnl <= 13 → length (eld c) = MAX_ELD_BYTES →
  ∃ c' sad, eld_blocks raw cea mnl c = Some (c', sad) ∧ eld_kept (eld c) c' ∧ 0 <= sad <= 10.
Proof.
  intros He Hext Hm Hl. destruct (extension_rd raw n cea 1 He Hext) as (rev & Hrev & _); [lia|].
  assert (eld_kept (eld c) c) as Hk by done.
  assert (∃ s, eld_blocks raw cea mnl c = Some s ∧ eld_kept (eld c) s.1 ∧ 0 <= s.2 <= 10) as ([c' sad] & ? & ?); [|by exists c', sad].
  unfold eld_blocks, cea_revision. rewrite Hrev. cbn [mbind option_bind].
  destruct (Z.leb_spec 3 rev); [|eexists; split; [done|cbn; split; [done|lia]]].
  destruct (offsets_run raw n cea He Hext) as (ret & end_ & -> & Hr). cbn [mbind option_bind].
  destruct Hr as [[-> Hend] | [-> _]]; [|eexists; split; [reflexivity|cbn; split; [done|lia]]]. cbn [z2b Z.eqb negb].
  destruct (for_each_cea_db_run raw n cea end_ CEA_FUEL 4 He Hext) as (dbs & Hrun & Hch); [lia|lia|unfold CEA_FUEL; lia|].
  rewrite Hrun. apply (walk_dbs_inv (λ s, eld_kept (eld c) s.1 ∧ 0 <= s.2 <= 10) (db_in raw cea)).
  - apply (db_chain_in raw cea (cea + 4) (cea + end_)); [lia|lia|done].
  - cbn. split; [done|lia].
  - intros db s Hdb Hs. by apply (eld_block_kept (eld c) raw n cea mnl db s He Hext Hm Hdb).
Qed.

(** The baseline length in words. *)
Lemma eld_words len : 0 <= len → let w := Z.quot (len + 3) 4 in 4 * w - 4 < len <= 4 * w.
Proof.
  intros Hl w. unfold w. rewrite Z.quot_div_nonneg by lia. pose proof (Z.div_mod (len + 3) 4 ltac:(lia)).
  pose proof (Z.mod_pos_bound (len + 3) 4 ltac:(lia)). lia.
Qed.

(** For any EDID drm_edid_to_eld neither reads outside
    the EDID nor writes outside the 128 bytes of the ELD, though the audio data
    and the name come from the monitor; without a CEA extension the ELD is all
    zero, else it has version 2, the vendor and product of the EDID, the length
    of the name, and a baseline length in words that just covers the fixed part,
    the name and the audio descriptors. *)
Theorem edid_to_eld_bounded raw n c : edid_bytes raw n →
  ∃ c', drm_edid_to_eld raw c = Some c' ∧ length (eld c') = MAX_ELD_BYTES ∧
    match drm_find_cea_extension (Some raw) with
    | Some (Some cea) => ∃ rev mnl sad words, rd raw (cea + 1) = Some rev ∧ 0 <= mnl <= 13 ∧ 0 <= sad <= 10 ∧
        rd (eld c') 0 = Some 16 ∧ rd (eld c') 4 = Some (u8 (Z.lor (Z.shiftl rev 5) mnl)) ∧
        (∀ k, 0 <= k < 4 → rd (eld c') (16 + k) = rd raw (mfg_id + k)) ∧
        rd (eld c') 2 = Some words ∧ words <= 16 ∧ 4 * words - 4 < 20 + mnl + 3 * sad <= 4 * words
    | _ => c' = set_eld (replicate MAX_ELD_BYTES 0) c
    end.
Proof.
  intros He. destruct (find_cea_spec raw n He) as (r & Hfind & Hext). unfold drm_edid_to_eld.
  rewrite Hfind. cbn [mbind option_bind]. destruct r as [cea|]; [|by eexists]. specialize (Hext cea eq_refl).
  destruct (eld_name_ok raw n (replicate MAX_ELD_BYTES 0) He) as (e & mnl & Hname & Hel & Hmnl); [by rewrite length_replicate|].
  cbn [eld set_eld]. rewrite Hname. cbn [mbind option_bind].
  destruct (eld_header_ok raw n cea mnl e He Hext Hel) as (e0 & rev & -> & Hrev & He0 & Hb0 & Hb4 & Hids). cbn [mbind option_bind].
  destruct (eld_blocks_ok raw n cea mnl (set_eld e0 (set_eld (replicate MAX_ELD_BYTES 0) c)) He Hext Hmnl He0)
    as (c1 & sad & -> & Hk1 & Hsad). cbn [mbind option_bind eld set_eld] in *.
  destruct (eld_or_kept e0 (Z.shiftl sad 4) c1 Hk1) as (c2 & -> & Hl2 & Hk2). cbn [mbind option_bind].
  rewrite wr_run by (rewrite Hl2; unfold MAX_ELD_BYTES; lia). cbn [mbind option_bind].
  eexists. split; [done|]. cbn [eld set_eld]. split; [by rewrite length_insert|].
  pose proof (eld_words (20 + mnl + sad * 3) ltac:(lia)) as Hw. cbv zeta in Hw. set (w := Z.quot _ 4) in *.
  assert (∀ k, 0 <= k < 20 → k ≠ 2 → k ≠ 5 → k ≠ 7 → rd (<[Z.to_nat 2 := u8 w]> (eld c2)) k = rd e0 k) as Hfr.
  { intros k ????. rewrite (rd_insert_ne _ 2) by lia. by apply Hk2. }
  exists rev, mnl, sad, w. split_and!; try done; try lia.
  - by rewrite Hfr by lia.
  - by rewrite Hfr by lia.
  - intros k Hk. rewrite Hfr by lia. by apply Hids.
  - rewrite rd_insert_eq by (rewrite Hl2; unfold MAX_ELD_BYTES; lia). f_equal. apply (wrap_id 8). lia.
Qed.

Section Video.
Context `{DrmModeH}.

(** The identification code of a short video descriptor, and whether the table
    has it. *)
Definition svd_code (b : Z) : Z := Z.land b 127.
Definition svd_known (b : Z) : Prop := 1 <= svd_code b <= Z.of_nat (length edid_cea_modes).

#[local] Instance svd_known_dec b : Decision (svd_known b).
Proof. unfold svd_known. apply _. Defined.

Lemma svd_lookup b : 0 <= b < 256 →
  (svd_known b → edid_cea_modes !! Z.to_nat (u8 (svd_code b - 1)) = edid_cea_modes !! Z.to_nat (svd_code b - 1)) ∧
  (¬ svd_known b → edid_cea_modes !! Z.to_nat (u8 (svd_code b - 1)) = None).
Proof.
  intros Hb. assert (0 <= svd_code b <= 127) as Hc.
  { unfold svd_code. change (Z.land b 127) with (Z.land b (Z.ones 7)). rewrite Z.land_ones by done.
    pose proof (Z.mod_pos_bound b (2 ^ 7) ltac:(lia)). lia. }
  unfold svd_known. change (Z.of_nat (length edid_cea_modes)) with 64.
  destruct (decide (svd_code b = 0)) as [H0|H0].
  - rewrite H0. split; [lia|]. intros _. reflexivity.
  - rewrite (wrap_id 8) by (change (2 ^ 8) with 256; lia). split; [done|]. intros Hn.
    apply lookup_ge_None_2. change (length edid_cea_modes) with 64%nat. lia.
Qed.

(** When the allocations succeed, do_cea_modes adds at
    the end of the probed modes one mode per descriptor whose code (the native
    bit aside) is in the CEA table, in order, with the timings of that entry and
    its refresh rate left to be computed, and returns their number; other
    descriptors are skipped. *)
Theorem do_cea_modes_correct alloc raw mode n modes s codes : (∀ k, is_Some (alloc k)) →
  slice raw mode n = Some codes → Forall byte codes →
  ∃ new s', do_cea_modes alloc raw mode n modes s = Some (modes + Z.of_nat (length new), s') ∧
    probed_modes s' = probed_modes s ++ new ∧
    Forall2 (λ b m, ∃ c, edid_cea_modes !! Z.to_nat (svd_code b - 1) = Some c ∧
               drm_mode_equal m c = true ∧ vrefresh m = 0) (filter svd_known codes) new.
Proof.
  intros Ha. revert mode modes s codes. induction n as [|n IH]; intros mode modes s codes Hs Hb.
  { exists [], s. cbn. rewrite Z.add_0_r, app_nil_r. split_and!; [done..|].
    assert (codes = []) as ->; [|constructor]. unfold slice in Hs. destruct (_ || _); [done|].
    injection Hs as <-. by rewrite take_0. }
  assert (∃ b rest, codes = b :: rest ∧ rd raw mode = Some b ∧ slice raw (mode + 1) n = Some rest)
    as (b & rest & -> & Hrd & Hrest).
  { pose proof (rd_slice raw mode (S n) codes) as Hr. specialize (Hr 0 Hs ltac:(lia)). rewrite Z.add_0_r in Hr.
    unfold slice in Hs |- *. destruct (_ || _) eqn:Hg; [done|]. injection Hs as <-.
    apply orb_false_iff in Hg as [Hm%Z.ltb_ge Hlen%Z.ltb_ge].
    rewrite (proj2 (Z.ltb_ge _ _)), (proj2 (Z.ltb_ge _ _)) by lia. cbn [orb].
    destruct (drop (Z.to_nat mode) raw) as [|b rest] eqn:Hd.
    - apply (f_equal length) in Hd. rewrite length_drop in Hd. cbn in Hd. lia.
    - exists b, (take n rest). split; [done|]. split; [rewrite Hr; done|].
      replace (Z.to_nat (mode + 1)) with (Z.to_nat mode + 1)%nat by lia. by rewrite <- drop_drop, Hd. }
  apply Forall_cons in Hb as [Hbb Hbr]. cbn [do_cea_modes]. rewrite Hrd. cbn [mbind option_bind].
  destruct (svd_lookup b Hbb) as [Hk Hu]. unfold svd_code in Hk, Hu.
  destruct (decide (svd_known b)) as [Hknown|Hunk].
  - rewrite (Hk Hknown). pose proof Hknown as Hrange. unfold svd_known, svd_code in Hrange.
    destruct (lookup_lt_is_Some_2 edid_cea_modes (Z.to_nat (Z.land b 127 - 1))) as [c Hc]; [lia|].
    rewrite Hc. unfold duplicate_mode, drm_mode_duplicate. destruct (Ha (allocs s)) as [id ->].
    cbn [drm_mode_create fmap option_fmap option_map mbind option_bind].
    set (m := at_rate 0 _).
    destruct (IH (mode + 1) (modes + 1) (drm_mode_probed_add m (mk_probe (probed_modes s) (S (allocs s)))) rest Hrest Hbr)
      as (new & s' & Hrun & Hp & Hf).
    exists (m :: new), s'. split_and!.
    + rewrite Hrun. do 2 f_equal. cbn [length]. lia.
    + rewrite Hp. cbn. by rewrite <- app_assoc.
    + rewrite filter_cons_True by done. constructor; [|done].
      exists c. split; [exact Hc|]. split; [|done]. by apply equal_ident.
  - rewrite (Hu Hunk). destruct (IH (mode + 1) modes s rest Hrest Hbr) as (new & s' & Hrun & Hp & Hf).
    exists new, s'. split; [done|]. split; [done|]. by rewrite filter_cons_False.
Qed.
End Video.

(** The audio descriptor of three bytes. *)
Definition decode_sad (b : Z * Z * Z) : cea_sad :=
  let '(s0, s1, s2) := b in mk_sad (Z.shiftr (Z.land s0 120) 3) (Z.land s0 7) (Z.land s1 127) s2.

(** The groups of three of a list. *)
Fixpoint triples (l : bytes) : list (Z * Z * Z) :=
  match l with a :: b :: c :: l => (a, b, c) :: triples l | _ => [] end.

Lemma read_sads_run raw i m l : slice raw i (3 * m) = Some l → read_sads raw i m = Some (decode_sad <$> triples l).
Proof.
  revert i l. induction m as [|m IH]; intros i l Hs.
  { cbn. unfold slice in Hs. destruct (_ || _); [done|]. injection Hs as <-. done. }
  cbn [read_sads]. pose proof (rd_slice raw i (3 * S m) l) as Hr.
  pose proof (Hr 0 Hs ltac:(lia)) as H0. pose proof (Hr 1 Hs ltac:(lia)) as H1. pose proof (Hr 2 Hs ltac:(lia)) as H2.
  rewrite Z.add_0_r in H0. rewrite H0, H1, H2. clear Hr H0 H1 H2.
  unfold slice in Hs. destruct (_ || _) eqn:Hg; [done|]. injection Hs as Hl.
  apply orb_false_iff in Hg as [Hi%Z.ltb_ge Hlen%Z.ltb_ge].
  assert (length l = 3 * S m)%nat as Hll by (rewrite <- Hl, length_take, length_drop; lia).
  destruct l as [|a [|b [|c l]]]; cbn [length] in Hll; try lia.
  change (Z.to_nat 0) with 0%nat. change (Z.to_nat 1) with 1%nat. change (Z.to_nat 2) with 2%nat.
  cbn [lookup list_lookup mbind option_bind]. rewrite (IH (i + 3) l); [done|].
  unfold slice. rewrite (proj2 (Z.ltb_ge _ _)), (proj2 (Z.ltb_ge _ _)) by lia. cbn [orb]. f_equal.
  replace (Z.to_nat (i + 3)) with (Z.to_nat i + 3)%nat by lia. rewrite <- drop_drop.
  rewrite take_drop_commute. replace (3 + 3 * m)%nat with (3 * S m)%nat by lia.
  apply (f_equal (drop 3)) in Hl. exact Hl.
Qed.

(** Drm_edid_to_sad fails with the documented error
    when there is no usable extension; otherwise it returns the descriptors of
    the first audio data block, the whole triples of its payload decoded field
    by field, and their number, and 0 when there is no audio block. *)
Theorem edid_to_sad_correct raw n : edid_bytes raw n →
  ∃ r, drm_edid_to_sad raw true = Some r ∧
    match r with
    | (ret, None) => ret = - ENOENT ∧ drm_find_cea_extension (Some raw) = Some None ∨
                     ret = - ENOTSUP ∨ ret = - EPROTO ∨ ret = 0
    | (ret, Some sads) => ∃ cea db len payload, drm_find_cea_extension (Some raw) = Some (Some cea) ∧
        db_in raw cea db ∧ cea_db_tag raw db = Some AUDIO_BLOCK ∧
        slice raw (db + 1) (3 * (len / 3)) = Some payload ∧ cea_db_payload_len raw db = Some (Z.of_nat len) ∧
        sads = decode_sad <$> triples payload ∧ ret = Z.of_nat (len / 3) ∧ Z.of_nat (length sads) = ret
    end.
Proof.
  intros He. destruct (find_cea_spec raw n He) as (r & Hfind & Hext). unfold drm_edid_to_sad.
  rewrite Hfind. cbn [mbind option_bind]. destruct r as [cea|]; [|eexists (_, _); split; [done|by left]].
  specialize (Hext cea eq_refl). destruct (extension_rd raw n cea 1 He Hext) as (rev & Hrev & _); [lia|].
  unfold cea_revision. rewrite Hrev. cbn [mbind option_bind].
  destruct (rev <? 3); [eexists (_, _); split; [done|by right; left]|].
  destruct (offsets_run raw n cea He Hext) as (ret & end_ & -> & Hr). cbn [mbind option_bind].
  destruct Hr as [[-> Hend] | [-> _]]; [|eexists (_, _); split; [done|by right; right; left]].
  cbn [z2b Z.eqb negb]. destruct (for_each_cea_db_run raw n cea end_ CEA_FUEL 4 He Hext) as (dbs & Hrun & Hch);
    [lia|lia|unfold CEA_FUEL; lia|].
  rewrite Hrun. pose proof (db_chain_in raw cea (cea + 4) (cea + end_) dbs ltac:(lia) ltac:(lia) Hch) as Hall.
  clear Hrun Hch. induction Hall as [|db dbs Hdb _ IH]; cbn [walk_dbs].
  { eexists (_, _). split; [done|]. by right; right; right. }
  pose proof Hdb as (Hlo & len & Hlen & Hl & Hhi). pose proof Hext as (j & Hj & Hcea & _). pose proof He as (_ & _ & Hraw).
  destruct (db_byte raw n cea db 0 He Hext Hdb len Hlen) as (b0 & Hb0 & _); [lia|]. rewrite Z.add_0_r in Hb0.
  assert (cea_db_tag raw db = Some (Z.shiftr b0 5)) as -> by (unfold cea_db_tag; by rewrite Hb0).
  cbn [mbind option_bind]. destruct (Z.eqb_spec (Z.shiftr b0 5) AUDIO_BLOCK) as [Htag|Hno]; [|exact IH].
  rewrite Hlen. cbn [mbind option_bind negb].
  assert (Z.quot len 3 = Z.of_nat (Z.to_nat len / 3)) as Hq.
  { rewrite Z.quot_div_nonneg by lia. rewrite Nat2Z.inj_div, Z2Nat.id by lia. done. }
  rewrite Hq, Nat2Z.id. pose proof (Nat.mul_div_le (Z.to_nat len) 3 ltac:(lia)) as Hle.
  destruct (slice_length raw (db + 1) (3 * (Z.to_nat len / 3))) as (payload & Hp & Hpl); [lia..|].
  rewrite (read_sads_run raw (db + 1) _ payload Hp). cbn [mbind option_bind].
  eexists (_, _). split; [done|]. exists cea, db, (Z.to_nat len), payload.
  split_and!; try done.
  - unfold cea_db_tag. rewrite Hb0. cbn. by rewrite Htag.
  - rewrite Hlen. f_equal. lia.
  - rewrite length_fmap. f_equal.
    clear -Hpl. revert Hpl. generalize (Z.to_nat len / 3)%nat as m. intros m. revert payload.
    induction m as [|m IHm]; intros [|a [|b [|c l]]] Hl; cbn [length] in Hl; try lia; [done|].
    cbn [triples length]. f_equal. apply IHm. lia.
Qed.

(** ** Witnesses *)

Section Witness.
#[local] Existing Instance interface_modes.

(** An EDID with one CEA extension: an audio, a video, a speaker and an HDMI data
    block. *)
Definition demo_ext : bytes :=
  let body := [2; 3; 21; 192; 35; 9; 7; 7; 66; 144; 4; 129; 1; 102; 3; 12; 0; 16; 0; 128] ++ replicate 107 0 in
  body ++ [(- zsum body) mod 256].
Definition demo_edid : bytes := demo_base 1 ++ demo_ext.

Lemma demo_edid_bytes : edid_bytes demo_edid 1.
Proof.
  split; [|split; [reflexivity|vm_compute; discriminate]].
  apply Forall_forall. intros x Hx. apply list_elem_of_In in Hx.
  assert (forallb (λ x, (0 <=? x) && (x <? 256)) demo_edid = true) as Hall by reflexivity.
  rewrite forallb_forall in Hall. specialize (Hall x Hx). lia.
Qed.

Lemma demo_extension : extension_at demo_edid 1 128.
Proof. exists 1. split; [lia|]. split; reflexivity. Qed.

Definition demo_conn : cea_connector := mk_conn [] false 0 (false, false) (0, 0) (0, 0).

Lemma cea_walk_in_bounds_witness : ∃ ret end_, cea_db_offsets demo_edid 128 = Some (ret, 4, end_) ∧
  (ret = 0 ∧ 4 <= end_ <= 127 ∨ ret = - ERANGE) ∧
  (ret = 0 → ∃ dbs, (∀ S (body : Z → S → option (S * bool)) s,
      for_each_cea_db demo_edid 128 body CEA_FUEL 4 end_ s = walk_dbs body dbs s) ∧
    db_chain demo_edid (128 + 4) (128 + end_) dbs ∧ Forall (db_in demo_edid 128) dbs).
Proof. apply (cea_walk_in_bounds demo_edid 1 128 demo_edid_bytes demo_extension). Defined.

Lemma edid_to_eld_bounded_witness : ∃ c', drm_edid_to_eld demo_edid demo_conn = Some c' ∧
  length (eld c') = MAX_ELD_BYTES ∧
  match drm_find_cea_extension (Some demo_edid) with
  | Some (Some cea) => ∃ rev mnl sad words, rd demo_edid (cea + 1) = Some rev ∧ 0 <= mnl <= 13 ∧ 0 <= sad <= 10 ∧
      rd (eld c') 0 = Some 16 ∧ rd (eld c') 4 = Some (u8 (Z.lor (Z.shiftl rev 5) mnl)) ∧
      (∀ k, 0 <= k < 4 → rd (eld c') (16 + k) = rd demo_edid (mfg_id + k)) ∧
      rd (eld c') 2 = Some words ∧ words <= 16 ∧ 4 * words - 4 < 20 + mnl + 3 * sad <= 4 * words
  | _ => c' = set_eld (replicate MAX_ELD_BYTES 0) demo_conn
  end.
Proof. apply (edid_to_eld_bounded demo_edid 1 demo_conn). exact demo_edid_bytes. Defined.

(** The HDMI block is found, the speakers and the audio descriptor are copied. *)
Example demo_eld : (λ c, (take 23 (eld c), dvi_dual c)) <$> drm_edid_to_eld demo_edid demo_conn =
  Some ([16; 0; 6; 0; 96; 18; 0; 1; 0; 0; 0; 0; 0; 0; 0; 0; 0; 0; 0; 0; 9; 7; 7], false).
Proof. vm_compute. reflexivity. Qed.

Example demo_detect : drm_detect_hdmi_monitor demo_edid = Some true ∧ drm_detect_monitor_audio demo_edid = Some true.
Proof. split; vm_compute; reflexivity. Qed.

Lemma do_cea_modes_correct_witness : ∃ new s',
  do_cea_modes (λ k, Some (Z.of_nat k)) demo_edid 137 2 0 (mk_probe [] 0) = Some (0 + Z.of_nat (length new), s') ∧
  probed_modes s' = probed_modes (mk_probe [] 0) ++ new ∧
  Forall2 (λ b m, ∃ c, edid_cea_modes !! Z.to_nat (svd_code b - 1) = Some c ∧
    drm_mode_equal m c = true ∧ vrefresh m = 0) (filter svd_known [144; 4]) new.
Proof.
  apply (do_cea_modes_correct (λ k, Some (Z.of_nat k)) demo_edid 137 2 0 (mk_probe [] 0) [144; 4]).
  - intros k. by eexists.
  - reflexivity.
  - repeat constructor; lia.
Defined.

Lemma edid_to_sad_correct_witness : ∃ r, drm_edid_to_sad demo_edid true = Some r ∧
  match r with
  | (ret, None) => ret = - ENOENT ∧ drm_find_cea_extension (Some demo_edid) = Some None ∨
                   ret = - ENOTSUP ∨ ret = - EPROTO ∨ ret = 0
  | (ret, Some sads) => ∃ cea db len payload, drm_find_cea_extension (Some demo_edid) = Some (Some cea) ∧
      db_in demo_edid cea db ∧ cea_db_tag demo_edid db = Some AUDIO_BLOCK ∧
      slice demo_edid (db + 1) (3 * (len / 3)) = Some payload ∧
      cea_db_payload_len demo_edid db = Some (Z.of_nat len) ∧
      sads = decode_sad <$> triples payload ∧ ret = Z.of_nat (len / 3) ∧ Z.of_nat (length sads) = ret
  end.
Proof. apply (edid_to_sad_correct demo_edid 1). exact demo_edid_bytes. Defined.

Example demo_sads : drm_edid_to_sad demo_edid true = Some (1, Some [mk_sad 1 1 7 7]).
Proof. vm_compute. reflexivity. Qed.
End Witness.
