(* ===== verification/EdidModes.v ===== *)
(** * drm_edid.c: modes from an EDID

    How the descriptors and tables of an EDID become modes on the connector's
    list: detailed timings, standard timings, established timings, CVT codes,
    and the modes inferred from a range descriptor, composed in
    drm_add_edid_modes.  The theorems: the detailed timings are decoded as
    they are encoded, every mode made of one is ordered, the returned count is
    the number of modes added, established timings III lose a bit of each byte,
    and a monitor's secondary GTF curve can make the driver divide by zero. *)

From stdpp Require Import base option list strings.
From Stdlib Require Import ZArith Lia.
From S2P Require Import Prelude LinuxList Modes EdidTables Edid Cea.

Definition EDID_STD_TIMINGS : nat := 8.
Definition EDID_EST_TIMINGS : nat := 16.
Definition EDID_DETAIL_EST_TIMINGS : Z := 247.
Definition EDID_DETAIL_CVT_3BYTE : Z := 248.
Definition EDID_DETAIL_STD_MODES : Z := 250.
Definition EDID_TIMING_ASPECT_MASK : Z := 192.
Definition EDID_TIMING_VFREQ_MASK : Z := 63.
Definition DRM_EDID_PT_HSYNC_POSITIVE : Z := 2.
Definition DRM_EDID_PT_VSYNC_POSITIVE : Z := 4.
Definition DRM_EDID_PT_STEREO : Z := 32.
Definition DRM_EDID_PT_INTERLACED : Z := 128.
Definition DRM_EDID_FEATURE_PREFERRED_TIMING : Z := 2.
Definition established_timings : Z := 35.
Definition standard_timings : Z := 38.

Section EdidModes.
Context `{DrmModeH}.

(** The outcome of each allocation of a mode, as in Cea.v. *)
Variable alloc : nat → option Z.

(** A mode made by [f] with the next allocation. *)
Definition make_mode (f : option Z → option (option drm_display_mode)) (s : probe_state)
    : option (option drm_display_mode * probe_state) :=
  m ← f (alloc (allocs s)); Some (m, mk_probe (probed_modes s) (S (allocs s))).

(** [if (mode) { drm_mode_probed_add(connector, mode); modes++; }]. *)
Definition add_mode (mode : option drm_display_mode) (modes : Z) (s : probe_state) : Z * probe_state :=
  match mode with
  | Some mode => (modes + 1, drm_mode_probed_add mode s)
  | None => (modes, s)
  end.

(** ** Detailed timings *)

(** The sizes of CEA interlaced modes, in frame height. *)
Definition cea_interlaced : list (Z * Z) :=
  [(1920, 1080); (720, 480); (1440, 480); (2880, 480); (720, 576); (1440, 576); (2880, 576)].

Definition interlace_step (t : timings) (wh : Z * Z) : timings :=
  let '(w, h) := wh in
  if (hdisplay t =? w) && (vdisplay t =? Z.quot h 2) then
    mk_timings (clock t) (hdisplay t) (hsync_start t) (hsync_end t) (htotal t) (hskew t)
      (i32 (vdisplay t * 2)) (i32 (vsync_start t * 2)) (i32 (vsync_end t * 2))
      (Z.lor (i32 (vtotal t * 2)) 1) (vscan t) (flags t)
  else t.

Definition drm_mode_do_interlace_quirk (t : timings) (misc : Z) : timings :=
  if negb (z2b (Z.land misc DRM_EDID_PT_INTERLACED)) then t else
  let t := foldl interlace_step t cea_interlaced in
  set_flags (Z.lor (flags t) DRM_MODE_FLAG_INTERLACE) t.

(** The 18 bytes of a descriptor, by the fields of [struct detailed_timing]. *)
Record detailed_pixel_timing := mk_pt {
  pixel_clock : Z;
  hactive : Z;
  hblank : Z;
  vactive : Z;
  vblank : Z;
  hsync_offset : Z;
  hsync_pulse_width : Z;
  vsync_offset : Z;
  vsync_pulse_width : Z;
  pt_width_mm : Z;
  pt_height_mm : Z;
  misc : Z;
}.

Definition read_pixel_timing (d : bytes) : detailed_pixel_timing :=
  let b k := nth k d 0 in
  mk_pt (Z.lor (b 0%nat) (Z.shiftl (b 1%nat) 8))
    (Z.lor (Z.shiftl (Z.land (b 4%nat) 240) 4) (b 2%nat))
    (Z.lor (Z.shiftl (Z.land (b 4%nat) 15) 8) (b 3%nat))
    (Z.lor (Z.shiftl (Z.land (b 7%nat) 240) 4) (b 5%nat))
    (Z.lor (Z.shiftl (Z.land (b 7%nat) 15) 8) (b 6%nat))
    (Z.lor (Z.shiftl (Z.land (b 11%nat) 192) 2) (b 8%nat))
    (Z.lor (Z.shiftl (Z.land (b 11%nat) 48) 4) (b 9%nat))
    (Z.lor (Z.shiftr (Z.land (b 11%nat) 12) 2) (Z.shiftr (b 10%nat) 4))
    (Z.lor (Z.shiftl (Z.land (b 11%nat) 3) 4) (Z.land (b 10%nat) 15))
    (Z.lor (b 12%nat) (Z.shiftl (Z.land (b 14%nat) 240) 4))
    (Z.lor (b 13%nat) (Z.shiftl (Z.land (b 14%nat) 15) 8))
    (b 17%nat).

(** The timings of a descriptor, with the fix-ups of bogus totals. *)
Definition detailed_timings_of (pt : detailed_pixel_timing) : timings :=
  let hss := hactive pt + hsync_offset pt in
  let hse := hss + hsync_pulse_width pt in
  let ht := hactive pt + hblank pt in
  let vss := vactive pt + vsync_offset pt in
  let vse := vss + vsync_pulse_width pt in
  let vt := vactive pt + vblank pt in
  mk_timings (pixel_clock pt * 10) (hactive pt) hss hse (if ht <? hse then hse + 1 else ht) 0
    (vactive pt) vss vse (if vt <? vse then vse + 1 else vt) 0 0.

Definition set_size (w h : Z) (m : drm_display_mode) : drm_display_mode :=
  mk_mode (base_id m) (mode_name m) (status m) (mode_type m) (tm m) w h (crtc m) (vrefresh m) (hsync m).

(** The timings and flags read from the descriptor at [timing], for a new mode;
    two quirks change the descriptor in place. *)
Definition detailed_fill (raw : bytes) (timing quirks : Z) (pt : detailed_pixel_timing)
    (mode : drm_display_mode) : option (drm_display_mode * bytes) :=
  raw ← (if z2b (Z.land quirks EDID_QUIRK_135_CLOCK_TOO_HIGH)
         then raw ← wr raw timing 64; wr raw (timing + 1) 4 else Some raw);
  lo ← rd raw timing; hi ← rd raw (timing + 1);
  let t := detailed_timings_of (mk_pt (Z.lor lo (Z.shiftl hi 8)) (hactive pt) (hblank pt)
    (vactive pt) (vblank pt) (hsync_offset pt) (hsync_pulse_width pt) (vsync_offset pt)
    (vsync_pulse_width pt) (pt_width_mm pt) (pt_height_mm pt) (misc pt)) in
  let t := drm_mode_do_interlace_quirk t (misc pt) in
  let pp := z2b (Z.land quirks EDID_QUIRK_DETAILED_SYNC_PP) in
  let mi := if pp then Z.lor (misc pt) (Z.lor DRM_EDID_PT_HSYNC_POSITIVE DRM_EDID_PT_VSYNC_POSITIVE)
            else misc pt in
  raw ← (if pp then wr raw (timing + 17) mi else Some raw);
  let f := Z.lor (flags t) (if z2b (Z.land mi DRM_EDID_PT_HSYNC_POSITIVE)
                            then DRM_MODE_FLAG_PHSYNC else DRM_MODE_FLAG_NHSYNC) in
  let f := Z.lor f (if z2b (Z.land mi DRM_EDID_PT_VSYNC_POSITIVE)
                    then DRM_MODE_FLAG_PVSYNC else DRM_MODE_FLAG_NVSYNC) in
  Some (set_tm (set_flags f t) mode, raw).

(** From the label [set_size] on. *)
Definition detailed_set_size (raw : bytes) (quirks : Z) (pt : detailed_pixel_timing)
    (mode : drm_display_mode) : option drm_display_mode :=
  let k := if z2b (Z.land quirks EDID_QUIRK_DETAILED_IN_CM) then 10 else 1 in
  let mode := set_size (pt_width_mm pt * k) (pt_height_mm pt * k) mode in
  mode ← (if z2b (Z.land quirks EDID_QUIRK_DETAILED_USE_MAXIMUM_SIZE)
          then w ← rd raw width_cm; h ← rd raw height_cm; Some (set_size (w * 10) (h * 10) mode)
          else Some mode);
  Some (drm_mode_set_name (set_type DRM_MODE_TYPE_DRIVER mode)).

(** The mode of the descriptor at [timing], the EDID and the state. *)
Definition drm_mode_detailed (raw : bytes) (timing quirks : Z) (s : probe_state)
    : option (option drm_display_mode * bytes * probe_state) :=
  d ← slice raw timing 18;
  let pt := read_pixel_timing d in
  if (hactive pt <? 64) || (vactive pt <? 64) then Some (None, raw, s) else
  if z2b (Z.land (misc pt) DRM_EDID_PT_STEREO) then Some (None, raw, s) else
  if (hsync_pulse_width pt =? 0) || (vsync_pulse_width pt =? 0) then Some (None, raw, s) else
  if z2b (Z.land quirks EDID_QUIRK_FORCE_REDUCED_BLANKING) then
    '(mode, s) ← make_mode (λ r, drm_cvt_mode r (hactive pt) (vactive pt) 60 true false false) s;
    match mode with
    | None => Some (None, raw, s)
    | Some mode => mode ← detailed_set_size raw quirks pt mode; Some (Some mode, raw, s)
    end
  else
    '(mode, s) ← make_mode (λ r, Some (drm_mode_create r)) s;
    match mode with
    | None => Some (None, raw, s)
    | Some mode =>
      '(mode, raw) ← detailed_fill raw timing quirks pt mode;
      mode ← detailed_set_size raw quirks pt mode; Some (Some mode, raw, s)
    end.

(** The closure of the walk that builds detailed modes; the EDID is part of it. *)
Record detailed_closure := mk_closure {
  cl_raw : bytes;
  cl_preferred : bool;
  cl_modes : Z;
  cl_state : probe_state;
}.

Definition do_detailed_mode (quirks timing : Z) (c : detailed_closure) : option detailed_closure :=
  lo ← rd (cl_raw c) timing; hi ← rd (cl_raw c) (timing + 1);
  if z2b (Z.lor lo (Z.shiftl hi 8)) then
    '(newmode, raw, s) ← drm_mode_detailed (cl_raw c) timing quirks (cl_state c);
    match newmode with
    | None => Some (mk_closure raw (cl_preferred c) (cl_modes c) s)
    | Some newmode =>
      let newmode := if cl_preferred c
                     then set_type (Z.lor (mode_type newmode) DRM_MODE_TYPE_PREFERRED) newmode else newmode in
      Some (mk_closure raw false (cl_modes c + 1) (drm_mode_probed_add newmode s))
    end
  else Some c.

(** The writes of the quirks stay inside a descriptor the walk has already
    reached, so the walk is over the EDID as it was. *)
Definition add_detailed_modes (raw : bytes) (quirks : Z) (s : probe_state)
    : option (Z * bytes * probe_state) :=
  v14 ← version_greater raw 1 3;
  feat ← rd raw features;
  let preferred := if negb v14 then z2b (Z.land feat DRM_EDID_FEATURE_PREFERRED_TIMING) else true in
  c ← drm_for_each_detailed_block raw (do_detailed_mode quirks) (mk_closure raw preferred 0 s);
  Some (cl_modes c, cl_raw c, cl_state c).

(** A closure that counts modes, run over the descriptors under a version test. *)
Definition walk_modes (raw : bytes) (cb : bytes → Z → Z * probe_state → option (Z * probe_state))
    (min : Z) (s : probe_state) : option (Z * probe_state) :=
  v ← version_greater raw 1 min;
  if v : bool then drm_for_each_detailed_block raw (cb raw) (0, s) else Some (0, s).

(** ** Standard timings *)

(** A copy of the DMT mode, if there is one. *)
Definition find_dmt (hsize vsize fresh : Z) (rb : bool) (s : probe_state)
    : option drm_display_mode * probe_state :=
  match List.find (dmt_matches hsize vsize fresh rb) drm_dmt_modes with
  | Some ptr => duplicate_mode alloc ptr s
  | None => (None, s)
  end.

(** The 1366x768 mode CVT cannot express. *)
Definition hdtv_mode (m : drm_display_mode) : drm_display_mode :=
  let t := tm m in
  set_tm (mk_timings (clock t) 1366 (i32 (hsync_start t - 1)) (i32 (hsync_end t - 1)) (htotal t) (hskew t)
    (vdisplay t) (vsync_start t) (vsync_end t) (vtotal t) (vscan t) (flags t)) m.

(** The size of a standard timing, with the first HDTV hack. *)
Definition std_size (hs va revision : Z) : Z * Z * Z :=
  let aspect_ratio := Z.shiftr (Z.land va EDID_TIMING_ASPECT_MASK) 6 in
  let vrefresh_rate := Z.land va EDID_TIMING_VFREQ_MASK + 60 in
  let hsize := hs * 8 + 248 in
  let vsize := if aspect_ratio =? 0 then if revision <? 3 then hsize else Z.quot (hsize * 10) 16
               else if aspect_ratio =? 1 then Z.quot (hsize * 3) 4
               else if aspect_ratio =? 2 then Z.quot (hsize * 4) 5
               else Z.quot (hsize * 9) 16 in
  if (vrefresh_rate =? 60) &&
     (((hsize =? 1360) && (vsize =? 765)) || ((hsize =? 1368) && (vsize =? 769)))
  then (1366, 768, vrefresh_rate) else (hsize, vsize, vrefresh_rate).

(** [hs], [va]: the two bytes of the standard timing. *)
Definition drm_mode_std (raw : bytes) (hs va revision : Z) (s : probe_state)
    : option (option drm_display_mode * probe_state) :=
  timing_level ← standard_timing_level raw;
  if bad_std_timing hs va then Some (None, s) else
  let '(hsize, vsize, vrefresh_rate) := std_size hs va revision in
  if existsb (λ m, (hdisplay (tm m) =? hsize) && (vdisplay (tm m) =? vsize) &&
                   (drm_mode_vrefresh m =? vrefresh_rate)) (probed_modes s)
  then Some (None, s) else
  if (hsize =? 1366) && (vsize =? 768) && (vrefresh_rate =? 60) then
    '(mode, s) ← make_mode (λ r, drm_cvt_mode r 1366 768 vrefresh_rate false false false) s;
    Some (option_map hdtv_mode mode, s)
  else
  has_rb ← drm_monitor_supports_rb raw;
  let '(mode, s) := if has_rb : bool then find_dmt hsize vsize vrefresh_rate true s else (None, s) in
  match mode with
  | Some _ => Some (mode, s)
  | None =>
    let '(mode, s) := find_dmt hsize vsize vrefresh_rate false s in
    match mode with
    | Some _ => Some (mode, s)
    | None =>
      if timing_level =? LEVEL_GTF then
        make_mode (λ r, drm_gtf_mode r hsize vsize vrefresh_rate false false) s
      else if timing_level =? LEVEL_GTF2 then
        '(mode, s) ← make_mode (λ r, drm_gtf_mode r hsize vsize vrefresh_rate false false) s;
        match mode with
        | None => Some (None, s)
        | Some mode =>
          hs ← drm_mode_hsync mode; hbreak ← drm_gtf2_hbreak raw;
          if hbreak <? hs then
            gm ← drm_gtf2_m raw; g2c ← drm_gtf2_2c raw; gk ← drm_gtf2_k raw; g2j ← drm_gtf2_2j raw;
            make_mode (λ r, drm_gtf_mode_complex r hsize vsize vrefresh_rate false false gm g2c gk g2j) s
          else Some (Some mode, s)
        end
      else if timing_level =? LEVEL_CVT then
        make_mode (λ r, drm_cvt_mode r hsize vsize vrefresh_rate false false false) s
      else Some (None, s)
    end
  end.

(** The [n] standard timings at [off]. *)
Fixpoint std_modes (raw : bytes) (n : nat) (off modes : Z) (s : probe_state) : option (Z * probe_state) :=
  match n with
  | O => Some (modes, s)
  | S n =>
    hs ← rd raw off; va ← rd raw (off + 1); rev ← rd raw revision;
    '(newmode, s) ← drm_mode_std raw hs va rev s;
    let '(modes, s) := add_mode newmode modes s in
    std_modes raw n (off + 2) modes s
  end.

Definition do_standard_modes (raw : bytes) (t : Z) (c : Z * probe_state) : option (Z * probe_state) :=
  ty ← rd raw (t + 3);
  if ty =? EDID_DETAIL_STD_MODES then std_modes raw 6 (t + 5) c.1 c.2 else Some c.

Definition add_standard_modes (raw : bytes) (s : probe_state) : option (Z * probe_state) :=
  '(modes, s) ← std_modes raw EDID_STD_TIMINGS standard_timings 0 s;
  '(cmodes, s) ← walk_modes raw do_standard_modes 0 s;
  Some (modes + cmodes, s).

(** ** Modes inferred from a range *)

(** [t]: the offset of the range descriptor. *)
Definition mode_in_hsync_range (mode : drm_display_mode) (raw : bytes) (t : Z) : option bool :=
  hmin ← rd raw (t + 7); hmax ← rd raw (t + 8);
  rev ← rd raw revision; t4 ← rd raw (t + 4);
  let hmin := if 4 <=? rev then hmin + (if z2b (Z.land t4 4) then 255 else 0) else hmin in
  let hmax := if 4 <=? rev then hmax + (if z2b (Z.land t4 8) then 255 else 0) else hmax in
  hsync ← drm_mode_hsync mode;
  Some ((hsync <=? hmax) && (hmin <=? hsync)).

Definition mode_in_vsync_range (mode : drm_display_mode) (raw : bytes) (t : Z) : option bool :=
  vmin ← rd raw (t + 5); vmax ← rd raw (t + 6);
  rev ← rd raw revision; t4 ← rd raw (t + 4);
  let vmin := if 4 <=? rev then vmin + (if z2b (Z.land t4 1) then 255 else 0) else vmin in
  let vmax := if 4 <=? rev then vmax + (if z2b (Z.land t4 2) then 255 else 0) else vmax in
  let vsync := drm_mode_vrefresh mode in
  Some ((vsync <=? vmax) && (vmin <=? vsync)).

Definition range_pixel_clock (raw : bytes) (t : Z) : option Z :=
  t9 ← rd raw (t + 9);
  if (t9 =? 0) || (t9 =? 255) then Some 0 else
  rev ← rd raw revision; t10 ← rd raw (t + 10); t12 ← rd raw (t + 12);
  if (4 <=? rev) && (t10 =? 4) then Some (u32 (t9 * 10000 - Z.shiftr t12 2 * 250))
  else Some (u32 (t9 * 10000 + 5001)).

Definition mode_in_range (mode : drm_display_mode) (raw : bytes) (t : Z) : option bool :=
  h ← mode_in_hsync_range mode raw t;
  if negb h then Some false else
  v ← mode_in_vsync_range mode raw t;
  if negb v then Some false else
  max_clock ← range_pixel_clock raw t;
  if z2b max_clock && (max_clock <? u32 (clock (tm mode))) then Some false else
  rev ← rd raw revision; t10 ← rd raw (t + 10); t12 ← rd raw (t + 12); t13 ← rd raw (t + 13);
  if (4 <=? rev) && (t10 =? 4) && z2b t13 && (8 * (t13 + 256 * Z.land t12 3) <? hdisplay (tm mode))
  then Some false else
  if mode_is_rb mode then drm_monitor_supports_rb raw else Some true.

(** The loop of valid_inferred_mode over the rest of the list. *)
Fixpoint inferred_scan (mode : drm_display_mode) (l : list drm_display_mode) (ok : bool) : bool :=
  match l with
  | [] => ok
  | m :: l =>
    if (hdisplay (tm mode) =? hdisplay (tm m)) && (vdisplay (tm mode) =? vdisplay (tm m)) &&
       (drm_mode_vrefresh mode =? drm_mode_vrefresh m) then false else
    inferred_scan mode l
      (if (hdisplay (tm mode) <=? hdisplay (tm m)) && (vdisplay (tm mode) <=? vdisplay (tm m))
       then true else ok)
  end.

Definition valid_inferred_mode (s : probe_state) (mode : drm_display_mode) : bool :=
  inferred_scan mode (probed_modes s) false.

Fixpoint dmt_loop (raw : bytes) (t : Z) (l : list drm_display_mode) (modes : Z) (s : probe_state)
    : option (Z * probe_state) :=
  match l with
  | [] => Some (modes, s)
  | m :: l =>
    r ← mode_in_range m raw t;
    let '(modes, s) :=
      if r && valid_inferred_mode s m
      then let '(newmode, s) := duplicate_mode alloc m s in add_mode newmode modes s
      else (modes, s) in
    dmt_loop raw t l modes s
  end.

Definition drm_dmt_modes_for_range (raw : bytes) (t : Z) (s : probe_state) : option (Z * probe_state) :=
  dmt_loop raw t drm_dmt_modes 0 s.

Definition fixup_mode_1366x768 (mode : drm_display_mode) : drm_display_mode :=
  if (hdisplay (tm mode) =? 1368) && (vdisplay (tm mode) =? 768)
  then drm_mode_set_name (hdtv_mode mode) else mode.

(** The loop over extra_modes that drm_gtf_modes_for_range and
    drm_cvt_modes_for_range share; [gen] makes the mode of an entry. *)
Fixpoint extra_loop (gen : option Z → minimode → option (option drm_display_mode))
    (raw : bytes) (t : Z) (l : list minimode) (modes : Z) (s : probe_state) : option (Z * probe_state) :=
  match l with
  | [] => Some (modes, s)
  | m :: l =>
    '(newmode, s) ← make_mode (λ r, gen r m) s;
    match newmode with
    | None => Some (modes, s)
    | Some newmode =>
      let newmode := fixup_mode_1366x768 newmode in
      r ← mode_in_range newmode raw t;
      if negb r || negb (valid_inferred_mode s newmode) then extra_loop gen raw t l modes s
      else extra_loop gen raw t l (modes + 1) (drm_mode_probed_add newmode s)
    end
  end.

Definition drm_gtf_modes_for_range (raw : bytes) (t : Z) (s : probe_state) : option (Z * probe_state) :=
  extra_loop (λ r m, drm_gtf_mode r (mini_w m) (mini_h m) (mini_r m) false false) raw t extra_modes 0 s.

Definition drm_cvt_modes_for_range (raw : bytes) (t : Z) (s : probe_state) : option (Z * probe_state) :=
  has_rb ← drm_monitor_supports_rb raw;
  extra_loop (λ r m, drm_cvt_mode r (mini_w m) (mini_h m) (mini_r m) has_rb false false)
    raw t extra_modes 0 s.

Definition do_inferred_modes (raw : bytes) (t : Z) (c : Z * probe_state) : option (Z * probe_state) :=
  ty ← rd raw (t + 3);
  if negb (ty =? EDID_DETAIL_MONITOR_RANGE) then Some c else
  '(n, s) ← drm_dmt_modes_for_range raw t c.2;
  let modes := c.1 + n in
  v12 ← version_greater raw 1 1;
  if negb v12 then Some (modes, s) else
  fl ← rd raw (t + 10);
  if (fl =? 2) || (fl =? 0) then
    '(n, s) ← drm_gtf_modes_for_range raw t s; Some (modes + n, s)
  else if fl =? 4 then
    v14 ← version_greater raw 1 3;
    if negb v14 then Some (modes, s) else
    '(n, s) ← drm_cvt_modes_for_range raw t s; Some (modes + n, s)
  else Some (modes, s).

Definition add_inferred_modes (raw : bytes) (s : probe_state) : option (Z * probe_state) :=
  walk_modes raw do_inferred_modes 0 s.

(** ** Established timings *)

(** [j] from 7 down to 1 for the byte [i]; [break] when the table is over. *)
Fixpoint est3_bits (b i : Z) (j : nat) (modes : Z) (s : probe_state) : Z * probe_state :=
  match j with
  | O => (modes, s)
  | S j' =>
    let m := i * 8 + (7 - Z.of_nat j) in
    match est3_modes !! Z.to_nat m with
    | None => (modes, s)
    | Some e =>
      let '(modes, s) :=
        if z2b (Z.land b (Z.shiftl 1 (Z.of_nat j))) then
          let '(mode, s) := find_dmt (mini_w e) (mini_h e) (mini_r e) (z2b (mini_rb e)) s in
          add_mode mode modes s
        else (modes, s) in
      est3_bits b i j' modes s
    end
  end.

(** The [n] bytes of the bitmap from the byte [i] on. *)
Fixpoint est3_bytes (raw : bytes) (est i : Z) (n : nat) (modes : Z) (s : probe_state)
    : option (Z * probe_state) :=
  match n with
  | O => Some (modes, s)
  | S n =>
    b ← rd raw (est + i);
    let '(modes, s) := est3_bits b i 7 modes s in
    est3_bytes raw est (i + 1) n modes s
  end.

Definition drm_est3_modes (raw : bytes) (t : Z) (s : probe_state) : option (Z * probe_state) :=
  est3_bytes raw (t + 5) 0 6 0 s.

Definition do_established_modes (raw : bytes) (t : Z) (c : Z * probe_state) : option (Z * probe_state) :=
  ty ← rd raw (t + 3);
  if ty =? EDID_DETAIL_EST_TIMINGS then '(n, s) ← drm_est3_modes raw t c.2; Some (c.1 + n, s) else Some c.

(** The established modes from the bit [i] on. *)
Fixpoint est_bits_modes (est_bits i : Z) (l : list drm_display_mode) (modes : Z) (s : probe_state)
    : Z * probe_state :=
  match l with
  | [] => (modes, s)
  | m :: l =>
    let '(modes, s) :=
      if z2b (Z.land est_bits (Z.shiftl 1 i))
      then let '(newmode, s) := duplicate_mode alloc m s in add_mode newmode modes s
      else (modes, s) in
    est_bits_modes est_bits (i + 1) l modes s
  end.

Definition add_established_modes (raw : bytes) (s : probe_state) : option (Z * probe_state) :=
  t1 ← rd raw established_timings; t2 ← rd raw (established_timings + 1);
  mfg_rsvd ← rd raw (established_timings + 2);
  let est_bits := Z.lor (Z.lor t1 (Z.shiftl t2 8)) (Z.shiftl (Z.land mfg_rsvd 128) 9) in
  let '(modes, s) := est_bits_modes est_bits 0 (take (S EDID_EST_TIMINGS) edid_est_modes) 0 s in
  '(cmodes, s) ← walk_modes raw do_established_modes 0 s;
  Some (modes + cmodes, s).

(** ** CVT codes *)

Definition cvt_rates : list Z := [60; 85; 75; 60; 50].

(** The modes of the rates [j], ..., with [n] left. *)
Fixpoint cvt_code_modes (width height code2 : Z) (j n : nat) (modes : Z) (s : probe_state)
    : option (Z * probe_state) :=
  match n with
  | O => Some (modes, s)
  | S n =>
    if z2b (Z.land code2 (Z.shiftl 1 (Z.of_nat j))) then
      '(newmode, s) ← make_mode (λ r, drm_cvt_mode r width height (nth j cvt_rates 0)
                                        (Nat.eqb j 0) false false) s;
      let '(modes, s) := add_mode newmode modes s in
      cvt_code_modes width height code2 (S j) n modes s
    else cvt_code_modes width height code2 (S j) n modes s
  end.

Definition cvt_size (code0 code1 : Z) : Z * Z :=
  let height := (code0 + Z.shiftl (Z.land code1 240) 4 + 1) * 2 in
  let a := Z.land code1 12 in
  (if a =? 0 then Z.quot (height * 4) 3
   else if a =? 4 then Z.quot (height * 16) 9
   else if a =? 8 then Z.quot (height * 16) 10
   else Z.quot (height * 15) 9, height).

(** The [n] codes at [cvt]. *)
Fixpoint cvt_codes (raw : bytes) (cvt : Z) (n : nat) (modes : Z) (s : probe_state)
    : option (Z * probe_state) :=
  match n with
  | O => Some (modes, s)
  | S n =>
    c0 ← rd raw cvt; c1 ← rd raw (cvt + 1); c2 ← rd raw (cvt + 2);
    if (c0 =? 0) && (c1 =? 0) && (c2 =? 0) then cvt_codes raw (cvt + 3) n modes s else
    let '(width, height) := cvt_size c0 c1 in
    '(modes, s) ← cvt_code_modes width height c2 1 4 modes s;
    cvt_codes raw (cvt + 3) n modes s
  end.

Definition drm_cvt_modes (raw : bytes) (t : Z) (s : probe_state) : option (Z * probe_state) :=
  cvt_codes raw (t + 5) 4 0 s.

Definition do_cvt_mode (raw : bytes) (t : Z) (c : Z * probe_state) : option (Z * probe_state) :=
  ty ← rd raw (t + 3);
  if ty =? EDID_DETAIL_CVT_3BYTE then '(n, s) ← drm_cvt_modes raw t c.2; Some (c.1 + n, s) else Some c.

Definition add_cvt_modes (raw : bytes) (s : probe_state) : option (Z * probe_state) :=
  walk_modes raw do_cvt_mode 2 s.

(** ** The preferred mode of a quirk *)

Definition MODE_SIZE (m : drm_display_mode) : Z := i32 (hdisplay (tm m) * vdisplay (tm m)).

(** [abs((m)->vrefresh - target_refresh)]: the macro of drm_linux.h negates only
    the first operand of its argument, since it has no parentheses. *)
Definition MODE_REFRESH_DIFF (m : drm_display_mode) (target_refresh : Z) : Z :=
  if i32 (vrefresh m - target_refresh) <? 0
  then i32 (i32 (- vrefresh m) - target_refresh) else i32 (vrefresh m - target_refresh).

Definition drop_preferred (m : drm_display_mode) : drm_display_mode :=
  set_type (Z.land (mode_type m) (Z.lnot DRM_MODE_TYPE_PREFERRED)) m.

(** [cur_mode] takes the place of [preferred_mode]. *)
Definition replaces (target : Z) (cur_mode preferred_mode : drm_display_mode) : bool :=
  let p := if MODE_SIZE preferred_mode <? MODE_SIZE cur_mode then cur_mode else preferred_mode in
  (MODE_SIZE preferred_mode <? MODE_SIZE cur_mode) ||
  ((MODE_SIZE cur_mode =? MODE_SIZE p) &&
   (MODE_REFRESH_DIFF cur_mode target <? MODE_REFRESH_DIFF p target)).

(** The loop from the mode of index [i] on; the preferred mode, by its index. *)
Fixpoint preferred_scan (target : Z) (i : nat) (l : list drm_display_mode)
    (preferred_mode : nat * drm_display_mode) : nat :=
  match l with
  | [] => preferred_mode.1
  | cur_mode :: l =>
    preferred_scan target (S i) l
      (if negb (Nat.eqb i preferred_mode.1) && replaces target cur_mode preferred_mode.2
       then (i, cur_mode) else preferred_mode)
  end.

Definition edid_fixup_preferred (quirks : Z) (s : probe_state) : probe_state :=
  match probed_modes s with
  | [] => s
  | first :: _ =>
    let target := if z2b (Z.land quirks EDID_QUIRK_PREFER_LARGE_60) then 60 else 0 in
    let target := if z2b (Z.land quirks EDID_QUIRK_PREFER_LARGE_75) then 75 else target in
    let k := preferred_scan target 0 (probed_modes s) (0%nat, first) in
    mk_probe
      (alter (λ m, set_type (Z.lor (mode_type m) DRM_MODE_TYPE_PREFERRED) m) k
         (drop_preferred <$> probed_modes s)) (allocs s)
  end.

(** ** All the modes of an EDID *)

(** The number of modes, the EDID as the code leaves it, the state and the
    display information. *)
Definition drm_add_edid_modes (edid_fixup : Z) (edid : option bytes) (s : probe_state)
    (info : drm_display_info) : option (Z * option bytes * probe_state * drm_display_info) :=
  match edid with
  | None => Some (0, None, s, info)
  | Some raw =>
    '(valid, raw) ← drm_edid_is_valid edid_fixup (Some raw);
    if negb valid then Some (0, Some raw, s, info) else
    quirks ← edid_get_quirks raw;
    '(n1, raw, s) ← add_detailed_modes raw quirks s;
    '(n2, s) ← add_cvt_modes raw s;
    '(n3, s) ← add_standard_modes raw s;
    '(n4, s) ← add_established_modes raw s;
    feat ← rd raw features;
    '(n5, s) ← (if z2b (Z.land feat DRM_EDID_FEATURE_DEFAULT_GTF)
                then add_inferred_modes raw s else Some (0, s));
    '(n6, s) ← add_cea_modes alloc raw s;
    '(n7, s) ← add_alternate_cea_modes alloc raw s;
    let s := if z2b (Z.land quirks (Z.lor EDID_QUIRK_PREFER_LARGE_60 EDID_QUIRK_PREFER_LARGE_75))
             then edid_fixup_preferred quirks s else s in
    info ← drm_add_display_info raw info;
    Some (n1 + n2 + n3 + n4 + n5 + n6 + n7, Some raw, s, info)
  end.

(** ** Modes without an EDID *)

Fixpoint noedid_loop (hdisp vdisp : Z) (l : list drm_display_mode) (num_modes : Z) (s : probe_state)
    : Z * probe_state :=
  match l with
  | [] => (num_modes, s)
  | ptr :: l =>
    if (z2b hdisp && z2b vdisp) && ((hdisp <? hdisplay (tm ptr)) || (vdisp <? vdisplay (tm ptr)))
    then noedid_loop hdisp vdisp l num_modes s else
    if 61 <? drm_mode_vrefresh ptr then noedid_loop hdisp vdisp l num_modes s else
    let '(mode, s) := duplicate_mode alloc ptr s in
    let '(num_modes, s) := add_mode mode num_modes s in
    noedid_loop hdisp vdisp l num_modes s
  end.

Definition drm_add_modes_noedid (hdisp vdisp : Z) (s : probe_state) : Z * probe_state :=
  noedid_loop (if hdisp <? 0 then 0 else hdisp) (if vdisp <? 0 then 0 else vdisp) drm_dmt_modes 0 s.

End EdidModes.

(** A property of all bytes, by computation. *)
Lemma byte_all (P : Z → bool) b : forallb P (seqZ 0 256) = true → 0 <= b < 256 → P b = true.
Proof. rewrite forallb_forall. intros HP Hb. apply HP, list_elem_of_In, elem_of_seqZ. lia. Qed.

(** ** The fields of a detailed timing *)

Section Fields.

(** The masks of the descriptor, on a byte. *)
Lemma masks b : 0 <= b < 256 →
  Z.land b 240 = b / 16 * 16 ∧ Z.land b 15 = b mod 16 ∧ Z.land b 192 = b / 64 * 64 ∧
  Z.land b 48 = b / 16 mod 4 * 16 ∧ Z.land b 12 = b / 4 mod 4 * 4 ∧ Z.land b 3 = b mod 4.
Proof.
  intros Hb.
  pose proof (byte_all (λ b, (Z.land b 240 =? b / 16 * 16) && (Z.land b 15 =? b mod 16) &&
    (Z.land b 192 =? b / 64 * 64) && (Z.land b 48 =? b / 16 mod 4 * 16) && (Z.land b 12 =? b / 4 mod 4 * 4) &&
    (Z.land b 3 =? b mod 4)) b eq_refl Hb) as Hp.
  cbv beta in Hp. bool_to_Z. done.
Qed.

(** The fields of the 18 bytes of a descriptor, in arithmetic. *)
Definition pixel_timing_of (b : nat → Z) : detailed_pixel_timing :=
  mk_pt (b 1%nat * 256 + b 0%nat)
    (b 4%nat / 16 * 256 + b 2%nat) (b 4%nat mod 16 * 256 + b 3%nat)
    (b 7%nat / 16 * 256 + b 5%nat) (b 7%nat mod 16 * 256 + b 6%nat)
    (b 11%nat / 64 * 256 + b 8%nat) (b 11%nat / 16 mod 4 * 256 + b 9%nat)
    (Z.lor (b 11%nat / 4 mod 4) (b 10%nat / 16)) (b 11%nat mod 4 * 16 + b 10%nat mod 16)
    (b 14%nat / 16 * 256 + b 12%nat) (b 14%nat mod 16 * 256 + b 13%nat) (b 17%nat).

Lemma read_arith d : Forall byte d → length d = 18%nat →
  read_pixel_timing d = pixel_timing_of (λ k, nth k d 0) ∧ ∀ k, 0 <= nth k d 0 < 256.
Proof.
  intros Hd Hl.
  assert (∀ k, 0 <= nth k d 0 < 256) as Hb.
  { intros k. rewrite nth_lookup. destruct (d !! k) as [x|] eqn:Hx; cbn; [|lia].
    by eapply (Forall_lookup_1 _ _ _ _ Hd). }
  split; [|done]. unfold read_pixel_timing, pixel_timing_of. cbv beta zeta. set (b := λ k, nth k d 0).
  repeat match goal with |- context [nth ?k d 0] => change (nth k d 0) with (b k) end.
  assert (∀ k, 0 <= b k < 256) as Hb' by done. clearbody b. clear Hb. rename Hb' into Hb.
  destruct (masks (b 4%nat)) as (-> & -> & _); [done|]. destruct (masks (b 7%nat)) as (-> & -> & _); [done|].
  destruct (masks (b 14%nat)) as (-> & -> & _); [done|]. destruct (masks (b 10%nat)) as (_ & -> & _); [done|].
  destruct (masks (b 11%nat)) as (_ & _ & -> & -> & -> & ->); [done|].
  rewrite !Z.shiftl_mul_pow2, !Z.shiftr_div_pow2 by lia.
  change (2 ^ 2) with 4. change (2 ^ 4) with 16. change (2 ^ 8) with 256.
  rewrite Z.div_mul by lia.
  assert (∀ a l, 0 <= l < 256 → Z.lor (a * 256) l = a * 256 + l) as L8 by (intros; by apply (lor_add _ 8)).
  assert (∀ a l, 0 <= l < 16 → Z.lor (a * 16) l = a * 16 + l) as L4 by (intros; by apply (lor_add _ 4)).
  rewrite <- !Z.mul_assoc. change (16 * 16) with 256. change (64 * 4) with 256.
  rewrite (Z.lor_comm (b 0%nat)), (Z.lor_comm (b 12%nat)), (Z.lor_comm (b 13%nat)).
  rewrite !L8 by apply Hb. by rewrite (L4 _ (b 10%nat mod 16)) by (apply Z.mod_pos_bound; lia).
Qed.
(** The descriptor a monitor would send for these timings, the borders aside. *)
Definition encode_pixel_timing (pt : detailed_pixel_timing) : bytes :=
  let '(mk_pt pc ha hb va vb hso hsw vso vsw w h mi) := pt in
  [pc mod 256; pc / 256; ha mod 256; hb mod 256; ha / 256 * 16 + hb / 256;
   va mod 256; vb mod 256; va / 256 * 16 + vb / 256; hso mod 256; hsw mod 256;
   vso mod 16 * 16 + vsw mod 16;
   hso / 256 * 64 + hsw / 256 * 16 + vso / 16 * 4 + vsw / 16;
   w mod 256; h mod 256; w / 256 * 16 + h / 256; 0; 0; mi].

(** The fields at the widths of the format. *)
Definition pt_valid (pt : detailed_pixel_timing) : Prop :=
  0 <= pixel_clock pt < 65536 ∧ 0 <= hactive pt < 4096 ∧ 0 <= hblank pt < 4096 ∧
  0 <= vactive pt < 4096 ∧ 0 <= vblank pt < 4096 ∧ 0 <= hsync_offset pt < 1024 ∧
  0 <= hsync_pulse_width pt < 1024 ∧ 0 <= vsync_offset pt < 64 ∧ 0 <= vsync_pulse_width pt < 64 ∧
  0 <= pt_width_mm pt < 4096 ∧ 0 <= pt_height_mm pt < 4096 ∧ 0 <= misc pt < 256.

Definition set_vsync_offset (v : Z) (pt : detailed_pixel_timing) : detailed_pixel_timing :=
  mk_pt (pixel_clock pt) (hactive pt) (hblank pt) (vactive pt) (vblank pt) (hsync_offset pt)
    (hsync_pulse_width pt) v (vsync_pulse_width pt) (pt_width_mm pt) (pt_height_mm pt) (misc pt).

Lemma encode_bytes pt : pt_valid pt → Forall byte (encode_pixel_timing pt) ∧ length (encode_pixel_timing pt) = 18%nat.
Proof.
  destruct pt as [pc ha hb va vb hso hsw vso vsw w h mi]. unfold pt_valid. cbn. intros Hv. split; [|done].
  repeat first [by apply Forall_nil | apply Forall_cons; split]; Z.to_euclidean_division_equations; lia.
Qed.

(** Reading a descriptor gives back what it encodes, but for the vertical offset. *)
Lemma read_encode pt : pt_valid pt →
  read_pixel_timing (encode_pixel_timing pt) =
  set_vsync_offset (Z.lor (vsync_offset pt / 16) (vsync_offset pt mod 16)) pt.
Proof.
  intros Hv. destruct (encode_bytes pt Hv) as [Hb Hl]. destruct (read_arith _ Hb Hl) as [-> _].
  destruct pt as [pc ha hb va vb hso hsw vso vsw w h mi]. unfold pt_valid in Hv. cbn in Hv.
  unfold pixel_timing_of, encode_pixel_timing, set_vsync_offset. cbn [nth pixel_clock hactive hblank vactive
    vblank hsync_offset hsync_pulse_width vsync_offset vsync_pulse_width pt_width_mm pt_height_mm misc].
  assert ((hso / 256 * 64 + hsw / 256 * 16 + vso / 16 * 4 + vsw / 16) / 4 mod 4 = vso / 16) as ->
    by (Z.to_euclidean_division_equations; lia).
  assert ((vso mod 16 * 16 + vsw mod 16) / 16 = vso mod 16) as -> by (Z.to_euclidean_division_equations; lia).
  f_equal; Z.to_euclidean_division_equations; lia.
Qed.

Lemma vsync_offset_lost v : 0 <= v < 64 → Z.lor (v / 16) (v mod 16) = v ↔ v < 16.
Proof.
  intros Hv.
  pose proof (byte_all (λ v, (64 <=? v) || Bool.eqb (Z.lor (v / 16) (v mod 16) =? v) (v <? 16)) v eq_refl ltac:(lia)) as Hp.
  cbv beta in Hp. rewrite (proj2 (Z.leb_gt 64 v)) in Hp by lia. cbn [orb] in Hp.
  apply Bool.eqb_prop in Hp. destruct (Z.eqb_spec (Z.lor (v / 16) (v mod 16)) v), (Z.ltb_spec v 16); done || lia.
Qed.
End Fields.

(** ** Generated modes never fault *)

Section Total.
Context `{DrmModeH}.

(** A negative duty cycle wraps, and what is left of 100% is still positive. *)
Lemma duty_wraps q : 30000 < q <= 300000000 →
  u32 (30000 - q) = 4294967296 + 30000 - q ∧ u32 (100000 - (4294967296 + 30000 - q)) = 70000 + q.
Proof.
  intros Hq. split.
  - unfold wrap. rewrite <- (Z.mod_add _ 1) by lia. rewrite Z.mod_small by lia. lia.
  - unfold wrap. rewrite <- (Z.mod_add _ 1) by lia. rewrite Z.mod_small by lia. lia.
Qed.

Lemma gtf_duty q : 0 <= q <= 300000000 → 0 < u32 (100000 - u32 (30000 - q)).
Proof.
  intros Hq. destruct (decide (q <= 30000)).
  - rewrite (u32_id (30000 - q)), u32_id; lia.
  - destruct (duty_wraps q) as [-> ->]; lia.
Qed.

(** What the generators give back: NULL, or a mode. *)
Lemma cvt_total r hd v vr : 0 <= hd <= 32767 → 1 <= v <= 8192 → 50 <= vr <= 200 →
  ∃ m, drm_cvt_mode r hd v vr false false false = Some m.
Proof.
  intros Hh Hv Hr. unfold drm_cvt_mode. destruct r as [id|]; cbn [drm_mode_create fmap option_fmap option_map]; [|by eexists].
  assert (z2b vr = true) as -> by (unfold z2b; by rewrite (proj2 (Z.eqb_neq vr 0)) by lia).
  unfold CVT_H_GRANULARITY. rewrite (u32_id vr) by lia. cbn [negb b2z]. rewrite Z.mul_0_r, !Z.add_0_r.
  rewrite (i32_id v) by (unfold INT_MIN, INT_MAX; lia).
  set (hd' := i32 (i32 _)). set (vs := cvt_vsync hd v).
  assert (∃ t hp, cvt_full hd' v v vr vs 0 = Some (t, hp) ∧ 0 < hp < 2 ^ 32) as (t & hp & -> & Hhp).
  { unfold cvt_full, CVT_MIN_VSYNC_BP, HV_FACTOR, CVT_MIN_V_PORCH, CVT_H_GRANULARITY, CVT_HSYNC_PERCENTAGE.
    cbv zeta. change (550 * 1000) with 550000. change (1000 * 1000000) with 1000000000.
    change (CVT_C_PRIME * 1000) with 30000. change CVT_M_PRIME with 300.
    change (20 * 1000) with 20000. change (100 * 1000) with 100000.
    assert (400 <= (v + 3) * 2 * vr <= 16390 * 200) by nia.
    rewrite (u32_id (550000 * vr)), (u32_id (1000000000 - _)), (i32_id (1000000000 - _)),
      (i32_id ((1000000000 - _) * 2)), (i32_id (v + 3)), (i32_id ((v + 3) * 2)), Z.add_0_r,
      (i32_id ((v + 3) * 2)) by (unfold INT_MIN, INT_MAX; lia).
    rewrite udiv_run by lia. cbn [mbind option_bind]. set (hp := (1000000000 - 550000 * vr) * 2 / _).
    assert (0 < hp <= 5000000) as Hhp.
    { unfold hp. split; [apply Z.div_str_pos; lia|]. apply Z.div_le_upper_bound; lia. }
    clearbody hp. rewrite (udiv_run 550000 hp) by lia. cbn [mbind option_bind].
    rewrite (u32_id (300 * hp)) by lia.
    assert (0 <= 300 * hp / 1000 <= 1500000) as Hq.
    { split; [apply Z.div_pos; lia|]. apply Z.div_le_upper_bound; lia. }
    revert Hq. generalize (300 * hp / 1000) as q. intros q Hq.
    assert (∀ p, p = (if u32 (30000 - q) <? 20000 then 20000 else u32 (30000 - q)) →
      0 < u32 (100000 - p)) as Hdiv.
    { intros p ->. destruct (decide (q <= 30000)).
      - rewrite (u32_id (30000 - q)) by lia. case_bool; rewrite u32_id; lia.
      - destruct (duty_wraps q) as [-> Hw]; [lia|]. rewrite (proj2 (Z.ltb_ge _ _)), Hw; lia. }
    specialize (Hdiv _ eq_refl). unfold udiv. rewrite (proj2 (Z.eqb_neq (u32 (100000 - _)) 0)) by lia.
    cbn [mbind option_bind]. eexists _, _. split; [done|lia]. }
  cbn [mbind option_bind]. destruct t. unfold udiv at 1. rewrite (u32_id hp) by lia.
  rewrite (proj2 (Z.eqb_neq hp 0)) by lia. cbn [mbind option_bind]. by eexists.
Qed.

Lemma gtf_total r hd v vr : 8 <= hd <= 4000 → 1 <= v <= 4000 → 1 <= vr <= 200 →
  ∃ m, drm_gtf_mode r hd v vr false false = Some m ∧
    ∀ mode, m = Some mode → 10000 <= v * vr → 0 < htotal (tm mode) ∧ hsync mode = 0.
Proof.
  intros Hh Hv Hr. unfold drm_gtf_mode, drm_gtf_mode_complex.
  destruct r as [id|]; cbn [drm_mode_create fmap option_fmap option_map]; [|by eexists].
  unfold GTF_CELL_GRAN, GTF_MIN_V_PORCH, MIN_VSYNC_PLUS_BP, H_SYNC_PERCENT, V_SYNC_RQD. cbn [b2z]. cbv zeta.
  change (GTF_M_PRIME 600 128) with 300. change (GTF_C_PRIME (40 * 2) 128 (20 * 2)) with 30.
  change (i32 (30 * 1000)) with 30000. change (i32 (300 * 1000000)) with 300000000.
  change (4 / 2) with 2. change (8 / 2) with 4.
  rewrite !Z.add_0_r. rewrite (u32_id v), (u32_id vr) by lia.
  rewrite (u32_id (550 * vr)), (u32_id (1000000 - _)) by lia.
  assert (1780 <= (1000000 - 550 * vr) / 500 <= 2000) as Ht1.
  { split; [apply Z.div_le_lower_bound; lia|apply Z.div_le_upper_bound; lia]. }
  revert Ht1. generalize ((1000000 - 550 * vr) / 500) as t1. intros t1 Ht1.
  rewrite (u32_id (v + 1)), (u32_id ((v + 1) * 2)), (u32_id ((v + 1) * 2)) by lia.
  assert (0 < (v + 1) * 2 * 1000 * vr <= 8002000 * 200) as Hnum by nia.
  rewrite (u32_id ((v + 1) * 2 * 1000)), (u32_id ((v + 1) * 2 * 1000 * vr)), udiv_run by lia.
  cbn [mbind option_bind]. set (hf := (v + 1) * 2 * 1000 * vr / t1).
  assert ((v + 1) * vr <= hf <= 900000) as Hhf.
  { unfold hf. split; [apply Z.div_le_lower_bound; nia|apply Z.div_le_upper_bound; lia]. }
  clearbody hf. assert (2 <= hf) by nia.
  rewrite (u32_id (550 * hf)) by lia.
  assert (0 <= 550 * hf / 1000 <= 495000) as Hvb.
  { split; [apply Z.div_pos; lia|apply Z.div_le_upper_bound; lia]. }
  revert Hvb. generalize (550 * hf / 1000) as vb. intros vb Hvb.
  rewrite (i32_id vb), (i32_id (vb + 500)), (Z.quot_div_nonneg (vb + 500)) by (unfold INT_MIN, INT_MAX; lia).
  assert (0 <= (vb + 500) / 1000 <= 496) as Hvp.
  { split; [apply Z.div_pos; lia|apply Z.div_le_upper_bound; lia]. }
  revert Hvp. generalize ((vb + 500) / 1000) as vp. intros vp Hvp.
  rewrite (u32_id (v + vp + 1)), (udiv_run hf) by lia. cbn [mbind option_bind].
  assert (0 < vr * (v + vp + 1) <= 200 * 4497) by nia.
  rewrite (u32_id (vr * _)), (udiv_run 1000000) by lia. cbn [mbind option_bind].
  rewrite (udiv_run 300000000 hf) by lia. cbn [mbind option_bind].
  assert (0 <= 300000000 / hf <= 300000000) as Hq.
  { split; [apply Z.div_pos; lia|apply Z.div_le_upper_bound; lia]. }
  pose proof (gtf_duty _ Hq) as Hd.
  assert (10000 <= v * vr → 0 <= 300000000 / hf <= 30000) as Hq2.
  { intros Hb. split; [lia|]. apply Z.div_le_upper_bound; nia. }
  revert Hq Hd Hq2. generalize (300000000 / hf) as q. intros q Hq Hd Hq2.
  unfold udiv. rewrite (proj2 (Z.eqb_neq (u32 (100000 - _)) 0)) by lia. cbn [mbind option_bind].
  eexists. split; [done|]. intros mode [= <-] Hb. specialize (Hq2 Hb). split; [|done].
  cbn [tm set_tm set_flags htotal drm_mode_set_name set_mode_name].
  rewrite (i32_id (hd + 4)), (Z.quot_div_nonneg (hd + 4)) by (unfold INT_MIN, INT_MAX; lia).
  assert (1 <= (hd + 4) / 8 <= 501) as Hrnd.
  { split; [apply Z.div_le_lower_bound; lia|apply Z.div_le_upper_bound; lia]. }
  revert Hrnd. generalize ((hd + 4) / 8) as hr. intros hr Hrnd.
  rewrite (u32_id hr), (u32_id (hr * 8)), (u32_id (hr * 8)) by lia.
  rewrite (u32_id (30000 - q)), (u32_id (100000 - _)) by lia.
  assert (0 <= hr * 8 * (30000 - q) <= 4008 * 30000) by nia.
  rewrite (u32_id (hr * 8 * _)), (u32_id (hr * 8 * _)) by lia.
  assert (0 <= hr * 8 * (30000 - q) / (100000 - (30000 - q)) <= 4008 * 30000) as Hhb.
  { split; [apply Z.div_pos; lia|apply Z.div_le_upper_bound; nia]. }
  revert Hhb. generalize (hr * 8 * (30000 - q) / (100000 - (30000 - q))) as hb. intros hb Hhb.
  rewrite (u32_id (hb + 8)) by lia. change (2 * 8) with 16.
  assert (0 <= (hb + 8) / 16 <= 8000000) as Hh2.
  { split; [apply Z.div_pos; lia|apply Z.div_le_upper_bound; lia]. }
  revert Hh2. generalize ((hb + 8) / 16) as h2. intros h2 Hh2.
  rewrite (u32_id (h2 * 2)), (u32_id (h2 * 2 * 8)), (u32_id (hr * 8 + _)), i32_id
    by (unfold INT_MIN, INT_MAX; lia). lia.
Qed.

Lemma cvt_htotal id hd v vr reduced : cvt_in_range reduced hd v vr →
  ∃ m, drm_cvt_mode (Some id) hd v vr reduced false false = Some (Some m) ∧ 0 < htotal (tm m).
Proof.
  intros Hin. pose proof (Z.mod_pos_bound hd 8 ltac:(lia)) as Hm8. pose proof (cvt_vsync_bounds hd v) as Hvs.
  pose proof (Z.div_mod hd 8 ltac:(lia)) as Hdm.
  assert (∃ t, cvt_timings hd v vr reduced = Some (t, cvt_hperiod reduced v vr) ∧ 0 < htotal t <= 4294 ∧
    400 <= cvt_hperiod reduced v vr < 2 ^ 32) as (t & Ht & Htot & Hhp).
  { unfold cvt_timings, cvt_hperiod. destruct reduced; cbn in Hin; destruct Hin as (Hh & Hv & Hr).
    - destruct (rb_hperiod_bounds v vr Hv Hr) as [_ Hp]. rewrite cvt_reduced_run by lia.
      eexists. split; [done|]. cbn. lia.
    - pose proof (full_hperiod_bounds v vr Hv Hr) as Hp. rewrite cvt_full_run by lia. eexists. split; [done|].
      destruct (full_hblank_bounds (hd - hd mod 8) (full_hperiod v vr)) as (Hb0 & _ & Hbhi & _); [lia..|].
      cbn [htotal]. split; [|lia]. revert Hb0 Hbhi. generalize (full_hblank (hd - hd mod 8) (full_hperiod v vr)). lia. }
  destruct (cvt_mode_run id hd v vr reduced t (cvt_hperiod reduced v vr)) as (m & Hrun & _ & Htm);
    [destruct reduced; cbn in Hin; lia..|done|lia|done|].
  exists m. split; [done|]. rewrite Htm. cbn [htotal]. lia.
Qed.

End Total.

(** ** Adding modes *)

Section Adds.
Context `{DrmModeH}.
Variable alloc : nat → option Z.

(** [r] does not fault; it adds some modes at the end of the list of [s] and
    [modes] counts them. *)
Definition adds (r : option (Z * probe_state)) (modes : Z) (s : probe_state) : Prop :=
  ∃ new k, r = Some (modes + Z.of_nat (length new), mk_probe (probed_modes s ++ new) k).

(** [r] does not fault and adds nothing. *)
Definition makes (r : option (option drm_display_mode * probe_state)) (s : probe_state) : Prop :=
  ∃ m k, r = Some (m, mk_probe (probed_modes s) k).

Lemma adds_nothing modes s : adds (Some (modes, s)) modes s.
Proof. exists [], (allocs s). cbn. rewrite Z.add_0_r, app_nil_r. by destruct s. Qed.

Lemma adds_trans r modes s f : adds r modes s → (∀ modes s, adds (f modes s) modes s) →
  adds (r ≫= λ '(modes, s), f modes s) modes s.
Proof.
  intros (new & k & ->) Hf. cbn [mbind option_bind].
  destruct (Hf (modes + Z.of_nat (length new)) (mk_probe (probed_modes s ++ new) k)) as (new' & k' & ->).
  cbn [probed_modes]. exists (new ++ new'), k'. rewrite length_app, <- app_assoc. do 2 f_equal. lia.
Qed.

Lemma adds_same r modes s s' : probed_modes s' = probed_modes s → adds r modes s' → adds r modes s.
Proof. intros Hs (new & k & ->). exists new, k. by rewrite Hs. Qed.

Lemma adds_make r modes s f : makes r s →
  (∀ m s', probed_modes s' = probed_modes s → adds (f m s') modes s') →
  adds (r ≫= λ '(m, s), f m s) modes s.
Proof. intros (m & k & ->) Hf. cbn [mbind option_bind]. eapply adds_same; [|by apply Hf]. done. Qed.

Lemma adds_add m modes s (f : Z → probe_state → option (Z * probe_state)) :
  (∀ modes s, adds (f modes s) modes s) →
  adds (let '(modes, s) := add_mode m modes s in f modes s) modes s.
Proof.
  intros Hf. destruct m as [m|]; cbn [add_mode]; [|done].
  apply (adds_trans (Some (modes + 1, drm_mode_probed_add m s)) modes s f); [|done].
  by exists [m], (allocs s).
Qed.

(** The total of a loop that counts from 0, added to what was there. *)
Lemma adds_shift (r : option (Z * probe_state)) modes s : adds r 0 s →
  adds (r ≫= λ '(n, s), Some (modes + n, s)) modes s.
Proof. intros (new & k & ->). by exists new, k. Qed.

(** A count from 0, then more. *)
Lemma adds_step r modes s f : adds r 0 s → (∀ modes s, adds (f modes s) modes s) →
  adds (r ≫= λ '(n, s), f (modes + n) s) modes s.
Proof.
  intros (new & k & ->) Hf. cbn [mbind option_bind].
  apply (adds_trans (Some (modes + Z.of_nat (length new), mk_probe (probed_modes s ++ new) k)) modes s f); [|done].
  by exists new, k.
Qed.

Lemma makes_same r s s' : probed_modes s' = probed_modes s → makes r s' → makes r s.
Proof. intros Hs (m & k & ->). exists m, k. by rewrite Hs. Qed.

Lemma makes_ret m s : makes (Some (m, s)) s.
Proof. exists m, (allocs s). by destruct s. Qed.

Lemma make_mode_makes f s : (∀ r, is_Some (f r)) → makes (make_mode alloc f s) s.
Proof.
  intros Hf. unfold make_mode. destruct (Hf (alloc (allocs s))) as [m ->]. cbn. by eexists _, _.
Qed.

Lemma makes_bind r s f : makes r s → (∀ m s', probed_modes s' = probed_modes s → makes (f m s') s') →
  makes (r ≫= λ '(m, s), f m s) s.
Proof. intros (m & k & ->) Hf. cbn [mbind option_bind]. eapply makes_same; [|by apply Hf]. done. Qed.

Lemma find_dmt_makes h v fr b s : ∃ m k, find_dmt alloc h v fr b s = (m, mk_probe (probed_modes s) k).
Proof.
  unfold find_dmt, duplicate_mode. destruct (List.find _ _); [by eexists _, _|]. exists None, (allocs s).
  by destruct s.
Qed.

(** The descriptors an EDID is walked over, whatever the callback. *)
Lemma detailed_walk raw n : edid_bytes raw n → ∃ offs,
  (∀ S (cb : Z → S → option S) s, drm_for_each_detailed_block raw cb s = run_cbs cb offs s) ∧
  Forall (descriptor_in n) offs.
Proof.
  intros (Hb & Hn & Hlen). pose proof (rd_byte _ _ _ Hb Hn) as Hnb.
  destruct (each_extension_walk raw n 256 1 Hb Hn Hlen) as (offs & Hrun & Hin); [lia..|].
  exists (timing_offs EDID_DETAILED_TIMINGS detailed_timings ++ offs). split.
  - intros S cb s. unfold drm_for_each_detailed_block. rewrite each_timing_run, run_cbs_app.
    destruct (run_cbs cb _ s); cbn [mbind option_bind]; [apply Hrun|done].
  - apply Forall_app. split; [|done]. apply (timing_offs_in 4 n 54 0 54); cbn; lia.
Qed.

(** A walk over the descriptors whose callback adds modes. *)
Lemma walk_adds raw n cb modes s : edid_bytes raw n →
  (∀ o c, descriptor_in n o → adds (cb o c) c.1 c.2) →
  adds (drm_for_each_detailed_block raw cb (modes, s)) modes s.
Proof.
  intros He Hcb. destruct (detailed_walk raw n He) as (offs & -> & Hin).
  revert modes s. induction Hin as [|o offs Ho _ IH]; intros modes s; cbn [run_cbs]; [apply adds_nothing|].
  apply (adds_trans (cb o (modes, s)) modes s (λ modes s, run_cbs cb offs (modes, s))) in IH.
  - destruct (cb o (modes, s)) as [[? ?]|]; exact IH.
  - by apply Hcb.
Qed.

End Adds.

(** ** No part of the parser faults *)

Section Safe.
Context `{DrmModeH}.
Variables (alloc : nat → option Z) (raw : bytes) (n : Z).
Hypothesis He : edid_bytes raw n.

Lemma edid_rd k : 0 <= k < 128 * (n + 1) → ∃ b, rd raw k = Some b ∧ 0 <= b < 256.
Proof.
  intros Hk. destruct He as (Hb & Hn & Hl). destruct (rd_is_Some raw k) as [b Hr]; [lia|].
  exists b. split; [done|by eapply rd_byte].
Qed.

Lemma n_nonneg : 0 <= n < 256.
Proof. destruct He as (Hb & Hn & _). by eapply rd_byte. Qed.

Lemma base_rd k : 0 <= k < 128 → ∃ b, rd raw k = Some b ∧ 0 <= b < 256.
Proof. intros Hk. apply edid_rd. pose proof n_nonneg. lia. Qed.

Lemma desc_rd o k : descriptor_in n o → 0 <= k < 18 → ∃ b, rd raw (o + k) = Some b ∧ 0 <= b < 256.
Proof. intros (Ho & _ & Hon) Hk. apply edid_rd. lia. Qed.

Lemma version_run maj min : ∃ b, version_greater raw maj min = Some b.
Proof.
  unfold version_greater. destruct (base_rd version) as (v & -> & _); [unfold version; lia|].
  destruct (base_rd revision) as (r & -> & _); [unfold revision; lia|]. by eexists.
Qed.

Lemma walk_total {S} (cb : Z → S → option S) s : (∀ o s, descriptor_in n o → is_Some (cb o s)) →
  ∃ s', drm_for_each_detailed_block raw cb s = Some s'.
Proof.
  intros Hcb. destruct (detailed_walk raw n He) as (offs & -> & Hin).
  destruct (run_cbs_inv (λ _, True) _ cb offs s Hin I) as (s' & -> & _); [|by exists s'].
  intros o s' Ho _. destruct (Hcb o s' Ho) as [x ->]. by exists x.
Qed.

Lemma supports_rb_run : ∃ b, drm_monitor_supports_rb raw = Some b.
Proof.
  unfold drm_monitor_supports_rb. destruct (base_rd revision) as (r & -> & _); [unfold revision; lia|].
  destruct (base_rd input) as (i & -> & _); [unfold input; lia|]. cbn [mbind option_bind].
  case_bool; [|by eexists]. apply walk_total. intros o s Ho. unfold is_rb.
  destruct (desc_rd o 3 Ho) as (r3 & -> & _); [lia|]. destruct (desc_rd o 15 Ho) as (r15 & -> & _); [lia|].
  cbn [mbind option_bind]. case_bool; [|done]. destruct (z2b _); done.
Qed.

Lemma walk_modes_adds cb min s : (∀ o c, descriptor_in n o → adds (cb raw o c) c.1 c.2) →
  adds (walk_modes raw cb min s) 0 s.
Proof.
  intros Hcb. unfold walk_modes. destruct (version_run 1 min) as ([] & ->); cbn [mbind option_bind].
  - by apply (walk_adds raw n).
  - apply adds_nothing.
Qed.

(** *** CVT codes *)

Lemma cvt_size_bounds c0 c1 : 0 <= c0 < 256 → 0 <= c1 < 256 →
  0 <= (cvt_size c0 c1).1 <= 32767 ∧ 1 <= (cvt_size c0 c1).2 <= 8192.
Proof.
  intros H0 H1.
  assert (0 <= Z.shiftl (Z.land c1 240) 4 <= 3840) as Hs.
  { pose proof (byte_all (λ c, (0 <=? Z.shiftl (Z.land c 240) 4) && (Z.shiftl (Z.land c 240) 4 <=? 3840)) c1
      eq_refl H1) as Hb. cbv beta in Hb. bool_to_Z. lia. }
  unfold cvt_size. revert Hs. generalize (Z.shiftl (Z.land c1 240) 4) as x. intros x Hs. cbv zeta.
  set (h := (c0 + x + 1) * 2). assert (2 <= h <= 8192) as Hh by lia. cbn [fst snd]. split; [|lia]. clearbody h.
  repeat case_bool; rewrite Z.quot_div_nonneg by lia;
    (split; [apply Z.div_pos; lia|apply Z.div_le_upper_bound; lia]).
Qed.

Lemma cvt_code_adds w h c j k modes s : 0 <= w <= 32767 → 1 <= h <= 8192 → (1 <= j)%nat → (j + k <= 5)%nat →
  adds (cvt_code_modes alloc w h c j k modes s) modes s.
Proof.
  intros Hw Hh. revert j modes s. induction k as [|k IH]; intros j modes s Hj Hjk; cbn [cvt_code_modes];
    [apply adds_nothing|].
  destruct (z2b _); [|apply IH; lia].
  assert (50 <= nth j cvt_rates 0 <= 200) as Hr.
  { do 5 (destruct j as [|j]; [cbn; lia|]). lia. }
  rewrite (proj2 (Nat.eqb_neq j 0)) by lia.
  apply (adds_make _ modes s (λ m s, let '(modes, s) := add_mode m modes s in
    cvt_code_modes alloc w h c (S j) k modes s)).
  - apply make_mode_makes. intros r. destruct (cvt_total r w h (nth j cvt_rates 0)) as [m ->]; done.
  - intros m s' _. apply adds_add. intros modes' s''. apply IH; lia.
Qed.

Lemma cvt_codes_adds cvt k modes s : 0 <= cvt → cvt + 3 * Z.of_nat k <= 128 * (n + 1) →
  adds (cvt_codes alloc raw cvt k modes s) modes s.
Proof.
  revert cvt modes s. induction k as [|k IH]; intros cvt modes s H0 Hk; cbn [cvt_codes]; [apply adds_nothing|].
  destruct (edid_rd cvt) as (c0 & -> & Hc0); [lia|]. destruct (edid_rd (cvt + 1)) as (c1 & -> & Hc1); [lia|].
  destruct (edid_rd (cvt + 2)) as (c2 & -> & Hc2); [lia|]. cbn [mbind option_bind].
  destruct (_ && _); [apply IH; lia|].
  destruct (cvt_size_bounds c0 c1 Hc0 Hc1) as [Hw Hh]. destruct (cvt_size c0 c1) as [w h]. cbn [fst snd] in *.
  apply (adds_trans _ modes s (λ modes s, cvt_codes alloc raw (cvt + 3) k modes s)).
  - apply cvt_code_adds; done || lia.
  - intros modes' s'. apply IH; lia.
Qed.

Lemma do_cvt_adds o c : descriptor_in n o → adds (do_cvt_mode alloc raw o c) c.1 c.2.
Proof.
  intros Ho. unfold do_cvt_mode. destruct (desc_rd o 3 Ho) as (ty & -> & _); [lia|]. cbn [mbind option_bind].
  destruct (_ =? _); [|destruct c; apply adds_nothing].
  apply adds_shift. destruct Ho as (? & _ & ?). apply cvt_codes_adds; lia.
Qed.

(** *** Established timings *)

Lemma est3_bits_adds b i j modes s : adds (Some (est3_bits alloc b i j modes s)) modes s.
Proof.
  revert modes s. induction j as [|j IH]; intros modes s; cbn [est3_bits]; [apply adds_nothing|]. cbv zeta.
  destruct (est3_modes !! _) as [e|]; [|apply adds_nothing]. destruct (z2b _); [|apply IH].
  destruct (find_dmt_makes alloc (mini_w e) (mini_h e) (mini_r e) (z2b (mini_rb e)) s) as (m & k & ->).
  apply (adds_same _ _ _ (mk_probe (probed_modes s) k)); [done|].
  pose proof (adds_add m modes (mk_probe (probed_modes s) k) (λ modes s, Some (est3_bits alloc b i j modes s))
    IH) as Ha.
  by destruct (add_mode _ _ _).
Qed.

Lemma est3_bytes_adds est i k modes s : 0 <= est + i → est + i + Z.of_nat k <= 128 * (n + 1) →
  adds (est3_bytes alloc raw est i k modes s) modes s.
Proof.
  revert i modes s. induction k as [|k IH]; intros i modes s H0 Hk; cbn [est3_bytes]; [apply adds_nothing|].
  destruct (edid_rd (est + i)) as (b & -> & _); [lia|]. cbn [mbind option_bind].
  pose proof (adds_trans _ modes s (λ modes s, est3_bytes alloc raw est (i + 1) k modes s)
    (est3_bits_adds b i 7 modes s)) as Ht.
  cbn [mbind option_bind] in Ht. destruct (est3_bits _ _ _ _ _ _). apply Ht. intros modes' s'. apply IH; lia.
Qed.

Lemma do_est_adds o c : descriptor_in n o → adds (do_established_modes alloc raw o c) c.1 c.2.
Proof.
  intros Ho. unfold do_established_modes. destruct (desc_rd o 3 Ho) as (ty & -> & _); [lia|].
  cbn [mbind option_bind]. destruct (_ =? _); [|destruct c; apply adds_nothing].
  apply adds_shift. destruct Ho as (? & _ & ?). apply est3_bytes_adds; lia.
Qed.

Lemma est_bits_adds est i l modes s : adds (Some (est_bits_modes alloc est i l modes s)) modes s.
Proof.
  revert i modes s. induction l as [|m l IH]; intros i modes s; cbn [est_bits_modes]; [apply adds_nothing|].
  destruct (z2b _); [|apply IH]. unfold duplicate_mode.
  apply (adds_same _ _ _ (mk_probe (probed_modes s) (S (allocs s)))); [done|].
  pose proof (adds_add (drm_mode_duplicate (alloc (allocs s)) m) modes (mk_probe (probed_modes s) (S (allocs s)))
    (λ modes s, Some (est_bits_modes alloc est (i + 1) l modes s)) (IH (i + 1))) as Ha.
  by destruct (add_mode _ _ _).
Qed.

(** Two counts, one after the other. *)
Lemma adds_two r1 s (r2 : probe_state → option (Z * probe_state)) :
  adds r1 0 s → (∀ s, adds (r2 s) 0 s) →
  adds ('(a, s) ← r1; '(b, s) ← r2 s; Some (a + b, s)) 0 s.
Proof.
  intros H1 H2. apply (adds_trans _ 0 s (λ a s, '(b, s) ← r2 s; Some (a + b, s)) H1).
  intros a s'. apply adds_shift, H2.
Qed.

Lemma established_adds s : adds (add_established_modes alloc raw s) 0 s.
Proof.
  unfold add_established_modes, established_timings.
  destruct (base_rd 35) as (t1 & -> & _); [lia|]. destruct (base_rd (35 + 1)) as (t2 & -> & _); [lia|].
  destruct (base_rd (35 + 2)) as (m & -> & _); [lia|]. cbn [mbind option_bind]. cbv zeta.
  set (est := Z.lor _ _).
  pose proof (adds_two _ s (walk_modes raw (do_established_modes alloc) 0)
    (est_bits_adds est 0 (take (S EDID_EST_TIMINGS) edid_est_modes) 0 s)) as Ht.
  cbn [mbind option_bind] in Ht. destruct (est_bits_modes _ _ _ _ _ _). apply Ht.
  intros s'. apply walk_modes_adds, do_est_adds.
Qed.

(** *** Standard timings *)

Hypothesis Hg : gtf2_range raw = Some None.

Lemma timing_level_run : ∃ l, standard_timing_level raw = Some l ∧ (l =? LEVEL_GTF2) = false.
Proof.
  unfold standard_timing_level. destruct (base_rd revision) as (r & -> & _); [unfold revision; lia|].
  destruct (base_rd features) as (f & -> & _); [unfold features; lia|]. cbn [mbind option_bind].
  unfold drm_gtf2_hbreak. rewrite Hg. cbn [mbind option_bind].
  case_bool; [|by eexists]. destruct (_ && _); by eexists.
Qed.

Lemma std_size_bounds hs va rev : 0 <= hs < 256 → 0 <= va < 256 →
  let '(h, v, r) := std_size hs va rev in 8 <= h <= 4000 ∧ 1 <= v <= 4000 ∧ 50 <= r <= 200.
Proof.
  intros Hh Hv.
  assert (0 <= Z.land va EDID_TIMING_VFREQ_MASK <= 63) as Hf.
  { unfold EDID_TIMING_VFREQ_MASK. change (Z.land va 63) with (Z.land va (Z.ones 6)). rewrite Z.land_ones by done.
    pose proof (Z.mod_pos_bound va (2 ^ 6) ltac:(done)). lia. }
  unfold std_size. revert Hf. generalize (Z.land va EDID_TIMING_VFREQ_MASK) as f. intros f Hf. cbv zeta.
  set (h := hs * 8 + 248). assert (248 <= h <= 2288) as Hhb by lia. clearbody h.
  set (v := if _ =? 0 then _ else _).
  assert (1 <= v <= 4000) as Hvb.
  { unfold v. repeat case_bool; try lia; rewrite Z.quot_div_nonneg by lia;
      (split; [apply Z.div_le_lower_bound; lia|apply Z.div_le_upper_bound; lia]). }
  clearbody v. destruct (_ && _); lia.
Qed.

Lemma mode_std_makes hs va rev s : 0 <= hs < 256 → 0 <= va < 256 →
  makes (drm_mode_std alloc raw hs va rev s) s.
Proof.
  intros Hh Hv. unfold drm_mode_std. destruct timing_level_run as (l & -> & Hl). cbn [mbind option_bind].
  destruct (bad_std_timing _ _); [apply makes_ret|].
  pose proof (std_size_bounds hs va rev Hh Hv) as Hb. destruct (std_size hs va rev) as [[h v] r].
  destruct Hb as (Hhb & Hvb & Hrb). destruct (existsb _ _); [apply makes_ret|].
  assert (∀ s, makes (make_mode alloc (λ x, drm_cvt_mode x h v r false false false) s) s) as Hcvt.
  { intros s'. apply make_mode_makes. intros x. destruct (cvt_total x h v r) as [m ->]; [lia..|done]. }
  assert (∀ s, makes (make_mode alloc (λ x, drm_gtf_mode x h v r false false) s) s) as Hgtf.
  { intros s'. apply make_mode_makes. intros x. destruct (gtf_total x h v r) as (m & -> & _); [lia..|done]. }
  destruct ((h =? 1366) && (v =? 768) && (r =? 60)) eqn:Htv.
  { bool_to_Z. subst. apply makes_bind; [apply Hcvt|]. intros m s' _. apply makes_ret. }
  destruct supports_rb_run as (has_rb & ->). cbn [mbind option_bind].
  set (p := if has_rb then _ else _).
  assert (∃ m k, p = (m, mk_probe (probed_modes s) k)) as (m & k & ->).
  { unfold p. destruct has_rb; [apply find_dmt_makes|]. exists None, (allocs s). by destruct s. }
  destruct m as [m|]; [by eexists _, _|].
  destruct (find_dmt_makes alloc h v r false (mk_probe (probed_modes s) k)) as (m & k' & ->).
  cbn [probed_modes]. destruct m as [m|]; [by eexists _, _|].
  apply (makes_same _ _ (mk_probe (probed_modes s) k')); [done|].
  rewrite Hl. destruct (l =? LEVEL_GTF); [apply Hgtf|]. destruct (l =? LEVEL_CVT); [apply Hcvt|apply makes_ret].
Qed.

Lemma std_modes_adds k off modes s : 0 <= off → off + 2 * Z.of_nat k <= 128 * (n + 1) →
  adds (std_modes alloc raw k off modes s) modes s.
Proof.
  revert off modes s. induction k as [|k IH]; intros off modes s H0 Hk; cbn [std_modes]; [apply adds_nothing|].
  destruct (edid_rd off) as (hs & -> & Hhs); [lia|]. destruct (edid_rd (off + 1)) as (va & -> & Hva); [lia|].
  destruct (base_rd revision) as (rev & -> & _); [unfold revision; lia|]. cbn [mbind option_bind].
  apply (adds_make _ modes s (λ m s, let '(modes, s) := add_mode m modes s in
    std_modes alloc raw k (off + 2) modes s)); [by apply mode_std_makes|].
  intros m s' _. apply adds_add. intros modes' s''. apply IH; lia.
Qed.

Lemma do_std_adds o c : descriptor_in n o → adds (do_standard_modes alloc raw o c) c.1 c.2.
Proof.
  intros Ho. unfold do_standard_modes. destruct (desc_rd o 3 Ho) as (ty & -> & _); [lia|].
  cbn [mbind option_bind]. destruct (_ =? _); [|destruct c; apply adds_nothing].
  destruct Ho as (? & _ & ?). apply std_modes_adds; lia.
Qed.

Lemma standard_adds s : adds (add_standard_modes alloc raw s) 0 s.
Proof.
  unfold add_standard_modes. apply (adds_two _ s (walk_modes raw (do_standard_modes alloc) 0)).
  - apply std_modes_adds; pose proof n_nonneg; unfold standard_timings, EDID_STD_TIMINGS; lia.
  - intros s'. apply walk_modes_adds, do_std_adds.
Qed.

(** *** Ranges *)

(** The modes whose line rate can be computed. *)
Definition hsync_ok (m : drm_display_mode) : Prop := is_Some (drm_mode_hsync m).

Lemma hsync_total m : htotal (tm m) ≠ 0 → hsync_ok m.
Proof.
  intros Ht. unfold hsync_ok, drm_mode_hsync. destruct (z2b _); [done|]. destruct (_ <? _); [done|].
  unfold idiv. rewrite (proj2 (Z.eqb_neq _ 0)) by done. done.
Qed.

Lemma range_clock_run o : descriptor_in n o → ∃ c, range_pixel_clock raw o = Some c.
Proof.
  intros Ho. unfold range_pixel_clock. destruct (desc_rd o 9 Ho) as (t9 & -> & _); [lia|].
  destruct (desc_rd o 10 Ho) as (t10 & -> & _); [lia|]. destruct (desc_rd o 12 Ho) as (t12 & -> & _); [lia|].
  destruct (base_rd revision) as (rev & -> & _); [unfold revision; lia|]. cbn [mbind option_bind].
  destruct (_ || _); [by eexists|]. destruct (_ && _); by eexists.
Qed.

Lemma mode_in_range_run m o : descriptor_in n o → hsync_ok m → ∃ b, mode_in_range m raw o = Some b.
Proof.
  intros Ho [h Hh]. unfold mode_in_range, mode_in_hsync_range, mode_in_vsync_range.
  destruct (range_clock_run o Ho) as (c & ->). destruct supports_rb_run as (rb & ->). rewrite Hh.
  destruct (base_rd revision) as (rev & -> & _); [unfold revision; lia|].
  destruct (desc_rd o 4 Ho) as (t4 & -> & _); [lia|]. destruct (desc_rd o 5 Ho) as (t5 & -> & _); [lia|].
  destruct (desc_rd o 6 Ho) as (t6 & -> & _); [lia|]. destruct (desc_rd o 7 Ho) as (t7 & -> & _); [lia|].
  destruct (desc_rd o 8 Ho) as (t8 & -> & _); [lia|]. destruct (desc_rd o 10 Ho) as (t10 & -> & _); [lia|].
  destruct (desc_rd o 12 Ho) as (t12 & -> & _); [lia|]. destruct (desc_rd o 13 Ho) as (t13 & -> & _); [lia|].
  cbn [mbind option_bind].
  repeat match goal with |- ∃ _, (if ?c then _ else _) = _ => destruct c; try (by eexists) end.
Qed.

Lemma dmt_loop_adds o l modes s : descriptor_in n o → Forall hsync_ok l →
  adds (dmt_loop alloc raw o l modes s) modes s.
Proof.
  intros Ho Hl. revert modes s. induction Hl as [|m l Hm _ IH]; intros modes s; cbn [dmt_loop]; [apply adds_nothing|].
  destruct (mode_in_range_run m o Ho Hm) as (b & ->). cbn [mbind option_bind].
  destruct (b && _); [|apply IH]. unfold duplicate_mode.
  apply (adds_same _ _ _ (mk_probe (probed_modes s) (S (allocs s)))); [done|]. apply adds_add. apply IH.
Qed.

Lemma dmt_hsync_ok : Forall hsync_ok drm_dmt_modes.
Proof.
  apply Forall_forall. intros m Hm. apply hsync_total.
  assert (forallb (λ m, negb (htotal (tm m) =? 0)) drm_dmt_modes = true) as Hall by reflexivity.
  pose proof (forallb_elem _ _ _ Hall Hm) as Hp. cbv beta in Hp. bool_to_Z. done.
Qed.

Lemma extra_loop_adds gen o l modes s : descriptor_in n o →
  (∀ e r, e ∈ l → ∃ m, gen r e = Some m ∧ ∀ mode, m = Some mode → hsync_ok (fixup_mode_1366x768 mode)) →
  adds (extra_loop alloc gen raw o l modes s) modes s.
Proof.
  intros Ho. revert modes s. induction l as [|e l IH]; intros modes s Hgen; cbn [extra_loop]; [apply adds_nothing|].
  unfold make_mode at 1. destruct (Hgen e (alloc (allocs s))) as (m & -> & Hm); [by left|].
  cbn [mbind option_bind].
  apply (adds_same _ _ _ (mk_probe (probed_modes s) (S (allocs s)))); [done|].
  assert (∀ modes s, adds (extra_loop alloc gen raw o l modes s) modes s) as IH'.
  { intros modes' s'. apply IH. intros e' r He'. apply Hgen. by right. }
  destruct m as [mode|]; [|apply adds_nothing]. cbv zeta.
  destruct (mode_in_range_run _ o Ho (Hm mode eq_refl)) as (b & ->). cbn [mbind option_bind].
  destruct (_ || _); [apply IH'|].
  apply (adds_add (Some (fixup_mode_1366x768 mode)) modes (mk_probe (probed_modes s) (S (allocs s)))
    (λ modes s, extra_loop alloc gen raw o l modes s)). apply IH'.
Qed.

Lemma fixup_hsync_ok m : htotal (tm m) ≠ 0 → hsync_ok (fixup_mode_1366x768 m).
Proof. intros Ht. apply hsync_total. unfold fixup_mode_1366x768. by destruct (_ && _). Qed.

Lemma extra_sizes e : e ∈ extra_modes →
  320 <= mini_w e <= 3000 ∧ 200 <= mini_h e <= 4000 ∧ mini_r e = 60.
Proof.
  intros Hin.
  assert (forallb (λ e, (320 <=? mini_w e) && (mini_w e <=? 3000) && (200 <=? mini_h e) && (mini_h e <=? 4000) &&
    (mini_r e =? 60)) extra_modes = true) as Hall by reflexivity.
  pose proof (forallb_elem _ _ _ Hall Hin) as Hp. cbv beta in Hp. bool_to_Z. lia.
Qed.

Lemma gtf_range_adds o s : descriptor_in n o → adds (drm_gtf_modes_for_range alloc raw o s) 0 s.
Proof.
  intros Ho. apply extra_loop_adds; [done|]. intros e r Hin. destruct (extra_sizes e Hin) as (Hw & Hh & ->).
  destruct (gtf_total r (mini_w e) (mini_h e) 60) as (m & -> & Hm); [lia..|]. exists m. split; [done|].
  intros mode ->. apply fixup_hsync_ok. destruct (Hm mode eq_refl ltac:(lia)) as [? _]. lia.
Qed.

Lemma cvt_range_adds o s : descriptor_in n o → adds (drm_cvt_modes_for_range alloc raw o s) 0 s.
Proof.
  intros Ho. unfold drm_cvt_modes_for_range. destruct supports_rb_run as (rb & ->). cbn [mbind option_bind].
  apply extra_loop_adds; [done|]. intros e r Hin. destruct (extra_sizes e Hin) as (Hw & Hh & ->).
  destruct r as [id|]; [|exists None; split; [by destruct rb|done]].
  destruct (cvt_htotal id (mini_w e) (mini_h e) 60 rb) as (m & -> & Hm); [destruct rb; cbn; lia|].
  exists (Some m). split; [done|]. intros mode [= <-]. apply fixup_hsync_ok. lia.
Qed.

Lemma do_inferred_adds o c : descriptor_in n o → adds (do_inferred_modes alloc raw o c) c.1 c.2.
Proof.
  intros Ho. unfold do_inferred_modes. destruct (desc_rd o 3 Ho) as (ty & -> & _); [lia|].
  destruct (desc_rd o 10 Ho) as (fl & -> & _); [lia|]. cbn [mbind option_bind].
  destruct (negb _); [destruct c; apply adds_nothing|].
  destruct (version_run 1 1) as (v12 & ->). destruct (version_run 1 3) as (v14 & ->). cbn [mbind option_bind].
  destruct c as [modes s]. cbn [fst snd].
  apply (adds_step _ modes s (λ modes s, if negb v12 then Some (modes, s) else
    if (fl =? 2) || (fl =? 0) then '(n, s) ← drm_gtf_modes_for_range alloc raw o s; Some (modes + n, s)
    else if fl =? 4 then if negb v14 then Some (modes, s) else
      '(n, s) ← drm_cvt_modes_for_range alloc raw o s; Some (modes + n, s)
    else Some (modes, s))); [apply dmt_loop_adds; [done|apply dmt_hsync_ok]|].
  intros modes' s'. destruct (negb v12); [apply adds_nothing|].
  destruct (_ || _); [apply adds_shift, gtf_range_adds, Ho|].
  destruct (fl =? 4); [|apply adds_nothing]. destruct (negb v14); [apply adds_nothing|].
  apply adds_shift, cvt_range_adds, Ho.
Qed.
End Safe.

(** ** The mode of a detailed timing *)

Section Detailed.
Context `{DrmModeH}.

(** The vertical timings of a field, for the frame. *)
Definition double (t : timings) : timings :=
  mk_timings (clock t) (hdisplay t) (hsync_start t) (hsync_end t) (htotal t) (hskew t)
    (i32 (vdisplay t * 2)) (i32 (vsync_start t * 2)) (i32 (vsync_end t * 2))
    (Z.lor (i32 (vtotal t * 2)) 1) (vscan t) (flags t).

(** Once doubled, a height is not that of a field any more. *)
Lemma interlace_fold t l : 0 <= vdisplay t <= 8192 →
  Forall (λ wh, Forall (λ wh', 2 * Z.quot wh.2 2 ≠ Z.quot wh'.2 2) l) l →
  foldl interlace_step t l = t ∨ foldl interlace_step t l = double t.
Proof.
  intros Hv Hl.
  assert (∀ l t, Forall (λ wh, vdisplay t ≠ Z.quot wh.2 2) l → foldl interlace_step t l = t) as Hskip.
  { intros k u Hk. induction Hk as [|[w h] k Hne _ IH]; [done|]. cbn [foldl]. unfold interlace_step at 2.
    cbn in Hne. rewrite (proj2 (Z.eqb_neq (vdisplay u) _)) by done. by rewrite andb_false_r. }
  assert (∀ k, (∀ wh, wh ∈ k → wh ∈ l) → foldl interlace_step t k = t ∨ foldl interlace_step t k = double t) as Hk.
  { induction k as [|[w h] k IH]; intros Hin; [by left|]. cbn [foldl]. unfold interlace_step at 2 4.
    destruct ((hdisplay t =? w) && (vdisplay t =? Z.quot h 2)) eqn:Hc; [|apply IH; intros wh Hwh; apply Hin; by right].
    right. apply (Hskip k (double t)). bool_to_Z. apply Forall_forall. intros wh Hwh. cbn [vdisplay double].
    rewrite i32_id by (unfold INT_MIN, INT_MAX; lia). rewrite Forall_forall in Hl.
    specialize (Hl (w, h) (Hin _ ltac:(by left))). rewrite Forall_forall in Hl.
    specialize (Hl wh (Hin _ ltac:(by right))). cbn [snd] in Hl. lia. }
  apply Hk. done.
Qed.

Lemma interlace_quirk t mi : 0 <= vdisplay t <= 8192 → let t' := drm_mode_do_interlace_quirk t mi in
  if z2b (Z.land mi DRM_EDID_PT_INTERLACED)
  then t' = set_flags (Z.lor (flags t) DRM_MODE_FLAG_INTERLACE) t ∨
       t' = set_flags (Z.lor (flags t) DRM_MODE_FLAG_INTERLACE) (double t)
  else t' = t.
Proof.
  intros Hv t'. unfold t', drm_mode_do_interlace_quirk. destruct (z2b _); cbn [negb]; [|done].
  destruct (interlace_fold t cea_interlaced Hv) as [-> | ->]; [|by left|by right].
  repeat (apply Forall_cons; split); try apply Forall_nil; try done;
    repeat (apply Forall_cons; split); try apply Forall_nil; try done; cbn; lia.
Qed.

Lemma lor_1_bounds z : 0 <= z → z <= Z.lor z 1 <= z + 1.
Proof.
  intros Hz. pose proof (Z.add_lor_land z 1) as Ha.
  change (Z.land z 1) with (Z.land z (Z.ones 1)) in Ha. rewrite Z.land_ones in Ha by done.
  pose proof (Z.mod_pos_bound z (2 ^ 1) ltac:(done)). change (2 ^ 1) with 2 in *. lia.
Qed.

Lemma double_ordered t : timings_ordered t → vtotal t <= 8192 →
  timings_ordered (double t) ∧ vtotal (double t) <= 16385 ∧ vdisplay (double t) = 2 * vdisplay t.
Proof.
  unfold timings_ordered. intros (Hh & Hh' & Hv & Hv') Ht. cbn [double hdisplay hsync_start hsync_end htotal
    vdisplay vsync_start vsync_end vtotal].
  rewrite !i32_id by (unfold INT_MIN, INT_MAX; lia). pose proof (lor_1_bounds (vtotal t * 2) ltac:(lia)).
  split_and!; lia.
Qed.

(** The timings of a descriptor, whatever its totals, and the interlace quirk. *)
Lemma detailed_timings_ordered pt : pt_valid pt → hsync_pulse_width pt ≠ 0 → vsync_pulse_width pt ≠ 0 →
  timings_ordered (detailed_timings_of pt) ∧ vtotal (detailed_timings_of pt) <= 8192.
Proof.
  destruct pt. unfold pt_valid, timings_ordered. cbn. intros. repeat case_bool; lia.
Qed.

Lemma detailed_ordered pt mi f : pt_valid pt → hsync_pulse_width pt ≠ 0 → vsync_pulse_width pt ≠ 0 →
  let t := set_flags f (drm_mode_do_interlace_quirk (detailed_timings_of pt) mi) in
  timings_ordered t ∧ crtc_small t ∧ clock t = 10 * pixel_clock pt ∧ hdisplay t = hactive pt ∧
  (vdisplay t = vactive pt ∨ z2b (Z.land mi DRM_EDID_PT_INTERLACED) = true ∧ vdisplay t = 2 * vactive pt).
Proof.
  intros Hv Hh0 Hv0. destruct (detailed_timings_ordered pt Hv Hh0 Hv0) as [Ho Ht].
  assert (0 <= vdisplay (detailed_timings_of pt) <= 8192) as Hvd by (unfold pt_valid in Hv; cbn; lia).
  pose proof (interlace_quirk (detailed_timings_of pt) mi Hvd) as Hi. cbv zeta in *.
  destruct (double_ordered _ Ho Ht) as (Hdo & Hdt & Hdv). unfold crtc_small, INT_MAX.
  assert (clock (detailed_timings_of pt) = 10 * pixel_clock pt) as Hc by (cbn; lia).
  destruct (z2b _); [destruct Hi as [-> | ->]|rewrite Hi].
  - split_and!; [exact Ho|cbn in *; lia|exact Hc|done|by left].
  - split_and!; [exact Hdo|cbn in *; lia|exact Hc|done|right; split; [done|exact Hdv]].
  - split_and!; [exact Ho|cbn in *; lia|exact Hc|done|by left].
Qed.

Lemma read_valid d : Forall byte d → length d = 18%nat → pt_valid (read_pixel_timing d).
Proof.
  intros Hd Hl. destruct (read_arith d Hd Hl) as [-> Hb]. set (b := λ k, nth k d 0).
  assert (∀ k, 0 <= b k < 256) as Hb' by exact Hb. clearbody b.
  unfold pt_valid, pixel_timing_of. cbn [pixel_clock hactive hblank vactive
    vblank hsync_offset hsync_pulse_width vsync_offset vsync_pulse_width pt_width_mm pt_height_mm misc].
  assert (0 <= Z.lor (b 11%nat / 4 mod 4) (b 10%nat / 16) < 64) as Hvso.
  { pose proof (Z.add_lor_land (b 11%nat / 4 mod 4) (b 10%nat / 16)) as Ha. pose proof (Hb' 10%nat) as H10.
    assert (0 <= b 10%nat / 16 < 16) by (Z.to_euclidean_division_equations; lia).
    pose proof (Z.mod_pos_bound (b 11%nat / 4) 4 ltac:(done)).
    assert (0 <= Z.land (b 11%nat / 4 mod 4) (b 10%nat / 16)) by (apply Z.land_nonneg; left; lia).
    assert (0 <= Z.lor (b 11%nat / 4 mod 4) (b 10%nat / 16)) by (apply Z.lor_nonneg; lia). lia. }
  revert Hvso. generalize (Z.lor (b 11%nat / 4 mod 4) (b 10%nat / 16)) as vso. intros vso Hvso.
  assert (∀ k j, 0 <= b k / 16 * 256 + b j < 4096 ∧ 0 <= b k mod 16 * 256 + b j < 4096 ∧
    0 <= b k / 64 * 256 + b j < 1024 ∧ 0 <= b k / 16 mod 4 * 256 + b j < 1024 ∧ 0 <= b k * 256 + b j < 65536 ∧
    0 <= b k mod 4 * 16 + b j mod 16 < 64) as Hf.
  { intros k j. pose proof (Hb' k). pose proof (Hb' j). split_and!; Z.to_euclidean_division_equations; lia. }
  split_and!; try (apply Hf); try (apply Hb'); lia.
Qed.

(** The quirks that write to the EDID. *)
Definition writes_edid (quirks : Z) : bool :=
  z2b (Z.land quirks EDID_QUIRK_135_CLOCK_TOO_HIGH) || z2b (Z.land quirks EDID_QUIRK_DETAILED_SYNC_PP).

(** What a detailed mode owes to its descriptor. *)
Definition mode_of_descriptor (quirks : Z) (pt : detailed_pixel_timing) (mode : drm_display_mode) : Prop :=
  timings_ordered (tm mode) ∧ crtc_small (tm mode) ∧
  clock (tm mode) = (if z2b (Z.land quirks EDID_QUIRK_135_CLOCK_TOO_HIGH) then 10880 else 10 * pixel_clock pt) ∧
  hdisplay (tm mode) = hactive pt ∧
  (vdisplay (tm mode) = vactive pt ∨
   z2b (Z.land (misc pt) DRM_EDID_PT_INTERLACED) = true ∧ vdisplay (tm mode) = 2 * vactive pt).

Lemma set_size_run raw quirks pt mode : 128 <= Z.of_nat (length raw) →
  ∃ mode', detailed_set_size raw quirks pt mode = Some mode' ∧ tm mode' = tm mode ∧
    mode_type mode' = DRM_MODE_TYPE_DRIVER.
Proof.
  intros Hl. unfold detailed_set_size. cbv zeta. destruct (z2b (Z.land quirks EDID_QUIRK_DETAILED_USE_MAXIMUM_SIZE)).
  - destruct (rd_is_Some raw width_cm) as [w ->]; [unfold width_cm; lia|].
    destruct (rd_is_Some raw height_cm) as [h ->]; [unfold height_cm; lia|]. by eexists.
  - by eexists.
Qed.

Lemma fill_run raw o quirks pt lo hi mode : pt_valid pt → hsync_pulse_width pt ≠ 0 → vsync_pulse_width pt ≠ 0 →
  0 <= o → o + 18 <= Z.of_nat (length raw) →
  rd raw o = Some lo → rd raw (o + 1) = Some hi → pixel_clock pt = Z.lor lo (Z.shiftl hi 8) →
  ∃ mode' raw', detailed_fill raw o quirks pt mode = Some (mode', raw') ∧ length raw' = length raw ∧
    (writes_edid quirks = false → raw' = raw) ∧ mode_of_descriptor quirks pt mode'.
Proof.
  intros Hv Hh0 Hv0 Ho Hl Hlo Hhi Hpc. unfold detailed_fill, writes_edid, mode_of_descriptor.
  set (q135 := z2b (Z.land quirks EDID_QUIRK_135_CLOCK_TOO_HIGH)).
  set (pp := z2b (Z.land quirks EDID_QUIRK_DETAILED_SYNC_PP)).
  assert (∃ raw1, (if q135 then raw ← wr raw o 64; wr raw (o + 1) 4 else Some raw) = Some raw1 ∧
    length raw1 = length raw ∧ (q135 = false → raw1 = raw) ∧ ∃ lo1 hi1, rd raw1 o = Some lo1 ∧
    rd raw1 (o + 1) = Some hi1 ∧ Z.lor lo1 (Z.shiftl hi1 8) = if q135 then 1088 else pixel_clock pt)
    as (raw1 & -> & Hl1 & Hsame & lo1 & hi1 & Hlo1 & Hhi1 & Hpc1).
  { destruct q135; [|exists raw; split_and!; [done..|]; by exists lo, hi].
    rewrite wr_run by lia. cbn [mbind option_bind]. rewrite wr_run by (rewrite length_insert; lia).
    eexists. split; [done|]. split; [by rewrite !length_insert|]. split; [done|]. exists 64, 4.
    rewrite (rd_insert_ne _ (o + 1)), rd_insert_eq, rd_insert_eq by (rewrite ?length_insert; lia). done. }
  cbn [mbind option_bind]. rewrite Hlo1, Hhi1. cbn [mbind option_bind]. rewrite Hpc1.
  set (pt' := mk_pt _ _ _ _ _ _ _ _ _ _ _ _). cbv zeta.
  assert (pt_valid pt') as Hv'.
  { unfold pt_valid in *. cbn. destruct q135; lia. }
  assert (∃ raw2, (if pp then wr raw1 (o + 17) (if pp then Z.lor (misc pt) (Z.lor DRM_EDID_PT_HSYNC_POSITIVE
    DRM_EDID_PT_VSYNC_POSITIVE) else misc pt) else Some raw1) = Some raw2 ∧ length raw2 = length raw ∧
    (pp = false → raw2 = raw1)) as (raw2 & -> & Hl2 & Hsame2).
  { destruct pp; [|by exists raw1]. rewrite wr_run by lia. eexists. split; [done|].
    split; [by rewrite length_insert|done]. }
  cbn [mbind option_bind]. eexists _, raw2. split; [done|]. split; [done|]. split.
  { intros [Hq Hp]%orb_false_iff. by rewrite Hsame2, Hsame. }
  cbn [tm set_tm]. set (f := Z.lor _ _).
  destruct (detailed_ordered pt' (misc pt) f Hv' Hh0 Hv0) as (? & ? & Hc & ? & ?).
  split_and!; try done. rewrite Hc. cbn. by destruct q135.
Qed.

Lemma detailed_run alloc raw n o quirks s : edid_bytes raw n → descriptor_in n o →
  ∃ d m raw' k, slice raw o 18 = Some d ∧
    drm_mode_detailed alloc raw o quirks s = Some (m, raw', mk_probe (probed_modes s) k) ∧
    (writes_edid quirks = false → raw' = raw) ∧
    ∀ mode, m = Some mode → mode_type mode = DRM_MODE_TYPE_DRIVER ∧
      (z2b (Z.land quirks EDID_QUIRK_FORCE_REDUCED_BLANKING) = false →
       mode_of_descriptor quirks (read_pixel_timing d) mode).
Proof.
  intros He (Ho & _ & Hon). pose proof He as (Hb & Hn & Hlen). pose proof (n_nonneg raw n He) as Hn0.
  destruct (slice_length raw o 18) as (d & Hd & Hdl); [lia..|].
  assert (Forall byte d) as Hdb.
  { unfold slice in Hd. destruct (_ || _); [done|]. injection Hd as <-. by apply Forall_take, Forall_drop. }
  exists d. pose proof (read_valid d Hdb Hdl) as Hv.
  assert (∀ k, 0 <= k < 18 → rd raw (o + k) = Some (nth (Z.to_nat k) d 0)) as Hrd.
  { intros k Hk. rewrite (rd_slice raw o 18 d k Hd) by lia. rewrite nth_lookup.
    destruct (lookup_lt_is_Some_2 d (Z.to_nat k)) as [x Hx]; [lia|]. by rewrite Hx. }
  pose proof (Hrd 0 ltac:(lia)) as Hlo. pose proof (Hrd 1 ltac:(lia)) as Hhi. rewrite Z.add_0_r in Hlo.
  unfold drm_mode_detailed. rewrite Hd. cbn [mbind option_bind]. cbv zeta.
  assert (pixel_clock (read_pixel_timing d) = Z.lor (nth 0 d 0) (Z.shiftl (nth 1 d 0) 8)) as Hpc by done.
  revert Hv Hpc. generalize (read_pixel_timing d) as pt. intros pt Hv Hpc.
  assert (∀ m, ∃ k, Some (@None drm_display_mode, raw, s) = Some (None, raw, mk_probe (probed_modes s) k) ∧
    (writes_edid quirks = false → raw = raw) ∧ ∀ mode : drm_display_mode, None = Some mode → m mode) as Hnone.
  { intros m. exists (allocs s). destruct s. done. }
  destruct ((hactive pt <? 64) || (vactive pt <? 64)) eqn:Hsz.
  { eexists None, raw. edestruct Hnone as (k & Hk); exists k; split; [done|exact Hk]. }
  destruct (z2b _). { eexists None, raw. edestruct Hnone as (k & Hk); exists k; split; [done|exact Hk]. }
  destruct ((hsync_pulse_width pt =? 0) || _) eqn:Hsw.
  { eexists None, raw. edestruct Hnone as (k & Hk); exists k; split; [done|exact Hk]. }
  bool_to_Z. unfold make_mode.
  destruct (z2b (Z.land quirks EDID_QUIRK_FORCE_REDUCED_BLANKING)) eqn:Hq; cbn [mbind option_bind].
  - destruct (alloc (allocs s)) as [id|]; cbn [mbind option_bind].
    + destruct (cvt_htotal id (hactive pt) (vactive pt) 60 true) as (m & Hm & _);
        [unfold pt_valid in Hv; unfold cvt_in_range; lia|].
      rewrite Hm. cbn [mbind option_bind].
      destruct (set_size_run raw quirks pt m) as (mode & -> & _ & Hty); [lia|]. cbn [mbind option_bind].
      eexists (Some mode), raw, _. split; [done|]. split; [done|]. split; [done|]. by intros ? [= <-].
    + change (drm_cvt_mode None _ _ _ _ _ _) with (Some (@None drm_display_mode)). cbn [mbind option_bind].
      eexists None, raw, _. split; [done|]. split; [done|]. split; [done|]. done.
  - destruct (alloc (allocs s)) as [id|]; cbn [mbind option_bind drm_mode_create fmap option_fmap option_map].
    + edestruct (fill_run raw o quirks pt) as (mode & raw' & -> & Hl' & Hsame & Hmode);
        [exact Hv|done|done|done|lia|exact Hlo|exact Hhi|exact Hpc|].
      cbn [mbind option_bind].
      destruct (set_size_run raw' quirks pt mode) as (mode' & -> & Htm & Hty); [lia|]. cbn [mbind option_bind].
      eexists (Some mode'), raw', _. split; [done|]. split; [done|]. split; [done|]. intros ? [= <-].
      split; [done|]. intros _. unfold mode_of_descriptor. by rewrite Htm.
    + eexists None, raw, _. split; [done|]. split; [done|]. split; [done|]. done.
Qed.
End Detailed.

(** ** Every stage of drm_add_edid_modes *)

Section Stages.
Context `{DrmModeH}.
Variables (alloc : nat → option Z) (raw : bytes) (n : Z).
Hypothesis He : edid_bytes raw n.

Lemma detailed_adds quirks s : writes_edid quirks = false →
  ∃ new k, add_detailed_modes alloc raw quirks s =
    Some (Z.of_nat (length new), raw, mk_probe (probed_modes s ++ new) k).
Proof.
  intros Hq. unfold add_detailed_modes. destruct (version_run raw n He 1 3) as (v14 & ->).
  destruct (base_rd raw n He features) as (feat & -> & _); [unfold features; lia|]. cbn [mbind option_bind].
  set (preferred := if negb v14 then _ else _). destruct (detailed_walk raw n He) as (offs & -> & Hin).
  set (P := λ c, cl_raw c = raw ∧ ∃ new k, cl_modes c = Z.of_nat (length new) ∧
    cl_state c = mk_probe (probed_modes s ++ new) k).
  destruct (run_cbs_inv P _ (do_detailed_mode alloc quirks) offs (mk_closure raw preferred 0 s) Hin)
    as (c & -> & Hc & new & k & Hm & Hs).
  - split; [done|]. exists [], (allocs s). cbn. rewrite app_nil_r. by destruct s.
  - intros o c Ho (Hraw & new & k & Hm & Hs). unfold do_detailed_mode. rewrite Hraw, Hm, Hs.
    destruct (desc_rd raw n He o 0 Ho) as (lo & Hlo & _); [lia|]. rewrite Z.add_0_r in Hlo. rewrite Hlo.
    destruct (desc_rd raw n He o 1 Ho) as (hi & -> & _); [lia|]. cbn [mbind option_bind].
    destruct (z2b (Z.lor lo _)); [|exists c; split; [done|]; split; [done|]; exists new, k; done].
    destruct (detailed_run alloc raw n o quirks (mk_probe (probed_modes s ++ new) k) He Ho)
      as (d & m & raw' & k' & _ & -> & Hsame & _).
    rewrite (Hsame Hq). cbn [mbind option_bind]. destruct m as [m|].
    + eexists. split; [done|]. split; [done|]. eexists (new ++ [_]), k'. cbn. rewrite length_app, app_assoc.
      cbn. split; [lia|done].
    + eexists. split; [done|]. split; [done|]. by exists new, k'.
  - cbn [mbind option_bind]. exists new, k. by rewrite Hc, Hm, Hs.
Qed.

Lemma cea_modes_run off m modes s : 0 <= off → off + Z.of_nat m <= Z.of_nat (length raw) →
  adds (do_cea_modes alloc raw off m modes s) modes s.
Proof.
  revert off modes s. induction m as [|m IH]; intros off modes s H0 Hm; cbn [do_cea_modes]; [apply adds_nothing|].
  destruct (rd_is_Some raw off) as [b ->]; [lia|]. cbn [mbind option_bind]. cbv zeta.
  destruct (edid_cea_modes !! _) as [c|]; [|apply IH; lia]. unfold duplicate_mode.
  apply (adds_same _ _ _ (mk_probe (probed_modes s) (S (allocs s)))); [done|].
  destruct (drm_mode_duplicate _ c) as [m'|]; [|apply IH; lia].
  apply (adds_trans (Some (modes + 1, drm_mode_probed_add (at_rate 0 m') (mk_probe (probed_modes s) (S (allocs s)))))
    modes _ (λ modes s, do_cea_modes alloc raw (off + 1) m modes s)); [|intros; apply IH; lia].
  by exists [at_rate 0 m'], (S (allocs s)).
Qed.

Lemma cea_adds s : adds (add_cea_modes alloc raw s) 0 s.
Proof.
  unfold add_cea_modes. destruct (find_cea_spec raw n He) as (r & -> & Hx). cbn [mbind option_bind].
  destruct r as [cea|]; [|apply adds_nothing]. specialize (Hx cea eq_refl).
  destruct (extension_rd raw n cea 1 He Hx) as (rev & Hrev & _); [lia|]. unfold cea_revision. rewrite Hrev.
  cbn [mbind option_bind]. destruct (_ <? _); [apply adds_nothing|].
  destruct (offsets_run raw n cea He Hx) as (ret & end_ & -> & Hr). cbn [mbind option_bind].
  destruct Hr as [[-> Hend] | [-> _]]; [|apply adds_nothing]. cbn [z2b Z.eqb negb].
  destruct (for_each_cea_db_run raw n cea end_ CEA_FUEL 4 He Hx) as (dbs & Hrun & Hch);
    [lia|lia|unfold CEA_FUEL; lia|].
  rewrite Hrun.
  pose proof (db_chain_in raw cea (cea + 4) (cea + end_) dbs ltac:(lia) ltac:(lia) Hch) as Hin.
  clear Hrun Hch. set (body := λ (db : Z) '(modes, s), _).
  assert (∀ db modes s, db_in raw cea db → ∃ new k,
    body db (modes, s) = Some (modes + Z.of_nat (length new), mk_probe (probed_modes s ++ new) k, true)) as Hbody.
  { intros db modes s' Hdb. unfold body. pose proof Hdb as (Hlo & len & Hlen & Hl & Hhi).
    destruct (db_byte raw n cea db 0 He Hx Hdb len Hlen) as (b0 & Hb0 & _); [lia|]. rewrite Z.add_0_r in Hb0.
    rewrite Hlen. unfold cea_db_tag. rewrite Hb0. cbn [mbind option_bind].
    destruct (_ =? _); [|exists [], (allocs s'); rewrite Z.add_0_r, app_nil_r; by destruct s'].
    pose proof Hx as (j & Hj & Hcea & _). destruct He as (_ & _ & Hlraw).
    destruct (cea_modes_run (db + 1) (Z.to_nat len) 0 s') as (new & k & ->); [lia|lia|].
    cbn [mbind option_bind]. by exists new, k. }
  clearbody body. generalize 0 as modes. revert s.
  induction Hin as [|db dbs Hdb _ IH]; intros s modes; cbn [walk_dbs]; [apply adds_nothing|].
  destruct (Hbody db modes s Hdb) as (new & k & ->). cbn [mbind option_bind].
  apply (adds_trans (Some (modes + Z.of_nat (length new), mk_probe (probed_modes s ++ new) k)) modes s
    (λ modes s, walk_dbs body dbs (modes, s))); [|intros; apply IH].
  by exists new, k.
Qed.

Lemma alternate_modes_run l new s : ∃ new' k, alternate_modes alloc l new s = (new', mk_probe (probed_modes s) k).
Proof.
  revert new s. induction l as [|m l IH]; intros new s; cbn [alternate_modes]; [exists new, (allocs s); by destruct s|].
  cbv zeta. destruct (edid_cea_modes !! _) as [c|]; [|apply IH]. destruct (_ =? _); [apply IH|].
  destruct (_ && _); [apply IH|]. unfold duplicate_mode.
  destruct (drm_mode_duplicate _ c); apply (IH _ (mk_probe (probed_modes s) (S (allocs s)))).
Qed.

Lemma alternate_adds s : adds (add_alternate_cea_modes alloc raw s) 0 s.
Proof.
  unfold add_alternate_cea_modes. destruct (find_cea_spec raw n He) as (r & -> & _). cbn [mbind option_bind].
  destruct r as [cea|]; [|apply adds_nothing].
  destruct (alternate_modes_run (probed_modes s) [] s) as (new & k & ->). exists new, k. do 2 f_equal.
  assert (∀ s, foldl (λ s m, drm_mode_probed_add m s) s new = mk_probe (probed_modes s ++ new) (allocs s)) as ->; [|done].
  induction new as [|m new IH]; intros s'; cbn; [rewrite app_nil_r; by destruct s'|]. rewrite IH. cbn.
  by rewrite <- app_assoc.
Qed.

Lemma inferred_adds s : gtf2_range raw = Some None → adds (add_inferred_modes alloc raw s) 0 s.
Proof. intros Hg. apply (walk_modes_adds raw n He). intros. by apply (do_inferred_adds alloc raw n He). Qed.

Lemma cvt_adds s : adds (add_cvt_modes alloc raw s) 0 s.
Proof. apply (walk_modes_adds raw n He). intros. by apply (do_cvt_adds alloc raw n He). Qed.

Lemma display_info_run info : is_Some (drm_add_display_info raw info).
Proof.
  unfold drm_add_display_info. destruct (find_cea_spec raw n He) as (r & -> & Hx).
  destruct (base_rd raw n He width_cm) as (w & -> & _); [unfold width_cm; lia|].
  destruct (base_rd raw n He height_cm) as (h & -> & _); [unfold height_cm; lia|].
  destruct (base_rd raw n He revision) as (rev & -> & _); [unfold revision; lia|].
  destruct (base_rd raw n He input) as (inp & -> & _); [unfold input; lia|].
  destruct (base_rd raw n He features) as (f & -> & _); [unfold features; lia|].
  cbn [mbind option_bind]. destruct (_ <? _); [done|]. destruct (negb _); [done|].
  destruct r as [cea|]; [|cbn [mbind option_bind]; by destruct (_ <? _)]. specialize (Hx cea eq_refl).
  destruct (extension_rd raw n cea 1 He Hx) as (b1 & -> & _); [lia|].
  destruct (extension_rd raw n cea 3 He Hx) as (b3 & -> & _); [lia|].
  cbn [mbind option_bind]. by destruct (_ <? _).
Qed.

Lemma quirks_run : ∃ q, edid_get_quirks raw = Some q.
Proof.
  unfold edid_get_quirks. induction edid_quirk_list as [|q l IH]; cbn [find_quirks]; [by eexists|].
  unfold edid_vendor, EDID_PRODUCT_ID.
  destruct (base_rd raw n He mfg_id) as (? & -> & _); [unfold mfg_id; lia|].
  destruct (base_rd raw n He (mfg_id + 1)) as (? & -> & _); [unfold mfg_id; lia|].
  destruct (base_rd raw n He prod_code) as (? & -> & _); [unfold prod_code; lia|].
  destruct (base_rd raw n He (prod_code + 1)) as (? & -> & _); [unfold prod_code; lia|].
  cbn [mbind option_bind]. destruct (_ && _); [by eexists|exact IH].
Qed.
End Stages.

(** ** The preferred mode of a quirk *)

Section Preferred.
Context `{DrmModeH}.

(** [a] is preferred to [b]: larger, or as large and with a smaller difference to
    the refresh rate, as MODE_REFRESH_DIFF computes it. *)
Definition better (target : Z) (a b : drm_display_mode) : Prop :=
  MODE_SIZE b < MODE_SIZE a ∨
  MODE_SIZE a = MODE_SIZE b ∧ MODE_REFRESH_DIFF a target < MODE_REFRESH_DIFF b target.

Lemma replaces_better target a b : replaces target a b = true ↔ better target a b.
Proof.
  unfold replaces, better. cbv zeta. destruct (Z.ltb_spec (MODE_SIZE b) (MODE_SIZE a)); cbn [orb]; [tauto|].
  rewrite andb_true_iff, Z.eqb_eq, Z.ltb_lt. lia.
Qed.

(** After the modes [l1], the choice is the first of the best among them. *)
Definition best_of (target : Z) (l : list drm_display_mode) (k : nat) (m : drm_display_mode) : Prop :=
  l !! k = Some m ∧ (∀ j m', l !! j = Some m' → ¬ better target m' m) ∧
  (∀ j m', (j < k)%nat → l !! j = Some m' → better target m m').

Lemma preferred_scan_best target l1 l2 k m : best_of target l1 k m →
  ∃ k' m', preferred_scan target (length l1) l2 (k, m) = k' ∧ best_of target (l1 ++ l2) k' m'.
Proof.
  revert l1 k m. induction l2 as [|c l2 IH]; intros l1 k m Hb; cbn [preferred_scan].
  { exists k, m. by rewrite app_nil_r. }
  destruct Hb as (Hk & Hbest & Hfirst). pose proof (lookup_lt_Some _ _ _ Hk) as Hlt. cbn [fst snd].
  rewrite (proj2 (Nat.eqb_neq (length l1) k)) by lia. cbn [negb andb].
  replace (S (length l1)) with (length (l1 ++ [c])) by (rewrite length_app; cbn; lia).
  replace (l1 ++ c :: l2) with ((l1 ++ [c]) ++ l2) by (by rewrite <- app_assoc).
  pose proof (replaces_better target c m) as Hr. destruct (replaces target c m); apply IH; unfold best_of.
  - assert (better target c m) as Hc by by apply Hr.
    assert (∀ j m', l1 !! j = Some m' → better target c m') as Hall.
    { intros j m' Hj. specialize (Hbest j m' Hj). unfold better in *. lia. }
    split; [by rewrite list_lookup_middle|]. split.
    + intros j m' [Hj | [Hj Hjc]]%lookup_app_Some; [specialize (Hall j m' Hj)|].
      * unfold better in *. lia.
      * apply list_lookup_singleton_Some in Hjc as [_ <-]. unfold better. lia.
    + intros j m' Hj. rewrite lookup_app_l by done. apply Hall.
  - assert (¬ better target c m) as Hc by (intros Hc; apply Hr in Hc; done).
    split; [by apply lookup_app_l_Some|]. split.
    + intros j m' [Hj | [_ Hjc]]%lookup_app_Some; [by apply (Hbest j)|].
      by apply list_lookup_singleton_Some in Hjc as [_ <-].
    + intros j m' Hj. rewrite lookup_app_l by lia. by apply Hfirst.
Qed.

Lemma preferred_range : 0 <= preferred_bit.
Proof. destruct flag_bits_ok as [_ Hb]. rewrite !Forall_cons in Hb. destruct Hb as (?&?&?&?&?&?&?&?&_). lia. Qed.

(** Whether a mode is marked as preferred. *)
Definition is_preferred (m : drm_display_mode) : bool := Z.testbit (mode_type m) preferred_bit.

Lemma drop_not_preferred m : is_preferred (drop_preferred m) = false.
Proof.
  unfold is_preferred, drop_preferred, DRM_MODE_TYPE_PREFERRED. cbn [mode_type set_type].
  rewrite Z.land_spec, Z.lnot_spec, testbit_flag, bool_decide_true by (done || apply preferred_range).
  apply andb_false_r.
Qed.

Lemma mark_preferred m : is_preferred (set_type (Z.lor (mode_type m) DRM_MODE_TYPE_PREFERRED) m) = true.
Proof.
  unfold is_preferred, DRM_MODE_TYPE_PREFERRED. cbn [mode_type set_type].
  rewrite Z.lor_spec, testbit_flag, bool_decide_true by (done || apply preferred_range). apply orb_true_r.
Qed.

(** The target rate of the quirks. *)
Definition quirk_target (quirks : Z) : Z :=
  if z2b (Z.land quirks EDID_QUIRK_PREFER_LARGE_75) then 75
  else if z2b (Z.land quirks EDID_QUIRK_PREFER_LARGE_60) then 60 else 0.

(** Edid_fixup_preferred leaves exactly one mode
    of the list marked as preferred: the first of the largest modes with the
    smallest MODE_REFRESH_DIFF to the quirk's rate; no mode changes otherwise,
    and none moves.  (At or above the rate that difference is the distance to
    it, below the rate it is negative: see refresh_diff_below.) *)
Theorem fixup_preferred_correct quirks s : probed_modes s ≠ [] →
  ∃ k m, best_of (quirk_target quirks) (probed_modes s) k m ∧
    let modes' := probed_modes (edid_fixup_preferred quirks s) in
    length modes' = length (probed_modes s) ∧
    ∀ j m', modes' !! j = Some m' → is_preferred m' = bool_decide (j = k) ∧
      ∃ m0, probed_modes s !! j = Some m0 ∧ m' = set_type (mode_type m') m0.
Proof.
  intros Hne. unfold edid_fixup_preferred. destruct (probed_modes s) as [|first rest] eqn:Hs; [done|].
  cbv zeta. change (if z2b (Z.land quirks EDID_QUIRK_PREFER_LARGE_75) then 75 else _) with (quirk_target quirks).
  destruct (preferred_scan_best (quirk_target quirks) [first] rest 0 first) as (k & m & Hk & Hbest).
  { split; [done|]. split; [|lia]. intros j m' Hj. apply list_lookup_singleton_Some in Hj as [_ <-]. unfold better. lia. }
  assert (preferred_scan (quirk_target quirks) 0 (first :: rest) (0%nat, first) = k) as ->.
  { cbn [preferred_scan fst snd Nat.eqb negb andb]. exact Hk. }
  exists k, m. split; [exact Hbest|]. cbn [probed_modes]. split; [by rewrite length_alter, length_fmap|].
  intros j m' Hj. destruct (decide (j = k)) as [-> | Hjk].
  - rewrite list_lookup_alter_eq in Hj. rewrite bool_decide_true by done.
    rewrite list_lookup_fmap in Hj. destruct ((first :: rest) !! k) as [m0|] eqn:Hm0; [|done].
    injection Hj as <-. split; [apply (mark_preferred (drop_preferred m0))|]. by exists m0.
  - rewrite list_lookup_alter_ne in Hj by done. rewrite bool_decide_false by done.
    rewrite list_lookup_fmap in Hj. destruct ((first :: rest) !! j) as [m0|] eqn:Hm0; [|done].
    injection Hj as <-. split; [apply drop_not_preferred|]. by exists m0.
Qed.

(** A mode below the rate counts as nearer than one that has it exactly, because
    of the macro. *)
Lemma refresh_diff_below m target : 0 <= vrefresh m < target → target <= 1000000 →
  MODE_REFRESH_DIFF m target = - (vrefresh m + target).
Proof.
  intros Hm Ht. unfold MODE_REFRESH_DIFF. rewrite !(i32_id (vrefresh m - target)) by (unfold INT_MIN, INT_MAX; lia).
  rewrite (proj2 (Z.ltb_lt _ _)) by lia. rewrite (i32_id (- vrefresh m)), i32_id by (unfold INT_MIN, INT_MAX; lia). lia.
Qed.
End Preferred.

(** ** Theorems *)

Section Claims.
Context `{DrmModeH}.

(** A descriptor that encodes timings at the widths of
    the format is read back field by field, with one exception: the two high
    bits of the vertical sync offset are shifted to the bottom instead of above
    the low four, so an offset of 16 lines or more is lost. *)
Theorem detailed_roundtrip pt : pt_valid pt →
  let pt' := read_pixel_timing (encode_pixel_timing pt) in
  pt' = set_vsync_offset (vsync_offset pt') pt ∧ (pt' = pt ↔ vsync_offset pt < 16).
Proof.
  intros Hv. cbv zeta. rewrite (read_encode pt Hv). split; [done|].
  rewrite <- vsync_offset_lost by (unfold pt_valid in Hv; lia). destruct pt. unfold set_vsync_offset. cbn.
  split; [congruence|by intros ->].
Qed.

(** For any descriptor of an EDID, also one with
    totals smaller than its sync intervals, drm_mode_detailed returns NULL or a
    driver mode whose display, sync and total are in order and small enough for
    drm_mode_set_crtcinfo, with the size of the descriptor (a field height may
    be doubled when interlaced) and its clock, or the fixed clock of a quirk;
    the EDID is only written to under the two quirks that do so.  Under the
    reduced-blanking quirk the timings are those of drm_cvt_mode instead. *)
Theorem detailed_mode_ordered alloc raw n o quirks s : edid_bytes raw n → descriptor_in n o →
  ∃ d m raw' s', slice raw o 18 = Some d ∧
    drm_mode_detailed alloc raw o quirks s = Some (m, raw', s') ∧ probed_modes s' = probed_modes s ∧
    (writes_edid quirks = false → raw' = raw) ∧
    ∀ mode, m = Some mode → mode_type mode = DRM_MODE_TYPE_DRIVER ∧
      (z2b (Z.land quirks EDID_QUIRK_FORCE_REDUCED_BLANKING) = false →
       mode_of_descriptor quirks (read_pixel_timing d) mode).
Proof.
  intros He Ho. destruct (detailed_run alloc raw n o quirks s He Ho) as (d & m & raw' & k & Hd & Hrun & Hw & Hm).
  by exists d, m, raw', (mk_probe (probed_modes s) k).
Qed.

(** C35 (add_edid_modes_safe): for a valid EDID without a secondary GTF curve and
    without the two quirks that patch it, drm_add_edid_modes never faults (it
    reads inside the EDID and divides by no zero, whatever the bytes and the
    allocations), it only appends to the connector's probed modes, and what it
    returns is the number of modes it appended. *)
Theorem add_edid_modes_safe fx alloc raw n q s info : edid_bytes raw n →
  drm_edid_is_valid fx (Some raw) = Some (true, raw) →
  edid_get_quirks raw = Some q → writes_edid q = false → gtf2_range raw = Some None →
  ∃ new k info', drm_add_edid_modes alloc fx (Some raw) s info =
    Some (Z.of_nat (length new), Some raw,
      (if z2b (Z.land q (Z.lor EDID_QUIRK_PREFER_LARGE_60 EDID_QUIRK_PREFER_LARGE_75))
       then edid_fixup_preferred q else id) (mk_probe (probed_modes s ++ new) k), info').
Proof.
  intros He Hvalid Hq Hw Hg. unfold drm_add_edid_modes. rewrite Hvalid. cbn [mbind option_bind negb].
  rewrite Hq. cbn [mbind option_bind].
  destruct (detailed_adds alloc raw n He q s Hw) as (l1 & k1 & ->). cbn [mbind option_bind].
  set (s1 := mk_probe (probed_modes s ++ l1) k1).
  destruct (cvt_adds alloc raw n He s1) as (l2 & k2 & ->). cbn [mbind option_bind].
  set (s2 := mk_probe (probed_modes s1 ++ l2) k2).
  destruct (standard_adds alloc raw n He Hg s2) as (l3 & k3 & ->). cbn [mbind option_bind].
  set (s3 := mk_probe (probed_modes s2 ++ l3) k3).
  destruct (established_adds alloc raw n He s3) as (l4 & k4 & ->). cbn [mbind option_bind].
  set (s4 := mk_probe (probed_modes s3 ++ l4) k4).
  destruct (base_rd raw n He features) as (feat & -> & _); [unfold features; lia|]. cbn [mbind option_bind].
  assert (∀ s, adds (if z2b (Z.land feat DRM_EDID_FEATURE_DEFAULT_GTF) then add_inferred_modes alloc raw s
    else Some (0, s)) 0 s) as H5.
  { intros s'. destruct (z2b _); [by apply (inferred_adds alloc raw n He)|apply adds_nothing]. }
  destruct (H5 s4) as (l5 & k5 & ->). cbn [mbind option_bind]. set (s5 := mk_probe (probed_modes s4 ++ l5) k5).
  destruct (cea_adds alloc raw n He s5) as (l6 & k6 & ->). cbn [mbind option_bind].
  set (s6 := mk_probe (probed_modes s5 ++ l6) k6).
  destruct (alternate_adds alloc raw n He s6) as (l7 & k7 & ->). cbn [mbind option_bind].
  destruct (display_info_run raw n He info) as [info' ->]. cbn [mbind option_bind].
  unfold s6, s5, s4, s3, s2, s1. cbn [probed_modes].
  exists (l1 ++ l2 ++ l3 ++ l4 ++ l5 ++ l6 ++ l7), k7, info'. rewrite !length_app, !app_assoc.
  f_equal. f_equal. f_equal; [f_equal; lia|by destruct (z2b (Z.land q _))].
Qed.
End Claims.

(** ** Witnesses *)

Section Witness.
#[local] Existing Instance interface_modes.

(** A base block of version 1.3: a standard timing of 1000x625 at 60 Hz, and a
    range descriptor whose secondary GTF curve (above 2 kHz) has C = 100, M = 0,
    K = 0 and J = 100. *)
Definition gtf2_base : bytes :=
  let body := edid_header ++ [4; 33; 0; 0] ++ replicate 6 0 ++ [1; 3] ++ replicate 18 0 ++
    [94; 0] ++ replicate 14 1 ++ [0; 0; 0; 253; 0; 50; 100; 30; 90; 15; 2; 0; 1; 200; 0; 0; 0; 200] ++
    replicate 55 0 in
  body ++ [(- zsum body) mod 256].

(** A monitor can make the driver divide by zero: the
    secondary GTF curve of this valid EDID has a duty cycle of 100%, and
    drm_gtf_mode_complex, reached from drm_add_edid_modes, divides by what is
    left of it. *)
Theorem gtf2_divides_by_zero :
  drm_edid_is_valid 6 (Some gtf2_base) = Some (true, gtf2_base) ∧
  rd gtf2_base extensions = Some 0 ∧ length gtf2_base = 128%nat ∧
  drm_gtf_mode_complex (Some 0) 1000 625 60 false false 0 200 0 200 = None ∧
  drm_add_edid_modes (λ k, Some (Z.of_nat k)) 6 (Some gtf2_base) (mk_probe [] 0) (mk_info 0 0 0 0 0) = None.
Proof. split_and!; vm_compute; reflexivity. Qed.

Definition demo_pt : detailed_pixel_timing := mk_pt 14850 1920 280 1080 45 88 44 4 5 520 320 30.

Lemma detailed_roundtrip_witness :
  let pt' := read_pixel_timing (encode_pixel_timing demo_pt) in
  pt' = set_vsync_offset (vsync_offset pt') demo_pt ∧ (pt' = demo_pt ↔ vsync_offset demo_pt < 16).
Proof. apply (detailed_roundtrip demo_pt). unfold pt_valid. cbn. lia. Defined.

(** The 1080p descriptor, first of the four of an EDID with one extension. *)
Definition detailed_edid : bytes :=
  let body := edid_header ++ [4; 33; 0; 0] ++ replicate 6 0 ++ [1; 3] ++ replicate 34 0 ++
    encode_pixel_timing demo_pt ++ replicate 54 0 ++ [1] in
  body ++ [(- zsum body) mod 256] ++ demo_ext.

Lemma detailed_edid_bytes : edid_bytes detailed_edid 1.
Proof.
  split; [|split; [reflexivity|vm_compute; discriminate]].
  apply Forall_forall. intros x Hx. apply list_elem_of_In in Hx.
  assert (forallb (λ x, (0 <=? x) && (x <? 256)) detailed_edid = true) as Hall by reflexivity.
  rewrite forallb_forall in Hall. specialize (Hall x Hx). lia.
Qed.

Lemma detailed_mode_ordered_witness :
  ∃ d m raw' s', slice detailed_edid 54 18 = Some d ∧
    drm_mode_detailed (λ k, Some (Z.of_nat k)) detailed_edid 54 0 (mk_probe [] 0) = Some (m, raw', s') ∧
    probed_modes s' = probed_modes (mk_probe [] 0) ∧ (writes_edid 0 = false → raw' = detailed_edid) ∧
    ∀ mode, m = Some mode → mode_type mode = DRM_MODE_TYPE_DRIVER ∧
      (z2b (Z.land 0 EDID_QUIRK_FORCE_REDUCED_BLANKING) = false →
       mode_of_descriptor 0 (read_pixel_timing d) mode).
Proof.
  apply (detailed_mode_ordered (λ k, Some (Z.of_nat k)) detailed_edid 1 54 0 (mk_probe [] 0)).
  - exact detailed_edid_bytes.
  - unfold descriptor_in. split_and!; done.
Defined.

Lemma add_edid_modes_safe_witness : ∃ new k info',
  drm_add_edid_modes (λ k, Some (Z.of_nat k)) 6 (Some detailed_edid) (mk_probe [] 0) (mk_info 0 0 0 0 0) =
    Some (Z.of_nat (length new), Some detailed_edid,
      (if z2b (Z.land 0 (Z.lor EDID_QUIRK_PREFER_LARGE_60 EDID_QUIRK_PREFER_LARGE_75))
       then edid_fixup_preferred 0 else id) (mk_probe (probed_modes (mk_probe [] 0) ++ new) k), info').
Proof.
  apply (add_edid_modes_safe 6 (λ k, Some (Z.of_nat k)) detailed_edid 1 0 (mk_probe [] 0) (mk_info 0 0 0 0 0)).
  - exact detailed_edid_bytes.
  - vm_compute. reflexivity.
  - vm_compute. reflexivity.
  - reflexivity.
  - vm_compute. reflexivity.
Defined.

(** The 1080p mode first, then the CEA modes of the extension, then their
    alternate clocks. *)
Example detailed_modes :
  (λ r, (r.1.1.1, (λ m, (mode_name m, clock (tm m))) <$> probed_modes r.1.2)) <$>
    drm_add_edid_modes (λ k, Some (Z.of_nat k)) 6 (Some detailed_edid) (mk_probe [] 0) (mk_info 0 0 0 0 0) =
  Some (6, [("1920x1080"%string, 148500); ("1920x1080"%string, 148500); ("1280x720"%string, 74250);
            ("1920x1080"%string, 148352); ("1920x1080"%string, 148352); ("1280x720"%string, 74176)]).
Proof. vm_compute. reflexivity. Qed.

Lemma fixup_preferred_correct_witness :
  let s := mk_probe [demo_mode 800 600 60 40000 0; demo_mode 1024 768 75 78750 8; demo_mode 1024 768 60 65000 0] 3 in
  ∃ k m, best_of (quirk_target 1) (probed_modes s) k m ∧
    let modes' := probed_modes (edid_fixup_preferred 1 s) in
    length modes' = length (probed_modes s) ∧
    ∀ j m', modes' !! j = Some m' → is_preferred m' = bool_decide (j = k) ∧
      ∃ m0, probed_modes s !! j = Some m0 ∧ m' = set_type (mode_type m') m0.
Proof.
  apply (fixup_preferred_correct 1
    (mk_probe [demo_mode 800 600 60 40000 0; demo_mode 1024 768 75 78750 8; demo_mode 1024 768 60 65000 0] 3)).
  discriminate.
Defined.
End Witness.
