(* ===== verification/Formats.v ===== *)
(** * drm_crtc.c: pixel formats and the checks on framebuffers

    The tables of pixel formats, what an ADDFB2 request may ask for, and the tests
    that a viewport or a source rectangle lies inside a framebuffer.  The numbers
    of the formats are in a header of libdrm that is not in the repository: they
    are a parameter ([Fourcc]), and the witnesses use the documented character
    codes.  The theorems: what framebuffer_check accepts, in terms of the bytes
    the planes cover; the requests for which its test of the pitch says nothing;
    and that a viewport or source rectangle that passes lies inside. *)

From Stdlib Require Import Ascii String.
From stdpp Require Import base option list numbers.
From Stdlib Require Import ZArith Lia.
From S2P Require Import Prelude.

(** ** Pixel formats *)

Inductive drm_format :=
  | DRM_FORMAT_C8 | DRM_FORMAT_RGB332 | DRM_FORMAT_BGR233 | DRM_FORMAT_XRGB4444 | DRM_FORMAT_XBGR4444
  | DRM_FORMAT_RGBX4444 | DRM_FORMAT_BGRX4444 | DRM_FORMAT_ARGB4444 | DRM_FORMAT_ABGR4444
  | DRM_FORMAT_RGBA4444 | DRM_FORMAT_BGRA4444 | DRM_FORMAT_XRGB1555 | DRM_FORMAT_XBGR1555
  | DRM_FORMAT_RGBX5551 | DRM_FORMAT_BGRX5551 | DRM_FORMAT_ARGB1555 | DRM_FORMAT_ABGR1555
  | DRM_FORMAT_RGBA5551 | DRM_FORMAT_BGRA5551 | DRM_FORMAT_RGB565 | DRM_FORMAT_BGR565 | DRM_FORMAT_RGB888
  | DRM_FORMAT_BGR888 | DRM_FORMAT_XRGB8888 | DRM_FORMAT_XBGR8888 | DRM_FORMAT_RGBX8888 | DRM_FORMAT_BGRX8888
  | DRM_FORMAT_ARGB8888 | DRM_FORMAT_ABGR8888 | DRM_FORMAT_RGBA8888 | DRM_FORMAT_BGRA8888
  | DRM_FORMAT_XRGB2101010 | DRM_FORMAT_XBGR2101010 | DRM_FORMAT_RGBX1010102 | DRM_FORMAT_BGRX1010102
  | DRM_FORMAT_ARGB2101010 | DRM_FORMAT_ABGR2101010 | DRM_FORMAT_RGBA1010102 | DRM_FORMAT_BGRA1010102
  | DRM_FORMAT_YUYV | DRM_FORMAT_YVYU | DRM_FORMAT_UYVY | DRM_FORMAT_VYUY | DRM_FORMAT_AYUV | DRM_FORMAT_NV12
  | DRM_FORMAT_NV21 | DRM_FORMAT_NV16 | DRM_FORMAT_NV61 | DRM_FORMAT_NV24 | DRM_FORMAT_NV42
  | DRM_FORMAT_YUV410 | DRM_FORMAT_YVU410 | DRM_FORMAT_YUV411 | DRM_FORMAT_YVU411 | DRM_FORMAT_YUV420
  | DRM_FORMAT_YVU420 | DRM_FORMAT_YUV422 | DRM_FORMAT_YVU422 | DRM_FORMAT_YUV444 | DRM_FORMAT_YVU444.

#[export] Instance drm_format_eq_dec : EqDecision drm_format.
Proof. solve_decision. Defined.

(** The cases of format_check, in its order. *)
Definition formats : list drm_format :=
  [   DRM_FORMAT_C8; DRM_FORMAT_RGB332; DRM_FORMAT_BGR233; DRM_FORMAT_XRGB4444; DRM_FORMAT_XBGR4444;
   DRM_FORMAT_RGBX4444; DRM_FORMAT_BGRX4444; DRM_FORMAT_ARGB4444; DRM_FORMAT_ABGR4444; DRM_FORMAT_RGBA4444;
   DRM_FORMAT_BGRA4444; DRM_FORMAT_XRGB1555; DRM_FORMAT_XBGR1555; DRM_FORMAT_RGBX5551; DRM_FORMAT_BGRX5551;
   DRM_FORMAT_ARGB1555; DRM_FORMAT_ABGR1555; DRM_FORMAT_RGBA5551; DRM_FORMAT_BGRA5551; DRM_FORMAT_RGB565;
   DRM_FORMAT_BGR565; DRM_FORMAT_RGB888; DRM_FORMAT_BGR888; DRM_FORMAT_XRGB8888; DRM_FORMAT_XBGR8888;
   DRM_FORMAT_RGBX8888; DRM_FORMAT_BGRX8888; DRM_FORMAT_ARGB8888; DRM_FORMAT_ABGR8888; DRM_FORMAT_RGBA8888;
   DRM_FORMAT_BGRA8888; DRM_FORMAT_XRGB2101010; DRM_FORMAT_XBGR2101010; DRM_FORMAT_RGBX1010102;
   DRM_FORMAT_BGRX1010102; DRM_FORMAT_ARGB2101010; DRM_FORMAT_ABGR2101010; DRM_FORMAT_RGBA1010102;
   DRM_FORMAT_BGRA1010102; DRM_FORMAT_YUYV; DRM_FORMAT_YVYU; DRM_FORMAT_UYVY; DRM_FORMAT_VYUY;
   DRM_FORMAT_AYUV; DRM_FORMAT_NV12; DRM_FORMAT_NV21; DRM_FORMAT_NV16; DRM_FORMAT_NV61; DRM_FORMAT_NV24;
   DRM_FORMAT_NV42; DRM_FORMAT_YUV410; DRM_FORMAT_YVU410; DRM_FORMAT_YUV411; DRM_FORMAT_YVU411;
   DRM_FORMAT_YUV420; DRM_FORMAT_YVU420; DRM_FORMAT_YUV422; DRM_FORMAT_YVU422; DRM_FORMAT_YUV444;
   DRM_FORMAT_YVU444].

Lemma formats_all f : f ∈ formats.
Proof. destruct f; apply (bool_decide_unpack _); vm_compute; exact I. Qed.

(** The numbers the source uses for the formats. *)
Class Fourcc := {
  fourcc : drm_format → Z;
  fourcc_inj : Inj (=) (=) fourcc;
  fourcc_range f : 0 <= fourcc f < 2 ^ 31;
}.

Definition DRM_FORMAT_BIG_ENDIAN : Z := 2 ^ 31.
Definition UINT_MAX : Z := 2 ^ 32 - 1.

(** [struct drm_mode_fb_cmd2]. *)
Record drm_mode_fb_cmd2 := mk_fb_cmd2 {
  fbc_width : Z; fbc_height : Z; pixel_format : Z; fbc_flags : Z;
  handles : list Z; pitches : list Z; offsets : list Z;
}.

Section Formats.
Context `{Fourcc}.

(** [switch (format)]: the case it takes, [None] for the default. *)
Definition format_case (format : Z) : option drm_format :=
  list_find (λ f, fourcc f = format) formats ≫= λ p, Some p.2.

(** [format & ~DRM_FORMAT_BIG_ENDIAN]. *)
Definition little_endian (format : Z) : Z := Z.land format (Z.lnot DRM_FORMAT_BIG_ENDIAN).

(** The depth and the bits per pixel. *)
Definition drm_fb_get_bpp_depth (format : Z) : Z * Z :=
  match format_case format with
  | Some (DRM_FORMAT_C8 | DRM_FORMAT_RGB332 | DRM_FORMAT_BGR233) => (8, 8)
  | Some (DRM_FORMAT_XRGB1555 | DRM_FORMAT_XBGR1555 | DRM_FORMAT_RGBX5551 | DRM_FORMAT_BGRX5551
      | DRM_FORMAT_ARGB1555 | DRM_FORMAT_ABGR1555 | DRM_FORMAT_RGBA5551 | DRM_FORMAT_BGRA5551) => (15, 16)
  | Some (DRM_FORMAT_RGB565 | DRM_FORMAT_BGR565) => (16, 16)
  | Some (DRM_FORMAT_RGB888 | DRM_FORMAT_BGR888) => (24, 24)
  | Some (DRM_FORMAT_XRGB8888 | DRM_FORMAT_XBGR8888 | DRM_FORMAT_RGBX8888 | DRM_FORMAT_BGRX8888) => (24, 32)
  | Some (DRM_FORMAT_XRGB2101010 | DRM_FORMAT_XBGR2101010 | DRM_FORMAT_RGBX1010102 | DRM_FORMAT_BGRX1010102
      | DRM_FORMAT_ARGB2101010 | DRM_FORMAT_ABGR2101010 | DRM_FORMAT_RGBA1010102 | DRM_FORMAT_BGRA1010102) => (30, 32)
  | Some (DRM_FORMAT_ARGB8888 | DRM_FORMAT_ABGR8888 | DRM_FORMAT_RGBA8888 | DRM_FORMAT_BGRA8888) => (32, 32)
  | _ => (0, 0)
  end.

Definition drm_format_num_planes (format : Z) : Z :=
  match format_case format with
  | Some (DRM_FORMAT_YUV410 | DRM_FORMAT_YVU410 | DRM_FORMAT_YUV411 | DRM_FORMAT_YVU411 | DRM_FORMAT_YUV420
      | DRM_FORMAT_YVU420 | DRM_FORMAT_YUV422 | DRM_FORMAT_YVU422 | DRM_FORMAT_YUV444 | DRM_FORMAT_YVU444) => 3
  | Some (DRM_FORMAT_NV12 | DRM_FORMAT_NV21 | DRM_FORMAT_NV16 | DRM_FORMAT_NV61 | DRM_FORMAT_NV24
      | DRM_FORMAT_NV42) => 2
  | _ => 1
  end.

Definition drm_format_plane_cpp (format plane : Z) : Z :=
  if drm_format_num_planes format <=? plane then 0 else
  match format_case format with
  | Some (DRM_FORMAT_YUYV | DRM_FORMAT_YVYU | DRM_FORMAT_UYVY | DRM_FORMAT_VYUY) => 2
  | Some (DRM_FORMAT_NV12 | DRM_FORMAT_NV21 | DRM_FORMAT_NV16 | DRM_FORMAT_NV61 | DRM_FORMAT_NV24
      | DRM_FORMAT_NV42) => if z2b plane then 2 else 1
  | Some (DRM_FORMAT_YUV410 | DRM_FORMAT_YVU410 | DRM_FORMAT_YUV411 | DRM_FORMAT_YVU411 | DRM_FORMAT_YUV420
      | DRM_FORMAT_YVU420 | DRM_FORMAT_YUV422 | DRM_FORMAT_YVU422 | DRM_FORMAT_YUV444 | DRM_FORMAT_YVU444) => 1
  | _ => let '(depth, bpp) := drm_fb_get_bpp_depth format in Z.shiftr bpp 3
  end.

Definition drm_format_horz_chroma_subsampling (format : Z) : Z :=
  match format_case format with
  | Some (DRM_FORMAT_YUV411 | DRM_FORMAT_YVU411 | DRM_FORMAT_YUV410 | DRM_FORMAT_YVU410) => 4
  | Some (DRM_FORMAT_YUYV | DRM_FORMAT_YVYU | DRM_FORMAT_UYVY | DRM_FORMAT_VYUY | DRM_FORMAT_NV12
      | DRM_FORMAT_NV21 | DRM_FORMAT_NV16 | DRM_FORMAT_NV61 | DRM_FORMAT_YUV422 | DRM_FORMAT_YVU422
      | DRM_FORMAT_YUV420 | DRM_FORMAT_YVU420) => 2
  | _ => 1
  end.

Definition drm_format_vert_chroma_subsampling (format : Z) : Z :=
  match format_case format with
  | Some (DRM_FORMAT_YUV410 | DRM_FORMAT_YVU410) => 4
  | Some (DRM_FORMAT_YUV420 | DRM_FORMAT_YVU420 | DRM_FORMAT_NV12 | DRM_FORMAT_NV21) => 2
  | _ => 1
  end.

Definition drm_mode_legacy_fb_format (bpp depth : Z) : Z :=
  fourcc (
    if bpp =? 8 then DRM_FORMAT_C8
    else if bpp =? 16 then if depth =? 15 then DRM_FORMAT_XRGB1555 else DRM_FORMAT_RGB565
    else if bpp =? 24 then DRM_FORMAT_RGB888
    else if bpp =? 32 then
      if depth =? 24 then DRM_FORMAT_XRGB8888
      else if depth =? 30 then DRM_FORMAT_XRGB2101010
      else DRM_FORMAT_ARGB8888
    else DRM_FORMAT_XRGB8888).

(** ** ADDFB2 *)

Definition format_check (r : drm_mode_fb_cmd2) : Z :=
  match format_case (little_endian (pixel_format r)) with Some _ => 0 | None => - EINVAL end.

(** The loop over the planes from [i] on; [None] is an index out of the arrays. *)
Fixpoint check_planes (r : drm_mode_fb_cmd2) (hsub vsub : Z) (n i : nat) : option Z :=
  match n with
  | O => Some 0
  | S n =>
    let width := fbc_width r / (if negb (i =? 0)%nat then hsub else 1) in
    let height := fbc_height r / (if negb (i =? 0)%nat then vsub else 1) in
    let cpp := drm_format_plane_cpp (pixel_format r) (Z.of_nat i) in
    h ← handles r !! i;
    if h =? 0 then Some (- EINVAL) else
    if UINT_MAX <? u64 (width * cpp) then Some (- ERANGE) else
    p ← pitches r !! i; o ← offsets r !! i;
    if UINT_MAX <? u64 (height * p + o) then Some (- ERANGE) else
    if p <? u32 (width * cpp) then Some (- EINVAL) else
    check_planes r hsub vsub n (S i)
  end.

Definition framebuffer_check (r : drm_mode_fb_cmd2) : option Z :=
  let ret := format_check r in
  if z2b ret then Some ret else
  let hsub := drm_format_horz_chroma_subsampling (pixel_format r) in
  let vsub := drm_format_vert_chroma_subsampling (pixel_format r) in
  let num_planes := drm_format_num_planes (pixel_format r) in
  if (fbc_width r =? 0) || z2b (fbc_width r mod hsub) then Some (- EINVAL) else
  if (fbc_height r =? 0) || z2b (fbc_height r mod vsub) then Some (- EINVAL) else
  check_planes r hsub vsub (Z.to_nat num_planes) 0.
End Formats.

(** ** Geometry *)

(** The test of drm_mode_setcrtc and drm_mode_page_flip_ioctl that a viewport of
    [hdisplay] x [vdisplay] at ([x], [y]) leaves the framebuffer: the [int]s are
    converted to [unsigned]. *)
Definition viewport_outside (invert : bool) (hdisplay vdisplay x y width height : Z) : bool :=
  let '(hdisplay, vdisplay) := if invert then (vdisplay, hdisplay) else (hdisplay, vdisplay) in
  (width <? u32 hdisplay) || (height <? u32 vdisplay) ||
  (u32 (width - hdisplay) <? u32 x) || (u32 (height - vdisplay) <? u32 y).

(** The test of drm_mode_setplane on the source rectangle, in 16.16 fixed point. *)
Definition source_outside (width height src_x src_y src_w src_h : Z) : bool :=
  let fb_width := u32 (Z.shiftl width 16) in
  let fb_height := u32 (Z.shiftl height 16) in
  (fb_width <? src_w) || (u32 (fb_width - src_w) <? src_x) ||
  (fb_height <? src_h) || (u32 (fb_height - src_h) <? src_y).

(** Its test on the rectangle on the crtc. *)
Definition dest_overflows (crtc_x crtc_y crtc_w crtc_h : Z) : bool :=
  (INT_MAX <? crtc_w) || (i32 (INT_MAX - i32 crtc_w) <? crtc_x) ||
  (INT_MAX <? crtc_h) || (i32 (INT_MAX - i32 crtc_h) <? crtc_y).

(** ** What the checks mean *)

Definition u32_ok (z : Z) : Prop := 0 <= z <= UINT_MAX.

(** The request is what a C caller can pass. *)
Record cmd_ok (r : drm_mode_fb_cmd2) : Prop := {
  cmd_width : u32_ok (fbc_width r);
  cmd_height : u32_ok (fbc_height r);
  cmd_handles : length (handles r) = 4%nat;
  cmd_pitches : length (pitches r) = 4%nat ∧ Forall u32_ok (pitches r);
  cmd_offsets : length (offsets r) = 4%nat ∧ Forall u32_ok (offsets r);
}.

Lemma u32_ok_u64 z : 0 <= z < 2 ^ 64 → u64 z = z.
Proof. apply u64_id. Qed.

Section Checks.
Context `{Fourcc}.

Lemma format_case_fourcc f : format_case (fourcc f) = Some f.
Proof.
  unfold format_case. destruct (list_find_elem_of (λ g, fourcc g = fourcc f) formats f) as [[i g] Hf]; [apply formats_all|done|].
  rewrite Hf. cbn. apply list_find_Some in Hf as (_ & Hg & _). apply fourcc_inj in Hg. by subst.
Qed.

Lemma format_case_Some z f : format_case z = Some f → z = fourcc f.
Proof.
  unfold format_case. destruct (list_find _ formats) as [[i g]|] eqn:Hf; [|done]. cbn. intros [= ->].
  by apply list_find_Some in Hf as (_ & -> & _).
Qed.

(** A big-endian format is no case of a switch. *)
Lemma format_case_big z : 2 ^ 31 <= z → format_case z = None.
Proof.
  intros Hz. destruct (format_case z) as [f|] eqn:Hf; [|done]. apply format_case_Some in Hf. pose proof (fourcc_range f). lia.
Qed.

Lemma little_endian_id z : 0 <= z < 2 ^ 31 → little_endian z = z.
Proof.
  intros Hz. unfold little_endian, DRM_FORMAT_BIG_ENDIAN. apply Z.bits_inj'. intros n Hn. rewrite Z.land_spec, Z.lnot_spec by done.
  destruct (Z.testbit z n) eqn:Hb; [|done]. cbn. rewrite Z.pow2_bits_false; [done|]. intros <-.
  rewrite Z.bits_above_log2 in Hb; [done|lia|]. destruct (decide (z = 0)) as [->|]; [cbn; lia|]. apply Z.log2_lt_pow2; lia.
Qed.

Lemma little_endian_big z : 0 <= z < 2 ^ 31 → little_endian (z + DRM_FORMAT_BIG_ENDIAN) = z.
Proof.
  intros Hz. rewrite <- (little_endian_id z) at 2 by done. unfold little_endian, DRM_FORMAT_BIG_ENDIAN.
  assert (∀ n, 31 <= n → Z.testbit z n = false) as Hhi.
  { intros n Hn. destruct (decide (z = 0)) as [->|]; [apply Z.testbit_0_l|]. apply Z.bits_above_log2; [lia|].
    apply (Z.lt_le_trans _ 31); [apply Z.log2_lt_pow2; lia|done]. }
  assert (Z.land z (2 ^ 31) = 0) as Hd.
  { apply Z.bits_inj'. intros n Hn. rewrite Z.land_spec, Z.bits_0, Z.pow2_bits_eqb by done.
    destruct (Z.eqb_spec 31 n); [|apply andb_false_r]. by rewrite Hhi by lia. }
  rewrite Z.add_nocarry_lxor by done. apply Z.bits_inj'. intros n Hn.
  rewrite !Z.land_spec, Z.lxor_spec, Z.lnot_spec, Z.pow2_bits_eqb by done. by destruct (Z.eqb_spec 31 n); destruct (Z.testbit z n).
Qed.

Lemma format_no_default f z : z = fourcc f ∨ z = fourcc f + DRM_FORMAT_BIG_ENDIAN → ∀ r, pixel_format r = z → format_check r = 0.
Proof.
  intros Hz r Hr. unfold format_check. rewrite Hr. pose proof (fourcc_range f).
  destruct Hz as [-> | ->]; [rewrite little_endian_id by done|rewrite little_endian_big by done]; by rewrite format_case_fourcc.
Qed.

(** A plane the loop accepts: [w] x [h] pixels of [cpp] bytes. *)
Definition plane_ok r (w h cpp : Z) (i : nat) : Prop :=
  ∃ hd p o, handles r !! i = Some hd ∧ pitches r !! i = Some p ∧ offsets r !! i = Some o ∧
    hd ≠ 0 ∧ w * cpp <= p ∧ h * p + o <= UINT_MAX.

Lemma array_at (l : list Z) i : length l = 4%nat → Forall u32_ok l → (i < 4)%nat → ∃ z, l !! i = Some z ∧ u32_ok z.
Proof.
  intros Hl Hf Hi. destruct (lookup_lt_is_Some_2 l i) as [z Hz]; [lia|]. exists z. split; [done|]. exact (proj1 (Forall_lookup _ _) Hf i z Hz).
Qed.

Definition sub_of (s : Z) (i : nat) : Z := if (i =? 0)%nat then 1 else s.

Lemma sub_of_bounds s i w : 0 < s → 0 <= w <= UINT_MAX → 0 <= w / sub_of s i <= UINT_MAX.
Proof.
  intros Hs Hw. assert (0 < sub_of s i) by (unfold sub_of; destruct (i =? 0)%nat; lia). split; [apply Z.div_pos; lia|].
  apply Z.div_le_upper_bound; nia.
Qed.

(** The loop over the planes, by its rounds. *)
Lemma check_planes_ok r hsub vsub n : cmd_ok r → 0 < hsub → 0 < vsub → ∀ i, (i + n <= 4)%nat →
  (∀ j, 0 <= drm_format_plane_cpp (pixel_format r) j <= 4) →
  ∃ ret, check_planes r hsub vsub n i = Some ret ∧ (ret = 0 ∨ ret = - EINVAL ∨ ret = - ERANGE) ∧
    (ret = 0 ↔ ∀ j, (i <= j < i + n)%nat →
      plane_ok r (fbc_width r / sub_of hsub j) (fbc_height r / sub_of vsub j) (drm_format_plane_cpp (pixel_format r) (Z.of_nat j)) j).
Proof.
  intros Hr Hh Hv i Hn Hcpp. revert i Hn. induction n as [|n IH]; intros i Hn; cbn [check_planes].
  { exists 0. split; [done|]. split; [by left|]. split; [|done]. intros _ j Hj. lia. }
  destruct (lookup_lt_is_Some_2 (handles r) i) as [hd Hhd]; [rewrite (cmd_handles r Hr); lia|]. rewrite Hhd. cbn [mbind option_bind].
  destruct (array_at (pitches r) i) as (p & Hp & Hpb); [apply (cmd_pitches r Hr)..|lia|].
  destruct (array_at (offsets r) i) as (o & Ho & Hob); [apply (cmd_offsets r Hr)..|lia|].
  assert (∀ s : Z, (if negb (i =? 0)%nat then s else 1) = sub_of s i) as Hsub by (intros s; unfold sub_of; by destruct (i =? 0)%nat).
  rewrite !Hsub. clear Hsub. set (w := fbc_width r / sub_of hsub i). set (h := fbc_height r / sub_of vsub i).
  set (cpp := drm_format_plane_cpp _ _).
  assert (0 <= w <= UINT_MAX ∧ 0 <= h <= UINT_MAX) as [Hw Hht].
  { pose proof (cmd_width r Hr). pose proof (cmd_height r Hr). unfold u32_ok in *.
    split; apply sub_of_bounds; done. }
  specialize (Hcpp (Z.of_nat i)). fold cpp in Hcpp. unfold u32_ok, UINT_MAX in *.
  assert (∀ ret, (ret = - EINVAL ∨ ret = - ERANGE) → (¬ plane_ok r w h cpp i) →
    ∃ ret', Some ret = Some ret' ∧ (ret' = 0 ∨ ret' = - EINVAL ∨ ret' = - ERANGE) ∧
    (ret' = 0 ↔ ∀ j, (i <= j < i + S n)%nat → plane_ok r (fbc_width r / sub_of hsub j) (fbc_height r / sub_of vsub j)
      (drm_format_plane_cpp (pixel_format r) (Z.of_nat j)) j)) as Hbad.
  { intros ret Hret Hno. exists ret. split; [done|]. split; [by right|]. split; [by destruct Hret as [-> | ->]|].
    intros Hall. destruct Hno. apply (Hall i). lia. }
  unfold plane_ok in Hbad at 1. unfold UINT_MAX in Hbad.
  destruct (Z.eqb_spec hd 0) as [->|Hd]; [apply Hbad; [by left|]; intros (? & ? & ? & ? & _ & _ & ? & _); by simplify_eq|].
  rewrite u64_id by nia. destruct (Z.ltb_spec (2 ^ 32 - 1) (w * cpp)).
  { apply Hbad; [by right|]. intros (? & ? & ? & ? & ? & _ & ? & ? & _). simplify_eq. lia. }
  rewrite Hp, Ho. cbn [mbind option_bind]. rewrite u64_id by nia. destruct (Z.ltb_spec (2 ^ 32 - 1) (h * p + o)).
  { apply Hbad; [by right|]. intros (? & ? & ? & ? & ? & ? & ? & ? & ?). simplify_eq. lia. }
  rewrite u32_id by nia. destruct (Z.ltb_spec p (w * cpp)).
  { apply Hbad; [by left|]. intros (? & ? & ? & ? & ? & ? & ? & ? & ?). simplify_eq. lia. }
  destruct (IH (S i)) as (ret & -> & Hret & Hiff); [lia|]. exists ret. split; [done|]. split; [done|]. rewrite Hiff. split.
  - intros Hall j Hj. destruct (decide (j = i)) as [->|]; [|apply Hall; lia]. exists hd, p, o. split_and!; done.
  - intros Hall j Hj. apply Hall. lia.
Qed.

Lemma cpp_bounds z j : 0 <= drm_format_plane_cpp z j <= 4.
Proof.
  unfold drm_format_plane_cpp, drm_fb_get_bpp_depth. destruct (_ <=? j); [lia|]. generalize (z2b j). intros [].
  all: destruct (format_case z) as [f|]; [destruct f|]; vm_compute; split; discriminate.
Qed.

Lemma subsampling_pos z : 0 < drm_format_horz_chroma_subsampling z ∧ 0 < drm_format_vert_chroma_subsampling z.
Proof.
  unfold drm_format_horz_chroma_subsampling, drm_format_vert_chroma_subsampling. destruct (format_case z) as [f|]; [|lia].
  destruct f; lia.
Qed.

Lemma planes_bounds z : 1 <= drm_format_num_planes z <= 3.
Proof. unfold drm_format_num_planes. destruct (format_case z) as [f|]; [|lia]. destruct f; lia. Qed.

(** The tests of framebuffer_check, plane by plane. *)
Definition fb_accepts r : Prop :=
  let hsub := drm_format_horz_chroma_subsampling (pixel_format r) in
  let vsub := drm_format_vert_chroma_subsampling (pixel_format r) in
  is_Some (format_case (little_endian (pixel_format r))) ∧
  fbc_width r ≠ 0 ∧ fbc_width r mod hsub = 0 ∧ fbc_height r ≠ 0 ∧ fbc_height r mod vsub = 0 ∧
  ∀ i, (Z.of_nat i < drm_format_num_planes (pixel_format r)) →
    plane_ok r (fbc_width r / sub_of hsub i) (fbc_height r / sub_of vsub i) (drm_format_plane_cpp (pixel_format r) (Z.of_nat i)) i.

Lemma z2b_true z : z2b z = true ↔ z ≠ 0.
Proof. unfold z2b. destruct (Z.eqb_spec z 0); cbn; [by split|by split]. Qed.
Lemma z2b_false z : z2b z = false ↔ z = 0.
Proof. unfold z2b. destruct (Z.eqb_spec z 0); cbn; [by split|by split]. Qed.

Lemma framebuffer_check_run r : cmd_ok r →
  ∃ ret, framebuffer_check r = Some ret ∧ (ret = 0 ∨ ret = - EINVAL ∨ ret = - ERANGE) ∧ (ret = 0 ↔ fb_accepts r).
Proof.
  intros Hr. unfold framebuffer_check, fb_accepts, format_check.
  set (hsub := drm_format_horz_chroma_subsampling _). set (vsub := drm_format_vert_chroma_subsampling _).
  destruct (subsampling_pos (pixel_format r)) as [Hh Hv]. fold hsub in Hh. fold vsub in Hv.
  pose proof (planes_bounds (pixel_format r)) as Hn. set (np := drm_format_num_planes _) in *.
  destruct (format_case (little_endian _)) as [f|]; [|exists (- EINVAL); split_and!; [done|by right; left|]; by split; [|intros ([? ?] & _)]].
  cbn [z2b Z.eqb negb]. change (z2b 0) with false. cbn iota.
  destruct ((fbc_width r =? 0) || z2b (fbc_width r mod hsub)) eqn:Hw.
  { exists (- EINVAL). split; [done|]. split; [by right; left|]. split; [done|]. intros (_ & ? & Hm & _).
    apply orb_true_iff in Hw as [Hw%Z.eqb_eq|Hw%z2b_true]; done. }
  apply orb_false_iff in Hw as [Hw%Z.eqb_neq Hwm%z2b_false].
  destruct ((fbc_height r =? 0) || z2b (fbc_height r mod vsub)) eqn:Hht.
  { exists (- EINVAL). split; [done|]. split; [by right; left|]. split; [done|]. intros (_ & _ & _ & ? & Hm & _).
    apply orb_true_iff in Hht as [Hht%Z.eqb_eq|Hht%z2b_true]; done. }
  apply orb_false_iff in Hht as [Hht%Z.eqb_neq Hhm%z2b_false].
  destruct (check_planes_ok r hsub vsub (Z.to_nat np) Hr Hh Hv 0) as (ret & Hrun & Hret & Hiff);
    [lia|intros; apply cpp_bounds|]. exists ret. split; [done|]. split; [done|]. rewrite Hiff. split.
  - intros Hall. do 5 (split; [done|]). intros i Hi. apply Hall. lia.
  - intros (_ & _ & _ & _ & _ & Hall) i Hi. apply Hall. lia.
Qed.

(** The formats for which drm_format_plane_cpp knows no size. *)
Definition unsized (f : drm_format) : bool :=
  match f with
  | DRM_FORMAT_XRGB4444 | DRM_FORMAT_XBGR4444 | DRM_FORMAT_RGBX4444 | DRM_FORMAT_BGRX4444 | DRM_FORMAT_ARGB4444
  | DRM_FORMAT_ABGR4444 | DRM_FORMAT_RGBA4444 | DRM_FORMAT_BGRA4444 | DRM_FORMAT_AYUV => true
  | _ => false
  end.

Lemma cpp_sized f i : unsized f = false → 0 <= i < drm_format_num_planes (fourcc f) → 0 < drm_format_plane_cpp (fourcc f) i.
Proof.
  unfold drm_format_num_planes, drm_format_plane_cpp, drm_fb_get_bpp_depth, drm_format_num_planes. rewrite !format_case_fourcc.
  intros Hf Hi. rewrite (proj2 (Z.leb_gt _ _)) by lia. generalize (z2b i). clear Hi.
  intros []; destruct f; try discriminate Hf; reflexivity.
Qed.

Lemma sized_no_planes f : unsized f = true →
  drm_format_num_planes (fourcc f) = 1 ∧ drm_format_plane_cpp (fourcc f) 0 = 0 ∧
  drm_format_horz_chroma_subsampling (fourcc f) = 1 ∧ drm_format_vert_chroma_subsampling (fourcc f) = 1.
Proof.
  unfold drm_format_num_planes, drm_format_plane_cpp, drm_fb_get_bpp_depth, drm_format_num_planes,
    drm_format_horz_chroma_subsampling, drm_format_vert_chroma_subsampling. rewrite !format_case_fourcc.
  by destruct f.
Qed.

Lemma big_no_planes z : 2 ^ 31 <= z →
  drm_format_num_planes z = 1 ∧ drm_format_plane_cpp z 0 = 0 ∧
  drm_format_horz_chroma_subsampling z = 1 ∧ drm_format_vert_chroma_subsampling z = 1.
Proof.
  intros Hz. unfold drm_format_num_planes, drm_format_plane_cpp, drm_fb_get_bpp_depth, drm_format_num_planes,
    drm_format_horz_chroma_subsampling, drm_format_vert_chroma_subsampling. by rewrite !format_case_big.
Qed.

(** The first byte of a pixel of a plane. *)
Definition pixel_at (p o cpp x y : Z) : Z := o + y * p + x * cpp.

Lemma pixels_inside w h cpp p o x y : 0 <= o → 0 < cpp → w * cpp <= p → h * p + o <= UINT_MAX → 0 <= x < w → 0 <= y < h →
  o <= pixel_at p o cpp x y ∧ pixel_at p o cpp x y + cpp <= UINT_MAX.
Proof.
  intros Ho Hc Hp Hh Hx Hy. unfold pixel_at. assert ((x + 1) * cpp <= w * cpp) by nia. assert (0 <= p) by nia.
  assert ((y + 1) * p <= h * p) by nia. split; nia.
Qed.

Lemma pixels_disjoint w cpp p o x y x' y' : 0 < cpp → w * cpp <= p → 0 <= x < w → 0 <= x' < w → (x, y) ≠ (x', y') →
  pixel_at p o cpp x y + cpp <= pixel_at p o cpp x' y' ∨ pixel_at p o cpp x' y' + cpp <= pixel_at p o cpp x y.
Proof.
  intros Hc Hp Hx Hx' Hne. unfold pixel_at. destruct (Z.lt_trichotomy y y') as [Hy|[->|Hy]].
  - left. assert ((x + 1) * cpp <= w * cpp) by nia. assert ((y + 1) * p <= y' * p) by nia. nia.
  - destruct (decide (x < x')); [left; nia|]. right. assert (x' < x) by (destruct (decide (x = x')); [congruence|lia]). nia.
  - right. assert ((x' + 1) * cpp <= w * cpp) by nia. assert ((y' + 1) * p <= y * p) by nia. nia.
Qed.

(** C37 (framebuffer_check_correct): framebuffer_check always returns 0, -EINVAL or
    -ERANGE, and 0 exactly when the format is known, the size divides by its
    subsampling and every plane has a buffer, a pitch and an offset that pass.
    Then, for a little-endian format whose size it knows, the pixels of every
    plane take up distinct bytes, none beyond 2^32 - 1. *)
Theorem framebuffer_check_correct r : cmd_ok r →
  ∃ ret, framebuffer_check r = Some ret ∧ (ret = 0 ∨ ret = - EINVAL ∨ ret = - ERANGE) ∧ (ret = 0 ↔ fb_accepts r) ∧
    ∀ f, ret = 0 → pixel_format r = fourcc f → unsized f = false →
    ∀ i, Z.of_nat i < drm_format_num_planes (fourcc f) → ∃ p o,
      pitches r !! i = Some p ∧ offsets r !! i = Some o ∧
      let w := fbc_width r / sub_of (drm_format_horz_chroma_subsampling (fourcc f)) i in
      let h := fbc_height r / sub_of (drm_format_vert_chroma_subsampling (fourcc f)) i in
      let cpp := drm_format_plane_cpp (fourcc f) (Z.of_nat i) in
      ∀ x y, 0 <= x < w → 0 <= y < h →
        (o <= pixel_at p o cpp x y ∧ pixel_at p o cpp x y + cpp <= UINT_MAX) ∧
        ∀ x' y', 0 <= x' < w → 0 <= y' < h → (x, y) ≠ (x', y') →
          pixel_at p o cpp x y + cpp <= pixel_at p o cpp x' y' ∨ pixel_at p o cpp x' y' + cpp <= pixel_at p o cpp x y.
Proof.
  intros Hr. destruct (framebuffer_check_run r Hr) as (ret & Hrun & Hret & Hiff). exists ret. do 3 (split; [done|]).
  intros f Hz Hf Hs i Hi. apply Hiff in Hz as (_ & _ & _ & _ & _ & Hall). rewrite Hf in Hall.
  destruct (Hall i Hi) as (hd & p & o & _ & Hp & Ho & _ & Hw & Hh). exists p, o. split; [done|]. split; [done|].
  pose proof (cpp_sized f (Z.of_nat i) Hs ltac:(lia)) as Hc.
  assert (0 <= o) by (apply (proj1 (Forall_lookup _ _) (proj2 (cmd_offsets r Hr)) i o Ho)).
  intros w h cpp x y Hx Hy. split; [by apply (pixels_inside w h)|]. intros x' y' Hx' _ Hne. by apply (pixels_disjoint w).
Qed.

(** For the nine formats of which
    drm_fb_get_bpp_depth knows no size, and for every format with
    DRM_FORMAT_BIG_ENDIAN, which format_check takes off and the other functions do
    not, framebuffer_check accepts any width with any pitch, even 0, and looks at
    the first plane only. *)
Theorem framebuffer_check_blind r f p o hd : cmd_ok r →
  (unsized f = true ∧ pixel_format r = fourcc f ∨ pixel_format r = fourcc f + DRM_FORMAT_BIG_ENDIAN) →
  fbc_width r ≠ 0 → fbc_height r ≠ 0 → handles r !! 0%nat = Some hd → hd ≠ 0 →
  pitches r !! 0%nat = Some p → offsets r !! 0%nat = Some o → fbc_height r * p + o <= UINT_MAX →
  framebuffer_check r = Some 0.
Proof.
  intros Hr Hf Hw Hh Hhd Hne Hp Ho Hb. destruct (framebuffer_check_run r Hr) as (ret & Hrun & _ & Hiff). rewrite Hrun. f_equal.
  apply Hiff. unfold fb_accepts.
  assert (drm_format_num_planes (pixel_format r) = 1 ∧ drm_format_plane_cpp (pixel_format r) 0 = 0 ∧
    drm_format_horz_chroma_subsampling (pixel_format r) = 1 ∧ drm_format_vert_chroma_subsampling (pixel_format r) = 1) as (-> & Hcpp & -> & ->).
  { destruct Hf as [[Hu ->] | ->]; [by apply sized_no_planes|]. apply big_no_planes. pose proof (fourcc_range f).
    unfold DRM_FORMAT_BIG_ENDIAN. lia. }
  split. { pose proof (fourcc_range f). destruct Hf as [[_ ->] | ->]; [rewrite little_endian_id by done|rewrite little_endian_big by done];
    rewrite format_case_fourcc; by eexists. }
  rewrite !Z.mod_1_r. do 4 (split; [done|]). intros i Hi. assert (i = 0%nat) as -> by lia. change (Z.of_nat 0) with 0. rewrite Hcpp.
  exists hd, p, o. unfold sub_of. cbn [Nat.eqb]. rewrite !Z.div_1_r. split_and!; try done.
  assert (0 <= p) by (apply (proj1 (Forall_lookup _ _) (proj2 (cmd_pitches r Hr)) _ _ Hp)). lia.
Qed.

(** The depth and bits per pixel of an ADDFB request survive the translation. *)
Lemma legacy_format_roundtrip bpp depth :
  (bpp, depth) ∈ [(8, 8); (16, 15); (16, 16); (24, 24); (32, 24); (32, 30); (32, 32)] →
  drm_fb_get_bpp_depth (drm_mode_legacy_fb_format bpp depth) = (depth, bpp).
Proof.
  intros Hin. repeat (apply elem_of_cons in Hin as [[= -> ->]|Hin]);
    [unfold drm_mode_legacy_fb_format, drm_fb_get_bpp_depth; cbn [Z.eqb Pos.eqb]; rewrite format_case_fourcc; reflexivity..|by apply not_elem_of_nil in Hin].
Qed.
End Checks.

Lemma u32_le z : 0 <= z → 0 <= u32 z < 2 ^ 32 ∧ u32 z <= z.
Proof. intros Hz. split; [apply (wrap_range 32); lia|]. unfold u32, wrap. apply Z.mod_le; lia. Qed.

(** For framebuffers and modes of any size the
    conversions of the three tests lose nothing that matters: a viewport passes
    just when it lies inside the framebuffer, a source rectangle that passes lies
    inside even when the size times 65536 wraps (and below 65536 the test is
    exact), and a rectangle passes on a crtc just when its right and lower edges
    are C integers. *)
Theorem geometry_tests_exact invert hd vd x y w h sx sy sw sh cx cy cw ch :
  0 <= hd <= INT_MAX → 0 <= vd <= INT_MAX → u32_ok x → u32_ok y → u32_ok w → u32_ok h →
  u32_ok sx → u32_ok sy → u32_ok sw → u32_ok sh → INT_MIN <= cx <= INT_MAX → INT_MIN <= cy <= INT_MAX → u32_ok cw → u32_ok ch →
  (viewport_outside invert hd vd x y w h = false ↔
    let '(hd, vd) := if invert then (vd, hd) else (hd, vd) in x + hd <= w ∧ y + vd <= h) ∧
  (source_outside w h sx sy sw sh = false → sx + sw <= w * 2 ^ 16 ∧ sy + sh <= h * 2 ^ 16) ∧
  (w < 2 ^ 16 → h < 2 ^ 16 → sx + sw <= w * 2 ^ 16 → sy + sh <= h * 2 ^ 16 → source_outside w h sx sy sw sh = false) ∧
  (dest_overflows cx cy cw ch = false ↔ cw <= INT_MAX ∧ ch <= INT_MAX ∧ cx + cw <= INT_MAX ∧ cy + ch <= INT_MAX).
Proof.
  unfold u32_ok, UINT_MAX, INT_MAX, INT_MIN. intros. split_and!.
  - unfold viewport_outside. destruct invert; (split; [intros Hf; bool_to_Z|intros [? ?]]).
    all: rewrite ?(u32_id hd), ?(u32_id vd), ?(u32_id x), ?(u32_id y) in * by lia.
    all: repeat match goal with
      | H : context [u32 (?a - ?b)] |- _ => rewrite (u32_id (a - b)) in H by lia
      | |- context [u32 (?a - ?b)] => rewrite (u32_id (a - b)) by lia
      end.
    1,3: lia.
    all: by repeat (rewrite (proj2 (Z.ltb_ge _ _)) by lia).
  - unfold source_outside. intros Hf. bool_to_Z. rewrite !Z.shiftl_mul_pow2 in * by lia.
    pose proof (u32_le (w * 2 ^ 16) ltac:(lia)). pose proof (u32_le (h * 2 ^ 16) ltac:(lia)).
    repeat match goal with H : context [u32 (?a - ?b)] |- _ => rewrite (u32_id (a - b)) in H by lia end. lia.
  - intros ????. unfold source_outside. rewrite !Z.shiftl_mul_pow2 by lia. rewrite (u32_id (w * 2 ^ 16)), (u32_id (h * 2 ^ 16)) by lia.
    rewrite !u32_id by lia. by repeat (rewrite (proj2 (Z.ltb_ge _ _)) by lia).
  - unfold dest_overflows, INT_MAX. split; [intros Hf; bool_to_Z|intros (? & ? & ? & ?)].
    + rewrite !(i32_id cw), !(i32_id ch) in * by (unfold INT_MIN, INT_MAX; lia).
      rewrite !i32_id in * by (unfold INT_MIN, INT_MAX; lia). lia.
    + rewrite !(i32_id cw), !(i32_id ch) by (unfold INT_MIN, INT_MAX; lia).
      rewrite !i32_id by (unfold INT_MIN, INT_MAX; lia). by repeat (rewrite (proj2 (Z.ltb_ge _ _)) by lia).
Qed.

(** ** The documented codes *)

(** Four characters, the first in the low byte. *)
Definition fourcc_code (s : string) : Z :=
  match s with
  | String a (String b (String c (String d EmptyString))) =>
    let n (ch : ascii) := Z.of_nat (nat_of_ascii ch) in n a + 256 * (n b + 256 * (n c + 256 * n d))
  | _ => 0
  end.

Definition documented_code (f : drm_format) : Z :=
  match f with
  | DRM_FORMAT_C8 => fourcc_code "C8  "%string | DRM_FORMAT_RGB332 => fourcc_code "RGB8"%string |
  DRM_FORMAT_BGR233 => fourcc_code "BGR8"%string | DRM_FORMAT_XRGB4444 => fourcc_code "XR12"%string |
  DRM_FORMAT_XBGR4444 => fourcc_code "XB12"%string | DRM_FORMAT_RGBX4444 => fourcc_code "RX12"%string |
  DRM_FORMAT_BGRX4444 => fourcc_code "BX12"%string | DRM_FORMAT_ARGB4444 => fourcc_code "AR12"%string |
  DRM_FORMAT_ABGR4444 => fourcc_code "AB12"%string | DRM_FORMAT_RGBA4444 => fourcc_code "RA12"%string |
  DRM_FORMAT_BGRA4444 => fourcc_code "BA12"%string | DRM_FORMAT_XRGB1555 => fourcc_code "XR15"%string |
  DRM_FORMAT_XBGR1555 => fourcc_code "XB15"%string | DRM_FORMAT_RGBX5551 => fourcc_code "RX15"%string |
  DRM_FORMAT_BGRX5551 => fourcc_code "BX15"%string | DRM_FORMAT_ARGB1555 => fourcc_code "AR15"%string |
  DRM_FORMAT_ABGR1555 => fourcc_code "AB15"%string | DRM_FORMAT_RGBA5551 => fourcc_code "RA15"%string |
  DRM_FORMAT_BGRA5551 => fourcc_code "BA15"%string | DRM_FORMAT_RGB565 => fourcc_code "RG16"%string |
  DRM_FORMAT_BGR565 => fourcc_code "BG16"%string | DRM_FORMAT_RGB888 => fourcc_code "RG24"%string |
  DRM_FORMAT_BGR888 => fourcc_code "BG24"%string | DRM_FORMAT_XRGB8888 => fourcc_code "XR24"%string |
  DRM_FORMAT_XBGR8888 => fourcc_code "XB24"%string | DRM_FORMAT_RGBX8888 => fourcc_code "RX24"%string |
  DRM_FORMAT_BGRX8888 => fourcc_code "BX24"%string | DRM_FORMAT_ARGB8888 => fourcc_code "AR24"%string |
  DRM_FORMAT_ABGR8888 => fourcc_code "AB24"%string | DRM_FORMAT_RGBA8888 => fourcc_code "RA24"%string |
  DRM_FORMAT_BGRA8888 => fourcc_code "BA24"%string | DRM_FORMAT_XRGB2101010 => fourcc_code "XR30"%string |
  DRM_FORMAT_XBGR2101010 => fourcc_code "XB30"%string | DRM_FORMAT_RGBX1010102 => fourcc_code "RX30"%string
  | DRM_FORMAT_BGRX1010102 => fourcc_code "BX30"%string | DRM_FORMAT_ARGB2101010 => fourcc_code
  "AR30"%string | DRM_FORMAT_ABGR2101010 => fourcc_code "AB30"%string | DRM_FORMAT_RGBA1010102 =>
  fourcc_code "RA30"%string | DRM_FORMAT_BGRA1010102 => fourcc_code "BA30"%string | DRM_FORMAT_YUYV =>
  fourcc_code "YUYV"%string | DRM_FORMAT_YVYU => fourcc_code "YVYU"%string | DRM_FORMAT_UYVY => fourcc_code
  "UYVY"%string | DRM_FORMAT_VYUY => fourcc_code "VYUY"%string | DRM_FORMAT_AYUV => fourcc_code
  "AYUV"%string | DRM_FORMAT_NV12 => fourcc_code "NV12"%string | DRM_FORMAT_NV21 => fourcc_code
  "NV21"%string | DRM_FORMAT_NV16 => fourcc_code "NV16"%string | DRM_FORMAT_NV61 => fourcc_code
  "NV61"%string | DRM_FORMAT_NV24 => fourcc_code "NV24"%string | DRM_FORMAT_NV42 => fourcc_code
  "NV42"%string | DRM_FORMAT_YUV410 => fourcc_code "YUV9"%string | DRM_FORMAT_YVU410 => fourcc_code
  "YVU9"%string | DRM_FORMAT_YUV411 => fourcc_code "YU11"%string | DRM_FORMAT_YVU411 => fourcc_code
  "YV11"%string | DRM_FORMAT_YUV420 => fourcc_code "YU12"%string | DRM_FORMAT_YVU420 => fourcc_code
  "YV12"%string | DRM_FORMAT_YUV422 => fourcc_code "YU16"%string | DRM_FORMAT_YVU422 => fourcc_code
  "YV16"%string | DRM_FORMAT_YUV444 => fourcc_code "YU24"%string | DRM_FORMAT_YVU444 => fourcc_code
  "YV24"%string
  end.

Lemma documented_distinct : NoDup (documented_code <$> formats).
Proof. apply (bool_decide_unpack _). vm_compute. exact I. Qed.

#[local] Program Instance documented : Fourcc := {| fourcc := documented_code |}.
Next Obligation.
  intros f g Hfg. pose proof (formats_all f) as Hf. pose proof (formats_all g) as Hg.
  apply list_elem_of_lookup in Hf as [i Hi], Hg as [j Hj].
  assert (i = j) as ->; [|by simplify_eq]. apply (NoDup_lookup _ i j (documented_code f) documented_distinct);
    rewrite list_lookup_fmap; [by rewrite Hi|by rewrite Hj, Hfg].
Qed.
Next Obligation. intros f. destruct f; vm_compute; split; discriminate || reflexivity. Qed.

(** An NV12 image of 640 x 480. *)
Definition demo_nv12 : drm_mode_fb_cmd2 :=
  mk_fb_cmd2 640 480 (fourcc DRM_FORMAT_NV12) 0 [1; 1; 0; 0] [640; 640; 0; 0] [0; 307200; 0; 0].

Definition demo_blind : drm_mode_fb_cmd2 :=
  mk_fb_cmd2 4096 4096 (fourcc DRM_FORMAT_XRGB8888 + DRM_FORMAT_BIG_ENDIAN) 0 [1; 0; 0; 0] [0; 0; 0; 0] [0; 0; 0; 0].

Ltac check_cmd := split; cbn; repeat split; try (unfold u32_ok, UINT_MAX; lia); repeat constructor; unfold UINT_MAX; lia.

Lemma framebuffer_check_correct_witness : cmd_ok demo_nv12 ∧ framebuffer_check demo_nv12 = Some 0 ∧
  ∃ ret, framebuffer_check demo_nv12 = Some ret ∧ (ret = 0 ↔ fb_accepts demo_nv12).
Proof.
  assert (cmd_ok demo_nv12) as Hc by check_cmd. split; [exact Hc|]. split; [vm_compute; reflexivity|].
  destruct (framebuffer_check_correct demo_nv12 Hc) as (ret & Hr & _ & Hiff & _). exists ret. split; [exact Hr|exact Hiff].
Defined.

Lemma framebuffer_check_blind_witness : cmd_ok demo_blind ∧ framebuffer_check demo_blind = Some 0.
Proof.
  assert (cmd_ok demo_blind) as Hc by check_cmd. split; [exact Hc|].
  apply (framebuffer_check_blind demo_blind DRM_FORMAT_XRGB8888 0 0 1 Hc); [right; reflexivity|discriminate|discriminate|reflexivity|
    discriminate|reflexivity|reflexivity|vm_compute; discriminate].
Defined.

Lemma geometry_tests_exact_witness :
  viewport_outside false 1024 768 0 0 1024 768 = false ∧ viewport_outside true 1024 768 0 0 1024 768 = true ∧
  (source_outside 1024 768 0 0 67108864 50331648 = false → 0 + 67108864 <= 1024 * 2 ^ 16 ∧ 0 + 50331648 <= 768 * 2 ^ 16).
Proof.
  split; [reflexivity|]. split; [reflexivity|].
  apply (geometry_tests_exact false 1024 768 0 0 1024 768 0 0 67108864 50331648 0 0 1024 768);
    unfold u32_ok, UINT_MAX, INT_MAX, INT_MIN; lia.
Defined.
