(* ===== verification/Vblank.v ===== *)
(** * drm_irq.c: vertical blanking

    The vblank counters, their references, the wait ioctl and the events sent to
    files, with the parts of drm_fops.c that read and release those events.  A
    function that runs under the locks of the device is one step of [M vdev];
    drm_wait_vblank is two steps, before and after it sleeps.  The driver and
    its hardware are the interface [VblankDriver].  The theorems: references are
    exactly the pending events, sleepers, drivers and mode sets in progress, so
    the [BUG_ON] of drm_vblank_put never fires, and a file's event space is
    accounted for; what an interrupt counts and delivers; how far the counter
    advances when interrupts were off; and that the lock-free reader gets a
    timestamp that belongs to its count. *)

From stdpp Require Import base option list gmap.
From Stdlib Require Import ZArith Lia.
From S2P Require Import Prelude.

(** ** Constants and interfaces *)

Record timeval := mk_tv { tv_sec : Z; tv_usec : Z }.

(** The names of drm.h, which is not part of the repository. *)
Class DrmVblankH := {
  _DRM_VBLANK_ABSOLUTE : Z;
  _DRM_VBLANK_RELATIVE : Z;
  _DRM_VBLANK_TYPES_MASK : Z;
  _DRM_VBLANK_FLAGS_MASK : Z;
  _DRM_VBLANK_HIGH_CRTC_MASK : Z;
  _DRM_VBLANK_HIGH_CRTC_SHIFT : Z;
  _DRM_VBLANK_EVENT : Z;
  _DRM_VBLANK_NEXTONMISS : Z;
  _DRM_VBLANK_SECONDARY : Z;
  _DRM_VBLANK_SIGNAL : Z;
  _DRM_PRE_MODESET : Z;
  _DRM_POST_MODESET : Z;
  (** [sizeof (struct drm_event_vblank)]. *)
  sizeof_event : Z;
  sizeof_event_pos : 0 < sizeof_event;
}.

(** The driver's callbacks on its state [A], the clock, and timeval_to_ns, which
    drm_linux.h builds from kernel macros; get_vblank_timestamp is optional. *)
Class VblankDriver (A : Type) := {
  get_vblank_counter : A → Z → Z * A;
  get_vblank_timestamp : option (A → Z → Z → Z → Z * timeval * A);
  enable_vblank : A → Z → Z * A;
  disable_vblank : A → Z → A;
  do_gettimeofday : A → timeval * A;
  timeval_to_ns : timeval → Z;
}.

Definition DRM_TIMESTAMP_MAXRETRIES : nat := 3.
Definition DRM_REDUNDANT_VBLIRQ_THRESH_NS : Z := 1000000.
Definition DRM_VBLANKTIME_RBSIZE : Z := 2.
Definition DRM_CALLED_FROM_VBLIRQ : Z := 1.

(** ** State *)

(** The entries of the arrays of [struct drm_device] for one crtc. *)
Record crtc_state := mk_cs {
  _vblank_count : Z;
  vblank_refcount : Z;
  vblank_enabled : bool;
  last_vblank : Z;
  last_vblank_wait : Z;
  vblank_inmodeset : Z;
  _vblank_time : timeval * timeval;
}.

(** [struct drm_pending_vblank_event]; [file_priv] identifies the file. *)
Record pending_event := mk_pe {
  pipe : Z;
  sequence : Z;
  ev_time : timeval;
  user_data : Z;
  file_priv : positive;
  ev_length : Z;
}.

(** The events of [struct drm_file]. *)
Record vfile := mk_vfile { event_list : list pending_event; event_space : Z }.

Record vdev (A : Type) := mk_vdev {
  hw : A;
  crtcs : list crtc_state;
  vblank_event_list : list pending_event;
  files : gmap positive vfile;
  irq_enabled : bool;
  vblank_disable_allowed : bool;
  max_vblank_count : Z;
  (** the disable timer is pending *)
  timer : bool;
}.
Arguments mk_vdev {_} _ _ _ _ _ _ _ _.
Arguments hw {_} _.
Arguments crtcs {_} _.
Arguments vblank_event_list {_} _.
Arguments files {_} _.
Arguments irq_enabled {_} _.
Arguments vblank_disable_allowed {_} _.
Arguments max_vblank_count {_} _.
Arguments timer {_} _.

Definition set_count (n : Z) (c : crtc_state) : crtc_state :=
  mk_cs n (vblank_refcount c) (vblank_enabled c) (last_vblank c) (last_vblank_wait c) (vblank_inmodeset c) (_vblank_time c).
Definition set_refcount (n : Z) (c : crtc_state) : crtc_state :=
  mk_cs (_vblank_count c) n (vblank_enabled c) (last_vblank c) (last_vblank_wait c) (vblank_inmodeset c) (_vblank_time c).
Definition set_enabled (b : bool) (c : crtc_state) : crtc_state :=
  mk_cs (_vblank_count c) (vblank_refcount c) b (last_vblank c) (last_vblank_wait c) (vblank_inmodeset c) (_vblank_time c).
Definition set_last (n : Z) (c : crtc_state) : crtc_state :=
  mk_cs (_vblank_count c) (vblank_refcount c) (vblank_enabled c) n (last_vblank_wait c) (vblank_inmodeset c) (_vblank_time c).
Definition set_last_wait (n : Z) (c : crtc_state) : crtc_state :=
  mk_cs (_vblank_count c) (vblank_refcount c) (vblank_enabled c) (last_vblank c) n (vblank_inmodeset c) (_vblank_time c).
Definition set_inmodeset (n : Z) (c : crtc_state) : crtc_state :=
  mk_cs (_vblank_count c) (vblank_refcount c) (vblank_enabled c) (last_vblank c) (last_vblank_wait c) n (_vblank_time c).
Definition set_times (t : timeval * timeval) (c : crtc_state) : crtc_state :=
  mk_cs (_vblank_count c) (vblank_refcount c) (vblank_enabled c) (last_vblank c) (last_vblank_wait c) (vblank_inmodeset c) t.

(** The slot of [vblanktimestamp(dev, crtc, count)], read and written. *)
Definition vblanktimestamp (count : Z) (c : crtc_state) : timeval :=
  if count mod DRM_VBLANKTIME_RBSIZE =? 0 then (_vblank_time c).1 else (_vblank_time c).2.
Definition set_vblanktimestamp (count : Z) (t : timeval) (c : crtc_state) : crtc_state :=
  if count mod DRM_VBLANKTIME_RBSIZE =? 0 then set_times (t, (_vblank_time c).2) c
  else set_times ((_vblank_time c).1, t) c.

(** [memset(.., -1, ..)] on both slots. *)
Definition clear_vblank_timestamps (c : crtc_state) : crtc_state :=
  set_times (mk_tv (-1) (-1), mk_tv (-1) (-1)) c.

Section Vblank.
Context {A : Type} `{VblankDriver A} `{DrmVblankH}.

(** The tunables of drm_stub.c, and the fuel of the loop that waits for the
    hardware counter to be the same before and after the timestamp query. *)
Variables (drm_vblank_offdelay drm_timestamp_precision : Z) (settle_fuel : nat).

Abbreviation dev := (vdev A).

Definition set_hw (a : A) (d : dev) : dev :=
  mk_vdev a (crtcs d) (vblank_event_list d) (files d) (irq_enabled d) (vblank_disable_allowed d) (max_vblank_count d) (timer d).
Definition set_crtcs (l : list crtc_state) (d : dev) : dev :=
  mk_vdev (hw d) l (vblank_event_list d) (files d) (irq_enabled d) (vblank_disable_allowed d) (max_vblank_count d) (timer d).
Definition set_events (l : list pending_event) (d : dev) : dev :=
  mk_vdev (hw d) (crtcs d) l (files d) (irq_enabled d) (vblank_disable_allowed d) (max_vblank_count d) (timer d).
Definition set_files (m : gmap positive vfile) (d : dev) : dev :=
  mk_vdev (hw d) (crtcs d) (vblank_event_list d) m (irq_enabled d) (vblank_disable_allowed d) (max_vblank_count d) (timer d).
Definition set_irq_enabled (b : bool) (d : dev) : dev :=
  mk_vdev (hw d) (crtcs d) (vblank_event_list d) (files d) b (vblank_disable_allowed d) (max_vblank_count d) (timer d).
Definition set_disable_allowed (b : bool) (d : dev) : dev :=
  mk_vdev (hw d) (crtcs d) (vblank_event_list d) (files d) (irq_enabled d) b (max_vblank_count d) (timer d).
Definition set_timer (b : bool) (d : dev) : dev :=
  mk_vdev (hw d) (crtcs d) (vblank_event_list d) (files d) (irq_enabled d) (vblank_disable_allowed d) (max_vblank_count d) b.

(** A callback on the driver's state. *)
Definition callback {B} (f : A → B * A) : M dev B := λ d,
  let '(b, a) := f (hw d) in Some (b, set_hw a d).

(** The entry of a crtc; an index outside the arrays is a fault. *)
Definition crtc_at (crtc : Z) : M dev crtc_state :=
  reads (λ d, if crtc <? 0 then None else crtcs d !! Z.to_nat crtc).
Definition upd_crtc (crtc : Z) (f : crtc_state → crtc_state) : M dev unit :=
  crtc_at crtc;; modify (λ d, set_crtcs (alter f (Z.to_nat crtc) (crtcs d)) d).
Definition num_crtcs : M dev Z := gets (λ d, Z.of_nat (length (crtcs d))).

(** ** Timestamps and counts *)

(** The result and [*tvblank]. *)
Definition drm_get_last_vbltimestamp (crtc flags : Z) : M dev (Z * timeval) :=
  let max_error := i32 (i32 drm_timestamp_precision * 1000) in
  match get_vblank_timestamp with
  | Some query =>
    if 0 <? max_error then
      '(ret, t) ← callback (λ a, query a crtc max_error flags);
      if 0 <? ret then mret (u32 ret, t)
      else t ← callback do_gettimeofday; mret (0, t)
    else t ← callback do_gettimeofday; mret (0, t)
  | None => t ← callback do_gettimeofday; mret (0, t)
  end.

Definition read_counter (crtc : Z) : M dev Z := callback (λ a, get_vblank_counter a crtc).

Definition drm_vblank_count (crtc : Z) : M dev Z := c ← crtc_at crtc; mret (_vblank_count c).

(** In one step, so the two reads of the count agree; see the section on the
    lock-free reader below. *)
Definition drm_vblank_count_and_time (crtc : Z) : M dev (Z * timeval) :=
  c ← crtc_at crtc; mret (_vblank_count c, vblanktimestamp (_vblank_count c) c).

(** The loop of vblank_disable_and_save: the last counter, [vblrc], [tvblank]
    and what is left of [count]. *)
Fixpoint save_loop (count : nat) (crtc : Z) : M dev (Z * Z * timeval * nat) :=
  match count with
  | O => fault
  | S count' =>
    last ← read_counter crtc;
    '(vblrc, t) ← drm_get_last_vbltimestamp crtc 0;
    cur ← read_counter crtc;
    if last =? cur then mret (last, vblrc, t, count) else
    if Nat.eqb count' 0 then mret (last, vblrc, t, count') else
    if vblrc =? 0 then mret (last, vblrc, t, count') else save_loop count' crtc
  end.

Definition vblank_disable_and_save (crtc : Z) : M dev unit :=
  modify (λ d, set_hw (disable_vblank (hw d) crtc) d);;
  upd_crtc crtc (set_enabled false);;
  '(last, vblrc, tvblank, count) ← save_loop DRM_TIMESTAMP_MAXRETRIES crtc;
  upd_crtc crtc (set_last (u32 last));;
  let vblrc := if Nat.eqb count 0 then 0 else i32 vblrc in
  c ← crtc_at crtc;
  let vblcount := _vblank_count c in
  let diff_ns := timeval_to_ns tvblank - timeval_to_ns (vblanktimestamp vblcount c) in
  when ((0 <? vblrc) && (1000000 <? Z.abs diff_ns)) (upd_crtc crtc (λ c, set_count (u32 (_vblank_count c + 1)) c));;
  upd_crtc crtc clear_vblank_timestamps.

(** The loop of vblank_disable_fn from the crtc [i] on, [n] of them. *)
Fixpoint disable_from (n : nat) (i : Z) : M dev unit :=
  match n with
  | O => mret tt
  | S n =>
    c ← crtc_at i;
    when ((vblank_refcount c =? 0) && vblank_enabled c) (vblank_disable_and_save i);;
    disable_from n (i + 1)
  end.

(** The disable timer's function. *)
Definition vblank_disable_fn : M dev unit :=
  allowed ← gets vblank_disable_allowed;
  if negb allowed then mret tt else
  n ← num_crtcs; disable_from (Z.to_nat n) 0.

(** The arrays of [num] crtcs; the allocations sleep until they succeed. *)
Definition drm_vblank_init (num : nat) : M dev Z :=
  modify (λ d, set_disable_allowed false
    (set_crtcs (replicate num (mk_cs 0 0 false 0 0 0 (mk_tv 0 0, mk_tv 0 0))) d));;
  mret 0.

Definition drm_vblank_cleanup : M dev unit :=
  n ← num_crtcs;
  if n =? 0 then mret tt else
  modify (set_timer false);; vblank_disable_fn;; modify (set_crtcs []).

(** ** References *)

(** The loop of drm_update_vblank_count: the counter, [rc] and the timestamp. *)
Fixpoint settle (fuel : nat) (crtc : Z) : M dev (Z * Z * timeval) :=
  match fuel with
  | O => fault
  | S fuel =>
    cur_vblank ← read_counter crtc;
    '(rc, t_vblank) ← drm_get_last_vbltimestamp crtc 0;
    again ← read_counter crtc;
    if cur_vblank =? again then mret (u32 cur_vblank, rc, t_vblank) else settle fuel crtc
  end.

(** The vblanks missed between two values of the hardware counter. *)
Definition missed (max cur_vblank last : Z) : Z :=
  let diff := u32 (cur_vblank - last) in
  if cur_vblank <? last then u32 (diff + max) else diff.

Definition drm_update_vblank_count (crtc : Z) : M dev unit :=
  '(cur_vblank, rc, t_vblank) ← settle settle_fuel crtc;
  c ← crtc_at crtc; max ← gets max_vblank_count;
  let diff := missed max cur_vblank (last_vblank c) in
  when (negb (rc =? 0)) (upd_crtc crtc (set_vblanktimestamp (u32 (_vblank_count c + diff)) t_vblank));;
  upd_crtc crtc (λ c, set_count (u32 (_vblank_count c + diff)) c).

Definition drm_vblank_get (crtc : Z) : M dev Z :=
  upd_crtc crtc (λ c, set_refcount (vblank_refcount c + 1) c);;
  c ← crtc_at crtc;
  if vblank_refcount c =? 1 then
    if negb (vblank_enabled c) then
      ret ← callback (λ a, enable_vblank a crtc);
      if z2b ret then upd_crtc crtc (λ c, set_refcount (vblank_refcount c - 1) c);; mret ret
      else upd_crtc crtc (set_enabled true);; drm_update_vblank_count crtc;; mret 0
    else mret 0
  else if negb (vblank_enabled c)
  then upd_crtc crtc (λ c, set_refcount (vblank_refcount c - 1) c);; mret (- EINVAL)
  else mret 0.

Definition drm_vblank_put (crtc : Z) : M dev unit :=
  c ← crtc_at crtc;
  BUG_ON (vblank_refcount c =? 0);;
  upd_crtc crtc (λ c, set_refcount (vblank_refcount c - 1) c);;
  when ((vblank_refcount c - 1 =? 0) && (0 <? drm_vblank_offdelay)) (modify (set_timer true)).

(** ** Events *)

(** The event is linked to the end of its file's list; a file that is gone is a
    fault. *)
Definition send_vblank_event (e : pending_event) (seq : Z) (now : timeval) : M dev unit :=
  f ← reads (λ d, files d !! file_priv e);
  let e := mk_pe (pipe e) (u32 seq) now (user_data e) (file_priv e) (ev_length e) in
  modify (λ d, set_files (<[file_priv e := mk_vfile (event_list f ++ [e]) (event_space f)]> (files d)) d).

(** For drivers: an event of their own, [crtc < 0] when it is tied to none. *)
Definition drm_send_vblank_event (crtc : Z) (e : pending_event) : M dev unit :=
  '(seq, now) ← (if 0 <=? crtc then drm_vblank_count_and_time crtc
                 else now ← callback do_gettimeofday; mret (0, now));
  send_vblank_event (mk_pe crtc (sequence e) (ev_time e) (user_data e) (file_priv e) (ev_length e)) seq now.

(** The loop over the pending events: those that [due] selects are sent, the
    others stay on the list. *)
Fixpoint send_due (due : pending_event → bool) (seq : Z) (now : timeval) (l kept : list pending_event) : M dev unit :=
  match l with
  | [] => mret tt
  | e :: l =>
    if due e then
      modify (set_events (kept ++ l));;
      drm_vblank_put (pipe e);;
      send_vblank_event e seq now;;
      send_due due seq now l kept
    else send_due due seq now l (kept ++ [e])
  end.

Definition send_pending (due : pending_event → bool) (seq : Z) (now : timeval) : M dev unit :=
  l ← gets vblank_event_list; send_due due seq now l [].

Definition drm_vblank_off (crtc : Z) : M dev unit :=
  vblank_disable_and_save crtc;;
  '(seq, now) ← drm_vblank_count_and_time crtc;
  send_pending (λ e, pipe e =? crtc) seq now.

(** The sequence [s] has passed at the count [seq]. *)
Definition seq_passed (seq s : Z) : bool := u32 (seq - s) <=? 8388608.

Definition drm_handle_vblank_events (crtc : Z) : M dev unit :=
  '(seq, now) ← drm_vblank_count_and_time crtc;
  send_pending (λ e, (pipe e =? crtc) && seq_passed seq (sequence e)) seq now.

Definition drm_handle_vblank (crtc : Z) : M dev bool :=
  n ← num_crtcs;
  if n =? 0 then mret false else
  c ← crtc_at crtc;
  if negb (vblank_enabled c) then mret false else
  let vblcount := _vblank_count c in
  '(_, tvblank) ← drm_get_last_vbltimestamp crtc DRM_CALLED_FROM_VBLIRQ;
  let diff_ns := timeval_to_ns tvblank - timeval_to_ns (vblanktimestamp vblcount c) in
  when (DRM_REDUNDANT_VBLIRQ_THRESH_NS <? Z.abs diff_ns)
    (upd_crtc crtc (set_vblanktimestamp (u32 (vblcount + 1)) tvblank);;
     upd_crtc crtc (λ c, set_count (u32 (_vblank_count c + 1)) c));;
  drm_handle_vblank_events crtc;;
  mret true.

(** ** Mode sets *)

Definition drm_vblank_pre_modeset (crtc : Z) : M dev unit :=
  n ← num_crtcs;
  if n =? 0 then mret tt else
  c ← crtc_at crtc;
  if vblank_inmodeset c =? 0 then
    upd_crtc crtc (set_inmodeset 1);;
    ret ← drm_vblank_get crtc;
    when (ret =? 0) (upd_crtc crtc (λ c, set_inmodeset (Z.lor (vblank_inmodeset c) 2) c))
  else mret tt.

Definition drm_vblank_post_modeset (crtc : Z) : M dev unit :=
  n ← num_crtcs;
  if n =? 0 then mret tt else
  c ← crtc_at crtc;
  if negb (vblank_inmodeset c =? 0) then
    modify (set_disable_allowed true);;
    when (z2b (Z.land (vblank_inmodeset c) 2)) (drm_vblank_put crtc);;
    upd_crtc crtc (set_inmodeset 0)
  else mret tt.

(** [modeset]: the crtc (unsigned) and the command; [kms]: DRIVER_MODESET. *)
Definition drm_modeset_ctl (kms : bool) (crtc cmd : Z) : M dev Z :=
  n ← num_crtcs;
  if n =? 0 then mret 0 else
  if kms then mret 0 else
  if n <=? crtc then mret (- EINVAL) else
  if cmd =? _DRM_PRE_MODESET then drm_vblank_pre_modeset crtc;; mret 0 else
  if cmd =? _DRM_POST_MODESET then drm_vblank_post_modeset crtc;; mret 0 else
  mret (- EINVAL).

(** ** The wait ioctl *)

(** [union drm_wait_vblank]; the request and the reply share [wsequence]. *)
Record wait_vblank := mk_wait { wtype : Z; wsequence : Z; wsignal : Z; wtime : timeval }.

Definition set_wseq (n : Z) (w : wait_vblank) : wait_vblank := mk_wait (wtype w) n (wsignal w) (wtime w).

(** [alloc]: whether the event could be allocated. *)
Definition drm_queue_vblank_event (alloc : bool) (crtc : Z) (w : wait_vblank) (file : positive)
    : M dev (Z * wait_vblank) :=
  if negb alloc then drm_vblank_put crtc;; mret (- ENOMEM, w) else
  f ← reads (λ d, files d !! file);
  if event_space f <? sizeof_event then drm_vblank_put crtc;; mret (- EBUSY, w) else
  modify (λ d, set_files (<[file := mk_vfile (event_list f) (event_space f - sizeof_event)]> (files d)) d);;
  '(seq, now) ← drm_vblank_count_and_time crtc;
  let w := if z2b (Z.land (wtype w) _DRM_VBLANK_NEXTONMISS) && seq_passed seq (wsequence w)
           then set_wseq (u32 (seq + 1)) w else w in
  let e := mk_pe crtc (wsequence w) (mk_tv 0 0) (wsignal w) file sizeof_event in
  if seq_passed seq (wsequence w) then
    drm_vblank_put crtc;; send_vblank_event e seq now;; mret (0, set_wseq seq w)
  else
    modify (λ d, set_events (vblank_event_list d ++ [e]) d);; mret (0, w).

(** Where the first part of drm_wait_vblank ends: it returned, or it sleeps
    until the sequence of the request has passed on the crtc. *)
Inductive wait_state :=
  | Returned (ret : Z) (w : wait_vblank)
  | Sleeping (crtc : Z) (w : wait_vblank).

(** [irq]: [dev->pdev->irq]. *)
Definition drm_wait_vblank_begin (irq : Z) (alloc : bool) (w : wait_vblank) (file : positive) : M dev wait_state :=
  enabled ← gets irq_enabled;
  if negb (z2b irq) || negb enabled then mret (Returned (- EINVAL) w) else
  if z2b (Z.land (wtype w) _DRM_VBLANK_SIGNAL) then mret (Returned (- EINVAL) w) else
  if z2b (Z.land (wtype w)
            (Z.lnot (Z.lor (Z.lor _DRM_VBLANK_TYPES_MASK _DRM_VBLANK_FLAGS_MASK) _DRM_VBLANK_HIGH_CRTC_MASK)))
  then mret (Returned (- EINVAL) w) else
  let flags := Z.land (wtype w) _DRM_VBLANK_FLAGS_MASK in
  let high_crtc := Z.land (wtype w) _DRM_VBLANK_HIGH_CRTC_MASK in
  let crtc := if z2b high_crtc then Z.shiftr high_crtc _DRM_VBLANK_HIGH_CRTC_SHIFT
              else if z2b (Z.land flags _DRM_VBLANK_SECONDARY) then 1 else 0 in
  n ← num_crtcs;
  if n <=? crtc then mret (Returned (- EINVAL) w) else
  ret ← drm_vblank_get crtc;
  if z2b ret then mret (Returned ret w) else
  seq ← drm_vblank_count crtc;
  let ty := Z.land (wtype w) _DRM_VBLANK_TYPES_MASK in
  if negb (ty =? _DRM_VBLANK_RELATIVE) && negb (ty =? _DRM_VBLANK_ABSOLUTE)
  then drm_vblank_put crtc;; mret (Returned (- EINVAL) w) else
  let w := if ty =? _DRM_VBLANK_RELATIVE
           then mk_wait (Z.land (wtype w) (Z.lnot _DRM_VBLANK_RELATIVE)) (u32 (wsequence w + seq)) (wsignal w) (wtime w)
           else w in
  if z2b (Z.land flags _DRM_VBLANK_EVENT) then
    '(ret, w) ← drm_queue_vblank_event alloc crtc w file; mret (Returned ret w)
  else
    let w := if z2b (Z.land flags _DRM_VBLANK_NEXTONMISS) && seq_passed seq (wsequence w)
             then set_wseq (u32 (seq + 1)) w else w in
    upd_crtc crtc (set_last_wait (wsequence w));;
    mret (Sleeping crtc w).

(** What DRM_WAIT_ON may leave in [ret]: 0 when the condition holds, else a
    positive error (a timeout or a signal). *)
Definition wait_condition (crtc : Z) (w : wait_vblank) : M dev bool :=
  count ← drm_vblank_count crtc; enabled ← gets irq_enabled;
  mret (seq_passed count (wsequence w) || negb enabled).

(** After the sleep, with its result. *)
Definition drm_wait_vblank_end (ret crtc : Z) (w : wait_vblank) : M dev (Z * wait_vblank) :=
  w ← (if negb (ret =? - EINTR) then
         '(seq, now) ← drm_vblank_count_and_time crtc; mret (mk_wait (wtype w) seq (wsignal w) now)
       else mret w);
  drm_vblank_put crtc;; mret (ret, w).

(** ** Interrupts *)

(** The features and callbacks of the driver that drm_irq_install uses. *)
Record irq_driver := mk_irq {
  have_irq : bool;
  irq : Z;
  dev_private : bool;
  irq_preinstall : A → A;
  install_handler : A → bool * A;
  irq_postinstall : A → Z * A;
  irq_uninstall : A → A;
  uninstall_handler : A → A;
}.

Definition EFAULT : Z := 14.

Definition drm_irq_install (p : irq_driver) : M dev Z :=
  if negb (have_irq p) then mret (- EINVAL) else
  if irq p =? 0 then mret (- EINVAL) else
  if negb (dev_private p) then mret (- EINVAL) else
  enabled ← gets irq_enabled;
  if enabled : bool then mret (- EBUSY) else
  modify (set_irq_enabled true);;
  modify (λ d, set_hw (irq_preinstall p (hw d)) d);;
  ok ← callback (install_handler p);
  if negb ok then modify (set_irq_enabled false);; mret (- EFAULT) else
  ret ← callback (irq_postinstall p);
  if ret <? 0 then modify (set_irq_enabled false);; mret ret else mret 0.

(** The loop of drm_irq_uninstall over the crtcs. *)
Fixpoint stop_crtcs (n : nat) (i : Z) : M dev unit :=
  match n with
  | O => mret tt
  | S n =>
    upd_crtc i (set_enabled false);;
    last ← read_counter i;
    upd_crtc i (set_last (u32 last));;
    stop_crtcs n (i + 1)
  end.

Definition drm_irq_uninstall (p : irq_driver) : M dev Z :=
  if negb (have_irq p) then mret (- EINVAL) else
  enabled ← gets irq_enabled;
  modify (set_irq_enabled false);;
  n ← num_crtcs;
  stop_crtcs (Z.to_nat n) 0;;
  if negb enabled then mret (- EINVAL) else
  modify (λ d, set_hw (uninstall_handler p (irq_uninstall p (hw d))) d);;
  mret 0.

(** ** Files (drm_fops.c) *)

(** A new file may have 4096 bytes of events. *)
Definition open_events (file : positive) : M dev unit :=
  modify (λ d, set_files (<[file := mk_vfile [] 4096]> (files d)) d).

(** The loop over the pending events of a file that is released. *)
Fixpoint drop_pending (file : positive) (l kept : list pending_event) : M dev unit :=
  match l with
  | [] => mret tt
  | v :: l =>
    if bool_decide (file_priv v = file)
    then modify (set_events (kept ++ l));; drm_vblank_put (pipe v);; drop_pending file l kept
    else drop_pending file l (kept ++ [v])
  end.

(** drm_release frees the file soon after. *)
Definition drm_events_release (file : positive) : M dev unit :=
  l ← gets vblank_event_list;
  drop_pending file l [];;
  modify (λ d, set_files (delete file (files d)) d).

(** [total] and [max]: the bytes read so far and the room. *)
Definition drm_dequeue_event (file : positive) (total max : Z) : M dev (option pending_event) :=
  f ← reads (λ d, files d !! file);
  match event_list f with
  | [] => mret None
  | e :: l =>
    if max <? ev_length e + total then mret None else
    modify (λ d, set_files (<[file := mk_vfile l (event_space f + ev_length e)]> (files d)) d);;
    mret (Some e)
  end.

(** The loop of drm_read once there is an event: what is copied to the user, and
    the result; [copied e]: whether uiomove succeeds on [e].  [max] is the
    [iov_len] of the request, which uiomove decreases. *)
Fixpoint read_loop (fuel : nat) (copied : pending_event → bool) (file : positive) (total max : Z)
    : M dev (list pending_event * Z) :=
  match fuel with
  | O => fault
  | S fuel =>
    e ← drm_dequeue_event file total max;
    match e with
    | None => mret ([], total)
    | Some e =>
      if negb (copied e) then mret ([], 0) else
      '(l, total) ← read_loop fuel copied file (total + ev_length e) (max - ev_length e);
      mret (e :: l, total)
    end
  end.

Definition drm_read (copied : pending_event → bool) (file : positive) (max : Z) : M dev (list pending_event * Z) :=
  f ← reads (λ d, files d !! file);
  read_loop (S (length (event_list f))) copied file 0 max.

(** [POLLIN] and [POLLRDNORM] when the list is not empty. *)
Definition drm_poll (pollin pollrdnorm : Z) (file : positive) (events : Z) : M dev Z :=
  f ← reads (λ d, files d !! file);
  match event_list f with
  | [] => mret 0
  | _ => mret (Z.lor (if z2b (Z.land events pollin) then pollin else 0)
                     (if z2b (Z.land events pollrdnorm) then pollrdnorm else 0))
  end.

(** ** Ioctls on the interrupt *)

(** The position of the device on the bus. *)
Record pci_pos := mk_pci { pci_domain : Z; pci_bus : Z; pci_slot : Z; pci_func : Z }.

(** The result and [p->irq]. *)
Definition drm_irq_by_busid (p : irq_driver) (pos : pci_pos) (busnum devnum funcnum old : Z) : Z * Z :=
  if negb (have_irq p) then (- EINVAL, old) else
  if negb (Z.shiftr busnum 8 =? pci_domain pos) || negb (Z.land busnum 255 =? pci_bus pos) ||
     negb (devnum =? pci_slot pos) || negb (funcnum =? pci_func pos) then (- EINVAL, old)
  else (0, irq p).

(** [ctl->func]; [old_if]: the interface version is below 1.2. *)
Inductive control_func := DRM_INST_HANDLER | DRM_UNINST_HANDLER | OtherFunc.

Definition drm_control (p : irq_driver) (kms old_if : bool) (func : control_func) (ctl_irq : Z) : M dev Z :=
  match func with
  | DRM_INST_HANDLER =>
    if negb (have_irq p) then mret 0 else if kms then mret 0 else
    if old_if && negb (ctl_irq =? irq p) then mret (- EINVAL) else drm_irq_install p
  | DRM_UNINST_HANDLER =>
    if negb (have_irq p) then mret 0 else if kms then mret 0 else drm_irq_uninstall p
  | OtherFunc => mret (- EINVAL)
  end.

End Vblank.

(** ** Timestamps from the scanout position *)

(** The durations of a pixel, a line and a frame, in nanoseconds. *)
Record durations := mk_dur { pixeldur_ns : Z; linedur_ns : Z; framedur_ns : Z }.

Definition i64 : Z → Z := swrap 64.

(** From the clock (kHz), the totals and whether the mode is interlaced. *)
Definition drm_calc_timestamping_constants (clk htotal vtotal : Z) (interlaced : bool) : durations :=
  let dotclock := u64 (u64 clk * 1000) in
  let dotclock := if interlaced then u64 (dotclock * 2) else dotclock in
  if 0 <? dotclock then
    let frame_size := i32 (htotal * vtotal) in
    mk_dur (i64 (1000000000 / dotclock)) (i64 (u64 (u64 htotal * 1000000000) / dotclock))
           (i64 (u64 (u64 frame_size * 1000000000) / dotclock))
  else mk_dur 0 0 0.

Definition DRM_SCANOUTPOS_VALID : Z := 1.
Definition DRM_SCANOUTPOS_INVBL : Z := 2.
Definition DRM_VBLANKTIME_SCANOUTPOS_METHOD : Z := 1.
Definition DRM_VBLANKTIME_INVBL : Z := 2.
Definition EIO : Z := 5.

Section Scanout.
Context {A : Type} `{VblankDriver A}.

(** The driver's query: the status, [vpos] and [hpos]; and the conversion of
    nanoseconds, made of kernel macros like its inverse. *)
Variables (get_scanout_position : option (A → Z → Z * Z * Z * A)) (ns_to_timeval : Z → timeval).

(** The loop over the queries, [n] left: [None] when a query fails, else the
    status, the position, the time after the query and its duration. *)
Fixpoint query_scanout (n : nat) (query : A → Z → Z * Z * Z * A) (crtc max_error : Z)
    (last : option (Z * Z * Z * timeval * Z)) (a : A) : option (Z * Z * Z * timeval * Z) * A :=
  match n with
  | O => (last, a)
  | S n =>
    let '(stime, a) := do_gettimeofday a in
    let '(vbl_status, vpos, hpos, a) := query a crtc in
    let '(raw_time, a) := do_gettimeofday a in
    if negb (z2b (Z.land vbl_status DRM_SCANOUTPOS_VALID)) then (None, a) else
    let duration_ns := timeval_to_ns raw_time - timeval_to_ns stime in
    let r := Some (vbl_status, vpos, hpos, raw_time, duration_ns) in
    if duration_ns <=? max_error then (r, a) else query_scanout n query crtc max_error r a
  end.

(** The result, [*max_error] and [*vblank_time] ([None] where they are not
    assigned); [dur], [vtotal] and [vdisplay] are those of [refcrtc]. *)
Definition drm_calc_vbltimestamp_from_scanoutpos (num_crtcs crtc max_error flags : Z)
    (dur : durations) (vtotal vdisplay : Z) (a : A) : Z * option (Z * timeval) * A :=
  if (crtc <? 0) || (num_crtcs <=? crtc) then (- EINVAL, None, a) else
  match get_scanout_position with
  | None => (- EIO, None, a)
  | Some query =>
    if (vtotal <=? 0) || (vdisplay <=? 0) || (framedur_ns dur =? 0) then (- EAGAIN, None, a) else
    match query_scanout DRM_TIMESTAMP_MAXRETRIES query crtc max_error None a with
    | (None, a) => (- EIO, None, a)
    | (Some (vbl_status, vpos, hpos, raw_time, duration_ns), a) =>
      let invbl := z2b (Z.land vbl_status DRM_SCANOUTPOS_INVBL) in
      let delta_ns := i64 (i64 (vpos * linedur_ns dur) + i64 (hpos * pixeldur_ns dur)) in
      let delta_ns :=
        if z2b (Z.land flags DRM_CALLED_FROM_VBLIRQ) && negb invbl &&
           (i32 (vdisplay - vpos) <? Z.quot vtotal 100)
        then i64 (delta_ns - framedur_ns dur) else delta_ns in
      let t := ns_to_timeval (timeval_to_ns raw_time - delta_ns) in
      (if invbl then Z.lor DRM_VBLANKTIME_SCANOUTPOS_METHOD DRM_VBLANKTIME_INVBL
       else DRM_VBLANKTIME_SCANOUTPOS_METHOD, Some (i32 duration_ns, t), a)
    end
  end.
End Scanout.

(** ** The lock-free reader of drm_vblank_count_and_time

    drm_handle_vblank writes the slot of the next count and then increments the
    count; the reader takes no lock, it rereads the count and retries when it
    changed.  One load or store is one step. *)

(** Where the reader is; [n0] counts the interrupts handled when it read [cur]. *)
Inductive reader :=
  | RStart
  | RCount (cur : Z) (n0 : nat)
  | RTime (cur : Z) (vblanktime : timeval) (n0 : nat)
  | RDone (cur : Z) (vblanktime : timeval).

(** [writing]: the timestamp of the interrupt that has written its slot and not
    yet its count; [log]: the timestamps of the counts so far. *)
Record shared := mk_shared {
  entry : crtc_state;
  writing : option timeval;
  log : list timeval;
  rd : reader;
}.

Inductive access := WriteSlot (t : timeval) | WriteCount | Read.

Definition sstep (a : access) (s : shared) : option shared :=
  let count := _vblank_count (entry s) in
  match a, writing s with
  | WriteSlot t, None =>
    Some (mk_shared (set_vblanktimestamp (u32 (count + 1)) t (entry s)) (Some t) (log s) (rd s))
  | WriteCount, Some t => Some (mk_shared (set_count (u32 (count + 1)) (entry s)) None (log s ++ [t]) (rd s))
  | Read, w =>
    let to r := Some (mk_shared (entry s) w (log s) r) in
    match rd s with
    | RStart => to (RCount count (length (log s)))
    | RCount cur n0 => to (RTime cur (vblanktimestamp cur (entry s)) n0)
    | RTime cur t n0 => if cur =? count then to (RDone cur t) else to RStart
    | RDone _ _ => None
    end
  | _, _ => None
  end.

Definition sstep_rel (s s' : shared) : Prop := ∃ a, sstep a s = Some s'.

(** ** The device and its clients

    The device with the processes that sleep in drm_wait_vblank and the
    references its driver holds; a client is one operation at a time. *)

Record world (A : Type) := mk_world {
  vd : vdev A;
  sleepers : list (Z * wait_vblank);
  holders : list Z;
}.
Arguments mk_world {_} _ _ _.
Arguments vd {_} _.
Arguments sleepers {_} _.
Arguments holders {_} _.

Section Clients.
Context {A : Type} `{VblankDriver A} `{DrmVblankH}.
Variables (drm_vblank_offdelay drm_timestamp_precision : Z) (settle_fuel : nat).

Inductive op :=
  | OpTimer
  | OpGet (crtc : Z)
  | OpPut (k : nat)
  | OpOff (crtc : Z)
  | OpInterrupt (crtc : Z)
  | OpModeset (kms : bool) (crtc cmd : Z)
  | OpWait (irq : Z) (alloc : bool) (w : wait_vblank) (file : positive)
  | OpWake (k : nat) (ret : Z)
  | OpOpen (file : positive)
  | OpRelease (file : positive)
  | OpRead (copied : pending_event → bool) (file : positive) (max : Z)
  | OpControl (p : irq_driver (A := A)) (kms old_if : bool) (func : control_func) (ctl_irq : Z).

(** What the callers guarantee: a driver passes crtcs of the device and drops
    references it took; files are open. *)
Definition op_ok (o : op) (w : world A) : Prop :=
  match o with
  | OpTimer | OpControl _ _ _ _ _ => True
  | OpGet crtc | OpOff crtc | OpInterrupt crtc => 0 <= crtc < Z.of_nat (length (crtcs (vd w)))
  | OpPut k => is_Some (holders w !! k)
  | OpModeset _ crtc _ => 0 <= crtc
  | OpWait _ _ r file => 0 <= wtype r ∧ is_Some (files (vd w) !! file)
  | OpWake k _ => is_Some (sleepers w !! k)
  | OpOpen file => files (vd w) !! file = None
  | OpRelease file | OpRead _ file _ => is_Some (files (vd w) !! file)
  end.

Definition on_dev {B} (m : M (vdev A) B) (w : world A) : option (world A) :=
  '(_, d) ← m (vd w); Some (mk_world d (sleepers w) (holders w)).

Definition run_op (o : op) (w : world A) : option (world A) :=
  match o with
  | OpTimer => on_dev (vblank_disable_fn drm_timestamp_precision) w
  | OpGet crtc =>
    '(ret, d) ← drm_vblank_get drm_timestamp_precision settle_fuel crtc (vd w);
    Some (mk_world d (sleepers w) (if z2b ret then holders w else crtc :: holders w))
  | OpPut k =>
    crtc ← holders w !! k;
    '(_, d) ← drm_vblank_put drm_vblank_offdelay crtc (vd w);
    Some (mk_world d (sleepers w) (delete k (holders w)))
  | OpOff crtc => on_dev (drm_vblank_off drm_vblank_offdelay drm_timestamp_precision crtc) w
  | OpInterrupt crtc => on_dev (drm_handle_vblank drm_vblank_offdelay drm_timestamp_precision crtc) w
  | OpModeset kms crtc cmd =>
    on_dev (drm_modeset_ctl drm_vblank_offdelay drm_timestamp_precision settle_fuel kms crtc cmd) w
  | OpWait irq alloc r file =>
    '(s, d) ← drm_wait_vblank_begin drm_vblank_offdelay drm_timestamp_precision settle_fuel irq alloc r file (vd w);
    match s with
    | Returned _ _ => Some (mk_world d (sleepers w) (holders w))
    | Sleeping crtc r => Some (mk_world d ((crtc, r) :: sleepers w) (holders w))
    end
  | OpWake k ret =>
    '(crtc, r) ← sleepers w !! k;
    '(_, d) ← drm_wait_vblank_end drm_vblank_offdelay ret crtc r (vd w);
    Some (mk_world d (delete k (sleepers w)) (holders w))
  | OpOpen file => on_dev (open_events file) w
  | OpRelease file => on_dev (drm_events_release drm_vblank_offdelay file) w
  | OpRead copied file max => on_dev (drm_read copied file max) w
  | OpControl p kms old_if func ctl_irq => on_dev (drm_control p kms old_if func ctl_irq) w
  end.

Definition vstep (w w' : world A) : Prop := ∃ o, op_ok o w ∧ run_op o w = Some w'.
End Clients.

(** ** Reasoning on steps *)

Section Frames.
Context {A : Type} `{VblankDriver A} `{DrmVblankH}.
Variables (drm_vblank_offdelay drm_timestamp_precision : Z) (settle_fuel : nat).
Abbreviation dev := (vdev A).

Definition crtc_ok (d : dev) (crtc : Z) : Prop := 0 <= crtc < Z.of_nat (length (crtcs d)).

(** The references and the mode set state of each crtc. *)
Definition refs (d : dev) (i : nat) : option (Z * Z) :=
  (λ c, (vblank_refcount c, vblank_inmodeset c)) <$> crtcs d !! i.

(** From [d] to [d'] only the references of [crtc] change, by [k], besides the
    counters, the timestamps and the hardware. *)
Definition refs_plus (d d' : dev) (crtc k : Z) : Prop :=
  vblank_event_list d' = vblank_event_list d ∧ files d' = files d ∧
  length (crtcs d') = length (crtcs d) ∧
  ∀ i, refs d' i = (λ p, (p.1 + (if decide (Z.of_nat i = crtc) then k else 0), p.2)) <$> refs d i.

Lemma refs_plus_refl d crtc : refs_plus d d crtc 0.
Proof.
  split_and!; try done. intros i. destruct (refs d i) as [[r m]|]; [|done]. cbn. destruct (decide _); by rewrite Z.add_0_r.
Qed.

Lemma refs_plus_trans d1 d2 d3 crtc k1 k2 : refs_plus d1 d2 crtc k1 → refs_plus d2 d3 crtc k2 →
  refs_plus d1 d3 crtc (k1 + k2).
Proof.
  intros (He & Hf & Hl & Hr) (He' & Hf' & Hl' & Hr'). split_and!; try congruence.
  intros i. rewrite Hr', Hr. destruct (refs d1 i) as [[r m]|]; [|done]. cbn. do 2 f_equal. destruct (decide _); lia.
Qed.

Lemma refs_plus_same d1 d2 d3 c c' k : refs_plus d1 d2 c 0 → refs_plus d2 d3 c' k → refs_plus d1 d3 c' k.
Proof.
  intros (He & Hf & Hl & Hr) (He' & Hf' & Hl' & Hr'). split_and!; try congruence.
  intros i. rewrite Hr', Hr. destruct (refs d1 i) as [[r m]|]; [|done]. cbn. do 2 f_equal. destruct (decide _), (decide _); lia.
Qed.

Lemma refs_plus_ok d d' c k crtc : refs_plus d d' c k → crtc_ok d crtc → crtc_ok d' crtc.
Proof. intros (_ & _ & Hl & _). unfold crtc_ok. by rewrite Hl. Qed.

(** [m] changes nothing of that, and does not fault on the crtcs of the device. *)
Definition keeps {B} (crtc : Z) (m : M dev B) : Prop :=
  ∀ d, crtc_ok d crtc → wp m d (λ _ d', refs_plus d d' crtc 0).

Lemma keeps_bind {B C} crtc (m : M dev B) (f : B → M dev C) :
  keeps crtc m → (∀ b, keeps crtc (f b)) → keeps crtc (m ≫= f).
Proof.
  intros Hm Hf d Hd. apply wp_bind. eapply wp_mono; [by apply Hm|]. intros b d' Hk. cbn.
  eapply wp_mono; [apply Hf, (refs_plus_ok d d' crtc 0 crtc Hk Hd)|]. intros c d'' Hk'.
  exact (refs_plus_same d d' d'' crtc crtc 0 Hk Hk').
Qed.

Lemma keeps_ret {B} crtc (b : B) : keeps crtc (mret b).
Proof. intros d Hd. apply refs_plus_refl. Qed.

Lemma keeps_when crtc b (m : M dev unit) : keeps crtc m → keeps crtc (when b m).
Proof. intros Hm. destruct b; [done|apply keeps_ret]. Qed.

Lemma keeps_gets {B} crtc (f : dev → B) : keeps crtc (gets f).
Proof. intros d Hd. apply refs_plus_refl. Qed.

Lemma set_hw_plus d a crtc : refs_plus d (set_hw a d) crtc 0.
Proof. apply (refs_plus_refl d). Qed.

Lemma keeps_callback {B} crtc (f : A → B * A) : keeps crtc (callback f).
Proof. intros d Hd. unfold wp, callback. destruct (f (hw d)). apply set_hw_plus. Qed.

Lemma keeps_modify crtc (g : dev → dev) : (∀ d, refs_plus d (g d) crtc 0) → keeps crtc (modify g).
Proof. intros Hg d Hd. apply Hg. Qed.

Lemma crtc_at_run d crtc : crtc_ok d crtc → ∃ c, crtc_at crtc d = Some (c, d) ∧ crtcs d !! Z.to_nat crtc = Some c.
Proof.
  intros Hd. unfold crtc_at, reads. unfold crtc_ok in Hd. rewrite (proj2 (Z.ltb_ge _ _)) by lia.
  destruct (lookup_lt_is_Some_2 (crtcs d) (Z.to_nat crtc)) as [c Hc]; [lia|]. rewrite Hc. by exists c.
Qed.

Lemma keeps_crtc_at crtc : keeps crtc (crtc_at crtc).
Proof.
  intros d Hd. destruct (crtc_at_run d crtc Hd) as (c & Hc & _). eapply wp_of; [exact Hc|]. apply refs_plus_refl.
Qed.

Lemma upd_crtc_wp d crtc f k : crtc_ok d crtc → (∀ c, vblank_inmodeset (f c) = vblank_inmodeset c) →
  (∀ c, crtcs d !! Z.to_nat crtc = Some c → vblank_refcount (f c) = vblank_refcount c + k) →
  wp (upd_crtc crtc f) d (λ _ d', refs_plus d d' crtc k ∧
    d' = set_crtcs (alter f (Z.to_nat crtc) (crtcs d)) d).
Proof.
  intros Hd Hm Hr. unfold upd_crtc. apply wp_bind. destruct (crtc_at_run d crtc Hd) as (c & Hc & Hl).
  eapply wp_of; [exact Hc|]. cbn. split; [|done]. split_and!; cbn; try done; [by rewrite length_alter|].
  intros i. unfold refs. cbn [crtcs set_crtcs]. destruct (decide (Z.of_nat i = crtc)) as [<- | Hne].
  - rewrite Nat2Z.id in *. rewrite list_lookup_alter_eq, Hl. cbn. by rewrite Hr, Hm.
  - rewrite list_lookup_alter_ne by (unfold crtc_ok in Hd; lia).
    destruct (crtcs d !! i); [|done]. cbn. by rewrite Z.add_0_r.
Qed.

Lemma keeps_upd crtc f : (∀ c, vblank_inmodeset (f c) = vblank_inmodeset c) →
  (∀ c, vblank_refcount (f c) = vblank_refcount c) → keeps crtc (upd_crtc crtc f).
Proof.
  intros Hm Hr d Hd. eapply wp_mono; [apply (upd_crtc_wp d crtc f 0 Hd Hm)|].
  - intros c _. rewrite Hr. lia.
  - by intros ? ? [? _].
Qed.

Create HintDb keeps discriminated.
#[local] Hint Resolve keeps_bind keeps_ret keeps_when keeps_gets keeps_callback keeps_crtc_at : keeps.

Lemma keeps_set_timestamp crtc n t : keeps crtc (upd_crtc crtc (set_vblanktimestamp n t)).
Proof. apply keeps_upd; intros c; unfold set_vblanktimestamp; by destruct (_ =? _). Qed.
#[local] Hint Resolve keeps_set_timestamp : keeps.

(** Decompose the steps that keep the references. *)
Ltac keeps_step :=
  match goal with
  | |- ∀ _, _ => intros ?
  | |- keeps _ (_ ≫= _) => apply keeps_bind
  | |- keeps _ (let '(_, _) := ?x in _) => destruct x
  | |- keeps _ (match ?x with _ => _ end) => destruct x eqn:?
  | |- keeps _ (when _ _) => apply keeps_when
  | |- keeps _ (upd_crtc _ _) => apply keeps_upd; intros ?; done
  | |- keeps _ _ => by eauto with keeps
  end.

Lemma keeps_timestamp crtc crtc' flags : keeps crtc (drm_get_last_vbltimestamp drm_timestamp_precision crtc' flags).
Proof. unfold drm_get_last_vbltimestamp. cbv zeta. repeat keeps_step. Qed.
#[local] Hint Resolve keeps_timestamp : keeps.

Lemma keeps_save count crtc crtc' : (0 < count)%nat → keeps crtc (save_loop drm_timestamp_precision count crtc').
Proof.
  induction count as [|count IH]; [lia|]. intros _. cbn [save_loop]. unfold read_counter.
  repeat keeps_step. apply IH. destruct count; [done|lia].
Qed.

Lemma keeps_disable crtc : keeps crtc (vblank_disable_and_save drm_timestamp_precision crtc).
Proof.
  unfold vblank_disable_and_save. apply keeps_bind; [apply keeps_modify; intros; apply set_hw_plus|intros _].
  apply keeps_bind; [by apply keeps_upd|intros _]. apply keeps_bind; [apply keeps_save; unfold DRM_TIMESTAMP_MAXRETRIES; lia|].
  intros [[[last vblrc] t] count]. apply keeps_bind; [by apply keeps_upd|intros _]. cbv zeta.
  apply keeps_bind; [eauto with keeps|intros c]. apply keeps_bind; [apply keeps_when; by apply keeps_upd|intros _].
  by apply keeps_upd.
Qed.

(** ** Accounting of references and events *)

(** The pending events of a crtc and of a file. *)
Definition on_crtc (crtc : Z) (l : list pending_event) : Z := Z.of_nat (length (filter (λ e, pipe e = crtc) l)).
Definition of_file (f : positive) (l : list pending_event) : Z := Z.of_nat (length (filter (λ e, file_priv e = f) l)).

Lemma on_crtc_app crtc l l' : on_crtc crtc (l ++ l') = on_crtc crtc l + on_crtc crtc l'.
Proof. unfold on_crtc. rewrite filter_app, length_app. lia. Qed.
Lemma of_file_app f l l' : of_file f (l ++ l') = of_file f l + of_file f l'.
Proof. unfold of_file. rewrite filter_app, length_app. lia. Qed.
Lemma on_crtc_cons crtc e l : on_crtc crtc (e :: l) = (if decide (pipe e = crtc) then 1 else 0) + on_crtc crtc l.
Proof. unfold on_crtc. rewrite filter_cons. case_decide; cbn [length]; lia. Qed.
Lemma of_file_cons f e l : of_file f (e :: l) = (if decide (file_priv e = f) then 1 else 0) + of_file f l.
Proof. unfold of_file. rewrite filter_cons. case_decide; cbn [length]; lia. Qed.
Lemma on_crtc_nil crtc : on_crtc crtc [] = 0.
Proof. done. Qed.
Lemma of_file_nil f : of_file f [] = 0.
Proof. done. Qed.
Lemma on_crtc_nonneg crtc l : 0 <= on_crtc crtc l.
Proof. unfold on_crtc. lia. Qed.
Lemma of_file_nonneg f l : 0 <= of_file f l.
Proof. unfold of_file. lia. Qed.

(** The reference a mode set in progress holds. *)
Definition mode_ref (m : Z) : Z := if Z.testbit m 1 then 1 else 0.

(** [ex]: the references of each crtc that no event holds; [ow]: the events
    each file still owes, taken off the list but not delivered yet. *)
Definition refs_ok (d : dev) (ex : Z → Z) : Prop :=
  (∀ i, 0 <= ex i) ∧
  ∀ i r m, refs d i = Some (r, m) →
    r = on_crtc (Z.of_nat i) (vblank_event_list d) + mode_ref m + ex (Z.of_nat i) ∧ (m = 0 ∨ m = 1 ∨ m = 3).

Definition event_ok (d : dev) (e : pending_event) : Prop :=
  crtc_ok d (pipe e) ∧ is_Some (files d !! file_priv e) ∧ ev_length e = sizeof_event.

Definition space_ok (f : vfile) (pending : Z) : Prop :=
  event_space f + sizeof_event * (Z.of_nat (length (event_list f)) + pending) = 4096 ∧
  0 <= event_space f ∧ Forall (λ e, ev_length e = sizeof_event) (event_list f).

Definition events_ok (d : dev) (ow : positive → Z) : Prop :=
  (∀ f, 0 <= ow f) ∧ Forall (event_ok d) (vblank_event_list d) ∧
  ∀ f v, files d !! f = Some v → space_ok v (of_file f (vblank_event_list d) + ow f).

Definition acct (d : dev) (ex : Z → Z) (ow : positive → Z) : Prop := refs_ok d ex ∧ events_ok d ow.

Lemma acct_ext d ex ex' ow ow' : (∀ i, ex i = ex' i) → (∀ f, ow f = ow' f) → acct d ex ow → acct d ex' ow'.
Proof.
  intros He Ho [[H1 H2] (H3 & H4 & H5)]. split; [split|split_and!; [|done|]].
  - intros i. by rewrite <- He.
  - intros i r m Hi. destruct (H2 i r m Hi). split; [|done]. rewrite <- He. done.
  - intros f. by rewrite <- Ho.
  - intros f v Hf. rewrite <- Ho. by apply H5.
Qed.

(** What is not in the accounts may change. *)
Lemma acct_plus d d' ex ow crtc k : acct d ex ow → refs_plus d d' crtc k → 0 <= ex crtc + k →
  acct d' (bump crtc k ex) ow.
Proof.
  intros [[H1 H2] (H3 & H4 & H5)] (He & Hf & Hl & Hr) Hk. split; [split|split_and!; [done| |]].
  - intros i. unfold bump. case_decide; [subst; lia|]. pose proof (H1 i). lia.
  - intros i r m Hi. rewrite Hr in Hi. destruct (refs d i) as [[r0 m0]|] eqn:Hi0; [|done]. cbn in Hi. simplify_eq.
    destruct (H2 i r0 m Hi0) as [-> Hm]. split; [|done]. rewrite He. unfold bump. case_decide; lia.
  - rewrite He. eapply Forall_impl; [done|]. intros e (Hc & Hfe & Hle). split_and!; [|by rewrite Hf|done].
    unfold crtc_ok in *. by rewrite Hl.
  - rewrite He, Hf. done.
Qed.

Lemma keeps_acct {B} crtc (m : M dev B) d ex ow : keeps crtc m → crtc_ok d crtc → acct d ex ow →
  wp m d (λ _ d', acct d' ex ow ∧ refs_plus d d' crtc 0).
Proof.
  intros Hm Hd Ha. eapply wp_mono; [by apply Hm|]. intros b d' Hk. split; [|done]. cbn in Hk.
  pose proof (proj1 (proj1 Ha) crtc).
  eapply acct_ext; [| |apply (acct_plus d d' ex ow crtc 0 Ha Hk); lia]; [|done]. intros i. apply bump_0.
Qed.

(** ** Taking and dropping references *)

(** [m] adds [k], which may depend on its result, to the references of [crtc]. *)
Definition adds {B} (crtc : Z) (k : B → Z) (m : M dev B) : Prop :=
  ∀ d, crtc_ok d crtc → wp m d (λ b d', refs_plus d d' crtc (k b)).

Lemma adds_bind {B C} crtc k1 (k : C → Z) (m : M dev B) (f : B → M dev C) :
  adds crtc (λ _, k1) m → (∀ b, adds crtc (λ c, k c - k1) (f b)) → adds crtc k (m ≫= f).
Proof.
  intros Hm Hf d Hd. apply wp_bind. eapply wp_mono; [by apply Hm|]. intros b d' Hk. cbn in Hk |- *.
  eapply wp_mono; [apply Hf, (refs_plus_ok d d' crtc k1 crtc Hk Hd)|]. intros c d'' Hk'. cbn in Hk' |- *.
  replace (k c) with (k1 + (k c - k1)) by lia. exact (refs_plus_trans d d' d'' crtc _ _ Hk Hk').
Qed.

Lemma adds_ret {B} crtc (k : B → Z) b : k b = 0 → adds crtc k (mret b).
Proof. intros Hk d Hd. cbn. rewrite Hk. apply refs_plus_refl. Qed.

Lemma adds_keeps {B C} crtc (k : C → Z) (m : M dev B) (f : B → M dev C) :
  keeps crtc m → (∀ b, adds crtc k (f b)) → adds crtc k (m ≫= f).
Proof.
  intros Hm Hf. apply (adds_bind crtc 0); [exact Hm|]. intros b d Hd. eapply wp_mono; [by apply Hf|].
  intros c d' Hk. cbn in Hk |- *. by rewrite Z.sub_0_r.
Qed.

Lemma adds_refcount crtc k :
  adds crtc (λ _, k) (upd_crtc crtc (λ c, set_refcount (vblank_refcount c + k) c)).
Proof.
  intros d Hd. eapply wp_mono; [apply (upd_crtc_wp d crtc _ k Hd); done|]. by intros ? ? [? _].
Qed.

(** The hypothesis of every theorem on references: the loop of
    drm_update_vblank_count ends within the fuel. *)
Hypothesis settles : ∀ crtc d, settle drm_timestamp_precision settle_fuel crtc d ≠ None.

Lemma keeps_inv {B} crtc (m : M dev B) d b d' : keeps crtc m → crtc_ok d crtc → m d = Some (b, d') →
  refs_plus d d' crtc 0.
Proof. intros Hm Hd Hr. specialize (Hm d Hd). unfold wp in Hm. by rewrite Hr in Hm. Qed.

Lemma settle_plus fuel crtc d x d' : crtc_ok d crtc →
  settle drm_timestamp_precision fuel crtc d = Some (x, d') → refs_plus d d' crtc 0.
Proof.
  revert d. induction fuel as [|fuel IH]; [done|]. intros d Hd Hs. cbn [settle] in Hs. unfold read_counter in Hs.
  apply M_bind_inv in Hs as (cur & d1 & H1%(keeps_inv crtc _ _ _ _ (keeps_callback _ _) Hd) & Hs).
  pose proof (refs_plus_ok _ _ _ _ _ H1 Hd) as Hd1. apply M_bind_inv in Hs as ([rc t] & d2 & H2 & Hs).
  apply (keeps_inv crtc _ _ _ _ (keeps_timestamp crtc crtc 0) Hd1) in H2.
  pose proof (refs_plus_ok _ _ _ _ _ H2 Hd1) as Hd2.
  apply M_bind_inv in Hs as (again & d3 & H3%(keeps_inv crtc _ _ _ _ (keeps_callback _ _) Hd2) & Hs).
  assert (refs_plus d d3 crtc 0) as Hk by eauto using refs_plus_same.
  destruct (cur =? again); [unfold mret, M_ret in Hs; by simplify_eq|]. eapply refs_plus_same; [exact Hk|].
  apply (IH d3); [|done]. exact (refs_plus_ok _ _ _ _ _ Hk Hd).
Qed.

Lemma keeps_settle crtc : keeps crtc (settle drm_timestamp_precision settle_fuel crtc).
Proof.
  intros d Hd. destruct (settle drm_timestamp_precision settle_fuel crtc d) as [[x d']|] eqn:Hs; [|by destruct (settles crtc d)].
  eapply wp_of; [exact Hs|]. by eapply settle_plus, Hs.
Qed.

Lemma keeps_update crtc : keeps crtc (drm_update_vblank_count drm_timestamp_precision settle_fuel crtc).
Proof.
  unfold drm_update_vblank_count. apply keeps_bind; [apply keeps_settle|]. intros [[cur rc] t].
  repeat keeps_step.
Qed.

(** drm_vblank_get takes a reference exactly when it succeeds. *)
Lemma adds_get crtc : adds crtc (λ ret, if z2b ret then 0 else 1)
  (drm_vblank_get drm_timestamp_precision settle_fuel crtc).
Proof.
  unfold drm_vblank_get. apply (adds_bind crtc 1); [apply adds_refcount|intros _].
  apply adds_keeps; [eauto with keeps|]. intros c. destruct (_ =? 1); destruct (vblank_enabled c); cbn [negb].
  - by apply adds_ret.
  - apply adds_keeps; [eauto with keeps|]. intros ret. destruct (z2b ret) eqn:Hz.
    + apply (adds_bind crtc (-1)); [exact (adds_refcount crtc (-1))|intros _]. apply adds_ret. by rewrite Hz.
    + apply adds_keeps; [by apply keeps_upd|intros _]. apply adds_keeps; [apply keeps_update|intros _]. by apply adds_ret.
  - by apply adds_ret.
  - apply (adds_bind crtc (-1)); [exact (adds_refcount crtc (-1))|intros _]. by apply adds_ret.
Qed.

Lemma put_wp d crtc : crtc_ok d crtc → (∀ r m, refs d (Z.to_nat crtc) = Some (r, m) → r ≠ 0) →
  wp (drm_vblank_put drm_vblank_offdelay crtc) d (λ _ d', refs_plus d d' crtc (-1) ∧
    crtcs d' = alter (λ c, set_refcount (vblank_refcount c - 1) c) (Z.to_nat crtc) (crtcs d)).
Proof.
  intros Hd Hr. unfold drm_vblank_put. destruct (crtc_at_run d crtc Hd) as (c & Hc & Hl).
  assert ((vblank_refcount c =? 0) = false) as Hz.
  { apply Z.eqb_neq, (Hr _ (vblank_inmodeset c)). unfold refs. by rewrite Hl. }
  apply wp_bind. eapply wp_of; [exact Hc|]. cbv beta. rewrite Hz. apply wp_bind. cbn [BUG_ON].
  change (wp (mret tt) d ?Q) with (Q tt d). cbv beta. apply wp_bind.
  eapply wp_mono; [apply (upd_crtc_wp d crtc _ (-1) Hd); done|]. intros _ d' [Hp ->]. cbv beta.
  by destruct (_ && _).
Qed.

(** The accounts when the list of pending events, or one file, changes. *)
Lemma acct_events d ex ow evs ex' ow' : acct d ex ow → Forall (event_ok d) evs →
  (∀ i, 0 <= ex' i ∧ on_crtc i evs + ex' i = on_crtc i (vblank_event_list d) + ex i) →
  (∀ f, 0 <= ow' f ∧ of_file f evs + ow' f = of_file f (vblank_event_list d) + ow f) →
  acct (set_events evs d) ex' ow'.
Proof.
  intros [[H1 H2] (H3 & H4 & H5)] Hev He Ho. split; [split|split_and!].
  - intros i. apply He.
  - intros i r m Hi. destruct (H2 i r m Hi) as [-> Hm]. split; [|done]. cbn. pose proof (He (Z.of_nat i)). lia.
  - intros f. apply Ho.
  - done.
  - intros f v Hf. cbn in Hf |- *. destruct (Ho f) as [_ ->]. by apply H5.
Qed.

Lemma acct_file d ex ow f v ow' : acct d ex ow → (∀ g, 0 <= ow' g ∧ (g ≠ f → ow' g = ow g)) →
  space_ok v (of_file f (vblank_event_list d) + ow' f) → acct (set_files (<[f:=v]> (files d)) d) ex ow'.
Proof.
  intros [Hr (H3 & H4 & H5)] Ho Hv. split; [done|split_and!].
  - intros g. apply Ho.
  - eapply Forall_impl; [exact H4|]. intros e (Hc & Hfe & Hl). split_and!; [done| |done].
    cbn. destruct (decide (file_priv e = f)) as [->|]; [rewrite lookup_insert_eq|rewrite lookup_insert_ne by done]; done.
  - intros g w Hg. cbn in Hg |- *. destruct (decide (g = f)) as [->|].
    + rewrite lookup_insert_eq in Hg. by simplify_eq.
    + rewrite lookup_insert_ne in Hg by done. destruct (Ho g) as [_ ->]; [|done]. by apply H5.
Qed.

Lemma acct_put d ex ow crtc : acct d ex ow → crtc_ok d crtc → 0 < ex crtc →
  wp (drm_vblank_put drm_vblank_offdelay crtc) d (λ _ d', acct d' (bump crtc (-1) ex) ow ∧ refs_plus d d' crtc (-1) ∧
    crtcs d' = alter (λ c, set_refcount (vblank_refcount c - 1) c) (Z.to_nat crtc) (crtcs d)).
Proof.
  intros Ha Hd Hex. eapply wp_mono; [apply (put_wp d crtc Hd)|].
  - intros r m Hr. destruct Ha as [[_ H2] _]. destruct (H2 _ _ _ Hr) as [-> _].
    rewrite Z2Nat.id by (unfold crtc_ok in Hd; lia). pose proof (on_crtc_nonneg crtc (vblank_event_list d)).
    unfold mode_ref. destruct (Z.testbit m 1); lia.
  - intros _ d' [Hp Hc]. split; [|done]. apply (acct_plus d); [done..|lia].
Qed.

Lemma acct_get d ex ow crtc : acct d ex ow → crtc_ok d crtc →
  wp (drm_vblank_get drm_timestamp_precision settle_fuel crtc) d (λ ret d',
    acct d' (bump crtc (if z2b ret then 0 else 1) ex) ow ∧ refs_plus d d' crtc (if z2b ret then 0 else 1)).
Proof.
  intros Ha Hd. eapply wp_mono; [by apply adds_get|]. intros ret d' Hp. cbn in Hp. split; [|done].
  apply (acct_plus d); [done..|]. pose proof (proj1 (proj1 Ha) crtc). destruct (z2b ret); lia.
Qed.

(** ** Delivery of events *)

(** The event as it is delivered. *)
Definition stamp (seq : Z) (now : timeval) (e : pending_event) : pending_event :=
  mk_pe (pipe e) (u32 seq) now (user_data e) (file_priv e) (ev_length e).

(** From [d] to [d'], exactly the events [es] are delivered to their files, in
    order, and their references dropped. *)
Definition delivered (seq : Z) (now : timeval) (es : list pending_event) (d d' : dev) : Prop :=
  (∀ f, files d' !! f = (λ v, mk_vfile
     (event_list v ++ (stamp seq now <$> filter (λ e, file_priv e = f) es)) (event_space v)) <$> files d !! f) ∧
  length (crtcs d') = length (crtcs d) ∧
  ∀ i, crtcs d' !! i = (λ c, set_refcount (vblank_refcount c - on_crtc (Z.of_nat i) es) c) <$> crtcs d !! i.

Lemma delivered_nil seq now d d' : files d' = files d → crtcs d' = crtcs d → delivered seq now [] d d'.
Proof.
  intros Hf Hc. split_and!; [|by rewrite Hc|].
  - intros f. rewrite Hf. destruct (files d !! f) as [[l s]|]; [|done]. cbn. by rewrite app_nil_r.
  - intros i. rewrite Hc. destruct (crtcs d !! i) as [[]|]; [|done]. cbn. by rewrite on_crtc_nil, Z.sub_0_r.
Qed.

Lemma delivered_trans seq now es es' d d' d'' : delivered seq now es d d' → delivered seq now es' d' d'' →
  delivered seq now (es ++ es') d d''.
Proof.
  intros (Hf & Hl & Hc) (Hf' & Hl' & Hc'). split_and!; [|congruence|].
  - intros f. rewrite Hf', Hf. destruct (files d !! f) as [[l s]|]; [|done]. cbn.
    by rewrite filter_app, fmap_app, app_assoc.
  - intros i. rewrite Hc', Hc. destruct (crtcs d !! i) as [[]|]; [|done]. cbn. unfold set_refcount. cbn.
    rewrite on_crtc_app. do 2 f_equal. lia.
Qed.

(** An event leaves the list: its crtc's reference and its file's space are
    nobody's for a moment. *)
Lemma acct_unlink d ex ow kept e l : acct d ex ow → vblank_event_list d = kept ++ e :: l →
  acct (set_events (kept ++ l) d) (bump (pipe e) 1 ex) (bump (file_priv e) 1 ow).
Proof.
  intros Ha Hl. apply (acct_events d ex ow); [done|..].
  - destruct Ha as [_ (_ & He & _)]. rewrite Hl in He. apply Forall_app in He as [? [_ ?]%Forall_cons].
    by apply Forall_app.
  - intros i. rewrite Hl, !on_crtc_app, on_crtc_cons. pose proof (proj1 (proj1 Ha) i). unfold bump.
    repeat case_decide; simplify_eq; lia.
  - intros f. rewrite Hl, !of_file_app, of_file_cons. pose proof (proj1 (proj2 Ha) f). unfold bump.
    repeat case_decide; simplify_eq; lia.
Qed.

(** An event is linked to the list of pending events. *)
Lemma acct_link d ex ow e : acct d ex ow → event_ok d e → 0 < ex (pipe e) → 0 < ow (file_priv e) →
  acct (set_events (vblank_event_list d ++ [e]) d) (bump (pipe e) (-1) ex) (bump (file_priv e) (-1) ow).
Proof.
  intros Ha He Hx Ho. apply (acct_events d ex ow); [done|..].
  - destruct Ha as [_ (_ & Hes & _)]. apply Forall_app. split; [done|]. by apply Forall_singleton.
  - intros i. rewrite !on_crtc_app, on_crtc_cons, on_crtc_nil. pose proof (proj1 (proj1 Ha) i). unfold bump.
    repeat case_decide; simplify_eq; lia.
  - intros f. rewrite !of_file_app, of_file_cons, of_file_nil. pose proof (proj1 (proj2 Ha) f). unfold bump.
    repeat case_decide; simplify_eq; lia.
Qed.

(** An event is delivered to its file. *)
Lemma send_wp d ex ow e seq now : acct d ex ow → is_Some (files d !! file_priv e) → ev_length e = sizeof_event →
  0 < ow (file_priv e) →
  wp (send_vblank_event e seq now) d (λ _ d', acct d' ex (bump (file_priv e) (-1) ow) ∧
    crtcs d' = crtcs d ∧ vblank_event_list d' = vblank_event_list d ∧
    files d' = alter (λ v, mk_vfile (event_list v ++ [stamp seq now e]) (event_space v)) (file_priv e) (files d)).
Proof.
  intros Ha [v Hv] Hl Ho. unfold send_vblank_event. apply wp_bind. eapply wp_of; [unfold reads; by rewrite Hv|].
  cbv beta zeta. cbn. unfold wp, modify. split_and!; [|done..|].
  - apply (acct_file d ex ow); [done|..].
    + intros g. pose proof (proj1 (proj2 Ha) g). unfold bump. case_decide; [subst|]; split; intros; try done; lia.
    + destruct Ha as [_ (_ & _ & H5)]. destruct (H5 _ _ Hv) as (Hs & Hp & Hf). unfold space_ok. cbn.
      rewrite length_app. cbn [length]. unfold bump. rewrite decide_True by done. split_and!; [|done|].
      * rewrite <- Hs. do 2 f_equal. lia.
      * apply Forall_app. split; [done|]. apply Forall_singleton. done.
  - cbn. apply map_eq. intros g. destruct (decide (g = file_priv e)) as [->|].
    + by rewrite lookup_insert_eq, lookup_alter_eq, Hv.
    + by rewrite lookup_insert_ne, lookup_alter_ne.
Qed.

Lemma delivered_one seq now e (d d1 d2 d3 : dev) : crtc_ok d (pipe e) → crtcs d1 = crtcs d → files d1 = files d →
  files d2 = files d1 → crtcs d3 = crtcs d2 →
  crtcs d2 = alter (λ c, set_refcount (vblank_refcount c - 1) c) (Z.to_nat (pipe e)) (crtcs d1) →
  files d3 = alter (λ v, mk_vfile (event_list v ++ [stamp seq now e]) (event_space v)) (file_priv e) (files d2) →
  delivered seq now [e] d d3.
Proof.
  intros Hok Hc1 Hf1 Hf2 Hc3 Hc2 Hf3. split_and!.
  - intros f. rewrite Hf3, Hf2, Hf1. rewrite filter_cons. destruct (decide (file_priv e = f)) as [<-|].
    + rewrite lookup_alter_eq. done.
    + rewrite lookup_alter_ne by done. destruct (files d !! f) as [[l s]|]; [|done]. cbn. by rewrite app_nil_r.
  - rewrite Hc3, Hc2, Hc1. apply length_alter.
  - intros i. rewrite Hc3, Hc2, Hc1, on_crtc_cons, on_crtc_nil.
    destruct (decide (pipe e = Z.of_nat i)) as [He|].
    + rewrite He, Nat2Z.id. rewrite list_lookup_alter_eq. done.
    + rewrite list_lookup_alter_ne by (unfold crtc_ok in Hok; lia).
      destruct (crtcs d !! i) as [[]|]; [|done]. cbn. by rewrite Z.sub_0_r.
Qed.

Lemma send_due_wp due seq now ex ow l : ∀ kept d, acct d ex ow → vblank_event_list d = kept ++ l →
  wp (send_due drm_vblank_offdelay due seq now l kept) d (λ _ d', acct d' ex ow ∧
    vblank_event_list d' = kept ++ filter (λ e, ¬ due e) l ∧ delivered seq now (filter (λ e, due e) l) d d').
Proof.
  induction l as [|e l IH]; intros kept d Ha Hl; cbn [send_due].
  { cbn. split_and!; [done..|]. by apply delivered_nil. }
  destruct (due e) eqn:Hdue; rewrite !filter_cons, Hdue.
  - rewrite (decide_True (P := Is_true true)) by done. rewrite (decide_False (P := ¬ Is_true true)) by (cbn; tauto).
    assert (event_ok d e) as (Hc & Hf & Hle).
    { destruct Ha as [_ (_ & He & _)]. rewrite Hl in He. by apply Forall_app in He as [_ [? _]%Forall_cons]. }
    apply wp_bind. eapply wp_of; [done|]. cbv beta.
    pose proof (acct_unlink d ex ow kept e l Ha Hl) as Ha1.
    apply wp_bind. eapply wp_mono; [apply (acct_put _ _ _ (pipe e) Ha1)|].
    { done. } { unfold bump. rewrite decide_True by done. pose proof (proj1 (proj1 Ha) (pipe e)). lia. }
    intros _ d2 (Ha2 & Hp2 & Hc2). cbv beta. pose proof Hp2 as (Hev2 & Hf2 & _).
    apply wp_bind. eapply wp_mono; [apply (send_wp _ _ _ e seq now Ha2)|].
    { by rewrite Hf2. } { done. } { unfold bump. rewrite decide_True by done. pose proof (proj1 (proj2 Ha) (file_priv e)). lia. }
    intros _ d3 (Ha3 & Hc3 & Hev3 & Hf3). cbv beta.
    assert (acct d3 ex ow) as Ha3'.
    { eapply acct_ext; [| |exact Ha3]; intros j; by rewrite bump_bump, bump_0. }
    eapply wp_mono; [apply (IH kept d3 Ha3')|].
    { by rewrite Hev3, Hev2. }
    intros _ d' (Ha' & Hev' & Hd'). split_and!; [done..|].
    apply (delivered_trans seq now [e] _ d d3 d'); [|done]. by eapply delivered_one.
  - rewrite (decide_False (P := Is_true false)) by (cbn; tauto). rewrite (decide_True (P := ¬ Is_true false)) by (cbn; tauto).
    eapply wp_mono; [apply (IH (kept ++ [e]) d Ha)|].
    { by rewrite Hl, <- app_assoc. }
    intros _ d' (Ha' & Hev' & Hd'). rewrite <- app_assoc in Hev'. done.
Qed.

Lemma send_pending_wp due seq now ex ow d : acct d ex ow →
  wp (send_pending drm_vblank_offdelay due seq now) d (λ _ d', acct d' ex ow ∧
    vblank_event_list d' = filter (λ e, ¬ due e) (vblank_event_list d) ∧
    delivered seq now (filter (λ e, due e) (vblank_event_list d)) d d').
Proof. intros Ha. apply (send_due_wp due seq now ex ow _ [] d Ha). done. Qed.

(** ** The accounts across the operations *)

Definition account (n : Z) (d : dev) (ex : Z → Z) : Prop := Z.of_nat (length (crtcs d)) = n ∧ acct d ex (λ _, 0).

Lemma account_ext n d ex ex' : (∀ i, ex i = ex' i) → account n d ex → account n d ex'.
Proof. intros He [Hn Ha]. split; [done|]. by eapply acct_ext. Qed.

Lemma account_plus n d d' ex crtc k : account n d ex → refs_plus d d' crtc k → 0 <= ex crtc + k →
  account n d' (bump crtc k ex).
Proof. intros [Hn Ha] Hp Hk. split; [destruct Hp as (_ & _ & -> & _); done|]. by eapply acct_plus. Qed.

Lemma account_same n d d' ex crtc : account n d ex → refs_plus d d' crtc 0 → account n d' ex.
Proof.
  intros Ha Hp. pose proof (proj1 (proj1 (proj2 Ha)) crtc).
  eapply account_ext; [|apply (account_plus n d d' ex crtc 0 Ha Hp); lia]. intros i. apply bump_0.
Qed.

Lemma account_keeps {B} n d ex crtc (m : M dev B) : keeps crtc m → account n d ex → 0 <= crtc < n →
  wp m d (λ _ d', account n d' ex ∧ refs_plus d d' crtc 0).
Proof.
  intros Hm Ha Hc. eapply wp_mono; [apply Hm; unfold crtc_ok; destruct Ha; lia|].
  intros b d' Hp. split; [|done]. exact (account_same n d d' ex crtc Ha Hp).
Qed.

Lemma account_get n d ex crtc : account n d ex → 0 <= crtc < n →
  wp (drm_vblank_get drm_timestamp_precision settle_fuel crtc) d (λ ret d',
    account n d' (bump crtc (if z2b ret then 0 else 1) ex) ∧ refs_plus d d' crtc (if z2b ret then 0 else 1)).
Proof.
  intros [Hn Ha] Hc. eapply wp_mono; [apply (acct_get d ex _ crtc Ha); unfold crtc_ok; lia|].
  intros ret d' [Ha' Hp]. cbv beta. split; [|done]. split; [destruct Hp as (_ & _ & -> & _); done|done].
Qed.

Lemma account_put n d ex crtc : account n d ex → 0 <= crtc < n → 0 < ex crtc →
  wp (drm_vblank_put drm_vblank_offdelay crtc) d (λ _ d', account n d' (bump crtc (-1) ex)).
Proof.
  intros [Hn Ha] Hc Hx. eapply wp_mono; [apply (acct_put d ex _ crtc Ha); [unfold crtc_ok; lia|done]|].
  intros _ d' (Ha' & Hp & _). cbv beta. split; [destruct Hp as (_ & _ & -> & _); done|done].
Qed.

Lemma account_send n due seq now d ex : account n d ex →
  wp (send_pending drm_vblank_offdelay due seq now) d (λ _ d', account n d' ex).
Proof.
  intros [Hn Ha]. eapply wp_mono; [by apply send_pending_wp|]. intros _ d' (Ha' & _ & (_ & Hl & _)).
  split; [congruence|done].
Qed.

Lemma keeps_count_and_time crtc : keeps crtc (drm_vblank_count_and_time crtc).
Proof. unfold drm_vblank_count_and_time. repeat keeps_step. Qed.
#[local] Hint Resolve keeps_count_and_time keeps_disable : keeps.

(** The loop of vblank_disable_fn. *)
Lemma disable_from_ok n k i d ex : account n d ex → 0 <= i → i + Z.of_nat k <= n →
  wp (disable_from drm_timestamp_precision k i) d (λ _ d', account n d' ex).
Proof.
  revert i d. induction k as [|k IH]; intros i d Ha Hi Hk; cbn [disable_from]; [done|].
  apply wp_bind. eapply wp_mono; [apply (account_keeps n d ex i _ (keeps_crtc_at i) Ha); lia|].
  intros c d1 [Ha1 _]. cbv beta. apply wp_bind.
  eapply wp_mono; [apply (account_keeps n d1 ex i _ (keeps_when i _ _ (keeps_disable i)) Ha1); lia|].
  intros _ d2 [Ha2 _]. cbv beta. apply IH; [done|lia..].
Qed.

Lemma disable_fn_ok n d ex : account n d ex →
  wp (vblank_disable_fn drm_timestamp_precision) d (λ _ d', account n d' ex).
Proof.
  intros Ha. unfold vblank_disable_fn. apply wp_bind. change (wp (gets ?f) ?s ?Q) with (Q (f s) s). cbv beta.
  destruct (negb _); [done|]. apply wp_bind. change (wp num_crtcs ?s ?Q) with (Q (Z.of_nat (length (crtcs s))) s).
  cbv beta. apply disable_from_ok; [done|lia|]. destruct Ha. lia.
Qed.

Lemma off_ok n d ex crtc : account n d ex → 0 <= crtc < n →
  wp (drm_vblank_off drm_vblank_offdelay drm_timestamp_precision crtc) d (λ _ d', account n d' ex).
Proof.
  intros Ha Hc. unfold drm_vblank_off. apply wp_bind.
  eapply wp_mono; [apply (account_keeps n d ex crtc _ (keeps_disable crtc) Ha Hc)|]. intros _ d1 [Ha1 _]. cbv beta.
  apply wp_bind. eapply wp_mono; [apply (account_keeps n d1 ex crtc _ (keeps_count_and_time crtc) Ha1 Hc)|].
  intros [seq now] d2 [Ha2 _]. cbv beta. by apply account_send.
Qed.

Lemma handle_events_ok n d ex crtc : account n d ex → 0 <= crtc < n →
  wp (drm_handle_vblank_events drm_vblank_offdelay crtc) d (λ _ d', account n d' ex).
Proof.
  intros Ha Hc. unfold drm_handle_vblank_events. apply wp_bind.
  eapply wp_mono; [apply (account_keeps n d ex crtc _ (keeps_count_and_time crtc) Ha Hc)|].
  intros [seq now] d2 [Ha2 _]. cbv beta. by apply account_send.
Qed.

Lemma handle_ok n d ex crtc : account n d ex → 0 <= crtc < n →
  wp (drm_handle_vblank drm_vblank_offdelay drm_timestamp_precision crtc) d (λ _ d', account n d' ex).
Proof.
  intros Ha Hc. unfold drm_handle_vblank. apply wp_bind.
  change (wp num_crtcs ?s ?Q) with (Q (Z.of_nat (length (crtcs s))) s). cbv beta.
  destruct (_ =? 0); [done|]. apply wp_bind.
  eapply wp_mono; [apply (account_keeps n d ex crtc _ (keeps_crtc_at crtc) Ha Hc)|]. intros c d1 [Ha1 _]. cbv beta.
  destruct (negb _); [done|]. cbv zeta. apply wp_bind.
  eapply wp_mono; [apply (account_keeps n d1 ex crtc _ (keeps_timestamp crtc crtc _) Ha1 Hc)|].
  intros [rc t] d2 [Ha2 _]. cbv beta zeta. apply wp_bind.
  eapply wp_mono; [apply (account_keeps n d2 ex crtc); [|exact Ha2|exact Hc]|].
  { apply keeps_when, keeps_bind; [apply keeps_set_timestamp|intros _]. by apply keeps_upd. }
  intros _ d3 [Ha3 _]. cbv beta. apply wp_bind. eapply wp_mono; [by apply (handle_events_ok n d3 ex crtc)|].
  by intros ? ? ?.
Qed.

(** The accounts when the references and the mode set state of one crtc change
    together. *)
Lemma account_crtc n d ex crtc r m r' m' d' ex' : account n d ex → 0 <= crtc →
  refs d (Z.to_nat crtc) = Some (r, m) → refs d' (Z.to_nat crtc) = Some (r', m') →
  (∀ i, i ≠ Z.to_nat crtc → refs d' i = refs d i) → length (crtcs d') = length (crtcs d) →
  vblank_event_list d' = vblank_event_list d → files d' = files d →
  (∀ i, i ≠ crtc → ex' i = ex i) → 0 <= ex' crtc → (m' = 0 ∨ m' = 1 ∨ m' = 3) →
  r' - mode_ref m' - ex' crtc = r - mode_ref m - ex crtc → account n d' ex'.
Proof.
  intros [Hn [[H1 H2] (H3 & H4 & H5)]] Hc Hr Hr' Hi Hl He Hf Hx Hx0 Hm Hsum.
  split; [congruence|]. split; [split|split_and!; [done| |by rewrite He, Hf]].
  - intros i. destruct (decide (i = crtc)) as [->|Hne]; [done|]. by rewrite (Hx i Hne).
  - intros i r0 m0 Hi0. rewrite He. destruct (decide (i = Z.to_nat crtc)) as [->|Hne].
    + rewrite Hr' in Hi0. simplify_eq. destruct (H2 _ _ _ Hr) as [Hr0 _]. rewrite Z2Nat.id in * by done.
      split; [lia|done].
    + rewrite Hi in Hi0 by done. destruct (H2 _ _ _ Hi0). by rewrite Hx by lia.
  - rewrite He. eapply Forall_impl; [done|]. intros e (Hce & Hfe & Hle). split_and!; [|by rewrite Hf|done].
    unfold crtc_ok in *. by rewrite Hl.
Qed.

Lemma upd_mode_refs d crtc f : crtc_ok d crtc → ∃ d', upd_crtc crtc f d = Some (tt, d') ∧
  vblank_event_list d' = vblank_event_list d ∧ files d' = files d ∧ length (crtcs d') = length (crtcs d) ∧
  (∀ i, i ≠ Z.to_nat crtc → refs d' i = refs d i) ∧ crtcs d' !! Z.to_nat crtc = f <$> crtcs d !! Z.to_nat crtc.
Proof.
  intros Hd. destruct (crtc_at_run d crtc Hd) as (c & Hc & Hl). unfold upd_crtc. mrun Hc. eexists. split; [done|].
  split_and!; [done|done|apply length_alter| |cbn; apply list_lookup_alter_eq].
  intros i Hi. unfold refs. cbn. by rewrite list_lookup_alter_ne.
Qed.

Lemma refs_at d crtc : crtc_ok d crtc → ∃ c, crtcs d !! Z.to_nat crtc = Some c ∧
  refs d (Z.to_nat crtc) = Some (vblank_refcount c, vblank_inmodeset c).
Proof.
  intros Hd. destruct (crtc_at_run d crtc Hd) as (c & _ & Hl). exists c. split; [done|]. unfold refs. by rewrite Hl.
Qed.

Lemma account_ok n d ex crtc : account n d ex → 0 <= crtc < n → crtc_ok d crtc.
Proof. intros [Hn _] Hc. unfold crtc_ok. lia. Qed.

Lemma pre_modeset_ok n d ex crtc : account n d ex → 0 <= crtc < n →
  wp (drm_vblank_pre_modeset drm_timestamp_precision settle_fuel crtc) d (λ _ d', account n d' ex).
Proof.
  intros Ha Hc. pose proof (account_ok _ _ _ _ Ha Hc) as Hd. unfold drm_vblank_pre_modeset. apply wp_bind.
  change (wp num_crtcs ?s ?Q) with (Q (Z.of_nat (length (crtcs s))) s). cbv beta.
  destruct (_ =? 0); [done|]. destruct (crtc_at_run d crtc Hd) as (c & Hrun & Hl). apply wp_bind.
  eapply wp_of; [exact Hrun|]. cbv beta. destruct (Z.eqb_spec (vblank_inmodeset c) 0) as [Hm|]; [|done].
  destruct (refs_at d crtc Hd) as (c0 & Hl0 & Hr0).
  assert (c0 = c) as -> by congruence.
  destruct (upd_mode_refs d crtc (set_inmodeset 1) Hd) as (d1 & Hrun1 & He1 & Hf1 & Hlen1 & Hoth1 & Hcr1).
  assert (refs d1 (Z.to_nat crtc) = Some (vblank_refcount c, 1)) as Hr1 by (unfold refs; by rewrite Hcr1, Hl).
  assert (account n d1 ex) as Ha1.
  { apply (account_crtc n d ex crtc _ _ _ _ _ _ Ha (proj1 Hc) Hr0 Hr1); try done; [by apply (proj1 (proj1 (proj2 Ha)))|tauto|].
    by rewrite Hm. }
  apply wp_bind. eapply wp_of; [exact Hrun1|]. cbv beta. apply wp_bind.
  eapply wp_mono; [apply (account_get n d1 ex crtc Ha1 Hc)|]. intros ret d2 [Ha2 Hp2]. cbv beta.
  unfold z2b in Ha2, Hp2. destruct (ret =? 0) eqn:Hret; cbn in Ha2, Hp2 |- *.
  2:{ eapply account_ext; [|exact Ha2]. intros i. apply bump_0. }
  pose proof (account_ok _ _ _ _ Ha2 Hc) as Hd2.
  destruct (upd_mode_refs d2 crtc (λ c, set_inmodeset (Z.lor (vblank_inmodeset c) 2) c) Hd2)
    as (d3 & Hrun3 & He3 & Hf3 & Hlen3 & Hoth3 & Hcr3).
  assert (refs d2 (Z.to_nat crtc) = Some (vblank_refcount c + 1, 1)) as Hr2.
  { destruct Hp2 as (_ & _ & _ & Hr). rewrite Hr, Hr1. cbn. rewrite Z2Nat.id by lia. by rewrite decide_True. }
  eapply wp_of; [exact Hrun3|]. apply (account_crtc n d2 (bump crtc 1 ex) crtc _ _ (vblank_refcount c + 1) 3 _ _ Ha2 (proj1 Hc) Hr2); try done; [| | |tauto|].
  - unfold refs in Hr2 |- *. rewrite Hcr3. destruct (crtcs d2 !! Z.to_nat crtc) as [c2|]; [|done]. cbn in Hr2 |- *.
    injection Hr2 as -> ->. done.
  - intros i Hi. unfold bump. rewrite decide_False by done. lia.
  - apply (proj1 (proj1 (proj2 Ha))).
  - unfold bump. rewrite decide_True by done. cbn. lia.
Qed.

Lemma post_modeset_ok n d ex crtc : account n d ex → 0 <= crtc < n →
  wp (drm_vblank_post_modeset drm_vblank_offdelay crtc) d (λ _ d', account n d' ex).
Proof.
  intros Ha Hc. pose proof (account_ok _ _ _ _ Ha Hc) as Hd. unfold drm_vblank_post_modeset. apply wp_bind.
  change (wp num_crtcs ?s ?Q) with (Q (Z.of_nat (length (crtcs s))) s). cbv beta.
  destruct (_ =? 0); [done|]. destruct (crtc_at_run d crtc Hd) as (c & Hrun & Hl). apply wp_bind.
  eapply wp_of; [exact Hrun|]. cbv beta. destruct (Z.eqb_spec (vblank_inmodeset c) 0) as [|Hm]; [done|].
  destruct (refs_at d crtc Hd) as (c0 & Hl0 & Hr0). assert (c0 = c) as -> by congruence.
  destruct (proj2 (proj1 (proj2 Ha)) _ _ _ Hr0) as [Hrc Hmode]. rewrite Z2Nat.id in Hrc by lia.
  pose proof (on_crtc_nonneg crtc (vblank_event_list d)). pose proof (proj1 (proj1 (proj2 Ha)) crtc).
  apply wp_bind. eapply wp_of; [done|]. cbv beta. set (d1 := set_disable_allowed true d).
  assert (wp (when (z2b (Z.land (vblank_inmodeset c) 2)) (drm_vblank_put drm_vblank_offdelay crtc)) d1
    (λ _ d', refs_plus d d' crtc (- mode_ref (vblank_inmodeset c)))) as Hput.
  { destruct Hmode as [|[Hm1|Hm1]]; [done|..]; rewrite Hm1 in *; cbn in Hrc |- *.
    - apply (refs_plus_refl d).
    - eapply wp_mono; [apply (put_wp d1 crtc Hd)|].
      + intros r m Hr. change (refs d (Z.to_nat crtc) = Some (r, m)) in Hr. rewrite Hr0 in Hr. simplify_eq. lia.
      + by intros ? ? [Hp _]. }
  apply wp_bind. eapply wp_mono; [exact Hput|]. intros [] d2 Hp. cbv beta in Hp |- *.
  destruct Hp as (He2 & Hf2 & Hl2 & Hr2).
  destruct (upd_mode_refs d2 crtc (set_inmodeset 0)) as (d3 & Hrun3 & He3 & Hf3 & Hlen3 & Hoth3 & Hcr3).
  { unfold crtc_ok. rewrite Hl2. done. }
  eapply wp_of; [exact Hrun3|].
  apply (account_crtc n d ex crtc _ _ (vblank_refcount c - mode_ref (vblank_inmodeset c)) 0 _ _ Ha (proj1 Hc) Hr0);
    try congruence; try done; [| |tauto|cbn; lia].
  - specialize (Hr2 (Z.to_nat crtc)). rewrite Hr0 in Hr2. unfold refs in Hr2 |- *. rewrite Hcr3.
    destruct (crtcs d2 !! Z.to_nat crtc) as [c2|]; [|done]. cbn in Hr2 |- *. rewrite Z2Nat.id, decide_True in Hr2 by (done || lia).
    injection Hr2 as -> _. done.
  - intros i Hi. rewrite Hoth3, Hr2 by done. destruct (refs d i) as [[r m]|]; [|done]. cbn.
    rewrite decide_False by lia. by rewrite Z.add_0_r.
Qed.

Lemma modeset_ctl_ok n d ex kms crtc cmd : account n d ex → 0 <= crtc →
  wp (drm_modeset_ctl drm_vblank_offdelay drm_timestamp_precision settle_fuel kms crtc cmd) d (λ _ d', account n d' ex).
Proof.
  intros Ha Hc. unfold drm_modeset_ctl. apply wp_bind.
  change (wp num_crtcs ?s ?Q) with (Q (Z.of_nat (length (crtcs s))) s). cbv beta.
  destruct (_ =? 0); [done|]. destruct kms; [done|]. destruct Ha as [Hn Ha]. rewrite Hn.
  destruct (Z.leb_spec n crtc); [done|]. repeat case_match; try done; apply wp_bind.
  - eapply wp_mono; [apply (pre_modeset_ok n d ex crtc); [done|lia]|]. by intros ? ? ?.
  - eapply wp_mono; [apply (post_modeset_ok n d ex crtc); [done|lia]|]. by intros ? ? ?.
Qed.

(** ** The accounts across the wait ioctl and the operations on files *)

Lemma account_file n d ex ow f v : Z.of_nat (length (crtcs d)) = n → acct d ex ow →
  (∀ g, g ≠ f → ow g = 0) → space_ok v (of_file f (vblank_event_list d)) →
  account n (set_files (<[f:=v]> (files d)) d) ex.
Proof.
  intros Hn Ha Ho Hv. split; [done|]. apply (acct_file d ex ow); [done| |by rewrite Z.add_0_r].
  intros g. split; [done|]. intros Hg. by rewrite Ho.
Qed.

(** A new file. *)
Lemma open_ok n d ex f : account n d ex → files d !! f = None → wp (open_events f) d (λ _ d', account n d' ex).
Proof.
  intros Ha Hf. apply (account_file n d ex (λ _, 0)); [apply Ha|apply Ha|done|].
  assert (of_file f (vblank_event_list d) = 0) as ->.
  { destruct Ha as [_ [_ (_ & He & _)]]. clear -He Hf. induction (vblank_event_list d) as [|e l IH]; [done|].
    apply Forall_cons in He as [(_ & [v Hv] & _) He]. rewrite of_file_cons, IH by done. rewrite decide_False; [done|].
    congruence. }
  unfold space_ok. cbn. split_and!; [lia|lia|by apply Forall_nil].
Qed.

(** The loop of drm_events_release. *)
Lemma drop_pending_ok n f ex l : ∀ kept d ow, Z.of_nat (length (crtcs d)) = n → acct d ex ow →
  (∀ g, g ≠ f → ow g = 0) → vblank_event_list d = kept ++ l →
  wp (drop_pending drm_vblank_offdelay f l kept) d (λ _ d', Z.of_nat (length (crtcs d')) = n ∧
    (∃ ow', acct d' ex ow' ∧ ∀ g, g ≠ f → ow' g = 0) ∧
    vblank_event_list d' = kept ++ filter (λ e, file_priv e ≠ f) l ∧ files d' = files d).
Proof.
  induction l as [|e l IH]; intros kept d ow Hn Ha Ho Hl; cbn [drop_pending].
  { cbn. split_and!; [done|by exists ow|done..]. }
  rewrite filter_cons. case_bool_decide as Hef.
  - rewrite decide_False by tauto.
    assert (event_ok d e) as (Hc & _ & _).
    { destruct Ha as [_ (_ & He & _)]. rewrite Hl in He. by apply Forall_app in He as [_ [? _]%Forall_cons]. }
    pose proof (acct_unlink d ex ow kept e l Ha Hl) as Ha1. apply wp_bind. eapply wp_of; [done|]. cbv beta.
    apply wp_bind. eapply wp_mono; [apply (acct_put _ _ _ (pipe e) Ha1)|].
    { done. } { unfold bump. rewrite decide_True by done. pose proof (proj1 (proj1 Ha) (pipe e)). lia. }
    intros _ d2 (Ha2 & (Hev2 & Hf2 & Hl2 & _) & _). cbv beta.
    assert (acct d2 ex (bump (file_priv e) 1 ow)) as Ha2'.
    { eapply acct_ext; [|done|exact Ha2]. intros i. by rewrite bump_bump, bump_0. }
    eapply wp_mono; [apply (IH kept d2 (bump (file_priv e) 1 ow)); [by rewrite Hl2|exact Ha2'| |exact Hev2]|].
    { intros g Hg. unfold bump. rewrite decide_False by congruence. rewrite Ho by done. lia. }
    intros _ d' (? & ? & ? & Hf'). split_and!; try done. by rewrite Hf'.
  - rewrite decide_True by done.
    eapply wp_mono; [apply (IH (kept ++ [e]) d ow Hn Ha Ho); by rewrite Hl, <- app_assoc|].
    intros _ d' (? & ? & Hev' & ?). rewrite <- app_assoc in Hev'. done.
Qed.

Lemma release_ok n d ex f : account n d ex →
  wp (drm_events_release drm_vblank_offdelay f) d (λ _ d', account n d' ex ∧
    vblank_event_list d' = filter (λ e, file_priv e ≠ f) (vblank_event_list d) ∧ files d' = delete f (files d)).
Proof.
  intros [Hn Ha]. unfold drm_events_release. apply wp_bind. eapply wp_of; [done|]. cbv beta. apply wp_bind.
  eapply wp_mono; [by apply (drop_pending_ok n f ex _ [] d (λ _, 0))|].
  intros _ d' (Hn' & (ow & Ha' & Ho) & Hev & Hf). cbv beta. unfold wp, modify. cbn in Hev.
  split; [split; [done|]|by rewrite <- Hf]. destruct Ha' as [Hr (_ & Hes & Hsp)]. split; [done|split_and!; [done|..]]; cbn.
  - rewrite Hev in Hes |- *. apply Forall_forall. intros e He. rewrite Forall_forall in Hes.
    destruct (Hes e He) as (Hc & Hfe & Hl). apply list_elem_of_filter in He as [Hne _].
    split_and!; [done| |done]. cbn. by rewrite lookup_delete_ne.
  - intros g v Hg. apply lookup_delete_Some in Hg as [Hne Hg]. rewrite <- (Ho g) by done. by apply Hsp.
Qed.

(** Space for one more event is taken from a file. *)
Lemma acct_reserve d ex f v : acct d ex (λ _, 0) → files d !! f = Some v → sizeof_event <= event_space v →
  acct (set_files (<[f := mk_vfile (event_list v) (event_space v - sizeof_event)]> (files d)) d) ex (bump f 1 (λ _, 0)).
Proof.
  intros Ha Hv Hs. apply (acct_file d ex (λ _, 0)); [done|..].
  - intros g. unfold bump. case_decide; split; intros; lia || done.
  - destruct Ha as [_ (_ & _ & H5)]. destruct (H5 f v Hv) as (Hsp & _ & Hf). unfold space_ok, bump. cbn.
    rewrite decide_True by done. split_and!; [lia|lia|done].
Qed.

(** drm_queue_vblank_event consumes the reference its caller took, or keeps it
    with the pending event. *)
Lemma queue_ok n d ex alloc crtc w f : account n d ex → 0 <= crtc < n → 0 < ex crtc → is_Some (files d !! f) →
  wp (drm_queue_vblank_event drm_vblank_offdelay alloc crtc w f) d (λ _ d', account n d' (bump crtc (-1) ex)).
Proof.
  intros Ha Hc Hx [v Hv]. unfold drm_queue_vblank_event.
  assert (∀ r : Z * wait_vblank, wp (drm_vblank_put drm_vblank_offdelay crtc;; mret r) d
    (λ _ d', account n d' (bump crtc (-1) ex))) as Herr.
  { intros r. apply wp_bind. eapply wp_mono; [by apply (account_put n d ex crtc)|]. by intros ? ? ?. }
  destruct alloc; [|apply Herr]. cbn [negb]. apply wp_bind. eapply wp_of; [unfold reads; by rewrite Hv|]. cbv beta.
  destruct (Z.ltb_spec (event_space v) sizeof_event) as [|Hs]; [apply Herr|]. apply wp_bind. eapply wp_of; [done|]. cbv beta.
  pose proof (acct_reserve d ex f v (proj2 Ha) Hv Hs) as Ha1.
  set (d1 := set_files _ d) in *. assert (crtc_ok d1 crtc) as Hd1 by exact (account_ok n d ex crtc Ha Hc).
  apply wp_bind. eapply wp_mono; [apply (keeps_acct crtc _ d1 _ _ (keeps_count_and_time crtc) Hd1 Ha1)|].
  intros [seq now] d2 [Ha2 Hp2]. cbv beta zeta. set (w' := if _ && _ then _ else w). clearbody w'.
  pose proof (refs_plus_ok _ _ _ _ _ Hp2 Hd1) as Hd2. pose proof Hp2 as (Hev2 & Hf2 & Hl2 & _).
  assert (is_Some (files d2 !! f)) as Hfs by (rewrite Hf2; cbn; rewrite lookup_insert_eq; by eexists).
  assert (0 < bump f 1 (λ _, 0) f) as Hw by (unfold bump; rewrite decide_True by done; lia).
  assert (∀ d' ex', acct d' ex' (bump f (-1) (bump f 1 (λ _, 0))) → length (crtcs d') = length (crtcs d2) → account n d' ex') as Hfin.
  { intros d' ex' Ha' Hl'. split; [rewrite Hl', Hl2; apply Ha|]. eapply acct_ext; [done| |exact Ha'].
    intros g. by rewrite bump_bump, bump_0. }
  destruct (seq_passed seq _).
  - apply wp_bind. eapply wp_mono; [by apply (acct_put d2 ex _ crtc Ha2)|]. intros _ d3 (Ha3 & (_ & Hf3 & Hl3 & _) & _).
    cbv beta. apply wp_bind.
    eapply wp_mono; [apply (send_wp d3 _ _ (mk_pe crtc (wsequence w') (mk_tv 0 0) (wsignal w') f sizeof_event) seq now Ha3)|].
    { cbn. by rewrite Hf3. } { done. } { done. }
    intros _ d4 (Ha4 & Hc4 & _). apply (Hfin _ _ Ha4). by rewrite Hc4, Hl3.
  - apply wp_bind. eapply wp_of; [done|].
    set (e := mk_pe crtc (wsequence w') (mk_tv 0 0) (wsignal w') f sizeof_event).
    pose proof (acct_link d2 ex (bump f 1 (λ _, 0)) e Ha2 ltac:(done) Hx Hw) as Ha3.
    by apply (Hfin (set_events (vblank_event_list d2 ++ [e]) d2) _ Ha3).
Qed.

Lemma upd_last_wait_keeps crtc s : keeps crtc (upd_crtc crtc (set_last_wait s)).
Proof. by apply keeps_upd. Qed.

(** The first half of drm_wait_vblank: a sleeper holds a reference. *)
Lemma wait_begin_ok n d ex irq alloc w f : account n d ex → 0 <= wtype w → is_Some (files d !! f) →
  wp (drm_wait_vblank_begin drm_vblank_offdelay drm_timestamp_precision settle_fuel irq alloc w f) d
    (λ s d', match s with
             | Returned _ _ => account n d' ex
             | Sleeping crtc _ => 0 <= crtc < n ∧ account n d' (bump crtc 1 ex)
             end).
Proof.
  intros Ha Hw Hf. unfold drm_wait_vblank_begin. apply wp_bind. eapply wp_of; [done|]. cbv beta.
  destruct (_ || _); [done|]. destruct (z2b _); [done|]. destruct (z2b _); [done|]. cbv zeta.
  set (crtc := if z2b _ then _ else _).
  assert (0 <= crtc) as Hc0.
  { unfold crtc. repeat case_match; try lia. apply Z.shiftr_nonneg, Z.land_nonneg. tauto. }
  clearbody crtc. apply wp_bind. eapply wp_of; [done|]. cbv beta. rewrite (proj1 Ha).
  destruct (Z.leb_spec n crtc) as [|Hcn]; [done|]. apply wp_bind.
  eapply wp_mono; [apply (account_get n d ex crtc Ha); lia|]. intros ret d1 [Ha1 Hp1]. cbv beta.
  destruct (z2b ret) eqn:Hz.
  { eapply account_ext; [|exact Ha1]. intros i. apply bump_0. }
  apply wp_bind. eapply wp_mono; [apply (account_keeps n d1 (bump crtc 1 ex) crtc _ (keeps_bind _ _ _ (keeps_crtc_at crtc) (λ c, keeps_ret _ _)) Ha1); lia|].
  intros seq d2 [Ha2 Hp2]. cbv beta.
  assert (0 < bump crtc 1 ex crtc) as Hpos.
  { unfold bump. rewrite decide_True by done. pose proof (proj1 (proj1 (proj2 Ha)) crtc). lia. }
  assert (∀ i, bump crtc (-1) (bump crtc 1 ex) i = ex i) as Hback by (intros i; by rewrite bump_bump, bump_0).
  destruct (_ && _).
  { apply wp_bind. eapply wp_mono; [apply (account_put n d2 _ crtc Ha2); [lia|done]|].
    intros [] d3 Ha3. by eapply account_ext. }
  set (w' := if _ =? _ then _ else w). clearbody w'.
  destruct (z2b (Z.land (Z.land _ _) _DRM_VBLANK_EVENT)).
  - apply wp_bind. eapply wp_mono; [apply (queue_ok n d2 _ alloc crtc w' f Ha2); [lia|done|]|].
    { destruct Hp2 as (_ & -> & _). destruct Hp1 as (_ & -> & _). done. }
    intros [r w''] d3 Ha3. by eapply account_ext.
  - apply wp_bind. eapply wp_mono; [apply (account_keeps n d2 _ crtc _ (upd_last_wait_keeps crtc _) Ha2); lia|].
    intros [] d3 [Ha3 _]. split; [lia|done].
Qed.

(** The second half drops it. *)
Lemma wait_end_ok n d ex ret crtc w : account n d ex → 0 <= crtc < n → 0 < ex crtc →
  wp (drm_wait_vblank_end drm_vblank_offdelay ret crtc w) d (λ _ d', account n d' (bump crtc (-1) ex)).
Proof.
  intros Ha Hc Hx. unfold drm_wait_vblank_end. apply wp_bind.
  eapply wp_mono; [apply (account_keeps n d ex crtc); [|exact Ha|exact Hc]|].
  { destruct (negb _); [|apply keeps_ret]. apply keeps_bind; [apply keeps_count_and_time|].
    intros [seq now]. apply keeps_ret. }
  intros w' d1 [Ha1 _]. cbv beta. apply wp_bind. eapply wp_mono; [by apply (account_put n d1 ex crtc)|].
  by intros ? ? ?.
Qed.

(** An event leaves the queue of its file. *)
Lemma dequeue_ok n d ex f v total max : account n d ex → files d !! f = Some v →
  wp (drm_dequeue_event f total max) d (λ r d', account n d' ex ∧ ∃ v', files d' !! f = Some v' ∧
    match r with
    | Some e => event_list v = e :: event_list v' ∧ ev_length e + total <= max
    | None => v' = v
    end).
Proof.
  intros Ha Hv. unfold drm_dequeue_event. apply wp_bind. eapply wp_of; [unfold reads; by rewrite Hv|]. cbv beta.
  destruct (event_list v) as [|e l] eqn:Hl; [by split; [|exists v]|]. destruct (Z.ltb_spec max (ev_length e + total)); [by split; [|exists v]|].
  apply wp_bind. eapply wp_of; [done|]. cbv beta. unfold wp, mret, M_ret. split.
  - apply (account_file n d ex (λ _, 0)); [apply Ha|apply Ha|done|].
    destruct Ha as [_ [_ (_ & _ & H5)]]. destruct (H5 f v Hv) as (Hs & Hp & Hf). rewrite Hl in Hs, Hf.
    apply Forall_cons in Hf as [He Hf]. pose proof sizeof_event_pos. unfold space_ok. cbn in Hs |- *.
    split_and!; [rewrite He; lia|lia|done].
  - cbn. rewrite lookup_insert_eq. eexists. split; [done|]. cbn. split; [done|lia].
Qed.

(** drm_read ends, and copies a prefix of the queue, but no more than fills half
    of the room and one event, since [total] counts what [max] has lost. *)
Lemma read_loop_ok n f ex copied fuel : ∀ total max d v, account n d ex → files d !! f = Some v →
  (length (event_list v) < fuel)%nat → 0 <= total <= max + sizeof_event ∨ total = 0 →
  wp (read_loop fuel copied f total max) d (λ r d', account n d' ex ∧ is_Some (files d' !! f) ∧
    r.1 `prefix_of` event_list v ∧ (2 * r.2 <= max + total + sizeof_event ∨ r.2 = 0)).
Proof.
  pose proof sizeof_event_pos.
  induction fuel as [|fuel IH]; intros total max d v Ha Hv Hlen Ht; [lia|]. cbn [read_loop].
  apply wp_bind. eapply wp_mono; [exact (dequeue_ok n d ex f v total max Ha Hv)|].
  intros [e|] d1 (Ha1 & v1 & Hv1 & He); cbv beta.
  2:{ split_and!; [done|by eexists|apply prefix_nil|cbn; lia]. }
  destruct He as [He Hfit]. destruct (copied e); cbn [negb].
  - apply wp_bind. assert (ev_length e = sizeof_event) as Hle.
    { destruct Ha as [_ [_ (_ & _ & H5)]]. destruct (H5 f v Hv) as (_ & _ & Hall). rewrite He in Hall.
      by apply Forall_cons in Hall as [? _]. }
    rewrite He in Hlen. cbn in Hlen.
    eapply wp_mono; [apply (IH (total + ev_length e) (max - ev_length e) d1 v1 Ha1 Hv1); lia|].
    intros [l tot] d2 (Ha2 & Hv2 & Hpre & Htot). cbn in *. split_and!; [done..| |lia].
    rewrite He. by apply prefix_cons.
  - split_and!; [done|by eexists|apply prefix_nil|by right].
Qed.

Lemma read_ok n d ex copied f max : account n d ex → is_Some (files d !! f) →
  wp (drm_read copied f max) d (λ _ d', account n d' ex).
Proof.
  intros Ha [v Hv]. unfold drm_read. apply wp_bind. eapply wp_of; [unfold reads; by rewrite Hv|]. cbv beta.
  eapply wp_mono; [apply (read_loop_ok n f ex copied _ 0 max d v); [done..|lia|by right]|].
  by intros ? ? (? & _).
Qed.

(** ** The accounts across the interrupt handler's installation *)

Lemma stop_crtcs_ok n k i d ex : account n d ex → 0 <= i → i + Z.of_nat k <= n →
  wp (stop_crtcs k i) d (λ _ d', account n d' ex).
Proof.
  revert i d. induction k as [|k IH]; intros i d Ha Hi Hk; cbn [stop_crtcs]; [done|].
  assert (0 <= i < n) as Hc by lia. unfold read_counter.
  apply wp_bind. eapply wp_mono; [apply (account_keeps n d ex i); [by apply keeps_upd|done..]|].
  intros _ d1 [Ha1 _]. cbv beta. apply wp_bind.
  eapply wp_mono; [apply (account_keeps n d1 ex i _ (keeps_callback i _) Ha1 Hc)|]. intros last d2 [Ha2 _]. cbv beta.
  apply wp_bind. eapply wp_mono; [apply (account_keeps n d2 ex i); [by apply keeps_upd|done..]|].
  intros _ d3 [Ha3 _]. cbv beta. apply IH; [done|lia..].
Qed.

Lemma irq_install_ok n d ex p : account n d ex → wp (drm_irq_install p) d (λ _ d', account n d' ex).
Proof.
  intros Ha. unfold drm_irq_install, callback, wp, mbind, M_bind, modify, gets, mret, M_ret.
  repeat case_match; simplify_eq; done.
Qed.

Lemma irq_uninstall_ok n d ex p : account n d ex → wp (drm_irq_uninstall p) d (λ _ d', account n d' ex).
Proof.
  intros Ha. unfold drm_irq_uninstall. destruct (negb _); [done|]. apply wp_bind. eapply wp_of; [done|]. cbv beta.
  apply wp_bind. eapply wp_of; [done|]. cbv beta. apply wp_bind. eapply wp_of; [done|]. cbv beta. apply wp_bind.
  eapply wp_mono; [apply (stop_crtcs_ok n _ 0 (set_irq_enabled false d) ex); [exact Ha|lia|]|].
  { cbn. destruct Ha. lia. }
  intros [] d1 Ha1. cbv beta. destruct (negb _); exact Ha1.
Qed.

(** ** The accounts of the clients *)

(** The references of sleepers and drivers. *)
Definition client_refs (w : world A) (crtc : Z) : Z :=
  Z.of_nat (length (filter (λ s, s.1 = crtc) (sleepers w))) + Z.of_nat (length (filter (λ c, c = crtc) (holders w))).

Definition world_ok (n : Z) (w : world A) : Prop :=
  account n (vd w) (client_refs w) ∧ Forall (λ s, 0 <= s.1 < n) (sleepers w) ∧ Forall (λ c, 0 <= c < n) (holders w).

Lemma filter_delete_length {B} (P : B → Prop) `{∀ x, Decision (P x)} (l : list B) k x : l !! k = Some x →
  Z.of_nat (length (filter P (delete k l))) = Z.of_nat (length (filter P l)) - (if decide (P x) then 1 else 0).
Proof.
  intros Hk. rewrite delete_take_drop. rewrite <- (take_drop_middle l k x Hk) at 3.
  rewrite !filter_app, !length_app, filter_cons. case_decide; cbn [length]; lia.
Qed.

Lemma client_refs_pos {B} (P : B → Prop) `{∀ x, Decision (P x)} (l : list B) k x : l !! k = Some x → P x →
  0 < Z.of_nat (length (filter P l)).
Proof.
  intros Hk Hp. assert (x ∈ filter P l) as Hin by (apply list_elem_of_filter; split; [done|by eapply list_elem_of_lookup_2]).
  destruct (filter P l); [by apply not_elem_of_nil in Hin|cbn; lia].
Qed.

Lemma on_dev_ok {B} n (m : M dev B) w : world_ok n w →
  wp m (vd w) (λ _ d', account n d' (client_refs w)) → ∃ w', on_dev m w = Some w' ∧ world_ok n w'.
Proof.
  intros (_ & Hs & Hh) Hm. apply wp_run in Hm as (b & d' & Hr & Ha). unfold on_dev. rewrite Hr. by eexists.
Qed.

Lemma control_ok n d ex p kms old_if func ctl_irq : account n d ex →
  wp (drm_control p kms old_if func ctl_irq) d (λ _ d', account n d' ex).
Proof.
  intros Ha. unfold drm_control. repeat case_match; try done; [by apply irq_install_ok|by apply irq_uninstall_ok].
Qed.

(** Every operation runs to its end and keeps the accounts. *)
Lemma run_op_ok n o w : world_ok n w → op_ok o w →
  ∃ w', run_op drm_vblank_offdelay drm_timestamp_precision settle_fuel o w = Some w' ∧ world_ok n w'.
Proof.
  intros Hw Ho. pose proof Hw as (Ha & Hs & Hh). pose proof (proj1 Ha) as Hn.
  destruct o as [|crtc|k|crtc|crtc|kms crtc cmd|irq alloc r file|k ret|file|file|copied file max|p kms old func irq];
    cbn [op_ok run_op] in *; try rewrite Hn in Ho.
  - by apply (on_dev_ok n), disable_fn_ok.
  - destruct (wp_run _ _ _ (account_get n (vd w) _ crtc Ha Ho)) as (ret & d' & -> & Ha' & _). eexists. split; [done|].
    destruct (z2b ret); split_and!; cbn; try done; try (by apply Forall_cons).
    + eapply account_ext; [|exact Ha']. intros i. apply bump_0.
    + eapply account_ext; [|exact Ha']. intros i. unfold bump, client_refs. cbn [sleepers holders]. rewrite filter_cons.
      repeat case_decide; simplify_eq; cbn [length]; lia.
  - destruct Ho as [crtc Hk]. rewrite Hk. cbn. pose proof (Forall_lookup_1 _ _ _ _ Hh Hk) as Hc.
    pose proof (client_refs_pos (λ c, c = crtc) (holders w) k crtc Hk eq_refl) as Hpos.
    assert (0 < client_refs w crtc) as Hx by (unfold client_refs; lia).
    destruct (wp_run _ _ _ (account_put n (vd w) _ crtc Ha Hc Hx)) as (u & d' & -> & Ha'). eexists. split; [done|].
    split_and!; cbn; try done; [|by apply Forall_delete].
    eapply account_ext; [|exact Ha']. intros i. unfold bump, client_refs. cbn [sleepers holders].
    rewrite (filter_delete_length _ _ _ _ Hk). repeat case_decide; simplify_eq; lia.
  - by apply (on_dev_ok n), off_ok.
  - by apply (on_dev_ok n), handle_ok.
  - by apply (on_dev_ok n), modeset_ctl_ok.
  - destruct Ho as [Ht Hf].
    destruct (wp_run _ _ _ (wait_begin_ok n (vd w) _ irq alloc r file Ha Ht Hf)) as ([ret r'|crtc r'] & d' & -> & Ha').
    + by eexists.
    + destruct Ha' as [Hc Ha']. eexists. split; [done|]. split_and!; cbn; [|by apply Forall_cons|done].
      eapply account_ext; [|exact Ha']. intros i. unfold bump, client_refs. cbn [sleepers holders]. rewrite filter_cons. cbn.
      repeat case_decide; simplify_eq; cbn [length]; lia.
  - destruct Ho as [[crtc r] Hk]. rewrite Hk. cbn. pose proof (Forall_lookup_1 _ _ _ _ Hs Hk) as Hc. cbn in Hc.
    pose proof (client_refs_pos (λ s, s.1 = crtc) (sleepers w) k (crtc, r) Hk eq_refl) as Hpos.
    assert (0 < client_refs w crtc) as Hx by (unfold client_refs; lia).
    destruct (wp_run _ _ _ (wait_end_ok n (vd w) _ ret crtc r Ha Hc Hx)) as (u & d' & -> & Ha'). eexists. split; [done|].
    split_and!; cbn; try done; [|by apply Forall_delete].
    eapply account_ext; [|exact Ha']. intros i. unfold bump, client_refs. cbn [sleepers holders].
    rewrite (filter_delete_length _ _ _ _ Hk). cbn. repeat case_decide; simplify_eq; lia.
  - by apply (on_dev_ok n), open_ok.
  - apply (on_dev_ok n); [done|]. eapply wp_mono; [by apply release_ok|]. by intros ? ? [? _].
  - by apply (on_dev_ok n), read_ok.
  - by apply (on_dev_ok n), control_ok.
Qed.

(** ** The theorems on references and events *)

Lemma vblank_init_ok num d : vblank_event_list d = [] → files d = ∅ →
  ∃ d', drm_vblank_init num d = Some (0, d') ∧ world_ok (Z.of_nat num) (mk_world d' [] []).
Proof.
  intros He Hf. eexists. split; [done|]. split_and!; [split; [cbn; by rewrite length_replicate|]|by apply Forall_nil..].
  split; [split; [done|]|split_and!; [done| |]].
  - intros i r m Hi. unfold refs in Hi. cbn in Hi |- *. rewrite He. destruct (replicate _ _ !! i) as [c|] eqn:Hc; [|done].
    apply lookup_replicate in Hc as [-> _]. cbn in Hi. simplify_eq. cbn. split; [done|tauto].
  - cbn. rewrite He. by apply Forall_nil.
  - intros f v Hv. cbn in Hv. by rewrite Hf, lookup_empty in Hv.
Qed.


Lemma vblanktimestamp_set n t c : vblanktimestamp n (set_vblanktimestamp n t c) = t.
Proof. unfold vblanktimestamp, set_vblanktimestamp. destruct (_ =? _); done. Qed.

Lemma set_vblanktimestamp_fields n t c : _vblank_count (set_vblanktimestamp n t c) = _vblank_count c ∧
  vblank_refcount (set_vblanktimestamp n t c) = vblank_refcount c.
Proof. unfold set_vblanktimestamp. by destruct (_ =? _). Qed.

Lemma vblanktimestamp_count n m c : vblanktimestamp n (set_count m c) = vblanktimestamp n c.
Proof. done. Qed.

(** Only the hardware's state changes. *)
Lemma callback_hw {B} (f : A → B * A) (d : dev) b d' : callback f d = Some (b, d') → ∃ a, d' = set_hw a d.
Proof. unfold callback. destruct (f (hw d)). intros. simplify_eq. by eexists. Qed.

Lemma timestamp_hw crtc flags d x d' : drm_get_last_vbltimestamp drm_timestamp_precision crtc flags d = Some (x, d') →
  ∃ a, d' = set_hw a d.
Proof.
  unfold drm_get_last_vbltimestamp. cbv zeta. intros Hr.
  assert (∀ d2 d3 (y : Z * timeval), (t ← callback do_gettimeofday; mret (0, t)) d2 = Some (y, d3) → ∃ a, d3 = set_hw a d2) as Hnow.
  { intros d2 d3 y (t & d4 & Hcb & Hret)%M_bind_inv. unfold mret, M_ret in Hret. simplify_eq. by eapply callback_hw. }
  destruct get_vblank_timestamp as [q|]; [|by eapply Hnow]. destruct (_ <? _); [|by eapply Hnow].
  apply M_bind_inv in Hr as ([ret t] & d2 & [a ->]%callback_hw & Hr). destruct (0 <? ret).
  - unfold mret, M_ret in Hr. simplify_eq. by exists a.
  - apply Hnow in Hr as [a' ->]. by exists a'.
Qed.

Lemma settle_hw fuel crtc d x d' : settle drm_timestamp_precision fuel crtc d = Some (x, d') → ∃ a, d' = set_hw a d.
Proof.
  revert d. induction fuel as [|fuel IH]; [done|]. intros d Hs. cbn [settle] in Hs. unfold read_counter in Hs.
  apply M_bind_inv in Hs as (cur & d1 & [a1 ->]%callback_hw & Hs). apply M_bind_inv in Hs as ([rc t] & d2 & [a2 ->]%timestamp_hw & Hs).
  apply M_bind_inv in Hs as (again & d3 & [a3 ->]%callback_hw & Hs). destruct (cur =? again).
  - unfold mret, M_ret in Hs. simplify_eq. by exists a3.
  - apply IH in Hs as [a ->]. by exists a.
Qed.

(** Two updates of the entry of a crtc. *)
Lemma upd_crtc_run d crtc f : crtc_ok d crtc →
  upd_crtc crtc f d = Some (tt, set_crtcs (alter f (Z.to_nat crtc) (crtcs d)) d).
Proof. intros Hd. unfold upd_crtc. destruct (crtc_at_run d crtc Hd) as (c & Hc & _). by mrun Hc. Qed.

Lemma upd_crtc_twice d crtc f g : crtc_ok d crtc → (upd_crtc crtc f;; upd_crtc crtc g) d =
  Some (tt, set_crtcs (alter g (Z.to_nat crtc) (alter f (Z.to_nat crtc) (crtcs d))) d).
Proof.
  intros Hd. mrun (upd_crtc_run d crtc f Hd). rewrite upd_crtc_run; [done|].
  unfold crtc_ok. cbn. by rewrite length_alter.
Qed.

(** What an interrupt with timestamp [t] does to the entry of its crtc. *)
Definition advance (t : timeval) (c : crtc_state) : crtc_state :=
  if DRM_REDUNDANT_VBLIRQ_THRESH_NS <? Z.abs (timeval_to_ns t - timeval_to_ns (vblanktimestamp (_vblank_count c) c))
  then set_count (u32 (_vblank_count c + 1)) (set_vblanktimestamp (u32 (_vblank_count c + 1)) t c) else c.

Lemma advance_run d crtc c t : crtc_ok d crtc → crtcs d !! Z.to_nat crtc = Some c →
  when (DRM_REDUNDANT_VBLIRQ_THRESH_NS <? Z.abs (timeval_to_ns t - timeval_to_ns (vblanktimestamp (_vblank_count c) c)))
    (upd_crtc crtc (set_vblanktimestamp (u32 (_vblank_count c + 1)) t);;
     upd_crtc crtc (λ c, set_count (u32 (_vblank_count c + 1)) c)) d =
  Some (tt, set_crtcs (<[Z.to_nat crtc := advance t c]> (crtcs d)) d).
Proof.
  intros Hd Hl. unfold when, advance. destruct (_ <? _).
  - rewrite upd_crtc_twice by done. do 3 f_equal. apply list_eq. intros i.
    destruct (decide (i = Z.to_nat crtc)) as [->|Hi].
    + rewrite list_lookup_alter_eq, list_lookup_alter_eq, list_lookup_insert_eq, Hl by (by eapply lookup_lt_Some). cbn.
      unfold set_vblanktimestamp. by destruct (_ =? _).
    + by rewrite !list_lookup_alter_ne, list_lookup_insert_ne by done.
  - rewrite list_insert_id by done. by destruct d.
Qed.

(** A vblank interrupt on an enabled crtc counts one
    vblank and stores its timestamp, unless it comes within the threshold of the
    last timestamp; then every pending event of the crtc whose sequence has
    passed at the new count is appended to its file, in order, stamped with the
    count and its timestamp, and gives back its reference; the other events stay
    pending in their order. *)
Theorem handle_vblank_correct n d ex crtc c rc t d1 :
  account n d ex → 0 <= crtc < n →
  crtcs d !! Z.to_nat crtc = Some c → vblank_enabled c = true →
  drm_get_last_vbltimestamp drm_timestamp_precision crtc DRM_CALLED_FROM_VBLIRQ d = Some ((rc, t), d1) →
  let fresh := DRM_REDUNDANT_VBLIRQ_THRESH_NS <? Z.abs (timeval_to_ns t - timeval_to_ns (vblanktimestamp (_vblank_count c) c)) in
  let seq := if fresh then u32 (_vblank_count c + 1) else _vblank_count c in
  let now := if fresh then t else vblanktimestamp (_vblank_count c) c in
  let due e := (pipe e =? crtc) && seq_passed seq (sequence e) in
  let sent := filter (λ e, due e) (vblank_event_list d) in
  ∃ d' c', drm_handle_vblank drm_vblank_offdelay drm_timestamp_precision crtc d = Some (true, d') ∧
    vblank_event_list d' = filter (λ e, ¬ due e) (vblank_event_list d) ∧
    (∀ f, files d' !! f = (λ v, mk_vfile
       (event_list v ++ (stamp seq now <$> filter (λ e, file_priv e = f) sent)) (event_space v)) <$> files d !! f) ∧
    crtcs d' !! Z.to_nat crtc = Some c' ∧ _vblank_count c' = seq ∧ vblanktimestamp seq c' = now ∧
    vblank_enabled c' = true ∧ vblank_refcount c' = vblank_refcount c - on_crtc crtc sent.
Proof.
  intros Ha Hc Hl Hen Hts fresh seq now due sent. pose proof (account_ok _ _ _ _ Ha Hc) as Hd.
  assert (_vblank_count (advance t c) = seq ∧ vblanktimestamp seq (advance t c) = now ∧
    vblank_enabled (advance t c) = true ∧ vblank_refcount (advance t c) = vblank_refcount c ∧
    vblank_inmodeset (advance t c) = vblank_inmodeset c) as (Hn2 & Ht2 & Hen2 & Hr2 & Hm2).
  { unfold advance, seq, now. fold fresh. destruct fresh; [|done]. cbn. rewrite vblanktimestamp_count, vblanktimestamp_set.
    unfold set_vblanktimestamp. by destruct (_ =? _). }
  destruct (timestamp_hw _ _ _ _ _ Hts) as [a ->].
  set (d2 := set_crtcs (<[Z.to_nat crtc := advance t c]> (crtcs d)) (set_hw a d)).
  assert (crtcs d2 !! Z.to_nat crtc = Some (advance t c)) as Hc2.
  { cbn. apply list_lookup_insert_eq. by eapply lookup_lt_Some. }
  assert (account n d2 ex) as Ha2.
  { apply (account_crtc n d ex crtc (vblank_refcount c) (vblank_inmodeset c) (vblank_refcount c) (vblank_inmodeset c) d2 ex Ha);
      try done; [lia|unfold refs; by rewrite Hl|unfold refs; rewrite Hc2; cbn; by rewrite Hr2, Hm2| |cbn; by rewrite length_insert|
        by apply (proj1 (proj1 (proj2 Ha)))|].
    - intros i Hi. unfold refs. cbn. by rewrite list_lookup_insert_ne.
    - destruct (proj2 (proj1 (proj2 Ha)) (Z.to_nat crtc) (vblank_refcount c) (vblank_inmodeset c)) as [_ Hm]; [|done].
      unfold refs. by rewrite Hl. }
  destruct (wp_run _ _ _ (send_pending_wp (λ e, (pipe e =? crtc) && seq_passed seq (sequence e)) seq now ex _ d2 (proj2 Ha2)))
    as ([] & d3 & Hs & _ & He3 & (Hf3 & Hl3 & Hc3)).
  exists d3, (set_refcount (vblank_refcount (advance t c) - on_crtc crtc sent) (advance t c)). split_and!; try done.
  - unfold drm_handle_vblank. mrun (eq_refl : num_crtcs d = Some (Z.of_nat (length (crtcs d)), d)).
    rewrite (proj2 (Z.eqb_neq _ _)) by (destruct Ha; lia).
    assert (crtc_at crtc d = Some (c, d)) as Hat.
    { destruct (crtc_at_run d crtc Hd) as (c0 & Hc0 & Hl0). by replace c with c0 by congruence. }
    mrun Hat. rewrite Hen. cbn [negb]. mrun Hts. mrun (advance_run (set_hw a d) crtc c t Hd Hl).
    eapply eq_trans; [apply (M_bind_Some _ _ _ tt d3)|done]. unfold drm_handle_vblank_events, drm_vblank_count_and_time.
    destruct (crtc_at_run d2 crtc (account_ok _ _ _ _ Ha2 Hc)) as (c4 & Hc4 & Hl4).
    assert (c4 = advance t c) as -> by congruence.
    rewrite M_bind_assoc. mrun Hc4. rewrite ret_bind, Hn2, Ht2. exact Hs.
  - rewrite Hc3, Hc2. cbn. by rewrite Z2Nat.id by lia.
  - cbn. by rewrite Hr2.
Qed.

Lemma missed_wraps max last k : 0 <= last <= max → max < 2 ^ 32 → 0 <= k <= max →
  missed max ((last + k) mod (max + 1)) last = if last + k <=? max then k else k - 1.
Proof.
  intros Hl Hm Hk. unfold missed, wrap. destruct (Z.leb_spec (last + k) max).
  - rewrite (Z.mod_small (last + k)) by lia. rewrite (proj2 (Z.ltb_ge _ _)) by lia. rewrite Z.mod_small; lia.
  - assert ((last + k) mod (max + 1) = last + k - (max + 1)) as ->.
    { symmetry. apply (Z.mod_unique_pos _ _ 1); lia. }
    rewrite (proj2 (Z.ltb_lt _ _)) by lia. rewrite Zplus_mod_idemp_l.
    replace (last + k - (max + 1) - last + max) with (k - 1) by lia. apply Z.mod_small. lia.
Qed.

(** The hardware counter runs modulo
    [max_vblank_count + 1]; of [k] vblanks that passed while it was not read,
    the software counter gains [k], but only [k - 1] when it wrapped; the new
    timestamp, if there is one, is that of the new count. *)
Theorem update_count_loses_wrap d crtc k cur rc t d1 c :
  let max := max_vblank_count d in
  settle drm_timestamp_precision settle_fuel crtc d = Some ((cur, rc, t), d1) →
  crtc_ok d crtc → crtcs d !! Z.to_nat crtc = Some c →
  0 <= last_vblank c <= max → max < 2 ^ 32 → 0 <= k <= max → cur = (last_vblank c + k) mod (max + 1) →
  let count := u32 (_vblank_count c + if last_vblank c + k <=? max then k else k - 1) in
  ∃ d' c', drm_update_vblank_count drm_timestamp_precision settle_fuel crtc d = Some (tt, d') ∧
    crtcs d' !! Z.to_nat crtc = Some c' ∧ _vblank_count c' = count ∧ vblank_refcount c' = vblank_refcount c ∧
    if rc =? 0 then _vblank_time c' = _vblank_time c else vblanktimestamp count c' = t.
Proof.
  intros max Hs Hd Hc Hlast Hmax Hk Hcur count. destruct (settle_hw _ _ _ _ _ Hs) as [a ->].
  pose proof (missed_wraps max (last_vblank c) k Hlast Hmax Hk) as Hmiss. rewrite <- Hcur in Hmiss.
  assert (crtc_at crtc (set_hw a d) = Some (c, set_hw a d)) as Hat.
  { destruct (crtc_at_run (set_hw a d) crtc Hd) as (c0 & Hc0 & Hl0). cbn in Hl0. by replace c with c0 by congruence. }
  unfold drm_update_vblank_count. mrun Hs. cbv beta iota. mrun Hat.
  mrun (eq_refl : gets max_vblank_count (set_hw a d) = Some (max, set_hw a d)). rewrite Hmiss. fold count.
  destruct (rc =? 0) eqn:Hrc; cbn [negb when].
  - rewrite ret_bind, upd_crtc_run by done. eexists _, _. split; [done|]. cbn [crtcs set_crtcs].
    rewrite list_lookup_alter_eq. cbn [crtcs set_hw]. rewrite Hc. by cbn.
  - rewrite upd_crtc_twice by done. eexists _, _. split; [done|]. cbn [crtcs set_crtcs].
    rewrite !list_lookup_alter_eq. cbn [crtcs set_hw]. rewrite Hc. cbn. split; [done|].
    destruct (set_vblanktimestamp_fields count t c) as [Hsc Hsr]. fold count. rewrite Hsc.
    rewrite vblanktimestamp_count, vblanktimestamp_set. by cbn [set_count vblank_refcount].
Qed.
End Frames.

(** ** The lock-free reader *)

(** The reader's position agrees with the log. *)
Definition reader_ok (base : Z) (s : shared) : Prop :=
  match rd s with
  | RStart | RDone _ _ => True
  | RCount cur n0 => (n0 <= length (log s))%nat ∧ cur = u32 (base + Z.of_nat n0)
  | RTime cur t n0 => (n0 <= length (log s))%nat ∧ cur = u32 (base + Z.of_nat n0) ∧
      (n0 = length (log s) → last (log s) = Some t)
  end.

Definition shared_ok (base : Z) (s : shared) : Prop :=
  _vblank_count (entry s) = u32 (base + Z.of_nat (length (log s))) ∧
  last (log s) = Some (vblanktimestamp (_vblank_count (entry s)) (entry s)) ∧
  (∀ t, writing s = Some t → vblanktimestamp (u32 (_vblank_count (entry s) + 1)) (entry s) = t) ∧
  reader_ok base s.

Lemma next_slot_other n t c : vblanktimestamp (u32 n) (set_vblanktimestamp (u32 (u32 n + 1)) t c) = vblanktimestamp (u32 n) c.
Proof.
  unfold vblanktimestamp, set_vblanktimestamp, DRM_VBLANKTIME_RBSIZE, wrap.
  assert (((n mod 2 ^ 32 + 1) mod 2 ^ 32) mod 2 ≠ (n mod 2 ^ 32) mod 2) as Hne.
  { rewrite !Z.mod_mod_divide by (by exists (2 ^ 31)). Z.to_euclidean_division_equations; lia. }
  pose proof (Z.mod_pos_bound ((n mod 2 ^ 32 + 1) mod 2 ^ 32) 2). pose proof (Z.mod_pos_bound (n mod 2 ^ 32) 2).
  repeat case_bool; cbn; done || lia.
Qed.

Lemma sstep_ok base a s s' : shared_ok base s → sstep a s = Some s' → shared_ok base s'.
Proof.
  intros (Hc & Hl & Hw & Hr) Hs. unfold sstep in Hs. destruct a as [t| |].
  - destruct (writing s) eqn:Hws; [done|]. simplify_eq. split_and!; cbn; try done.
    + by rewrite (proj1 (set_vblanktimestamp_fields _ _ _)).
    + rewrite (proj1 (set_vblanktimestamp_fields _ _ _)). rewrite Hl. f_equal. rewrite Hc. by rewrite next_slot_other.
    + intros t' [= ->]. rewrite (proj1 (set_vblanktimestamp_fields _ _ _)). apply vblanktimestamp_set.
  - destruct (writing s) as [t|] eqn:Hws; [|done]. simplify_eq. split_and!; cbn; try done.
    + rewrite Hc, length_app. cbn. unfold wrap. rewrite Zplus_mod_idemp_l. f_equal. lia.
    + rewrite last_snoc, vblanktimestamp_count. by rewrite (Hw t eq_refl).
    + unfold reader_ok in *. cbn. rewrite length_app. cbn. destruct (rd s) as [|cur n0|cur t0 n0|]; try done.
      * destruct Hr. split; [lia|done].
      * destruct Hr as (? & ? & _). split_and!; [lia|done|lia].
  - destruct (rd s) as [|cur n0|cur t0 n0|] eqn:Hrd; [| |destruct (cur =? _)|done]; simplify_eq; split_and!; try done;
      unfold reader_ok in *; rewrite Hrd in Hr; cbn.
    destruct Hr as [Hn Hcur]. split_and!; [done..|]. intros ->. by rewrite Hl, Hc, <- Hcur.
Qed.

(** While interrupts and a reader interleave load
    by load, whenever the reader's second load finds the count it read first,
    within 2^32 interrupts, the timestamp it read is that of the count: the pair
    it returns was current at that moment. *)
Theorem seqlock_read_consistent c s cur t n0 :
  0 <= _vblank_count c < 2 ^ 32 →
  star sstep_rel (mk_shared c None [vblanktimestamp (_vblank_count c) c] RStart) s →
  rd s = RTime cur t n0 → Z.of_nat (length (log s)) - Z.of_nat n0 < 2 ^ 32 → cur = _vblank_count (entry s) →
  sstep Read s = Some (mk_shared (entry s) (writing s) (log s) (RDone cur t)) ∧
  last (log s) = Some t ∧ t = vblanktimestamp cur (entry s).
Proof.
  intros Hc Hstar Hrd Hlt Heq.
  assert (shared_ok (_vblank_count c - 1) s) as (Hcount & Hl & _ & Hr).
  { eapply (star_invariant _ (shared_ok (_vblank_count c - 1))); [|  |exact Hstar].
    - intros a b Ha [x Hx]. by eapply sstep_ok.
    - split_and!; try done. cbn. rewrite u32_id by lia. lia. }
  unfold reader_ok in Hr. rewrite Hrd in Hr. destruct Hr as (Hn & Hcur & Hlast).
  assert (n0 = length (log s)) as Hn0.
  { rewrite Heq, Hcount in Hcur. unfold wrap in Hcur.
    clear -Hcur Hlt Hn. Z.to_euclidean_division_equations; lia. }
  split_and!; [|by apply Hlast|].
  - unfold sstep. destruct (writing s); rewrite Hrd, Heq, Z.eqb_refl; done.
  - rewrite (Hlast Hn0) in Hl. rewrite Heq. congruence.
Qed.

(** ** The durations of a mode *)

(** For every clock and every size a mode can
    have, the durations of a pixel, a line and a frame (a field when the mode is
    interlaced) are the exact ones rounded down, without overflow, and the frame
    is that of its lines up to the rounding. *)
Theorem timestamping_constants_exact clk htotal vtotal interlaced :
  0 < clk <= INT_MAX → 0 < htotal → 0 < vtotal → htotal * vtotal <= INT_MAX →
  let dot := clk * 1000 * (if interlaced : bool then 2 else 1) in
  let d := drm_calc_timestamping_constants clk htotal vtotal interlaced in
  pixeldur_ns d = 1000000000 / dot ∧ linedur_ns d = htotal * 1000000000 / dot ∧
  framedur_ns d = htotal * vtotal * 1000000000 / dot ∧
  vtotal * linedur_ns d <= framedur_ns d < vtotal * (linedur_ns d + 1) ∧ framedur_ns d < 2 ^ 61.
Proof.
  intros Hclk Hh Hv Hhv dot d. unfold INT_MAX in Hclk, Hhv.
  assert (0 < dot < 2 ^ 63) as Hdot by (unfold dot; destruct interlaced; lia).
  assert (htotal <= 2147483647) as Hh2 by nia.
  assert (d = mk_dur (1000000000 / dot) (htotal * 1000000000 / dot) (htotal * vtotal * 1000000000 / dot)) as ->.
  { unfold d, drm_calc_timestamping_constants. rewrite (u64_id clk), (u64_id (clk * 1000)) by lia.
    assert ((if interlaced then u64 (clk * 1000 * 2) else clk * 1000) = dot) as ->.
    { unfold dot. destruct interlaced; [rewrite u64_id by lia|]; lia. }
    rewrite (proj2 (Z.ltb_lt 0 dot)) by lia. rewrite i32_id by (unfold INT_MIN, INT_MAX; nia).
    rewrite (u64_id htotal), (u64_id (htotal * 1000000000)), (u64_id (htotal * vtotal)), (u64_id (htotal * vtotal * 1000000000)) by nia.
    assert (∀ x, 0 <= x < 2 ^ 62 → i64 (x / dot) = x / dot) as Hi.
    { intros x Hx. apply swrap_id; [lia|]. split; [pose proof (Z.div_pos x dot); cbn; lia|].
      apply (Z.le_lt_trans _ x); [apply Z.div_le_upper_bound; nia|cbn; lia]. }
    rewrite !Hi by nia. done. }
  cbn [pixeldur_ns linedur_ns framedur_ns]. split_and!; [done..| | |].
  - Z.to_euclidean_division_equations; nia.
  - apply Z.div_lt_upper_bound; [lia|]. pose proof (Z.mul_div_le (htotal * 1000000000) dot).
    pose proof (Z.mul_succ_div_gt (htotal * 1000000000) dot). nia.
  - apply (Z.le_lt_trans _ (htotal * vtotal * 1000000000)); [apply Z.div_le_upper_bound; nia|nia].
Qed.

(** ** Concrete instances *)

(** The values of drm.h. *)
Definition demo_h : DrmVblankH :=
  Build_DrmVblankH 0 1 1 1946157056 62 1 67108864 268435456 536870912 1073741824 1 2 32 eq_refl.

(** Hardware at frame [a], one frame a second. *)
Definition demo_hw : VblankDriver Z := {|
  get_vblank_counter a _ := (a, a);
  get_vblank_timestamp := None;
  enable_vblank a _ := (0, a);
  disable_vblank a _ := a;
  do_gettimeofday a := (mk_tv a 0, a);
  timeval_to_ns t := tv_sec t * 1000000000 + tv_usec t * 1000;
|}.

Lemma demo_settles (crtc : Z) (d : vdev Z) : @settle Z demo_hw 0 1 crtc d ≠ None.
Proof. unfold settle, read_counter, callback, drm_get_last_vbltimestamp, mbind, M_bind. cbn. by rewrite Z.eqb_refl. Qed.

Definition demo_crtc : crtc_state := mk_cs 7 0 true 0 0 0 (mk_tv 0 0, mk_tv 1 0).

(** A device at frame 5 with the crtcs [cs]. *)
Definition demo_dev (cs : list crtc_state) : vdev Z := mk_vdev 5 cs [] ∅ true false 16777215 false.

Definition demo_d1 : vdev Z := set_disable_allowed false (set_crtcs (replicate 2 (mk_cs 0 0 false 0 0 0 (mk_tv 0 0, mk_tv 0 0))) (demo_dev [])).


Lemma handle_vblank_correct_witness : ∃ d',
  @drm_handle_vblank Z demo_hw 5000 0 0 (demo_dev [demo_crtc]) = Some (true, d') ∧
  _vblank_count <$> (crtcs d' !! 0%nat) = Some 8.
Proof.
  assert (@account Z demo_h 1 (demo_dev [demo_crtc]) (λ _, 0)) as Ha.
  { split; [done|]. split; [split; [done|]|split_and!; [done|by apply Forall_nil|done]].
    intros [|i] r m Hi; [|by destruct i]. cbv in Hi. simplify_eq. split; [done|tauto]. }
  destruct (@handle_vblank_correct Z demo_hw demo_h 5000 0 1 (demo_dev [demo_crtc]) (λ _, 0) 0 demo_crtc 0 (mk_tv 5 0)
    (demo_dev [demo_crtc]) Ha ltac:(lia) eq_refl eq_refl eq_refl) as (d' & c' & Hr & _ & _ & Hc & Hn & _).
  exists d'. split; [exact Hr|]. change (Z.to_nat 0) with 0%nat in Hc. rewrite Hc. cbn. by rewrite Hn.
Defined.

(** The hardware was at frame 16777214 of 16777216, and is at frame 5. *)
Lemma update_count_loses_wrap_witness :
  7 = (16777214 + 7) mod (16777215 + 1) + 2 ∧ ∃ d' c',
  @drm_update_vblank_count Z demo_hw 0 1 0 (demo_dev [mk_cs 100 0 true 16777214 0 0 (mk_tv 0 0, mk_tv 0 0)]) = Some (tt, d') ∧
  crtcs d' !! 0%nat = Some c' ∧ _vblank_count c' = 106.
Proof.
  split; [done|].
  destruct (@update_count_loses_wrap Z demo_hw 0 1 (demo_dev [mk_cs 100 0 true 16777214 0 0 (mk_tv 0 0, mk_tv 0 0)]) 0 7 5 0
    (mk_tv 5 0) (demo_dev [mk_cs 100 0 true 16777214 0 0 (mk_tv 0 0, mk_tv 0 0)]) (mk_cs 100 0 true 16777214 0 0 (mk_tv 0 0, mk_tv 0 0))
    eq_refl ltac:(by unfold crtc_ok; cbn; lia) eq_refl ltac:(cbn; lia) ltac:(cbn; lia) ltac:(cbn; lia) eq_refl)
    as (d' & c' & Hr & Hc & Hn & _).
  exists d', c'. split; [exact Hr|]. split; [exact Hc|]. rewrite Hn. vm_compute. reflexivity.
Defined.

Lemma seqlock_read_consistent_witness : ∃ s t,
  star sstep_rel (mk_shared demo_crtc None [mk_tv 1 0] RStart) s ∧ rd s = RTime 8 t 2 ∧ writing s = Some (mk_tv 3 0) ∧
  t = mk_tv 2 0 ∧ sstep Read s = Some (mk_shared (entry s) (writing s) (log s) (RDone 8 t)).
Proof.
  assert (∃ s, star sstep_rel (mk_shared demo_crtc None [mk_tv 1 0] RStart) s ∧ rd s = RTime 8 (mk_tv 2 0) 2 ∧
    writing s = Some (mk_tv 3 0) ∧ length (log s) = 2%nat ∧ 8 = _vblank_count (entry s)) as (s & Hstar & Hr & Hw & Hl & Hc).
  { eexists. split; [|split_and!].
    - eapply star_step; [exists (WriteSlot (mk_tv 2 0)); vm_compute; reflexivity|].
      eapply star_step; [exists WriteCount; vm_compute; reflexivity|].
      eapply star_step; [exists Read; vm_compute; reflexivity|].
      eapply star_step; [exists (WriteSlot (mk_tv 3 0)); vm_compute; reflexivity|].
      eapply star_step; [exists Read; vm_compute; reflexivity|]. apply star_refl.
    - done.
    - done.
    - done.
    - done. }
  exists s, (mk_tv 2 0). split; [exact Hstar|]. split; [exact Hr|]. split; [exact Hw|]. split; [done|].
  exact (proj1 (seqlock_read_consistent demo_crtc s 8 (mk_tv 2 0) 2 ltac:(cbn; lia) Hstar Hr ltac:(rewrite Hl; cbn; lia) Hc)).
Defined.

(** 1920x1080 at 60 Hz. *)
Lemma timestamping_constants_exact_witness :
  let d := drm_calc_timestamping_constants 148500 2200 1125 false in
  linedur_ns d = 14814 ∧ framedur_ns d = 16666666 ∧ 1125 * linedur_ns d <= framedur_ns d < 1125 * (linedur_ns d + 1).
Proof.
  destruct (timestamping_constants_exact 148500 2200 1125 false) as (_ & Hl & Hf & Hb & _); [unfold INT_MAX; lia..|].
  split; [exact Hl|]. split; [exact Hf|exact Hb].
Defined.
