(* ===== verification/FrameBuf.v ===== *)
(** * drm_crtc.c: framebuffers and who uses them

    A framebuffer is counted: one reference for its id, one for the file that
    created it, one for every crtc and plane that shows it, and those held by
    threads in the middle of a call.  Ids come from the [idr] of the file Idr; a
    pointer is an address, 0 is NULL, and following a pointer to an object that
    was freed is a fault.  One ioctl under the modeset locks is one step, but the
    lookups of drm_mode_setplane and the two halves of drm_mode_rmfb, which take
    the locks one after the other, are steps of their own.  The theorems: the
    counts are exact over all runs, so nothing in use is ever freed; a removed
    framebuffer is shown nowhere; and three ways in which a failed allocation or a
    race between the halves leads to a panic or a dangling id. *)

From Stdlib Require Import String.
From stdpp Require Import base option list gmap fin_maps strings.
From Stdlib Require Import ZArith Lia.
From S2P Require Import Prelude LinuxList Idr Modes Formats.
#[local] Open Scope Z_scope.

(** ** Data *)

(** [struct drm_framebuffer], [struct drm_crtc] and [struct drm_plane], as far as
    drm_crtc.c looks at them. *)
Record fb_info := mk_info {
  fb_width : Z; fb_height : Z; fb_pitches : list Z; fb_offsets : list Z;
  fb_depth : Z; bits_per_pixel : Z; fb_format : Z;
}.
Record framebuffer := mk_fb { fb_id : Z; fb_refcount : Z; info : fb_info }.
Record drm_crtc := mk_kcrtc {
  crtc_id : Z; crtc_fb : Z; crtc_old_fb : Z; invert_dimensions : bool;
  mode_hdisplay : Z; mode_vdisplay : Z; crtc_x : Z; crtc_y : Z;
}.
Record drm_plane := mk_plane { plane_id : Z; plane_crtc : Z; plane_fb : Z; format_types : list Z }.

(** A mode object by its type; of modes and connectors only the id matters. *)
Inductive mode_object :=
  | KFb (f : framebuffer)
  | KCrtc (c : drm_crtc)
  | KPlane (p : drm_plane)
  | KMode (id : Z)
  | KConnector (id : Z).

Definition object_id (o : mode_object) : Z :=
  match o with KFb f => fb_id f | KCrtc c => crtc_id c | KPlane p => plane_id p | KMode id | KConnector id => id end.

(** [struct drm_mode_set]. *)
Record drm_mode_set := mk_set {
  ms_crtc : Z; ms_fb : Z; ms_x : Z; ms_y : Z; ms_mode : option drm_display_mode; ms_connectors : list Z;
}.

(** [struct drm_mode_set_plane]; the fields of the crtc's side start with rq_. *)
Record drm_mode_set_plane := mk_set_plane {
  rq_plane_id : Z; rq_crtc_id : Z; rq_fb_id : Z;
  rq_crtc_x : Z; rq_crtc_y : Z; rq_crtc_w : Z; rq_crtc_h : Z;
  src_x : Z; src_y : Z; src_w : Z; src_h : Z;
}.

(** The callbacks of the driver on its state [A].  set_config may change the
    framebuffer, the mode and the position of any crtc; page_flip, which may be
    missing, gives the new framebuffer of the crtc. *)
Class KmsDriver (A : Type) := {
  set_config : A → (Z → option drm_crtc) → drm_mode_set → Z * (Z → drm_crtc → drm_crtc) * A;
  page_flip : option (A → Z → Z → bool → Z * A);
  update_plane : A → Z → Z → Z → drm_mode_set_plane → Z * A;
  disable_plane : A → Z → Z * A;
  create_handle : option (A → Z → positive → Z * Z * A);
  (** What drm_crtc_helper_set_config promises: a crtc keeps its framebuffer or
      loses it, or it is the crtc of the request and takes the one of the
      request; after a success it does not keep the old one. *)
  set_config_fb a cs s ret upd a' : set_config a cs s = (ret, upd, a') → ∀ p c,
    crtc_id (upd p c) = crtc_id c ∧ crtc_old_fb (upd p c) = crtc_old_fb c ∧
    (crtc_fb (upd p c) = crtc_fb c ∨ crtc_fb (upd p c) = 0 ∨ p = ms_crtc s ∧ crtc_fb (upd p c) = ms_fb s);
  set_config_ok a cs s upd a' : set_config a cs s = (0, upd, a') → ∀ c,
    crtc_fb (upd (ms_crtc s) c) = ms_fb s ∨ crtc_fb (upd (ms_crtc s) c) = 0;
}.

(** [struct drm_mode_config] with all mode objects, the framebuffers and the space
    for events of the open files, and the driver. *)
Record kms (A : Type) := mk_kms {
  objs : gmap Z mode_object;
  crtc_idr : idr;
  fb_list : list Z;
  num_fb : Z;
  crtc_list : list Z;
  plane_list : list Z;
  num_connector : Z;
  fbs : gmap positive (list Z);
  event_space : gmap positive Z;
  drv : A;
}.
Arguments mk_kms {_} _ _ _ _ _ _ _ _ _ _.
Arguments objs {_} _.
Arguments crtc_idr {_} _.
Arguments fb_list {_} _.
Arguments num_fb {_} _.
Arguments crtc_list {_} _.
Arguments plane_list {_} _.
Arguments num_connector {_} _.
Arguments fbs {_} _.
Arguments event_space {_} _.
Arguments drv {_} _.

Section Kms.
Context {A : Type} `{KmsDriver A, Fourcc, DrmModeH} (sizeof_event : Z).
Abbreviation st := (kms A).

Definition set_objs (m : gmap Z mode_object) (s : st) : st :=
  mk_kms m (crtc_idr s) (fb_list s) (num_fb s) (crtc_list s) (plane_list s) (num_connector s) (fbs s) (event_space s) (drv s).
Definition set_idr (i : idr) (s : st) : st :=
  mk_kms (objs s) i (fb_list s) (num_fb s) (crtc_list s) (plane_list s) (num_connector s) (fbs s) (event_space s) (drv s).
Definition set_fb_list (l : list Z) (n : Z) (s : st) : st :=
  mk_kms (objs s) (crtc_idr s) l n (crtc_list s) (plane_list s) (num_connector s) (fbs s) (event_space s) (drv s).
Definition set_lists (cs ps : list Z) (n : Z) (s : st) : st :=
  mk_kms (objs s) (crtc_idr s) (fb_list s) (num_fb s) cs ps n (fbs s) (event_space s) (drv s).
Definition set_fbs (m : gmap positive (list Z)) (s : st) : st :=
  mk_kms (objs s) (crtc_idr s) (fb_list s) (num_fb s) (crtc_list s) (plane_list s) (num_connector s) m (event_space s) (drv s).
Definition set_space (m : gmap positive Z) (s : st) : st :=
  mk_kms (objs s) (crtc_idr s) (fb_list s) (num_fb s) (crtc_list s) (plane_list s) (num_connector s) (fbs s) m (drv s).
Definition set_drv (a : A) (s : st) : st :=
  mk_kms (objs s) (crtc_idr s) (fb_list s) (num_fb s) (crtc_list s) (plane_list s) (num_connector s) (fbs s) (event_space s) a.

(** An operation on the ids, under idr_mutex. *)
Definition on_idr {B} (m : M idr B) : M st B := λ s,
  match m (crtc_idr s) with Some (b, i) => Some (b, set_idr i s) | None => None end.

(** A call of the driver that changes its state only. *)
Definition call {B} (f : A → B * A) : M st B := λ s, let '(b, a) := f (drv s) in Some (b, set_drv a s).

Definition obj_at (p : Z) : M st mode_object := reads (λ s, objs s !! p).
Definition put_obj (p : Z) (o : mode_object) : M st unit := obj_at p;; modify (λ s, set_objs (<[p := o]> (objs s)) s).
Definition fb_at (p : Z) : M st framebuffer := reads (λ s, match objs s !! p with Some (KFb f) => Some f | _ => None end).
Definition crtc_at (p : Z) : M st drm_crtc := reads (λ s, match objs s !! p with Some (KCrtc c) => Some c | _ => None end).
Definition plane_at (p : Z) : M st drm_plane := reads (λ s, match objs s !! p with Some (KPlane q) => Some q | _ => None end).
Definition free (p : Z) : M st unit := obj_at p;; modify (λ s, set_objs (delete p (objs s)) s).

(** ** Ids *)

Definition with_id (id : Z) (o : mode_object) : mode_object :=
  match o with
  | KFb f => KFb (mk_fb id (fb_refcount f) (info f))
  | KCrtc c => KCrtc (mk_kcrtc id (crtc_fb c) (crtc_old_fb c) (invert_dimensions c) (mode_hdisplay c) (mode_vdisplay c) (crtc_x c) (crtc_y c))
  | KPlane p => KPlane (mk_plane id (plane_crtc p) (plane_fb p) (format_types p))
  | KMode _ => KMode id
  | KConnector _ => KConnector id
  end.

(** [alloc]: whether the allocation in idr_get_new_above succeeds; [tries] bounds
    the loop [again: .. goto again]. *)
Fixpoint object_get_again (tries : nat) (p : Z) (alloc : bool) : M st Z :=
  match tries with
  | O => fault
  | S tries =>
    if idr_pre_get =? 0 then mret (- ENOMEM) else
    '(ret, new_id) ← on_idr (idr_get_new_above p 1 alloc);
    match new_id with
    | Some id => when (ret =? 0) (o ← obj_at p; put_obj p (with_id id o))
    | None => mret tt
    end;;
    if ret =? - EAGAIN then object_get_again tries p alloc else mret ret
  end.

Definition drm_mode_object_get (p : Z) (alloc : bool) : M st Z := object_get_again 2 p alloc.

(** [alloc]: whether the allocation in idr_remove succeeds. *)
Definition drm_mode_object_put (p : Z) (alloc : bool) : M st unit :=
  o ← obj_at p;
  on_idr (idr_remove (object_id o) alloc);;
  mret tt.

(** [is_type] stands for the test [obj->type != type]. *)
Definition find_object (id : Z) (is_type : mode_object → bool) : M st Z :=
  p ← on_idr (idr_find id);
  if p =? 0 then mret 0 else
  o ← obj_at p;
  mret (if negb (is_type o) || negb (object_id o =? id) then 0 else p).

Definition is_fb (o : mode_object) : bool := match o with KFb _ => true | _ => false end.
Definition is_crtc (o : mode_object) : bool := match o with KCrtc _ => true | _ => false end.
Definition is_plane (o : mode_object) : bool := match o with KPlane _ => true | _ => false end.
Definition is_connector (o : mode_object) : bool := match o with KConnector _ => true | _ => false end.

Definition drm_mode_object_find (id : Z) (is_type : mode_object → bool) : M st Z := find_object id is_type.

(** ** References *)

Definition add_ref (k : Z) (f : framebuffer) : framebuffer :=
  mk_fb (fb_id f) (fb_refcount f + k) (info f).

Definition drm_framebuffer_reference (p : Z) : M st unit := f ← fb_at p; put_obj p (KFb (add_ref 1 f)).

Definition put_ref (p : Z) (release : M st unit) : M st unit :=
  f ← fb_at p;
  put_obj p (KFb (add_ref (-1) f));;
  when (fb_refcount f - 1 =? 0) release.

(** Take the framebuffer off the list: one that is not on it has no links. *)
Definition drm_framebuffer_cleanup (p : Z) : M st unit :=
  s ← get;
  BUG_ON (negb (bool_decide (p ∈ fb_list s)));;
  modify (λ s, set_fb_list (remove_elem p (fb_list s)) (num_fb s - 1) s).

(** The driver's destroy callback: the clean-up, then the memory is freed (the
    buffer object, which i915 drops in between, belongs to the file Gem). *)
Definition destroy (p : Z) : M st unit := drm_framebuffer_cleanup p;; free p.

Definition drm_framebuffer_free (p : Z) : M st unit := destroy p.

Definition drm_framebuffer_free_bug : M st unit := BUG_ON true.

Definition drm_framebuffer_unreference (p : Z) : M st unit := put_ref p (drm_framebuffer_free p).
Definition __drm_framebuffer_unreference (p : Z) : M st unit := put_ref p drm_framebuffer_free_bug.

(** A framebuffer the driver has filled in, at [p]. *)
Definition drm_framebuffer_init (p : Z) (alloc : bool) : M st Z :=
  f ← fb_at p;
  put_obj p (KFb (mk_fb (fb_id f) 1 (info f)));;
  ret ← drm_mode_object_get p alloc;
  when (ret =? 0) (
    drm_framebuffer_reference p;;
    modify (λ s, set_fb_list (p :: fb_list s) (num_fb s + 1) s));;
  mret 0.

Definition __drm_framebuffer_lookup (id : Z) : M st Z := find_object id is_fb.

Definition drm_framebuffer_lookup (id : Z) : M st Z :=
  p ← __drm_framebuffer_lookup id;
  when (z2b p) (drm_framebuffer_reference p);;
  mret p.

Definition __drm_framebuffer_unregister (p : Z) (alloc : bool) : M st unit :=
  f ← fb_at p;
  on_idr (idr_remove (fb_id f) alloc);;
  put_obj p (with_id 0 (KFb f));;
  __drm_framebuffer_unreference p.

(** ** Modesetting *)

Definition with_old_fb (c : drm_crtc) : drm_crtc :=
  mk_kcrtc (crtc_id c) (crtc_fb c) (crtc_fb c) (invert_dimensions c) (mode_hdisplay c) (mode_vdisplay c) (crtc_x c) (crtc_y c).

(** The driver's set_config: it sees the crtcs and may change each of them. *)
Definition call_set_config (set : drm_mode_set) : M st Z :=
  s ← get;
  let crtcs p := match objs s !! p with Some (KCrtc c) => Some c | _ => None end in
  let '(ret, upd, a) := set_config (drv s) crtcs set in
  modify (set_drv a);;
  for_each (crtc_list s) (λ p, c ← crtc_at p; put_obj p (KCrtc (upd p c)));;
  mret ret.

Definition drm_mode_set_config_internal (set : drm_mode_set) : M st Z :=
  s ← get;
  for_each (crtc_list s) (λ p, c ← crtc_at p; put_obj p (KCrtc (with_old_fb c)));;
  ret ← call_set_config set;
  for_each (crtc_list s) (λ p,
    c ← crtc_at p;
    when (z2b (crtc_fb c)) (drm_framebuffer_reference (crtc_fb c));;
    when (z2b (crtc_old_fb c)) (drm_framebuffer_unreference (crtc_old_fb c)));;
  mret ret.

Definition no_fb (q : drm_plane) : drm_plane := mk_plane (plane_id q) 0 0 (format_types q).

Definition drm_plane_force_disable (p : Z) : M st unit :=
  q ← plane_at p;
  if plane_fb q =? 0 then mret tt else
  call (λ a, disable_plane a p);;
  __drm_framebuffer_unreference (plane_fb q);;
  put_obj p (KPlane (no_fb q)).

Definition drm_framebuffer_remove (p : Z) : M st unit :=
  f ← fb_at p;
  when (1 <? fb_refcount f) (
    s ← get;
    for_each (crtc_list s) (λ c,
      r ← crtc_at c;
      when (crtc_fb r =? p) (drm_mode_set_config_internal (mk_set c 0 0 0 None []);; mret tt));;
    for_each (plane_list s) (λ q,
      r ← plane_at q;
      when (plane_fb r =? p) (drm_plane_force_disable q)));;
  drm_framebuffer_unreference p.

(** ** Creating and removing framebuffers *)

Definition drm_helper_mode_fill_fb_struct (r : drm_mode_fb_cmd2) : fb_info :=
  let '(depth, bpp) := drm_fb_get_bpp_depth (pixel_format r) in
  mk_info (fbc_width r) (fbc_height r) (pitches r) (offsets r) depth bpp (pixel_format r).

(** The driver's fb_create: it may refuse the request; else it allocates the
    framebuffer at the address [p], fills it in and initialises it. *)
Definition fb_create (accept : bool) (p : Z) (r : drm_mode_fb_cmd2) (alloc : bool) : M st Z :=
  if negb accept then mret 0 else
  modify (λ s, set_objs (<[p := KFb (mk_fb 0 0 (drm_helper_mode_fill_fb_struct r))]> (objs s)) s);;
  drm_framebuffer_init p alloc;;
  mret p.

(** [struct drm_mode_config]'s bounds on the size. *)
Record fb_limits := mk_limits { min_width : Z; max_width : Z; min_height : Z; max_height : Z }.

Definition bad_size (l : fb_limits) (r : drm_mode_fb_cmd2) : bool :=
  (u32 (min_width l) >? fbc_width r) || (fbc_width r >? u32 (max_width l)) ||
  (u32 (min_height l) >? fbc_height r) || (fbc_height r >? u32 (max_height l)).

(** The end of both ADDFB ioctls: the result and [fb_id], if it is assigned. *)
Definition add_to_file (file : positive) (p : Z) : M st (Z * option Z) :=
  if p =? 0 then mret (- ENOMEM, None) else
  f ← fb_at p;
  l ← reads (λ s, fbs s !! file);
  modify (λ s, set_fbs (<[file := p :: l]> (fbs s)) s);;
  mret (0, Some (fb_id f)).

(** [struct drm_mode_fb_cmd]. *)
Record drm_mode_fb_cmd := mk_fb_cmd { or_width : Z; or_height : Z; or_pitch : Z; or_bpp : Z; or_depth : Z; or_handle : Z }.

Definition legacy_cmd (or : drm_mode_fb_cmd) : drm_mode_fb_cmd2 :=
  mk_fb_cmd2 (or_width or) (or_height or) (drm_mode_legacy_fb_format (or_bpp or) (or_depth or)) 0
    [or_handle or; 0; 0; 0] [or_pitch or; 0; 0; 0] [0; 0; 0; 0].

Definition drm_mode_addfb (modeset : bool) (l : fb_limits) (file : positive) (or : drm_mode_fb_cmd) (accept : bool) (p : Z) (alloc : bool)
    : M st (Z * option Z) :=
  let r := legacy_cmd or in
  if negb modeset then mret (- EINVAL, None) else
  if bad_size l r then mret (- EINVAL, None) else
  p ← fb_create accept p r alloc;
  add_to_file file p.

(** [interlaced]: DRM_MODE_FB_INTERLACED. *)
Definition drm_mode_addfb2 (modeset : bool) (interlaced : Z) (l : fb_limits) (file : positive) (r : drm_mode_fb_cmd2)
    (accept : bool) (p : Z) (alloc : bool) : M st (Z * option Z) :=
  if negb modeset then mret (- EINVAL, None) else
  if z2b (Z.land (fbc_flags r) (Z.lnot interlaced)) then mret (- EINVAL, None) else
  if bad_size l r then mret (- EINVAL, None) else
  ret ← reads (λ _, framebuffer_check r);
  if z2b ret then mret (ret, None) else
  p ← fb_create accept p r alloc;
  add_to_file file p.

(** The half of drm_mode_rmfb under fbs_lock and fb_lock: the framebuffer, 0 when
    the id is not one of the file's; the file's reference is the caller's now. *)
Definition rmfb_unregister (file : positive) (id : Z) (alloc : bool) : M st Z :=
  p ← __drm_framebuffer_lookup id;
  if p =? 0 then mret 0 else
  l ← reads (λ s, fbs s !! file);
  if negb (bool_decide (p ∈ l)) then mret 0 else
  __drm_framebuffer_unregister p alloc;;
  modify (λ s, set_fbs (<[file := remove_elem p l]> (fbs s)) s);;
  mret p.

Definition drm_mode_rmfb (modeset : bool) (file : positive) (id : Z) (alloc : bool) : M st Z :=
  if negb modeset then mret (- EINVAL) else
  p ← rmfb_unregister file id alloc;
  if p =? 0 then mret (- EINVAL) else
  drm_framebuffer_remove p;;
  mret 0.

(** The loop of drm_fb_release: the next element is read before the current one
    goes. *)
Fixpoint release_fbs (file : positive) (l : list Z) (alloc : bool) : M st unit :=
  match l with
  | [] => mret tt
  | p :: l =>
    __drm_framebuffer_unregister p alloc;;
    rest ← reads (λ s, fbs s !! file);
    modify (λ s, set_fbs (<[file := remove_elem p rest]> (fbs s)) s);;
    drm_framebuffer_remove p;;
    release_fbs file l alloc
  end.

(** The file is closed with its list. *)
Definition drm_fb_release (file : positive) (alloc : bool) : M st unit :=
  l ← reads (λ s, fbs s !! file);
  release_fbs file l alloc;;
  modify (λ s, set_fbs (delete file (fbs s)) s).

(** The result and, if there is a framebuffer, its data (of which the first
    pitch, the size, the depth and the bits per pixel are copied) and the handle
    that create_handle stores, if it is called. *)
Definition drm_mode_getfb (modeset : bool) (file : positive) (id : Z) : M st (Z * option (fb_info * option Z)) :=
  if negb modeset then mret (- EINVAL, None) else
  p ← drm_framebuffer_lookup id;
  if p =? 0 then mret (- EINVAL, None) else
  f ← fb_at p;
  '(ret, handle) ← match create_handle with
    | Some create => '(ret, handle) ← call (λ a, create a p file); mret (ret, Some handle)
    | None => mret (- ENODEV, None)
    end;
  drm_framebuffer_unreference p;;
  mret (ret, Some (info f, handle)).

(** ** Planes *)

Definition setplane_off (q : Z) : M st unit :=
  r ← plane_at q;
  call (λ a, disable_plane a q);;
  r' ← plane_at q;
  put_obj q (KPlane (no_fb r'));;
  when (z2b (plane_fb r)) (drm_framebuffer_unreference (plane_fb r)).

(** Why the framebuffer [f] is refused, or 0. *)
Definition setplane_check (rq : drm_mode_set_plane) (r : drm_plane) (f : framebuffer) : Z :=
  if negb (bool_decide (fb_format (info f) ∈ format_types r)) then - EINVAL else
  if source_outside (fb_width (info f)) (fb_height (info f)) (src_x rq) (src_y rq) (src_w rq) (src_h rq) then - ENOSPC else
  if dest_overflows (rq_crtc_x rq) (rq_crtc_y rq) (rq_crtc_w rq) (rq_crtc_h rq) then - ERANGE else 0.

(** The part under the modeset locks; the reference of the caller to [p] is the
    plane's then, or dropped. *)
Definition setplane_update (q c p : Z) (rq : drm_mode_set_plane) : M st Z :=
  ret ← call (λ a, update_plane a q c p rq);
  if ret =? 0 then
    r ← plane_at q;
    put_obj q (KPlane (mk_plane (plane_id r) c p (format_types r)));;
    when (z2b (plane_fb r)) (drm_framebuffer_unreference (plane_fb r));;
    mret 0
  else drm_framebuffer_unreference p;; mret ret.

(** The lookups before the locks: the plane, the crtc and the framebuffer, which
    is referenced, or the result of the ioctl. *)
Definition setplane_find (rq : drm_mode_set_plane) : M st (Z + Z * Z * Z) :=
  q ← drm_mode_object_find (rq_plane_id rq) is_plane;
  if q =? 0 then mret (inl (- ENOENT)) else
  if rq_fb_id rq =? 0 then setplane_off q;; mret (inl 0) else
  c ← drm_mode_object_find (rq_crtc_id rq) is_crtc;
  if c =? 0 then mret (inl (- ENOENT)) else
  p ← drm_framebuffer_lookup (rq_fb_id rq);
  if p =? 0 then mret (inl (- ENOENT)) else
  r ← plane_at q;
  f ← fb_at p;
  let ret := setplane_check rq r f in
  if z2b ret then drm_framebuffer_unreference p;; mret (inl ret) else mret (inr (q, c, p)).

Definition drm_mode_setplane (modeset : bool) (rq : drm_mode_set_plane) : M st Z :=
  if negb modeset then mret (- EINVAL) else
  r ← setplane_find rq;
  match r with
  | inl ret => mret ret
  | inr (q, c, p) => setplane_update q c p rq
  end.

(** ** Crtcs *)

(** [struct drm_mode_modeinfo]. *)
Record drm_mode_modeinfo := mk_modeinfo { mi_name : string; mi_type : Z; mi_tm : timings; mi_vrefresh : Z }.

(** The mode [out] with the fields of [info]; strncpy of the name cuts it off. *)
Definition drm_crtc_convert_umode (out : drm_display_mode) (i : drm_mode_modeinfo) : Z * drm_display_mode :=
  if (INT_MAX <? clock (mi_tm i)) || (INT_MAX <? mi_vrefresh i) then (- ERANGE, out) else
  (0, mk_mode (base_id out) (String.substring 0 (DRM_DISPLAY_MODE_LEN - 1) (mi_name i)) (status out) (mi_type i) (mi_tm i)
        (width_mm out) (height_mm out) (crtc out) (mi_vrefresh i) (hsync out)).

(** A mode object at the address [m]: 0 when [m] is 0 or there is no id for it. *)
Definition create_mode (m : Z) (alloc : bool) : M st Z :=
  if m =? 0 then mret 0 else
  modify (λ s, set_objs (<[m := KMode 0]> (objs s)) s);;
  ret ← drm_mode_object_get m alloc;
  if z2b ret then free m;; mret 0 else mret m.

Definition drm_mode_destroy (m : Z) (put_alloc : bool) : M st unit :=
  if m =? 0 then mret tt else drm_mode_object_put m put_alloc;; free m.

(** What setcrtc gets from elsewhere: the address of its mode (0 if there is no
    memory), whether the ids can be allocated and freed, whether the list of
    connectors can, and the list in user memory, [None] where it cannot be
    read. *)
Record setcrtc_env := mk_env { mode_addr : Z; id_alloc : bool; put_alloc : bool; list_alloc : bool; user_ids : list (option Z) }.

Record drm_mode_crtc := mk_mode_crtc {
  rq_crtc : Z; rq_fb : Z; rq_x : Z; rq_y : Z; rq_mode_valid : bool; rq_mode : drm_mode_modeinfo; count_connectors : Z;
}.

(** The framebuffer of the request, referenced: -1 is the current one. *)
Definition setcrtc_fb (c : Z) (id : Z) : M st Z :=
  if id =? u32 (-1) then
    r ← crtc_at c;
    if crtc_fb r =? 0 then mret 0 else drm_framebuffer_reference (crtc_fb r);; mret (crtc_fb r)
  else drm_framebuffer_lookup id.

(** The mode at [m] from the user's, and the test of the viewport. *)
Definition setcrtc_mode (rq : drm_mode_crtc) (c p m : Z) : M st (Z * option drm_display_mode) :=
  o ← obj_at m;
  let '(ret, mode) := drm_crtc_convert_umode (mk_mode (object_id o) "" 0 0 zero_timings 0 0 zero_crtc 0 0) (rq_mode rq) in
  if z2b ret then mret (ret, None) else
  let mode := drm_mode_set_crtcinfo (Some mode) CRTC_INTERLACE_HALVE_V in
  r ← crtc_at c;
  f ← fb_at p;
  match mode with
  | None => mret (0, None)
  | Some mode =>
    if viewport_outside (invert_dimensions r) (hdisplay (tm mode)) (vdisplay (tm mode)) (rq_x rq) (rq_y rq)
         (fb_width (info f)) (fb_height (info f)) then mret (- ENOSPC, Some mode) else mret (0, Some mode)
  end.

(** The connectors: a result and the list. *)
Fixpoint find_connectors (ids : list (option Z)) (n : nat) {struct n} : M st (Z * list Z) :=
  match n with
  | O => mret (0, [])
  | S n =>
    match ids with
    | Some id :: ids =>
      p ← drm_mode_object_find id is_connector;
      if p =? 0 then mret (- EINVAL, []) else
      '(ret, l) ← find_connectors ids n;
      mret (ret, p :: l)
    | _ => mret (- EFAULT, [])
    end
  end.

(** From the test of count_connectors on. *)
Definition setcrtc_config (rq : drm_mode_crtc) (e : setcrtc_env) (c p : Z) (mode : option drm_display_mode) : M st Z :=
  let has_mode := match mode with Some _ => true | None => false end in
  if (count_connectors rq =? 0) && has_mode then mret (- EINVAL) else
  if (0 <? count_connectors rq) && (negb has_mode || (p =? 0)) then mret (- EINVAL) else
  '(ret, l) ← (if 0 <? count_connectors rq then
     n ← gets num_connector;
     if u32 n <? count_connectors rq then mret (- EINVAL, []) else
     if negb (list_alloc e) then mret (- ENOMEM, []) else
     find_connectors (user_ids e) (Z.to_nat (count_connectors rq))
   else mret (0, []));
  if z2b ret then mret ret else
  drm_mode_set_config_internal (mk_set c p (rq_x rq) (rq_y rq) mode l).

(** The framebuffer is dropped and the mode destroyed at the end. *)
Definition setcrtc_out (p m ret : Z) (e : setcrtc_env) : M st Z :=
  when (z2b p) (drm_framebuffer_unreference p);;
  drm_mode_destroy m (put_alloc e);;
  mret ret.

Definition drm_mode_setcrtc (modeset : bool) (rq : drm_mode_crtc) (e : setcrtc_env) : M st Z :=
  if negb modeset then mret (- EINVAL) else
  if (INT_MAX <? rq_x rq) || (INT_MAX <? rq_y rq) then mret (- ERANGE) else
  c ← drm_mode_object_find (rq_crtc rq) is_crtc;
  if c =? 0 then mret (- EINVAL) else
  if rq_mode_valid rq then
    p ← setcrtc_fb c (rq_fb rq);
    if p =? 0 then mret (- EINVAL) else
    m ← create_mode (mode_addr e) (id_alloc e);
    if m =? 0 then setcrtc_out p 0 (- ENOMEM) e else
    '(ret, mode) ← setcrtc_mode rq c p m;
    if z2b ret then setcrtc_out p m ret e else
    ret ← setcrtc_config rq e c p mode;
    setcrtc_out p m ret e
  else
    ret ← setcrtc_config rq e c 0 None;
    setcrtc_out 0 0 ret e.

(** [flags] ([event]: DRM_MODE_PAGE_FLIP_EVENT) and [reserved] are as they should
    be or not; [alloc]: the event can be allocated. *)
Definition drm_mode_page_flip_ioctl (flags_ok event alloc : bool) (file : positive) (c_id f_id : Z) : M st Z :=
  if negb flags_ok then mret (- EINVAL) else
  c ← drm_mode_object_find c_id is_crtc;
  if c =? 0 then mret (- EINVAL) else
  r ← crtc_at c;
  if crtc_fb r =? 0 then mret (- EBUSY) else
  match page_flip with
  | None => mret (- EINVAL)
  | Some flip =>
    p ← drm_framebuffer_lookup f_id;
    if p =? 0 then mret (- EINVAL) else
    f ← fb_at p;
    if viewport_outside (invert_dimensions r) (mode_hdisplay r) (mode_vdisplay r) (crtc_x r) (crtc_y r)
         (fb_width (info f)) (fb_height (info f)) then drm_framebuffer_unreference p;; mret (- ENOSPC) else
    old ← fb_at (crtc_fb r);
    if negb (fb_format (info old) =? fb_format (info f)) then drm_framebuffer_unreference p;; mret (- EINVAL) else
    space ← reads (λ s, event_space s !! file);
    if event && (space <? sizeof_event) then drm_framebuffer_unreference p;; mret (- ENOMEM) else
    if event && negb alloc then drm_framebuffer_unreference p;; mret (- ENOMEM) else
    when event (modify (λ s, set_space (<[file := space - sizeof_event]> (event_space s)) s));;
    ret ← call (λ a, flip a c p event);
    if z2b ret then
      when event (space ← reads (λ s, event_space s !! file);
        modify (λ s, set_space (<[file := space + sizeof_event]> (event_space s)) s));;
      drm_framebuffer_unreference p;; mret ret
    else
      put_obj c (KCrtc (mk_kcrtc (crtc_id r) p (crtc_old_fb r) (invert_dimensions r) (mode_hdisplay r) (mode_vdisplay r) (crtc_x r) (crtc_y r)));;
      drm_framebuffer_unreference (crtc_fb r);;
      mret 0
  end.

(** ** Crtcs, planes and connectors of the driver, at the address [p] *)

Definition drm_crtc_init (p : Z) (alloc : bool) : M st Z :=
  modify (λ s, set_objs (<[p := KCrtc (mk_kcrtc 0 0 0 false 0 0 0 0)]> (objs s)) s);;
  ret ← drm_mode_object_get p alloc;
  if z2b ret then mret ret else
  modify (λ s, set_lists (crtc_list s ++ [p]) (plane_list s) (num_connector s) s);;
  mret 0.

Definition drm_plane_init (p : Z) (formats : list Z) (alloc list_alloc put_alloc : bool) : M st Z :=
  modify (λ s, set_objs (<[p := KPlane (mk_plane 0 0 0 formats)]> (objs s)) s);;
  ret ← drm_mode_object_get p alloc;
  if z2b ret then mret ret else
  if negb list_alloc then drm_mode_object_put p put_alloc;; mret (- ENOMEM) else
  modify (λ s, set_lists (crtc_list s) (plane_list s ++ [p]) (num_connector s) s);;
  mret 0.

(** Of drm_connector_init the id and the count. *)
Definition connector_init (p : Z) (alloc : bool) : M st Z :=
  modify (λ s, set_objs (<[p := KConnector 0]> (objs s)) s);;
  ret ← drm_mode_object_get p alloc;
  if z2b ret then mret ret else
  modify (λ s, set_lists (crtc_list s) (plane_list s) (num_connector s + 1) s);;
  mret 0.
End Kms.

(** ** The device and its clients

    [held]: the references of threads in the middle of a call. *)

Record kms_world (A : Type) := mk_world { ks : kms A; held : list Z }.
Arguments mk_world {_} _ _.
Arguments ks {_} _.
Arguments held {_} _.

(** Objects of the driver (which it frees again if they get no id); files; the
    ioctls; and, as steps of their own, a lookup, the end of such a reference, the
    halves of drm_mode_rmfb and of drm_mode_setplane, and
    drm_plane_force_disable, which fbdev calls for every plane.  A framebuffer's
    address is an argument, as is the outcome of the allocations. *)
Inductive kms_op :=
  | KInitCrtc (p : Z) (alloc : bool)
  | KInitPlane (p : Z) (formats : list Z) (alloc list_alloc : bool)
  | KInitConnector (p : Z) (alloc : bool)
  | KOpen (file : positive)
  | KRelease (file : positive) (put_alloc : bool)
  | KAddfb (l : fb_limits) (file : positive) (or : drm_mode_fb_cmd) (accept : bool) (p : Z) (alloc : bool)
  | KAddfb2 (interlaced : Z) (l : fb_limits) (file : positive) (r : drm_mode_fb_cmd2) (accept : bool) (p : Z) (alloc : bool)
  | KRmfb (file : positive) (id : Z) (put_alloc : bool)
  | KUnregister (file : positive) (id : Z) (put_alloc : bool)
  | KRemove (k : nat)
  | KGetfb (file : positive) (id : Z)
  | KSetplane (rq : drm_mode_set_plane)
  | KPlaneFind (rq : drm_mode_set_plane)
  | KPlaneUpdate (k : nat) (q c : Z) (rq : drm_mode_set_plane)
  | KSetcrtc (rq : drm_mode_crtc) (e : setcrtc_env)
  | KFlip (event alloc : bool) (file : positive) (c_id f_id : Z)
  | KLookup (id : Z)
  | KPut (k : nat)
  | KForceDisable (q : Z).

Section Clients.
Context {A : Type} `{KmsDriver A, Fourcc, DrmModeH} (sizeof_event : Z).

(** An id is left. *)
Definition id_left (s : kms A) : bool :=
  match idr_get_new_above 1 1 true (crtc_idr s) with Some ((ret, _), _) => ret =? 0 | None => false end.

Definition fresh_at (p : Z) (s : kms A) : bool :=
  negb (p =? 0) && match objs s !! p with Some _ => false | None => true end.

Definition id_ok (id : Z) : bool := (0 <=? id) && (id <? 2 ^ 32).

Definition is_file (file : positive) (s : kms A) : bool := match fbs s !! file with Some _ => true | None => false end.

(** What the callers guarantee: objects are new, files are open, user ids are
    unsigned integers, a thread drops and passes on only references it holds; a
    framebuffer gets its id and ids can be freed; and fbdev disables a plane only
    while its framebuffer is not on its last reference. *)
Definition kop_ok (op : kms_op) (w : kms_world A) : bool :=
  let s := ks w in
  let holds k := match held w !! k with Some _ => true | None => false end in
  match op with
  | KInitCrtc p _ | KInitPlane p _ _ _ | KInitConnector p _ => fresh_at p s
  | KOpen file => negb (is_file file s)
  | KRelease file put_alloc => is_file file s && put_alloc
  | KAddfb _ file _ _ p alloc | KAddfb2 _ _ file _ _ p alloc =>
    is_file file s && fresh_at p s && alloc && id_left s &&
    match op with
    | KAddfb2 _ _ _ r _ _ _ => Z.of_nat (length (handles r)) =? 4
    | _ => true
    end &&
    match op with
    | KAddfb2 _ _ _ r _ _ _ => (Z.of_nat (length (pitches r)) =? 4) && (Z.of_nat (length (offsets r)) =? 4)
    | _ => true
    end
  | KRmfb file id put_alloc | KUnregister file id put_alloc => is_file file s && id_ok id && put_alloc
  | KRemove k | KPut k => holds k
  | KGetfb _ id | KLookup id => id_ok id
  | KSetplane rq | KPlaneFind rq => id_ok (rq_plane_id rq) && id_ok (rq_crtc_id rq) && id_ok (rq_fb_id rq)
  | KPlaneUpdate k q c _ =>
    holds k && match objs s !! q with Some (KPlane _) => true | _ => false end && match objs s !! c with Some (KCrtc _) => true | _ => false end
  | KSetcrtc rq e =>
    id_ok (rq_crtc rq) && id_ok (rq_fb rq) && ((mode_addr e =? 0) || fresh_at (mode_addr e) s) && put_alloc e &&
    forallb (λ o, match o with Some id => id_ok id | None => true end) (user_ids e)
  | KFlip _ _ file c_id f_id => is_file file s && match event_space s !! file with Some _ => true | None => false end && id_ok c_id && id_ok f_id
  | KForceDisable q =>
    match objs s !! q with
    | Some (KPlane r) => (plane_fb r =? 0) || match objs s !! plane_fb r with Some (KFb f) => 1 <? fb_refcount f | _ => false end
    | _ => false
    end
  end.

Definition on_kms {B} (m : M (kms A) B) (w : kms_world A) : option (kms_world A) :=
  '(_, s) ← m (ks w); Some (mk_world s (held w)).

(** The driver frees an object that gets no id. *)
Definition or_free (p : Z) (m : M (kms A) Z) : M (kms A) unit := ret ← m; when (z2b ret) (free p).

Definition run_kop (op : kms_op) (w : kms_world A) : option (kms_world A) :=
  match op with
  | KInitCrtc p alloc => on_kms (or_free p (drm_crtc_init p alloc)) w
  | KInitPlane p l alloc list_alloc => on_kms (or_free p (drm_plane_init p l alloc list_alloc true)) w
  | KInitConnector p alloc => on_kms (or_free p (connector_init p alloc)) w
  | KOpen file => on_kms (modify (λ s, set_space (<[file := 4096]> (event_space s)) (set_fbs (<[file := []]> (fbs s)) s))) w
  | KRelease file put_alloc => on_kms (drm_fb_release file put_alloc) w
  | KAddfb l file or accept p alloc => on_kms (drm_mode_addfb true l file or accept p alloc) w
  | KAddfb2 interlaced l file r accept p alloc => on_kms (drm_mode_addfb2 true interlaced l file r accept p alloc) w
  | KRmfb file id put_alloc => on_kms (drm_mode_rmfb true file id put_alloc) w
  | KUnregister file id put_alloc =>
    '(p, s) ← rmfb_unregister file id put_alloc (ks w); Some (mk_world s (if p =? 0 then held w else p :: held w))
  | KRemove k => p ← held w !! k; '(_, s) ← drm_framebuffer_remove p (ks w); Some (mk_world s (delete k (held w)))
  | KGetfb file id => on_kms (drm_mode_getfb true file id) w
  | KSetplane rq => on_kms (drm_mode_setplane true rq) w
  | KPlaneFind rq =>
    '(r, s) ← setplane_find rq (ks w); Some (mk_world s (match r with inl _ => held w | inr (_, _, p) => p :: held w end))
  | KPlaneUpdate k q c rq => p ← held w !! k; '(_, s) ← setplane_update q c p rq (ks w); Some (mk_world s (delete k (held w)))
  | KSetcrtc rq e => on_kms (drm_mode_setcrtc true rq e) w
  | KFlip event alloc file c_id f_id => on_kms (drm_mode_page_flip_ioctl sizeof_event true event alloc file c_id f_id) w
  | KLookup id =>
    '(p, s) ← drm_framebuffer_lookup id (ks w); Some (mk_world s (if p =? 0 then held w else p :: held w))
  | KPut k => p ← held w !! k; '(_, s) ← drm_framebuffer_unreference p (ks w); Some (mk_world s (delete k (held w)))
  | KForceDisable q => on_kms (drm_plane_force_disable q) w
  end.

Definition kstep (w w' : kms_world A) : Prop := ∃ op, kop_ok op w = true ∧ run_kop op w = Some w'.

(** What drm_mode_config_init leaves, without the properties. *)
Definition kms_start (a : A) : kms_world A :=
  mk_world (mk_kms ∅ (mk_idr ∅ [fr_new 0] false) [] 0 [] [] 0 ∅ ∅ a) [].

(** [None]: a panic, or an operation that is not possible. *)
Fixpoint run_kops (l : list kms_op) (w : kms_world A) : option (kms_world A) :=
  match l with
  | [] => Some w
  | op :: l => if kop_ok op w then w ← run_kop op w; run_kops l w else None
  end.
End Clients.

