(* ===== verification/FrameBufInv.v ===== *)
(** * The invariant of framebuffers, crtcs and planes

    The operations of [FrameBuf] keep the counts of framebuffers exact: a count is
    the id, the file, the crtcs and planes that show the framebuffer, and the
    references of threads.  Proved per operation with weakest preconditions; the
    theorems over all runs follow. *)

From Stdlib Require Import String.
From stdpp Require Import base option list gmap fin_maps strings.
From Stdlib Require Import ZArith Lia.
From S2P Require Import Prelude LinuxList Idr Modes Formats FrameBuf.
#[local] Open Scope Z_scope.

(** ** Who uses a framebuffer *)

(** Whether [a] is a pointer to [p], and who points to [p]. *)
Definition one (a p : Z) : Z := if a =? 0 then 0 else if decide (a = p) then 1 else 0.
Definition use (p : Z) (o : mode_object) : Z :=
  match o with KCrtc c => one (crtc_fb c) p | KPlane q => one (plane_fb q) p | _ => 0 end.
Definition uses (m : gmap Z mode_object) (p : Z) : Z := msum (use p) m.
Definition in_file (p : Z) (l : list Z) : Z := Z.of_nat (length (filter (λ q, q = p) l)).
Definition file_refs (m : gmap positive (list Z)) (p : Z) : Z := msum (in_file p) m.

Lemma one_bounds a p : 0 <= one a p <= 1.
Proof. unfold one. destruct (a =? 0); [lia|]. case_decide; lia. Qed.
Lemma one_0 p : one 0 p = 0.
Proof. done. Qed.
Lemma one_self a : a ≠ 0 → one a a = 1.
Proof. intros Ha. unfold one. rewrite (proj2 (Z.eqb_neq a 0)) by done. by rewrite decide_True. Qed.
Lemma one_pos a p : 0 < one a p → a = p ∧ a ≠ 0.
Proof. unfold one. destruct (Z.eqb_spec a 0); [lia|]. case_decide; [done|lia]. Qed.
Lemma one_ne a p : a ≠ p → one a p = 0.
Proof. intros. unfold one. destruct (a =? 0); [done|]. by rewrite decide_False. Qed.
Lemma one_null a : one a 0 = 0.
Proof. unfold one. destruct (Z.eqb_spec a 0); [done|]. by rewrite decide_False. Qed.
Lemma use_nonneg p o : 0 <= use p o.
Proof. destruct o; cbn; try lia; apply one_bounds. Qed.
Lemma uses_nonneg m p : 0 <= uses m p.
Proof. apply msum_nonneg. intros. apply use_nonneg. Qed.
Lemma use_le m q o p : m !! q = Some o → use p o <= uses m p.
Proof. apply (msum_le (use p)). intros. apply use_nonneg. Qed.
Lemma in_file_nonneg p l : 0 <= in_file p l.
Proof. unfold in_file. lia. Qed.
Lemma file_refs_nonneg m p : 0 <= file_refs m p.
Proof. apply msum_nonneg. intros. apply in_file_nonneg. Qed.
Lemma in_file_pos p l : p ∈ l → 0 < in_file p l.
Proof.
  intros Hp. unfold in_file. assert (p ∈ filter (λ q, q = p) l) as Hin by (by apply list_elem_of_filter).
  destruct (filter _ l); [by apply not_elem_of_nil in Hin|cbn; lia].
Qed.
Lemma in_file_cons p q l : in_file p (q :: l) = in_file p l + if decide (q = p) then 1 else 0.
Proof. unfold in_file. rewrite filter_cons. case_decide; cbn [length]; lia. Qed.
Lemma in_file_none p l : p ∉ l → in_file p l = 0.
Proof.
  intros Hp. unfold in_file. destruct (filter _ l) as [|q ?] eqn:Hf; [done|].
  assert (q ∈ filter (λ q, q = p) l) as [-> ?]%list_elem_of_filter by (rewrite Hf; by left). done.
Qed.
Lemma in_file_remove p q l : in_file p (remove_elem q l) = if decide (p = q) then 0 else in_file p l.
Proof.
  unfold in_file, remove_elem. induction l as [|x l IH]; [by case_decide|]. rewrite !filter_cons.
  repeat (case_decide; simplify_eq); rewrite ?filter_cons; repeat (case_decide; simplify_eq); cbn [length]; lia.
Qed.

Section Invariant.
Context {A : Type} `{KmsDriver A, Fourcc, DrmModeH} (sizeof_event : Z).
Implicit Types (s : kms A) (ex : Z → Z).

Definition has_fb s (p : Z) : Prop := ∃ f, objs s !! p = Some (KFb f).

(** [ex]: the references to a framebuffer beyond those of its id, its file, crtcs
    and planes. *)
Record kms_ok s ex : Prop := {
  k_idr : ∃ L, idr_inv L (crtc_idr s);
  k_ids id p : used_ids (crtc_idr s) !! id = Some p ↔ id ≠ 0 ∧ ∃ o, objs s !! p = Some o ∧ object_id o = id;
  k_null : objs s !! 0 = None;
  k_crtcs : NoDup (crtc_list s) ∧ ∀ p, p ∈ crtc_list s ↔ ∃ c, objs s !! p = Some (KCrtc c);
  k_planes : NoDup (plane_list s) ∧ ∀ p, p ∈ plane_list s ↔ ∃ q, objs s !! p = Some (KPlane q);
  k_fbs : NoDup (fb_list s) ∧ ∀ p, p ∈ fb_list s ↔ has_fb s p;
  k_files p : 0 < file_refs (fbs s) p → file_refs (fbs s) p = 1 ∧ ∃ f, objs s !! p = Some (KFb f) ∧ fb_id f ≠ 0;
  k_refs p f : objs s !! p = Some (KFb f) → 0 < fb_refcount f ∧
    fb_refcount f = b2z (negb (fb_id f =? 0)) + file_refs (fbs s) p + uses (objs s) p + ex p;
  k_none p : ¬ has_fb s p → file_refs (fbs s) p = 0 ∧ uses (objs s) p = 0 ∧ ex p = 0;
}.

Lemma kms_ok_ext s ex ex' : (∀ p, ex p = ex' p) → kms_ok s ex → kms_ok s ex'.
Proof.
  intros He Hok. split; try apply Hok.
  - intros p f Hp. rewrite <- He. by apply (k_refs _ _ Hok).
  - intros p Hp. rewrite <- He. by apply (k_none _ _ Hok).
Qed.

(** Who is pointed to is a framebuffer. *)
Lemma used_fb s ex p : kms_ok s ex → uses (objs s) p ≠ 0 ∨ ex p ≠ 0 ∨ file_refs (fbs s) p ≠ 0 → has_fb s p.
Proof.
  intros Hok Hp. destruct (objs s !! p) as [[f| | | |]|] eqn:Ho; [by exists f|..];
    (destruct (k_none _ _ Hok p) as (? & ? & ?); [intros [f Hf]; congruence|lia]).
Qed.

(** Nothing but objects, ids and framebuffers has changed. *)
Definition steady s s' : Prop :=
  crtc_list s' = crtc_list s ∧ plane_list s' = plane_list s ∧ fbs s' = fbs s ∧ event_space s' = event_space s ∧
  crtc_idr s' = crtc_idr s.

Lemma steady_refl s : steady s s.
Proof. done. Qed.
Lemma steady_trans s1 s2 s3 : steady s1 s2 → steady s2 s3 → steady s1 s3.
Proof. intros (? & ? & ? & ? & ?) (? & ? & ? & ? & ?). unfold steady. split_and!; congruence. Qed.

(** An object changes; its id and its type stay. *)
Definition same_kind (o o' : mode_object) : Prop :=
  match o, o' with KFb _, KFb _ | KCrtc _, KCrtc _ | KPlane _, KPlane _ | KMode _, KMode _ | KConnector _, KConnector _ => True | _, _ => False end.

Definition put_at (p : Z) (o : mode_object) s : kms A := set_objs (<[p := o]> (objs s)) s.

Lemma kind_at s p o o' q : objs s !! p = Some o → same_kind o o' →
  ((∃ c, objs (put_at p o' s) !! q = Some (KCrtc c)) ↔ ∃ c, objs s !! q = Some (KCrtc c)) ∧
  ((∃ c, objs (put_at p o' s) !! q = Some (KPlane c)) ↔ ∃ c, objs s !! q = Some (KPlane c)) ∧
  (has_fb (put_at p o' s) q ↔ has_fb s q).
Proof.
  intros Ho Hk. unfold has_fb, put_at. cbn. destruct (decide (q = p)) as [->|Hq]; [|by rewrite lookup_insert_ne by done].
  rewrite lookup_insert_eq, Ho. destruct o, o'; cbn in Hk; try done; (split_and!; split; intros [? ?]; simplify_eq; by eexists).
Qed.

Lemma kms_ok_put s ex ex' p o o' : kms_ok s ex → objs s !! p = Some o → same_kind o o' → object_id o' = object_id o →
  (∀ q f, objs (put_at p o' s) !! q = Some (KFb f) → 0 < fb_refcount f ∧
     fb_refcount f = b2z (negb (fb_id f =? 0)) + file_refs (fbs s) q + (uses (objs s) q - use q o + use q o') + ex' q) →
  (∀ q, ¬ has_fb s q → use q o' = use q o ∧ ex' q = 0) → kms_ok (put_at p o' s) ex'.
Proof.
  intros Hok Ho Hk Hid Hr Hn. assert (∀ q, uses (objs (put_at p o' s)) q = uses (objs s) q - use q o + use q o') as Hu.
  { intros q. cbn. by apply msum_update. }
  split.
  - apply (k_idr _ _ Hok).
  - intros id q. cbn. rewrite (k_ids _ _ Hok id q). destruct (decide (q = p)) as [->|Hq]; [|by rewrite lookup_insert_ne by done].
    rewrite lookup_insert_eq, Ho. split; intros (? & x & ? & ?); simplify_eq; (split; [done|]); eexists; (split; [done|congruence]).
  - cbn. rewrite lookup_insert_ne; [apply (k_null _ _ Hok)|]. intros ->. rewrite (k_null _ _ Hok) in Ho. done.
  - destruct (k_crtcs _ _ Hok) as [? Hc]. split; [done|]. intros q. cbn [crtc_list put_at set_objs]. rewrite Hc.
    by destruct (kind_at s p o o' q Ho Hk) as [-> _].
  - destruct (k_planes _ _ Hok) as [? Hc]. split; [done|]. intros q. cbn [plane_list put_at set_objs]. rewrite Hc.
    by destruct (kind_at s p o o' q Ho Hk) as (_ & -> & _).
  - destruct (k_fbs _ _ Hok) as [? Hc]. split; [done|]. intros q. cbn [fb_list put_at set_objs]. rewrite Hc.
    by destruct (kind_at s p o o' q Ho Hk) as (_ & _ & ->).
  - intros q Hq. destruct (k_files _ _ Hok q Hq) as (? & f & Hf & ?). split; [done|]. cbn.
    destruct (decide (q = p)) as [->|Hqp]; [|exists f; by rewrite lookup_insert_ne by done].
    rewrite lookup_insert_eq. rewrite Ho in Hf. simplify_eq. destruct o' as [f'| | | |]; cbn in Hk; try done. exists f'.
    split; [done|]. cbn in Hid. congruence.
  - intros q f Hq. cbn [fbs put_at set_objs]. rewrite Hu. by apply Hr.
  - intros q Hq. destruct (kind_at s p o o' q Ho Hk) as (_ & _ & Hf). rewrite Hf in Hq. destruct (Hn q Hq) as [Huq ?].
    destruct (k_none _ _ Hok q Hq) as (? & ? & ?). rewrite Hu, Huq. cbn [fbs put_at set_objs]. split_and!; [done|lia|done].
Qed.

(** The count of a framebuffer changes. *)
Lemma kms_ok_ref s ex p f k : kms_ok s ex → objs s !! p = Some (KFb f) → 0 < fb_refcount f + k →
  kms_ok (put_at p (KFb (add_ref k f)) s) (bump p k ex).
Proof.
  intros Hok Hp Hk. apply (kms_ok_put s ex (bump p k ex) p (KFb f) (KFb (add_ref k f)) Hok Hp I eq_refl).
  - intros q g Hq. cbn in Hq. cbn [use]. destruct (decide (q = p)) as [->|Hqp].
    + rewrite lookup_insert_eq in Hq. simplify_eq. cbn. destruct (k_refs _ _ Hok p f Hp). rewrite bump_eq. split; [done|lia].
    + rewrite lookup_insert_ne in Hq by done. destruct (k_refs _ _ Hok q g Hq). rewrite bump_ne by done. split; [done|lia].
  - intros q Hq. split; [done|]. rewrite bump_ne; [by apply (k_none _ _ Hok)|]. intros ->. apply Hq. by exists f.
Qed.

(** A crtc or plane takes another framebuffer [b]; the counts are to follow. *)
Lemma kms_ok_swap s ex p o o' b : kms_ok s ex → objs s !! p = Some o → same_kind o o' → object_id o' = object_id o → is_fb o = false →
  (∀ q, use q o' = one b q) → b = 0 ∨ has_fb s b → kms_ok (put_at p o' s) (λ q, ex q + use q o - one b q).
Proof.
  intros Hok Ho Hk Hid Hfb Hu Hb. apply (kms_ok_put s ex _ p o o' Hok Ho Hk Hid).
  - intros q g Hq. rewrite Hu. cbn in Hq. destruct (decide (q = p)) as [->|Hqp].
    + rewrite lookup_insert_eq in Hq. simplify_eq. by destruct o.
    + rewrite lookup_insert_ne in Hq by done. destruct (k_refs _ _ Hok q g Hq). split; [done|lia].
  - intros q Hq. rewrite Hu. destruct (k_none _ _ Hok q Hq) as (_ & Hz & He). pose proof (use_le (objs s) p o q Ho). pose proof (use_nonneg q o).
    assert (one b q = 0); [|lia]. destruct Hb as [->|Hb]; [apply one_0|]. apply one_ne. intros ->. done.
Qed.

(** ** Runs of the parts *)

Lemma fb_at_run s p f : objs s !! p = Some (KFb f) → fb_at p s = Some (f, s).
Proof. intros Hp. unfold fb_at, reads. by rewrite Hp. Qed.
Lemma kcrtc_at_run s p c : objs s !! p = Some (KCrtc c) → crtc_at p s = Some (c, s).
Proof. intros Hp. unfold crtc_at, reads. by rewrite Hp. Qed.
Lemma plane_at_run s p q : objs s !! p = Some (KPlane q) → plane_at p s = Some (q, s).
Proof. intros Hp. unfold plane_at, reads. by rewrite Hp. Qed.
Lemma put_obj_run s p o o' : objs s !! p = Some o → put_obj p o' s = Some (tt, put_at p o' s).
Proof. intros Hp. unfold put_obj, obj_at, mbind, M_bind, reads. by rewrite Hp. Qed.

(** The other objects stay as they are. *)
Definition others s s' (p : Z) : Prop := ∀ q, q ≠ p → objs s' !! q = objs s !! q.

Lemma put_at_eq s p o : objs (put_at p o s) !! p = Some o.
Proof. apply lookup_insert_eq. Qed.
Lemma put_at_others s p o : others s (put_at p o s) p.
Proof. intros q Hq. cbn. by rewrite lookup_insert_ne. Qed.

Lemma fb_reference_ok s ex p : kms_ok s ex → has_fb s p →
  wp (drm_framebuffer_reference p) s (λ _ s', kms_ok s' (bump p 1 ex) ∧ steady s s' ∧ others s s' p ∧
    ∀ f, objs s !! p = Some (KFb f) → objs s' !! p = Some (KFb (add_ref 1 f))).
Proof.
  intros Hok [f Hp]. unfold drm_framebuffer_reference. apply wp_bind. eapply wp_of; [by apply fb_at_run|]. cbv beta.
  eapply wp_of; [by eapply put_obj_run|]. destruct (k_refs _ _ Hok p f Hp). split; [|split; [done|split; [apply put_at_others|]]].
  - apply kms_ok_ref; [done|done|lia].
  - intros g Hg. rewrite Hp in Hg. simplify_eq. apply put_at_eq.
Qed.

(** The last reference goes, and nobody points to the framebuffer. *)
Lemma kms_ok_free s ex p f : kms_ok s ex → objs s !! p = Some (KFb f) → fb_id f = 0 →
  file_refs (fbs s) p = 0 → uses (objs s) p = 0 → ex p = 1 →
  kms_ok (set_objs (delete p (objs s)) (set_fb_list (remove_elem p (fb_list s)) (num_fb s - 1) s)) (bump p (-1) ex).
Proof.
  intros Hok Hp Hid Hfr Hu Hex. set (s' := set_objs _ _).
  assert (∀ q, uses (objs s') q = uses (objs s) q) as Hus.
  { intros q. unfold uses. cbn. rewrite (msum_delete (use q) (objs s) p _ Hp). cbn. lia. }
  assert (∀ q, has_fb s' q ↔ q ≠ p ∧ has_fb s q) as Hfb.
  { intros q. unfold has_fb. cbn. destruct (decide (q = p)) as [->|]; [rewrite lookup_delete_eq|by rewrite lookup_delete_ne by done; naive_solver].
    split; [by intros [? ?]|by intros [? _]]. }
  assert (∀ q o, is_fb o = false → objs s' !! q = Some o ↔ objs s !! q = Some o) as Hoth.
  { intros q o Ho. cbn. destruct (decide (q = p)) as [->|]; [|by rewrite lookup_delete_ne]. rewrite lookup_delete_eq, Hp. split; [done|].
    intros ?. by simplify_eq. }
  split.
  - apply (k_idr _ _ Hok).
  - intros id q. cbn [crtc_idr s' set_objs set_fb_list]. rewrite (k_ids _ _ Hok id q). cbn. destruct (decide (q = p)) as [->|]; [|by rewrite lookup_delete_ne].
    rewrite lookup_delete_eq, Hp. split; [intros (? & o & ? & ?); by simplify_eq|by intros (_ & ? & ? & _)].
  - cbn. apply lookup_delete_None. right. apply (k_null _ _ Hok).
  - destruct (k_crtcs _ _ Hok) as [? Hc]. split; [done|]. intros q. cbn [crtc_list s' set_objs set_fb_list]. rewrite Hc.
    split; intros [c Hcq]; exists c; by apply (Hoth q (KCrtc c)).
  - destruct (k_planes _ _ Hok) as [? Hc]. split; [done|]. intros q. cbn [plane_list s' set_objs set_fb_list]. rewrite Hc.
    split; intros [c Hcq]; exists c; by apply (Hoth q (KPlane c)).
  - destruct (k_fbs _ _ Hok) as [? Hc]. split; [by apply NoDup_filter|]. intros q. rewrite Hfb. cbn [fb_list s' set_objs set_fb_list].
    unfold remove_elem. rewrite list_elem_of_filter, Hc. done.
  - intros q Hq. cbn [fbs s' set_objs set_fb_list] in *. destruct (k_files _ _ Hok q Hq) as (? & g & Hg & ?). split; [done|].
    assert (q ≠ p) by (intros ->; lia). exists g. cbn. by rewrite lookup_delete_ne.
  - intros q g Hq. cbn in Hq. apply lookup_delete_Some in Hq as [Hqp Hq]. cbn [fbs s' set_objs set_fb_list]. rewrite Hus.
    rewrite bump_ne by done. by apply (k_refs _ _ Hok).
  - intros q Hq. cbn [fbs s' set_objs set_fb_list]. rewrite Hus. destruct (decide (q = p)) as [->|Hqp]; [rewrite bump_eq; split_and!; lia|].
    rewrite bump_ne by done. apply (k_none _ _ Hok). intros ?. apply Hq. by apply Hfb.
Qed.

Lemma fb_unreference_ok s ex p f : kms_ok s ex → objs s !! p = Some (KFb f) →
  (fb_refcount f = 1 → fb_id f = 0 ∧ file_refs (fbs s) p = 0 ∧ uses (objs s) p = 0 ∧ ex p = 1) →
  wp (drm_framebuffer_unreference p) s (λ _ s', kms_ok s' (bump p (-1) ex) ∧ steady s s' ∧ others s s' p ∧
    objs s' !! p = if fb_refcount f =? 1 then None else Some (KFb (add_ref (-1) f))).
Proof.
  intros Hok Hp Hlast. destruct (k_refs _ _ Hok p f Hp) as [Hpos _]. unfold drm_framebuffer_unreference, put_ref.
  apply wp_bind. eapply wp_of; [by apply fb_at_run|]. cbv beta. apply wp_bind. eapply wp_of; [by eapply put_obj_run|]. cbv beta.
  destruct (Z.eqb_spec (fb_refcount f) 1) as [Hone|Hone].
  - rewrite (proj2 (Z.eqb_eq _ _)) by lia. cbn [when]. unfold drm_framebuffer_free, destroy, drm_framebuffer_cleanup.
    destruct (Hlast Hone) as (? & ? & ? & ?). destruct (k_fbs _ _ Hok) as [Hnd Hl].
    apply wp_bind. apply wp_bind. eapply wp_of; [done|]. cbv beta. cbn [fb_list put_at set_objs].
    rewrite bool_decide_true by (apply Hl; by exists f). cbn [negb]. apply wp_bind. eapply wp_of; [done|]. cbv beta. eapply wp_of; [done|].
    unfold free, obj_at. apply wp_bind. eapply wp_of; [unfold reads; cbn; by rewrite lookup_insert_eq|]. cbv beta. eapply wp_of; [done|].
    match goal with |- kms_ok ?x _ ∧ _ =>
      assert (x = set_objs (delete p (objs s)) (set_fb_list (remove_elem p (fb_list s)) (num_fb s - 1) s)) as ->
        by (unfold set_objs, set_fb_list, put_at; cbn; by rewrite delete_insert_eq) end.
    split; [by eapply kms_ok_free|]. split; [done|]. split.
    + intros q Hq. cbn. by rewrite lookup_delete_ne.
    + cbn. by rewrite lookup_delete_eq.
  - rewrite (proj2 (Z.eqb_neq _ _)) by lia. cbn [when]. unfold wp, mret, M_ret. split; [apply kms_ok_ref; [done|done|lia]|].
    split; [done|]. split; [apply put_at_others|apply put_at_eq].
Qed.

(** A reference that is held is dropped. *)
Lemma fb_unreference_held s ex p : kms_ok s ex → (∀ q, 0 <= ex q) → 0 < ex p →
  wp (drm_framebuffer_unreference p) s (λ _ s', kms_ok s' (bump p (-1) ex) ∧ steady s s' ∧ others s s' p ∧
    ∀ f, objs s !! p = Some (KFb f) → objs s' !! p = if fb_refcount f =? 1 then None else Some (KFb (add_ref (-1) f))).
Proof.
  intros Hok Hex Hp. destruct (used_fb s ex p Hok) as [f Hf]; [right; left; lia|]. destruct (k_refs _ _ Hok p f Hf) as [Hpos Hr].
  pose proof (file_refs_nonneg (fbs s) p). pose proof (uses_nonneg (objs s) p).
  eapply wp_mono; [apply (fb_unreference_ok s ex p f Hok Hf)|].
  - intros Hone. rewrite Hone in Hr. assert (fb_id f = 0) as Hid by (destruct (Z.eqb_spec (fb_id f) 0); [done|cbn in Hr; lia]).
    rewrite Hid in Hr. cbn in Hr. split_and!; [done|lia..].
  - intros _ s' (? & ? & ? & Ho). split_and!; try done. intros g Hg. rewrite Hf in Hg. by simplify_eq.
Qed.

(** A reference that is not the last one. *)
Lemma fb_unreference_bug_ok s ex p f : kms_ok s ex → objs s !! p = Some (KFb f) → 1 < fb_refcount f →
  wp (__drm_framebuffer_unreference p) s (λ _ s', s' = put_at p (KFb (add_ref (-1) f)) s ∧ kms_ok s' (bump p (-1) ex)).
Proof.
  intros Hok Hp Hr. unfold __drm_framebuffer_unreference, put_ref. apply wp_bind. eapply wp_of; [by apply fb_at_run|]. cbv beta.
  apply wp_bind. eapply wp_of; [by eapply put_obj_run|]. cbv beta. rewrite (proj2 (Z.eqb_neq _ _)) by lia. cbn [when].
  unfold wp, mret, M_ret. split; [done|]. apply kms_ok_ref; [done|done|lia].
Qed.

(** ** Setting a mode *)

(** References that changing crtcs owe: one to each old framebuffer, and one from
    each new one. *)
Definition owed (xs : list (Z * Z)) (p : Z) : Z := foldr (λ x n, n + one x.1 p - one x.2 p) 0 xs.

(** The crtcs of [l] with their old and new framebuffers. *)
Definition moved s (l : list Z) (xs : list (Z * Z)) : Prop :=
  Forall2 (λ p x, ∃ c, objs s !! p = Some (KCrtc c) ∧ crtc_old_fb c = x.1 ∧ crtc_fb c = x.2) l xs.

(** Framebuffers may go, the rest stays. *)
Definition keeps_crtcs s s' : Prop := ∀ p o, is_fb o = false → objs s' !! p = Some o ↔ objs s !! p = Some o.

Lemma keeps_crtcs_refl s : keeps_crtcs s s.
Proof. by intros p o. Qed.
Lemma keeps_crtcs_trans s1 s2 s3 : keeps_crtcs s1 s2 → keeps_crtcs s2 s3 → keeps_crtcs s1 s3.
Proof. intros H12 H23 p o Ho. rewrite (H23 p o Ho). by apply H12. Qed.
Lemma others_keeps s s' p : has_fb s p → others s s' p → (∀ o, objs s' !! p = Some o → is_fb o = true) → keeps_crtcs s s'.
Proof.
  intros [f Hf] Ho Hp q o Hno. destruct (decide (q = p)) as [->|Hq]; [|by rewrite Ho]. split; intros Hq; [|by simplify_eq].
  apply Hp in Hq. congruence.
Qed.

Lemma moved_keeps s s' l xs : keeps_crtcs s s' → moved s l xs → moved s' l xs.
Proof.
  intros Hk Hm. eapply Forall2_impl; [exact Hm|]. intros p x (c & Hc & ? & ?). exists c. split; [|done]. by apply (Hk p (KCrtc c)).
Qed.

Lemma uses_moved s l xs p : NoDup l → moved s l xs → foldr (λ x n, n + one x.2 p) 0 xs <= uses (objs s) p.
Proof.
  intros Hnd Hm. assert (∀ m, (∀ q, q ∈ l → m !! q = objs s !! q) → foldr (λ x n, n + one x.2 p) 0 xs <= uses m p) as Hgen; [|by apply Hgen].
  revert Hnd. induction Hm as [|q x l xs (c & Hc & _ & Hx) Hm IH]; intros Hnd m Hl; cbn [foldr]; [apply uses_nonneg|].
  apply NoDup_cons in Hnd as [Hq Hnd]. specialize (IH Hnd (delete q m)).
  unfold uses in *. rewrite (msum_delete (use p) m q (KCrtc c)) in IH by (rewrite Hl; [done|by left]). cbn [use] in IH. rewrite Hx in IH.
  assert (∀ q0, q0 ∈ l → delete q m !! q0 = objs s !! q0) as Hd; [|specialize (IH Hd); lia].
  intros q0 Hq0. rewrite lookup_delete_ne by (intros ->; done). apply Hl. by right.
Qed.

Lemma owed_cons x xs p : owed (x :: xs) p = owed xs p + one x.1 p - one x.2 p.
Proof. done. Qed.

Lemma owed_split xs p : owed xs p = foldr (λ x n, n + one x.1 p) 0 xs - foldr (λ x n, n + one x.2 p) 0 xs.
Proof. induction xs as [|x xs IH]; cbn; [lia|]. unfold owed in IH. lia. Qed.

Lemma ones_nonneg (f : Z * Z → Z) xs p : 0 <= foldr (λ x n, n + one (f x) p) 0 xs.
Proof. induction xs as [|x xs IH]; cbn; [lia|]. pose proof (one_bounds (f x) p). lia. Qed.

Lemma ones_0 (f : Z * Z → Z) xs p : foldr (λ x n, n + one (f x) p) 0 xs = 0 → Forall (λ x, one (f x) p = 0) xs.
Proof.
  induction xs as [|x xs IH]; cbn; [constructor|]. pose proof (one_bounds (f x) p). pose proof (ones_nonneg f xs p). intros ?.
  constructor; [lia|]. apply IH. lia.
Qed.

(** The new framebuffer is the old one, none, or [fb]. *)
Definition allowed (fb : Z) (x : Z * Z) : Prop := x.2 = x.1 ∨ x.2 = 0 ∨ x.2 = fb.

(** Before set_config the crtcs remember their framebuffers. *)
Lemma save_old_ok l : ∀ s ex, kms_ok s ex → (∀ p, p ∈ l → p ∈ crtc_list s) →
  wp (for_each l (λ p, c ← crtc_at p; put_obj p (KCrtc (with_old_fb c)))) s (λ _ s', kms_ok s' ex ∧ steady s s' ∧
    (∀ p c, objs s' !! p = Some (KCrtc c) → ∃ c0, objs s !! p = Some (KCrtc c0) ∧ (c = with_old_fb c0 ∨ c = c0 ∧ p ∉ l)) ∧
    ∀ p, (∀ c, objs s !! p ≠ Some (KCrtc c)) → objs s' !! p = objs s !! p).
Proof.
  induction l as [|p l IH]; intros s ex Hok Hl; cbn [for_each].
  { split; [done|]. split; [done|]. split; [|done]. intros p c Hc. exists c. split; [done|]. right. split; [done|]. apply not_elem_of_nil. }
  destruct (proj1 (proj2 (k_crtcs _ _ Hok) p) (Hl p (list_elem_of_here _ _))) as [c Hc].
  apply wp_bind. apply wp_bind. eapply wp_of; [by apply kcrtc_at_run|]. cbv beta. eapply wp_of; [by eapply put_obj_run|]. cbv beta.
  set (s1 := put_at p _ s).
  assert (kms_ok s1 ex) as Hok1.
  { eapply kms_ok_ext; [|apply (kms_ok_swap s ex p (KCrtc c) (KCrtc (with_old_fb c)) (crtc_fb c) Hok Hc I eq_refl eq_refl (λ _, eq_refl))].
    - intros q. cbn. lia.
    - destruct (Z.eqb_spec (crtc_fb c) 0); [by left|right]. apply (used_fb s ex _ Hok). left.
      pose proof (use_le (objs s) p (KCrtc c) (crtc_fb c) Hc) as Hu. cbn in Hu. rewrite one_self in Hu by done. lia. }
  eapply wp_mono; [apply (IH s1 ex Hok1)|].
  { intros q Hq. apply Hl. by right. }
  intros _ s' (Hok' & Hst & Hcs & Hot). split; [done|]. split; [exact Hst|]. split.
  - intros q c' Hq. destruct (Hcs q c' Hq) as (c0 & Hc0 & Hw). cbn in Hc0. destruct (decide (q = p)) as [->|Hqp].
    + rewrite lookup_insert_eq in Hc0. simplify_eq. exists c. split; [done|]. left. by destruct Hw as [-> | [-> _]].
    + rewrite lookup_insert_ne in Hc0 by done. exists c0. split; [done|]. destruct Hw as [-> | [-> Hn]]; [by left|right].
      split; [done|]. by intros [?|?]%elem_of_cons.
  - intros q Hq. rewrite Hot; [cbn; rewrite lookup_insert_ne; [done|]|].
    + intros ->. by apply (Hq c).
    + intros c'. cbn. destruct (decide (q = p)) as [->|]; [by destruct (Hq c)|]. rewrite lookup_insert_ne by done. apply Hq.
Qed.

Lemma owned_fb s ex p c : kms_ok s ex → objs s !! p = Some (KCrtc c) → crtc_fb c = 0 ∨ has_fb s (crtc_fb c).
Proof.
  intros Hok Hc. destruct (Z.eqb_spec (crtc_fb c) 0); [by left|right]. apply (used_fb s ex _ Hok). left.
  pose proof (use_le (objs s) p (KCrtc c) (crtc_fb c) Hc) as Hu. cbn in Hu. rewrite one_self in Hu by done. lia.
Qed.

(** The driver changes the crtcs of [l]. *)
Lemma apply_ok upd fb l : (∀ p c, crtc_id (upd p c) = crtc_id c ∧ crtc_old_fb (upd p c) = crtc_old_fb c ∧
    (crtc_fb (upd p c) = crtc_fb c ∨ crtc_fb (upd p c) = 0 ∨ crtc_fb (upd p c) = fb)) →
  ∀ s ex, kms_ok s ex → NoDup l → (∀ p, p ∈ l → p ∈ crtc_list s) → fb = 0 ∨ has_fb s fb →
  (∀ p c, p ∈ l → objs s !! p = Some (KCrtc c) → crtc_old_fb c = crtc_fb c) →
  wp (for_each l (λ p, c ← crtc_at p; put_obj p (KCrtc (upd p c)))) s (λ _ s', ∃ xs,
    kms_ok s' (λ p, ex p + owed xs p) ∧ steady s s' ∧ moved s' l xs ∧ Forall (allowed fb) xs ∧
    (∀ p c, p ∈ l → objs s !! p = Some (KCrtc c) → objs s' !! p = Some (KCrtc (upd p c))) ∧ ∀ p, p ∉ l → objs s' !! p = objs s !! p).
Proof.
  intros Hupd. induction l as [|p l IH]; intros s ex Hok Hnd Hl Hfb Hold; cbn [for_each].
  { exists []. split; [eapply kms_ok_ext; [|exact Hok]; intros q; cbn; lia|]. split; [done|]. split; [constructor|]. split; [constructor|].
    split; [by intros ?? ?%not_elem_of_nil|done]. }
  apply NoDup_cons in Hnd as [Hp Hnd]. destruct (proj1 (proj2 (k_crtcs _ _ Hok) p) (Hl p (list_elem_of_here _ _))) as [c Hc].
  destruct (Hupd p c) as (Hid & Hco & Hnew).
  apply wp_bind. apply wp_bind. eapply wp_of; [by apply kcrtc_at_run|]. cbv beta. eapply wp_of; [by eapply put_obj_run|]. cbv beta.
  set (s1 := put_at p _ s).
  pose proof (kms_ok_swap s ex p (KCrtc c) (KCrtc (upd p c)) (crtc_fb (upd p c)) Hok Hc I Hid eq_refl (λ _, eq_refl)) as Hok1.
  fold s1 in Hok1. specialize (Hok1 ltac:(destruct Hnew as [-> | [-> | ->]]; [by eapply owned_fb|by left|done])).
  eapply wp_mono; [apply (IH s1 _ Hok1 Hnd)|].
  { intros q Hq. apply Hl. by right. }
  { destruct Hfb as [|Hf]; [by left|right]. by apply (kind_at s p (KCrtc c) (KCrtc (upd p c)) fb Hc I). }
  { intros q c' Hq Hc'. cbn in Hc'. rewrite lookup_insert_ne in Hc' by (intros ->; done). apply (Hold q c'); [by right|done]. }
  intros _ s' (xs & Hok' & Hst & Hm & Hall & Hin & Hout). exists ((crtc_fb c, crtc_fb (upd p c)) :: xs). split.
  { eapply kms_ok_ext; [|exact Hok']. intros q. cbv beta. rewrite owed_cons. cbn. lia. }
  split; [exact Hst|]. split; [|split; [|split]].
  - constructor; [|done]. exists (upd p c). split; [rewrite Hout by done; apply put_at_eq|]. cbn. split; [|done].
    rewrite Hco. apply (Hold p); [by left|done].
  - constructor; [exact Hnew|done].
  - intros q c' [->|Hq]%elem_of_cons Hc'.
    + rewrite Hout by done. rewrite Hc in Hc'. simplify_eq. apply put_at_eq.
    + apply Hin; [done|]. cbn. rewrite lookup_insert_ne; [done|]. intros ->. done.
  - intros q [Hqp Hq]%not_elem_of_cons. rewrite Hout by done. cbn. by rewrite lookup_insert_ne.
Qed.

(** After it the references follow, crtc by crtc: a crtc takes one to its new
    framebuffer, *)
Lemma take_new_ok s ex x xs p c : kms_ok s (λ q, ex q + owed (x :: xs) q) → objs s !! p = Some (KCrtc c) → crtc_fb c = x.2 →
  wp (when (z2b (crtc_fb c)) (drm_framebuffer_reference (crtc_fb c))) s (λ _ s', kms_ok s' (λ q, ex q + owed xs q + one x.1 q) ∧
    steady s s' ∧ keeps_crtcs s s').
Proof.
  intros Hok Hc Hnew. unfold z2b. destruct (Z.eqb_spec (crtc_fb c) 0) as [Hz|Hz]; cbn [negb when].
  - unfold wp, mret, M_ret. split; [|split; [done|apply keeps_crtcs_refl]]. eapply kms_ok_ext; [|exact Hok]. intros q. cbv beta.
    rewrite owed_cons, <- Hnew, Hz, one_0. lia.
  - destruct (owned_fb s _ p c Hok Hc) as [|Hf]; [done|]. eapply wp_mono; [by apply (fb_reference_ok s _ _ Hok)|].
    intros _ s1 (Hok1 & Hst & Hoth & Hs). split; [|split; [done|]].
    + eapply kms_ok_ext; [|exact Hok1]. intros q. unfold bump. cbv beta. rewrite owed_cons, <- Hnew.
      case_decide; [subst q; rewrite (one_self (crtc_fb c)) by done; lia|rewrite (one_ne (crtc_fb c)) by congruence; lia].
    + destruct Hf as [f Hf]. apply (others_keeps s s1 (crtc_fb c)); [by exists f|done|]. intros o Ho. rewrite (Hs f Hf) in Ho. by simplify_eq.
Qed.

Lemma no_more_old fb xs ex o : Forall (allowed fb) xs → fb = 0 ∨ 0 < ex fb → o ≠ 0 → ex o = 0 →
  foldr (λ x n, n + one x.1 o) 0 xs = 0 → foldr (λ x n, n + one x.2 o) 0 xs = 0.
Proof.
  intros Hall Hfb Hz Hex Hold. pose proof (ones_0 fst xs o Hold) as Hall1. clear Hold. induction xs as [|y xs IH]; [done|]. cbn [foldr].
  apply Forall_cons in Hall as [Hy Hall]. apply Forall_cons in Hall1 as [Hy1 Hall1]. rewrite IH by done.
  destruct Hy as [-> | [-> | ->]]; [lia|by rewrite one_0|]. destruct Hfb as [->|Hfb]; [by rewrite one_0|].
  rewrite one_ne; [done|]. intros ->. lia.
Qed.

(** and drops the one to its old framebuffer [o]: if that was the last, nothing
    else points to it. *)
Lemma drop_old_ok fb s ex xs l o : kms_ok s (λ q, ex q + owed xs q + one o q) → (∀ q, 0 <= ex q) → NoDup l → moved s l xs →
  Forall (allowed fb) xs → fb = 0 ∨ 0 < ex fb →
  wp (when (z2b o) (drm_framebuffer_unreference o)) s (λ _ s', kms_ok s' (λ q, ex q + owed xs q) ∧ steady s s' ∧ keeps_crtcs s s').
Proof.
  intros Hok Hex Hnd Hm Hall Hfb. unfold z2b. destruct (Z.eqb_spec o 0) as [Hz|Hz]; cbn [negb when].
  { unfold wp, mret, M_ret. split; [|split; [done|apply keeps_crtcs_refl]]. eapply kms_ok_ext; [|exact Hok]. intros q. cbv beta. rewrite Hz, one_0. lia. }
  pose proof (uses_moved s l xs o Hnd Hm) as Hum. pose proof (owed_split xs o) as Hos. pose proof (ones_nonneg fst xs o) as Hold.
  pose proof (ones_nonneg snd xs o) as Hnew. pose proof (file_refs_nonneg (fbs s) o) as Hfn. specialize (Hex o) as Hexo.
  assert (has_fb s o) as [f Hf].
  { destruct (objs s !! o) as [[f| | | |]|] eqn:Ho; [by exists f|..];
      (destruct (k_none _ _ Hok o) as (_ & Hu & He); [intros [f Hf]; congruence|]; cbv beta in He; rewrite (one_self o) in He by done; lia). }
  destruct (k_refs _ _ Hok o f Hf) as [Hpos Hr]. cbv beta in Hr. rewrite (one_self o) in Hr by done.
  eapply wp_mono; [apply (fb_unreference_ok s _ o f Hok Hf)|].
  - intros Hone. rewrite Hone in Hr.
    assert (fb_id f = 0) as Hid by (destruct (Z.eqb_spec (fb_id f) 0); [done|cbn in Hr; lia]). rewrite Hid in Hr. cbn in Hr.
    assert (ex o = 0) as Hez by lia. pose proof (no_more_old fb xs ex o Hall Hfb Hz Hez) as Hnone. rewrite (one_self o) by done.
    split; [done|]. lia.
  - intros _ s2 (Hok2 & Hst2 & Hoth & Hs). split; [|split; [done|]].
    + eapply kms_ok_ext; [|exact Hok2]. intros q. unfold bump. cbv beta.
      case_decide; [subst q; rewrite (one_self o) by done; lia|rewrite (one_ne o) by congruence; lia].
    + apply (others_keeps s s2 o); [by exists f|done|]. intros x0 Hx0. rewrite Hs in Hx0. destruct (fb_refcount f =? 1); by simplify_eq.
Qed.

Lemma settle_ok fb l : ∀ xs s ex, kms_ok s (λ p, ex p + owed xs p) → (∀ q, 0 <= ex q) → NoDup l → moved s l xs → Forall (allowed fb) xs →
  fb = 0 ∨ 0 < ex fb →
  wp (for_each l (λ p,
    c ← crtc_at p;
    when (z2b (crtc_fb c)) (drm_framebuffer_reference (crtc_fb c));;
    when (z2b (crtc_old_fb c)) (drm_framebuffer_unreference (crtc_old_fb c)))) s (λ _ s', kms_ok s' ex ∧ steady s s' ∧ keeps_crtcs s s').
Proof.
  induction l as [|p l IH]; intros xs s ex Hok Hex Hnd Hm Hall Hfb; cbn [for_each].
  { inversion Hm; subst. split; [|split; [done|apply keeps_crtcs_refl]]. eapply kms_ok_ext; [|exact Hok]. intros q. cbn. lia. }
  inversion Hm as [|? x ? xs' (c & Hc & Hold & Hnew) Hm']; subst. apply Forall_cons in Hall as [Hx Hall]. apply NoDup_cons in Hnd as [Hp Hnd].
  apply wp_bind. apply wp_bind. eapply wp_of; [by apply kcrtc_at_run|]. cbv beta. apply wp_bind.
  eapply wp_mono; [exact (take_new_ok s ex x xs' p c Hok Hc Hnew)|]. intros _ s1 (Hok1 & Hst1 & Hk1). cbv beta. rewrite Hold.
  eapply wp_mono; [exact (drop_old_ok fb s1 ex xs' l x.1 Hok1 Hex Hnd (moved_keeps _ _ _ _ Hk1 Hm') Hall Hfb)|].
  intros _ s2 (Hok2 & Hst2 & Hk2). cbv beta. pose proof (keeps_crtcs_trans _ _ _ Hk1 Hk2) as Hk.
  eapply wp_mono; [apply (IH xs' s2 ex Hok2 Hex Hnd (moved_keeps _ _ _ _ Hk Hm') Hall Hfb)|].
  intros _ s3 (Hok3 & Hst3 & Hk3). split; [done|]. split; [|by eapply keeps_crtcs_trans].
  eapply steady_trans; [exact Hst1|]. by eapply steady_trans.
Qed.

(** What a call may do to the crtcs: keep a framebuffer, lose it, or give [fb] to
    [c]; everything but crtcs and framebuffers stays. *)
Definition crtc_moves (c fb : Z) s s' : Prop := ∀ p k', objs s' !! p = Some (KCrtc k') →
  ∃ k, objs s !! p = Some (KCrtc k) ∧ crtc_id k' = crtc_id k ∧
    (crtc_fb k' = crtc_fb k ∨ crtc_fb k' = 0 ∨ p = c ∧ crtc_fb k' = fb).
Definition rest_same s s' : Prop := ∀ p o, is_fb o = false → is_crtc o = false → objs s' !! p = Some o ↔ objs s !! p = Some o.

Lemma crtc_moves_refl c fb s : crtc_moves c fb s s.
Proof. intros p k Hk. exists k. by split_and!; [..|left]. Qed.
Lemma rest_same_refl s : rest_same s s.
Proof. by intros p o. Qed.
Lemma rest_same_trans s1 s2 s3 : rest_same s1 s2 → rest_same s2 s3 → rest_same s1 s3.
Proof. intros H12 H23 p o Hf Hc. rewrite (H23 p o Hf Hc). by apply H12. Qed.
Lemma keeps_rest s s' : keeps_crtcs s s' → rest_same s s'.
Proof. intros Hk p o Hf _. by apply Hk. Qed.

Lemma kms_ok_drv s ex a : kms_ok s ex → kms_ok (set_drv a s) ex.
Proof. intros []. by split. Qed.

(** Crtcs stay crtcs. *)
Lemma still_crtc s s' ex ex' p : kms_ok s ex → kms_ok s' ex' → crtc_list s' = crtc_list s →
  (∃ c, objs s' !! p = Some (KCrtc c)) ↔ ∃ c, objs s !! p = Some (KCrtc c).
Proof. intros Hok Hok' He. rewrite <- (proj2 (k_crtcs _ _ Hok) p), <- (proj2 (k_crtcs _ _ Hok') p). by rewrite He. Qed.

Lemma rest_unless s s' ex ex' : kms_ok s ex → kms_ok s' ex' → crtc_list s' = crtc_list s →
  (∀ p, (∀ c, objs s !! p ≠ Some (KCrtc c)) → objs s' !! p = objs s !! p) → rest_same s s'.
Proof.
  intros Hok Hok' He Hr p o Hf Hc.
  destruct (objs s !! p) as [[f|c|q|m|n]|] eqn:Hp; try (rewrite Hr, Hp by (intros ?; rewrite Hp; discriminate); done).
  destruct (proj2 (still_crtc s s' ex ex' p Hok Hok' He)) as [c' Hc']; [by exists c|].
  split; intros Ho; [rewrite Hc' in Ho|]; by simplify_eq.
Qed.

Lemma call_set_config_ok set s ex : kms_ok s ex → ms_fb set = 0 ∨ has_fb s (ms_fb set) →
  (∀ p c, objs s !! p = Some (KCrtc c) → crtc_old_fb c = crtc_fb c) →
  wp (call_set_config set) s (λ ret s', ∃ xs, kms_ok s' (λ p, ex p + owed xs p) ∧ steady s s' ∧ moved s' (crtc_list s) xs ∧
    Forall (allowed (ms_fb set)) xs ∧ rest_same s s' ∧ crtc_moves (ms_crtc set) (ms_fb set) s s' ∧
    (ret = 0 → ∀ c, objs s' !! ms_crtc set = Some (KCrtc c) → crtc_fb c = ms_fb set ∨ crtc_fb c = 0)).
Proof.
  intros Hok Hfb Hold. unfold call_set_config. apply wp_bind. eapply wp_of; [done|]. cbv beta.
  set (cs := λ p, match objs s !! p with Some (KCrtc c) => Some c | _ => None end). destruct (set_config (drv s) cs set) as [[ret upd] a] eqn:Hset.
  pose proof (set_config_fb _ _ _ _ _ _ Hset) as Hlaw.
  apply wp_bind. eapply wp_of; [done|]. cbv beta. apply wp_bind. destruct (k_crtcs _ _ Hok) as [Hnd Hin].
  eapply wp_mono; [apply (apply_ok upd (ms_fb set) (crtc_list s)) with (s := set_drv a s) (ex := ex)|].
  { intros p c. destruct (Hlaw p c) as (? & ? & [?|[?|[_ ?]]]); auto. }
  { by apply kms_ok_drv. } { done. } { done. } { done. } { intros p c _ Hc. by apply (Hold p). }
  intros _ s' (xs & Hok' & Hst & Hm & Hall & Happ & Hout). cbn in Happ, Hout. unfold wp, mret, M_ret. exists xs. split; [done|]. split; [done|].
  assert (crtc_list s' = crtc_list s) as Hcl by (by destruct Hst).
  assert (∀ p c', objs s' !! p = Some (KCrtc c') → ∃ c, objs s !! p = Some (KCrtc c) ∧ c' = upd p c) as Hcrtc.
  { intros p c' Hc'. destruct (proj1 (still_crtc s s' _ _ p Hok Hok' Hcl)) as [c Hc]; [by exists c'|]. exists c. split; [done|].
    assert (p ∈ crtc_list s) as Hpin by (apply Hin; by exists c). rewrite (Happ p c Hpin Hc) in Hc'. by simplify_eq. }
  split; [done|]. split; [done|]. split; [|split].
  - apply (rest_unless s s' _ _ Hok Hok' Hcl). intros p Hp. apply Hout. intros Hpin. destruct (proj1 (Hin p) Hpin) as [c Hc]. by apply (Hp c).
  - intros p c' Hc'. destruct (Hcrtc p c' Hc') as (c & Hc & ->). exists c. split; [done|]. by destruct (Hlaw p c) as (? & _ & ?).
  - intros -> c' Hc'. destruct (Hcrtc _ c' Hc') as (c & _ & ->). by apply (set_config_ok _ _ _ _ _ Hset).
Qed.

(** The whole call; the reference the caller has to the new framebuffer stays
    its own. *)
Lemma set_config_internal_ok set s ex : kms_ok s ex → (∀ q, 0 <= ex q) → ms_fb set = 0 ∨ 0 < ex (ms_fb set) →
  wp (drm_mode_set_config_internal set) s (λ ret s', kms_ok s' ex ∧ steady s s' ∧ rest_same s s' ∧
    crtc_moves (ms_crtc set) (ms_fb set) s s' ∧
    (ret = 0 → ∀ c, objs s' !! ms_crtc set = Some (KCrtc c) → crtc_fb c = ms_fb set ∨ crtc_fb c = 0)).
Proof.
  intros Hok Hex Hfb. unfold drm_mode_set_config_internal. apply wp_bind. eapply wp_of; [done|]. cbv beta. apply wp_bind.
  eapply wp_mono; [apply (save_old_ok (crtc_list s) s ex Hok); done|]. intros _ s1 (Hok1 & Hst1 & Hc1 & Hr1). cbv beta. apply wp_bind.
  assert (crtc_list s1 = crtc_list s) as Hcl1 by (by destruct Hst1).
  assert (∀ p c, objs s1 !! p = Some (KCrtc c) → ∃ c0, objs s !! p = Some (KCrtc c0) ∧ c = with_old_fb c0) as Hc1'.
  { intros p c Hc. destruct (Hc1 p c Hc) as (c0 & Hc0 & [->|[_ Hn]]); [by exists c0|]. destruct Hn. apply (proj2 (k_crtcs _ _ Hok) p). by exists c0. }
  eapply wp_mono; [apply (call_set_config_ok set s1 ex Hok1)|].
  { destruct Hfb as [|Hfb]; [by left|right]. apply (used_fb s1 ex _ Hok1). right. left. lia. }
  { intros p c Hc. by destruct (Hc1' p c Hc) as (c0 & _ & ->). }
  intros ret s2 (xs & Hok2 & Hst2 & Hm & Hall & Hr2 & Hmv2 & Hret). cbv beta. apply wp_bind. rewrite Hcl1 in Hm.
  eapply wp_mono; [apply (settle_ok (ms_fb set) (crtc_list s) xs s2 ex Hok2 Hex (proj1 (k_crtcs _ _ Hok)) Hm Hall Hfb)|].
  intros _ s3 (Hok3 & Hst3 & Hk3). unfold wp, mret, M_ret. split; [done|]. split; [eapply steady_trans; [exact Hst1|]; by eapply steady_trans|].
  split; [|split].
  - eapply rest_same_trans; [exact (rest_unless s s1 _ _ Hok Hok1 Hcl1 Hr1)|]. eapply rest_same_trans; [done|]. by apply keeps_rest.
  - intros p c3 Hc3. apply (Hk3 p (KCrtc c3)) in Hc3; [|done]. destruct (Hmv2 p c3 Hc3) as (c2 & Hc2 & Hid & Hx).
    destruct (Hc1' p c2 Hc2) as (c0 & Hc0 & ->). exists c0. by split_and!.
  - intros Hz c3 Hc3. apply (Hk3 _ (KCrtc c3)) in Hc3; [|done]. by apply Hret.
Qed.

(** ** Removing a framebuffer *)

(** [drm_plane_force_disable] takes one reference away, which is not the last. *)
Lemma force_disable_ok s ex q r : kms_ok s ex → objs s !! q = Some (KPlane r) →
  (∀ f, plane_fb r ≠ 0 → objs s !! plane_fb r = Some (KFb f) → 1 < fb_refcount f) →
  wp (drm_plane_force_disable q) s (λ _ s', kms_ok s' ex ∧ steady s s' ∧
    (∀ k, k ≠ q → k ≠ plane_fb r → objs s' !! k = objs s !! k) ∧
    (∀ r', objs s' !! q = Some (KPlane r') → plane_fb r' = 0)).
Proof.
  intros Hok Hq Hmore. unfold drm_plane_force_disable. apply wp_bind. eapply wp_of; [by apply plane_at_run|]. cbv beta.
  destruct (Z.eqb_spec (plane_fb r) 0) as [Hz|Hz].
  { unfold wp, mret, M_ret. split; [done|]. split; [done|]. split; [done|]. intros r' Hr'. rewrite Hq in Hr'. by simplify_eq. }
  assert (has_fb s (plane_fb r)) as [f Hf].
  { apply (used_fb s ex _ Hok). left. pose proof (use_le (objs s) q (KPlane r) (plane_fb r) Hq) as Hu. cbn in Hu. rewrite one_self in Hu by done. lia. }
  apply wp_bind. unfold call, wp at 1. destruct (disable_plane (drv s) q) as [ret a]. cbv beta.
  pose proof (kms_ok_drv s ex a Hok) as Hok0. apply wp_bind.
  eapply wp_mono; [apply (fb_unreference_bug_ok (set_drv a s) ex (plane_fb r) f Hok0 Hf (Hmore f Hz Hf))|].
  intros _ s1 [-> Hok1]. cbv beta. assert (q ≠ plane_fb r) as Hne by (intros ->; congruence).
  assert (objs (put_at (plane_fb r) (KFb (add_ref (-1) f)) (set_drv a s)) !! q = Some (KPlane r)) as Hq1 by (rewrite put_at_others; done).
  eapply wp_of; [by eapply put_obj_run|]. split; [|split; [done|split]].
  - eapply kms_ok_ext; [|apply (kms_ok_swap _ _ q (KPlane r) (KPlane (no_fb r)) 0 Hok1 Hq1 I eq_refl eq_refl); [done|by left]].
    intros p. cbn [use]. rewrite one_0. unfold bump. case_decide; [subst p; rewrite one_self by done; lia|rewrite one_ne by congruence; lia].
  - intros k Hkq Hkr. by rewrite !put_at_others.
  - intros r' Hr'. rewrite put_at_eq in Hr'. by simplify_eq.
Qed.

(** Whether a crtc or plane shows [p]. *)
Definition crtc_free (p c : Z) s : Prop := ∀ k, objs s !! c = Some (KCrtc k) → crtc_fb k ≠ p.
Definition plane_free (p q : Z) s : Prop := ∀ r, objs s !! q = Some (KPlane r) → plane_fb r ≠ p.

(** The driver never refuses to switch a crtc off. *)
Definition switches_off : Prop := ∀ a cs c, (set_config a cs (mk_set c 0 0 0 None [])).1.1 = 0.

Lemma set_config_ret set s ret s' : drm_mode_set_config_internal set s = Some (ret, s') → ∃ a cs, ret = (set_config a cs set).1.1.
Proof.
  unfold drm_mode_set_config_internal. intros Hr. apply M_bind_inv in Hr as (? & ? & _ & Hr). apply M_bind_inv in Hr as (? & s1 & _ & Hr).
  apply M_bind_inv in Hr as (ret' & s2 & Hc & Hr). apply M_bind_inv in Hr as (? & ? & _ & Hr). unfold mret, M_ret in Hr. simplify_eq.
  unfold call_set_config in Hc. apply M_bind_inv in Hc as (s0 & ? & _ & Hc). set (cs := λ p, match objs s0 !! p with Some (KCrtc c) => Some c | _ => None end) in Hc.
  exists (drv s0), cs. destruct (set_config (drv s0) cs set) as [[ret1 upd] a].
  apply M_bind_inv in Hc as (? & ? & _ & Hc). apply M_bind_inv in Hc as (? & ? & _ & Hc). unfold mret, M_ret in Hc. by simplify_eq.
Qed.

Lemma crtcs_off_ok s ex p : kms_ok s ex → (∀ q, 0 <= ex q) → p ≠ 0 →
  wp (for_each (crtc_list s) (λ c,
      r ← crtc_at c;
      when (crtc_fb r =? p) (drm_mode_set_config_internal (mk_set c 0 0 0 None []);; mret tt))) s
    (λ _ s', (kms_ok s' ex ∧ steady s s' ∧ rest_same s s') ∧ (switches_off → ∀ c, c ∈ crtc_list s → crtc_free p c s')).
Proof.
  intros Hok Hex Hp.
  eapply wp_mono; [apply (for_each_inv (λ s', kms_ok s' ex ∧ steady s s' ∧ rest_same s s') (λ c s', switches_off → crtc_free p c s'))|].
  - intros c s1 Hc (Hok1 & Hst1 & Hr1). apply wp_bind. assert (crtc_list s1 = crtc_list s) as Hcl by (by destruct Hst1).
    rewrite <- Hcl in Hc. destruct (proj1 (proj2 (k_crtcs _ _ Hok1) c) Hc) as [k Hk]. eapply wp_of; [by apply kcrtc_at_run|]. cbv beta.
    destruct (Z.eqb_spec (crtc_fb k) p) as [Hkp|Hkp]; cbn [when]; cycle 1.
    { split; [done|]. split; [|done]. intros _ k' Hk'. rewrite Hk in Hk'. by simplify_eq. }
    apply wp_bind. destruct (wp_run _ _ _ (set_config_internal_ok (mk_set c 0 0 0 None []) s1 ex Hok1 Hex (or_introl eq_refl)))
      as (ret & s2 & Hrun & Hok2 & Hst2 & Hr2 & Hmv & Hret). eapply wp_of; [exact Hrun|]. cbv beta. unfold wp, mret, M_ret.
    split; [split_and!; [done|by eapply steady_trans|by eapply rest_same_trans]|]. cbn in Hmv, Hret. split.
    + intros Hoff k' Hk'. destruct (set_config_ret _ _ _ _ Hrun) as (a & cs & ->). destruct (Hret (Hoff a cs c) k' Hk'); lia.
    + intros c' Hfree Hoff k' Hk'. specialize (Hfree Hoff). destruct (Hmv c' k' Hk') as (k0 & Hk0 & _ & Hx). specialize (Hfree k0 Hk0).
      destruct Hx as [-> | [-> | [_ ->]]]; congruence.
  - done.
  - intros _ s' (Hi & Hc & _). split; [done|]. intros Hoff c Hcl. by apply Hc.
Qed.

Lemma planes_off_ok s ex p : kms_ok s ex → (∀ q, 0 <= ex q) → 0 < ex p →
  wp (for_each (plane_list s) (λ q,
      r ← plane_at q;
      when (plane_fb r =? p) (drm_plane_force_disable q))) s
    (λ _ s', (kms_ok s' ex ∧ steady s s' ∧ (∀ k o, is_fb o = false → is_plane o = false → objs s' !! k = Some o ↔ objs s !! k = Some o)) ∧
      ∀ q, q ∈ plane_list s → plane_free p q s').
Proof.
  intros Hok Hex Hp.
  set (J := λ s', kms_ok s' ex ∧ steady s s' ∧ (∀ k o, is_fb o = false → is_plane o = false → objs s' !! k = Some o ↔ objs s !! k = Some o)).
  eapply wp_mono; [apply (for_each_inv J (plane_free p))|].
  - intros q s1 Hq (Hok1 & Hst1 & Hr1). apply wp_bind. assert (plane_list s1 = plane_list s) as Hpl by (by destruct Hst1 as (_ & ? & _)).
    rewrite <- Hpl in Hq. destruct (proj1 (proj2 (k_planes _ _ Hok1) q) Hq) as [r Hr]. eapply wp_of; [by apply plane_at_run|]. cbv beta.
    destruct (Z.eqb_spec (plane_fb r) p) as [Hrp|Hrp]; cbn [when]; cycle 1.
    { split; [done|]. split; [|done]. intros r' Hr'. rewrite Hr in Hr'. by simplify_eq. }
    destruct (used_fb s1 ex p Hok1) as [f Hf]; [right; left; lia|].
    assert (p ≠ 0) as Hp0 by (intros ->; rewrite (k_null _ _ Hok1) in Hf; done).
    eapply wp_mono; [apply (force_disable_ok s1 ex q r Hok1 Hr)|].
    { intros g _ Hg. destruct (k_refs _ _ Hok1 _ g Hg) as [_ ->]. rewrite Hrp. pose proof (file_refs_nonneg (fbs s1) p).
      pose proof (use_le (objs s1) q (KPlane r) p Hr) as Hu. cbn in Hu. rewrite Hrp, one_self in Hu by done. destruct (fb_id g =? 0); cbn; lia. }
    intros _ s2 (Hok2 & Hst2 & Hch & Hfree).
    assert (∀ k, k ≠ q → k ≠ p → objs s2 !! k = objs s1 !! k) as Hsame.
    { intros k Hkq Hkp. apply Hch; congruence. }
    assert (∃ f', objs s2 !! p = Some (KFb f')) as [f' Hf'] by (apply (used_fb s2 ex p Hok2); right; left; lia).
    assert (∃ r', objs s2 !! q = Some (KPlane r')) as [r' Hr'].
    { apply (proj2 (k_planes _ _ Hok2)). destruct Hst2 as (_ & -> & _). done. }
    split; [split; [done|]; split; [by eapply steady_trans|]|split].
    + intros k o Hof Hop. rewrite <- Hr1 by done. destruct (decide (k = q)) as [->|]; [rewrite Hr, Hr'; split; intros ?; by simplify_eq|].
      destruct (decide (k = p)) as [->|]; [rewrite Hf, Hf'; split; intros ?; by simplify_eq|]. by rewrite Hsame.
    + intros r'' Hr''. rewrite (Hfree _ Hr''). done.
    + intros q' Hq' r'' Hr''. destruct (decide (q' = q)) as [->|Hne]; [by rewrite (Hfree _ Hr'')|]. apply (Hq' r'').
      rewrite <- Hsame; [done..|]. intros ->. congruence.
  - by split_and!.
  - intros _ s' (Hi & Hc & _). done.
Qed.

(** The whole of [drm_framebuffer_remove] by a caller that has a reference. *)
Lemma fb_remove_ok s ex p : kms_ok s ex → (∀ q, 0 <= ex q) → 0 < ex p →
  wp (drm_framebuffer_remove p) s (λ _ s', kms_ok s' (bump p (-1) ex) ∧ steady s s' ∧
    (∀ q, plane_free p q s') ∧ (switches_off → ∀ c, crtc_free p c s') ∧ ∀ o, objs s' !! p = Some o → is_fb o = true).
Proof.
  intros Hok Hex Hp. destruct (used_fb s ex p Hok) as [f Hf]; [right; left; lia|].
  assert (p ≠ 0) as Hp0 by (intros ->; rewrite (k_null _ _ Hok) in Hf; done).
  unfold drm_framebuffer_remove. apply wp_bind. eapply wp_of; [by apply fb_at_run|]. cbv beta. apply wp_bind.
  assert (wp (when (1 <? fb_refcount f) (
    s ← get;
    for_each (crtc_list s) (λ c,
      r ← crtc_at c;
      when (crtc_fb r =? p) (drm_mode_set_config_internal (mk_set c 0 0 0 None []);; mret tt));;
    for_each (plane_list s) (λ q,
      r ← plane_at q;
      when (plane_fb r =? p) (drm_plane_force_disable q)))) s (λ _ s', kms_ok s' ex ∧ steady s s' ∧
    (∀ q, plane_free p q s') ∧ (switches_off → ∀ c, crtc_free p c s'))) as Hoff.
  { destruct (Z.ltb_spec 1 (fb_refcount f)) as [Hr|Hr]; cbn [when].
    - apply wp_bind. eapply wp_of; [done|]. cbv beta. apply wp_bind.
      eapply wp_mono; [exact (crtcs_off_ok s ex p Hok Hex Hp0)|]. intros _ s1 ((Hok1 & Hst1 & Hr1) & Hc1). cbv beta.
      assert (plane_list s1 = plane_list s) as Hpl by (by destruct Hst1 as (_ & ? & _)).
      assert (crtc_list s1 = crtc_list s) as Hcl by (by destruct Hst1). rewrite <- Hpl.
      eapply wp_mono; [exact (planes_off_ok s1 ex p Hok1 Hex Hp)|]. intros _ s2 ((Hok2 & Hst2 & Hr2) & Hq2).
      split; [done|]. split; [by eapply steady_trans|]. split.
      + intros q r Hr'. apply (Hq2 q); [|done]. destruct Hst2 as (_ & <- & _). apply (proj2 (k_planes _ _ Hok2)). by exists r.
      + intros Hoff c k Hk. apply (Hr2 c (KCrtc k)) in Hk; [|done..]. apply (Hc1 Hoff c); [|done]. rewrite <- Hcl.
        apply (proj2 (k_crtcs _ _ Hok1)). by exists k.
    - unfold wp, mret, M_ret. split; [done|]. split; [done|]. destruct (k_refs _ _ Hok p f Hf) as [_ Hcount].
      pose proof (file_refs_nonneg (fbs s) p). pose proof (uses_nonneg (objs s) p).
      assert (uses (objs s) p = 0) as Hu by (destruct (fb_id f =? 0); cbn in Hcount; lia). split.
      + intros q r Hq Hrp. pose proof (use_le (objs s) q _ p Hq) as Hle. cbn in Hle. rewrite Hrp, one_self in Hle by done. lia.
      + intros _ c k Hk Hkp. pose proof (use_le (objs s) c _ p Hk) as Hle. cbn in Hle. rewrite Hkp, one_self in Hle by done. lia. }
  eapply wp_mono; [exact Hoff|]. intros _ s1 (Hok1 & Hst1 & Hq1 & Hc1). cbv beta.
  destruct (used_fb s1 ex p Hok1) as [f1 Hf1]; [right; left; lia|].
  eapply wp_mono; [exact (fb_unreference_held s1 ex p Hok1 Hex Hp)|]. intros _ s2 (Hok2 & Hst2 & Hoth & Hs2). split; [done|].
  split; [by eapply steady_trans|]. specialize (Hs2 f1 Hf1).
  assert (∀ k o, is_fb o = false → objs s2 !! k = Some o → objs s1 !! k = Some o) as Hback.
  { intros k o Ho Hk. destruct (decide (k = p)) as [->|]; [|by rewrite <- Hoth]. rewrite Hs2 in Hk. destruct (fb_refcount f1 =? 1); by simplify_eq. }
  split; [intros q r Hr; apply (Hq1 q); by apply Hback|]. split; [intros Hsw c k Hk; apply (Hc1 Hsw c); by apply Hback|].
  intros o Ho. rewrite Hs2 in Ho. destruct (fb_refcount f1 =? 1); by simplify_eq.
Qed.

(** ** Ids *)

Lemma set_idr_same s : set_idr (crtc_idr s) s = s.
Proof. by destruct s. Qed.

(** A lookup changes nothing and finds an object of its type and id. *)
Lemma find_object_ok s ex id t : kms_ok s ex →
  wp (find_object id t) s (λ p s', s' = s ∧ (p = 0 ∨ ∃ o, objs s !! p = Some o ∧ t o = true ∧ object_id o = id)).
Proof.
  intros Hok. destruct (k_idr _ _ Hok) as [L Hinv]. unfold find_object. apply wp_bind.
  eapply wp_of; [unfold on_idr; rewrite (idr_find_ok L _ id Hinv), set_idr_same; reflexivity|]. cbv beta.
  destruct (used_ids (crtc_idr s) !! id) as [p|] eqn:Hid; cbn [default from_option]; unfold Datatypes.id; [|unfold wp; cbn; split; [done|by left]].
  destruct (Z.eqb_spec p 0) as [Hz|Hz]; [unfold wp; cbn; split; [done|by left]|].
  destruct (proj1 (k_ids _ _ Hok id p) Hid) as (_ & o & Ho & Hoid). apply wp_bind.
  eapply wp_of; [unfold obj_at, reads; rewrite Ho; reflexivity|]. cbv beta. unfold wp, mret, M_ret.
  destruct (t o) eqn:Ht; cbn [negb orb]; [|split; [done|by left]]. rewrite (proj2 (Z.eqb_eq _ _) Hoid). cbn [negb]. split; [done|]. right. by exists o.
Qed.

Lemma fb_lookup_ok s ex id : kms_ok s ex →
  wp (drm_framebuffer_lookup id) s (λ p s', p = 0 ∧ s' = s ∨
    ∃ f, p ≠ 0 ∧ objs s !! p = Some (KFb f) ∧ fb_id f = id ∧ kms_ok s' (bump p 1 ex) ∧ s' = put_at p (KFb (add_ref 1 f)) s).
Proof.
  intros Hok. unfold drm_framebuffer_lookup. apply wp_bind.
  eapply wp_mono; [exact (find_object_ok s ex id is_fb Hok)|]. intros p s' [-> Hp]. cbv beta. apply wp_bind.
  unfold z2b. destruct (Z.eqb_spec p 0) as [Hz|Hz]; cbn [negb when].
  - unfold wp, mret, M_ret. by left.
  - destruct Hp as [|([f| | | |] & Ho & Ht & Hid)]; [done| |done..]. destruct (k_refs _ _ Hok p f Ho) as [Hpos _].
    unfold drm_framebuffer_reference. apply wp_bind. eapply wp_of; [by apply fb_at_run|]. cbv beta. eapply wp_of; [by eapply put_obj_run|].
    unfold wp, mret, M_ret. right. exists f. split_and!; try done. apply kms_ok_ref; [done|done|lia].
Qed.

(** A new object gets an id, or [-ENOMEM] and the like. *)
Lemma object_get_run s ex p o alloc : kms_ok s ex → ∃ i L, idr_inv L i ∧
  ((∃ id, drm_mode_object_get p alloc (put_at p o s) = Some (0, put_at p (with_id id o) (set_idr i s)) ∧
      idr_get_new_above p 1 alloc (crtc_idr s) = Some ((0, Some id), i) ∧ id ≠ 0 ∧ used_ids (crtc_idr s) !! id = None ∧
      used_ids i = <[id := p]> (used_ids (crtc_idr s))) ∨
   ∃ ret n, drm_mode_object_get p alloc (put_at p o s) = Some (ret, put_at p o (set_idr i s)) ∧ ret ≠ 0 ∧
      idr_get_new_above p 1 alloc (crtc_idr s) = Some ((ret, n), i) ∧ used_ids i = used_ids (crtc_idr s)).
Proof.
  intros Hok. destruct (k_idr _ _ Hok) as [L Hinv].
  destruct (idr_get_ok L (crtc_idr s) p 1 alloc Hinv) as (ret & n & i & L' & Hrun & Hinv' & Hcase & Hag); [unfold INT_MIN, INT_MAX; lia|].
  exists i, L'. split; [done|].
  assert (drm_mode_object_get p alloc (put_at p o s) =
    (match n with
     | Some id => when (ret =? 0) (o ← obj_at p; put_obj p (with_id id o))
     | None => mret tt
     end;;
     if ret =? - EAGAIN then object_get_again 1 p alloc else mret ret) (put_at p o (set_idr i s))) as ->.
  { unfold drm_mode_object_get. cbn [object_get_again]. change (idr_pre_get =? 0) with false. cbv iota.
    unfold on_idr. unfold mbind at 1, M_bind at 1. cbn [crtc_idr put_at set_objs]. by rewrite Hrun. }
  rewrite (proj2 (Z.eqb_neq ret (- EAGAIN)) Hag).
  destruct Hcase as [(-> & id & -> & Hid & Hno & Hused)|(Hneg & -> & Hused)]; [left; exists id|right; exists ret, None].
  - split; [|split_and!; [done|lia|done|done]]. cbn [Z.eqb when]. rewrite M_bind_assoc.
    rewrite (M_bind_Some (obj_at p) _ _ o (put_at p o (set_idr i s))) by (unfold obj_at, reads; by rewrite put_at_eq).
    rewrite (M_bind_Some _ _ _ _ _ (put_obj_run _ p o _ (put_at_eq _ _ _))). unfold put_at, set_objs. cbn. by rewrite insert_insert_eq.
  - split_and!; [done|lia|done|done].
Qed.

(** The state after an object that shows nothing got its id. *)
Lemma kms_ok_new s ex p o i L cs ps fl n k : kms_ok s ex → objs s !! p = None → p ≠ 0 → object_id o ≠ 0 →
  used_ids (crtc_idr s) !! object_id o = None → idr_inv L i → used_ids i = <[object_id o := p]> (used_ids (crtc_idr s)) →
  (∀ q, use q o = 0) → cs = (if is_crtc o then crtc_list s ++ [p] else crtc_list s) →
  ps = (if is_plane o then plane_list s ++ [p] else plane_list s) → fl = (if is_fb o then p :: fb_list s else fb_list s) →
  (∀ f, o = KFb f → fb_refcount f = 2) →
  kms_ok (mk_kms (<[p := o]> (objs s)) i fl n cs ps k (fbs s) (event_space s) (drv s)) (if is_fb o then bump p 1 ex else ex).
Proof.
  intros Hok Hp Hp0 Hid Hno Hinv Hused Huse Hcs Hps Hfl Hrc. set (s' := mk_kms _ _ _ _ _ _ _ _ _ _).
  assert (∀ q, uses (objs s') q = uses (objs s) q) as Hu.
  { intros q. unfold uses. cbn. rewrite msum_insert by done. rewrite Huse. lia. }
  assert (∀ q, q ≠ p → objs s' !! q = objs s !! q) as Hoth by (intros q Hq; cbn; by rewrite lookup_insert_ne).
  assert (¬ has_fb s p) as Hnf by (intros [f Hf]; congruence). destruct (k_none _ _ Hok p Hnf) as (Hfr0 & Hu0 & Hex0).
  assert (∀ l (t : mode_object → Prop) b q, (∀ q, q ∈ l ↔ ∃ x, objs s !! q = Some x ∧ t x) → (t o ↔ b = true) →
    q ∈ (if b : bool then l ++ [p] else l) ↔ ∃ x, objs s' !! q = Some x ∧ t x) as Hl.
  { intros l t b q Hin Ht. destruct (decide (q = p)) as [->|Hq].
    - cbn. rewrite lookup_insert_eq. destruct b.
      + rewrite elem_of_app, list_elem_of_singleton. split; [intros _; exists o; by rewrite Ht|by right].
      + rewrite Hin. split; [intros (? & ? & _); congruence|intros (x & ? & Hx); simplify_eq; by apply Ht in Hx].
    - rewrite Hoth by done. rewrite <- Hin. destruct b; [|done]. rewrite elem_of_app, list_elem_of_singleton. naive_solver. }
  assert (∀ l b, NoDup l → p ∉ l → NoDup (if b : bool then l ++ [p] else l)) as Hnd.
  { intros l [] Hn Hpl; [|done]. apply NoDup_app. split; [done|]. split; [by intros x Hx ->%list_elem_of_singleton|apply NoDup_singleton]. }
  split.
  - by exists L.
  - intros id q. cbn [crtc_idr s']. rewrite Hused. destruct (decide (q = p)) as [->|Hq].
    + cbn. rewrite lookup_insert_eq. split.
      * intros Hi. destruct (decide (object_id o = id)) as [<-|Hne]; [split; [done|by exists o]|]. rewrite lookup_insert_ne in Hi by done.
        apply (k_ids _ _ Hok) in Hi as (_ & x & Hx & _). congruence.
      * intros (_ & x & ? & <-). simplify_eq. apply lookup_insert_eq.
    + rewrite Hoth by done. rewrite <- (k_ids _ _ Hok id q). destruct (decide (object_id o = id)) as [<-|Hne]; [|by rewrite lookup_insert_ne].
      rewrite lookup_insert_eq, Hno. split; intros ?; congruence.
  - cbn. rewrite lookup_insert_ne by done. apply (k_null _ _ Hok).
  - destruct (k_crtcs _ _ Hok) as [Hn Hc]. cbn [crtc_list s']. rewrite Hcs. split.
    + apply Hnd; [done|]. rewrite Hc. intros [c Hcp]. congruence.
    + intros q. rewrite (Hl (crtc_list s) (λ x, ∃ c, x = KCrtc c) (is_crtc o) q); [naive_solver..|].
      destruct o; cbn; naive_solver.
  - destruct (k_planes _ _ Hok) as [Hn Hc]. cbn [plane_list s']. rewrite Hps. split.
    + apply Hnd; [done|]. rewrite Hc. intros [c Hcp]. congruence.
    + intros q. rewrite (Hl (plane_list s) (λ x, ∃ c, x = KPlane c) (is_plane o) q); [naive_solver..|].
      destruct o; cbn; naive_solver.
  - destruct (k_fbs _ _ Hok) as [Hn Hc]. cbn [fb_list s']. rewrite Hfl. unfold has_fb. split.
    + destruct (is_fb o); [|done]. apply NoDup_cons. split; [|done]. by rewrite Hc.
    + intros q. trans (q ∈ if is_fb o then fb_list s ++ [p] else fb_list s).
      { destruct (is_fb o); [|done]. rewrite elem_of_cons, elem_of_app, list_elem_of_singleton. tauto. }
      rewrite (Hl (fb_list s) (λ x, ∃ c, x = KFb c) (is_fb o) q); [naive_solver|unfold has_fb in Hc; naive_solver|]. destruct o; cbn; naive_solver.
  - intros q Hq. cbn [fbs s'] in *. destruct (k_files _ _ Hok q Hq) as (? & g & Hg & ?). split; [done|]. exists g. split; [|done].
    rewrite Hoth; [done|]. intros ->. congruence.
  - intros q g Hg. rewrite Hu. cbn [fbs s']. destruct (decide (q = p)) as [->|Hq].
    + cbn in Hg. rewrite lookup_insert_eq in Hg. simplify_eq. cbn [is_fb]. rewrite bump_eq, (Hrc g eq_refl), Hfr0, Hu0, Hex0.
      cbn in Hid. rewrite (proj2 (Z.eqb_neq _ _) Hid). cbn. lia.
    + rewrite Hoth in Hg by done. destruct (is_fb o); [rewrite bump_ne by done|]; by apply (k_refs _ _ Hok).
  - intros q Hq. rewrite Hu. cbn [fbs s']. destruct (decide (q = p)) as [->|Hqp].
    + split; [done|]. split; [done|]. destruct o; cbn [is_fb]; try done. destruct Hq. eexists. cbn. apply lookup_insert_eq.
    + assert (¬ has_fb s q) as Hnq by (intros [g Hg]; apply Hq; exists g; by rewrite Hoth). destruct (k_none _ _ Hok q Hnq) as (? & ? & ?).
      destruct (is_fb o); [by rewrite bump_ne|done].
Qed.

(** Ids that are in use as before. *)
Lemma kms_ok_idr s ex i L : kms_ok s ex → idr_inv L i → used_ids i = used_ids (crtc_idr s) → kms_ok (set_idr i s) ex.
Proof. intros [] Hinv Hu. split; try done; [by exists L|]. cbn. by rewrite Hu. Qed.

(** A mode object of [drm_mode_setcrtc] comes and goes. *)
Definition extends s s' (m : Z) : Prop := ∀ q, q ≠ m → objs s' !! q = objs s !! q.

Lemma mode_destroy_ok s ex m id : kms_ok s ex → objs s !! m = Some (KMode id) → id ≠ 0 →
  wp (drm_mode_destroy m true) s (λ _ s', kms_ok s' ex ∧ fbs s' = fbs s).
Proof.
  intros Hok Hm Hid. unfold drm_mode_destroy. assert (m ≠ 0) as Hm0 by (intros ->; rewrite (k_null _ _ Hok) in Hm; done).
  rewrite (proj2 (Z.eqb_neq _ _) Hm0). destruct (k_idr _ _ Hok) as [L Hinv].
  assert (used_ids (crtc_idr s) !! id = Some m) as Hused by (apply (k_ids _ _ Hok); split; [done|by exists (KMode id)]).
  destruct (idr_remove_ok L (crtc_idr s) id m Hinv Hused) as (i & Hrun & Hinv' & Hused').
  unfold drm_mode_object_put. apply wp_bind, wp_bind. eapply wp_of; [unfold obj_at, reads; by rewrite Hm|]. cbv beta. apply wp_bind.
  eapply wp_of; [unfold on_idr; cbn [object_id]; by rewrite Hrun|]. cbv beta. eapply wp_of; [done|]. cbv beta. unfold free. apply wp_bind.
  eapply wp_of; [unfold obj_at, reads; cbn; by rewrite Hm|]. cbv beta. eapply wp_of; [done|]. split; [|done].
  set (s' := set_objs _ _).
  assert (∀ q o, (∀ k, o ≠ KMode k) → objs s' !! q = Some o ↔ objs s !! q = Some o) as Hsame.
  { intros q o Ho. cbn. destruct (decide (q = m)) as [->|]; [|by rewrite lookup_delete_ne]. rewrite lookup_delete_eq, Hm.
    split; intros ?; simplify_eq. by destruct (Ho id). }
  assert (∀ q, uses (objs s') q = uses (objs s) q) as Hu.
  { intros q. unfold uses. cbn. rewrite (msum_delete (use q) (objs s) m _ Hm). cbn. lia. }
  assert (∀ q, has_fb s' q ↔ has_fb s q) as Hfb by (intros q; split; intros [f Hf]; exists f; by apply (Hsame q (KFb f))).
  split.
  - by eexists.
  - intros k q. cbn [crtc_idr s' set_objs set_idr]. rewrite Hused'. destruct (decide (id = k)) as [<-|Hk].
    + rewrite lookup_delete_eq. split; [done|]. intros (_ & o & Ho & Hoid). cbn in Ho. apply lookup_delete_Some in Ho as [Hqm Ho].
      assert (used_ids (crtc_idr s) !! id = Some q) by (apply (k_ids _ _ Hok); split; [done|by exists o]). congruence.
    + rewrite lookup_delete_ne by done. rewrite (k_ids _ _ Hok k q). cbn. destruct (decide (q = m)) as [->|]; [|by rewrite lookup_delete_ne].
      rewrite lookup_delete_eq, Hm. split; [intros (? & o & ? & ?); simplify_eq; by destruct Hk|by intros (_ & ? & ? & _)].
  - cbn. apply lookup_delete_None. right. apply (k_null _ _ Hok).
  - destruct (k_crtcs _ _ Hok) as [? Hc]. split; [done|]. intros q. cbn [crtc_list s' set_objs set_idr]. rewrite Hc.
    split; intros [c Hcq]; exists c; by apply (Hsame q (KCrtc c)).
  - destruct (k_planes _ _ Hok) as [? Hc]. split; [done|]. intros q. cbn [plane_list s' set_objs set_idr]. rewrite Hc.
    split; intros [c Hcq]; exists c; by apply (Hsame q (KPlane c)).
  - destruct (k_fbs _ _ Hok) as [? Hc]. split; [done|]. intros q. rewrite Hfb. by rewrite <- Hc.
  - intros q Hq. destruct (k_files _ _ Hok q Hq) as (? & g & Hg & ?). split; [done|]. exists g. split; [|done]. by apply (Hsame q (KFb g)).
  - intros q g Hq. apply (Hsame q (KFb g)) in Hq; [|done]. rewrite Hu. by apply (k_refs _ _ Hok).
  - intros q Hq. rewrite Hfb in Hq. rewrite Hu. by apply (k_none _ _ Hok).
Qed.

Lemma create_mode_ok s ex m alloc : kms_ok s ex → m = 0 ∨ objs s !! m = None →
  wp (create_mode m alloc) s (λ m' s', kms_ok s' ex ∧ fbs s' = fbs s ∧
    (m' = 0 ∨ m' = m ∧ m ≠ 0 ∧ ∃ id, id ≠ 0 ∧ objs s' !! m = Some (KMode id)) ∧ ∀ q o, objs s !! q = Some o → objs s' !! q = Some o).
Proof.
  intros Hok Hm. unfold create_mode. destruct (Z.eqb_spec m 0) as [Hz|Hz].
  { unfold wp, mret, M_ret. split; [done|]. split; [done|]. split; [by left|done]. }
  destruct Hm as [|Hm]; [done|]. apply wp_bind. eapply wp_of; [done|]. cbv beta. apply wp_bind.
  destruct (object_get_run s ex m (KMode 0) alloc Hok) as (i & L & Hinv & [(id & Hrun & _ & Hid & Hno & Hused)|(ret & n & Hrun & Hret & _ & Hused)]);
    (eapply wp_of; [exact Hrun|]; cbv beta).
  - cbn. unfold wp, mret, M_ret. split.
    { exact (kms_ok_new s ex m (KMode id) i L _ _ _ (num_fb s) (num_connector s) Hok Hm Hz Hid Hno Hinv Hused
        (λ _, eq_refl) eq_refl eq_refl eq_refl (λ f Hf, ltac:(done))). }
    split; [done|]. split; [right; split; [done|]; split; [done|]; exists id; split; [done|apply lookup_insert_eq]|].
    intros q o Ho. cbn. rewrite lookup_insert_ne; [done|]. intros ->. congruence.
  - unfold z2b. rewrite (proj2 (Z.eqb_neq _ _) Hret). cbn [negb]. unfold free. apply wp_bind. apply wp_bind.
    eapply wp_of; [unfold obj_at, reads; by rewrite put_at_eq|]. cbv beta. eapply wp_of; [done|]. cbv beta. unfold wp, mret, M_ret.
    match goal with |- kms_ok ?x _ ∧ _ => assert (x = set_idr i s) as -> by
      (unfold set_objs, set_idr, put_at; cbn; by rewrite delete_insert_id by done) end.
    split; [exact (kms_ok_idr s ex i L Hok Hinv Hused)|]. split; [done|]. split; [by left|done].
Qed.

(** The halves of [drm_mode_rmfb] and the loop of [drm_fb_release]: the framebuffer
    loses its id and the file; the file's reference goes to the caller. *)
Lemma unregister_ok s ex file l p f : kms_ok s ex → (∀ q, 0 <= ex q) → fbs s !! file = Some l → p ∈ l → objs s !! p = Some (KFb f) →
  wp (__drm_framebuffer_unregister p true) s (λ _ s', fbs s' = fbs s ∧
    used_ids (crtc_idr s') = delete (fb_id f) (used_ids (crtc_idr s)) ∧
    kms_ok (set_fbs (<[file := remove_elem p l]> (fbs s')) s') (bump p 1 ex)).
Proof.
  intros Hok Hex Hl Hp Hf. pose proof (in_file_pos p l Hp) as Hpos. pose proof (msum_le (in_file p) (fbs s) file l (in_file_nonneg p) Hl) as Hle.
  destruct (k_files _ _ Hok p) as (Hone & g & Hg & Hgid); [unfold file_refs; lia|]. rewrite Hf in Hg. injection Hg as <-.
  assert (in_file p l = 1) as Hl1 by (unfold file_refs in Hone; lia).
  destruct (k_refs _ _ Hok p f Hf) as [Hrpos Hr]. rewrite (proj2 (Z.eqb_neq _ _) Hgid) in Hr. cbn [negb b2z] in Hr.
  pose proof (uses_nonneg (objs s) p) as Hup. specialize (Hex p). destruct (k_idr _ _ Hok) as [L Hinv].
  assert (used_ids (crtc_idr s) !! fb_id f = Some p) as Hused by (apply (k_ids _ _ Hok); split; [done|by exists (KFb f)]).
  destruct (idr_remove_ok L (crtc_idr s) (fb_id f) p Hinv Hused) as (i & Hrun & Hinv' & Hused').
  unfold __drm_framebuffer_unregister. apply wp_bind. eapply wp_of; [by apply fb_at_run|]. cbv beta. apply wp_bind.
  eapply wp_of; [unfold on_idr; by rewrite Hrun|]. cbv beta. apply wp_bind. eapply wp_of; [by eapply (put_obj_run (set_idr i s))|]. cbv beta.
  unfold __drm_framebuffer_unreference, put_ref. apply wp_bind. eapply wp_of; [apply fb_at_run, put_at_eq|]. cbv beta. apply wp_bind.
  eapply wp_of; [eapply put_obj_run, put_at_eq|]. cbv beta. cbn [fb_refcount with_id]. rewrite (proj2 (Z.eqb_neq _ _)) by lia. cbn [when].
  unfold wp, mret, M_ret. split; [done|]. split; [exact Hused'|]. set (s' := set_fbs _ _).
  assert (objs s' = <[p := KFb (mk_fb 0 (fb_refcount f + -1) (info f))]> (objs s)) as Hobjs by (cbn; by rewrite insert_insert_eq).
  assert (∀ q o, is_fb o = false → objs s' !! q = Some o ↔ objs s !! q = Some o) as Hoth.
  { intros q o Ho. rewrite Hobjs. destruct (decide (q = p)) as [->|]; [|by rewrite lookup_insert_ne]. rewrite lookup_insert_eq, Hf.
    split; intros ?; by simplify_eq. }
  assert (∀ q, uses (objs s') q = uses (objs s) q) as Hu.
  { intros q. rewrite Hobjs. unfold uses. rewrite (msum_update (use q) (objs s) p _ _ Hf). cbn. lia. }
  assert (∀ q, has_fb s' q ↔ has_fb s q) as Hfb.
  { intros q. unfold has_fb. rewrite Hobjs. destruct (decide (q = p)) as [->|]; [|by rewrite lookup_insert_ne]. rewrite lookup_insert_eq, Hf.
    by split; intros _; eexists. }
  assert (∀ q, file_refs (fbs s') q = if decide (q = p) then 0 else file_refs (fbs s) q) as Hfr.
  { intros q. unfold file_refs. cbn. rewrite (msum_update (in_file q) (fbs s) file _ _ Hl). rewrite in_file_remove.
    case_decide; [subst q; unfold file_refs in Hone; lia|lia]. }
  split.
  - by eexists.
  - intros k q. change (crtc_idr s') with i. rewrite Hused', Hobjs. destruct (decide (fb_id f = k)) as [<-|Hk].
    + rewrite lookup_delete_eq. split; [done|]. intros (_ & o & Ho & Hoid). destruct (decide (q = p)) as [->|Hqp].
      * rewrite lookup_insert_eq in Ho. by simplify_eq.
      * rewrite lookup_insert_ne in Ho by done.
        assert (used_ids (crtc_idr s) !! fb_id f = Some q) by (apply (k_ids _ _ Hok); split; [done|by exists o]). congruence.
    + rewrite lookup_delete_ne by done. rewrite (k_ids _ _ Hok k q). destruct (decide (q = p)) as [->|]; [|by rewrite lookup_insert_ne].
      rewrite lookup_insert_eq, Hf. split; intros (? & o & ? & ?); simplify_eq.
  - rewrite Hobjs, lookup_insert_ne; [apply (k_null _ _ Hok)|]. intros ->. rewrite (k_null _ _ Hok) in Hf. done.
  - destruct (k_crtcs _ _ Hok) as [? Hc]. split; [done|]. intros q. change (crtc_list s') with (crtc_list s). rewrite Hc.
    split; intros [c Hcq]; exists c; by apply (Hoth q (KCrtc c)).
  - destruct (k_planes _ _ Hok) as [? Hc]. split; [done|]. intros q. change (plane_list s') with (plane_list s). rewrite Hc.
    split; intros [c Hcq]; exists c; by apply (Hoth q (KPlane c)).
  - destruct (k_fbs _ _ Hok) as [? Hc]. split; [done|]. intros q. rewrite Hfb. by rewrite <- Hc.
  - intros q. rewrite Hfr. case_decide as Hqp; [lia|]. intros Hq. destruct (k_files _ _ Hok q Hq) as (? & g & Hg & ?). split; [done|].
    exists g. by rewrite Hobjs, lookup_insert_ne.
  - intros q g. rewrite Hu, Hfr, Hobjs. case_decide as Hqp; [subst q; rewrite lookup_insert_eq|rewrite lookup_insert_ne by done]; intros Hq.
    + simplify_eq. rewrite bump_eq. cbn. lia.
    + rewrite bump_ne by done. by apply (k_refs _ _ Hok).
  - intros q Hq. rewrite Hfb in Hq. rewrite Hu, Hfr. assert (q ≠ p) by (intros ->; apply Hq; by exists f).
    rewrite bump_ne, decide_False by done. by apply (k_none _ _ Hok).
Qed.

(** ** The files *)

(** The lists of the files change, not who is on one. *)
Lemma kms_ok_fbs s ex m : kms_ok s ex → (∀ p, file_refs m p = file_refs (fbs s) p) → kms_ok (set_fbs m s) ex.
Proof.
  intros Hok Hm. split; try apply Hok.
  - intros p. cbn [fbs set_fbs]. rewrite Hm. apply (k_files _ _ Hok).
  - intros p f Hp. cbn [fbs set_fbs]. rewrite Hm. by apply (k_refs _ _ Hok).
  - intros p Hp. cbn [fbs set_fbs]. rewrite Hm. by apply (k_none _ _ Hok).
Qed.

Lemma kms_ok_space s ex m : kms_ok s ex → kms_ok (set_space m s) ex.
Proof. intros []. by split. Qed.

(** A framebuffer that is on no list yet goes on that of a file. *)
Lemma add_to_file_ok s ex file l p f : kms_ok s (bump p 1 ex) → fbs s !! file = Some l → objs s !! p = Some (KFb f) → fb_id f ≠ 0 →
  file_refs (fbs s) p = 0 → wp (add_to_file file p) s (λ _ s', kms_ok s' ex).
Proof.
  intros Hok Hl Hp Hid Hfr. unfold add_to_file. assert (p ≠ 0) as Hp0 by (intros ->; rewrite (k_null _ _ Hok) in Hp; done).
  rewrite (proj2 (Z.eqb_neq _ _) Hp0). apply wp_bind. eapply wp_of; [by apply fb_at_run|]. cbv beta. apply wp_bind.
  eapply wp_of; [unfold reads; by rewrite Hl|]. cbv beta. apply wp_bind. eapply wp_of; [done|]. cbv beta. unfold wp, mret, M_ret.
  set (m := <[file := p :: l]> (fbs s)).
  assert (∀ q, file_refs m q = file_refs (fbs s) q + if decide (q = p) then 1 else 0) as Hm.
  { intros q. unfold m, file_refs. rewrite (msum_update (in_file q) (fbs s) file l _ Hl), in_file_cons. repeat case_decide; lia. }
  split; try apply Hok.
  - intros q. cbn [fbs set_fbs]. rewrite Hm. case_decide as Hq; [subst q; intros _; split; [lia|by exists f]|].
    intros Hq'. destruct (k_files _ _ Hok q); [lia|]. split; [lia|done].
  - intros q g Hq. cbn [fbs set_fbs]. rewrite Hm. destruct (k_refs _ _ Hok q g Hq) as [? Hr]. split; [done|]. rewrite Hr. unfold bump. cbn [objs set_fbs].
    case_decide; lia.
  - intros q Hq. cbn [fbs set_fbs]. assert (q ≠ p) as Hqp by (intros ->; apply Hq; by exists f).
    destruct (k_none _ _ Hok q Hq) as (? & ? & Hex). rewrite Hm, decide_False by done. rewrite bump_ne in Hex by done. split_and!; [lia|done|done].
Qed.

Lemma fb_create_ok s ex p r accept : kms_ok s ex → objs s !! p = None → p ≠ 0 → id_left s = true →
  wp (fb_create accept p r true) s (λ p' s', fbs s' = fbs s ∧ (p' = 0 ∧ s' = s ∨
    p' = p ∧ kms_ok s' (bump p 1 ex) ∧ ∃ f, objs s' !! p = Some (KFb f) ∧ fb_id f ≠ 0)).
Proof.
  intros Hok Hp Hp0 Hleft. unfold fb_create. destruct accept; cbn [negb]; [|unfold wp; split; [done|by left]].
  apply wp_bind. eapply wp_of; [done|]. cbv beta. set (f0 := mk_fb 0 0 _). change (set_objs _ s) with (put_at p (KFb f0) s).
  apply wp_bind. unfold drm_framebuffer_init. apply wp_bind. eapply wp_of; [apply fb_at_run, put_at_eq|]. cbv beta. apply wp_bind.
  eapply wp_of; [eapply put_obj_run, put_at_eq|]. cbv beta.
  set (f1 := mk_fb (fb_id f0) 1 (info f0)).
  assert (put_at p (KFb f1) (put_at p (KFb f0) s) = put_at p (KFb f1) s) as -> by (unfold put_at, set_objs; cbn; by rewrite insert_insert_eq).
  apply wp_bind.
  destruct (object_get_run s ex p (KFb f1) true Hok) as (i & L & Hinv & [(id & Hrun & _ & Hid & Hno & Hused)|(ret & n & _ & Hret & Hget & _)]).
  - eapply wp_of; [exact Hrun|]. cbv beta. cbn [Z.eqb when]. apply wp_bind, wp_bind.
    unfold drm_framebuffer_reference. apply wp_bind. eapply wp_of; [apply fb_at_run, put_at_eq|]. cbv beta.
    eapply wp_of; [eapply put_obj_run, put_at_eq|]. cbv beta. eapply wp_of; [done|]. cbv beta. unfold wp, mret, M_ret.
    split; [done|]. right. split; [done|].
    match goal with |- kms_ok ?x _ ∧ _ => set (s' := x) end. set (f2 := mk_fb id 2 (info f0)).
    assert (s' = mk_kms (<[p := KFb f2]> (objs s)) i (p :: fb_list s) (num_fb s + 1) (crtc_list s) (plane_list s) (num_connector s)
      (fbs s) (event_space s) (drv s)) as -> by (unfold s', put_at, set_objs; cbn; by rewrite insert_insert_eq).
    split; [|exists f2; split; [apply lookup_insert_eq|done]].
    exact (kms_ok_new s ex p (KFb f2) i L _ _ _ (num_fb s + 1) (num_connector s) Hok Hp Hp0 Hid Hno Hinv Hused
      (λ _, eq_refl) eq_refl eq_refl eq_refl (λ f Hf, ltac:(by injection Hf as <-))).
  - exfalso. destruct (k_idr _ _ Hok) as [L0 Hinv0]. unfold id_left in Hleft.
    destruct (idr_get_new_above 1 1 true (crtc_idr s)) as [[[ret1 n1] i1]|] eqn:Hone; [|done]. apply Z.eqb_eq in Hleft as ->.
    destruct (idr_get_again L0 (crtc_idr s) 1 p 1 n1 i1 Hinv0 ltac:(unfold INT_MIN, INT_MAX; lia) Hone) as (? & ? & ? & Hg & _). congruence.
Qed.

Lemma addfb_tail_ok s ex file l r accept p : kms_ok s ex → fbs s !! file = Some l → objs s !! p = None → p ≠ 0 → id_left s = true →
  wp (p ← fb_create accept p r true; add_to_file file p) s (λ _ s', kms_ok s' ex).
Proof.
  intros Hok Hl Hp Hp0 Hleft. apply wp_bind. eapply wp_mono; [exact (fb_create_ok s ex p r accept Hok Hp Hp0 Hleft)|].
  intros p' s' (Hfbs & [(-> & ->)|(-> & Hok' & f & Hf & Hid)]); cbv beta; [done|].
  eapply (add_to_file_ok s' ex file l p f); [done|by rewrite Hfbs|done|done|]. rewrite Hfbs.
  apply (k_none _ _ Hok p). intros [g Hg]. congruence.
Qed.

Lemma check_planes_total r hsub vsub n : length (handles r) = 4%nat → length (pitches r) = 4%nat → length (offsets r) = 4%nat →
  ∀ i, (i + n <= 4)%nat → ∃ ret, check_planes r hsub vsub n i = Some ret.
Proof.
  intros Hh Hp Ho. induction n as [|n IH]; intros i Hi; [by exists 0|]. cbn [check_planes].
  destruct (lookup_lt_is_Some_2 (handles r) i) as [h ->]; [lia|]. destruct (lookup_lt_is_Some_2 (pitches r) i) as [q ->]; [lia|].
  destruct (lookup_lt_is_Some_2 (offsets r) i) as [o ->]; [lia|]. cbn.
  destruct (h =? 0); [by eexists|]. destruct (UINT_MAX <? _); [by eexists|]. destruct (UINT_MAX <? _); [by eexists|].
  destruct (q <? _); [by eexists|]. apply IH. lia.
Qed.

Lemma framebuffer_check_total r : length (handles r) = 4%nat → length (pitches r) = 4%nat → length (offsets r) = 4%nat →
  ∃ ret, framebuffer_check r = Some ret.
Proof.
  intros Hh Hp Ho. unfold framebuffer_check. destruct (z2b (format_check r)); [by eexists|].
  destruct ((fbc_width r =? 0) || _); [by eexists|]. destruct ((fbc_height r =? 0) || _); [by eexists|].
  apply check_planes_total; [done..|]. unfold drm_format_num_planes. destruct (format_case _) as [[]|]; cbn; lia.
Qed.

(** The half of [drm_mode_rmfb] under the locks of the lists. *)
Lemma rmfb_unregister_ok s ex file l id : kms_ok s ex → (∀ q, 0 <= ex q) → fbs s !! file = Some l →
  wp (rmfb_unregister file id true) s (λ p s', p = 0 ∧ s' = s ∨ p ≠ 0 ∧ kms_ok s' (bump p 1 ex) ∧
    ∃ f, objs s !! p = Some (KFb f) ∧ fb_id f = id ∧ used_ids (crtc_idr s') = delete id (used_ids (crtc_idr s))).
Proof.
  intros Hok Hex Hl. unfold rmfb_unregister. apply wp_bind. unfold __drm_framebuffer_lookup.
  eapply wp_mono; [exact (find_object_ok s ex id is_fb Hok)|]. intros p s' [-> Hp]. cbv beta.
  destruct (Z.eqb_spec p 0) as [Hz|Hz]; [unfold wp; cbn; by left|]. destruct Hp as [|([f| | | |] & Ho & Ht & Hid)]; [done| |done..].
  apply wp_bind. eapply wp_of; [unfold reads; by rewrite Hl|]. cbv beta. case_bool_decide as Hin; cbn [negb]; [|unfold wp; cbn; by left].
  apply wp_bind. eapply wp_mono; [exact (unregister_ok s ex file l p f Hok Hex Hl Hin Ho)|]. intros _ s1 (Hfbs & Hids & Hok1). cbv beta.
  apply wp_bind. eapply wp_of; [done|]. cbv beta. unfold wp, mret, M_ret. right. split; [done|]. split; [done|]. exists f.
  split; [done|]. split; [done|]. cbn [object_id] in Hid. rewrite <- Hid. exact Hids.
Qed.

Lemma bump_nonneg (ex : Z → Z) p : (∀ q, 0 <= ex q) → ∀ q, 0 <= bump p 1 ex q.
Proof. intros Hex q. unfold bump. specialize (Hex q). case_decide; lia. Qed.

(** The caller's reference goes with the framebuffer. *)
Lemma remove_taken s ex p : kms_ok s (bump p 1 ex) → (∀ q, 0 <= ex q) →
  wp (drm_framebuffer_remove p) s (λ _ s', kms_ok s' ex ∧ steady s s' ∧ (∀ q, plane_free p q s') ∧
    (switches_off → ∀ c, crtc_free p c s') ∧ ∀ o, objs s' !! p = Some o → is_fb o = true).
Proof.
  intros Hok Hex. eapply wp_mono; [apply (fb_remove_ok s _ p Hok (bump_nonneg ex p Hex))|].
  - rewrite bump_eq. specialize (Hex p). lia.
  - intros _ s' (Hok' & ?). split; [|done]. eapply kms_ok_ext; [|exact Hok']. apply (bump_back p 1).
Qed.

Lemma unreference_taken s ex p : kms_ok s (bump p 1 ex) → (∀ q, 0 <= ex q) →
  wp (drm_framebuffer_unreference p) s (λ _ s', kms_ok s' ex ∧ steady s s' ∧ others s s' p).
Proof.
  intros Hok Hex. eapply wp_mono; [apply (fb_unreference_held s _ p Hok (bump_nonneg ex p Hex))|].
  - rewrite bump_eq. specialize (Hex p). lia.
  - intros _ s' (Hok' & ? & ? & _). split; [|done]. eapply kms_ok_ext; [|exact Hok']. apply (bump_back p 1).
Qed.

Lemma remove_elem_skip x (l : list Z) : x ∉ l → remove_elem x l = l.
Proof.
  intros Hx. unfold remove_elem. induction l as [|y l IH]; [done|]. apply not_elem_of_cons in Hx as [Hxy Hx].
  rewrite filter_cons_True by congruence. by rewrite IH.
Qed.

(** A closed file leaves none of its framebuffers behind. *)
Lemma release_fbs_ok file l : ∀ s ex, kms_ok s ex → (∀ q, 0 <= ex q) → fbs s !! file = Some l →
  wp (release_fbs file l true) s (λ _ s', kms_ok s' ex ∧ fbs s' !! file = Some []).
Proof.
  induction l as [|p l IH]; intros s ex Hok Hex Hl; cbn [release_fbs]; [done|].
  assert (p ∈ p :: l) as Hin by (by left). pose proof (in_file_pos p _ Hin) as Hpos.
  pose proof (msum_le (in_file p) (fbs s) file _ (in_file_nonneg p) Hl) as Hle.
  destruct (k_files _ _ Hok p) as (Hone & f & Hf & Hid); [unfold file_refs; lia|].
  assert (p ∉ l) as Hpl.
  { intros Hpl%in_file_pos. unfold file_refs in Hone. rewrite in_file_cons, decide_True in Hle by done. lia. }
  assert (remove_elem p (p :: l) = l) as Hrem.
  { unfold remove_elem. rewrite filter_cons_False by (intros Hn; by apply Hn). by apply remove_elem_skip. }
  apply wp_bind. eapply wp_mono; [exact (unregister_ok s ex file _ p f Hok Hex Hl Hin Hf)|]. intros _ s1 (Hfbs & _ & Hok1). cbv beta.
  apply wp_bind. eapply wp_of; [unfold reads; by rewrite Hfbs, Hl|]. cbv beta. apply wp_bind. eapply wp_of; [done|]. cbv beta. apply wp_bind.
  eapply wp_mono; [exact (remove_taken _ ex p Hok1 Hex)|]. intros _ s2 (Hok2 & Hst2 & _). cbv beta. apply IH; [done|done|].
  destruct Hst2 as (_ & _ & -> & _). cbn [fbs set_fbs]. by rewrite lookup_insert_eq, Hrem.
Qed.

Lemma fb_release_ok s ex file : kms_ok s ex → (∀ q, 0 <= ex q) → is_file file s = true →
  wp (drm_fb_release file true) s (λ _ s', kms_ok s' ex).
Proof.
  intros Hok Hex Hf. unfold is_file in Hf. destruct (fbs s !! file) as [l|] eqn:Hl; [|done]. unfold drm_fb_release. apply wp_bind.
  eapply wp_of; [unfold reads; by rewrite Hl|]. cbv beta. apply wp_bind. eapply wp_mono; [exact (release_fbs_ok file l s ex Hok Hex Hl)|].
  intros _ s1 [Hok1 Hl1]. cbv beta. eapply wp_of; [done|]. apply kms_ok_fbs; [done|]. intros p. unfold file_refs.
  rewrite (msum_delete (in_file p) (fbs s1) file _ Hl1). change (in_file p []) with 0. lia.
Qed.

(** ** Planes *)

Lemma swap_nonneg (ex : Z → Z) a b : (∀ q, 0 <= ex q) → b = 0 ∨ 0 < ex b → ∀ q, 0 <= ex q + one a q - one b q.
Proof.
  intros Hex Hb q. specialize (Hex q). pose proof (one_bounds a q). pose proof (one_bounds b q).
  destruct (decide (b = q)) as [->|Hne]; [|rewrite (one_ne b q) by done; lia]. destruct Hb as [->|]; [rewrite one_0; lia|lia].
Qed.

(** A crtc or plane [x] takes [b] for [a], and the reference to [a] is dropped;
    the caller's reference to [b] becomes that of [x]. *)
Lemma swap_ok s ex x o o' a b : kms_ok s ex → (∀ q, 0 <= ex q) → objs s !! x = Some o → same_kind o o' → object_id o' = object_id o →
  is_fb o = false → (∀ q, use q o = one a q) → (∀ q, use q o' = one b q) → b = 0 ∨ 0 < ex b →
  wp (put_obj x o') s (λ _ s1, wp (when (z2b a) (drm_framebuffer_unreference a)) s1 (λ _ s', kms_ok s' (λ q, ex q - one b q))).
Proof.
  intros Hok Hex Ho Hk Hid Hfb Ha Hb Hown. eapply wp_of; [by eapply put_obj_run|].
  assert (b = 0 ∨ has_fb s b) as Hfbb by (destruct Hown as [|Hown]; [by left|right; apply (used_fb s ex b Hok); right; left; lia]).
  pose proof (kms_ok_swap s ex x o o' b Hok Ho Hk Hid Hfb Hb Hfbb) as Hok1.
  apply (kms_ok_ext _ _ (λ q, ex q + one a q - one b q)) in Hok1; [|intros q; by rewrite Ha].
  unfold z2b. destruct (Z.eqb_spec a 0) as [Hz|Hz]; cbn [negb when].
  - unfold wp, mret, M_ret. eapply kms_ok_ext; [|exact Hok1]. intros q. cbv beta. rewrite Hz, one_0. lia.
  - assert (0 < ex a + one a a - one b a) as Hpos.
    { rewrite (one_self a) by done. pose proof (one_bounds b a). pose proof (Hex a). destruct (decide (b = a)) as [->|Hne].
      - destruct Hown as [->|]; [done|lia].
      - rewrite (one_ne b a) by done. lia. }
    eapply wp_mono; [apply (fb_unreference_held _ _ a Hok1 (swap_nonneg ex a b Hex Hown) Hpos)|]. intros _ s' (Hok' & _).
    eapply kms_ok_ext; [|exact Hok']. intros q. unfold bump. case_decide; [subst q; rewrite (one_self a) by done|rewrite (one_ne a q) by congruence]; lia.
Qed.

Lemma setplane_off_ok s ex q r : kms_ok s ex → (∀ p, 0 <= ex p) → objs s !! q = Some (KPlane r) →
  wp (setplane_off q) s (λ _ s', kms_ok s' ex).
Proof.
  intros Hok Hex Hq. unfold setplane_off. apply wp_bind. eapply wp_of; [by apply plane_at_run|]. cbv beta. apply wp_bind.
  unfold call, wp at 1. destruct (disable_plane (drv s) q) as [ret a]. cbv beta. pose proof (kms_ok_drv s ex a Hok) as Hok0.
  apply wp_bind. eapply wp_of; [by apply (plane_at_run (set_drv a s) q r)|]. cbv beta. apply wp_bind.
  eapply wp_mono; [apply (swap_ok (set_drv a s) ex q (KPlane r) (KPlane (no_fb r)) (plane_fb r) 0 Hok0 Hex Hq I eq_refl eq_refl (λ _, eq_refl) (λ _, eq_refl));
    by left|].
  intros [] s1 Hw. eapply wp_mono; [exact Hw|]. intros [] s' Hok'; cbv beta in Hok'. eapply kms_ok_ext; [|exact Hok']. intros p. cbv beta. rewrite one_0. lia.
Qed.

Lemma setplane_update_ok s ex q c p rq r : kms_ok s (bump p 1 ex) → (∀ q, 0 <= ex q) → objs s !! q = Some (KPlane r) →
  wp (setplane_update q c p rq) s (λ _ s', kms_ok s' ex).
Proof.
  intros Hok Hex Hq. unfold setplane_update. apply wp_bind. unfold call, wp at 1. destruct (update_plane (drv s) q c p rq) as [ret a]. cbv beta.
  pose proof (kms_ok_drv s _ a Hok) as Hok0. destruct (Z.eqb_spec ret 0) as [Hz|Hz].
  - apply wp_bind. eapply wp_of; [by apply (plane_at_run (set_drv a s) q r)|]. cbv beta. apply wp_bind.
    destruct (Z.eqb_spec p 0) as [Hp0|Hp0].
    { exfalso. destruct (used_fb _ _ p Hok) as [f Hf]; [right; left; rewrite bump_eq; specialize (Hex p); lia|].
      rewrite Hp0, (k_null _ _ Hok) in Hf. done. }
    eapply wp_mono; [apply (swap_ok (set_drv a s) (bump p 1 ex) q (KPlane r) (KPlane (mk_plane (plane_id r) c p (format_types r))) (plane_fb r) p
      Hok0 (bump_nonneg ex p Hex) Hq I eq_refl eq_refl (λ _, eq_refl) (λ _, eq_refl))|].
    { right. rewrite bump_eq. specialize (Hex p). lia. }
    intros [] s1 Hw. cbv beta. apply wp_bind. eapply wp_mono; [exact Hw|]. intros [] s' Hok'; cbv beta in Hok'. unfold wp, mret, M_ret.
    eapply kms_ok_ext; [|exact Hok']. intros k. unfold bump. case_decide; [subst k; rewrite one_self by done|rewrite one_ne by congruence]; lia.
  - apply wp_bind. eapply wp_mono; [exact (unreference_taken _ ex p Hok0 Hex)|]. intros _ s' [Hok' _]. exact Hok'.
Qed.

Lemma setplane_find_ok s ex rq : kms_ok s ex → (∀ q, 0 <= ex q) →
  wp (setplane_find rq) s (λ r s', match r with
    | inl _ => kms_ok s' ex
    | inr (q, c, p) => kms_ok s' (bump p 1 ex) ∧ ∃ r, objs s' !! q = Some (KPlane r)
    end).
Proof.
  intros Hok Hex. unfold setplane_find. apply wp_bind. unfold drm_mode_object_find.
  eapply wp_mono; [exact (find_object_ok s ex (rq_plane_id rq) is_plane Hok)|]. intros q s' [-> Hq]. cbv beta.
  destruct (Z.eqb_spec q 0) as [Hz|Hz]; [done|]. destruct Hq as [|([| |r| |] & Hq & Ht & _)]; [done|done|done| |done..].
  destruct (rq_fb_id rq =? 0).
  { apply wp_bind. eapply wp_mono; [exact (setplane_off_ok s ex q r Hok Hex Hq)|]. intros [] s' Hok'; cbv beta in Hok'. exact Hok'. }
  apply wp_bind. eapply wp_mono; [exact (find_object_ok s ex (rq_crtc_id rq) is_crtc Hok)|]. intros c s' [-> Hc]. cbv beta.
  destruct (Z.eqb_spec c 0) as [Hzc|Hzc]; [done|]. apply wp_bind. eapply wp_mono; [exact (fb_lookup_ok s ex (rq_fb_id rq) Hok)|].
  intros p s1 Hp. cbv beta. destruct Hp as [[-> ->]|(f & Hp0 & Hf & _ & Hok1 & ->)]; [done|]. rewrite (proj2 (Z.eqb_neq _ _) Hp0).
  set (s1 := put_at p _ s) in *. assert (objs s1 !! q = Some (KPlane r)) as Hq1 by (unfold s1; rewrite put_at_others; [done|intros ->; congruence]).
  apply wp_bind. eapply wp_of; [by apply plane_at_run|]. cbv beta. apply wp_bind. eapply wp_of; [apply fb_at_run, put_at_eq|]. cbv beta zeta.
  destruct (z2b _); [|split; [done|by exists r]]. apply wp_bind. eapply wp_mono; [exact (unreference_taken s1 ex p Hok1 Hex)|].
  intros _ s' [Hok' _]. exact Hok'.
Qed.

Lemma setplane_ok s ex rq : kms_ok s ex → (∀ q, 0 <= ex q) → wp (drm_mode_setplane true rq) s (λ _ s', kms_ok s' ex).
Proof.
  intros Hok Hex. unfold drm_mode_setplane. cbn [negb]. apply wp_bind. eapply wp_mono; [exact (setplane_find_ok s ex rq Hok Hex)|].
  intros [ret|[[q c] p]] s' Hr; cbv beta iota; [exact Hr|]. destruct Hr as [Hok' [r Hq]]. by eapply setplane_update_ok.
Qed.

Lemma getfb_ok s ex file id : kms_ok s ex → (∀ q, 0 <= ex q) → wp (drm_mode_getfb true file id) s (λ _ s', kms_ok s' ex).
Proof.
  intros Hok Hex. unfold drm_mode_getfb. cbn [negb]. apply wp_bind. eapply wp_mono; [exact (fb_lookup_ok s ex id Hok)|].
  intros p s1 Hp. cbv beta. destruct Hp as [[-> ->]|(f & Hp0 & Hf & _ & Hok1 & ->)]; [done|]. rewrite (proj2 (Z.eqb_neq _ _) Hp0).
  apply wp_bind. eapply wp_of; [apply fb_at_run, put_at_eq|]. cbv beta. apply wp_bind. set (s1 := put_at p _ s) in *.
  eapply (wp_mono _ _ (λ _ s', kms_ok s' (bump p 1 ex))).
  - destruct create_handle as [create|]; [|exact Hok1]. apply wp_bind. unfold call, wp at 1. destruct (create (drv s1) p file) as [[ret h] a].
    cbv beta iota. exact (kms_ok_drv s1 _ a Hok1).
  - intros [ret h] s' Hok'. cbv beta iota. apply wp_bind. eapply wp_mono; [exact (unreference_taken s' ex p Hok' Hex)|].
    intros [] s'' [Hok'' _]. exact Hok''.
Qed.

(** ** Crtcs *)

Lemma setcrtc_fb_ok s ex c r id : kms_ok s ex → objs s !! c = Some (KCrtc r) →
  wp (setcrtc_fb c id) s (λ p s', p = 0 ∧ s' = s ∨
    ∃ f, p ≠ 0 ∧ objs s !! p = Some (KFb f) ∧ kms_ok s' (bump p 1 ex) ∧ s' = put_at p (KFb (add_ref 1 f)) s).
Proof.
  intros Hok Hc. unfold setcrtc_fb. destruct (id =? u32 (-1)).
  - apply wp_bind. eapply wp_of; [by apply kcrtc_at_run|]. cbv beta. destruct (Z.eqb_spec (crtc_fb r) 0) as [Hz|Hz]; [by left|].
    destruct (owned_fb s ex c r Hok Hc) as [|[f Hf]]; [done|]. destruct (k_refs _ _ Hok _ f Hf) as [Hpos _]. apply wp_bind.
    unfold drm_framebuffer_reference. apply wp_bind. eapply wp_of; [by apply fb_at_run|]. cbv beta. eapply wp_of; [by eapply put_obj_run|].
    right. exists f. split_and!; try done. apply kms_ok_ref; [done|done|lia].
  - eapply wp_mono; [exact (fb_lookup_ok s ex id Hok)|]. intros p s' [?|(f & ? & ? & _ & ? & ?)]; [by left|right]. by exists f.
Qed.

Lemma setcrtc_mode_ok s rq c p m r f o : objs s !! c = Some (KCrtc r) → objs s !! p = Some (KFb f) → objs s !! m = Some o →
  wp (setcrtc_mode rq c p m) s (λ _ s', s' = s).
Proof.
  intros Hc Hp Hm. unfold setcrtc_mode. apply wp_bind. eapply wp_of; [unfold obj_at, reads; by rewrite Hm|]. cbv beta.
  destruct (drm_crtc_convert_umode _ _) as [ret mode]. destruct (z2b ret); [exact eq_refl|]. apply wp_bind. eapply wp_of; [by apply kcrtc_at_run|]. cbv beta zeta.
  apply wp_bind. eapply wp_of; [by apply fb_at_run|]. cbv beta. destruct (drm_mode_set_crtcinfo _ _) as [m'|]; [|exact eq_refl].
  destruct (viewport_outside _ _ _ _ _ _ _); exact eq_refl.
Qed.

Lemma find_connectors_ok s ex n : kms_ok s ex → ∀ ids, wp (find_connectors ids n) s (λ _ s', s' = s).
Proof.
  intros Hok. induction n as [|n IH]; intros ids; cbn [find_connectors]; [exact eq_refl|]. destruct ids as [|[id|] ids]; [exact eq_refl| |exact eq_refl].
  apply wp_bind. eapply wp_mono; [exact (find_object_ok s ex id is_connector Hok)|]. intros p s' [-> _]. cbv beta.
  destruct (p =? 0); [exact eq_refl|]. apply wp_bind. eapply wp_mono; [apply IH|]. intros [ret l] s' ->. exact eq_refl.
Qed.

Lemma setcrtc_config_ok s ex rq e c p mode : kms_ok s ex → (∀ q, 0 <= ex q) → p = 0 ∨ 0 < ex p →
  wp (setcrtc_config rq e c p mode) s (λ _ s', kms_ok s' ex ∧ rest_same s s').
Proof.
  intros Hok Hex Hp. unfold setcrtc_config. destruct (_ && _); [split; [done|apply rest_same_refl]|].
  destruct (_ && _); [split; [done|apply rest_same_refl]|]. apply wp_bind.
  assert (wp (if 0 <? count_connectors rq then
     n ← gets num_connector;
     if u32 n <? count_connectors rq then mret (- EINVAL, []) else
     if negb (list_alloc e) then mret (- ENOMEM, []) else
     find_connectors (user_ids e) (Z.to_nat (count_connectors rq))
   else mret (0, [])) s (λ _ s', s' = s)) as Hl.
  { destruct (0 <? count_connectors rq); [|exact eq_refl]. apply wp_bind. eapply wp_of; [done|]. cbv beta.
    destruct (u32 _ <? _); [exact eq_refl|]. destruct (negb _); [exact eq_refl|]. by eapply find_connectors_ok. }
  eapply wp_mono; [exact Hl|]. intros [ret l] s' ->. cbv beta iota. destruct (z2b ret); [split; [done|apply rest_same_refl]|].
  eapply wp_mono; [exact (set_config_internal_ok (mk_set c p (rq_x rq) (rq_y rq) mode l) s ex Hok Hex Hp)|].
  intros ret' s' (? & _ & ? & _). done.
Qed.

(** The ways out: the reference is dropped, the mode is destroyed. *)
Lemma setcrtc_out_ok s ex p m ret e : kms_ok s (λ q, ex q + one p q) → (∀ q, 0 <= ex q) →
  m = 0 ∨ m ≠ p ∧ (∃ id, id ≠ 0 ∧ objs s !! m = Some (KMode id)) → put_alloc e = true →
  wp (setcrtc_out p m ret e) s (λ _ s', kms_ok s' ex).
Proof.
  intros Hok Hex Hm He. unfold setcrtc_out. rewrite He. apply wp_bind.
  assert (wp (when (z2b p) (drm_framebuffer_unreference p)) s (λ _ s', kms_ok s' ex ∧ ∀ q, q ≠ p → objs s' !! q = objs s !! q)) as Hdrop.
  { unfold z2b. destruct (Z.eqb_spec p 0) as [->|Hp0]; cbn [negb when].
    - unfold wp, mret, M_ret. split; [|done]. eapply kms_ok_ext; [|exact Hok]. intros q. cbv beta. rewrite one_0. lia.
    - eapply wp_mono; [apply (unreference_taken s ex p)|]; [|done|by intros _ s' (? & _ & ?)].
      eapply kms_ok_ext; [|exact Hok]. intros q. unfold bump. case_decide; [subst q; by rewrite one_self|rewrite one_ne by congruence; lia]. }
  eapply wp_mono; [exact Hdrop|]. intros _ s1 [Hok1 Hoth]. cbv beta. apply wp_bind.
  destruct Hm as [->|(Hmp & id & Hid & Hm)]; [done|]. rewrite <- (Hoth m Hmp) in Hm.
  eapply wp_mono; [exact (mode_destroy_ok s1 ex m id Hok1 Hm Hid)|]. intros _ s' [Hok' _]. exact Hok'.
Qed.

Lemma setcrtc_ok s ex rq e : kms_ok s ex → (∀ q, 0 <= ex q) → mode_addr e = 0 ∨ objs s !! mode_addr e = None → put_alloc e = true →
  wp (drm_mode_setcrtc true rq e) s (λ _ s', kms_ok s' ex).
Proof.
  intros Hok Hex Hm He. unfold drm_mode_setcrtc. cbn [negb]. destruct (_ || _); [done|]. apply wp_bind.
  eapply wp_mono; [exact (find_object_ok s ex (rq_crtc rq) is_crtc Hok)|]. intros c s' [-> Hc]. cbv beta.
  destruct (Z.eqb_spec c 0) as [Hz|Hz]; [done|]. destruct Hc as [|([|r| | |] & Hc & Ht & _)]; [done|done| |done..].
  destruct (rq_mode_valid rq).
  - apply wp_bind. eapply wp_mono; [exact (setcrtc_fb_ok s ex c r (rq_fb rq) Hok Hc)|]. intros p s1 Hp. cbv beta.
    destruct Hp as [[-> ->]|(f & Hp0 & Hf & Hok1 & ->)]; [done|]. rewrite (proj2 (Z.eqb_neq _ _) Hp0). set (s1 := put_at p _ s) in *.
    assert (∀ q, 0 <= bump p 1 ex q) as Hex1 by (by apply bump_nonneg). assert (0 < bump p 1 ex p) as Hpos by (rewrite bump_eq; specialize (Hex p); lia).
    assert (∀ s', kms_ok s' (bump p 1 ex) → kms_ok s' (λ q, ex q + one p q)) as Hbump.
    { intros s' Hs'. eapply kms_ok_ext; [|exact Hs']. intros q. unfold bump. case_decide; [subst q; by rewrite one_self|rewrite one_ne by congruence; lia]. }
    assert (objs s1 !! c = Some (KCrtc r)) as Hc1 by (unfold s1; rewrite put_at_others; [done|intros ->; congruence]).
    assert (mode_addr e = 0 ∨ objs s1 !! mode_addr e = None) as Hm1.
    { destruct Hm as [|Hm]; [by left|right]. unfold s1. rewrite put_at_others; [done|intros Hme; congruence]. }
    apply wp_bind. eapply wp_mono; [exact (create_mode_ok s1 _ (mode_addr e) (id_alloc e) Hok1 Hm1)|].
    intros m s2 (Hok2 & _ & Hmode & Hkeep). cbv beta. destruct (Z.eqb_spec m 0) as [Hm0|Hm0].
    { apply setcrtc_out_ok; [by apply Hbump|done|by left|done]. }
    destruct Hmode as [|(-> & Hma & id & Hid & Hmo)]; [done|].
    assert (objs s2 !! p = Some (KFb (add_ref 1 f))) as Hp2 by (apply Hkeep, put_at_eq).
    assert (mode_addr e ≠ p) as Hmp by (intros Hme; rewrite Hme in Hmo; congruence).
    apply wp_bind. eapply wp_mono; [exact (setcrtc_mode_ok s2 rq c p (mode_addr e) r _ _ (Hkeep _ _ Hc1) Hp2 Hmo)|].
    intros [ret mode] s' ->. cbv beta iota. destruct (z2b ret).
    { apply setcrtc_out_ok; [by apply Hbump|done|right; split; [done|by exists id]|done]. }
    apply wp_bind. eapply wp_mono; [exact (setcrtc_config_ok s2 _ rq e c p mode Hok2 Hex1 (or_intror Hpos))|].
    intros ret' s3 [Hok3 Hr3]. cbv beta. apply setcrtc_out_ok; [by apply Hbump|done| |done]. right. split; [done|]. exists id. split; [done|].
    by apply (Hr3 (mode_addr e) (KMode id)).
  - apply wp_bind. eapply wp_mono; [exact (setcrtc_config_ok s ex rq e c 0 None Hok Hex (or_introl eq_refl))|].
    intros ret s' [Hok' _]. cbv beta. apply setcrtc_out_ok; [|done|by left|done]. eapply kms_ok_ext; [|exact Hok']. intros q. cbv beta. rewrite one_0. lia.
Qed.

(** The crtc shows the new framebuffer from the flip on. *)
Lemma flip_commit_ok s ex c r r' p : kms_ok s (bump p 1 ex) → (∀ q, 0 <= ex q) → p ≠ 0 → objs s !! c = Some (KCrtc r) →
  crtc_fb r ≠ 0 → crtc_id r' = crtc_id r → crtc_fb r' = p →
  wp (put_obj c (KCrtc r');; drm_framebuffer_unreference (crtc_fb r);; (mret 0 : M (kms A) Z)) s (λ _ s', kms_ok s' ex).
Proof.
  intros Hok Hex Hp0 Hc Hr Hid Hfb. apply wp_bind.
  eapply wp_mono; [apply (swap_ok s (bump p 1 ex) c (KCrtc r) (KCrtc r') (crtc_fb r) p Hok (bump_nonneg ex p Hex) Hc I Hid eq_refl (λ _, eq_refl))|].
  { intros q. cbn. by rewrite Hfb. } { right. rewrite bump_eq. specialize (Hex p). lia. }
  intros [] s1 Hw. cbv beta. unfold z2b in Hw. rewrite (proj2 (Z.eqb_neq _ _) Hr) in Hw. cbn [negb when] in Hw. apply wp_bind.
  eapply wp_mono; [exact Hw|]. intros [] s' Hok'; cbv beta in Hok'. unfold wp, mret, M_ret.
  eapply kms_ok_ext; [|exact Hok']. intros q. unfold bump. case_decide; [subst q; rewrite one_self by done|rewrite one_ne by congruence]; lia.
Qed.

Lemma flip_ok s ex event alloc file c_id f_id : kms_ok s ex → (∀ q, 0 <= ex q) → is_Some (event_space s !! file) →
  wp (drm_mode_page_flip_ioctl sizeof_event true event alloc file c_id f_id) s (λ _ s', kms_ok s' ex).
Proof.
  intros Hok Hex [room Hroom]. unfold drm_mode_page_flip_ioctl. cbn [negb]. apply wp_bind.
  eapply wp_mono; [exact (find_object_ok s ex c_id is_crtc Hok)|]. intros c s' [-> Hc]. cbv beta.
  destruct (Z.eqb_spec c 0) as [Hz|Hz]; [done|]. destruct Hc as [|([|r| | |] & Hc & Ht & _)]; [done|done| |done..].
  apply wp_bind. eapply wp_of; [by apply kcrtc_at_run|]. cbv beta. destruct (Z.eqb_spec (crtc_fb r) 0) as [Hr|Hr]; [done|].
  destruct page_flip as [flip|]; [|done]. apply wp_bind. eapply wp_mono; [exact (fb_lookup_ok s ex f_id Hok)|]. intros p s1 Hp. cbv beta.
  destruct Hp as [[-> ->]|(f & Hp0 & Hf & _ & Hok1 & ->)]; [done|]. rewrite (proj2 (Z.eqb_neq _ _) Hp0). set (s1 := put_at p _ s) in *.
  assert (objs s1 !! c = Some (KCrtc r)) as Hc1 by (unfold s1; rewrite put_at_others; [done|intros ->; congruence]).
  assert (∀ (ret : Z) s', kms_ok s' (bump p 1 ex) → wp (drm_framebuffer_unreference p;; (mret ret : M (kms A) Z)) s' (λ _ s'', kms_ok s'' ex)) as Hout.
  { intros ret s' Hok'. apply wp_bind. eapply wp_mono; [exact (unreference_taken s' ex p Hok' Hex)|]. by intros _ s'' [? _]. }
  apply wp_bind. eapply wp_of; [apply fb_at_run, put_at_eq|]. cbv beta. destruct (viewport_outside _ _ _ _ _ _ _); [by apply Hout|].
  destruct (owned_fb s1 _ c r Hok1 Hc1) as [|[old Hold]]; [done|]. apply wp_bind. eapply wp_of; [by apply fb_at_run|]. cbv beta.
  destruct (negb _); [by apply Hout|]. apply wp_bind. eapply wp_of; [unfold reads, s1; cbn; by rewrite Hroom|]. cbv beta.
  destruct (event && (room <? sizeof_event)); [by apply Hout|]. destruct (event && negb alloc); [by apply Hout|]. apply wp_bind.
  set (s2 := if event then set_space (<[file := room - sizeof_event]> (event_space s1)) s1 else s1).
  eapply (wp_of _ _ tt s2); [unfold s2; by destruct event|]. cbv beta.
  assert (kms_ok s2 (bump p 1 ex) ∧ objs s2 = objs s1 ∧ is_Some (event_space s2 !! file)) as (Hok2 & Ho2 & [room2 Hroom2]).
  { unfold s2. destruct event; [|by split_and!; [..|exists room]]. split; [by apply kms_ok_space|]. split; [done|]. cbn. rewrite lookup_insert_eq. by eexists. }
  clearbody s2. apply wp_bind. unfold call, wp at 1. destruct (flip (drv s2) c p event) as [ret a]. cbv beta.
  pose proof (kms_ok_drv s2 _ a Hok2) as Hok3. destruct (z2b ret).
  - apply wp_bind. set (s3 := if event then set_space (<[file := room2 + sizeof_event]> (event_space s2)) (set_drv a s2) else set_drv a s2).
    eapply (wp_of _ _ tt s3); [unfold s3; destruct event; [|done]; cbn [when]; unfold mbind, M_bind, reads; cbn; by rewrite Hroom2|]. cbv beta.
    apply Hout. unfold s3. destruct event; [by apply kms_ok_space|done].
  - apply (flip_commit_ok (set_drv a s2) ex c r _ p); try done. cbn [objs set_drv]. by rewrite Ho2.
Qed.

(** ** Objects of the driver *)

Lemma or_free_ok p (m : M (kms A) Z) s ex :
  wp m s (λ ret s', ret = 0 ∧ kms_ok s' ex ∨ ret ≠ 0 ∧ ∃ o s0, s' = put_at p o s0 ∧ objs s0 !! p = None ∧ kms_ok s0 ex) →
  wp (or_free p m) s (λ _ s', kms_ok s' ex).
Proof.
  intros Hm. unfold or_free. apply wp_bind. eapply wp_mono; [exact Hm|]. intros ret s' [[-> Hok]|(Hret & o & s0 & -> & Hp & Hok)]; cbv beta; [done|].
  unfold z2b. rewrite (proj2 (Z.eqb_neq _ _) Hret). cbn [negb when]. unfold free. apply wp_bind.
  eapply wp_of; [unfold obj_at, reads; by rewrite put_at_eq|]. cbv beta. eapply wp_of; [done|].
  match goal with |- kms_ok ?x _ => assert (x = s0) as -> end; [|done]. unfold set_objs, put_at. cbn. rewrite delete_insert_id by done. by destruct s0.
Qed.

Lemma init_crtc_ok s ex p alloc : kms_ok s ex → objs s !! p = None → p ≠ 0 → wp (or_free p (drm_crtc_init p alloc)) s (λ _ s', kms_ok s' ex).
Proof.
  intros Hok Hp Hp0. apply or_free_ok. unfold drm_crtc_init. apply wp_bind. eapply wp_of; [done|]. cbv beta. apply wp_bind.
  destruct (object_get_run s ex p (KCrtc (mk_kcrtc 0 0 0 false 0 0 0 0)) alloc Hok)
    as (i & L & Hinv & [(id & Hrun & _ & Hid & Hno & Hused)|(ret & n & Hrun & Hret & _ & Hused)]); (eapply wp_of; [exact Hrun|]); cbv beta; unfold z2b.
  - cbn [Z.eqb negb]. apply wp_bind. eapply wp_of; [done|]. cbv beta. unfold wp, mret, M_ret. left. split; [done|].
    exact (kms_ok_new s ex p (KCrtc (mk_kcrtc id 0 0 false 0 0 0 0)) i L _ _ _ (num_fb s) (num_connector s) Hok Hp Hp0 Hid Hno Hinv Hused
        (λ _, eq_refl) eq_refl eq_refl eq_refl (λ f Hf, ltac:(done))).
  - rewrite (proj2 (Z.eqb_neq _ _) Hret). cbn [negb]. unfold wp, mret, M_ret. right. split; [done|]. eexists _, (set_idr i s). split; [done|].
    split; [done|]. by eapply kms_ok_idr.
Qed.

Lemma init_connector_ok s ex p alloc : kms_ok s ex → objs s !! p = None → p ≠ 0 → wp (or_free p (connector_init p alloc)) s (λ _ s', kms_ok s' ex).
Proof.
  intros Hok Hp Hp0. apply or_free_ok. unfold connector_init. apply wp_bind. eapply wp_of; [done|]. cbv beta. apply wp_bind.
  destruct (object_get_run s ex p (KConnector 0) alloc Hok)
    as (i & L & Hinv & [(id & Hrun & _ & Hid & Hno & Hused)|(ret & n & Hrun & Hret & _ & Hused)]); (eapply wp_of; [exact Hrun|]); cbv beta; unfold z2b.
  - cbn [Z.eqb negb]. apply wp_bind. eapply wp_of; [done|]. cbv beta. unfold wp, mret, M_ret. left. split; [done|].
    exact (kms_ok_new s ex p (KConnector id) i L _ _ _ (num_fb s) (num_connector s + 1) Hok Hp Hp0 Hid Hno Hinv Hused
        (λ _, eq_refl) eq_refl eq_refl eq_refl (λ f Hf, ltac:(done))).
  - rewrite (proj2 (Z.eqb_neq _ _) Hret). cbn [negb]. unfold wp, mret, M_ret. right. split; [done|]. eexists _, (set_idr i s). split; [done|].
    split; [done|]. by eapply kms_ok_idr.
Qed.

Lemma init_plane_ok s ex p formats alloc list_alloc : kms_ok s ex → objs s !! p = None → p ≠ 0 →
  wp (or_free p (drm_plane_init p formats alloc list_alloc true)) s (λ _ s', kms_ok s' ex).
Proof.
  intros Hok Hp Hp0. apply or_free_ok. unfold drm_plane_init. apply wp_bind. eapply wp_of; [done|]. cbv beta. apply wp_bind.
  destruct (object_get_run s ex p (KPlane (mk_plane 0 0 0 formats)) alloc Hok)
    as (i & L & Hinv & [(id & Hrun & _ & Hid & Hno & Hused)|(ret & n & Hrun & Hret & _ & Hused)]); (eapply wp_of; [exact Hrun|]); cbv beta; unfold z2b.
  - cbn [Z.eqb negb]. destruct list_alloc; cbn [negb].
    + apply wp_bind. eapply wp_of; [done|]. cbv beta. unfold wp, mret, M_ret. left. split; [done|].
      exact (kms_ok_new s ex p (KPlane (mk_plane id 0 0 formats)) i L _ _ _ (num_fb s) (num_connector s) Hok Hp Hp0 Hid Hno Hinv Hused
        (λ _, eq_refl) eq_refl eq_refl eq_refl (λ f Hf, ltac:(done))).
    + assert (used_ids i !! id = Some p) as Hget by (rewrite Hused; apply lookup_insert_eq).
      destruct (idr_remove_ok L i id p Hinv Hget) as (i' & Hrun' & Hinv' & Hused').
      unfold drm_mode_object_put. apply wp_bind, wp_bind. eapply wp_of; [unfold obj_at, reads; by rewrite put_at_eq|]. cbv beta. apply wp_bind.
      eapply wp_of; [unfold on_idr; cbn [object_id plane_id with_id crtc_idr put_at set_objs set_idr]; by rewrite Hrun'|]. cbv beta.
      eapply wp_of; [done|]. cbv beta. unfold wp, mret, M_ret. right. split; [unfold ENOMEM; lia|]. eexists _, (set_idr i' s). split; [done|].
      split; [done|]. apply (kms_ok_idr s ex i' L Hok Hinv'). rewrite Hused', Hused. by apply delete_insert_id.
  - rewrite (proj2 (Z.eqb_neq _ _) Hret). cbn [negb]. unfold wp, mret, M_ret. right. split; [done|]. eexists _, (set_idr i s). split; [done|].
    split; [done|]. by eapply kms_ok_idr.
Qed.

(** ** All runs *)

Definition in_hand (w : kms_world A) : Z → Z := λ p, in_file p (held w).
Definition world_ok (w : kms_world A) : Prop := kms_ok (ks w) (in_hand w).

Lemma in_hand_nonneg w q : 0 <= in_hand w q.
Proof. apply in_file_nonneg. Qed.

Lemma in_file_delete p l k q : l !! k = Some q → in_file p (delete k l) = in_file p l - if decide (q = p) then 1 else 0.
Proof.
  revert k. induction l as [|x l IH]; intros [|k] Hk; cbn in Hk; [done..|by simplify_eq; cbn; rewrite in_file_cons; lia|].
  change (delete (S k) (x :: l)) with (x :: delete k l). rewrite !in_file_cons, (IH k Hk). lia.
Qed.

Lemma on_kms_ok {B} (m : M (kms A) B) w : wp m (ks w) (λ _ s', kms_ok s' (in_hand w)) → ∃ w', on_kms m w = Some w' ∧ world_ok w'.
Proof. unfold on_kms, wp. destruct (m (ks w)) as [[b s']|]; [|done]. intros Hok. by eexists. Qed.

(** A thread gives up the reference it holds. *)
Lemma give_up_ok {B} (m : M (kms A) B) w k p : world_ok w → held w !! k = Some p →
  (∀ ex, kms_ok (ks w) (bump p 1 ex) → (∀ q, 0 <= ex q) → wp m (ks w) (λ _ s', kms_ok s' ex)) →
  ∃ r, m (ks w) = Some r ∧ world_ok (mk_world r.2 (delete k (held w))).
Proof.
  intros Hw Hk Hm. set (w' := mk_world (ks w) (delete k (held w))).
  assert (kms_ok (ks w) (bump p 1 (in_hand w'))) as Hok.
  { eapply kms_ok_ext; [|exact Hw]. intros q. unfold bump, in_hand. cbn [held w']. rewrite (in_file_delete q _ k p Hk). repeat case_decide; congruence || lia. }
  destruct (wp_run _ _ _ (Hm _ Hok (in_hand_nonneg w'))) as (b & s' & Hrun & Hok'). by exists (b, s').
Qed.

Lemma take_ok s (held0 : list Z) p : kms_ok s (bump p 1 (λ q, in_file q held0)) → kms_ok s (λ q, in_file q (p :: held0)).
Proof. intros Hok. eapply kms_ok_ext; [|exact Hok]. intros q. unfold bump. rewrite in_file_cons. repeat case_decide; congruence || lia. Qed.

Lemma fresh_at_ok p s : fresh_at p s = true → p ≠ 0 ∧ objs s !! p = None.
Proof. unfold fresh_at. intros [Hp%negb_true_iff Hn]%andb_true_iff. apply Z.eqb_neq in Hp. by destruct (objs s !! p). Qed.

Lemma is_file_ok file s : is_file file s = true → ∃ l, fbs s !! file = Some l.
Proof. unfold is_file. destruct (fbs s !! file) as [l|]; [by exists l|done]. Qed.

Ltac ands := repeat match goal with Hx : (_ && _)%bool = true |- _ => apply andb_true_iff in Hx as [? ?] end.

Lemma run_kop_ok op w : world_ok w → kop_ok op w = true → ∃ w', run_kop sizeof_event op w = Some w' ∧ world_ok w'.
Proof.
  intros Hw Hop. pose proof (in_hand_nonneg w) as Hex. destruct op; cbn [kop_ok run_kop] in *; ands.
  - apply fresh_at_ok in Hop as [? ?]. apply on_kms_ok. by apply init_crtc_ok.
  - apply fresh_at_ok in Hop as [? ?]. apply on_kms_ok. by apply init_plane_ok.
  - apply fresh_at_ok in Hop as [? ?]. apply on_kms_ok. by apply init_connector_ok.
  - apply on_kms_ok. eapply wp_of; [done|]. apply kms_ok_space. apply kms_ok_fbs; [done|]. intros p. unfold is_file in Hop.
    destruct (fbs (ks w) !! file) eqn:Hf; [done|]. unfold file_refs. rewrite (msum_insert (in_file p) _ file [] Hf). change (in_file p []) with 0. lia.
  - subst. apply on_kms_ok. by apply fb_release_ok.
  - subst. match goal with Hx : fresh_at _ _ = true |- _ => apply fresh_at_ok in Hx as [? ?] end.
    match goal with Hx : is_file _ _ = true |- _ => apply is_file_ok in Hx as [l0 ?] end.
    apply on_kms_ok. unfold drm_mode_addfb. cbn [negb]. destruct (bad_size _ _); [done|]. by eapply addfb_tail_ok.
  - subst. match goal with Hx : fresh_at _ _ = true |- _ => apply fresh_at_ok in Hx as [? ?] end.
    match goal with Hx : is_file _ _ = true |- _ => apply is_file_ok in Hx as [l0 ?] end. bool_to_Z.
    apply on_kms_ok. unfold drm_mode_addfb2. cbn [negb]. destruct (z2b (Z.land _ _)); [done|]. destruct (bad_size _ _); [done|]. apply wp_bind.
    destruct (framebuffer_check_total r) as [ret Hret]; [lia..|]. eapply wp_of; [unfold reads; by rewrite Hret|]. cbv beta.
    destruct (z2b ret); [done|]. by eapply addfb_tail_ok.
  - subst. match goal with Hx : is_file _ _ = true |- _ => apply is_file_ok in Hx as [l0 Hl0] end.
    apply on_kms_ok. unfold drm_mode_rmfb. cbn [negb]. apply wp_bind. eapply wp_mono; [exact (rmfb_unregister_ok _ _ file l0 id Hw Hex Hl0)|].
    intros p s1 [[-> ->]|(Hp & Hok1 & _)]; cbv beta; [done|]. rewrite (proj2 (Z.eqb_neq _ _) Hp). apply wp_bind.
    eapply wp_mono; [exact (remove_taken s1 _ p Hok1 Hex)|]. intros _ s' [Hok' _]. exact Hok'.
  - subst. match goal with Hx : is_file _ _ = true |- _ => apply is_file_ok in Hx as [l0 Hl0] end.
    destruct (wp_run _ _ _ (rmfb_unregister_ok _ _ file l0 id Hw Hex Hl0)) as (p & s1 & Hrun & Hp). rewrite Hrun. cbn. eexists. split; [done|].
    destruct Hp as [[-> ->]|(Hp & Hok1 & _)]; [done|]. rewrite (proj2 (Z.eqb_neq _ _) Hp). by apply take_ok.
  - destruct (held w !! k) as [p|] eqn:Hk; [|done]. cbn.
    destruct (give_up_ok (drm_framebuffer_remove p) w k p Hw Hk) as ([[] s'] & -> & Hok).
    { intros ex Hok Hn. eapply wp_mono; [exact (remove_taken _ ex p Hok Hn)|]. by intros _ s' [? _]. }
    by eexists.
  - apply on_kms_ok. by apply getfb_ok.
  - apply on_kms_ok. by apply setplane_ok.
  - destruct (wp_run _ _ _ (setplane_find_ok _ _ rq Hw Hex)) as (r & s1 & -> & Hr). cbn. eexists. split; [done|].
    destruct r as [ret|[[q c] p]]; [exact Hr|]. destruct Hr as [Hok1 _]. by apply take_ok.
  - destruct (held w !! k) as [p|] eqn:Hk; [|done]. cbn. destruct (objs (ks w) !! q) as [[| |r| |]|] eqn:Hq; try done.
    destruct (give_up_ok (setplane_update q c p rq) w k p Hw Hk) as ([ret s'] & -> & Hok).
    { intros ex Hok Hn. by eapply setplane_update_ok. }
    by eexists.
  - apply on_kms_ok. apply setcrtc_ok; [done|done| |done].
    match goal with Hx : (_ || _)%bool = true |- _ => apply orb_true_iff in Hx as [Hx|Hx] end; [left; by apply Z.eqb_eq|right; by apply fresh_at_ok].
  - apply on_kms_ok. apply flip_ok; [done|done|]. destruct (event_space (ks w) !! file); [by eexists|done].
  - destruct (wp_run _ _ _ (fb_lookup_ok _ _ id Hw)) as (p & s1 & -> & Hp). cbn. eexists. split; [done|].
    destruct Hp as [[-> ->]|(f & Hp & _ & _ & Hok1 & _)]; [done|]. rewrite (proj2 (Z.eqb_neq _ _) Hp). by apply take_ok.
  - destruct (held w !! k) as [p|] eqn:Hk; [|done]. cbn.
    destruct (give_up_ok (drm_framebuffer_unreference p) w k p Hw Hk) as ([[] s'] & -> & Hok).
    { intros ex Hok Hn. eapply wp_mono; [exact (unreference_taken _ ex p Hok Hn)|]. by intros _ s' [? _]. }
    by eexists.
  - apply on_kms_ok. destruct (objs (ks w) !! q) as [[| |r| |]|] eqn:Hq; try done.
    eapply wp_mono; [apply (force_disable_ok _ _ q r Hw Hq)|by intros _ s' [? _]].
    intros f Hne Hf. rewrite (proj2 (Z.eqb_neq _ _) Hne), Hf in Hop. cbn in Hop. by apply Z.ltb_lt.
Qed.

Lemma kms_start_ok a : world_ok (kms_start a).
Proof.
  unfold world_ok, kms_start. cbn [ks held]. split; cbn.
  - exists ∅. exact new_idr_inv.
  - intros id p. rewrite lookup_empty. split; [done|]. intros (_ & o & Ho & _). by rewrite ?lookup_empty in Ho.
  - apply lookup_empty.
  - split; [apply NoDup_nil_2|]. intros p. split; [by intros ?%not_elem_of_nil|]. intros [c Hc]. by rewrite ?lookup_empty in Hc.
  - split; [apply NoDup_nil_2|]. intros p. split; [by intros ?%not_elem_of_nil|]. intros [c Hc]. by rewrite ?lookup_empty in Hc.
  - split; [apply NoDup_nil_2|]. intros p. split; [by intros ?%not_elem_of_nil|]. intros [c Hc]. by rewrite ?lookup_empty in Hc.
  - intros p. unfold file_refs. rewrite msum_empty. lia.
  - intros p f Hp. by rewrite ?lookup_empty in Hp.
  - intros p _. unfold file_refs, uses. by rewrite !msum_empty.
Qed.

Lemma star_world_ok a w : star (kstep sizeof_event) (kms_start a) w → world_ok w.
Proof.
  intros Hs. eapply (star_invariant _ world_ok); [|apply (kms_start_ok a)|exact Hs]. intros w1 w2 Hok (op & Hop & Hrun).
  destruct (run_kop_ok op w1 Hok Hop) as (w' & Hrun' & Hok'). congruence.
Qed.

Lemma nobody_uses s p : p ≠ 0 → (∀ q, plane_free p q s) → (∀ c, crtc_free p c s) → uses (objs s) p = 0.
Proof.
  intros Hp Hq Hc. destruct (decide (uses (objs s) p = 0)) as [|Hn]; [done|]. destruct (msum_pos _ _ Hn) as (x & o & Hx & Ho).
  assert (∀ a, one a p ≠ 0 → a = p) as Hone by (intros a Ha; pose proof (one_bounds a p); apply (one_pos a p); lia).
  destruct o as [f|c|q| |]; cbn in Ho; try done; apply Hone in Ho; [by destruct (Hc x c Hx)|by destruct (Hq x q Hx)].
Qed.

(** The id of a framebuffer never comes back to it. *)
Lemma gone_id s s' ex ex' p f id : kms_ok s ex → kms_ok s' ex' → objs s !! p = Some (KFb f) → fb_id f = id →
  used_ids (crtc_idr s') = delete id (used_ids (crtc_idr s)) → ∀ g, objs s' !! p = Some (KFb g) → fb_id g = 0 ∧ file_refs (fbs s') p = 0.
Proof.
  intros Hok Hok' Hf Hid Hu g Hg. assert (fb_id g = 0) as Hz.
  { destruct (decide (fb_id g = 0)) as [|Hn]; [done|]. assert (used_ids (crtc_idr s') !! fb_id g = Some p) as Hl.
    { apply (k_ids _ _ Hok'). split; [done|]. by exists (KFb g). }
    rewrite Hu in Hl. apply lookup_delete_Some in Hl as [Hne Hl]. apply (k_ids _ _ Hok) in Hl as (_ & o & Ho & Hoid).
    rewrite Hf in Ho. injection Ho as <-. cbn in Hoid. congruence. }
  split; [done|]. pose proof (file_refs_nonneg (fbs s') p). destruct (decide (file_refs (fbs s') p = 0)) as [|Hn]; [done|].
  destruct (k_files _ _ Hok' p) as (_ & h & Hh & Hhid); [lia|]. congruence.
Qed.

(** ** The properties *)


(** When drm_mode_rmfb succeeds in a reachable state, the
    framebuffer had the id of the request; the id is free again, no plane shows the
    framebuffer, and, with a driver that does not refuse to switch a crtc off, no
    crtc does; it is freed then unless a thread still has a reference. *)
Theorem rmfb_correct a w file id s' : star (kstep sizeof_event) (kms_start a) w → is_file file (ks w) = true →
  drm_mode_rmfb true file id true (ks w) = Some (0, s') →
  ∃ p f, objs (ks w) !! p = Some (KFb f) ∧ fb_id f = id ∧ used_ids (crtc_idr s') !! id = None ∧
    (∀ q r, objs s' !! q = Some (KPlane r) → plane_fb r ≠ p) ∧
    (switches_off → (∀ c k, objs s' !! c = Some (KCrtc k) → crtc_fb k ≠ p) ∧ (objs s' !! p = None ↔ p ∉ held w)).
Proof.
  intros Hs Hfile Hrun. pose proof (star_world_ok a w Hs) as Hw. pose proof (in_hand_nonneg w) as Hex. apply is_file_ok in Hfile as [l Hl].
  unfold drm_mode_rmfb in Hrun. cbn [negb] in Hrun. apply M_bind_inv in Hrun as (p & s1 & Hun & Hrun).
  destruct (wp_run _ _ _ (rmfb_unregister_ok _ _ file l id Hw Hex Hl)) as (p' & s1' & Hun' & Hcase). rewrite Hun in Hun'. simplify_eq.
  destruct Hcase as [[-> ->]|(Hp & Hok1 & f & Hf & Hid & Hu)]; [by unfold mret, M_ret in Hrun|]. rewrite (proj2 (Z.eqb_neq _ _) Hp) in Hrun.
  apply M_bind_inv in Hrun as ([] & s2 & Hrem & Hret). unfold mret, M_ret in Hret. simplify_eq.
  destruct (wp_run _ _ _ (remove_taken s1' _ p' Hok1 Hex)) as ([] & s2 & Hrem' & Hok2 & Hst2 & Hq & Hc & Hkind). rewrite Hrem in Hrem'. simplify_eq.
  assert (used_ids (crtc_idr s2) = delete (fb_id f) (used_ids (crtc_idr (ks w)))) as Hu2 by (destruct Hst2 as (_ & _ & _ & _ & ->); done).
  exists p', f. split; [done|]. split; [done|]. split; [rewrite Hu2; apply lookup_delete_eq|]. split; [exact Hq|].
  intros Hoff. specialize (Hc Hoff). split; [exact Hc|]. split.
  - intros Hnone Hin%in_file_pos. destruct (used_fb s2 _ p' Hok2) as [g Hg]; [right; left; unfold in_hand; lia|congruence].
  - intros Hin%in_file_none. destruct (objs s2 !! p') as [o|] eqn:Ho; [|done]. exfalso.
    specialize (Hkind o eq_refl). destruct o as [g| | | |]; try done.
    destruct (gone_id _ _ _ _ p' f (fb_id f) Hw Hok2 Hf eq_refl Hu2 g Ho) as [Hz Hfr].
    destruct (k_refs _ _ Hok2 p' g Ho) as [Hpos Hr]. rewrite Hz, Hfr, (nobody_uses s2 p' Hp Hq Hc) in Hr. unfold in_hand in Hr. cbn in Hr. lia.
Qed.

(** A framebuffer that was removed between the lookup of
    drm_mode_setplane and its update has only the reference of that thread left;
    the update makes it the plane's, and the next drm_plane_force_disable of the
    plane, which drm_fb_helper calls for every plane, panics. *)
Theorem setplane_race a w k p f q r c rq d s' : star (kstep sizeof_event) (kms_start a) w →
  held w !! k = Some p → objs (ks w) !! p = Some (KFb f) → fb_refcount f = 1 → objs (ks w) !! q = Some (KPlane r) →
  update_plane (drv (ks w)) q c p rq = (0, d) → setplane_update q c p rq (ks w) = Some (0, s') →
  drm_plane_force_disable q s' = None.
Proof.
  intros Hs Hk Hp Hone Hq Hup Hrun. pose proof (star_world_ok a w Hs) as Hw. pose proof (in_hand_nonneg w) as Hex.
  destruct (k_refs _ _ Hw p f Hp) as [_ Hr]. rewrite Hone in Hr. pose proof (file_refs_nonneg (fbs (ks w)) p). pose proof (uses_nonneg (objs (ks w)) p).
  pose proof (in_file_pos p (held w) (list_elem_of_lookup_2 _ _ _ Hk)) as Hh. unfold in_hand in Hr.
  assert (uses (objs (ks w)) p = 0) as Hu by (destruct (fb_id f =? 0); cbn in Hr; lia).
  assert (p ≠ 0) as Hp0 by (intros ->; rewrite (k_null _ _ Hw) in Hp; done). assert (p ≠ q) as Hpq by congruence.
  assert (plane_fb r ≠ p) as Hrp.
  { intros Hrp. pose proof (use_le _ q _ p Hq) as Hle. cbn in Hle. rewrite Hrp, one_self in Hle by done. lia. }
  set (r' := mk_plane (plane_id r) c p (format_types r)).
  assert (objs s' !! p = Some (KFb f) ∧ objs s' !! q = Some (KPlane r')) as [Hp' Hq'].
  { unfold setplane_update in Hrun. unfold call in Hrun. unfold mbind at 1, M_bind at 1 in Hrun. rewrite Hup in Hrun. cbn [Z.eqb] in Hrun.
    rewrite (M_bind_Some _ _ _ _ _ (plane_at_run (set_drv d (ks w)) q r Hq)) in Hrun.
    rewrite (M_bind_Some _ _ _ _ _ (put_obj_run (set_drv d (ks w)) q (KPlane r) _ Hq)) in Hrun. fold r' in Hrun.
    apply M_bind_inv in Hrun as ([] & s1 & Hdrop & Hret). unfold mret, M_ret in Hret. simplify_eq. set (s0 := put_at q _ _) in Hdrop.
    assert (objs s0 !! p = Some (KFb f) ∧ objs s0 !! q = Some (KPlane r')) as [Hp1 Hq1] by (split; [unfold s0; by rewrite put_at_others|apply put_at_eq]).
    unfold z2b in Hdrop. destruct (Z.eqb_spec (plane_fb r) 0) as [Hz|Hz]; cbn [negb when] in Hdrop; [unfold mret, M_ret in Hdrop; by simplify_eq|].
    pose proof (kms_ok_swap (set_drv d (ks w)) _ q (KPlane r) (KPlane r') p (kms_ok_drv _ _ d Hw) Hq I eq_refl eq_refl (λ _, eq_refl)
      (or_intror (ex_intro _ f Hp))) as Hok0. fold s0 in Hok0.
    assert (0 < in_hand w (plane_fb r) + use (plane_fb r) (KPlane r) - one p (plane_fb r)) as Hpos.
    { cbn [use]. rewrite (one_self (plane_fb r)), (one_ne p (plane_fb r)) by done. specialize (Hex (plane_fb r)). unfold in_hand in *. lia. }
    destruct (wp_run _ _ _ (fb_unreference_held s0 _ (plane_fb r) Hok0 (swap_nonneg _ _ p Hex (or_intror Hh)) Hpos)) as ([] & s2 & Hrun & _ & _ & Hoth & _).
    rewrite Hdrop in Hrun. injection Hrun as <-.
    assert (plane_fb r ≠ q) as Hrq.
    { intros Hrq. destruct (used_fb _ _ q Hw) as [g Hg]; [|congruence]. left. pose proof (use_le _ q _ q Hq) as Hle. cbn in Hle. rewrite Hrq, one_self in Hle by congruence. lia. }
    by rewrite !Hoth by done. }
  unfold drm_plane_force_disable. rewrite (M_bind_Some _ _ _ _ _ (plane_at_run s' q r' Hq')). cbn [plane_fb r'].
  rewrite (proj2 (Z.eqb_neq _ _) Hp0). unfold call. unfold mbind at 1, M_bind at 1. destruct (disable_plane (drv s') q) as [ret d'].
  unfold __drm_framebuffer_unreference, put_ref. rewrite M_bind_assoc.
  rewrite (M_bind_Some _ _ _ _ _ (fb_at_run (set_drv d' s') p f Hp')). rewrite M_bind_assoc.
  rewrite (M_bind_Some _ _ _ _ _ (put_obj_run (set_drv d' s') p (KFb f) _ Hp')). by rewrite Hone.
Qed.

Lemma unregister_last s p f alloc : objs s !! p = Some (KFb f) → fb_refcount f = 1 → __drm_framebuffer_unregister p alloc s = None.
Proof.
  intros Hp Hone. unfold __drm_framebuffer_unregister. rewrite (M_bind_Some _ _ _ _ _ (fb_at_run s p f Hp)).
  unfold on_idr. unfold mbind at 1, M_bind at 1. destruct (idr_remove (fb_id f) alloc (crtc_idr s)) as [[ret i]|]; [|done].
  rewrite (M_bind_Some _ _ _ _ _ (put_obj_run (set_idr i s) p (KFb f) _ Hp)).
  change (with_id 0 (KFb f)) with (KFb (mk_fb 0 (fb_refcount f) (info f))). unfold __drm_framebuffer_unreference, put_ref.
  rewrite (M_bind_Some _ _ _ _ _ (fb_at_run _ p _ (put_at_eq _ _ _))).
  rewrite (M_bind_Some _ _ _ _ _ (put_obj_run _ p _ _ (put_at_eq _ _ _))). cbn [fb_refcount with_id]. by rewrite Hone.
Qed.

(** Drm_framebuffer_init returns 0 when no id can be
    allocated, so drm_mode_addfb reports success and the id 0; closing the file
    then panics, because the framebuffer has no reference for an id. *)
Theorem addfb_without_id a w l file or p alloc ret n i : star (kstep sizeof_event) (kms_start a) w →
  is_file file (ks w) = true → fresh_at p (ks w) = true → bad_size l (legacy_cmd or) = false →
  idr_get_new_above p 1 alloc (crtc_idr (ks w)) = Some ((ret, n), i) → ret ≠ 0 →
  ∃ s', drm_mode_addfb true l file or true p alloc (ks w) = Some ((0, Some 0), s') ∧ drm_fb_release file true s' = None.
Proof.
  intros Hs Hfile Hp Hsize Hget Hret. pose proof (star_world_ok a w Hs) as Hw. apply is_file_ok in Hfile as [fl Hfl]. apply fresh_at_ok in Hp as [Hp0 Hp].
  set (s := ks w) in *. set (f0 := mk_fb 0 0 (drm_helper_mode_fill_fb_struct (legacy_cmd or))). set (f1 := mk_fb 0 1 (info f0)).
  destruct (object_get_run s _ p (KFb f1) alloc Hw) as (i' & L & _ & [(id & _ & Hg & _)|(ret' & n' & Hrun & _ & Hg & _)]); [congruence|].
  rewrite Hget in Hg. injection Hg as <- <- <-. set (s1 := put_at p (KFb f1) (set_idr i s)) in *.
  exists (set_fbs (<[file := p :: fl]> (fbs s)) s1). split.
  - unfold drm_mode_addfb. cbn [negb]. rewrite Hsize. unfold fb_create. cbn [negb].
    assert (drm_framebuffer_init p alloc (put_at p (KFb f0) s) = Some (0, s1)) as Hinit.
    { unfold drm_framebuffer_init. rewrite (M_bind_Some _ _ _ _ _ (fb_at_run _ p _ (put_at_eq _ _ _))).
      rewrite (M_bind_Some _ _ _ _ _ (put_obj_run _ p _ _ (put_at_eq _ _ _))).
      assert (put_at p (KFb (mk_fb (fb_id f0) 1 (info f0))) (put_at p (KFb f0) s) = put_at p (KFb f1) s) as ->
        by (unfold put_at, set_objs; cbn; by rewrite insert_insert_eq).
      rewrite (M_bind_Some _ _ _ _ _ Hrun). by rewrite (proj2 (Z.eqb_neq _ _) Hret). }
    rewrite !M_bind_assoc, modify_bind. fold f0. change (set_objs _ s) with (put_at p (KFb f0) s). rewrite M_bind_assoc.
    rewrite (M_bind_Some _ _ _ _ _ Hinit), ret_bind. unfold add_to_file. rewrite (proj2 (Z.eqb_neq _ _) Hp0).
    rewrite (M_bind_Some _ _ _ _ _ (fb_at_run s1 p f1 (put_at_eq _ _ _))).
    unfold reads at 1. unfold mbind at 1, M_bind at 1. change (fbs s1) with (fbs s). by rewrite Hfl.
  - unfold drm_fb_release. unfold reads at 1. unfold mbind at 1, M_bind at 1. cbn [fbs set_fbs]. rewrite lookup_insert_eq. cbn [release_fbs].
    rewrite M_bind_assoc. unfold mbind at 1, M_bind at 1. erewrite unregister_last; [done|cbn; apply lookup_insert_eq|done].
Qed.

Lemma last_reference_run s p f : objs s !! p = Some (KFb f) → fb_refcount f = 1 → p ∈ fb_list s →
  drm_framebuffer_unreference p s = Some (tt, set_objs (delete p (objs s)) (set_fb_list (remove_elem p (fb_list s)) (num_fb s - 1) s)).
Proof.
  intros Hp Hone Hin. unfold drm_framebuffer_unreference, put_ref. rewrite (M_bind_Some _ _ _ _ _ (fb_at_run s p f Hp)).
  rewrite (M_bind_Some _ _ _ _ _ (put_obj_run s p _ _ Hp)), Hone. change (1 - 1 =? 0) with true. cbn [when].
  unfold drm_framebuffer_free, destroy, drm_framebuffer_cleanup. rewrite M_bind_assoc, get_bind, M_bind_assoc.
  rewrite BUG_ON_bind by (cbn [fb_list put_at set_objs]; by rewrite bool_decide_true). rewrite modify_bind.
  unfold free, obj_at, reads, mbind, M_bind, modify. cbn. rewrite lookup_insert_eq. unfold set_objs, set_fb_list. cbn. by rewrite delete_insert_eq.
Qed.

Lemma find_object_run s ex p o t : kms_ok s ex → objs s !! p = Some o → object_id o ≠ 0 → t o = true → find_object (object_id o) t s = Some (p, s).
Proof.
  intros Hok Ho Hid Ht. destruct (k_idr _ _ Hok) as [L Hinv]. unfold find_object, on_idr. unfold mbind at 1, M_bind at 1.
  rewrite (idr_find_ok L _ _ Hinv). assert (used_ids (crtc_idr s) !! object_id o = Some p) as -> by (apply (k_ids _ _ Hok); split; [done|by exists o]).
  cbn [default from_option]. unfold Datatypes.id. rewrite set_idr_same. assert (p ≠ 0) as Hp0 by (intros ->; rewrite (k_null _ _ Hok) in Ho; done).
  rewrite (proj2 (Z.eqb_neq _ _) Hp0). unfold obj_at, reads. unfold mbind, M_bind. rewrite Ho, Ht. by rewrite Z.eqb_refl.
Qed.

(** When idr_remove has no memory for the free id, the id
    of the framebuffer stays; drm_mode_rmfb still succeeds and frees the
    framebuffer, and the next lookup of the id reads the freed memory. *)
Theorem rmfb_leaves_id a w file l p f : star (kstep sizeof_event) (kms_start a) w →
  fbs (ks w) !! file = Some l → p ∈ l → objs (ks w) !! p = Some (KFb f) → fb_refcount f = 2 →
  ∃ s', drm_mode_rmfb true file (fb_id f) false (ks w) = Some (0, s') ∧ objs s' !! p = None ∧
    drm_framebuffer_lookup (fb_id f) s' = None.
Proof.
  intros Hs Hl Hin Hp Htwo. pose proof (star_world_ok a w Hs) as Hw. set (s := ks w) in *. pose proof (in_file_pos p l Hin) as Hpos.
  pose proof (msum_le (in_file p) (fbs s) file l (in_file_nonneg p) Hl) as Hle.
  destruct (k_files _ _ Hw p) as (_ & g & Hg & Hid); [unfold file_refs; fold s; lia|]. fold s in Hg. rewrite Hp in Hg. injection Hg as <-.
  destruct (k_idr _ _ Hw) as [L Hinv]. fold s in Hinv. assert (p ≠ 0) as Hp0 by (intros ->; pose proof (k_null _ _ Hw) as Hn; fold s in Hn; congruence).
  assert (used_ids (crtc_idr s) !! fb_id f = Some p) as Hused by (apply (k_ids _ _ Hw); split; [done|by exists (KFb f)]).
  assert (p ∈ fb_list s) as Hfl by (apply (k_fbs _ _ Hw); by exists f).
  set (f1 := mk_fb 0 1 (info f)). set (s1 := put_at p (KFb f1) s).
  assert (__drm_framebuffer_unregister p false s = Some (tt, s1)) as Hunreg.
  { unfold __drm_framebuffer_unregister. rewrite (M_bind_Some _ _ _ _ _ (fb_at_run s p f Hp)). unfold on_idr. unfold mbind at 1, M_bind at 1.
    rewrite (idr_remove_nomem L _ _ p Hinv Hused), set_idr_same. rewrite (M_bind_Some _ _ _ _ _ (put_obj_run s p (KFb f) _ Hp)).
    change (with_id 0 (KFb f)) with (KFb (mk_fb 0 (fb_refcount f) (info f))). unfold __drm_framebuffer_unreference, put_ref. rewrite (M_bind_Some _ _ _ _ _ (fb_at_run _ p _ (put_at_eq _ _ _))).
    rewrite (M_bind_Some _ _ _ _ _ (put_obj_run _ p _ _ (put_at_eq _ _ _))). cbn [fb_refcount with_id]. rewrite Htwo. cbn.
    unfold s1, put_at, set_objs, add_ref. cbn. by rewrite insert_insert_eq. }
  set (s2 := set_fbs (<[file := remove_elem p l]> (fbs s)) s1).
  set (s3 := set_objs (delete p (objs s)) (set_fb_list (remove_elem p (fb_list s)) (num_fb s - 1) s2)).
  assert (drm_framebuffer_remove p s2 = Some (tt, s3)) as Hrem.
  { unfold drm_framebuffer_remove. assert (objs s2 !! p = Some (KFb f1)) as Hp2 by apply lookup_insert_eq.
    rewrite (M_bind_Some _ _ _ _ _ (fb_at_run s2 p f1 Hp2)). cbn [fb_refcount f1]. change (1 <? 1) with false. cbn [when]. unfold mbind at 1, M_bind at 1, mret at 1, M_ret at 1. 
    rewrite (last_reference_run s2 p f1 Hp2 eq_refl Hfl). unfold s3, s2, s1, put_at, set_objs, set_fb_list, set_fbs. cbn. by rewrite delete_insert_eq. }
  exists s3. split; [|split; [cbn; apply lookup_delete_eq|]].
  - unfold drm_mode_rmfb. cbn [negb]. unfold rmfb_unregister, __drm_framebuffer_lookup. rewrite M_bind_assoc.
    rewrite (M_bind_Some _ _ _ _ _ (find_object_run s _ p (KFb f) is_fb Hw Hp Hid eq_refl)). rewrite (proj2 (Z.eqb_neq _ _) Hp0).
    rewrite M_bind_assoc. unfold reads at 1. unfold mbind at 1, M_bind at 1. rewrite Hl. rewrite bool_decide_true by done. cbn [negb].
    rewrite M_bind_assoc, (M_bind_Some _ _ _ _ _ Hunreg), M_bind_assoc, modify_bind, ret_bind. change (fbs s1) with (fbs s). fold s2.
    rewrite (proj2 (Z.eqb_neq _ _) Hp0). by rewrite (M_bind_Some _ _ _ _ _ Hrem).
  - unfold drm_framebuffer_lookup, __drm_framebuffer_lookup, find_object, on_idr. change (crtc_idr s3) with (crtc_idr s).
    unfold mbind, M_bind. rewrite (idr_find_ok L _ _ Hinv), Hused. cbn [default from_option]. unfold Datatypes.id.
    rewrite (proj2 (Z.eqb_neq _ _) Hp0). unfold obj_at, reads. cbn [objs set_idr s3 set_objs]. by rewrite lookup_delete_eq.
Qed.
End Invariant.

(** ** Witnesses: a driver that does as it is told *)

#[local] Existing Instance Formats.documented.
#[local] Existing Instance Modes.interface_modes.

Definition follow (set : drm_mode_set) (p : Z) (c : drm_crtc) : drm_crtc :=
  if p =? ms_crtc set then mk_kcrtc (crtc_id c) (ms_fb set) (crtc_old_fb c) (invert_dimensions c)
    (match ms_mode set with Some m => hdisplay (tm m) | None => 0 end) (match ms_mode set with Some m => vdisplay (tm m) | None => 0 end)
    (ms_x set) (ms_y set)
  else c.

#[local] Program Instance obedient : KmsDriver unit := {|
  set_config a cs set := (0, follow set, a);
  page_flip := Some (λ a c p event, (0, a));
  update_plane a q c p rq := (0, a);
  disable_plane a q := (0, a);
  create_handle := Some (λ a p file, (0, 1, a));
|}.
Next Obligation.
  intros a cs s ret upd a' [= _ <- _] p c. unfold follow.
  destruct (Z.eqb_spec p (ms_crtc s)) as [->|]; (split; [done|]); (split; [done|]); [by right; right|by left].
Qed.
Next Obligation. intros a cs s upd a' [= <- _] c. unfold follow. rewrite Z.eqb_refl. by left. Qed.

Lemma obedient_switches_off : switches_off.
Proof. done. Qed.

Lemma run_kops_star l : ∀ w w', run_kops 32 l w = Some w' → star (kstep 32) w w'.
Proof.
  induction l as [|op l IH]; intros w w' Hr; cbn [run_kops] in Hr; [injection Hr as <-; constructor|].
  destruct (kop_ok op w) eqn:Hop; [|discriminate]. destruct (run_kop 32 op w) as [w1|] eqn:Hrun; [|discriminate].
  apply (star_step _ w w1); [by exists op|]. by apply IH.
Qed.

Definition demo_mode : drm_mode_modeinfo :=
  mk_modeinfo "64x64" 0 (mk_timings 4000 64 66 68 80 0 64 66 68 70 0 0) 60.

Definition demo_limits : fb_limits := mk_limits 0 4096 0 4096.
Definition demo_cmd : drm_mode_fb_cmd := mk_fb_cmd 64 64 256 32 24 7.
Definition demo_plane : drm_mode_set_plane := mk_set_plane 2 1 4 0 0 64 64 0 0 (2 ^ 22) (2 ^ 22).

(** A crtc, a plane and a connector get the ids 1 to 3, and the framebuffer of
    the first file the id 4. *)
Definition demo_setup : list kms_op :=
  [KInitCrtc 101 true; KInitPlane 102 [fourcc DRM_FORMAT_XRGB8888] true true; KInitConnector 103 true; KOpen 1;
   KAddfb demo_limits 1 demo_cmd true 110 true].

(** The crtc and the plane show it and a thread looks it up; then another client
    removes a second one. *)
Definition demo_use : list kms_op := demo_setup ++
  [KSetcrtc (mk_mode_crtc 1 4 0 0 true demo_mode 1) (mk_env 104 true true true [Some 3]); KSetplane demo_plane; KLookup 4; KLookup 4; KPut 0].

Definition demo_race : list kms_op := demo_setup ++ [KPlaneFind demo_plane; KRmfb 1 4 true].

Definition demo_start : kms_world unit := kms_start tt.

(** The threads' references, the crtc, the plane, the framebuffer and the list of
    the first file. *)
Definition demo_view (w : kms_world unit) :=
  (held w, objs (ks w) !! 101, objs (ks w) !! 102, objs (ks w) !! 110, fbs (ks w) !! 1%positive).

Definition demo_info : fb_info := mk_info 64 64 [256; 0; 0; 0] [0; 0; 0; 0] 24 32 (fourcc DRM_FORMAT_XRGB8888).
Definition demo_crtc (fb : Z) : drm_crtc := mk_kcrtc 1 fb 0 false (if fb =? 0 then 0 else 64) (if fb =? 0 then 0 else 64) 0 0.
Definition shown (c q : Z) : drm_plane := mk_plane 2 c q [fourcc DRM_FORMAT_XRGB8888].

(** A call after a run. *)
Lemma demo_call {B} (op : M (kms unit) B) l v b :
  (w ← run_kops 32 l demo_start; '(b, _) ← op (ks w); Some (demo_view w, b)) = Some (v, b) →
  ∃ w s', run_kops 32 l demo_start = Some w ∧ star (kstep 32) (kms_start tt) w ∧ demo_view w = v ∧ op (ks w) = Some (b, s').
Proof.
  destruct (run_kops 32 l demo_start) as [w|] eqn:Hw; [|discriminate]. cbn. destruct (op (ks w)) as [[b' s']|] eqn:Hop; [|discriminate].
  cbn. intros [= Hv <-]. exists w, s'. split; [done|]. split; [|done]. exact (run_kops_star l _ w Hw).
Qed.


Lemma rmfb_correct_witness : ∃ w s', run_kops 32 (demo_use ++ [KPut 0]) demo_start = Some w ∧
  drm_mode_rmfb true 1 4 true (ks w) = Some (0, s') ∧
  ∃ p f, objs (ks w) !! p = Some (KFb f) ∧ fb_id f = 4 ∧ objs s' !! p = None.
Proof.
  destruct (demo_call (drm_mode_rmfb true 1 4 true) (demo_use ++ [KPut 0])
    ([], Some (KCrtc (demo_crtc 110)), Some (KPlane (shown 101 110)), Some (KFb (mk_fb 4 4 demo_info)), Some [110]) 0)
    as (w & s' & Hw & Hs & Hv & Hrun); [vm_compute; reflexivity|].
  exists w, s'. split; [exact Hw|]. split; [exact Hrun|]. unfold demo_view in Hv. injection Hv as Hh _ _ _ Hl.
  destruct (rmfb_correct 32 tt w 1 4 s' Hs) as (p & f & Hf & Hid & _ & _ & Hoff); [unfold is_file; rewrite Hl; reflexivity|exact Hrun|].
  exists p, f. split; [exact Hf|]. split; [exact Hid|]. apply (Hoff obedient_switches_off). rewrite Hh. apply not_elem_of_nil.
Defined.

Lemma setplane_race_witness : ∃ w s', run_kops 32 demo_race demo_start = Some w ∧
  setplane_update 102 101 110 demo_plane (ks w) = Some (0, s') ∧ drm_plane_force_disable 102 s' = None.
Proof.
  destruct (demo_call (setplane_update 102 101 110 demo_plane) demo_race
    ([110], Some (KCrtc (demo_crtc 0)), Some (KPlane (shown 0 0)), Some (KFb (mk_fb 0 1 demo_info)), Some []) 0)
    as (w & s' & Hw & Hs & Hv & Hrun); [vm_compute; reflexivity|].
  exists w, s'. split; [exact Hw|]. split; [exact Hrun|]. unfold demo_view in Hv. injection Hv as Hh _ Hq Hf _.
  apply (setplane_race 32 tt w 0 110 (mk_fb 0 1 demo_info) 102 (shown 0 0) 101 demo_plane tt s' Hs);
    [rewrite Hh; reflexivity|exact Hf|reflexivity|exact Hq|destruct (drv (ks w)); reflexivity|exact Hrun].
Defined.

Lemma addfb_without_id_witness : ∃ w s', run_kops 32 demo_setup demo_start = Some w ∧
  drm_mode_addfb true demo_limits 1 demo_cmd true 120 false (ks w) = Some ((0, Some 0), s') ∧ drm_fb_release 1 true s' = None.
Proof.
  destruct (demo_call (on_idr (idr_get_new_above 120 1 false)) demo_setup
    ([], Some (KCrtc (demo_crtc 0)), Some (KPlane (shown 0 0)), Some (KFb (mk_fb 4 2 demo_info)), Some [110]) (- ENOMEM, None))
    as (w & s1 & Hw & Hs & Hv & Hrun); [vm_compute; reflexivity|].
  unfold on_idr in Hrun. destruct (idr_get_new_above 120 1 false (crtc_idr (ks w))) as [[r i]|] eqn:Hget; [|discriminate]. injection Hrun as -> _.
  assert (is_file 1 (ks w) = true) as Hfile by (unfold demo_view in Hv; injection Hv as _ _ _ _ Hl; unfold is_file; rewrite Hl; reflexivity).
  assert (fresh_at 120 (ks w) = true) as Hfresh.
  { assert ((w ← run_kops 32 demo_setup demo_start; Some (fresh_at 120 (ks w))) = Some true) as Hf by (vm_compute; reflexivity).
    rewrite Hw in Hf. injection Hf as Hf. exact Hf. }
  destruct (addfb_without_id 32 tt w demo_limits 1 demo_cmd 120 false (- ENOMEM) None i Hs Hfile Hfresh eq_refl Hget) as (s' & Hadd & Hrel);
    [discriminate|].
  exists w, s'. split; [exact Hw|]. split; [exact Hadd|exact Hrel].
Defined.

Lemma rmfb_leaves_id_witness : ∃ w s', run_kops 32 demo_setup demo_start = Some w ∧
  drm_mode_rmfb true 1 4 false (ks w) = Some (0, s') ∧ objs s' !! 110 = None ∧ drm_framebuffer_lookup 4 s' = None.
Proof.
  destruct (demo_call (mret tt) demo_setup
    ([], Some (KCrtc (demo_crtc 0)), Some (KPlane (shown 0 0)), Some (KFb (mk_fb 4 2 demo_info)), Some [110]) tt)
    as (w & s1 & Hw & Hs & Hv & _); [vm_compute; reflexivity|].
  unfold demo_view in Hv. injection Hv as _ _ _ Hf Hl.
  destruct (rmfb_leaves_id 32 tt w 1 [110] 110 (mk_fb 4 2 demo_info) Hs Hl) as (s' & Hrm & Hno & Hlook); [left; reflexivity|exact Hf|reflexivity|].
  exists w, s'. split; [exact Hw|]. split; [exact Hrm|]. split; [exact Hno|exact Hlook].
Defined.
