(* ===== verification/CrtcHelper.v ===== *)
(** * drm_crtc_helper.c: the mesh of crtcs, encoders and connectors

    A connector points to the encoder that feeds it and an encoder to the crtc
    that drives it; the helpers rewire this mesh for drivers that have no
    set_config of their own.  Objects are found at addresses, 0 is NULL, and
    following a pointer to no object is a fault.  What the callbacks of the driver
    do to the hardware is a function on a state of its own.  The theorems: a
    failed configuration leaves the mesh as it was; a successful one shows the
    framebuffer of the request or leaves the crtc off; crtcs that are on are
    exactly those that are used, over all operations; and the helper fulfils the
    interface of set_config that [FrameBuf] relies on. *)

From stdpp Require Import base option list gmap.
From Stdlib Require Import ZArith Lia.
From S2P Require Import Prelude LinuxList Modes FrameBuf.
#[local] Open Scope Z_scope.

(** ** Data *)

Inductive drm_connector_status := connector_status_connected | connector_status_disconnected | connector_status_unknown.

#[export] Instance drm_connector_status_eq_dec : EqDecision drm_connector_status.
Proof. solve_decision. Defined.

Definition DRM_CONNECTOR_POLL_HPD : Z := 1.
Definition DRM_CONNECTOR_POLL_DISCONNECT : Z := 4.

(** The fields of the structures that the helpers look at. *)
Record helper_crtc := mk_hcrtc {
  enabled : bool; hc_fb : Z; hc_x : Z; hc_y : Z; hc_mode : drm_display_mode; hwmode : drm_display_mode;
}.
Record drm_encoder := mk_encoder { enc_crtc : Z; possible_crtcs : Z }.
Record drm_connector := mk_connector {
  conn_encoder : Z; conn_status : drm_connector_status; dpms : Z; forced : bool; polled : Z; panel : bool;
}.

(** The callbacks of drm_crtc_helper_funcs and drm_encoder_helper_funcs without a
    result. *)
Inductive callback :=
  | CrtcDpms (c mode : Z)
  | CrtcPrepare (c : Z)
  | CrtcCommit (c : Z)
  | CrtcDisable (c : Z)
  | EncoderDpms (e mode : Z)
  | EncoderPrepare (e : Z)
  | EncoderCommit (e : Z)
  | EncoderModeSet (e : Z) (mode adjusted_mode : drm_display_mode)
  | EncoderDisable (e : Z)
  | OutputPollChanged.

(** The names of drm_mode.h, which is not part of the repository. *)
Class DpmsH := { DRM_MODE_DPMS_ON : Z; DRM_MODE_DPMS_OFF : Z }.

(** The driver: its callbacks on its state [A]; which optional ones it has.  It
    can switch off every crtc and encoder. *)
Class HelperDriver (A : Type) := {
  notify : A → callback → A;
  best_encoder : A → Z → Z * A;
  encoder_mode_fixup : A → Z → drm_display_mode → drm_display_mode → bool * drm_display_mode * A;
  crtc_mode_fixup : A → Z → drm_display_mode → drm_display_mode → bool * drm_display_mode * A;
  crtc_mode_set : A → Z → drm_display_mode → drm_display_mode → Z → Z → Z → Z * drm_display_mode * A;
  crtc_mode_set_base : option (A → Z → Z → Z → Z → Z * A);
  get_crtc : option (A → Z → Z);
  detect : A → Z → drm_connector_status * A;
  crtc_has_dpms : Z → bool;
  crtc_has_disable : Z → bool;
  encoder_has_dpms : Z → bool;
  encoder_has_disable : Z → bool;
  crtc_goes_off c : crtc_has_disable c || crtc_has_dpms c = true;
  encoder_goes_off e : encoder_has_disable e || encoder_has_dpms e = true;
}.

(** The mode_config of a device with the objects of its lists. *)
Record mesh (A : Type) := mk_mesh {
  crtcs : gmap Z helper_crtc;
  encoders : gmap Z drm_encoder;
  connectors : gmap Z drm_connector;
  crtc_order : list Z;
  encoder_order : list Z;
  connector_order : list Z;
  hdrv : A;
}.
Arguments mk_mesh {_} _ _ _ _ _ _ _.
Arguments crtcs {_} _.
Arguments encoders {_} _.
Arguments connectors {_} _.
Arguments crtc_order {_} _.
Arguments encoder_order {_} _.
Arguments connector_order {_} _.
Arguments hdrv {_} _.

Section Helper.
Context {A : Type} `{HelperDriver A, DpmsH, DrmModeH}.
Implicit Types (m : mesh A).

Definition set_crtcs (x : gmap Z helper_crtc) m : mesh A :=
  mk_mesh x (encoders m) (connectors m) (crtc_order m) (encoder_order m) (connector_order m) (hdrv m).
Definition set_encoders (x : gmap Z drm_encoder) m : mesh A :=
  mk_mesh (crtcs m) x (connectors m) (crtc_order m) (encoder_order m) (connector_order m) (hdrv m).
Definition set_connectors (x : gmap Z drm_connector) m : mesh A :=
  mk_mesh (crtcs m) (encoders m) x (crtc_order m) (encoder_order m) (connector_order m) (hdrv m).
Definition set_connector_order (x : list Z) m : mesh A :=
  mk_mesh (crtcs m) (encoders m) (connectors m) (crtc_order m) (encoder_order m) x (hdrv m).
Definition set_hdrv (a : A) m : mesh A :=
  mk_mesh (crtcs m) (encoders m) (connectors m) (crtc_order m) (encoder_order m) (connector_order m) a.

Definition hcrtc_at (p : Z) : M (mesh A) helper_crtc := reads (λ m, crtcs m !! p).
Definition encoder_at (p : Z) : M (mesh A) drm_encoder := reads (λ m, encoders m !! p).
Definition connector_at (p : Z) : M (mesh A) drm_connector := reads (λ m, connectors m !! p).
Definition upd_hcrtc (p : Z) (f : helper_crtc → helper_crtc) : M (mesh A) unit :=
  k ← hcrtc_at p; modify (λ m, set_crtcs (<[p := f k]> (crtcs m)) m).
Definition upd_encoder (p : Z) (f : drm_encoder → drm_encoder) : M (mesh A) unit :=
  k ← encoder_at p; modify (λ m, set_encoders (<[p := f k]> (encoders m)) m).
Definition upd_connector (p : Z) (f : drm_connector → drm_connector) : M (mesh A) unit :=
  k ← connector_at p; modify (λ m, set_connectors (<[p := f k]> (connectors m)) m).
Definition hcall {B} (f : A → B * A) : M (mesh A) B := λ m, let '(b, a) := f (hdrv m) in Some (b, set_hdrv a m).
Definition tell (cb : callback) : M (mesh A) unit := modify (λ m, set_hdrv (notify (hdrv m) cb) m).

Definition with_enabled (b : bool) (k : helper_crtc) : helper_crtc := mk_hcrtc b (hc_fb k) (hc_x k) (hc_y k) (hc_mode k) (hwmode k).
Definition with_fb (p : Z) (k : helper_crtc) : helper_crtc := mk_hcrtc (enabled k) p (hc_x k) (hc_y k) (hc_mode k) (hwmode k).
Definition with_xy (x y : Z) (k : helper_crtc) : helper_crtc := mk_hcrtc (enabled k) (hc_fb k) x y (hc_mode k) (hwmode k).
Definition with_mode (mode : drm_display_mode) (k : helper_crtc) : helper_crtc :=
  mk_hcrtc (enabled k) (hc_fb k) (hc_x k) (hc_y k) mode (hwmode k).
Definition with_hwmode (mode : drm_display_mode) (k : helper_crtc) : helper_crtc :=
  mk_hcrtc (enabled k) (hc_fb k) (hc_x k) (hc_y k) (hc_mode k) mode.
Definition with_crtc (c : Z) (k : drm_encoder) : drm_encoder := mk_encoder c (possible_crtcs k).
Definition with_encoder (e : Z) (k : drm_connector) : drm_connector :=
  mk_connector e (conn_status k) (dpms k) (forced k) (polled k) (panel k).
Definition with_dpms (d : Z) (k : drm_connector) : drm_connector :=
  mk_connector (conn_encoder k) (conn_status k) d (forced k) (polled k) (panel k).
Definition with_status (x : drm_connector_status) (k : drm_connector) : drm_connector :=
  mk_connector (conn_encoder k) x (dpms k) (forced k) (polled k) (panel k).

(** A loop that returns true at the first element that passes. *)
Fixpoint any (l : list Z) (test : Z → M (mesh A) bool) : M (mesh A) bool :=
  match l with
  | [] => mret false
  | p :: l => b ← test p; if b : bool then mret true else any l test
  end.

(** ** Use *)

Definition drm_helper_encoder_in_use (e : Z) : M (mesh A) bool :=
  m ← get; any (connector_order m) (λ c, k ← connector_at c; mret (conn_encoder k =? e)).

Definition drm_helper_crtc_in_use (c : Z) : M (mesh A) bool :=
  m ← get; any (encoder_order m) (λ e, k ← encoder_at e; if enc_crtc k =? c then drm_helper_encoder_in_use e else mret false).

Definition drm_encoder_disable (e : Z) : M (mesh A) unit :=
  if encoder_has_disable e then tell (EncoderDisable e)
  else if encoder_has_dpms e then tell (EncoderDpms e DRM_MODE_DPMS_OFF) else fault.

Definition crtc_off (c : Z) : M (mesh A) unit :=
  if crtc_has_disable c then tell (CrtcDisable c)
  else if crtc_has_dpms c then tell (CrtcDpms c DRM_MODE_DPMS_OFF) else fault.

Definition drop_disconnected (c : Z) : M (mesh A) unit :=
  k ← connector_at c;
  if conn_encoder k =? 0 then mret tt else
  when (bool_decide (conn_status k = connector_status_disconnected)) (upd_connector c (with_encoder 0)).

Definition disable_unused_encoder (e : Z) : M (mesh A) unit :=
  used ← drm_helper_encoder_in_use e;
  when (negb used) (drm_encoder_disable e;; upd_encoder e (with_crtc 0)).

Definition disable_unused_crtc (c : Z) : M (mesh A) unit :=
  used ← drm_helper_crtc_in_use c;
  upd_hcrtc c (with_enabled used);;
  when (negb used) (crtc_off c;; upd_hcrtc c (with_fb 0)).

Definition drm_helper_disable_unused_functions : M (mesh A) unit :=
  m ← get;
  for_each (connector_order m) drop_disconnected;;
  for_each (encoder_order m) disable_unused_encoder;;
  for_each (crtc_order m) disable_unused_crtc.

(** The bit of [c] in a mask of crtcs, an [int]. *)
Fixpoint crtc_mask (l : list Z) (c mask : Z) : Z :=
  match l with
  | [] => mask
  | t :: l => if t =? c then mask else crtc_mask l c (i32 (Z.shiftl mask 1))
  end.

Definition drm_encoder_crtc_ok (e c : Z) : M (mesh A) bool :=
  k ← encoder_at e;
  m ← get;
  mret (z2b (Z.land (possible_crtcs k) (u32 (crtc_mask (crtc_order m) c 1)))).

(** ** Setting a mode *)

Definition drm_crtc_prepare_encoders : M (mesh A) unit :=
  m ← get;
  for_each (encoder_order m) (λ e,
    k ← encoder_at e;
    when (enc_crtc k =? 0) (drm_encoder_disable e);;
    m ← get;
    match get_crtc with
    | Some get_crtc => when (negb (enc_crtc k =? get_crtc (hdrv m) e)) (drm_encoder_disable e)
    | None => mret tt
    end).

(** The encoders that [c] drives. *)
Definition for_encoders_of (c : Z) (body : Z → M (mesh A) unit) : M (mesh A) unit :=
  m ← get;
  for_each (encoder_order m) (λ e, k ← encoder_at e; when (enc_crtc k =? c) (body e)).

Fixpoint fixup_encoders (l : list Z) (c : Z) (mode adjusted_mode : drm_display_mode) : M (mesh A) (bool * drm_display_mode) :=
  match l with
  | [] => mret (true, adjusted_mode)
  | e :: l =>
    k ← encoder_at e;
    if enc_crtc k =? c then
      '(ret, adjusted_mode) ← hcall (λ a, encoder_mode_fixup a e mode adjusted_mode);
      if ret : bool then fixup_encoders l c mode adjusted_mode else mret (false, adjusted_mode)
    else fixup_encoders l c mode adjusted_mode
  end.

(** From the fixups to the commits: the result and the mode as it was adjusted.
    The constants for timestamps, which follow, belong to the file Vblank. *)
Definition set_mode_run (c : Z) (mode adjusted_mode : drm_display_mode) (x y old_fb : Z) : M (mesh A) (bool * drm_display_mode) :=
  m ← get;
  '(ret, adjusted_mode) ← fixup_encoders (encoder_order m) c mode adjusted_mode;
  if negb ret then mret (false, adjusted_mode) else
  '(ret, adjusted_mode) ← hcall (λ a, crtc_mode_fixup a c mode adjusted_mode);
  if negb ret then mret (false, adjusted_mode) else
  for_encoders_of c (λ e, tell (EncoderPrepare e));;
  drm_crtc_prepare_encoders;;
  tell (CrtcPrepare c);;
  '(ret, adjusted_mode) ← hcall (λ a, crtc_mode_set a c mode adjusted_mode x y old_fb);
  if z2b ret then mret (false, adjusted_mode) else
  for_encoders_of c (λ e, tell (EncoderModeSet e mode adjusted_mode));;
  tell (CrtcCommit c);;
  for_encoders_of c (λ e, tell (EncoderCommit e));;
  mret (true, adjusted_mode).

(** [dup]: the id of the duplicate of the mode, if there is memory for it. *)
Definition drm_crtc_helper_set_mode (c : Z) (mode : drm_display_mode) (x y old_fb : Z) (dup : option Z) : M (mesh A) bool :=
  used ← drm_helper_crtc_in_use c;
  upd_hcrtc c (with_enabled used);;
  if negb used then mret true else
  match drm_mode_duplicate dup mode with
  | None => mret false
  | Some adjusted_mode =>
    saved ← hcrtc_at c;
    upd_hcrtc c (λ k, with_xy x y (with_mode mode k));;
    '(ret, adjusted_mode) ← set_mode_run c mode adjusted_mode x y old_fb;
    if ret : bool then upd_hcrtc c (with_hwmode adjusted_mode);; mret true
    else
      upd_hcrtc c (λ k, with_xy (hc_x saved) (hc_y saved) (with_mode (hc_mode saved) (with_hwmode (hwmode saved) k)));;
      mret false
  end.

Definition drm_crtc_helper_disable (c : Z) : M (mesh A) Z :=
  m ← get;
  for_each (encoder_order m) (λ e,
    k ← encoder_at e;
    when (enc_crtc k =? c) (
      for_each (connector_order m) (λ p,
        k ← connector_at p;
        when (conn_encoder k =? e) (upd_connector p (with_encoder 0)))));;
  drm_helper_disable_unused_functions;;
  mret 0.

(** ** Power management *)

Fixpoint choose_dpms (l : list Z) (driven : drm_connector → M (mesh A) bool) (d : Z) : M (mesh A) Z :=
  match l with
  | [] => mret d
  | p :: l =>
    k ← connector_at p;
    b ← driven k;
    choose_dpms l driven (if (b : bool) && (dpms k <? d) then dpms k else d)
  end.

Definition drm_helper_choose_encoder_dpms (e : Z) : M (mesh A) Z :=
  m ← get; choose_dpms (connector_order m) (λ k, mret (conn_encoder k =? e)) DRM_MODE_DPMS_OFF.

Definition drm_helper_choose_crtc_dpms (c : Z) : M (mesh A) Z :=
  m ← get;
  choose_dpms (connector_order m) (λ k,
    if conn_encoder k =? 0 then mret false else e ← encoder_at (conn_encoder k); mret (enc_crtc e =? c)) DRM_MODE_DPMS_OFF.

Definition crtc_dpms (c : Z) : M (mesh A) unit :=
  when (negb (c =? 0) && crtc_has_dpms c) (d ← drm_helper_choose_crtc_dpms c; tell (CrtcDpms c d)).

Definition encoder_dpms (e : Z) : M (mesh A) unit :=
  when (negb (e =? 0) && encoder_has_dpms e) (d ← drm_helper_choose_encoder_dpms e; tell (EncoderDpms e d)).

Definition drm_helper_connector_dpms (p mode : Z) : M (mesh A) unit :=
  k ← connector_at p;
  c ← (if conn_encoder k =? 0 then mret 0 else e ← encoder_at (conn_encoder k); mret (enc_crtc e));
  if mode =? dpms k then mret tt else
  upd_connector p (with_dpms mode);;
  when (mode <? dpms k) (crtc_dpms c;; encoder_dpms (conn_encoder k));;
  when (dpms k <? mode) (encoder_dpms (conn_encoder k);; crtc_dpms c).

(** ** A new configuration *)

(** What the allocations give: the three copies, and the ids of the duplicates of
    the mode in the two calls of drm_crtc_helper_set_mode. *)
Record config_env := mk_config_env { save_alloc : bool; dup_new : option Z; dup_old : option Z }.

(** Step a) for one connector: the flags mode_changed and fail. *)
Definition pick_encoder (set : drm_mode_set) (st : bool * bool) (p : Z) : M (mesh A) (bool * bool) :=
  let '(mode_changed, fail) := st in
  k ← connector_at p;
  '(new_encoder, fail) ← (if bool_decide (p ∈ ms_connectors set)
    then e ← hcall (λ a, best_encoder a p); mret (e, fail || (e =? 0))
    else mret (conn_encoder k, fail));
  if negb (new_encoder =? conn_encoder k) then
    when (negb (conn_encoder k =? 0)) (upd_encoder (conn_encoder k) (with_crtc 0));;
    upd_connector p (with_encoder new_encoder);;
    mret (true, fail)
  else mret (mode_changed, fail).

Fixpoint pick_encoders (set : drm_mode_set) (l : list Z) (st : bool * bool) : M (mesh A) (bool * bool) :=
  match l with
  | [] => mret st
  | p :: l => st ← pick_encoder set st p; pick_encoders set l st
  end.

(** The crtcs of the encoders: the flag mode_changed and whether to give up. *)
Fixpoint assign_crtcs (set : drm_mode_set) (l : list Z) (mode_changed : bool) : M (mesh A) (bool * bool) :=
  match l with
  | [] => mret (mode_changed, false)
  | p :: l =>
    k ← connector_at p;
    if conn_encoder k =? 0 then assign_crtcs set l mode_changed else
    e ← encoder_at (conn_encoder k);
    let new_crtc := if bool_decide (p ∈ ms_connectors set) then ms_crtc set
      else if enc_crtc e =? ms_crtc set then 0 else enc_crtc e in
    ok ← (if new_crtc =? 0 then mret true else drm_encoder_crtc_ok (conn_encoder k) new_crtc);
    if negb ok then mret (mode_changed, true) else
    if negb (new_crtc =? enc_crtc e) then
      upd_encoder (conn_encoder k) (with_crtc new_crtc);; assign_crtcs set l true
    else assign_crtcs set l mode_changed
  end.

(** The end of a failure: the objects are what they were in [s0], and the old mode
    is set again if it may have changed. *)
Definition config_fail (s0 : mesh A) (c : Z) (mode_changed : bool) (dup : option Z) (ret : Z) : M (mesh A) Z :=
  for_each (crtc_order s0) (λ p, k ← reads (λ _, crtcs s0 !! p); upd_hcrtc p (λ _, k));;
  for_each (encoder_order s0) (λ p, k ← reads (λ _, encoders s0 !! p); upd_encoder p (λ _, k));;
  for_each (connector_order s0) (λ p, k ← reads (λ _, connectors s0 !! p); upd_connector p (λ _, k));;
  old ← reads (λ _, crtcs s0 !! c);
  when mode_changed (k ← hcrtc_at c; drm_crtc_helper_set_mode c (hc_mode k) (hc_x old) (hc_y old) (hc_fb old) dup;; mret tt);;
  mret ret.

(** With mode_changed: [None] is success. *)
Definition full_mode_set (set : drm_mode_set) (mode : drm_display_mode) (dup : option Z) : M (mesh A) (option Z) :=
  let c := ms_crtc set in
  used ← drm_helper_crtc_in_use c;
  upd_hcrtc c (with_enabled used);;
  failed ← (if used : bool then
     old ← hcrtc_at c;
     upd_hcrtc c (with_fb (ms_fb set));;
     ok ← drm_crtc_helper_set_mode c mode (ms_x set) (ms_y set) (hc_fb old) dup;
     if ok : bool then
       for_each (ms_connectors set) (λ p, drm_helper_connector_dpms p DRM_MODE_DPMS_ON);; mret None
     else upd_hcrtc c (with_fb (hc_fb old));; mret (Some (- EINVAL))
   else mret None);
  match failed with
  | Some ret => mret (Some ret)
  | None => drm_helper_disable_unused_functions;; mret None
  end.

(** With fb_changed only: [None] is success. *)
Definition flip_or_move (set : drm_mode_set) : M (mesh A) (option Z) :=
  let c := ms_crtc set in
  upd_hcrtc c (with_xy (ms_x set) (ms_y set));;
  old ← hcrtc_at c;
  upd_hcrtc c (with_fb (ms_fb set));;
  match crtc_mode_set_base with
  | None => fault
  | Some mode_set_base =>
    ret ← hcall (λ a, mode_set_base a c (ms_x set) (ms_y set) (hc_fb old));
    if negb (ret =? 0) then upd_hcrtc c (with_fb (hc_fb old));; mret (Some ret) else mret None
  end.

(** [format]: the pixel formats of the framebuffers. *)
Definition compare_config (format : Z → option Z) (set : drm_mode_set) (mode : drm_display_mode) (k : helper_crtc) : M (mesh A) (bool * bool) :=
  '(mode_changed, fb_changed) ← (if negb (hc_fb k =? ms_fb set) then
     if hc_fb k =? 0 then mret (true, false) else
     if ms_fb set =? 0 then mret (true, false) else
     f ← reads (λ _, format (ms_fb set)); g ← reads (λ _, format (hc_fb k));
     mret (if negb (f =? g) then (true, false) else (false, true))
   else mret (false, false));
  let fb_changed := fb_changed || negb (ms_x set =? hc_x k) || negb (ms_y set =? hc_y k) in
  mret (mode_changed || negb (drm_mode_equal mode (hc_mode k)), fb_changed).

Definition drm_crtc_helper_set_config (format : Z → option Z) (set : drm_mode_set) (e : config_env) : M (mesh A) Z :=
  let c := ms_crtc set in
  BUG_ON (c =? 0);;
  BUG_ON (match ms_mode set with None => negb (ms_fb set =? 0) | Some _ => false end);;
  BUG_ON (negb (ms_fb set =? 0) && bool_decide (ms_connectors set = []));;
  match ms_mode set with
  | None => drm_crtc_helper_disable c
  | Some mode =>
    if ms_fb set =? 0 then drm_crtc_helper_disable c else
    if negb (save_alloc e) then mret (- ENOMEM) else
    s0 ← get;
    k ← hcrtc_at c;
    '(mode_changed, fb_changed) ← compare_config format set mode k;
    '(mode_changed, fail) ← pick_encoders set (connector_order s0) (mode_changed, false);
    if fail : bool then config_fail s0 c mode_changed (dup_old e) (- EINVAL) else
    '(mode_changed, fail) ← assign_crtcs set (connector_order s0) mode_changed;
    if fail : bool then config_fail s0 c mode_changed (dup_old e) (- EINVAL) else
    let mode_changed := mode_changed || (fb_changed && match crtc_mode_set_base with None => true | Some _ => false end) in
    failed ← (if mode_changed then full_mode_set set mode (dup_new e)
              else if fb_changed then flip_or_move set else mret None);
    match failed with
    | Some ret => config_fail s0 c mode_changed (dup_old e) ret
    | None => mret 0
    end
  end.

(** ** Resume and hot plug *)

(** [dups]: the ids of the duplicates, per crtc. *)
Definition drm_helper_resume_force_mode (dups : Z → option Z) : M (mesh A) unit :=
  m ← get;
  for_each (crtc_order m) (λ c,
    k ← hcrtc_at c;
    when (enabled k) (
      drm_crtc_helper_set_mode c (hc_mode k) (hc_x k) (hc_y k) (hc_fb k) (dups c);;
      d ← drm_helper_choose_crtc_dpms c;
      when (z2b d) (
        for_encoders_of c (λ e,
          when (encoder_has_dpms e) (d ← drm_helper_choose_encoder_dpms e; tell (EncoderDpms e d)));;
        when (crtc_has_dpms c) (d ← drm_helper_choose_crtc_dpms c; tell (CrtcDpms c d)))));;
  drm_helper_disable_unused_functions.

(** One connector: the flags repoll and changed. *)
Definition poll_connector (st : bool * bool) (p : Z) : M (mesh A) (bool * bool) :=
  let '(repoll, changed) := st in
  k ← connector_at p;
  if forced k then mret (repoll, changed) else
  if (polled k =? 0) || (polled k =? DRM_CONNECTOR_POLL_HPD) then mret (repoll, changed) else
  if bool_decide (conn_status k = connector_status_connected) && negb (z2b (Z.land (polled k) DRM_CONNECTOR_POLL_DISCONNECT))
  then mret (true, changed) else
  new ← hcall (λ a, detect a p);
  upd_connector p (with_status new);;
  mret (true, changed || bool_decide (conn_status k ≠ new)).

Fixpoint poll_connectors (l : list Z) (st : bool * bool) : M (mesh A) (bool * bool) :=
  match l with
  | [] => mret st
  | p :: l => st ← poll_connector st p; poll_connectors l st
  end.

(** Whether the timer is to be set again; [poll]: drm_kms_helper_poll. *)
Definition output_poll_execute (poll : bool) : M (mesh A) bool :=
  if negb poll then mret false else
  m ← get;
  '(repoll, changed) ← poll_connectors (connector_order m) (false, false);
  when changed (tell OutputPollChanged);;
  mret repoll.

(** Panels first: list_move_tail to a list of their own, which list_splice puts in
    front of the rest. *)
Definition drm_helper_move_panel_connectors_to_head : M (mesh A) unit :=
  m ← get;
  let is_panel p := match connectors m !! p with Some k => panel k | None => false end in
  modify (set_connector_order (filter (λ p, is_panel p = true) (connector_order m) ++ filter (λ p, is_panel p = false) (connector_order m))).

(** ** The operations as steps *)

Inductive helper_op :=
  | SetConfig (format : Z → option Z) (set : drm_mode_set) (e : config_env)
  | ConnectorDpms (p mode : Z)
  | Resume (dups : Z → option Z)
  | OutputPoll (poll : bool)
  | DisableUnused
  | MovePanels.

Definition run_helper_op (o : helper_op) : M (mesh A) unit :=
  match o with
  | SetConfig format set e => drm_crtc_helper_set_config format set e;; mret tt
  | ConnectorDpms p mode => drm_helper_connector_dpms p mode
  | Resume dups => drm_helper_resume_force_mode dups
  | OutputPoll poll => output_poll_execute poll;; mret tt
  | DisableUnused => drm_helper_disable_unused_functions
  | MovePanels => drm_helper_move_panel_connectors_to_head
  end.
End Helper.
