(* ===== verification/CrtcHelperInv.v ===== *)
(** * The mesh of the crtc helper stays sound

    Per operation of [CrtcHelper]: what it does to the wires, and that it keeps
    the mesh well formed and consistent.  Then the theorems on
    drm_crtc_helper_set_config and its composition with [FrameBuf]. *)

From Stdlib Require Import String.
From stdpp Require Import base option list gmap fin_maps.
From Stdlib Require Import ZArith Lia.
From S2P Require Import Prelude LinuxList Modes FrameBuf CrtcHelper.
#[local] Open Scope Z_scope.

Section HelperInv.
Context {A : Type} `{HelperDriver A, DpmsH, DrmModeH}.
Implicit Types (m : mesh A).

(** ** A well-formed mesh *)

(** The lists hold the objects, and every wire leads to one, also those the driver
    proposes. *)
Record mesh_ok m : Prop := {
  o_crtcs p : p ∈ crtc_order m ↔ is_Some (crtcs m !! p);
  o_encoders p : p ∈ encoder_order m ↔ is_Some (encoders m !! p);
  o_connectors p : p ∈ connector_order m ↔ is_Some (connectors m !! p);
  o_null : crtcs m !! 0 = None ∧ encoders m !! 0 = None;
  o_feed p k : connectors m !! p = Some k → conn_encoder k = 0 ∨ is_Some (encoders m !! conn_encoder k);
  o_drive p k : encoders m !! p = Some k → enc_crtc k = 0 ∨ is_Some (crtcs m !! enc_crtc k);
  o_best a p : (best_encoder a p).1 = 0 ∨ is_Some (encoders m !! (best_encoder a p).1);
}.

(** The same objects on the same lists. *)
Definition shape m m' : Prop :=
  crtc_order m' = crtc_order m ∧ encoder_order m' = encoder_order m ∧ connector_order m' = connector_order m ∧
  (∀ p, is_Some (crtcs m' !! p) ↔ is_Some (crtcs m !! p)) ∧ (∀ p, is_Some (encoders m' !! p) ↔ is_Some (encoders m !! p)) ∧
  (∀ p, is_Some (connectors m' !! p) ↔ is_Some (connectors m !! p)).

Lemma shape_refl m : shape m m.
Proof. done. Qed.
Lemma shape_trans m1 m2 m3 : shape m1 m2 → shape m2 m3 → shape m1 m3.
Proof.
  intros (E1 & E2 & E3 & D1 & D2 & D3) (F1 & F2 & F3 & G1 & G2 & G3). unfold shape. rewrite F1, F2, F3. do 3 (split; [done|]).
  split; [|split]; intros p; [by rewrite G1|by rewrite G2|by rewrite G3].
Qed.

Lemma is_Some_insert {X} (x : gmap Z X) p q k v : x !! p = Some k → is_Some (<[p := v]> x !! q) ↔ is_Some (x !! q).
Proof. intros Hp. destruct (decide (q = p)) as [->|Hq]; [rewrite lookup_insert_eq, Hp; by split; eexists|by rewrite lookup_insert_ne]. Qed.

Lemma shape_ok m m' : mesh_ok m → shape m m' →
  (∀ p k, connectors m' !! p = Some k → conn_encoder k = 0 ∨ is_Some (encoders m !! conn_encoder k)) →
  (∀ p k, encoders m' !! p = Some k → enc_crtc k = 0 ∨ is_Some (crtcs m !! enc_crtc k)) → mesh_ok m'.
Proof.
  intros Hok (E1 & E2 & E3 & D1 & D2 & D3) Hf Hd. split.
  - intros p. rewrite E1, D1. apply (o_crtcs _ Hok).
  - intros p. rewrite E2, D2. apply (o_encoders _ Hok).
  - intros p. rewrite E3, D3. apply (o_connectors _ Hok).
  - destruct (o_null _ Hok) as [Hc He]. split; apply eq_None_not_Some; [rewrite D1, Hc|rewrite D2, He]; by intros [? ?].
  - intros p k Hk. rewrite D2. by apply (Hf p).
  - intros p k Hk. rewrite D1. by apply (Hd p).
  - intros a p. rewrite D2. apply (o_best _ Hok).
Qed.

(** ** Single objects *)

Lemma hcrtc_at_run m p k : crtcs m !! p = Some k → hcrtc_at p m = Some (k, m).
Proof. intros Hp. unfold hcrtc_at, reads. by rewrite Hp. Qed.
Lemma encoder_at_run m p k : encoders m !! p = Some k → encoder_at p m = Some (k, m).
Proof. intros Hp. unfold encoder_at, reads. by rewrite Hp. Qed.
Lemma connector_at_run m p k : connectors m !! p = Some k → connector_at p m = Some (k, m).
Proof. intros Hp. unfold connector_at, reads. by rewrite Hp. Qed.
Lemma upd_hcrtc_run m p k f : crtcs m !! p = Some k → upd_hcrtc p f m = Some (tt, set_crtcs (<[p := f k]> (crtcs m)) m).
Proof. intros Hp. unfold upd_hcrtc. by rewrite (M_bind_Some _ _ _ _ _ (hcrtc_at_run m p k Hp)). Qed.
Lemma upd_encoder_run m p k f : encoders m !! p = Some k → upd_encoder p f m = Some (tt, set_encoders (<[p := f k]> (encoders m)) m).
Proof. intros Hp. unfold upd_encoder. by rewrite (M_bind_Some _ _ _ _ _ (encoder_at_run m p k Hp)). Qed.
Lemma upd_connector_run m p k f : connectors m !! p = Some k → upd_connector p f m = Some (tt, set_connectors (<[p := f k]> (connectors m)) m).
Proof. intros Hp. unfold upd_connector. by rewrite (M_bind_Some _ _ _ _ _ (connector_at_run m p k Hp)). Qed.

Lemma upd_hcrtc_shape m p k k' : crtcs m !! p = Some k → shape m (set_crtcs (<[p := k']> (crtcs m)) m).
Proof. intros Hp. do 3 (split; [done|]). split; [|by split]. intros q. cbn. by eapply is_Some_insert. Qed.
Lemma upd_encoder_shape m p k k' : encoders m !! p = Some k → shape m (set_encoders (<[p := k']> (encoders m)) m).
Proof. intros Hp. do 4 (split; [done|]). split; [|done]. intros q. cbn. by eapply is_Some_insert. Qed.
Lemma upd_connector_shape m p k k' : connectors m !! p = Some k → shape m (set_connectors (<[p := k']> (connectors m)) m).
Proof. intros Hp. do 5 (split; [done|]). intros q. cbn. by eapply is_Some_insert. Qed.

Lemma upd_hcrtc_ok m p k k' : mesh_ok m → crtcs m !! p = Some k → mesh_ok (set_crtcs (<[p := k']> (crtcs m)) m).
Proof. intros Hok Hp. eapply shape_ok; [done|by eapply upd_hcrtc_shape|apply (o_feed _ Hok)|apply (o_drive _ Hok)]. Qed.
Lemma upd_encoder_ok m p k k' : mesh_ok m → encoders m !! p = Some k → enc_crtc k' = 0 ∨ is_Some (crtcs m !! enc_crtc k') →
  mesh_ok (set_encoders (<[p := k']> (encoders m)) m).
Proof.
  intros Hok Hp Hk. eapply shape_ok; [done|by eapply upd_encoder_shape|apply (o_feed _ Hok)|]. intros q x. cbn.
  intros [[_ <-]|[_ Hx]]%lookup_insert_Some; [done|by apply (o_drive _ Hok q)].
Qed.
Lemma upd_connector_ok m p k k' : mesh_ok m → connectors m !! p = Some k → conn_encoder k' = 0 ∨ is_Some (encoders m !! conn_encoder k') →
  mesh_ok (set_connectors (<[p := k']> (connectors m)) m).
Proof.
  intros Hok Hp Hk. eapply shape_ok; [done|by eapply upd_connector_shape| |apply (o_drive _ Hok)]. intros q x. cbn.
  intros [[_ <-]|[_ Hx]]%lookup_insert_Some; [done|by apply (o_feed _ Hok q)].
Qed.
Lemma set_hdrv_ok m a : mesh_ok m → mesh_ok (set_hdrv a m).
Proof. intros Hok. split; apply Hok. Qed.

(** ** Calls of the driver that leave the mesh alone *)

Definition quiet m m' : Prop := ∃ a, m' = set_hdrv a m.
Definition hushed {B} (c : M (mesh A) B) : Prop := ∀ m, mesh_ok m → wp c m (λ _ m', quiet m m').

Lemma quiet_refl m : quiet m m.
Proof. exists (hdrv m). by destruct m. Qed.
Lemma quiet_trans m1 m2 m3 : quiet m1 m2 → quiet m2 m3 → quiet m1 m3.
Proof. intros [a ->] [b ->]. by exists b. Qed.
Lemma quiet_ok m m' : quiet m m' → mesh_ok m → mesh_ok m'.
Proof. intros [a ->]. apply set_hdrv_ok. Qed.
Lemma quiet_eq m m' : quiet m m' → crtcs m' = crtcs m ∧ encoders m' = encoders m ∧ connectors m' = connectors m ∧
  crtc_order m' = crtc_order m ∧ encoder_order m' = encoder_order m ∧ connector_order m' = connector_order m.
Proof. by intros [a ->]. Qed.

Lemma hushed_ret {B} (b : B) : hushed (mret b).
Proof. intros m _. unfold wp, mret, M_ret. apply quiet_refl. Qed.
Lemma hushed_bind {B C} (c : M (mesh A) B) (f : B → M (mesh A) C) : hushed c → (∀ b, hushed (f b)) → hushed (c ≫= f).
Proof.
  intros Hc Hf m Hok. apply wp_bind. eapply wp_mono; [exact (Hc m Hok)|]. intros b m1 Hq1. cbv beta.
  eapply wp_mono; [exact (Hf b m1 (quiet_ok _ _ Hq1 Hok))|]. intros x m2 Hq2. exact (quiet_trans _ _ _ Hq1 Hq2).
Qed.
Lemma hushed_tell cb : hushed (tell cb).
Proof. intros m _. by eexists. Qed.
Lemma hushed_hcall {B} (f : A → B * A) : hushed (hcall f).
Proof. intros m _. unfold wp, hcall. destruct (f (hdrv m)) as [b a]. by exists a. Qed.
Lemma hushed_when (b : bool) c : hushed c → hushed (when b c).
Proof. destruct b; [done|]. intros _. apply hushed_ret. Qed.
Lemma hushed_if {B} (b : bool) (c d : M (mesh A) B) : hushed c → hushed d → hushed (if b then c else d).
Proof. by destruct b. Qed.

(** Loops over a list of objects: the body may rely on the object being there. *)
Lemma hushed_each (l : list Z) body : (∀ p m, p ∈ l → mesh_ok m → wp (body p) m (λ _ m', quiet m m')) → hushed (for_each l body).
Proof.
  intros Hb m Hok. eapply wp_mono; [apply (for_each_inv (λ m', quiet m m') (λ _ _, True))|].
  - intros p m1 Hp Hq1. eapply wp_mono; [exact (Hb p m1 Hp (quiet_ok _ _ Hq1 Hok))|]. intros ? m2 Hq2.
    split; [exact (quiet_trans _ _ _ Hq1 Hq2)|done].
  - apply quiet_refl.
  - by intros _ m' [? _].
Qed.

Lemma hushed_encoder_disable e : hushed (drm_encoder_disable e).
Proof.
  unfold drm_encoder_disable. pose proof (encoder_goes_off e) as He. destruct (encoder_has_disable e); [apply hushed_tell|].
  cbn in He. rewrite He. apply hushed_tell.
Qed.
Lemma hushed_crtc_off c : hushed (crtc_off c).
Proof.
  unfold crtc_off. pose proof (crtc_goes_off c) as Hc. destruct (crtc_has_disable c); [apply hushed_tell|].
  cbn in Hc. rewrite Hc. apply hushed_tell.
Qed.

(** The body of a loop over the encoders. *)
Lemma wp_encoder {B} p m (f : drm_encoder → M (mesh A) B) Q : mesh_ok m → p ∈ encoder_order m →
  (∀ k, encoders m !! p = Some k → wp (f k) m Q) → wp (encoder_at p ≫= f) m Q.
Proof.
  intros Hok Hp Hf. apply (o_encoders _ Hok) in Hp as [k Hk]. apply wp_bind. eapply wp_of; [by apply encoder_at_run|]. by apply Hf.
Qed.
Lemma wp_connector {B} p m (f : drm_connector → M (mesh A) B) Q : mesh_ok m → p ∈ connector_order m →
  (∀ k, connectors m !! p = Some k → wp (f k) m Q) → wp (connector_at p ≫= f) m Q.
Proof.
  intros Hok Hp Hf. apply (o_connectors _ Hok) in Hp as [k Hk]. apply wp_bind. eapply wp_of; [by apply connector_at_run|]. by apply Hf.
Qed.

(** A hushed loop that starts with the list as it is. *)
Lemma hushed_encoders body : (∀ p m, p ∈ encoder_order m → mesh_ok m → wp (body p) m (λ _ m', quiet m m')) →
  hushed (m ← get; for_each (encoder_order m) body).
Proof.
  intros Hb m Hok. apply wp_bind. eapply wp_of; [done|]. cbv beta.
  eapply wp_mono; [apply (for_each_inv (λ m', quiet m m') (λ _ _, True))|].
  - intros p m1 Hp Hq1. eapply wp_mono; [apply (Hb p m1)|].
    + destruct (quiet_eq _ _ Hq1) as (_ & _ & _ & _ & -> & _). done.
    + by apply (quiet_ok _ _ Hq1).
    + intros ? m2 Hq2. split; [exact (quiet_trans _ _ _ Hq1 Hq2)|done].
  - apply quiet_refl.
  - by intros _ m' [? _].
Qed.

Lemma hushed_prepare : hushed drm_crtc_prepare_encoders.
Proof.
  unfold drm_crtc_prepare_encoders. apply hushed_encoders. intros p m Hp Hok. apply wp_encoder; [done|done|]. intros k _.
  enough (hushed (when (enc_crtc k =? 0) (drm_encoder_disable p);;
    m ← get;
    match get_crtc with
    | Some get_crtc => when (negb (enc_crtc k =? get_crtc (hdrv m) p)) (drm_encoder_disable p)
    | None => mret tt
    end)) as Hh by by apply Hh.
  apply hushed_bind; [apply hushed_when, hushed_encoder_disable|]. intros _. apply hushed_bind; [intros x _; apply quiet_refl|].
  intros x. destruct get_crtc; [apply hushed_when, hushed_encoder_disable|apply hushed_ret].
Qed.

Lemma hushed_encoders_of c body : (∀ e, hushed (body e)) → hushed (for_encoders_of c body).
Proof.
  intros Hb. unfold for_encoders_of. apply hushed_encoders. intros p m Hp Hok. apply wp_encoder; [done|done|]. intros k _.
  by apply (hushed_when _ _ (Hb p)).
Qed.

Lemma fixup_encoders_ok c mode l : ∀ adj m, mesh_ok m → (∀ p, p ∈ l → p ∈ encoder_order m) →
  wp (fixup_encoders l c mode adj) m (λ _ m', quiet m m').
Proof.
  induction l as [|p l IH]; intros adj m Hok Hl; cbn [fixup_encoders]; [exact (quiet_refl m)|].
  apply wp_encoder; [done|apply Hl; by left|]. intros k _.
  destruct (enc_crtc k =? c); [|apply IH; [done|intros q Hq; apply Hl; by right]].
  apply wp_bind. eapply wp_mono; [exact (hushed_hcall _ m Hok)|]. intros [ret adj'] m1 Hq1. cbv beta iota. destruct ret; [|exact Hq1].
  eapply wp_mono; [apply (IH adj' m1 (quiet_ok _ _ Hq1 Hok))|].
  - intros q Hq. destruct (quiet_eq _ _ Hq1) as (_ & _ & _ & _ & -> & _). apply Hl. by right.
  - intros ? m2 Hq2. exact (quiet_trans _ _ _ Hq1 Hq2).
Qed.

Lemma hushed_set_mode_run c mode adj x y old_fb : hushed (set_mode_run c mode adj x y old_fb).
Proof.
  intros m Hok. unfold set_mode_run. apply wp_bind. eapply wp_of; [done|]. cbv beta. apply wp_bind.
  eapply wp_mono; [exact (fixup_encoders_ok c mode (encoder_order m) adj m Hok (λ p Hp, Hp))|]. intros [ret adj1] m1 Hq1. cbv beta iota.
  eapply (wp_mono _ _ (λ _ m', quiet m1 m')); [|intros ? m2 Hq2; exact (quiet_trans _ _ _ Hq1 Hq2)].
  apply (quiet_ok _ _ Hq1) in Hok. revert m1 Hq1 Hok.
  enough (hushed (if negb ret then mret (false, adj1) else
  '(ret, adjusted_mode) ← hcall (λ a, crtc_mode_fixup a c mode adj1);
  if negb ret then mret (false, adjusted_mode) else
  for_encoders_of c (λ e, tell (EncoderPrepare e));;
  drm_crtc_prepare_encoders;;
  tell (CrtcPrepare c);;
  '(ret, adjusted_mode) ← hcall (λ a, crtc_mode_set a c mode adjusted_mode x y old_fb);
  if z2b ret then mret (false, adjusted_mode) else
  for_encoders_of c (λ e, tell (EncoderModeSet e mode adjusted_mode));;
  tell (CrtcCommit c);;
  for_encoders_of c (λ e, tell (EncoderCommit e));;
  mret (true, adjusted_mode))) as Hh by (intros m1 _ Hok1; by apply Hh).
  apply hushed_if; [apply hushed_ret|]. apply hushed_bind; [apply hushed_hcall|]. intros [ret2 adj2]. apply hushed_if; [apply hushed_ret|].
  apply hushed_bind; [apply hushed_encoders_of; intros; apply hushed_tell|]. intros _.
  apply hushed_bind; [apply hushed_prepare|]. intros _. apply hushed_bind; [apply hushed_tell|]. intros _.
  apply hushed_bind; [apply hushed_hcall|]. intros [ret3 adj3]. apply hushed_if; [apply hushed_ret|].
  apply hushed_bind; [apply hushed_encoders_of; intros; apply hushed_tell|]. intros _. apply hushed_bind; [apply hushed_tell|]. intros _.
  apply hushed_bind; [apply hushed_encoders_of; intros; apply hushed_tell|]. intros _. apply hushed_ret.
Qed.

(** ** Use *)

(** Whether a connector is fed by [e], and whether such an encoder is driven by [c]. *)
Definition encoder_used m (e : Z) : bool :=
  existsb (λ p, match connectors m !! p with Some k => conn_encoder k =? e | None => false end) (connector_order m).
Definition crtc_used m (c : Z) : bool :=
  existsb (λ p, match encoders m !! p with Some k => (enc_crtc k =? c) && encoder_used m p | None => false end) (encoder_order m).

Lemma any_run l test f m : (∀ p, p ∈ l → test p m = Some (f p, m)) → any l test m = Some (existsb f l, m).
Proof.
  induction l as [|p l IH]; intros Ht; [done|]. cbn [any existsb].
  rewrite (M_bind_Some _ _ _ _ _ (Ht p (list_elem_of_here _ _))). destruct (f p); [done|]. apply IH. intros q Hq. apply Ht. by right.
Qed.

Lemma encoder_in_use_run m e : mesh_ok m → drm_helper_encoder_in_use e m = Some (encoder_used m e, m).
Proof.
  intros Hok. unfold drm_helper_encoder_in_use. rewrite get_bind. apply any_run. intros p Hp.
  apply (o_connectors _ Hok) in Hp as [k Hk]. rewrite (M_bind_Some _ _ _ _ _ (connector_at_run m p k Hk)). by rewrite Hk.
Qed.

Lemma crtc_in_use_run m c : mesh_ok m → drm_helper_crtc_in_use c m = Some (crtc_used m c, m).
Proof.
  intros Hok. unfold drm_helper_crtc_in_use. rewrite get_bind. apply any_run. intros p Hp.
  apply (o_encoders _ Hok) in Hp as [k Hk]. rewrite (M_bind_Some _ _ _ _ _ (encoder_at_run m p k Hk)), Hk.
  destruct (enc_crtc k =? c); [|done]. by rewrite encoder_in_use_run.
Qed.

Lemma encoder_used_spec m e : mesh_ok m → encoder_used m e = true ↔ ∃ p k, connectors m !! p = Some k ∧ conn_encoder k = e.
Proof.
  intros Hok. unfold encoder_used. rewrite existsb_exists. setoid_rewrite <- list_elem_of_In. split.
  - intros (p & _ & Hp). destruct (connectors m !! p) as [k|] eqn:Hk; [|done]. exists p, k. split; [done|]. by apply Z.eqb_eq.
  - intros (p & k & Hk & <-). exists p. split; [apply (o_connectors _ Hok); by eexists|]. rewrite Hk. apply Z.eqb_refl.
Qed.

Lemma crtc_used_spec m c : mesh_ok m →
  crtc_used m c = true ↔ ∃ e k p q, encoders m !! e = Some k ∧ enc_crtc k = c ∧ connectors m !! p = Some q ∧ conn_encoder q = e.
Proof.
  intros Hok. unfold crtc_used. rewrite existsb_exists. setoid_rewrite <- list_elem_of_In. split.
  - intros (e & _ & He). destruct (encoders m !! e) as [k|] eqn:Hk; [|done]. apply andb_true_iff in He as [Hc Hu].
    apply (encoder_used_spec m e Hok) in Hu as (p & q & Hq & Hqe). exists e, k, p, q. split_and!; try done. by apply Z.eqb_eq.
  - intros (e & k & p & q & Hk & <- & Hq & Hqe). exists e. split; [apply (o_encoders _ Hok); by eexists|]. rewrite Hk, Z.eqb_refl. cbn.
    apply encoder_used_spec; [done|]. by exists p, q.
Qed.

(** The wires alone decide. *)
Lemma used_same m m' : connectors m' = connectors m → connector_order m' = connector_order m → ∀ e, encoder_used m' e = encoder_used m e.
Proof. intros Hc Ho e. unfold encoder_used. by rewrite Hc, Ho. Qed.
Lemma crtc_used_same m m' : encoders m' = encoders m → encoder_order m' = encoder_order m → (∀ e, encoder_used m' e = encoder_used m e) →
  ∀ c, crtc_used m' c = crtc_used m c.
Proof.
  intros He Ho Hu c. unfold crtc_used. rewrite He, Ho. clear Ho. induction (encoder_order m) as [|p l IH]; [done|]. cbn. rewrite IH.
  destruct (encoders m !! p); [by rewrite Hu|done].
Qed.

(** ** Switching off what is not used *)

(** Encoders that feed nothing drive nothing; crtcs are enabled exactly if they are
    used, and show nothing else. *)
Definition consistent m : Prop :=
  (∀ e k, encoders m !! e = Some k → enc_crtc k = 0 ∨ encoder_used m e = true) ∧
  (∀ c k, crtcs m !! c = Some k → enabled k = crtc_used m c ∧ (enabled k = false → hc_fb k = 0)).

(** A crtc after an operation that may switch it off; [used]: it is used then. *)
Definition only_off (used : bool) (k k' : helper_crtc) : Prop :=
  hc_x k' = hc_x k ∧ hc_y k' = hc_y k ∧ hc_mode k' = hc_mode k ∧ hwmode k' = hwmode k ∧
  (hc_fb k' = hc_fb k ∨ used = false ∧ hc_fb k' = 0).

(** The connector [p], with something plugged in, is fed by [e], which [c] drives. *)
Definition lit (p e c : Z) m : Prop := ∃ k x, connectors m !! p = Some k ∧ conn_status k ≠ connector_status_disconnected ∧
  conn_encoder k = e ∧ encoders m !! e = Some x ∧ enc_crtc x = c.

Lemma lit_used p e c m : mesh_ok m → lit p e c m → crtc_used m c = true.
Proof. intros Hok (k & x & Hk & _ & He & Hx & Hc). apply crtc_used_spec; [done|]. by exists e, x, p, k. Qed.

(** Wires are only cut. *)
Definition wires_cut m m' : Prop :=
  (∀ p k', connectors m' !! p = Some k' → conn_encoder k' = 0 ∨ ∃ k, connectors m !! p = Some k ∧ conn_encoder k = conn_encoder k') ∧
  (∀ p k', encoders m' !! p = Some k' → enc_crtc k' = 0 ∨ ∃ k, encoders m !! p = Some k ∧ enc_crtc k = enc_crtc k').

Lemma wires_cut_same m m' : connectors m' = connectors m → encoders m' = encoders m → wires_cut m m'.
Proof. intros Hc He. split; intros p k' Hk'; right; exists k'; split; congruence. Qed.
Lemma wires_cut_trans m1 m2 m3 : wires_cut m1 m2 → wires_cut m2 m3 → wires_cut m1 m3.
Proof.
  intros [C1 E1] [C2 E2]. split; intros p k Hk.
  - destruct (C2 p k Hk) as [?|(k2 & Hk2 & Heq)]; [by left|]. destruct (C1 p k2 Hk2) as [?|(k1 & Hk1 & ?)]; [left; lia|right; exists k1; split; [done|lia]].
  - destruct (E2 p k Hk) as [?|(k2 & Hk2 & Heq)]; [by left|]. destruct (E1 p k2 Hk2) as [?|(k1 & Hk1 & ?)]; [left; lia|right; exists k1; split; [done|lia]].
Qed.
Lemma wires_cut_used m m' c : mesh_ok m → mesh_ok m' → wires_cut m m' → c ≠ 0 → crtc_used m' c = true → crtc_used m c = true.
Proof.
  intros Hok Hok' [Hc He] Hc0 (e & k & p & q & Hk & Hkc & Hq & Hqe)%crtc_used_spec; [|done]. apply crtc_used_spec; [done|].
  assert (e ≠ 0) as He0 by (intros ->; destruct (o_null _ Hok') as [_ Hn]; congruence).
  destruct (He e k Hk) as [|(k0 & Hk0 & Hk0c)]; [congruence|]. destruct (Hc p q Hq) as [|(q0 & Hq0 & Hq0e)]; [congruence|].
  exists e, k0, p, q0. split_and!; congruence.
Qed.

Lemma drop_loop_ok m : mesh_ok m →
  wp (for_each (connector_order m) drop_disconnected) m (λ _ m', mesh_ok m' ∧ shape m m' ∧ crtcs m' = crtcs m ∧ wires_cut m m' ∧
    encoders m' = encoders m ∧ ∀ p k, connectors m !! p = Some k → conn_status k ≠ connector_status_disconnected → connectors m' !! p = Some k).
Proof.
  intros Hok. eapply wp_mono; [apply (for_each_inv (λ m', mesh_ok m' ∧ shape m m' ∧ crtcs m' = crtcs m ∧ wires_cut m m' ∧
    encoders m' = encoders m ∧ ∀ p k, connectors m !! p = Some k → conn_status k ≠ connector_status_disconnected → connectors m' !! p = Some k) (λ _ _, True))|].
  - intros p m1 Hp (Hok1 & Hsh & Hc & Hw & He & Hkeep). unfold drop_disconnected. apply wp_connector; [done|by destruct Hsh as (_ & _ & -> & _)|].
    intros k Hk. destruct (conn_encoder k =? 0); [done|]. case_bool_decide as Hst; cbn [when]; [|done].
    eapply wp_of; [by apply upd_connector_run|]. split; [|done].
    split; [apply (upd_connector_ok m1 p k _ Hok1 Hk); by left|]. split; [eapply shape_trans; [done|]; by eapply upd_connector_shape|].
    split; [done|]. split; [|split; [done|]].
    + eapply wires_cut_trans; [exact Hw|]. split; cbn; [|intros q x Hx; right; by exists x].
      intros q x [[<- <-]|[_ Hx]]%lookup_insert_Some; [by left|right; by exists x].
    + intros q x Hx Hs. cbn. specialize (Hkeep q x Hx Hs). rewrite lookup_insert_ne; [done|]. intros ->. congruence.
  - do 3 (split; [done|]). split; [by apply wires_cut_same|done].
  - by intros ? m' [? _].
Qed.

Lemma encoders_loop_ok m : mesh_ok m →
  wp (for_each (encoder_order m) disable_unused_encoder) m (λ _ m', mesh_ok m' ∧ shape m m' ∧ crtcs m' = crtcs m ∧ connectors m' = connectors m ∧
    wires_cut m m' ∧ (∀ e k, encoders m !! e = Some k → encoder_used m e = true → encoders m' !! e = Some k) ∧
    ∀ e k, encoders m' !! e = Some k → enc_crtc k = 0 ∨ encoder_used m e = true).
Proof.
  intros Hok. set (J := λ m', mesh_ok m' ∧ shape m m' ∧ crtcs m' = crtcs m ∧ connectors m' = connectors m ∧ wires_cut m m' ∧
    ∀ e k, encoders m !! e = Some k → encoder_used m e = true → encoders m' !! e = Some k).
  eapply wp_mono; [apply (for_each_inv J (λ e m', ∀ k, encoders m' !! e = Some k → enc_crtc k = 0 ∨ encoder_used m e = true))|].
  - intros p m1 Hp (Hok1 & Hsh & Hc & Hk & Hw & Hkeep). unfold disable_unused_encoder. apply wp_bind.
    eapply wp_of; [by apply encoder_in_use_run|]. cbv beta.
    assert (∀ e, encoder_used m1 e = encoder_used m e) as Hu by (apply used_same; [done|by destruct Hsh as (_ & _ & -> & _)]).
    rewrite Hu. destruct (encoder_used m p) eqn:Hup; cbn [negb when].
    { unfold wp, mret, M_ret. split; [done|]. split; [by right|done]. }
    apply wp_bind. eapply wp_mono; [exact (hushed_encoder_disable p m1 Hok1)|]. intros ? m2 [a ->]. cbv beta.
    assert (p ∈ encoder_order m1) as Hp1 by (by destruct Hsh as (_ & -> & _)). apply (o_encoders _ Hok1) in Hp1 as [k Hpk].
    eapply wp_of; [apply (upd_encoder_run (set_hdrv a m1) p k _ Hpk)|]. pose proof (set_hdrv_ok m1 a Hok1) as Hok2.
    split; [split; [|split; [|split; [done|split; [done|split]]]]|split].
    + apply (upd_encoder_ok _ p k _ Hok2 Hpk). by left.
    + eapply shape_trans; [exact Hsh|]. exact (upd_encoder_shape (set_hdrv a m1) p k (with_crtc 0 k) Hpk).
    + eapply wires_cut_trans; [exact Hw|]. split; cbn; [intros q x Hx; right; by exists x|].
      intros q x [[<- <-]|[_ Hx]]%lookup_insert_Some; [by left|right; by exists x].
    + intros e x Hx Hue. cbn. rewrite lookup_insert_ne by congruence. by apply Hkeep.
    + intros k'. cbn. rewrite lookup_insert_eq. intros [= <-]. by left.
    + intros q Hq k'. cbn. destruct (decide (q = p)) as [->|]; [rewrite lookup_insert_eq; intros [= <-]; by left|rewrite lookup_insert_ne by done; apply Hq].
  - do 4 (split; [done|]). split; [by apply wires_cut_same|done].
  - intros ? m' ((Hok' & Hsh & Hc & Hk & Hw & Hkeep) & Hall & _). do 6 (split; [done|]). intros e k He. apply (Hall e); [|done].
    destruct Hsh as (_ & <- & _). apply (o_encoders _ Hok'). by exists k.
Qed.

Lemma crtcs_loop_ok m : mesh_ok m →
  wp (for_each (crtc_order m) disable_unused_crtc) m (λ _ m', mesh_ok m' ∧ shape m m' ∧ encoders m' = encoders m ∧ connectors m' = connectors m ∧
    (∀ c k', crtcs m' !! c = Some k' → ∃ k, crtcs m !! c = Some k ∧ only_off (crtc_used m c) k k') ∧
    ∀ c k, crtcs m' !! c = Some k → enabled k = crtc_used m c ∧ (enabled k = false → hc_fb k = 0)).
Proof.
  intros Hok. set (J := λ m', mesh_ok m' ∧ shape m m' ∧ encoders m' = encoders m ∧ connectors m' = connectors m ∧
    (∀ c k', crtcs m' !! c = Some k' → ∃ k, crtcs m !! c = Some k ∧ only_off (crtc_used m c) k k')).
  eapply wp_mono; [apply (for_each_inv J (λ c m', ∀ k, crtcs m' !! c = Some k → enabled k = crtc_used m c ∧ (enabled k = false → hc_fb k = 0)))|].
  - intros p m1 Hp (Hok1 & Hsh & He & Hk & Hoff). unfold disable_unused_crtc. apply wp_bind.
    eapply wp_of; [by apply crtc_in_use_run|]. cbv beta.
    assert (crtc_used m1 p = crtc_used m p) as Hu.
    { destruct Hsh as (_ & E2 & E3 & _). apply crtc_used_same; [done|done|]. by apply used_same. }
    rewrite Hu. assert (p ∈ crtc_order m1) as Hp1 by (by destruct Hsh as (-> & _)). apply (o_crtcs _ Hok1) in Hp1 as [k Hpk].
    apply wp_bind. eapply wp_of; [by apply upd_hcrtc_run|]. cbv beta. set (k1 := with_enabled (crtc_used m p) k).
    set (m2 := set_crtcs (<[p := k1]> (crtcs m1)) m1). assert (mesh_ok m2) as Hok2 by (by eapply upd_hcrtc_ok).
    destruct (Hoff p k Hpk) as (k0 & Hk0 & Hx & Hy & Hm & Hhw & Hfb).
    assert (∀ k', only_off (crtc_used m p) k k' → ∀ a, let m3 := set_hdrv a (set_crtcs (<[p := k']> (crtcs m1)) m1) in
      enabled k' = crtc_used m p ∧ (enabled k' = false → hc_fb k' = 0) → J m3 ∧
      (∀ x, crtcs m3 !! p = Some x → enabled x = crtc_used m p ∧ (enabled x = false → hc_fb x = 0)) ∧
      ∀ q, (∀ x, crtcs m1 !! q = Some x → enabled x = crtc_used m q ∧ (enabled x = false → hc_fb x = 0)) →
        ∀ x, crtcs m3 !! q = Some x → enabled x = crtc_used m q ∧ (enabled x = false → hc_fb x = 0)) as Hend.
    { intros k' (Hx' & Hy' & Hm' & Hhw' & Hfb') a m3 Hk'. split; [split; [|split; [|split; [done|split; [done|]]]]|split].
      - apply set_hdrv_ok. by eapply upd_hcrtc_ok.
      - eapply shape_trans; [exact Hsh|]. exact (upd_hcrtc_shape m1 p k k' Hpk).
      - intros c x. cbn. intros [[<- <-]|[_ Hcx]]%lookup_insert_Some; [|by apply Hoff]. exists k0. split; [done|].
        unfold only_off. rewrite Hx', Hy', Hm', Hhw'. do 4 (split; [done|]). destruct Hfb' as [->|]; [done|by right].
      - intros x. cbn. rewrite lookup_insert_eq. by intros [= <-].
      - intros q Hq x. cbn. intros [[<- <-]|[_ Hcx]]%lookup_insert_Some; [done|by apply Hq]. }
    destruct (crtc_used m p) eqn:Hup; cbn [negb when].
    + unfold wp, mret, M_ret. assert (enabled k1 = true ∧ (enabled k1 = false → hc_fb k1 = 0)) as Hk1 by (by split).
      exact (Hend k1 ltac:(by split_and!; [..|left]) (hdrv m1) Hk1).
    + apply wp_bind. eapply wp_mono; [exact (hushed_crtc_off p m2 Hok2)|]. intros ? m3 [a ->]. cbv beta.
      eapply wp_of; [apply (upd_hcrtc_run (set_hdrv a m2) p k1); apply lookup_insert_eq|].
      specialize (Hend (with_fb 0 k1) ltac:(by split_and!; [..|right]) a (conj eq_refl (λ _, eq_refl))).
      assert (set_crtcs (<[p := with_fb 0 k1]> (crtcs (set_hdrv a m2))) (set_hdrv a m2) = set_hdrv a (set_crtcs (<[p := with_fb 0 k1]> (crtcs m1)) m1)) as ->;
        [|exact Hend]. unfold m2, set_crtcs, set_hdrv. cbn. by rewrite insert_insert_eq.
  - split; [done|]. split; [done|]. split; [done|]. split; [done|]. intros c k Hk. exists k. split; [done|]. by split_and!; [..|left].
  - intros ? m' ((Hok' & Hsh & He & Hk & Hoff) & Hall & _). do 4 (split; [done|]). split; [done|]. intros c k Hc. apply (Hall c); [|done].
    destruct Hsh as (<- & _). apply (o_crtcs _ Hok'). by exists k.
Qed.

Lemma disable_unused_ok m : mesh_ok m →
  wp drm_helper_disable_unused_functions m (λ _ m', mesh_ok m' ∧ shape m m' ∧ consistent m' ∧ wires_cut m m' ∧
    (∀ p e c, lit p e c m → lit p e c m') ∧
    ∀ c k', crtcs m' !! c = Some k' → ∃ k, crtcs m !! c = Some k ∧ only_off (crtc_used m' c) k k').
Proof.
  intros Hok. unfold drm_helper_disable_unused_functions. apply wp_bind. eapply wp_of; [done|]. cbv beta. apply wp_bind.
  eapply wp_mono; [exact (drop_loop_ok m Hok)|]. intros ? m1 (Hok1 & Hsh1 & Hc1 & Hw1 & He1 & Hkeep1). cbv beta. apply wp_bind.
  assert (encoder_order m1 = encoder_order m ∧ crtc_order m1 = crtc_order m) as [Eo1 Co1] by (by destruct Hsh1 as (-> & -> & _)). rewrite <- Eo1, <- Co1.
  eapply wp_mono; [exact (encoders_loop_ok m1 Hok1)|]. intros ? m2 (Hok2 & Hsh2 & Hc2 & Hk2 & Hw2 & Hkeep2 & Hu2). cbv beta.
  assert (crtc_order m2 = crtc_order m1) as Co2 by (by destruct Hsh2 as (-> & _)). rewrite <- Co2.
  eapply wp_mono; [exact (crtcs_loop_ok m2 Hok2)|]. intros ? m3 (Hok3 & Hsh3 & He3 & Hk3 & Hoff & Hen).
  assert (shape m1 m3) as Hsh13 by (by eapply shape_trans). split; [done|]. split; [by eapply shape_trans|].
  assert (∀ e, encoder_used m3 e = encoder_used m1 e) as Heu.
  { apply used_same; [by rewrite Hk3, Hk2|by destruct Hsh13 as (_ & _ & -> & _)]. }
  assert (∀ e, encoder_used m3 e = encoder_used m2 e) as Heu2 by (apply used_same; [done|by destruct Hsh3 as (_ & _ & -> & _)]).
  assert (∀ c, crtc_used m3 c = crtc_used m2 c) as Hcu by (apply crtc_used_same; [done|by destruct Hsh3 as (_ & -> & _)|done]).
  split; [split|split; [|split]].
  - intros e k. rewrite He3, Heu. apply Hu2.
  - intros c k Hk. rewrite Hcu. by apply Hen.
  - eapply wires_cut_trans; [exact Hw1|]. eapply wires_cut_trans; [exact Hw2|]. by apply wires_cut_same.
  - intros p e c (k & x & Hk & Hs & Hke & Hx & Hxc). apply (Hkeep1 p k Hk) in Hs as Hk1. exists k, x. rewrite Hk3, Hk2, He3. do 3 (split; [done|]).
    split; [|done]. apply Hkeep2; [by rewrite He1|]. apply encoder_used_spec; [done|]. by exists p, k.
  - intros c k' Hk'. rewrite Hcu, <- Hc1, <- Hc2. by apply Hoff.
Qed.

(** ** Setting a mode *)

(** The state with [k] as the crtc [c], and another state of the driver. *)
Definition with_crtc_at (c : Z) (k : helper_crtc) (a : A) m : mesh A := set_hdrv a (set_crtcs (<[c := k]> (crtcs m)) m).

Lemma with_crtc_at_ok m c k k' a : mesh_ok m → crtcs m !! c = Some k → mesh_ok (with_crtc_at c k' a m) ∧ shape m (with_crtc_at c k' a m).
Proof. intros Hok Hc. split; [by eapply set_hdrv_ok, upd_hcrtc_ok|exact (upd_hcrtc_shape m c k k' Hc)]. Qed.
Lemma with_crtc_at_lookup c k a m : crtcs (with_crtc_at c k a m) !! c = Some k.
Proof. apply lookup_insert_eq. Qed.
Lemma with_crtc_at_same c k m : crtcs m !! c = Some k → with_crtc_at c k (hdrv m) m = m.
Proof. intros Hc. unfold with_crtc_at, set_hdrv, set_crtcs. cbn. rewrite insert_id by done. by destruct m. Qed.
Lemma upd_hcrtc_again m c k f a : upd_hcrtc c f (with_crtc_at c k a m) = Some (tt, with_crtc_at c (f k) a m).
Proof.
  rewrite (upd_hcrtc_run _ c k f (with_crtc_at_lookup c k a m)). unfold with_crtc_at, set_hdrv, set_crtcs. cbn. by rewrite insert_insert_eq.
Qed.

Lemma set_mode_ok m c k mode x y old_fb dup : mesh_ok m → crtcs m !! c = Some k →
  wp (drm_crtc_helper_set_mode c mode x y old_fb dup) m (λ ret m', ∃ a k', m' = with_crtc_at c k' a m ∧
    enabled k' = crtc_used m c ∧ hc_fb k' = hc_fb k ∧
    (k' = with_enabled (crtc_used m c) k ∨
     ret = true ∧ crtc_used m c = true ∧ hc_x k' = x ∧ hc_y k' = y ∧ hc_mode k' = mode) ∧
    (ret = true → crtc_used m c = true → hc_x k' = x ∧ hc_y k' = y ∧ hc_mode k' = mode)).
Proof.
  intros Hok Hc. unfold drm_crtc_helper_set_mode. apply wp_bind. eapply wp_of; [by apply crtc_in_use_run|]. cbv beta. apply wp_bind.
  rewrite <- (with_crtc_at_same c k m Hc) at 2. eapply wp_of; [apply upd_hcrtc_again|]. cbv beta. set (k1 := with_enabled (crtc_used m c) k).
  destruct (with_crtc_at_ok m c k k1 (hdrv m) Hok Hc) as [Hok1 _].
  destruct (crtc_used m c) eqn:Hu; cbn [negb]; cycle 1.
  { exists (hdrv m), k1. split; [done|]. split; [done|]. split; [done|]. split; [by left|discriminate]. }
  destruct (drm_mode_duplicate dup mode) as [adj|]; cycle 1.
  { exists (hdrv m), k1. split; [done|]. split; [done|]. split; [done|]. split; [by left|discriminate]. }
  apply wp_bind. eapply wp_of; [apply hcrtc_at_run, with_crtc_at_lookup|]. cbv beta. apply wp_bind.
  eapply wp_of; [apply upd_hcrtc_again|]. cbv beta. set (k2 := with_xy x y (with_mode mode k1)).
  destruct (with_crtc_at_ok m c k k2 (hdrv m) Hok Hc) as [Hok2 _].
  apply wp_bind. eapply wp_mono; [exact (hushed_set_mode_run c mode adj x y old_fb _ Hok2)|]. intros [ret adj'] m2 [a ->]. cbv beta iota.
  change (set_hdrv a (with_crtc_at c k2 (hdrv m) m)) with (with_crtc_at c k2 a m). destruct ret.
  - apply wp_bind. eapply wp_of; [apply upd_hcrtc_again|]. cbv beta. exists a, (with_hwmode adj' k2). split; [done|]. split; [done|]. split; [done|].
    split; [by right|done].
  - apply wp_bind. eapply wp_of; [apply upd_hcrtc_again|]. cbv beta. exists a. eexists. split; [done|]. split; [done|]. split; [done|].
    split; [left|discriminate]. unfold k2, k1. by destruct k.
Qed.

(** ** Power management *)

(** The wires are the same; power levels of connectors may differ. *)
Definition same_wires m m' : Prop :=
  crtcs m' = crtcs m ∧ encoders m' = encoders m ∧ crtc_order m' = crtc_order m ∧ encoder_order m' = encoder_order m ∧
  connector_order m' = connector_order m ∧ ∀ p, with_dpms 0 <$> connectors m' !! p = with_dpms 0 <$> connectors m !! p.

Lemma same_wires_refl m : same_wires m m.
Proof. done. Qed.
Lemma same_wires_trans m1 m2 m3 : same_wires m1 m2 → same_wires m2 m3 → same_wires m1 m3.
Proof. intros (? & ? & ? & ? & ? & E1) (? & ? & ? & ? & ? & E2). unfold same_wires. split_and!; [congruence..|]. intros p. by rewrite E2. Qed.
Lemma quiet_same_wires m m' : quiet m m' → same_wires m m'.
Proof. by intros [a ->]. Qed.

Lemma same_wires_at m m' p k' : same_wires m m' → connectors m' !! p = Some k' →
  ∃ k, connectors m !! p = Some k ∧ conn_encoder k = conn_encoder k' ∧ conn_status k = conn_status k'.
Proof.
  intros (_ & _ & _ & _ & _ & E) Hk'. specialize (E p). rewrite Hk' in E. destruct (connectors m !! p) as [k|]; [|done].
  exists k. split; [done|]. injection E as -> -> _ _ _. done.
Qed.

Lemma same_wires_ok m m' : mesh_ok m → same_wires m m' → mesh_ok m' ∧ shape m m' ∧ (∀ c, crtc_used m' c = crtc_used m c).
Proof.
  intros Hok Hw. pose proof Hw as (Ec & Ee & O1 & O2 & O3 & E).
  assert (shape m m') as Hsh.
  { do 3 (split; [done|]). split; [by rewrite Ec|]. split; [by rewrite Ee|]. intros p. rewrite <- (fmap_is_Some (with_dpms 0) (connectors m' !! p)), E. apply fmap_is_Some. }
  assert (mesh_ok m') as Hok'.
  { eapply shape_ok; [done|done| |].
    - intros p k' Hk'. destruct (same_wires_at m m' p k' Hw Hk') as (k & Hk & <- & _). by apply (o_feed _ Hok p).
    - intros p k. rewrite Ee. apply (o_drive _ Hok). }
  split; [done|]. split; [done|]. apply crtc_used_same; [done|done|]. intros e. unfold encoder_used. rewrite O3. clear -E.
  induction (connector_order m) as [|p l IH]; [done|]. cbn. rewrite IH. specialize (E p).
  destruct (connectors m' !! p) as [k'|], (connectors m !! p) as [k|]; try done. by injection E as -> _ _ _ _.
Qed.

Lemma same_wires_lit m m' p e c : same_wires m m' → lit p e c m → lit p e c m'.
Proof.
  intros (_ & Ee & _ & _ & _ & E) (k & x & Hk & Hs & He & Hx & Hc). specialize (E p). rewrite Hk in E.
  destruct (connectors m' !! p) as [k'|] eqn:Hk'; [|done]. injection E as E1 E2 _ _ _. exists k', x. rewrite Ee. split_and!; congruence.
Qed.

Lemma choose_dpms_ok l driven : ∀ d m, mesh_ok m → (∀ p, p ∈ l → p ∈ connector_order m) →
  (∀ p k, connectors m !! p = Some k → ∃ b, driven k m = Some (b, m)) → wp (choose_dpms l driven d) m (λ _ m', m' = m).
Proof.
  induction l as [|p l IH]; intros d m Hok Hl Hd; cbn [choose_dpms]; [exact eq_refl|].
  apply wp_connector; [done|apply Hl; by left|]. intros k Hk. destruct (Hd p k Hk) as [b Hb]. apply wp_bind. eapply wp_of; [exact Hb|]. cbv beta.
  apply IH; [done|intros q Hq; apply Hl; by right|done].
Qed.

Lemma hushed_choose_encoder e : hushed (drm_helper_choose_encoder_dpms e).
Proof.
  intros m Hok. unfold drm_helper_choose_encoder_dpms. apply wp_bind. eapply wp_of; [done|]. cbv beta.
  eapply wp_mono; [apply choose_dpms_ok; [done|done|by eexists]|]. intros ? m' ->. apply quiet_refl.
Qed.
Lemma hushed_choose_crtc c : hushed (drm_helper_choose_crtc_dpms c).
Proof.
  intros m Hok. unfold drm_helper_choose_crtc_dpms. apply wp_bind. eapply wp_of; [done|]. cbv beta.
  eapply wp_mono; [apply choose_dpms_ok; [done|done|]|intros ? m' ->; apply quiet_refl].
  intros p k Hk. destruct (Z.eqb_spec (conn_encoder k) 0) as [|Hn]; [by eexists|].
  destruct (o_feed _ Hok p k Hk) as [|[e He]]; [done|]. eexists. by rewrite (M_bind_Some _ _ _ _ _ (encoder_at_run m _ e He)).
Qed.
Lemma hushed_crtc_dpms c : hushed (crtc_dpms c).
Proof. apply hushed_when, hushed_bind; [apply hushed_choose_crtc|]. intros d. apply hushed_tell. Qed.
Lemma hushed_encoder_dpms e : hushed (encoder_dpms e).
Proof. apply hushed_when, hushed_bind; [apply hushed_choose_encoder|]. intros d. apply hushed_tell. Qed.

Lemma connector_dpms_ok m p mode : mesh_ok m → p ∈ connector_order m →
  wp (drm_helper_connector_dpms p mode) m (λ _ m', same_wires m m').
Proof.
  intros Hok Hp. unfold drm_helper_connector_dpms. apply wp_connector; [done|done|]. intros k Hk. apply wp_bind.
  assert (∃ c, (if conn_encoder k =? 0 then mret 0 else e ← encoder_at (conn_encoder k); mret (enc_crtc e)) m = Some (c, m)) as [c Hc].
  { destruct (Z.eqb_spec (conn_encoder k) 0) as [|Hn]; [by eexists|]. destruct (o_feed _ Hok p k Hk) as [|[e He]]; [done|].
    eexists. by rewrite (M_bind_Some _ _ _ _ _ (encoder_at_run m _ e He)). }
  eapply wp_of; [exact Hc|]. cbv beta. destruct (mode =? dpms k); [exact (same_wires_refl m)|]. apply wp_bind.
  eapply wp_of; [by apply upd_connector_run|]. cbv beta. set (m1 := set_connectors _ m).
  assert (same_wires m m1) as Hw1.
  { do 5 (split; [done|]). intros q. cbn. destruct (decide (q = p)) as [->|]; [by rewrite lookup_insert_eq, Hk|by rewrite lookup_insert_ne]. }
  destruct (same_wires_ok m m1 Hok Hw1) as (Hok1 & _ & _).
  enough (hushed (when (mode <? dpms k) (crtc_dpms c;; encoder_dpms (conn_encoder k));;
    when (dpms k <? mode) (encoder_dpms (conn_encoder k);; crtc_dpms c))) as Hh.
  { eapply wp_mono; [exact (Hh m1 Hok1)|]. intros ? m2 Hq. eapply same_wires_trans; [exact Hw1|]. by apply quiet_same_wires. }
  apply hushed_bind; [apply hushed_when, hushed_bind; [apply hushed_crtc_dpms|intros _; apply hushed_encoder_dpms]|]. intros _.
  apply hushed_when, hushed_bind; [apply hushed_encoder_dpms|intros _; apply hushed_crtc_dpms].
Qed.

(** ** The two passes of a configuration *)

(** The crtcs are untouched; without [changed] so is everything. *)
Definition rewired (changed changed' : bool) m m' : Prop :=
  mesh_ok m' ∧ shape m m' ∧ crtcs m' = crtcs m ∧ (changed = true → changed' = true) ∧ (changed' = false → quiet m m').

Lemma rewired_refl b m : mesh_ok m → rewired b b m m.
Proof. intros Hok. do 4 (split; [done|]). intros _. apply quiet_refl. Qed.
Lemma rewired_trans b1 b2 b3 m1 m2 m3 : rewired b1 b2 m1 m2 → rewired b2 b3 m2 m3 → rewired b1 b3 m1 m3.
Proof.
  intros (_ & S1 & C1 & B1 & Q1) (Ok & S2 & C2 & B2 & Q2). split; [done|]. split; [by eapply shape_trans|]. split; [congruence|].
  split; [auto|]. intros ->. destruct b2; [by specialize (B2 eq_refl)|]. exact (quiet_trans _ _ _ (Q1 eq_refl) (Q2 eq_refl)).
Qed.
Lemma rewired_quiet b m m' : mesh_ok m → quiet m m' → rewired b b m m'.
Proof. intros Hok Hq. split; [by eapply quiet_ok|]. destruct Hq as [a ->]. do 3 (split; [done|]). intros _. by exists a. Qed.
Lemma rewired_true b m m' : mesh_ok m' → shape m m' → crtcs m' = crtcs m → rewired b true m m'.
Proof. intros Hok Hs Hc. do 3 (split; [done|]). split; [done|discriminate]. Qed.

Lemma pick_encoder_ok set ch fl p m : mesh_ok m → p ∈ connector_order m →
  wp (pick_encoder set (ch, fl) p) m (λ st m', rewired ch st.1 m m').
Proof.
  intros Hok Hp. unfold pick_encoder. apply wp_connector; [done|done|]. intros k Hk. apply wp_bind.
  eapply (wp_mono _ _ (λ x m', quiet m m' ∧ (x.1 = 0 ∨ is_Some (encoders m !! x.1)))).
  - case_bool_decide.
    + apply wp_bind. unfold hcall, wp at 1. pose proof (o_best _ Hok (hdrv m) p) as Hb. destruct (best_encoder (hdrv m) p) as [e a].
      split; [by exists a|exact Hb].
    + split; [apply quiet_refl|]. by apply (o_feed _ Hok p).
  - intros [e fl'] m1 [Hq He]. cbv beta iota. pose proof (quiet_ok _ _ Hq Hok) as Hok1. destruct Hq as [a ->]. cbn [fst] in He.
    destruct (Z.eqb_spec e (conn_encoder k)) as [Hz|Hz]; cbn [negb].
    { apply (rewired_quiet ch m (set_hdrv a m) Hok). by exists a. }
    apply wp_bind. eapply (wp_mono _ _ (λ _ m', rewired ch true m m' ∧ connectors m' = connectors m)).
    + destruct (Z.eqb_spec (conn_encoder k) 0) as [Hc|Hc]; cbn [negb when].
      { split; [by apply rewired_true|done]. }
      destruct (o_feed _ Hok p k Hk) as [|[x Hx]]; [done|]. eapply wp_of; [apply (upd_encoder_run (set_hdrv a m) _ x); exact Hx|].
      split; [|done]. apply rewired_true; [apply (upd_encoder_ok _ _ x); [done|done|by left]|exact (upd_encoder_shape (set_hdrv a m) _ x _ Hx)|done].
    + intros ? m2 [Hr2 Hc2]. cbv beta. pose proof Hr2 as (Hok2 & Hsh2 & Hcr2 & _ & _). apply wp_bind.
      eapply wp_of; [apply (upd_connector_run m2 p k); by rewrite Hc2|]. cbv beta. unfold wp, mret, M_ret. cbn [fst].
      assert (connectors m2 !! p = Some k) as Hk2 by (by rewrite Hc2).
      apply rewired_true; [apply (upd_connector_ok m2 p k); [done|done|]| |done].
      * cbn [conn_encoder with_encoder]. destruct He as [->|He]; [by left|right]. by apply Hsh2.
      * eapply shape_trans; [exact Hsh2|]. by eapply upd_connector_shape.
Qed.

Lemma pick_encoders_ok set l : ∀ ch fl m, mesh_ok m → (∀ p, p ∈ l → p ∈ connector_order m) →
  wp (pick_encoders set l (ch, fl)) m (λ st m', rewired ch st.1 m m').
Proof.
  induction l as [|p l IH]; intros ch fl m Hok Hl; cbn [pick_encoders]; [exact (rewired_refl ch m Hok)|]. apply wp_bind.
  eapply wp_mono; [apply (pick_encoder_ok set ch fl p m Hok), Hl; by left|]. intros [ch1 fl1] m1 Hr1. cbv beta. cbn [fst] in Hr1.
  pose proof Hr1 as (Hok1 & (_ & _ & E3 & _) & _).
  eapply wp_mono; [apply (IH ch1 fl1 m1 Hok1)|].
  - intros q Hq. rewrite E3. apply Hl. by right.
  - intros st m2 Hr2. by eapply rewired_trans.
Qed.

Lemma encoder_crtc_ok_run m e c : mesh_ok m → is_Some (encoders m !! e) → ∃ b, drm_encoder_crtc_ok e c m = Some (b, m).
Proof.
  intros Hok [k Hk]. unfold drm_encoder_crtc_ok. rewrite (M_bind_Some _ _ _ _ _ (encoder_at_run m e k Hk)), get_bind. by eexists.
Qed.

Lemma assign_crtcs_ok set l : ∀ ch m, mesh_ok m → is_Some (crtcs m !! ms_crtc set) → (∀ p, p ∈ l → p ∈ connector_order m) →
  wp (assign_crtcs set l ch) m (λ st m', rewired ch st.1 m m').
Proof.
  induction l as [|p l IH]; intros ch m Hok Hc Hl; cbn [assign_crtcs]; [exact (rewired_refl ch m Hok)|].
  assert (∀ q, q ∈ l → q ∈ connector_order m) as Hl' by (intros q Hq; apply Hl; by right).
  apply wp_connector; [done|apply Hl; by left|]. intros k Hk. destruct (Z.eqb_spec (conn_encoder k) 0) as [Hz|Hz]; [by apply IH|].
  destruct (o_feed _ Hok p k Hk) as [|[e He]]; [done|]. apply wp_bind. eapply wp_of; [by apply encoder_at_run|]. cbv beta zeta.
  set (new := if bool_decide (p ∈ ms_connectors set) then ms_crtc set else if enc_crtc e =? ms_crtc set then 0 else enc_crtc e).
  assert (new = 0 ∨ is_Some (crtcs m !! new)) as Hnew.
  { unfold new. case_bool_decide; [by right|]. destruct (enc_crtc e =? ms_crtc set); [by left|]. by apply (o_drive _ Hok (conn_encoder k)). }
  clearbody new. apply wp_bind.
  assert (∃ b, (if new =? 0 then mret true else drm_encoder_crtc_ok (conn_encoder k) new) m = Some (b, m)) as [ok Hrun].
  { destruct (new =? 0); [by eexists|]. apply encoder_crtc_ok_run; [done|by eexists]. }
  eapply wp_of; [exact Hrun|]. cbv beta. destruct ok; cbn [negb]; [|exact (rewired_refl ch m Hok)].
  destruct (new =? enc_crtc e); cbn [negb]; [by apply IH|]. apply wp_bind. eapply wp_of; [by apply upd_encoder_run|]. cbv beta.
  set (m1 := set_encoders _ m). assert (rewired ch true m m1) as Hr1.
  { apply rewired_true; [by apply (upd_encoder_ok m _ e)|by eapply upd_encoder_shape|done]. }
  pose proof Hr1 as (Hok1 & _). eapply wp_mono; [apply (IH true m1 Hok1); [exact Hc|exact Hl']|]. intros st m2 Hr2. by eapply rewired_trans.
Qed.

(** What the two passes connect, when the driver always proposes the encoder [b p]
    for the connector [p]. *)
Lemma pick_encoder_wires set (b : Z → Z) ch fl p m : (∀ a q, (best_encoder a q).1 = b q) → mesh_ok m → p ∈ connector_order m →
  wp (pick_encoder set (ch, fl) p) m (λ st m', (fl = true → st.2 = true) ∧ (st.2 = false → p ∈ ms_connectors set → b p ≠ 0) ∧
    ∀ q k', connectors m' !! q = Some k' → ∃ k, connectors m !! q = Some k ∧ conn_status k' = conn_status k ∧
      conn_encoder k' = if bool_decide (q = p ∧ q ∈ ms_connectors set) then b q else conn_encoder k).
Proof.
  intros Hb Hok Hp. unfold pick_encoder. apply wp_connector; [done|done|]. intros k Hk. apply wp_bind.
  eapply (wp_mono _ _ (λ x m', quiet m m' ∧ x.1 = (if bool_decide (p ∈ ms_connectors set) then b p else conn_encoder k) ∧
    (fl = true → x.2 = true) ∧ (x.2 = false → p ∈ ms_connectors set → b p ≠ 0))).
  - case_bool_decide.
    + apply wp_bind. unfold hcall, wp at 1. specialize (Hb (hdrv m) p). destruct (best_encoder (hdrv m) p) as [e a]. cbn [fst] in Hb. subst e.
      split; [by exists a|]. split; [done|]. cbn [snd]. split; [by intros ->|]. intros [_ Hz%Z.eqb_neq]%orb_false_iff _. done.
    + split; [apply quiet_refl|]. by split_and!.
  - intros [e fl'] m1 ([a ->] & He & Hmono & Hnz). cbv beta iota. cbn [fst snd] in He, Hmono, Hnz.
    assert (∀ q k', connectors m !! q = Some k' → (q = p → e = conn_encoder k') → ∃ k0, connectors m !! q = Some k0 ∧ conn_status k' = conn_status k0 ∧
      conn_encoder k' = if bool_decide (q = p ∧ q ∈ ms_connectors set) then b q else conn_encoder k0) as Hkeep.
    { intros q k' Hq Hsame. exists k'. split; [done|]. split; [done|].
      destruct (decide (q = p ∧ q ∈ ms_connectors set)) as [[-> Hd]|Hd]; [rewrite bool_decide_eq_true_2 by done|by rewrite bool_decide_eq_false_2].
      rewrite bool_decide_eq_true_2 in He by done. rewrite <- He. symmetry. by apply Hsame. }
    destruct (Z.eqb_spec e (conn_encoder k)) as [Hz|Hz]; cbn [negb].
    { split; [exact Hmono|]. split; [exact Hnz|]. intros q k' Hq. apply (Hkeep q k' Hq). intros ->. cbn in Hq. congruence. }
    apply wp_bind. eapply (wp_mono _ _ (λ _ m', connectors m' = connectors m)).
    + destruct (Z.eqb_spec (conn_encoder k) 0) as [Hc|Hc]; cbn [negb when]; [done|].
      destruct (o_feed _ Hok p k Hk) as [|[x Hx]]; [done|]. by eapply wp_of; [apply (upd_encoder_run (set_hdrv a m) _ x); exact Hx|].
    + intros ? m2 Hc2. cbv beta. apply wp_bind. eapply wp_of; [apply (upd_connector_run m2 p k); by rewrite Hc2|]. cbv beta.
      unfold wp, mret, M_ret. split; [exact Hmono|]. split; [exact Hnz|]. intros q k'. cbn. rewrite Hc2.
      intros [[<- <-]|[Hne Hq]]%lookup_insert_Some; [|apply (Hkeep q k' Hq); congruence]. exists k. split; [done|]. split; [done|].
      cbn [conn_encoder with_encoder]. rewrite He.
      destruct (decide (p ∈ ms_connectors set)); [by rewrite !bool_decide_eq_true_2|by rewrite !bool_decide_eq_false_2 by tauto].
Qed.

Lemma pick_encoders_wires set (b : Z → Z) l : (∀ a q, (best_encoder a q).1 = b q) → ∀ ch fl m, mesh_ok m → (∀ p, p ∈ l → p ∈ connector_order m) →
  wp (pick_encoders set l (ch, fl)) m (λ st m', (fl = true → st.2 = true) ∧ (st.2 = false → ∀ p, p ∈ l → p ∈ ms_connectors set → b p ≠ 0) ∧
    ∀ q k', connectors m' !! q = Some k' → ∃ k, connectors m !! q = Some k ∧ conn_status k' = conn_status k ∧
      conn_encoder k' = if bool_decide (q ∈ l ∧ q ∈ ms_connectors set) then b q else conn_encoder k).
Proof.
  intros Hb. induction l as [|p l IH]; intros ch fl m Hok Hl; cbn [pick_encoders].
  { unfold wp, mret, M_ret. split; [done|]. split; [intros _ p Hp; by apply elem_of_nil in Hp|]. intros q k Hk. exists k. split; [done|]. split; [done|].
    rewrite bool_decide_eq_false_2; [done|]. by intros [Hq%elem_of_nil _]. }
  assert (p ∈ connector_order m) as Hp by (apply Hl; by left). apply wp_bind.
  eapply wp_mono; [exact (wp_and _ _ _ _ (pick_encoder_ok set ch fl p m Hok Hp) (pick_encoder_wires set b ch fl p m Hb Hok Hp))|].
  intros [ch1 fl1] m1 [Hr1 (Hm1 & Hn1 & Hw1)]. cbv beta. cbn [fst snd] in Hr1, Hm1, Hn1. pose proof Hr1 as (Hok1 & (_ & _ & E3 & _) & _).
  eapply wp_mono; [apply (IH ch1 fl1 m1 Hok1)|].
  - intros q Hq. rewrite E3. apply Hl. by right.
  - intros [ch2 fl2] m2 (Hm2 & Hn2 & Hw2). cbn [snd] in *. split; [auto|]. split.
    + intros -> q [->|Hq]%elem_of_cons Hset; [|by apply Hn2]. apply Hn1; [|done]. destruct fl1; [by specialize (Hm2 eq_refl)|done].
    + intros q k2 Hk2. destruct (Hw2 q k2 Hk2) as (k1 & Hk1 & Hs1 & He1). destruct (Hw1 q k1 Hk1) as (k & Hk & Hs & He).
      exists k. split; [done|]. split; [congruence|]. rewrite He1, He.
      destruct (decide (q ∈ ms_connectors set)); [|by rewrite !bool_decide_eq_false_2 by tauto].
      destruct (decide (q = p)) as [->|Hqp]; [rewrite (bool_decide_eq_true_2 (p = p ∧ _)) by done; rewrite (bool_decide_eq_true_2 (p ∈ p :: l ∧ _)) by (split; [by left|done]); by destruct (bool_decide (p ∈ l ∧ p ∈ ms_connectors set))|].
      rewrite (bool_decide_eq_false_2 (q = p ∧ _)) by tauto. rewrite (bool_decide_ext (q ∈ p :: l ∧ _) (q ∈ l ∧ q ∈ ms_connectors set)); [done|]. rewrite elem_of_cons. tauto.
Qed.

Lemma assign_crtcs_wires set l : ∀ ch m, mesh_ok m → is_Some (crtcs m !! ms_crtc set) → (∀ p, p ∈ l → p ∈ connector_order m) →
  wp (assign_crtcs set l ch) m (λ st m', connectors m' = connectors m ∧ (st.2 = false → ∀ e,
    (∀ q k, connectors m !! q = Some k → q ∉ ms_connectors set → conn_encoder k ≠ e) →
    (∃ p k, p ∈ l ∧ p ∈ ms_connectors set ∧ connectors m !! p = Some k ∧ conn_encoder k = e) ∨ (∃ x, encoders m !! e = Some x ∧ enc_crtc x = ms_crtc set) →
    e ≠ 0 → ∃ x, encoders m' !! e = Some x ∧ enc_crtc x = ms_crtc set)).
Proof.
  induction l as [|p l IH]; intros ch m Hok Hcs Hl; cbn [assign_crtcs].
  { unfold wp, mret, M_ret. split; [done|]. intros _ e _ [(p & _ & Hp%elem_of_nil & _)|Hx] _; done. }
  assert (∀ q, q ∈ l → q ∈ connector_order m) as Hl' by (intros q Hq; apply Hl; by right).
  apply wp_connector; [done|apply Hl; by left|]. intros k Hk. destruct (Z.eqb_spec (conn_encoder k) 0) as [Hz|Hz].
  { eapply wp_mono; [exact (IH ch m Hok Hcs Hl')|]. intros st m' [Hc Hst]. split; [exact Hc|]. intros Hf e Hun [(q & x & Hq & Hset & Hx & He)|Hx] Hne.
    - apply elem_of_cons in Hq as [->|Hq]; [congruence|]. apply (Hst Hf e Hun); [left; by exists q, x|done].
    - apply (Hst Hf e Hun); [by right|done]. }
  destruct (o_feed _ Hok p k Hk) as [|[x Hx]]; [done|]. apply wp_bind. eapply wp_of; [by apply encoder_at_run|]. cbv beta zeta.
  set (new := if bool_decide (p ∈ ms_connectors set) then ms_crtc set else if enc_crtc x =? ms_crtc set then 0 else enc_crtc x).
  apply wp_bind. assert (∃ b, (if new =? 0 then mret true else drm_encoder_crtc_ok (conn_encoder k) new) m = Some (b, m)) as [ok Hrun].
  { destruct (new =? 0); [by eexists|]. apply encoder_crtc_ok_run; [done|by eexists]. }
  eapply wp_of; [exact Hrun|]. cbv beta. destruct ok; cbn [negb]; [|unfold wp, mret, M_ret; by split].
  assert (new = 0 ∨ is_Some (crtcs m !! new)) as Hnew.
  { unfold new. case_bool_decide; [by right|]. destruct (enc_crtc x =? ms_crtc set); [by left|]. by apply (o_drive _ Hok (conn_encoder k)). }
  assert (∀ ch' m1, connectors m1 = connectors m → connector_order m1 = connector_order m → mesh_ok m1 → crtcs m1 = crtcs m →
    (∀ e y, encoders m !! e = Some y → enc_crtc y = ms_crtc set → (e = conn_encoder k → p ∈ ms_connectors set) → ∃ y', encoders m1 !! e = Some y' ∧ enc_crtc y' = ms_crtc set) →
    (p ∈ ms_connectors set → ∃ y', encoders m1 !! conn_encoder k = Some y' ∧ enc_crtc y' = ms_crtc set) →
    wp (assign_crtcs set l ch') m1 (λ st m', connectors m' = connectors m ∧ (st.2 = false → ∀ e,
      (∀ q z, connectors m !! q = Some z → q ∉ ms_connectors set → conn_encoder z ≠ e) →
      (∃ q z, q ∈ p :: l ∧ q ∈ ms_connectors set ∧ connectors m !! q = Some z ∧ conn_encoder z = e) ∨ (∃ y, encoders m !! e = Some y ∧ enc_crtc y = ms_crtc set) →
      e ≠ 0 → ∃ y, encoders m' !! e = Some y ∧ enc_crtc y = ms_crtc set))) as Hrest.
  { intros ch' m1 Hcon Hord Hok1 Hcr Hstay Hnow. eapply wp_mono; [apply (IH ch' m1 Hok1); [by rewrite Hcr|by rewrite Hord]|].
    intros st m' [Hc Hst]. split; [congruence|]. intros Hf e Hun Hcase Hne. apply (Hst Hf e); [by rewrite Hcon| |done]. rewrite Hcon.
    destruct Hcase as [(q & z & [->|Hq]%elem_of_cons & Hset & Hqz & He)|(y & Hy & Hyc)].
    - right. assert (z = k) as -> by congruence. rewrite <- He. by apply Hnow.
    - left. by exists q, z.
    - right. apply (Hstay e y Hy Hyc). intros ->. destruct (decide (p ∈ ms_connectors set)); [done|]. by destruct (Hun p k Hk). }
  destruct (Z.eqb_spec new (enc_crtc x)) as [He|He]; cbn [negb].
  - apply Hrest; try done; [by eauto|]. intros Hset. exists x. split; [done|]. rewrite <- He. unfold new. by rewrite bool_decide_eq_true_2.
  - apply wp_bind. eapply wp_of; [by apply upd_encoder_run|]. cbv beta. apply Hrest; try done.
    + by apply (upd_encoder_ok m _ x).
    + intros e y Hy Hyc Hin. cbn. destruct (decide (e = conn_encoder k)) as [->|]; [|rewrite lookup_insert_ne by done; by exists y].
      rewrite lookup_insert_eq. eexists. split; [done|]. cbn. unfold new. rewrite bool_decide_eq_true_2; [done|by apply Hin].
    + intros Hset. cbn. rewrite lookup_insert_eq. eexists. split; [done|]. cbn. unfold new. by rewrite bool_decide_eq_true_2.
Qed.

(** ** Failure *)

Lemma restored {X} (x y : gmap Z X) (l : list Z) : (∀ p, p ∈ l ↔ is_Some (y !! p)) → (∀ p, is_Some (x !! p) ↔ is_Some (y !! p)) →
  (∀ p, p ∈ l → x !! p = y !! p) → x = y.
Proof.
  intros Hl Hd He. apply map_eq. intros p. destruct (y !! p) as [v|] eqn:Hp.
  - rewrite <- Hp. apply He, Hl. by eexists.
  - apply eq_None_not_Some. rewrite Hd, Hp. by intros [? ?].
Qed.

(** Writing back what was saved brings a map of objects back: [get] and [set] are
    that map of the mesh, [upd] the update of an object. *)
Lemma restore_ok {X} (get : mesh A → gmap Z X) (set : gmap Z X → mesh A → mesh A) (upd : Z → (X → X) → M (mesh A) unit)
    (y : gmap Z X) (l : list Z) m :
  (∀ x, get (set x m) = x) → set (get m) m = m →
  (∀ x p k f, x !! p = Some k → upd p f (set x m) = Some (tt, set (<[p := f k]> x) m)) →
  (∀ p, p ∈ l ↔ is_Some (y !! p)) → (∀ p, is_Some (get m !! p) ↔ is_Some (y !! p)) →
  wp (for_each l (λ p, k ← reads (λ _, y !! p); upd p (λ _, k))) m (λ _ m', m' = set y m).
Proof.
  intros Hgs Hsg Hupd Hl Hd.
  eapply wp_mono; [apply (for_each_inv (λ m', ∃ x, m' = set x m ∧ ∀ p, is_Some (x !! p) ↔ is_Some (y !! p)) (λ p m', get m' !! p = y !! p))|].
  - intros p m1 Hp (x & -> & Hx). apply Hl in Hp as Hs. pose proof Hs as [k Hk]. apply Hx in Hs as [k1 Hk1].
    apply wp_bind. eapply wp_of; [unfold reads; by rewrite Hk|]. cbv beta. eapply wp_of; [by eapply Hupd|]. split; [|split].
    + exists (<[p := k]> x). split; [done|]. intros q. rewrite <- Hx. by eapply is_Some_insert.
    + rewrite Hgs. by rewrite lookup_insert_eq, Hk.
    + intros q. rewrite !Hgs. intros Hq. destruct (decide (q = p)) as [->|]; [by rewrite lookup_insert_eq, Hk|by rewrite lookup_insert_ne].
  - exists (get m). done.
  - intros ? m' ((x & -> & Hx) & Hall & _). f_equal. apply (restored x y l Hl Hx). intros p Hp. rewrite <- (Hgs x). by apply Hall.
Qed.

(** Everything but the hardware's mode. *)
Definition but_hwmode (k k' : helper_crtc) : Prop :=
  enabled k' = enabled k ∧ hc_fb k' = hc_fb k ∧ hc_x k' = hc_x k ∧ hc_y k' = hc_y k ∧ hc_mode k' = hc_mode k.

(** The mesh is what it was; the hardware's mode of [c] may be another. *)
Definition as_before (c : Z) m m' : Prop := ∃ a k k', crtcs m !! c = Some k ∧ but_hwmode k k' ∧ m' = with_crtc_at c k' a m.

Lemma config_fail_ok s0 m c k ch dup ret : mesh_ok s0 → consistent s0 → shape s0 m → crtcs s0 !! c = Some k →
  wp (config_fail s0 c ch dup ret) m (λ r m', r = ret ∧ as_before c s0 m').
Proof.
  intros Hok [_ Hen] Hsh Hc. unfold config_fail. apply wp_bind. pose proof Hsh as (_ & _ & _ & D1 & D2 & D3).
  eapply wp_mono; [apply (restore_ok crtcs set_crtcs upd_hcrtc (crtcs s0) _ m); [done|by destruct m|intros x p v f Hv; exact (upd_hcrtc_run (set_crtcs x _) p v f Hv)|apply (o_crtcs _ Hok)|exact D1]|].
  intros ? m1 ->. cbv beta.
  apply wp_bind. 
  eapply wp_mono; [apply (restore_ok encoders set_encoders upd_encoder (encoders s0)); [done|done|intros x p v f Hv; exact (upd_encoder_run (set_encoders x _) p v f Hv)|apply (o_encoders _ Hok)|exact D2]|].
  intros ? m2 ->. cbv beta. apply wp_bind. 
  eapply wp_mono; [apply (restore_ok connectors set_connectors upd_connector (connectors s0)); [done|done|intros x p v f Hv; exact (upd_connector_run (set_connectors x _) p v f Hv)|apply (o_connectors _ Hok)|exact D3]|].
  intros ? m3 ->. cbv beta. apply wp_bind. eapply wp_of; [unfold reads; by rewrite Hc|]. cbv beta.
  assert (set_connectors (connectors s0) (set_encoders (encoders s0) (set_crtcs (crtcs s0) m)) = set_hdrv (hdrv m) s0) as ->.
  { unfold set_connectors, set_encoders, set_crtcs, set_hdrv. cbn. destruct Hsh as (-> & -> & -> & _). done. }
  apply wp_bind. destruct ch; cbn [when]; cycle 1.
  { unfold wp, mret, M_ret. split; [done|]. exists (hdrv m), k, k. split; [done|]. split; [done|]. unfold with_crtc_at, set_hdrv, set_crtcs. cbn.
    by rewrite insert_id. }
  pose proof (set_hdrv_ok s0 (hdrv m) Hok) as Hok1. apply wp_bind. eapply wp_of; [by apply (hcrtc_at_run (set_hdrv (hdrv m) s0))|]. cbv beta.
  apply wp_bind. eapply wp_mono; [exact (set_mode_ok _ c k (hc_mode k) (hc_x k) (hc_y k) (hc_fb k) dup Hok1 Hc)|].
  intros r m4 (a & k' & -> & He & Hf & Hcase & _). cbv beta. unfold wp, mret, M_ret. split; [done|]. exists a, k, k'. split; [done|].
  assert (crtc_used (set_hdrv (hdrv m) s0) c = enabled k) as Hu by (symmetry; by apply Hen). split; [|done].
  unfold but_hwmode. rewrite He, Hu. split; [done|]. split; [done|]. destruct Hcase as [->|(_ & _ & ? & ? & ?)]; [done|]. by split_and!.
Qed.

Lemma as_before_ok c m m' : mesh_ok m → consistent m → as_before c m m' → mesh_ok m' ∧ shape m m' ∧ consistent m'.
Proof.
  intros Hok [He Hc] (a & k & k' & Hk & (Hen & Hfb & _) & ->). destruct (with_crtc_at_ok m c k k' a Hok Hk) as [Hok' Hsh].
  split; [done|]. split; [done|]. split; [exact He|]. intros p x. cbn. intros [[<- <-]|[_ Hx]]%lookup_insert_Some; [|by apply (Hc p)].
  rewrite Hen, Hfb. by apply (Hc c).
Qed.

(** ** Success *)

(** A crtc that nothing uses is off in a consistent mesh. *)
Lemma unused_off m c k : consistent m → crtcs m !! c = Some k → crtc_used m c = false → hc_fb k = 0.
Proof. intros [_ Hc] Hk Hu. destruct (Hc c k Hk) as [He Hf]. apply Hf. congruence. Qed.

Lemma decouple_ok m e : mesh_ok m →
  wp (for_each (connector_order m) (λ p, k ← connector_at p; when (conn_encoder k =? e) (upd_connector p (with_encoder 0)))) m
    (λ _ m', mesh_ok m' ∧ shape m m' ∧ crtcs m' = crtcs m ∧ encoders m' = encoders m ∧ wires_cut m m' ∧
      (e ≠ 0 → ∀ p k, connectors m' !! p = Some k → conn_encoder k ≠ e)).
Proof.
  intros Hok. set (J := λ m', mesh_ok m' ∧ shape m m' ∧ crtcs m' = crtcs m ∧ encoders m' = encoders m ∧ wires_cut m m').
  eapply wp_mono; [apply (for_each_inv J (λ p m', e ≠ 0 → ∀ k, connectors m' !! p = Some k → conn_encoder k ≠ e))|].
  - intros p m1 Hp (Hok1 & Hsh & Hc & He & Hw). apply wp_connector; [done|by destruct Hsh as (_ & _ & -> & _)|]. intros k Hk.
    destruct (Z.eqb_spec (conn_encoder k) e) as [Hke|Hke]; cbn [when]; cycle 1.
    { split; [done|]. split; [|done]. intros _ k'. rewrite Hk. by intros [= <-]. }
    eapply wp_of; [by apply upd_connector_run|]. split; [split; [apply (upd_connector_ok m1 p k _ Hok1 Hk); by left|]|split].
    + split; [eapply shape_trans; [exact Hsh|]; by eapply upd_connector_shape|]. split; [done|]. split; [done|].
      eapply wires_cut_trans; [exact Hw|]. split; cbn; [|intros q x Hx; right; by exists x].
      intros q x [[<- <-]|[_ Hx]]%lookup_insert_Some; [by left|right; by exists x].
    + intros He0 k'. cbn. rewrite lookup_insert_eq. intros [= <-]. cbn. congruence.
    + intros q Hq He0 k'. cbn. intros [[<- <-]|[_ Hx]]%lookup_insert_Some; [cbn; congruence|by apply (Hq He0)].
  - do 4 (split; [done|]). by apply wires_cut_same.
  - intros ? m' ((Hok' & Hsh & Hc & He & Hw) & Hall & _). do 5 (split; [done|]). intros He0 p k Hk. apply (Hall p); [|done..].
    destruct Hsh as (_ & _ & <- & _). apply (o_connectors _ Hok'). by exists k.
Qed.

Lemma decoupled_stays m m' e : e ≠ 0 → wires_cut m m' → (∀ p k, connectors m !! p = Some k → conn_encoder k ≠ e) →
  ∀ p k, connectors m' !! p = Some k → conn_encoder k ≠ e.
Proof. intros He [Hc _] Hn p k Hk. destruct (Hc p k Hk) as [|(k0 & Hk0 & <-)]; [congruence|by eapply Hn]. Qed.

Lemma helper_disable_ok m c : mesh_ok m → c ≠ 0 →
  wp (drm_crtc_helper_disable c) m (λ ret m', ret = 0 ∧ mesh_ok m' ∧ shape m m' ∧ consistent m' ∧
    (∀ p k', crtcs m' !! p = Some k' → ∃ k, crtcs m !! p = Some k ∧ only_off (crtc_used m' p) k k') ∧
    crtc_used m' c = false).
Proof.
  intros Hok Hc0. unfold drm_crtc_helper_disable. apply wp_bind. eapply wp_of; [done|]. cbv beta. apply wp_bind.
  set (J := λ m', mesh_ok m' ∧ shape m m' ∧ crtcs m' = crtcs m ∧ encoders m' = encoders m ∧ wires_cut m m').
  set (P := λ e m', wires_cut m m' ∧ (∀ k, encoders m !! e = Some k → enc_crtc k = c → ∀ p q, connectors m' !! p = Some q → conn_encoder q ≠ e)).
  eapply wp_mono; [apply (for_each_inv (λ m', J m' ∧ ∀ e, P e m' → P e m') P)|].
  - intros e m1 Hp [(Hok1 & Hsh & Hc & He & Hw) _]. apply wp_encoder; [done|by destruct Hsh as (_ & -> & _)|]. intros k Hk.
    assert (e ≠ 0) as He0 by (intros ->; destruct (o_null _ Hok1) as [_ Hn]; congruence).
    destruct (Z.eqb_spec (enc_crtc k) c) as [Hkc|Hkc]; cbn [when]; cycle 1.
    { split; [done|]. split; [split; [done|]|done]. intros k'. rewrite <- He, Hk. by intros [= <-]. }
    assert (connector_order m = connector_order m1) as -> by (by destruct Hsh as (_ & _ & -> & _)).
    eapply wp_mono; [exact (decouple_ok m1 e Hok1)|]. intros ? m2 (Hok2 & Hsh2 & Hc2 & He2 & Hw2 & Hcut). specialize (Hcut He0).
    pose proof (wires_cut_trans _ _ _ Hw Hw2) as Hw02. split; [split; [|done]|split].
    + split; [done|]. split; [by eapply shape_trans|]. split; [congruence|]. split; [congruence|done].
    + split; [done|]. intros k' _ _. exact Hcut.
    + intros e' [_ Hq]. split; [done|]. intros k' Hk' Hc'. assert (e' ≠ 0) as He0' by (intros ->; destruct (o_null _ Hok) as [_ Hn]; congruence).
      apply (decoupled_stays m1 m2 e' He0' Hw2). by apply (Hq k').
  - split; [|done]. do 4 (split; [done|]). by apply wires_cut_same.
  - intros ? m1 ([(Hok1 & Hsh1 & Hc1 & He1 & Hw1) _] & Hall & _). cbv beta. apply wp_bind.
    eapply wp_mono; [exact (disable_unused_ok m1 Hok1)|]. intros ? m2 (Hok2 & Hsh2 & Hcons & Hw2 & _ & Hoff). unfold wp, mret, M_ret.
    split; [done|]. split; [done|]. split; [by eapply shape_trans|]. split; [done|]. split; [by rewrite <- Hc1|].
    destruct (crtc_used m2 c) eqn:Hu; [|done]. exfalso.
    apply (wires_cut_used m1 m2 c Hok1 Hok2 Hw2 Hc0) in Hu. apply (crtc_used_spec m1 c Hok1) in Hu as (e & x & p & q & Hx & Hxc & Hq & Hqe).
    rewrite He1 in Hx. destruct (Hall e) as [_ Hno]; [apply (o_encoders _ Hok); by exists x|]. by apply (Hno x Hx Hxc p q Hq).
Qed.

Lemma all_dpms_ok l mode : ∀ m, mesh_ok m → (∀ p, p ∈ l → p ∈ connector_order m) →
  wp (for_each l (λ p, drm_helper_connector_dpms p mode)) m (λ _ m', same_wires m m').
Proof.
  induction l as [|p l IH]; intros m Hok Hl; cbn [for_each]; [exact (same_wires_refl m)|]. apply wp_bind.
  eapply wp_mono; [apply (connector_dpms_ok m p mode Hok), Hl; by left|]. intros ? m1 Hw1. cbv beta.
  destruct (same_wires_ok m m1 Hok Hw1) as (Hok1 & (_ & _ & E3 & _) & _).
  eapply wp_mono; [apply (IH m1 Hok1)|].
  - intros q Hq. rewrite E3. apply Hl. by right.
  - intros ? m2 Hw2. exact (same_wires_trans _ _ _ Hw1 Hw2).
Qed.

(** What a successful configuration makes of the crtcs. *)
Definition configured (set : drm_mode_set) m m' : Prop :=
  ∀ c k', crtcs m' !! c = Some k' → ∃ k, crtcs m !! c = Some k ∧
    (c ≠ ms_crtc set ∧ hc_fb k' = hc_fb k ∨ crtc_used m' c = false ∧ hc_fb k' = 0 ∨
     c = ms_crtc set ∧ hc_fb k' = ms_fb set ∧ hc_x k' = ms_x set ∧ hc_y k' = ms_y set ∧
     ∃ mode, ms_mode set = Some mode ∧ drm_mode_equal mode (hc_mode k') = true).

Lemma full_mode_set_ok set mode dup m k : mesh_ok m → ms_crtc set ≠ 0 → ms_mode set = Some mode → crtcs m !! ms_crtc set = Some k →
  (∀ p, p ∈ ms_connectors set → p ∈ connector_order m) →
  wp (full_mode_set set mode dup) m (λ res m', shape m m' ∧
    match res with
    | Some ret => ret ≠ 0
    | None => mesh_ok m' ∧ consistent m' ∧ configured set m m' ∧ ∀ p e c, lit p e c m → lit p e c m'
    end).
Proof.
  intros Hok Hc0 Hmode Hk Hl. unfold full_mode_set. set (c := ms_crtc set) in *. apply wp_bind. eapply wp_of; [by apply crtc_in_use_run|]. cbv beta. apply wp_bind.
  rewrite <- (with_crtc_at_same c k m Hk) at 2. eapply wp_of; [apply upd_hcrtc_again|]. cbv beta. set (k1 := with_enabled (crtc_used m c) k).
  assert (∀ k2 a, let m2 := with_crtc_at c k2 a m in
    wp (drm_helper_disable_unused_functions;; (mret None : M (mesh A) (option Z))) m2 (λ res m', shape m m' ∧
      match res with
      | Some ret => ret ≠ 0
      | None => mesh_ok m' ∧ consistent m' ∧ (crtc_used m' c = true → crtc_used m c = true) ∧
          (∀ p e q, lit p e q m → lit p e q m') ∧
          ∀ q x', crtcs m' !! q = Some x' → ∃ x, crtcs m2 !! q = Some x ∧ only_off (crtc_used m' q) x x'
      end)) as Hend.
  { intros k2 a m2. destruct (with_crtc_at_ok m c k k2 a Hok Hk) as [Hok2 Hsh2]. fold m2 in Hok2, Hsh2. apply wp_bind.
    eapply wp_mono; [exact (disable_unused_ok m2 Hok2)|]. intros ? m3 (Hok3 & Hsh3 & Hcons & Hw & Hlit & Hoff). unfold wp, mret, M_ret.
    split; [by eapply shape_trans|]. split; [done|]. split; [done|]. split; [|split; [exact Hlit|done]].
    intros Hu. apply (wires_cut_used m2 m3 c Hok2 Hok3 Hw Hc0) in Hu. exact Hu. }
  apply wp_bind. destruct (crtc_used m c) eqn:Hu; cycle 1.
  - eapply wp_of; [done|]. cbv beta iota. eapply wp_mono; [exact (Hend k1 (hdrv m))|]. intros [ret|] m' Hres; [done|].
    destruct Hres as (Hsh & Hok' & Hcons & Hused & Hlit & Hoff). split; [done|]. split; [done|]. split; [done|]. split; [|exact Hlit]. intros q x' Hx'.
    destruct (Hoff q x' Hx') as (x & Hx & Hox). cbn in Hx. destruct (decide (q = c)) as [->|Hq].
    + exists k. split; [done|]. right. left. assert (crtc_used m' c = false) as Hu' by (by destruct (crtc_used m' c); [specialize (Hused eq_refl)|]).
      split; [done|]. by apply (unused_off m' c x' Hcons Hx').
    + rewrite lookup_insert_ne in Hx by done. exists x. split; [done|]. destruct Hox as (_ & _ & _ & _ & [Hf|Hf]); [left|right; left]; done.
  - apply wp_bind. eapply wp_of; [apply hcrtc_at_run, with_crtc_at_lookup|]. cbv beta. apply wp_bind.
    eapply wp_of; [apply upd_hcrtc_again|]. cbv beta. set (k2 := with_fb (ms_fb set) k1).
    destruct (with_crtc_at_ok m c k k2 (hdrv m) Hok Hk) as [Hok2 Hsh2]. apply wp_bind.
    eapply wp_mono; [exact (set_mode_ok _ c k2 mode (ms_x set) (ms_y set) (hc_fb k1) dup Hok2 (with_crtc_at_lookup _ _ _ _))|].
    intros ok m3 (a & k3 & -> & Hen3 & Hfb3 & _ & Hset). cbv beta.
    assert (with_crtc_at c k3 a (with_crtc_at c k2 (hdrv m) m) = with_crtc_at c k3 a m) as ->.
    { unfold with_crtc_at, set_hdrv, set_crtcs. cbn. by rewrite insert_insert_eq. }
    destruct (with_crtc_at_ok m c k k3 a Hok Hk) as [Hok3 Hsh3]. destruct ok; cycle 1.
    { apply wp_bind. eapply wp_of; [apply upd_hcrtc_again|]. cbv beta. unfold wp, mret, M_ret. cbv beta iota.
      split; [by apply (with_crtc_at_ok m c k)|unfold EINVAL; lia]. }
    specialize (Hset eq_refl). assert (crtc_used (with_crtc_at c k2 (hdrv m) m) c = true) as Hu2 by exact Hu. specialize (Hset Hu2) as (Hx3 & Hy3 & Hm3).
    apply wp_bind. eapply wp_mono; [exact (all_dpms_ok (ms_connectors set) DRM_MODE_DPMS_ON _ Hok3 Hl)|]. intros ? m4 Hw4. cbv beta.
    unfold wp at 1, mret at 1, M_ret at 1. cbv iota. destruct (same_wires_ok _ m4 Hok3 Hw4) as (Hok4 & Hsh4 & _). pose proof Hw4 as (Ec4 & _).
    apply wp_bind. eapply wp_mono; [exact (disable_unused_ok m4 Hok4)|]. intros ? m5 (Hok5 & Hsh5 & Hcons & _ & Hlit & Hoff). unfold wp, mret, M_ret.
    split; [eapply shape_trans; [exact Hsh3|]; by eapply shape_trans|]. split; [done|]. split; [done|]. split.
    2:{ intros p e q Hp. apply Hlit. by apply (same_wires_lit _ m4 p e q Hw4). }
    intros q x' Hx'.
    destruct (Hoff q x' Hx') as (x & Hx & Hxx & Hxy & Hxm & _ & Hxf). rewrite Ec4 in Hx. cbn in Hx. destruct (decide (q = c)) as [->|Hq].
    + rewrite lookup_insert_eq in Hx. injection Hx as <-. exists k. split; [done|]. right. destruct Hxf as [Hxf|Hxf]; [right|by left].
      split; [done|]. rewrite Hxf, Hfb3, Hxx, Hxy, Hxm, Hx3, Hy3, Hm3. do 3 (split; [done|]). exists mode. split; [exact Hmode|apply mode_equal_equivalence].
    + rewrite lookup_insert_ne in Hx by done. exists x. split; [done|]. destruct Hxf as [Hxf|Hxf]; [left|right; left]; done.
Qed.

Lemma flip_or_move_ok set m k : mesh_ok m → crtcs m !! ms_crtc set = Some k → is_Some crtc_mode_set_base →
  wp (flip_or_move set) m (λ res m', ∃ a k', m' = with_crtc_at (ms_crtc set) k' a m ∧
    match res with
    | Some ret => ret ≠ 0
    | None => enabled k' = enabled k ∧ hc_fb k' = ms_fb set ∧ hc_x k' = ms_x set ∧ hc_y k' = ms_y set ∧ hc_mode k' = hc_mode k
    end).
Proof.
  intros Hok Hk [base Hbase]. unfold flip_or_move. rewrite Hbase. set (c := ms_crtc set) in *. apply wp_bind.
  rewrite <- (with_crtc_at_same c k m Hk) at 1. eapply wp_of; [apply upd_hcrtc_again|]. cbv beta. apply wp_bind.
  eapply wp_of; [apply hcrtc_at_run, with_crtc_at_lookup|]. cbv beta. apply wp_bind. eapply wp_of; [apply upd_hcrtc_again|]. cbv beta.
  set (k2 := with_fb _ _). apply wp_bind. destruct (with_crtc_at_ok m c k k2 (hdrv m) Hok Hk) as [Hok2 _].
  eapply wp_mono; [exact (hushed_hcall _ _ Hok2)|]. intros ret m3 [a ->]. cbv beta.
  change (set_hdrv a (with_crtc_at c k2 (hdrv m) m)) with (with_crtc_at c k2 a m).
  destruct (Z.eqb_spec ret 0) as [Hr|Hr]; cbn [negb].
  - exists a, k2. by split_and!.
  - apply wp_bind. eapply wp_of; [apply upd_hcrtc_again|]. cbv beta. exists a. eexists. by split.
Qed.

Lemma compare_config_ok format set mode k m : ms_fb set ≠ 0 → is_Some (format (ms_fb set)) → hc_fb k = 0 ∨ is_Some (format (hc_fb k)) →
  ∃ mc fc, compare_config format set mode k m = Some ((mc, fc), m) ∧
    (mc = false → drm_mode_equal mode (hc_mode k) = true ∧ hc_fb k ≠ 0 ∧
      (fc = false → hc_fb k = ms_fb set ∧ hc_x k = ms_x set ∧ hc_y k = ms_y set)).
Proof.
  intros Hfb [f Hf] Hold. unfold compare_config.
  assert (∃ mc fc, (if negb (hc_fb k =? ms_fb set) then
     if hc_fb k =? 0 then mret (true, false) else
     if ms_fb set =? 0 then mret (true, false) else
     f ← reads (λ _ : mesh A, format (ms_fb set)); g ← reads (λ _, format (hc_fb k));
     mret (if negb (f =? g) then (true, false) else (false, true))
   else mret (false, false)) m = Some ((mc, fc), m) ∧ (mc = false → hc_fb k ≠ 0 ∧ (fc = false → hc_fb k = ms_fb set))) as (mc & fc & Hrun & Hmc).
  { destruct (Z.eqb_spec (hc_fb k) (ms_fb set)) as [He|He]; cbn [negb]; [exists false, false; split; [done|]; by rewrite He|].
    destruct (Z.eqb_spec (hc_fb k) 0) as [Hz|Hz]; [by exists true, false|]. destruct (Z.eqb_spec (ms_fb set) 0) as [|_]; [done|].
    destruct Hold as [|[g Hg]]; [done|]. unfold reads. rewrite Hf, Hg. unfold mbind, M_bind, mret, M_ret.
    destruct (f =? g); cbn [negb]; [by exists false, true|by exists true, false]. }
  rewrite (M_bind_Some _ _ _ _ _ Hrun). do 2 eexists. split; [done|]. intros [-> Hm%negb_false_iff]%orb_false_iff. destruct (Hmc eq_refl) as [Hz Hfc].
  split; [done|]. split; [done|]. intros [[-> Hx%negb_false_iff%Z.eqb_eq]%orb_false_iff Hy%negb_false_iff%Z.eqb_eq]%orb_false_iff. auto.
Qed.

(** ** A whole configuration *)

(** What drm_mode_setcrtc and the other callers see to.  [format]: the pixel formats
    of the framebuffers that exist. *)
Record request_ok (format : Z → option Z) (set : drm_mode_set) m : Prop := {
  r_crtc : is_Some (crtcs m !! ms_crtc set);
  r_connectors p : p ∈ ms_connectors set → p ∈ connector_order m;
  r_fb : ms_fb set ≠ 0 → is_Some (ms_mode set) ∧ ms_connectors set ≠ [] ∧ is_Some (format (ms_fb set));
  r_shown k : crtcs m !! ms_crtc set = Some k → hc_fb k = 0 ∨ is_Some (format (hc_fb k));
}.

(** The driver always proposes the same encoder. *)
Definition proposes (b : Z → Z) : Prop := ∀ a q, (best_encoder a q).1 = b q.

(** A connector [p] of the request that has something plugged in, with an encoder
    [e] that feeds no connector outside the request. *)
Definition own_encoder (set : drm_mode_set) m (p e : Z) : Prop :=
  p ∈ ms_connectors set ∧ (∃ k, connectors m !! p = Some k ∧ conn_status k ≠ connector_status_disconnected) ∧
  ∀ q z, connectors m !! q = Some z → q ∉ ms_connectors set → conn_encoder z ≠ e.

(** The request connects each of them to its crtc. *)
Definition lights (set : drm_mode_set) m m' : Prop :=
  ms_fb set ≠ 0 → ∀ b, proposes b → ∀ p, own_encoder set m p (b p) → lit p (b p) (ms_crtc set) m'.

(** The end of a configuration with the result [ret]. *)
Definition settled (set : drm_mode_set) m (ret : Z) m' : Prop :=
  mesh_ok m' ∧ shape m m' ∧ consistent m' ∧ (ret = 0 → configured set m m' ∧ lights set m m') ∧
  (ret ≠ 0 → as_before (ms_crtc set) m m').

Lemma settled_as_before set m ret m' : mesh_ok m → consistent m → ret ≠ 0 → as_before (ms_crtc set) m m' → settled set m ret m'.
Proof. intros Hok Hcons Hr Hb. destruct (as_before_ok _ m m' Hok Hcons Hb) as (? & ? & ?). by split_and!. Qed.

Lemma disable_settled set m : mesh_ok m → is_Some (crtcs m !! ms_crtc set) → ms_fb set = 0 →
  wp (drm_crtc_helper_disable (ms_crtc set)) m (settled set m).
Proof.
  intros Hok [k0 Hk0] Hfb0. assert (ms_crtc set ≠ 0) as Hc0 by (intros Hz; destruct (o_null _ Hok); congruence).
  eapply wp_mono; [exact (helper_disable_ok m _ Hok Hc0)|]. intros ret m' (-> & Hok' & Hsh & Hcons & Hoff & Hused).
  do 3 (split; [done|]). split; [|done]. intros _. split; [|by intros Hn]. intros c k' Hk'. destruct (Hoff c k' Hk') as (k & Hk & _ & _ & _ & _ & Hf). exists k. split; [done|].
  destruct (decide (c = ms_crtc set)) as [->|Hc]; [right; left; split; [done|by apply (unused_off m' (ms_crtc set) k')]|]. destruct Hf; [left|right; left]; done.
Qed.

(** The failures after the copies were made. *)
Lemma fail_settled set m m1 ch dup ret : mesh_ok m → consistent m → is_Some (crtcs m !! ms_crtc set) → shape m m1 → ret ≠ 0 →
  wp (config_fail m (ms_crtc set) ch dup ret) m1 (settled set m).
Proof.
  intros Hok Hcons [k Hk] Hsh Hr. eapply wp_mono; [exact (config_fail_ok m m1 _ k ch dup ret Hok Hcons Hsh Hk)|].
  intros ret' m' [-> Hb]. by apply settled_as_before.
Qed.

(** The crtc of the request with another framebuffer and position, still on. *)
Lemma moved_settled set mode m k k' a : mesh_ok m → consistent m → crtcs m !! ms_crtc set = Some k → ms_mode set = Some mode →
  enabled k = true → enabled k' = enabled k → hc_fb k' = ms_fb set → hc_x k' = ms_x set → hc_y k' = ms_y set →
  drm_mode_equal mode (hc_mode k') = true → lights set m m → settled set m 0 (with_crtc_at (ms_crtc set) k' a m).
Proof.
  intros Hok [He Hc] Hk Hmode Hon Hen Hfb Hx Hy Hm Hlit. destruct (with_crtc_at_ok m _ k k' a Hok Hk) as [Hok' Hsh].
  split; [done|]. split; [done|]. split; [split; [exact He|]|split; [|done]].
  - intros p x. cbn. intros [[<- <-]|[_ Hx']]%lookup_insert_Some; [|by apply (Hc p)]. rewrite Hen, Hon. split; [|discriminate].
    rewrite <- Hon. by apply (Hc _ k Hk).
  - intros _. split; [|exact Hlit]. intros p x. cbn. intros [[<- <-]|[Hne Hx']]%lookup_insert_Some; [exists k|exists x]; (split; [done|]); [|by left].
    right. right. split_and!; try done. by exists mode.
Qed.

(** The two passes together. *)
Lemma passes_light set m m1 m2 b p : mesh_ok m → mesh_ok m1 → mesh_ok m2 → shape m m1 → own_encoder set m p (b p) →
  (∀ q, q ∈ connector_order m → q ∈ ms_connectors set → b q ≠ 0) →
  (∀ q k', connectors m1 !! q = Some k' → ∃ k, connectors m !! q = Some k ∧ conn_status k' = conn_status k ∧
    conn_encoder k' = if bool_decide (q ∈ connector_order m ∧ q ∈ ms_connectors set) then b q else conn_encoder k) →
  connectors m2 = connectors m1 →
  (∀ e, (∀ q k, connectors m1 !! q = Some k → q ∉ ms_connectors set → conn_encoder k ≠ e) →
    (∃ p k, p ∈ connector_order m ∧ p ∈ ms_connectors set ∧ connectors m1 !! p = Some k ∧ conn_encoder k = e) ∨
      (∃ x, encoders m1 !! e = Some x ∧ enc_crtc x = ms_crtc set) →
    e ≠ 0 → ∃ x, encoders m2 !! e = Some x ∧ enc_crtc x = ms_crtc set) →
  lit p (b p) (ms_crtc set) m2.
Proof.
  intros Hok Hok1 Hok2 Hsh (Hset & (k & Hk & Hst) & Hown) Hnz Hw1 Hc2 Hw2.
  assert (p ∈ connector_order m) as Hp by (apply (o_connectors _ Hok); by exists k).
  assert (is_Some (connectors m1 !! p)) as [k1 Hk1] by (apply Hsh; by exists k).
  destruct (Hw1 p k1 Hk1) as (k0 & Hk0 & Hs1 & He1). assert (k0 = k) as -> by congruence. rewrite bool_decide_eq_true_2 in He1 by done.
  destruct (Hw2 (b p)) as (x & Hx & Hxc).
  - intros q z Hq Hnot. destruct (Hw1 q z Hq) as (z0 & Hz0 & _ & ->). rewrite bool_decide_eq_false_2 by tauto. by apply (Hown q).
  - left. by exists p, k1.
  - by apply Hnz.
  - exists k1, x. rewrite Hc2. split_and!; congruence.
Qed.

Lemma set_config_settled format set e m : mesh_ok m → consistent m → request_ok format set m →
  wp (drm_crtc_helper_set_config format set e) m (settled set m).
Proof.
  intros Hok Hcons [Hcrtc Hconns Hfb Hshown]. unfold drm_crtc_helper_set_config. cbv zeta. pose proof Hcrtc as [k Hk].
  assert (ms_crtc set ≠ 0) as Hc0 by (intros Hz; destruct (o_null _ Hok); congruence).
  apply wp_bind. rewrite (proj2 (Z.eqb_neq _ _) Hc0). eapply wp_of; [done|]. cbv beta. destruct (Z.eqb_spec (ms_fb set) 0) as [Hz|Hz].
  { apply wp_bind. eapply wp_of; [by destruct (ms_mode set)|]. cbv beta. apply wp_bind. eapply wp_of; [done|]. cbv beta.
    destruct (ms_mode set); by apply disable_settled. }
  destruct (Hfb Hz) as ([mode Hmode] & Hne & Hfmt). rewrite Hmode. apply wp_bind. eapply wp_of; [done|]. cbv beta.
  apply wp_bind. rewrite bool_decide_eq_false_2 by done. eapply wp_of; [done|]. cbv beta.
  destruct (save_alloc e); cbn [negb]; cycle 1.
  { apply settled_as_before; [done|done|unfold ENOMEM; lia|]. exists (hdrv m), k, k. split; [done|]. split; [done|]. by rewrite with_crtc_at_same. }
  apply wp_bind. eapply wp_of; [done|]. cbv beta. apply wp_bind. eapply wp_of; [by apply hcrtc_at_run|]. cbv beta.
  destruct (compare_config_ok format set mode k m Hz Hfmt (Hshown k Hk)) as (mc & fc & Hrun & Hmc). apply wp_bind. eapply wp_of; [exact Hrun|]. cbv beta iota.
  apply wp_bind. eapply wp_mono; [exact (wp_all _ _ _ _ (pick_encoders_ok set (connector_order m) mc false m Hok (λ p Hp, Hp))
    (λ b : {b | proposes b}, pick_encoders_wires set (`b) (connector_order m) (proj2_sig b) mc false m Hok (λ p Hp, Hp)))|].
  intros [mc1 fl] m1 [Hr1 Hw1]. cbn [fst snd] in Hr1, Hw1. cbv beta iota. pose proof Hr1 as (Hok1 & Hsh1 & Hc1 & _).
  destruct fl; [apply fail_settled; try done; unfold EINVAL; lia|].
  assert (connector_order m1 = connector_order m) as Ho1 by apply Hsh1.
  assert (is_Some (crtcs m1 !! ms_crtc set)) as Hcrtc1 by (by rewrite Hc1).
  assert (∀ p, p ∈ connector_order m → p ∈ connector_order m1) as Hl1 by (by rewrite Ho1).
  apply wp_bind. eapply wp_mono; [exact (wp_and _ _ _ _ (assign_crtcs_ok set _ mc1 m1 Hok1 Hcrtc1 Hl1) (assign_crtcs_wires set _ mc1 m1 Hok1 Hcrtc1 Hl1))|].
  intros [mc2 fl] m2 [Hr2 [Hcon2 Hw2]]. cbn [fst snd] in Hr2, Hw2. cbv beta iota. pose proof (rewired_trans _ _ _ _ _ _ Hr1 Hr2) as (Hok2 & Hsh2 & Hc2 & Hmono & Hquiet).
  destruct fl; [apply fail_settled; try done; unfold EINVAL; lia|]. specialize (Hw2 eq_refl).
  assert (lights set m m2) as Hlight.
  { intros _ b Hb p Hp. destruct (Hw1 (b ↾ Hb)) as (_ & Hn & Hw). exact (passes_light set m m1 m2 b p Hok Hok1 Hok2 Hsh1 Hp (Hn eq_refl) Hw Hcon2 Hw2). }
  clear Hw1 Hw2. apply wp_bind. destruct (mc2 || _) eqn:Hch.
  - assert (∀ p, p ∈ ms_connectors set → p ∈ connector_order m2) as Hconns2 by (destruct Hsh2 as (_ & _ & -> & _); exact Hconns).
    eapply wp_mono; [apply (full_mode_set_ok set mode (dup_new e) m2 k Hok2 Hc0 Hmode); [by rewrite Hc2|exact Hconns2]|].
    intros [ret|] m3 [Hsh3 Hres]; cbv beta iota.
    + apply fail_settled; [done|done|done|exact (shape_trans _ _ _ Hsh2 Hsh3)|exact Hres].
    + destruct Hres as (Hok3 & Hcons3 & Hconf & Hlit). unfold wp, mret, M_ret. split; [done|]. split; [exact (shape_trans _ _ _ Hsh2 Hsh3)|].
      split; [done|]. split; [|done]. intros _. split; [|intros Hf b Hb p Hp; apply Hlit; by apply Hlight]. intros c x Hx. destruct (Hconf c x Hx) as (y & Hy & Hcase). exists y. by rewrite <- Hc2.
  - apply orb_false_iff in Hch as [-> Hbase]. destruct (Hquiet eq_refl) as [a ->].
    destruct mc; [by specialize (Hmono eq_refl)|]. destruct (Hmc eq_refl) as (Hm & Hon & Hsame).
    assert (enabled k = true) as Hen. { destruct Hcons as [_ Hc]. destruct (Hc _ k Hk) as [_ Hoff]. destruct (enabled k); [done|]. by destruct Hon; apply Hoff. }
    destruct fc.
    + assert (is_Some crtc_mode_set_base) as Hb by (destruct crtc_mode_set_base; [by eexists|done]).
      eapply wp_mono; [exact (flip_or_move_ok set _ k Hok2 Hk Hb)|]. intros [ret|] m3 (b & k' & -> & Hres); cbv beta iota.
      * apply fail_settled; [done|done|done| |exact Hres]. by apply (with_crtc_at_ok m _ k).
      * destruct Hres as (He' & Hf' & Hx' & Hy' & Hm'). apply (moved_settled set mode m k k' b); try done. by rewrite Hm'.
    + eapply wp_of; [done|]. cbv beta iota. destruct (Hsame eq_refl) as (Hf & Hx & Hy). unfold wp, mret, M_ret.
      pose proof (moved_settled set mode m k k a Hok Hcons Hk Hmode Hen eq_refl Hf Hx Hy Hm Hlight) as Hset.
      unfold with_crtc_at in Hset. by rewrite insert_id in Hset; [destruct m|].
Qed.

(** ** The other operations *)

Definition kept m m' : Prop := mesh_ok m' ∧ shape m m' ∧ consistent m'.

(** The same use of every crtc and encoder, and the same crtcs. *)
Lemma consistent_same m m' : encoders m' = encoders m → crtcs m' = crtcs m → (∀ e, encoder_used m' e = encoder_used m e) →
  (∀ c, crtc_used m' c = crtc_used m c) → consistent m → consistent m'.
Proof. intros He Hc Hu Hcu [H1' H2']. split; intros p k; [rewrite He, Hu; apply H1'|rewrite Hc, Hcu; apply H2']. Qed.

(** Connectors may change, but not what feeds them. *)
Definition same_feeds m m' : Prop :=
  crtcs m' = crtcs m ∧ encoders m' = encoders m ∧ shape m m' ∧
  ∀ p, conn_encoder <$> connectors m' !! p = conn_encoder <$> connectors m !! p.

Lemma same_feeds_refl m : same_feeds m m.
Proof. done. Qed.
Lemma same_feeds_trans m1 m2 m3 : same_feeds m1 m2 → same_feeds m2 m3 → same_feeds m1 m3.
Proof. intros (? & ? & ? & E1) (? & ? & ? & E2). split_and!; [congruence..|by eapply shape_trans|]. intros p. by rewrite E2. Qed.

Lemma same_feeds_kept m m' : mesh_ok m → consistent m → same_feeds m m' → kept m m'.
Proof.
  intros Hok Hcons (Hc & He & Hsh & E). assert (mesh_ok m') as Hok'.
  { eapply shape_ok; [done|done| |rewrite He; apply (o_drive _ Hok)]. intros p k' Hk'. specialize (E p). rewrite Hk' in E.
    destruct (connectors m !! p) as [k|] eqn:Hk; [|done]. injection E as ->. by apply (o_feed _ Hok p). }
  split; [done|]. split; [done|]. assert (∀ e, encoder_used m' e = encoder_used m e) as Hu.
  { intros e. unfold encoder_used. destruct Hsh as (_ & _ & -> & _). clear -E. induction (connector_order m) as [|p l IH]; [done|].
    cbn. rewrite IH. specialize (E p). destruct (connectors m' !! p), (connectors m !! p); try done. by injection E as ->. }
  apply (consistent_same m); try done. apply crtc_used_same; [done|by destruct Hsh as (_ & -> & _)|done].
Qed.

Lemma same_wires_feeds m m' : mesh_ok m → same_wires m m' → same_feeds m m'.
Proof.
  intros Hok Hw. destruct (same_wires_ok m m' Hok Hw) as (_ & Hsh & _). destruct Hw as (Hc & He & _ & _ & _ & E). split_and!; try done.
  intros p. specialize (E p). destruct (connectors m' !! p), (connectors m !! p); try done. cbn in *. by injection E as -> _ _ _ _.
Qed.

Lemma poll_connectors_ok l : ∀ st m, mesh_ok m → (∀ p, p ∈ l → p ∈ connector_order m) →
  wp (poll_connectors l st) m (λ _ m', same_feeds m m').
Proof.
  induction l as [|p l IH]; intros [repoll changed] m Hok Hl; cbn [poll_connectors]; [exact (same_feeds_refl m)|]. apply wp_bind.
  eapply (wp_mono _ _ (λ _ m', mesh_ok m' ∧ same_feeds m m')).
  - unfold poll_connector. apply wp_connector; [done|apply Hl; by left|]. intros k Hk. destruct (forced k); [done|]. destruct (_ || _); [done|].
    destruct (_ && _); [done|]. apply wp_bind. eapply wp_mono; [exact (hushed_hcall _ m Hok)|]. intros new m1 [a ->]. cbv beta. apply wp_bind.
    eapply wp_of; [apply (upd_connector_run (set_hdrv a m) p k _ Hk)|]. cbv beta. unfold wp, mret, M_ret.
    split; [apply (upd_connector_ok _ p k); [by apply set_hdrv_ok|done|exact (o_feed _ Hok p k Hk)]|]. split; [done|]. split; [done|].
    split; [exact (upd_connector_shape (set_hdrv a m) p k _ Hk)|]. intros q. cbn. destruct (decide (q = p)) as [->|]; [by rewrite lookup_insert_eq, Hk|by rewrite lookup_insert_ne].
  - intros st1 m1 [Hok1 Hf1]. cbv beta. eapply wp_mono; [apply (IH st1 m1 Hok1)|].
    + intros q Hq. destruct Hf1 as (_ & _ & (_ & _ & -> & _) & _). apply Hl. by right.
    + intros st2 m2 Hf2. exact (same_feeds_trans _ _ _ Hf1 Hf2).
Qed.

Lemma output_poll_ok poll m : mesh_ok m → consistent m → wp (output_poll_execute poll) m (λ _ m', kept m m').
Proof.
  intros Hok Hcons. unfold output_poll_execute. destruct poll; cbn [negb]; [|by split].
  apply wp_bind. eapply wp_of; [done|]. cbv beta. apply wp_bind.
  eapply wp_mono; [exact (poll_connectors_ok (connector_order m) (false, false) m Hok (λ p Hp, Hp))|]. intros [repoll changed] m1 Hf. cbv beta iota.
  destruct (same_feeds_kept m m1 Hok Hcons Hf) as (Hok1 & Hsh1 & Hcons1). apply wp_bind.
  eapply wp_mono; [exact (hushed_when changed _ (hushed_tell OutputPollChanged) m1 Hok1)|]. intros ? m2 [a ->]. cbv beta. unfold wp, mret, M_ret.
  split; [by apply set_hdrv_ok|]. by split.
Qed.

Lemma dpms_kept p mode m : mesh_ok m → consistent m → p ∈ connector_order m → wp (drm_helper_connector_dpms p mode) m (λ _ m', kept m m').
Proof.
  intros Hok Hcons Hp. eapply wp_mono; [exact (connector_dpms_ok m p mode Hok Hp)|]. intros ? m' Hw.
  apply same_feeds_kept; [done|done|]. by apply same_wires_feeds.
Qed.

Lemma resume_loop_ok dups m : mesh_ok m →
  wp (for_each (crtc_order m) (λ c,
    k ← hcrtc_at c;
    when (enabled k) (
      drm_crtc_helper_set_mode c (hc_mode k) (hc_x k) (hc_y k) (hc_fb k) (dups c);;
      d ← drm_helper_choose_crtc_dpms c;
      when (z2b d) (
        for_encoders_of c (λ e,
          when (encoder_has_dpms e) (d ← drm_helper_choose_encoder_dpms e; tell (EncoderDpms e d)));;
        when (crtc_has_dpms c) (d ← drm_helper_choose_crtc_dpms c; tell (CrtcDpms c d))))))
   m (λ _ m', mesh_ok m' ∧ shape m m').
Proof.
  intros Hok. eapply wp_mono; [apply (for_each_inv (λ m', mesh_ok m' ∧ shape m m') (λ _ _, True))|].
  - intros c m1 Hc [Hok1 Hsh1]. assert (c ∈ crtc_order m1) as Hc1 by (by destruct Hsh1 as (-> & _)). apply (o_crtcs _ Hok1) in Hc1 as [k Hk].
    apply wp_bind. eapply wp_of; [by apply hcrtc_at_run|]. cbv beta. destruct (enabled k); cbn [when]; [|done]. apply wp_bind.
    eapply wp_mono; [exact (set_mode_ok m1 c k _ _ _ _ _ Hok1 Hk)|]. intros ? m2 (a & k' & -> & _). cbv beta.
    destruct (with_crtc_at_ok m1 c k k' a Hok1 Hk) as [Hok2 Hsh2].
    enough (hushed (d ← drm_helper_choose_crtc_dpms c;
      when (z2b d) (
        for_encoders_of c (λ e,
          when (encoder_has_dpms e) (d ← drm_helper_choose_encoder_dpms e; tell (EncoderDpms e d)));;
        when (crtc_has_dpms c) (d ← drm_helper_choose_crtc_dpms c; tell (CrtcDpms c d))))) as Hh.
    { eapply wp_mono; [exact (Hh _ Hok2)|]. intros ? m3 Hq. split; [|done]. split; [exact (quiet_ok _ _ Hq Hok2)|].
      destruct Hq as [a2 ->]. exact (shape_trans _ _ _ Hsh1 Hsh2). }
    apply hushed_bind; [apply hushed_choose_crtc|]. intros d. apply hushed_when, hushed_bind.
    + apply hushed_encoders_of. intros e. apply hushed_when, hushed_bind; [apply hushed_choose_encoder|]. intros d'. apply hushed_tell.
    + intros _. apply hushed_when, hushed_bind; [apply hushed_choose_crtc|]. intros d'. apply hushed_tell.
  - done.
  - by intros ? m' [? _].
Qed.

Lemma resume_ok dups m : mesh_ok m → wp (drm_helper_resume_force_mode dups) m (λ _ m', kept m m').
Proof.
  intros Hok. unfold drm_helper_resume_force_mode. apply wp_bind. eapply wp_of; [done|]. cbv beta. apply wp_bind.
  eapply wp_mono; [exact (resume_loop_ok dups m Hok)|]. intros ? m1 [Hok1 Hsh1]. cbv beta.
  eapply wp_mono; [exact (disable_unused_ok m1 Hok1)|]. intros ? m2 (Hok2 & Hsh2 & Hcons & _).
  split; [done|]. split; [exact (shape_trans _ _ _ Hsh1 Hsh2)|done].
Qed.

Lemma move_panels_ok m : mesh_ok m → consistent m →
  wp drm_helper_move_panel_connectors_to_head m (λ _ m', mesh_ok m' ∧ consistent m').
Proof.
  intros Hok Hcons. unfold drm_helper_move_panel_connectors_to_head. apply wp_bind. eapply wp_of; [done|]. cbv beta zeta.
  eapply wp_of; [done|]. set (l := filter _ _ ++ filter _ _). assert (∀ p, p ∈ l ↔ p ∈ connector_order m) as Hl.
  { intros p. unfold l. rewrite elem_of_app, !list_elem_of_filter. destruct (match connectors m !! p with Some k => panel k | None => false end); naive_solver. }
  clearbody l. assert (mesh_ok (set_connector_order l m)) as Hok' by (split; try apply Hok; intros p; cbn; rewrite Hl; apply (o_connectors _ Hok)).
  split; [done|]. assert (∀ e, encoder_used (set_connector_order l m) e = encoder_used m e) as Hu.
  { intros e. apply eq_true_iff_eq. by rewrite !encoder_used_spec. }
  apply (consistent_same m); try done. by apply crtc_used_same.
Qed.

(** ** All operations *)

(** A mesh as the driver builds it: nothing is on. *)
Definition all_off m : Prop :=
  mesh_ok m ∧ (∀ c k, crtcs m !! c = Some k → enabled k = false ∧ hc_fb k = 0) ∧ (∀ e k, encoders m !! e = Some k → enc_crtc k = 0).

Definition op_allowed (o : helper_op) m : Prop :=
  match o with
  | SetConfig format set _ => request_ok format set m
  | ConnectorDpms p _ => p ∈ connector_order m
  | _ => True
  end.

Inductive helper_reachable : mesh A → Prop :=
  | reach_fresh m : all_off m → helper_reachable m
  | reach_op m o m' : helper_reachable m → op_allowed o m → run_helper_op o m = Some (tt, m') → helper_reachable m'.

Lemma fresh_consistent m : all_off m → consistent m.
Proof.
  intros (Hok & Hc & He). split; [intros e k Hk; left; by apply (He e)|]. intros c k Hk. destruct (Hc c k Hk) as [-> Hf].
  split; [|done]. destruct (crtc_used m c) eqn:Hu; [|done]. apply (crtc_used_spec m c Hok) in Hu as (e & x & p & q & Hx & <- & _).
  rewrite (He e x Hx) in Hk. destruct (o_null _ Hok). congruence.
Qed.

Lemma run_helper_op_ok o m : mesh_ok m → consistent m → op_allowed o m → wp (run_helper_op o) m (λ _ m', mesh_ok m' ∧ consistent m').
Proof.
  intros Hok Hcons Ho. destruct o as [format set e|p mode|dups|poll| |]; cbn [run_helper_op op_allowed] in *.
  - apply wp_bind. eapply wp_mono; [by apply set_config_settled|]. intros ret m' (Hok' & _ & Hcons' & _). by split.
  - eapply wp_mono; [by apply dpms_kept|]. by intros ? m' (? & _ & ?).
  - eapply wp_mono; [by apply resume_ok|]. by intros ? m' (? & _ & ?).
  - apply wp_bind. eapply wp_mono; [by apply output_poll_ok|]. intros ret m' (? & _ & ?). by split.
  - eapply wp_mono; [by apply disable_unused_ok|]. by intros ? m' (? & _ & ? & _).
  - by apply move_panels_ok.
Qed.

Lemma reachable_sound m : helper_reachable m → mesh_ok m ∧ consistent m.
Proof.
  induction 1 as [m Hf|m o m' _ [Hok Hcons] Ho Hrun]; [split; [apply Hf|by apply fresh_consistent]|].
  destruct (wp_run _ _ _ (run_helper_op_ok o m Hok Hcons Ho)) as (? & m2 & Hrun2 & Hs). rewrite Hrun in Hrun2. by injection Hrun2 as <- <-.
Qed.

(** C12 (crtcs_on_iff_used): in every state that the helpers reach, from a mesh with
    everything off and by configurations of any result, power management, polling,
    resume and clean-up, a crtc is enabled exactly if it drives an encoder that
    feeds a connector, a crtc that is not shows no framebuffer, an encoder that
    feeds nothing has no crtc, and every further operation comes to its end without
    following a NULL or dangling pointer. *)
Theorem crtcs_on_iff_used m : helper_reachable m →
  (∀ c k, crtcs m !! c = Some k →
    (enabled k = true ↔ ∃ e x p q, encoders m !! e = Some x ∧ enc_crtc x = c ∧ connectors m !! p = Some q ∧ conn_encoder q = e) ∧
    (enabled k = false → hc_fb k = 0)) ∧
  (∀ e x, encoders m !! e = Some x → enc_crtc x = 0 ∨ ∃ p q, connectors m !! p = Some q ∧ conn_encoder q = e) ∧
  ∀ o, op_allowed o m → ∃ m', run_helper_op o m = Some (tt, m').
Proof.
  intros [Hok Hcons]%reachable_sound. pose proof Hcons as [He Hc]. split; [|split].
  - intros c k Hk. destruct (Hc c k Hk) as [-> Hf]. split; [by apply crtc_used_spec|done].
  - intros e x Hx. rewrite <- (encoder_used_spec m e Hok). by apply (He e).
  - intros o Ho. destruct (wp_run _ _ _ (run_helper_op_ok o m Hok Hcons Ho)) as ([] & m' & Hrun & _). by exists m'.
Qed.


(** C14 (set_config_shows): when the driver always proposes the same encoder for a
    connector, a successful request with a framebuffer turns the screen on: each of
    its connectors that has something plugged in, and whose encoder feeds no
    connector outside the request, is fed by that encoder, which the crtc of the
    request drives, and the crtc is enabled with the framebuffer, position and mode
    of the request. *)
Theorem set_config_shows format set e b m m' p k : mesh_ok m → consistent m → request_ok format set m → ms_fb set ≠ 0 →
  (∀ a q, (best_encoder a q).1 = b q) →
  p ∈ ms_connectors set → connectors m !! p = Some k → conn_status k ≠ connector_status_disconnected →
  (∀ q z, connectors m !! q = Some z → q ∉ ms_connectors set → conn_encoder z ≠ b p) →
  drm_crtc_helper_set_config format set e m = Some (0, m') →
  (∃ k' x, connectors m' !! p = Some k' ∧ conn_encoder k' = b p ∧ encoders m' !! b p = Some x ∧ enc_crtc x = ms_crtc set) ∧
  ∃ r mode, crtcs m' !! ms_crtc set = Some r ∧ enabled r = true ∧ hc_fb r = ms_fb set ∧ hc_x r = ms_x set ∧ hc_y r = ms_y set ∧
    ms_mode set = Some mode ∧ drm_mode_equal mode (hc_mode r) = true.
Proof.
  intros Hok Hcons Hreq Hfb Hb Hp Hk Hs Hown Hrun.
  destruct (wp_run _ _ _ (set_config_settled format set e m Hok Hcons Hreq)) as (ret & m1 & Hrun1 & Hok' & Hsh & [_ Hc'] & Hgood & _).
  rewrite Hrun in Hrun1. injection Hrun1 as <- <-. destruct (Hgood eq_refl) as [Hconf Hlit].
  assert (lit p (b p) (ms_crtc set) m') as Hl by (apply (Hlit Hfb b Hb); split; [done|]; split; [by exists k|done]).
  pose proof (lit_used _ _ _ _ Hok' Hl) as Hu. destruct Hl as (k' & x & Hk' & _ & He & Hx & Hxc). split; [by exists k', x|].
  assert (is_Some (crtcs m' !! ms_crtc set)) as [r Hr] by (apply Hsh; apply Hreq).
  destruct (Hc' _ r Hr) as [Hen _]. rewrite Hu in Hen. destruct (Hconf _ r Hr) as (r0 & _ & [[]|[[? _]|(_ & ? & ? & ? & mode & ? & ?)]]); [done|congruence|].
  by exists r, mode.
Qed.
End HelperInv.

(** ** A driver: it always proposes the same encoder and refuses no mode *)

Definition demo_dpms : DpmsH := {| DRM_MODE_DPMS_ON := 0; DRM_MODE_DPMS_OFF := 3 |}.

(** Connectors 31 and 32 share the encoder 21; 33 has 22. *)
Definition demo_encoder (p : Z) : Z := if p =? 33 then 22 else 21.

Definition demo_driver : HelperDriver (list callback).
Proof.
  refine {| notify a cb := a ++ [cb]; best_encoder a p := (demo_encoder p, a); encoder_mode_fixup a _ _ adj := (true, adj, a);
    crtc_mode_fixup a _ _ adj := (true, adj, a); crtc_mode_set a _ _ adj _ _ _ := (0, adj, a);
    crtc_mode_set_base := None; get_crtc := None; detect a _ := (connector_status_connected, a);
    crtc_has_dpms _ := true; crtc_has_disable _ := false; encoder_has_dpms _ := true; encoder_has_disable _ := true |}; done.
Defined.
#[local] Existing Instance demo_driver.
#[local] Existing Instance demo_dpms.
#[local] Existing Instance Modes.interface_modes.

Definition demo_connector : drm_connector := mk_connector 0 connector_status_connected 3 false 6 false.
Definition off_mode : drm_display_mode := Modes.demo_mode 0 0 0 0 0.

Definition demo_mesh (order : list Z) : mesh (list callback) :=
  mk_mesh {[11 := mk_hcrtc false 0 0 0 off_mode off_mode]} {[21 := mk_encoder 0 1; 22 := mk_encoder 0 1]}
    {[31 := demo_connector; 32 := demo_connector; 33 := demo_connector]} [11] [21; 22] order [].

Definition demo_set (l : list Z) : drm_mode_set := mk_set 11 100 0 0 (Some (Modes.demo_mode 1024 768 60 65000 0)) l.
Definition demo_env : config_env := mk_config_env true (Some 7) (Some 8).
Definition demo_format (p : Z) : option Z := if p =? 100 then Some 1 else None.
Definition demo_config (l : list Z) : M (mesh (list callback)) Z := drm_crtc_helper_set_config demo_format (demo_set l) demo_env.

Lemma demo_keys {X} (l : list Z) (x : gmap Z X) : dom x = (list_to_set l : gset Z) → ∀ p, p ∈ l ↔ is_Some (x !! p).
Proof. intros Hl p. by rewrite <- elem_of_dom, Hl, elem_of_list_to_set. Qed.

Lemma demo_fresh order : order ≡ₚ [31; 32; 33] → all_off (demo_mesh order).
Proof.
  intros Ho. split; [split|split].
  - apply demo_keys. reflexivity.
  - apply demo_keys. reflexivity.
  - intros p. cbn. rewrite Ho. apply demo_keys. reflexivity.
  - done.
  - intros p k Hk. left. cbn in Hk. by repeat (apply lookup_insert_Some in Hk as [[_ <-]|[_ Hk]]; [done|]); apply lookup_singleton_Some in Hk as [_ <-].
  - intros p k Hk. left. cbn in Hk. by repeat (apply lookup_insert_Some in Hk as [[_ <-]|[_ Hk]]; [done|]); apply lookup_singleton_Some in Hk as [_ <-].
  - intros a p. right. cbn. unfold demo_encoder. destruct (p =? 33); by eexists.
  - intros c k Hk. cbn in Hk. by apply lookup_singleton_Some in Hk as [_ <-].
  - intros e k Hk. cbn in Hk. by repeat (apply lookup_insert_Some in Hk as [[_ <-]|[_ Hk]]; [done|]); apply lookup_singleton_Some in Hk as [_ <-].
Qed.

(** The result, and whether the crtc is on with which framebuffer. *)
Definition demo_run (c : M (mesh (list callback)) Z) m : option (Z * option (bool * Z)) :=
  '(ret, m') ← c m; Some (ret, (λ k, (enabled k, hc_fb k)) <$> crtcs m' !! 11).

Lemma demo_request l (m : mesh (list callback)) k : crtcs m !! 11 = Some k → hc_fb k = 0 ∨ hc_fb k = 100 → l ≠ [] → (∀ p, p ∈ l → p ∈ connector_order m) →
  request_ok demo_format (demo_set l) m.
Proof.
  intros Hk Hf Hl Hin. split.
  - by exists k.
  - exact Hin.
  - intros _. split; [by eexists|]. split; [exact Hl|by eexists].
  - intros k'. cbn. rewrite Hk. intros [= <-]. destruct Hf as [->| ->]; [by left|right; by eexists].
Qed.

(** Two connectors share an encoder, the crtc shows a framebuffer on one of them and
    is asked to show it on the other instead.  The call succeeds, and with one order
    of the connectors the screen goes dark. *)
Lemma shared_encoder_order :
  demo_run (demo_config [31];; demo_config [32]) (demo_mesh [31; 32; 33]) = Some (0, Some (true, 100)) ∧
  demo_run (demo_config [31];; demo_config [32]) (demo_mesh [32; 31; 33]) = Some (0, Some (false, 0)).
Proof. split; vm_compute; reflexivity. Qed.

Definition demo_dark : mesh (list callback) := demo_mesh [31; 32; 33].

Lemma demo_dark_request l : l ≠ [] → (∀ p, p ∈ l → p ∈ [31; 32; 33]) → request_ok demo_format (demo_set l) demo_dark.
Proof. intros Hl Hin. apply (demo_request l demo_dark (mk_hcrtc false 0 0 0 off_mode off_mode)); [reflexivity|by left|exact Hl|exact Hin]. Qed.

(** A run of a request with its result and the crtc at its end. *)
Lemma demo_result l e r k : (λ x, (x.1, crtcs x.2 !! 11)) <$> drm_crtc_helper_set_config demo_format (demo_set l) e demo_dark = Some (r, Some k) →
  ∃ m, drm_crtc_helper_set_config demo_format (demo_set l) e demo_dark = Some (r, m) ∧ crtcs m !! 11 = Some k.
Proof. destruct (drm_crtc_helper_set_config _ _ _ _) as [[r' m]|]; [|discriminate]. cbn. intros [= -> Hk]. by exists m. Qed.

Definition demo_on : helper_crtc :=
  mk_hcrtc true 100 0 0 (Modes.demo_mode 1024 768 60 65000 0)
    (default off_mode (drm_mode_duplicate (Some 7) (Modes.demo_mode 1024 768 60 65000 0))).

Lemma crtcs_on_iff_used_witness : ∃ m, demo_config [33] demo_dark = Some (0, m) ∧ crtcs m !! 11 = Some demo_on ∧
  (enabled demo_on = true ↔ ∃ e x p q, encoders m !! e = Some x ∧ enc_crtc x = 11 ∧ connectors m !! p = Some q ∧ conn_encoder q = e).
Proof.
  destruct (demo_result [33] demo_env 0 demo_on) as (m & Hrun & Hk); [vm_compute; reflexivity|]. exists m. split; [exact Hrun|]. split; [exact Hk|].
  pose proof (demo_fresh [31; 32; 33] (Permutation_refl _)) as Hf.
  assert (request_ok demo_format (demo_set [33]) demo_dark) as Hreq.
  { apply demo_dark_request; [done|]. intros p ->%list_elem_of_singleton. do 2 right. by left. }
  apply (crtcs_on_iff_used m); [|exact Hk].
  apply (reach_op _ (SetConfig demo_format (demo_set [33]) demo_env) m (reach_fresh _ Hf) Hreq). exact (M_bind_Some _ _ _ _ _ Hrun).
Defined.


Lemma set_config_shows_witness : ∃ m', demo_config [31; 33] demo_dark = Some (0, m') ∧
  (∃ k' x, connectors m' !! 33 = Some k' ∧ conn_encoder k' = 22 ∧ encoders m' !! 22 = Some x ∧ enc_crtc x = 11) ∧
  ∃ r mode, crtcs m' !! 11 = Some r ∧ enabled r = true ∧ hc_fb r = 100 ∧ hc_x r = 0 ∧ hc_y r = 0 ∧
    Some (Modes.demo_mode 1024 768 60 65000 0) = Some mode ∧ drm_mode_equal mode (hc_mode r) = true.
Proof.
  destruct (demo_fresh [31; 32; 33] (Permutation_refl _)) as [Hf _]. pose proof (fresh_consistent _ (demo_fresh [31; 32; 33] (Permutation_refl _))) as Hc.
  destruct (demo_result [31; 33] demo_env 0 demo_on) as (m & Hrun & _); [vm_compute; reflexivity|]. exists m. split; [exact Hrun|].
  apply (set_config_shows demo_format (demo_set [31; 33]) demo_env demo_encoder demo_dark m 33 demo_connector Hf Hc); try done.
  - apply demo_dark_request; [done|]. intros p [->| ->%list_elem_of_singleton]%elem_of_cons; [by left|do 2 right; by left].
  - right. by left.
  - intros q z Hq _. cbn in Hq. by repeat (apply lookup_insert_Some in Hq as [[_ <-]|[_ Hq]]; [done|]); apply lookup_singleton_Some in Hq as [_ <-].
Defined.
