(* ===== verification/Timers.v ===== *)
(** * drm_sun_timer.c and the timer of the hot plug polling

    The timers of the port are built on timeout(9F) and untimeout(9F).  The first
    part runs their three operations as threads, one step per access to the timer
    and per call of the kernel, on any number of processors: mod_timer never has
    two timeouts outstanding, test_set_timer can lose one.  The second part is the
    polling of connectors in drm_crtc_helper.c: timer, work queue and detection on
    the mesh of [CrtcHelper]; when polling goes on and what stops it. *)

From stdpp Require Import base option list gmap.
From Stdlib Require Import ZArith Lia.
From S2P Require Import Prelude LinuxList Modes FrameBuf CrtcHelper CrtcHelperInv.
#[local] Open Scope Z_scope.

(** ** Timers *)

(** The fields of [struct timer_list] that the functions use. *)
Record timer_list := mk_timer { expires : Z; expired_time : Z; timer_id : Z }.

(** Of two [long]s. *)
Definition time_after (a b : Z) : bool := swrap 64 (swrap 64 b - swrap 64 a) <? 0.

(** The time in ticks and the outstanding timeouts with the tick at which they are
    due. *)
Record callouts := mk_callouts { jiffies : Z; pending : gmap Z Z }.

(** timeout(9F) returns an id that no outstanding timeout has. *)
Class Timeouts := {
  fresh_timeout : gmap Z Z → Z;
  fresh_timeout_new p : p !! fresh_timeout p = None;
}.

Section Timer.
Context `{Timeouts}.

Definition timeout (ticks : Z) (k : callouts) : Z * callouts :=
  let id := fresh_timeout (pending k) in (id, mk_callouts (jiffies k) (<[id := jiffies k + ticks]> (pending k))).

Definition untimeout (id : Z) (k : callouts) : callouts := mk_callouts (jiffies k) (delete id (pending k)).

Definition set_expires (z : Z) (t : timer_list) : timer_list := mk_timer z (expired_time t) (timer_id t).
Definition set_expired_time (z : Z) (t : timer_list) : timer_list := mk_timer (expires t) z (timer_id t).
Definition set_timer_id (z : Z) (t : timer_list) : timer_list := mk_timer (expires t) (expired_time t) z.

Definition setup_timer (t : timer_list) : timer_list := set_expired_time 0 t.

(** Where a thread is in one of the functions; [ticks] is the argument expires. *)
Inductive timer_pc :=
  | ModTimer (ticks : Z)
  | ModUntimeout (ticks : Z)
  | ModExpired (ticks : Z)
  | ModTimeout (ticks : Z)
  | ModStore (id : Z)
  | ModUnlock
  | TestSetTimer (ticks : Z)
  | TestExpired (ticks : Z)
  | TestTimeout (ticks : Z)
  | TestStore (id : Z)
  | DelTimer
  | Returned.

(** The next access of a thread.  The test and the mark of mod_timer are under the
    lock of the timer, and so is the end. *)
Definition thread_step (pc : timer_pc) (t : timer_list) (k : callouts) : timer_pc * timer_list * callouts :=
  match pc with
  | ModTimer ticks => if expires t =? -1 then (Returned, t, k) else (ModUntimeout ticks, set_expires (-1) t, k)
  | ModUntimeout ticks => (ModExpired ticks, t, untimeout (timer_id t) k)
  | ModExpired ticks => (ModTimeout ticks, set_expired_time (wrap 64 (jiffies k + ticks)) t, k)
  | ModTimeout ticks => let '(id, k) := timeout ticks k in (ModStore id, t, k)
  | ModStore id => (ModUnlock, set_timer_id id t, k)
  | ModUnlock => (Returned, set_expires 0 t, k)
  | TestSetTimer ticks => if time_after (jiffies k) (expired_time t) then (TestExpired ticks, t, k) else (Returned, t, k)
  | TestExpired ticks => (TestTimeout ticks, set_expired_time (wrap 64 (jiffies k + ticks)) t, k)
  | TestTimeout ticks => let '(id, k) := timeout ticks k in (TestStore id, t, k)
  | TestStore id => (Returned, set_timer_id id t, k)
  | DelTimer => (Returned, t, untimeout (timer_id t) k)
  | Returned => (Returned, t, k)
  end.

(** A timer that threads share. *)
Record timer_sys := mk_sys { tmr : timer_list; kern : callouts; threads : list timer_pc }.

(** [calls]: the calls that happen. *)
Inductive tstep (calls : timer_pc → Prop) (s : timer_sys) : timer_sys → Prop :=
  | t_call pc : calls pc → tstep calls s (mk_sys (tmr s) (kern s) (threads s ++ [pc]))
  | t_run i pc pc' t k : threads s !! i = Some pc → thread_step pc (tmr s) (kern s) = (pc', t, k) →
      tstep calls s (mk_sys t k (<[i := pc']> (threads s)))
  | t_tick : tstep calls s (mk_sys (tmr s) (mk_callouts (jiffies (kern s) + 1) (pending (kern s))) (threads s))
  | t_fire id due : pending (kern s) !! id = Some due → due <= jiffies (kern s) →
      tstep calls s (mk_sys (tmr s) (untimeout id (kern s)) (threads s)).

Definition timer_start (now : Z) : timer_sys := mk_sys (mk_timer 0 0 0) (mk_callouts now ∅) [].

Definition mod_or_del (pc : timer_pc) : Prop := match pc with ModTimer _ | DelTimer => True | _ => False end.
Definition any_call (pc : timer_pc) : Prop := match pc with ModTimer _ | DelTimer | TestSetTimer _ => True | _ => False end.

(** ** mod_timer is exclusive *)

(** Between the lock and the unlock of mod_timer. *)
Definition critical (pc : timer_pc) : bool :=
  match pc with ModUntimeout _ | ModExpired _ | ModTimeout _ | ModStore _ | ModUnlock => true | _ => false end.

Definition in_test_set (pc : timer_pc) : bool :=
  match pc with TestSetTimer _ | TestExpired _ | TestTimeout _ | TestStore _ => true | _ => false end.

Definition only (p : gmap Z Z) (id : Z) : Prop := ∀ i, is_Some (p !! i) → i = id.

(** What the outstanding timeouts are while a thread is at [pc]. *)
Definition phase (pc : timer_pc) (t : timer_list) (k : callouts) : Prop :=
  match pc with
  | ModExpired _ | ModTimeout _ => pending k = ∅
  | ModStore id => only (pending k) id
  | _ => only (pending k) (timer_id t)
  end.

Record exclusive (s : timer_sys) : Prop := {
  x_one i j pc pc' : threads s !! i = Some pc → threads s !! j = Some pc' → critical pc = true → critical pc' = true → i = j;
  x_in i pc : threads s !! i = Some pc → critical pc = true → expires (tmr s) = -1 ∧ phase pc (tmr s) (kern s);
  x_out : (∀ i pc, threads s !! i = Some pc → critical pc = false) → expires (tmr s) ≠ -1 ∧ only (pending (kern s)) (timer_id (tmr s));
  x_test i pc : threads s !! i = Some pc → in_test_set pc = false;
}.

Lemma only_delete p id i : only p id → only (delete i p) id.
Proof. intros Ho j [x Hx]. apply lookup_delete_Some in Hx as [_ Hx]. apply Ho. by exists x. Qed.
Lemma only_self p id : only p id → delete id p = ∅.
Proof.
  intros Ho. apply map_eq. intros i. rewrite lookup_empty. destruct (decide (i = id)) as [->|Hi]; [apply lookup_delete_eq|].
  rewrite lookup_delete_ne by done. apply eq_None_not_Some. intros Hs. by apply Hi, Ho.
Qed.
Lemma only_empty id : only ∅ id.
Proof. intros i [x Hx]. by rewrite lookup_empty in Hx. Qed.

Lemma phase_delete pc t k id : phase pc t k → phase pc t (untimeout id k).
Proof. destruct pc; cbn; try apply only_delete; intros ->; apply delete_empty. Qed.

(** A step that keeps the timer and only takes timeouts away. *)
Lemma exclusive_untimeout s id : exclusive s → exclusive (mk_sys (tmr s) (untimeout id (kern s)) (threads s)).
Proof.
  intros [H1 H2 H3 H4]. split; cbn; [done| | |done].
  - intros i pc Hi Hc. destruct (H2 i pc Hi Hc) as [He Hp]. split; [done|]. by apply phase_delete.
  - intros Hn. destruct (H3 Hn) as [He Ho]. split; [done|]. by apply only_delete.
Qed.

Lemma updated_at (l : list timer_pc) i j pc pc' : <[i := pc]> l !! j = Some pc' → j = i ∧ pc' = pc ∨ j ≠ i ∧ l !! j = Some pc'.
Proof. intros [(-> & -> & _)|[? ?]]%list_lookup_insert_Some; [by left|by right]. Qed.

(** The thread [i] goes from a place outside of mod_timer to another. *)
Lemma exclusive_outside s i pc pc' : exclusive s → threads s !! i = Some pc → critical pc = false → critical pc' = false → in_test_set pc' = false →
  exclusive (mk_sys (tmr s) (kern s) (<[i := pc']> (threads s))).
Proof.
  intros [H1 H2 H3 H4] Hi Hc Hc' Ht. split; cbn.
  - intros j j' q q' [[-> ->]|[? Hj]]%updated_at [[-> ->]|[? Hj']]%updated_at; try congruence. by apply (H1 _ _ q q').
  - intros j q [[-> ->]|[? Hj]]%updated_at Hq; [congruence|]. by apply (H2 j).
  - intros Hn. apply H3. intros j q Hj. destruct (decide (j = i)) as [->|Hne]; [congruence|]. apply (Hn j). by rewrite list_lookup_insert_ne.
  - intros j q [[-> ->]|[? Hj]]%updated_at; [done|by apply (H4 j)].
Qed.

(** It moves while no other is inside. *)
Lemma exclusive_alone s i pc pc' t k : exclusive s → threads s !! i = Some pc →
  (∀ j q, j ≠ i → threads s !! j = Some q → critical q = false) → in_test_set pc' = false →
  (if critical pc' then expires t = -1 ∧ phase pc' t k else expires t ≠ -1 ∧ only (pending k) (timer_id t)) →
  exclusive (mk_sys t k (<[i := pc']> (threads s))).
Proof.
  intros [H1 H2 H3 H4] Hi Hothers Ht Hph. split; cbn.
  - intros j j' q q' [[-> ->]|[? Hj]]%updated_at [[-> ->]|[? Hj']]%updated_at Hq Hq'; [done| | |].
    + by rewrite (Hothers j' q') in Hq'.
    + by rewrite (Hothers j q) in Hq.
    + by rewrite (Hothers j q) in Hq.
  - intros j q [[-> ->]|[? Hj]]%updated_at Hq; [by rewrite Hq in Hph|]. by rewrite (Hothers j q) in Hq.
  - intros Hn. rewrite (Hn i pc') in Hph; [done|]. apply list_lookup_insert_eq. by eapply lookup_lt_Some.
  - intros j q [[-> ->]|[? Hj]]%updated_at; [done|by apply (H4 j)].
Qed.

Lemma exclusive_run s i pc pc' t k : exclusive s → threads s !! i = Some pc → thread_step pc (tmr s) (kern s) = (pc', t, k) →
  exclusive (mk_sys t k (<[i := pc']> (threads s))).
Proof.
  intros Hx Hi Hstep. pose proof Hx as [H1 H2 H3 H4]. pose proof (H4 i pc Hi) as Ht.
  destruct (critical pc) eqn:Hc.
  - destruct (H2 i pc Hi Hc) as [He Hp].
    assert (∀ j q, j ≠ i → threads s !! j = Some q → critical q = false) as Hothers.
    { intros j q Hj Hq. destruct (critical q) eqn:Hcq; [|done]. destruct Hj. by apply (H1 j i q pc). }
    destruct pc; try discriminate; cbn in Hstep; injection Hstep as <- <- <-;
      apply (exclusive_alone s i _ _ _ _ Hx Hi Hothers); cbn; try done.
    + split; [done|]. by apply only_self.
    + split; [done|]. cbn in Hp. rewrite Hp. intros j [x Hx']. by apply lookup_singleton_Some in Hx' as [<- _].
  - destruct pc; try discriminate; cbn in Hstep.
    + destruct (Z.eqb_spec (expires (tmr s)) (-1)) as [He|He]; injection Hstep as <- <- <-; [by apply (exclusive_outside s i (ModTimer ticks))|].
      assert (∀ j q, threads s !! j = Some q → critical q = false) as Hnone.
      { intros j q Hq. destruct (critical q) eqn:Hcq; [|done]. by destruct (H2 j q Hq Hcq). }
      apply (exclusive_alone s i _ _ _ _ Hx Hi); [by intros j q _; apply Hnone|done|]. cbn. split; [done|]. by apply H3.
    + injection Hstep as <- <- <-. apply (exclusive_outside (mk_sys (tmr s) (untimeout (timer_id (tmr s)) (kern s)) (threads s)) i DelTimer); try done.
      by apply exclusive_untimeout.
    + injection Hstep as <- <- <-. by apply (exclusive_outside s i Returned).
Qed.

Lemma exclusive_start now : exclusive (timer_start now).
Proof. by split; cbn; [intros ????|intros ??|intros _; split; [|apply only_empty]|intros ??]. Qed.

Lemma exclusive_step s s' : exclusive s → tstep mod_or_del s s' → exclusive s'.
Proof.
  intros Hx Hstep. inversion Hstep as [pc Hpc|i pc pc' t k Hi Hrun| |id due Hid Hdue]; subst.
  - assert (critical pc = false ∧ in_test_set pc = false) as [Hc Ht] by (by destruct pc). destruct Hx as [H1 H2 H3 H4].
    assert (∀ j q, (threads s ++ [pc]) !! j = Some q → threads s !! j = Some q ∨ q = pc) as Hat.
    { intros j q [?|[_ [_ Heq]%list_lookup_singleton_Some]]%lookup_app_Some; [by left|by right]. }
    split; cbn.
    + intros j j' q q' [Hj| ->]%Hat [Hj'| ->]%Hat; try congruence. by apply (H1 _ _ q q').
    + intros j q [Hj| ->]%Hat Hq; [by apply (H2 j)|congruence].
    + intros Hn. apply H3. intros j q Hj. apply (Hn j). by apply lookup_app_l_Some.
    + intros j q [Hj| ->]%Hat; [by apply (H4 j)|done].
  - by apply (exclusive_run s i pc).
  - destruct Hx as [H1 H2 H3 H4]. split; cbn; [done| | |done].
    + intros i pc Hi Hc. destruct (H2 i pc Hi Hc) as [He Hp]. split; [done|]. by destruct pc.
    + exact H3.
  - by apply exclusive_untimeout.
Qed.

(** C31 (mod_timer_exclusive): whatever threads call mod_timer and del_timer on a
    timer, however their accesses interleave and whenever timeouts fire, at most
    one timeout is outstanding, one thread at a time is past the mark of mod_timer,
    and once none is the timer holds the id of the timeout: del_timer takes it back,
    so that nothing fires after it. *)
Theorem mod_timer_exclusive now s : star (tstep mod_or_del) (timer_start now) s →
  (∀ id id', is_Some (pending (kern s) !! id) → is_Some (pending (kern s) !! id') → id = id') ∧
  (∀ i j pc pc', threads s !! i = Some pc → threads s !! j = Some pc' → critical pc = true → critical pc' = true → i = j) ∧
  ((∀ i pc, threads s !! i = Some pc → critical pc = false) →
    thread_step DelTimer (tmr s) (kern s) = (Returned, tmr s, mk_callouts (jiffies (kern s)) ∅)).
Proof.
  intros Hstar. pose proof (star_invariant _ exclusive _ _ exclusive_step (exclusive_start now) Hstar) as Hx.
  pose proof Hx as [H1 H2 H3 _]. split; [|split; [exact H1|]].
  - assert (∃ id, only (pending (kern s)) id) as [x Ho].
    { destruct (decide (Exists (λ pc, critical pc = true) (threads s))) as [(pc & Hpc & Hc)%Exists_exists|Hn].
      - apply list_elem_of_lookup in Hpc as [i Hi]. destruct (H2 i pc Hi Hc) as [_ Hp].
        destruct pc; cbn in Hp; try (rewrite Hp; by exists 0; apply only_empty); by eexists.
      - exists (timer_id (tmr s)). apply H3. intros i pc Hi. destruct (critical pc) eqn:Hc; [|done]. destruct Hn. apply Exists_exists.
        exists pc. split; [by eapply list_elem_of_lookup_2|done]. }
    intros id id' Hid Hid'. by rewrite (Ho id Hid), (Ho id' Hid').
  - intros Hn. destruct (H3 Hn) as [_ Ho]. cbn. unfold untimeout. by rewrite only_self.
Qed.

(** ** test_set_timer is not *)

Definition run_thread (s : timer_sys) (i : nat) : timer_sys :=
  match threads s !! i with
  | Some pc => let '(pc', t, k) := thread_step pc (tmr s) (kern s) in mk_sys t k (<[i := pc']> (threads s))
  | None => s
  end.

Lemma run_thread_star calls l : ∀ s, star (tstep calls) s (foldl run_thread s l).
Proof.
  induction l as [|i l IH]; intros s; [apply star_refl|]. cbn [foldl]. unfold run_thread at 2. destruct (threads s !! i) as [pc|] eqn:Hi; [|apply IH].
  destruct (thread_step pc (tmr s) (kern s)) as [[pc' t] k] eqn:Hrun. eapply star_step; [by eapply t_run|apply IH].
Qed.

(** Two threads that find the timer expired both arm it; the id of the first
    timeout is overwritten, and del_timer leaves that timeout outstanding. *)
Lemma test_set_timer_loses now ticks : time_after now 0 = true → ∃ s, star (tstep any_call) (timer_start now) s ∧
  (∀ pc, pc ∈ threads s → pc = Returned) ∧ ∃ id, pending (untimeout (timer_id (tmr s)) (kern s)) !! id = Some (now + ticks).
Proof.
  intros Hnow. eexists. split; [|split].
  - eapply star_step; [by apply (t_call _ _ (TestSetTimer ticks))|]. eapply star_step; [by apply (t_call _ _ (TestSetTimer ticks))|].
    apply (run_thread_star _ [0; 1; 0; 0; 0; 1; 1; 1]%nat).
  - cbn. rewrite !Hnow. cbn. rewrite !Hnow. cbn. intros pc Hpc. apply elem_of_cons in Hpc as [->|Hpc]; [done|]. by apply list_elem_of_singleton in Hpc as ->.
  - cbn. rewrite !Hnow. cbn. rewrite !Hnow. cbn. set (a := fresh_timeout ∅). set (p := <[a := now + ticks]> ∅). exists a.
    pose proof (fresh_timeout_new p) as Hb. rewrite lookup_delete_ne; [rewrite lookup_insert_ne; [apply lookup_insert_eq|]|].
    all: intros Heq; rewrite Heq in Hb; unfold p in Hb; by rewrite lookup_insert_eq in Hb.
Qed.
End Timer.

(** ** Polling for hot plug *)

(** The part of a device that polls: the mesh with its connectors, the timer, the
    clock of the kernel, the works in the queue of [drm_wq] and whether its thread
    runs one, the calls of drm_helper_hpd_irq_event that wait for the queue. *)
Record poll_dev (A : Type) := mk_poll {
  pmesh : mesh A; ptimer : timer_list; clock : callouts; queued : nat; running : bool; hpd_waiting : nat; poll_enabled : bool;
}.
Arguments mk_poll {_} _ _ _ _ _ _ _.
Arguments pmesh {_} _.
Arguments ptimer {_} _.
Arguments clock {_} _.
Arguments queued {_} _.
Arguments running {_} _.
Arguments hpd_waiting {_} _.
Arguments poll_enabled {_} _.

(** [poll]: drm_kms_helper_poll; [period]: DRM_OUTPUT_POLL_PERIOD, in ticks. *)
Section Polling.
Context {A : Type} `{HelperDriver A, DpmsH, DrmModeH, Timeouts} (poll : bool) (period : Z).
Implicit Types (w : poll_dev A).

Definition set_mesh (m : mesh A) w : poll_dev A := mk_poll m (ptimer w) (clock w) (queued w) (running w) (hpd_waiting w) (poll_enabled w).
Definition set_timer (t : timer_list) (k : callouts) w : poll_dev A := mk_poll (pmesh w) t k (queued w) (running w) (hpd_waiting w) (poll_enabled w).
Definition set_queue (q : nat) (r : bool) w : poll_dev A := mk_poll (pmesh w) (ptimer w) (clock w) q r (hpd_waiting w) (poll_enabled w).
Definition set_waiting (n : nat) w : poll_dev A := mk_poll (pmesh w) (ptimer w) (clock w) (queued w) (running w) n (poll_enabled w).
Definition set_poll_enabled (b : bool) w : poll_dev A := mk_poll (pmesh w) (ptimer w) (clock w) (queued w) (running w) (hpd_waiting w) b.

Definition on_mesh {B} (c : M (mesh A) B) : M (poll_dev A) B :=
  λ w, match c (pmesh w) with Some (b, m) => Some (b, set_mesh m w) | None => None end.

(** Without other threads at the timer. *)
Definition test_set_timer (ticks : Z) w : poll_dev A :=
  if time_after (jiffies (clock w)) (expired_time (ptimer w)) then
    let t := set_expired_time (wrap 64 (jiffies (clock w) + ticks)) (ptimer w) in
    let '(id, k) := timeout ticks (clock w) in set_timer (set_timer_id id t) k w
  else w.

Definition del_timer w : poll_dev A := set_timer (ptimer w) (untimeout (timer_id (ptimer w)) (clock w)) w.

Definition output_poll_execute_timer w : poll_dev A := set_queue (S (queued w)) (running w) w.

(** The whole of output_poll_execute: the detection and the timer. *)
Definition output_poll_work : M (poll_dev A) unit :=
  repoll ← on_mesh (output_poll_execute poll);
  when repoll (modify (test_set_timer period)).

Definition drm_kms_helper_poll_disable : M (poll_dev A) unit :=
  w ← get; when (poll_enabled w) (modify del_timer).

Definition drm_kms_helper_poll_enable : M (poll_dev A) unit :=
  w ← get;
  if negb (poll_enabled w) || negb poll then mret tt else
  some ← on_mesh (any (connector_order (pmesh w)) (λ p, k ← connector_at p; mret (negb (polled k =? 0))));
  when some (modify (test_set_timer period)).

Definition drm_kms_helper_poll_init : M (poll_dev A) unit :=
  modify (λ w, set_timer (setup_timer (ptimer w)) (clock w) w);;
  modify (set_poll_enabled true);;
  drm_kms_helper_poll_enable.

Definition drm_kms_helper_poll_fini : M (poll_dev A) unit := drm_kms_helper_poll_disable.

(** drm_helper_hpd_irq_event up to its wait for the queue, and from there. *)
Definition hpd_irq_event_start : M (poll_dev A) unit :=
  w ← get; when (poll_enabled w) (modify del_timer;; modify (set_waiting (S (hpd_waiting w)))).
Definition hpd_irq_event_end : M (poll_dev A) unit :=
  modify (λ w, set_waiting (pred (hpd_waiting w)) w);; when poll (modify (test_set_timer 0)).

(** What happens: the clock, a timeout, the thread of the queue, the calls. *)
Inductive poll_event :=
  | PTick
  | PFire (id : Z)
  | PStart
  | PFinish
  | PEnable
  | PDisable
  | PHpd
  | PHpdEnd.

Definition poll_event_ok (ev : poll_event) w : Prop :=
  match ev with
  | PFire id => ∃ due, pending (clock w) !! id = Some due ∧ due <= jiffies (clock w)
  | PStart => (0 < queued w)%nat ∧ running w = false
  | PFinish => running w = true
  | PHpdEnd => (0 < hpd_waiting w)%nat ∧ queued w = 0%nat ∧ running w = false
  | _ => True
  end.

Definition run_poll_event (ev : poll_event) : M (poll_dev A) unit :=
  match ev with
  | PTick => modify (λ w, set_timer (ptimer w) (mk_callouts (jiffies (clock w) + 1) (pending (clock w))) w)
  | PFire id => modify (λ w, output_poll_execute_timer (set_timer (ptimer w) (untimeout id (clock w)) w))
  | PStart => modify (λ w, set_queue (pred (queued w)) true w)
  | PFinish => output_poll_work;; modify (λ w, set_queue (queued w) false w)
  | PEnable => drm_kms_helper_poll_enable
  | PDisable => drm_kms_helper_poll_disable
  | PHpd => hpd_irq_event_start
  | PHpdEnd => hpd_irq_event_end
  end.

(** The events that [allowed] lets through. *)
Definition poll_step (allowed : poll_event → poll_dev A → Prop) w w' : Prop :=
  ∃ ev, allowed ev w ∧ poll_event_ok ev w ∧ run_poll_event ev w = Some (tt, w').

(** ** Time *)

(** Ticks that no computation of the timer wraps. *)
Definition small (z : Z) : Prop := 0 <= z < 2 ^ 62.

Lemma time_after_small a b : small a → small b → time_after a b = (b <? a).
Proof.
  unfold small, time_after. intros Ha Hb. change (2 ^ 62) with 4611686018427387904 in *.
  assert (∀ z, - 9223372036854775808 <= z < 9223372036854775808 → swrap 64 z = z) as Hid by (intros z Hz; apply swrap_id; [done|exact Hz]).
  rewrite !Hid by (rewrite ?Hid; lia). destruct (Z.ltb_spec (b - a) 0), (Z.ltb_spec b a); lia.
Qed.

Lemma wrap_small z : 0 <= z < 2 ^ 63 → wrap 64 z = z.
Proof. intros Hz. apply wrap_id. change (2 ^ 63) with 9223372036854775808 in Hz. change (2 ^ 64) with 18446744073709551616. lia. Qed.

(** ** What a detection finds *)

(** A connector that is polled. *)
Definition polls (k : drm_connector) : bool := negb (forced k) && negb ((polled k =? 0) || (polled k =? DRM_CONNECTOR_POLL_HPD)).
Definition some_polls (m : mesh A) : Prop := ∃ p k, connectors m !! p = Some k ∧ polls k = true.

(** The same connectors but for their status. *)
Definition same_but_status (m m' : mesh A) : Prop :=
  mesh_ok m' ∧ connector_order m' = connector_order m ∧ ∀ p, polls <$> connectors m' !! p = polls <$> connectors m !! p.

Lemma poll_connector_polls p st m : mesh_ok m → p ∈ connector_order m →
  wp (poll_connector st p) m (λ st' m', same_but_status m m' ∧
    (st.1 = true → st'.1 = true) ∧ (∀ k, connectors m !! p = Some k → polls k = true → st'.1 = true)).
Proof.
  intros Hok Hp. destruct st as [repoll changed]. unfold poll_connector. apply wp_connector; [done|done|]. intros k Hk. unfold polls.
  destruct (forced k) eqn:Hf; cbn [negb andb].
  { split; [done|]. split; [done|]. intros k'. rewrite Hk. intros [= <-]. by rewrite Hf. }
  destruct ((polled k =? 0) || (polled k =? DRM_CONNECTOR_POLL_HPD)) eqn:Hn.
  { split; [done|]. split; [done|]. intros k'. rewrite Hk. intros [= <-]. by rewrite Hf, Hn. }
  destruct (_ && _); [split; [done|by split]|]. apply wp_bind. eapply wp_mono; [exact (hushed_hcall _ m Hok)|]. intros new m1 [a ->]. cbv beta.
  apply wp_bind. eapply wp_of; [apply (upd_connector_run (set_hdrv a m) p k _ Hk)|]. cbv beta. unfold wp, mret, M_ret. split; [|by split].
  split; [apply (upd_connector_ok _ p k); [by apply set_hdrv_ok|done|exact (o_feed _ Hok p k Hk)]|]. split; [done|]. intros q. cbn.
  destruct (decide (q = p)) as [->|]; [by rewrite lookup_insert_eq, Hk|by rewrite lookup_insert_ne].
Qed.

Lemma poll_connectors_polls l : ∀ st m, mesh_ok m → (∀ p, p ∈ l → p ∈ connector_order m) →
  wp (poll_connectors l st) m (λ st' m', same_but_status m m' ∧ (st.1 = true → st'.1 = true) ∧
    (∀ p k, p ∈ l → connectors m !! p = Some k → polls k = true → st'.1 = true)).
Proof.
  induction l as [|p l IH]; intros st m Hok Hl; cbn [poll_connectors].
  { split; [done|]. split; [done|]. by intros p k ?%elem_of_nil. }
  apply wp_bind. eapply wp_mono; [apply (poll_connector_polls p st m Hok), Hl; by left|]. intros st1 m1 ((Hok1 & Ho1 & Hs1) & Hm1 & Hp1). cbv beta.
  eapply wp_mono; [apply (IH st1 m1 Hok1)|].
  { intros q Hq. rewrite Ho1. apply Hl. by right. }
  intros st2 m2 ((Hok2 & Ho2 & Hs2) & Hm2 & Hp2). split; [|split].
  - split; [done|]. split; [congruence|]. intros q. by rewrite Hs2.
  - auto.
  - intros q k [->|Hq]%elem_of_cons Hk Hpk; [apply Hm2; by apply (Hp1 k)|]. specialize (Hs1 q). rewrite Hk in Hs1.
    destruct (connectors m1 !! q) as [k1|] eqn:Hk1; [|done]. injection Hs1 as Hs1. apply (Hp2 q k1 Hq Hk1). congruence.
Qed.

(** The detection asks for the next one if a connector is polled. *)
Lemma output_poll_polls m : mesh_ok m → poll = true →
  wp (output_poll_execute poll) m (λ repoll m', same_but_status m m' ∧ (some_polls m → repoll = true)).
Proof.
  intros Hok ->. unfold output_poll_execute. cbn [negb]. apply wp_bind. eapply wp_of; [done|]. cbv beta. apply wp_bind.
  eapply wp_mono; [exact (poll_connectors_polls (connector_order m) (false, false) m Hok (λ p Hp, Hp))|].
  intros [repoll changed] m1 ((Hok1 & Ho1 & Hs1) & _ & Hp1). cbv beta iota. apply wp_bind.
  eapply wp_mono; [exact (hushed_when changed _ (hushed_tell OutputPollChanged) m1 Hok1)|]. intros ? m2 [a ->]. cbv beta. unfold wp, mret, M_ret.
  split; [split; [by apply set_hdrv_ok|by split]|]. intros (p & k & Hk & Hpk). apply (Hp1 p k); [|done|done]. apply (o_connectors _ Hok). by exists k.
Qed.

Lemma same_but_status_polls m m' : same_but_status m m' → some_polls m → some_polls m'.
Proof.
  intros (_ & _ & Hs) (p & k & Hk & Hpk). specialize (Hs p). rewrite Hk in Hs. destruct (connectors m' !! p) as [k'|] eqn:Hk'; [|done].
  injection Hs as Hs. exists p, k'. split; [done|congruence].
Qed.

Lemma wp_on_mesh {B} (c : M (mesh A) B) w (Q : B → poll_dev A → Prop) : wp c (pmesh w) (λ b m, Q b (set_mesh m w)) → wp (on_mesh c) w Q.
Proof. unfold wp, on_mesh. by destruct (c (pmesh w)) as [[b m]|]. Qed.

(** The work: the detection, and the timer when [poll] is set and a connector is polled. *)
Lemma output_poll_work_ok w : mesh_ok (pmesh w) → poll = true → some_polls (pmesh w) →
  wp output_poll_work w (λ _ w', ∃ m, same_but_status (pmesh w) m ∧ w' = test_set_timer period (set_mesh m w)).
Proof.
  intros Hok Hp Hs. unfold output_poll_work. apply wp_bind, wp_on_mesh. eapply wp_mono; [exact (output_poll_polls _ Hok Hp)|].
  intros repoll m [Hm Hr]. cbv beta. rewrite (Hr Hs). cbn [when]. eapply wp_of; [done|]. by exists m.
Qed.

(** poll_enable sets the timer at most. *)
Lemma poll_enable_ok w : mesh_ok (pmesh w) →
  wp drm_kms_helper_poll_enable w (λ _ w', w' = w ∨ w' = test_set_timer period w) ∧
  (poll = true → poll_enabled w = true → some_polls (pmesh w) → wp drm_kms_helper_poll_enable w (λ _ w', w' = test_set_timer period w)).
Proof.
  intros Hok. unfold drm_kms_helper_poll_enable.
  assert (any (connector_order (pmesh w)) (λ p, k ← connector_at p; mret (negb (polled k =? 0))) (pmesh w) =
    Some (existsb (λ p, match connectors (pmesh w) !! p with Some k => negb (polled k =? 0) | None => false end) (connector_order (pmesh w)), pmesh w)) as Hany.
  { apply any_run. intros p Hp. apply (o_connectors _ Hok) in Hp as [k Hk]. by rewrite (M_bind_Some _ _ _ _ _ (connector_at_run _ p k Hk)), Hk. }
  assert (set_mesh (pmesh w) w = w) as Hw by (by destruct w).
  split.
  - apply wp_bind. eapply wp_of; [done|]. cbv beta. destruct (_ || _); [by left|]. apply wp_bind, wp_on_mesh. eapply wp_of; [exact Hany|]. cbv beta.
    rewrite Hw. destruct (existsb _ _); cbn [when]; [by right|by left].
  - intros -> He (p & k & Hk & Hpk). apply wp_bind. eapply wp_of; [done|]. cbv beta. rewrite He. cbn [negb orb]. apply wp_bind, wp_on_mesh.
    eapply wp_of; [exact Hany|]. cbv beta. rewrite Hw. assert (existsb (λ p, match connectors (pmesh w) !! p with Some k => negb (polled k =? 0) | None => false end)
      (connector_order (pmesh w)) = true) as ->; [|done]. apply existsb_exists. exists p. split; [apply list_elem_of_In, (o_connectors _ Hok); by exists k|].
    rewrite Hk. unfold polls in Hpk. destruct (forced k), (polled k =? 0); done.
Qed.

(** ** Polling goes on *)

(** Nothing is outstanding for longer than a period. *)
Record going w : Prop := {
  g_mesh : mesh_ok (pmesh w);
  g_polls : some_polls (pmesh w);
  g_enabled : poll_enabled w = true;
  g_clock : 0 < jiffies (clock w);
  g_expired : 0 <= expired_time (ptimer w) <= jiffies (clock w) + period;
  g_alive : running w = true ∨ (0 < queued w)%nat ∨ ∃ id due, pending (clock w) !! id = Some due ∧ due <= jiffies (clock w) + period;
}.

(** No interrupt, no call of poll_disable; a detection ends after the tick for which
    the timer was set, and the clock is not about to wrap. *)
Definition undisturbed (ev : poll_event) w : Prop :=
  jiffies (clock w) + period < 2 ^ 62 ∧
  match ev with
  | PTick | PFire _ | PStart | PEnable => True
  | PFinish => expired_time (ptimer w) < jiffies (clock w)
  | _ => False
  end.

Lemma test_set_fires ticks w : 0 < period → 0 <= ticks <= period → 0 <= jiffies (clock w) → jiffies (clock w) + period < 2 ^ 62 → 0 <= expired_time (ptimer w) →
  expired_time (ptimer w) < jiffies (clock w) →
  ∃ id, pending (clock w) !! id = None ∧ test_set_timer ticks w =
    set_timer (mk_timer (expires (ptimer w)) (jiffies (clock w) + ticks) id)
      (mk_callouts (jiffies (clock w)) (<[id := jiffies (clock w) + ticks]> (pending (clock w)))) w.
Proof.
  intros Hper Ht Hj Hb He Hlt. unfold test_set_timer. rewrite time_after_small by (unfold small; lia). rewrite (proj2 (Z.ltb_lt _ _) Hlt).
  cbn [timeout]. exists (fresh_timeout (pending (clock w))). split; [apply fresh_timeout_new|]. unfold set_timer_id, set_expired_time. cbn.
  change (2 ^ 62) with 4611686018427387904 in Hb. rewrite wrap_small; [done|]. change (2 ^ 63) with 9223372036854775808. lia.
Qed.

Lemma test_set_idle ticks w : small (jiffies (clock w)) → small (expired_time (ptimer w)) → jiffies (clock w) <= expired_time (ptimer w) → test_set_timer ticks w = w.
Proof. intros Hj He Hle. unfold test_set_timer. rewrite time_after_small by done. by rewrite (proj2 (Z.ltb_ge _ _) Hle). Qed.

(** A timer that has expired is set again, and polling goes on. *)
Lemma going_armed w q r : mesh_ok (pmesh w) → some_polls (pmesh w) → poll_enabled w = true → 0 < period →
  0 <= expired_time (ptimer w) < jiffies (clock w) → jiffies (clock w) + period < 2 ^ 62 → going (set_queue q r (test_set_timer period w)).
Proof.
  intros Hok Hp He Hper Hexp Hb. destruct (test_set_fires period w) as (id & _ & ->); [lia..|].
  split; cbn; [done|done|done|lia|lia|]. right. right. exists id, (jiffies (clock w) + period). rewrite lookup_insert_eq. split; [done|lia].
Qed.

Lemma going_step w w' : poll = true → 0 < period → going w → poll_step undisturbed w w' → going w'.
Proof.
  intros Hpoll Hper Hg (ev & [Hb Hev] & Hok & Hrun). pose proof Hg as [G1 G2 G3 G4 G5 G6].
  destruct ev as [|id| | | | | |]; cbn [run_poll_event poll_event_ok] in *; try done.
  - injection Hrun as <-. split; cbn; [done|done|done|lia|lia|]. destruct G6 as [?|[?|(id & due & Hid & Hd)]]; [by left|by right; left|].
    right. right. exists id, due. split; [done|lia].
  - injection Hrun as <-. split; cbn; try done. right. left. lia.
  - injection Hrun as <-. split; cbn; try done. by left.
  - destruct (wp_run _ _ _ (output_poll_work_ok w G1 Hpoll G2)) as (? & w1 & Hrun1 & m & Hm & ->). rewrite (M_bind_Some _ _ _ _ _ Hrun1) in Hrun.
    injection Hrun as <-. apply going_armed; cbn; [apply Hm|by eapply same_but_status_polls|done|done|lia|done].
  - destruct (poll_enable_ok w G1) as [_ Hw]. destruct (wp_run _ _ _ (Hw Hpoll G3 G2)) as (? & w1 & Hrun1 & ->). rewrite Hrun in Hrun1. injection Hrun1 as _ ->.
    destruct (decide (expired_time (ptimer w) < jiffies (clock w))) as [Hlt|Hge].
    + pose proof (going_armed w (queued w) (running w) G1 G2 G3 Hper ltac:(lia) Hb) as Hgo. unfold test_set_timer in *.
      destruct (time_after _ _); [exact Hgo|exact Hg].
    + rewrite test_set_idle; [done|..]; unfold small; change (2 ^ 62) with 4611686018427387904 in *; lia.
Qed.

(** A device at its start: a connector is polled, the clock runs. *)
Definition can_poll w : Prop :=
  mesh_ok (pmesh w) ∧ some_polls (pmesh w) ∧ 0 < jiffies (clock w) ∧ jiffies (clock w) + period < 2 ^ 62.

Lemma going_init w w' : poll = true → 0 < period → can_poll w → drm_kms_helper_poll_init w = Some (tt, w') → going w'.
Proof.
  intros Hpoll Hper (Hok & Hp & Hj & Hb) Hinit. unfold drm_kms_helper_poll_init in Hinit. rewrite !modify_bind in Hinit.
  set (w1 := set_poll_enabled true _) in Hinit. destruct (poll_enable_ok w1 Hok) as [_ Hw].
  destruct (wp_run _ _ _ (Hw Hpoll eq_refl Hp)) as (? & w2 & Hrun & ->). rewrite Hinit in Hrun. injection Hrun as _ ->.
  pose proof (going_armed w1 (queued w1) (running w1) Hok Hp eq_refl Hper ltac:(cbn; lia) Hb) as Hgo. unfold test_set_timer in *. by destruct (time_after _ _).
Qed.


(** ** What stops it *)

Record stopped (m : mesh A) (e : Z) w : Prop := {
  s_mesh : pmesh w = m; s_expired : expired_time (ptimer w) = e; s_now : 0 <= jiffies (clock w);
  s_pending : pending (clock w) = ∅; s_queue : queued w = 0%nat; s_running : running w = false; s_waiting : hpd_waiting w = 0%nat;
}.

(** Anything but an interrupt, and no poll_enable after the time for which the timer
    was set. *)
Definition early (ev : poll_event) w : Prop :=
  match ev with
  | PHpd => False
  | PEnable => jiffies (clock w) <= expired_time (ptimer w)
  | _ => True
  end.

Lemma stopped_step m e w w' : mesh_ok m → small e → stopped m e w → poll_step early w w' → stopped m e w'.
Proof.
  intros Hok He Hs (ev & Hev & Hguard & Hrun). pose proof Hs as [S1 S2 S3 S4 S5 S6 S7].
  destruct ev as [|id| | | | | |]; cbn [run_poll_event poll_event_ok early] in *.
  - injection Hrun as <-. split; cbn; try done. lia.
  - destruct Hguard as (due & Hid & _). by rewrite S4, lookup_empty in Hid.
  - lia.
  - congruence.
  - rewrite <- S1 in Hok. destruct (poll_enable_ok w Hok) as [Hw _]. destruct (wp_run _ _ _ Hw) as (? & w1 & Hrun1 & Hcase).
    rewrite Hrun in Hrun1. injection Hrun1 as _ ->. destruct Hcase as [->|Hcase]; [done|]. rewrite test_set_idle in Hcase; [by subst|..].
    + unfold small in *. rewrite S2 in Hev. lia.
    + by rewrite S2.
    + done.
  - unfold drm_kms_helper_poll_disable in Hrun. rewrite get_bind in Hrun. destruct (poll_enabled w); injection Hrun as <-; [|done].
    split; cbn; try done. rewrite S4. apply delete_empty.
  - done.
  - lia.
Qed.

Lemma stopped_stays m e w w' : mesh_ok m → small e → stopped m e w → star (poll_step early) w w' → stopped m e w'.
Proof. intros Hok He Hs. apply star_invariant; [|exact Hs]. intros a b Ha Hab. by apply (stopped_step m e a). Qed.

(** Drm_helper_hpd_irq_event, which is to start a
    detection at once, stops all detection when it comes while the timer runs:
    it takes the timeout back, and then test_set_timer sees the time for which it
    was set still ahead and does not set it again.  After that no timeout fires, no
    work is queued and the status of no connector changes, whatever happens, until
    another interrupt or a poll_enable that comes after that time. *)
Theorem hotplug_stops_polling w : mesh_ok (pmesh w) → poll_enabled w = true →
  queued w = 0%nat → running w = false → hpd_waiting w = 0%nat → only (pending (clock w)) (timer_id (ptimer w)) →
  small (jiffies (clock w)) → small (expired_time (ptimer w)) → jiffies (clock w) <= expired_time (ptimer w) →
  ∃ w1 w2, run_poll_event PHpd w = Some (tt, w1) ∧ poll_event_ok PHpdEnd w1 ∧ run_poll_event PHpdEnd w1 = Some (tt, w2) ∧
    ∀ w3, star (poll_step early) w2 w3 →
      pending (clock w3) = ∅ ∧ queued w3 = 0%nat ∧ running w3 = false ∧ connectors (pmesh w3) = connectors (pmesh w).
Proof.
  intros Hok He Hq Hr Hw Ho Hj Hexp Hle. set (w1 := set_waiting (S (hpd_waiting w)) (del_timer w)).
  assert (run_poll_event PHpd w = Some (tt, w1)) as Hrun1.
  { cbn. unfold hpd_irq_event_start. rewrite get_bind, He. reflexivity. }
  set (w2 := set_waiting (pred (hpd_waiting w1)) w1).
  assert (run_poll_event PHpdEnd w1 = Some (tt, w2)) as Hrun2.
  { cbn. unfold hpd_irq_event_end. rewrite modify_bind. destruct poll; [|reflexivity]. cbn [when]. unfold modify. rewrite test_set_idle; [reflexivity|done..]. }
  exists w1, w2. split; [exact Hrun1|]. split; [cbn; split; [lia|done]|]. split; [exact Hrun2|]. intros w3 Hstar.
  assert (stopped (pmesh w) (expired_time (ptimer w)) w2) as Hs.
  { split; cbn; try done; [apply Hj|by apply only_self]. }
  destruct (stopped_stays _ _ _ _ Hok Hexp Hs Hstar) as [-> _ _ H4' H5' H6' _]. by split_and!.
Qed.

(** A detection that ends in the tick for which the timer was set does not set it
    again either. *)
Lemma fast_detection_stops_polling w : poll = true → mesh_ok (pmesh w) → some_polls (pmesh w) →
  pending (clock w) = ∅ → queued w = 0%nat → hpd_waiting w = 0%nat →
  small (jiffies (clock w)) → small (expired_time (ptimer w)) → jiffies (clock w) <= expired_time (ptimer w) →
  ∃ w1 m, run_poll_event PFinish w = Some (tt, w1) ∧ stopped m (expired_time (ptimer w)) w1.
Proof.
  intros Hpoll Hok Hp Hpe Hq Hw Hj He Hle. destruct (wp_run _ _ _ (output_poll_work_ok w Hok Hpoll Hp)) as (? & w1 & Hrun & m & Hm & ->).
  cbn [run_poll_event]. rewrite (M_bind_Some _ _ _ _ _ Hrun). eexists _, m. split; [reflexivity|]. rewrite test_set_idle by done.
  split; cbn; try done. apply Hj.
Qed.

(** poll_fini does not wait for a detection that runs; it sets the timer when it is
    done. *)
Lemma poll_fini_leaves_timer w : poll = true → mesh_ok (pmesh w) → some_polls (pmesh w) → 0 < period →
  0 <= expired_time (ptimer w) < jiffies (clock w) → jiffies (clock w) + period < 2 ^ 62 →
  ∃ w1 w2 id, drm_kms_helper_poll_fini w = Some (tt, w1) ∧ run_poll_event PFinish w1 = Some (tt, w2) ∧ is_Some (pending (clock w2) !! id).
Proof.
  intros Hpoll Hok Hp Hper Hexp Hb. assert (∃ w1, drm_kms_helper_poll_fini w = Some (tt, w1) ∧ pmesh w1 = pmesh w ∧ ptimer w1 = ptimer w ∧
    jiffies (clock w1) = jiffies (clock w)) as (w1 & Hfini & Em & Et & Ej).
  { unfold drm_kms_helper_poll_fini, drm_kms_helper_poll_disable. rewrite get_bind. destruct (poll_enabled w); by eexists. }
  rewrite <- Em in Hok, Hp. destruct (wp_run _ _ _ (output_poll_work_ok w1 Hok Hpoll Hp)) as (? & w2 & Hrun & m & Hm & ->).
  destruct (test_set_fires period (set_mesh m w1)) as (id & _ & Heq); [done|lia|cbn; rewrite Ej; lia|cbn; by rewrite Ej|cbn; rewrite Et; lia|cbn; rewrite Et, Ej; lia|].
  rewrite Heq in Hrun. eexists w1, _, id. split; [exact Hfini|]. cbn [run_poll_event]. rewrite (M_bind_Some _ _ _ _ _ Hrun). split; [reflexivity|].
  cbn. rewrite lookup_insert_eq. by eexists.
Qed.
End Polling.

(** ** A kernel that hands out ids *)

Definition demo_timeouts : Timeouts.
Proof. refine {| fresh_timeout p := fresh (dom p : gset Z) |}. intros p. apply not_elem_of_dom, is_fresh. Defined.
#[local] Existing Instance demo_timeouts.
#[local] Existing Instance CrtcHelperInv.demo_driver.
#[local] Existing Instance CrtcHelperInv.demo_dpms.
#[local] Existing Instance Modes.interface_modes.

(** Two threads call mod_timer, the second while the first is inside. *)
Lemma mod_timer_exclusive_witness : ∃ s, star (tstep mod_or_del) (timer_start 10) s ∧
  threads s = [Returned; Returned] ∧ map_to_list (pending (kern s)) = [(timer_id (tmr s), 15)] ∧
  thread_step DelTimer (tmr s) (kern s) = (Returned, tmr s, mk_callouts 10 ∅).
Proof.
  set (s0 := mk_sys (mk_timer 0 0 0) (mk_callouts 10 ∅) [ModTimer 5; ModTimer 7]).
  assert (star (tstep mod_or_del) (timer_start 10) (foldl run_thread s0 [0; 1; 0; 0; 0; 0; 0]%nat)) as Hstar.
  { eapply star_step; [by apply (t_call _ _ (ModTimer 5))|]. eapply star_step; [by apply (t_call _ _ (ModTimer 7))|]. apply run_thread_star. }
  eexists. split; [exact Hstar|]. split; [vm_compute; reflexivity|]. split; [vm_compute; reflexivity|].
  destruct (mod_timer_exclusive 10 _ Hstar) as (_ & _ & Hdel). apply Hdel.
  intros [|[|i]] pc; vm_compute; [by intros [= <-]|by intros [= <-]|done].
Defined.

Definition demo_dev : poll_dev (list callback) := mk_poll CrtcHelperInv.demo_dark (mk_timer 0 0 0) (mk_callouts 1 ∅) 0 false 0 false.
Definition demo_polling : poll_dev (list callback) :=
  mk_poll CrtcHelperInv.demo_dark (mk_timer 0 1001 (fresh (∅ : gset Z))) (mk_callouts 1 {[fresh (∅ : gset Z) := 1001]}) 0 false 0 true.

Lemma demo_polling_init : drm_kms_helper_poll_init true 1000 demo_dev = Some (tt, demo_polling).
Proof. vm_compute. reflexivity. Qed.

Lemma demo_can_poll : can_poll 1000 demo_dev.
Proof.
  split; [exact (proj1 (CrtcHelperInv.demo_fresh _ (Permutation_refl _)))|]. split; [|by vm_compute].
  exists 33, CrtcHelperInv.demo_connector. by split.
Qed.


Lemma hotplug_stops_polling_witness : ∃ w1 w2, run_poll_event true 1000 PHpd demo_polling = Some (tt, w1) ∧
  poll_event_ok PHpdEnd w1 ∧ run_poll_event true 1000 PHpdEnd w1 = Some (tt, w2) ∧
  ∀ w3, star (poll_step true 1000 early) w2 w3 →
    pending (clock w3) = ∅ ∧ queued w3 = 0%nat ∧ running w3 = false ∧ connectors (pmesh w3) = connectors (pmesh demo_polling).
Proof.
  apply (hotplug_stops_polling true 1000 demo_polling); try done.
  - exact (proj1 (CrtcHelperInv.demo_fresh _ (Permutation_refl _))).
  - intros id [d Hd]. change (({[fresh (∅ : gset Z) := 1001]} : gmap Z Z) !! id = Some d) in Hd. by apply lookup_singleton_Some in Hd as [<- _].
Defined.
