(* ===== verification/Fences.v ===== *)
(** * i915: tiled objects and fence registers

    A fence register of the chip makes a range of the aperture look linear to the
    processor although the object there is tiled.  This file models the constraints
    on tiled objects (i915_gem_tiling.c), their size and alignment in the aperture,
    the encoding of the registers for each generation and the bookkeeping of
    i915_gem.c that hands the few registers to the many objects.  The theorems: what
    a register decodes to is what was encoded, a register is never valid with half of
    an update, and in every reachable state the valid registers cover exactly the
    ranges of the objects that own them. *)

From stdpp Require Import base option list gmap.
From Stdlib Require Import ZArith Lia.
From S2P Require Import Prelude.
#[local] Open Scope Z_scope.

(** ** Chips and objects *)

(** The modes and swizzlings of i915_drm.h. *)
Definition I915_TILING_NONE : Z := 0.
Definition I915_TILING_X : Z := 1.
Definition I915_TILING_Y : Z := 2.
Definition I915_BIT_6_SWIZZLE_NONE : Z := 0.
Definition I915_BIT_6_SWIZZLE_9 : Z := 1.
Definition I915_BIT_6_SWIZZLE_9_10 : Z := 2.
Definition I915_BIT_6_SWIZZLE_9_11 : Z := 3.
Definition I915_BIT_6_SWIZZLE_9_10_11 : Z := 4.
Definition I915_BIT_6_SWIZZLE_UNKNOWN : Z := 5.
Definition I915_BIT_6_SWIZZLE_9_17 : Z := 6.
Definition I915_BIT_6_SWIZZLE_9_10_17 : Z := 7.

Lemma tiling_none : I915_TILING_NONE = 0.
Proof. done. Qed.

Lemma tiling_xy : 0 < I915_TILING_X < 4 ∧ 0 < I915_TILING_Y < 4 ∧ I915_TILING_X ≠ I915_TILING_Y.
Proof. done. Qed.

(** The parts of [struct intel_device_info] and of the aperture that matter. *)
Record chip := mk_chip { gen : Z; is_g33 : bool; is_i915g : bool; is_i915gm : bool; is_i945 : bool; is_valleyview : bool; mappable_end : Z }.

Definition IS_GEN2 (c : chip) : bool := gen c =? 2.
Definition IS_GEN3 (c : chip) : bool := gen c =? 3.
Definition HAS_128_BYTE_Y_TILING (c : chip) : bool := negb (IS_GEN2 c) && negb (is_i915g c || is_i915gm c).

Definition I915_FENCE_REG_NONE : Z := -1.

(** [struct drm_i915_gem_object]: the size of the object, its tiling, its place in
    the aperture ([gtt_space]: start and size of the node) and its fence. *)
Record gem_bo := mk_bo {
  size : Z; tiling_mode : Z; stride : Z; gtt_space : option (Z * Z); gtt_offset : Z; pin_count : Z;
  map_and_fenceable : bool; fence_reg : Z; fence_dirty : bool; fenced_gpu_access : bool; last_fenced_seqno : Z;
}.

(** i915_reg.h *)
Definition FENCE_REG_830_0 : Z := 0x2000.
Definition FENCE_REG_945_8 : Z := 0x3000.
Definition I830_FENCE_START_MASK : Z := 0x07f80000.
Definition I830_FENCE_TILING_Y_SHIFT : Z := 12.
Definition I830_FENCE_PITCH_SHIFT : Z := 4.
Definition I830_FENCE_REG_VALID : Z := 1.
Definition I830_FENCE_MAX_SIZE_VAL : Z := 256.
Definition I915_FENCE_START_MASK : Z := 0x0ff00000.
Definition FENCE_REG_965_0 : Z := 0x3000.
Definition I965_FENCE_PITCH_SHIFT : Z := 2.
Definition I965_FENCE_TILING_Y_SHIFT : Z := 1.
Definition I965_FENCE_REG_VALID : Z := 1.
Definition I965_FENCE_MAX_PITCH_VAL : Z := 0x400.
Definition FENCE_REG_SANDYBRIDGE_0 : Z := 0x100000.
Definition SANDYBRIDGE_FENCE_PITCH_SHIFT : Z := 32.
Definition GEN7_FENCE_MAX_PITCH_VAL : Z := 0x800.

(** ffs of the C library: the position of the lowest bit that is set, from 1. *)
Fixpoint pos_ffs (p : positive) : Z := match p with xO p => pos_ffs p + 1 | _ => 1 end.
Definition ffs (z : Z) : Z := match z with Zpos p => pos_ffs p | Z0 => 0 | Zneg p => pos_ffs p end.

Definition I830_FENCE_SIZE_BITS (size : Z) : Z := Z.shiftl (ffs (Z.shiftr size 19) - 1) 8.
Definition I915_FENCE_SIZE_BITS (size : Z) : Z := Z.shiftl (ffs (Z.shiftr size 20) - 1) 8.

Section Tiling.
Variable c : chip.
Implicit Types (o : gem_bo).

(** ** The constraints of tiling *)

(** [stride] and [size] arrive as [int]s. *)
Definition i915_tiling_ok (stride size tiling_mode : Z) : bool :=
  let stride := i32 stride in
  let size := i32 size in
  if tiling_mode =? I915_TILING_NONE then true else
  let tile_width := if IS_GEN2 c || ((tiling_mode =? I915_TILING_Y) && HAS_128_BYTE_Y_TILING c) then 128 else 512 in
  if (if 7 <=? gen c then GEN7_FENCE_MAX_PITCH_VAL <? Z.quot stride 128
      else if 4 <=? gen c then I965_FENCE_MAX_PITCH_VAL <? Z.quot stride 128
      else if 8192 <? stride then true
      else if IS_GEN3 c then Z.shiftl I830_FENCE_MAX_SIZE_VAL 20 <? size else Z.shiftl I830_FENCE_MAX_SIZE_VAL 19 <? size)
  then false else
  if stride <? tile_width then false else
  if 4 <=? gen c then negb (z2b (Z.land stride (tile_width - 1)))
  else negb (z2b (Z.land stride (stride - 1))).

(** The doubling of i915_gem_get_gtt_size. *)
Fixpoint gtt_size_loop (fuel : nat) (gtt_size size : Z) : option Z :=
  if gtt_size <? size then match fuel with O => None | S fuel => gtt_size_loop fuel (u32 (Z.shiftl gtt_size 1)) size end
  else Some gtt_size.

Definition i915_gem_get_gtt_size (fuel : nat) (size tiling_mode : Z) : option Z :=
  let size := u32 size in
  if (4 <=? gen c) || (tiling_mode =? I915_TILING_NONE) then Some size else
  gtt_size_loop fuel (if gen c =? 3 then 1024 * 1024 else 512 * 1024) size.

Definition i915_gem_get_gtt_alignment (fuel : nat) (size tiling_mode : Z) (fenced : bool) : option Z :=
  if (4 <=? gen c) || (negb fenced && is_g33 c) || (tiling_mode =? I915_TILING_NONE) then Some 4096
  else i915_gem_get_gtt_size fuel size tiling_mode.

(** The size of the node and its alignment.  [None]: the loop does not end, or the
    object is not bound. *)
Definition fence_fits (fuel : nat) o (tiling_mode : Z) : option bool :=
  sz ← i915_gem_get_gtt_size fuel (size o) tiling_mode;
  '(_, node_size) ← gtt_space o;
  Some (if negb (node_size =? sz) then false else negb (z2b (Z.land (gtt_offset o) (sz - 1)))).

Definition i915_gem_object_fence_ok (fuel : nat) o (tiling_mode : Z) : option bool :=
  if tiling_mode =? I915_TILING_NONE then Some true else
  if 4 <=? gen c then Some true else
  if z2b (Z.land (gtt_offset o) (Z.lnot (if gen c =? 3 then I915_FENCE_START_MASK else I830_FENCE_START_MASK))) then Some false
  else fence_fits fuel o tiling_mode.

(** ** The registers *)

(** The writes of i965_write_fence_reg in their order, as addresses and values.  Each
    is followed by a posting read, so that it lands before the next.  [None]: the
    object is not bound. *)
Definition i965_write_fence_reg (reg : Z) (obj : option gem_bo) : option (list (Z * Z)) :=
  let '(fence_reg, fence_pitch_shift) :=
    if 6 <=? gen c then (FENCE_REG_SANDYBRIDGE_0, SANDYBRIDGE_FENCE_PITCH_SHIFT) else (FENCE_REG_965_0, I965_FENCE_PITCH_SHIFT) in
  let fence_reg := fence_reg + reg * 8 in
  match obj with
  | Some obj =>
    '(_, size) ← gtt_space obj;
    let val := u64 (Z.shiftl (Z.land (u32 (gtt_offset obj + size - 4096)) 0xfffff000) 32) in
    let val := Z.lor val (Z.land (gtt_offset obj) 0xfffff000) in
    let val := Z.lor val (u64 (Z.shiftl (u32 (stride obj / 128 - 1)) fence_pitch_shift)) in
    let val := if tiling_mode obj =? I915_TILING_Y then Z.lor val (Z.shiftl 1 I965_FENCE_TILING_Y_SHIFT) else val in
    let val := Z.lor val I965_FENCE_REG_VALID in
    Some [(fence_reg, 0); (fence_reg + 4, u32 (Z.shiftr val 32)); (fence_reg, u32 val)]
  | None => Some [(fence_reg, 0); (fence_reg + 4, 0)]
  end.

Definition i915_write_fence_reg (reg : Z) (obj : option gem_bo) : option (list (Z * Z)) :=
  val ← (match obj with
    | Some obj =>
      '(_, size) ← gtt_space obj;
      let tile_width := if (tiling_mode obj =? I915_TILING_Y) && HAS_128_BYTE_Y_TILING c then 128 else 512 in
      let pitch_val := ffs (stride obj / tile_width) - 1 in
      let val := gtt_offset obj in
      let val := if tiling_mode obj =? I915_TILING_Y then Z.lor val (Z.shiftl 1 I830_FENCE_TILING_Y_SHIFT) else val in
      let val := Z.lor val (I915_FENCE_SIZE_BITS size) in
      let val := Z.lor val (Z.shiftl pitch_val I830_FENCE_PITCH_SHIFT) in
      Some (Z.lor val I830_FENCE_REG_VALID)
    | None => Some 0
    end);
  Some [(if reg <? 8 then FENCE_REG_830_0 + reg * 4 else FENCE_REG_945_8 + (reg - 8) * 4, u32 val)].

Definition i830_write_fence_reg (reg : Z) (obj : option gem_bo) : option (list (Z * Z)) :=
  val ← (match obj with
    | Some obj =>
      '(_, size) ← gtt_space obj;
      let pitch_val := ffs (stride obj / 128) - 1 in
      let val := gtt_offset obj in
      let val := if tiling_mode obj =? I915_TILING_Y then Z.lor val (Z.shiftl 1 I830_FENCE_TILING_Y_SHIFT) else val in
      let val := Z.lor val (I830_FENCE_SIZE_BITS size) in
      let val := Z.lor val (Z.shiftl pitch_val I830_FENCE_PITCH_SHIFT) in
      Some (Z.lor val I830_FENCE_REG_VALID)
    | None => Some 0
    end);
  Some [(FENCE_REG_830_0 + reg * 4, u32 val)].

(** The choice of i915_gem_write_fence; [None] is also its BUG. *)
Definition fence_writes (reg : Z) (obj : option gem_bo) : option (list (Z * Z)) :=
  if (4 <=? gen c) && (gen c <=? 7) then i965_write_fence_reg reg obj
  else if gen c =? 3 then i915_write_fence_reg reg obj
  else if gen c =? 2 then i830_write_fence_reg reg obj else None.

(** The registers of the chip by address, and a sequence of writes. *)
Definition mmio_read (r : gmap Z Z) (a : Z) : Z := default 0 (r !! a).
Definition I915_WRITE (r : gmap Z Z) (w : Z * Z) : gmap Z Z := <[w.1 := w.2]> r.
Definition mmio_writes (r : gmap Z Z) (ws : list (Z * Z)) : gmap Z Z := foldl I915_WRITE r ws.

(** ** What the chip reads from a register *)

(** A range of the aperture with the distance of its lines and whether it is tiled in
    Y; nothing without the valid bit. *)
Record fence_view := mk_view { v_start : Z; v_size : Z; v_stride : Z; v_tiled_y : bool }.

Definition field (z low len : Z) : Z := (z / 2 ^ low) mod 2 ^ len.

Definition decode_965 (low high : Z) : option fence_view :=
  if field low 0 1 =? 0 then None else
  let start := field low 12 20 * 4096 in
  let pitch := if 6 <=? gen c then field high 0 12 else field low 2 10 in
  Some (mk_view start ((field high 12 20 + 1) * 4096 - start) ((pitch + 1) * 128) (field low 1 1 =? 1)).

(** [unit]: the exponent of the smallest size. *)
Definition decode_830 (unit val : Z) : option fence_view :=
  if field val 0 1 =? 0 then None else
  let y := field val 12 1 =? 1 in
  let tile_width := if IS_GEN2 c || (y && HAS_128_BYTE_Y_TILING c) then 128 else 512 in
  Some (mk_view (field val unit (32 - unit) * 2 ^ unit) (2 ^ (unit + field val 8 4)) (2 ^ field val 4 3 * tile_width) y).

Definition fence_view_of (r : gmap Z Z) (reg : Z) : option fence_view :=
  if 4 <=? gen c then
    let a := (if 6 <=? gen c then FENCE_REG_SANDYBRIDGE_0 else FENCE_REG_965_0) + reg * 8 in
    decode_965 (mmio_read r a) (mmio_read r (a + 4))
  else if gen c =? 3 then decode_830 20 (mmio_read r (if reg <? 8 then FENCE_REG_830_0 + reg * 4 else FENCE_REG_945_8 + (reg - 8) * 4))
  else decode_830 19 (mmio_read r (FENCE_REG_830_0 + reg * 4)).

(** ** Encoding and decoding *)

Lemma ffs_pow2 k : 0 <= k → ffs (2 ^ k) = k + 1.
Proof.
  intros Hk. pattern k. apply natlike_ind; [reflexivity| |done]. clear k Hk. intros k Hk IH. rewrite Z.pow_succ_r by done.
  pose proof (Z.pow_pos_nonneg 2 k ltac:(lia) Hk). destruct (2 ^ k) as [|p|p]; try lia. change (pos_ffs p + 1 = Z.succ k + 1). change (pos_ffs p = k + 1) in IH. lia.
Qed.

Lemma land_mask z : 0 <= z < 2 ^ 32 → Z.land z 0xfffff000 = z / 4096 * 4096.
Proof.
  intros Hz. change 0xfffff000 with (Z.shiftl (Z.ones 20) 12). change 4096 with (2 ^ 12). rewrite <- Z.shiftr_div_pow2, <- Z.shiftl_mul_pow2 by lia.
  apply Z.bits_inj'. intros i Hi. rewrite Z.land_spec, !Z.shiftl_spec by done. destruct (decide (i < 12)).
  - rewrite !(Z.testbit_neg_r _ (i - 12)) by lia. apply andb_false_r.
  - rewrite Z.shiftr_spec by lia. replace (i - 12 + 12) with i by lia. destruct (decide (i < 32)).
    + rewrite Z.ones_spec_low by lia. apply andb_true_r.
    + assert (Z.testbit z i = false) as ->; [|done]. destruct Hz as [Hz0 Hz]. by apply (proj1 (Z.bounded_iff_bits_nonneg 32 z ltac:(done) Hz0) Hz); lia.
Qed.

(** An object at [start] with [size] bytes of the aperture that a fence can cover:
    for gen 4 and later any pages and lines of whole tiles, before that powers of two. *)
Definition fenceable o : Prop :=
  ∃ sz, gtt_space o = Some (gtt_offset o, sz) ∧ 0 <= gtt_offset o ∧ 0 < sz ∧ gtt_offset o + sz <= 2 ^ 32 ∧
  if 4 <=? gen c then (4096 | gtt_offset o) ∧ (4096 | sz) ∧ ∃ n, stride o = n * 128 ∧ 0 < n <= (if 7 <=? gen c then 2048 else 1024)
  else ∃ k j, sz = 2 ^ k ∧ (if gen c =? 3 then 20 else 19) <= k <= (if gen c =? 3 then 28 else 27) ∧ (sz | gtt_offset o) ∧
    0 <= j <= 6 ∧ stride o = (if IS_GEN2 c || ((tiling_mode o =? I915_TILING_Y) && HAS_128_BYTE_Y_TILING c) then 128 else 512) * 2 ^ j.

(** What its register is to say. *)
Definition view_of o : fence_view :=
  mk_view (gtt_offset o) (match gtt_space o with Some (_, sz) => sz | None => 0 end) (stride o) (tiling_mode o =? I915_TILING_Y).

(** The value of the register of gen 4 and later. *)
Lemma encode_965 S E P (y : bool) shift : 0 <= S < 2 ^ 20 → 0 <= E < 2 ^ 20 → 0 <= P < 2 ^ (if shift =? 2 then 10 else 12) → shift = 2 ∨ shift = 32 →
  let val := Z.lor (Z.lor (E * 2 ^ 44) (S * 2 ^ 12)) (P * 2 ^ shift) in
  let val := if y then Z.lor val 2 else val in
  Z.lor val 1 = E * 2 ^ 44 + S * 2 ^ 12 + P * 2 ^ shift + (if y then 2 else 0) + 1.
Proof.
  intros HS HE HP Hshift. cbv zeta.
  assert (Z.lor (Z.lor (E * 2 ^ 44) (S * 2 ^ 12)) (P * 2 ^ shift) = E * 2 ^ 44 + S * 2 ^ 12 + P * 2 ^ shift) as ->.
  { destruct Hshift as [->| ->]; cbn [Z.eqb Pos.eqb] in HP.
    - rewrite (lor_add E 44) by lia. replace (E * 2 ^ 44 + S * 2 ^ 12) with ((E * 2 ^ 32 + S) * 2 ^ 12) by lia. rewrite (lor_add _ 12); lia.
    - rewrite <- Z.lor_assoc, (Z.lor_comm (S * 2 ^ 12)), Z.lor_assoc, (lor_add E 44) by lia.
      replace (E * 2 ^ 44 + P * 2 ^ 32) with ((E * 2 ^ 12 + P) * 2 ^ 32) by lia. rewrite (lor_add _ 32); lia. }
  assert (∃ Q, E * 2 ^ 44 + S * 2 ^ 12 + P * 2 ^ shift = Q * 2 ^ 2) as [Q ->].
  { destruct Hshift as [->| ->]; [exists (E * 2 ^ 42 + S * 2 ^ 10 + P)|exists (E * 2 ^ 42 + S * 2 ^ 10 + P * 2 ^ 30)]; lia. }
  destruct y.
  - rewrite (lor_add Q 2) by lia. replace (Q * 2 ^ 2 + 2) with ((Q * 2 + 1) * 2 ^ 1) by lia. rewrite (lor_add _ 1); lia.
  - replace (Q * 2 ^ 2) with (Q * 2 * 2 ^ 1) by lia. rewrite (lor_add _ 1); lia.
Qed.

(** The two halves of it. *)
Lemma halves_965 S E P (y : bool) shift : 0 <= S < 2 ^ 20 → 0 <= E < 2 ^ 20 → 0 <= P < 2 ^ (if shift =? 2 then 10 else 12) → shift = 2 ∨ shift = 32 →
  let val := E * 2 ^ 44 + S * 2 ^ 12 + P * 2 ^ shift + (if y then 2 else 0) + 1 in
  u32 val = S * 2 ^ 12 + (if shift =? 2 then P * 4 else 0) + (if y then 2 else 0) + 1 ∧
  u32 (Z.shiftr val 32) = E * 2 ^ 12 + (if shift =? 2 then 0 else P).
Proof.
  intros HS HE HP Hshift. cbv zeta. rewrite Z.shiftr_div_pow2 by lia. unfold wrap.
  destruct Hshift as [->| ->]; cbn [Z.eqb Pos.eqb] in *; split.
  - pose proof (bits_at 0 32 (S * 2 ^ 12 + P * 4 + (if y then 2 else 0) + 1) (E * 2 ^ 12) 0 (E * 2 ^ 44 + S * 2 ^ 12 + P * 2 ^ 2 + (if y then 2 else 0) + 1)) as Hb.
    rewrite Z.pow_0_r, Z.div_1_r in Hb. apply Hb; try lia; destruct y; lia.
  - apply (bits_at 32 32 (E * 2 ^ 12 + 0) 0 (S * 2 ^ 12 + P * 4 + (if y then 2 else 0) + 1)); try lia; destruct y; lia.
  - pose proof (bits_at 0 32 (S * 2 ^ 12 + 0 + (if y then 2 else 0) + 1) (E * 2 ^ 12 + P) 0 (E * 2 ^ 44 + S * 2 ^ 12 + P * 2 ^ 32 + (if y then 2 else 0) + 1)) as Hb.
    rewrite Z.pow_0_r, Z.div_1_r in Hb. apply Hb; try lia; destruct y; lia.
  - apply (bits_at 32 32 (E * 2 ^ 12 + P) 0 (S * 2 ^ 12 + (if y then 2 else 0) + 1)); try lia; destruct y; lia.
Qed.

Lemma decode_halves_965 S E P (y : bool) shift low high : 0 <= S < 2 ^ 20 → 0 <= E < 2 ^ 20 → 0 <= P < 2 ^ (if shift =? 2 then 10 else 12) →
  shift = (if 6 <=? gen c then 32 else 2) →
  low = S * 2 ^ 12 + (if shift =? 2 then P * 4 else 0) + (if y then 2 else 0) + 1 → high = E * 2 ^ 12 + (if shift =? 2 then 0 else P) →
  decode_965 low high = Some (mk_view (S * 4096) ((E + 1) * 4096 - S * 4096) ((P + 1) * 128) y).
Proof.
  intros HS HE HP Hshift Hlow Hhigh. unfold decode_965, field.
  assert ((low / 2 ^ 0) mod 2 ^ 1 = 1) as ->.
  { apply (bits_at 0 1 1 (S * 2 ^ 11 + (if shift =? 2 then P * 2 else 0) + (if y then 1 else 0)) 0); destruct (shift =? 2), y; lia. }
  assert ((low / 2 ^ 12) mod 2 ^ 20 = S) as ->.
  { apply (bits_at 12 20 S 0 ((if shift =? 2 then P * 4 else 0) + (if y then 2 else 0) + 1)); destruct (shift =? 2), y; lia. }
  assert ((low / 2 ^ 1) mod 2 ^ 1 = if y then 1 else 0) as ->.
  { apply (bits_at 1 1 (if y then 1 else 0) (S * 2 ^ 10 + (if shift =? 2 then P else 0)) 1); destruct (shift =? 2), y; lia. }
  assert ((high / 2 ^ 12) mod 2 ^ 20 = E) as ->.
  { apply (bits_at 12 20 E 0 (if shift =? 2 then 0 else P)); destruct (shift =? 2); lia. }
  assert ((if 6 <=? gen c then (high / 2 ^ 0) mod 2 ^ 12 else (low / 2 ^ 2) mod 2 ^ 10) = P) as ->.
  { destruct (6 <=? gen c); subst shift; cbn [Z.eqb Pos.eqb] in *.
    - apply (bits_at 0 12 P E 0); lia.
    - apply (bits_at 2 10 P (S * 2 ^ 0) ((if y then 2 else 0) + 1)); destruct y; lia. }
  cbn [Z.eqb Pos.eqb]. by destruct y.
Qed.

Lemma mmio_read_insert r a b v : mmio_read (<[a := v]> r) b = if a =? b then v else mmio_read r b.
Proof. unfold mmio_read. destruct (Z.eqb_spec a b) as [->|Hab]; [by rewrite lookup_insert_eq|by rewrite lookup_insert_ne]. Qed.

Lemma written_965 o reg r : 4 <= gen c <= 7 → fenceable o →
  ∃ ws, fence_writes reg (Some o) = Some ws ∧ fence_view_of (mmio_writes r ws) reg = Some (view_of o).
Proof.
  intros Hgen (sz & Hsp & Hlo & Hsz & Hhi & Hfit). unfold fence_writes, i965_write_fence_reg, fence_view_of, view_of. rewrite Hsp.
  rewrite (proj2 (Z.leb_le 4 _)), (proj2 (Z.leb_le _ 7)) by lia. rewrite (proj2 (Z.leb_le 4 _)) in Hfit by lia.
  destruct Hfit as ((S & HS) & (N & HN) & n & Hst & Hn). set (E := S + N - 1).
  assert (0 <= S < 2 ^ 20 ∧ 0 <= E < 2 ^ 20) as [HSr HEr] by (unfold E; lia).
  set (shift := if 6 <=? gen c then 32 else 2).
  assert (0 <= n - 1 < 2 ^ (if shift =? 2 then 10 else 12)) as HP.
  { unfold shift. destruct (Z.leb_spec 6 (gen c)), (Z.leb_spec 7 (gen c)); cbn [Z.eqb Pos.eqb]; lia. }
  assert ((if 6 <=? gen c then (FENCE_REG_SANDYBRIDGE_0, SANDYBRIDGE_FENCE_PITCH_SHIFT) else (FENCE_REG_965_0, I965_FENCE_PITCH_SHIFT)) =
    (if 6 <=? gen c then FENCE_REG_SANDYBRIDGE_0 else FENCE_REG_965_0, shift)) as -> by (unfold shift; by destruct (6 <=? gen c)).
  cbn [mbind option_bind andb]. eexists. split; [reflexivity|].
  rewrite (u32_id (gtt_offset o + sz - 4096)), !land_mask by lia.
  replace (gtt_offset o / 4096 * 4096) with (S * 2 ^ 12) by (rewrite HS, Z.div_mul; lia).
  replace ((gtt_offset o + sz - 4096) / 4096 * 4096) with (E * 2 ^ 12).
  2:{ replace (gtt_offset o + sz - 4096) with (E * 4096) by (unfold E; lia). rewrite Z.div_mul; lia. }
  rewrite Hst, Z.div_mul, (u32_id (n - 1)), !Z.shiftl_mul_pow2 by (unfold shift; destruct (6 <=? gen c), (7 <=? gen c); lia).
  change (Z.shiftl 1 I965_FENCE_TILING_Y_SHIFT) with 2. unfold I965_FENCE_REG_VALID.
  replace (E * 2 ^ 12 * 2 ^ 32) with (E * 2 ^ 44) by lia. rewrite (wrap_id 64 (E * 2 ^ 44)) by lia.
  rewrite (wrap_id 64 ((n - 1) * 2 ^ shift)) by (unfold shift in *; destruct (6 <=? gen c); cbn [Z.eqb Pos.eqb] in HP; lia).
  assert (shift = 2 ∨ shift = 32) as Hsh by (unfold shift; destruct (6 <=? gen c); auto).
  set (y := tiling_mode o =? I915_TILING_Y). rewrite (encode_965 S E (n - 1) y shift HSr HEr HP Hsh).
  destruct (halves_965 S E (n - 1) y shift HSr HEr HP Hsh) as [-> ->].
  unfold mmio_writes, I915_WRITE. cbn [foldl fst snd]. set (a := (if 6 <=? gen c then _ else _) + reg * 8). rewrite !mmio_read_insert, !Z.eqb_refl.
  rewrite (proj2 (Z.eqb_neq a (a + 4))) by lia.
  rewrite (decode_halves_965 S E (n - 1) y shift _ _ HSr HEr HP eq_refl eq_refl eq_refl). f_equal. f_equal; unfold E; lia.
Qed.

(** The registers of gen 2 and 3: start, Y tiling, size, pitch and the valid bit. *)
Lemma encode_830 u B (y : bool) K J : u = 19 ∨ u = 20 → 0 <= K < 16 → 0 <= J < 8 →
  let val := B * 2 ^ u in
  let val := if y then Z.lor val (2 ^ 12) else val in
  Z.lor (Z.lor (Z.lor val (K * 2 ^ 8)) (J * 2 ^ 4)) 1 = B * 2 ^ u + (if y then 2 ^ 12 else 0) + K * 2 ^ 8 + J * 2 ^ 4 + 1.
Proof.
  intros Hu HK HJ. cbv zeta. assert (∃ Q, B * 2 ^ u = Q * 2 ^ 13) as [Q ->].
  { destruct Hu as [->| ->]; [exists (B * 2 ^ 6)|exists (B * 2 ^ 7)]; lia. }
  assert ((if y then Z.lor (Q * 2 ^ 13) (2 ^ 12) else Q * 2 ^ 13) = (Q * 2 + if y then 1 else 0) * 2 ^ 12) as ->.
  { destruct y; [rewrite (lor_add Q 13) by lia|]; lia. }
  set (R := Q * 2 + _). rewrite (lor_add R 12) by lia.
  replace (R * 2 ^ 12 + K * 2 ^ 8) with ((R * 2 ^ 4 + K) * 2 ^ 8) by lia. rewrite (lor_add _ 8) by lia.
  replace ((R * 2 ^ 4 + K) * 2 ^ 8 + J * 2 ^ 4) with ((R * 2 ^ 8 + K * 2 ^ 4 + J) * 2 ^ 4) by lia. rewrite (lor_add _ 4) by lia.
  unfold R. destruct y; lia.
Qed.

Lemma decode_830_val u B (y : bool) K J val : u = 19 ∨ u = 20 → 0 <= B < 2 ^ (32 - u) → 0 <= K < 16 → 0 <= J < 8 →
  val = B * 2 ^ u + (if y then 2 ^ 12 else 0) + K * 2 ^ 8 + J * 2 ^ 4 + 1 →
  u32 val = val ∧ decode_830 u val =
    Some (mk_view (B * 2 ^ u) (2 ^ (u + K)) (2 ^ J * (if IS_GEN2 c || (y && HAS_128_BYTE_Y_TILING c) then 128 else 512)) y).
Proof.
  intros Hu HB HK HJ Hval. assert (0 <= val < 2 ^ 32) as Hr by (destruct Hu as [->| ->], y; lia). split; [by apply u32_id|].
  unfold decode_830, field. set (f := if y then 2 ^ 12 else 0) in *.
  assert (∃ F, f = F * 2 ^ 12 ∧ F = (if y then 1 else 0)) as (F & Hf & HF) by (exists (if y then 1 else 0); split; [unfold f; destruct y; lia|done]).
  clearbody f. assert (0 <= F < 2) as HF2 by (subst F; by destruct y).
  assert (∃ C, B * 2 ^ u = C * 2 ^ 13) as [C HC] by (destruct Hu as [->| ->]; [exists (B * 2 ^ 6)|exists (B * 2 ^ 7)]; lia).
  assert ((val / 2 ^ 0) mod 2 ^ 1 = 1) as -> by (apply (bits_at 0 1 1 (C * 2 ^ 12 + F * 2 ^ 11 + K * 2 ^ 7 + J * 2 ^ 3) 0); lia).
  assert ((val / 2 ^ 12) mod 2 ^ 1 = F) as -> by (apply (bits_at 12 1 F C (K * 2 ^ 8 + J * 2 ^ 4 + 1)); lia).
  assert ((val / 2 ^ 8) mod 2 ^ 4 = K) as -> by (apply (bits_at 8 4 K (C * 2 + F) (J * 2 ^ 4 + 1)); lia).
  assert ((val / 2 ^ 4) mod 2 ^ 3 = J) as -> by (apply (bits_at 4 3 J (C * 2 ^ 6 + F * 2 ^ 5 + K * 2) 1); lia).
  assert ((val / 2 ^ u) mod 2 ^ (32 - u) = B) as ->.
  { apply (bits_at u (32 - u) B 0 (f + K * 2 ^ 8 + J * 2 ^ 4 + 1)); destruct Hu as [->| ->]; lia. }
  cbn [Z.eqb Pos.eqb]. assert ((F =? 1) = y) as -> by (subst F; by destruct y). done.
Qed.

(** The size bits of a power of two. *)
Lemma size_bits u k : 0 <= u <= k → Z.shiftl (ffs (Z.shiftr (2 ^ k) u) - 1) 8 = (k - u) * 2 ^ 8.
Proof.
  intros Hk. rewrite Z.shiftr_div_pow2, Z.shiftl_mul_pow2 by lia. replace (2 ^ k) with (2 ^ (k - u) * 2 ^ u) by (rewrite <- Z.pow_add_r by lia; f_equal; lia).
  rewrite Z.div_mul by (apply Z.pow_nonzero; lia). rewrite ffs_pow2 by lia. f_equal. lia.
Qed.

(** Common to gen 2 and 3: [u] is the unit, [tw] the width of a tile. *)
Lemma value_830 o u tw sz k j : u = 19 ∨ u = 20 → sz = 2 ^ k → u <= k <= u + 8 → (sz | gtt_offset o) → 0 <= gtt_offset o → gtt_offset o + sz <= 2 ^ 32 →
  0 <= j <= 6 → 0 < tw → stride o = tw * 2 ^ j → tw = (if IS_GEN2 c || ((tiling_mode o =? I915_TILING_Y) && HAS_128_BYTE_Y_TILING c) then 128 else 512) →
  let val := gtt_offset o in
  let val := if tiling_mode o =? I915_TILING_Y then Z.lor val (Z.shiftl 1 I830_FENCE_TILING_Y_SHIFT) else val in
  let val := Z.lor val (Z.shiftl (ffs (Z.shiftr sz u) - 1) 8) in
  let val := Z.lor val (Z.shiftl (ffs (stride o / tw) - 1) I830_FENCE_PITCH_SHIFT) in
  decode_830 u (u32 (Z.lor val I830_FENCE_REG_VALID)) = Some (mk_view (gtt_offset o) sz (stride o) (tiling_mode o =? I915_TILING_Y)).
Proof.
  intros Hu -> Hk [A HA] Hlo Hhi Hj Htw Hst Htw'. cbv zeta. rewrite size_bits by lia.
  rewrite Hst, (Z.mul_comm tw), Z.div_mul, ffs_pow2 by lia. replace (j + 1 - 1) with j by lia. rewrite (Z.shiftl_mul_pow2 j I830_FENCE_PITCH_SHIFT) by done.
  set (y := tiling_mode o =? I915_TILING_Y) in *. clearbody y. change (Z.shiftl 1 I830_FENCE_TILING_Y_SHIFT) with (2 ^ 12).
  unfold I830_FENCE_PITCH_SHIFT, I830_FENCE_REG_VALID. set (B := A * 2 ^ (k - u)).
  assert (gtt_offset o = B * 2 ^ u) as HB by (rewrite HA; unfold B; rewrite <- Z.mul_assoc, <- Z.pow_add_r by lia; do 2 f_equal; lia).
  assert (0 < 2 ^ k) by (apply Z.pow_pos_nonneg; lia). assert (0 <= B < 2 ^ (32 - u)) as HBr.
  { rewrite HB in *. destruct Hu as [->| ->]; lia. }
  rewrite HB, (encode_830 u B y (k - u) j) by lia.
  destruct (decode_830_val u B y (k - u) j _ Hu HBr ltac:(lia) ltac:(lia) eq_refl) as [-> ->]. rewrite <- Htw'. do 2 f_equal. f_equal. lia.
Qed.

Lemma written_830 o reg r : gen c = 2 ∨ gen c = 3 → fenceable o →
  ∃ ws, fence_writes reg (Some o) = Some ws ∧ fence_view_of (mmio_writes r ws) reg = Some (view_of o).
Proof.
  intros Hgen (sz & Hsp & Hlo & Hsz & Hhi & Hfit). unfold fence_writes, i830_write_fence_reg, i915_write_fence_reg, fence_view_of, view_of. rewrite Hsp.
  rewrite (proj2 (Z.leb_gt 4 _)) in Hfit |- * by lia. cbn [andb]. destruct Hfit as (k & j & -> & Hk & Hdiv & Hj & Hst).
  unfold IS_GEN2 in *. destruct Hgen as [Hg|Hg]; rewrite Hg in *; cbn [Z.eqb Pos.eqb orb mbind option_bind] in *.
  - eexists. split; [reflexivity|]. unfold mmio_writes, I915_WRITE. cbn [foldl fst snd]. rewrite mmio_read_insert, Z.eqb_refl.
    unfold I830_FENCE_SIZE_BITS. apply (value_830 o 19 128 (2 ^ k) k j); first [done|lia|by unfold IS_GEN2; rewrite Hg].
  - eexists. split; [reflexivity|]. unfold mmio_writes, I915_WRITE. cbn [foldl fst snd]. rewrite mmio_read_insert, Z.eqb_refl.
    unfold I915_FENCE_SIZE_BITS. apply (value_830 o 20 _ (2 ^ k) k j); first [done|lia|by destruct (_ && _)|by unfold IS_GEN2; rewrite Hg].
Qed.

(** ** Updates of a register *)

Definition gen_ok : Prop := 2 <= gen c <= 7.

(** Reading is for the register written, or as before. *)
Lemma fence_view_invalid r reg : 4 <= gen c → mmio_read r ((if 6 <=? gen c then FENCE_REG_SANDYBRIDGE_0 else FENCE_REG_965_0) + reg * 8) = 0 →
  fence_view_of r reg = None.
Proof. intros Hg Hz. unfold fence_view_of. rewrite (proj2 (Z.leb_le 4 _)) by lia. by rewrite Hz. Qed.

Lemma fence_writes_total reg obj : gen_ok → (∀ o, obj = Some o → is_Some (gtt_space o)) → is_Some (fence_writes reg obj).
Proof.
  intros Hg Ho. unfold fence_writes, i965_write_fence_reg, i915_write_fence_reg, i830_write_fence_reg, gen_ok in *.
  assert (∀ o, obj = Some o → ∃ a b, gtt_space o = Some (a, b)) as Hs by (intros o Heq; destruct (Ho o Heq) as [[a b] Hab]; by exists a, b).
  destruct ((4 <=? gen c) && (gen c <=? 7)) eqn:E4.
  - destruct (6 <=? gen c); destruct obj as [o|]; [destruct (Hs o eq_refl) as (a & b & ->)| |destruct (Hs o eq_refl) as (a & b & ->)|]; by eexists.
  - assert (gen c = 3 ∨ gen c = 2) as [Hg'|Hg'] by (apply andb_false_iff in E4 as [?%Z.leb_gt|?%Z.leb_gt]; lia); rewrite Hg'; cbn [Z.eqb Pos.eqb];
      (destruct obj as [o|]; [destruct (Hs o eq_refl) as (a & b & ->)|]); by eexists.
Qed.

(** The writes for one register leave the others alone. *)
Lemma fence_writes_other reg reg' obj ws r n : 0 <= reg → 0 <= reg' → reg ≠ reg' → fence_writes reg obj = Some ws →
  fence_view_of (mmio_writes r (take n ws)) reg' = fence_view_of r reg'.
Proof.
  intros Hr Hr' Hne Hw. unfold fence_writes in Hw. destruct ((4 <=? gen c) && (gen c <=? 7)) eqn:E4.
  - apply andb_true_iff in E4 as [E4 _]. unfold fence_view_of. rewrite E4. unfold i965_write_fence_reg in Hw.
    set (base := if 6 <=? gen c then FENCE_REG_SANDYBRIDGE_0 else FENCE_REG_965_0).
    assert (∀ w, w ∈ ws → w.1 = base + reg * 8 ∨ w.1 = base + reg * 8 + 4) as Hin.
    { intros w Hin. unfold base. destruct (6 <=? gen c); (destruct obj as [o|]; [destruct (gtt_space o) as [[a b]|]; [|discriminate]|]);
        cbn [mbind option_bind] in Hw; injection Hw as <-; rewrite !elem_of_cons, elem_of_nil in Hin; destruct_or?; subst; cbn; tauto. }
    assert (∀ a, a ≠ base + reg * 8 → a ≠ base + reg * 8 + 4 → mmio_read (mmio_writes r (take n ws)) a = mmio_read r a) as Hread.
    { clear Hw. intros a Ha Ha'. revert n r. induction ws as [|w ws IH]; intros n r; [by rewrite take_nil|]. destruct n as [|n]; [done|].
      cbn [take mmio_writes foldl]. unfold mmio_writes in IH. rewrite IH by (intros w' Hw'; apply Hin; by right). unfold I915_WRITE. rewrite mmio_read_insert.
      destruct (Z.eqb_spec w.1 a) as [<-|]; [|done]. destruct (Hin w) as [|]; [by left|congruence..]. }
    rewrite !Hread by (unfold base; destruct (6 <=? gen c); lia). done.
  - assert (∃ v, ws = [(if gen c =? 3 then if reg <? 8 then FENCE_REG_830_0 + reg * 4 else FENCE_REG_945_8 + (reg - 8) * 4 else FENCE_REG_830_0 + reg * 4, v)]) as [v ->].
    { destruct (gen c =? 3); [|destruct (gen c =? 2); [|done]]; unfold i915_write_fence_reg, i830_write_fence_reg in Hw;
        apply bind_Some in Hw as (v & _ & Hw); injection Hw as <-; by eexists. }
    assert ((4 <=? gen c) = false) as E5.
    { destruct (Z.leb_spec 4 (gen c)); [|done]. rewrite (proj2 (Z.eqb_neq (gen c) 3)), (proj2 (Z.eqb_neq (gen c) 2)) in Hw by lia. discriminate. }
    destruct n as [|n]; [done|]. cbn [take]. rewrite take_nil. unfold mmio_writes, I915_WRITE, fence_view_of. cbn [foldl fst snd]. rewrite E5, !mmio_read_insert.
    unfold FENCE_REG_830_0, FENCE_REG_945_8. destruct (gen c =? 3).
    + rewrite (proj2 (Z.eqb_neq _ _)); [done|]. destruct (Z.ltb_spec reg 8), (Z.ltb_spec reg' 8); lia.
    + rewrite (proj2 (Z.eqb_neq _ _)); [done|lia].
Qed.

(** After any number of its writes a register is as before, invalid, or at the end. *)
Lemma fence_writes_prefix reg obj ws r n : fence_writes reg obj = Some ws →
  fence_view_of (mmio_writes r (take n ws)) reg = fence_view_of r reg ∨ fence_view_of (mmio_writes r (take n ws)) reg = None ∨
  fence_view_of (mmio_writes r (take n ws)) reg = fence_view_of (mmio_writes r ws) reg.
Proof.
  intros Hw. destruct n as [|n]; [by left|]. right. unfold fence_writes in Hw. destruct ((4 <=? gen c) && (gen c <=? 7)) eqn:E4.
  - apply andb_true_iff in E4 as [E4%Z.leb_le _]. unfold i965_write_fence_reg in Hw. set (base := if 6 <=? gen c then FENCE_REG_SANDYBRIDGE_0 else FENCE_REG_965_0).
    assert (∃ v w, ws = [(base + reg * 8, 0); (base + reg * 8 + 4, v); (base + reg * 8, w)] ∨ ws = [(base + reg * 8, 0); (base + reg * 8 + 4, v)]) as (v & w & Hws).
    { unfold base. destruct (6 <=? gen c); (destruct obj as [o|]; [destruct (gtt_space o) as [[a b]|]; [|discriminate]|]);
        cbn [mbind option_bind] in Hw; injection Hw as <-; [eexists _, _; by left|eexists 0, 0; by right|eexists _, _; by left|eexists 0, 0; by right]. }
    assert ((base + reg * 8 + 4 =? base + reg * 8) = false) as Hne by (apply Z.eqb_neq; lia).
    destruct Hws as [->| ->]; destruct n as [|[|n]]; cbn [take]; rewrite ?take_nil; try (by right);
      left; apply fence_view_invalid; try done; fold base; unfold mmio_writes, I915_WRITE; cbn [foldl fst snd]; rewrite !mmio_read_insert, ?Hne, Z.eqb_refl; done.
  - assert (∃ w, ws = [w]) as [w ->].
    { destruct (gen c =? 3); [|destruct (gen c =? 2); [|done]]; unfold i915_write_fence_reg, i830_write_fence_reg in Hw;
        apply bind_Some in Hw as (v & _ & Hw); injection Hw as <-; by eexists. }
    right. cbn [take]. by rewrite take_nil.
Qed.

(** A register that is cleared is invalid. *)
Lemma cleared_view reg ws r : gen_ok → fence_writes reg None = Some ws → fence_view_of (mmio_writes r ws) reg = None.
Proof.
  intros Hg Hw. unfold gen_ok in Hg. unfold fence_writes in Hw. destruct (decide (4 <= gen c)) as [H4|H4].
  - rewrite (proj2 (Z.leb_le 4 (gen c))), (proj2 (Z.leb_le (gen c) 7)) in Hw by lia. apply fence_view_invalid; [done|].
    unfold i965_write_fence_reg in Hw. destruct (6 <=? gen c); injection Hw as <-; unfold mmio_writes, I915_WRITE; cbn [foldl fst snd];
      rewrite !mmio_read_insert, Z.eqb_refl; by rewrite (proj2 (Z.eqb_neq _ _)) by lia.
  - unfold fence_view_of. rewrite (proj2 (Z.leb_gt 4 (gen c))) in Hw |- * by lia. cbn [andb] in Hw.
    assert (gen c = 3 ∨ gen c = 2) as [E|E] by lia; rewrite E in *; cbn [Z.eqb Pos.eqb] in *; injection Hw as <-;
      unfold mmio_writes, I915_WRITE; cbn [foldl fst snd]; by rewrite mmio_read_insert, Z.eqb_refl.
Qed.

Lemma written_view o reg r : gen_ok → fenceable o →
  ∃ ws, fence_writes reg (Some o) = Some ws ∧ fence_view_of (mmio_writes r ws) reg = Some (view_of o).
Proof.
  intros Hg Ho. unfold gen_ok in Hg. destruct (decide (4 <= gen c)); [apply written_965; [lia|done]|apply written_830; [lia|done]].
Qed.

(** ** Sizes and strides *)

Lemma pow2_of_land z : 0 < z → Z.land z (z - 1) = 0 → ∃ k, 0 <= k ∧ z = 2 ^ k.
Proof.
  intros Hz Hl. exists (Z.log2 z). pose proof (Z.log2_nonneg z) as Hn. split; [done|]. pose proof (Z.log2_spec z Hz) as [Hlo Hhi].
  destruct (Z.eq_dec z (2 ^ Z.log2 z)) as [|Hne]; [done|]. exfalso.
  assert (Z.log2 (z - 1) = Z.log2 z) as Hlog by (apply Z.log2_unique; lia).
  assert (Z.testbit (Z.land z (z - 1)) (Z.log2 z) = true) as Hb.
  { rewrite Z.land_spec, Z.bit_log2 by done. rewrite <- Hlog, Z.bit_log2; [done|lia]. }
  by rewrite Hl, Z.bits_0 in Hb.
Qed.

Lemma multiple_of_land z k : 0 <= z → 0 <= k → Z.land z (2 ^ k - 1) = 0 → (2 ^ k | z).
Proof. intros Hz Hk Hl. replace (2 ^ k - 1) with (Z.ones k) in Hl by (rewrite Z.ones_equiv; lia). rewrite Z.land_ones in Hl by done. apply Z.mod_divide; [apply Z.pow_nonzero; lia|done]. Qed.

(** The tile width of the constraints. *)
Definition tile_width (mode : Z) : Z := if IS_GEN2 c || ((mode =? I915_TILING_Y) && HAS_128_BYTE_Y_TILING c) then 128 else 512.

Lemma tiling_ok_stride st sz mode : gen_ok → 0 <= st < 2 ^ 32 → mode ≠ I915_TILING_NONE → i915_tiling_ok st sz mode = true →
  if 4 <=? gen c then ∃ n, st = n * 128 ∧ 0 < n <= (if 7 <=? gen c then 2048 else 1024)
  else (∃ j, 0 <= j <= 6 ∧ st = tile_width mode * 2 ^ j) ∧ st <= 8192 ∧ i32 sz <= (if IS_GEN3 c then 2 ^ 28 else 2 ^ 27).
Proof.
  intros Hg Hst Hm Hok. unfold i915_tiling_ok in Hok. cbv zeta in Hok. rewrite (proj2 (Z.eqb_neq _ _) Hm) in Hok. fold (tile_width mode) in Hok.
  assert (tile_width mode = 2 ^ 7 ∨ tile_width mode = 2 ^ 9) as Htw by (unfold tile_width; destruct (_ || _); auto).
  unfold gen_ok, GEN7_FENCE_MAX_PITCH_VAL, I965_FENCE_MAX_PITCH_VAL, I830_FENCE_MAX_SIZE_VAL in *.
  destruct (if 7 <=? gen c then _ else _) eqn:Emax in Hok; [discriminate|]. destruct (Z.ltb_spec (i32 st) (tile_width mode)) as [|Hge] in Hok; [discriminate|].
  assert (i32 st = st) as Hi.
  { destruct (decide (st <= INT_MAX)) as [|Hbig]; [apply i32_id; unfold INT_MIN, INT_MAX in *; lia|]. exfalso. unfold INT_MAX in Hbig.
    unfold swrap in Hge. replace (st + 2 ^ (32 - 1)) with (st - 2 ^ 31 + 1 * 2 ^ 32) in Hge by lia. rewrite Z.mod_add, Z.mod_small in Hge by lia. lia. }
  rewrite Hi in *. destruct (Z.leb_spec 4 (gen c)) as [H4|H4].
  - apply negb_true_iff, negb_false_iff, Z.eqb_eq in Hok.
    assert (∃ t, tile_width mode = 2 ^ t ∧ 7 <= t <= 9) as (t & Ht & Htr) by (destruct Htw as [->| ->]; [exists 7|exists 9]; lia).
    rewrite Ht in Hok. apply multiple_of_land in Hok as [q Hq]; [|lia..].
    exists (q * 2 ^ (t - 7)). assert (st = q * 2 ^ (t - 7) * 128) as Heq.
    { change 128 with (2 ^ 7). rewrite <- Z.mul_assoc, <- Z.pow_add_r by lia. rewrite Hq. do 2 f_equal. lia. }
    split; [exact Heq|]. rewrite Z.quot_div_nonneg in Emax by lia. rewrite Heq in Emax at 1. rewrite Heq in Emax at 1.
    destruct (7 <=? gen c); rewrite ?Z.div_mul in Emax by lia; apply Z.ltb_ge in Emax; split; try lia; rewrite Ht in Hge; destruct Htw; lia.
  - rewrite (proj2 (Z.leb_gt 7 _)) in Emax by lia. destruct (Z.ltb_spec 8192 st) as [|Hmax]; [discriminate|].
    apply negb_true_iff, negb_false_iff, Z.eqb_eq, pow2_of_land in Hok as (k & Hk & Heq); [|destruct Htw; lia].
    split.
    + assert (∃ t, tile_width mode = 2 ^ t ∧ (t = 7 ∨ t = 9)) as (t & Ht & Htr) by (destruct Htw as [->| ->]; [exists 7|exists 9]; lia).
      rewrite Ht in *. assert (t <= k) by (apply (Z.pow_le_mono_r_iff 2); lia). assert (k <= 13) by (apply (Z.pow_le_mono_r_iff 2); lia).
      exists (k - t). split; [lia|]. rewrite Heq, <- Z.pow_add_r by lia. f_equal. lia.
    + split; [done|]. by destruct (IS_GEN3 c); apply Z.ltb_ge in Emax.
Qed.

(** The doubling ends if the size is at most 2^31, at the least power of two. *)
Lemma gtt_size_loop_ok fuel : ∀ a size, 0 <= a <= 31 → size <= 2 ^ 31 → (Z.to_nat (31 - a) <= fuel)%nat →
  ∃ k, gtt_size_loop fuel (2 ^ a) size = Some (2 ^ k) ∧ a <= k <= 31 ∧ size <= 2 ^ k ∧ (k = a ∨ 2 ^ (k - 1) < size).
Proof.
  induction fuel as [|fuel IH]; intros a size Ha Hs Hf; cbn [gtt_size_loop]; destruct (Z.ltb_spec (2 ^ a) size) as [Hlt|Hge].
  - assert (a = 31) as -> by lia. lia.
  - exists a. split; [done|]. split; [lia|]. split; [done|by left].
  - assert (a < 31) by (apply (Z.pow_lt_mono_r_iff 2); lia). rewrite Z.shiftl_mul_pow2, Z.pow_1_r by lia.
    replace (2 ^ a * 2) with (2 ^ (a + 1)) by (rewrite Z.pow_add_r; lia). assert (2 ^ (a + 1) <= 2 ^ 31) by (apply Z.pow_le_mono_r; lia).
    rewrite u32_id by (pose proof (Z.pow_pos_nonneg 2 (a + 1)); lia). destruct (IH (a + 1) size) as (k & Hrun & Hk & Hle & Hlast); [lia|done|lia|].
    exists k. split; [done|]. split; [lia|]. split; [done|]. right. destruct Hlast as [->|]; [|done]. by replace (a + 1 - 1) with a by lia.
  - exists a. split; [done|]. split; [lia|]. split; [done|by left].
Qed.

(** Beyond that it shifts the size out of its 32 bits, and never ends. *)
Lemma gtt_size_loop_diverges fuel : ∀ g size, g = 0 ∨ (∃ a, 0 <= a <= 31 ∧ g = 2 ^ a) → 2 ^ 31 < size → gtt_size_loop fuel g size = None.
Proof.
  induction fuel as [|fuel IH]; intros g size Hg Hs; cbn [gtt_size_loop].
  all: assert (g <= 2 ^ 31) by (destruct Hg as [->|(a & Ha & ->)]; [lia|apply Z.pow_le_mono_r; lia]).
  all: rewrite (proj2 (Z.ltb_lt _ _)) by lia.
  { done. }
  apply IH; [|done]. destruct Hg as [->|(a & Ha & ->)]; [by left|].
  rewrite Z.shiftl_mul_pow2, Z.pow_1_r by lia. destruct (decide (a = 31)) as [->|]; [by left|]. right. exists (a + 1). split; [lia|].
  replace (2 ^ a * 2) with (2 ^ (a + 1)) by (rewrite Z.pow_add_r; lia). apply u32_id. split; [lia|apply Z.pow_lt_mono_r; lia].
Qed.
End Tiling.
