(* ===== verification/FenceRegs.v ===== *)
(** * i915: who owns the fence registers

    The bookkeeping of i915_gem.c around the registers of [Fences]: taking, stealing,
    pinning and giving up a register, binding an object to the aperture and unbinding
    it, and the change of its tiling by i915_gem_set_tiling. *)

From stdpp Require Import base option list gmap.
From Stdlib Require Import ZArith Lia.
From S2P Require Import Prelude LinuxList Fences.
#[local] Open Scope Z_scope.

(** [struct drm_i915_fence_reg]; 0 is NULL. *)
Record fence := mk_fence { f_obj : Z; f_pins : Z }.

(** The objects at their addresses, the array of fences and their LRU list, by number,
    the first of them for the kernel, and the registers of the chip. *)
Record gtt := mk_gtt { bos : gmap Z gem_bo; fence_regs : list fence; fence_list : list Z; fence_reg_start : Z; mmio : gmap Z Z }.

Section Ops.
(** [total]: the size of the aperture. *)
Variables (c : chip) (total : Z).
Implicit Types (s : gtt) (o : gem_bo).

Definition set_bos (x : gmap Z gem_bo) s : gtt := mk_gtt x (fence_regs s) (fence_list s) (fence_reg_start s) (mmio s).
Definition set_fences (x : list fence) s : gtt := mk_gtt (bos s) x (fence_list s) (fence_reg_start s) (mmio s).
Definition set_lru (x : list Z) s : gtt := mk_gtt (bos s) (fence_regs s) x (fence_reg_start s) (mmio s).
Definition set_mmio (x : gmap Z Z) s : gtt := mk_gtt (bos s) (fence_regs s) (fence_list s) (fence_reg_start s) x.
Definition set_start (x : Z) s : gtt := mk_gtt (bos s) (fence_regs s) (fence_list s) x (mmio s).

Definition with_tiling (mode st : Z) o : gem_bo :=
  mk_bo (size o) mode st (gtt_space o) (gtt_offset o) (pin_count o) (map_and_fenceable o) (fence_reg o) (fence_dirty o) (fenced_gpu_access o) (last_fenced_seqno o).
Definition with_space (sp : option (Z * Z)) (off : Z) (mf : bool) o : gem_bo :=
  mk_bo (size o) (tiling_mode o) (stride o) sp off (pin_count o) mf (fence_reg o) (fence_dirty o) (fenced_gpu_access o) (last_fenced_seqno o).
Definition with_pins (n : Z) o : gem_bo :=
  mk_bo (size o) (tiling_mode o) (stride o) (gtt_space o) (gtt_offset o) n (map_and_fenceable o) (fence_reg o) (fence_dirty o) (fenced_gpu_access o) (last_fenced_seqno o).
Definition with_fence (i : Z) (dirty : bool) o : gem_bo :=
  mk_bo (size o) (tiling_mode o) (stride o) (gtt_space o) (gtt_offset o) (pin_count o) (map_and_fenceable o) i dirty (fenced_gpu_access o) (last_fenced_seqno o).
Definition with_gpu (access : bool) (seqno : Z) o : gem_bo :=
  mk_bo (size o) (tiling_mode o) (stride o) (gtt_space o) (gtt_offset o) (pin_count o) (map_and_fenceable o) (fence_reg o) (fence_dirty o) access seqno.

Definition bo_at (p : Z) : M gtt gem_bo := reads (λ s, bos s !! p).
Definition upd_bo (p : Z) (f : gem_bo → gem_bo) : M gtt unit := o ← bo_at p; modify (λ s, set_bos (<[p := f o]> (bos s)) s).
Definition fence_at (i : Z) : M gtt fence := reads (λ s, if i <? 0 then None else fence_regs s !! Z.to_nat i).
Definition upd_fence (i : Z) (f : fence → fence) : M gtt unit :=
  k ← fence_at i; modify (λ s, set_fences (<[Z.to_nat i := f k]> (fence_regs s)) s).

(** list_move_tail and list_del_init on the LRU list. *)
Definition lru_del (i : Z) : M gtt unit := modify (λ s, set_lru (filter (λ j, j ≠ i) (fence_list s)) s).
Definition lru_move_tail (i : Z) : M gtt unit := modify (λ s, set_lru (filter (λ j, j ≠ i) (fence_list s) ++ [i]) s).

(** ** Taking and giving up a register *)

Definition i915_gem_write_fence (reg : Z) (obj : option gem_bo) : M gtt unit :=
  match fence_writes c reg obj with
  | Some ws => modify (λ s, set_mmio (mmio_writes (mmio s) ws) s)
  | None => fault
  end.

Definition i915_gem_object_update_fence (p reg : Z) (enable : bool) : M gtt unit :=
  o ← bo_at p;
  i915_gem_write_fence reg (if enable then Some o else None);;
  (if enable then
     upd_bo p (λ o, with_fence reg (fence_dirty o) o);;
     upd_fence reg (λ k, mk_fence p (f_pins k));;
     lru_move_tail reg
   else
     upd_bo p (λ o, with_fence I915_FENCE_REG_NONE (fence_dirty o) o);;
     upd_fence reg (λ k, mk_fence 0 (f_pins k));;
     lru_del reg);;
  upd_bo p (λ o, with_fence (fence_reg o) false o).

(** Without the page tables of user mappings, which it takes down. *)
Definition i915_gem_object_fence_lost (p : Z) : M gtt unit := upd_bo p (with_fence I915_FENCE_REG_NONE false).

(** [wait]: what i915_wait_seqno returns. *)
Definition i915_gem_object_wait_fence (p wait : Z) : M gtt Z :=
  o ← bo_at p;
  if z2b (last_fenced_seqno o) && z2b wait then mret wait else
  upd_bo p (with_gpu false 0);;
  mret 0.

Definition i915_gem_object_put_fence (p wait : Z) : M gtt Z :=
  ret ← i915_gem_object_wait_fence p wait;
  if z2b ret then mret ret else
  o ← bo_at p;
  if fence_reg o =? I915_FENCE_REG_NONE then mret 0 else
  fence_at (fence_reg o);;
  i915_gem_object_fence_lost p;;
  i915_gem_object_update_fence p (fence_reg o) false;;
  mret 0.

(** The loop over the registers from number [i] on: the first free one, or whether one
    is not pinned. *)
Fixpoint find_free (l : list fence) (i : Z) (avail : bool) : option Z * bool :=
  match l with
  | [] => (None, avail)
  | k :: l => if f_obj k =? 0 then (Some i, avail) else find_free l (i + 1) (avail || (f_pins k =? 0))
  end.

(** The first register of the LRU list that is not pinned. *)
Fixpoint find_victim (l : list Z) : M gtt (option Z) :=
  match l with
  | [] => mret None
  | i :: l => k ← fence_at i; if z2b (f_pins k) then find_victim l else mret (Some i)
  end.

Definition i915_find_fence_reg : M gtt (option Z) :=
  s ← get;
  match find_free (drop (Z.to_nat (fence_reg_start s)) (fence_regs s)) (fence_reg_start s) false with
  | (Some i, _) => mret (Some i)
  | (None, false) => mret None
  | (None, true) => find_victim (fence_list s)
  end.

(** The results of i915_wait_seqno for the object and for the one it steals from. *)
Record wait_env := mk_waits { wait_own : Z; wait_old : Z }.

(** The register to update, or the end of the call. *)
Definition get_fence_reg (p : Z) (e : wait_env) : M gtt (Z + Z) :=
  o ← bo_at p;
  let enable := negb (tiling_mode o =? I915_TILING_NONE) in
  if negb (fence_reg o =? I915_FENCE_REG_NONE) then
    fence_at (fence_reg o);;
    if negb (fence_dirty o) then lru_move_tail (fence_reg o);; mret (inr 0) else mret (inl (fence_reg o))
  else if enable then
    reg ← i915_find_fence_reg;
    match reg with
    | None => mret (inr (- EDEADLK))
    | Some reg =>
      k ← fence_at reg;
      if f_obj k =? 0 then mret (inl reg) else
      ret ← i915_gem_object_wait_fence (f_obj k) (wait_old e);
      if z2b ret then mret (inr ret) else
      i915_gem_object_fence_lost (f_obj k);;
      mret (inl reg)
    end
  else mret (inr 0).

Definition i915_gem_object_get_fence (p : Z) (e : wait_env) : M gtt Z :=
  o ← bo_at p;
  let enable := negb (tiling_mode o =? I915_TILING_NONE) in
  ret ← (if fence_dirty o then i915_gem_object_wait_fence p (wait_own e) else mret 0);
  if z2b ret then mret ret else
  r ← get_fence_reg p e;
  match r with
  | inl reg => i915_gem_object_update_fence p reg enable;; mret 0
  | inr ret => mret ret
  end.

Definition i915_gem_object_pin_fence (p : Z) : M gtt bool :=
  o ← bo_at p;
  if negb (fence_reg o =? I915_FENCE_REG_NONE) then upd_fence (fence_reg o) (λ k, mk_fence (f_obj k) (f_pins k + 1));; mret true
  else mret false.

Definition i915_gem_object_unpin_fence (p : Z) : M gtt unit :=
  o ← bo_at p;
  when (negb (fence_reg o =? I915_FENCE_REG_NONE)) (upd_fence (fence_reg o) (λ k, mk_fence (f_obj k) (f_pins k - 1))).

Definition restore_fence (i : Z) : M gtt unit :=
  k ← fence_at i;
  if negb (f_obj k =? 0) then o ← bo_at (f_obj k); i915_gem_object_update_fence (f_obj k) i (z2b (tiling_mode o))
  else i915_gem_write_fence i None.

Definition i915_gem_restore_fences : M gtt unit :=
  s ← get; for_each (Z.of_nat <$> seq 0 (length (fence_regs s))) restore_fence.

(** ** Execution *)

(** The fence part of i915_gem_execbuffer_move_to_active and of
    i915_gem_object_move_to_active; [pending]: pending_fenced_gpu_access. *)
Definition i915_gem_object_move_to_active (p : Z) (pending : bool) (seqno : Z) : M gtt unit :=
  upd_bo p (λ o, with_gpu pending (last_fenced_seqno o) o);;
  o ← bo_at p;
  when (fenced_gpu_access o)
    (upd_bo p (with_gpu (fenced_gpu_access o) seqno);;
     when (negb (fence_reg o =? I915_FENCE_REG_NONE)) (fence_at (fence_reg o);; lru_move_tail (fence_reg o))).

Definition i915_gem_object_move_to_inactive (p : Z) : M gtt unit := upd_bo p (with_gpu false 0).

(** ** The place in the aperture *)

(** [finish]: the result of the wait for the object; [retired]: the objects that are
    retired after it; [wait]: the result of the wait for the fence. *)
Record unbind_env := mk_unbind { finish : Z; retired : list Z; wait : Z }.

Definition i915_gem_object_finish_gpu (e : unbind_env) : M gtt Z :=
  if z2b (finish e) then mret (finish e) else for_each (retired e) i915_gem_object_move_to_inactive;; mret 0.

Definition i915_gem_object_unbind (p : Z) (e : unbind_env) : M gtt Z :=
  o ← bo_at p;
  match gtt_space o with
  | None => mret 0
  | Some _ =>
    if z2b (pin_count o) then mret (- EBUSY) else
    ret ← i915_gem_object_finish_gpu e;
    if z2b ret then mret ret else
    ret ← i915_gem_object_put_fence p (wait e);
    if z2b ret then mret ret else
    upd_bo p (with_space None 0 true);;
    mret 0
  end.

(** [evicted]: the objects that i915_gem_evict_something unbinds to make room;
    [found]: where the node is put, or the error of the pages, the node or the room. *)
Record bind_env := mk_bind { evicted : list (Z * unbind_env); found : Z + Z }.

(** The doubling of i915_gem_get_gtt_size takes at most 12 rounds. *)
Definition gtt_rounds : nat := 12.

Definition gtt_max (mf : bool) : Z := if mf then mappable_end c else total.

Definition i915_gem_object_bind_to_gtt (p alignment : Z) (mf : bool) (e : bind_env) : M gtt Z :=
  o ← bo_at p;
  fence_size ← reads (λ _, i915_gem_get_gtt_size c gtt_rounds (size o) (tiling_mode o));
  fence_alignment ← reads (λ _, i915_gem_get_gtt_alignment c gtt_rounds (size o) (tiling_mode o) true);
  unfenced_alignment ← reads (λ _, i915_gem_get_gtt_alignment c gtt_rounds (size o) (tiling_mode o) false);
  let alignment := if alignment =? 0 then if mf then fence_alignment else unfenced_alignment else alignment in
  if mf && z2b (Z.land alignment (fence_alignment - 1)) then mret (- EINVAL) else
  let sz := if mf then fence_size else size o in
  if gtt_max mf <? size o then mret (- E2BIG) else
  for_each (evicted e) (λ v, i915_gem_object_unbind v.1 v.2;; mret tt);;
  match found e with
  | inl ret => mret ret
  | inr start =>
    let fenceable := (sz =? fence_size) && negb (z2b (Z.land start (fence_alignment - 1))) in
    let mappable := start + size o <=? mappable_end c in
    upd_bo p (with_space (Some (start, sz)) start (mappable && fenceable));;
    mret 0
  end.

Definition DRM_I915_GEM_OBJECT_MAX_PIN_COUNT : Z := 0xf.

Definition i915_gem_object_pin (p alignment : Z) (mf : bool) (u : unbind_env) (e : bind_env) : M gtt Z :=
  o ← bo_at p;
  if pin_count o =? DRM_I915_GEM_OBJECT_MAX_PIN_COUNT then mret (- EBUSY) else
  ret ← (match gtt_space o with
    | Some _ =>
      if (z2b alignment && z2b (Z.land (gtt_offset o) (alignment - 1))) || (mf && negb (map_and_fenceable o))
      then i915_gem_object_unbind p u else mret 0
    | None => mret 0
    end);
  if z2b ret then mret ret else
  o ← bo_at p;
  ret ← (match gtt_space o with None => i915_gem_object_bind_to_gtt p alignment mf e | Some _ => mret 0 end);
  if z2b ret then mret ret else
  upd_bo p (λ o, with_pins (pin_count o + 1) o);;
  mret 0.

Definition i915_gem_object_unpin (p : Z) : M gtt unit :=
  o ← bo_at p;
  BUG_ON (pin_count o =? 0);;
  BUG_ON (bool_decide (gtt_space o = None));;
  upd_bo p (λ o, with_pins (pin_count o - 1) o).

(** An access of the processor through the aperture.  [mapped]: the pages are there
    already; [incoherent]: the object is snooped and the chip has no LLC; [d]: the wait
    of i915_gem_object_set_to_gtt_domain.  Whether it maps the object. *)
Definition i915_gem_fault (p : Z) (mapped incoherent : bool) (u : unbind_env) (e : bind_env) (d : unbind_env) (w : wait_env) : M gtt bool :=
  if mapped then mret false else
  if incoherent then mret false else
  ret ← i915_gem_object_pin p 0 true u e;
  if z2b ret then mret false else
  ret ← i915_gem_object_finish_gpu d;
  ret ← (if z2b ret then mret ret else i915_gem_object_get_fence p w);
  i915_gem_object_unpin p;;
  mret (ret =? 0).

(** A new object is in no list and has no fence. *)
Definition i915_gem_object_init (size : Z) : gem_bo := mk_bo size I915_TILING_NONE 0 None 0 0 true I915_FENCE_REG_NONE false false 0.
Definition i915_gem_alloc_object (p size : Z) : M gtt unit := modify (λ s, set_bos (<[p := i915_gem_object_init size]> (bos s)) s).

(** [u2]: of the second attempt, that is not interrupted. *)
Definition i915_gem_free_object (p : Z) (u u2 : unbind_env) : M gtt unit :=
  upd_bo p (with_pins 0);;
  ret ← i915_gem_object_unbind p u;
  when (z2b ret) (i915_gem_object_unbind p u2;; mret tt);;
  modify (λ s, set_bos (delete p (bos s)) s).

(** ** The tiling ioctls *)

(** [struct drm_i915_gem_set_tiling], without the handle. *)
Record tiling_args := mk_tiling { t_mode : Z; t_stride : Z; t_swizzle : Z }.

Definition hide_bit_17 (swizzle : Z) : Z :=
  let swizzle := if swizzle =? I915_BIT_6_SWIZZLE_9_17 then I915_BIT_6_SWIZZLE_9 else swizzle in
  if swizzle =? I915_BIT_6_SWIZZLE_9_10_17 then I915_BIT_6_SWIZZLE_9_10 else swizzle.

(** bit_6_swizzle_x and bit_6_swizzle_y of the memory. *)
Variables (bit_6_swizzle_x bit_6_swizzle_y : Z).

(** The arguments once the swizzling is chosen. *)
Definition choose_swizzle (a : tiling_args) : tiling_args :=
  if t_mode a =? I915_TILING_NONE then mk_tiling (t_mode a) 0 I915_BIT_6_SWIZZLE_NONE else
  let swizzle := hide_bit_17 (if t_mode a =? I915_TILING_X then bit_6_swizzle_x else bit_6_swizzle_y) in
  if swizzle =? I915_BIT_6_SWIZZLE_UNKNOWN then mk_tiling I915_TILING_NONE 0 I915_BIT_6_SWIZZLE_NONE
  else mk_tiling (t_mode a) (t_stride a) swizzle.

(** The lookup of the handle is the caller's; the mode has two bits in the object. *)
Definition i915_gem_set_tiling (p : Z) (a : tiling_args) (u : unbind_env) : M gtt (Z * tiling_args) :=
  o ← bo_at p;
  if negb (i915_tiling_ok c (t_stride a) (size o) (t_mode a)) then mret (- EINVAL, a) else
  if z2b (pin_count o) then mret (- EBUSY, a) else
  let a := choose_swizzle a in
  ret ← (if negb (t_mode a =? tiling_mode o) || negb (t_stride a =? stride o) then
    mf ← (match gtt_space o with
      | None => mret true
      | Some _ =>
        if gtt_offset o + size o <=? mappable_end c then reads (λ _, i915_gem_object_fence_ok c gtt_rounds o (t_mode a)) else mret false
      end);
    upd_bo p (λ o, with_space (gtt_space o) (gtt_offset o) mf o);;
    ret ← (if negb mf then
        unfenced ← reads (λ _, i915_gem_get_gtt_alignment c gtt_rounds (size o) (t_mode a) false);
        if z2b (Z.land (gtt_offset o) (unfenced - 1)) then i915_gem_object_unbind p u else mret 0
      else mret 0);
    (if ret =? 0 then
       upd_bo p (λ o, with_fence (fence_reg o) (fenced_gpu_access o || negb (fence_reg o =? I915_FENCE_REG_NONE)) o);;
       upd_bo p (with_tiling (Z.land (t_mode a) 3) (t_stride a));;
       mret 0
     else mret ret)
    else mret 0);
  o ← bo_at p;
  mret (ret, mk_tiling (tiling_mode o) (stride o) (t_swizzle a)).

Definition i915_gem_get_tiling (p : Z) (a : tiling_args) : M gtt tiling_args :=
  o ← bo_at p;
  let mode := tiling_mode o in
  let swizzle := if mode =? I915_TILING_X then bit_6_swizzle_x else if mode =? I915_TILING_Y then bit_6_swizzle_y
    else if mode =? I915_TILING_NONE then I915_BIT_6_SWIZZLE_NONE else t_swizzle a in
  mret (mk_tiling mode (t_stride a) (hide_bit_17 swizzle)).

(** The registers of the chip, which i915_gem_load clears. *)
Definition num_fence_regs : Z :=
  if (7 <=? gen c) && negb (is_valleyview c) then 32 else if (4 <=? gen c) || is_i945 c || is_g33 c then 16 else 8.

Definition i915_gem_load (modeset : bool) : M gtt unit :=
  s ← get;
  put (mk_gtt ∅ (replicate (Z.to_nat num_fence_regs) (mk_fence 0 0)) [] (if modeset then 0 else 3) (mmio s));;
  i915_gem_restore_fences.

(** I915_SETPARAM_NUM_USED_FENCES *)
Definition setparam_num_used_fences (value : Z) : M gtt Z :=
  s ← get;
  if (Z.of_nat (length (fence_regs s)) <? value) || (value <? 0) then mret (- EINVAL) else modify (set_start value);; mret 0.
End Ops.
