(* ===== verification/FenceInv.v ===== *)
(** * i915: the registers and the objects agree

    The invariant of [FenceRegs] and that every operation keeps it; the safety of the
    registers in every reachable state; taking a register and restoring them all. *)

From stdpp Require Import base option list gmap.
From Stdlib Require Import ZArith Lia.
From S2P Require Import Prelude Fences FenceRegs.
#[local] Open Scope Z_scope.

Section Inv.
Variable c : chip.
Hypothesis Hgen : gen_ok c.
Implicit Types (s : gtt) (o : gem_bo).

(** ** Objects *)

Definition tiled o : Prop := tiling_mode o ≠ I915_TILING_NONE.

(** The two halves of [fenceable]: the place and the lines. *)
Definition placed o : Prop :=
  ∃ sz, gtt_space o = Some (gtt_offset o, sz) ∧ 0 <= gtt_offset o ∧ 0 < sz ∧ gtt_offset o + sz <= 2 ^ 32 ∧
  if 4 <=? gen c then (4096 | gtt_offset o) ∧ (4096 | sz)
  else ∃ k, sz = 2 ^ k ∧ (if gen c =? 3 then 20 else 19) <= k <= (if gen c =? 3 then 28 else 27) ∧ (sz | gtt_offset o).

Definition lines_ok o : Prop :=
  if 4 <=? gen c then ∃ n, stride o = n * 128 ∧ 0 < n <= (if 7 <=? gen c then 2048 else 1024)
  else (∃ j, 0 <= j <= 6 ∧ stride o = tile_width c (tiling_mode o) * 2 ^ j) ∧ size o <= (if gen c =? 3 then 2 ^ 28 else 2 ^ 27).

Lemma placed_fenceable o : placed o → lines_ok o → fenceable c o.
Proof.
  intros (sz & Hsp & H0 & Hsz & Hhi & Hfit) Hl. exists sz. split_and!; try done. unfold lines_ok in Hl.
  destruct (4 <=? gen c).
  - destruct Hfit as [? ?]. done.
  - destruct Hfit as (k & -> & Hk & Hd). destruct Hl as [(j & Hj & Hst) _]. exists k, j. done.
Qed.

(** An object by itself. *)
Record bo_ok o : Prop := {
  bo_size : 0 < size o < 2 ^ 31;
  bo_pages : (4096 | size o);
  bo_stride : 0 <= stride o < 2 ^ 32;
  bo_mode : 0 <= tiling_mode o < 4;
  bo_lines : tiled o → lines_ok o;
  bo_space : ∀ a n, gtt_space o = Some (a, n) → a = gtt_offset o ∧ 0 <= a ∧ size o <= n ∧ a + n <= 2 ^ 32 ∧ (4096 | a) ∧ (4096 | n);
  bo_fits : is_Some (gtt_space o) → gen c < 4 → map_and_fenceable o = true → tiled o → placed o;
  bo_mappable : is_Some (gtt_space o) → map_and_fenceable o = true → gtt_offset o + size o <= mappable_end c;
  bo_fence : fence_reg o ≠ I915_FENCE_REG_NONE → placed o;
  bo_clean : fence_reg o ≠ I915_FENCE_REG_NONE → fence_dirty o = false → tiled o;
  bo_pins : 0 <= pin_count o ∧ (pin_count o ≠ 0 → is_Some (gtt_space o));
}.

(** Where a register is to point to. *)
Definition covers (r : gmap Z Z) (i : Z) o : Prop :=
  (∃ v, fence_view_of c r i = Some v ∧ gtt_space o = Some (v_start v, v_size v)) ∧
  (fence_dirty o = false → fence_view_of c r i = Some (view_of o)).

Definition apart o o' : Prop :=
  ∀ a n a' n', gtt_space o = Some (a, n) → gtt_space o' = Some (a', n') → a + n <= a' ∨ a' + n' <= a.

Definition reg_at s (i : Z) : option fence := if i <? 0 then None else fence_regs s !! Z.to_nat i.

(** The state, but for register [r] that no object owns. *)
Record gtt_but (r : Z) s : Prop := {
  ok_null : bos s !! 0 = None;
  ok_start : 0 <= fence_reg_start s <= Z.of_nat (length (fence_regs s));
  ok_bo : ∀ p o, bos s !! p = Some o → bo_ok o;
  ok_owner : ∀ p o, bos s !! p = Some o → fence_reg o ≠ I915_FENCE_REG_NONE → fence_reg o ≠ r ∧ ∃ k, reg_at s (fence_reg o) = Some k ∧ f_obj k = p;
  ok_owned : ∀ i k, reg_at s i = Some k → i ≠ r → f_obj k ≠ 0 → ∃ o, bos s !! f_obj k = Some o ∧ fence_reg o = i;
  ok_nodup : NoDup (fence_list s);
  ok_range : ∀ i, i ∈ fence_list s → 0 <= i;
  ok_lru : ∀ i, i ≠ r → i ∈ fence_list s ↔ ∃ k, reg_at s i = Some k ∧ f_obj k ≠ 0;
  ok_apart : ∀ p o q o', bos s !! p = Some o → bos s !! q = Some o' → p ≠ q → apart o o';
  ok_free : ∀ i k, reg_at s i = Some k → i ≠ r → f_obj k = 0 → fence_view_of c (mmio s) i = None;
  ok_covers : ∀ p o, bos s !! p = Some o → fence_reg o ≠ I915_FENCE_REG_NONE → covers (mmio s) (fence_reg o) o;
}.

Definition gtt_ok : gtt → Prop := gtt_but I915_FENCE_REG_NONE.

Lemma reg_at_nat s i k : reg_at s i = Some k → 0 <= i ∧ fence_regs s !! Z.to_nat i = Some k.
Proof. unfold reg_at. destruct (Z.ltb_spec i 0); [done|]. intros. split; [lia|done]. Qed.

(** ** Runs of the small operations *)

Lemma wp_bo_at {B} p o s (f : gem_bo → M gtt B) Q : bos s !! p = Some o → wp (f o) s Q → wp (bo_at p ≫= f) s Q.
Proof. intros Hp. unfold wp, mbind, M_bind, bo_at, reads. by rewrite Hp. Qed.

Lemma wp_upd_bo {B} p o s g (f : unit → M gtt B) Q : bos s !! p = Some o →
  wp (f tt) (set_bos (<[p := g o]> (bos s)) s) Q → wp (upd_bo p g ≫= f) s Q.
Proof. intros Hp. unfold wp, mbind, M_bind, upd_bo, bo_at, reads, mbind, M_bind, modify. by rewrite Hp. Qed.

Lemma wp_fence_at {B} i k s (f : fence → M gtt B) Q : reg_at s i = Some k → wp (f k) s Q → wp (fence_at i ≫= f) s Q.
Proof. intros Hi. unfold wp, mbind, M_bind, fence_at, reads. unfold reg_at in Hi. by rewrite Hi. Qed.

(** What an operation keeps of the other objects: it may unbind them. *)
Definition shape o : Z * Z * Z * Z := (size o, tiling_mode o, stride o, pin_count o).
Definition place o : option (Z * Z) * Z * bool := (gtt_space o, gtt_offset o, map_and_fenceable o).
Definition keeps s s' : Prop := ∀ q o, bos s !! q = Some o →
  ∃ o', bos s' !! q = Some o' ∧ shape o' = shape o ∧ (place o' = place o ∨ gtt_space o' = None ∧ map_and_fenceable o' = true).

Lemma bo_keeps_refl s : keeps s s.
Proof. intros q o Hq. exists o. auto. Qed.

Lemma keeps_trans s1 s2 s3 : keeps s1 s2 → keeps s2 s3 → keeps s1 s3.
Proof.
  intros H1 H2 q o Hq. destruct (H1 q o Hq) as (o' & Hq' & Hs & Hp). destruct (H2 q o' Hq') as (o'' & Hq'' & Hs' & Hp').
  exists o''. split; [done|]. split; [congruence|]. destruct Hp' as [Hp'|]; [|by right]. destruct Hp as [Hp|[Hn Hm]]; [left; congruence|right].
  unfold place in Hp'. split; congruence.
Qed.

Lemma bo_keeps_upd s p o o' : bos s !! p = Some o → shape o' = shape o → place o' = place o ∨ gtt_space o' = None ∧ map_and_fenceable o' = true →
  keeps s (set_bos (<[p := o']> (bos s)) s).
Proof.
  intros Hp Hs Hpl q oq Hq. cbn [bos set_bos]. destruct (decide (q = p)) as [->|Hne].
  - rewrite lookup_insert_eq. assert (oq = o) as -> by congruence. by exists o'.
  - rewrite lookup_insert_ne by done. exists oq. auto.
Qed.

(** ** Changes of one object *)

Lemma bo_ok_gpu o a n : bo_ok o → bo_ok (with_gpu a n o).
Proof. intros []; constructor; assumption. Qed.

Lemma bo_ok_pins o n : bo_ok o → 0 <= n → (n ≠ 0 → is_Some (gtt_space o)) → bo_ok (with_pins n o).
Proof. intros [] ??; constructor; try assumption; done. Qed.

Lemma bo_ok_detached o d : bo_ok o → bo_ok (with_fence I915_FENCE_REG_NONE d o).
Proof. intros []; constructor; try assumption; cbn; intros; by exfalso. Qed.

Lemma bo_ok_attached o i : bo_ok o → placed o → tiled o → bo_ok (with_fence i false o).
Proof. by intros [] ??; constructor; try assumption; intros. Qed.

Lemma apart_sym o o' : apart o o' → apart o' o.
Proof. intros Ha a n a' n' H1 H2. destruct (Ha a' n' a n H2 H1); auto. Qed.

Lemma ok_upd r s p o o' : gtt_but r s → bos s !! p = Some o → bo_ok o' → fence_reg o' = fence_reg o →
  (fence_reg o ≠ I915_FENCE_REG_NONE → gtt_space o' = gtt_space o ∧ (fence_dirty o' = false → fence_dirty o = false ∧ view_of o' = view_of o)) →
  gtt_space o' = gtt_space o ∨ (∀ q oq, bos s !! q = Some oq → q ≠ p → apart o' oq) →
  gtt_but r (set_bos (<[p := o']> (bos s)) s).
Proof.
  intros Hok Hp Hbo Hf Hv Hsp. destruct Hok as [Hz Hst Hb Ho Hod Hnd Hrg Hl Ha Hfr Hcv].
  assert (∀ q oq, bos s !! q = Some oq → q ≠ p → apart o' oq) as Hap.
  { destruct Hsp as [He|]; [|done]. intros q oq Hq Hne. unfold apart. rewrite He. by apply (Ha p o q oq). }
  assert (p ≠ 0) by congruence.
  constructor; cbn [bos fence_regs fence_list fence_reg_start mmio set_bos]; try done.
  - by rewrite lookup_insert_ne.
  - intros q oq [[<- <-]|[_ Hq]]%lookup_insert_Some; [done|by apply (Hb q)].
  - intros q oq [[<- <-]|[_ Hq]]%lookup_insert_Some; [rewrite Hf; by apply (Ho p o)|by apply (Ho q oq)].
  - intros i k Hi Hir Hk. destruct (Hod i k Hi Hir Hk) as (ok & Hlk & Hfi). destruct (decide (f_obj k = p)) as [Heq|Hne].
    + rewrite Heq, lookup_insert_eq. exists o'. split; [done|]. rewrite Heq in Hlk. congruence.
    + rewrite lookup_insert_ne by done. by exists ok.
  - intros q1 o1 q2 o2 [[<- <-]|[Hn1 H1]]%lookup_insert_Some [[<- <-]|[Hn2 H2]]%lookup_insert_Some Hne; [done|by apply (Hap q2)|apply apart_sym; by apply (Hap q1)|by apply (Ha q1 o1 q2 o2)].
  - intros q oq [[<- <-]|[_ Hq]]%lookup_insert_Some Hfq; [|by apply (Hcv q oq)]. rewrite Hf in *. destruct (Hv Hfq) as [Hs Hd].
    destruct (Hcv p o Hp Hfq) as [(v & Hview & Hgs) Hcl]. split; [exists v; by rewrite Hs|]. intros Hd'. destruct (Hd Hd') as [Hd0 ->]. auto.
Qed.

Lemma ok_gpu r s p o a n : gtt_but r s → bos s !! p = Some o → gtt_but r (set_bos (<[p := with_gpu a n o]> (bos s)) s).
Proof. intros Hok Hp. apply (ok_upd _ _ _ o); try done; [by apply bo_ok_gpu, (ok_bo _ _ Hok p)|by left]. Qed.

Lemma wait_fence_run p w s o : bos s !! p = Some o →
  i915_gem_object_wait_fence p w s = Some (w, s) ∧ w ≠ 0 ∨ i915_gem_object_wait_fence p w s = Some (0, set_bos (<[p := with_gpu false 0 o]> (bos s)) s).
Proof.
  intros Hp. unfold i915_gem_object_wait_fence, upd_bo, bo_at, reads, modify, mbind, M_bind, mret, M_ret. rewrite Hp.
  destruct (z2b (last_fenced_seqno o) && z2b w) eqn:E; [left; split; [done|]|right; by rewrite Hp].
  apply andb_true_iff in E as [_ E]. unfold z2b in E. intros ->. done.
Qed.

(** ** Giving up and taking a register *)

Lemma ok_detach s p o d : gtt_ok s → bos s !! p = Some o → fence_reg o ≠ I915_FENCE_REG_NONE →
  gtt_but (fence_reg o) (set_bos (<[p := with_fence I915_FENCE_REG_NONE d o]> (bos s)) s).
Proof.
  intros [Hz Hst Hb Ho Hod Hnd Hrg Hl Ha Hfr Hcv] Hp Hf. assert (p ≠ 0) by congruence.
  destruct (Ho p o Hp Hf) as (_ & kp & Hkp & Hop). destruct (reg_at_nat _ _ _ Hkp) as [Hge _].
  constructor; cbn [bos fence_regs fence_list fence_reg_start mmio set_bos]; try done.
  - by rewrite lookup_insert_ne.
  - intros q oq [[<- <-]|[_ Hq]]%lookup_insert_Some; [by apply bo_ok_detached, (Hb p)|by apply (Hb q)].
  - intros q oq [[<- <-]|[Hne Hq]]%lookup_insert_Some Hfq; [done|]. destruct (Ho q oq Hq Hfq) as (_ & k & Hk & Hok).
    split; [|by exists k]. intros He. unfold reg_at in *. cbn in *. rewrite He in Hk. congruence.
  - intros i k Hi Hir Hk. change (reg_at s i = Some k) in Hi. destruct (reg_at_nat _ _ _ Hi) as [Hi0 _].
    destruct (Hod i k Hi ltac:(unfold I915_FENCE_REG_NONE; lia) Hk) as (ok & Hlk & Hfi). destruct (decide (f_obj k = p)) as [Heq|Hne].
    + rewrite Heq in Hlk. congruence.
    + rewrite lookup_insert_ne by done. by exists ok.
  - intros i Hir. destruct (decide (i = I915_FENCE_REG_NONE)) as [->|]; [|by apply Hl].
    split; [|intros (k & Hk & _); by destruct (reg_at_nat _ _ _ Hk)].
    intros Hin%Hrg. by unfold I915_FENCE_REG_NONE in Hin.
  - intros q1 o1 q2 o2 [[<- <-]|[Hn1 H1]]%lookup_insert_Some [[<- <-]|[Hn2 H2]]%lookup_insert_Some Hne; [done|by apply (Ha p o q2 o2)|by apply (Ha q1 o1 p o)|by apply (Ha q1 o1 q2 o2)].
  - intros i k Hi Hir Hk. apply (Hfr i k Hi); [|done]. destruct (reg_at_nat _ _ _ Hi). unfold I915_FENCE_REG_NONE. lia.
  - intros q oq [[<- <-]|[_ Hq]]%lookup_insert_Some Hfq; [done|by apply (Hcv q oq)].
Qed.
(** A register without an object is nobody's. *)
Lemma ok_unowned s i k : gtt_ok s → reg_at s i = Some k → f_obj k = 0 → gtt_but i s.
Proof.
  intros [Hz Hst Hb Ho Hod Hnd Hrg Hl Ha Hfr Hcv] Hi Hk. assert (0 <= i) by by apply (reg_at_nat s i k).
  constructor; try done.
  - intros p o Hp Hf. destruct (Ho p o Hp Hf) as (_ & k' & Hk' & Hp'). split; [|by exists k']. intros Heq. rewrite Heq in Hk'. congruence.
  - intros j k' Hj Hne. apply Hod; [done|]. destruct (reg_at_nat _ _ _ Hj). unfold I915_FENCE_REG_NONE. lia.
  - intros j Hj. destruct (decide (j = I915_FENCE_REG_NONE)) as [->|]; [|by apply Hl].
    split; [intros Hin%Hrg; by unfold I915_FENCE_REG_NONE in Hin|intros (k' & Hk' & _); by destruct (reg_at_nat _ _ _ Hk')].
  - intros j k' Hj Hne. apply (Hfr j k' Hj). destruct (reg_at_nat _ _ _ Hj). unfold I915_FENCE_REG_NONE. lia.
Qed.

Lemma writes_other r reg reg' obj ws : 0 <= reg → 0 <= reg' → reg ≠ reg' → fence_writes c reg obj = Some ws →
  fence_view_of c (mmio_writes r ws) reg' = fence_view_of c r reg'.
Proof. intros H0 H1 Hne Hw. rewrite <- (fence_writes_other c reg reg' obj ws r (length ws) H0 H1 Hne Hw). by rewrite firstn_all. Qed.

(** The state with object [p] as [o'] and register [i] as [k'] after the writes [ws]. *)
Definition with_reg (p : Z) o' (i : Z) (k' : fence) (ws : list (Z * Z)) s : gtt :=
  mk_gtt (<[p := o']> (bos s)) (<[Z.to_nat i := k']> (fence_regs s))
    (filter (λ j, j ≠ i) (fence_list s) ++ if f_obj k' =? 0 then [] else [i]) (fence_reg_start s) (mmio_writes (mmio s) ws).

Lemma reg_at_with_reg p o' i k0 k' ws s j : reg_at s i = Some k0 → reg_at (with_reg p o' i k' ws s) j = if decide (j = i) then Some k' else reg_at s j.
Proof.
  intros Hi. destruct (reg_at_nat _ _ _ Hi) as [Hi0 Hlk]. unfold reg_at. cbn [with_reg fence_regs]. destruct (Z.ltb_spec j 0).
  - by rewrite decide_False by lia.
  - destruct (decide (j = i)) as [->|Hne].
    + apply list_lookup_insert_eq. by apply lookup_lt_Some in Hlk.
    + apply list_lookup_insert_ne. lia.
Qed.

(** What a new owner must satisfy, or that there is none. *)
Definition owner_ok (p : Z) o' (i : Z) (k' : fence) (ws : list (Z * Z)) s : Prop :=
  if f_obj k' =? 0 then fence_reg o' = I915_FENCE_REG_NONE ∧ fence_view_of c (mmio_writes (mmio s) ws) i = None
  else f_obj k' = p ∧ fence_reg o' = i ∧ covers (mmio_writes (mmio s) ws) i o'.

Lemma ok_with_reg s p o o' i k0 k' ws obj : gtt_but i s → bos s !! p = Some o → fence_reg o = I915_FENCE_REG_NONE → gtt_space o' = gtt_space o → bo_ok o' →
  reg_at s i = Some k0 → fence_writes c i obj = Some ws → owner_ok p o' i k' ws s → gtt_ok (with_reg p o' i k' ws s).
Proof.
  intros [Hz Hst Hb Ho Hod Hnd Hrg Hl Ha Hfr Hcv] Hp Hf Hsp Hbo Hi Hw Hown. assert (p ≠ 0) by congruence.
  destruct (reg_at_nat _ _ _ Hi) as [Hi0 _]. pose proof (reg_at_with_reg p o' i k0 k' ws s) as Hreg. specialize (λ j, Hreg j Hi).
  assert (∀ q oq, bos s !! q = Some oq → q ≠ p → apart o' oq) as Hap.
  { intros q oq Hq Hne. unfold apart. rewrite Hsp. by apply (Ha p o q oq). }
  assert (∀ j k, reg_at s j = Some k → j ≠ i → fence_view_of c (mmio_writes (mmio s) ws) j = fence_view_of c (mmio s) j) as Hview.
  { intros j k Hj Hne. destruct (reg_at_nat _ _ _ Hj). by apply (writes_other _ i j obj). }
  constructor; cbn [with_reg bos fence_list fence_reg_start mmio].
  - by rewrite lookup_insert_ne.
  - cbn [fence_regs]. unfold with_reg, fence_regs. by rewrite length_insert.
  - intros q oq [[<- <-]|[_ Hq]]%lookup_insert_Some; [done|by apply (Hb q)].
  - intros q oq [[<- <-]|[Hne Hq]]%lookup_insert_Some Hfq; (split; [done|]); rewrite Hreg.
    + unfold owner_ok in Hown. destruct (f_obj k' =? 0); [by destruct Hown|]. destruct Hown as (Hk' & -> & _). rewrite decide_True by done. by exists k'.
    + destruct (Ho q oq Hq Hfq) as (Hfi & k & Hk & Hkq). rewrite decide_False by done. by exists k.
  - intros j k Hj _ Hk. rewrite Hreg in Hj. destruct (decide (j = i)) as [->|Hne].
    + injection Hj as <-. unfold owner_ok in Hown. rewrite (proj2 (Z.eqb_neq _ _) Hk) in Hown. destruct Hown as (-> & Hfi & _). rewrite lookup_insert_eq. by exists o'.
    + destruct (Hod j k Hj Hne Hk) as (ok & Hlk & Hfj). destruct (decide (f_obj k = p)) as [Heq|].
      * rewrite Heq in Hlk. destruct (reg_at_nat _ _ _ Hj). exfalso. unfold I915_FENCE_REG_NONE in *. assert (ok = o) as -> by congruence. lia.
      * rewrite lookup_insert_ne by done. by exists ok.
  - apply NoDup_app. split; [by apply NoDup_filter|]. split.
    + intros j [Hj _]%list_elem_of_filter. destruct (f_obj k' =? 0); [by intros ?%not_elem_of_nil|by intros ?%list_elem_of_singleton].
    + destruct (f_obj k' =? 0); [constructor|apply NoDup_singleton].
  - intros j [[_ Hj]%list_elem_of_filter|Hj]%elem_of_app; [by apply Hrg|]. destruct (f_obj k' =? 0); [by apply not_elem_of_nil in Hj|by apply list_elem_of_singleton in Hj as ->].
  - intros j _. rewrite elem_of_app, list_elem_of_filter, Hreg. destruct (decide (j = i)) as [->|Hne].
    + split.
      * intros [[? _]|Hin]; [done|]. exists k'. split; [done|]. destruct (Z.eqb_spec (f_obj k') 0); [by apply not_elem_of_nil in Hin|done].
      * intros (k & Hk & Hn). injection Hk as <-. right. rewrite (proj2 (Z.eqb_neq _ _) Hn). by apply list_elem_of_singleton.
    + rewrite <- (Hl j Hne). split; [intros [[_ ?]|Hin]; [done|]|by left]. destruct (f_obj k' =? 0); [by apply not_elem_of_nil in Hin|by apply list_elem_of_singleton in Hin].
  - intros q1 o1 q2 o2 [[<- <-]|[Hn1 H1]]%lookup_insert_Some [[<- <-]|[Hn2 H2]]%lookup_insert_Some Hne; [done|by apply (Hap q2)|apply apart_sym; by apply (Hap q1)|by apply (Ha q1 o1 q2 o2)].
  - intros j k Hj _ Hk. rewrite Hreg in Hj. destruct (decide (j = i)) as [->|Hne].
    + injection Hj as <-. unfold owner_ok in Hown. rewrite Hk in Hown. by destruct Hown.
    + rewrite (Hview j k) by done. by apply (Hfr j k).
  - intros q oq [[<- <-]|[Hne Hq]]%lookup_insert_Some Hfq.
    + unfold owner_ok in Hown. destruct (f_obj k' =? 0); [by destruct Hown|]. by destruct Hown as (_ & -> & ?).
    + destruct (Ho q oq Hq Hfq) as (Hfi & k & Hk & Hkq). unfold covers. rewrite (Hview _ _ Hk Hfi). by apply (Hcv q oq).
Qed.

(** i915_gem_object_update_fence as one change of the state. *)
Lemma update_fence_run s p o i k (enable : bool) ws : bos s !! p = Some o → p ≠ 0 → reg_at s i = Some k → fence_writes c i (if enable then Some o else None) = Some ws →
  i915_gem_object_update_fence c p i enable s =
  Some (tt, with_reg p (with_fence (if enable then i else I915_FENCE_REG_NONE) false o) i (mk_fence (if enable then p else 0) (f_pins k)) ws s).
Proof.
  intros Hp Hp0 Hi Hw. destruct (reg_at_nat _ _ _ Hi) as [Hi0 Hlk].
  unfold i915_gem_object_update_fence, i915_gem_write_fence, bo_at, reads, mbind, M_bind. rewrite Hp, Hw. cbn [modify].
  unfold upd_fence, fence_at, lru_move_tail, lru_del, reads, upd_bo, bo_at, reads, modify, mbind, M_bind, with_reg.
  rewrite (proj2 (Z.ltb_ge i 0)) by done.
  destruct enable; cbn [bos set_bos set_mmio set_lru set_fences fence_regs fence_list fence_reg_start mmio f_obj]; rewrite Hp;
    cbn [bos set_bos set_mmio set_lru set_fences fence_regs fence_list fence_reg_start mmio]; rewrite Hlk;
    cbn [bos set_bos set_mmio set_lru set_fences fence_regs fence_list fence_reg_start mmio]; rewrite lookup_insert_eq;
    unfold set_bos at 1; cbn [bos set_bos set_mmio set_lru set_fences fence_regs fence_list fence_reg_start mmio]; rewrite insert_insert_eq.
  - by rewrite (proj2 (Z.eqb_neq p 0)).
  - by rewrite app_nil_r.
Qed.
Lemma keeps_with_reg s p o o' i k' ws : bos s !! p = Some o → shape o' = shape o → place o' = place o → keeps s (with_reg p o' i k' ws s).
Proof. intros Hp Hs Hpl q oq Hq. by apply (bo_keeps_upd s p o o' Hp Hs (or_introl Hpl)). Qed.

(** Writing the register of an object that fits attaches it. *)
Lemma attach_ok s p o i d : gtt_but i (set_bos (<[p := with_fence I915_FENCE_REG_NONE d o]> (bos s)) s) → bos s !! p = Some o → p ≠ 0 →
  is_Some (reg_at s i) → bo_ok o → placed o → tiled o →
  wp (i915_gem_object_update_fence c p i true) s (λ _ s', gtt_ok s' ∧ keeps s s' ∧ ∃ o', bos s' !! p = Some o' ∧ fence_reg o' = i ∧ fence_dirty o' = false ∧
    fence_view_of c (mmio s') i = Some (view_of o')).
Proof.
  intros Hok Hp Hp0 [k Hk] Hbo Hpl Ht. destruct (reg_at_nat _ _ _ Hk) as [Hi0 _].
  pose proof (placed_fenceable o Hpl (bo_lines _ Hbo Ht)) as Hfit. destruct (written_view c o i (mmio s) Hgen Hfit) as (ws & Hw & Hview).
  unfold wp. rewrite (update_fence_run s p o i k true ws Hp Hp0 Hk Hw). set (o' := with_fence i false o).
  assert (covers (mmio_writes (mmio s) ws) i o') as Hcov.
  { split; [|done]. exists (view_of o). split; [done|]. destruct Hpl as (sz & Hsp & _). cbn. by rewrite Hsp. }
  split_and!.
  - assert (with_reg p o' i (mk_fence p (f_pins k)) ws s = with_reg p o' i (mk_fence p (f_pins k)) ws (set_bos (<[p := with_fence I915_FENCE_REG_NONE d o]> (bos s)) s)) as ->.
    { unfold with_reg. cbn [bos set_bos fence_regs fence_list fence_reg_start mmio]. by rewrite insert_insert_eq. }
    apply (ok_with_reg _ p (with_fence I915_FENCE_REG_NONE d o) o' i k _ ws (Some o)); try done.
    + cbn. by rewrite lookup_insert_eq.
    + by apply bo_ok_attached.
    + unfold owner_ok. cbn [f_obj]. by rewrite (proj2 (Z.eqb_neq p 0)).
  - by apply (keeps_with_reg s p o o').
  - exists o'. cbn [with_reg bos mmio]. by rewrite lookup_insert_eq.
Qed.

(** Clearing it detaches. *)
Lemma detach_ok s p o i d : gtt_but i (set_bos (<[p := with_fence I915_FENCE_REG_NONE d o]> (bos s)) s) → bos s !! p = Some o → p ≠ 0 →
  is_Some (reg_at s i) → bo_ok o →
  wp (i915_gem_object_update_fence c p i false) s (λ _ s', gtt_ok s' ∧ keeps s s' ∧
    bos s' = <[p := with_fence I915_FENCE_REG_NONE false o]> (bos s)).
Proof.
  intros Hok Hp Hp0 [k Hk] Hbo. destruct (reg_at_nat _ _ _ Hk) as [Hi0 _].
  destruct (fence_writes_total c i None Hgen) as [ws Hw]; [done|]. pose proof (cleared_view c i ws (mmio s) Hgen Hw) as Hview.
  unfold wp. rewrite (update_fence_run s p o i k false ws Hp Hp0 Hk Hw). set (o' := with_fence I915_FENCE_REG_NONE false o).
  split_and!; [|by apply (keeps_with_reg s p o o')|done].
  assert (with_reg p o' i (mk_fence 0 (f_pins k)) ws s = with_reg p o' i (mk_fence 0 (f_pins k)) ws (set_bos (<[p := with_fence I915_FENCE_REG_NONE d o]> (bos s)) s)) as ->.
  { unfold with_reg. cbn [bos set_bos fence_regs fence_list fence_reg_start mmio]. by rewrite insert_insert_eq. }
  apply (ok_with_reg _ p (with_fence I915_FENCE_REG_NONE d o) o' i k _ ws None); try done.
  - cbn. by rewrite lookup_insert_eq.
  - by apply bo_ok_detached.
Qed.

Lemma put_fence_ok s p o w : gtt_ok s → bos s !! p = Some o →
  wp (i915_gem_object_put_fence c p w) s (λ z s', gtt_ok s' ∧ keeps s s' ∧ (z ≠ 0 → z = w ∧ s' = s) ∧
    (z = 0 → ∃ o', bos s' = <[p := o']> (bos s) ∧ fence_reg o' = I915_FENCE_REG_NONE ∧ shape o' = shape o ∧ place o' = place o)).
Proof.
  intros Hok Hp. assert (p ≠ 0) by (intros ->; by rewrite (ok_null _ _ Hok) in Hp). unfold i915_gem_object_put_fence. apply wp_bind.
  destruct (wait_fence_run p w s o Hp) as [[Hrun Hw]|Hrun]; apply (wp_of _ _ _ _ _ Hrun).
  { assert (z2b w = true) as -> by (unfold z2b; by rewrite (proj2 (Z.eqb_neq w 0))). unfold wp, mret, M_ret.
    split; [done|]. split; [apply bo_keeps_refl|]. done. }
  cbn [z2b Z.eqb negb]. set (o1 := with_gpu false 0 o). set (s1 := set_bos (<[p := o1]> (bos s)) s).
  assert (bos s1 !! p = Some o1) as Hp1 by (cbn; by rewrite lookup_insert_eq).
  assert (gtt_ok s1) as Hok1 by by apply ok_gpu. assert (keeps s s1) as Hk1 by (apply (bo_keeps_upd s p o o1); auto).
  apply (wp_bo_at p o1); [done|]. destruct (Z.eqb_spec (fence_reg o1) I915_FENCE_REG_NONE) as [Hf|Hf].
  { unfold wp, mret, M_ret. split_and!; try done. intros _. exists o1. auto. }
  destruct (ok_owner _ _ Hok1 p o1 Hp1 Hf) as (_ & k & Hk & _). apply (wp_fence_at _ k); [done|].
  unfold i915_gem_object_fence_lost. apply (wp_upd_bo p o1); [done|]. cbn [with_fence fence_reg].
  apply wp_bind. eapply wp_mono; [apply (detach_ok _ p (with_fence I915_FENCE_REG_NONE false o1) (fence_reg o1) false)|].
  - cbn [bos set_bos]. rewrite insert_insert_eq. apply (ok_detach s1 p o1 false Hok1 Hp1 Hf).
  - cbn [bos set_bos]. by rewrite lookup_insert_eq.
  - done.
  - by exists k.
  - apply bo_ok_detached. by apply (ok_bo _ _ Hok1 p).
  - intros _ s2 (Hok2 & Hk2 & Hb2). unfold wp, mret, M_ret. split; [done|]. split.
    + eapply keeps_trans; [exact Hk1|]. eapply keeps_trans; [|exact Hk2]. by apply (bo_keeps_upd s1 p o1 _ Hp1); auto.
    + split; [done|]. intros _. rewrite Hb2. unfold s1. cbn [bos set_bos]. rewrite !insert_insert_eq. eexists. split; [reflexivity|]. done.
Qed.
(** ** The choice of a register *)

(** All registers from number [i] on are owned. *)
Definition all_owned (l : list fence) : Prop := ∀ k, k ∈ l → f_obj k ≠ 0.

Lemma find_free_spec l i av : match find_free l i av with
  | (Some j, _) => ∃ k, i <= j ∧ l !! Z.to_nat (j - i) = Some k ∧ f_obj k = 0
  | (None, av') => all_owned l ∧ av' = (av || existsb (λ k, f_pins k =? 0) l)
  end.
Proof.
  revert i av. induction l as [|k l IH]; intros i av; cbn [find_free existsb].
  { split; [by intros k ?%not_elem_of_nil|by rewrite orb_false_r]. }
  destruct (Z.eqb_spec (f_obj k) 0) as [Hk|Hk].
  - exists k. replace (i - i) with 0 by lia. split; [lia|]. done.
  - specialize (IH (i + 1) (av || (f_pins k =? 0))). destruct (find_free l (i + 1) _) as [[j|] av'].
    + destruct IH as (k' & Hj & Hlk & Hk'). exists k'. split; [lia|]. split; [|done].
      replace (Z.to_nat (j - i)) with (S (Z.to_nat (j - (i + 1)))) by lia. done.
    + destruct IH as [Ha ->]. split; [|by rewrite orb_assoc]. intros k' [->|Hk']%elem_of_cons; [done|by apply Ha].
Qed.

Lemma find_victim_spec s l : (∀ i, i ∈ l → is_Some (reg_at s i)) →
  ∃ r, find_victim l s = Some (r, s) ∧ match r with
  | Some i => ∃ l1 l2 k, l = l1 ++ i :: l2 ∧ reg_at s i = Some k ∧ f_pins k = 0 ∧ ∀ j k', j ∈ l1 → reg_at s j = Some k' → f_pins k' ≠ 0
  | None => ∀ j k', j ∈ l → reg_at s j = Some k' → f_pins k' ≠ 0
  end.
Proof.
  induction l as [|i l IH]; intros Hin; cbn [find_victim].
  { exists None. split; [done|]. by intros j k' ?%not_elem_of_nil. }
  destruct (Hin i) as [k Hk]; [by left|]. unfold mbind, M_bind, fence_at, reads. unfold reg_at in Hk. rewrite Hk. fold (reg_at s i) in Hk.
  unfold z2b. destruct (Z.eqb_spec (f_pins k) 0) as [Hz|Hz]; cbn [negb].
  - exists (Some i). split; [done|]. exists [], l, k. split_and!; try done. by intros j k' ?%not_elem_of_nil.
  - destruct IH as (r & -> & Hr); [intros j Hj; apply Hin; by right|]. exists r. split; [done|]. destruct r as [j|].
    + destruct Hr as (l1 & l2 & k' & -> & Hk' & Hp' & Hbefore). exists (i :: l1), l2, k'. split_and!; try done.
      intros m km [->|Hm]%elem_of_cons Hkm; [congruence|by apply (Hbefore m)].
    + intros m km [->|Hm]%elem_of_cons Hkm; [congruence|by apply (Hr m)].
Qed.

Definition kernel_regs s : list fence := drop (Z.to_nat (fence_reg_start s)) (fence_regs s).

(** A free register of the kernel's, or the least recently used that is not pinned,
    or none if all of the kernel's are pinned. *)
Definition chosen s (r : option Z) : Prop :=
  match r with
  | Some i => ∃ k, reg_at s i = Some k ∧ (f_obj k = 0 ∨ all_owned (kernel_regs s) ∧ f_pins k = 0 ∧
      ∃ l1 l2, fence_list s = l1 ++ i :: l2 ∧ ∀ j k', j ∈ l1 → reg_at s j = Some k' → f_pins k' ≠ 0)
  | None => ∀ k, k ∈ kernel_regs s → f_obj k ≠ 0 ∧ f_pins k ≠ 0
  end.

Lemma find_fence_reg_ok s : gtt_ok s → ∃ r, i915_find_fence_reg s = Some (r, s) ∧ chosen s r.
Proof.
  intros Hok. pose proof (ok_start _ _ Hok) as Hst. unfold i915_find_fence_reg. rewrite get_bind. fold (kernel_regs s).
  pose proof (find_free_spec (kernel_regs s) (fence_reg_start s) false) as Hff.
  destruct (find_free (kernel_regs s) (fence_reg_start s) false) as [[i|] av].
  - exists (Some i). split; [done|]. destruct Hff as (k & Hi & Hlk & Hk). exists k. split; [|by left].
    unfold kernel_regs in Hlk. rewrite lookup_drop in Hlk. unfold reg_at. rewrite (proj2 (Z.ltb_ge i 0)) by lia. rewrite <- Hlk. f_equal. lia.
  - destruct Hff as [Hall ->]. cbn [orb]. destruct (existsb _ _) eqn:Eav.
    + destruct (find_victim_spec s (fence_list s)) as (r & Hrun & Hr).
      { intros i Hi. assert (i ≠ I915_FENCE_REG_NONE) as Hn by (apply (ok_range _ _ Hok) in Hi; unfold I915_FENCE_REG_NONE; lia).
        apply (ok_lru _ _ Hok i Hn) in Hi as (k & Hk & _). by exists k. }
      exists r. split; [done|]. destruct r as [i|].
      * destruct Hr as (l1 & l2 & k & Hl & Hk & Hp & Hb). exists k. split; [done|]. right. split; [done|]. split; [done|]. by exists l1, l2.
      * exfalso. apply existsb_exists in Eav as (k & Hk & Hp%Z.eqb_eq). apply list_elem_of_In in Hk.
        pose proof (Hall k Hk) as Ho. apply list_elem_of_lookup in Hk as [n Hn]. unfold kernel_regs in Hn. rewrite lookup_drop in Hn.
        set (i := Z.of_nat (Z.to_nat (fence_reg_start s) + n)). assert (reg_at s i = Some k) as Hi.
        { unfold reg_at, i. rewrite (proj2 (Z.ltb_ge _ 0)) by lia. by rewrite Nat2Z.id. }
        assert (i ∈ fence_list s) by (apply (ok_lru _ _ Hok); [unfold i, I915_FENCE_REG_NONE; lia|by exists k]). by apply (Hr i k).
    + exists None. split; [done|]. intros k Hk. split; [by apply Hall|]. intros Hp. apply not_true_iff_false in Eav. apply Eav.
      apply existsb_exists. exists k. split; [by apply list_elem_of_In|by rewrite Hp].
Qed.
(** ** i915_gem_object_get_fence *)

Lemma lru_bump_ok s i k : gtt_ok s → reg_at s i = Some k → f_obj k ≠ 0 → gtt_ok (set_lru (filter (λ j, j ≠ i) (fence_list s) ++ [i]) s).
Proof.
  intros [Hz Hst Hb Ho Hod Hnd Hrg Hl Ha Hfr Hcv] Hi Hk. assert (0 <= i) as Hi0 by by apply (reg_at_nat s i k).
  constructor; try done; cbn [set_lru fence_list].
  - apply NoDup_app. split; [by apply NoDup_filter|]. split; [|apply NoDup_singleton].
    intros j [Hj _]%list_elem_of_filter. by intros ?%list_elem_of_singleton.
  - intros j [[_ Hj]%list_elem_of_filter| ->%list_elem_of_singleton]%elem_of_app; [by apply Hrg|done].
  - intros j Hj. change (reg_at (set_lru _ s) j) with (reg_at s j). rewrite <- (Hl j Hj), elem_of_app, list_elem_of_filter, list_elem_of_singleton.
    split; [|destruct (decide (j = i)); auto]. intros [[_ ?]| ->]; [done|]. apply Hl; [done|by exists k].
Qed.

Lemma no_fence_id s p o : bos s !! p = Some o → fence_reg o = I915_FENCE_REG_NONE →
  set_bos (<[p := with_fence I915_FENCE_REG_NONE (fence_dirty o) o]> (bos s)) s = s.
Proof. intros Hp Hf. replace (with_fence I915_FENCE_REG_NONE (fence_dirty o) o) with o by (destruct o; cbn in *; by subst). unfold set_bos. rewrite insert_id by done. by destruct s. Qed.

(** The result of get_fence: the object owns a register that says what it is, or
    there is nothing to detile. *)
Definition fenced p s : Prop := ∃ o, bos s !! p = Some o ∧
  if decide (tiled o) then fence_reg o ≠ I915_FENCE_REG_NONE ∧ fence_dirty o = false ∧ fence_view_of c (mmio s) (fence_reg o) = Some (view_of o)
  else fence_reg o = I915_FENCE_REG_NONE.

Definition get_fence_post s p (e : wait_env) (z : Z) s' : Prop :=
  gtt_ok s' ∧ keeps s s' ∧ (z = 0 → fenced p s') ∧
  (z ≠ 0 → z = wait_own e ∨ z = wait_old e ∨ z = - EDEADLK ∧ ∀ k, k ∈ kernel_regs s → f_obj k ≠ 0 ∧ f_pins k ≠ 0).

(** It takes register [i] for the object. *)
Lemma take_reg_ok s0 s p o i d e : gtt_but i (set_bos (<[p := with_fence I915_FENCE_REG_NONE d o]> (bos s)) s) → bos s !! p = Some o → p ≠ 0 →
  is_Some (reg_at s i) → bo_ok o → placed o → tiled o → keeps s0 s →
  wp (i915_gem_object_update_fence c p i true;; mret 0) s (get_fence_post s0 p e).
Proof.
  intros Hok Hp Hp0 Hi Hbo Hpl Ht Hk. apply wp_bind. eapply wp_mono; [by apply (attach_ok s p o i d)|].
  intros _ s' (Hok' & Hk' & o' & Hp' & Hf & Hd & Hv). unfold wp, mret, M_ret. split; [done|]. split; [exact (keeps_trans _ _ _ Hk Hk')|].
  split; [|done]. intros _. exists o'. split; [done|]. destruct (reg_at s i) as [k|] eqn:Hr; [|by destruct Hi]. destruct (reg_at_nat _ _ _ Hr).
  destruct (Hk' p o Hp) as (o'' & Hp'' & Hsh & _). assert (tiled o') as Ht'.
  { assert (o'' = o') as <- by congruence. unfold shape in Hsh. unfold tiled in *. congruence. }
  rewrite decide_True by done. rewrite Hf. split; [unfold I915_FENCE_REG_NONE; lia|done].
Qed.

Lemma get_fence_own s0 s p o e : gtt_ok s → bos s !! p = Some o → fence_reg o ≠ I915_FENCE_REG_NONE → keeps s0 s →
  wp (r ← get_fence_reg p e; match r with inl reg => i915_gem_object_update_fence c p reg (negb (tiling_mode o =? I915_TILING_NONE));; mret 0 | inr ret => mret ret end) s
    (get_fence_post s0 p e).
Proof.
  intros Hok Hp Hf Hks. assert (p ≠ 0) as Hp0 by (intros ->; by rewrite (ok_null _ _ Hok) in Hp).
  destruct (ok_owner _ _ Hok p o Hp Hf) as (_ & k & Hk & Hkp). pose proof (ok_bo _ _ Hok p o Hp) as Hbo.
  apply wp_bind. unfold get_fence_reg. apply (wp_bo_at p o); [done|]. rewrite (proj2 (Z.eqb_neq _ _) Hf). cbn [negb]. apply (wp_fence_at _ k); [done|].
  destruct (fence_dirty o) eqn:Hd; cbn [negb].
  - unfold wp at 1, mret at 1, M_ret. destruct (Z.eqb_spec (tiling_mode o) I915_TILING_NONE) as [Ht|Ht]; cbn [negb].
    + apply wp_bind. eapply wp_mono; [apply (detach_ok s p o (fence_reg o) (fence_dirty o)); [by apply ok_detach|done..|by exists k|done]|].
      intros _ s' (Hok' & Hk' & Hb). unfold wp, mret, M_ret. split; [done|]. split; [exact (keeps_trans _ _ _ Hks Hk')|]. split; [|done]. intros _.
      exists (with_fence I915_FENCE_REG_NONE false o). rewrite Hb, lookup_insert_eq. split; [done|]. rewrite decide_False; [done|]. unfold tiled. cbn. tauto.
    + apply (take_reg_ok s0 s p o (fence_reg o) (fence_dirty o)); try done; [by apply ok_detach|by apply (bo_fence _ Hbo)].
  - unfold wp at 1, lru_move_tail, modify. cbn [mbind M_bind mret M_ret]. split; [apply (lru_bump_ok s _ k); [done..|congruence]|]. split; [done|]. split; [|done]. intros _.
    exists o. split; [done|]. rewrite decide_True by by apply (bo_clean _ Hbo). split; [done|]. split; [done|]. by apply (ok_covers _ _ Hok p o).
Qed.

Lemma get_fence_new s0 s p o e : gtt_ok s → bos s !! p = Some o → fence_reg o = I915_FENCE_REG_NONE → (tiled o → placed o) → keeps s0 s →
  kernel_regs s = kernel_regs s0 →
  wp (r ← get_fence_reg p e; match r with inl reg => i915_gem_object_update_fence c p reg (negb (tiling_mode o =? I915_TILING_NONE));; mret 0 | inr ret => mret ret end) s
    (get_fence_post s0 p e).
Proof.
  intros Hok Hp Hf Hpl Hks Hkr. assert (p ≠ 0) as Hp0 by (intros ->; by rewrite (ok_null _ _ Hok) in Hp). pose proof (ok_bo _ _ Hok p o Hp) as Hbo.
  apply wp_bind. unfold get_fence_reg. apply (wp_bo_at p o); [done|]. rewrite (proj2 (Z.eqb_eq _ _) Hf). cbn [negb].
  destruct (Z.eqb_spec (tiling_mode o) I915_TILING_NONE) as [Ht|Ht]; cbn [negb].
  { unfold wp, mret, M_ret. split; [done|]. split; [done|]. split; [|done]. intros _. exists o. split; [done|]. by rewrite decide_False by (unfold tiled; tauto). }
  destruct (find_fence_reg_ok s Hok) as (r & Hrun & Hr). apply wp_bind. apply (wp_of _ _ _ _ _ Hrun). destruct r as [i|].
  2:{ unfold wp, mret, M_ret. split; [done|]. split; [done|]. split; [done|]. intros _. right. right. by rewrite <- Hkr. }
  destruct Hr as (k & Hk & _). destruct (reg_at_nat _ _ _ Hk) as [Hi0 _]. apply (wp_fence_at _ k); [done|].
  destruct (Z.eqb_spec (f_obj k) 0) as [Hko|Hko].
  { unfold wp at 1, mret at 1, M_ret. apply (take_reg_ok s0 s p o i (fence_dirty o)); try done; [rewrite no_fence_id by done; by apply (ok_unowned s i k)|by apply Hpl]. }
  destruct (ok_owned _ _ Hok i k Hk ltac:(unfold I915_FENCE_REG_NONE; lia) Hko) as (oq & Hq & Hfq). set (q := f_obj k) in *.
  assert (q ≠ p) as Hqp by (intros ->; unfold I915_FENCE_REG_NONE in *; assert (oq = o) as -> by congruence; lia).
  destruct (wait_fence_run q (wait_old e) s oq Hq) as [[Hw Hne]|Hw]; apply wp_bind, (wp_of _ _ _ _ _ Hw).
  { assert (z2b (wait_old e) = true) as -> by (unfold z2b; by rewrite (proj2 (Z.eqb_neq _ 0))). unfold wp, mret, M_ret. split; [done|]. split; [done|]. split; [done|]. auto. }
  cbn [z2b Z.eqb negb]. set (oq1 := with_gpu false 0 oq). set (s1 := set_bos (<[q := oq1]> (bos s)) s).
  assert (gtt_ok s1) as Hok1 by by apply ok_gpu. assert (bos s1 !! q = Some oq1) as Hq1 by (cbn; by rewrite lookup_insert_eq).
  unfold i915_gem_object_fence_lost. apply (wp_upd_bo q oq1); [done|]. unfold wp at 1, mret at 1, M_ret.
  set (s2 := set_bos (<[q := with_fence I915_FENCE_REG_NONE false oq1]> (bos s1)) s1).
  assert (bos s2 !! p = Some o) as Hp2 by (cbn; by rewrite !lookup_insert_ne).
  apply (take_reg_ok s0 s2 p o i (fence_dirty o)); try done.
  - rewrite no_fence_id by done. assert (fence_reg oq1 = i) as Hi1 by done. rewrite <- Hi1. apply ok_detach; [done..|]. rewrite Hi1. unfold I915_FENCE_REG_NONE. lia.
  - by apply Hpl.
  - eapply keeps_trans; [exact Hks|]. eapply keeps_trans; [apply (bo_keeps_upd s q oq oq1); auto|]. apply (bo_keeps_upd s1 q oq1); auto.
Qed.

Lemma get_fence_ok s p o e : gtt_ok s → bos s !! p = Some o → (fence_reg o = I915_FENCE_REG_NONE → tiled o → placed o) →
  wp (i915_gem_object_get_fence c p e) s (get_fence_post s p e).
Proof.
  intros Hok Hp Hpl. unfold i915_gem_object_get_fence. apply (wp_bo_at p o); [done|]. apply wp_bind. destruct (fence_dirty o) eqn:Hd.
  - destruct (wait_fence_run p (wait_own e) s o Hp) as [[Hw Hne]|Hw]; apply (wp_of _ _ _ _ _ Hw).
    { assert (z2b (wait_own e) = true) as -> by (unfold z2b; by rewrite (proj2 (Z.eqb_neq _ 0))). unfold wp, mret, M_ret.
      split; [done|]. split; [apply bo_keeps_refl|]. split; [done|]. auto. }
    cbn [z2b Z.eqb negb]. set (o1 := with_gpu false 0 o). set (s1 := set_bos (<[p := o1]> (bos s)) s).
    assert (gtt_ok s1) as Hok1 by by apply ok_gpu. assert (bos s1 !! p = Some o1) as Hp1 by (cbn; by rewrite lookup_insert_eq).
    assert (keeps s s1) as Hk1 by (apply (bo_keeps_upd s p o o1); auto).
    destruct (decide (fence_reg o1 = I915_FENCE_REG_NONE)) as [Hf|Hf]; [by apply (get_fence_new s s1 p o1 e Hok1 Hp1 Hf (Hpl Hf) Hk1)|by apply (get_fence_own s s1 p o1 e Hok1 Hp1 Hf Hk1)].
  - unfold wp at 1, mret at 1, M_ret. cbn [z2b Z.eqb negb].
    destruct (decide (fence_reg o = I915_FENCE_REG_NONE)) as [Hf|Hf]; [by apply (get_fence_new s s p o e Hok Hp Hf (Hpl Hf) (bo_keeps_refl s))|by apply (get_fence_own s s p o e Hok Hp Hf (bo_keeps_refl s))].
Qed.
(** ** Pins, restoring and loading *)

Lemma ok_pins s i k n : gtt_ok s → reg_at s i = Some k → gtt_ok (set_fences (<[Z.to_nat i := mk_fence (f_obj k) n]> (fence_regs s)) s).
Proof.
  intros [Hz Hst Hb Ho Hod Hnd Hrg Hl Ha Hfr Hcv] Hi. destruct (reg_at_nat _ _ _ Hi) as [Hi0 Hlk].
  set (s' := set_fences _ s). assert (∀ j, reg_at s' j = if decide (j = i) then Some (mk_fence (f_obj k) n) else reg_at s j) as Hreg.
  { intros j. unfold reg_at. cbn [s' set_fences fence_regs]. destruct (Z.ltb_spec j 0); [by rewrite decide_False by lia|].
    destruct (decide (j = i)) as [->|]; [apply list_lookup_insert_eq; by apply lookup_lt_Some in Hlk|apply list_lookup_insert_ne; lia]. }
  assert (∀ j k', reg_at s' j = Some k' → ∃ k0, reg_at s j = Some k0 ∧ f_obj k0 = f_obj k') as Hback.
  { intros j k' Hj. rewrite Hreg in Hj. destruct (decide (j = i)) as [->|]; [|by exists k']. exists k. split; [done|]. by injection Hj as <-. }
  assert (∀ j k0, reg_at s j = Some k0 → ∃ k', reg_at s' j = Some k' ∧ f_obj k' = f_obj k0) as Hforth.
  { intros j k0 Hj. rewrite Hreg. destruct (decide (j = i)) as [->|]; [|by exists k0]. eexists. split; [reflexivity|]. cbn. congruence. }
  constructor; try done.
  - unfold s', set_fences, fence_regs, fence_reg_start. by rewrite length_insert.
  - intros p o Hp Hf. destruct (Ho p o Hp Hf) as (Hn & k0 & Hk0 & <-). split; [done|]. by apply Hforth.
  - intros j k' Hj Hn. destruct (Hback j k' Hj) as (k0 & Hk0 & <-). by apply Hod.
  - intros j Hn. change (fence_list s') with (fence_list s). rewrite (Hl j Hn). split.
    + intros (k0 & Hk0 & Hne). destruct (Hforth j k0 Hk0) as (k' & Hk' & He). exists k'. by rewrite He.
    + intros (k' & Hk' & Hne). destruct (Hback j k' Hk') as (k0 & Hk0 & He). exists k0. by rewrite He.
  - intros j k' Hj Hn. destruct (Hback j k' Hj) as (k0 & Hk0 & <-). by apply (Hfr j k0).
Qed.
(** What the chip lost: the bookkeeping is right for registers [m], which the chip
    has at the numbers in [D]. *)
Definition restored (m : gmap Z Z) (D : Z → Prop) s : Prop :=
  gtt_ok (set_mmio m s) ∧ (∀ i, D i → fence_view_of c (mmio s) i = fence_view_of c m i) ∧
  (∀ p o, bos s !! p = Some o → D (fence_reg o) → fence_reg o ≠ I915_FENCE_REG_NONE → fence_dirty o = false).

(** The step of i915_gem_restore_fences. *)
Lemma restore_fence_ok m D s i : restored m D s → (∀ j, D j → 0 <= j) → is_Some (reg_at s i) →
  wp (restore_fence c i) s (λ _ s', length (fence_regs s') = length (fence_regs s) ∧ ∃ m', restored m' (λ j, D j ∨ j = i) s').
Proof.
  intros (Hok & Hv & Hc) HD [k Hk]. destruct (reg_at_nat _ _ _ Hk) as [Hi0 Hlk]. unfold restore_fence. apply (wp_fence_at _ k); [done|].
  assert (∀ ws obj j, fence_writes c i obj = Some ws → D j → j ≠ i → fence_view_of c (mmio_writes (mmio s) ws) j = fence_view_of c (mmio_writes m ws) j) as Hother.
  { intros ws obj j Hw Hj Hne. rewrite !(writes_other _ i j obj ws) by auto. by apply Hv. }
  destruct (Z.eqb_spec (f_obj k) 0) as [Hk0|Hk0]; cbn [negb].
  - destruct (fence_writes_total c i None Hgen) as [ws Hw]; [done|]. unfold i915_gem_write_fence. rewrite Hw. unfold wp, modify. split; [done|].
    pose proof (cleared_view c i ws m Hgen Hw) as Hvm. exists (mmio_writes m ws). split; [|split].
    + destruct Hok as [Hz Hst Hb Ho Hod Hnd Hrg Hl Ha Hfr Hcv]. cbn [set_mmio mmio bos] in *. constructor; try done; cbn [set_mmio mmio bos fence_reg].
      * intros j k' Hj Hn Hk'. destruct (decide (j = i)) as [->|Hne]; [done|]. destruct (reg_at_nat _ _ _ Hj).
        rewrite (writes_other _ i j None ws) by done. by apply (Hfr j k').
      * intros p o Hp Hf. destruct (Ho p o Hp Hf) as (_ & k' & Hk' & Hkp). change (reg_at s (fence_reg o) = Some k') in Hk'. destruct (reg_at_nat _ _ _ Hk').
        assert (fence_reg o ≠ i) by (intros Heq; rewrite Heq in Hk'; assert (k' = k) as -> by congruence; rewrite Hk0 in Hkp; subst p; cbn [bos set_mmio] in Hz; congruence).
        unfold covers. rewrite (writes_other _ i _ None ws) by done. by apply (Hcv p o).
    + intros j Hj. cbn [set_mmio mmio]. destruct (decide (j = i)) as [->|Hne]; [by rewrite Hvm, (cleared_view c i ws _ Hgen Hw)|].
      destruct Hj as [Hj|]; [|done]. by apply (Hother _ None).
    + intros p o Hp [Hj|Hj] Hf; [by apply (Hc p o)|]. destruct (ok_owner _ _ Hok p o Hp Hf) as (_ & k' & Hk' & Hkp).
      change (reg_at s (fence_reg o) = Some k') in Hk'. rewrite Hj in Hk'. assert (k' = k) as -> by congruence. rewrite Hk0 in Hkp. subst p. pose proof (ok_null _ _ Hok) as Hn0. cbn [bos set_mmio] in *. congruence.
  - destruct (ok_owned _ _ Hok i k Hk ltac:(unfold I915_FENCE_REG_NONE; lia) Hk0) as (o & Hp & Hf). set (p := f_obj k) in *.
    assert (fence_reg o ≠ I915_FENCE_REG_NONE) as Hfn by (rewrite Hf; unfold I915_FENCE_REG_NONE; lia). pose proof (ok_bo _ _ Hok p o Hp) as Hbo.
    change (bos s !! p = Some o) in Hp. apply (wp_bo_at p o); [done|]. pose proof (ok_detach _ p o (fence_dirty o) Hok Hp Hfn) as Hdet. rewrite Hf in Hdet.
    assert (∃ ws, fence_writes c i (if z2b (tiling_mode o) then Some o else None) = Some ws ∧
      (∀ r, fence_view_of c (mmio_writes r ws) i = if z2b (tiling_mode o) then Some (view_of o) else None) ∧
      gtt_ok (with_reg p (with_fence (if z2b (tiling_mode o) then i else I915_FENCE_REG_NONE) false o) i (mk_fence (if z2b (tiling_mode o) then p else 0) (f_pins k)) ws (set_mmio m s))) as (ws & Hw & Hview & Hok').
    { unfold z2b. assert ((tiling_mode o =? 0) = (tiling_mode o =? I915_TILING_NONE)) as -> by by rewrite tiling_none. destruct (Z.eqb_spec (tiling_mode o) I915_TILING_NONE) as [Ht|Ht]; cbn [negb].
      - destruct (fence_writes_total c i None Hgen) as [ws Hw]; [done|]. exists ws. split; [done|]. split; [intros r; by apply cleared_view|].
        pose proof (detach_ok (set_mmio m s) p o i _ Hdet Hp Hk0 ltac:(by exists k) Hbo) as Hwp. unfold wp in Hwp.
        rewrite (update_fence_run (set_mmio m s) p o i k false ws Hp Hk0 Hk Hw) in Hwp. by destruct Hwp.
      - pose proof (bo_fence _ Hbo Hfn) as Hpl. pose proof (placed_fenceable o Hpl (bo_lines _ Hbo Ht)) as Hfit.
        destruct (written_view c o i m Hgen Hfit) as (ws & Hw & _). exists ws. split; [done|]. split.
        { intros r. destruct (written_view c o i r Hgen Hfit) as (ws' & Hw' & Hr). congruence. }
        pose proof (attach_ok (set_mmio m s) p o i _ Hdet Hp Hk0 ltac:(by exists k) Hbo Hpl Ht) as Hwp. unfold wp in Hwp.
        rewrite (update_fence_run (set_mmio m s) p o i k true ws Hp Hk0 Hk Hw) in Hwp. by destruct Hwp. }
    unfold wp. rewrite (update_fence_run s p o i k _ ws Hp Hk0 Hk Hw). cbn [with_reg fence_regs]. split; [by rewrite length_insert|].
    exists (mmio_writes m ws). split; [exact Hok'|]. split.
    + intros j Hj. cbn [with_reg mmio]. destruct (decide (j = i)) as [->|Hne]; [by rewrite !Hview|]. destruct Hj as [Hj|]; [|done]. by apply (Hother _ _ j Hw).
    + intros q oq Hq Hj Hfq. cbn [with_reg bos] in Hq. apply lookup_insert_Some in Hq as [[<- <-]|[Hne Hq]]; [done|].
      destruct Hj as [Hj|Hj]; [by apply (Hc q oq)|]. destruct (ok_owner _ _ Hok q oq Hq Hfq) as (_ & k' & Hk' & Hkq).
      change (reg_at s (fence_reg oq) = Some k') in Hk'. rewrite Hj in Hk'. exfalso. apply Hne. unfold p. congruence.
Qed.
Lemma restore_loop l : ∀ m D s, restored m D s → (∀ j, D j → 0 <= j) → (∀ i, i ∈ l → 0 <= i < Z.of_nat (length (fence_regs s))) →
  wp (for_each l (restore_fence c)) s (λ _ s', length (fence_regs s') = length (fence_regs s) ∧ ∃ m', restored m' (λ j, D j ∨ j ∈ l) s').
Proof.
  induction l as [|i l IH]; intros m D s Hr HD Hl; cbn [for_each].
  { split; [done|]. exists m. destruct Hr as (Hok & Hv & Hc). split; [done|]. split.
    - intros i [Hi|Hi%not_elem_of_nil]; [by apply Hv|done].
    - intros p o Hp [Hj|Hj%not_elem_of_nil]; [by apply (Hc p o)|done]. }
  apply wp_bind. eapply wp_mono; [apply (restore_fence_ok m D s i Hr HD)|].
  { destruct (Hl i) as [Hi Hlt]; [by left|]. unfold reg_at. rewrite (proj2 (Z.ltb_ge i 0)) by done. apply lookup_lt_is_Some. lia. }
  intros _ s1 [Hlen (m1 & Hr1)]. cbv beta. eapply wp_mono; [apply (IH m1 _ s1 Hr1)|].
  - intros j [Hj| ->]; [by apply HD|]. by apply Hl; left.
  - intros j Hj. rewrite Hlen. apply Hl. by right.
  - intros _ s2 [Hlen2 (m2 & Hok2 & Hv2 & Hc2)]. split; [congruence|]. exists m2. split; [done|]. split.
    + intros j Hj. apply Hv2. destruct Hj as [|[->|]%elem_of_cons]; tauto.
    + intros p o Hp Hj. apply (Hc2 p o Hp). destruct Hj as [|[Hj|]%elem_of_cons]; tauto.
Qed.

Lemma ok_mmio m s : gtt_ok (set_mmio m s) → (∀ i, 0 <= i < Z.of_nat (length (fence_regs s)) → fence_view_of c (mmio s) i = fence_view_of c m i) → gtt_ok s.
Proof.
  intros [Hz Hst Hb Ho Hod Hnd Hrg Hl Ha Hfr Hcv] Hv. cbn [bos set_mmio fence_regs fence_list fence_reg_start mmio] in *.
  assert (∀ i k, reg_at s i = Some k → fence_view_of c (mmio s) i = fence_view_of c m i) as Hv'.
  { intros i k Hi. destruct (reg_at_nat _ _ _ Hi) as [Hi0 Hlk%lookup_lt_Some]. apply Hv. lia. }
  constructor; try done.
  - intros i k Hi Hn Hk. rewrite (Hv' i k Hi). by apply (Hfr i k).
  - intros p o Hp Hf. destruct (Ho p o Hp Hf) as (_ & k & Hk & _). unfold covers. rewrite (Hv' _ k Hk). by apply (Hcv p o).
Qed.

Lemma restore_fences_ok m s : gtt_ok (set_mmio m s) →
  wp (i915_gem_restore_fences c) s (λ _ s', gtt_ok s' ∧ ∀ p o, bos s' !! p = Some o → fence_reg o ≠ I915_FENCE_REG_NONE → fence_dirty o = false).
Proof.
  intros Hok. unfold i915_gem_restore_fences. unfold wp. rewrite get_bind. fold (wp (for_each (Z.of_nat <$> seq 0 (length (fence_regs s))) (restore_fence c)) s (λ _ s', gtt_ok s' ∧ ∀ p o, bos s' !! p = Some o → fence_reg o ≠ I915_FENCE_REG_NONE → fence_dirty o = false)).
  assert (∀ i, i ∈ (Z.of_nat <$> seq 0 (length (fence_regs s))) ↔ 0 <= i < Z.of_nat (length (fence_regs s))) as Hin.
  { intros i. rewrite list_elem_of_fmap. setoid_rewrite elem_of_seq. split; [intros (n & -> & ?); lia|]. intros. exists (Z.to_nat i). lia. }
  eapply wp_mono; [apply (restore_loop _ m (λ _, False) s)|]; [split; [done|tauto]|tauto|intros i; apply Hin|].
  intros _ s' [Hlen (m' & Hok' & Hv & Hc)]. split.
  - apply (ok_mmio m' s' Hok'). intros i Hi. apply Hv. right. apply Hin. by rewrite <- Hlen.
  - intros p o Hp Hf. apply (Hc p o Hp); [|done]. right. apply Hin. destruct (ok_owner _ _ Hok' p o Hp Hf) as (_ & k & Hk & _).
    destruct (reg_at_nat _ _ _ Hk) as [? Hlk%lookup_lt_Some]. cbn [fence_regs set_mmio] in Hlk. rewrite <- Hlen. lia.
Qed.

Lemma load_ok modeset s : wp (i915_gem_load c modeset) s (λ _ s', gtt_ok s').
Proof.
  set (s0 := mk_gtt ∅ (replicate (Z.to_nat (num_fence_regs c)) (mk_fence 0 0)) [] (if modeset then 0 else 3) (mmio s)).
  change (wp (i915_gem_restore_fences c) s0 (λ _ s', gtt_ok s')). eapply wp_mono; [apply (restore_fences_ok ∅)|by intros _ s' [? _]].
  assert (∀ i k, reg_at (set_mmio ∅ s0) i = Some k → f_obj k = 0) as Hr.
  { intros i k Hi. apply reg_at_nat in Hi as [_ Hi]. cbn in Hi. by apply lookup_replicate in Hi as [-> _]. }
  constructor; cbn [s0 set_mmio bos fence_list fence_reg_start mmio]; try (intros p o Hp; by rewrite lookup_empty in Hp).
  - apply lookup_empty.
  - unfold set_mmio, fence_regs, s0. rewrite length_replicate. unfold num_fence_regs. destruct (_ && _); [|destruct (_ || _)]; destruct modeset; lia.
  - intros i k Hi _ Hk. by apply Hr in Hi.
  - constructor.
  - by intros i ?%not_elem_of_nil.
  - intros i _. split; [by intros ?%not_elem_of_nil|]. intros (k & Hk & Hne). by apply Hr in Hk.
  - intros p o q o' Hp. by rewrite lookup_empty in Hp.
  - intros i k Hi _ _. unfold fence_view_of. unfold decode_965, decode_830, mmio_read. rewrite !lookup_empty. by destruct (4 <=? gen c), (gen c =? 3).
Qed.

(** ** Activity *)

Lemma move_to_inactive_ok s p : gtt_ok s → is_Some (bos s !! p) →
  wp (i915_gem_object_move_to_inactive p) s (λ _ s', gtt_ok s' ∧ keeps s s').
Proof.
  intros Hok [o Hp]. unfold i915_gem_object_move_to_inactive, upd_bo. apply (wp_bo_at p o); [done|]. split; [by apply ok_gpu|]. apply (bo_keeps_upd s p o); auto.
Qed.

Lemma move_to_active_ok s p pending seqno : gtt_ok s → is_Some (bos s !! p) →
  wp (i915_gem_object_move_to_active p pending seqno) s (λ _ s', gtt_ok s' ∧ keeps s s').
Proof.
  intros Hok [o Hp]. unfold i915_gem_object_move_to_active. apply (wp_upd_bo p o); [done|]. set (o1 := with_gpu pending (last_fenced_seqno o) o).
  set (s1 := set_bos (<[p := o1]> (bos s)) s). assert (gtt_ok s1) as Hok1 by by apply ok_gpu. assert (bos s1 !! p = Some o1) as Hp1 by (cbn; by rewrite lookup_insert_eq).
  assert (keeps s s1) as Hk1 by (apply (bo_keeps_upd s p o o1); auto). apply (wp_bo_at p o1); [done|].
  destruct (fenced_gpu_access o1); cbn [when]; [|by split].
  apply (wp_upd_bo p o1); [done|]. set (o2 := with_gpu true seqno o1). set (s2 := set_bos (<[p := o2]> (bos s1)) s1).
  assert (gtt_ok s2) as Hok2 by by apply ok_gpu. assert (keeps s s2) as Hk2 by (eapply keeps_trans; [exact Hk1|apply (bo_keeps_upd s1 p o1 o2); auto]).
  destruct (Z.eqb_spec (fence_reg o1) I915_FENCE_REG_NONE) as [Hf|Hf]; cbn [negb when]; [by split|].
  assert (bos s2 !! p = Some o2) as Hp2 by (cbn; by rewrite lookup_insert_eq).
  destruct (ok_owner _ _ Hok2 p o2 Hp2 Hf) as (_ & k & Hk & Hkp). change (fence_reg o2) with (fence_reg o1) in Hk. apply (wp_fence_at _ k); [done|].
  split; [|done]. apply (lru_bump_ok s2 _ k); [done..|]. rewrite Hkp. intros ->. by rewrite (ok_null _ _ Hok2) in Hp2.
Qed.

Definition env_ok s (e : unbind_env) : Prop := ∀ q, q ∈ retired e → is_Some (bos s !! q).

Lemma keeps_some s s' p : keeps s s' → is_Some (bos s !! p) → is_Some (bos s' !! p).
Proof. intros Hk [o Hp]. destruct (Hk p o Hp) as (o' & Hp' & _). by exists o'. Qed.

Lemma retire_ok l : ∀ s, gtt_ok s → (∀ q, q ∈ l → is_Some (bos s !! q)) →
  wp (for_each l i915_gem_object_move_to_inactive) s (λ _ s', gtt_ok s' ∧ keeps s s').
Proof.
  induction l as [|q l IH]; intros s Hok Hl; cbn [for_each]; [split; [done|apply bo_keeps_refl]|].
  apply wp_bind. eapply wp_mono; [apply (move_to_inactive_ok s q Hok); apply Hl; by left|]. intros _ s1 [Hok1 Hk1]. cbv beta.
  eapply wp_mono; [apply (IH s1 Hok1); intros r Hr; apply (keeps_some s s1 r Hk1), Hl; by right|]. intros _ s2 [Hok2 Hk2]. split; [done|]. exact (keeps_trans _ _ _ Hk1 Hk2).
Qed.
End Inv.
