(* ===== verification/FenceBind.v ===== *)
(** * i915: binding and tiling keep the invariant

    That binding an object, unbinding it, pinning it and changing its tiling keep the
    invariant of [FenceInv], and what each of them achieves. *)

From stdpp Require Import base option list gmap.
From Stdlib Require Import ZArith Lia.
From S2P Require Import Prelude Fences FenceRegs FenceInv.
#[local] Open Scope Z_scope.

Section Bind.
Variables (c : chip) (total swx swy : Z).
Hypothesis Hgen : gen_ok c.
Implicit Types (s : gtt) (o : gem_bo).

Abbreviation gtt_ok := (gtt_ok c).
Abbreviation bo_ok := (bo_ok c).
Abbreviation placed := (placed c).

(** ** Unbinding *)

Lemma z2b_zero z : z2b z = false → z = 0.
Proof. unfold z2b. by intros ?%negb_false_iff%Z.eqb_eq. Qed.

Lemma bo_ok_space o sp off mf : bo_ok o → fence_reg o = I915_FENCE_REG_NONE → (pin_count o ≠ 0 → is_Some sp) →
  (∀ a n, sp = Some (a, n) → a = off ∧ 0 <= a ∧ size o <= n ∧ a + n <= 2 ^ 32 ∧ (4096 | a) ∧ (4096 | n)) →
  (is_Some sp → mf = true → off + size o <= mappable_end c) →
  (is_Some sp → gen c < 4 → mf = true → tiled o → placed (with_space sp off mf o)) → bo_ok (with_space sp off mf o).
Proof. intros [] Hf Hn Hs Hmp Hp. constructor; try assumption; try (by intros). cbn. tauto. Qed.

Lemma bo_ok_unbound o off mf : bo_ok o → fence_reg o = I915_FENCE_REG_NONE → pin_count o = 0 → bo_ok (with_space None off mf o).
Proof. intros Ho Hf Hn. apply bo_ok_space; [done..| |]; by intros []. Qed.

Lemma unbind_ok s p o e : gtt_ok s → bos s !! p = Some o → env_ok s e →
  wp (i915_gem_object_unbind c p e) s (λ z s', gtt_ok s' ∧ keeps s s' ∧
    (z = 0 → ∃ o', bos s' !! p = Some o' ∧ gtt_space o' = None ∧ map_and_fenceable o' = match gtt_space o with None => map_and_fenceable o | _ => true end) ∧
    (pin_count o = 0 → finish e = 0 → wait e = 0 → z = 0)).
Proof.
  intros Hok Hp He. unfold i915_gem_object_unbind. apply (wp_bo_at p o); [done|]. destruct (gtt_space o) as [[a n]|] eqn:Hsp.
  2:{ unfold wp, mret, M_ret. split; [done|]. split; [apply bo_keeps_refl|]. split; [|done]. intros _. exists o. auto. }
  destruct (z2b (pin_count o)) eqn:Hpin.
  { unfold wp, mret, M_ret. split; [done|]. split; [apply bo_keeps_refl|]. split; [done|]. intros Hn. by rewrite Hn in Hpin. }
  apply z2b_zero in Hpin.
  unfold i915_gem_object_finish_gpu. apply wp_bind. destruct (z2b (finish e)) eqn:Hfin.
  { unfold wp at 1, mret at 1, M_ret. rewrite Hfin. unfold wp, mret, M_ret. split; [done|]. split; [apply bo_keeps_refl|].
    split; [intros Hz|intros _ Hz]; by rewrite Hz in Hfin. }
  apply wp_bind. eapply wp_mono; [apply (retire_ok c _ s Hok He)|]. intros _ s1 [Hok1 Hk1]. unfold wp at 1, mret at 1, M_ret. cbn [z2b Z.eqb negb].
  destruct (Hk1 p o Hp) as (o1 & Hp1 & Hsh1 & Hpl1). apply wp_bind. eapply wp_mono; [apply (put_fence_ok c Hgen s1 p o1 (wait e) Hok1 Hp1)|].
  intros z s2 (Hok2 & Hk2 & Herr & Hz). cbv beta. assert (keeps s s2) as Hk by exact (keeps_trans _ _ _ Hk1 Hk2).
  unfold z2b. destruct (Z.eqb_spec z 0) as [->|Hne]; cbn [negb].
  2:{ unfold wp, mret, M_ret. split; [done|]. split; [done|]. split; [done|]. intros _ _ Hw. destruct (Herr Hne). congruence. }
  destruct (Hz eq_refl) as (o2 & Hb2 & Hf2 & Hsh2 & Hpl2). assert (bos s2 !! p = Some o2) as Hp2 by by rewrite Hb2, lookup_insert_eq.
  apply (wp_upd_bo p o2); [done|]. unfold wp, mret, M_ret. split; [|split].
  - apply (ok_upd _ _ _ _ o2); try done; [apply bo_ok_unbound; [by apply (ok_bo _ _ _ Hok2 p)|done|unfold shape in Hsh1, Hsh2; congruence]|right]. by intros q oq _ _ a' n' a'' n''.
  - eapply keeps_trans; [exact Hk|]. apply (bo_keeps_upd s2 p o2); [done|done|by right].
  - split; [|done]. intros _. exists (with_space None 0 true o2). cbn [bos set_bos]. by rewrite lookup_insert_eq.
Qed.

(** ** Sizes and alignments *)

(** The exponents of the smallest and the largest register. *)
Definition fence_min : Z := if gen c =? 3 then 20 else 19.
Definition fence_max : Z := if gen c =? 3 then 28 else 27.

Lemma gtt_size_mode sz mode : 0 < sz < 2 ^ 31 → (4096 | sz) →
  ∃ fs fa ua, i915_gem_get_gtt_size c gtt_rounds sz mode = Some fs ∧ i915_gem_get_gtt_alignment c gtt_rounds sz mode true = Some fa ∧
    i915_gem_get_gtt_alignment c gtt_rounds sz mode false = Some ua ∧ sz <= fs ∧ (4096 | fs) ∧
    (∃ a, fa = 2 ^ a ∧ 12 <= a) ∧ (∃ a, ua = 2 ^ a ∧ 12 <= a) ∧
    (gen c < 4 → mode ≠ I915_TILING_NONE → ∃ k, fs = 2 ^ k ∧ fa = 2 ^ k ∧ fence_min <= k ∧ (sz <= 2 ^ fence_max → k <= fence_max)).
Proof.
  intros Hsz Hpg. unfold i915_gem_get_gtt_alignment, i915_gem_get_gtt_size. rewrite u32_id by lia.
  destruct ((4 <=? gen c) || (mode =? I915_TILING_NONE)) eqn:E.
  - exists sz, 4096, 4096. assert (∃ a, 4096 = 2 ^ a ∧ 12 <= a) by (exists 12; done).
    assert ((4 <=? gen c) || (negb false && is_g33 c) || (mode =? I915_TILING_NONE) = true) as ->
      by (destruct (4 <=? gen c), (mode =? I915_TILING_NONE), (is_g33 c); done).
    assert ((4 <=? gen c) || (negb true && is_g33 c) || (mode =? I915_TILING_NONE) = true) as -> by (cbn [negb andb]; by rewrite orb_false_r).
    split_and!; try done. intros Hg Hm. exfalso. apply orb_true_iff in E as [?%Z.leb_le|?%Z.eqb_eq]; [lia|done].
  - apply orb_false_iff in E as [E4%Z.leb_gt Em]. rewrite (proj2 (Z.leb_gt 4 _)), Em by lia. cbn [orb negb andb].
    assert ((if gen c =? 3 then 1024 * 1024 else 512 * 1024) = 2 ^ fence_min) as -> by (unfold fence_min; by destruct (gen c =? 3)).
    assert (19 <= fence_min <= 20 ∧ fence_min <= fence_max) as [Hmin Hmm] by (unfold fence_min, fence_max; destruct (gen c =? 3); lia).
    destruct (gtt_size_loop_ok gtt_rounds fence_min sz) as (k & Hrun & Hk & Hle & Hlast); [lia|lia|unfold gtt_rounds; lia|].
    assert ((4096 | 2 ^ k)) as Hd by (exists (2 ^ (k - 12)); change 4096 with (2 ^ 12); rewrite <- Z.pow_add_r by lia; f_equal; lia).
    exists (2 ^ k), (2 ^ k), (if is_g33 c then 4096 else 2 ^ k). rewrite Hrun.
    split; [done|]. split; [done|]. split; [by destruct (is_g33 c)|]. split; [done|]. split; [done|]. split; [exists k; split; [done|lia]|].
    split; [destruct (is_g33 c); [exists 12|exists k]; split; first [done|lia]|]. intros _ _. exists k. split_and!; try done; [lia|].
    intros Hmax. destruct Hlast as [->|Hlt]; [done|]. assert (k - 1 < fence_max); [|lia]. apply (Z.pow_lt_mono_r_iff 2); lia.
Qed.

Lemma lines_size o : lines_ok c o → gen c < 4 → size o <= 2 ^ fence_max.
Proof. unfold lines_ok, fence_max. intros Hl Hg. rewrite (proj2 (Z.leb_gt 4 _)) in Hl by lia. destruct Hl as [_ Hl]. by destruct (gen c =? 3). Qed.

(** ** Binding *)

(** The objects that are evicted, one after the other. *)
Definition evictable s (e : bind_env) : Prop := ∀ v, v ∈ evicted e → is_Some (bos s !! v.1) ∧ env_ok s v.2.

Lemma evict_ok l : ∀ s, gtt_ok s → (∀ v, v ∈ l → is_Some (bos s !! v.1) ∧ env_ok s v.2) →
  wp (for_each l (λ v, i915_gem_object_unbind c v.1 v.2;; mret tt)) s (λ _ s', gtt_ok s' ∧ keeps s s').
Proof.
  induction l as [|v l IH]; intros s Hok Hl; cbn [for_each]; [split; [done|apply bo_keeps_refl]|].
  destruct (Hl v) as [[o Hp] He]; [by left|]. apply wp_bind, wp_bind. eapply wp_mono; [apply (unbind_ok s v.1 o v.2 Hok Hp He)|].
  intros z s1 (Hok1 & Hk1 & _). unfold wp at 1, mret at 1, M_ret. eapply wp_mono; [apply (IH s1 Hok1)|].
  - intros v' Hv'. destruct (Hl v') as [Hs Hen]; [by right|]. split; [by apply (keeps_some s)|]. intros q Hq. by apply (keeps_some s), Hen.
  - intros _ s2 [Hok2 Hk2]. split; [done|]. exact (keeps_trans _ _ _ Hk1 Hk2).
Qed.

(** What bind_to_gtt asks the allocator for: the size and the alignment. *)
Definition bind_request o (alignment : Z) (mf : bool) : option (Z * Z) :=
  fs ← i915_gem_get_gtt_size c gtt_rounds (size o) (tiling_mode o);
  fa ← i915_gem_get_gtt_alignment c gtt_rounds (size o) (tiling_mode o) true;
  ua ← i915_gem_get_gtt_alignment c gtt_rounds (size o) (tiling_mode o) false;
  Some (if mf then fs else size o, if alignment =? 0 then if mf then fa else ua else alignment).

(** What the allocator promises ([Mm.insert_node_in_range_correct]): a place in the
    range, aligned, that no bound object has. *)
Definition room s (start sz al max : Z) : Prop :=
  0 <= start ∧ (al | start) ∧ start + sz <= max ∧
  ∀ q oq a n, bos s !! q = Some oq → gtt_space oq = Some (a, n) → start + sz <= a ∨ a + n <= start.

Definition bind_allowed s (p alignment : Z) (mf : bool) (e : bind_env) : Prop :=
  (4096 | alignment) ∧ evictable s e ∧
  ∀ o start sz al s', bos s !! p = Some o → found e = inr start → bind_request o alignment mf = Some (sz, al) →
    for_each (evicted e) (λ v, i915_gem_object_unbind c v.1 v.2;; mret tt) s = Some (tt, s') → room s' start sz al (gtt_max c total mf).

Lemma land_pow2_zero z k : 0 <= z → 0 <= k → (2 ^ k | z) → Z.land z (2 ^ k - 1) = 0.
Proof. intros Hz Hk Hd. replace (2 ^ k - 1) with (Z.ones k) by (rewrite Z.ones_equiv; lia). rewrite Z.land_ones by done. apply Z.mod_divide; [apply Z.pow_nonzero; lia|done]. Qed.

(** The object at its new place. *)
Lemma bo_ok_bound o fs fa sz start k : bo_ok o → gtt_space o = None → sz = fs ∨ sz = size o → size o <= fs → 0 <= start → (4096 | start) → (4096 | fs) →
  start + sz <= 2 ^ 32 → fa = 2 ^ k → 12 <= k →
  (gen c < 4 → tiled o → ∃ k, fs = 2 ^ k ∧ fa = 2 ^ k ∧ fence_min <= k ∧ (size o <= 2 ^ fence_max → k <= fence_max)) →
  bo_ok (with_space (Some (start, sz)) start ((start + size o <=? mappable_end c) && ((sz =? fs) && negb (z2b (Z.land start (fa - 1))))) o).
Proof.
  intros Hbo Hsp Hsz Hle H0 Hd Hdf Hhi Hfa Hk Htiled. pose proof (bo_size _ _ Hbo) as Hs.
  assert (fence_reg o = I915_FENCE_REG_NONE) as Hf.
  { destruct (decide (fence_reg o = I915_FENCE_REG_NONE)) as [|Hne]; [done|]. destruct (bo_fence _ _ Hbo Hne) as (x & Hx & _). congruence. }
  assert ((4096 | sz) ∧ size o <= sz) as [Hpg Hsl] by (destruct Hsz as [->| ->]; [done|split; [by apply (bo_pages _ _ Hbo)|done]]).
  apply bo_ok_space; [done..| | |].
  - intros a n Heq. injection Heq as <- <-. done.
  - intros _ Hmf. by apply andb_true_iff in Hmf as [?%Z.leb_le _].
  - intros _ Hg Hmf Ht. apply andb_true_iff in Hmf as [_ [Hsf%Z.eqb_eq Hal%negb_true_iff%z2b_zero]%andb_true_iff].
    destruct (Htiled Hg Ht) as (k' & Hfs & Hfa' & Hmin & Hmax). assert (k' = k) as -> by (apply (Z.pow_inj_r 2); [lia|unfold fence_min in Hmin; destruct (gen c =? 3); lia|lia|congruence]).
    exists sz. cbn. split_and!; try done; [lia|]. rewrite (proj2 (Z.leb_gt 4 _)) by done. exists k.
    pose proof (lines_size o (bo_lines _ _ Hbo Ht) Hg) as Hl. specialize (Hmax Hl). unfold fence_min, fence_max in *.
    split; [congruence|]. split; [destruct (gen c =? 3); lia|]. rewrite Hsf, Hfs, Hfa in *. apply multiple_of_land; [done|lia|done].
Qed.

(** The aperture has at most 4 GB. *)
Hypothesis Hend : 0 <= mappable_end c <= 2 ^ 32.
Hypothesis Htotal : 0 <= total <= 2 ^ 32.

Lemma bind_ok s p o alignment mf e : gtt_ok s → bos s !! p = Some o → gtt_space o = None → bind_allowed s p alignment mf e →
  wp (i915_gem_object_bind_to_gtt c total p alignment mf e) s (λ z s', gtt_ok s' ∧ (∀ q, is_Some (bos s !! q) → is_Some (bos s' !! q)) ∧
    (z = 0 → found e ≠ inl 0 → ∃ o', bos s' !! p = Some o' ∧ shape o' = shape o ∧ is_Some (gtt_space o') ∧ (mf = true → map_and_fenceable o' = true) ∧ (alignment ≠ 0 → (alignment | gtt_offset o')))).
Proof.
  intros Hok Hp Hsp (Hal & Hev & Hfit). pose proof (ok_bo _ _ _ Hok p o Hp) as Hbo.
  destruct (gtt_size_mode (size o) (tiling_mode o) (bo_size _ _ Hbo) (bo_pages _ _ Hbo)) as (fs & fa & ua & Hfs & Hfa & Hua & Hle & Hdf & (k & Hk & Hk12) & (k' & Hk' & Hk12') & Ht).
  unfold i915_gem_object_bind_to_gtt. apply (wp_bo_at p o); [done|]. unfold reads. unfold wp at 1, mbind at 1, M_bind at 1. rewrite Hfs.
  unfold mbind at 1, M_bind at 1. rewrite Hfa. unfold mbind at 1, M_bind at 1. rewrite Hua.
  set (al := if alignment =? 0 then if mf then fa else ua else alignment). set (sz := if mf then fs else size o).
  destruct (mf && z2b (Z.land al (fa - 1))) eqn:Einv; [unfold mret, M_ret; split; [done|]; split; [done|]; unfold EINVAL; lia|].
  destruct (gtt_max c total mf <? size o); [unfold mret, M_ret; split; [done|]; split; [done|]; unfold E2BIG; lia|].
  match goal with |- context [(?m ≫= ?f) s] => change (wp (m ≫= f) s (λ z s', gtt_ok s' ∧ (∀ q, is_Some (bos s !! q) → is_Some (bos s' !! q)) ∧
    (z = 0 → found e ≠ inl 0 → ∃ o', bos s' !! p = Some o' ∧ shape o' = shape o ∧ is_Some (gtt_space o') ∧ (mf = true → map_and_fenceable o' = true) ∧ (alignment ≠ 0 → (alignment | gtt_offset o'))))) end.
  apply wp_bind. destruct (wp_run _ _ _ (evict_ok (evicted e) s Hok Hev)) as ([] & s1 & Hrun & Hok1 & Hk1). apply (wp_of _ _ _ _ _ Hrun).
  assert (∀ q, is_Some (bos s !! q) → is_Some (bos s1 !! q)) as Hdom by (intros q; by apply keeps_some).
  destruct (found e) as [ret|start] eqn:Hfound; [unfold wp, mret, M_ret; split; [done|]; split; [done|]; intros ->; done|].
  destruct (Hk1 p o Hp) as (o1 & Hp1 & Hsh1 & Hpl1). assert (gtt_space o1 = None) as Hsp1 by (destruct Hpl1 as [Hpl1|[? _]]; [unfold place in Hpl1; congruence|done]).
  assert (size o1 = size o ∧ tiling_mode o1 = tiling_mode o) as [Hs1 Ht1] by (unfold shape in Hsh1; split; congruence).
  assert (bind_request o alignment mf = Some (sz, al)) as Hreq by (unfold bind_request; by rewrite Hfs, Hfa, Hua).
  destruct (Hfit o start sz al s1 Hp eq_refl Hreq Hrun) as (H0 & Hdiv & Hhi & Hapart).
  assert ((4096 | al)) as Hal4.
  { assert (∀ x, 12 <= x → (4096 | 2 ^ x)) as Hpw by (intros x Hx; exists (2 ^ (x - 12)); change 4096 with (2 ^ 12); rewrite <- Z.pow_add_r by lia; f_equal; lia).
    unfold al. destruct (alignment =? 0); [destruct mf; [rewrite Hk|rewrite Hk']; by apply Hpw|done]. }
  assert ((4096 | start)) as Hd4 by (etransitivity; [exact Hal4|exact Hdiv]).
  assert (start + sz <= 2 ^ 32) by (unfold gtt_max in Hhi; destruct mf; lia).
  pose proof (ok_bo _ _ _ Hok1 p o1 Hp1) as Hbo1. set (mf' := (start + size o <=? mappable_end c) && ((sz =? fs) && negb (z2b (Z.land start (fa - 1))))).
  assert (bo_ok (with_space (Some (start, sz)) start mf' o1)) as Hbo2.
  { unfold mf'. rewrite <- Hs1. apply (bo_ok_bound o1 fs fa sz start k); try done; [rewrite Hs1; unfold sz; destruct mf; auto|by rewrite Hs1|].
    intros Hg Htl. rewrite Hs1. apply Ht; [done|]. unfold tiled in Htl. by rewrite <- Ht1. }
  apply (wp_upd_bo p o1); [done|]. unfold wp, mret, M_ret. split; [|split].
  - apply (ok_upd _ _ _ _ o1); try done.
    + intros Hf. exfalso. destruct (bo_fence _ _ Hbo1 Hf) as (x & Hx & _). congruence.
    + right. intros q oq Hq _ a n a' n' Heq Hqs. cbn in Heq. injection Heq as <- <-. by apply (Hapart q oq).
  - intros q Hq. cbn [bos set_bos]. destruct (decide (q = p)) as [->|]; [rewrite lookup_insert_eq; done|rewrite lookup_insert_ne by done; by apply Hdom].
  - intros _ _. exists (with_space (Some (start, sz)) start mf' o1). cbn [bos set_bos]. rewrite lookup_insert_eq. split; [done|]. split; [done|]. split; [done|]. split.
    + intros ->. cbn. unfold mf', sz, gtt_max in *. rewrite Z.eqb_refl. cbn [andb] in Einv |- *. apply andb_true_iff. split; [apply Z.leb_le; lia|].
      apply negb_true_iff. unfold z2b. apply negb_false_iff, Z.eqb_eq. rewrite Hk. apply land_pow2_zero; [done|lia|]. apply z2b_zero in Einv. rewrite Hk in Einv.
      etransitivity; [|exact Hdiv]. replace (2 ^ k - 1) with (Z.ones k) in Einv by (rewrite Z.ones_equiv; lia).
      rewrite Z.land_ones in Einv by lia. apply Z.mod_divide; [apply Z.pow_nonzero; lia|done].
    + cbn. intros Hne. unfold al in Hdiv. by rewrite (proj2 (Z.eqb_neq _ _) Hne) in Hdiv.
Qed.

(** ** Pinning *)

Definition pin_allowed s (p alignment : Z) (mf : bool) (u : unbind_env) (e : bind_env) : Prop :=
  env_ok s u ∧ found e ≠ inl 0 ∧ (∀ s' z, s' = s ∨ i915_gem_object_unbind c p u s = Some (z, s') → bind_allowed s' p alignment mf e).

(** A pinned object is where it was asked to be. *)
Definition pinned_at s (p alignment : Z) (mf : bool) : Prop :=
  ∃ o, bos s !! p = Some o ∧ is_Some (gtt_space o) ∧ pin_count o ≠ 0 ∧ (mf = true → map_and_fenceable o = true) ∧ ((∃ k, 0 <= k ∧ alignment = 2 ^ k) → (alignment | gtt_offset o)).

Lemma pin_count_ok s p o n : gtt_ok s → bos s !! p = Some o → 0 <= n → (n ≠ 0 → is_Some (gtt_space o)) → gtt_ok (set_bos (<[p := with_pins n o]> (bos s)) s).
Proof. intros Hok Hp Hn Hb. apply (ok_upd _ _ _ _ o); try done; [apply bo_ok_pins; [by apply (ok_bo _ _ _ Hok p)|done..]|by left]. Qed.

Lemma pin_ok s p o alignment mf u e : gtt_ok s → bos s !! p = Some o → pin_allowed s p alignment mf u e →
  wp (i915_gem_object_pin c total p alignment mf u e) s (λ z s', gtt_ok s' ∧ (∀ q, is_Some (bos s !! q) → is_Some (bos s' !! q)) ∧
    (z = 0 → pinned_at s' p alignment mf)).
Proof.
  intros Hok Hp (Hu & Hfo & Hb). destruct (bo_pins _ _ (ok_bo _ _ _ Hok p o Hp)) as [Hpc _]. unfold i915_gem_object_pin. apply (wp_bo_at p o); [done|].
  destruct (pin_count o =? DRM_I915_GEM_OBJECT_MAX_PIN_COUNT); [unfold wp, mret, M_ret; split; [done|]; split; [done|]; unfold EBUSY; lia|].
  apply wp_bind. eapply (wp_mono _ _ (λ z s1, gtt_ok s1 ∧ keeps s s1 ∧ (s1 = s ∨ i915_gem_object_unbind c p u s = Some (z, s1)) ∧
    (z = 0 → ∃ o1, bos s1 !! p = Some o1 ∧ shape o1 = shape o ∧ (gtt_space o1 = None ∨ o1 = o ∧ (mf = true → map_and_fenceable o = true) ∧ (alignment = 0 ∨ Z.land (gtt_offset o) (alignment - 1) = 0))))).
  { assert (∀ z, wp (mret z : M gtt Z) s (λ z' s1, s1 = s ∧ z' = z)) as Hret by (intros; done).
    destruct (gtt_space o) as [sp|] eqn:Hsp.
    - destruct ((z2b alignment && _) || _) eqn:Ebad.
      + destruct (wp_run _ _ _ (unbind_ok s p o u Hok Hp Hu)) as (z & s1 & Hrun & Hok1 & Hk1 & Hz & _). apply (wp_of _ _ _ _ _ Hrun).
        split; [done|]. split; [done|]. split; [by right|]. intros Hz0. destruct (Hz Hz0) as (o1 & Hp1 & Hn & _). exists o1. split; [done|].
        destruct (Hk1 p o Hp) as (o1' & Hp1' & Hsh & _). assert (o1' = o1) as -> by congruence. split; [done|by left].
      + unfold wp, mret, M_ret. split; [done|]. split; [apply bo_keeps_refl|]. split; [by left|]. intros _. exists o. split; [done|]. split; [done|]. right. split; [done|].
        apply orb_false_iff in Ebad as [E1 E2]. split; [intros ->; by destruct (map_and_fenceable o)|].
        apply andb_false_iff in E1 as [E1|E1]; [left|right]; by apply z2b_zero.
    - unfold wp, mret, M_ret. split; [done|]. split; [apply bo_keeps_refl|]. split; [by left|]. intros _. exists o. auto. }
  intros z s1 (Hok1 & Hk1 & Hs1 & Hz). cbv beta. unfold z2b at 1. destruct (Z.eqb_spec z 0) as [->|Hne]; cbn [negb].
  2:{ unfold wp, mret, M_ret. split; [done|]. split; [intros q; by apply keeps_some|done]. }
  destruct (Hz eq_refl) as (o1 & Hp1 & Hsh1 & Hcase). apply (wp_bo_at p o1); [done|]. assert (pin_count o1 = pin_count o) as Hpc1 by (unfold shape in Hsh1; congruence).
  apply wp_bind. eapply (wp_mono _ _ (λ z s2, gtt_ok s2 ∧ (∀ q, is_Some (bos s1 !! q) → is_Some (bos s2 !! q)) ∧
    (z = 0 → ∃ o2, bos s2 !! p = Some o2 ∧ pin_count o2 = pin_count o ∧ is_Some (gtt_space o2) ∧ (mf = true → map_and_fenceable o2 = true) ∧ ((∃ k, 0 <= k ∧ alignment = 2 ^ k) → (alignment | gtt_offset o2))))).
  { destruct (gtt_space o1) as [sp|] eqn:Hsp.
    - unfold wp, mret, M_ret. split; [done|]. split; [done|]. intros _. destruct Hcase as [|(-> & Hmf & Hal)]; [congruence|]. exists o. rewrite Hsp. split_and!; try done.
      intros (k & Hk & Heq). destruct Hal as [Hal|Hal]; [pose proof (Z.pow_pos_nonneg 2 k); lia|]. rewrite Heq in *.
      pose proof (bo_space _ _ (ok_bo _ _ _ Hok p o Hp)) as Hsps. destruct sp as [a n]. destruct (Hsps a n Hsp) as (-> & ? & _). by apply multiple_of_land.
    - eapply wp_mono; [apply (bind_ok s1 p o1 alignment mf e Hok1 Hp1 Hsp)|].
      + destruct Hs1 as [->|Hs1]; [apply (Hb s 0); auto|by apply (Hb s1 0); auto].
      + intros z2 s2 (Hok2 & Hd2 & Hz2). split; [done|]. split; [done|]. intros Hz0. destruct (Hz2 Hz0 Hfo) as (o2 & Hp2 & Hsh2 & Hs2 & Hmf2 & Hal2).
        exists o2. split; [done|]. split; [unfold shape in Hsh2; congruence|]. split; [done|]. split; [done|]. intros (k & Hk & Heq). apply Hal2.
        pose proof (Z.pow_pos_nonneg 2 k). lia. }
  intros z2 s2 (Hok2 & Hd2 & Hz2). cbv beta. assert (∀ q, is_Some (bos s !! q) → is_Some (bos s2 !! q)) as Hdom by (intros q Hq; apply Hd2; by apply (keeps_some s s1)).
  unfold z2b. destruct (Z.eqb_spec z2 0) as [->|Hne]; cbn [negb]; [|unfold wp, mret, M_ret; split; [done|]; by split].
  destruct (Hz2 eq_refl) as (o2 & Hp2 & Hpc2 & Hsp2 & Hmf2 & Hal2). apply (wp_upd_bo p o2); [done|]. unfold wp, mret, M_ret.
  split; [apply pin_count_ok; [done..|lia|done]|]. split.
  - intros q Hq. cbn [bos set_bos]. destruct (decide (q = p)) as [->|]; [rewrite lookup_insert_eq; done|rewrite lookup_insert_ne by done; by apply Hdom].
  - intros _. exists (with_pins (pin_count o2 + 1) o2). cbn [bos set_bos]. rewrite lookup_insert_eq. split; [done|]. cbn. split; [done|]. split; [lia|]. by split.
Qed.
Lemma unpin_ok s p o : gtt_ok s → bos s !! p = Some o → pin_count o ≠ 0 → wp (i915_gem_object_unpin p) s (λ _ s', gtt_ok s').
Proof.
  intros Hok Hp Hpc. destruct (bo_pins _ _ (ok_bo _ _ _ Hok p o Hp)) as [H0 Hs]. destruct (Hs Hpc) as [sp Hsp].
  unfold i915_gem_object_unpin. apply (wp_bo_at p o); [done|]. rewrite (proj2 (Z.eqb_neq _ _) Hpc), Hsp, bool_decide_eq_false_2 by done.
  unfold wp, mbind, M_bind, BUG_ON, mret, M_ret, upd_bo, bo_at, reads, mbind, M_bind, modify. rewrite Hp. apply pin_count_ok; [done..|lia|]. intros _. by rewrite Hsp.
Qed.

(** ** Tiling *)

(** The lines are right for the mode that fits the two bits. *)
Lemma tiling_ok_lines st sz mode o : 0 <= st < 2 ^ 32 → 0 <= sz < 2 ^ 31 → i915_tiling_ok c st sz mode = true →
  Z.land mode 3 ≠ I915_TILING_NONE → size o = sz → tiling_mode o = Z.land mode 3 → stride o = st → lines_ok c o.
Proof.
  intros Hst Hsz Hok Hm <- Hmode Hs. assert (mode ≠ I915_TILING_NONE) as Hne by (intros ->; rewrite tiling_none in Hm; done).
  pose proof (tiling_ok_stride c st (size o) mode Hgen Hst Hne Hok) as Hl. unfold lines_ok. rewrite Hs. destruct (4 <=? gen c); [done|].
  destruct Hl as [(j & Hj & Heq) [Hmax Hsize]]. rewrite i32_id in Hsize by (unfold INT_MIN, INT_MAX; lia). split; [|done].
  rewrite Hmode. assert (tile_width c (Z.land mode 3) = tile_width c mode ∨ tile_width c (Z.land mode 3) = 128 ∧ tile_width c mode = 512) as [->|[-> Hw]].
  { unfold tile_width. destruct (IS_GEN2 c); [by left|]. destruct (Z.eqb_spec mode I915_TILING_Y) as [->|].
    - left. destruct tiling_xy as (_ & Hy & _). replace (Z.land I915_TILING_Y 3) with I915_TILING_Y; [by rewrite Z.eqb_refl|].
      change 3 with (Z.ones 2). rewrite Z.land_ones, Z.mod_small; lia.
    - destruct (_ && HAS_128_BYTE_Y_TILING c); auto. }
  - by exists j.
  - exists (j + 2). rewrite Hw in Heq. assert (j <= 4) by (apply (Z.pow_le_mono_r_iff 2); lia). split; [lia|]. rewrite Heq, Z.pow_add_r; lia.
Qed.

(** The new tiling of an object, with the flag of its place. *)
Definition retiled (mode st : Z) (mf : bool) o : gem_bo :=
  with_tiling (Z.land mode 3) st (with_fence (fence_reg o) (fenced_gpu_access o || negb (fence_reg o =? I915_FENCE_REG_NONE)) (with_space (gtt_space o) (gtt_offset o) mf o)).

Lemma retiled_ok s p o mode st mf : gtt_ok s → bos s !! p = Some o → 0 <= st < 2 ^ 32 →
  (Z.land mode 3 ≠ I915_TILING_NONE → lines_ok c (retiled mode st mf o)) →
  (is_Some (gtt_space o) → mf = true → gtt_offset o + size o <= mappable_end c) →
  (is_Some (gtt_space o) → gen c < 4 → mf = true → Z.land mode 3 ≠ I915_TILING_NONE → placed o) →
  gtt_ok (set_bos (<[p := retiled mode st mf o]> (bos s)) s).
Proof.
  intros Hok Hp Hst Hl Hmp Hpl. pose proof (ok_bo _ _ _ Hok p o Hp) as Hbo.
  assert (fence_reg o ≠ I915_FENCE_REG_NONE → fence_dirty (retiled mode st mf o) = true) as Hd by (cbn; intros Hf; rewrite (proj2 (Z.eqb_neq _ _) Hf); apply orb_true_r).
  apply (ok_upd _ _ _ _ o); try done; [|by intros Hf; split; [done|rewrite Hd by done]|by left].
  destruct Hbo. constructor; try assumption.
  - cbn. change 3 with (Z.ones 2). rewrite Z.land_ones by lia. apply Z.mod_pos_bound. lia.
  - intros Hf. by rewrite Hd.
Qed.

Lemma fence_ok_total o mode : bo_ok o → is_Some (gtt_space o) → ∃ b, i915_gem_object_fence_ok c gtt_rounds o mode = Some b ∧
  (b = true → gen c < 4 → mode ≠ I915_TILING_NONE → size o <= 2 ^ fence_max → placed o).
Proof.
  intros Hbo [[a n] Hsp]. destruct (bo_space _ _ Hbo a n Hsp) as (-> & H0 & Hn & Hhi & _ & _). pose proof (bo_size _ _ Hbo).
  destruct (gtt_size_mode (size o) mode (bo_size _ _ Hbo) (bo_pages _ _ Hbo)) as (fs & fa & ua & Hfs & _ & _ & _ & _ & _ & _ & Ht).
  unfold i915_gem_object_fence_ok. destruct (Z.eqb_spec mode I915_TILING_NONE) as [->|Hm]; [by exists true|].
  destruct (Z.leb_spec 4 (gen c)) as [|Hg]; [exists true; split; [done|lia]|]. destruct (z2b (Z.land (gtt_offset o) _)); [by exists false|].
  unfold fence_fits. rewrite Hfs, Hsp. cbn [mbind option_bind]. destruct (Z.eqb_spec n fs) as [->|]; cbn [negb]; [|by exists false].
  eexists. split; [reflexivity|]. intros Hb%negb_true_iff%z2b_zero _ _ Hmax. destruct (Ht Hg Hm) as (k & Heq & _ & Hk & Hk'). specialize (Hk' Hmax).
  rewrite Heq in Hb. unfold fence_min, fence_max in *. assert (0 <= k) by (destruct (gen c =? 3); lia).
  exists fs. split_and!; try done; [lia|]. rewrite (proj2 (Z.leb_gt 4 _)) by done. exists k. split; [done|]. split; [destruct (gen c =? 3); lia|]. rewrite Heq. by apply multiple_of_land.
Qed.

Abbreviation chosen_args := (choose_swizzle swx swy).

Definition set_tiling_post s p (a : tiling_args) (r : Z * tiling_args) s' : Prop :=
  gtt_ok s' ∧ (∀ q, is_Some (bos s !! q) → is_Some (bos s' !! q)) ∧
  (r.1 = 0 → ∃ o, bos s' !! p = Some o ∧ tiling_mode o = Z.land (t_mode (chosen_args a)) 3 ∧ stride o = t_stride (chosen_args a) ∧
    r.2 = mk_tiling (tiling_mode o) (stride o) (t_swizzle (chosen_args a))).

(** From the commit on. *)
Lemma set_tiling_commit s0 s p o a mf : gtt_ok s → bos s !! p = Some o → (∀ q, is_Some (bos s0 !! q) → is_Some (bos s !! q)) → 0 <= t_stride (chosen_args a) < 2 ^ 32 →
  (Z.land (t_mode (chosen_args a)) 3 ≠ I915_TILING_NONE → lines_ok c (retiled (t_mode (chosen_args a)) (t_stride (chosen_args a)) mf o)) →
  (is_Some (gtt_space o) → mf = true → gtt_offset o + size o <= mappable_end c) →
  (is_Some (gtt_space o) → gen c < 4 → mf = true → Z.land (t_mode (chosen_args a)) 3 ≠ I915_TILING_NONE → placed o) →
  set_tiling_post s0 p a (0, mk_tiling (Z.land (t_mode (chosen_args a)) 3) (t_stride (chosen_args a)) (t_swizzle (chosen_args a)))
    (set_bos (<[p := retiled (t_mode (chosen_args a)) (t_stride (chosen_args a)) mf o]> (bos s)) s).
Proof.
  intros Hok Hp Hdom Hst Hl Hmp Hpl. split; [by apply retiled_ok|]. split.
  - intros q Hq. cbn [bos set_bos]. destruct (decide (q = p)) as [->|]; [rewrite lookup_insert_eq; done|rewrite lookup_insert_ne by done; by apply Hdom].
  - intros _. eexists. cbn [bos set_bos]. rewrite lookup_insert_eq. split; [reflexivity|]. done.
Qed.
Lemma choose_cases a : t_mode (chosen_args a) = I915_TILING_NONE ∧ t_stride (chosen_args a) = 0 ∨
  t_mode (chosen_args a) = t_mode a ∧ t_stride (chosen_args a) = t_stride a.
Proof. unfold choose_swizzle. destruct (Z.eqb_spec (t_mode a) I915_TILING_NONE); [by left|]. destruct (_ =? I915_BIT_6_SWIZZLE_UNKNOWN); [by left|by right]. Qed.

Lemma fold_wp {B} (m : M gtt B) s Q : wp m s Q → match m s with Some (b, s') => Q b s' | None => False end.
Proof. done. Qed.

Lemma set_tiling_change s p o a u : gtt_ok s → bos s !! p = Some o → env_ok s u → 0 <= t_stride a < 2 ^ 32 → i915_tiling_ok c (t_stride a) (size o) (t_mode a) = true →
  ∀ mf, (is_Some (gtt_space o) → mf = true → gtt_offset o + size o <= mappable_end c) → (is_Some (gtt_space o) → gen c < 4 → mf = true → Z.land (t_mode (chosen_args a)) 3 ≠ I915_TILING_NONE → placed o) →
  wp (upd_bo p (λ o, with_space (gtt_space o) (gtt_offset o) mf o);;
    ret ← (if negb mf then
        unfenced ← reads (λ _, i915_gem_get_gtt_alignment c gtt_rounds (size o) (t_mode (chosen_args a)) false);
        if z2b (Z.land (gtt_offset o) (unfenced - 1)) then i915_gem_object_unbind c p u else mret 0
      else mret 0);
    (if ret =? 0 then
       upd_bo p (λ o, with_fence (fence_reg o) (fenced_gpu_access o || negb (fence_reg o =? I915_FENCE_REG_NONE)) o);;
       upd_bo p (with_tiling (Z.land (t_mode (chosen_args a)) 3) (t_stride (chosen_args a)));;
       mret 0
     else mret ret)) s
   (λ z s', wp (o ← bo_at p; mret (z, mk_tiling (tiling_mode o) (stride o) (t_swizzle (chosen_args a)))) s' (set_tiling_post s p a)).
Proof.
  intros Hok Hp Hu Hst Htok mf Hmp Hpl. pose proof (ok_bo _ _ _ Hok p o Hp) as Hbo.
  assert (0 <= t_stride (chosen_args a) < 2 ^ 32) as Hst' by (destruct (choose_cases a) as [[_ ->]|[_ ->]]; [lia|done]).
  assert (∀ o' mf', size o' = size o → Z.land (t_mode (chosen_args a)) 3 ≠ I915_TILING_NONE → lines_ok c (retiled (t_mode (chosen_args a)) (t_stride (chosen_args a)) mf' o')) as Hlines.
  { intros o' mf' Hs Hm. destruct (choose_cases a) as [[Hn _]|[Hmo Hstr]]; [rewrite Hn, tiling_none in Hm; done|]. rewrite Hmo, Hstr in *.
    apply (tiling_ok_lines (t_stride a) (size o) (t_mode a)); try done. pose proof (bo_size _ _ Hbo). lia. }
  set (m3 := Z.land (t_mode (chosen_args a)) 3) in *. set (st := t_stride (chosen_args a)) in *.
  apply (wp_upd_bo p o); [done|]. set (o1 := with_space (gtt_space o) (gtt_offset o) mf o). set (s1 := set_bos (<[p := o1]> (bos s)) s).
  assert (bos s1 !! p = Some o1) as Hp1 by (cbn; by rewrite lookup_insert_eq). destruct mf; cbn [negb].
  - unfold wp at 1. rewrite ret_bind. cbn [Z.eqb]. apply fold_wp. apply (wp_upd_bo p o1); [done|]. set (o2 := with_fence _ _ o1).
    apply (wp_upd_bo p o2); [cbn; by rewrite lookup_insert_eq|]. unfold wp at 1, mret, M_ret.
    apply (wp_bo_at p (with_tiling m3 st o2)); [cbn; by rewrite lookup_insert_eq|]. unfold wp, mret, M_ret.
    pose proof (set_tiling_commit s s p o a true Hok Hp (λ q Hq, Hq) Hst' (Hlines o true eq_refl) Hmp Hpl) as Hc.
    cbn [bos set_bos]. unfold set_bos in Hc |- *. cbn [bos fence_regs fence_list fence_reg_start mmio s1] in *. unfold s1, set_bos. cbn [bos fence_regs fence_list fence_reg_start mmio].
    rewrite !insert_insert_eq. exact Hc.
  - assert (gtt_ok s1) as Hok1.
    { apply (ok_upd _ _ _ _ o); try done; [|by left]. destruct Hbo. constructor; try assumption; by intros. }
    assert (∀ q, is_Some (bos s !! q) → is_Some (bos s1 !! q)) as Hd1.
    { intros q Hq. cbn. destruct (decide (q = p)) as [->|]; [by rewrite lookup_insert_eq|by rewrite lookup_insert_ne]. }
    apply wp_bind. destruct (gtt_size_mode (size o) (t_mode (chosen_args a)) (bo_size _ _ Hbo) (bo_pages _ _ Hbo)) as (_ & _ & ua & _ & _ & Hua & _).
    unfold wp at 1, mbind at 1, M_bind at 1, reads at 1. rewrite Hua. apply fold_wp.
    eapply (wp_mono _ _ (λ z s2, gtt_ok s2 ∧ keeps s1 s2 ∧ (z = 0 → ∃ o2, bos s2 !! p = Some o2 ∧ (gtt_space o2 = None ∨ map_and_fenceable o2 = false)))).
    { destruct (z2b _).
      - eapply wp_mono; [apply (unbind_ok s1 p o1 u Hok1 Hp1)|].
        + intros q Hq. by apply Hd1, Hu.
        + intros z s2 (Hok2 & Hk2 & Hz & _). split; [done|]. split; [done|]. intros Hz0. destruct (Hz Hz0) as (o2 & Hp2 & Hn & _). exists o2. auto.
      - unfold wp, mret, M_ret. split; [done|]. split; [apply bo_keeps_refl|]. intros _. exists o1. auto. }
    intros z s2 (Hok2 & Hk2 & Hz). cbv beta. destruct (Hk2 p o1 Hp1) as (o2 & Hp2 & Hsh & _).
    assert (∀ q, is_Some (bos s !! q) → is_Some (bos s2 !! q)) as Hd2 by (intros q Hq; by apply (keeps_some s1 s2 q Hk2), Hd1).
    destruct (Z.eqb_spec z 0) as [->|Hne].
    + destruct (Hz eq_refl) as (o2' & Hp2' & Hcase). assert (o2' = o2) as -> by congruence.
      apply (wp_upd_bo p o2); [done|]. set (o3 := with_fence _ _ o2). apply (wp_upd_bo p o3); [cbn; by rewrite lookup_insert_eq|]. unfold wp at 1, mret, M_ret.
      apply (wp_bo_at p (with_tiling m3 st o3)); [cbn; by rewrite lookup_insert_eq|]. unfold wp, mret, M_ret.
      assert (size o2 = size o) as Hs2 by (unfold shape in Hsh; cbn in Hsh; congruence).
      pose proof (set_tiling_commit s s2 p o2 a (map_and_fenceable o2) Hok2 Hp2 Hd2 Hst' (Hlines o2 _ Hs2)) as Hc.
      assert (set_bos (<[p := with_tiling m3 st o3]> (bos (set_bos (<[p := o3]> (bos s2)) s2))) (set_bos (<[p := o3]> (bos s2)) s2) =
        set_bos (<[p := retiled (t_mode (chosen_args a)) (t_stride (chosen_args a)) (map_and_fenceable o2) o2]> (bos s2)) s2) as ->.
      { unfold set_bos. cbn [bos fence_regs fence_list fence_reg_start mmio]. rewrite insert_insert_eq. do 2 f_equal. }
      apply Hc; [intros [sp Hsp] Hmf|intros [sp Hsp] _ Hmf _]; destruct Hcase as [|Hcase]; congruence.
    + unfold wp at 1, mret, M_ret. apply (wp_bo_at p o2); [done|]. unfold wp, mret, M_ret. split; [done|]. split; [done|]. intros Hz0. done.
Qed.

Lemma set_tiling_ok s p o a u : gtt_ok s → bos s !! p = Some o → env_ok s u → 0 <= t_stride a < 2 ^ 32 →
  wp (i915_gem_set_tiling c swx swy p a u) s (set_tiling_post s p a).
Proof.
  intros Hok Hp Hu Hst. pose proof (ok_bo _ _ _ Hok p o Hp) as Hbo. unfold i915_gem_set_tiling. apply (wp_bo_at p o); [done|].
  destruct (i915_tiling_ok c (t_stride a) (size o) (t_mode a)) eqn:Htok; cbn [negb]; [|unfold wp, mret, M_ret; split; [done|]; split; [done|]; by cbn].
  destruct (z2b (pin_count o)); [unfold wp, mret, M_ret; split; [done|]; split; [done|]; by cbn|]. cbv zeta. apply wp_bind.
  destruct (_ || _) eqn:Echg.
  - assert (∃ mf, (is_Some (gtt_space o) → mf = true → gtt_offset o + size o <= mappable_end c) ∧ (is_Some (gtt_space o) → gen c < 4 → mf = true → Z.land (t_mode (chosen_args a)) 3 ≠ I915_TILING_NONE → placed o) ∧
      (match gtt_space o with None => mret true | Some _ => if gtt_offset o + size o <=? mappable_end c then reads (λ _, i915_gem_object_fence_ok c gtt_rounds o (t_mode (chosen_args a))) else mret false end : M gtt bool) s = Some (mf, s)) as (mf & Hmp & Hmf & Hrun).
    { destruct (gtt_space o) as [sp|] eqn:Hsp; [|exists true; split; [by intros []|]; split; [by intros []|done]]. destruct (Z.leb_spec (gtt_offset o + size o) (mappable_end c)) as [Hmp|]; [|by exists false].
      destruct (fence_ok_total o (t_mode (chosen_args a)) Hbo) as (b & Hb & Hpl); [by rewrite Hsp|]. exists b. split; [done|]. split; [|unfold reads; by rewrite Hb].
      intros _ Hg Hbt Hm. assert (t_mode (chosen_args a) ≠ I915_TILING_NONE) as Hm' by (intros He; rewrite He, tiling_none in Hm; done). apply Hpl; [done..|].
      destruct (choose_cases a) as [[He _]|[Hmo Hstr]]; [done|]. rewrite Hmo in *.
      apply (lines_size (retiled (t_mode a) (t_stride a) true o)); [|done]. apply (tiling_ok_lines (t_stride a) (size o) (t_mode a)); try done. pose proof (bo_size _ _ Hbo). lia. }
    apply wp_bind. apply (wp_of _ _ _ _ _ Hrun). by apply (set_tiling_change s p o a u).
  - unfold wp at 1, mret at 1, M_ret. apply (wp_bo_at p o); [done|]. unfold wp, mret, M_ret. split; [done|]. split; [done|]. intros _. exists o. split; [done|].
    apply orb_false_iff in Echg as [E1%negb_false_iff%Z.eqb_eq E2%negb_false_iff%Z.eqb_eq]. split; [|by rewrite E2].
    rewrite E1. change 3 with (Z.ones 2). pose proof (bo_mode _ _ Hbo). rewrite Z.land_ones, Z.mod_small; lia.
Qed.
End Bind.
