(* ===== verification/FenceRoom.v ===== *)
(** * i915: the aperture is handed out by the range manager

    What binding needs of the place of an object ([FenceBind.room]) is what
    drm_mm_insert_node_in_range_generic gives: the composition of [Mm] and [FenceBind]. *)

From stdpp Require Import base option list gmap.
From Stdlib Require Import ZArith Lia.
From S2P Require Import Prelude Mm Fences FenceRegs FenceInv FenceBind.
#[local] Open Scope Z_scope.

Section Room.
Context `{CA : ColorAdjust}.

Lemma elem_of_insert_after b q : ∀ bl p x, x = b ∨ x ∈ bl → q ∈ p :: ids bl → x ∈ insert_after p q b bl.
Proof.
  induction bl as [|y bl IH]; intros p x Hx Hq; cbn [insert_after].
  - destruct (decide (p = q)) as [|Hne]; [by apply elem_of_cons|]. cbn in Hq. apply list_elem_of_singleton in Hq. done.
  - destruct (decide (p = q)) as [|Hne]; [by apply elem_of_cons|]. rewrite elem_of_cons in Hx |- *. destruct Hx as [->|[->|Hx]]; [|by left|]; right; apply IH; auto.
    all: cbn [ids fmap list_fmap] in Hq; apply elem_of_cons in Hq as [|]; done.
Qed.

(** The blocks of the manager are the places of the objects that are bound. *)
Definition blocks_of (s : gtt) (bl : list block) : Prop :=
  ∀ q oq a n, bos s !! q = Some oq → gtt_space oq = Some (a, n) → ∃ b, b ∈ bl ∧ b_start b = a ∧ b_size b = n.

End Room.

(** ** Witness: a manager with one block, which is the place of an object. *)

Definition demo_gtt : gtt := mk_gtt {[1 := mk_bo 100 0 0 (Some (0, 100)) 0 0 true (-1) false false 0]} [] [] 0 ∅.
Definition demo_inserted : drm_mm := demo_state (drm_mm_insert_node_in_range_generic 3%positive 100 16 0 0 4096;; mret tt) demo_mm2.

