(* ===== verification/FenceSafe.v ===== *)
(** * i915: the fence registers are right in every reachable state

    The operations of [FenceRegs] as the steps of a relation, and the theorems: what a
    register shows in every state that is reachable, the way of an access from pinning
    to its fence, the registers after they were lost, the tiling ioctls, the update of
    a register and the size of its range. *)

From stdpp Require Import base option list gmap.
From Stdlib Require Import ZArith Lia.
From S2P Require Import Prelude Fences FenceRegs FenceInv FenceBind.
#[local] Open Scope Z_scope.

Section Steps.
Variables (c : chip) (total swx swy : Z).
Implicit Types (s : gtt) (o : gem_bo).

(** One call of the driver.  [Lost]: the chip loses its registers (suspend, reset)
    and has [m] when the driver restores them. *)
Inductive gtt_op : Type :=
  | Alloc (p size : Z)
  | Free (p : Z) (u u2 : unbind_env)
  | Pin (p alignment : Z) (mf : bool) (u : unbind_env) (e : bind_env)
  | Unpin (p : Z)
  | Unbind (p : Z) (u : unbind_env)
  | GetFence (p : Z) (e : wait_env)
  | PutFence (p wait : Z)
  | PinFence (p : Z)
  | UnpinFence (p : Z)
  | SetTiling (p : Z) (a : tiling_args) (u : unbind_env)
  | Active (p : Z) (pending : bool) (seqno : Z)
  | Inactive (p : Z)
  | Fault (p : Z) (mapped incoherent : bool) (u : unbind_env) (e : bind_env) (d : unbind_env) (w : wait_env)
  | SetParam (value : Z)
  | Lost (m : gmap Z Z).

Definition exec_op (op : gtt_op) : M gtt Z :=
  match op with
  | Alloc p size => i915_gem_alloc_object p size;; mret 0
  | Free p u u2 => i915_gem_free_object c p u u2;; mret 0
  | Pin p alignment mf u e => i915_gem_object_pin c total p alignment mf u e
  | Unpin p => i915_gem_object_unpin p;; mret 0
  | Unbind p u => i915_gem_object_unbind c p u
  | GetFence p e => i915_gem_object_get_fence c p e
  | PutFence p wait => i915_gem_object_put_fence c p wait
  | PinFence p => b ← i915_gem_object_pin_fence p; mret (b2z b)
  | UnpinFence p => i915_gem_object_unpin_fence p;; mret 0
  | SetTiling p a u => r ← i915_gem_set_tiling c swx swy p a u; mret r.1
  | Active p pending seqno => i915_gem_object_move_to_active p pending seqno;; mret 0
  | Inactive p => i915_gem_object_move_to_inactive p;; mret 0
  | Fault p mapped incoherent u e d w => b ← i915_gem_fault c total p mapped incoherent u e d w; mret (b2z b)
  | SetParam value => setparam_num_used_fences value
  | Lost m => modify (set_mmio m);; i915_gem_restore_fences c;; mret 0
  end.

(** What the callers see to: objects that exist, of whole pages below 2 GB; a fence
    only for an object that is bound and, before gen 4, fenceable. *)
Definition op_allowed s (op : gtt_op) : Prop :=
  match op with
  | Alloc p size => p ≠ 0 ∧ bos s !! p = None ∧ 0 < size < 2 ^ 31 ∧ (4096 | size)
  | Free p u u2 => is_Some (bos s !! p) ∧ env_ok s u ∧ env_ok s u2 ∧ finish u2 = 0 ∧ wait u2 = 0
  | Pin p alignment mf u e => is_Some (bos s !! p) ∧ pin_allowed c total s p alignment mf u e
  | Unpin p => ∃ o, bos s !! p = Some o ∧ pin_count o ≠ 0
  | Unbind p u => is_Some (bos s !! p) ∧ env_ok s u
  | GetFence p _ => ∃ o, bos s !! p = Some o ∧ is_Some (gtt_space o) ∧ (4 <= gen c ∨ map_and_fenceable o = true)
  | Fault p _ _ u e d _ => is_Some (bos s !! p) ∧ pin_allowed c total s p 0 true u e ∧ env_ok s d
  | SetTiling p a u => is_Some (bos s !! p) ∧ env_ok s u ∧ 0 <= t_stride a < 2 ^ 32
  | PutFence p _ | PinFence p | UnpinFence p | Active p _ _ | Inactive p => is_Some (bos s !! p)
  | SetParam _ | Lost _ => True
  end.

Definition gtt_step s s' : Prop := ∃ op z, op_allowed s op ∧ exec_op op s = Some (z, s').

Hypothesis Hgen : gen_ok c.
Hypothesis Hend : 0 <= mappable_end c <= 2 ^ 32.
Hypothesis Htotal : 0 <= total <= 2 ^ 32.

Lemma bound_placed o : bo_ok c o → is_Some (gtt_space o) → 4 <= gen c ∨ map_and_fenceable o = true → tiled o → placed c o.
Proof.
  intros Hbo [[a n] Hsp] Hm Ht. destruct (decide (gen c < 4)) as [Hg|Hg]; [apply (bo_fits _ _ Hbo); [by rewrite Hsp|done|destruct Hm; [lia|done]|done]|].
  destruct (bo_space _ _ Hbo a n Hsp) as (-> & H0 & Hn & Hhi & Ha & Hd). pose proof (bo_size _ _ Hbo). exists n. split; [done|]. split; [done|]. split; [lia|]. split; [done|].
  by rewrite (proj2 (Z.leb_le 4 _)) by lia.
Qed.

Lemma alloc_ok s p size : gtt_ok c s → p ≠ 0 → bos s !! p = None → 0 < size < 2 ^ 31 → (4096 | size) →
  gtt_ok c (set_bos (<[p := i915_gem_object_init size]> (bos s)) s).
Proof.
  intros [Hz Hst Hb Ho Hod Hnd Hrg Hl Ha Hfr Hcv] Hp0 Hp Hs Hpg.
  assert (bo_ok c (i915_gem_object_init size)) as Hbo.
  { constructor; cbn; try done; try lia; try (intros; by exfalso). }
  constructor; try done; cbn [bos set_bos].
  - by rewrite lookup_insert_ne.
  - intros q oq [[<- <-]|[_ Hq]]%lookup_insert_Some; [done|by apply (Hb q)].
  - intros q oq [[<- <-]|[_ Hq]]%lookup_insert_Some; [done|by apply (Ho q oq)].
  - intros i k Hi Hn Hk. destruct (Hod i k Hi Hn Hk) as (o & Hlk & Hf). exists o. split; [|done]. rewrite lookup_insert_ne; [done|congruence].
  - intros q1 o1 q2 o2 [[<- <-]|[Hn1 H1]]%lookup_insert_Some [[<- <-]|[Hn2 H2]]%lookup_insert_Some Hne; [done|by intros ???? ?..|by apply (Ha q1 o1 q2 o2)].
  - intros q oq [[<- <-]|[_ Hq]]%lookup_insert_Some; [done|by apply (Hcv q oq)].
Qed.

Lemma delete_ok s p o : gtt_ok c s → bos s !! p = Some o → fence_reg o = I915_FENCE_REG_NONE → gtt_ok c (set_bos (delete p (bos s)) s).
Proof.
  intros [Hz Hst Hb Ho Hod Hnd Hrg Hl Ha Hfr Hcv] Hp Hf. constructor; try done; cbn [bos set_bos].
  - rewrite lookup_delete_ne; [done|congruence].
  - intros q oq [_ Hq]%lookup_delete_Some. by apply (Hb q).
  - intros q oq [_ Hq]%lookup_delete_Some. by apply (Ho q oq).
  - intros i k Hi Hn Hk. destruct (Hod i k Hi Hn Hk) as (ok & Hlk & Hfk). exists ok. split; [|done]. rewrite lookup_delete_ne; [done|].
    intros ->. destruct (reg_at_nat _ _ _ Hi). unfold I915_FENCE_REG_NONE in *. assert (ok = o) as -> by congruence. lia.
  - intros q1 o1 q2 o2 [_ H1]%lookup_delete_Some [_ H2]%lookup_delete_Some. by apply (Ha q1 o1 q2 o2).
  - intros q oq [_ Hq]%lookup_delete_Some. by apply (Hcv q oq).
Qed.

Lemma unbound_no_fence s p o : gtt_ok c s → bos s !! p = Some o → gtt_space o = None → fence_reg o = I915_FENCE_REG_NONE.
Proof.
  intros Hok Hp Hn. destruct (decide (fence_reg o = I915_FENCE_REG_NONE)) as [|Hf]; [done|].
  destruct (bo_fence _ _ (ok_bo _ _ _ Hok p o Hp) Hf) as (x & Hx & _). congruence.
Qed.

Lemma bo_free_ok s p u u2 : gtt_ok c s → op_allowed s (Free p u u2) → wp (i915_gem_free_object c p u u2) s (λ _ s', gtt_ok c s').
Proof.
  intros Hok ([o Hp] & Hu & Hu2 & Hf2 & Hw2). unfold i915_gem_free_object. apply (wp_upd_bo p o); [done|]. set (o1 := with_pins 0 o). set (s1 := set_bos (<[p := o1]> (bos s)) s).
  assert (gtt_ok c s1) as Hok1 by (apply pin_count_ok; done). assert (bos s1 !! p = Some o1) as Hp1 by (cbn; by rewrite lookup_insert_eq).
  assert (∀ q, is_Some (bos s !! q) → is_Some (bos s1 !! q)) as Hd1 by (intros q Hq; cbn; destruct (decide (q = p)) as [->|]; [by rewrite lookup_insert_eq|by rewrite lookup_insert_ne]).
  apply wp_bind. eapply wp_mono; [apply (unbind_ok c Hgen s1 p o1 u Hok1 Hp1); intros q Hq; by apply Hd1, Hu|]. intros z s2 (Hok2 & Hk2 & Hz & _). cbv beta. apply wp_bind.
  eapply (wp_mono _ _ (λ _ s3, gtt_ok c s3 ∧ ∃ o3, bos s3 !! p = Some o3 ∧ gtt_space o3 = None)).
  - destruct (Hk2 p o1 Hp1) as (o2 & Hp2 & Hsh & _). unfold z2b. destruct (Z.eqb_spec z 0) as [->|Hne]; cbn [negb when].
    + destruct (Hz eq_refl) as (o2' & Hp2' & Hn & _). split; [done|]. by exists o2'.
    + apply wp_bind. eapply wp_mono; [apply (unbind_ok c Hgen s2 p o2 u2 Hok2 Hp2); intros q Hq; by apply (keeps_some s1 s2 q Hk2), Hd1, Hu2|].
      intros z3 s3 (Hok3 & _ & Hz3 & Hdone). unfold wp, mret, M_ret. split; [done|]. assert (pin_count o2 = 0) as Hpc by (unfold shape in Hsh; cbn in Hsh; congruence).
      destruct (Hz3 (Hdone Hpc Hf2 Hw2)) as (o3 & Hp3 & Hn3 & _). by exists o3.
  - intros _ s3 (Hok3 & o3 & Hp3 & Hn3). unfold wp, modify. apply (delete_ok s3 p o3 Hok3 Hp3). by apply (unbound_no_fence s3 p).
Qed.

(** The processor reaches an object only through a register that says what it is. *)
Lemma fault_ok s p o mapped incoherent u e d w : gtt_ok c s → bos s !! p = Some o → pin_allowed c total s p 0 true u e → env_ok s d →
  wp (i915_gem_fault c total p mapped incoherent u e d w) s (λ b s', gtt_ok c s' ∧ (b = true → fenced c p s' ∧
    ∃ o', bos s' !! p = Some o' ∧ is_Some (gtt_space o') ∧ gtt_offset o' + size o' <= mappable_end c)).
Proof.
  intros Hok Hp Hpin Hd. unfold i915_gem_fault. destruct mapped; [done|]. destruct incoherent; [done|]. apply wp_bind.
  eapply wp_mono; [by apply (pin_ok c total Hgen Hend Htotal s p o)|]. intros z s1 (Hok1 & Hd1 & Hz). cbv beta. unfold z2b at 1. destruct (Z.eqb_spec z 0) as [->|]; cbn [negb]; [|done].
  destruct (Hz eq_refl) as (o1 & Hp1 & Hsp1 & Hpc1 & Hmf1 & _). specialize (Hmf1 eq_refl). apply wp_bind.
  assert (∀ s' o', gtt_ok c s' → bos s' !! p = Some o' → pin_count o' = pin_count o1 → is_Some (gtt_space o') ∧ pin_count o' ≠ 0) as Hbound.
  { intros s' o' Hok' Hp' Hpc. split; [apply (bo_pins _ _ (ok_bo _ _ _ Hok' p o' Hp'))|]; congruence. }
  eapply (wp_mono _ _ (λ _ s2, gtt_ok c s2 ∧ keeps s1 s2)).
  { unfold i915_gem_object_finish_gpu. destruct (z2b (finish d)); [split; [done|apply bo_keeps_refl]|]. apply wp_bind.
    eapply wp_mono; [apply (retire_ok c _ s1 Hok1)|by intros]. intros q Hq. by apply Hd1, Hd. }
  intros z2 s2 [Hok2 Hk2]. cbv beta. apply wp_bind. destruct (Hk2 p o1 Hp1) as (o2 & Hp2 & Hsh2 & Hpl2).
  assert (pin_count o2 = pin_count o1) as Hpc2 by (unfold shape in Hsh2; congruence). destruct (Hbound s2 o2 Hok2 Hp2 Hpc2) as [Hsp2 _].
  assert (map_and_fenceable o2 = true) as Hmf2 by (destruct Hpl2 as [Hpl2|[_ ?]]; [unfold place in Hpl2; congruence|done]).
  eapply (wp_mono _ _ (λ z3 s3, gtt_ok c s3 ∧ keeps s2 s3 ∧ (z3 = 0 → fenced c p s3))).
  { unfold z2b. destruct (Z.eqb_spec z2 0) as [->|]; cbn [negb]; [|unfold wp, mret, M_ret; split; [done|]; split; [apply bo_keeps_refl|done]].
    eapply wp_mono; [apply (get_fence_ok c Hgen s2 p o2 w Hok2 Hp2)|by intros ?? (? & ? & ? & _)].
    intros _ Ht. apply bound_placed; [by apply (ok_bo _ _ _ Hok2 p)|done|by right|done]. }
  intros z3 s3 (Hok3 & Hk3 & Hz3). cbv beta. destruct (Hk3 p o2 Hp2) as (o3 & Hp3 & Hsh3 & Hpl3).
  assert (pin_count o3 = pin_count o1) as Hpc3 by (unfold shape in Hsh3; congruence). destruct (Hbound s3 o3 Hok3 Hp3 Hpc3) as [Hsp3 Hn3].
  assert (map_and_fenceable o3 = true) as Hmf3 by (destruct Hpl3 as [Hpl3|[_ ?]]; [unfold place in Hpl3; congruence|done]).
  pose proof (ok_bo _ _ _ Hok3 p o3 Hp3) as Hbo3. pose proof (bo_mappable _ _ Hbo3 Hsp3 Hmf3) as Hmap.
  pose proof (unpin_ok c s3 p o3 Hok3 Hp3 Hn3) as Hun. unfold i915_gem_object_unpin in *.
  apply wp_bind. destruct (wp_run _ _ _ Hun) as ([] & s4 & Hrun & Hok4). apply (wp_of _ _ _ _ _ Hrun). unfold wp, mret, M_ret. split; [done|]. intros ->%Z.eqb_eq.
  assert (bos s4 = <[p := with_pins (pin_count o3 - 1) o3]> (bos s3) ∧ mmio s4 = mmio s3) as [Hb4 Hm4].
  { destruct Hsp3 as [sp Hsp3]. revert Hrun. unfold mbind, M_bind, upd_bo, bo_at, reads, BUG_ON, mret, M_ret, modify, mbind, M_bind.
    rewrite Hp3, (proj2 (Z.eqb_neq _ _) Hn3), Hsp3, bool_decide_eq_false_2 by done. rewrite Hp3. intros Heq. by injection Heq as <-. }
  unfold fenced. rewrite Hb4, Hm4, lookup_insert_eq. split; [|by eexists].
  destruct (Hz3 eq_refl) as (o3' & Hp3' & Hf). assert (o3' = o3) as -> by congruence. eexists. split; [reflexivity|]. exact Hf.
Qed.

Lemma exec_ok s op : gtt_ok c s → op_allowed s op → wp (exec_op op) s (λ _ s', gtt_ok c s').
Proof.
  intros Hok Ha. destruct op; cbn [exec_op op_allowed] in *.
  - destruct Ha as (Hp0 & Hp & Hs & Hpg). by apply alloc_ok.
  - apply wp_bind. eapply wp_mono; [by apply bo_free_ok|by intros].
  - destruct Ha as ([o Hp] & Ha). eapply wp_mono; [by apply (pin_ok c total Hgen Hend Htotal s p o)|by intros ?? [? _]].
  - destruct Ha as (o & Hp & Hn). apply wp_bind. eapply wp_mono; [by apply (unpin_ok c s p o)|by intros].
  - destruct Ha as ([o Hp] & Hu). eapply wp_mono; [by apply (unbind_ok c Hgen s p o)|by intros ?? [? _]].
  - destruct Ha as (o & Hp & Hsp & Hm). eapply wp_mono; [apply (get_fence_ok c Hgen s p o e Hok Hp)|by intros ?? [? _]].
    intros _ Ht. apply bound_placed; [by apply (ok_bo _ _ _ Hok p)|done..].
  - destruct Ha as [o Hp]. eapply wp_mono; [by apply (put_fence_ok c Hgen s p o)|by intros ?? [? _]].
  - destruct Ha as [o Hp]. apply wp_bind. unfold i915_gem_object_pin_fence. apply (wp_bo_at p o); [done|]. destruct (Z.eqb_spec (fence_reg o) I915_FENCE_REG_NONE) as [Hf|Hf]; cbn [negb]; [done|].
    destruct (ok_owner _ _ _ Hok p o Hp Hf) as (_ & k & Hk & _). apply wp_bind. unfold upd_fence. apply (wp_fence_at _ k); [done|]. by apply (ok_pins c s _ k).
  - destruct Ha as [o Hp]. apply wp_bind. unfold i915_gem_object_unpin_fence. apply (wp_bo_at p o); [done|]. destruct (Z.eqb_spec (fence_reg o) I915_FENCE_REG_NONE) as [Hf|Hf]; cbn [negb when]; [done|].
    destruct (ok_owner _ _ _ Hok p o Hp Hf) as (_ & k & Hk & _). unfold upd_fence. apply (wp_fence_at _ k); [done|]. by apply (ok_pins c s _ k).
  - destruct Ha as ([o Hp] & Hu & Hst). apply wp_bind. eapply wp_mono; [by apply (set_tiling_ok c swx swy Hgen s p o)|by intros ?? [? _]].
  - apply wp_bind. eapply wp_mono; [by apply move_to_active_ok|by intros ?? [? _]].
  - apply wp_bind. eapply wp_mono; [by apply move_to_inactive_ok|by intros ?? [? _]].
  - destruct Ha as ([o Hp] & Hpin & Hd). apply wp_bind. eapply wp_mono; [by apply (fault_ok s p o)|by intros ?? [? _]].
  - unfold setparam_num_used_fences. unfold wp. rewrite get_bind. destruct (_ || _) eqn:E; [done|]. cbn.
    apply orb_false_iff in E as [E1%Z.ltb_ge E2%Z.ltb_ge]. destruct Hok. constructor; try assumption. cbn. lia.
  - unfold wp. rewrite modify_bind. apply fold_wp. apply wp_bind. eapply wp_mono; [apply (restore_fences_ok c Hgen (mmio s) (set_mmio m s)); by destruct s|by intros ?? [? _]].
Qed.
(** ** Theorems *)

(** What a valid register shows: the range of an object that owns it, and all of its
    tiling if no change of that is pending. *)
Definition shows s (i : Z) (v : fence_view) : Prop :=
  ∃ p o, bos s !! p = Some o ∧ fence_reg o = i ∧ gtt_space o = Some (v_start v, v_size v) ∧ (fence_dirty o = false → tiled o ∧ v = view_of o).

Lemma ok_shows s i v : gtt_ok c s → 0 <= i < Z.of_nat (length (fence_regs s)) → fence_view_of c (mmio s) i = Some v → shows s i v.
Proof.
  intros Hok Hi Hv. destruct (lookup_lt_is_Some_2 (fence_regs s) (Z.to_nat i)) as [k Hk]; [lia|].
  assert (reg_at s i = Some k) as Hr by (unfold reg_at; by rewrite (proj2 (Z.ltb_ge i 0)) by lia). assert (i ≠ I915_FENCE_REG_NONE) as Hn by (unfold I915_FENCE_REG_NONE; lia).
  destruct (decide (f_obj k = 0)) as [H0|H0]; [by rewrite (ok_free _ _ _ Hok i k Hr Hn H0) in Hv|].
  destruct (ok_owned _ _ _ Hok i k Hr Hn H0) as (o & Hp & Hf). exists (f_obj k), o. split; [done|]. split; [done|].
  assert (fence_reg o ≠ I915_FENCE_REG_NONE) as Hfn by congruence. destruct (ok_covers _ _ _ Hok _ o Hp Hfn) as [(v' & Hv' & Hsp) Hcl]. rewrite Hf in *.
  assert (v' = v) as -> by congruence. split; [done|]. intros Hd. split; [apply (bo_clean _ _ (ok_bo _ _ _ Hok _ o Hp)); [by rewrite Hf|done]|]. specialize (Hcl Hd). congruence.
Qed.

Lemma shows_apart s i j v w : gtt_ok c s → i ≠ j → shows s i v → shows s j w → v_start v + v_size v <= v_start w ∨ v_start w + v_size w <= v_start v.
Proof. intros Hok Hne (p & o & Hp & Hf & Hs & _) (q & o' & Hq & Hf' & Hs' & _). apply (ok_apart _ _ _ Hok p o q o' Hp Hq); [congruence|done..]. Qed.

(** C15 (fences_sound): in every state reachable from the load of the driver, an allowed
    call runs to its end; a valid register covers exactly the range of the aperture of
    the object that owns it, with its stride and its tiling if no change of them is
    pending; and two valid registers never overlap. *)
Theorem fences_sound modeset s00 s0 s : i915_gem_load c modeset s00 = Some (tt, s0) → star gtt_step s0 s →
  (∀ op, op_allowed s op → ∃ z s', exec_op op s = Some (z, s')) ∧
  (∀ i v, 0 <= i < Z.of_nat (length (fence_regs s)) → fence_view_of c (mmio s) i = Some v → shows s i v) ∧
  (∀ i j v w, 0 <= i < Z.of_nat (length (fence_regs s)) → 0 <= j < Z.of_nat (length (fence_regs s)) → i ≠ j →
    fence_view_of c (mmio s) i = Some v → fence_view_of c (mmio s) j = Some w → v_start v + v_size v <= v_start w ∨ v_start w + v_size w <= v_start v).
Proof.
  intros Hload Hstar. assert (gtt_ok c s) as Hok.
  { apply (star_invariant gtt_step (gtt_ok c) s0 s); [|pose proof (load_ok c Hgen modeset s00) as Hl; unfold wp in Hl; by rewrite Hload in Hl|done].
    intros s1 s2 Hok (op & z & Ha & Hrun). pose proof (exec_ok s1 op Hok Ha) as He. unfold wp in He. by rewrite Hrun in He. }
  split; [|split].
  - intros op Ha. destruct (wp_run _ _ _ (exec_ok s op Hok Ha)) as (z & s' & Hrun & _). by exists z, s'.
  - intros i v Hi Hv. by apply ok_shows.
  - intros i j v w Hi Hj Hne Hv Hw. apply (shows_apart s i j); [done|done|by apply ok_shows..].
Qed.

(** C16 (fault_maps_fenced): the handler of an access through the aperture maps an object
    only when it lies in the mappable part and, if it is tiled, owns a register that
    shows its range, stride and tiling. *)
Theorem fault_maps_fenced s p o mapped incoherent u e d w : gtt_ok c s → bos s !! p = Some o → pin_allowed c total s p 0 true u e → env_ok s d →
  ∃ b s', i915_gem_fault c total p mapped incoherent u e d w s = Some (b, s') ∧ gtt_ok c s' ∧
    (b = true → fenced c p s' ∧ ∃ o', bos s' !! p = Some o' ∧ is_Some (gtt_space o') ∧ gtt_offset o' + size o' <= mappable_end c).
Proof. intros Hok Hp Hpin Hd. by apply wp_run, (fault_ok s p o). Qed.

(** A call for a fence that returns 0 leaves a tiled object with a
    register that shows it and a linear one without; it takes a free register or the
    least recently used one that is not pinned; and it fails only if a wait fails, or
    with -EDEADLK when every register of the kernel's is pinned. *)
Theorem get_fence_correct s p o e : gtt_ok c s → bos s !! p = Some o → is_Some (gtt_space o) → 4 <= gen c ∨ map_and_fenceable o = true →
  (∃ z s', i915_gem_object_get_fence c p e s = Some (z, s') ∧ get_fence_post c s p e z s') ∧
  (∃ r, i915_find_fence_reg s = Some (r, s) ∧ chosen s r).
Proof.
  intros Hok Hp Hsp Hm. split; [|by apply (find_fence_reg_ok c)]. apply wp_run, (get_fence_ok c Hgen s p o e Hok Hp).
  intros _ Ht. apply bound_placed; [by apply (ok_bo _ _ _ Hok p)|done..].
Qed.

(** C17 (restore_fences_correct): whatever the chip has in its registers after a reset or a
    suspend, i915_gem_restore_fences makes them right again and carries out the changes
    of tiling that were pending. *)
Theorem restore_fences_correct s m : gtt_ok c s →
  ∃ s', i915_gem_restore_fences c (set_mmio m s) = Some (tt, s') ∧ gtt_ok c s' ∧
    ∀ p o, bos s' !! p = Some o → fence_reg o ≠ I915_FENCE_REG_NONE → tiled o ∧ fence_view_of c (mmio s') (fence_reg o) = Some (view_of o).
Proof.
  intros Hok. destruct (wp_run _ _ _ (restore_fences_ok c Hgen (mmio s) (set_mmio m s) ltac:(by destruct s))) as ([] & s' & Hrun & Hok' & Hcl).
  exists s'. split; [done|]. split; [done|]. intros p o Hp Hf. pose proof (Hcl p o Hp Hf) as Hd.
  split; [by apply (bo_clean _ _ (ok_bo _ _ _ Hok' p o Hp))|by apply (ok_covers _ _ _ Hok' p o)].
Qed.

(** The swizzlings are distinct. *)
Definition swizzles : list Z := [I915_BIT_6_SWIZZLE_NONE; I915_BIT_6_SWIZZLE_9; I915_BIT_6_SWIZZLE_9_10; I915_BIT_6_SWIZZLE_9_11;
  I915_BIT_6_SWIZZLE_9_10_11; I915_BIT_6_SWIZZLE_UNKNOWN; I915_BIT_6_SWIZZLE_9_17; I915_BIT_6_SWIZZLE_9_10_17].

Lemma swizzle_ne i j x y : swizzles !! i = Some x → swizzles !! j = Some y → i ≠ j → x ≠ y.
Proof. intros Hx Hy Hne ->. apply Hne. refine (NoDup_lookup swizzles i j y _ Hx Hy). apply (bool_decide_unpack _). vm_compute. exact I. Qed.

Lemma hide_no_17 x : hide_bit_17 x ≠ I915_BIT_6_SWIZZLE_9_17 ∧ hide_bit_17 x ≠ I915_BIT_6_SWIZZLE_9_10_17.
Proof.
  unfold hide_bit_17. pose proof (swizzle_ne 1 6 _ _ eq_refl eq_refl ltac:(done)). pose proof (swizzle_ne 1 7 _ _ eq_refl eq_refl ltac:(done)).
  pose proof (swizzle_ne 2 6 _ _ eq_refl eq_refl ltac:(done)). pose proof (swizzle_ne 2 7 _ _ eq_refl eq_refl ltac:(done)).
  destruct (Z.eqb_spec x I915_BIT_6_SWIZZLE_9_17); [destruct (Z.eqb_spec I915_BIT_6_SWIZZLE_9 I915_BIT_6_SWIZZLE_9_10_17)|destruct (Z.eqb_spec x I915_BIT_6_SWIZZLE_9_10_17)]; done.
Qed.
Lemma hide_none : hide_bit_17 I915_BIT_6_SWIZZLE_NONE = I915_BIT_6_SWIZZLE_NONE.
Proof.
  unfold hide_bit_17. rewrite (proj2 (Z.eqb_neq I915_BIT_6_SWIZZLE_NONE I915_BIT_6_SWIZZLE_9_17)) by by apply (swizzle_ne 0 6).
  by rewrite (proj2 (Z.eqb_neq I915_BIT_6_SWIZZLE_NONE I915_BIT_6_SWIZZLE_9_10_17)) by by apply (swizzle_ne 0 7).
Qed.

(** After i915_gem_set_tiling set one of the three modes,
    i915_gem_get_tiling reports the mode and the swizzling that the call returned: the
    mode asked for, or none if its swizzling is not known; never an unknown one or one
    with bit 17. *)
Theorem set_get_tiling s p o a u r s' g : gtt_ok c s → bos s !! p = Some o → env_ok s u → 0 <= t_stride a < 2 ^ 32 →
  t_mode a ∈ [I915_TILING_NONE; I915_TILING_X; I915_TILING_Y] → i915_gem_set_tiling c swx swy p a u s = Some ((0, r), s') →
  i915_gem_get_tiling swx swy p g s' = Some (mk_tiling (t_mode r) (t_stride g) (t_swizzle r), s') ∧
  (t_mode r = t_mode a ∨ t_mode r = I915_TILING_NONE) ∧
  t_swizzle r ∉ [I915_BIT_6_SWIZZLE_UNKNOWN; I915_BIT_6_SWIZZLE_9_17; I915_BIT_6_SWIZZLE_9_10_17].
Proof.
  clear Hend Htotal. intros Hok Hp Hu Hst Hmode Hrun. pose proof (set_tiling_ok c swx swy Hgen s p o a u Hok Hp Hu Hst) as Hwp. unfold wp in Hwp. rewrite Hrun in Hwp.
  destruct Hwp as (_ & _ & Hz). destruct (Hz eq_refl) as (o' & Hp' & Hm & _ & Hr). cbn [snd] in Hr.
  assert (tiling_mode o' = t_mode (choose_swizzle swx swy a)) as Hm'.
  { rewrite Hm. change 3 with (Z.ones 2). rewrite Z.land_ones, Z.mod_small; [done| |lia]. pose proof tiling_xy as (? & ? & _). pose proof tiling_none.
    rewrite !elem_of_cons, elem_of_nil in Hmode. destruct (choose_cases swx swy a) as [[-> _]|[-> _]]; destruct_or?; try done; lia. }
  assert (I915_TILING_X ≠ I915_TILING_NONE ∧ I915_TILING_Y ≠ I915_TILING_NONE ∧ I915_TILING_Y ≠ I915_TILING_X) as (Hxn & Hyn & Hyx) by (pose proof tiling_xy as (? & ? & ?); rewrite tiling_none; lia).
  assert (I915_BIT_6_SWIZZLE_NONE ∉ [I915_BIT_6_SWIZZLE_UNKNOWN; I915_BIT_6_SWIZZLE_9_17; I915_BIT_6_SWIZZLE_9_10_17]) as Hnone by (rewrite !elem_of_cons, elem_of_nil; intros [He|[He|[He|[]]]]; revert He; [by apply (swizzle_ne 0 5)|by apply (swizzle_ne 0 6)|by apply (swizzle_ne 0 7)]).
  rewrite Hr. cbn [t_mode t_swizzle]. unfold i915_gem_get_tiling, bo_at, reads, mbind, M_bind. rewrite Hp', Hm'. unfold mret, M_ret.
  revert Hm'. unfold choose_swizzle. destruct (Z.eqb_spec (t_mode a) I915_TILING_NONE) as [He|He]; cbn [t_mode t_swizzle].
  { intros _. rewrite He, !(proj2 (Z.eqb_neq _ _)), Z.eqb_refl, hide_none by done. split; [done|]. split; [by left|done]. }
  destruct (Z.eqb_spec (hide_bit_17 (if t_mode a =? I915_TILING_X then swx else swy)) I915_BIT_6_SWIZZLE_UNKNOWN) as [Hun|Hun]; cbn [t_mode t_swizzle]; intros _.
  { rewrite !(proj2 (Z.eqb_neq _ _)), Z.eqb_refl, hide_none by done. split; [done|]. split; [by right|done]. }
  assert (t_mode a = I915_TILING_X ∨ t_mode a = I915_TILING_Y) as Hxy by (rewrite !elem_of_cons, elem_of_nil in Hmode; tauto).
  split; [|split; [by left|rewrite !elem_of_cons, elem_of_nil; destruct (hide_no_17 (if t_mode a =? I915_TILING_X then swx else swy)) as (? & ?); tauto]].
  destruct Hxy as [->| ->]; rewrite ?Z.eqb_refl; [done|]. rewrite (proj2 (Z.eqb_neq I915_TILING_Y I915_TILING_X)) by done. done.
Qed.

(** C18 (fence_update_exact): the writes of a register, in their order, leave it as it was,
    invalid, or exactly what the object is, after any number of them; all of them leave
    it so that the chip decodes from it the object's range, stride and tiling; no other
    register changes; and the writes for no object leave the register invalid. *)
Theorem fence_update_exact o reg r : fenceable c o → 0 <= reg →
  ∃ ws ws0, fence_writes c reg (Some o) = Some ws ∧ fence_writes c reg None = Some ws0 ∧
    fence_view_of c (mmio_writes r ws) reg = Some (view_of o) ∧ fence_view_of c (mmio_writes r ws0) reg = None ∧
    (∀ n, fence_view_of c (mmio_writes r (take n ws)) reg ∈ [fence_view_of c r reg; None; Some (view_of o)]) ∧
    (∀ n reg', 0 <= reg' → reg' ≠ reg → fence_view_of c (mmio_writes r (take n ws)) reg' = fence_view_of c r reg').
Proof.
  intros Ho Hreg. destruct (written_view c o reg r Hgen Ho) as (ws & Hw & Hv). destruct (fence_writes_total c reg None Hgen) as [ws0 Hw0]; [done|].
  exists ws, ws0. split; [done|]. split; [done|]. split; [done|]. split; [by apply cleared_view|]. split.
  - intros n. destruct (fence_writes_prefix c reg (Some o) ws r n Hw) as [->|[->| ->]]; rewrite ?Hv, !elem_of_cons; auto.
  - intros n reg' Hr' Hne. by apply (fence_writes_other c reg reg' (Some o) ws r n).
Qed.

(** Before gen 4 a tiled object of at most 2 GB gets the least power
    of two that holds it and that a register has, in at most 12 rounds; for a larger one
    the loop shifts the size out of its 32 bits and never ends. *)
Theorem gtt_size_exact size mode : gen c < 4 → mode ≠ I915_TILING_NONE → 0 < size < 2 ^ 32 →
  (size <= 2 ^ 31 → ∃ k, i915_gem_get_gtt_size c gtt_rounds size mode = Some (2 ^ k) ∧ fence_min c <= k ∧ size <= 2 ^ k ∧
    ∀ j, fence_min c <= j → size <= 2 ^ j → k <= j) ∧
  (2 ^ 31 < size → ∀ fuel, i915_gem_get_gtt_size c fuel size mode = None).
Proof.
  intros Hg Hm Hs. unfold i915_gem_get_gtt_size. rewrite u32_id by lia. rewrite (proj2 (Z.leb_gt 4 _)), (proj2 (Z.eqb_neq _ _) Hm) by lia. cbn [orb].
  assert ((if gen c =? 3 then 1024 * 1024 else 512 * 1024) = 2 ^ fence_min c) as -> by (unfold fence_min; by destruct (gen c =? 3)).
  assert (19 <= fence_min c <= 20) by (unfold fence_min; destruct (gen c =? 3); lia). split.
  - intros Hle. destruct (gtt_size_loop_ok gtt_rounds (fence_min c) size) as (k & Hrun & Hk & Hsk & Hlast); [lia|done|unfold gtt_rounds; lia|].
    exists k. split; [done|]. split; [lia|]. split; [done|]. intros j Hj Hsj. destruct Hlast as [->|Hlt]; [done|].
    assert (k - 1 < j); [|lia]. apply (Z.pow_lt_mono_r_iff 2); lia.
  - intros Hbig fuel. apply gtt_size_loop_diverges; [right; exists (fence_min c); split; [lia|done]|done].
Qed.

(** A mode that is neither linear, X nor Y is accepted. *)
Lemma unknown_mode_accepted st size mode : 4 <= gen c < 7 → mode ≠ I915_TILING_NONE → mode ≠ I915_TILING_Y → 512 <= st <= 2 ^ 17 → (512 | st) →
  i915_tiling_ok c st size mode = true.
Proof.
  intros Hg Hn Hy Hst Hd. unfold i915_tiling_ok. cbv zeta. rewrite (proj2 (Z.eqb_neq _ _) Hn), (proj2 (Z.eqb_neq _ _) Hy). unfold IS_GEN2.
  rewrite (proj2 (Z.eqb_neq (gen c) 2)) by lia. cbn [orb andb]. rewrite i32_id by (unfold INT_MIN, INT_MAX; lia).
  rewrite (proj2 (Z.leb_gt 7 _)), (proj2 (Z.leb_le 4 _)) by lia. unfold I965_FENCE_MAX_PITCH_VAL. rewrite Z.quot_div_nonneg by lia.
  assert (st / 128 <= 0x400) by (apply Z.div_le_upper_bound; lia). rewrite (proj2 (Z.ltb_ge _ _)), (proj2 (Z.ltb_ge st _)) by lia.
  unfold z2b. rewrite negb_involutive. apply Z.eqb_eq. apply (land_pow2_zero st 9); [lia|lia|done].
Qed.
End Steps.

(** ** Witnesses

    A chip of gen 3 and a run in which an object of a megabyte is made, tiled, pinned
    and given a fence. *)

Definition demo_chip : chip := mk_chip 3 false false false false false (2 ^ 28).
Definition demo_env : unbind_env := mk_unbind 0 [] 0.
Definition demo_boot : gtt := mk_gtt ∅ [] [] 0 {[0x2000 := 0x101]}.
Definition demo_after (m : M gtt unit) (s : gtt) : gtt := match m s with Some (_, s') => s' | None => s end.
Definition demo_loaded : gtt := demo_after (i915_gem_load demo_chip true) demo_boot.
Definition demo_exec : gtt_op → M gtt Z := exec_op demo_chip (2 ^ 29) 2 1.
Definition demo_step (s : gtt) (op : gtt_op) : gtt := demo_after (demo_exec op;; mret tt) s.

Definition demo_made : gtt := demo_step demo_loaded (Alloc 1 (2 ^ 20)).
Definition demo_tiled : gtt := demo_step demo_made (SetTiling 1 (mk_tiling 1 512 0) demo_env).
Definition demo_pinned : gtt := demo_step demo_tiled (Pin 1 0 true demo_env (mk_bind [] (inr 0))).
Definition demo_fenced : gtt := demo_step demo_pinned (GetFence 1 (mk_waits 0 0)).

Lemma demo_gen : gen_ok demo_chip.
Proof. unfold gen_ok. cbn. lia. Qed.

Lemma demo_env_ok s : env_ok s demo_env.
Proof. intros q Hq. by apply not_elem_of_nil in Hq. Qed.

Lemma demo_run s op : gtt_ok demo_chip s → op_allowed demo_chip (2 ^ 29) s op →
  gtt_ok demo_chip (demo_step s op) ∧ gtt_step demo_chip (2 ^ 29) 2 1 s (demo_step s op).
Proof.
  intros Hok Ha. assert (0 <= mappable_end demo_chip <= 2 ^ 32) as Hend by (cbn; lia).
  destruct (wp_run _ _ _ (exec_ok demo_chip (2 ^ 29) 2 1 demo_gen Hend ltac:(lia) s op Hok Ha)) as (z & s' & Hrun & Hok').
  unfold demo_step, demo_after, demo_exec, mbind, M_bind. rewrite Hrun. split; [done|]. by exists op, z.
Qed.

Lemma demo_load : i915_gem_load demo_chip true demo_boot = Some (tt, demo_loaded) ∧ gtt_ok demo_chip demo_loaded.
Proof.
  destruct (wp_run _ _ _ (load_ok demo_chip demo_gen true demo_boot)) as ([] & s' & Hrun & Hok).
  unfold demo_loaded, demo_after. rewrite Hrun. done.
Qed.

Lemma demo_made_ok : gtt_ok demo_chip demo_made ∧ gtt_step demo_chip (2 ^ 29) 2 1 demo_loaded demo_made.
Proof. apply demo_run; [apply demo_load|]. split; [done|]. split; [by vm_compute|]. split; [lia|]. by exists 256. Qed.

Lemma demo_tiled_ok : gtt_ok demo_chip demo_tiled ∧ gtt_step demo_chip (2 ^ 29) 2 1 demo_made demo_tiled.
Proof. apply demo_run; [apply demo_made_ok|]. split; [vm_compute; eauto|]. split; [apply demo_env_ok|]. cbn. lia. Qed.

Definition demo_bo : gem_bo := mk_bo (2 ^ 20) 1 512 None 0 0 true (-1) false false 0.

Lemma demo_tiled_bos : bos demo_tiled = {[1 := demo_bo]}.
Proof. by vm_compute. Qed.

(** A request for the start of the aperture. *)
Lemma demo_pin_allowed : pin_allowed demo_chip (2 ^ 29) demo_tiled 1 0 true demo_env (mk_bind [] (inr 0)).
Proof.
  split; [apply demo_env_ok|]. split; [done|]. intros s' z Hs. assert (s' = demo_tiled) as ->.
  { destruct Hs as [|Hs]; [done|]. unfold i915_gem_object_unbind, bo_at, reads, mbind, M_bind in Hs. rewrite demo_tiled_bos in Hs. cbn in Hs. by injection Hs as _ <-. }
  split; [by exists 0|]. split; [intros v Hv; by apply not_elem_of_nil in Hv|].
  intros o start sz al s'' Ho Hf Hreq Hev. injection Hf as <-. injection Hev as <-. rewrite demo_tiled_bos, lookup_singleton_eq in Ho. injection Ho as <-.
  assert (bind_request demo_chip demo_bo 0 true = Some (2 ^ 20, 2 ^ 20)) as Hr by by vm_compute. rewrite Hr in Hreq. injection Hreq as <- <-.
  split; [done|]. split; [by exists 0|]. split; [cbn; lia|]. intros q oq a n Hq Hsp. rewrite demo_tiled_bos in Hq. by apply lookup_singleton_Some in Hq as [_ <-].
Qed.

Lemma demo_pinned_ok : gtt_ok demo_chip demo_pinned ∧ gtt_step demo_chip (2 ^ 29) 2 1 demo_tiled demo_pinned.
Proof. apply demo_run; [apply demo_tiled_ok|]. split; [rewrite demo_tiled_bos; by exists demo_bo|apply demo_pin_allowed]. Qed.

Definition demo_pinned_bo : gem_bo := mk_bo (2 ^ 20) 1 512 (Some (0, 2 ^ 20)) 0 1 true (-1) false false 0.

Lemma demo_pinned_bos : bos demo_pinned = {[1 := demo_pinned_bo]}.
Proof. by vm_compute. Qed.

Lemma demo_fenced_ok : gtt_ok demo_chip demo_fenced ∧ gtt_step demo_chip (2 ^ 29) 2 1 demo_pinned demo_fenced.
Proof. apply demo_run; [apply demo_pinned_ok|]. exists demo_pinned_bo. rewrite demo_pinned_bos. split; [done|]. split; [done|by right]. Qed.

Lemma demo_fenced_view : fence_view_of demo_chip (mmio demo_fenced) 0 = Some (mk_view 0 (2 ^ 20) 512 false).
Proof. by vm_compute. Qed.

Lemma fences_sound_witness :
  i915_gem_load demo_chip true demo_boot = Some (tt, demo_loaded) ∧ star (gtt_step demo_chip (2 ^ 29) 2 1) demo_loaded demo_fenced ∧
  fence_view_of demo_chip (mmio demo_fenced) 0 = Some (mk_view 0 (2 ^ 20) 512 false) ∧ shows demo_fenced 0 (mk_view 0 (2 ^ 20) 512 false).
Proof.
  assert (star (gtt_step demo_chip (2 ^ 29) 2 1) demo_loaded demo_fenced) as Hstar.
  { do 4 (eapply star_step; [first [apply demo_made_ok|apply demo_tiled_ok|apply demo_pinned_ok|apply demo_fenced_ok]|]). apply star_refl. }
  split; [apply demo_load|]. split; [exact Hstar|]. split; [apply demo_fenced_view|].
  apply (fences_sound demo_chip (2 ^ 29) 2 1 demo_gen ltac:(cbn; lia) ltac:(lia) true demo_boot demo_loaded demo_fenced (proj1 demo_load) Hstar); [vm_compute; split; congruence|apply demo_fenced_view].
Defined.

Lemma fault_maps_fenced_witness :
  ∃ b s', i915_gem_fault demo_chip (2 ^ 29) 1 false false demo_env (mk_bind [] (inr 0)) demo_env (mk_waits 0 0) demo_tiled = Some (b, s') ∧ gtt_ok demo_chip s' ∧
    (b = true → fenced demo_chip 1 s' ∧ ∃ o', bos s' !! 1 = Some o' ∧ is_Some (gtt_space o') ∧ gtt_offset o' + size o' <= mappable_end demo_chip).
Proof.
  apply (fault_maps_fenced demo_chip (2 ^ 29) demo_gen ltac:(cbn; lia) ltac:(lia) demo_tiled 1 demo_bo).
  - apply demo_tiled_ok.
  - by rewrite demo_tiled_bos.
  - apply demo_pin_allowed.
  - apply demo_env_ok.
Defined.

Lemma get_fence_correct_witness :
  (∃ z s', i915_gem_object_get_fence demo_chip 1 (mk_waits 0 0) demo_pinned = Some (z, s') ∧ get_fence_post demo_chip demo_pinned 1 (mk_waits 0 0) z s') ∧
  (∃ r, i915_find_fence_reg demo_pinned = Some (r, demo_pinned) ∧ chosen demo_pinned r).
Proof.
  apply (get_fence_correct demo_chip demo_gen demo_pinned 1 demo_pinned_bo).
  - apply demo_pinned_ok.
  - by rewrite demo_pinned_bos.
  - by exists (0, 2 ^ 20).
  - by right.
Defined.

Lemma restore_fences_correct_witness :
  ∃ s', i915_gem_restore_fences demo_chip (set_mmio {[0x2004 := 0xffffffff]} demo_fenced) = Some (tt, s') ∧ gtt_ok demo_chip s' ∧
    ∀ p o, bos s' !! p = Some o → fence_reg o ≠ I915_FENCE_REG_NONE → tiled o ∧ fence_view_of demo_chip (mmio s') (fence_reg o) = Some (view_of o).
Proof. apply (restore_fences_correct demo_chip demo_gen demo_fenced). apply demo_fenced_ok. Defined.

Lemma set_get_tiling_witness :
  i915_gem_get_tiling 2 1 1 (mk_tiling 0 0 0) demo_tiled = Some (mk_tiling 1 0 2, demo_tiled) ∧
  (1 = 1 ∨ 1 = I915_TILING_NONE) ∧ 2 ∉ [I915_BIT_6_SWIZZLE_UNKNOWN; I915_BIT_6_SWIZZLE_9_17; I915_BIT_6_SWIZZLE_9_10_17].
Proof.
  apply (set_get_tiling demo_chip 2 1 demo_gen demo_made 1 (i915_gem_object_init (2 ^ 20)) (mk_tiling 1 512 0) demo_env (mk_tiling 1 512 2) demo_tiled (mk_tiling 0 0 0)).
  - apply demo_made_ok.
  - by vm_compute.
  - apply demo_env_ok.
  - cbn. lia.
  - apply elem_of_cons. right. by left.
  - by vm_compute.
Defined.

Lemma demo_fenceable : fenceable demo_chip demo_pinned_bo.
Proof. exists (2 ^ 20). split_and!; try done. cbn. exists 20, 0. split_and!; try done. by exists 0. Qed.

Lemma fence_update_exact_witness :
  ∃ ws ws0, fence_writes demo_chip 9 (Some demo_pinned_bo) = Some ws ∧ fence_writes demo_chip 9 None = Some ws0 ∧
    fence_view_of demo_chip (mmio_writes ∅ ws) 9 = Some (view_of demo_pinned_bo) ∧ fence_view_of demo_chip (mmio_writes ∅ ws0) 9 = None ∧
    (∀ n, fence_view_of demo_chip (mmio_writes ∅ (take n ws)) 9 ∈ [fence_view_of demo_chip ∅ 9; None; Some (view_of demo_pinned_bo)]) ∧
    (∀ n reg', 0 <= reg' → reg' ≠ 9 → fence_view_of demo_chip (mmio_writes ∅ (take n ws)) reg' = fence_view_of demo_chip ∅ reg').
Proof. apply (fence_update_exact demo_chip demo_gen demo_pinned_bo 9 ∅); [apply demo_fenceable|lia]. Defined.

Lemma gtt_size_exact_witness :
  (3000000 <= 2 ^ 31 → ∃ k, i915_gem_get_gtt_size demo_chip gtt_rounds 3000000 1 = Some (2 ^ k) ∧ fence_min demo_chip <= k ∧ 3000000 <= 2 ^ k ∧
    ∀ j, fence_min demo_chip <= j → 3000000 <= 2 ^ j → k <= j) ∧
  (2 ^ 31 < 3000000 → ∀ fuel, i915_gem_get_gtt_size demo_chip fuel 3000000 1 = None).
Proof. apply (gtt_size_exact demo_chip 3000000 1); [done|done|lia]. Defined.
