(* ===== verification/Swizzle.v ===== *)
(** * i915: bit 6 swizzling

    The rest of i915_gem_tiling.c: which bits of an address the memory controller mixes
    into bit 6, and the exchange of the halves of a page whose bit 17 changed.  The
    theorems: exchanging is address XOR 64; and what decides about it in this port is
    the data of the page, because page_to_phys reads the page. *)

From stdpp Require Import base option list.
From Stdlib Require Import ZArith Lia.
From S2P Require Import Prelude Fences.
#[local] Open Scope Z_scope.

(** ** Detection *)

(** i915_reg.h *)
Definition DCC : Z := 0x10200.
Definition DCC_ADDRESSING_MODE_SINGLE_CHANNEL : Z := 0.
Definition DCC_ADDRESSING_MODE_DUAL_CHANNEL_ASYMMETRIC : Z := 1.
Definition DCC_ADDRESSING_MODE_DUAL_CHANNEL_INTERLEAVED : Z := 2.
Definition DCC_ADDRESSING_MODE_MASK : Z := 3.
Definition DCC_CHANNEL_XOR_DISABLE : Z := 0x400.
Definition DCC_CHANNEL_XOR_BIT_17 : Z := 0x200.
Definition C0DRB3 : Z := 0x10206.
Definition C1DRB3 : Z := 0x10606.
Definition MCHBAR_MIRROR_BASE_SNB : Z := 0x140000.
Definition MAD_DIMM_C0 : Z := MCHBAR_MIRROR_BASE_SNB + 0x5004.
Definition MAD_DIMM_C1 : Z := MCHBAR_MIRROR_BASE_SNB + 0x5008.
Definition MAD_DIMM_B_SIZE_MASK : Z := 0xff00.
Definition MAD_DIMM_A_SIZE_MASK : Z := 0xff.

(** [mobile]: is_mobile of the chip; [read], [read16]: I915_READ and I915_READ16. *)
Definition i915_gem_detect_bit_6_swizzle (c : chip) (mobile : bool) (read read16 : Z → Z) : Z * Z :=
  let none := (I915_BIT_6_SWIZZLE_NONE, I915_BIT_6_SWIZZLE_NONE) in
  let base := (I915_BIT_6_SWIZZLE_9_10, I915_BIT_6_SWIZZLE_9) in
  let unknown := (I915_BIT_6_SWIZZLE_UNKNOWN, I915_BIT_6_SWIZZLE_UNKNOWN) in
  if is_valleyview c then none
  else if 6 <=? gen c then
    let mask := Z.lor MAD_DIMM_A_SIZE_MASK MAD_DIMM_B_SIZE_MASK in
    if Z.land (read MAD_DIMM_C0) mask =? Z.land (read MAD_DIMM_C1) mask then base else none
  else if gen c =? 5 then base
  else if IS_GEN2 c then none
  else if mobile || (IS_GEN3 c && negb (is_g33 c)) then
    let dcc := read DCC in
    let mode := Z.land dcc DCC_ADDRESSING_MODE_MASK in
    let swizzle :=
      if (mode =? DCC_ADDRESSING_MODE_SINGLE_CHANNEL) || (mode =? DCC_ADDRESSING_MODE_DUAL_CHANNEL_ASYMMETRIC) then none
      else if mode =? DCC_ADDRESSING_MODE_DUAL_CHANNEL_INTERLEAVED then
        if z2b (Z.land dcc DCC_CHANNEL_XOR_DISABLE) then base
        else if Z.land dcc DCC_CHANNEL_XOR_BIT_17 =? 0 then (I915_BIT_6_SWIZZLE_9_10_11, I915_BIT_6_SWIZZLE_9_11)
        else (I915_BIT_6_SWIZZLE_9_10_17, I915_BIT_6_SWIZZLE_9_17)
      else unknown in
    if dcc =? 0xffffffff then unknown else swizzle
  else if negb (read16 C0DRB3 =? read16 C1DRB3) then none else base.

(** ** Pages *)

Definition PAGE_BYTES : nat := 4096.

Definition read_bytes (p : list Z) (i n : nat) : list Z := take n (drop i p).
Definition write_bytes (p : list Z) (i : nat) (b : list Z) : list Z := take i p ++ b ++ drop (i + length b) p.

(** The body of the loop of i915_gem_swizzle_page and the loop from [i] on; 32 rounds
    take it through a page. *)
Definition swap_halves (p : list Z) (i : nat) : list Z :=
  let temp := read_bytes p i 64 in
  let p := write_bytes p i (read_bytes p (i + 64) 64) in
  write_bytes p (i + 64) temp.

Fixpoint swizzle_from (rounds : nat) (i : nat) (p : list Z) : list Z :=
  match rounds with
  | O => p
  | S rounds => if (i <? PAGE_BYTES)%nat then swizzle_from rounds (i + 128) (swap_halves p i) else p
  end.

Definition i915_gem_swizzle_page (p : list Z) : list Z := swizzle_from 32 0 p.

(** page_to_phys of drm_linux.h: the first word at the address it is given. *)
Definition page_to_phys (p : list Z) : Z :=
  match p with
  | b0 :: b1 :: b2 :: b3 :: _ => b0 + b1 * 2 ^ 8 + b2 * 2 ^ 16 + b3 * 2 ^ 24
  | _ => 0
  end.

(** The bit map: an array of 32-bit words (drm_atomic.h); [None] is an access outside. *)
Definition test_bit (b : Z) (m : list Z) : option bool :=
  w ← m !! Z.to_nat (Z.shiftr b 5); Some (z2b (Z.land w (Z.shiftl 1 (Z.land b 0x1f)))).
Definition set_bit (b : Z) (m : list Z) : option (list Z) :=
  w ← m !! Z.to_nat (Z.shiftr b 5); Some (<[Z.to_nat (Z.shiftr b 5) := Z.lor w (Z.shiftl 1 (Z.land b 0x1f))]> m).
Definition clear_bit (b : Z) (m : list Z) : option (list Z) :=
  w ← m !! Z.to_nat (Z.shiftr b 5); Some (<[Z.to_nat (Z.shiftr b 5) := Z.land w (Z.lnot (Z.shiftl 1 (Z.land b 0x1f)))]> m).

(** The pages of an object and its bit map. *)
Fixpoint swizzle_pages (m : list Z) (i : Z) (ps : list (list Z)) : option (list (list Z)) :=
  match ps with
  | [] => Some []
  | p :: ps =>
    old ← test_bit i m;
    let new_bit_17 := Z.shiftr (page_to_phys p) 17 in
    rest ← swizzle_pages m (i + 1) ps;
    Some ((if negb (Z.land new_bit_17 1 =? b2z old) then i915_gem_swizzle_page p else p) :: rest)
  end.

Definition i915_gem_object_do_bit_17_swizzle (bit_17 : option (list Z)) (ps : list (list Z)) : option (list (list Z)) :=
  match bit_17 with None => Some ps | Some m => swizzle_pages m 0 ps end.

Fixpoint save_bits (m : list Z) (i : Z) (ps : list (list Z)) : option (list Z) :=
  match ps with
  | [] => Some m
  | p :: ps => m ← (if z2b (Z.land (page_to_phys p) (Z.shiftl 1 17)) then set_bit i m else clear_bit i m); save_bits m (i + 1) ps
  end.

(** [fresh]: what kmalloc returns for a map that is not there yet. *)
Definition i915_gem_object_save_bit_17_swizzle (bit_17 fresh : option (list Z)) (ps : list (list Z)) : option (option (list Z)) :=
  match (match bit_17 with Some m => Some m | None => fresh end) with
  | None => Some None
  | Some m => m ← save_bits m 0 ps; Some (Some m)
  end.

(** The words of BITS_TO_LONGS, for a number of pages. *)
Definition bit_17_words (n : nat) : nat := (n + 63) / 64 * 2.

(** ** The exchange is XOR 64 *)

Lemma read_lookup p i n j : read_bytes p i n !! j = if decide (j < n)%nat then p !! (i + j)%nat else None.
Proof. unfold read_bytes. case_decide; [by rewrite lookup_take_lt, lookup_drop|by rewrite lookup_take_ge by lia]. Qed.

Lemma write_lookup p i b j : (i <= length p)%nat →
  write_bytes p i b !! j = if decide (i <= j < i + length b)%nat then b !! (j - i)%nat else p !! j.
Proof.
  intros Hi. unfold write_bytes. destruct (decide (j < i)%nat) as [Hj|Hj].
  - rewrite lookup_app_l by (rewrite length_take; lia). rewrite lookup_take_lt, decide_False by lia. done.
  - rewrite lookup_app_r by (rewrite length_take; lia). rewrite length_take, Nat.min_l by done. case_decide.
    + by rewrite lookup_app_l by lia.
    + rewrite lookup_app_r, lookup_drop by lia. f_equal. lia.
Qed.

Lemma read_length p i n : (i + n <= length p)%nat → length (read_bytes p i n) = n.
Proof. intros. unfold read_bytes. rewrite length_take, length_drop. lia. Qed.

Lemma write_length p i b : (i + length b <= length p)%nat → length (write_bytes p i b) = length p.
Proof. intros. unfold write_bytes. rewrite !length_app, length_take, length_drop. lia. Qed.

(** The other half of a pair of 64 bytes. *)
Definition partner (j : nat) : nat := if (j mod 128 <? 64)%nat then (j + 64)%nat else (j - 64)%nat.

Lemma partner_xor j : (j < PAGE_BYTES)%nat → Z.of_nat (partner j) = Z.lxor (Z.of_nat j) 64.
Proof.
  intros Hj. assert (Forall (λ z, Z.of_nat (partner (Z.to_nat z)) = Z.lxor z 64) (seqZ 0 4096)) as Hall by (apply (bool_decide_unpack _); vm_compute; exact I).
  rewrite Forall_forall in Hall. specialize (Hall (Z.of_nat j)). rewrite Nat2Z.id in Hall. apply Hall, elem_of_seqZ. unfold PAGE_BYTES in Hj. lia.
Qed.

Lemma swap_lookup p q j : (128 * q + 128 <= length p)%nat →
  swap_halves p (128 * q) !! j = if decide (128 * q <= j < 128 * q + 128)%nat then p !! partner j else p !! j.
Proof.
  intros Hq. unfold swap_halves. set (i := (128 * q)%nat) in *. pose proof (read_length p i 64 ltac:(lia)) as Hl. pose proof (read_length p (i + 64) 64 ltac:(lia)) as Hl'.
  rewrite write_lookup by (rewrite write_length; lia). rewrite Hl. destruct (decide (i + 64 <= j < i + 64 + 64)%nat) as [Hj|Hj].
  - rewrite read_lookup, !decide_True by lia. f_equal. unfold partner. replace (j mod 128)%nat with (j - i)%nat; [|apply (Nat.mod_unique j 128 q); unfold i in *; lia].
    rewrite (proj2 (Nat.ltb_ge _ _)) by lia. lia.
  - rewrite write_lookup, Hl' by lia. destruct (decide (i <= j < i + 64)%nat) as [Hj'|Hj'].
    + rewrite read_lookup, !decide_True by lia. f_equal. unfold partner. replace (j mod 128)%nat with (j - i)%nat; [|apply (Nat.mod_unique j 128 q); unfold i in *; lia].
      rewrite (proj2 (Nat.ltb_lt _ _)) by lia. lia.
    + by rewrite decide_False by lia.
Qed.

Lemma swap_length p i : (i + 128 <= length p)%nat → length (swap_halves p i) = length p.
Proof.
  intros. unfold swap_halves. rewrite write_length; rewrite ?write_length; rewrite ?read_length; lia.
Qed.

Lemma partner_same_pair j q : (128 * q <= j < 128 * q + 128 ↔ 128 * q <= partner j < 128 * q + 128)%nat.
Proof.
  pose proof (Nat.div_mod_eq j 128). pose proof (Nat.mod_upper_bound j 128). unfold partner. destruct (Nat.ltb_spec (j mod 128) 64); lia.
Qed.

Lemma swizzle_from_spec rounds : ∀ q p, (q + rounds = 32)%nat → length p = PAGE_BYTES →
  length (swizzle_from rounds (128 * q) p) = PAGE_BYTES ∧
  ∀ j, (j < PAGE_BYTES)%nat → swizzle_from rounds (128 * q) p !! j = if decide (j < 128 * q)%nat then p !! j else p !! partner j.
Proof.
  induction rounds as [|rounds IH]; intros q p Hq Hp; cbn [swizzle_from].
  { split; [done|]. intros j Hj. unfold PAGE_BYTES in *. by rewrite decide_True by lia. }
  unfold PAGE_BYTES in *. rewrite (proj2 (Nat.ltb_lt _ _)) by lia. replace (128 * q + 128)%nat with (128 * S q)%nat by lia.
  destruct (IH (S q) (swap_halves p (128 * q)) ltac:(lia)) as [Hlen Hl]; [by rewrite swap_length; lia|]. split; [done|].
  intros j Hj. rewrite (Hl j Hj). pose proof (partner_same_pair j q) as Hpp. destruct (decide (j < 128 * q)%nat) as [H1|H1].
  - rewrite decide_True by lia. rewrite swap_lookup by lia. by rewrite decide_False by lia.
  - rewrite !swap_lookup by lia. destruct (decide (j < 128 * S q)%nat) as [H2|H2].
    + by rewrite decide_True by lia.
    + by rewrite decide_False by lia.
Qed.

Lemma swizzle_lookup p j : length p = PAGE_BYTES → (j < PAGE_BYTES)%nat → i915_gem_swizzle_page p !! j = p !! partner j.
Proof. intros Hp Hj. destruct (swizzle_from_spec 32 0 p eq_refl Hp) as [_ Hl]. unfold i915_gem_swizzle_page. change 0%nat with (128 * 0)%nat at 1. rewrite Hl by done. by rewrite decide_False by lia. Qed.

Lemma swizzle_length p : length p = PAGE_BYTES → length (i915_gem_swizzle_page p) = PAGE_BYTES.
Proof. intros Hp. by destruct (swizzle_from_spec 32 0 p eq_refl Hp). Qed.

Lemma swizzle_involutive p : length p = PAGE_BYTES → i915_gem_swizzle_page (i915_gem_swizzle_page p) = p.
Proof.
  intros Hp. pose proof (swizzle_length p Hp) as Hp'. apply list_eq. intros j. destruct (decide (j < PAGE_BYTES)%nat) as [Hj|Hj].
  - rewrite swizzle_lookup by done. assert (partner j < PAGE_BYTES)%nat as Hj'.
    { unfold PAGE_BYTES in *. pose proof (Nat.div_mod_eq j 128). pose proof (Nat.mod_upper_bound j 128). unfold partner. destruct (Nat.ltb_spec (j mod 128) 64); lia. }
    rewrite swizzle_lookup by done. f_equal. apply Nat2Z.inj. rewrite !partner_xor by done. rewrite Z.lxor_assoc. change (Z.lxor 64 64) with 0. apply Z.lxor_0_r.
  - rewrite !lookup_ge_None_2; [done|lia|rewrite swizzle_length; lia].
Qed.

(** ** The bit map *)

Lemma land_bit w k : 0 <= k → z2b (Z.land w (Z.shiftl 1 k)) = Z.testbit w k.
Proof.
  intros Hk. rewrite Z.shiftl_1_l. unfold z2b. destruct (Z.testbit w k) eqn:Hb.
  - rewrite (proj2 (Z.eqb_neq _ _)); [done|]. intros H0. assert (Z.testbit (Z.land w (2 ^ k)) k = true) as Ht by by rewrite Z.land_spec, Hb, Z.pow2_bits_true.
    by rewrite H0, Z.bits_0 in Ht.
  - rewrite (proj2 (Z.eqb_eq _ _)); [done|]. apply Z.bits_inj'. intros i Hi. rewrite Z.land_spec, Z.bits_0. destruct (decide (i = k)) as [->|Hne]; [by rewrite Hb|].
    rewrite Z.pow2_bits_false by done. apply andb_false_r.
Qed.

(** The word and the bit of number [b]. *)
Lemma bit_index b : 0 <= b → b = 32 * Z.of_nat (Z.to_nat (Z.shiftr b 5)) + Z.land b 0x1f ∧ 0 <= Z.land b 0x1f < 32.
Proof.
  intros Hb. change 0x1f with (Z.ones 5). rewrite Z.land_ones, Z.shiftr_div_pow2 by lia. change (2 ^ 5) with 32.
  pose proof (Z.div_mod b 32 ltac:(lia)). pose proof (Z.mod_pos_bound b 32 ltac:(lia)). pose proof (Z.div_pos b 32 Hb ltac:(lia)). lia.
Qed.

Lemma test_bit_some b m : 0 <= b < 32 * Z.of_nat (length m) → ∃ w, m !! Z.to_nat (Z.shiftr b 5) = Some w ∧ test_bit b m = Some (Z.testbit w (Z.land b 0x1f)).
Proof.
  intros Hb. destruct (bit_index b) as [Heq Hr]; [lia|]. destruct (lookup_lt_is_Some_2 m (Z.to_nat (Z.shiftr b 5))) as [w Hw]; [lia|].
  exists w. split; [done|]. unfold test_bit. rewrite Hw. cbn [mbind option_bind]. by rewrite land_bit by lia.
Qed.

(** Setting or clearing bit [b] changes that bit only. *)
Lemma write_bit_run (v : bool) b m : 0 <= b < 32 * Z.of_nat (length m) →
  ∃ m', (if v then set_bit b m else clear_bit b m) = Some m' ∧ length m' = length m ∧
    ∀ b', 0 <= b' < 32 * Z.of_nat (length m) → test_bit b' m' = if decide (b' = b) then Some v else test_bit b' m.
Proof.
  intros Hb. destruct (test_bit_some b m Hb) as (w & Hw & _). destruct (bit_index b) as [Heq Hr]; [lia|].
  set (w' := if v then Z.lor w (Z.shiftl 1 (Z.land b 0x1f)) else Z.land w (Z.lnot (Z.shiftl 1 (Z.land b 0x1f)))).
  exists (<[Z.to_nat (Z.shiftr b 5) := w']> m). split; [unfold set_bit, clear_bit, w'; rewrite Hw; by destruct v|]. split; [by rewrite length_insert|].
  intros b' Hb'. destruct (bit_index b') as [Heq' Hr']; [lia|]. destruct (test_bit_some b' m Hb') as (w2 & Hw2 & Ht). unfold test_bit at 1.
  destruct (decide (Z.to_nat (Z.shiftr b' 5) = Z.to_nat (Z.shiftr b 5))) as [He|Hne].
  - rewrite He, list_lookup_insert_eq by (by apply lookup_lt_Some in Hw). cbn [mbind option_bind]. rewrite land_bit by lia. rewrite Ht. rewrite He in Hw2. assert (w2 = w) as -> by congruence.
    assert (∀ k, Z.testbit w' k = if decide (k = Z.land b 0x1f) then v else Z.testbit w k) as Hbits.
    { intros k. unfold w'. rewrite Z.shiftl_1_l. destruct (decide (k < 0)); [rewrite !Z.testbit_neg_r by done; by rewrite decide_False by lia|]. destruct v.
      - rewrite Z.lor_spec. case_decide as Hk; [rewrite Hk, Z.pow2_bits_true by lia; apply orb_true_r|rewrite Z.pow2_bits_false by done; apply orb_false_r].
      - rewrite Z.land_spec, Z.lnot_spec by lia. case_decide as Hk; [rewrite Hk, Z.pow2_bits_true by lia; apply andb_false_r|rewrite Z.pow2_bits_false by done; apply andb_true_r]. }
    rewrite Hbits. destruct (decide (b' = b)) as [->|Hnb]; [by rewrite decide_True|]. rewrite decide_False; [done|lia].
  - rewrite list_lookup_insert_ne by done. rewrite Hw2. cbn [mbind option_bind]. rewrite land_bit by lia. rewrite decide_False; [by rewrite Ht|]. intros ->. done.
Qed.

(** Bit 17 of the data of a page. *)
Definition data_bit_17 (p : list Z) : bool := Z.testbit (page_to_phys p) 17.

Lemma save_bits_run ps : ∀ m i, 0 <= i → i + Z.of_nat (length ps) <= 32 * Z.of_nat (length m) →
  ∃ m', save_bits m i ps = Some m' ∧ length m' = length m ∧ (∀ b, 0 <= b < i → test_bit b m' = test_bit b m) ∧
    ∀ k p, ps !! k = Some p → test_bit (i + Z.of_nat k) m' = Some (data_bit_17 p).
Proof.
  induction ps as [|p ps IH]; intros m i Hi Hm; cbn [save_bits length] in *.
  { exists m. split; [done|]. split; [done|]. by split. }
  rewrite land_bit by lia. fold (data_bit_17 p). destruct (write_bit_run (data_bit_17 p) i m ltac:(lia)) as (m1 & -> & Hl1 & Ht1). cbn [mbind option_bind].
  destruct (IH m1 (i + 1) ltac:(lia) ltac:(lia)) as (m' & Hrun & Hl & Hlow & Hk). exists m'. split; [done|]. split; [congruence|]. split.
  - intros b Hb. rewrite Hlow by lia. rewrite Ht1 by lia. by rewrite decide_False by lia.
  - intros k q Hq. destruct k as [|k]; cbn in Hq.
    + injection Hq as <-. rewrite Hlow by lia. rewrite Ht1 by lia. by rewrite decide_True by lia.
    + replace (i + Z.of_nat (S k)) with (i + 1 + Z.of_nat k) by lia. by apply Hk.
Qed.

(** The pages after the exchange, given the pages whose bits were saved. *)
Definition exchanged (p p' : list Z) : list Z := if eqb (data_bit_17 p) (data_bit_17 p') then p' else i915_gem_swizzle_page p'.

Lemma swizzle_pages_run m ps : ∀ ps' i, length ps' = length ps → (∀ k p, ps !! k = Some p → test_bit (i + Z.of_nat k) m = Some (data_bit_17 p)) →
  swizzle_pages m i ps' = Some (zip_with exchanged ps ps').
Proof.
  induction ps as [|p ps IH]; intros [|p' ps'] i Hl Ht; cbn [swizzle_pages zip_with length] in *; try done.
  specialize (Ht 0%nat p eq_refl) as Ht0. rewrite Z.add_0_r in Ht0. rewrite Ht0. cbn [mbind option_bind].
  rewrite (IH ps' (i + 1)); [|lia|]; cycle 1.
  { intros k q Hq. replace (i + 1 + Z.of_nat k) with (i + Z.of_nat (S k)) by lia. by apply Ht. }
  cbn [mbind option_bind]. do 2 f_equal. unfold exchanged. replace (Z.land (Z.shiftr (page_to_phys p') 17) 1) with (b2z (data_bit_17 p')).
  - generalize (i915_gem_swizzle_page p') (data_bit_17 p) (data_bit_17 p'). by intros x [] [].
  - unfold data_bit_17. change 1 with (Z.ones 1). rewrite Z.land_ones by lia. change (2 ^ 1) with 2. rewrite <- Z.bit0_mod, Z.shiftr_spec by lia. by destruct (Z.testbit _ _).
Qed.

(** ** Theorems *)

(** C30 (swizzle_page_exact): i915_gem_swizzle_page puts at each address of a page what was
    at the address with bit 6 changed, keeps the size of the page, and is its own
    inverse. *)
Theorem swizzle_page_exact p : length p = PAGE_BYTES →
  length (i915_gem_swizzle_page p) = PAGE_BYTES ∧
  (∀ j, 0 <= j < 4096 → i915_gem_swizzle_page p !! Z.to_nat j = p !! Z.to_nat (Z.lxor j 64)) ∧
  i915_gem_swizzle_page (i915_gem_swizzle_page p) = p.
Proof.
  intros Hp. split; [by apply swizzle_length|]. split; [|by apply swizzle_involutive].
  intros j Hj. rewrite swizzle_lookup; [|done|unfold PAGE_BYTES; lia]. f_equal. apply Nat2Z.inj.
  rewrite partner_xor by (unfold PAGE_BYTES; lia). rewrite (Z2Nat.id j) by lia. rewrite Z2Nat.id; [done|]. apply Z.lxor_nonneg. lia.
Qed.

(** What decides in this port whether the halves of a page are
    exchanged is not where the page is but what it holds: after the bits were saved for
    pages [ps], the exchange on the same pages, now with the data [ps'], swaps exactly
    those in whose first word bit 17 has changed. *)
Theorem bit_17_reads_data ps ps' fresh : length ps' = length ps → length fresh = bit_17_words (length ps) →
  ∃ m, i915_gem_object_save_bit_17_swizzle None (Some fresh) ps = Some (Some m) ∧
    i915_gem_object_do_bit_17_swizzle (Some m) ps' = Some (zip_with exchanged ps ps').
Proof.
  intros Hl Hf. unfold i915_gem_object_save_bit_17_swizzle, i915_gem_object_do_bit_17_swizzle.
  destruct (save_bits_run ps fresh 0) as (m & -> & _ & _ & Ht); [done| |].
  - rewrite Hf. unfold bit_17_words. pose proof (Nat.div_mod_eq (length ps + 63) 64). pose proof (Nat.mod_upper_bound (length ps + 63) 64). lia.
  - exists m. split; [done|]. by apply swizzle_pages_run.
Qed.

(** ** Witnesses *)

Definition demo_page (b : Z) : list Z := [0; 0; b; 0] ++ replicate 4092 7.

Lemma swizzle_page_exact_witness :
  length (i915_gem_swizzle_page (demo_page 2)) = PAGE_BYTES ∧
  (∀ j, 0 <= j < 4096 → i915_gem_swizzle_page (demo_page 2) !! Z.to_nat j = demo_page 2 !! Z.to_nat (Z.lxor j 64)) ∧
  i915_gem_swizzle_page (i915_gem_swizzle_page (demo_page 2)) = demo_page 2.
Proof. apply (swizzle_page_exact (demo_page 2)). by vm_compute. Defined.

(** A page whose first word was written between: it is exchanged although it stayed. *)
Lemma bit_17_reads_data_witness :
  exchanged (demo_page 0) (demo_page 2) = i915_gem_swizzle_page (demo_page 2) ∧
  ∃ m, i915_gem_object_save_bit_17_swizzle None (Some [0xdead; 0xbeef]) [demo_page 0; demo_page 2] = Some (Some m) ∧
    i915_gem_object_do_bit_17_swizzle (Some m) [demo_page 2; demo_page 2] = Some (zip_with exchanged [demo_page 0; demo_page 2] [demo_page 2; demo_page 2]).
Proof. split; [by vm_compute|]. by apply (bit_17_reads_data [demo_page 0; demo_page 2] [demo_page 2; demo_page 2] [0xdead; 0xbeef]). Defined.
