(* ===== verification/Pll.v ===== *)
(** * i915: the clock of a pipe

    The search for the divisors of a PLL, from intel_display.c: the limits of each
    generation and output, the clock equations, the test of a set of divisors and the
    four searches, which differ in the order and in what they prefer.  [abs] is the
    macro of drm_linux.h, whose missing parentheses decide what the searches find.

    The theorems say which divisors a search returns, exactly; the cost of a set of
    divisors is what the macro makes of the distance of the clocks. *)

From stdpp Require Import base option list.
From Stdlib Require Import ZArith Lia.
From S2P Require Import Prelude Fences.
#[local] Open Scope Z_scope.

(** ** Limits *)

Record intel_range_t := range { rmin : Z; rmax : Z }.
Record intel_p2_t := mk_p2 { dot_limit : Z; p2_slow : Z; p2_fast : Z }.
Record intel_limit_t := mk_limit {
  l_dot : intel_range_t; l_vco : intel_range_t; l_n : intel_range_t; l_m : intel_range_t; l_m1 : intel_range_t;
  l_m2 : intel_range_t; l_p : intel_range_t; l_p1 : intel_range_t; l_p2 : intel_p2_t;
}.

(** The tables, in the order of intel_display.c. *)
Definition intel_limits_i8xx_dvo : intel_limit_t :=
  mk_limit (range 25000 350000) (range 930000 1400000) (range 3 16) (range 96 140) (range 18 26) (range 6 16) (range 4 128) (range 2 33) (mk_p2 165000 4 2).
Definition intel_limits_i8xx_lvds : intel_limit_t :=
  mk_limit (range 25000 350000) (range 930000 1400000) (range 3 16) (range 96 140) (range 18 26) (range 6 16) (range 4 128) (range 1 6) (mk_p2 165000 14 7).
Definition intel_limits_i9xx_sdvo : intel_limit_t :=
  mk_limit (range 20000 400000) (range 1400000 2800000) (range 1 6) (range 70 120) (range 8 18) (range 3 7) (range 5 80) (range 1 8) (mk_p2 200000 10 5).
Definition intel_limits_i9xx_lvds : intel_limit_t :=
  mk_limit (range 20000 400000) (range 1400000 2800000) (range 1 6) (range 70 120) (range 8 18) (range 3 7) (range 7 98) (range 1 8) (mk_p2 112000 14 7).
Definition intel_limits_g4x_sdvo : intel_limit_t :=
  mk_limit (range 25000 270000) (range 1750000 3500000) (range 1 4) (range 104 138) (range 17 23) (range 5 11) (range 10 30) (range 1 3) (mk_p2 270000 10 10).
Definition intel_limits_g4x_hdmi : intel_limit_t :=
  mk_limit (range 22000 400000) (range 1750000 3500000) (range 2 4) (range 104 138) (range 16 23) (range 5 11) (range 5 80) (range 1 8) (mk_p2 165000 10 5).
Definition intel_limits_g4x_single_channel_lvds : intel_limit_t :=
  mk_limit (range 20000 115000) (range 1750000 3500000) (range 1 3) (range 104 138) (range 17 23) (range 5 11) (range 28 112) (range 2 8) (mk_p2 0 14 14).
Definition intel_limits_g4x_dual_channel_lvds : intel_limit_t :=
  mk_limit (range 80000 224000) (range 1750000 3500000) (range 1 3) (range 104 138) (range 17 23) (range 5 11) (range 14 42) (range 2 6) (mk_p2 0 7 7).
Definition intel_limits_pineview_sdvo : intel_limit_t :=
  mk_limit (range 20000 400000) (range 1700000 3500000) (range 3 6) (range 2 256) (range 0 0) (range 0 254) (range 5 80) (range 1 8) (mk_p2 200000 10 5).
Definition intel_limits_pineview_lvds : intel_limit_t :=
  mk_limit (range 20000 400000) (range 1700000 3500000) (range 3 6) (range 2 256) (range 0 0) (range 0 254) (range 7 112) (range 1 8) (mk_p2 112000 14 14).
Definition intel_limits_ironlake_dac : intel_limit_t :=
  mk_limit (range 25000 350000) (range 1760000 3510000) (range 2 5) (range 79 127) (range 12 22) (range 5 9) (range 5 80) (range 1 8) (mk_p2 225000 10 5).
Definition intel_limits_ironlake_single_lvds : intel_limit_t :=
  mk_limit (range 25000 350000) (range 1760000 3510000) (range 1 3) (range 79 118) (range 12 22) (range 5 9) (range 28 112) (range 2 8) (mk_p2 225000 14 14).
Definition intel_limits_ironlake_dual_lvds : intel_limit_t :=
  mk_limit (range 25000 350000) (range 1760000 3510000) (range 1 3) (range 79 127) (range 12 22) (range 5 9) (range 14 56) (range 2 8) (mk_p2 225000 7 7).
Definition intel_limits_ironlake_single_lvds_100m : intel_limit_t :=
  mk_limit (range 25000 350000) (range 1760000 3510000) (range 1 2) (range 79 126) (range 12 22) (range 5 9) (range 28 112) (range 2 8) (mk_p2 225000 14 14).
Definition intel_limits_ironlake_dual_lvds_100m : intel_limit_t :=
  mk_limit (range 25000 350000) (range 1760000 3510000) (range 1 3) (range 79 126) (range 12 22) (range 5 9) (range 14 42) (range 2 6) (mk_p2 225000 7 7).
Definition intel_limits_vlv_dac : intel_limit_t :=
  mk_limit (range 25000 270000) (range 4000000 6000000) (range 1 7) (range 22 450) (range 2 3) (range 11 156) (range 10 30) (range 1 3) (mk_p2 270000 2 20).
Definition intel_limits_vlv_hdmi : intel_limit_t :=
  mk_limit (range 25000 270000) (range 4000000 6000000) (range 1 7) (range 60 300) (range 2 3) (range 11 156) (range 10 30) (range 2 3) (mk_p2 270000 2 20).
Definition intel_limits_vlv_dp : intel_limit_t :=
  mk_limit (range 25000 270000) (range 4000000 6000000) (range 1 7) (range 22 450) (range 2 3) (range 11 156) (range 10 30) (range 1 3) (mk_p2 270000 2 20).

(** intel_drv.h *)
Definition INTEL_OUTPUT_ANALOG : Z := 1.
Definition INTEL_OUTPUT_SDVO : Z := 3.
Definition INTEL_OUTPUT_LVDS : Z := 4.
Definition INTEL_OUTPUT_HDMI : Z := 6.
Definition INTEL_OUTPUT_DISPLAYPORT : Z := 7.

(** What the clock code asks of the device ([info], [is_pineview], [is_g4x] and [pch]:
    intel_device_info and pch_type) and of its configuration: whether the LVDS port has
    two links, whether it uses a spread-spectrum reference and of which frequency, and
    the clock of the panel when nothing moves. *)
Record display_dev := mk_display {
  info : chip; is_pineview : bool; is_g4x : bool; pch_split : bool; dual_link : bool;
  panel_use_ssc : bool; lvds_ssc_freq : Z; lvds_downclock_avail : bool; lvds_downclock : Z;
}.

(** The encoders of a pipe, by type. *)
Definition intel_pipe_has_type (crtc : list Z) (type : Z) : bool := existsb (λ t, t =? type) crtc.

Definition intel_ironlake_limit (dev : display_dev) (crtc : list Z) (refclk : Z) : intel_limit_t :=
  if intel_pipe_has_type crtc INTEL_OUTPUT_LVDS then
    if dual_link dev then if refclk =? 100000 then intel_limits_ironlake_dual_lvds_100m else intel_limits_ironlake_dual_lvds
    else if refclk =? 100000 then intel_limits_ironlake_single_lvds_100m else intel_limits_ironlake_single_lvds
  else intel_limits_ironlake_dac.

Definition intel_g4x_limit (dev : display_dev) (crtc : list Z) : intel_limit_t :=
  if intel_pipe_has_type crtc INTEL_OUTPUT_LVDS then
    if dual_link dev then intel_limits_g4x_dual_channel_lvds else intel_limits_g4x_single_channel_lvds
  else if intel_pipe_has_type crtc INTEL_OUTPUT_HDMI || intel_pipe_has_type crtc INTEL_OUTPUT_ANALOG then intel_limits_g4x_hdmi
  else if intel_pipe_has_type crtc INTEL_OUTPUT_SDVO then intel_limits_g4x_sdvo
  else intel_limits_i9xx_sdvo.

Definition intel_limit (dev : display_dev) (crtc : list Z) (refclk : Z) : intel_limit_t :=
  let lvds := intel_pipe_has_type crtc INTEL_OUTPUT_LVDS in
  if pch_split dev then intel_ironlake_limit dev crtc refclk
  else if is_g4x dev then intel_g4x_limit dev crtc
  else if is_pineview dev then if lvds then intel_limits_pineview_lvds else intel_limits_pineview_sdvo
  else if is_valleyview (info dev) then
    if intel_pipe_has_type crtc INTEL_OUTPUT_ANALOG then intel_limits_vlv_dac
    else if intel_pipe_has_type crtc INTEL_OUTPUT_HDMI then intel_limits_vlv_hdmi else intel_limits_vlv_dp
  else if negb (IS_GEN2 (info dev)) then if lvds then intel_limits_i9xx_lvds else intel_limits_i9xx_sdvo
  else if lvds then intel_limits_i8xx_lvds else intel_limits_i8xx_dvo.

(** ** Clocks *)

(** [struct dpll]: the divisors and what follows from them. *)
Record dpll := mk_dpll { c_n : Z; c_m1 : Z; c_m2 : Z; c_p1 : Z; c_p2 : Z; c_dot : Z; c_vco : Z; c_m : Z; c_p : Z }.
Definition dpll0 : dpll := mk_dpll 0 0 0 0 0 0 0 0 0.

(** [a / b] of two ints; [None] is a division by zero. *)
Definition cdiv (a b : Z) : option Z := if b =? 0 then None else Some (i32 (Z.quot a b)).

Definition with_clock (k : dpll) (m p vco dot : Z) : dpll := mk_dpll (c_n k) (c_m1 k) (c_m2 k) (c_p1 k) (c_p2 k) dot vco m p.

Definition pineview_clock (refclk : Z) (k : dpll) : option dpll :=
  let m := i32 (c_m2 k + 2) in
  let p := i32 (c_p1 k * c_p2 k) in
  vco ← cdiv (i32 (refclk * m)) (c_n k);
  dot ← cdiv vco p;
  Some (with_clock k m p vco dot).

Definition i9xx_dpll_compute_m (k : dpll) : Z := u32 (5 * (c_m1 k + 2) + (c_m2 k + 2)).

Definition i9xx_clock (refclk : Z) (k : dpll) : option dpll :=
  let m := i32 (i9xx_dpll_compute_m k) in
  let p := i32 (c_p1 k * c_p2 k) in
  vco ← cdiv (i32 (refclk * m)) (i32 (c_n k + 2));
  dot ← cdiv vco p;
  Some (with_clock k m p vco dot).

Definition outside (r : intel_range_t) (x : Z) : bool := (x <? rmin r) || (rmax r <? x).

Definition intel_PLL_is_valid (pineview : bool) (limit : intel_limit_t) (clock : dpll) : bool :=
  if outside (l_p1 limit) (c_p1 clock) then false
  else if outside (l_p limit) (c_p clock) then false
  else if outside (l_m2 limit) (c_m2 clock) then false
  else if outside (l_m1 limit) (c_m1 clock) then false
  else if (c_m1 clock <=? c_m2 clock) && negb pineview then false
  else if outside (l_m limit) (c_m clock) then false
  else if outside (l_n limit) (c_n clock) then false
  else if outside (l_vco limit) (c_vco clock) then false
  else if outside (l_dot limit) (c_dot clock) then false
  else true.

(** [abs(a - b)] after expansion: [((a - b < 0) ? -a - b : a - b)]. *)
Definition abs_difference (a b : Z) : Z := if i32 (a - b) <? 0 then i32 (i32 (- a) - b) else i32 (a - b).

(** ** The searches *)

(** Their local variables that outlive a round: the divisors of the round are the
    counters of the loops. *)
Record search := mk_search { best_clock : dpll; err : Z; max_n : Z; found : bool }.

(** [for (x = ...; go; ...) body] with the values the counter takes if nothing stops
    the loop. *)
Fixpoint for_while (l : list Z) (go : Z → search → bool) (body : Z → M search unit) : M search unit :=
  match l with
  | [] => mret tt
  | x :: l => s ← get; if go x s then body x;; for_while l go body else mret tt
  end.

Definition up (r : intel_range_t) : list Z := seqZ (rmin r) (rmax r - rmin r + 1).
Definition down (r : intel_range_t) : list Z := reverse (up r).

(** The choice of p2 at the top of the first three searches. *)
Definition choose_p2 (dev : display_dev) (crtc : list Z) (limit : intel_limit_t) (target : Z) : Z :=
  if intel_pipe_has_type crtc INTEL_OUTPUT_LVDS then if dual_link dev then p2_fast (l_p2 limit) else p2_slow (l_p2 limit)
  else if target <? dot_limit (l_p2 limit) then p2_slow (l_p2 limit) else p2_fast (l_p2 limit).

(** The body of the innermost loops: the candidate [k], which becomes the best clock if it is valid, has
    the post divider of [match_clock] and its error is below [err]. *)
Definition p_differs (match_clock : option dpll) (clock : dpll) : bool :=
  match match_clock with Some mc => negb (c_p clock =? c_p mc) | None => false end.

Definition try_clock (clock_of : dpll → option dpll) (pineview : bool) (limit : intel_limit_t) (target : Z) (match_clock : option dpll)
    (take : dpll → Z → search → search) (k : dpll) : M search unit :=
  match clock_of k with
  | None => fault
  | Some clock =>
      if negb (intel_PLL_is_valid pineview limit clock) then mret tt
      else if p_differs match_clock clock then mret tt
      else
        let this_err := abs_difference (c_dot clock) target in
        s ← get; when (this_err <? err s) (modify (take clock this_err))
  end.

Definition divisors (n m1 m2 p1 p2 : Z) : dpll := mk_dpll n m1 m2 p1 p2 0 0 0 0.

Definition take_best (clock : dpll) (e : Z) (s : search) : search := mk_search clock e (max_n s) (found s).
Definition take_g4x (clock : dpll) (e : Z) (s : search) : search := mk_search clock e (c_n clock) true.

Definition i9xx_find_best_dpll (dev : display_dev) (limit : intel_limit_t) (crtc : list Z) (target refclk : Z) (match_clock : option dpll) : option (bool * dpll) :=
  let p2 := choose_p2 dev crtc limit target in
  r ← for_each (up (l_m1 limit)) (λ m1, for_while (up (l_m2 limit)) (λ m2 _, negb (m1 <=? m2)) (λ m2,
        for_each (up (l_n limit)) (λ n, for_each (up (l_p1 limit)) (λ p1,
          try_clock (i9xx_clock refclk) (is_pineview dev) limit target match_clock take_best (divisors n m1 m2 p1 p2)))))
      (mk_search dpll0 target 0 false);
  Some (negb (err r.2 =? target), best_clock r.2).

Definition pnv_find_best_dpll (dev : display_dev) (limit : intel_limit_t) (crtc : list Z) (target refclk : Z) (match_clock : option dpll) : option (bool * dpll) :=
  let p2 := choose_p2 dev crtc limit target in
  r ← for_each (up (l_m1 limit)) (λ m1, for_each (up (l_m2 limit)) (λ m2,
        for_each (up (l_n limit)) (λ n, for_each (up (l_p1 limit)) (λ p1,
          try_clock (pineview_clock refclk) (is_pineview dev) limit target match_clock take_best (divisors n m1 m2 p1 p2)))))
      (mk_search dpll0 target 0 false);
  Some (negb (err r.2 =? target), best_clock r.2).

Definition g4x_find_best_dpll (dev : display_dev) (limit : intel_limit_t) (crtc : list Z) (target refclk : Z) (match_clock : option dpll) : option (bool * dpll) :=
  let p2 := choose_p2 dev crtc limit target in
  let err_most := i32 (Z.shiftr target 8 + Z.shiftr target 9) in
  r ← for_while (up (l_n limit)) (λ n s, n <=? max_n s) (λ n,
        for_each (down (l_m1 limit)) (λ m1, for_each (down (l_m2 limit)) (λ m2, for_each (down (l_p1 limit)) (λ p1,
          try_clock (i9xx_clock refclk) (is_pineview dev) limit target None take_g4x (divisors n m1 m2 p1 p2)))))
      (mk_search dpll0 err_most (rmax (l_n limit)) false);
  Some (found r.2, best_clock r.2).

(** The search of Valleyview counts in unsigned ints ([bestppm] in an unsigned long). *)
Record vlv_search := mk_vlv { bestn : Z; bestm1 : Z; bestm2 : Z; bestp1 : Z; bestp2 : Z; bestppm : Z }.

Definition udiv32 (a b : Z) : option Z := if b =? 0 then None else Some (a / b).

(** The values of p2: the loop and its body both count down. *)
Fixpoint vlv_p2 (rounds : nat) (p2 : Z) : list Z :=
  match rounds with
  | O => []
  | S rounds => if 0 <? p2 then let p2 := if 10 <? p2 then p2 - 1 else p2 in p2 :: vlv_p2 rounds (p2 - 1) else []
  end.

Definition vlv_round (limit : intel_limit_t) (refclk fastclk updrate n p1 p2 m1 : Z) (s : vlv_search) : option vlv_search :=
  let p := u32 (p1 * p2) in
  q ← udiv32 (u32 (u32 (fastclk * p) * n)) m1;
  m2 ← udiv32 (u32 (u32 (2 * q) + refclk)) (u32 (2 * refclk));
  let m := u32 (m1 * m2) in
  let vco := u32 (updrate * m) in
  if (rmin (l_vco limit) <=? vco) && (vco <? rmax (l_vco limit)) then
    vp ← udiv32 vco p;
    ppm ← udiv32 (u32 (1000000 * u32 (vp - fastclk))) fastclk;
    let absppm := if 0 <? ppm then ppm else u64 (- ppm) in
    let close := (absppm <? 100) && (u32 (bestp1 s * bestp2 s) <? u32 (p1 * p2)) in
    let bestppm1 := if close then 0 else bestppm s in
    let better := absppm <? u64 (bestppm1 - 10) in
    let bestppm2 := if better then absppm else bestppm1 in
    Some (if close || better then mk_vlv n m1 m2 p1 p2 bestppm2 else s)
  else Some s.

Fixpoint fold_opt {X S} (f : X → S → option S) (l : list X) (s : S) : option S :=
  match l with [] => Some s | x :: l => s' ← f x s; fold_opt f l s' end.

Definition vlv_search0 : vlv_search := mk_vlv 0 0 0 0 0 1000000.

Definition vlv_find_best_dpll (limit : intel_limit_t) (target refclk : Z) : option (bool * dpll) :=
  let fastclk := u32 (Z.quot (i32 (target * 1000)) 200) in
  let last_n := Z.quot refclk 19200 in
  s ← fold_opt (λ n s,
        updrate ← udiv32 refclk n;
        fold_opt (λ p1, fold_opt (λ p2, fold_opt (λ m1, vlv_round limit refclk fastclk updrate n p1 p2 m1) (up (l_m1 limit)))
          (vlv_p2 (Z.to_nat (p2_fast (l_p2 limit) + 1)) (p2_fast (l_p2 limit) + 1)))
          (reverse (seqZ (rmin (l_p1 limit) + 1) (rmax (l_p1 limit) - rmin (l_p1 limit)))) s)
      (seqZ (rmin (l_n limit)) (last_n - rmin (l_n limit) + 1)) vlv_search0;
  Some (true, mk_dpll (bestn s) (bestm1 s) (bestm2 s) (bestp1 s) (bestp2 s) 0 0 0 0).

(** intel_init_display. *)
Definition find_dpll (dev : display_dev) (limit : intel_limit_t) (crtc : list Z) (target refclk : Z) (match_clock : option dpll) : option (bool * dpll) :=
  if pch_split dev || is_g4x dev then g4x_find_best_dpll dev limit crtc target refclk match_clock
  else if is_valleyview (info dev) then vlv_find_best_dpll limit target refclk
  else if is_pineview dev then pnv_find_best_dpll dev limit crtc target refclk match_clock
  else i9xx_find_best_dpll dev limit crtc target refclk match_clock.

(** ** The clock of a mode *)

Definition vlv_get_refclk : Z := 100000.

Definition i9xx_get_refclk (dev : display_dev) (crtc : list Z) (num_connectors : Z) : Z :=
  if is_valleyview (info dev) then vlv_get_refclk
  else if intel_pipe_has_type crtc INTEL_OUTPUT_LVDS && panel_use_ssc dev && (num_connectors <? 2) then i32 (lvds_ssc_freq dev * 1000)
  else if negb (IS_GEN2 (info dev)) then 96000 else 48000.

Definition ironlake_get_refclk (dev : display_dev) (crtc : list Z) : Z :=
  if intel_pipe_has_type crtc INTEL_OUTPUT_LVDS && panel_use_ssc dev && (Z.of_nat (length crtc) <? 2) then i32 (lvds_ssc_freq dev * 1000)
  else 120000.

(** The reduced clock of ironlake_compute_clocks and i9xx_crtc_mode_set. *)
Definition reduced (dev : display_dev) (limit : intel_limit_t) (crtc : list Z) (refclk : Z) (clock : dpll) : option (option dpll) :=
  if intel_pipe_has_type crtc INTEL_OUTPUT_LVDS && lvds_downclock_avail dev then
    r ← find_dpll dev limit crtc (lvds_downclock dev) refclk (Some clock);
    Some (if r.1 : bool then Some r.2 else None)
  else Some None.

(** [None] inside: the false of the C function. *)
Definition ironlake_compute_clocks (dev : display_dev) (crtc : list Z) (port_clock : Z) : option (option (dpll * option dpll)) :=
  let refclk := ironlake_get_refclk dev crtc in
  let limit := intel_limit dev crtc refclk in
  r ← find_dpll dev limit crtc port_clock refclk None;
  if r.1 : bool then red ← reduced dev limit crtc refclk r.2; Some (Some (r.2, red)) else Some None.

(** The part of i9xx_crtc_mode_set before the registers; [clock_set]: the encoder has
    chosen the divisors [config_dpll] itself.  [inl]: an error. *)
Definition i9xx_mode_clocks (dev : display_dev) (crtc : list Z) (port_clock : Z) (clock_set : bool) (config_dpll : dpll) : option (Z + dpll * option dpll) :=
  let refclk := i9xx_get_refclk dev crtc (Z.of_nat (length crtc)) in
  let limit := intel_limit dev crtc refclk in
  r ← find_dpll dev limit crtc port_clock refclk None;
  if negb r.1 && negb clock_set then Some (inl (- EINVAL))
  else
    red ← reduced dev limit crtc refclk r.2;
    Some (inr (if clock_set then config_dpll else mk_dpll (c_n r.2) (c_m1 r.2) (c_m2 r.2) (c_p1 r.2) (c_p2 r.2) (c_dot config_dpll) (c_vco config_dpll) (c_m config_dpll) (c_p config_dpll), red)).

(** ** The tables *)

Definition all_limits : list intel_limit_t := [
  intel_limits_i8xx_dvo; intel_limits_i8xx_lvds; intel_limits_i9xx_sdvo; intel_limits_i9xx_lvds; intel_limits_g4x_sdvo; intel_limits_g4x_hdmi;
  intel_limits_g4x_single_channel_lvds; intel_limits_g4x_dual_channel_lvds; intel_limits_pineview_sdvo; intel_limits_pineview_lvds;
  intel_limits_ironlake_dac; intel_limits_ironlake_single_lvds; intel_limits_ironlake_dual_lvds; intel_limits_ironlake_single_lvds_100m;
  intel_limits_ironlake_dual_lvds_100m; intel_limits_vlv_dac; intel_limits_vlv_hdmi; intel_limits_vlv_dp ].

Definition between (lo hi : Z) (r : intel_range_t) : bool := (lo <=? rmin r) && (rmin r <=? rmax r) && (rmax r <=? hi).

(** What the searches need of a table: no divisor can be 0 and nothing leaves an int. *)
Definition limit_ok (l : intel_limit_t) : bool :=
  between 1 16 (l_n l) && between 0 26 (l_m1 l) && between 0 254 (l_m2 l) && between 1 33 (l_p1 l) && between 1 400000 (l_dot l) &&
  (1 <=? p2_slow (l_p2 l)) && (p2_slow (l_p2 l) <=? 20) && (1 <=? p2_fast (l_p2 l)) && (p2_fast (l_p2 l) <=? 20).

Lemma intel_limit_in dev crtc refclk : intel_limit dev crtc refclk ∈ all_limits.
Proof.
  unfold intel_limit, intel_ironlake_limit, intel_g4x_limit. repeat case_match; unfold all_limits; repeat first [by left|right].
Qed.

Lemma limits_ok l : l ∈ all_limits → limit_ok l = true.
Proof.
  assert (Forall (λ l, limit_ok l = true) all_limits) as H by (apply (bool_decide_unpack _); vm_compute; exact I).
  rewrite Forall_forall in H. apply H.
Qed.

Definition within (r : intel_range_t) (x : Z) : Prop := rmin r <= x <= rmax r.

Lemma outside_within r x : outside r x = false ↔ within r x.
Proof. unfold outside, within. rewrite orb_false_iff, !Z.ltb_ge. lia. Qed.

Lemma between_within lo hi r x : between lo hi r = true → within r x → lo <= x <= hi.
Proof. unfold between, within. rewrite !andb_true_iff, !Z.leb_le. lia. Qed.

Lemma elem_of_up r x : x ∈ up r ↔ within r x.
Proof. unfold up, within. rewrite elem_of_seqZ. lia. Qed.

Lemma elem_of_down r x : x ∈ down r ↔ within r x.
Proof. unfold down. rewrite elem_of_reverse. apply elem_of_up. Qed.

(** ** What a search looks for *)

(** A clock whose derived values follow from its divisors without overflow and that
    the tables, the outputs and [match_clock] allow: m/(n+2) for most chips, with one
    divider m2 and n itself on Pineview. *)
Record fits (pineview : bool) (limit : intel_limit_t) (refclk p2 : Z) (match_clock : option dpll) (c : dpll) : Prop := {
  fits_p2 : c_p2 c = p2;
  fits_m_eq : c_m c = if pineview then c_m2 c + 2 else 5 * (c_m1 c + 2) + (c_m2 c + 2);
  fits_p_eq : c_p c = c_p1 c * p2;
  fits_vco_eq : c_vco c = refclk * c_m c / (if pineview then c_n c else c_n c + 2);
  fits_dot_eq : c_dot c = c_vco c / c_p c;
  fits_order : pineview = false → c_m2 c < c_m1 c;
  fits_n : within (l_n limit) (c_n c);
  fits_m1 : within (l_m1 limit) (c_m1 c);
  fits_m2 : within (l_m2 limit) (c_m2 c);
  fits_p1 : within (l_p1 limit) (c_p1 c);
  fits_m : within (l_m limit) (c_m c);
  fits_p : within (l_p limit) (c_p c);
  fits_vco : within (l_vco limit) (c_vco c);
  fits_dot : within (l_dot limit) (c_dot c);
  fits_match : ∀ mc, match_clock = Some mc → c_p c = c_p mc;
}.

(** What [abs] makes of two clocks: below the target a clock is the cheaper the
    higher it is, and cheaper than any clock at or above the target. *)
Definition cost (target dot : Z) : Z := if dot <? target then - dot - target else dot - target.

Lemma abs_difference_cost dot target : 0 <= dot <= 2 ^ 20 → 0 <= target <= 2 ^ 30 → abs_difference dot target = cost target dot.
Proof.
  intros Hd Ht. unfold abs_difference, cost. change (2 ^ 20) with 1048576 in Hd. change (2 ^ 30) with 1073741824 in Ht.
  rewrite (i32_id (dot - target)) by (unfold INT_MIN, INT_MAX; lia). rewrite (i32_id (- dot)) by (unfold INT_MIN, INT_MAX; lia).
  rewrite (i32_id (- dot - target)) by (unfold INT_MIN, INT_MAX; lia).
  destruct (Z.ltb_spec (dot - target) 0), (Z.ltb_spec dot target); lia.
Qed.

Section divisors.
Context (pineview : bool) (limit : intel_limit_t) (refclk p2 : Z).
Hypothesis Hlimit : limit_ok limit = true.
Hypothesis Hrefclk : 0 < refclk <= 1000000.
Hypothesis Hp2 : 1 <= p2 <= 20.

(** The divisors of a round. *)
Record in_range (k : dpll) : Prop := {
  ir_n : within (l_n limit) (c_n k); ir_m1 : within (l_m1 limit) (c_m1 k); ir_m2 : within (l_m2 limit) (c_m2 k); ir_p1 : within (l_p1 limit) (c_p1 k);
  ir_p2 : c_p2 k = p2;
}.

Definition clock_of : dpll → option dpll := if pineview then pineview_clock refclk else i9xx_clock refclk.

Definition exact_clock (k : dpll) : dpll :=
  let m := if pineview then c_m2 k + 2 else 5 * (c_m1 k + 2) + (c_m2 k + 2) in
  let vco := refclk * m / (if pineview then c_n k else c_n k + 2) in
  with_clock k m (c_p1 k * p2) vco (vco / (c_p1 k * p2)).

Lemma limit_bounds k : in_range k → 1 <= c_n k <= 16 ∧ 0 <= c_m1 k <= 26 ∧ 0 <= c_m2 k <= 254 ∧ 1 <= c_p1 k <= 33.
Proof.
  intros [Hn Hm1 Hm2 Hp1 _]. pose proof Hlimit as H. unfold limit_ok in H. rewrite !andb_true_iff in H. destruct H as ((((((((H1 & H2) & H3) & H4) & _) & _) & _) & _) & _).
  pose proof (between_within _ _ _ _ H1 Hn). pose proof (between_within _ _ _ _ H2 Hm1). pose proof (between_within _ _ _ _ H3 Hm2).
  pose proof (between_within _ _ _ _ H4 Hp1). lia.
Qed.

Lemma cdiv_exact a b : 0 <= a <= INT_MAX → 1 <= b → cdiv a b = Some (a / b) ∧ 0 <= a / b <= INT_MAX.
Proof.
  clear Hlimit Hrefclk Hp2. intros Ha Hb. assert (0 <= a / b <= INT_MAX) as Hq by (split; [apply Z.div_pos; lia|]; pose proof (Z.div_le_upper_bound a b INT_MAX ltac:(lia)); nia).
  split; [|done]. unfold cdiv. destruct (Z.eqb_spec b 0); [lia|]. rewrite Z.quot_div_nonneg by lia. rewrite i32_id; [done|]. unfold INT_MIN. lia.
Qed.

Lemma clock_of_exact k : in_range k → clock_of k = Some (exact_clock k).
Proof.
  intros Hk. pose proof (limit_bounds k Hk) as (Hn & Hm1 & Hm2 & Hp1). pose proof (ir_p2 _ Hk) as Hkp. unfold clock_of, exact_clock.
  assert (1 <= c_p1 k * p2 <= 660) as Hp by nia.
  destruct pineview.
  - unfold pineview_clock. rewrite Hkp, !i32_id by (unfold INT_MIN, INT_MAX; nia).
    destruct (cdiv_exact (refclk * (c_m2 k + 2)) (c_n k)) as [-> Hv]; [unfold INT_MAX; nia|lia|]. cbn [mbind option_bind].
    destruct (cdiv_exact (refclk * (c_m2 k + 2) / c_n k) (c_p1 k * p2)) as [-> _]; [lia|lia|]. done.
  - unfold i9xx_clock, i9xx_dpll_compute_m. rewrite u32_id by lia. rewrite Hkp, !i32_id by (unfold INT_MIN, INT_MAX; nia).
    destruct (cdiv_exact (refclk * (5 * (c_m1 k + 2) + (c_m2 k + 2))) (c_n k + 2)) as [-> Hv]; [unfold INT_MAX; nia|lia|]. cbn [mbind option_bind].
    destruct (cdiv_exact (refclk * (5 * (c_m1 k + 2) + (c_m2 k + 2)) / (c_n k + 2)) (c_p1 k * p2)) as [-> _]; [lia|lia|]. done.
Qed.

(** The test of a candidate is [fits]. *)
Lemma valid_fits match_clock k : in_range k → intel_PLL_is_valid pineview limit (exact_clock k) = true → p_differs match_clock (exact_clock k) = false →
  fits pineview limit refclk p2 match_clock (exact_clock k).
Proof.
  intros Hk Hv Hm. unfold intel_PLL_is_valid in Hv. repeat (case_match; [done|]). repeat match goal with H : outside _ _ = false |- _ => apply outside_within in H end.
  constructor; try done; try apply Hk.
  - intros ->. match goal with H : _ && _ = false |- _ => rewrite andb_true_r in H; apply Z.leb_gt in H end. done.
  - intros mc ->. unfold p_differs in Hm. apply negb_false_iff, Z.eqb_eq in Hm. done.
Qed.

Lemma fits_in_range match_clock c : fits pineview limit refclk p2 match_clock c → in_range c.
Proof. intros []. by constructor. Qed.

Lemma fits_valid match_clock c : fits pineview limit refclk p2 match_clock c →
  exact_clock c = c ∧ intel_PLL_is_valid pineview limit c = true ∧ p_differs match_clock c = false.
Proof.
  intros Hf. destruct Hf as [H2 Hm Hp Hvco Hdot Hord Hn Hm1 Hm2 Hp1 Hmr Hpr Hvr Hdr Hma]. split; [|split].
  - unfold exact_clock, with_clock. destruct c; cbn in *. congruence.
  - unfold intel_PLL_is_valid. rewrite !(proj2 (outside_within _ _)) by done.
    destruct pineview; [by rewrite andb_false_r|]. rewrite (proj2 (Z.leb_gt _ _)) by auto. done.
  - unfold p_differs. destruct match_clock as [mc|]; [|done]. by rewrite (Hma mc), Z.eqb_refl.
Qed.

(** ** Scanning *)

Section scan.
Context (target : Z) (match_clock : option dpll).
Hypothesis Htarget : 0 <= target <= 2 ^ 30.

Lemma fits_dot_bound c : fits pineview limit refclk p2 match_clock c → 1 <= c_dot c <= 400000.
Proof.
  intros Hf. pose proof Hlimit as H. unfold limit_ok in H. rewrite !andb_true_iff in H. destruct H as ((((((((_ & _) & _) & _) & H) & _) & _) & _) & _).
  eapply between_within; [done|]. apply (fits_dot _ _ _ _ _ _ Hf).
Qed.

(** Nothing cheaper than the divisors [k] is left, if they fit. *)
Definition dealt (k : dpll) (s : search) : Prop :=
  fits pineview limit refclk p2 match_clock (exact_clock k) → err s <= cost target (c_dot (exact_clock k)).

(** A stretch [m] of a search that keeps [I] and deals with the divisors of [D]. *)
Definition scans (I : search → Prop) (D : dpll → Prop) (m : M search unit) : Prop :=
  ∀ s, I s → wp m s (λ _ s', I s' ∧ (∀ k, D k → dealt k s') ∧ ∀ k, dealt k s → dealt k s').

Lemma scans_mono I (D D' : dpll → Prop) m : scans I D m → (∀ k, D' k → D k) → scans I D' m.
Proof. intros Hm HD s Hs. eapply wp_mono; [by apply Hm|]. intros _ s' (? & ? & ?). auto. Qed.

Lemma scans_for_each {X} I (D : X → dpll → Prop) (l : list X) body :
  (∀ x, x ∈ l → scans I (D x) (body x)) → scans I (λ k, ∃ x, x ∈ l ∧ D x k) (for_each l body).
Proof.
  induction l as [|x l IH]; intros Hb s Hs; cbn [for_each].
  { split; [done|]. split; [|done]. intros k (x & Hx & _). by apply not_elem_of_nil in Hx. }
  apply wp_bind. eapply wp_mono; [apply (Hb x); [by left|done]|]. intros _ s1 (Hi1 & Hd1 & Hk1). cbv beta.
  eapply wp_mono; [apply IH; [|done]|].
  { intros y Hy. apply Hb. by right. }
  intros _ s2 (Hi2 & Hd2 & Hk2). split; [done|]. split; [|auto]. intros k (y & [->|Hy]%elem_of_cons & HD); eauto.
Qed.

Fixpoint stops (go : Z → bool) (l : list Z) : Prop :=
  match l with [] => True | x :: l => (go x = false → ∀ y, y ∈ l → go y = false) ∧ stops go l end.

Lemma scans_while I (D : Z → dpll → Prop) go (l : list Z) body : stops go l →
  (∀ x, x ∈ l → go x = true → scans I (D x) (body x)) → scans I (λ k, ∃ x, x ∈ l ∧ go x = true ∧ D x k) (for_while l (λ x _, go x) body).
Proof.
  induction l as [|x l IH]; intros Hst Hb s Hs; cbn [for_while].
  { split; [done|]. split; [|done]. intros k (x & Hx & _). by apply not_elem_of_nil in Hx. }
  destruct Hst as [Hx Hst]. apply wp_bind. unfold get at 1. unfold wp at 1. destruct (go x) eqn:Hgo.
  - apply wp_bind. eapply wp_mono; [apply (Hb x); [by left|done|done]|]. intros _ s1 (Hi1 & Hd1 & Hk1). cbv beta.
    eapply wp_mono; [apply IH; [done| |done]|].
    { intros y Hy. apply Hb. by right. }
    intros _ s2 (Hi2 & Hd2 & Hk2). split; [done|]. split; [|auto]. intros k (y & [->|Hy]%elem_of_cons & Hg & HD); eauto.
  - split; [done|]. split; [|done]. intros k (y & [->|Hy]%elem_of_cons & Hg & _); [congruence|]. by rewrite (Hx eq_refl y Hy) in Hg.
Qed.

Lemma stops_below b lo n : stops (λ x, negb (b <=? x)) (seqZ lo (Z.of_nat n)).
Proof.
  revert lo. induction n as [|n IH]; intros lo; [done|]. rewrite Nat2Z.inj_succ, seqZ_cons by lia. rewrite Z.pred_succ. split; [|apply IH].
  intros Hlo y Hy. apply elem_of_seqZ in Hy. apply negb_false_iff, Z.leb_le in Hlo. apply negb_false_iff, Z.leb_le. lia.
Qed.

Lemma stops_up b r : stops (λ x, negb (b <=? x)) (up r).
Proof.
  unfold up. destruct (decide (0 <= rmax r - rmin r + 1)); [|by rewrite seqZ_nil by lia].
  rewrite <- (Z2Nat.id (rmax r - rmin r + 1)) by done. apply stops_below.
Qed.

(** One round. *)
Lemma try_scans I take k : in_range k → (∀ c e s, err (take c e s) = e) →
  (∀ s c, I s → fits pineview limit refclk p2 match_clock c → c_n c = c_n k → cost target (c_dot c) < err s → I (take c (cost target (c_dot c)) s)) →
  scans I (eq k) (try_clock clock_of pineview limit target match_clock take k).
Proof.
  intros Hk Herr Htake s Hs. unfold try_clock. rewrite (clock_of_exact k Hk).
  assert (∀ s', dealt k s' → I s' → err s' <= err s → (I s' ∧ (∀ k', k = k' → dealt k' s') ∧ ∀ k', dealt k' s → dealt k' s')) as Hend.
  { intros s' Hd Hi Hle. split; [done|]. split; [by intros ? <-|]. intros k' Hk' Hf. specialize (Hk' Hf). lia. }
  destruct (intel_PLL_is_valid pineview limit (exact_clock k)) eqn:Hv; cbn [negb]; cycle 1.
  { apply Hend; [|done|lia]. intros Hf. destruct (fits_valid _ _ Hf) as (_ & ? & _). congruence. }
  destruct (p_differs match_clock (exact_clock k)) eqn:Hm.
  { apply Hend; [|done|lia]. intros Hf. destruct (fits_valid _ _ Hf) as (_ & _ & ?). congruence. }
  pose proof (valid_fits match_clock k Hk Hv Hm) as Hf. pose proof (fits_dot_bound _ Hf) as Hdot. cbv zeta.
  rewrite abs_difference_cost by (change (2 ^ 20) with 1048576; lia). apply wp_bind. unfold get, wp at 1.
  destruct (Z.ltb_spec (cost target (c_dot (exact_clock k))) (err s)) as [Hlt|Hge]; cbn [when].
  - unfold modify, wp. apply Hend; [|by apply Htake|]; rewrite ?Herr; [|lia]. intros _. by rewrite Herr.
  - unfold wp, mret, M_ret. apply Hend; [|done|lia]. by intros _.
Qed.

(** The divisors of the rounds, by what the loops run over. *)
Lemma round_of c : fits pineview limit refclk p2 match_clock c → exact_clock (divisors (c_n c) (c_m1 c) (c_m2 c) (c_p1 c) p2) = c.
Proof.
  intros Hf. destruct (fits_valid _ _ Hf) as (He & _). pose proof (fits_p2 _ _ _ _ _ _ Hf) as H2. rewrite <- He at 5. unfold exact_clock, with_clock. cbn. by rewrite H2.
Qed.

(** ** The cheapest clock *)

Definition best_inv (s : search) : Prop :=
  (best_clock s = dpll0 ∧ err s = target) ∨
  (fits pineview limit refclk p2 match_clock (best_clock s) ∧ err s = cost target (c_dot (best_clock s)) ∧ err s < target).

Lemma take_best_inv s c : best_inv s → fits pineview limit refclk p2 match_clock c → cost target (c_dot c) < err s → best_inv (take_best c (cost target (c_dot c)) s).
Proof. intros Hs Hf Hlt. right. cbn. split; [done|]. split; [done|]. destruct Hs as [[_ He]|(_ & _ & He)]; lia. Qed.

Lemma try_best_scans k : in_range k → scans best_inv (eq k) (try_clock clock_of pineview limit target match_clock take_best k).
Proof. intros Hk. apply try_scans; [done|done|]. intros s c ? ? _ ?. by apply take_best_inv. Qed.

(** What the searches of gen 2 and 3 and of Pineview return. *)
Definition cheapest (r : bool * dpll) : Prop :=
  if r.1 then fits pineview limit refclk p2 match_clock r.2 ∧ cost target (c_dot r.2) < target ∧
      ∀ c, fits pineview limit refclk p2 match_clock c → cost target (c_dot r.2) <= cost target (c_dot c)
  else r.2 = dpll0 ∧ ∀ c, fits pineview limit refclk p2 match_clock c → target <= cost target (c_dot c).

Lemma scans_cheapest D m : scans best_inv D m → (∀ c, fits pineview limit refclk p2 match_clock c → D (divisors (c_n c) (c_m1 c) (c_m2 c) (c_p1 c) p2)) →
  ∃ r, m (mk_search dpll0 target 0 false) = Some r ∧ cheapest (negb (err r.2 =? target), best_clock r.2).
Proof.
  intros Hm HD. destruct (wp_run _ _ _ (Hm (mk_search dpll0 target 0 false) ltac:(by left))) as ([] & s & Hrun & Hi & Hd & _).
  exists (tt, s). split; [done|]. cbn [snd].
  assert (∀ c, fits pineview limit refclk p2 match_clock c → err s <= cost target (c_dot c)) as Hall.
  { intros c Hf. specialize (Hd _ (HD c Hf)). unfold dealt in Hd. rewrite (round_of c Hf) in Hd. auto. }
  unfold cheapest. cbn [fst snd]. destruct Hi as [[Hb He]|(Hf & He & Hlt)].
  - rewrite (proj2 (Z.eqb_eq _ _) He). cbn. split; [done|]. intros c Hc. specialize (Hall c Hc). lia.
  - rewrite (proj2 (Z.eqb_neq _ _)) by lia. cbn. split; [done|]. split; [lia|]. intros c Hc. specialize (Hall c Hc). lia.
Qed.

(** ** The first divider with a good enough clock *)

Section first.
Context (e0 n_max : Z).

Definition none_yet (s : search) : Prop := found s = false ∧ best_clock s = dpll0 ∧ err s = e0 ∧ max_n s = n_max.
Definition found_at (n : Z) (s : search) : Prop :=
  found s = true ∧ fits pineview limit refclk p2 match_clock (best_clock s) ∧ err s = cost target (c_dot (best_clock s)) ∧ err s < e0 ∧
  max_n s = n ∧ c_n (best_clock s) = n.
Definition n_inv (n : Z) (s : search) : Prop := none_yet s ∨ found_at n s.

Lemma try_first_scans k : in_range k → scans (n_inv (c_n k)) (eq k) (try_clock clock_of pineview limit target match_clock take_g4x k).
Proof.
  intros Hk. apply try_scans; [done|done|]. intros s c Hs Hf Hn Hlt. right. unfold found_at. cbn. rewrite Hn. split_and!; try done.
  destruct Hs as [(_ & _ & He & _)|(_ & _ & _ & He & _)]; lia.
Qed.

(** No round of divider [n] has a clock below the tolerance. *)
Definition hopeless (D : Z → dpll → Prop) (n : Z) : Prop :=
  ∀ k, D n k → fits pineview limit refclk p2 match_clock (exact_clock k) → e0 <= cost target (c_dot (exact_clock k)).

Definition outcome (D : Z → dpll → Prop) (l : list Z) (s : search) : Prop :=
  (none_yet s ∧ ∀ n, n ∈ l → hopeless D n) ∨
  (∃ n, n ∈ l ∧ found_at n s ∧ (∀ n', n' ∈ l → n' < n → hopeless D n') ∧ ∀ k, D n k → dealt k s).

Lemma first_loop D body lo len : lo + Z.of_nat len - 1 <= n_max → (∀ n, n ∈ seqZ lo (Z.of_nat len) → scans (n_inv n) (D n) (body n)) →
  ∀ s, none_yet s → wp (for_while (seqZ lo (Z.of_nat len)) (λ n s, n <=? max_n s) body) s (λ _ s', outcome D (seqZ lo (Z.of_nat len)) s').
Proof.
  revert lo. induction len as [|len IH]; intros lo Hmax Hb s Hs.
  { left. split; [done|]. intros n Hn. apply elem_of_seqZ in Hn. lia. }
  rewrite Nat2Z.inj_succ in *. rewrite seqZ_cons in * by lia. rewrite Z.pred_succ in *. cbn [for_while]. apply wp_bind. unfold get at 1. unfold wp at 1.
  pose proof Hs as (_ & _ & _ & Hm). rewrite Hm, (proj2 (Z.leb_le _ _)) by lia. apply wp_bind.
  eapply wp_mono; [apply (Hb lo); [by left|by left]|]. intros _ s1 (Hi & Hd & _). cbv beta. destruct Hi as [Hn|Hf].
  - eapply wp_mono; [apply IH; [lia| |done]|].
    { intros n Hn'. apply Hb. by right. }
    assert (hopeless D lo) as Hlo.
    { intros k Hk Hf. pose proof (Hd k Hk Hf). destruct Hn as (_ & _ & He & _). lia. }
    intros _ s2 [[Hs2 Hh]|(n & Hin & Hs2 & Hh & Hk)].
    + left. split; [done|]. intros n [->|Hin]%elem_of_cons; auto.
    + right. exists n. split; [by right|]. split; [done|]. split; [|done]. intros n' [->|Hin']%elem_of_cons; auto.
  - assert (outcome D (lo :: seqZ (Z.succ lo) (Z.of_nat len)) s1) as Hout.
    { right. exists lo. split; [by left|]. split; [done|]. split; [|done]. intros n' [->|Hin']%elem_of_cons Hlt; [lia|]. apply elem_of_seqZ in Hin'. lia. }
    destruct len as [|len]; [done|]. rewrite Nat2Z.inj_succ, seqZ_cons by lia. cbn [for_while]. apply wp_bind. unfold get at 1. unfold wp at 1.
    destruct Hf as (_ & _ & _ & _ & -> & _). rewrite (proj2 (Z.leb_gt _ _)) by lia. rewrite Nat2Z.inj_succ, seqZ_cons in Hout by lia. done.
Qed.

(** What the search of G4x and of the chips with a PCH returns. *)
Definition first_good (r : bool * dpll) : Prop :=
  let good c := fits pineview limit refclk p2 match_clock c ∧ cost target (c_dot c) < e0 in
  if r.1 then good r.2 ∧ ∀ c, good c → c_n r.2 < c_n c ∨ (c_n r.2 = c_n c ∧ cost target (c_dot r.2) <= cost target (c_dot c))
  else r.2 = dpll0 ∧ ∀ c, ¬ good c.

Lemma outcome_first_good D r s : outcome D r s → (∀ c, fits pineview limit refclk p2 match_clock c → c_n c ∈ r ∧ D (c_n c) (divisors (c_n c) (c_m1 c) (c_m2 c) (c_p1 c) p2)) →
  first_good (found s, best_clock s).
Proof.
  intros Ho HD. unfold first_good. cbn [fst snd].
  assert (∀ c, fits pineview limit refclk p2 match_clock c → hopeless D (c_n c) → e0 <= cost target (c_dot c)) as Hh.
  { intros c Hf Hc. destruct (HD c Hf) as [_ Hk]. specialize (Hc _ Hk). rewrite (round_of c Hf) in Hc. auto. }
  destruct Ho as [[(-> & -> & _) Hn]|(n & _ & (-> & Hf & He & Hlt & _ & Hbn) & Hn & Hd)].
  - split; [done|]. intros c [Hf Hlt]. destruct (HD c Hf) as [Hin _]. pose proof (Hh c Hf (Hn _ Hin)). lia.
  - split; [split; [done|lia]|]. intros c [Hcf Hclt]. destruct (HD c Hcf) as [Hin Hk]. rewrite Hbn.
    destruct (Z.lt_trichotomy n (c_n c)) as [Hnc|[Hnc|Hnc]]; [by left| |pose proof (Hh c Hcf (Hn _ Hin Hnc)); lia].
    right. split; [done|]. rewrite <- Hnc in Hk. specialize (Hd _ Hk). unfold dealt in Hd. rewrite Hnc in Hd. rewrite (round_of c Hcf) in Hd. rewrite <- He. auto.
Qed.
End first.

End scan.
End divisors.

(** ** The searches of gen 2 and 3 and of Pineview *)

Lemma choose_p2_ok dev crtc limit target : limit_ok limit = true → 1 <= choose_p2 dev crtc limit target <= 20.
Proof.
  intros H. unfold limit_ok in H. rewrite !andb_true_iff, !Z.leb_le in H. unfold choose_p2. repeat case_match; lia.
Qed.

Section searches.
Context (dev : display_dev) (crtc : list Z) (limit : intel_limit_t) (target refclk : Z) (match_clock : option dpll).
Hypothesis Hlimit : limit_ok limit = true.
Hypothesis Hrefclk : 0 < refclk <= 1000000.
Hypothesis Htarget : 0 < target <= 2 ^ 30.

Let p2 : Z := choose_p2 dev crtc limit target.

Lemma inner_scans pineview m1 m2 : within (l_m1 limit) m1 → within (l_m2 limit) m2 →
  scans pineview limit refclk p2 target match_clock (best_inv pineview limit refclk p2 target match_clock)
    (λ k, ∃ n, n ∈ up (l_n limit) ∧ ∃ p1, p1 ∈ up (l_p1 limit) ∧ divisors n m1 m2 p1 p2 = k)
    (for_each (up (l_n limit)) (λ n, for_each (up (l_p1 limit)) (λ p1,
       try_clock (clock_of pineview refclk) pineview limit target match_clock take_best (divisors n m1 m2 p1 p2)))).
Proof.
  intros Hm1 Hm2. apply scans_for_each. intros n Hn%elem_of_up. apply (scans_for_each _ _ _ _ _ _ _ (λ p1 k, divisors n m1 m2 p1 p2 = k)).
  intros p1 Hp1%elem_of_up. apply try_best_scans; [done|done|by apply choose_p2_ok|lia|]. by constructor.
Qed.

Lemma i9xx_cheapest : is_pineview dev = false →
  ∃ r, i9xx_find_best_dpll dev limit crtc target refclk match_clock = Some r ∧ cheapest false limit refclk p2 target match_clock r.
Proof.
  intros Hp. unfold i9xx_find_best_dpll. rewrite Hp. fold p2.
  edestruct (scans_cheapest false limit refclk p2 target match_clock) as (r & Hr & Hc); [|  |rewrite Hr; by eexists].
  - apply scans_for_each. intros m1 Hm1%elem_of_up. apply scans_while; [apply stops_up|]. intros m2 Hm2%elem_of_up _. by apply (inner_scans false).
  - intros c Hf. exists (c_m1 c). split; [apply elem_of_up, Hf|]. exists (c_m2 c). split; [apply elem_of_up, Hf|].
    split; [apply negb_true_iff, Z.leb_gt, Hf; done|]. exists (c_n c). split; [apply elem_of_up, Hf|]. exists (c_p1 c). split; [apply elem_of_up, Hf|done].
Qed.

Lemma pnv_cheapest : is_pineview dev = true →
  ∃ r, pnv_find_best_dpll dev limit crtc target refclk match_clock = Some r ∧ cheapest true limit refclk p2 target match_clock r.
Proof.
  intros Hp. unfold pnv_find_best_dpll. rewrite Hp. fold p2.
  edestruct (scans_cheapest true limit refclk p2 target match_clock) as (r & Hr & Hc); [| |rewrite Hr; by eexists].
  - apply scans_for_each. intros m1 Hm1%elem_of_up. apply scans_for_each. intros m2 Hm2%elem_of_up. by apply (inner_scans true).
  - intros c Hf. exists (c_m1 c). split; [apply elem_of_up, Hf|]. exists (c_m2 c). split; [apply elem_of_up, Hf|].
    exists (c_n c). split; [apply elem_of_up, Hf|]. exists (c_p1 c). split; [apply elem_of_up, Hf|done].
Qed.

(** ** The search of G4x and of the chips with a PCH *)

Definition tolerance : Z := target / 256 + target / 512.

(** The rounds of divider [n]. *)
Definition g4x_round (n : Z) (k : dpll) : Prop :=
  ∃ m1, m1 ∈ down (l_m1 limit) ∧ ∃ m2, m2 ∈ down (l_m2 limit) ∧ ∃ p1, p1 ∈ down (l_p1 limit) ∧ divisors n m1 m2 p1 p2 = k.
Definition g4x_body (n : Z) : M search unit :=
  for_each (down (l_m1 limit)) (λ m1, for_each (down (l_m2 limit)) (λ m2, for_each (down (l_p1 limit)) (λ p1,
    try_clock (i9xx_clock refclk) false limit target None take_g4x (divisors n m1 m2 p1 p2)))).

Lemma g4x_body_scans n : within (l_n limit) n →
  scans false limit refclk p2 target None (n_inv false limit refclk p2 target None tolerance (rmax (l_n limit)) n) (g4x_round n) (g4x_body n).
Proof.
  intros Hn. apply scans_for_each. intros m1 Hm1%elem_of_down. apply scans_for_each. intros m2 Hm2%elem_of_down.
  apply (scans_for_each _ _ _ _ _ _ _ (λ p1 k, divisors n m1 m2 p1 p2 = k)). intros p1 Hp1%elem_of_down.
  apply (try_first_scans false limit refclk p2 Hlimit Hrefclk (choose_p2_ok dev crtc limit target Hlimit) target None ltac:(lia) tolerance (rmax (l_n limit)) (divisors n m1 m2 p1 p2)).
  by constructor.
Qed.

Lemma g4x_first_good : is_pineview dev = false →
  ∃ r, g4x_find_best_dpll dev limit crtc target refclk match_clock = Some r ∧ first_good false limit refclk p2 target None tolerance r.
Proof.
  intros Hp. unfold g4x_find_best_dpll. rewrite Hp. fold p2. rewrite !Z.shiftr_div_pow2 by lia. change (2 ^ 8) with 256. change (2 ^ 9) with 512.
  fold tolerance. change (2 ^ 30) with 1073741824 in Htarget.
  assert (i32 tolerance = tolerance) as ->.
  { apply i32_id. unfold tolerance, INT_MIN, INT_MAX. Z.to_euclidean_division_equations. lia. }
  pose proof Hlimit as Hl. unfold limit_ok, between in Hl. rewrite !andb_true_iff, !Z.leb_le in Hl.
  pose proof (first_loop false limit refclk p2 target None tolerance (rmax (l_n limit)) g4x_round g4x_body (rmin (l_n limit)) (Z.to_nat (rmax (l_n limit) - rmin (l_n limit) + 1)) ltac:(lia)) as Hloop.
  rewrite Z2Nat.id in Hloop by lia. fold (up (l_n limit)) in Hloop.
  destruct (wp_run _ _ _ (Hloop (λ n Hn, g4x_body_scans n (proj1 (elem_of_up _ _) Hn)) (mk_search dpll0 tolerance (rmax (l_n limit)) false) ltac:(done))) as ([] & s & Hrun & Ho).
  unfold g4x_body in Hrun. rewrite Hrun. cbn [mbind option_bind snd]. eexists. split; [done|].
  eapply outcome_first_good; [exact Ho|].
  intros c Hf. split; [apply elem_of_up, Hf|]. exists (c_m1 c). split; [apply elem_of_down, Hf|]. exists (c_m2 c). split; [apply elem_of_down, Hf|].
  exists (c_p1 c). split; [apply elem_of_down, Hf|done].
Qed.
End searches.

(** ** Valleyview *)

Lemma fold_opt_inv {X S} (I : S → Prop) (f : X → S → option S) l : (∀ x s, x ∈ l → I s → ∃ s', f x s = Some s' ∧ I s') →
  ∀ s, I s → ∃ s', fold_opt f l s = Some s' ∧ I s'.
Proof.
  induction l as [|x l IH]; intros Hf s Hs; cbn [fold_opt]; [eauto|]. destruct (Hf x s) as (s1 & -> & Hs1); [by left|done|]. cbn [mbind option_bind].
  apply IH; [|done]. intros y s' Hy. apply Hf. by right.
Qed.

(** Nothing chosen yet, or divisors whose VCO frequency is in its range and whose p1 is
    not the smallest one. *)
Definition vlv_inv (limit : intel_limit_t) (refclk : Z) (s : vlv_search) : Prop :=
  s = vlv_search0 ∨
  rmin (l_n limit) <= bestn s ∧ within (l_m1 limit) (bestm1 s) ∧ rmin (l_p1 limit) < bestp1 s <= rmax (l_p1 limit) ∧
  rmin (l_vco limit) <= u32 (refclk / bestn s * u32 (bestm1 s * bestm2 s)) < rmax (l_vco limit).

Lemma vlv_p2_range rounds p2 x : x ∈ vlv_p2 rounds p2 → 0 < x <= p2.
Proof.
  revert p2. induction rounds as [|r IH]; intros p2; cbn [vlv_p2]; [by intros ?%not_elem_of_nil|]. destruct (Z.ltb_spec 0 p2); [|by intros ?%not_elem_of_nil].
  destruct (Z.ltb_spec 10 p2); intros [->|Hx]%elem_of_cons; try lia; apply IH in Hx; lia.
Qed.

Section vlv.
Context (limit : intel_limit_t) (target refclk : Z).
Hypothesis Hlimit : limit_ok limit = true.
Hypothesis Hm1 : 1 <= rmin (l_m1 limit).
Hypothesis Htarget : 0 < target <= 2000000.
Hypothesis Hrefclk : 0 < refclk <= 1000000.

Let fastclk : Z := u32 (Z.quot (i32 (target * 1000)) 200).

Lemma fastclk_exact : fastclk = 5 * target.
Proof.
  unfold fastclk. rewrite i32_id by (unfold INT_MIN, INT_MAX; lia). rewrite Z.quot_div_nonneg by lia.
  replace (target * 1000) with (5 * target * 200) by lia. rewrite Z.div_mul by lia. apply u32_id. lia.
Qed.

Lemma vlv_round_total n p1 p2 m1 s : rmin (l_n limit) <= n → 0 < p2 <= 21 → within (l_m1 limit) m1 → rmin (l_p1 limit) < p1 <= rmax (l_p1 limit) → vlv_inv limit refclk s →
  ∃ s', vlv_round limit refclk fastclk (refclk / n) n p1 p2 m1 s = Some s' ∧ vlv_inv limit refclk s'.
Proof.
  intros Hn Hp2 Hm Hp1 Hs. pose proof Hlimit as Hl. unfold limit_ok, between in Hl. rewrite !andb_true_iff, !Z.leb_le in Hl.
  unfold vlv_round. pose proof Hm as Hm'. unfold within in Hm'. unfold udiv32. rewrite (proj2 (Z.eqb_neq m1 0)) by lia. cbn [mbind option_bind].
  rewrite (u32_id (2 * refclk)), (proj2 (Z.eqb_neq (2 * refclk) 0)) by lia. cbn [mbind option_bind].
  rewrite (u32_id (p1 * p2)) by nia. rewrite (proj2 (Z.eqb_neq (p1 * p2) 0)) by nia. rewrite fastclk_exact, (proj2 (Z.eqb_neq (5 * target) 0)) by lia.
  set (m2 := u32 _ / (2 * refclk)). case_match eqn:Hv; [|by exists s]. cbn [mbind option_bind].
  eexists. split; [done|]. set (b := bestppm s). case_match; [|done]. right. cbn [bestn bestm1 bestp1 bestm2].
  apply andb_true_iff in Hv as [Hv1%Z.leb_le Hv2%Z.ltb_lt]. done.
Qed.

Lemma vlv_total : ∃ s, vlv_find_best_dpll limit target refclk = Some (true, mk_dpll (bestn s) (bestm1 s) (bestm2 s) (bestp1 s) (bestp2 s) 0 0 0 0) ∧ vlv_inv limit refclk s.
Proof.
  pose proof Hlimit as Hl. unfold limit_ok, between in Hl. rewrite !andb_true_iff, !Z.leb_le in Hl.
  unfold vlv_find_best_dpll. fold fastclk.
  match goal with |- context [fold_opt ?f ?l vlv_search0] => destruct (fold_opt_inv (vlv_inv limit refclk) f l) with (s := vlv_search0) as (s & -> & Hs) end;
    [|by left|cbn [mbind option_bind]; by exists s].
  intros n s Hn Hs. apply elem_of_seqZ in Hn. unfold udiv32 at 1. rewrite (proj2 (Z.eqb_neq n 0)) by lia. cbn [mbind option_bind].
  apply fold_opt_inv; [|done]. clear s Hs. intros p1 s Hp1 Hs. apply elem_of_reverse, elem_of_seqZ in Hp1.
  apply fold_opt_inv; [|done]. clear s Hs. intros p2 s Hp2%vlv_p2_range Hs.
  apply fold_opt_inv; [|done]. clear s Hs. intros m1 s Hm%elem_of_up Hs. apply vlv_round_total; [lia|lia|done|lia|done].
Qed.
End vlv.

(** ** Theorems *)

(** [best] has the highest clock below the target or, if there is none, the lowest one
    at or above it. *)
Definition below_first (fit : dpll → Prop) (target : Z) (best : dpll) : Prop :=
  (c_dot best < target ∧ ∀ c, fit c → c_dot c < target → c_dot c <= c_dot best) ∨
  (target <= c_dot best ∧ ∀ c, fit c → c_dot best <= c_dot c).

Lemma cost_below_first (fit : dpll → Prop) target best : 0 < target → (∀ c, fit c → 1 <= c_dot c) → 1 <= c_dot best →
  (∀ c, fit c → cost target (c_dot best) <= cost target (c_dot c)) → below_first fit target best.
Proof.
  intros Ht Hpos Hb Hle. destruct (decide (c_dot best < target)) as [Hlt|Hge]; [left|right]; (split; [lia|]); intros c Hf; specialize (Hle c Hf); specialize (Hpos c Hf);
    unfold cost in Hle; destruct (Z.ltb_spec (c_dot best) target), (Z.ltb_spec (c_dot c) target); lia.
Qed.

Lemma cost_lt target dot e : 0 < target → 1 <= dot → 0 <= e → (cost target dot < e ↔ dot < target + e).
Proof. intros. unfold cost. destruct (Z.ltb_spec dot target); lia. Qed.


(** C24 (pll_search_first_n): on G4x and the chips with a PCH the search never faults and takes the smallest divider n that has a
    clock below the target or above it by less than the tolerance of 3/512, and for
    that n the highest clock below the target, however far away, or else the lowest one
    above; it fails exactly if no divider has one. *)
Theorem pll_search_first_n dev crtc target refclk match_clock :
  pch_split dev || is_g4x dev = true → is_pineview dev = false → 0 < target <= 2 ^ 30 → 0 < refclk <= 1000000 →
  let limit := intel_limit dev crtc refclk in
  let fit := fits false limit refclk (choose_p2 dev crtc limit target) None in
  let good c := fit c ∧ c_dot c < target + (target / 256 + target / 512) in
  ∃ ok best, find_dpll dev limit crtc target refclk match_clock = Some (ok, best) ∧
    if ok : bool then good best ∧ (∀ c, good c → c_n best <= c_n c) ∧ below_first (λ c, fit c ∧ c_n c = c_n best) target best
    else best = dpll0 ∧ ∀ c, ¬ good c.
Proof.
  intros Hpch Hp Ht Hr limit fit good. pose proof (limits_ok limit (intel_limit_in dev crtc refclk)) as Hl.
  assert (∀ c, fit c → 1 <= c_dot c) as Hpos by (intros c Hf; eapply (fits_dot_bound _ limit) in Hf; [lia|done]).
  assert (0 <= target / 256 + target / 512) as Htol by (Z.to_euclidean_division_equations; lia).
  destruct (g4x_first_good dev crtc limit target refclk match_clock Hl Hr Ht Hp) as ([ok best] & Hrun & Hc).
  exists ok, best. unfold find_dpll. rewrite Hpch. split; [done|]. unfold first_good, tolerance in Hc. cbn [fst snd] in Hc.
  assert (∀ c, good c ↔ fit c ∧ cost target (c_dot c) < target / 256 + target / 512) as Hgood.
  { intros c. unfold good. split; intros [Hf Hlt]; (split; [done|]); apply (cost_lt target (c_dot c)); auto; lia. }
  destruct ok.
  - destruct Hc as (Hb & Hall). split; [by apply Hgood|]. split.
    + intros c Hg%Hgood. destruct (Hall c Hg); lia.
    + apply cost_below_first; [lia|by intros c [? _]; auto|apply Hpos, Hb|]. intros c [Hf Hn].
      destruct (decide (cost target (c_dot c) < target / 256 + target / 512)) as [Hlt|Hge]; [destruct (Hall c (conj Hf Hlt)); lia|]. destruct Hb. lia.
  - destruct Hc as (-> & Hall). split; [done|]. intros c Hg%Hgood. by apply (Hall c).
Qed.

(** C25 (vlv_search_always_succeeds): the search of Valleyview never divides by zero and reports
    success whatever it finds: its divisors are all 0 if no VCO frequency was in range,
    and otherwise one that is; the smallest p1 is never tried. *)
Theorem vlv_search_always_succeeds dev crtc target refclk match_clock :
  is_valleyview (info dev) = true → pch_split dev = false → is_g4x dev = false → is_pineview dev = false → 0 < target <= 2000000 → 0 < refclk <= 1000000 →
  let limit := intel_limit dev crtc refclk in
  ∃ c, find_dpll dev limit crtc target refclk match_clock = Some (true, c) ∧
    (c = dpll0 ∨
     rmin (l_n limit) <= c_n c ∧ within (l_m1 limit) (c_m1 c) ∧ rmin (l_p1 limit) < c_p1 c <= rmax (l_p1 limit) ∧
     rmin (l_vco limit) <= u32 (refclk / c_n c * u32 (c_m1 c * c_m2 c)) < rmax (l_vco limit)).
Proof.
  intros Hvlv Hpch Hg4x Hp Ht Hr limit. pose proof (limits_ok limit (intel_limit_in dev crtc refclk)) as Hl.
  assert (1 <= rmin (l_m1 limit)) as Hm1 by (unfold limit, intel_limit; rewrite Hpch, Hg4x, Hp, Hvlv; repeat case_match; done).
  destruct (vlv_total limit target refclk Hl Hm1 Ht Hr) as (s & Hrun & Hs).
  eexists. unfold find_dpll. rewrite Hpch, Hg4x, Hvlv. cbn [orb]. split; [done|]. destruct Hs as [->|Hs]; [by left|by right].
Qed.

(** The reduced clock of a panel has the post divider of the full clock
    on the chips whose search respects [match_clock]; on G4x and the chips with a PCH
    it is chosen as if there were no other clock. *)
Theorem reduced_clock_p dev crtc refclk clock :
  0 < lvds_downclock dev <= 2 ^ 30 → 0 < refclk <= 1000000 →
  let limit := intel_limit dev crtc refclk in
  (pch_split dev || is_g4x dev || is_valleyview (info dev) = false → ∃ red, reduced dev limit crtc refclk clock = Some red ∧ ∀ c, red = Some c → c_p c = c_p clock) ∧
  (pch_split dev || is_g4x dev = true → is_pineview dev = false →
     ∃ red, ∀ clock', reduced dev limit crtc refclk clock' = Some red).
Proof.
  intros Hd Hr limit. pose proof (limits_ok limit (intel_limit_in dev crtc refclk)) as Hl. unfold reduced, find_dpll. destruct (_ && lvds_downclock_avail dev); cycle 1.
  { split; intros; exists None; [by split|done]. }
  split.
  - rewrite !orb_false_iff. intros [[-> ->] ->]. cbn [orb].
    assert (∃ r, (if is_pineview dev then pnv_find_best_dpll dev limit crtc (lvds_downclock dev) refclk (Some clock) else i9xx_find_best_dpll dev limit crtc (lvds_downclock dev) refclk (Some clock)) = Some r
      ∧ cheapest (is_pineview dev) limit refclk (choose_p2 dev crtc limit (lvds_downclock dev)) (lvds_downclock dev) (Some clock) r) as (r & -> & Hc).
    { destruct (is_pineview dev) eqn:Hp; [by apply pnv_cheapest|by apply i9xx_cheapest]. }
    cbn [mbind option_bind]. eexists. split; [done|]. unfold cheapest in Hc. destruct r.1; [|done]. intros c [= <-]. destruct Hc as [Hf _]. by apply (fits_match _ _ _ _ _ _ Hf).
  - intros -> Hp. destruct (g4x_first_good dev crtc limit (lvds_downclock dev) refclk None Hl Hr Hd Hp) as (r & Hrun & _).
    eexists. intros clock'. change (g4x_find_best_dpll dev limit crtc (lvds_downclock dev) refclk (Some clock')) with (g4x_find_best_dpll dev limit crtc (lvds_downclock dev) refclk None).
    rewrite Hrun. cbn [mbind option_bind]. done.
Qed.

(** ** Witnesses *)

Definition demo_chip (g : Z) (vlv : bool) : chip := mk_chip g false false false false vlv 0.
(** A 965 without a panel, an Ironlake laptop with a dual-link panel, a Valleyview. *)
Definition demo_965 : display_dev := mk_display (demo_chip 4 false) false false false false false 0 false 0.
Definition demo_ilk : display_dev := mk_display (demo_chip 5 false) false false true true false 0 true 92330.
Definition demo_vlv : display_dev := mk_display (demo_chip 7 true) false false false false false 0 false 0.


(** A panel of 138.5 MHz is driven with 124.3 MHz. *)
Lemma pll_search_first_n_witness :
  (let limit := intel_limit demo_ilk [INTEL_OUTPUT_LVDS] 120000 in
   let fit := fits false limit 120000 (choose_p2 demo_ilk [INTEL_OUTPUT_LVDS] limit 138500) None in
   let good c := fit c ∧ c_dot c < 138500 + (138500 / 256 + 138500 / 512) in
   ∃ ok best, find_dpll demo_ilk limit [INTEL_OUTPUT_LVDS] 138500 120000 None = Some (ok, best) ∧
     if ok : bool then good best ∧ (∀ c, good c → c_n best <= c_n c) ∧ below_first (λ c, fit c ∧ c_n c = c_n best) 138500 best
     else best = dpll0 ∧ ∀ c, ¬ good c) ∧
  find_dpll demo_ilk (intel_limit demo_ilk [INTEL_OUTPUT_LVDS] 120000) [INTEL_OUTPUT_LVDS] 138500 120000 None = Some (true, mk_dpll 1 14 5 4 7 124285 3480000 87 28).
Proof. split; [apply (pll_search_first_n demo_ilk [INTEL_OUTPUT_LVDS] 138500 120000 None); done|by vm_compute]. Defined.

(** 27 MHz (720x480) has exact divisors but gets others; 241.5 MHz gets none, with success. *)
Lemma vlv_search_always_succeeds_witness :
  (∃ c, find_dpll demo_vlv (intel_limit demo_vlv [INTEL_OUTPUT_HDMI] 100000) [INTEL_OUTPUT_HDMI] 27000 100000 None = Some (true, c) ∧
    (c = dpll0 ∨
     1 <= c_n c ∧ within (range 2 3) (c_m1 c) ∧ 2 < c_p1 c <= 3 ∧
     4000000 <= u32 (100000 / c_n c * u32 (c_m1 c * c_m2 c)) < 6000000)) ∧
  find_dpll demo_vlv (intel_limit demo_vlv [INTEL_OUTPUT_HDMI] 100000) [INTEL_OUTPUT_HDMI] 27000 100000 None = Some (true, mk_dpll 5 3 68 3 10 0 0 0 0) ∧
  100000 / 5 * (3 * 68) / (3 * 10) = 136000 ∧ 100000 / 2 * (3 * 27) / (3 * 10) = 5 * 27000 ∧
  find_dpll demo_vlv (intel_limit demo_vlv [INTEL_OUTPUT_HDMI] 100000) [INTEL_OUTPUT_HDMI] 241500 100000 None = Some (true, dpll0).
Proof. split; [by apply (vlv_search_always_succeeds demo_vlv [INTEL_OUTPUT_HDMI] 27000 100000 None)|]. by vm_compute. Defined.

(** The reduced clock of the Ironlake panel has p1 = 5, the full one p1 = 4. *)
Lemma reduced_clock_p_witness :
  (let limit := intel_limit demo_ilk [INTEL_OUTPUT_LVDS] 120000 in
   (pch_split demo_ilk || is_g4x demo_ilk || is_valleyview (info demo_ilk) = false → ∃ red, reduced demo_ilk limit [INTEL_OUTPUT_LVDS] 120000 dpll0 = Some red ∧ ∀ c, red = Some c → c_p c = c_p dpll0) ∧
   (pch_split demo_ilk || is_g4x demo_ilk = true → is_pineview demo_ilk = false →
      ∃ red, ∀ clock', reduced demo_ilk limit [INTEL_OUTPUT_LVDS] 120000 clock' = Some red)) ∧
  ∃ k red, ironlake_compute_clocks demo_ilk [INTEL_OUTPUT_LVDS] 138500 = Some (Some (k, Some red)) ∧ c_p1 k = 4 ∧ c_p1 red = 5.
Proof. split; [by apply (reduced_clock_p demo_ilk [INTEL_OUTPUT_LVDS] 120000 dpll0)|]. eexists _, _. by vm_compute. Defined.
