(* ===== verification/PllRegs.v ===== *)
(** * i915: the PLL registers of a pipe

    How the divisors of a clock get into the registers of gen 2 to 4 (intel_display.c,
    i9xx_update_pll and i8xx_update_pll) and how intel_crtc_clock_get reads a clock back.
    The theorems: after the writes, what is read is the clock of the divisors, at the
    reference the reader assumes. *)

From stdpp Require Import base option list.
From Stdlib Require Import ZArith Lia.
From S2P Require Import Prelude Fences Pll.
#[local] Open Scope Z_scope.

(** ** Registers *)

(** i915_reg.h *)
Definition DPLL_VCO_ENABLE : Z := Z.shiftl 1 31.
Definition DPLL_DVO_HIGH_SPEED : Z := Z.shiftl 1 30.
Definition DPLL_VGA_MODE_DIS : Z := Z.shiftl 1 28.
Definition DPLLB_MODE_DAC_SERIAL : Z := Z.shiftl 1 26.
Definition DPLLB_MODE_LVDS : Z := Z.shiftl 2 26.
Definition DPLL_MODE_MASK : Z := Z.shiftl 3 26.
Definition DPLL_DAC_SERIAL_P2_CLOCK_DIV_10 : Z := Z.shiftl 0 24.
Definition DPLL_DAC_SERIAL_P2_CLOCK_DIV_5 : Z := Z.shiftl 1 24.
Definition DPLLB_LVDS_P2_CLOCK_DIV_14 : Z := Z.shiftl 0 24.
Definition DPLLB_LVDS_P2_CLOCK_DIV_7 : Z := Z.shiftl 1 24.
Definition DPLL_FPA01_P1_POST_DIV_MASK : Z := 0x00ff0000.
Definition DPLL_FPA01_P1_POST_DIV_MASK_PINEVIEW : Z := 0x00ff8000.
Definition DPLL_FPA01_P1_POST_DIV_MASK_I830 : Z := 0x001f0000.
Definition DPLL_FPA01_P1_POST_DIV_MASK_I830_LVDS : Z := 0x003f0000.
Definition DPLL_FPA01_P1_POST_DIV_SHIFT : Z := 16.
Definition DPLL_FPA01_P1_POST_DIV_SHIFT_PINEVIEW : Z := 15.
Definition PLL_P2_DIVIDE_BY_4 : Z := Z.shiftl 1 23.
Definition PLL_P1_DIVIDE_BY_TWO : Z := Z.shiftl 1 21.
Definition PLL_REF_INPUT_DREFCLK : Z := Z.shiftl 0 13.
Definition PLL_REF_INPUT_TVCLKINBC : Z := Z.shiftl 2 13.
Definition PLLB_REF_INPUT_SPREADSPECTRUMIN : Z := Z.shiftl 3 13.
Definition PLL_REF_INPUT_MASK : Z := Z.shiftl 3 13.
Definition PLL_LOAD_PULSE_PHASE_SHIFT : Z := 9.
Definition DPLL_FPA1_P1_POST_DIV_SHIFT : Z := 0.
Definition DISPLAY_RATE_SELECT_FPA1 : Z := Z.shiftl 1 8.
Definition SDVO_MULTIPLIER_SHIFT_HIRES : Z := 4.
Definition DPLL_MD_UDI_MULTIPLIER_SHIFT : Z := 8.
Definition FP_N_DIV_MASK : Z := 0x003f0000.
Definition FP_N_PINEVIEW_DIV_MASK : Z := 0x00ff0000.
Definition FP_N_DIV_SHIFT : Z := 16.
Definition FP_M1_DIV_MASK : Z := 0x00003f00.
Definition FP_M1_DIV_SHIFT : Z := 8.
Definition FP_M2_DIV_MASK : Z := 0x0000003f.
Definition FP_M2_PINEVIEW_DIV_MASK : Z := 0x000000ff.
Definition FP_M2_DIV_SHIFT : Z := 0.
Definition LVDS_PORT_EN : Z := Z.shiftl 1 31.

(** The registers of one pipe, and the writes of an operation in order. *)
Inductive pll_reg := FP0 | FP1 | DPLL | DPLL_MD.
#[global] Instance pll_reg_eq_dec : EqDecision pll_reg.
Proof. solve_decision. Defined.

Definition pll_write (r : pll_reg → Z) (w : pll_reg * Z) : pll_reg → Z := λ x, if decide (x = w.1) then u32 w.2 else r x.
Definition pll_writes (r : pll_reg → Z) (ws : list (pll_reg * Z)) : pll_reg → Z := foldl pll_write r ws.

(** ** Writing *)

(** The part of [struct intel_crtc_config] the PLL depends on, with the encoders of the
    crtc; [powersave]: the module parameter i915_powersave. *)
Record pll_config := mk_pll_config { encoders : list Z; pixel_multiplier : Z; sdvo_tv_clock : bool; has_dp_encoder : bool; config_dpll : dpll; powersave : bool }.

Definition pnv_dpll_compute_fp (k : dpll) : Z := Z.lor (Z.shiftl (Z.shiftl 1 (c_n k)) 16) (c_m2 k).
Definition i9xx_dpll_compute_fp (k : dpll) : Z := Z.lor (Z.lor (Z.shiftl (c_n k) 16) (Z.shiftl (c_m1 k) 8)) (c_m2 k).

(** The writes, and lowfreq_avail. *)
Definition i9xx_update_pll_dividers (dev : display_dev) (cfg : pll_config) (reduced_clock : option dpll) : list (pll_reg * Z) * bool :=
  let compute_fp := if is_pineview dev then pnv_dpll_compute_fp else i9xx_dpll_compute_fp in
  let fp := compute_fp (config_dpll cfg) in
  match reduced_clock with
  | Some red => if intel_pipe_has_type (encoders cfg) INTEL_OUTPUT_LVDS && powersave cfg then ([(FP0, fp); (FP1, compute_fp red)], true) else ([(FP0, fp); (FP1, fp)], false)
  | None => ([(FP0, fp); (FP1, fp)], false)
  end.

Definition reference_input (dev : display_dev) (cfg : pll_config) : Z :=
  if intel_pipe_has_type (encoders cfg) INTEL_OUTPUT_LVDS && panel_use_ssc dev && (Z.of_nat (length (encoders cfg)) <? 2) then PLLB_REF_INPUT_SPREADSPECTRUMIN
  else PLL_REF_INPUT_DREFCLK.

(** The value of the DPLL register without DPLL_VCO_ENABLE; the tests of [dpll |= ...] are
    the terms that may be 0. *)
Definition i9xx_dpll (dev : display_dev) (cfg : pll_config) (reduced_clock : option dpll) : Z :=
  let k := config_dpll cfg in
  let has := intel_pipe_has_type (encoders cfg) in
  let dpll := DPLL_VGA_MODE_DIS in
  let dpll := Z.lor dpll (if has INTEL_OUTPUT_LVDS then DPLLB_MODE_LVDS else DPLLB_MODE_DAC_SERIAL) in
  let dpll := Z.lor dpll (if is_i945 (info dev) || is_g33 (info dev) then Z.shiftl (pixel_multiplier cfg - 1) SDVO_MULTIPLIER_SHIFT_HIRES else 0) in
  let dpll := Z.lor dpll (if has INTEL_OUTPUT_SDVO || has INTEL_OUTPUT_HDMI then DPLL_DVO_HIGH_SPEED else 0) in
  let dpll := Z.lor dpll (if has INTEL_OUTPUT_DISPLAYPORT then DPLL_DVO_HIGH_SPEED else 0) in
  let dpll :=
    if is_pineview dev then Z.lor dpll (Z.shiftl (Z.shiftl 1 (c_p1 k - 1)) DPLL_FPA01_P1_POST_DIV_SHIFT_PINEVIEW)
    else
      let dpll := Z.lor dpll (Z.shiftl (Z.shiftl 1 (c_p1 k - 1)) DPLL_FPA01_P1_POST_DIV_SHIFT) in
      match reduced_clock with
      | Some red => Z.lor dpll (if is_g4x dev then Z.shiftl (Z.shiftl 1 (c_p1 red - 1)) DPLL_FPA1_P1_POST_DIV_SHIFT else 0)
      | None => dpll
      end in
  let dpll := Z.lor dpll (if c_p2 k =? 5 then DPLL_DAC_SERIAL_P2_CLOCK_DIV_5 else if c_p2 k =? 7 then DPLLB_LVDS_P2_CLOCK_DIV_7
    else if c_p2 k =? 10 then DPLL_DAC_SERIAL_P2_CLOCK_DIV_10 else if c_p2 k =? 14 then DPLLB_LVDS_P2_CLOCK_DIV_14 else 0) in
  let dpll := Z.lor dpll (if 4 <=? gen (info dev) then Z.shiftl 6 PLL_LOAD_PULSE_PHASE_SHIFT else 0) in
  Z.lor dpll (if sdvo_tv_clock cfg then PLL_REF_INPUT_TVCLKINBC else reference_input dev cfg).

(** [pre_pll]: the callbacks of the encoders and the link values of DisplayPort, which
    do not write these registers. *)
Definition i9xx_update_pll (dev : display_dev) (cfg : pll_config) (reduced_clock : option dpll) : list (pll_reg * Z) :=
  let dpll := Z.lor (i9xx_dpll dev cfg reduced_clock) DPLL_VCO_ENABLE in
  (i9xx_update_pll_dividers dev cfg reduced_clock).1 ++
  [(DPLL, Z.land dpll (Z.lnot DPLL_VCO_ENABLE)); (DPLL, dpll);
   if 4 <=? gen (info dev) then (DPLL_MD, Z.shiftl (pixel_multiplier cfg - 1) DPLL_MD_UDI_MULTIPLIER_SHIFT) else (DPLL, dpll)].

Definition i8xx_dpll (dev : display_dev) (cfg : pll_config) : Z :=
  let k := config_dpll cfg in
  let dpll := DPLL_VGA_MODE_DIS in
  let dpll :=
    if intel_pipe_has_type (encoders cfg) INTEL_OUTPUT_LVDS then Z.lor dpll (Z.shiftl (Z.shiftl 1 (c_p1 k - 1)) DPLL_FPA01_P1_POST_DIV_SHIFT)
    else
      let dpll := Z.lor dpll (if c_p1 k =? 2 then PLL_P1_DIVIDE_BY_TWO else Z.shiftl (c_p1 k - 2) DPLL_FPA01_P1_POST_DIV_SHIFT) in
      Z.lor dpll (if c_p2 k =? 4 then PLL_P2_DIVIDE_BY_4 else 0) in
  Z.lor dpll (reference_input dev cfg).

Definition i8xx_update_pll (dev : display_dev) (cfg : pll_config) (reduced_clock : option dpll) : list (pll_reg * Z) :=
  let dpll := Z.lor (i8xx_dpll dev cfg) DPLL_VCO_ENABLE in
  (i9xx_update_pll_dividers dev cfg reduced_clock).1 ++
  [(DPLL, Z.land dpll (Z.lnot DPLL_VCO_ENABLE)); (DPLL, dpll); (DPLL, dpll)].

(** ** Reading *)

(** [pipe]: the number of the pipe; [lvds]: the LVDS register.  [None]: a division by
    zero. *)
Definition intel_crtc_clock_get (dev : display_dev) (pipe : Z) (regs : pll_reg → Z) (lvds : Z) : option Z :=
  let dpll := regs DPLL in
  let fp := if Z.land dpll DISPLAY_RATE_SELECT_FPA1 =? 0 then regs FP0 else regs FP1 in
  let m1 := Z.shiftr (Z.land fp FP_M1_DIV_MASK) FP_M1_DIV_SHIFT in
  let '(n, m2) :=
    if is_pineview dev then (ffs (Z.shiftr (Z.land fp FP_N_PINEVIEW_DIV_MASK) FP_N_DIV_SHIFT) - 1, Z.shiftr (Z.land fp FP_M2_PINEVIEW_DIV_MASK) FP_M2_DIV_SHIFT)
    else (Z.shiftr (Z.land fp FP_N_DIV_MASK) FP_N_DIV_SHIFT, Z.shiftr (Z.land fp FP_M2_DIV_MASK) FP_M2_DIV_SHIFT) in
  if negb (IS_GEN2 (info dev)) then
    let p1 :=
      if is_pineview dev then ffs (Z.shiftr (Z.land dpll DPLL_FPA01_P1_POST_DIV_MASK_PINEVIEW) DPLL_FPA01_P1_POST_DIV_SHIFT_PINEVIEW)
      else ffs (Z.shiftr (Z.land dpll DPLL_FPA01_P1_POST_DIV_MASK) DPLL_FPA01_P1_POST_DIV_SHIFT) in
    let clock p2 := k ← (if is_pineview dev then pineview_clock 96000 else i9xx_clock 96000) (divisors n m1 m2 p1 p2); Some (c_dot k) in
    let mode := Z.land dpll DPLL_MODE_MASK in
    if mode =? DPLLB_MODE_DAC_SERIAL then clock (if z2b (Z.land dpll DPLL_DAC_SERIAL_P2_CLOCK_DIV_5) then 5 else 10)
    else if mode =? DPLLB_MODE_LVDS then clock (if z2b (Z.land dpll DPLLB_LVDS_P2_CLOCK_DIV_7) then 7 else 14)
    else Some 0
  else if (pipe =? 1) && z2b (Z.land lvds LVDS_PORT_EN) then
    let p1 := ffs (Z.shiftr (Z.land dpll DPLL_FPA01_P1_POST_DIV_MASK_I830_LVDS) DPLL_FPA01_P1_POST_DIV_SHIFT) in
    k ← i9xx_clock (if Z.land dpll PLL_REF_INPUT_MASK =? PLLB_REF_INPUT_SPREADSPECTRUMIN then 66000 else 48000) (divisors n m1 m2 p1 14);
    Some (c_dot k)
  else
    let p1 := if z2b (Z.land dpll PLL_P1_DIVIDE_BY_TWO) then 2
              else Z.shiftr (Z.land dpll DPLL_FPA01_P1_POST_DIV_MASK_I830) DPLL_FPA01_P1_POST_DIV_SHIFT + 2 in
    let p2 := if z2b (Z.land dpll PLL_P2_DIVIDE_BY_4) then 4 else 2 in
    k ← i9xx_clock 48000 (divisors n m1 m2 p1 p2);
    Some (c_dot k).

(** ** Fields *)

Lemma mask_field z low len : 0 <= low → 0 <= len → Z.shiftr (Z.land z (Z.shiftl (Z.ones len) low)) low = (z / 2 ^ low) mod 2 ^ len.
Proof.
  intros Hl Hn. rewrite Z.shiftr_land, Z.shiftr_shiftl_l, Z.sub_diag, Z.shiftl_0_r by lia. by rewrite Z.land_ones, Z.shiftr_div_pow2 by lia.
Qed.

Lemma u32_land z mask : Z.land (Z.ones 32) mask = mask → Z.land (u32 z) mask = Z.land z mask.
Proof. intros Hm. unfold wrap. rewrite <- Z.land_ones by lia. by rewrite <- Z.land_assoc, Hm. Qed.

Lemma fp_value n m1 m2 : 0 <= m1 < 256 → 0 <= m2 < 256 → 0 <= n → Z.lor (Z.lor (Z.shiftl n 16) (Z.shiftl m1 8)) m2 = n * 2 ^ 16 + m1 * 2 ^ 8 + m2.
Proof.
  intros. rewrite !Z.shiftl_mul_pow2 by lia. rewrite (lor_add n 16) by lia. replace (n * 2 ^ 16 + m1 * 2 ^ 8) with ((n * 2 ^ 8 + m1) * 2 ^ 8) by lia. rewrite lor_add by lia. lia.
Qed.

(** What the fields of the registers have room for. *)
Record encodable (dev : display_dev) (crtc : list Z) (k : dpll) : Prop := {
  en_n : 0 <= c_n k <= (if is_pineview dev then 7 else 63);
  en_m1 : 0 <= c_m1 k <= 63;
  en_m2 : 0 <= c_m2 k <= (if is_pineview dev then 255 else 63);
  en_p1 : 1 <= c_p1 k <= 8;
  en_p2 : if intel_pipe_has_type crtc INTEL_OUTPUT_LVDS then c_p2 k = 7 ∨ c_p2 k = 14 else c_p2 k = 5 ∨ c_p2 k = 10;
}.

(** The divisors as the registers hold them in FP0. *)
Lemma fp_decode dev crtc k : encodable dev crtc k →
  let fp := u32 (if is_pineview dev then pnv_dpll_compute_fp k else i9xx_dpll_compute_fp k) in
  (if is_pineview dev then (ffs (Z.shiftr (Z.land fp FP_N_PINEVIEW_DIV_MASK) FP_N_DIV_SHIFT) - 1, Z.shiftr (Z.land fp FP_M2_PINEVIEW_DIV_MASK) FP_M2_DIV_SHIFT)
   else (Z.shiftr (Z.land fp FP_N_DIV_MASK) FP_N_DIV_SHIFT, Z.shiftr (Z.land fp FP_M2_DIV_MASK) FP_M2_DIV_SHIFT)) = (c_n k, c_m2 k) ∧
  (is_pineview dev = false → Z.shiftr (Z.land fp FP_M1_DIV_MASK) FP_M1_DIV_SHIFT = c_m1 k).
Proof.
  intros [Hn Hm1 Hm2 _ _]. destruct (is_pineview dev).
  - split; [|done]. unfold pnv_dpll_compute_fp. cbv zeta.
    assert (Z.lor (Z.shiftl (Z.shiftl 1 (c_n k)) 16) (c_m2 k) = 2 ^ c_n k * 2 ^ 16 + c_m2 k) as ->.
    { rewrite Z.shiftl_1_l, Z.shiftl_mul_pow2 by lia. rewrite lor_add by lia. done. }
    assert (2 ^ c_n k <= 2 ^ 7) as Hp by (apply Z.pow_le_mono_r; lia). pose proof (Z.pow_pos_nonneg 2 (c_n k) ltac:(lia) ltac:(lia)) as Hpos.
    rewrite u32_id by lia. change FP_N_PINEVIEW_DIV_MASK with (Z.shiftl (Z.ones 8) 16). change FP_M2_PINEVIEW_DIV_MASK with (Z.shiftl (Z.ones 8) 0).
    unfold FP_N_DIV_SHIFT, FP_M2_DIV_SHIFT. rewrite !mask_field by lia. rewrite (bits_at 16 8 (2 ^ c_n k) 0 (c_m2 k)) by lia.
    rewrite (bits_at 0 8 (c_m2 k) (2 ^ c_n k * 2 ^ 8) 0) by lia. rewrite ffs_pow2 by lia. f_equal. lia.
  - unfold i9xx_dpll_compute_fp. cbv zeta. rewrite fp_value by lia. rewrite u32_id by lia.
    change FP_N_DIV_MASK with (Z.shiftl (Z.ones 6) 16). change FP_M2_DIV_MASK with (Z.shiftl (Z.ones 6) 0). change FP_M1_DIV_MASK with (Z.shiftl (Z.ones 6) 8).
    unfold FP_N_DIV_SHIFT, FP_M2_DIV_SHIFT, FP_M1_DIV_SHIFT. rewrite !mask_field by lia.
    rewrite (bits_at 16 6 (c_n k) 0 (c_m1 k * 2 ^ 8 + c_m2 k)) by lia. rewrite (bits_at 0 6 (c_m2 k) (c_n k * 2 ^ 10 + c_m1 k * 2 ^ 2) 0) by lia. split; [done|]. intros _.
    by rewrite (bits_at 8 6 (c_m1 k) (c_n k * 2 ^ 2) (c_m2 k)) by lia.
Qed.

(** The masks that the reader applies. *)
Definition read_mask (m : Z) : Prop :=
  m ∈ [DISPLAY_RATE_SELECT_FPA1; DPLL_MODE_MASK; DPLL_DAC_SERIAL_P2_CLOCK_DIV_5; DPLL_FPA01_P1_POST_DIV_MASK_PINEVIEW; DPLL_FPA01_P1_POST_DIV_MASK].

Ltac each_mask H := unfold read_mask in H; rewrite !elem_of_cons, elem_of_nil in H; destruct_or! H; try done; subst.

Ltac elem_tac := solve [repeat first [by left|right]].

(** Small numbers, one by one. *)
Ltac each_value x hi := match hi with
  | 0 => lia
  | _ => destruct (decide (x = hi)) as [->|]; [|let h := eval cbv in (hi - 1) in each_value x h]
  end.

Lemma multiplier_hidden m x : read_mask m → 1 <= x <= 5 → Z.land (Z.shiftl (x - 1) SDVO_MULTIPLIER_SHIFT_HIRES) m = 0.
Proof. intros Hm Hx. each_mask Hm; each_value x 5; reflexivity. Qed.

Lemma reduced_hidden m x : read_mask m → 1 <= x <= 8 → Z.land (Z.shiftl (Z.shiftl 1 (x - 1)) DPLL_FPA1_P1_POST_DIV_SHIFT) m = 0.
Proof. intros Hm Hx. each_mask Hm; each_value x 8; reflexivity. Qed.

Lemma land_if (b : bool) x y m : Z.land (if b then x else y) m = if b then Z.land x m else Z.land y m.
Proof. by destruct b. Qed.

Lemma i9xx_dpll_terms dev cfg red m : read_mask m → 1 <= pixel_multiplier cfg <= 5 → (∀ r, red = Some r → 1 <= c_p1 r <= 8) →
  Z.land (Z.lor (i9xx_dpll dev cfg red) DPLL_VCO_ENABLE) m =
  Z.lor (Z.lor (Z.land (if intel_pipe_has_type (encoders cfg) INTEL_OUTPUT_LVDS then DPLLB_MODE_LVDS else DPLLB_MODE_DAC_SERIAL) m)
    (Z.land (Z.shiftl (Z.shiftl 1 (c_p1 (config_dpll cfg) - 1)) (if is_pineview dev then 15 else 16)) m))
    (Z.land (if c_p2 (config_dpll cfg) =? 5 then DPLL_DAC_SERIAL_P2_CLOCK_DIV_5 else if c_p2 (config_dpll cfg) =? 7 then DPLLB_LVDS_P2_CLOCK_DIV_7
    else if c_p2 (config_dpll cfg) =? 10 then DPLL_DAC_SERIAL_P2_CLOCK_DIV_10 else if c_p2 (config_dpll cfg) =? 14 then DPLLB_LVDS_P2_CLOCK_DIV_14 else 0) m).
Proof.
  intros Hm Hmult Hred. unfold i9xx_dpll, reference_input. cbv zeta.
  assert (∀ x, x ∈ [DPLL_VGA_MODE_DIS; DPLL_DVO_HIGH_SPEED; Z.shiftl 6 PLL_LOAD_PULSE_PHASE_SHIFT; PLL_REF_INPUT_TVCLKINBC; PLLB_REF_INPUT_SPREADSPECTRUMIN; PLL_REF_INPUT_DREFCLK; DPLL_VCO_ENABLE; 0] → Z.land x m = 0) as Hz.
  { intros x Hx. rewrite !elem_of_cons, elem_of_nil in Hx. destruct_or! Hx; try done; subst; each_mask Hm; reflexivity. }
  assert (∀ (b : bool) x y, Z.land x m = 0 → Z.land y m = 0 → Z.land (if b then x else y) m = 0) as Hif by (by intros []).
  destruct (is_pineview dev), red as [r|]; rewrite !Z.land_lor_distr_l; rewrite (Hz DPLL_VGA_MODE_DIS), (Hz DPLL_VCO_ENABLE) by elem_tac;
    rewrite (Hif _ DPLL_DVO_HIGH_SPEED 0) by (apply Hz; elem_tac).
  all: rewrite !(Hif _ DPLL_DVO_HIGH_SPEED 0) by (apply Hz; elem_tac).
  all: rewrite (Hif _ (Z.shiftl 6 PLL_LOAD_PULSE_PHASE_SHIFT) 0) by (apply Hz; elem_tac).
  all: rewrite (Hif (sdvo_tv_clock cfg)) by (try apply Hif; apply Hz; elem_tac).
  all: rewrite (Hif _ (Z.shiftl (pixel_multiplier cfg - 1) _) 0) by (try (apply Hz; elem_tac); by apply multiplier_hidden).
  all: try rewrite (Hif _ (Z.shiftl (Z.shiftl 1 (c_p1 r - 1)) _) 0) by (try (apply Hz; elem_tac); apply reduced_hidden; auto).
  all: by rewrite ?Z.lor_0_r, ?Z.lor_0_l.
Qed.

Lemma i9xx_dpll_fields dev cfg red : encodable dev (encoders cfg) (config_dpll cfg) → 1 <= pixel_multiplier cfg <= 5 →
  (∀ r, red = Some r → 1 <= c_p1 r <= 8) →
  let k := config_dpll cfg in
  let dpll := u32 (Z.lor (i9xx_dpll dev cfg red) DPLL_VCO_ENABLE) in
  Z.land dpll DISPLAY_RATE_SELECT_FPA1 = 0 ∧
  Z.land dpll DPLL_MODE_MASK = (if intel_pipe_has_type (encoders cfg) INTEL_OUTPUT_LVDS then DPLLB_MODE_LVDS else DPLLB_MODE_DAC_SERIAL) ∧
  z2b (Z.land dpll DPLL_DAC_SERIAL_P2_CLOCK_DIV_5) = (c_p2 k =? 5) || (c_p2 k =? 7) ∧
  (if is_pineview dev then ffs (Z.shiftr (Z.land dpll DPLL_FPA01_P1_POST_DIV_MASK_PINEVIEW) DPLL_FPA01_P1_POST_DIV_SHIFT_PINEVIEW)
   else ffs (Z.shiftr (Z.land dpll DPLL_FPA01_P1_POST_DIV_MASK) DPLL_FPA01_P1_POST_DIV_SHIFT)) = c_p1 k.
Proof.
  intros [_ _ _ Hp1 Hp2] Hmult Hred. cbv zeta. rewrite !u32_land by reflexivity.
  assert (∀ m, read_mask m → _) as Hterms by (intros m Hm; apply (i9xx_dpll_terms dev cfg red m Hm Hmult Hred)).
  rewrite !Hterms by (unfold read_mask; elem_tac). destruct (intel_pipe_has_type (encoders cfg) INTEL_OUTPUT_LVDS), Hp2 as [-> | ->], (is_pineview dev);
    revert Hp1; generalize (c_p1 (config_dpll cfg)); intros x Hx; each_value x 8; by vm_compute.
Qed.

(** ** From the search to the registers *)

(** What a search returns fits, by the theorems of [Pll]. *)
Lemma find_dpll_fits dev crtc target refclk mc k : is_valleyview (info dev) = false → (pch_split dev || is_g4x dev = true → is_pineview dev = false) →
  0 < target <= 2 ^ 30 → 0 < refclk <= 1000000 → find_dpll dev (intel_limit dev crtc refclk) crtc target refclk mc = Some (true, k) →
  ∃ mc', fits (is_pineview dev) (intel_limit dev crtc refclk) refclk (choose_p2 dev crtc (intel_limit dev crtc refclk) target) mc' k.
Proof.
  intros Hv Hg Ht Hr Hrun. pose proof (limits_ok _ (intel_limit_in dev crtc refclk)) as Hl. unfold find_dpll in Hrun. rewrite Hv in Hrun.
  destruct (pch_split dev || is_g4x dev).
  - exists None. rewrite (Hg eq_refl). destruct (g4x_first_good dev crtc (intel_limit dev crtc refclk) target refclk mc Hl Hr Ht (Hg eq_refl)) as (r & Hrun' & Hc).
    rewrite Hrun in Hrun'. injection Hrun' as <-. apply Hc.
  - exists mc. destruct (is_pineview dev) eqn:Hp.
    + destruct (pnv_cheapest dev crtc (intel_limit dev crtc refclk) target refclk mc Hl Hr Ht Hp) as (r & Hrun' & Hc). rewrite Hrun in Hrun'. injection Hrun' as <-. apply Hc.
    + destruct (i9xx_cheapest dev crtc (intel_limit dev crtc refclk) target refclk mc Hl Hr Ht Hp) as (r & Hrun' & Hc). rewrite Hrun in Hrun'. injection Hrun' as <-. apply Hc.
Qed.

(** The tables of gen 3 and 4 respect the registers. *)
Lemma fits_encodable dev crtc refclk target mc k : IS_GEN2 (info dev) = false → is_valleyview (info dev) = false → pch_split dev = false →
  (pch_split dev || is_g4x dev = true → is_pineview dev = false) →
  fits (is_pineview dev) (intel_limit dev crtc refclk) refclk (choose_p2 dev crtc (intel_limit dev crtc refclk) target) mc k → encodable dev crtc k.
Proof.
  intros Hg2 Hv Hpch Hg Hf. pose proof (fits_n _ _ _ _ _ _ Hf) as Hn. pose proof (fits_m1 _ _ _ _ _ _ Hf) as Hm1. pose proof (fits_m2 _ _ _ _ _ _ Hf) as Hm2.
  pose proof (fits_p1 _ _ _ _ _ _ Hf) as Hp1. pose proof (fits_p2 _ _ _ _ _ _ Hf) as Hp2. clear Hf. unfold choose_p2, intel_limit, intel_g4x_limit in *.
  rewrite Hg2, Hv, Hpch in *. unfold within in *. cbn [negb orb] in *.
  destruct (is_g4x dev), (is_pineview dev) eqn:Hpin, (intel_pipe_has_type crtc INTEL_OUTPUT_LVDS) eqn:Hlv; try (specialize (Hg eq_refl); done);
    repeat case_match; cbn in Hn, Hm1, Hm2, Hp1, Hp2; constructor; rewrite ?Hpin, ?Hlv; lia.
Qed.

(** The clock that is read back, for divisors the registers have room for. *)
Lemma clock_get_i9xx dev cfg red pipe regs lvds : IS_GEN2 (info dev) = false → encodable dev (encoders cfg) (config_dpll cfg) → 1 <= pixel_multiplier cfg <= 5 →
  (∀ r, red = Some r → 1 <= c_p1 r <= 8) → let k := config_dpll cfg in
  ∃ m1, (is_pineview dev = false → m1 = c_m1 k) ∧
  intel_crtc_clock_get dev pipe (pll_writes regs (i9xx_update_pll dev cfg red)) lvds =
    (k' ← (if is_pineview dev then pineview_clock 96000 else i9xx_clock 96000) (divisors (c_n k) m1 (c_m2 k) (c_p1 k) (c_p2 k)); Some (c_dot k')).
Proof.
  intros Hg2 He Hmult Hred k. destruct (i9xx_dpll_fields dev cfg red He Hmult Hred) as (Hsel & Hmode & H24 & Hp1).
  destruct (fp_decode dev (encoders cfg) k He) as [Hfp Hm1]. set (fp := u32 (if is_pineview dev then pnv_dpll_compute_fp k else i9xx_dpll_compute_fp k)) in *.
  set (dpll := u32 (Z.lor (i9xx_dpll dev cfg red) DPLL_VCO_ENABLE)) in *. set (regs' := pll_writes regs (i9xx_update_pll dev cfg red)).
  assert (regs' DPLL = dpll ∧ regs' FP0 = fp) as [Hd Hf].
  { unfold regs', i9xx_update_pll, i9xx_update_pll_dividers, pll_writes. unfold dpll, fp, k. destruct red as [r|], (is_pineview dev), (4 <=? gen (info dev)); try destruct (_ && powersave cfg); by split. }
  exists (Z.shiftr (Z.land fp FP_M1_DIV_MASK) FP_M1_DIV_SHIFT). split; [done|]. unfold intel_crtc_clock_get. rewrite Hd, Hsel, Hf. cbn [Z.eqb]. rewrite Hg2, Hmode, Hp1. cbn [negb].
  rewrite Hfp. cbv iota beta zeta. change DPLLB_LVDS_P2_CLOCK_DIV_7 with DPLL_DAC_SERIAL_P2_CLOCK_DIV_5. rewrite H24. pose proof (en_p2 _ _ _ He) as Hp2. fold k in Hp2.
  destruct (intel_pipe_has_type (encoders cfg) INTEL_OUTPUT_LVDS), Hp2 as [Hp2|Hp2]; fold k; rewrite Hp2; done.
Qed.

Lemma reduced_fits dev crtc refclk clock r : is_valleyview (info dev) = false → (pch_split dev || is_g4x dev = true → is_pineview dev = false) →
  (lvds_downclock_avail dev = true → 0 < lvds_downclock dev <= 2 ^ 30) → 0 < refclk <= 1000000 → reduced dev (intel_limit dev crtc refclk) crtc refclk clock = Some (Some r) →
  ∃ mc', fits (is_pineview dev) (intel_limit dev crtc refclk) refclk (choose_p2 dev crtc (intel_limit dev crtc refclk) (lvds_downclock dev)) mc' r.
Proof.
  intros Hv Hg Hd Hr Hred. unfold reduced in Hred. destruct (_ && lvds_downclock_avail dev) eqn:Ha; [|done]. apply andb_true_iff in Ha as [_ Ha].
  destruct (find_dpll _ _ _ _ _ _) as [[ok best]|] eqn:Hrun; [|done]. cbn in Hred. destruct ok; [|done]. injection Hred as <-.
  eapply find_dpll_fits; eauto.
Qed.

(** The clock of the divisors of [k] at the reference [refclk]. *)
Definition clock_at (pineview : bool) (refclk : Z) (k : dpll) : Z := refclk * c_m k / (if pineview then c_n k else c_n k + 2) / c_p k.

Lemma pineview_ignores_m1 ref n m1 m1' m2 p1 p2 :
  (k ← pineview_clock ref (divisors n m1 m2 p1 p2); Some (c_dot k)) = (k ← pineview_clock ref (divisors n m1' m2 p1 p2); Some (c_dot k)).
Proof. unfold pineview_clock. cbn [c_n c_m1 c_m2 c_p1 c_p2 divisors]. destruct (cdiv _ n); [cbn|done]. by destruct (cdiv _ _). Qed.

Lemma clock_of_fits pineview limit refclk p2 mc k m1 : limit_ok limit = true → 0 < refclk <= 1000000 → 1 <= p2 <= 20 → fits pineview limit refclk p2 mc k →
  (pineview = false → m1 = c_m1 k) → ∀ ref, 0 < ref <= 1000000 →
  (k' ← (if pineview then pineview_clock ref else i9xx_clock ref) (divisors (c_n k) m1 (c_m2 k) (c_p1 k) (c_p2 k)); Some (c_dot k')) = Some (clock_at pineview ref k).
Proof.
  intros Hl Hr Hp2 Hf Hm1 ref Href. pose proof (fits_p2 _ _ _ _ _ _ Hf) as H2. pose proof (fits_p_eq _ _ _ _ _ _ Hf) as Hp. pose proof (fits_m_eq _ _ _ _ _ _ Hf) as Hm.
  assert (in_range limit p2 (divisors (c_n k) (c_m1 k) (c_m2 k) (c_p1 k) (c_p2 k))) as Hin by (constructor; try apply Hf; done).
  pose proof (clock_of_exact pineview limit ref p2 Hl Href Hp2 _ Hin) as Hc. unfold clock_of in Hc. unfold clock_at. rewrite Hp, Hm. destruct pineview.
  - rewrite (pineview_ignores_m1 ref (c_n k) m1 (c_m1 k)).
    rewrite Hc. done.
  - rewrite (Hm1 eq_refl), Hc. done.
Qed.

(** ** Theorems *)

(** C26 (mode_set_clock_roundtrip): on gen 3 and 4, after i9xx_crtc_mode_set has chosen the divisors and written
    them, intel_crtc_clock_get finds exactly these divisors in the registers: it returns
    their clock at a reference of 96 MHz, which is the clock of the mode unless the pipe
    runs from the spread-spectrum reference. *)
Theorem mode_set_clock_roundtrip dev cfg port_clock cfg0 red pipe regs lvds :
  IS_GEN2 (info dev) = false → is_valleyview (info dev) = false → pch_split dev = false → (is_g4x dev = true → is_pineview dev = false) →
  let refclk := i9xx_get_refclk dev (encoders cfg) (Z.of_nat (length (encoders cfg))) in
  0 < port_clock <= 2 ^ 30 → (lvds_downclock_avail dev = true → 0 < lvds_downclock dev <= 2 ^ 30) → 0 < refclk <= 1000000 → 1 <= pixel_multiplier cfg <= 5 →
  i9xx_mode_clocks dev (encoders cfg) port_clock false cfg0 = Some (inr (config_dpll cfg, red)) →
  ∃ k, find_dpll dev (intel_limit dev (encoders cfg) refclk) (encoders cfg) port_clock refclk None = Some (true, k) ∧
    intel_crtc_clock_get dev pipe (pll_writes regs (i9xx_update_pll dev cfg red)) lvds = Some (clock_at (is_pineview dev) 96000 k) ∧
    (refclk = 96000 → clock_at (is_pineview dev) 96000 k = c_dot k).
Proof.
  intros Hg2 Hv Hpch Hg refclk Ht Hd Hr Hmult Hrun. unfold i9xx_mode_clocks in Hrun. fold refclk in Hrun. set (limit := intel_limit dev (encoders cfg) refclk) in *.
  assert (pch_split dev || is_g4x dev = true → is_pineview dev = false) as Hg' by by rewrite Hpch.
  destruct (find_dpll dev limit (encoders cfg) port_clock refclk None) as [[ok k]|] eqn:Hfind; [|done]. cbn in Hrun. destruct ok; [|done]. cbn [negb andb] in Hrun.
  destruct (reduced dev limit (encoders cfg) refclk k) as [red'|] eqn:Hred; [|done]. cbn in Hrun. injection Hrun as Hk <-.
  exists k. split; [done|]. destruct (find_dpll_fits dev (encoders cfg) port_clock refclk None k Hv Hg' Ht Hr Hfind) as (mc & Hf). fold limit in Hf.
  pose proof (limits_ok limit (intel_limit_in dev (encoders cfg) refclk)) as Hl.
  pose proof (fits_encodable dev (encoders cfg) refclk port_clock mc k Hg2 Hv Hpch Hg' Hf) as He.
  assert (encodable dev (encoders cfg) (config_dpll cfg)) as He' by (rewrite <- Hk; by destruct He).
  destruct (clock_get_i9xx dev cfg red' pipe regs lvds Hg2 He' Hmult) as (m1 & Hm1 & ->).
  { intros r ->. destruct (reduced_fits dev (encoders cfg) refclk k r Hv Hg' Hd Hr Hred) as (mc' & Hfr).
    apply (fits_encodable dev (encoders cfg) refclk (lvds_downclock dev) mc' r Hg2 Hv Hpch Hg' Hfr). }
  rewrite <- Hk in *. cbn [c_n c_m1 c_m2 c_p1 c_p2] in *. split.
  - eapply clock_of_fits; [exact Hl|exact Hr|by apply choose_p2_ok|exact Hf|done|lia].
  - intros H96. unfold clock_at. rewrite (fits_dot_eq _ _ _ _ _ _ Hf), (fits_vco_eq _ _ _ _ _ _ Hf), H96. done.
Qed.

(** ** Gen 2 *)

Lemma i8xx_dpll_fields dev cfg : (if intel_pipe_has_type (encoders cfg) INTEL_OUTPUT_LVDS then 1 <= c_p1 (config_dpll cfg) <= 6
    else 2 <= c_p1 (config_dpll cfg) <= 33 ∧ (c_p2 (config_dpll cfg) = 2 ∨ c_p2 (config_dpll cfg) = 4)) →
  let k := config_dpll cfg in
  let dpll := u32 (Z.lor (i8xx_dpll dev cfg) DPLL_VCO_ENABLE) in
  Z.land dpll DISPLAY_RATE_SELECT_FPA1 = 0 ∧
  if intel_pipe_has_type (encoders cfg) INTEL_OUTPUT_LVDS then
    ffs (Z.shiftr (Z.land dpll DPLL_FPA01_P1_POST_DIV_MASK_I830_LVDS) DPLL_FPA01_P1_POST_DIV_SHIFT) = c_p1 k ∧
    (Z.land dpll PLL_REF_INPUT_MASK =? PLLB_REF_INPUT_SPREADSPECTRUMIN) = panel_use_ssc dev && (Z.of_nat (length (encoders cfg)) <? 2)
  else
    (if z2b (Z.land dpll PLL_P1_DIVIDE_BY_TWO) then 2 else Z.shiftr (Z.land dpll DPLL_FPA01_P1_POST_DIV_MASK_I830) DPLL_FPA01_P1_POST_DIV_SHIFT + 2) = c_p1 k ∧
    (if z2b (Z.land dpll PLL_P2_DIVIDE_BY_4) then 4 else 2) = c_p2 k.
Proof.
  intros Hp k dpll. unfold dpll, i8xx_dpll, reference_input. fold k. destruct (intel_pipe_has_type (encoders cfg) INTEL_OUTPUT_LVDS); cbv zeta; fold k in Hp.
  - revert Hp. generalize (c_p1 k). intros x Hx. cbn [andb]. destruct (panel_use_ssc dev), (Z.of_nat (length (encoders cfg)) <? 2); cbn [andb]; each_value x 6; by vm_compute.
  - destruct Hp as [Hp Hp2]. revert Hp. generalize (c_p1 k). intros x Hx. cbn [andb]. destruct Hp2 as [-> | ->]; each_value x 33; first [exfalso; lia|by vm_compute].
Qed.

(** On gen 2 intel_crtc_clock_get finds the divisors of the mode too, with a reference of
    48 MHz or, for a spread-spectrum panel, of 66 MHz, if the panel is on the second pipe
    and has a single link. *)
Theorem gen2_clock_roundtrip dev cfg port_clock cfg0 red pipe regs lvds :
  IS_GEN2 (info dev) = true → is_valleyview (info dev) = false → pch_split dev = false → is_g4x dev = false → is_pineview dev = false →
  let has_lvds := intel_pipe_has_type (encoders cfg) INTEL_OUTPUT_LVDS in
  (pipe =? 1) && z2b (Z.land lvds LVDS_PORT_EN) = has_lvds → (has_lvds = true → dual_link dev = false) →
  let refclk := i9xx_get_refclk dev (encoders cfg) (Z.of_nat (length (encoders cfg))) in
  let reader := if has_lvds && panel_use_ssc dev && (Z.of_nat (length (encoders cfg)) <? 2) then 66000 else 48000 in
  0 < port_clock <= 2 ^ 30 → 0 < refclk <= 1000000 →
  i9xx_mode_clocks dev (encoders cfg) port_clock false cfg0 = Some (inr (config_dpll cfg, red)) →
  ∃ k, find_dpll dev (intel_limit dev (encoders cfg) refclk) (encoders cfg) port_clock refclk None = Some (true, k) ∧
    intel_crtc_clock_get dev pipe (pll_writes regs (i8xx_update_pll dev cfg red)) lvds = Some (clock_at false reader k) ∧
    (refclk = reader → clock_at false reader k = c_dot k).
Proof.
  intros Hg2 Hv Hpch Hg4 Hpin has_lvds Hport Hlink refclk reader Ht Hr Hrun. unfold i9xx_mode_clocks in Hrun. fold refclk in Hrun. set (limit := intel_limit dev (encoders cfg) refclk) in *.
  destruct (find_dpll dev limit (encoders cfg) port_clock refclk None) as [[ok k]|] eqn:Hfind; [|done]. cbn in Hrun. destruct ok; [|done]. cbn [negb andb] in Hrun.
  destruct (reduced dev limit (encoders cfg) refclk k) as [red'|] eqn:Hred; [|done]. cbn in Hrun. injection Hrun as Hk <-.
  exists k. split; [done|]. destruct (find_dpll_fits dev (encoders cfg) port_clock refclk None k Hv ltac:(by rewrite Hpch, Hg4) Ht Hr Hfind) as (mc & Hf). fold limit in Hf. rewrite Hpin in Hf.
  split; [|intros He; unfold clock_at; by rewrite (fits_dot_eq _ _ _ _ _ _ Hf), (fits_vco_eq _ _ _ _ _ _ Hf), He].
  pose proof (fits_n _ _ _ _ _ _ Hf) as Hn. pose proof (fits_m1 _ _ _ _ _ _ Hf) as Hm1. pose proof (fits_m2 _ _ _ _ _ _ Hf) as Hm2.
  pose proof (fits_p1 _ _ _ _ _ _ Hf) as Hp1. pose proof (fits_p2 _ _ _ _ _ _ Hf) as Hp2.
  assert (limit = if has_lvds then intel_limits_i8xx_lvds else intel_limits_i8xx_dvo) as Hlim by (unfold limit, intel_limit; by rewrite Hpch, Hg4, Hpin, Hv, Hg2).
  unfold choose_p2 in Hp2. fold has_lvds in Hp2. rewrite Hlim in Hn, Hm1, Hm2, Hp1, Hp2. unfold within in *.
  destruct (i8xx_dpll_fields dev cfg) as [Hsel Hfields].
  { fold has_lvds. rewrite <- Hk. cbn [c_p1 c_p2]. destruct has_lvds; cbn in Hp1, Hp2; [lia|]. split; [lia|]. destruct (port_clock <? 165000); auto. }
  fold has_lvds in Hfields. set (dpll := u32 (Z.lor (i8xx_dpll dev cfg) DPLL_VCO_ENABLE)) in *. set (regs' := pll_writes regs (i8xx_update_pll dev cfg red')).
  assert (regs' DPLL = dpll ∧ regs' FP0 = u32 (c_n k * 2 ^ 16 + c_m1 k * 2 ^ 8 + c_m2 k)) as [Hd Hfp].
  { rewrite <- (fp_value (c_n k) (c_m1 k) (c_m2 k)) by (destruct has_lvds; cbn in Hn, Hm1, Hm2; lia).
    unfold regs', i8xx_update_pll, i9xx_update_pll_dividers, pll_writes. rewrite Hpin. unfold i9xx_dpll_compute_fp. rewrite <- Hk. unfold dpll. destruct red' as [r|]; try destruct (_ && powersave cfg); by split. }
  unfold intel_crtc_clock_get. rewrite Hd, Hsel, Hfp. cbn [Z.eqb]. rewrite Hg2, Hpin, Hport. cbn [negb].
  rewrite u32_id by (destruct has_lvds; cbn in Hn, Hm1, Hm2; lia).
  change FP_N_DIV_MASK with (Z.shiftl (Z.ones 6) 16). change FP_M2_DIV_MASK with (Z.shiftl (Z.ones 6) 0). change FP_M1_DIV_MASK with (Z.shiftl (Z.ones 6) 8).
  unfold FP_N_DIV_SHIFT, FP_M2_DIV_SHIFT, FP_M1_DIV_SHIFT. rewrite !mask_field by lia.
  rewrite (bits_at 16 6 (c_n k) 0 (c_m1 k * 2 ^ 8 + c_m2 k)) by (destruct has_lvds; cbn in Hn, Hm1, Hm2; lia).
  rewrite (bits_at 0 6 (c_m2 k) (c_n k * 2 ^ 10 + c_m1 k * 2 ^ 2) 0) by (destruct has_lvds; cbn in Hn, Hm1, Hm2; lia).
  rewrite (bits_at 8 6 (c_m1 k) (c_n k * 2 ^ 2) (c_m2 k)) by (destruct has_lvds; cbn in Hn, Hm1, Hm2; lia).
  pose proof (clock_of_fits false limit refclk _ mc k (c_m1 k) (limits_ok limit (intel_limit_in dev (encoders cfg) refclk)) Hr (choose_p2_ok dev (encoders cfg) limit port_clock (limits_ok limit (intel_limit_in dev (encoders cfg) refclk))) Hf ltac:(done)) as Hclock.
  cbv iota beta in Hclock. destruct has_lvds; rewrite <- Hk in Hfields; cbn [c_p1 c_p2] in Hfields; cbv iota beta zeta; destruct Hfields as [-> ->]; cbn [andb] in *.
  - rewrite (Hlink eq_refl) in Hp2. cbn in Hp2. rewrite Hp2 in Hclock. rewrite Hclock; [done|]. unfold reader. case_match; lia.
  - rewrite Hclock; [done|]. unfold reader. lia.
Qed.

(** ** Witnesses *)

(** A laptop of gen 4 with a spread-spectrum reference of 100 MHz, and its panel. *)
Definition demo_laptop : display_dev := mk_display (demo_chip 4 false) false false false false true 100 true 43000.
Definition demo_panel : pll_config := mk_pll_config [INTEL_OUTPUT_LVDS] 1 false false (mk_dpll 2 18 7 3 14 0 0 0 0) true.
Definition demo_reduced : dpll := mk_dpll 2 11 5 3 14 42857 1800000 72 42.
Definition demo_desktop : pll_config := mk_pll_config [INTEL_OUTPUT_ANALOG] 1 false false (mk_dpll 2 14 7 2 10 0 0 0 0) true.
Definition demo_845 : display_dev := mk_display (demo_chip 2 false) false false false false false 0 false 0.
Definition demo_gen2 : pll_config := mk_pll_config [INTEL_OUTPUT_LVDS] 1 false false (mk_dpll 3 23 13 2 14 0 0 0 0) true.

(** The clock of a desktop is read back; the panel runs at 64.880 MHz, and 62.285 is read. *)
Lemma mode_set_clock_roundtrip_witness :
  (∃ k, find_dpll demo_965 (intel_limit demo_965 [INTEL_OUTPUT_ANALOG] 96000) [INTEL_OUTPUT_ANALOG] 108000 96000 None = Some (true, k) ∧
    intel_crtc_clock_get demo_965 0 (pll_writes (λ _, 0) (i9xx_update_pll demo_965 demo_desktop None)) 0 = Some (clock_at false 96000 k) ∧
    (96000 = 96000 → clock_at false 96000 k = c_dot k)) ∧
  (∃ k, find_dpll demo_laptop (intel_limit demo_laptop [INTEL_OUTPUT_LVDS] 100000) [INTEL_OUTPUT_LVDS] 65000 100000 None = Some (true, k) ∧
    intel_crtc_clock_get demo_laptop 1 (pll_writes (λ _, 0) (i9xx_update_pll demo_laptop demo_panel (Some demo_reduced))) 0 = Some (clock_at false 96000 k) ∧
    (100000 = 96000 → clock_at false 96000 k = c_dot k)) ∧
  intel_crtc_clock_get demo_laptop 1 (pll_writes (λ _, 0) (i9xx_update_pll demo_laptop demo_panel (Some demo_reduced))) 0 = Some 62285.
Proof.
  split; [|split; [|by vm_compute]].
  - apply (mode_set_clock_roundtrip demo_965 demo_desktop 108000 dpll0 None 0 (λ _, 0) 0). all: first [by vm_compute|done].
  - apply (mode_set_clock_roundtrip demo_laptop demo_panel 65000 dpll0 (Some demo_reduced) 1 (λ _, 0) 0). all: first [by vm_compute|done].
Defined.

Lemma gen2_clock_roundtrip_witness :
  ∃ k, find_dpll demo_845 (intel_limit demo_845 [INTEL_OUTPUT_LVDS] 48000) [INTEL_OUTPUT_LVDS] 65000 48000 None = Some (true, k) ∧
    intel_crtc_clock_get demo_845 1 (pll_writes (λ _, 0) (i8xx_update_pll demo_845 demo_gen2 None)) LVDS_PORT_EN = Some (clock_at false 48000 k) ∧
    (48000 = 48000 → clock_at false 48000 k = c_dot k).
Proof. apply (gen2_clock_roundtrip demo_845 demo_gen2 65000 dpll0 None 1 (λ _, 0) LVDS_PORT_EN). all: first [by vm_compute|done]. Defined.
