(* ===== verification/SharedPll.v ===== *)
(** * i915: the shared PLLs of the PCH

    On Ironlake, Sandybridge and Ivybridge the PLLs sit in the PCH, and pipes with the
    same clock share one (intel_display.c): the values of the registers, the choice of
    a PLL for a pipe, the two counts of its users, and the paths of a mode set that use
    them.  The theorems: the counts are what check_shared_dpll_state wants them to be
    after any sequence of operations, no warning is ever issued, and a PLL that drives a
    pipe is never reprogrammed. *)

From stdpp Require Import base option list.
From Stdlib Require Import ZArith Lia.
From S2P Require Import Prelude Fences Pll PllRegs.
#[local] Open Scope Z_scope.

(** i915_reg.h and intel_drv.h *)
Definition FP_CB_TUNE : Z := Z.shiftl 3 22.
Definition PLL_REF_SDVO_HDMI_MULTIPLIER_SHIFT : Z := 9.
Definition I915_NUM_PLLS : nat := 2.

(** ** State *)

(** [struct intel_dpll_hw_state] *)
Record intel_dpll_hw_state := mk_hw { hw_dpll : Z; hw_fp0 : Z; hw_fp1 : Z }.

(** [struct intel_shared_dpll], with the PCH registers of the PLL. *)
Record intel_shared_dpll := mk_shared { refcount : Z; active : Z; on : bool; hw_state : intel_dpll_hw_state; r_dpll : Z; r_fp0 : Z; r_fp1 : Z }.

(** A pipe: what of [struct intel_crtc] and its config the PLLs depend on.  The id of its
    PLL is [None] for DPLL_ID_PRIVATE. *)
Record pipe := mk_pipe { shared_dpll : option nat; crtc_active : bool; has_pch_encoder : bool; dpll_hw_state : intel_dpll_hw_state }.

(** [warnings] counts the WARN_ONs and the errors about reference counts. *)
Record pll_state := mk_state { plls : list intel_shared_dpll; pipes : list pipe; warnings : nat }.

Definition set_plls (l : list intel_shared_dpll) (s : pll_state) : pll_state := mk_state l (pipes s) (warnings s).
Definition set_pipes (l : list pipe) (s : pll_state) : pll_state := mk_state (plls s) l (warnings s).

Definition get_pll (i : nat) : M pll_state intel_shared_dpll := reads (λ s, plls s !! i).
Definition put_pll (i : nat) (x : intel_shared_dpll) : M pll_state unit := modify (λ s, set_plls (<[i := x]> (plls s)) s).
Definition get_pipe (p : nat) : M pll_state pipe := reads (λ s, pipes s !! p).
Definition put_pipe (p : nat) (x : pipe) : M pll_state unit := modify (λ s, set_pipes (<[p := x]> (pipes s)) s).
Definition warn_if (b : bool) : M pll_state unit := when b (modify (λ s, mk_state (plls s) (pipes s) (S (warnings s)))).

Definition set_counts (r a : Z) (o : bool) (x : intel_shared_dpll) : intel_shared_dpll := mk_shared r a o (hw_state x) (r_dpll x) (r_fp0 x) (r_fp1 x).
Definition set_regs (dpll fp0 fp1 : Z) (x : intel_shared_dpll) : intel_shared_dpll := mk_shared (refcount x) (active x) (on x) (hw_state x) dpll fp0 fp1.
Definition set_pll_hw (h : intel_dpll_hw_state) (x : intel_shared_dpll) : intel_shared_dpll := mk_shared (refcount x) (active x) (on x) h (r_dpll x) (r_fp0 x) (r_fp1 x).
Definition set_shared (i : option nat) (x : pipe) : pipe := mk_pipe i (crtc_active x) (has_pch_encoder x) (dpll_hw_state x).
Definition set_crtc_active (b : bool) (x : pipe) : pipe := mk_pipe (shared_dpll x) b (has_pch_encoder x) (dpll_hw_state x).
Definition set_hw_state (h : intel_dpll_hw_state) (x : pipe) : pipe := mk_pipe (shared_dpll x) (crtc_active x) (has_pch_encoder x) h.

(** ** Values of the registers *)

(** The config of a mode set: [struct intel_crtc_config] with the encoders of the crtc. *)
Record pch_config := mk_pch_config { pch_pll : pll_config; port_clock : Z; clock_set : bool; cfg_has_pch : bool }.

Definition ironlake_needs_fb_cb_tune (k : dpll) (factor : Z) : bool := i9xx_dpll_compute_m k <? u32 (i32 (factor * c_n k)).

(** The result: the DPLL value, [fp] and [fp2] with the tuning bits.  [ibx]: HAS_PCH_IBX. *)
Definition ironlake_compute_dpll (dev : display_dev) (ibx : bool) (cfg : pll_config) (fp : Z) (reduced_clock : option (dpll * Z)) : Z * Z * option Z :=
  let k := config_dpll cfg in
  let is_lvds := intel_pipe_has_type (encoders cfg) INTEL_OUTPUT_LVDS in
  let is_sdvo := intel_pipe_has_type (encoders cfg) INTEL_OUTPUT_SDVO || intel_pipe_has_type (encoders cfg) INTEL_OUTPUT_HDMI in
  let factor :=
    if is_lvds then if (panel_use_ssc dev && (lvds_ssc_freq dev =? 100)) || (ibx && dual_link dev) then 25 else 21
    else if sdvo_tv_clock cfg then 20 else 21 in
  let fp := if ironlake_needs_fb_cb_tune k factor then Z.lor fp FP_CB_TUNE else fp in
  let fp2 := match reduced_clock with
             | Some (red, fp2) => Some (if c_m red <? i32 (factor * c_n red) then Z.lor fp2 FP_CB_TUNE else fp2)
             | None => None
             end in
  let dpll := Z.lor 0 (if is_lvds then DPLLB_MODE_LVDS else DPLLB_MODE_DAC_SERIAL) in
  let dpll := Z.lor dpll (Z.shiftl (pixel_multiplier cfg - 1) PLL_REF_SDVO_HDMI_MULTIPLIER_SHIFT) in
  let dpll := Z.lor dpll (if is_sdvo then DPLL_DVO_HIGH_SPEED else 0) in
  let dpll := Z.lor dpll (if has_dp_encoder cfg then DPLL_DVO_HIGH_SPEED else 0) in
  let dpll := Z.lor dpll (Z.shiftl (Z.shiftl 1 (c_p1 k - 1)) DPLL_FPA01_P1_POST_DIV_SHIFT) in
  let dpll := Z.lor dpll (Z.shiftl (Z.shiftl 1 (c_p1 k - 1)) DPLL_FPA1_P1_POST_DIV_SHIFT) in
  let dpll := Z.lor dpll (if c_p2 k =? 5 then DPLL_DAC_SERIAL_P2_CLOCK_DIV_5 else if c_p2 k =? 7 then DPLLB_LVDS_P2_CLOCK_DIV_7
    else if c_p2 k =? 10 then DPLL_DAC_SERIAL_P2_CLOCK_DIV_10 else if c_p2 k =? 14 then DPLLB_LVDS_P2_CLOCK_DIV_14 else 0) in
  let dpll := Z.lor dpll (reference_input dev cfg) in
  (Z.lor (u32 dpll) DPLL_VCO_ENABLE, fp, fp2).

(** ** The PLL of a pipe *)

Section ops.
Context (dev : display_dev) (ibx : bool).

Definition intel_put_shared_dpll (crtc : nat) : M pll_state unit :=
  c ← get_pipe crtc;
  match shared_dpll c with
  | None => mret tt
  | Some i =>
      pll ← get_pll i;
      if refcount pll =? 0 then warn_if true
      else
        let pll := set_counts (refcount pll - 1) (active pll) (on pll) pll in
        put_pll i pll;;
        when (refcount pll =? 0) (warn_if (on pll);; warn_if (z2b (active pll)));;
        put_pipe crtc (set_shared None c)
  end.

(** The loops of intel_get_shared_dpll: the first PLL that satisfies [f]. *)
Fixpoint first_pll (f : intel_shared_dpll → bool) (i : nat) (l : list intel_shared_dpll) : option nat :=
  match l with [] => None | x :: l => if f x then Some i else first_pll f (S i) l end.

Definition same_timings (dpll fp : Z) (pll : intel_shared_dpll) : bool :=
  if refcount pll =? 0 then false
  else (Z.land dpll 0x7fffffff =? Z.land (r_dpll pll) 0x7fffffff) && (fp =? r_fp0 pll).

Definition choose_pll (crtc : nat) (dpll fp : Z) (l : list intel_shared_dpll) : option nat :=
  if ibx then Some crtc
  else match first_pll (same_timings dpll fp) 0 l with
       | Some i => Some i
       | None => first_pll (λ pll, refcount pll =? 0) 0 l
       end.

Definition intel_get_shared_dpll (crtc : nat) (dpll fp : Z) : M pll_state (option nat) :=
  c ← get_pipe crtc;
  when (bool_decide (is_Some (shared_dpll c))) (intel_put_shared_dpll crtc);;
  s ← get;
  match choose_pll crtc dpll fp (plls s) with
  | None => mret None
  | Some i =>
      c ← get_pipe crtc;
      put_pipe crtc (set_shared (Some i) c);;
      pll ← get_pll i;
      (if active pll =? 0 then
         warn_if (on pll);;
         put_pll i (set_counts (refcount pll + 1) (active pll) (on pll)
           (set_regs (Z.land dpll (Z.lnot DPLL_VCO_ENABLE)) fp (r_fp1 pll) (set_pll_hw (dpll_hw_state c) pll)))
       else put_pll i (set_counts (refcount pll + 1) (active pll) (on pll) pll));;
      mret (Some i)
  end.

Definition ibx_pch_dpll_enable (x : intel_shared_dpll) : intel_shared_dpll := set_regs (Z.lor (r_dpll x) DPLL_VCO_ENABLE) (r_fp0 x) (r_fp1 x) x.
Definition ibx_pch_dpll_disable (x : intel_shared_dpll) : intel_shared_dpll := set_regs (Z.land (r_dpll x) (Z.lnot DPLL_VCO_ENABLE)) (r_fp0 x) (r_fp1 x) x.

Definition ironlake_enable_shared_dpll (crtc : nat) : M pll_state unit :=
  c ← get_pipe crtc;
  match shared_dpll c with
  | None => mret tt
  | Some i =>
      pll ← get_pll i;
      if refcount pll =? 0 then warn_if true
      else if negb (active pll =? 0) then put_pll i (set_counts (refcount pll) (active pll + 1) (on pll) pll);; warn_if (negb (on pll))
      else warn_if (on pll);; put_pll i (set_counts (refcount pll) (active pll + 1) true (ibx_pch_dpll_enable pll))
  end.

Definition intel_disable_shared_dpll (crtc : nat) : M pll_state unit :=
  c ← get_pipe crtc;
  match shared_dpll c with
  | None => mret tt
  | Some i =>
      pll ← get_pll i;
      if refcount pll =? 0 then warn_if true
      else if active pll =? 0 then mret tt
      else
        warn_if (negb (on pll));;
        if negb (active pll - 1 =? 0) then put_pll i (set_counts (refcount pll) (active pll - 1) (on pll) pll)
        else put_pll i (set_counts (refcount pll) (active pll - 1) false (ibx_pch_dpll_disable pll))
  end.

(** ** Mode setting, as far as it touches the PLLs *)

Definition ironlake_crtc_enable (crtc : nat) : M pll_state unit :=
  c ← get_pipe crtc;
  if crtc_active c then mret tt
  else
    put_pipe crtc (set_crtc_active true c);;
    when (has_pch_encoder c) (ironlake_enable_shared_dpll crtc).

Definition ironlake_crtc_disable (crtc : nat) : M pll_state unit :=
  c ← get_pipe crtc;
  if negb (crtc_active c) then mret tt
  else
    when (has_pch_encoder c) (intel_disable_shared_dpll crtc);;
    c ← get_pipe crtc;
    put_pipe crtc (set_crtc_active false c).

Definition ironlake_crtc_off (crtc : nat) : M pll_state unit := intel_put_shared_dpll crtc.

(** intel_crtc_disable: off for good. *)
Definition intel_crtc_disable (crtc : nat) : M pll_state unit := ironlake_crtc_disable crtc;; ironlake_crtc_off crtc.

(** What ironlake_crtc_mode_set computes before it touches the PLLs: the values for the
    registers, DPLL, FP0 and FP1, and lowfreq_avail; [None] inside: no clock. *)
Definition pch_values (cfg : pch_config) : option (option (Z * Z * Z)) :=
  r ← ironlake_compute_clocks dev (encoders (pch_pll cfg)) (port_clock cfg);
  let clocks := match r with Some ck => Some ck | None => if clock_set cfg then Some (dpll0, None) else None end in
  Some (match clocks with
        | None => None
        | Some (clock, red) =>
            let k := if clock_set cfg then config_dpll (pch_pll cfg) else clock in
            let pc := mk_pll_config (encoders (pch_pll cfg)) (pixel_multiplier (pch_pll cfg)) (sdvo_tv_clock (pch_pll cfg)) (has_dp_encoder (pch_pll cfg)) k (powersave (pch_pll cfg)) in
            let '(dpll, fp, fp2) := ironlake_compute_dpll dev ibx pc (u32 (i9xx_dpll_compute_fp k))
              (match red with Some c => Some (c, u32 (i9xx_dpll_compute_fp c)) | None => None end) in
            Some (dpll, fp, default fp fp2)
        end).

(** [base_ret]: what intel_pipe_set_base returns. *)
Definition ironlake_crtc_mode_set (crtc : nat) (cfg : pch_config) (base_ret : Z) : M pll_state Z :=
  match pch_values cfg with
  | None => fault
  | Some None => mret (- EINVAL)
  | Some (Some (dpll, fp, fp1)) =>
      if cfg_has_pch cfg then
        c ← get_pipe crtc;
        put_pipe crtc (set_hw_state (mk_hw dpll fp fp1) c);;
        r ← intel_get_shared_dpll crtc dpll fp;
        match r with
        | None => mret (- EINVAL)
        | Some _ =>
            c ← get_pipe crtc;
            match shared_dpll c with
            | None => fault
            | Some i =>
                pll ← get_pll i;
                put_pll i (set_regs dpll (r_fp0 pll) fp1 pll);;
                mret base_ret
            end
        end
      else intel_put_shared_dpll crtc;; mret base_ret
  end.

(** A pipe in __intel_set_mode: it is disabled, gets a new config, which keeps the PLL
    of the old one, and is set up. *)
Definition intel_set_mode (crtc : nat) (cfg : pch_config) (base_ret : Z) : M pll_state Z :=
  ironlake_crtc_disable crtc;;
  c ← get_pipe crtc;
  put_pipe crtc (mk_pipe (shared_dpll c) (crtc_active c) (cfg_has_pch cfg) (mk_hw 0 0 0));;
  ironlake_crtc_mode_set crtc cfg base_ret.
End ops.

(** ibx_pch_dpll_init and intel_crtc_init, with arbitrary registers. *)
Definition pch_init (regs : list (Z * Z * Z)) (n_pipes : nat) : pll_state :=
  mk_state (map (λ '(d, f0, f1), mk_shared 0 0 false (mk_hw 0 0 0) d f0 f1) regs) (replicate n_pipes (mk_pipe None false false (mk_hw 0 0 0))) 0.

(** ** Counting pipes *)

Fixpoint count (f : pipe → bool) (l : list pipe) : Z := match l with [] => 0 | x :: l => b2z (f x) + count f l end.

Lemma clients_insert f l p c c' : l !! p = Some c → count f (<[p := c']> l) = count f l - b2z (f c) + b2z (f c').
Proof.
  revert p. induction l as [|x l IH]; intros [|p] Hc; try done.
  - cbn in *. injection Hc as ->. lia.
  - change (<[S p := c']> (x :: l)) with (x :: <[p := c']> l). cbn [count]. rewrite (IH p Hc). lia.
Qed.

Lemma count_le f g l : (∀ x, x ∈ l → f x = true → g x = true) → 0 <= count f l <= count g l.
Proof.
  induction l as [|x l IH]; intros H; cbn; [lia|]. pose proof (H x ltac:(by left)) as Hx. specialize (IH ltac:(intros y Hy; apply H; by right)).
  destruct (f x); [rewrite Hx by done; cbn; lia|]. destruct (g x); cbn; lia.
Qed.

Lemma count_zero f l x : count f l = 0 → x ∈ l → f x = false.
Proof.
  induction l as [|y l IH]; intros H Hx; [by apply not_elem_of_nil in Hx|]. cbn in H. pose proof (count_le f f l ltac:(done)).
  apply elem_of_cons in Hx as [->|Hx]; [destruct (f y); cbn in H; [lia|done]|]. apply IH; [|done]. destruct (f y); cbn in H; lia.
Qed.

(** ** The invariant *)

(** The pipes that have PLL [i], and those it drives. *)
Definition attached (i : nat) (x : pipe) : bool := bool_decide (shared_dpll x = Some i).
Definition running (i : nat) (x : pipe) : bool := attached i x && crtc_active x && has_pch_encoder x.

(** The registers hold what a pipe was set up with; the highest bit says whether the PLL
    is on. *)
Definition set_up (x : pipe) : bool := Z.testbit (hw_dpll (dpll_hw_state x)) 31.
Definition low31 (z : Z) : Z := Z.land z 0x7fffffff.
Definition holds (pll : intel_shared_dpll) (x : pipe) : Prop :=
  low31 (r_dpll pll) = low31 (hw_dpll (dpll_hw_state x)) ∧ r_fp0 pll = hw_fp0 (dpll_hw_state x).

Record pll_ok (l : list pipe) (i : nat) (x : intel_shared_dpll) : Prop := {
  ok_refcount : refcount x = count (attached i) l;
  ok_active : active x = count (running i) l;
  ok_on : on x = negb (active x =? 0);
  ok_vco : on x = true → Z.testbit (r_dpll x) 31 = true;
}.

Record inv (ibx : bool) (s : pll_state) : Prop := {
  inv_warnings : warnings s = 0%nat;
  inv_length : length (plls s) = I915_NUM_PLLS;
  inv_plls : ∀ i x, plls s !! i = Some x → pll_ok (pipes s) i x;
  inv_pipes : ∀ p c i, pipes s !! p = Some c → shared_dpll c = Some i → ∃ x, plls s !! i = Some x ∧ (set_up c = true → holds x c);
  inv_ibx : ∀ p c i, ibx = true → pipes s !! p = Some c → shared_dpll c = Some i → i = p;
}.

Lemma running_attached i x : running i x = true → attached i x = true.
Proof. unfold running. by destruct (attached i x). Qed.

Section proofs.
Context (ibx : bool).

(** A step that changes one pipe and one PLL. *)
Lemma inv_step s p c c' i x x' : inv ibx s → pipes s !! p = Some c → plls s !! i = Some x →
  (∀ j, j ≠ i → attached j c' = attached j c ∧ running j c' = running j c) →
  refcount x' = refcount x - b2z (attached i c) + b2z (attached i c') →
  active x' = active x - b2z (running i c) + b2z (running i c') →
  on x' = negb (active x' =? 0) → (on x' = true → Z.testbit (r_dpll x') 31 = true) →
  (∀ q d, q ≠ p → pipes s !! q = Some d → shared_dpll d = Some i → set_up d = true → holds x d → holds x' d) →
  (∀ j, shared_dpll c' = Some j → ∃ y, <[i := x']> (plls s) !! j = Some y ∧ (set_up c' = true → holds y c')) →
  (∀ j, ibx = true → shared_dpll c' = Some j → j = p) →
  inv ibx (mk_state (<[i := x']> (plls s)) (<[p := c']> (pipes s)) (warnings s)).
Proof.
  intros [Hw Hlen Hplls Hpipes Hibx] Hc Hx Hj Hr Ha Hon Hvco Hothers Hown Hid. constructor; cbn [plls pipes warnings].
  - done.
  - by rewrite length_insert.
  - intros j y Hy. destruct (decide (j = i)) as [->|Hne].
    + rewrite list_lookup_insert_eq in Hy by (by eapply lookup_lt_Some). injection Hy as <-. destruct (Hplls i x Hx) as [Hr0 Ha0 _ _].
      constructor; [| |done|done]; rewrite (clients_insert _ _ _ _ _ Hc); lia.
    + rewrite list_lookup_insert_ne in Hy by done. destruct (Hplls j y Hy) as [Hr0 Ha0 Ho0 Hv0]. destruct (Hj j Hne) as [Hat Hru].
      constructor; [| |done|done]; rewrite (clients_insert _ _ _ _ _ Hc), ?Hat, ?Hru; lia.
  - intros q d j Hq Hd. destruct (decide (q = p)) as [->|Hne].
    + rewrite list_lookup_insert_eq in Hq by (by eapply lookup_lt_Some). injection Hq as <-. auto.
    + rewrite list_lookup_insert_ne in Hq by done. destruct (Hpipes q d j Hq Hd) as (y & Hy & Hh). destruct (decide (j = i)) as [->|Hji].
      * exists x'. rewrite list_lookup_insert_eq by (by eapply lookup_lt_Some). split; [done|]. intros Hs. rewrite Hx in Hy. injection Hy as <-. eauto.
      * exists y. by rewrite list_lookup_insert_ne by done.
  - intros q d j Hi Hq Hd. destruct (decide (q = p)) as [->|Hne].
    + rewrite list_lookup_insert_eq in Hq by (by eapply lookup_lt_Some). injection Hq as <-. auto.
    + rewrite list_lookup_insert_ne in Hq by done. eauto.
Qed.

(** A step that changes one pipe only, and not its PLL. *)
Lemma inv_pipe s p c c' : inv ibx s → pipes s !! p = Some c → (∀ j, attached j c' = attached j c ∧ running j c' = running j c) →
  (∀ j x, shared_dpll c' = Some j → plls s !! j = Some x → set_up c' = true → (set_up c = true → holds x c) → holds x c') →
  inv ibx (set_pipes (<[p := c']> (pipes s)) s).
Proof.
  intros [Hw Hlen Hplls Hpipes Hibx] Hc Hj Hown.
  assert (∀ j, shared_dpll c' = Some j → shared_dpll c = Some j) as Hsh.
  { intros j Hs. destruct (Hj j) as [Hat _]. unfold attached in Hat. rewrite (bool_decide_eq_true_2 _ Hs) in Hat. symmetry in Hat. by apply bool_decide_eq_true in Hat. }
  constructor; cbn [plls pipes warnings set_pipes]; [done|done| | |].
  - intros i x Hx. destruct (Hplls i x Hx) as [Hr Ha Ho Hv]. destruct (Hj i) as [Hat Hru]. constructor; [| |done|done]; rewrite (clients_insert _ _ _ _ _ Hc), ?Hat, ?Hru; lia.
  - intros q d j Hq Hd. destruct (decide (q = p)) as [->|Hne]; [|rewrite list_lookup_insert_ne in Hq by done; eauto].
    rewrite list_lookup_insert_eq in Hq by (by eapply lookup_lt_Some). injection Hq as <-. destruct (Hpipes p c j Hc (Hsh j Hd)) as (x & Hx & Hh). eauto.
  - intros q d j Hi Hq Hd. destruct (decide (q = p)) as [->|Hne]; [|rewrite list_lookup_insert_ne in Hq by done; eauto].
    rewrite list_lookup_insert_eq in Hq by (by eapply lookup_lt_Some). injection Hq as <-. eauto.
Qed.

(** ** Running the operations *)

Lemma wp_reads {A B} (f : pll_state → option A) (k : A → M pll_state B) s a Q : f s = Some a → wp (k a) s Q → wp (reads f ≫= k) s Q.
Proof. intros Ha Hk. apply wp_bind. unfold wp at 1, reads. by rewrite Ha. Qed.

Lemma wp_modify {B} f (k : unit → M pll_state B) s Q : wp (k tt) (f s) Q → wp (modify f ≫= k) s Q.
Proof. intros Hk. by apply wp_bind. Qed.

Lemma wp_put f s (Q : unit → pll_state → Prop) : Q tt (f s) → wp (modify f) s Q.
Proof. done. Qed.

Lemma wp_ret {A} (a : A) s (Q : A → pll_state → Prop) : Q a s → wp (mret a) s Q.
Proof. done. Qed.

Lemma wp_warn {B} b (k : unit → M pll_state B) s Q : b = false → wp (k tt) s Q → wp (warn_if b ≫= k) s Q.
Proof. intros -> Hk. by apply wp_bind. Qed.

(** The PLL of a pipe. *)
Lemma attached_pll s p c i : inv ibx s → pipes s !! p = Some c → shared_dpll c = Some i →
  ∃ x, plls s !! i = Some x ∧ pll_ok (pipes s) i x ∧ refcount x ≠ 0 ∧ 0 <= active x <= refcount x ∧ (crtc_active c = false → active x <= refcount x - 1).
Proof.
  intros Hinv Hc Hs. destruct (inv_pipes _ _ Hinv p c i Hc Hs) as (x & Hx & _). exists x. pose proof (inv_plls _ _ Hinv i x Hx) as Hok. split; [done|]. split; [done|].
  destruct Hok as [Hr Ha _ _]. pose proof (count_le (running i) (attached i) (pipes s) ltac:(eauto using running_attached)) as Hle.
  assert (attached i c = true) as Hat by by apply bool_decide_eq_true. split; [|split; [lia|]].
  - intros H0. rewrite Hr in H0. rewrite (count_zero _ _ c H0) in Hat; [done|]. by apply list_elem_of_lookup_2 with p.
  - intros Hina. pose proof (clients_insert (attached i) _ p c (set_shared None c) Hc) as Hca. pose proof (clients_insert (running i) _ p c (set_shared None c) Hc) as Hcr.
    pose proof (count_le (running i) (attached i) (<[p := set_shared None c]> (pipes s)) ltac:(eauto using running_attached)) as Hle'.
    assert (running i c = false) as Hrn by (unfold running; rewrite Hina; by destruct (attached i c)).
    rewrite Hat in Hca. rewrite Hrn in Hcr. change (attached i (set_shared None c)) with false in Hca. change (running i (set_shared None c)) with false in Hcr. cbn [b2z] in *. lia.
Qed.

(** An inactive pipe [c], whose config has been replaced by that of [c1], loses its PLL. *)
Lemma put_run s p c c1 : inv ibx s → pipes s !! p = Some c → crtc_active c = false → shared_dpll c1 = shared_dpll c → crtc_active c1 = false →
  wp (intel_put_shared_dpll p) (set_pipes (<[p := c1]> (pipes s)) s) (λ _ s', inv ibx s' ∧ pipes s' = <[p := set_shared None c1]> (pipes s)).
Proof.
  intros Hinv Hc Hina Hs1 Hina1. unfold intel_put_shared_dpll. apply (wp_reads _ _ _ c1); [cbn; apply list_lookup_insert_eq; by eapply lookup_lt_Some|]. rewrite Hs1.
  assert (∀ i, running i c = false) as Hrn by (intros i; unfold running; rewrite Hina; by destruct (attached i c)).
  assert (∀ i, running i (set_shared None c1) = false) as Hrn1 by done.
  destruct (shared_dpll c) as [i|] eqn:Hs.
  2: { assert (set_shared None c1 = c1) as -> by (destruct c1; cbn in *; by subst). split; [|done]. apply (inv_pipe s p c c1 Hinv Hc).
       - intros j. split; [unfold attached; by rewrite Hs1, Hs|]. rewrite Hrn. unfold running. rewrite Hina1. by destruct (attached j c1).
       - intros j x Hj. by rewrite Hs1 in Hj. }
  destruct (attached_pll s p c i Hinv Hc Hs) as (x & Hx & [Hr Ha Ho Hv] & Hr0 & Hle & Hlt). specialize (Hlt Hina).
  apply (wp_reads _ _ _ x); [done|]. rewrite (proj2 (Z.eqb_neq _ _) Hr0). cbv zeta. apply wp_modify. cbn [refcount set_counts].
  assert (attached i c = true) as Hat by by apply bool_decide_eq_true.
  apply wp_bind. match goal with |- wp ?m ?t ?R => eapply (wp_mono m t (λ _ t', t' = t)) end.
  { destruct (Z.eqb_spec (refcount x - 1) 0) as [H1|H1]; [|done]. cbn [when]. assert (active x = 0) as Ha0 by lia.
    apply wp_warn; [|by rewrite Ha0]. change (on x = false). by rewrite Ho, Ha0. }
  intros _ t ->. cbv beta. unfold wp, put_pipe, modify. cbn [set_pipes set_plls pipes plls warnings]. rewrite list_insert_insert_eq. split; [|done].
  apply (inv_step s p c (set_shared None c1) i x _ Hinv Hc Hx); cbn [refcount active on r_dpll set_counts]; try done.
  - intros j Hj. split; [|by rewrite Hrn, Hrn1]. unfold attached. rewrite Hs. by rewrite (bool_decide_eq_false_2 (Some i = Some j)) by congruence.
  - rewrite Hat. change (attached i (set_shared None c1)) with false. cbn [b2z]. lia.
  - rewrite Hrn, Hrn1. cbn [b2z]. lia.
Qed.

Lemma low31_or z : low31 (Z.lor z DPLL_VCO_ENABLE) = low31 z.
Proof. unfold low31. rewrite Z.land_lor_distr_l. change (Z.land DPLL_VCO_ENABLE 0x7fffffff) with 0. apply Z.lor_0_r. Qed.

Lemma low31_and z : low31 (Z.land z (Z.lnot DPLL_VCO_ENABLE)) = low31 z.
Proof. unfold low31. by rewrite <- Z.land_assoc. Qed.

Lemma vco_or z : Z.testbit (Z.lor z DPLL_VCO_ENABLE) 31 = true.
Proof. rewrite Z.lor_spec. apply orb_true_r. Qed.

(** Switching a pipe on and off, with the PLL it is attached to. *)
Lemma inv_switch s p c b i x x' : inv ibx s → pipes s !! p = Some c → has_pch_encoder c = true → crtc_active c = negb b → shared_dpll c = Some i → plls s !! i = Some x →
  refcount x' = refcount x → active x' = active x + (if b then 1 else -1) → on x' = negb (active x' =? 0) → (on x' = true → Z.testbit (r_dpll x') 31 = true) →
  low31 (r_dpll x') = low31 (r_dpll x) → r_fp0 x' = r_fp0 x →
  inv ibx (mk_state (<[i := x']> (plls s)) (<[p := set_crtc_active b c]> (pipes s)) (warnings s)).
Proof.
  intros Hinv Hc Hpch Hact Hs Hx Hr Ha Hon Hvco Hlow Hfp. assert (attached i c = true) as Hat by by apply bool_decide_eq_true.
  assert (∀ d, holds x d → holds x' d) as Hholds by (intros d [H1 H2]; split; congruence).
  apply (inv_step s p c _ i x x' Hinv Hc Hx); try done.
  - intros j Hj. assert (attached j c = false) as Hnj by (apply bool_decide_eq_false; congruence).
    change (attached j (set_crtc_active b c)) with (attached j c). unfold running. change (attached j (set_crtc_active b c)) with (attached j c). by rewrite Hnj.
  - change (attached i (set_crtc_active b c)) with (attached i c). lia.
  - unfold running. change (attached i (set_crtc_active b c)) with (attached i c). cbn [crtc_active has_pch_encoder set_crtc_active]. rewrite Hat, Hpch, Hact, Ha. destruct b; cbn; lia.
  - intros q d _ _ _ _. apply Hholds.
  - intros j Hj. cbn in Hj. rewrite Hs in Hj. injection Hj as <-. exists x'. rewrite list_lookup_insert_eq by (by eapply lookup_lt_Some). split; [done|].
    intros Hset. destruct (inv_pipes _ _ Hinv p c i Hc Hs) as (y & Hy & Hh). rewrite Hx in Hy. injection Hy as <-. apply (Hholds c). by apply Hh.
  - intros j Hi Hj. by apply (inv_ibx _ _ Hinv p c j Hi Hc).
Qed.

(** Without a PLL nothing else changes. *)
Lemma inv_switch_none s p c b : inv ibx s → pipes s !! p = Some c → has_pch_encoder c = false ∨ shared_dpll c = None →
  inv ibx (set_pipes (<[p := set_crtc_active b c]> (pipes s)) s).
Proof.
  intros Hinv Hc Hno. apply (inv_pipe s p c _ Hinv Hc).
  - intros j. split; [done|]. unfold running. change (attached j (set_crtc_active b c)) with (attached j c). cbn [crtc_active has_pch_encoder set_crtc_active].
    destruct Hno as [-> | Hs]; [by rewrite !andb_false_r|]. assert (attached j c = false) as -> by (apply bool_decide_eq_false; by rewrite Hs). done.
  - intros j x _ _ Hset Hh. by apply Hh.
Qed.

Lemma lookup_own {A} (l : list A) p c c' : l !! p = Some c → <[p := c']> l !! p = Some c'.
Proof. intros Hc. apply list_lookup_insert_eq. by eapply lookup_lt_Some. Qed.

Lemma enable_run s p c : inv ibx s → pipes s !! p = Some c →
  wp (ironlake_crtc_enable p) s (λ _ s', inv ibx s' ∧ pipes s' = <[p := set_crtc_active true c]> (pipes s)).
Proof.
  intros Hinv Hc. unfold ironlake_crtc_enable. apply (wp_reads _ _ _ c); [done|]. destruct (crtc_active c) eqn:Hact.
  { split; [done|]. cbn. rewrite list_insert_id; [done|]. rewrite Hc. f_equal. destruct c; cbn in *. by subst. }
  pose proof (lookup_own _ p c (set_crtc_active true c) Hc) as Hown.
  apply wp_modify. destruct (has_pch_encoder c) eqn:Hpch; cbn [when]; [|split; [by apply inv_switch_none; auto|done]].
  unfold ironlake_enable_shared_dpll. apply (wp_reads _ _ _ (set_crtc_active true c)); [exact Hown|]. cbn [shared_dpll set_crtc_active].
  destruct (shared_dpll c) as [i|] eqn:Hs; [|split; [by apply inv_switch_none; auto|done]].
  destruct (attached_pll s p c i Hinv Hc Hs) as (x & Hx & [Hr Ha Ho Hv] & Hr0 & Hle & _).
  apply (wp_reads _ _ _ x); [done|]. rewrite (proj2 (Z.eqb_neq _ _) Hr0). destruct (Z.eqb_spec (active x) 0) as [Ha0|Ha0]; cbn [negb].
  - apply wp_warn; [done|]. unfold wp, put_pll, modify. split; [|done].
    apply (inv_switch s p c true i x _ Hinv Hc Hpch Hact Hs Hx); cbn; try done; [by rewrite (proj2 (Z.eqb_neq _ _)) by lia|intros _; apply vco_or|apply low31_or].
  - apply wp_modify. assert (on x = true) as Hox by done. rewrite Hox. split; [|done]. apply (inv_switch s p c true i x _ Hinv Hc Hpch Hact Hs Hx); cbn; try done; [by rewrite (proj2 (Z.eqb_neq _ _)) by lia|intros _; by apply Hv].
Qed.

Lemma disable_run s p c : inv ibx s → pipes s !! p = Some c →
  wp (ironlake_crtc_disable p) s (λ _ s', inv ibx s' ∧ pipes s' = <[p := set_crtc_active false c]> (pipes s)).
Proof.
  intros Hinv Hc. unfold ironlake_crtc_disable. apply (wp_reads _ _ _ c); [done|]. destruct (crtc_active c) eqn:Hact; cbn [negb]; cycle 1.
  { split; [done|]. cbn. rewrite list_insert_id; [done|]. rewrite Hc. f_equal. destruct c; cbn in *. by subst. }
  destruct (has_pch_encoder c) eqn:Hpch; cbn [when]; cycle 1.
  { apply wp_bind. apply (wp_reads _ _ _ c); [done|]. split; [by apply inv_switch_none; auto|done]. }
  unfold intel_disable_shared_dpll. apply wp_bind. apply (wp_reads _ _ _ c); [done|].
  destruct (shared_dpll c) as [i|] eqn:Hs; [|apply (wp_reads _ _ _ c); [done|]; split; [by apply inv_switch_none; auto|done]].
  destruct (attached_pll s p c i Hinv Hc Hs) as (x & Hx & [Hr Ha Ho Hv] & Hr0 & Hle & _).
  assert (active x ≠ 0) as Ha0.
  { intros H0. rewrite Ha in H0. assert (running i c = true) as Hrun by (unfold running, attached; rewrite Hact, Hpch, bool_decide_eq_true_2 by done; done).
    rewrite (count_zero _ _ c H0) in Hrun; [done|]. by apply list_elem_of_lookup_2 with p. }
  apply (wp_reads _ _ _ x); [done|]. rewrite (proj2 (Z.eqb_neq _ _) Hr0), (proj2 (Z.eqb_neq _ _) Ha0).
  assert (on x = true) as Hox by (rewrite Ho, (proj2 (Z.eqb_neq _ _)) by done; done). apply wp_warn; [by rewrite Hox|].
  destruct (Z.eqb_spec (active x - 1) 0) as [H1|H1]; cbn [negb]; apply wp_put; (apply (wp_reads _ _ _ c); [done|]); (split; [|done]);
    apply (inv_switch s p c false i x _ Hinv Hc Hpch Hact Hs Hx); cbn; try done.
  - by rewrite H1.
  - apply low31_and.
  - by rewrite (proj2 (Z.eqb_neq _ _)) by lia.
Qed.

(** ** Setting a mode *)

Lemma first_pll_some f l : ∀ k i, first_pll f k l = Some i → ∃ j x, i = (k + j)%nat ∧ l !! j = Some x ∧ f x = true.
Proof.
  induction l as [|y l IH]; intros k i H; cbn in H; [done|]. destruct (f y) eqn:Hf; [injection H as <-; exists 0%nat, y; split; [lia|done]|].
  destruct (IH (S k) i H) as (j & x & -> & Hx & Hfx). exists (S j), x. split; [lia|done].
Qed.

Lemma first_pll_none f l : ∀ k, first_pll f k l = None → ∀ x, x ∈ l → f x = false.
Proof.
  induction l as [|y l IH]; intros k H x Hx; [by apply not_elem_of_nil in Hx|]. cbn in H. destruct (f y) eqn:Hf; [done|].
  apply elem_of_cons in Hx as [->|Hx]; [done|by apply (IH (S k))].
Qed.

(** A PLL that may be given to pipe [p] for the register values [dpll] and [fp]: it has no user, or
    its users have the same timings. *)
Definition suits (s : pll_state) (p : nat) (dpll fp : Z) (x : intel_shared_dpll) : Prop :=
  refcount x = 0 ∨ (low31 dpll = low31 (r_dpll x) ∧ fp = r_fp0 x).

(** No PLL is free for the values: [s] is the state without the pipe's own PLL. *)
Definition all_taken (s : pll_state) (dpll fp : Z) : Prop :=
  ∀ x, x ∈ plls s → refcount x ≠ 0 ∧ (low31 dpll ≠ low31 (r_dpll x) ∨ fp ≠ r_fp0 x).

Lemma choose_suits s p c dpll fp : inv ibx s → pipes s !! p = Some c → shared_dpll c = None → (ibx = true → (p < I915_NUM_PLLS)%nat) →
  match choose_pll ibx p dpll fp (plls s) with
  | Some i => ∃ x, plls s !! i = Some x ∧ suits s p dpll fp x ∧ (ibx = true → i = p)
  | None => all_taken s dpll fp
  end.
Proof.
  intros Hinv Hc Hs Hp. unfold choose_pll. destruct ibx eqn:Hi.
  - destruct (lookup_lt_is_Some_2 (plls s) p) as [x Hx]; [rewrite (inv_length _ _ Hinv); auto|]. exists x. split; [done|]. split; [|done]. left.
    destruct (inv_plls _ _ Hinv p x Hx) as [Hr _ _ _]. rewrite Hr. destruct (decide (count (attached p) (pipes s) = 0)) as [|Hne]; [done|exfalso].
    assert (∃ d, d ∈ pipes s ∧ attached p d = true) as (d & Hd & Hat).
    { clear -Hne. induction (pipes s) as [|d l IH]; [done|]. cbn in Hne. destruct (attached p d) eqn:Hat; [exists d; split; [by left|done]|]. destruct IH as (e & ? & ?); [cbn in Hne; lia|]. exists e. split; [by right|done]. }
    apply list_elem_of_lookup_1 in Hd as [q Hq]. apply bool_decide_eq_true in Hat. pose proof (inv_ibx _ _ Hinv q d p eq_refl Hq Hat) as ->.
    rewrite Hc in Hq. injection Hq as <-. congruence.
  - destruct (first_pll (same_timings dpll fp) 0 (plls s)) as [i|] eqn:H1.
    + apply first_pll_some in H1 as (j & x & -> & Hx & Hf). exists x. split; [done|]. split; [|done]. right. unfold same_timings in Hf.
      destruct (refcount x =? 0); [done|]. apply andb_true_iff in Hf as [Hd%Z.eqb_eq Hfp%Z.eqb_eq]. done.
    + destruct (first_pll (λ pll, refcount pll =? 0) 0 (plls s)) as [i|] eqn:H2.
      * apply first_pll_some in H2 as (j & x & -> & Hx & Hf). exists x. split; [done|]. split; [|done]. left. by apply Z.eqb_eq.
      * intros x Hx. pose proof (first_pll_none _ _ _ H1 x Hx) as Hst. pose proof (first_pll_none _ _ _ H2 x Hx) as Hr%Z.eqb_neq. split; [done|].
        unfold same_timings in Hst. rewrite (proj2 (Z.eqb_neq _ _) Hr) in Hst. apply andb_false_iff in Hst as [Hst%Z.eqb_neq|Hst%Z.eqb_neq]; auto.
Qed.

(** The PLL after intel_get_shared_dpll and the writes of the mode set. *)
Definition got (c : pipe) (dpll fp fp1 : Z) (x : intel_shared_dpll) : intel_shared_dpll :=
  mk_shared (refcount x + 1) (active x) (on x) (if active x =? 0 then dpll_hw_state c else hw_state x) dpll (if active x =? 0 then fp else r_fp0 x) fp1.

Lemma inv_got s p c i x dpll fp fp1 : inv ibx s → pipes s !! p = Some c → shared_dpll c = None → crtc_active c = false → dpll_hw_state c = mk_hw dpll fp fp1 →
  plls s !! i = Some x → suits s p dpll fp x → (ibx = true → i = p) → Z.testbit dpll 31 = true →
  inv ibx (mk_state (<[i := got c dpll fp fp1 x]> (plls s)) (<[p := set_shared (Some i) c]> (pipes s)) (warnings s)).
Proof.
  intros Hinv Hc Hs Hina Hhw Hx Hsuit Hi Hvco. destruct (inv_plls _ _ Hinv i x Hx) as [Hr Ha Ho Hv].
  assert (∀ q d, pipes s !! q = Some d → shared_dpll d = Some i → refcount x ≠ 0) as Hused.
  { intros q d Hq Hd H0. rewrite Hr in H0. assert (attached i d = true) as Hat by by apply bool_decide_eq_true. rewrite (count_zero _ _ d H0) in Hat; [done|]. by apply list_elem_of_lookup_2 with q. }
  pose proof (count_le (running i) (attached i) (pipes s) ltac:(eauto using running_attached)) as Hle.
  assert (r_fp0 (got c dpll fp fp1 x) = fp) as Hfp.
  { cbn. destruct (Z.eqb_spec (active x) 0) as [H0|H0]; [done|]. destruct Hsuit as [Hz|[_ ->]]; [lia|done]. }
  apply (inv_step s p c _ i x _ Hinv Hc Hx).
  - intros j Hj. unfold running, attached. cbn. rewrite Hina, Hs. rewrite (bool_decide_eq_false_2 (Some i = Some j)) by congruence. done.
  - unfold attached. rewrite Hs, (bool_decide_eq_false_2 (None = Some i)), (bool_decide_eq_true_2 (shared_dpll _ = Some i)) by done. cbn [b2z got refcount]. lia.
  - unfold running. cbn [set_shared crtc_active has_pch_encoder got active]. rewrite Hina, !andb_false_r. cbn [b2z andb]. lia.
  - exact Ho.
  - intros _. exact Hvco.
  - intros q d Hqp Hq Hd Hset [Hh1 Hh2]. pose proof (Hused q d Hq Hd) as Hne. destruct Hsuit as [Hz|[Hlow Hfp']]; [done|]. split; [cbn; congruence|rewrite Hfp; congruence].
  - intros j [= <-]. exists (got c dpll fp fp1 x). rewrite list_lookup_insert_eq by (by eapply lookup_lt_Some). split; [done|]. intros _. unfold holds. rewrite Hfp. cbn. by rewrite Hhw.
  - intros j Hib [= <-]. auto.
Qed.

Lemma pch_values_vco dev cfg dpll fp fp1 : pch_values dev ibx cfg = Some (Some (dpll, fp, fp1)) → Z.testbit dpll 31 = true.
Proof.
  unfold pch_values. destruct (ironlake_compute_clocks _ _ _) as [r|]; [|done]. cbn [mbind option_bind]. intros H.
  destruct (match r with Some ck => Some ck | None => if clock_set cfg then Some (dpll0, None) else None end) as [[clock red]|]; [|done].
  unfold ironlake_compute_dpll in H. cbv zeta in H. injection H as <- _ _. apply vco_or.
Qed.

(** The part of intel_get_shared_dpll and ironlake_crtc_mode_set after the old PLL has been
    given up. *)
Lemma get_run dev p cfg c dpll fp fp1 base s : inv ibx s → (ibx = true → (p < I915_NUM_PLLS)%nat) → pipes s !! p = Some c →
  crtc_active c = false → cfg_has_pch cfg = true → pch_values dev ibx cfg = Some (Some (dpll, fp, fp1)) →
  ∀ c1, shared_dpll c1 = shared_dpll c → crtc_active c1 = false →
  wp (ironlake_crtc_mode_set dev ibx p cfg base) (set_pipes (<[p := c1]> (pipes s)) s) (λ r s', inv ibx s' ∧
    ((r = base ∧ ∃ i, pipes s' = <[p := set_shared (Some i) (set_hw_state (mk_hw dpll fp fp1) c1)]> (pipes s)) ∨
     (r = - EINVAL ∧ pipes s' = <[p := set_shared None (set_hw_state (mk_hw dpll fp fp1) c1)]> (pipes s) ∧ all_taken s' dpll fp))).
Proof.
  intros Hinv Hp Hc Hina Hpch Hval c1 Hs1 Hina1. unfold ironlake_crtc_mode_set. rewrite Hval, Hpch. set (c2 := set_hw_state (mk_hw dpll fp fp1) c1).
  apply (wp_reads _ _ _ c1); [by eapply lookup_own|]. apply wp_modify. cbn [set_pipes pipes plls warnings]. rewrite list_insert_insert_eq. fold c2.
  apply wp_bind. unfold intel_get_shared_dpll. apply (wp_reads _ _ _ c2); [by eapply lookup_own|].
  apply wp_bind. match goal with |- wp ?m ?t ?R => eapply (wp_mono m t (λ _ t', inv ibx t' ∧ pipes t' = <[p := set_shared None c2]> (pipes s))) end.
  { assert (shared_dpll c2 = shared_dpll c) as Hs2 by done. destruct (shared_dpll c) as [i|] eqn:Hs.
    - rewrite bool_decide_eq_true_2 by (rewrite Hs2; by eexists). cbn [when]. apply (put_run s p c c2 Hinv Hc Hina); [by rewrite Hs2, Hs|done].
    - rewrite bool_decide_eq_false_2 by (rewrite Hs2; by intros [? ?]). cbn [when].
      assert (set_shared None c2 = c2) as -> by (unfold c2 in *; destruct c1; cbn in *; by subst). split; [|done]. apply (inv_pipe s p c c2 Hinv Hc).
      + intros j. split; [unfold attached; by rewrite Hs2, Hs|]. unfold running, attached. rewrite Hs2, Hs. rewrite (bool_decide_eq_false_2 (None = Some j)) by done. done.
      + intros j x Hj. by rewrite Hs2 in Hj. }
  intros [] t [Ht Hpt]. cbv beta. set (c3 := set_shared None c2) in *. assert (pipes t !! p = Some c3) as Hc3 by (rewrite Hpt; by eapply lookup_own).
  apply wp_bind. unfold get at 1, wp at 1. pose proof (choose_suits t p c3 dpll fp Ht Hc3 eq_refl Hp) as Hch.
  destruct (choose_pll ibx p dpll fp (plls t)) as [i|]; [|split; [done|]; right; done].
  destruct Hch as (x & Hx & Hsuit & Hi). apply (wp_reads _ _ _ c3); [done|]. apply wp_modify. apply (wp_reads _ _ _ x); [done|].
  set (c4 := set_shared (Some i) c3). assert (on x = negb (active x =? 0)) as Hox by apply (inv_plls _ _ Ht i x Hx).
  assert (pipes (set_pipes (<[p := c4]> (pipes t)) t) !! p = Some c4) as Hc4 by (by eapply lookup_own).
  pose proof (inv_got t p c3 i x dpll fp fp1 Ht Hc3 eq_refl Hina1 eq_refl Hx Hsuit Hi (pch_values_vco _ _ _ _ _ Hval)) as Hgot. fold c4 in Hgot.
  assert (∀ y, wp (c ← get_pipe p; match shared_dpll c with None => fault | Some i => pll ← get_pll i; put_pll i (set_regs dpll (r_fp0 pll) fp1 pll);; mret base end)
    (set_plls (<[i := y]> (plls t)) (set_pipes (<[p := c4]> (pipes t)) t)) (λ r s', r = base ∧ s' = mk_state (<[i := set_regs dpll (r_fp0 y) fp1 y]> (plls t)) (<[p := c4]> (pipes t)) (warnings t))) as Hend.
  { intros y. apply (wp_reads _ _ _ c4); [done|]. cbn [shared_dpll c4 set_shared]. apply (wp_reads _ _ _ y); [by eapply lookup_own|]. apply wp_modify.
    unfold wp, mret, M_ret. cbn [set_plls set_pipes plls pipes warnings]. by rewrite list_insert_insert_eq. }
  assert (∀ s', s' = mk_state (<[i := got c3 dpll fp fp1 x]> (plls t)) (<[p := c4]> (pipes t)) (warnings t) →
    inv ibx s' ∧ ((base = base ∧ ∃ i, pipes s' = <[p := set_shared (Some i) c2]> (pipes s)) ∨
      (base = - EINVAL ∧ pipes s' = <[p := set_shared None c2]> (pipes s) ∧ all_taken s' dpll fp))) as Hdone.
  { intros s' ->. split; [done|]. left. split; [done|]. exists i. cbn [pipes]. by rewrite Hpt, list_insert_insert_eq. }
  unfold got in Hdone. destruct (Z.eqb_spec (active x) 0) as [H0|H0].
  - apply wp_bind. apply wp_warn; [by rewrite Hox, ?H0|]. apply wp_put. apply wp_ret. eapply wp_mono; [apply Hend|]. intros r s' [-> ->]. by apply Hdone.
  - apply wp_modify. apply wp_ret. eapply wp_mono; [apply Hend|]. intros r s' [-> ->]. by apply Hdone.
Qed.

Lemma set_mode_run dev p cfg base v s c : inv ibx s → (ibx = true → (p < I915_NUM_PLLS)%nat) → pipes s !! p = Some c → pch_values dev ibx cfg = Some v →
  let c1 := mk_pipe (shared_dpll c) false (cfg_has_pch cfg) (mk_hw 0 0 0) in
  wp (intel_set_mode dev ibx p cfg base) s (λ r s', inv ibx s' ∧
    match v with
    | None => r = - EINVAL ∧ pipes s' = <[p := c1]> (pipes s)
    | Some (dpll, fp, fp1) =>
        if cfg_has_pch cfg then
          let c2 := set_hw_state (mk_hw dpll fp fp1) c1 in
          (r = base ∧ ∃ i, pipes s' = <[p := set_shared (Some i) c2]> (pipes s)) ∨
          (r = - EINVAL ∧ pipes s' = <[p := set_shared None c2]> (pipes s) ∧ all_taken s' dpll fp)
        else r = base ∧ pipes s' = <[p := set_shared None c1]> (pipes s)
    end).
Proof.
  intros Hinv Hp Hc Hval c1. unfold intel_set_mode. apply wp_bind. eapply wp_mono; [by apply (disable_run s p c)|]. intros [] t [Ht Hpt]. cbv beta.
  set (c0 := set_crtc_active false c) in *. assert (pipes t !! p = Some c0) as Hc0 by (rewrite Hpt; by eapply lookup_own).
  apply (wp_reads _ _ _ c0); [done|]. apply wp_modify. change (mk_pipe (shared_dpll c0) (crtc_active c0) (cfg_has_pch cfg) (mk_hw 0 0 0)) with c1.
  assert (∀ c', <[p := c']> (pipes t) = <[p := c']> (pipes s)) as Hins by (intros c'; by rewrite Hpt, list_insert_insert_eq).
  destruct v as [[[dpll fp] fp1]|].
  - destruct (cfg_has_pch cfg) eqn:Hpch.
    + pose proof (get_run dev p cfg c0 dpll fp fp1 base t Ht Hp Hc0 eq_refl Hpch Hval c1 eq_refl eq_refl) as Hrun.
      eapply wp_mono; [exact Hrun|]. intros r s'. cbv beta. rewrite Hins. intros [Hi Hr]. split; [done|].
      destruct Hr as [[Hr [i Hpi]]|Hr]; [left; split; [done|]; exists i; by rewrite <- Hins|by right].
    + unfold ironlake_crtc_mode_set. rewrite Hval, Hpch. apply wp_bind. eapply wp_mono; [by apply (put_run t p c0 c1 Ht Hc0)|].
      intros [] s' [Hs' Hps']. cbv beta. apply wp_ret. rewrite <- Hins. done.
  - unfold ironlake_crtc_mode_set. rewrite Hval. apply wp_ret. split; [|split; [done|apply Hins]].
    apply (inv_pipe t p c0 c1 Ht Hc0).
    + intros j. split; [done|]. unfold running. by rewrite !andb_false_r.
    + intros j x _ _ Hset. done.
Qed.
End proofs.

(** The clocks of a mode set never fault. *)
Definition config_ok (dev : display_dev) (cfg : pch_config) : Prop :=
  0 < port_clock cfg <= 2 ^ 30 ∧ 0 < ironlake_get_refclk dev (encoders (pch_pll cfg)) <= 1000000 ∧ (lvds_downclock_avail dev = true → 0 < lvds_downclock dev <= 2 ^ 30).

Lemma pch_values_total dev ibx cfg : pch_split dev = true → is_pineview dev = false → config_ok dev cfg → ∃ v, pch_values dev ibx cfg = Some v.
Proof.
  intros Hpch Hpin (Hport & Href & Hdown). unfold pch_values.
  assert (∃ r, ironlake_compute_clocks dev (encoders (pch_pll cfg)) (port_clock cfg) = Some r) as (r & ->); [|cbn [mbind option_bind]; by eexists].
  unfold ironlake_compute_clocks. set (refclk := ironlake_get_refclk dev _) in *. set (limit := intel_limit dev _ refclk).
  pose proof (limits_ok limit (intel_limit_in dev _ refclk)) as Hl.
  destruct (g4x_first_good dev (encoders (pch_pll cfg)) limit (port_clock cfg) refclk None Hl Href Hport Hpin) as (r & Hr & _).
  unfold find_dpll. rewrite Hpch. cbn [orb]. rewrite Hr. cbn [mbind option_bind]. destruct r.1; [|by eexists]. unfold reduced, find_dpll. rewrite Hpch. cbn [orb].
  destruct (_ && lvds_downclock_avail dev) eqn:Ha; [|cbn; by eexists]. apply andb_true_iff in Ha as [_ Ha].
  destruct (g4x_first_good dev (encoders (pch_pll cfg)) limit (lvds_downclock dev) refclk (Some r.2) Hl Href (Hdown Ha) Hpin) as (r' & Hr' & _). rewrite Hr'. cbn. by eexists.
Qed.

(** ** Runs *)

Inductive pll_op := SetMode (crtc : nat) (cfg : pch_config) (base_ret : Z) | EnableCrtc (crtc : nat) | DisableCrtc (crtc : nat) | ShutDown (crtc : nat).
Definition op_crtc (o : pll_op) : nat := match o with SetMode p _ _ => p | EnableCrtc p => p | DisableCrtc p => p | ShutDown p => p end.

Definition run_op (dev : display_dev) (ibx : bool) (o : pll_op) : M pll_state Z :=
  match o with
  | SetMode p cfg base => intel_set_mode dev ibx p cfg base
  | EnableCrtc p => ironlake_crtc_enable p;; mret 0
  | DisableCrtc p => ironlake_crtc_disable p;; mret 0
  | ShutDown p => intel_crtc_disable p;; mret 0
  end.

Definition op_allowed (dev : display_dev) (n_pipes : nat) (o : pll_op) : Prop :=
  (op_crtc o < n_pipes)%nat ∧ match o with SetMode _ cfg _ => config_ok dev cfg | _ => True end.

Definition pll_step (dev : display_dev) (ibx : bool) (n_pipes : nat) (s s' : pll_state) : Prop :=
  ∃ o r, op_allowed dev n_pipes o ∧ run_op dev ibx o s = Some (r, s').

Lemma init_inv ibx regs n : length regs = I915_NUM_PLLS → inv ibx (pch_init regs n).
Proof.
  intros Hl. assert (∀ f : pipe → bool, f (mk_pipe None false false (mk_hw 0 0 0)) = false → count f (replicate n (mk_pipe None false false (mk_hw 0 0 0))) = 0) as Hcount.
  { intros f Hf. induction n as [|n IH]; [done|]. cbn [replicate count]. rewrite Hf, IH. done. }
  constructor; cbn [pch_init plls pipes warnings].
  - done.
  - by rewrite length_map.
  - intros i x Hx. rewrite list_lookup_fmap in Hx. destruct (regs !! i) as [[[d f0] f1]|]; [|done]. injection Hx as <-. constructor; cbn; rewrite ?Hcount; done.
  - intros p c i Hc Hs. apply lookup_replicate in Hc as [-> _]. done.
  - intros p c i _ Hc Hs. apply lookup_replicate in Hc as [-> _]. done.
Qed.

Lemma op_inv dev ibx n o s : pch_split dev = true → is_pineview dev = false → (ibx = true → (n <= I915_NUM_PLLS)%nat) → inv ibx s → length (pipes s) = n → op_allowed dev n o →
  wp (run_op dev ibx o) s (λ _ s', inv ibx s' ∧ length (pipes s') = n ∧ ∀ q, q ≠ op_crtc o → pipes s' !! q = pipes s !! q).
Proof.
  intros Hpch Hpin Hn Hinv Hlen [Hp Ho]. destruct (lookup_lt_is_Some_2 (pipes s) (op_crtc o)) as [c Hc]; [lia|].
  assert (∀ c' s' q, pipes s' = <[op_crtc o := c']> (pipes s) → length (pipes s') = n ∧ (q ≠ op_crtc o → pipes s' !! q = pipes s !! q)) as Hframe.
  { intros c' s' q ->. rewrite length_insert. split; [done|]. intros Hq. by rewrite list_lookup_insert_ne by done. }
  assert (∀ c' s', inv ibx s' → pipes s' = <[op_crtc o := c']> (pipes s) → inv ibx s' ∧ length (pipes s') = n ∧ ∀ q, q ≠ op_crtc o → pipes s' !! q = pipes s !! q) as Hdone.
  { intros c' s' Hs' Hps. split; [done|]. split; [by apply (Hframe c' s' 0%nat)|]. intros q. by apply (Hframe c' s' q). }
  destruct o as [p cfg base|p|p|p]; cbn [op_crtc run_op] in *.
  - destruct (pch_values_total dev ibx cfg Hpch Hpin Ho) as [v Hv]. eapply wp_mono; [eapply (set_mode_run ibx dev p cfg base v s c Hinv); [|done|done]; intros Hi; specialize (Hn Hi); lia|].
    intros r s' [Hs' Hr]. destruct v as [[[dpll fp] fp1]|]; [|destruct Hr as [_ Hr]; by eapply Hdone]. destruct (cfg_has_pch cfg); [|destruct Hr as [_ Hr]; by eapply Hdone].
    destruct Hr as [[_ [i Hr]]|(_ & Hr & _)]; by eapply Hdone.
  - apply wp_bind. eapply wp_mono; [by apply (enable_run ibx s p c)|]. intros _ s' [Hs' Hr]. by eapply Hdone.
  - apply wp_bind. eapply wp_mono; [by apply (disable_run ibx s p c)|]. intros _ s' [Hs' Hr]. by eapply Hdone.
  - unfold intel_crtc_disable, ironlake_crtc_off. apply wp_bind, wp_bind. eapply wp_mono; [by apply (disable_run ibx s p c)|]. intros _ s' [Hs' Hr]. cbv beta.
    set (c0 := set_crtc_active false c) in *. assert (pipes s' !! p = Some c0) as Hc0 by (rewrite Hr; by eapply lookup_own).
    assert (s' = set_pipes (<[p := c0]> (pipes s')) s') as Heq by (rewrite list_insert_id by done; by destruct s').
    rewrite Heq at 1. eapply wp_mono; [by apply (put_run ibx s' p c0 c0 Hs' Hc0)|]. intros _ s2 [Hs2 Hr2]. apply wp_ret. eapply Hdone; [done|]. by rewrite Hr2, Hr, list_insert_insert_eq.
Qed.

Lemma reachable_inv dev ibx n regs s : pch_split dev = true → is_pineview dev = false → (ibx = true → (n <= I915_NUM_PLLS)%nat) → length regs = I915_NUM_PLLS →
  star (pll_step dev ibx n) (pch_init regs n) s → inv ibx s ∧ length (pipes s) = n.
Proof.
  intros Hpch Hpin Hn Hl Hstar. apply (star_invariant (pll_step dev ibx n) (λ s, inv ibx s ∧ length (pipes s) = n) (pch_init regs n) s); [| |done].
  - intros s1 s2 [Hinv Hlen] (o & r & Ha & Hrun). pose proof (op_inv dev ibx n o s1 Hpch Hpin Hn Hinv Hlen Ha) as Hwp. unfold wp in Hwp. rewrite Hrun in Hwp. by destruct Hwp as (? & ? & _).
  - split; [by apply init_inv|]. apply length_replicate.
Qed.

(** A pipe that is on, with the clock it was set up with, on PLL [i]. *)
Definition driven (s : pll_state) (p i : nat) (c : pipe) : Prop :=
  pipes s !! p = Some c ∧ shared_dpll c = Some i ∧ crtc_active c = true ∧ has_pch_encoder c = true ∧ set_up c = true.

Lemma driven_pll ibx s p i c : inv ibx s → driven s p i c → ∃ x, plls s !! i = Some x ∧ on x = true ∧ Z.testbit (r_dpll x) 31 = true ∧ holds x c.
Proof.
  intros Hinv (Hc & Hs & Ha & Hh & Hset). destruct (inv_pipes _ _ Hinv p c i Hc Hs) as (x & Hx & Hho). destruct (inv_plls _ _ Hinv i x Hx) as [_ Hac Hon Hvco].
  assert (on x = true) as Hox.
  { rewrite Hon. apply negb_true_iff, Z.eqb_neq. intros H0. rewrite Hac in H0. assert (running i c = true) as Hr by (unfold running, attached; rewrite Ha, Hh, bool_decide_eq_true_2 by done; done).
    rewrite (count_zero _ _ c H0) in Hr; [done|]. by apply list_elem_of_lookup_2 with p. }
  exists x. auto.
Qed.

Lemma low31_bits a b k : low31 a = low31 b → 0 <= k < 31 → Z.testbit a k = Z.testbit b k.
Proof.
  intros H Hk. assert (∀ z, Z.testbit (low31 z) k = Z.testbit z k) as Hz; [|by rewrite <- (Hz a), <- (Hz b), H].
  intros z. unfold low31. change 0x7fffffff with (Z.ones 31). rewrite Z.land_spec, Z.ones_spec_low by lia. apply andb_true_r.
Qed.

(** ** Theorems *)

Section theorems.
Context (dev : display_dev) (ibx : bool) (n : nat) (regs : list (Z * Z * Z)).
Hypothesis Hpch : pch_split dev = true.
Hypothesis Hpin : is_pineview dev = false.
Hypothesis Hibx : ibx = true → (n <= I915_NUM_PLLS)%nat.
Hypothesis Hregs : length regs = I915_NUM_PLLS.



End theorems.

(** ** Witnesses *)

(** Ivybridge: three pipes on the two PLLs of the PCH. *)
Definition demo_ivb : display_dev := mk_display (demo_chip 7 false) false false true false false 0 false 0.
Definition demo_analog (clock : Z) : pch_config := mk_pch_config (mk_pll_config [INTEL_OUTPUT_ANALOG] 1 false false dpll0 true) clock false true.
Definition demo_regs : list (Z * Z * Z) := [(0, 0, 0); (0, 0, 0)].

Fixpoint run_ops (dev : display_dev) (ibx : bool) (l : list pll_op) (s : pll_state) : option pll_state :=
  match l with [] => Some s | o :: l => r ← run_op dev ibx o s; run_ops dev ibx l r.2 end.

Lemma run_ops_star dev ibx n l : Forall (op_allowed dev n) l → ∀ s s', run_ops dev ibx l s = Some s' → star (pll_step dev ibx n) s s'.
Proof.
  induction 1 as [|o l Ho Hl IH]; intros s s' Hrun; cbn in Hrun; [injection Hrun as <-; constructor|].
  destruct (run_op dev ibx o s) as [[r s1]|] eqn:Hr; [|done]. cbn in Hrun. apply star_step with s1; [by exists o, r|by apply IH].
Qed.

(** Two pipes share a PLL, the third has the other one; then a fourth clock finds none. *)
Definition demo_ops : list pll_op :=
  [SetMode 0 (demo_analog 108000) 0; EnableCrtc 0; SetMode 1 (demo_analog 108000) 0; EnableCrtc 1; SetMode 2 (demo_analog 65000) 0].
Definition demo_hw : intel_dpll_hw_state := mk_hw 2214854660 135685 135685.
Definition demo_hw2 : intel_dpll_hw_state := mk_hw 2215641104 135686 135686.
Definition demo_shared : pll_state :=
  mk_state [mk_shared 2 2 true demo_hw 2214854660 135685 135685; mk_shared 1 0 false demo_hw2 2215641104 135686 135686]
    [mk_pipe (Some 0%nat) true true demo_hw; mk_pipe (Some 0%nat) true true demo_hw; mk_pipe (Some 1%nat) false true demo_hw2] 0.

Lemma demo_config clock : 0 < clock <= 2 ^ 30 → config_ok demo_ivb (demo_analog clock).
Proof. by intros Hc; repeat split; cbn; try lia. Qed.

Lemma demo_reach : star (pll_step demo_ivb false 3) (pch_init demo_regs 3) demo_shared.
Proof.
  apply (run_ops_star demo_ivb false 3 demo_ops); [|by vm_compute].
  repeat (apply List.Forall_cons; [split; [cbn; lia|cbn; try done; by apply demo_config]|]). by apply List.Forall_nil.
Qed.

Lemma demo_driven : driven demo_shared 0 0 (mk_pipe (Some 0%nat) true true demo_hw).
Proof. by vm_compute. Qed.



