(* ===== verification/Link.v ===== *)
(** * i915: links

    The links that carry pixels from a pipe to its output: the ratio of their clocks in
    the registers (intel_display.c), the lanes of the FDI to the PCH and how pipes B
    and C share them, and the search of the DisplayPort code for a link that a mode fits
    (intel_dp.c).  The theorems: the ratio is the exact one rounded down, a link that is
    chosen has room for the mode, and it is the best in the order of the search. *)

From stdpp Require Import base option list.
From Stdlib Require Import ZArith Lia.
From S2P Require Import Prelude Fences Pll.
#[local] Open Scope Z_scope.

(** ** M and N *)

Definition DATA_LINK_M_N_MASK : Z := 0xffffff.
Definition DATA_LINK_N_MAX : Z := 0x800000.

(** The loop of roundup_pow_of_two; [None]: it did not end in [fuel] rounds. *)
Fixpoint log_loop (fuel : nat) (temp ret_val : Z) : option Z :=
  match fuel with
  | O => None
  | S fuel => if temp =? 1 then Some ret_val else log_loop fuel (Z.shiftr temp 1) (ret_val + 1)
  end.

(** [1 << r] of an int; a shift by 32 or more is undefined. *)
Definition shl1 (r : Z) : option Z := if r <? 32 then Some (i32 (2 ^ r)) else None.

Definition roundup_pow_of_two (n : Z) : option Z :=
  if n =? 0 then Some 0
  else
    ret_val ← log_loop 32 n 0;
    one ← shl1 ret_val;
    let ret_val := if z2b (Z.lxor (u32 one) n) then ret_val + 1 else ret_val in
    one ← shl1 ret_val;
    Some (u32 one).

Fixpoint intel_reduce_m_n_ratio (fuel : nat) (num den : Z) : option (Z * Z) :=
  match fuel with
  | O => None
  | S fuel =>
      if (DATA_LINK_M_N_MASK <? num) || (DATA_LINK_M_N_MASK <? den) then intel_reduce_m_n_ratio fuel (Z.shiftr num 1) (Z.shiftr den 1)
      else Some (num, den)
  end.

Definition compute_m_n (m n : Z) : option (Z * Z) :=
  r ← roundup_pow_of_two n;
  let ret_n := cmin r DATA_LINK_N_MAX in
  if n =? 0 then None
  else intel_reduce_m_n_ratio 33 (u32 (u64 (m * ret_n) / n)) ret_n.

Record intel_link_m_n := mk_m_n { tu : Z; gmch_m : Z; gmch_n : Z; link_m : Z; link_n : Z }.

Definition intel_link_compute_m_n (bits_per_pixel nlanes pixel_clock link_clock : Z) : option intel_link_m_n :=
  gmch ← compute_m_n (u32 (i32 (bits_per_pixel * pixel_clock))) (u32 (i32 (i32 (link_clock * nlanes) * 8)));
  link ← compute_m_n (u32 pixel_clock) (u32 link_clock);
  Some (mk_m_n 64 gmch.1 gmch.2 link.1 link.2).

(** ** The FDI *)

Definition ironlake_get_lanes_required (target_clock link_bw bpp : Z) : option Z :=
  bps ← cdiv (i32 (i32 (target_clock * bpp) * 21)) 20;
  let d := u32 (i32 (link_bw * 8)) in
  if d =? 0 then None else Some (i32 (u32 (u32 bps / d + 1))).

(** What ironlake_check_fdi_lanes asks of the device and of pipes B and C:
    pipe_has_enabled_pch and the lanes of B, and whether C is enabled. *)
Record fdi_state := mk_fdi { is_haswell : bool; num_pipes : Z; pipe_b_pch : bool; pipe_b_lanes : Z; pipe_c_enabled : bool }.

(** [None]: the BUG() for a pipe that does not exist. *)
Definition ironlake_check_fdi_lanes (st : fdi_state) (pipe lanes : Z) : option bool :=
  if 4 <? lanes then Some false
  else if is_haswell st then Some (negb (2 <? lanes))
  else if num_pipes st =? 2 then Some true
  else if pipe =? 0 then Some true
  else if pipe =? 1 then Some (negb (pipe_c_enabled st && (2 <? lanes)))
  else if pipe =? 2 then
    if negb (pipe_b_pch st) || (pipe_b_lanes st <=? 2) then Some (negb (2 <? lanes)) else Some false
  else None.

Definition RETRY : Z := 1.

(** intel_fdi_link_freq: [bios]: the register FDI_PLL_BIOS_0. *)
Definition intel_fdi_link_freq (dev : display_dev) (bios : Z) : Z := if gen (info dev) =? 5 then u32 (Z.land bios 0xff + 2) else 27.

(** [MHz(100)/KHz(1)/10]. *)
Definition fdi_link_bw (freq : Z) : Z := u32 (freq * 100000000) / 1000 / 10.

(** [workaround]: i915_default_lanes if i915_lane_workaround is set.  The result: the return
    value, the lanes, the bpp, and the ratios of the last round. *)
Fixpoint fdi_retry (fuel : nat) (st : fdi_state) (pipe link_bw dotclock : Z) (workaround : option Z) (bpp : Z) (needs_recompute : bool) : option (Z * Z * Z * intel_link_m_n) :=
  match fuel with
  | O => None
  | S fuel =>
      lane ← (match workaround with Some l => Some l | None => ironlake_get_lanes_required dotclock link_bw bpp end);
      m_n ← intel_link_compute_m_n bpp lane dotclock link_bw;
      setup_ok ← ironlake_check_fdi_lanes st pipe lane;
      if negb setup_ok && (18 <? bpp) then fdi_retry fuel st pipe link_bw dotclock workaround (bpp - 6) true
      else Some (if needs_recompute then RETRY else if setup_ok then 0 else - EINVAL, lane, bpp, m_n)
  end.

Definition ironlake_fdi_compute_config (dev : display_dev) (bios : Z) (st : fdi_state) (pipe clock pixel_multiplier bpp : Z) (workaround : option Z) : option (Z * Z * Z * intel_link_m_n) :=
  let link_bw := fdi_link_bw (intel_fdi_link_freq dev bios) in
  fdi_dotclock ← udiv32 (u32 clock) (u32 pixel_multiplier);
  fdi_retry (S (Z.to_nat bpp)) st pipe link_bw (i32 fdi_dotclock) workaround bpp false.

(** ** DisplayPort *)

(** drm_dp_helper.h and drm_dp_helper.c *)
Definition DP_LINK_BW_1_62 : Z := 0x06.
Definition DP_LINK_BW_2_7 : Z := 0x0a.
Definition DP_LINK_BW_5_4 : Z := 0x14.
Definition DP_MAX_LANE_COUNT_MASK : Z := 0x1f.

Definition drm_dp_bw_code_to_link_rate (link_bw : Z) : Z :=
  if link_bw =? DP_LINK_BW_2_7 then 270000 else if link_bw =? DP_LINK_BW_5_4 then 540000 else 162000.

(** The sink: its bytes DP_MAX_LINK_RATE and DP_MAX_LANE_COUNT; for a panel (eDP) its bits per pixel in
    the BIOS tables (0: unknown) and its fixed mode. *)
Record dp_sink := mk_sink { dp_max_link_rate : Z; dp_max_lanes : Z; is_edp : bool; edp_bpp : Z; fixed_mode : option (Z * Z * Z) }.

Definition drm_dp_max_lane_count (d : dp_sink) : Z := Z.land (dp_max_lanes d) DP_MAX_LANE_COUNT_MASK.

Definition intel_dp_max_link_bw (d : dp_sink) : Z :=
  let bw := dp_max_link_rate d in
  if (bw =? DP_LINK_BW_1_62) || (bw =? DP_LINK_BW_2_7) then bw
  else if bw =? DP_LINK_BW_5_4 then DP_LINK_BW_2_7 else DP_LINK_BW_1_62.

Definition intel_dp_link_required (pixel_clock bpp : Z) : Z := Z.quot (i32 (i32 (pixel_clock * bpp) + 9)) 10.
Definition intel_dp_max_data_rate (max_link_clock max_lanes : Z) : Z := Z.quot (i32 (i32 (max_link_clock * max_lanes) * 8)) 10.

(** The values of drm_mode_status that intel_dp_mode_valid returns. *)
Inductive mode_status := MODE_OK | MODE_PANEL | MODE_CLOCK_HIGH | MODE_CLOCK_LOW | MODE_H_ILLEGAL.

Definition intel_dp_mode_valid (d : dp_sink) (hdisplay vdisplay clock : Z) (dblclk : bool) : mode_status :=
  let panel := if is_edp d then fixed_mode d else None in
  let too_big := match panel with Some (h, v, _) => (h <? hdisplay) || (v <? vdisplay) | None => false end in
  if too_big then MODE_PANEL
  else
    let target_clock := match panel with Some (_, _, c) => c | None => clock end in
    let max_rate := intel_dp_max_data_rate (drm_dp_bw_code_to_link_rate (intel_dp_max_link_bw d)) (drm_dp_max_lane_count d) in
    let mode_rate := intel_dp_link_required target_clock 18 in
    if max_rate <? mode_rate then MODE_CLOCK_HIGH
    else if clock <? 10000 then MODE_CLOCK_LOW
    else if dblclk then MODE_H_ILLEGAL
    else MODE_OK.

(** The loops of intel_dp_compute_config: the lane counts 1, 2, 4, ... up to the maximum, the
    two link rates, and the bits per pixel downwards. *)
Fixpoint lane_loop (fuel : nat) (mode_rate link_clock lane_count max_lane_count : Z) : option Z :=
  match fuel with
  | O => None
  | S fuel =>
      if lane_count <=? max_lane_count then
        if mode_rate <=? intel_dp_max_data_rate link_clock lane_count then Some lane_count
        else lane_loop fuel mode_rate link_clock (i32 (Z.shiftl lane_count 1)) max_lane_count
      else None
  end.

Definition bws : list Z := [DP_LINK_BW_1_62; DP_LINK_BW_2_7].

Fixpoint clock_loop (codes : list Z) (mode_rate max_lane_count : Z) : option (Z * Z) :=
  match codes with
  | [] => None
  | bw :: codes =>
      match lane_loop 6 mode_rate (drm_dp_bw_code_to_link_rate bw) 1 max_lane_count with
      | Some lanes => Some (bw, lanes)
      | None => clock_loop codes mode_rate max_lane_count
      end
  end.

Fixpoint bpp_loop (fuel : nat) (codes : list Z) (clock bpp max_lane_count : Z) : option (Z * Z * Z) :=
  match fuel with
  | O => None
  | S fuel =>
      if 18 <=? bpp then
        match clock_loop codes (intel_dp_link_required clock bpp) max_lane_count with
        | Some (bw, lanes) => Some (bw, lanes, bpp)
        | None => bpp_loop fuel codes clock (bpp - 6) max_lane_count
        end
      else None
  end.

(** The divisors that intel_dp_set_clock fixes for a link. *)
Definition intel_dp_set_clock (dev : display_dev) (link_bw : Z) : option dpll :=
  if is_g4x dev then Some (if link_bw =? DP_LINK_BW_1_62 then divisors 2 23 8 2 10 else divisors 1 14 2 1 10)
  else if pch_split dev then Some (if link_bw =? DP_LINK_BW_1_62 then divisors 1 12 9 2 10 else divisors 2 14 8 1 10)
  else None.

(** What intel_dp_compute_config leaves in the config, for a mode as the panel fitter has
    left it; the colour range, which does not depend on the link, is left out.  The inner
    [None]: the mode is refused; the outer one: a fault. *)
Record dp_config := mk_dp { dp_link_bw : Z; dp_lane_count : Z; dp_pipe_bpp : Z; dp_port_clock : Z; dp_m_n : intel_link_m_n; dp_divisors : option dpll }.

Definition dp_link (d : dp_sink) (clock bpp : Z) : option (Z * Z * Z) :=
  let max_clock := if intel_dp_max_link_bw d =? DP_LINK_BW_2_7 then 1%nat else 0%nat in
  let bpp := if is_edp d && z2b (edp_bpp d) then cmin bpp (edp_bpp d) else bpp in
  bpp_loop (Z.to_nat bpp) (take (S max_clock) bws) clock bpp (drm_dp_max_lane_count d).

Definition intel_dp_compute_config (dev : display_dev) (d : dp_sink) (clock bpp : Z) (dblclk : bool) : option (option dp_config) :=
  if dblclk then Some None
  else
    match dp_link d clock bpp with
    | None => Some None
    | Some (bw, lanes, bpp) =>
        let port_clock := drm_dp_bw_code_to_link_rate bw in
        m_n ← intel_link_compute_m_n bpp lanes clock port_clock;
        Some (Some (mk_dp bw lanes bpp port_clock m_n (intel_dp_set_clock dev bw)))
    end.

(** ** Powers of two *)

Lemma log_loop_spec fuel : ∀ t r, 1 <= t < 2 ^ Z.of_nat fuel → log_loop fuel t r = Some (r + Z.log2 t).
Proof.
  induction fuel as [|fuel IH]; intros t r Ht; [cbn in Ht; lia|]. cbn [log_loop]. destruct (Z.eqb_spec t 1) as [->|Hne]; [f_equal; cbn; lia|].
  rewrite Z.shiftr_div_pow2 by lia. change (2 ^ 1) with 2. rewrite Nat2Z.inj_succ, Z.pow_succ_r in Ht by lia.
  rewrite IH by (Z.to_euclidean_division_equations; lia). f_equal.
  assert (Z.log2 t = Z.succ (Z.log2 (t / 2))) as ->; [|lia]. rewrite <- Z.log2_double by (Z.to_euclidean_division_equations; lia).
  pose proof (Z.div_mod t 2 ltac:(lia)) as Hdm. pose proof (Z.mod_pos_bound t 2 ltac:(lia)) as Hm. destruct (decide (t mod 2 = 0)) as [H0|H0].
  - f_equal. lia.
  - assert (t mod 2 = 1) as H1 by lia. rewrite Hdm, H1 at 1. rewrite Z.log2_succ_double, Z.log2_double by (Z.to_euclidean_division_equations; lia). done.
Qed.

Lemma shl1_u32 r : 0 <= r < 32 → ∃ x, shl1 r = Some x ∧ u32 x = 2 ^ r.
Proof.
  intros Hr. unfold shl1. rewrite (proj2 (Z.ltb_lt _ _)) by lia. eexists. split; [done|].
  assert (Forall (λ r, u32 (i32 (2 ^ r)) = 2 ^ r) (seqZ 0 32)) as Hall by (apply (bool_decide_unpack _); vm_compute; exact I).
  rewrite Forall_forall in Hall. apply Hall, elem_of_seqZ. lia.
Qed.

(** The smallest power of two that is not below [n]. *)
Lemma roundup_spec n : 1 <= n <= 2 ^ 31 → roundup_pow_of_two n = Some (2 ^ Z.log2_up n).
Proof.
  intros Hn. unfold roundup_pow_of_two. rewrite (proj2 (Z.eqb_neq _ _)) by lia. rewrite log_loop_spec by (cbn; lia). cbn [mbind option_bind]. rewrite Z.add_0_l.
  pose proof (Z.log2_spec n ltac:(lia)) as [Hlo Hhi]. pose proof (Z.log2_nonneg n) as H0.
  assert (Z.log2 n <= 31) as Hle by (rewrite <- (Z.log2_pow2 31) by lia; apply Z.log2_le_mono; lia).
  destruct (shl1_u32 (Z.log2 n) ltac:(lia)) as (x & -> & Hx). cbn [mbind option_bind]. rewrite Hx. unfold z2b.
  destruct (Z.eqb_spec (Z.lxor (2 ^ Z.log2 n) n) 0) as [Heq|Hne]; cbn [negb].
  - apply Z.lxor_eq in Heq. destruct (shl1_u32 (Z.log2 n) ltac:(lia)) as (y & -> & Hy). cbn [mbind option_bind]. rewrite Hy. do 2 f_equal.
    rewrite <- Heq at 2. by rewrite Z.log2_up_pow2.
  - assert (2 ^ Z.log2 n ≠ n) as Hnp by (intros He; apply Hne; rewrite He; apply Z.lxor_nilpotent).
    assert (Z.log2 n + 1 <= 31) as Hle' by (destruct (decide (Z.log2 n = 31)) as [He|]; [rewrite He in *; lia|lia]).
    destruct (shl1_u32 (Z.log2 n + 1) ltac:(lia)) as (y & -> & Hy). cbn [mbind option_bind]. rewrite Hy. do 2 f_equal.
    symmetry. apply Z.log2_up_unique; [lia|]. rewrite Z.pow_succ_r in Hhi by done. split; [replace (Z.pred (Z.log2 n + 1)) with (Z.log2 n) by lia; lia|]. rewrite Z.pow_add_r by lia. lia.
Qed.

(** Halving keeps the ratio, rounded down. *)
Lemma reduce_spec m n fuel : ∀ k, 0 <= m → 1 <= n → m < 512 * n → 0 <= k <= 23 → (Z.to_nat k < fuel)%nat →
  ∃ j, 0 <= j <= k ∧ intel_reduce_m_n_ratio fuel (m * 2 ^ k / n) (2 ^ k) = Some (m * 2 ^ j / n, 2 ^ j) ∧ m * 2 ^ j / n <= DATA_LINK_M_N_MASK ∧
    (j = k ∨ DATA_LINK_M_N_MASK < m * 2 ^ k / n).
Proof.
  induction fuel as [|fuel IH]; intros k Hm Hn Hmn Hk Hf; [lia|]. cbn [intel_reduce_m_n_ratio].
  assert (2 ^ k <= 2 ^ 23) as Hp by (apply Z.pow_le_mono_r; lia). pose proof (Z.pow_pos_nonneg 2 k ltac:(lia) ltac:(lia)) as Hp0.
  assert ((DATA_LINK_M_N_MASK <? 2 ^ k) = false) as -> by (apply Z.ltb_ge; unfold DATA_LINK_M_N_MASK; lia). rewrite orb_false_r.
  destruct (Z.ltb_spec DATA_LINK_M_N_MASK (m * 2 ^ k / n)) as [Hbig|Hsmall]; [|exists k; repeat split; try lia; done].
  assert (1 <= k) as Hk1.
  { destruct (decide (k = 0)) as [->|]; [|lia]. exfalso. assert (m * 2 ^ 0 / n < 512) by (apply Z.div_lt_upper_bound; lia). unfold DATA_LINK_M_N_MASK in Hbig. lia. }
  assert (Z.shiftr (2 ^ k) 1 = 2 ^ (k - 1)) as ->.
  { rewrite Z.shiftr_div_pow2 by lia. rewrite <- Z.pow_sub_r by lia. done. }
  assert (Z.shiftr (m * 2 ^ k / n) 1 = m * 2 ^ (k - 1) / n) as ->.
  { rewrite Z.shiftr_div_pow2 by lia. rewrite Z.div_div by lia. replace (2 ^ k) with (2 ^ (k - 1) * 2 ^ 1) by (rewrite <- Z.pow_add_r by lia; f_equal; lia).
    rewrite Z.mul_assoc. apply Z.div_mul_cancel_r; lia. }
  destruct (IH (k - 1) Hm Hn Hmn ltac:(lia) ltac:(lia)) as (j & Hj & -> & Hle & _). exists j. split; [lia|]. split; [done|]. split; [done|by right].
Qed.

Lemma compute_m_n_spec m n : 0 <= m → 1 <= n <= 2 ^ 31 → m < 512 * n →
  ∃ k, 0 <= k <= 23 ∧ compute_m_n m n = Some (m * 2 ^ k / n, 2 ^ k) ∧ m * 2 ^ k / n <= DATA_LINK_M_N_MASK ∧ (m <= n → k = Z.min (Z.log2_up n) 23).
Proof.
  intros Hm Hn Hmn. unfold compute_m_n. rewrite roundup_spec by done. cbn [mbind option_bind]. rewrite (proj2 (Z.eqb_neq _ _)) by lia.
  pose proof (Z.log2_up_nonneg n) as Hl. set (k := Z.min (Z.log2_up n) 23).
  assert (cmin (2 ^ Z.log2_up n) DATA_LINK_N_MAX = 2 ^ k) as ->.
  { rewrite cmin_min. change DATA_LINK_N_MAX with (2 ^ 23). unfold k. destruct (Z.min_spec (Z.log2_up n) 23) as [[Hc ->]|[Hc ->]].
    - apply Z.min_l. apply Z.pow_le_mono_r; lia.
    - apply Z.min_r. apply Z.pow_le_mono_r; lia. }
  assert (2 ^ k <= 2 ^ 23) as Hp by (apply Z.pow_le_mono_r; lia). pose proof (Z.pow_pos_nonneg 2 k ltac:(lia) ltac:(lia)) as Hp0.
  rewrite u64_id by nia. assert (0 <= m * 2 ^ k / n < 2 ^ 32) as Hq.
  { split; [apply Z.div_pos; nia|]. apply Z.div_lt_upper_bound; [lia|]. nia. }
  rewrite u32_id by done. destruct (reduce_spec m n 33 k Hm ltac:(lia) Hmn ltac:(lia) ltac:(lia)) as (j & Hj & -> & Hle & Hjk).
  exists j. split; [lia|]. split; [done|]. split; [done|]. intros Hmn'. destruct Hjk as [->|Hbig]; [done|].
  assert (m * 2 ^ k / n <= 2 ^ 23) by (apply Z.div_le_upper_bound; nia). unfold DATA_LINK_M_N_MASK in Hbig. lia.
Qed.

(** The ratios of a link whose data fit: [2^k] is the denominator. *)
Definition ratio_of (m n : Z) (r : Z * Z) : Prop :=
  ∃ k, 0 <= k <= 23 ∧ r = (m * 2 ^ k / n, 2 ^ k) ∧ r.1 <= DATA_LINK_M_N_MASK ∧ (m <= n → k = Z.min (Z.log2_up n) 23).

Lemma link_m_n_spec bpp lanes clock link : 0 <= clock <= 1000000 → 1 <= link <= 600000 → 0 <= bpp <= 64 → 1 <= lanes <= 256 → bpp * clock <= link * lanes * 8 → clock < 512 * link →
  ∃ r, intel_link_compute_m_n bpp lanes clock link = Some r ∧ tu r = 64 ∧
    ratio_of (bpp * clock) (link * lanes * 8) (gmch_m r, gmch_n r) ∧ ratio_of clock link (link_m r, link_n r) ∧ gmch_m r <= gmch_n r.
Proof.
  intros Hc Hl Hb Hn Hfit Hratio. unfold intel_link_compute_m_n. rewrite (i32_id (bpp * clock)), (i32_id (link * lanes)), (i32_id (link * lanes * 8)) by (unfold INT_MIN, INT_MAX; nia).
  rewrite !u32_id by nia.
  destruct (compute_m_n_spec (bpp * clock) (link * lanes * 8) ltac:(nia) ltac:(nia) ltac:(nia)) as (k & Hk & -> & Hmask & Hkn).
  destruct (compute_m_n_spec clock link ltac:(lia) ltac:(lia) ltac:(lia)) as (k' & Hk' & -> & Hmask' & Hkn'). cbn [mbind option_bind fst snd].
  eexists. split; [done|]. split; [done|]. split; [exists k; by cbn|]. split; [exists k'; by cbn|]. cbn.
  pose proof (Z.pow_pos_nonneg 2 k ltac:(lia) ltac:(lia)). apply Z.div_le_upper_bound; nia.
Qed.

(** ** Lanes *)

(** The data rate of a mode with 5 percent in reserve. *)
Definition fdi_rate (clock bpp : Z) : Z := clock * bpp * 21 / 20.

Lemma lanes_spec clock link_bw bpp : 0 <= clock <= 1000000 → 0 <= bpp <= 64 → 1 <= link_bw <= 600000 →
  ironlake_get_lanes_required clock link_bw bpp = Some (fdi_rate clock bpp / (link_bw * 8) + 1).
Proof.
  intros Hc Hb Hl. unfold ironlake_get_lanes_required, fdi_rate. rewrite (i32_id (clock * bpp)), (i32_id (clock * bpp * 21)) by (unfold INT_MIN, INT_MAX; nia).
  destruct (cdiv_exact (clock * bpp * 21) 20 ltac:(unfold INT_MAX; nia) ltac:(lia)) as [-> Hq]. cbn [mbind option_bind].
  rewrite (i32_id (link_bw * 8)) by (unfold INT_MIN, INT_MAX; lia). rewrite (u32_id (link_bw * 8)) by lia. rewrite (proj2 (Z.eqb_neq _ _)) by lia.
  unfold INT_MAX in Hq. rewrite (u32_id (clock * bpp * 21 / 20)) by lia.
  assert (clock * bpp * 21 / 20 <= 67200000) as Hq2 by (apply Z.div_le_upper_bound; nia).
  assert (0 <= clock * bpp * 21 / 20 / (link_bw * 8) <= 67200000) as Hr.
  { split; [apply Z.div_pos; lia|]. apply Z.div_le_upper_bound; nia. }
  rewrite u32_id by lia. rewrite i32_id by (unfold INT_MIN, INT_MAX; lia). done.
Qed.

(** The lanes that a depth needs, and whether the pipe may have them. *)
Definition fdi_lanes (clock link_bw bpp : Z) : Z := fdi_rate clock bpp / (link_bw * 8) + 1.
Definition lanes_ok (st : fdi_state) (pipe clock link_bw bpp : Z) : Prop := ironlake_check_fdi_lanes st pipe (fdi_lanes clock link_bw bpp) = Some true.

#[global] Instance lanes_ok_dec st pipe clock link_bw bpp : Decision (lanes_ok st pipe clock link_bw bpp).
Proof. unfold lanes_ok. apply _. Defined.

Lemma check_total st pipe lanes : 0 <= pipe <= 2 → ∃ b, ironlake_check_fdi_lanes st pipe lanes = Some b.
Proof. intros Hp. unfold ironlake_check_fdi_lanes. repeat case_match; eauto. rewrite !Z.eqb_neq in *. lia. Qed.

(** Enough lanes and not one too many. *)
Lemma lanes_carry clock link_bw bpp : 0 <= clock → 0 <= bpp → 1 <= link_bw →
  fdi_rate clock bpp < fdi_lanes clock link_bw bpp * (link_bw * 8) ∧ (fdi_lanes clock link_bw bpp - 1) * (link_bw * 8) <= fdi_rate clock bpp ∧
  bpp * clock <= link_bw * fdi_lanes clock link_bw bpp * 8 ∧ 1 <= fdi_lanes clock link_bw bpp.
Proof.
  intros Hc Hb Hl. unfold fdi_lanes. set (r := fdi_rate clock bpp).
  assert (clock * bpp <= r) as Hr by (unfold r, fdi_rate; apply Z.div_le_lower_bound; nia).
  pose proof (Z.div_mod r (link_bw * 8) ltac:(lia)) as Hd. pose proof (Z.mod_pos_bound r (link_bw * 8) ltac:(lia)) as Hm.
  assert (0 <= r / (link_bw * 8)) by (apply Z.div_pos; nia). nia.
Qed.

Lemma lanes_few clock link_bw bpp : 0 <= clock <= 1000000 → 33000 <= link_bw <= 600000 → 0 <= bpp <= 64 → fdi_lanes clock link_bw bpp <= 256.
Proof.
  intros Hc Hl Hb. unfold fdi_lanes, fdi_rate. assert (clock * bpp * 21 / 20 <= 67200000) as Hq by (apply Z.div_le_upper_bound; nia).
  assert (clock * bpp * 21 / 20 / (link_bw * 8) <= 255); [|lia]. apply Z.div_le_upper_bound; lia.
Qed.

(** What a run of ironlake_fdi_compute_config returns: the lanes for the deepest colours, in steps of 6
    bits, that the pipe may have, or else for those at 18 bits or below; RETRY if the
    depth changed; and ratios of a link that has room. *)
Definition fdi_result (st : fdi_state) (pipe clock link_bw bpp : Z) (again : bool) (res : Z * Z * Z * intel_link_m_n) : Prop :=
  let '(ret, lanes, bpp', m_n) := res in
  ∃ k, 0 <= k ∧ bpp' = bpp - 6 * k ∧ lanes = fdi_lanes clock link_bw bpp' ∧
    (∀ j, 0 <= j < k → ¬ lanes_ok st pipe clock link_bw (bpp - 6 * j)) ∧ (lanes_ok st pipe clock link_bw bpp' ∨ bpp' <= 18) ∧
    (k = 0 ∨ 12 < bpp') ∧
    (ret = if again || (0 <? k) then RETRY else if bool_decide (lanes_ok st pipe clock link_bw bpp') then 0 else - EINVAL) ∧
    ratio_of (bpp' * clock) (link_bw * lanes * 8) (gmch_m m_n, gmch_n m_n) ∧ gmch_m m_n <= gmch_n m_n.

Lemma fdi_retry_spec st pipe clock link_bw : 0 <= pipe <= 2 → 0 <= clock <= 1000000 → 33000 <= link_bw <= 600000 →
  ∀ fuel bpp again, 0 <= bpp <= 64 → (Z.to_nat bpp < fuel)%nat →
  ∃ res, fdi_retry fuel st pipe link_bw clock None bpp again = Some res ∧ fdi_result st pipe clock link_bw bpp again res.
Proof.
  intros Hp Hc Hl. induction fuel as [|fuel IH]; intros bpp again Hb Hf; [lia|]. cbn [fdi_retry].
  rewrite lanes_spec by lia. fold (fdi_lanes clock link_bw bpp). cbn [mbind option_bind].
  destruct (lanes_carry clock link_bw bpp ltac:(lia) ltac:(lia) ltac:(lia)) as (_ & _ & Hfit & H1).
  pose proof (lanes_few clock link_bw bpp Hc Hl Hb) as H256.
  destruct (link_m_n_spec bpp (fdi_lanes clock link_bw bpp) clock link_bw ltac:(lia) ltac:(lia) ltac:(lia) ltac:(lia) Hfit ltac:(lia)) as (mn & -> & _ & Hdata & _ & Hmn). cbn [mbind option_bind].
  destruct (check_total st pipe (fdi_lanes clock link_bw bpp) Hp) as [ok Hok]. rewrite Hok. cbn [mbind option_bind].
  destruct (negb ok && (18 <? bpp)) eqn:Hagain.
  - apply andb_true_iff in Hagain as [Hno%negb_true_iff H18%Z.ltb_lt]. subst ok.
    destruct (IH (bpp - 6) true ltac:(lia) ltac:(lia)) as (res & Hres & Hspec).
    exists res. split; [done|]. unfold fdi_result in *. destruct res as [[[ret lanes] bpp'] m_n]. destruct Hspec as (k & Hk & Hb' & Hla & Hfail & Hend & H12 & Hret & Hm & Hle).
    exists (k + 1). split; [lia|]. split; [lia|]. split; [done|]. split.
    + intros j Hj. destruct (decide (j = 0)) as [->|Hj0]; [rewrite Z.mul_0_r, Z.sub_0_r; unfold lanes_ok; by rewrite Hok|].
      replace (bpp - 6 * j) with (bpp - 6 - 6 * (j - 1)) by lia. apply Hfail. lia.
    + split; [done|]. split; [right; destruct H12; lia|]. split; [|done]. rewrite Hret. rewrite (proj2 (Z.ltb_lt 0 (k + 1))) by lia. by rewrite orb_true_r.
  - eexists. split; [done|]. unfold fdi_result. exists 0. split; [lia|]. rewrite Z.mul_0_r, Z.sub_0_r. split; [done|]. split; [done|]. split; [intros j Hj; lia|].
    split; [|split; [by left|split; [|done]]].
    + unfold lanes_ok. destruct ok; [by left|]. cbn in Hagain. apply Z.ltb_ge in Hagain. right. lia.
    + rewrite orb_false_r. destruct again; [done|]. destruct ok; [by rewrite bool_decide_eq_true_2|]. rewrite bool_decide_eq_false_2; [done|]. unfold lanes_ok. by rewrite Hok.
Qed.

(** ** The search of DisplayPort *)

(** [2^j] lanes at the rate of [bw] carry a mode. *)
Definition carries (max_lanes mode_rate bw j : Z) : Prop :=
  0 <= j ∧ 2 ^ j <= max_lanes ∧ mode_rate <= intel_dp_max_data_rate (drm_dp_bw_code_to_link_rate bw) (2 ^ j).

Lemma lane_loop_spec max mode_rate bw : 0 <= max <= 31 → ∀ fuel i, 0 <= i → 6 <= i + Z.of_nat fuel → i <= 5 →
  match lane_loop fuel mode_rate (drm_dp_bw_code_to_link_rate bw) (2 ^ i) max with
  | Some lanes => ∃ j, i <= j ∧ lanes = 2 ^ j ∧ carries max mode_rate bw j ∧ ∀ j', i <= j' < j → ¬ carries max mode_rate bw j'
  | None => ∀ j, i <= j → ¬ carries max mode_rate bw j
  end.
Proof.
  intros Hmax. induction fuel as [|fuel IH]; intros i Hi Hf Hi5; [lia|]. cbn [lane_loop]. destruct (Z.leb_spec (2 ^ i) max) as [Hle|Hgt]; cycle 1.
  { intros j Hj (_ & Hc & _). assert (2 ^ i <= 2 ^ j) by (apply Z.pow_le_mono_r; lia). lia. }
  destruct (Z.leb_spec mode_rate (intel_dp_max_data_rate (drm_dp_bw_code_to_link_rate bw) (2 ^ i))) as [Hok|Hno].
  { exists i. split; [lia|]. split; [done|]. split; [done|]. intros j' Hj'. lia. }
  assert (i <= 4) as Hi4.
  { destruct (decide (i <= 4)); [done|]. assert (2 ^ 5 <= 2 ^ i) by (apply Z.pow_le_mono_r; lia). lia. }
  assert (i32 (Z.shiftl (2 ^ i) 1) = 2 ^ (i + 1)) as ->.
  { rewrite Z.shiftl_mul_pow2 by lia. rewrite <- Z.pow_add_r by lia. apply i32_id. assert (2 ^ (i + 1) <= 2 ^ 5) by (apply Z.pow_le_mono_r; lia).
    pose proof (Z.pow_pos_nonneg 2 (i + 1) ltac:(lia) ltac:(lia)). unfold INT_MIN, INT_MAX. lia. }
  assert (¬ carries max mode_rate bw i) as Hnot by (intros (_ & _ & Hc); lia).
  specialize (IH (i + 1) ltac:(lia) ltac:(lia) ltac:(lia)). destruct (lane_loop fuel mode_rate _ (2 ^ (i + 1)) max) as [lanes|].
  - destruct IH as (j & Hj & -> & Hc & Hfew). exists j. split; [lia|]. split; [done|]. split; [done|]. intros j' Hj'. destruct (decide (j' = i)) as [->|]; [done|apply Hfew; lia].
  - intros j Hj. destruct (decide (j = i)) as [->|]; [done|apply IH; lia].
Qed.

Lemma clock_loop_spec max mode_rate : 0 <= max <= 31 → ∀ codes,
  match clock_loop codes mode_rate max with
  | Some (bw, lanes) => ∃ pre post j, codes = pre ++ bw :: post ∧ (∀ bw' j', bw' ∈ pre → ¬ carries max mode_rate bw' j') ∧
      lanes = 2 ^ j ∧ carries max mode_rate bw j ∧ ∀ j', j' < j → ¬ carries max mode_rate bw j'
  | None => ∀ bw j, bw ∈ codes → ¬ carries max mode_rate bw j
  end.
Proof.
  intros Hmax codes. induction codes as [|bw codes IH]; cbn [clock_loop]; [by intros ? ? ?%not_elem_of_nil|].
  pose proof (lane_loop_spec max mode_rate bw Hmax 6 0 ltac:(lia) ltac:(lia) ltac:(lia)) as Hl. change (2 ^ 0) with 1 in Hl.
  destruct (lane_loop 6 mode_rate (drm_dp_bw_code_to_link_rate bw) 1 max) as [lanes|].
  - destruct Hl as (j & Hj & -> & Hc & Hfew). exists [], codes, j. split; [done|]. split; [by intros ? ? ?%not_elem_of_nil|]. split; [done|]. split; [done|].
    intros j' Hj' Hc'. destruct (decide (0 <= j')); [by apply (Hfew j'); [lia|]|]. destruct Hc' as [? _]. lia.
  - assert (∀ j, ¬ carries max mode_rate bw j) as Hno.
    { intros j Hc. destruct (decide (0 <= j)); [by apply (Hl j)|]. destruct Hc as [? _]. lia. }
    destruct (clock_loop codes mode_rate max) as [[bw' lanes]|].
    + destruct IH as (pre & post & j & -> & Hpre & Hrest). exists (bw :: pre), post, j. split; [done|]. split; [|done]. intros bw2 j2 [->|Hin]%elem_of_cons; eauto.
    + intros bw2 j2 [->|Hin]%elem_of_cons; eauto.
Qed.

Section dp.
Context (codes : list Z) (clock max_lanes : Z).
Hypothesis Hmax : 0 <= max_lanes <= 31.

(** A depth that no link carries. *)
Definition too_deep (bpp : Z) : Prop := ∀ bw j, bw ∈ codes → ¬ carries max_lanes (intel_dp_link_required clock bpp) bw j.

(** The best link in the order of the search: the deepest colours, the lowest rate, the
    fewest lanes. *)
Definition best_link (bpp0 : Z) (r : option (Z * Z * Z)) : Prop :=
  match r with
  | Some (bw, lanes, bpp) => ∃ k pre post j, 0 <= k ∧ bpp = bpp0 - 6 * k ∧ 18 <= bpp ∧ (∀ k', 0 <= k' < k → too_deep (bpp0 - 6 * k')) ∧
      codes = pre ++ bw :: post ∧ (∀ bw' j', bw' ∈ pre → ¬ carries max_lanes (intel_dp_link_required clock bpp) bw' j') ∧
      lanes = 2 ^ j ∧ carries max_lanes (intel_dp_link_required clock bpp) bw j ∧ ∀ j', j' < j → ¬ carries max_lanes (intel_dp_link_required clock bpp) bw j'
  | None => ∀ k, 0 <= k → 18 <= bpp0 - 6 * k → too_deep (bpp0 - 6 * k)
  end.

Lemma bpp_loop_spec fuel : ∀ bpp, (Z.to_nat bpp <= fuel)%nat → best_link bpp (bpp_loop fuel codes clock bpp max_lanes).
Proof.
  induction fuel as [|fuel IH]; intros bpp Hf; cbn [bpp_loop]; [intros k Hk H18; lia|].
  destruct (Z.leb_spec 18 bpp) as [H18|H18]; [|intros k Hk Hk18; lia].
  pose proof (clock_loop_spec max_lanes (intel_dp_link_required clock bpp) Hmax codes) as Hc.
  destruct (clock_loop codes (intel_dp_link_required clock bpp) max_lanes) as [[bw lanes]|].
  - destruct Hc as (pre & post & j & Hcodes & Hpre & Hrest). exists 0, pre, post, j. split; [lia|]. split; [lia|]. split; [done|]. split; [intros k' Hk'; lia|]. done.
  - specialize (IH (bpp - 6) ltac:(lia)). unfold best_link in *. destruct (bpp_loop fuel codes clock (bpp - 6) max_lanes) as [[[bw lanes] b]|].
    + destruct IH as (k & pre & post & j & Hk & Hb & Hb18 & Hdeep & Hrest). exists (k + 1), pre, post, j. split; [lia|]. split; [lia|]. split; [done|]. split; [|done].
      intros k' Hk'. destruct (decide (k' = 0)) as [->|]; [by rewrite Z.mul_0_r, Z.sub_0_r|]. replace (bpp - 6 * k') with (bpp - 6 - 6 * (k' - 1)) by lia. apply Hdeep. lia.
    + intros k Hk Hk18. destruct (decide (k = 0)) as [->|]; [by rewrite Z.mul_0_r, Z.sub_0_r|]. replace (bpp - 6 * k) with (bpp - 6 - 6 * (k - 1)) by lia. apply IH; lia.
Qed.
End dp.

Lemma max_lanes_range d : 0 <= drm_dp_max_lane_count d <= 31.
Proof.
  unfold drm_dp_max_lane_count. change DP_MAX_LANE_COUNT_MASK with (Z.ones 5). rewrite Z.land_ones by lia. change (2 ^ 5) with 32.
  pose proof (Z.mod_pos_bound (dp_max_lanes d) 32 ltac:(lia)). lia.
Qed.

(** The rates that a search may use, and the depth it starts from. *)
Definition dp_codes (d : dp_sink) : list Z := if intel_dp_max_link_bw d =? DP_LINK_BW_2_7 then bws else [DP_LINK_BW_1_62].
Definition dp_bpp (d : dp_sink) (bpp : Z) : Z := if is_edp d && z2b (edp_bpp d) then cmin bpp (edp_bpp d) else bpp.

Lemma dp_link_spec d clock bpp : best_link (dp_codes d) clock (drm_dp_max_lane_count d) (dp_bpp d bpp) (dp_link d clock bpp).
Proof.
  unfold dp_link. fold (dp_bpp d bpp).
  assert (take (S (if intel_dp_max_link_bw d =? DP_LINK_BW_2_7 then 1%nat else 0%nat)) bws = dp_codes d) as -> by (unfold dp_codes; by destruct (_ =? _)).
  apply bpp_loop_spec; [apply max_lanes_range|done].
Qed.

(** A link that carries a mode has room for its data. *)
Lemma carries_room clock bpp max bw j : 0 <= clock <= 1000000 → 0 <= bpp <= 64 → max <= 31 → carries max (intel_dp_link_required clock bpp) bw j →
  bpp * clock <= drm_dp_bw_code_to_link_rate bw * 2 ^ j * 8 ∧ 1 <= 2 ^ j <= 31 ∧ 162000 <= drm_dp_bw_code_to_link_rate bw <= 540000.
Proof.
  intros Hc Hb Hm (Hj & Hle & Hrate). pose proof (Z.pow_pos_nonneg 2 j ltac:(lia) Hj) as Hp.
  assert (162000 <= drm_dp_bw_code_to_link_rate bw <= 540000) as Hl by (unfold drm_dp_bw_code_to_link_rate; repeat case_match; lia).
  split; [|lia]. unfold intel_dp_link_required, intel_dp_max_data_rate in Hrate.
  rewrite (i32_id (clock * bpp)), (i32_id (clock * bpp + 9)), (i32_id (_ * 2 ^ j)), (i32_id (_ * 2 ^ j * 8)) in Hrate by (unfold INT_MIN, INT_MAX; nia).
  rewrite !Z.quot_div_nonneg in Hrate by nia. Z.to_euclidean_division_equations. nia.
Qed.

(** ** Theorems *)

(** C27 (link_ratio_exact): for a ratio below 512, compute_m_n writes a power of two as N and the exact
    ratio times N, rounded down, as M; both fit 24 bits, and when the ratio is at most 1, N is the
    smallest power of two that is not below the denominator, or 2^23. *)
Theorem link_ratio_exact m n : 0 <= m → 1 <= n <= 2 ^ 31 → m < 512 * n →
  ∃ k M, compute_m_n m n = Some (M, 2 ^ k) ∧ 0 <= k <= 23 ∧ 0 <= M <= 0xffffff ∧ M * n <= m * 2 ^ k < (M + 1) * n ∧
    (m <= n → 2 ^ k = Z.min (2 ^ Z.log2_up n) (2 ^ 23)).
Proof.
  intros Hm Hn Hmn. destruct (compute_m_n_spec m n Hm Hn Hmn) as (k & Hk & Hc & Hmask & Hkn). exists k, (m * 2 ^ k / n). split; [done|]. split; [done|].
  pose proof (Z.pow_pos_nonneg 2 k ltac:(lia) ltac:(lia)) as Hp. split; [split; [apply Z.div_pos; nia|done]|]. split.
  - pose proof (Z.div_mod (m * 2 ^ k) n ltac:(lia)). pose proof (Z.mod_pos_bound (m * 2 ^ k) n ltac:(lia)). nia.
  - intros Hle. rewrite (Hkn Hle). pose proof (Z.log2_up_nonneg n) as Hl. destruct (Z.min_spec (Z.log2_up n) 23) as [[Hc1 ->]|[Hc1 ->]].
    + symmetry. apply Z.min_l. apply Z.pow_le_mono_r; lia.
    + symmetry. apply Z.min_r. apply Z.pow_le_mono_r; lia.
Qed.

(** C28 (fdi_config_settles): the search for FDI lanes ends; it takes the deepest colours, in steps of 6 bits, whose lanes the
    pipe may have, the lanes carry the mode with 5 percent in reserve and none is superfluous, and
    the ratio of the data is at most 1.  If it says RETRY, the second run at the depth that
    it found keeps this depth and succeeds or fails for good. *)
Theorem fdi_config_settles dev bios st pipe clock pixel_multiplier bpp :
  0 <= pipe <= 2 → 0 <= clock <= 1000000 → 1 <= pixel_multiplier < 2 ^ 32 → 0 <= bpp <= 64 → 4 <= intel_fdi_link_freq dev bios <= 42 →
  let dotclock := clock / pixel_multiplier in
  let link_bw := 10000 * intel_fdi_link_freq dev bios in
  ∃ ret lanes bpp' m_n, ironlake_fdi_compute_config dev bios st pipe clock pixel_multiplier bpp None = Some (ret, lanes, bpp', m_n) ∧
    fdi_result st pipe dotclock link_bw bpp false (ret, lanes, bpp', m_n) ∧
    (0 <= bpp' → fdi_rate dotclock bpp' < lanes * (link_bw * 8) ∧ (lanes - 1) * (link_bw * 8) <= fdi_rate dotclock bpp') ∧
    (ret = RETRY → ∃ ret', (ret' = 0 ∧ lanes_ok st pipe dotclock link_bw bpp' ∨ ret' = - EINVAL ∧ ¬ lanes_ok st pipe dotclock link_bw bpp') ∧
       ∃ m_n', ironlake_fdi_compute_config dev bios st pipe clock pixel_multiplier bpp' None = Some (ret', lanes, bpp', m_n')).
Proof.
  intros Hp Hc Hmult Hb Hfreq dotclock link_bw. set (freq := intel_fdi_link_freq dev bios) in *.
  assert (0 <= clock / pixel_multiplier <= 1000000) as Hdot by (split; [apply Z.div_pos; lia|apply Z.div_le_upper_bound; nia]).
  assert (∀ b, 0 <= b <= 64 → ∃ res, ironlake_fdi_compute_config dev bios st pipe clock pixel_multiplier b None = Some res ∧ fdi_result st pipe dotclock link_bw b false res) as Hrun.
  { intros b Hb'. unfold ironlake_fdi_compute_config. fold freq.
    rewrite (u32_id clock), (u32_id pixel_multiplier) by lia. unfold udiv32. rewrite (proj2 (Z.eqb_neq _ _)) by lia. cbn [mbind option_bind].
    rewrite i32_id by (unfold INT_MIN, INT_MAX; lia).
    assert (fdi_link_bw freq = link_bw) as ->.
    { unfold fdi_link_bw, link_bw. rewrite u32_id by lia. rewrite Z.div_div by lia. replace (freq * 100000000) with (10000 * freq * (1000 * 10)) by lia. by rewrite Z.div_mul by lia. }
    apply (fdi_retry_spec st pipe (clock / pixel_multiplier) link_bw Hp Hdot ltac:(unfold link_bw; lia)); lia. }
  destruct (Hrun bpp Hb) as ([[[ret lanes] bpp'] m_n] & Hres & Hspec). exists ret, lanes, bpp', m_n. split; [done|]. split; [done|].
  destruct Hspec as (k & Hk & Hbk & Hla & Hfail & Hend & H12 & Hret & _). split.
  - intros Hb0. rewrite Hla. destruct (lanes_carry dotclock link_bw bpp' ltac:(unfold dotclock; lia) Hb0 ltac:(unfold link_bw; lia)) as (H1 & H2 & _). done.
  - intros Hr. assert (0 < k) as Hk0.
    { destruct (decide (k = 0)) as [->|]; [|lia]. rewrite Hret in Hr. cbn in Hr. by case_bool_decide. }
    destruct H12 as [->|H12]; [lia|]. destruct (Hrun bpp' ltac:(lia)) as ([[[ret2 lanes2] bpp2] m_n2] & Hres2 & (k2 & Hk2 & Hb2 & Hla2 & Hfail2 & _ & H122 & Hret2 & _)).
    assert (k2 = 0) as ->.
    { destruct (decide (k2 = 0)) as [|Hne]; [done|]. destruct H122 as [|H122]; [done|]. destruct Hend as [Hok|Hlow]; [|lia].
      destruct (Hfail2 0 ltac:(lia)). by rewrite Z.mul_0_r, Z.sub_0_r. }
    rewrite Z.mul_0_r, Z.sub_0_r in Hb2. subst bpp2. exists ret2. cbn [orb] in Hret2. change (0 <? 0) with false in Hret2. cbv iota in Hret2. split.
    + rewrite Hret2. case_bool_decide; auto.
    + exists m_n2. by rewrite Hres2, Hla2, Hla.
Qed.

(** What a configuration holds, by the link that the search chose. *)
Lemma dp_config_run dev d clock bpp : 0 <= clock <= 1000000 → 0 <= bpp <= 64 →
  ∃ r, intel_dp_compute_config dev d clock bpp false = Some r ∧
    match r with
    | None => dp_link d clock bpp = None
    | Some c =>
        dp_link d clock bpp = Some (dp_link_bw c, dp_lane_count c, dp_pipe_bpp c) ∧
        dp_port_clock c = drm_dp_bw_code_to_link_rate (dp_link_bw c) ∧
        ratio_of (dp_pipe_bpp c * clock) (dp_port_clock c * dp_lane_count c * 8) (gmch_m (dp_m_n c), gmch_n (dp_m_n c)) ∧
        ratio_of clock (dp_port_clock c) (link_m (dp_m_n c), link_n (dp_m_n c)) ∧ gmch_m (dp_m_n c) <= gmch_n (dp_m_n c)
    end.
Proof.
  intros Hc Hb. unfold intel_dp_compute_config. pose proof (dp_link_spec d clock bpp) as Hspec.
  destruct (dp_link d clock bpp) as [[[bw lanes] b]|]; [|by exists None]. destruct Hspec as (k & pre & post & j & Hk & Hbk & H18 & _ & _ & _ & Hl & Hca & _).
  assert (b <= 64) as Hb64.
  { enough (dp_bpp d bpp <= bpp) by lia. unfold dp_bpp. case_match; [rewrite cmin_min; lia|lia]. }
  destruct (carries_room clock b (drm_dp_max_lane_count d) bw j Hc ltac:(lia) ltac:(pose proof (max_lanes_range d); lia) Hca) as (Hroom & Hj & Hrate). rewrite <- Hl in *.
  destruct (link_m_n_spec b lanes clock (drm_dp_bw_code_to_link_rate bw) Hc ltac:(lia) ltac:(lia) ltac:(lia) Hroom ltac:(lia)) as (mn & -> & _ & Hdata & Hlink & Hle).
  cbn [mbind option_bind]. eexists. split; [done|]. done.
Qed.

(** C29 (dp_config_best): intel_dp_compute_config refuses a mode exactly if no depth down to 18 bits fits any link;
    otherwise it takes the deepest colours that fit, for these the lower rate, and for
    this the fewest lanes, and the ratio of the data that it programs is at most 1. *)
Theorem dp_config_best dev d clock bpp : 0 <= clock <= 1000000 → 0 <= bpp <= 64 →
  ∃ r, intel_dp_compute_config dev d clock bpp false = Some r ∧
    match r with
    | None => best_link (dp_codes d) clock (drm_dp_max_lane_count d) (dp_bpp d bpp) None
    | Some c =>
        best_link (dp_codes d) clock (drm_dp_max_lane_count d) (dp_bpp d bpp) (Some (dp_link_bw c, dp_lane_count c, dp_pipe_bpp c)) ∧
        dp_port_clock c = drm_dp_bw_code_to_link_rate (dp_link_bw c) ∧
        ratio_of (dp_pipe_bpp c * clock) (dp_port_clock c * dp_lane_count c * 8) (gmch_m (dp_m_n c), gmch_n (dp_m_n c)) ∧
        ratio_of clock (dp_port_clock c) (link_m (dp_m_n c), link_n (dp_m_n c)) ∧ gmch_m (dp_m_n c) <= gmch_n (dp_m_n c)
    end.
Proof.
  intros Hc Hb. destruct (dp_config_run dev d clock bpp Hc Hb) as (r & Hrun & Hr). exists r. split; [done|].
  pose proof (dp_link_spec d clock bpp) as Hspec. destruct r as [c|]; [|by rewrite Hr in Hspec].
  destruct Hr as (Hl & Hr). by rewrite Hl in Hspec.
Qed.

(** A mode that intel_dp_mode_valid accepts for an external display can be
    configured at every multiple of 6 bits from 18, provided the sink has a power of two of lanes. *)
Theorem dp_valid_configurable dev d hdisplay vdisplay clock dblclk bpp j :
  is_edp d = false → 0 <= j → drm_dp_max_lane_count d = 2 ^ j → 0 <= clock <= 1000000 → 18 <= bpp <= 64 → bpp mod 6 = 0 →
  intel_dp_mode_valid d hdisplay vdisplay clock dblclk = MODE_OK → ∃ c, intel_dp_compute_config dev d clock bpp dblclk = Some (Some c).
Proof.
  intros Hedp Hj Hmax Hc Hb Hmod Hvalid. unfold intel_dp_mode_valid in Hvalid. rewrite Hedp in Hvalid.
  destruct (Z.ltb_spec (intel_dp_max_data_rate (drm_dp_bw_code_to_link_rate (intel_dp_max_link_bw d)) (drm_dp_max_lane_count d)) (intel_dp_link_required clock 18)) as [|Hrate]; [done|].
  destruct (clock <? 10000); [done|]. destruct dblclk; [done|].
  destruct (dp_config_run dev d clock bpp Hc ltac:(lia)) as ([c|] & Hrun & Hnone); [by exists c|exfalso].
  pose proof (dp_link_spec d clock bpp) as Hr. rewrite Hnone in Hr.
  unfold best_link in Hr. unfold dp_bpp in Hr. rewrite Hedp in Hr. cbn [andb] in Hr.
  apply (Hr ((bpp - 18) / 6) ltac:(apply Z.div_pos; lia) ltac:(Z.to_euclidean_division_equations; lia) (intel_dp_max_link_bw d) j).
  - unfold dp_codes, intel_dp_max_link_bw. repeat case_match; rewrite ?orb_true_iff, ?orb_false_iff, ?Z.eqb_eq, ?Z.eqb_neq in *; unfold bws; subst; rewrite ?elem_of_cons; intuition congruence.
  - split; [done|]. split; [lia|]. rewrite <- Hmax. replace (bpp - 6 * ((bpp - 18) / 6)) with 18; [done|]. Z.to_euclidean_division_equations. lia.
Qed.

(** ** Witnesses *)

Definition demo_fdi_dev : display_dev := mk_display (demo_chip 7 true) false false true false false 0 false 0.

(** Pipe B uses four lanes of the FDI, or two. *)
Definition demo_fdi : fdi_state := mk_fdi false 3 true 4 false.
Definition demo_fdi_c : fdi_state := mk_fdi false 3 true 2 true.

(** 1920x1080 on a DisplayPort link of 2.7 Gbit/s. *)
Lemma link_ratio_exact_witness :
  (∃ k M, compute_m_n 148500 270000 = Some (M, 2 ^ k) ∧ 0 <= k <= 23 ∧ 0 <= M <= 0xffffff ∧ M * 270000 <= 148500 * 2 ^ k < (M + 1) * 270000 ∧
    (148500 <= 270000 → 2 ^ k = Z.min (2 ^ Z.log2_up 270000) (2 ^ 23))) ∧
  compute_m_n 148500 270000 = Some (288358, 524288).
Proof. split; [by apply (link_ratio_exact 148500 270000)|by vm_compute]. Defined.

(** Pipe C beside pipe B on two lanes: 1920x1080 falls from 30 to 24 bits on two lanes, and the second run
    takes them; beside pipe B on four lanes it fails. *)
Lemma fdi_config_settles_witness :
  (let dotclock := 241500 / 1 in
   let link_bw := 10000 * intel_fdi_link_freq demo_fdi_dev 0 in
   ∃ ret lanes bpp' m_n, ironlake_fdi_compute_config demo_fdi_dev 0 demo_fdi_c 2 241500 1 30 None = Some (ret, lanes, bpp', m_n) ∧
     fdi_result demo_fdi_c 2 dotclock link_bw 30 false (ret, lanes, bpp', m_n) ∧
     (0 <= bpp' → fdi_rate dotclock bpp' < lanes * (link_bw * 8) ∧ (lanes - 1) * (link_bw * 8) <= fdi_rate dotclock bpp') ∧
     (ret = RETRY → ∃ ret', (ret' = 0 ∧ lanes_ok demo_fdi_c 2 dotclock link_bw bpp' ∨ ret' = - EINVAL ∧ ¬ lanes_ok demo_fdi_c 2 dotclock link_bw bpp') ∧
        ∃ m_n', ironlake_fdi_compute_config demo_fdi_dev 0 demo_fdi_c 2 241500 1 bpp' None = Some (ret', lanes, bpp', m_n'))) ∧
  (∃ m_n, ironlake_fdi_compute_config demo_fdi_dev 0 demo_fdi_c 2 148500 1 30 None = Some (RETRY, 2, 24, m_n)) ∧
  (∃ m_n, ironlake_fdi_compute_config demo_fdi_dev 0 demo_fdi_c 2 148500 1 24 None = Some (0, 2, 24, m_n)) ∧
  (∃ m_n, ironlake_fdi_compute_config demo_fdi_dev 0 demo_fdi 2 148500 1 18 None = Some (- EINVAL, 2, 18, m_n)).
Proof.
  split; [apply (fdi_config_settles demo_fdi_dev 0 demo_fdi_c 2 241500 1 30); vm_compute; intuition congruence|].
  repeat split; eexists; by vm_compute.
Defined.

Definition demo_sink : dp_sink := mk_sink DP_LINK_BW_2_7 4 false 0 None.
Definition demo_sink3 : dp_sink := mk_sink DP_LINK_BW_2_7 3 false 0 None.

(** 1920x1080: four slow lanes rather than two fast ones. *)
Lemma dp_config_best_witness :
  (∃ r, intel_dp_compute_config demo_fdi_dev demo_sink 148500 24 false = Some r ∧
    match r with
    | None => best_link (dp_codes demo_sink) 148500 (drm_dp_max_lane_count demo_sink) (dp_bpp demo_sink 24) None
    | Some c =>
        best_link (dp_codes demo_sink) 148500 (drm_dp_max_lane_count demo_sink) (dp_bpp demo_sink 24) (Some (dp_link_bw c, dp_lane_count c, dp_pipe_bpp c)) ∧
        dp_port_clock c = drm_dp_bw_code_to_link_rate (dp_link_bw c) ∧
        ratio_of (dp_pipe_bpp c * 148500) (dp_port_clock c * dp_lane_count c * 8) (gmch_m (dp_m_n c), gmch_n (dp_m_n c)) ∧
        ratio_of 148500 (dp_port_clock c) (link_m (dp_m_n c), link_n (dp_m_n c)) ∧ gmch_m (dp_m_n c) <= gmch_n (dp_m_n c)
    end) ∧
  intel_dp_compute_config demo_fdi_dev demo_sink 148500 24 false =
    Some (Some (mk_dp DP_LINK_BW_1_62 4 24 162000 (mk_m_n 64 5767168 8388608 240298 262144) (Some (divisors 1 12 9 2 10)))).
Proof. split; [by apply (dp_config_best demo_fdi_dev demo_sink 148500 24)|by vm_compute]. Defined.

(** With three lanes a mode of 350 MHz passes intel_dp_mode_valid and is refused when it is set. *)
Lemma dp_valid_configurable_witness :
  (∃ c, intel_dp_compute_config demo_fdi_dev demo_sink 350000 24 false = Some (Some c)) ∧
  intel_dp_mode_valid demo_sink3 2560 1600 350000 false = MODE_OK ∧
  intel_dp_compute_config demo_fdi_dev demo_sink3 350000 24 false = Some None.
Proof. split; [by apply (dp_valid_configurable demo_fdi_dev demo_sink 2560 1600 350000 false 24 2)|by vm_compute]. Defined.
